(* ===== verification/_CoqProject ===== *)
-Q . S2P
Prelude.v
Text.v
Json.v
JsMap.v
CoreTypes.v
Errors.v
Wire.v
Upcaster.v
Hash.v
Uuid.v
Stores.v
Sql.v
SqlRefine.v
DrizzleStores.v
PrismaStores.v
TypeormStores.v
SqlStores.v
SqlAdapters.v
Schema.v
Broker.v
Kafka.v
Nats.v
Rabbit.v
AggregateChains.v
Logger.v
Tracing.v
Host.v
Idempotency.v
Outbox.v
UnitOfWork.v
SyncSqlite.v
Locker.v
AdvisoryLock.v
LockProtocol.v
Metadata.v
Concurrency.v
World.v
CommandExecutor.v
Frames.v
CommandCorrect.v
Buses.v
SagaExecutor.v
Projection.v
Domain.v
Wiring.v
Init.v
Assembly.v
ReadModel.v
OutboxCommit.v
OutboxDelivery.v
Harness.v
DomainHarness.v
TypedDomain.v
SampleFlashSale.v
SampleAuction.v
SampleHotelRooms.v
SampleHotelBooking.v
SampleHotelInventory.v
SampleHotelSagas.v
SampleHotelHttp.v
SampleHotel.v
Naming.v
Templates.v
JsonIndent.v
Diagram.v
DiagramCommand.v
Scaffold.v
AddGenerators.v
CliCommands.v
NestModule.v
