(* ===== verification/Prelude.v ===== *)
(** * noddde: a verified model of the framework

    noddde is a TypeScript framework for domain-driven design: aggregates decide on
    commands and evolve through events, projections turn events into views, sagas
    react to events with commands.  [packages/core] declares the types and the pure
    functions, [packages/engine] runs a domain, [packages/adapters] connects it to
    databases and brokers, [packages/integrations] to NestJS, [packages/cli]
    generates, extends and draws domains, and [packages/testing] tests them.  This library
    models all six, and the domains of the three [samples] as clients of the engine.

    ** How the parts interact

    [wireDomain] resolves a configuration ([Wiring.v]), registers handlers on the buses
    ([Init.v]) and connects what it made ([Assembly.v]).  A command enters through
    [Domain.dispatchCommand] or a bus ([Domain.v], [Buses.v]), and the command executor
    ([CommandExecutor.v]) loads the aggregate from a store ([Stores.v], or the SQL stores
    of the adapters), replays its upcast history ([Upcaster.v]), lets it decide, enriches
    the events ([Metadata.v]), and enlists the writes in a unit of work ([UnitOfWork.v])
    under a concurrency strategy ([Concurrency.v], [Locker.v], [AdvisoryLock.v]).
    Strongly consistent projections and the outbox add their own writes to the same
    unit of work ([Projection.v], [Outbox.v]).  After the commit the events go to the
    event bus, in process or over a broker ([Kafka.v], [Nats.v], [Rabbit.v]), whose
    listeners are projections, sagas ([SagaExecutor.v]) and standalone handlers; the
    relay ([Outbox.v]) delivers what was not delivered.  The diagram command
    ([Diagram.v]) reads the same definition that [Assembly.init] runs; the generators
    ([Scaffold.v]) and the additions ([AddGenerators.v]) share templates and names.

    ** Files and sources (under [src/packages])

    Foundations:
    - [Prelude.v] (this file): values and identifiers of JavaScript, errors, the state
      and error monad [M S A], lenses, and the lemmas about them.
    - [Text.v], [Json.v], [JsonIndent.v]: strings, dates, [JSON.stringify] and
      [JSON.parse] of the language.
    - [JsMap.v]: the JavaScript [Map], an association list in insertion order.
    - [Host.v]: the clock and the random numbers the platform supplies.

    The core ([core/src]):
    - [CoreTypes.v]: events, commands, aggregates, projections, sagas, snapshots,
      idempotency records, outbox entries.
    - [Errors.v]: the error classes of the core and the engine.
    - [Wire.v]: events as objects and as JSON texts.
    - [Upcaster.v]: [edd/upcaster.ts].  [Hash.v]: [persistence/hash.ts].

    The engine ([engine/src]):
    - [Uuid.v]: [uuid.ts].  [Logger.v]: [logger.ts].  [Tracing.v]: [tracing.ts].
    - [Stores.v]: the store interfaces of [core/src/persistence] and the in-memory
      stores (Modules [EventStore], [StateStore], [SagaStore], [SnapStore], [Views]); the
      classes [EventStoreSpec], [SnapshotStoreSpec] and the like state what a store
      promises to its clients.  [World.v]: one instance of each, as one state.
    - [Idempotency.v]: the two idempotency stores and [core/src/edd/event-idempotency.ts].
    - [Outbox.v]: the in-memory outbox and [outbox-relay.ts].
    - [UnitOfWork.v]: the in-memory unit of work, those of the three database adapters
      ([adapters/*/src/unit-of-work.ts]) and [uow-completion-hooks.ts].
    - [Locker.v]: [in-memory-aggregate-locker.ts] and [keyed-mutex.ts] of the Prisma and
      TypeORM adapters, as step relations.
    - [Metadata.v]: [executors/metadata-enricher.ts].
    - [Concurrency.v]: [concurrency-strategy.ts], and the state [Exec] of a running
      operation: the world, the active unit of work and the active metadata context
      (the two [AsyncLocalStorage] cells).
    - [CommandExecutor.v], [Frames.v], [CommandCorrect.v]:
      [executors/command-lifecycle-executor.ts], what it leaves alone, its theorems.
    - [Buses.v]: the three in-process buses.
    - [SagaExecutor.v]: [executors/saga-executor.ts].
    - [Projection.v]: the projections of [domain.ts] and [projection-rebuild.ts].
    - [Domain.v], [Wiring.v], [Init.v], [Assembly.v]: [domain.ts]: the operations of a
      running domain, the resolution of the configuration, the registration, and
      [wireDomain] as a whole.
    - [ReadModel.v]: a domain from configuration to views, end to end.
    - [OutboxCommit.v], [OutboxDelivery.v]: the outbox from command to delivery, end to end.

    The adapters ([adapters]):
    - [Sql.v], [SqlRefine.v]: tables as the ORMs offer them, the abstract stores, and the
      refinements that the three adapters share.
    - [DrizzleStores.v], [PrismaStores.v], [TypeormStores.v]: the stores, readers and
      dedicated tables; [SqlStores.v]: their theorems; [SqlAdapters.v]: the builders and
      adapters; [Schema.v]: the declared tables and entities.
    - [AdvisoryLock.v], [LockProtocol.v]: the database lockers, and the system of several
      processes on one database.
    - [Broker.v]: what the broker adapters share.  [Kafka.v], [Nats.v], [Rabbit.v]: the
      three event buses.  [AggregateChains.v]: the promise chains of the RabbitMQ one.

    NestJS ([integrations/nestjs/src]): [NestModule.v].

    The command line tool ([cli/src]):
    - [Naming.v]: [utils/naming.ts], [context.ts], [event-naming.ts].
    - [Templates.v]: [templates], as data.
    - [Scaffold.v]: the five generators, [utils/fs.ts], [cli-version.ts].
    - [AddGenerators.v]: [utils/file-modifier.ts] and the three additions.
    - [CliCommands.v]: [commands/new.ts], [add.ts], [utils/discovery.ts], [project.ts].
    - [Diagram.v], [DiagramCommand.v]: [diagram] and [commands/diagram.ts].

    Testing ([testing/src]):
    - [Harness.v]: the three Given-When-Then harnesses, the checks on metadata.
    - [DomainHarness.v]: [testDomain] and its spies, over [Assembly.v].

    The samples ([src/samples]):
    - [TypedDomain.v]: handlers of declared types inside the untyped engine (classes
      [Typed], [TypedAggregate], [TypedProjection]); what the engine keeps of a history for
      any aggregate whose deciders keep it, and the views of live delivery.
    - [SampleFlashSale.v], [SampleAuction.v]: [sample-flash-sale], [sample-auction].
    - [SampleHotelRooms.v], [SampleHotelBooking.v], [SampleHotelInventory.v]: the
      aggregates and the projections of [sample-hotel-booking].
    - [SampleHotelSagas.v]: its processes, services and standalone handlers.
    - [SampleHotelHttp.v], [SampleHotel.v]: its HTTP layer; the whole domain, assembled.

    ** How the code is represented

    An [async] function is a program of [M S A := S -> result A * S]: it returns or
    throws, and the state is kept when it throws.  An instance is a component of the
    state, reached by a lens; [zoom] runs code of a component inside a larger state.
    What a definition receives as an argument is code outside the sources (a database
    transaction, a table of an ORM, the client of a broker, the TypeScript compiler, a
    user's handler, a factory) or another component, whose promises are a class or the
    hypotheses of a theorem.  A promise awaited at once is a plain call; where suspension
    matters (locks, shutdown, the chains of a consumer) the code between two suspensions
    is one step of a relation and the theorems hold for every interleaving.  The error
    classes are constructors of [js_error].  Numbers that the source keeps below 2^53 are
    [nat] or [Z]; the hash and the identifiers, where the width matters, write out masks
    and shifts on [Z].  The files that the command line tool writes are a finite map from
    paths to texts.

    ** What the theorems show

    - Commands ([CommandCorrect.v]): a command is all or nothing; with an identifier it
      takes effect once; loading through a snapshot is a full replay, and saving
      snapshots keeps that true; inside an explicit unit of work nothing is written
      or published by the command itself.
    - Sagas: both atomicity modes, on success and on every kind of failure.
    - The runtime: the explicit unit of work; routing of commands; shutdown admits
      nothing and waits for what runs, under every interleaving; a rebuild is guarded,
      makes the views a function of the log, and agrees with live delivery; strong
      consistency writes views in the commit of the command.
    - Initialisation: every aggregate gets the persistence that its wiring names; every
      handler is registered once; the listeners of an event are exactly the declared
      ones; what [wireDomain] makes of an empty configuration, and every way it can fail.
    - End to end ([ReadModel.v]): in an assembled domain the views are at every moment a
      function of one order of the stored events that keeps the history of each instance.
    - End to end ([OutboxDelivery.v]): with the outbox, no stored event is lost, whatever
      fails or stops and however commands and relays interleave.
    - Units of work: commits are atomic where the adapter promises it, an instance
      completes once, the completion hooks run once.
    - Stores: no update is lost to a concurrent writer; the log is read whole and in
      order; the stores of the three SQL adapters refine append-only streams and
      compare-and-set, for databases that behave as documented; their rows are accepted
      by the declared tables; states survive the mappers of dedicated tables.
    - Events, texts: JSON and dates are read back as they were written.
    - Brokers: a failing message is delivered a bounded number of times, then parked,
      dead-lettered or terminated; every handler gets a subscription; connecting is
      bounded; a stream covers its subjects, when it does; one aggregate's deliveries are
      processed in order.
    - Concurrency: the number of retries; a lock is released whatever happens, or held
      until the unit of work settles; mutual exclusion and first-come first-served order
      of the in-process lockers, mutual exclusion of the database ones over several
      processes, by invariants of their reachable states; an acquisition times out.
    - Outbox, idempotency: what a poll and a drain do, that they terminate, and the
      window in which a claim is live.
    - Logger, tracing: a line of JSON can be read back; a span changes no outcome.
    - Upcasters, metadata, identifiers, hash, event bus: functional correctness, the
      format and the order of UUIDs, the 64-bit arithmetic of the hash, isolation of
      handler failures.
    - NestJS: what a started container holds; the relay runs between bootstrap and
      shutdown; a handler runs in the metadata context that its request gave.
    - The command line tool: names in every casing agree; a generated project imports only
      what it has, overwrites nothing, and can be extended by every sequence of additions;
      an addition keeps all the code that was there; the graph of a domain has exactly the
      nodes and edges that its definition implies, and each of its texts shows them all.
    - Testing: what a harness reports of an aggregate, a saga or a projection is what the
      engine does; the spies account for every dispatch.
    - The samples, whatever commands arrive in whatever order, with failures, retries and
      snapshots: a room is never booked twice and the search offers rooms that can be
      reserved; bids rise, in time, until the auction is closed; a sale sells at most what
      its guard lets through; the inventory balances; a booking lives by its rules; the
      fulfillment process tells the booking and asks for what each event calls for.  End to
      end: one request books a room through the three processes of the assembled hotel.

    ** Fuel

    Loops over a shared array or a cursor take fuel and return [None] when it runs out;
    the theorems give the enough fuel as a hypothesis and conclude that the result is
    there: [EventBus.dispatch_loop] (handlers plus one), [drain_loop] (one more than the
    pending entries), [replay_loop] (events plus one), the [read] of the event readers
    (one more than the events), [consume] and [redeliver] (one more than the failures
    of the message), [pg_poll] (one more than the polls that fit before the deadline),
    [lock_local] (the turns of the mutex).  [reconnectPersistently] tries for ever: [None]
    says that it is still trying.  [parse] gives its reader twice the length of the text
    and two, enough for every text ([Json.parse_print]); [digits] has one unit of fuel per
    binary digit.  [infrastructure_at] cuts the recursion of handlers that dispatch at a
    depth, for every depth; [extractSagaTypeArgument] cuts that of intersections, which
    the compiler flattens.  [findOwnPackageJson] looks in six directories, as the source.

    ** What is not modelled

    Type-level code, which has no run-time content; the integration contracts (suites of
    test cases for real databases and brokers) and the scripts of the repository; the entry
    points of the samples, which start containers and print, and the view store that the
    hotel keeps in a column of JSON, which depends on how the driver reads it; the parsing of the command line and the drawing of prompts;
    the connections that a locker opens itself ([fromUrl]).  Spans and log lines are left
    out where they occur, for they do not change an outcome ([Tracing.v], [Logger.v] model
    the classes).  The network, timers other than those of locks, retries and shutdown, and
    the scheduling of promises inside one call are not represented; numbers of messages and
    payloads are integers; letters outside ASCII have no case. *)
From stdpp Require Export base tactics list option strings sets relations.
From Stdlib Require Export ZArith Lia.
From Stdlib Require Ascii.

#[global] Set Default Goal Selector "!".
#[global] Set Warnings "-register-all".

(** [x] is the first element of [l] with [P], and [x] the first element of [l] that
    occurred before. *)
Definition first_in {A} (P : A -> Prop) (l : list A) (x : A) : Prop :=
  exists l1 l2, l = (l1 ++ x :: l2)%list /\ Forall (fun y => ~ P y) l1 /\ P x.

Definition first_repeat {A} (l : list A) (x : A) : Prop :=
  exists l1 l2, l = (l1 ++ x :: l2)%list /\ NoDup l1 /\ x ∈ l1.

Lemma first_in_iff {A} (P Q : A -> Prop) l x : (forall y, P y <-> Q y) -> first_in P l x -> first_in Q l x.
Proof.
  intros H (l1 & l2 & -> & H1 & H2). exists l1, l2. split; [done |]. split; [| by apply H].
  eapply Forall_impl; [exact H1 |]. intros y Hy Hq. by apply Hy, H.
Qed.

Lemma first_repeat_not_NoDup {A} (l : list A) x : first_repeat l x -> x ∈ l /\ ~ NoDup l.
Proof.
  intros (l1 & l2 & -> & _ & Hin). split; [apply elem_of_app; by left |].
  intros (_ & H & _)%NoDup_app. by apply (H x Hin), list_elem_of_here.
Qed.

Lemma find_first_in {A} (f : A -> bool) (P : A -> Prop) (l : list A) :
  (forall x, f x = true <-> P x) ->
  match List.find f l with
  | Some x => first_in P l x
  | None => Forall (fun y => ~ P y) l
  end.
Proof.
  intros Hf. induction l as [| x l IH]; [constructor |]. cbn [List.find]. destruct (f x) eqn:E.
  - exists [], l. split; [done |]. split; [constructor | by apply Hf].
  - assert (Hx : ~ P x) by (rewrite <- Hf; congruence). destruct (List.find f l) as [y |].
    + destruct IH as (l1 & l2 & -> & H1 & H2). exists (x :: l1), l2. split; [done |]. by split; [constructor |].
    + by constructor.
Qed.

(** ** JavaScript values and identifiers *)

(** A value of TypeScript type [any], as far as the engine can observe it.
    Numbers that the program computes with (versions, prices, milliseconds) are
    integers; symbols carry their description ([DeleteView] is one). *)
Inductive value : Type :=
| VUndefined
| VNull
| VBool (b : bool)
| VNum (n : Z)
| VBig (n : Z)
| VStr (s : string)
| VDate (ms : Z)
| VSymbol (description : string)
| VArr (items : list value)
| VObj (fields : list (string * value)).

(** [v == null], the test behind [??] and [!= null]. *)
Definition nullish (v : value) : bool :=
  match v with VUndefined | VNull => true | _ => false end.

(** [v ?? d]. *)
Definition coalesce (v d : value) : value := if nullish v then d else v.

(** [o ?? d] on a field that may be absent. *)
Definition or_default {A} (o : option A) (d : A) : A :=
  match o with Some a => a | None => d end.

(** [type ID = string | number | bigint]. *)
Inductive ID : Type :=
| IdStr (s : string)
| IdNum (n : Z)
| IdBig (n : Z).

#[export] Instance ID_eq_dec : EqDecision ID.
Proof. solve_decision. Defined.

(** An optional object is truthy when it is present. *)
Definition is_some {A} (o : option A) : bool := match o with Some _ => true | None => false end.

(** Decimal digits of a positive number, most significant first: [fuel] bounds
    the number of digits. *)
Fixpoint digits (fuel : nat) (n : Z) (acc : string) : string :=
  match fuel with
  | O => acc
  | S fuel' =>
      let acc' := String (Ascii.ascii_of_nat (48 + Z.to_nat (n mod 10))) acc in
      if (n / 10 =? 0)%Z then acc' else digits fuel' (n / 10) acc'
  end.

(** [String(n)] for an integer. *)
Definition string_of_Z (n : Z) : string :=
  let a := Z.abs n in
  let ds := digits (S (Z.to_nat (Z.log2 a))) a EmptyString in
  if (n <? 0)%Z then String (Ascii.ascii_of_nat 45) ds else ds.

(** [String(id)], which is also what a template literal makes of an identifier. *)
Definition string_of_ID (i : ID) : string :=
  match i with IdStr s => s | IdNum n | IdBig n => string_of_Z n end.

(** [`${name}:${id}`], the composite key of every in-memory store. *)
Definition composite_key (name : string) (i : ID) : string :=
  String.append name (String.append ":" (string_of_ID i)).

(** Text between double quotes, in an error message. *)
Definition quoted (s : string) : string :=
  String (Ascii.ascii_of_nat 34) (String.append s (String (Ascii.ascii_of_nat 34) EmptyString)).

(** ** Errors and results *)

(** What a rejected promise or a [throw] carries. *)
Inductive js_error : Type :=
| ConcurrencyError (aggregateName : string) (aggregateId : ID) (expectedVersion : nat) (actualVersion : Z)
| IdempotencyConflictError (commandId : ID)
| LockTimeoutError (aggregateName : string) (aggregateId : ID) (timeoutMs : Z)
| DomainShutdownError
| ProjectionNotFoundError (projectionName : string)
| StrongConsistencyRebuildError (projectionName : string)
| MissingViewStoreFactoryError (projectionName : string)
| ViewStoreNotTruncatableError (projectionName : string)
| EventReaderUnavailableError
| LateSubscriptionError (eventName : string)
| ExchangeTypeMismatchError (exchangeName exchangeType cause : string)
| RangeError (message : string)
| TypeError (message : string)
| PlainError (message : string)
| DriverError (props : list (string * value))   (** a library's Error, with its own properties *)
| ThrownValue (v : value).

(** [error instanceof ConcurrencyError]. *)
Definition is_concurrency_error (e : js_error) : bool :=
  match e with ConcurrencyError _ _ _ _ => true | _ => false end.

Inductive result (A : Type) : Type :=
| Ok (a : A)
| Err (e : js_error).
Arguments Ok {A} _.
Arguments Err {A} _.

Definition is_ok {A} (r : result A) : bool := match r with Ok _ => true | Err _ => false end.

(** Sequencing of pure code that may throw. *)
Definition result_bind {A B} (r : result A) (f : A -> result B) : result B :=
  match r with Ok a => f a | Err e => Err e end.

Lemma result_bind_inv {A B} (r : result A) (f : A -> result B) b :
  result_bind r f = Ok b -> exists a, r = Ok a /\ f a = Ok b.
Proof. destruct r; [by eauto | done]. Qed.

(** [reduce] with a callback that may throw. *)
Fixpoint fold_result {A B} (f : B -> A -> result B) (l : list A) (b : B) : result B :=
  match l with
  | [] => Ok b
  | x :: l' => result_bind (f b x) (fun b' => fold_result f l' b')
  end.

(** [map] with a callback that may throw. *)
Fixpoint map_result {A B} (f : A -> result B) (l : list A) : result (list B) :=
  match l with
  | [] => Ok []
  | x :: l' => result_bind (f x) (fun y => result_bind (map_result f l') (fun ys => Ok (y :: ys)))
  end.

(** ** Stateful code that may throw

    An async function that reads and writes a state of type [S] and is awaited
    where it is called. An error does not undo the writes made before it. *)
Definition M (S A : Type) : Type := S -> result A * S.

Definition ret {S A} (a : A) : M S A := fun s => (Ok a, s).
Definition throw {S A} (e : js_error) : M S A := fun s => (Err e, s).
Definition bind {S A B} (m : M S A) (k : A -> M S B) : M S B :=
  fun s => match m s with (Ok a, s') => k a s' | (Err e, s') => (Err e, s') end.
Definition get {S} : M S S := fun s => (Ok s, s).
Definition gets {S A} (f : S -> A) : M S A := fun s => (Ok (f s), s).
Definition modify {S} (f : S -> S) : M S unit := fun s => (Ok tt, f s).
Definition lift_result {S A} (r : result A) : M S A := fun s => (r, s).

(** [try { m } catch (e) { h(e) }] *)
Definition try_catch {S A} (m : M S A) (h : js_error -> M S A) : M S A :=
  fun s => match m s with (Ok a, s') => (Ok a, s') | (Err e, s') => h e s' end.

(** [try { m } finally { f }]: an error of [f] replaces the outcome of [m]. *)
Definition try_finally {S A} (m : M S A) (f : M S unit) : M S A :=
  fun s => let '(r, s') := m s in
           match f s' with (Ok _, s'') => (r, s'') | (Err e, s'') => (Err e, s'') end.

(** Best-effort code: [try { m } catch { }]. *)
Definition swallow {S} (m : M S unit) : M S unit := try_catch m (fun _ => ret tt).

Declare Scope js_scope.
Delimit Scope js_scope with js.
Notation "x <- m ;; k" := (bind m (fun x => k))
  (at level 100, m at next level, right associativity) : js_scope.
Notation "m ;;; k" := (bind m (fun _ => k))
  (at level 100, k at level 200, right associativity) : js_scope.
#[global] Open Scope js_scope.

(** [for (const x of l) { await f(x); }] *)
Fixpoint for_each {S A} (l : list A) (f : A -> M S unit) : M S unit :=
  match l with
  | [] => ret tt
  | x :: l' => f x ;;; for_each l' f
  end.

(** A part of a state: one store of a larger world. *)
Record lens (S T : Type) : Type := Lens { lget : S -> T; lset : T -> S -> S }.
Arguments Lens {S T} _ _.
Arguments lget {S T} _ _.
Arguments lset {S T} _ _ _.

Class LensLaws {S T} (l : lens S T) : Prop := {
  lget_lset : forall t s, lget l (lset l t s) = t;
  lset_lget : forall s, lset l (lget l s) s = s;
  lset_lset : forall t t' s, lset l t (lset l t' s) = lset l t s
}.

(** A method of one store, run in the world that holds the store. *)
Definition zoom {S T A} (l : lens S T) (m : M T A) : M S A :=
  fun s => let '(r, t) := m (lget l s) in (r, lset l t s).

(** The components of a pair. *)
Definition fst_lens {A B} : lens (A * B) A := Lens fst (fun a s => (a, snd s)).
Definition snd_lens {A B} : lens (A * B) B := Lens snd (fun b s => (fst s, b)).
Definition compose_lens {S T U} (l : lens S T) (l' : lens T U) : lens S U :=
  Lens (fun s => lget l' (lget l s)) (fun u s => lset l (lset l' u (lget l s)) s).

#[export] Instance fst_lens_laws {A B} : LensLaws (@fst_lens A B).
Proof. by split; intros; repeat match goal with s : _ * _ |- _ => destruct s end. Qed.
#[export] Instance snd_lens_laws {A B} : LensLaws (@snd_lens A B).
Proof. by split; intros; repeat match goal with s : _ * _ |- _ => destruct s end. Qed.
#[export] Instance compose_lens_laws {S T U} (l : lens S T) (l' : lens T U) :
  LensLaws l -> LensLaws l' -> LensLaws (compose_lens l l').
Proof. intros H H'. split; intros; simpl; by rewrite ?lget_lset, ?lset_lget, ?lset_lset. Qed.

(** Two parts of a state that have nothing in common. *)
Class Disjoint {S T U} (l : lens S T) (l' : lens S U) : Prop := {
  disj_l : forall u s, lget l (lset l' u s) = lget l s;
  disj_r : forall t s, lget l' (lset l t s) = lget l' s
}.

#[export] Instance fst_snd_disjoint {A B} : Disjoint (@fst_lens A B) (@snd_lens A B).
Proof. by split. Qed.
#[export] Instance compose_disjoint_l {S T U V} (l : lens S T) (l' : lens S U) (m : lens T V) :
  LensLaws l -> Disjoint l l' -> Disjoint (compose_lens l m) l'.
Proof. intros Hl [H1 H2]. split; intros; simpl; [by rewrite H1 | by rewrite H2]. Qed.
#[export] Instance compose_disjoint_in {S T U V} (l : lens S T) (m : lens T U) (m' : lens T V) :
  LensLaws l -> Disjoint m m' -> Disjoint (compose_lens l m) (compose_lens l m').
Proof.
  intros Hl [H1 H2]. split; intros; simpl; rewrite lget_lset; [by rewrite H1 | by rewrite H2].
Qed.

(** ** Reasoning about stateful code

    [wp m Q E s]: run from [s], [m] either returns a value and a state that
    satisfy [Q], or throws an error and leaves a state that satisfy [E]. *)
Definition wp {S A} (m : M S A) (Q : A -> S -> Prop) (E : js_error -> S -> Prop) (s : S) : Prop :=
  match m s with (Ok a, s') => Q a s' | (Err e, s') => E e s' end.

(** Two programs that no state tells apart. *)
Definition M_eq {S A} (m m' : M S A) : Prop := forall s, m s = m' s.
Infix "≈" := M_eq (at level 70, no associativity) : js_scope.

#[export] Instance M_eq_equivalence {S A} : Equivalence (@M_eq S A).
Proof. split; repeat intro; [reflexivity | congruence | unfold M_eq in *; congruence]. Qed.

#[export] Instance bind_proper {S A B} :
  Proper (M_eq ==> pointwise_relation A M_eq ==> M_eq) (@bind S A B).
Proof.
  intros m m' Hm k k' Hk s. unfold bind. rewrite Hm.
  destruct (m' s) as [[a | e] s']; [apply Hk | reflexivity].
Qed.

#[export] Instance try_catch_proper {S A} :
  Proper (M_eq ==> pointwise_relation js_error M_eq ==> M_eq) (@try_catch S A).
Proof.
  intros m m' Hm h h' Hh s. unfold try_catch. rewrite Hm.
  destruct (m' s) as [[a | e] s']; [reflexivity | apply Hh].
Qed.

#[export] Instance try_finally_proper {S A} :
  Proper (M_eq ==> M_eq ==> M_eq) (@try_finally S A).
Proof.
  intros m m' Hm f f' Hf s. unfold try_finally. rewrite Hm.
  destruct (m' s) as [r s']. by rewrite Hf.
Qed.

#[export] Instance wp_proper {S A} :
  Proper (M_eq ==> eq ==> eq ==> eq ==> iff) (@wp S A).
Proof. intros m m' Hm Q ? <- E ? <- s ? <-. unfold wp. by rewrite Hm. Qed.

Lemma bind_ret_l {S A B} (a : A) (k : A -> M S B) : bind (ret a) k ≈ k a.
Proof. intros s. reflexivity. Qed.

Lemma bind_ret_r {S A} (m : M S A) : bind m ret ≈ m.
Proof. intros s. unfold bind. by destruct (m s) as [[a | e] s']. Qed.

Lemma bind_assoc {S A B C} (m : M S A) (f : A -> M S B) (g : B -> M S C) :
  bind (bind m f) g ≈ bind m (fun a => bind (f a) g).
Proof. intros s. unfold bind. by destruct (m s) as [[a | e] s']. Qed.

Lemma for_each_app {S A} (l1 l2 : list A) (f : A -> M S unit) :
  for_each (l1 ++ l2) f ≈ (for_each l1 f ;;; for_each l2 f).
Proof.
  induction l1 as [| x l1 IH]; simpl; [intros s; reflexivity |].
  setoid_rewrite IH. intros s. unfold bind. by destruct (f x s) as [[[] | e] s'].
Qed.

Lemma for_each_ext {S A} (l : list A) (f g : A -> M S unit) :
  (forall x, x ∈ l -> f x ≈ g x) -> for_each l f ≈ for_each l g.
Proof.
  induction l as [| x l IH]; intros H; [done |]. cbn [for_each].
  apply bind_proper; [apply H, list_elem_of_here |].
  intros _. apply IH. intros y Hy. by apply H, list_elem_of_further.
Qed.

Lemma for_each_one {S A} (x : A) (f : A -> M S unit) : for_each [x] f ≈ f x.
Proof. intros s. cbn [for_each]. unfold bind, ret. by destruct (f x s) as [[[] | e] s']. Qed.

Lemma for_each_map {S A B} (g : A -> B) (l : list A) (f : B -> M S unit) :
  for_each (map g l) f ≈ for_each l (fun x => f (g x)).
Proof. induction l as [| x l IH]; [done |]. cbn [for_each map]. apply bind_proper; [done |]. intros _. apply IH. Qed.

Lemma for_each_flat_map {S A B} (g : A -> list B) (l : list A) (f : B -> M S unit) :
  for_each (flat_map g l) f ≈ for_each l (fun x => for_each (g x) f).
Proof.
  induction l as [| x l IH]; [done |]. cbn [for_each flat_map]. rewrite for_each_app.
  apply bind_proper; [done |]. intros _. apply IH.
Qed.

Lemma wp_mono {S A} (m : M S A) Q Q' E E' s :
  wp m Q E s ->
  (forall a s', Q a s' -> Q' a s') ->
  (forall e s', E e s' -> E' e s') ->
  wp m Q' E' s.
Proof. unfold wp. destruct (m s) as [[a | e] s']; auto. Qed.

Lemma wp_and {S A} (m : M S A) Q Q' E E' s :
  wp m Q E s -> wp m Q' E' s ->
  wp m (fun a s' => Q a s' /\ Q' a s') (fun e s' => E e s' /\ E' e s') s.
Proof. unfold wp. destruct (m s) as [[a | e] s']; auto. Qed.

Lemma wp_ret {S A} (a : A) Q E (s : S) : wp (ret a) Q E s <-> Q a s.
Proof. reflexivity. Qed.

Lemma wp_throw {S A} (e : js_error) (Q : A -> S -> Prop) E s : wp (throw e) Q E s <-> E e s.
Proof. reflexivity. Qed.

Lemma wp_bind {S A B} (m : M S A) (k : A -> M S B) Q E s :
  wp (bind m k) Q E s <-> wp m (fun a s' => wp (k a) Q E s') E s.
Proof. unfold wp, bind. by destruct (m s) as [[a | e] s']. Qed.

Lemma wp_get {S} (Q : S -> S -> Prop) E s : wp get Q E s <-> Q s s.
Proof. reflexivity. Qed.

Lemma wp_gets {S A} (f : S -> A) Q E s : wp (gets f) Q E s <-> Q (f s) s.
Proof. reflexivity. Qed.

Lemma wp_modify {S} (f : S -> S) Q E s : wp (modify f) Q E s <-> Q tt (f s).
Proof. reflexivity. Qed.

Lemma wp_lift_result {S A} (r : result A) Q E (s : S) :
  wp (lift_result r) Q E s <-> match r with Ok a => Q a s | Err e => E e s end.
Proof. by destruct r. Qed.

Lemma wp_try_catch {S A} (m : M S A) h Q E s :
  wp (try_catch m h) Q E s <-> wp m Q (fun e s' => wp (h e) Q E s') s.
Proof. unfold wp, try_catch. by destruct (m s) as [[a | e] s']. Qed.

Lemma wp_try_finally {S A} (m : M S A) f Q E s :
  wp (try_finally m f) Q E s <->
  wp m (fun a s' => wp f (fun _ s'' => Q a s'') E s')
       (fun e s' => wp f (fun _ s'' => E e s'') E s') s.
Proof.
  unfold wp, try_finally. destruct (m s) as [[a | e] s'];
    by destruct (f s') as [[[] | e'] s''].
Qed.

Lemma wp_swallow {S} (m : M S unit) Q E s :
  wp (swallow m) Q E s <-> wp m Q (fun _ s' => Q tt s') s.
Proof. unfold swallow. rewrite wp_try_catch. reflexivity. Qed.

Lemma wp_zoom {S T A} (l : lens S T) (m : M T A) Q E s :
  wp (zoom l m) Q E s <->
  wp m (fun a t => Q a (lset l t s)) (fun e t => E e (lset l t s)) (lget l s).
Proof. unfold wp, zoom. by destruct (m (lget l s)) as [[a | e] t]. Qed.

(** A loop keeps an invariant that each iteration keeps. *)
Lemma wp_for_each {S A} (l : list A) (f : A -> M S unit) (I : S -> Prop) E s :
  I s ->
  (forall x s', x ∈ l -> I s' -> wp (f x) (fun _ s'' => I s'') E s') ->
  wp (for_each l f) (fun _ s' => I s') E s.
Proof.
  revert s. induction l as [| x l IH]; intros s HI Hf; simpl; [exact HI |].
  rewrite wp_bind. eapply wp_mono; [apply Hf; [left | exact HI] | | auto].
  intros [] s' HI'. apply IH; [exact HI' |]. intros y s'' Hy. apply Hf. by right.
Qed.

(** From a run and its [wp] to the postcondition. *)
Lemma wp_ok {S A} (m : M S A) (Q : A -> S -> Prop) (E : js_error -> S -> Prop) s a s' :
  m s = (Ok a, s') -> wp m Q E s -> Q a s'.
Proof. unfold wp. by intros ->. Qed.

Lemma wp_err {S A} (m : M S A) (Q : A -> S -> Prop) (E : js_error -> S -> Prop) s e s' :
  m s = (Err e, s') -> wp m Q E s -> E e s'.
Proof. unfold wp. by intros ->. Qed.

(** Stepping through a run. *)
Lemma bind_ok {S A B} (m : M S A) (k : A -> M S B) s a s' :
  m s = (Ok a, s') -> bind m k s = k a s'.
Proof. unfold bind. by intros ->. Qed.

Lemma bind_err {S A B} (m : M S A) (k : A -> M S B) s e s' :
  m s = (Err e, s') -> bind m k s = (Err e, s').
Proof. unfold bind. by intros ->. Qed.

Lemma bind_inv_ok {S A B} (m : M S A) (k : A -> M S B) s b s' :
  bind m k s = (Ok b, s') -> exists a s1, m s = (Ok a, s1) /\ k a s1 = (Ok b, s').
Proof. unfold bind. destruct (m s) as [[a | e] s1]; [eauto | done]. Qed.

Lemma try_catch_ok {S A} (m : M S A) h s a s' : m s = (Ok a, s') -> try_catch m h s = (Ok a, s').
Proof. unfold try_catch. by intros ->. Qed.

Lemma try_catch_err {S A} (m : M S A) h s e s' : m s = (Err e, s') -> try_catch m h s = h e s'.
Proof. unfold try_catch. by intros ->. Qed.

Lemma swallow_run {S} (m : M S unit) s : swallow m s = (Ok tt, snd (m s)).
Proof. unfold swallow, try_catch, ret. by destruct (m s) as [[[] | e] s']. Qed.

Lemma zoom_run {S T A} (l : lens S T) (m : M T A) s r t :
  m (lget l s) = (r, t) -> zoom l m s = (r, lset l t s).
Proof. unfold zoom. by intros ->. Qed.

(** A loop of calls on one part of the state is a call of the loop on that part. *)
Lemma for_each_zoom {S T A} (l : lens S T) `{!LensLaws l} (xs : list A) (f : A -> M T unit) :
  for_each xs (fun x => zoom l (f x)) ≈ zoom l (for_each xs f).
Proof.
  induction xs as [| x xs IH]; intros s; simpl; [unfold zoom, ret; by rewrite lset_lget |].
  unfold bind. unfold zoom at 1 3. unfold bind. destruct (f x (lget l s)) as [[[] | e] t]; [| done].
  rewrite IH. unfold zoom. rewrite lget_lset. destruct (for_each xs f t) as [r t']. by rewrite lset_lset.
Qed.

Lemma for_each_zoom_pairs {S T A B} (l : lens S T) `{!LensLaws l} (xs : list (A * B)) (f : A -> B -> M T unit) :
  for_each xs (fun '(a, b) => zoom l (f a b)) ≈ zoom l (for_each xs (fun '(a, b) => f a b)).
Proof.
  intros s. rewrite <- (for_each_zoom l xs (fun '(a, b) => f a b) s). revert s.
  induction xs as [| [a b] xs IH]; intros s; simpl; [done |].
  unfold bind. destruct (zoom l (f a b) s) as [[[] | e] s']; [apply IH | done].
Qed.

Create Rewrite HintDb js_wp.
#[export] Hint Rewrite @wp_ret @wp_throw @wp_bind @wp_get @wp_gets @wp_modify @wp_lift_result
  @wp_try_catch @wp_try_finally @wp_swallow @wp_zoom : js_wp.

(** Symbolic execution: pushes a [wp] through the control structure. *)
Ltac wp_simpl := autorewrite with js_wp; cbn beta iota.

(** Case analysis on the outcome of the call a goal or hypothesis is stuck on. *)
Ltac run_step :=
  match goal with
  | |- context [match ?m with (_, _) => _ end] =>
      let r := fresh "r" in let s := fresh "s" in let E := fresh "Hrun" in
      destruct m as [[r | r] s] eqn:E
  | H : context [match ?m with (_, _) => _ end] |- _ =>
      let r := fresh "r" in let s := fresh "s" in let E := fresh "Hrun" in
      destruct m as [[r | r] s] eqn:E
  end.
