(* ===== verification/Text.v ===== *)
(** Text as a list of characters, and the part of JavaScript's [Date] that the
    sources use: [toISOString], and [new Date(text)] on the two formats that they
    write.  [toDbTimestamp] of the Drizzle adapter is here too, since it is a
    function on such a text.  A string is the sequence of bytes of its UTF-8 form. *)
From S2P Require Import Prelude.
Local Open Scope Z_scope.

(** ** Characters *)

Definition chars : Type := list Ascii.ascii.
Definition chars_of (s : string) : chars := String.list_ascii_of_string s.
Definition string_of (l : chars) : string := String.string_of_list_ascii l.

Definition code (c : Ascii.ascii) : Z := Z.of_nat (Ascii.nat_of_ascii c).
Definition chr (n : Z) : Ascii.ascii := Ascii.ascii_of_nat (Z.to_nat n).

(** The digit of value [d], and the value of a digit. *)
Definition digit_char (d : Z) : Ascii.ascii := chr (48 + d).
Definition digit_of (c : Ascii.ascii) : option Z :=
  let n := code c in if (48 <=? n) && (n <=? 57) then Some (n - 48) else None.

Lemma code_chr n : 0 <= n < 256 -> code (chr n) = n.
Proof. intros H. unfold code, chr. rewrite Ascii.nat_ascii_embedding; lia. Qed.

Lemma digit_of_char d : 0 <= d < 10 -> digit_of (digit_char d) = Some d.
Proof.
  intros H. unfold digit_of, digit_char. rewrite code_chr by lia.
  destruct (Z.leb_spec 48 (48 + d)), (Z.leb_spec (48 + d) 57); try lia. simpl. f_equal. lia.
Qed.

Lemma chars_of_string_of l : chars_of (string_of l) = l.
Proof. apply String.list_ascii_of_string_of_list_ascii. Qed.
Lemma string_of_chars_of s : string_of (chars_of s) = s.
Proof. apply String.string_of_list_ascii_of_string. Qed.

Lemma chars_of_cons c s : chars_of (String c s) = c :: chars_of s.
Proof. reflexivity. Qed.

(** *** Strings as a monoid *)

Lemma append_assoc (a b c : string) : ((a ++ b) ++ c = a ++ (b ++ c))%string.
Proof. induction a as [| x a IH]; [done |]. exact (f_equal (String x) IH). Qed.

Lemma append_cons c (a b : string) : (String c a ++ b = String c (a ++ b))%string.
Proof. reflexivity. Qed.

Lemma append_nil_r (a : string) : (a ++ EmptyString = a)%string.
Proof. induction a as [| x a IH]; [done |]. exact (f_equal (String x) IH). Qed.

Lemma append_inj_head (a b c : string) : (a ++ b = a ++ c)%string -> b = c.
Proof. induction a as [| x a IH]; [done |]. intros H. injection H as H. by apply IH. Qed.

Lemma chars_of_append (a b : string) : chars_of (a ++ b)%string = chars_of a ++ chars_of b.
Proof. induction a as [| x a IH]; [done |]. exact (f_equal (cons x) IH). Qed.

Lemma append_inj_tail (a b c : string) : (a ++ c = b ++ c)%string -> a = b.
Proof.
  intros H. apply (f_equal chars_of) in H. rewrite !chars_of_append in H. apply app_inv_tail in H.
  apply (f_equal string_of) in H. by rewrite !string_of_chars_of in H.
Qed.

(** *** Texts within texts *)

(** [s.includes(sub)] *)
Fixpoint includes (sub s : string) : bool :=
  String.prefix sub s || match s with EmptyString => false | String _ s' => includes sub s' end.

Lemma prefix_spec sub s : String.prefix sub s = true <-> exists r, s = (sub ++ r)%string.
Proof.
  revert s. induction sub as [| c sub IH]; intros s; [split; [by exists s | intros _; by destruct s] |].
  destruct s as [| d s]; cbn [String.prefix]; [split; [done | intros [r H]; by rewrite append_cons in H] |].
  destruct (Ascii.ascii_dec c d) as [<- | Hne].
  - rewrite IH. split; intros [r H]; exists r; [by rewrite H | rewrite append_cons in H; by injection H].
  - split; [done |]. intros [r H]. rewrite append_cons in H. by injection H as H.
Qed.

Lemma includes_spec sub s : includes sub s = true <-> exists a r, s = (a ++ sub ++ r)%string.
Proof.
  induction s as [| c s IH]; cbn [includes]; rewrite orb_true_iff, prefix_spec.
  - split; [intros [[r H] | H]; [by exists EmptyString, r | done] |]. intros ([| x a] & r & H); [left; by exists r |].
    by rewrite append_cons in H.
  - rewrite IH. split.
    + intros [[r H] | (a & r & H)]; [by exists EmptyString, r |]. exists (String c a), r. by rewrite append_cons, <- H.
    + intros ([| x a] & r & H); [left; by exists r |]. right. exists a, r. rewrite append_cons in H. by injection H.
Qed.

Lemma includes_app sub a r : includes sub (a ++ sub ++ r)%string = true.
Proof. apply includes_spec. by exists a, r. Qed.

Lemma includes_trans a b d : includes a b = true -> includes b d = true -> includes a d = true.
Proof.
  rewrite !includes_spec. intros (x & y & ->) (x' & y' & ->). exists (x' ++ x)%string, (y ++ y')%string. by rewrite !append_assoc.
Qed.

(** [k] digits of [n], leading zeros included. *)
Fixpoint pad (k : nat) (n : Z) : chars :=
  match k with
  | O => []
  | S k' => digit_char (n / 10 ^ Z.of_nat k') :: pad k' (n mod 10 ^ Z.of_nat k')
  end.

(** The number that exactly [k] digits denote, after the digits read so far. *)
Fixpoint read_digits (k : nat) (acc : Z) (s : chars) : option (Z * chars) :=
  match k, s with
  | O, _ => Some (acc, s)
  | S k', c :: s' => match digit_of c with Some d => read_digits k' (10 * acc + d) s' | None => None end
  | S _, [] => None
  end.

Lemma read_pad k : forall acc n rest, 0 <= n < 10 ^ Z.of_nat k ->
  read_digits k acc (pad k n ++ rest) = Some (acc * 10 ^ Z.of_nat k + n, rest).
Proof.
  induction k as [| k IH]; intros acc n rest Hn.
  - change (10 ^ Z.of_nat 0) with 1 in *. simpl. do 2 f_equal. lia.
  - rewrite Nat2Z.inj_succ, Z.pow_succ_r in * by lia. assert (0 < 10 ^ Z.of_nat k) by (apply Z.pow_pos_nonneg; lia).
    cbn [pad app read_digits]. rewrite digit_of_char.
    + rewrite IH by (apply Z.mod_pos_bound; lia). do 2 f_equal.
      pose proof (Z.div_mod n (10 ^ Z.of_nat k)). nia.
    + split; [apply Z.div_pos; lia | apply Z.div_lt_upper_bound; lia].
Qed.

(** One given character. *)
Definition expect (c : Ascii.ascii) (s : chars) : option chars :=
  match s with x :: s' => if Ascii.eqb x c then Some s' else None | [] => None end.

Lemma expect_cons c s : expect c (c :: s) = Some s.
Proof. unfold expect. by rewrite Ascii.eqb_refl. Qed.

(** [s.replace(c, by)] with a one-character pattern: the first occurrence. *)
Fixpoint replace_first (c : Ascii.ascii) (by_ s : chars) : chars :=
  match s with
  | [] => []
  | x :: s' => if Ascii.eqb x c then by_ ++ s' else x :: replace_first c by_ s'
  end.

Lemma replace_first_skip c by_ l s :
  c ∉ l -> replace_first c by_ (l ++ c :: s) = l ++ by_ ++ s.
Proof.
  induction l as [| x l IH]; cbn [app replace_first]; [by rewrite Ascii.eqb_refl |].
  intros [Hx Hl]%not_elem_of_cons. destruct (Ascii.eqb_spec x c) as [-> |]; [done |]. by rewrite IH.
Qed.

(** ** Dates *)

(** Proleptic Gregorian date of a day number (day 0 is 1 January 1970): years are
    counted from March, in eras of 400 years. *)
Definition year_of_era (doe : Z) : Z := (doe - doe / 1460 + doe / 36524 - doe / 146096) / 365.
Definition day_of_year (doe : Z) : Z :=
  let yoe := year_of_era doe in doe - (365 * yoe + yoe / 4 - yoe / 100).

Definition civil_of_days (z : Z) : Z * Z * Z :=
  let z := z + 719468 in
  let era := z / 146097 in
  let doe := z mod 146097 in
  let doy := day_of_year doe in
  let mp := (5 * doy + 2) / 153 in
  let d := doy - (153 * mp + 2) / 5 + 1 in
  let m := if mp <? 10 then mp + 3 else mp - 9 in
  (year_of_era doe + era * 400 + (if m <=? 2 then 1 else 0), m, d).

Definition days_of_civil (y m d : Z) : Z :=
  let y := if m <=? 2 then y - 1 else y in
  let era := y / 400 in
  let yoe := y mod 400 in
  let doy := (153 * (if 2 <? m then m - 3 else m + 9) + 2) / 5 + d - 1 in
  era * 146097 + (yoe * 365 + yoe / 4 - yoe / 100 + doy) - 719468.

Lemma year_of_era_range doe : 0 <= doe < 146097 -> 0 <= year_of_era doe < 400.
Proof. unfold year_of_era. intros. Z.to_euclidean_division_equations; lia. Qed.

Lemma day_of_year_range doe : 0 <= doe < 146097 -> 0 <= day_of_year doe < 366.
Proof. unfold day_of_year, year_of_era. intros. Z.to_euclidean_division_equations; lia. Qed.

Lemma civil_ranges z : let '(y, m, d) := civil_of_days z in 1 <= m <= 12 /\ 1 <= d <= 31.
Proof.
  unfold civil_of_days. set (doy := day_of_year _).
  assert (Hd : 0 <= doy < 366) by (apply day_of_year_range, Z.mod_pos_bound; lia). clearbody doy.
  assert (0 <= (5 * doy + 2) / 153 <= 11) by (Z.to_euclidean_division_equations; lia).
  destruct (Z.ltb_spec ((5 * doy + 2) / 153) 10); (split; [lia |]); Z.to_euclidean_division_equations; lia.
Qed.

(** The calendar is a bijection. *)
Lemma days_of_civil_of_days z : let '(y, m, d) := civil_of_days z in days_of_civil y m d = z.
Proof.
  unfold civil_of_days. set (doe := (z + 719468) mod 146097).
  assert (Hdoe : 0 <= doe < 146097) by (apply Z.mod_pos_bound; lia).
  pose proof (year_of_era_range doe Hdoe) as Hy. pose proof (day_of_year_range doe Hdoe) as Hdoy.
  set (mp := (5 * day_of_year doe + 2) / 153). assert (Hmp : 0 <= mp <= 11)
    by (subst mp; Z.to_euclidean_division_equations; lia).
  assert (Hz : z + 719468 = 146097 * ((z + 719468) / 146097) + doe) by (apply Z.div_mod; lia).
  set (era := (z + 719468) / 146097) in *. unfold days_of_civil.
  set (m := if mp <? 10 then mp + 3 else mp - 9).
  assert (Hm : (if 2 <? m then m - 3 else m + 9) = mp).
  { subst m. destruct (Z.ltb_spec mp 10).
    - destruct (Z.ltb_spec 2 (mp + 3)); lia.
    - destruct (Z.ltb_spec 2 (mp - 9)); lia. }
  assert (Hyear : forall y, (if m <=? 2 then y + (if m <=? 2 then 1 else 0) - 1
                             else y + (if m <=? 2 then 1 else 0)) = y)
    by (intros; destruct (m <=? 2); lia).
  rewrite Hm, Hyear.
  rewrite Z.div_add, Z.mod_add, (Z.div_small (year_of_era doe)), (Z.mod_small (year_of_era doe)) by lia.
  unfold day_of_year in *. lia.
Qed.

(** ** ISO texts *)

Definition ms_per_day : Z := 86400000.

Definition year_text (y : Z) : chars :=
  if (0 <=? y) && (y <=? 9999) then pad 4 y
  else (if 0 <=? y then chr 43 else chr 45) :: pad 6 (Z.abs y).

(** [YYYY-MM-DD] and [HH:MM:SS.mmm] *)
Definition date_text (days : Z) : chars :=
  let '(y, m, d) := civil_of_days days in
  year_text y ++ chr 45 :: pad 2 m ++ chr 45 :: pad 2 d.
Definition time_text (t : Z) : chars :=
  pad 2 (t / 3600000) ++ chr 58 :: pad 2 (t mod 3600000 / 60000) ++ chr 58 ::
  pad 2 (t mod 60000 / 1000) ++ chr 46 :: pad 3 (t mod 1000).

Definition iso_text (ms : Z) : chars :=
  date_text (ms / ms_per_day) ++ chr 84 :: time_text (ms mod ms_per_day) ++ [chr 90].

(** [new Date(ms).toISOString()] *)
Definition toISOString (ms : Z) : result string :=
  if Z.abs ms <=? 8640000000000000 then Ok (string_of (iso_text ms))
  else Err (RangeError "Invalid time value").

(** [d.toISOString().replace("T", " ").replace("Z", "")] *)
Definition toDbTimestamp (ms : Z) : result string :=
  result_bind (toISOString ms) (fun s =>
    Ok (string_of (replace_first (chr 90) [] (replace_first (chr 84) [chr 32] (chars_of s))))).

(** ** [new Date(text)]

    On the ISO form, and on the form with a space and no zone, which is read as a
    local time: [to_utc] gives the instant of a local time.  [None]: another form,
    which the sources do not write. *)
Section parse.
Context (to_utc : Z -> Z).

Definition read_date (s : chars) : option (Z * chars) :=
  match read_digits 4 0 s with
  | Some (y, s) =>
      match expect (chr 45) s ≫= read_digits 2 0 with
      | Some (m, s) =>
          match expect (chr 45) s ≫= read_digits 2 0 with
          | Some (d, s) => Some (days_of_civil y m d, s)
          | None => None
          end
      | None => None
      end
  | None => None
  end.

Definition read_time (s : chars) : option (Z * chars) :=
  match read_digits 2 0 s with
  | Some (h, s) =>
      match expect (chr 58) s ≫= read_digits 2 0 with
      | Some (mi, s) =>
          match expect (chr 58) s ≫= read_digits 2 0 with
          | Some (sec, s) =>
              match expect (chr 46) s ≫= read_digits 3 0 with
              | Some (ms, s) => Some (3600000 * h + 60000 * mi + 1000 * sec + ms, s)
              | None => None
              end
          | None => None
          end
      | None => None
      end
  | None => None
  end.

Definition new_Date (text : string) : option Z :=
  match read_date (chars_of text) with
  | Some (days, sep :: s) =>
      match read_time s with
      | Some (t, rest) =>
          let wall := days * ms_per_day + t in
          if Ascii.eqb sep (chr 84) then match rest with [z] => if Ascii.eqb z (chr 90) then Some wall else None | _ => None end
          else if Ascii.eqb sep (chr 32) then match rest with [] => Some (to_utc wall) | _ => None end
          else None
      | None => None
      end
  | _ => None
  end.
End parse.

(** The instants of the years 0 to 9999, whose texts have a four-digit year. *)
Definition common_era (ms : Z) : Prop := -62167219200000 <= ms <= 253402300799999.

Lemma civil_year_range z :
  -719528 <= z <= 2932896 -> let '(y, _, _) := civil_of_days z in 0 <= y <= 9999.
Proof.
  intros Hz. unfold civil_of_days.
  assert (Hdoe : 0 <= (z + 719468) mod 146097 < 146097) by (apply Z.mod_pos_bound; lia).
  assert (Hera : z + 719468 = 146097 * ((z + 719468) / 146097) + (z + 719468) mod 146097)
    by (apply Z.div_mod; lia).
  set (doe := (z + 719468) mod 146097) in *. set (era := (z + 719468) / 146097) in *.
  pose proof (year_of_era_range doe Hdoe) as Hy. pose proof (day_of_year_range doe Hdoe) as Hdoy.
  assert (Hdef : day_of_year doe = doe - (365 * year_of_era doe + year_of_era doe / 4 - year_of_era doe / 100)) by done.
  set (yoe := year_of_era doe) in *. set (doy := day_of_year doe) in *. clearbody doe era yoe doy.
  assert (Hmp : (5 * doy + 2) / 153 < 10 <-> doy < 306) by (Z.to_euclidean_division_equations; lia).
  assert (0 <= (5 * doy + 2) / 153) by (apply Z.div_pos; lia).
  assert (Hcal : 365 * yoe + yoe / 4 - yoe / 100 <= 365 * 398 + 99 - 3 \/ yoe = 399)
    by (Z.to_euclidean_division_equations; lia).
  assert (yoe / 4 = 99 /\ yoe / 100 = 3 \/ yoe < 399) by (destruct Hcal as [| ->]; [Z.to_euclidean_division_equations; lia | by left]).
  destruct (Z.ltb_spec ((5 * doy + 2) / 153) 10) as [H1 | H1].
  - apply Hmp in H1. destruct (Z.leb_spec ((5 * doy + 2) / 153 + 3) 2); lia.
  - assert (306 <= doy) by lia. destruct (Z.leb_spec ((5 * doy + 2) / 153 - 9) 2); [lia |].
    exfalso. Z.to_euclidean_division_equations; lia.
Qed.

(** ** Round trips *)

Lemma read_two (n : Z) rest : 0 <= n < 100 -> read_digits 2 0 (pad 2 n ++ rest) = Some (n, rest).
Proof. intros H. apply (read_pad 2). exact H. Qed.

Lemma expect_two c (n : Z) rest :
  0 <= n < 100 -> expect c (c :: pad 2 n ++ rest) ≫= read_digits 2 0 = Some (n, rest).
Proof. intros H. rewrite expect_cons. by apply read_two. Qed.

Lemma read_time_text t rest :
  0 <= t < ms_per_day -> read_time (time_text t ++ rest) = Some (t, rest).
Proof.
  unfold ms_per_day, read_time, time_text. intros H. rewrite <- !app_assoc, read_two
    by (Z.to_euclidean_division_equations; lia).
  cbn [app]. rewrite <- !app_assoc, expect_two by (Z.to_euclidean_division_equations; lia).
  cbn [app]. rewrite <- !app_assoc, expect_two by (Z.to_euclidean_division_equations; lia).
  cbn [app]. rewrite expect_cons. cbn [mbind option_bind].
  rewrite (read_pad 3) by (change (10 ^ Z.of_nat 3) with 1000; apply Z.mod_pos_bound; lia).
  do 2 f_equal. Z.to_euclidean_division_equations; lia.
Qed.

Lemma read_date_text days rest :
  -719528 <= days <= 2932896 -> read_date (date_text days ++ rest) = Some (days, rest).
Proof.
  intros H. pose proof (civil_year_range days H) as Hy. pose proof (civil_ranges days) as Hmd.
  pose proof (days_of_civil_of_days days) as Hd.
  unfold read_date, date_text. destruct (civil_of_days days) as [[y m] d].
  unfold year_text. replace ((0 <=? y) && (y <=? 9999)) with true by (destruct (Z.leb_spec 0 y), (Z.leb_spec y 9999); lia).
  rewrite <- !app_assoc, (read_pad 4) by (change (10 ^ Z.of_nat 4) with 10000; lia).
  cbn [app]. rewrite <- !app_assoc. change (0 * 10 ^ Z.of_nat 4 + y) with y.
  rewrite expect_two by lia. cbn [app]. rewrite expect_two by lia. by rewrite Hd.
Qed.

Lemma common_era_days ms : common_era ms -> -719528 <= ms / ms_per_day <= 2932896.
Proof. unfold common_era, ms_per_day. intros H. Z.to_euclidean_division_equations; lia. Qed.

Lemma ms_split ms : ms / ms_per_day * ms_per_day + ms mod ms_per_day = ms.
Proof. pose proof (Z.div_mod ms ms_per_day). unfold ms_per_day in *. lia. Qed.

Lemma ms_rest_range ms : 0 <= ms mod ms_per_day < ms_per_day.
Proof. by apply Z.mod_pos_bound. Qed.

(** An instant survives the trip through its ISO text. *)
Lemma toISOString_total ms : common_era ms -> toISOString ms = Ok (string_of (iso_text ms)).
Proof. unfold common_era, toISOString. intros H. by rewrite (proj2 (Z.leb_le _ _)) by lia. Qed.

Lemma new_Date_iso_text to_utc ms : common_era ms -> new_Date to_utc (string_of (iso_text ms)) = Some ms.
Proof.
  intros H. unfold new_Date, iso_text.
  rewrite chars_of_string_of, read_date_text by by apply common_era_days.
  rewrite read_time_text by apply ms_rest_range. cbn -[Z.mul ms_per_day]. f_equal. apply ms_split.
Qed.

(** The database text of an instant has neither zone nor [T], so it is read back as
    a local time. *)
Lemma pad_digits c k : forall n, 0 <= n < 10 ^ Z.of_nat k -> digit_of c = None -> c ∉ pad k n.
Proof.
  induction k as [| k IH]; intros n Hn Hc; [apply not_elem_of_nil |].
  rewrite Nat2Z.inj_succ, Z.pow_succ_r in Hn by lia.
  assert (0 < 10 ^ Z.of_nat k) by (apply Z.pow_pos_nonneg; lia).
  cbn [pad]. apply not_elem_of_cons. split.
  - intros ->. rewrite digit_of_char in Hc; [done |].
    split; [apply Z.div_pos; lia | apply Z.div_lt_upper_bound; lia].
  - apply IH; [apply Z.mod_pos_bound; lia | done].
Qed.

Definition db_text (ms : Z) : chars :=
  date_text (ms / ms_per_day) ++ chr 32 :: time_text (ms mod ms_per_day).

Lemma not_in_date_text c days :
  -719528 <= days <= 2932896 -> digit_of c = None -> c <> chr 45 -> c ∉ date_text days.
Proof.
  intros H Hc Hd. pose proof (civil_year_range days H) as Hy. pose proof (civil_ranges days) as Hmd.
  unfold date_text. destruct (civil_of_days days) as [[y m] d]. unfold year_text.
  replace ((0 <=? y) && (y <=? 9999)) with true by (destruct (Z.leb_spec 0 y), (Z.leb_spec y 9999); lia).
  rewrite !elem_of_app, !elem_of_cons, !elem_of_app, !elem_of_cons.
  intros [Hi | [-> | [Hi | [-> | Hi]]]]; try done;
    revert Hi; apply pad_digits; try done; cbn; lia.
Qed.

Lemma not_in_time_text c t :
  0 <= t < ms_per_day -> digit_of c = None -> c <> chr 58 -> c <> chr 46 -> c ∉ time_text t.
Proof.
  unfold ms_per_day. intros H Hc H1 H2. unfold time_text.
  rewrite !elem_of_app, !elem_of_cons, !elem_of_app, !elem_of_cons, !elem_of_app, !elem_of_cons.
  intros [Hi | [-> | [Hi | [-> | [Hi | [-> | Hi]]]]]]; try done;
    revert Hi; apply pad_digits; try done; cbn; Z.to_euclidean_division_equations; lia.
Qed.

Lemma toDbTimestamp_total ms : common_era ms -> toDbTimestamp ms = Ok (string_of (db_text ms)).
Proof.
  intros H. unfold toDbTimestamp. rewrite toISOString_total by done. cbn [result_bind].
  pose proof (common_era_days ms H) as Hd. pose proof (ms_rest_range ms) as Ht. do 2 f_equal.
  rewrite chars_of_string_of. unfold iso_text, db_text.
  rewrite replace_first_skip by (apply not_in_date_text; done). cbn [app].
  rewrite app_comm_cons, app_assoc, replace_first_skip; [by rewrite !app_nil_r |].
  rewrite elem_of_app, elem_of_cons.
  intros [Hi | [Hi | Hi]]; [| done |]; revert Hi; [by apply not_in_date_text | by apply not_in_time_text].
Qed.

Lemma new_Date_db_text to_utc ms :
  common_era ms -> new_Date to_utc (string_of (db_text ms)) = Some (to_utc ms).
Proof.
  intros H. unfold new_Date, db_text.
  rewrite chars_of_string_of, read_date_text by by apply common_era_days.
  rewrite <- (app_nil_r (time_text _)), read_time_text by apply ms_rest_range.
  cbn -[Z.mul ms_per_day]. by rewrite ms_split.
Qed.
