(* ===== verification/Json.v ===== *)
(** JSON texts: [JSON.stringify] and [JSON.parse] of the language, on the values of
    the model.  [json_of] is the value that a value serialises as (a date becomes its
    ISO text, an undefined property disappears, an undefined element becomes null, a
    bigint throws); [print] writes such a value and [parse] reads it back.  Numbers are
    integers, so a text with a fraction or an exponent is not read. *)
From Stdlib Require Import Sorting.Sorted.
From S2P Require Import Prelude Text.
Local Open Scope Z_scope.

(** ** Own properties of an object

    A new property goes to the end, except that keys that are array indexes come
    first, in numeric order. *)

Fixpoint take_digits (s : chars) (acc : Z) : Z * chars :=
  match s with
  | c :: s' => match digit_of c with Some d => take_digits s' (10 * acc + d) | None => (acc, s) end
  | [] => (acc, [])
  end.

Definition array_index (key : string) : option Z :=
  let '(n, rest) := take_digits (chars_of key) 0 in
  match rest with
  | [] => if (n <=? 4294967294) && String.eqb (string_of_Z n) key then Some n else None
  | _ => None
  end.

(** A new property [k] is placed before the property [k']. *)
Definition precedes (k k' : string) : bool :=
  match array_index k, array_index k' with
  | Some i, Some j => i <? j
  | Some _, None => true
  | None, _ => false
  end.

(** [o[k] = v] *)
Fixpoint set_prop (k : string) (v : value) (o : list (string * value)) : list (string * value) :=
  match o with
  | [] => [(k, v)]
  | (k', v') :: o' =>
      if String.eqb k k' then (k, v) :: o'
      else if precedes k k' then (k, v) :: (k', v') :: o'
      else (k', v') :: set_prop k v o'
  end.

(** [o[k]], and [k in o] *)
Fixpoint get_prop (k : string) (o : list (string * value)) : option value :=
  match o with
  | [] => None
  | (k', v) :: o' => if String.eqb k k' then Some v else get_prop k o'
  end.

(** [delete o[k]] *)
Fixpoint del_prop (k : string) (o : list (string * value)) : list (string * value) :=
  match o with
  | [] => []
  | (k', v) :: o' => if String.eqb k k' then o' else (k', v) :: del_prop k o'
  end.

(** [{ ...o, ...p }] *)
Definition assign (o p : list (string * value)) : list (string * value) :=
  fold_left (fun o '(k, v) => set_prop k v o) p o.

(** [v.k], [undefined] on a value without properties. *)
Definition read_prop (k : string) (v : value) : value :=
  match v with VObj o => or_default (get_prop k o) VUndefined | _ => VUndefined end.

(** ** Serialisation *)

(** The value that [v] is written as; [None]: [undefined], nothing is written. *)
Fixpoint json_of (v : value) : result (option value) :=
  match v with
  | VUndefined | VSymbol _ => Ok None
  | VNull | VBool _ | VNum _ | VStr _ => Ok (Some v)
  | VBig _ => Err (TypeError "Do not know how to serialize a BigInt")
  | VDate ms => match toISOString ms with Ok s => Ok (Some (VStr s)) | Err _ => Ok (Some VNull) end
  | VArr items =>
      result_bind (map_result json_of items) (fun js => Ok (Some (VArr (map (fun j => or_default j VNull) js))))
  | VObj fields =>
      result_bind (map_result (fun '(k, x) => result_bind (json_of x) (fun j => Ok (k, j))) fields)
        (fun js => Ok (Some (VObj (omap (fun '(k, j) => option_map (pair k) j) js))))
  end.

Definition quote_char : Ascii.ascii := chr 34.
Definition hex_lower (d : Z) : Ascii.ascii := chr (if d <? 10 then 48 + d else 87 + d).

(** One character inside a JSON string. *)
Definition escape (c : Ascii.ascii) : chars :=
  let n := code c in
  if n =? 34 then [chr 92; chr 34]
  else if n =? 92 then [chr 92; chr 92]
  else if n =? 8 then [chr 92; chr 98]
  else if n =? 9 then [chr 92; chr 116]
  else if n =? 10 then [chr 92; chr 110]
  else if n =? 12 then [chr 92; chr 102]
  else if n =? 13 then [chr 92; chr 114]
  else if n <? 32 then [chr 92; chr 117; chr 48; chr 48; hex_lower (n / 16); hex_lower (n mod 16)]
  else [c].

Definition print_string (s : string) : chars :=
  quote_char :: flat_map escape (chars_of s) ++ [quote_char].

(** [a, b, c] between commas *)
Fixpoint commas (l : list chars) : chars :=
  match l with
  | [] => []
  | [x] => x
  | x :: l' => x ++ chr 44 :: commas l'
  end.

Fixpoint print (j : value) : chars :=
  match j with
  | VBool true => chars_of "true"
  | VBool false => chars_of "false"
  | VNum n => chars_of (string_of_Z n)
  | VStr s => print_string s
  | VArr items => chr 91 :: commas (map print items) ++ [chr 93]
  | VObj fields => chr 123 :: commas (map (fun '(k, x) => print_string k ++ chr 58 :: print x) fields) ++ [chr 125]
  | _ => chars_of "null"
  end.

(** [JSON.stringify(v)]; [None] is [undefined]. *)
Definition stringify (v : value) : result (option string) :=
  result_bind (json_of v) (fun j => Ok (option_map (fun j => string_of (print j)) j)).

(** ** Parsing *)

(** The UTF-8 form of a code point. *)
Definition utf8 (n : Z) : chars :=
  if n <? 128 then [chr n]
  else if n <? 2048 then [chr (192 + n / 64); chr (128 + n mod 64)]
  else if n <? 65536 then [chr (224 + n / 4096); chr (128 + n / 64 mod 64); chr (128 + n mod 64)]
  else [chr (240 + n / 262144); chr (128 + n / 4096 mod 64); chr (128 + n / 64 mod 64); chr (128 + n mod 64)].

Definition hex_value (c : Ascii.ascii) : option Z :=
  let n := code c in
  if (48 <=? n) && (n <=? 57) then Some (n - 48)
  else if (97 <=? n) && (n <=? 102) then Some (n - 87)
  else if (65 <=? n) && (n <=? 70) then Some (n - 55)
  else None.

Definition hex4 (a b c d : Ascii.ascii) : option Z :=
  match hex_value a, hex_value b, hex_value c, hex_value d with
  | Some a, Some b, Some c, Some d => Some (4096 * a + 256 * b + 16 * c + d)
  | _, _, _, _ => None
  end.

(** The character that follows a backslash. *)
Definition unescape (c : Ascii.ascii) : option Ascii.ascii :=
  let n := code c in
  if n =? 34 then Some (chr 34) else if n =? 92 then Some (chr 92) else if n =? 47 then Some (chr 47)
  else if n =? 98 then Some (chr 8) else if n =? 102 then Some (chr 12) else if n =? 110 then Some (chr 10)
  else if n =? 114 then Some (chr 13) else if n =? 116 then Some (chr 9) else None.

Definition cons_chars (p : chars) (r : option (chars * chars)) : option (chars * chars) :=
  match r with Some (s, rest) => Some (p ++ s, rest) | None => None end.

(** The rest of a string, up to its closing quote. *)
Fixpoint read_string (s : chars) : option (chars * chars) :=
  match s with
  | [] => None
  | c :: s1 =>
      if code c =? 34 then Some ([], s1)
      else if code c <? 32 then None
      else if negb (code c =? 92) then cons_chars [c] (read_string s1)
      else match s1 with
      | u :: s1' =>
          if code u =? 117 then
            match s1' with
            | h1 :: h2 :: h3 :: h4 :: s2 =>
                match hex4 h1 h2 h3 h4 with
                | None => None
                | Some n =>
                    if (55296 <=? n) && (n <=? 56319) then
                      match s2 with
                      | b :: u' :: l1 :: l2 :: l3 :: l4 :: s3 =>
                          match (if (code b =? 92) && (code u' =? 117) then hex4 l1 l2 l3 l4 else None) with
                          | Some m =>
                              if (56320 <=? m) && (m <=? 57343)
                              then cons_chars (utf8 (65536 + (n - 55296) * 1024 + (m - 56320))) (read_string s3)
                              else cons_chars (utf8 n) (read_string s2)
                          | None => cons_chars (utf8 n) (read_string s2)
                          end
                      | _ => cons_chars (utf8 n) (read_string s2)
                      end
                    else cons_chars (utf8 n) (read_string s2)
                end
            | _ => None
            end
          else match unescape u with Some c' => cons_chars [c'] (read_string s1') | None => None end
      | [] => None
      end
  end.

Definition is_space (c : Ascii.ascii) : bool :=
  let n := code c in (n =? 32) || (n =? 9) || (n =? 10) || (n =? 13).

Fixpoint skip_spaces (s : chars) : chars :=
  match s with c :: s' => if is_space c then skip_spaces s' else s | [] => [] end.

(** An integer; what follows it may not continue a number. *)
Definition continues_number (s : chars) : bool :=
  match s with
  | c :: _ => (code c =? 46) || (code c =? 101) || (code c =? 69)
  | [] => false
  end.

Definition read_nat (s : chars) : option (Z * chars) :=
  match s with
  | c :: s' =>
      match digit_of c with
      | Some 0 => Some (0, s')
      | Some _ => Some (take_digits s 0)
      | None => None
      end
  | [] => None
  end.

Definition read_number (s : chars) : option (value * chars) :=
  let r := match s with
           | c :: s' => if code c =? 45 then match read_nat s' with Some (n, rest) => Some (- n, rest) | None => None end
                        else read_nat s
           | [] => None
           end in
  match r with
  | Some (n, rest) => if continues_number rest then None else Some (VNum n, rest)
  | None => None
  end.

(** A given word, after its first letter. *)
Fixpoint read_word (w : chars) (v : value) (s : chars) : option (value * chars) :=
  match w with
  | [] => Some (v, s)
  | c :: w' => match expect c s with Some s' => read_word w' v s' | None => None end
  end.

(** [fuel] is one more than the characters read. *)
Fixpoint read_value (fuel : nat) (s : chars) : option (value * chars) :=
  match fuel with
  | O => None
  | S fuel' =>
      match skip_spaces s with
      | [] => None
      | c :: s' =>
          let n := code c in
          if n =? 34 then
            match read_string s' with Some (t, rest) => Some (VStr (string_of t), rest) | None => None end
          else if n =? 91 then
            match skip_spaces s' with
            | c' :: rest => if code c' =? 93 then Some (VArr [], rest) else
                match read_items fuel' s' with Some (items, rest) => Some (VArr items, rest) | None => None end
            | [] => None
            end
          else if n =? 123 then
            match skip_spaces s' with
            | c' :: rest => if code c' =? 125 then Some (VObj [], rest) else
                match read_fields fuel' s' [] with Some (fields, rest) => Some (VObj fields, rest) | None => None end
            | [] => None
            end
          else if n =? 116 then read_word (chars_of "rue") (VBool true) s'
          else if n =? 102 then read_word (chars_of "alse") (VBool false) s'
          else if n =? 110 then read_word (chars_of "ull") VNull s'
          else read_number (c :: s')
      end
  end
with read_items (fuel : nat) (s : chars) : option (list value * chars) :=
  match fuel with
  | O => None
  | S fuel' =>
      match read_value fuel' s with
      | None => None
      | Some (x, rest) =>
          match skip_spaces rest with
          | c :: rest' =>
              if code c =? 93 then Some ([x], rest')
              else if code c =? 44 then
                match read_items fuel' rest' with Some (xs, r) => Some (x :: xs, r) | None => None end
              else None
          | [] => None
          end
      end
  end
with read_fields (fuel : nat) (s : chars) (acc : list (string * value)) : option (list (string * value) * chars) :=
  match fuel with
  | O => None
  | S fuel' =>
      match skip_spaces s with
      | q :: s1 =>
          if code q =? 34 then
            match read_string s1 with
            | None => None
            | Some (k, s2) =>
                match expect (chr 58) (skip_spaces s2) with
                | None => None
                | Some s3 =>
                    match read_value fuel' s3 with
                    | None => None
                    | Some (x, rest) =>
                        let acc' := set_prop (string_of k) x acc in
                        match skip_spaces rest with
                        | c :: rest' =>
                            if code c =? 125 then Some (acc', rest')
                            else if code c =? 44 then read_fields fuel' rest' acc'
                            else None
                        | [] => None
                        end
                    end
                end
            end
          else None
      | [] => None
      end
  end.

(** [JSON.parse(text)] *)
Definition SyntaxError : js_error := PlainError "SyntaxError: Unexpected token in JSON".

Definition parse (text : string) : result value :=
  let s := chars_of text in
  match read_value (2 * length s + 2) s with
  | Some (v, rest) => match skip_spaces rest with [] => Ok v | _ => Err SyntaxError end
  | None => Err SyntaxError
  end.

(** ** Values that JSON carries *)

Section nested_induction.
Context (P : value -> Prop)
  (Hleaf : forall v, match v with VArr _ | VObj _ => False | _ => True end -> P v)
  (Harr : forall items, Forall P items -> P (VArr items))
  (Hobj : forall fields, Forall (fun kv => P (snd kv)) fields -> P (VObj fields)).

Fixpoint value_nested_ind (v : value) : P v :=
  match v return P v with
  | VArr items =>
      Harr items ((fix go (l : list value) : Forall P l :=
        match l with
        | [] => List.Forall_nil _
        | x :: l' => List.Forall_cons _ x l' (value_nested_ind x) (go l')
        end) items)
  | VObj fields =>
      Hobj fields ((fix go (l : list (string * value)) : Forall (fun kv => P (snd kv)) l :=
        match l with
        | [] => List.Forall_nil _
        | (k, x) :: l' => List.Forall_cons (fun kv => P (snd kv)) (k, x) l' (value_nested_ind x) (go l')
        end) fields)
  | VUndefined => Hleaf VUndefined I
  | VNull => Hleaf VNull I
  | VBool b => Hleaf (VBool b) I
  | VNum n => Hleaf (VNum n) I
  | VBig n => Hleaf (VBig n) I
  | VStr s => Hleaf (VStr s) I
  | VDate ms => Hleaf (VDate ms) I
  | VSymbol d => Hleaf (VSymbol d) I
  end.
End nested_induction.

(** The keys of an object are distinct and in the order in which the language keeps them. *)
Definition key_before (k k' : string) : Prop := k <> k' /\ precedes k' k = false.
Definition own_order (fields : list (string * value)) : Prop := StronglySorted key_before (map fst fields).

(** Every object in [v] is an object of the language. *)
Fixpoint ordered (v : value) : Prop :=
  match v with
  | VArr items => foldr (fun x Q => ordered x /\ Q) True items
  | VObj fields => own_order fields /\ foldr (fun '(_, x) Q => ordered x /\ Q) True fields
  | _ => True
  end.

(** What [JSON.parse] returns. *)
Fixpoint is_json (v : value) : Prop :=
  match v with
  | VNull | VBool _ | VNum _ | VStr _ => True
  | VArr items => foldr (fun x Q => is_json x /\ Q) True items
  | VObj fields => own_order fields /\ foldr (fun '(_, x) Q => is_json x /\ Q) True fields
  | _ => False
  end.

(** ** Strings *)

Lemma is_space_first c s : is_space c = false -> skip_spaces (c :: s) = c :: s.
Proof. intros H. simpl. by rewrite H. Qed.

Lemma read_escape c l : read_string (escape c ++ l) = cons_chars [c] (read_string l).
Proof. destruct c as [[] [] [] [] [] [] [] []]; reflexivity. Qed.

Lemma read_escaped t rest :
  read_string (flat_map escape t ++ quote_char :: rest) = Some (t, rest).
Proof.
  induction t as [| c t IH]; [done |]. cbn [flat_map]. rewrite <- app_assoc, read_escape, IH. done.
Qed.

Lemma read_printed_string s rest :
  exists body, print_string s ++ rest = quote_char :: body /\ read_string body = Some (chars_of s, rest).
Proof.
  eexists. split; [unfold print_string; rewrite <- app_comm_cons, <- app_assoc; reflexivity |].
  apply read_escaped.
Qed.

(** ** Numbers *)

(** The text does not continue a number. *)
Definition ends_number (s : chars) : Prop :=
  continues_number s = false /\ match s with c :: _ => digit_of c = None | [] => True end.

Lemma take_digits_end s n : ends_number s -> take_digits s n = (n, s).
Proof. intros [_ H]. destruct s as [| c s]; [done |]. simpl. by rewrite H. Qed.

Lemma ascii_digit d : 0 <= d < 10 -> Ascii.ascii_of_nat (48 + Z.to_nat d) = digit_char d.
Proof. intros H. unfold digit_char, chr. f_equal. lia. Qed.

Lemma take_digits_char d s n : 0 <= d < 10 -> take_digits (digit_char d :: s) n = take_digits s (10 * n + d).
Proof. intros H. cbn [take_digits]. by rewrite digit_of_char. Qed.

Lemma digits_read fuel : forall n acc rest, 0 <= n < 2 ^ Z.of_nat fuel -> (fuel <> 0)%nat ->
  take_digits (chars_of (digits fuel n acc) ++ rest) 0 = take_digits (chars_of acc ++ rest) n.
Proof.
  induction fuel as [| fuel IH]; intros n acc rest Hn Hf; [done |]. cbn [digits].
  rewrite Nat2Z.inj_succ, Z.pow_succ_r in Hn by lia.
  assert (Hm : 0 <= n mod 10 < 10) by (apply Z.mod_pos_bound; lia).
  pose proof (Z.div_mod n 10). rewrite ascii_digit by done.
  assert (Hacc : forall k, take_digits (chars_of (String (digit_char (n mod 10)) acc) ++ rest) k
                           = take_digits (chars_of acc ++ rest) (10 * k + n mod 10)).
  { intros k. exact (take_digits_char (n mod 10) (chars_of acc ++ rest) k Hm). }
  destruct (Z.eqb_spec (n / 10) 0) as [E | E]; [rewrite Hacc; f_equal; lia |].
  assert (0 < n / 10) by (pose proof (Z.div_pos n 10); lia).
  rewrite IH, Hacc; [f_equal; lia | | intros ->; simpl in Hn; Z.to_euclidean_division_equations; lia].
  split; [lia |]. apply Z.div_lt_upper_bound; lia.
Qed.

(** A positive number does not start with a zero. *)
Lemma digits_head fuel : forall n acc, 0 < n < 2 ^ Z.of_nat fuel ->
  exists d l, chars_of (digits fuel n acc) = digit_char d :: l /\ 1 <= d < 10.
Proof.
  induction fuel as [| fuel IH]; intros n acc Hn; [simpl in Hn; lia |]. cbn [digits].
  rewrite Nat2Z.inj_succ, Z.pow_succ_r in Hn by lia.
  assert (Hm : 0 <= n mod 10 < 10) by (apply Z.mod_pos_bound; lia).
  pose proof (Z.div_mod n 10). rewrite ascii_digit by done.
  destruct (Z.eqb_spec (n / 10) 0) as [E | E].
  - exists (n mod 10), (chars_of acc). split; [done | lia].
  - apply IH. pose proof (Z.div_pos n 10). split; [lia |]. apply Z.div_lt_upper_bound; lia.
Qed.

Lemma log2_fuel a : 0 <= a -> a < 2 ^ Z.of_nat (S (Z.to_nat (Z.log2 a))).
Proof.
  intros H. rewrite Nat2Z.inj_succ, Z2Nat.id by apply Z.log2_nonneg.
  destruct (Z.eq_dec a 0) as [-> |]; [done |]. by apply Z.log2_spec; lia.
Qed.

Lemma read_nat_digits a rest : 0 <= a -> ends_number rest ->
  read_nat (chars_of (digits (S (Z.to_nat (Z.log2 a))) a EmptyString) ++ rest) = Some (a, rest).
Proof.
  intros Ha Hrest. pose proof (log2_fuel a Ha) as Hf. destruct (Z.eq_dec a 0) as [-> | Hne]; [done |].
  destruct (digits_head _ a EmptyString (conj (proj2 (Z.le_neq 0 a) (conj Ha (not_eq_sym Hne))) Hf)) as (d & l & E & Hd).
  pose proof (digits_read _ a EmptyString rest (conj Ha Hf) ltac:(done)) as Hread.
  rewrite E in *. cbn [app] in *. unfold read_nat. rewrite Hread, digit_of_char by lia.
  destruct d as [| d | d]; [lia | | lia]. f_equal. exact (take_digits_end rest a Hrest).
Qed.

Lemma digits_first a rest : 0 <= a -> exists d l,
  chars_of (digits (S (Z.to_nat (Z.log2 a))) a EmptyString) ++ rest = digit_char d :: l /\ 0 <= d < 10.
Proof.
  intros Ha. pose proof (log2_fuel a Ha) as Hf. destruct (Z.eq_dec a 0) as [-> | Hne]; [by exists 0, rest |].
  destruct (digits_head _ a EmptyString (conj (proj2 (Z.le_neq 0 a) (conj Ha (not_eq_sym Hne))) Hf)) as (d & l & E & Hd).
  exists d, (l ++ rest). rewrite E. split; [done | lia].
Qed.

Lemma code_digit d : 0 <= d < 10 -> code (digit_char d) = 48 + d.
Proof. intros H. unfold digit_char. rewrite code_chr; lia. Qed.

Lemma read_printed_number n rest : ends_number rest ->
  read_number (chars_of (string_of_Z n) ++ rest) = Some (VNum n, rest).
Proof.
  intros Hrest. unfold read_number, string_of_Z.
  pose proof (read_nat_digits (Z.abs n) rest ltac:(lia) Hrest) as Hread.
  destruct (Z.ltb_spec n 0) as [Hn | Hn].
  - rewrite chars_of_cons. cbn [app]. change (code (Ascii.ascii_of_nat 45) =? 45) with true. cbv beta iota.
    rewrite Hread; cbv beta iota zeta; rewrite (proj1 Hrest).
    do 3 f_equal. lia.
  - destruct (digits_first (Z.abs n) rest ltac:(lia)) as (d & l & E & Hd). rewrite E in *.
    rewrite code_digit by done. destruct (Z.eqb_spec (48 + d) 45); [lia |].
    rewrite Hread; cbv beta iota zeta; rewrite (proj1 Hrest). do 3 f_equal. lia.
Qed.

(** ** Objects *)

Lemma set_prop_last k v o : Forall (fun kv => key_before (fst kv) k) o -> set_prop k v o = o ++ [(k, v)].
Proof.
  induction 1 as [| [k' v'] o [Hne Hp] _ IH]; [done |]. cbn [set_prop app fst] in *.
  destruct (String.eqb_spec k k') as [-> |]; [done |]. by rewrite Hp, IH.
Qed.

Lemma own_order_snoc o k v rest :
  own_order (o ++ (k, v) :: rest) -> Forall (fun kv => key_before (fst kv) k) o.
Proof.
  unfold own_order. rewrite map_app. cbn [map fst]. induction o as [| [k' v'] o IH]; [done |].
  intros [Hs Hall]%StronglySorted_inv. constructor; [| by apply IH].
  rewrite List.Forall_app in Hall. destruct Hall as [_ Hall]. by inversion Hall.
Qed.

(** Writing the properties one by one, in the order of the object, builds the object. *)
Lemma set_prop_snoc o k v rest :
  own_order (o ++ (k, v) :: rest) -> set_prop k v o = o ++ [(k, v)].
Proof. intros H. apply set_prop_last. by eapply own_order_snoc. Qed.

Lemma own_order_sublist (o o' : list (string * value)) :
  map fst o' `sublist_of` map fst o -> own_order o -> own_order o'.
Proof.
  unfold own_order. generalize (map fst o') (map fst o). intros l' l. induction 1 as [| x l' l Hsub IH | x l' l Hsub IH].
  - done.
  - intros [Hs Hall]%StronglySorted_inv. constructor; [by apply IH |].
    rewrite List.Forall_forall in *. intros y Hy. apply Hall.
    apply list_elem_of_In. eapply elem_of_submseteq; [by apply list_elem_of_In | by apply sublist_submseteq].
  - intros [Hs _]%StronglySorted_inv. by apply IH.
Qed.

(** ** Parsing what was printed *)

Definition ends_with (c : Ascii.ascii) : Prop := forall rest, ends_number (c :: rest).

Lemma print_first j : is_json j -> exists c l,
  print j = c :: l /\ is_space c = false /\ code c <> 93 /\ code c <> 125.
Proof.
  destruct j as [| | [] | n | | s | | | items | fields]; intros Hj; try done; try by do 2 eexists.
  cbn [print]. unfold string_of_Z. destruct (n <? 0); [by do 2 eexists |].
  destruct (digits_first (Z.abs n) [] ltac:(lia)) as (d & l & E & Hd). rewrite app_nil_r in E.
  exists (digit_char d), l. split; [done |]. unfold is_space. rewrite code_digit by done.
  repeat split; [| lia..].
  by destruct (Z.eqb_spec (48 + d) 32), (Z.eqb_spec (48 + d) 9), (Z.eqb_spec (48 + d) 10),
    (Z.eqb_spec (48 + d) 13); try lia.
Qed.

Lemma skip_printed j rest : is_json j -> skip_spaces (print j ++ rest) = print j ++ rest.
Proof. intros Hj. destruct (print_first j Hj) as (c & l & -> & Hc & _). simpl. by rewrite Hc. Qed.

Definition reads (j : value) : Prop := forall fuel rest,
  (2 * length (print j) <= fuel)%nat -> ends_number rest -> read_value fuel (print j ++ rest) = Some (j, rest).

Definition field_text (kv : string * value) : chars := print_string (fst kv) ++ chr 58 :: print (snd kv).

Lemma commas_cons x l : commas (x :: l) = x ++ match l with [] => [] | _ => chr 44 :: commas l end.
Proof. destruct l; [by rewrite app_nil_r | done]. Qed.

Lemma read_printed_items items rest : items <> [] -> Forall is_json items -> Forall reads items ->
  forall fuel, (2 * length (commas (map print items)) + 1 <= fuel)%nat ->
  read_items fuel (commas (map print items) ++ chr 93 :: rest) = Some (items, rest).
Proof.
  intros Hne Hj Hr. induction items as [| x items IH]; [done |].
  apply Forall_cons in Hj as [Hx Hj], Hr as [Hrx Hr]. cbn [map].
  intros [| fuel] Hf; [lia |]. rewrite commas_cons in *. rewrite length_app in Hf.
  rewrite <- app_assoc. cbn [read_items].
  destruct items as [| y items]; cbn [map].
  - rewrite app_nil_l, Hrx; [| lia | by split]. done.
  - rewrite <- app_comm_cons, Hrx; [| lia | by split].
    cbn [skip_spaces]. change (is_space (chr 44)) with false. cbn match.
    change (code (chr 44) =? 93) with false. change (code (chr 44) =? 44) with true. cbn match.
    change (print y :: map print items) with (map print (y :: items)).
    rewrite IH; [done | done | done | done |]. cbn [map length] in Hf |- *. lia.
Qed.

Lemma read_printed_fields fields rest acc : fields <> [] -> own_order (acc ++ fields) ->
  Forall (fun kv => is_json (snd kv)) fields -> Forall (fun kv => reads (snd kv)) fields ->
  forall fuel, (2 * length (commas (map field_text fields)) + 1 <= fuel)%nat ->
  read_fields fuel (commas (map field_text fields) ++ chr 125 :: rest) acc = Some (acc ++ fields, rest).
Proof.
  intros Hne Ho Hj Hr. revert acc Ho. induction fields as [| [k x] fields IH]; intros acc Ho; [done |].
  apply Forall_cons in Hj as [Hx Hj], Hr as [Hrx Hr]. cbn [map].
  intros [| fuel] Hf; [lia |]. rewrite commas_cons in *. rewrite length_app in Hf.
  unfold field_text at 1 in Hf. rewrite length_app in Hf. cbn [fst snd length] in *.
  rewrite <- app_assoc. unfold field_text at 1. cbn [fst snd]. rewrite <- app_assoc.
  destruct (read_printed_string k ((chr 58 :: print x) ++ match map field_text fields with
    | [] => [] | _ :: _ => chr 44 :: commas (map field_text fields) end ++ chr 125 :: rest)) as (body & -> & Hk).
  cbn [read_fields skip_spaces]. change (is_space quote_char) with false. change (code quote_char =? 34) with true.
  cbv beta iota. rewrite Hk. cbn [app skip_spaces]. change (is_space (chr 58)) with false. cbv beta iota.
  rewrite expect_cons. pose proof (set_prop_snoc _ _ _ _ Ho) as Hset.
  destruct fields as [| kv fields]; cbn [map].
  - cbn [app]. rewrite Hrx; [| lia | by split]. cbn. by rewrite string_of_chars_of, Hset.
  - cbn [app]. rewrite Hrx; [| cbn [map length] in Hf; lia | by split].
    cbn [skip_spaces]. change (is_space (chr 44)) with false. cbv beta iota.
    change (code (chr 44) =? 125) with false. change (code (chr 44) =? 44) with true. cbv beta iota.
    rewrite string_of_chars_of, Hset.
    change (field_text kv :: map field_text fields) with (map field_text (kv :: fields)).
    rewrite IH; [by rewrite <- app_assoc | done | done | done | by rewrite <- app_assoc |].
    cbn [map length] in Hf |- *. lia.
Qed.

Lemma foldr_Forall {A} (P : A -> Prop) l : foldr (fun x Q => P x /\ Q) True l <-> Forall P l.
Proof.
  induction l as [| x l IH]; simpl; [by split; [constructor |] |]. rewrite Forall_cons. by rewrite IH.
Qed.

Lemma foldr_Forall_snd (P : value -> Prop) (l : list (string * value)) :
  foldr (fun '(_, x) Q => P x /\ Q) True l <-> Forall (fun kv => P (snd kv)) l.
Proof.
  induction l as [| [k x] l IH]; simpl; [by split; [constructor |] |]. rewrite Forall_cons. by rewrite IH.
Qed.

Lemma commas_first x l : exists rest, commas (x :: l) = x ++ rest.
Proof. rewrite commas_cons. by eexists. Qed.

Lemma number_first n : exists c l, chars_of (string_of_Z n) = c :: l /\
  (code c = 45 \/ 48 <= code c <= 57).
Proof.
  unfold string_of_Z. destruct (n <? 0).
  - rewrite chars_of_cons. do 2 eexists. split; [done | by left].
  - destruct (digits_first (Z.abs n) [] ltac:(lia)) as (d & l & E & Hd). rewrite app_nil_r in E.
    exists (digit_char d), l. rewrite code_digit by done. split; [done | right; lia].
Qed.

(** A text that starts like a number is read as one. *)
Lemma read_value_number fuel c s : is_space c = false -> (code c = 45 \/ 48 <= code c <= 57) ->
  read_value (S fuel) (c :: s) = read_number (c :: s).
Proof.
  intros Hsp Hc. cbn [read_value skip_spaces]. rewrite Hsp.
  by destruct (Z.eqb_spec (code c) 34), (Z.eqb_spec (code c) 91), (Z.eqb_spec (code c) 123),
    (Z.eqb_spec (code c) 116), (Z.eqb_spec (code c) 102), (Z.eqb_spec (code c) 110); try lia.
Qed.

Lemma reads_leaf j : is_json j -> match j with VArr _ | VObj _ => False | _ => True end -> reads j.
Proof.
  intros Hj Hleaf fuel rest Hf Hrest. destruct (print_first j Hj) as (c & l & E & Hc & _).
  assert (fuel <> 0%nat) by (rewrite E in Hf; simpl in Hf; lia). destruct fuel as [| fuel]; [done |].
  destruct j as [| | [] | n | | s | | | |]; try done.
  - destruct (number_first n) as (c' & l' & E' & Hn). pose proof (read_printed_number n rest Hrest) as Hread.
    cbn [print] in E |- *. rewrite E' in *. injection E as -> ->. cbn [app] in *.
    by rewrite read_value_number.
  - cbn [print]. destruct (read_printed_string s rest) as (body & -> & Hs).
    cbn [read_value skip_spaces]. change (is_space quote_char) with false. change (code quote_char =? 34) with true.
    cbv beta iota. by rewrite Hs, string_of_chars_of.
Qed.

Lemma reads_array items : Forall is_json items -> Forall reads items -> reads (VArr items).
Proof.
  intros Hj Hr fuel rest Hf _. cbn [print] in *. rewrite length_cons, length_app in Hf. cbn [length] in Hf.
  destruct fuel as [| fuel]; [lia |]. cbn [app]. rewrite <- app_assoc. cbn [app].
  destruct items as [| x items]; [done |].
  pose proof (read_printed_items (x :: items) rest ltac:(done) Hj Hr fuel ltac:(lia)) as Hitems.
  cbn [map] in *. destruct (commas_first (print x) (map print items)) as [more E]. rewrite E in *.
  apply Forall_cons in Hj as [Hx _]. destruct (print_first x Hx) as (c & l & Ec & Hsp & Hc & _).
  rewrite Ec in *. cbn [app read_value skip_spaces] in *. change (is_space (chr 91)) with false. cbv beta iota.
  change (code (chr 91) =? 34) with false. change (code (chr 91) =? 91) with true. cbv beta iota.
  cbn [skip_spaces]. rewrite Hsp. rewrite (proj2 (Z.eqb_neq _ _) Hc). by rewrite Hitems.
Qed.

Lemma reads_object fields : own_order fields ->
  Forall (fun kv => is_json (snd kv)) fields -> Forall (fun kv => reads (snd kv)) fields -> reads (VObj fields).
Proof.
  intros Ho Hj Hr fuel rest Hf _. cbn [print] in *.
  rewrite (map_ext _ field_text) in * by (by intros []).
  rewrite length_cons, length_app in Hf. cbn [length] in Hf.
  destruct fuel as [| fuel]; [lia |]. cbn [app]. rewrite <- app_assoc. cbn [app].
  destruct fields as [| kv fields]; [done |].
  pose proof (read_printed_fields (kv :: fields) rest [] ltac:(done) Ho Hj Hr fuel ltac:(lia)) as Hfields.
  cbn [map] in *. destruct (commas_first (field_text kv) (map field_text fields)) as [more E].
  assert (exists body, commas (field_text kv :: map field_text fields) = quote_char :: body) as [body Eb]
    by (rewrite E; by eexists).
  rewrite Eb in *. cbn [app read_value skip_spaces] in *.
  change (is_space (chr 123)) with false. cbv beta iota.
  change (code (chr 123) =? 34) with false. change (code (chr 123) =? 91) with false.
  change (code (chr 123) =? 123) with true. cbn [skip_spaces]. change (is_space quote_char) with false.
  change (code quote_char =? 125) with false. cbv beta iota. by rewrite Hfields.
Qed.

(** What is printed is read back, whatever follows. *)
Lemma read_print j : is_json j -> reads j.
Proof.
  induction j as [v Hleaf | items IH | fields IH] using value_nested_ind; intros Hj.
  - by apply reads_leaf.
  - apply foldr_Forall in Hj. apply reads_array; [done |].
    rewrite Forall_forall in *. intros x Hx. by apply IH, Hj.
  - destruct Hj as [Ho Hj%foldr_Forall_snd]. apply reads_object; [done | done |].
    rewrite Forall_forall in *. intros x Hx. by apply IH, Hj.
Qed.

Lemma parse_print j : is_json j -> parse (string_of (print j)) = Ok j.
Proof.
  intros Hj. unfold parse. rewrite chars_of_string_of.
  pose proof (read_print j Hj (2 * length (print j) + 2)%nat [] ltac:(lia) ltac:(by split)) as H.
  rewrite app_nil_r in H. by rewrite H.
Qed.

(** ** Serialisation yields a JSON value *)

Lemma map_result_Forall2 {A B} (f : A -> result B) l l' :
  map_result f l = Ok l' -> Forall2 (fun x y => f x = Ok y) l l'.
Proof.
  revert l'. induction l as [| x l IH]; intros l'; simpl; [intros [= <-]; constructor |].
  destruct (f x) as [y | e] eqn:E; simpl; [| done].
  destruct (map_result f l) as [ys | e]; simpl; [| done]. intros [= <-]. constructor; [done | by apply IH].
Qed.

Lemma map_result_ok {A B} (f : A -> result B) (g : A -> B) l :
  Forall (fun x => f x = Ok (g x)) l -> map_result f l = Ok (map g l).
Proof. induction 1 as [| x l Hx _ IH]; simpl; [done |]. by rewrite Hx, IH. Qed.

Lemma json_of_is_json v : forall j, ordered v -> json_of v = Ok (Some j) -> is_json j.
Proof.
  induction v as [v Hleaf | items IH | fields IH] using value_nested_ind; intros j Ho.
  - destruct v as [| | | | | | ms | | |]; try done; try by intros [= <-].
    cbn [json_of]. by destruct (toISOString ms); intros [= <-].
  - cbn [json_of]. destruct (map_result json_of items) as [js | e] eqn:E; [| done]. intros [= <-].
    apply foldr_Forall, Forall_map. apply foldr_Forall in Ho.
    apply map_result_Forall2 in E. induction E as [| x j items js Hx _ IHE]; [constructor |].
    apply Forall_cons in IH as [IHx IH], Ho as [Hox Ho]. constructor; [| by apply IHE].
    destruct j as [j |]; [by apply IHx | done].
  - cbn [json_of]. set (f := fun kv : string * value => _).
    destruct (map_result f fields) as [js | e] eqn:E; [| done]. intros [= <-].
    destruct Ho as [Hord Ho%foldr_Forall_snd]. apply map_result_Forall2 in E. split.
    + eapply own_order_sublist; [| exact Hord]. clear - E.
      induction E as [| [k x] [k' j] fields js Hx _ IHE]; [done |]. subst f. cbn in Hx.
      destruct (json_of x) as [o |]; [| done]. injection Hx as <- <-. cbn.
      destruct o as [j' |]; cbn [option_map map fst]; by constructor.
    + apply foldr_Forall_snd. clear Hord.
      induction E as [| [k x] [k' j] fields js Hx _ IHE]; [constructor |].
      apply Forall_cons in IH as [IHx IH], Ho as [Hox Ho]. subst f. cbn in Hx.
      destruct (json_of x) as [o |] eqn:Ex; [| done]. injection Hx as <- <-. cbn.
      destruct o as [j' |]; cbn [option_map]; [constructor; [by apply IHx |] |]; by apply IHE.
Qed.

(** A JSON value serialises as itself. *)
Lemma json_of_json j : is_json j -> json_of j = Ok (Some j).
Proof.
  induction j as [v Hleaf | items IH | fields IH] using value_nested_ind; intros Hj.
  - by destruct v.
  - apply foldr_Forall in Hj. cbn [json_of]. rewrite (map_result_ok _ Some).
    + cbn [result_bind]. do 3 f_equal. rewrite map_map. by apply map_id.
    + rewrite Forall_forall in *. intros x Hx. by apply IH, Hj.
  - destruct Hj as [_ Hj%foldr_Forall_snd]. cbn [json_of].
    rewrite (map_result_ok _ (fun kv => (fst kv, Some (snd kv)))).
    + cbn [result_bind]. do 3 f_equal. clear. induction fields as [| [k x] fields IH]; [done |]. cbn. by f_equal.
    + rewrite Forall_forall in *. intros [k x] Hx. pose proof (IH (k, x) Hx (Hj (k, x) Hx)) as E. cbn in *. by rewrite E.
Qed.

(** The text of a value is read back as the value that it serialises as. *)
Lemma parse_stringify v t : ordered v -> stringify v = Ok (Some t) ->
  exists j, json_of v = Ok (Some j) /\ is_json j /\ parse t = Ok j.
Proof.
  unfold stringify. intros Ho. destruct (json_of v) as [[j |] |] eqn:E; try done. intros [= <-].
  pose proof (json_of_is_json v j Ho E) as Hj. exists j. split; [done |]. split; [done |]. by apply parse_print.
Qed.

Lemma stringify_json j : is_json j -> stringify j = Ok (Some (string_of (print j))).
Proof. intros Hj. unfold stringify. by rewrite json_of_json. Qed.

Lemma is_json_ordered j : is_json j -> ordered j.
Proof.
  induction j as [v Hleaf | items IH | fields IH] using value_nested_ind; intros Hj.
  - by destruct v.
  - apply foldr_Forall. apply foldr_Forall in Hj. rewrite Forall_forall in *. intros x Hx. by apply IH, Hj.
  - destruct Hj as [Ho Hj%foldr_Forall_snd]. split; [done |]. apply foldr_Forall_snd.
    rewrite Forall_forall in *. intros x Hx. by apply IH, Hj.
Qed.

(** ** What [JSON.parse] returns is JSON *)

Lemma set_prop_keys k v o : Forall (fun k' => k' = k \/ k' ∈ map fst o) (map fst (set_prop k v o)).
Proof.
  apply Forall_forall. intros x. induction o as [| [k' v'] o IH]; cbn [set_prop map fst].
  - intros ->%list_elem_of_singleton. by left.
  - destruct (String.eqb_spec k k') as [-> | Hne]; [| destruct (precedes k k')]; cbn [map fst]; rewrite !elem_of_cons; [tauto | tauto |].
    intros [-> | Hin]; [tauto |]. destruct (IH Hin); tauto.
Qed.

Lemma precedes_before k k' k'' : precedes k k' = true -> key_before k' k'' -> key_before k k''.
Proof.
  unfold key_before, precedes. intros Hk [Hne Hp]. destruct (array_index k) as [i |] eqn:Ei; [| done]. split.
  - intros <-. by rewrite Ei, Hk in Hp.
  - destruct (array_index k'') as [n |]; [| done]. destruct (array_index k') as [j |]; [| done].
    apply Z.ltb_lt in Hk. apply Z.ltb_ge in Hp. apply Z.ltb_ge. lia.
Qed.

Lemma precedes_asym k k' : precedes k k' = true -> precedes k' k = false.
Proof.
  unfold precedes. destruct (array_index k), (array_index k'); try done. intros H%Z.ltb_lt. apply Z.ltb_ge. lia.
Qed.

Lemma set_prop_order k v o : own_order o -> own_order (set_prop k v o).
Proof.
  unfold own_order. induction o as [| [k' v'] o IH]; cbn [set_prop map fst]; intros H; [by repeat constructor |].
  inversion_clear H as [| ? ? Hs Hf]. destruct (String.eqb_spec k k') as [-> | Hne]; [by constructor |].
  destruct (precedes k k') eqn:Ep; cbn [map fst].
  - constructor; [by constructor |]. constructor; [by split; [| apply precedes_asym] |].
    eapply Forall_impl; [exact Hf |]. intros x. by apply precedes_before.
  - constructor; [by apply IH |]. apply Forall_forall. intros x Hx.
    pose proof (set_prop_keys k v o) as Hk. rewrite Forall_forall in Hk, Hf. destruct (Hk x Hx) as [-> | Hin]; [by split | by apply Hf].
Qed.

Definition json_fields (o : list (string * value)) : Prop := own_order o /\ Forall (fun kv => is_json (snd kv)) o.

Lemma set_prop_json k v o : json_fields o -> is_json v -> json_fields (set_prop k v o).
Proof.
  intros [Ho Hf] Hv. split; [by apply set_prop_order |]. clear Ho.
  induction o as [| [k' v'] o IH]; cbn [set_prop]; [by repeat constructor |]. inversion_clear Hf.
  destruct (String.eqb k k'); [by constructor |]. destruct (precedes k k'); [by repeat constructor |].
  constructor; [done | by apply IH].
Qed.

Lemma is_json_fields o : json_fields o -> is_json (VObj o).
Proof. intros [Ho Hf]. split; [done |]. clear Ho. induction Hf as [| [k v] o Hv Hf IH]; [done |]. by split. Qed.

Lemma is_json_items l : Forall is_json l -> is_json (VArr l).
Proof. induction 1 as [| v l Hv Hf IH]; [done |]. by split. Qed.

Lemma read_word_value w v : forall s x rest, read_word w v s = Some (x, rest) -> x = v.
Proof.
  induction w as [| c w IH]; cbn; intros s x rest; [by intros [= -> ->] |].
  destruct (expect c s); [apply IH | done].
Qed.

Lemma read_number_value s x rest : read_number s = Some (x, rest) -> is_json x.
Proof.
  unfold read_number. intros H.
  repeat match type of H with context [match ?e with _ => _ end] => destruct e; try discriminate H end;
    by injection H as <- <-.
Qed.

Lemma read_is_json fuel :
  (forall s v rest, read_value fuel s = Some (v, rest) -> is_json v) /\
  (forall s l rest, read_items fuel s = Some (l, rest) -> Forall is_json l) /\
  (forall s acc o rest, json_fields acc -> read_fields fuel s acc = Some (o, rest) -> json_fields o).
Proof.
  induction fuel as [| fuel (IHv & IHi & IHf)]; [done |]. split; [| split].
  - intros s v rest. cbn [read_value]. destruct (skip_spaces s) as [| c s']; [done |]. cbv zeta.
    destruct (code c =? 34).
    { destruct (read_string s') as [[t r] |]; [| done]. by intros [= <- <-]. }
    destruct (code c =? 91).
    { destruct (skip_spaces s') as [| c' r]; [done |]. destruct (code c' =? 93); [by intros [= <- <-] |].
      destruct (read_items fuel s') as [[items r'] |] eqn:E; [| done]. intros [= <- <-]. by eapply is_json_items, IHi. }
    destruct (code c =? 123).
    { destruct (skip_spaces s') as [| c' r]; [done |]. destruct (code c' =? 125); [intros [= <- <-]; by repeat constructor |].
      destruct (read_fields fuel s' []) as [[o r'] |] eqn:E; [| done]. intros [= <- <-].
      eapply is_json_fields, IHf; [| exact E]. by repeat constructor. }
    destruct (code c =? 116); [by intros ->%read_word_value |].
    destruct (code c =? 102); [by intros ->%read_word_value |].
    destruct (code c =? 110); [by intros ->%read_word_value |]. apply read_number_value.
  - intros s l rest. cbn [read_items]. destruct (read_value fuel s) as [[x r] |] eqn:E; [| done].
    apply IHv in E. destruct (skip_spaces r) as [| c r']; [done |]. destruct (code c =? 93); [intros [= <- <-]; by repeat constructor |].
    destruct (code c =? 44); [| done]. destruct (read_items fuel r') as [[xs r2] |] eqn:E2; [| done].
    intros [= <- <-]. constructor; [done | by eapply IHi].
  - intros s acc o rest Hacc. cbn [read_fields]. destruct (skip_spaces s) as [| q s1]; [done |].
    destruct (code q =? 34); [| done]. destruct (read_string s1) as [[k s2] |]; [| done].
    destruct (expect _ _) as [s3 |]; [| done]. destruct (read_value fuel s3) as [[x r] |] eqn:E; [| done].
    apply IHv in E. pose proof (set_prop_json (string_of k) x acc Hacc E) as Hacc'. cbv zeta.
    destruct (skip_spaces r) as [| c r']; [done |]. destruct (code c =? 125); [by intros [= <- <-] |].
    destruct (code c =? 44); [| done]. by apply IHf.
Qed.

Lemma parse_is_json t v : parse t = Ok v -> is_json v.
Proof.
  unfold parse. destruct (read_value _ _) as [[x rest] |] eqn:E; [| done]. apply read_is_json in E.
  destruct (skip_spaces rest); [by intros [= <-] | done].
Qed.

(** A parsed text, printed and parsed again. *)
Lemma parse_print_parse t v : parse t = Ok v -> exists t', stringify v = Ok (Some t') /\ parse t' = Ok v.
Proof.
  intros H%parse_is_json. exists (string_of (print v)). split; [by apply stringify_json | by apply parse_print].
Qed.
