(* ===== verification/JsMap.v ===== *)
(** The JavaScript [Map] with string keys that every in-memory component keeps
    its state in: an association list in insertion order.  [set] on a present
    key replaces the value where it stands, on a new key appends the entry;
    iteration follows the list.  [wf] (no key occurs twice) is the invariant of
    the data type, kept by every operation. *)
From S2P Require Import Prelude.
Local Open Scope string_scope.

Definition jsmap (V : Type) : Type := list (string * V).

Definition empty {V} : jsmap V := [].

(** [map.get(k)] *)
Fixpoint mget {V} (k : string) (m : jsmap V) : option V :=
  match m with
  | [] => None
  | (k', v) :: m' => if String.eqb k k' then Some v else mget k m'
  end.

(** [map.has(k)] *)
Definition mhas {V} (k : string) (m : jsmap V) : bool :=
  match mget k m with Some _ => true | None => false end.

(** [map.set(k, v)] *)
Fixpoint mset {V} (k : string) (v : V) (m : jsmap V) : jsmap V :=
  match m with
  | [] => [(k, v)]
  | (k', v') :: m' => if String.eqb k k' then (k, v) :: m' else (k', v') :: mset k v m'
  end.

(** [map.delete(k)] *)
Fixpoint mdelete {V} (k : string) (m : jsmap V) : jsmap V :=
  match m with
  | [] => []
  | (k', v') :: m' => if String.eqb k k' then m' else (k', v') :: mdelete k m'
  end.

(** [map.keys()], [map.values()] *)
Definition mkeys {V} (m : jsmap V) : list string := map fst m.
Definition mvalues {V} (m : jsmap V) : list V := map snd m.

Definition wf {V} (m : jsmap V) : Prop := NoDup (mkeys m).

(** Two maps that no lookup tells apart. *)
Definition meq {V} (m m' : jsmap V) : Prop := forall k, mget k m = mget k m'.

#[export] Instance meq_equivalence {V} : Equivalence (@meq V).
Proof. split; repeat intro; [reflexivity | congruence | unfold meq in *; congruence]. Qed.

Section lemmas.
Context {V : Type}.
Implicit Types (m : jsmap V) (k : string) (v : V).

Lemma mget_mset_eq k v m : mget k (mset k v m) = Some v.
Proof.
  induction m as [| [k' v'] m IH]; simpl; [by rewrite String.eqb_refl |].
  destruct (String.eqb k k') eqn:E; simpl; [by rewrite String.eqb_refl | by rewrite E].
Qed.

Lemma mget_mset_ne k k' v m : k <> k' -> mget k (mset k' v m) = mget k m.
Proof.
  intros Hne. apply String.eqb_neq in Hne.
  induction m as [| [k1 v1] m IH]; simpl; [by rewrite Hne |].
  destruct (String.eqb k' k1) eqn:E; simpl; [| by rewrite IH].
  apply String.eqb_eq in E as <-. by rewrite Hne.
Qed.

Lemma mget_mset k k' v m :
  mget k (mset k' v m) = if String.eqb k k' then Some v else mget k m.
Proof.
  destruct (String.eqb_spec k k') as [<- | Hne]; [apply mget_mset_eq | by apply mget_mset_ne].
Qed.

Lemma mget_None_keys k m : mget k m = None <-> k ∉ mkeys m.
Proof.
  unfold mkeys. induction m as [| [k' v'] m IH]; simpl; [set_solver |].
  rewrite not_elem_of_cons. destruct (String.eqb_spec k k') as [-> | Hne].
  - split; [done | by intros [? _]].
  - rewrite IH. split; [by split | by intros [_ ?]].
Qed.

Lemma mget_Some_elem k v m : mget k m = Some v -> (k, v) ∈ m.
Proof.
  induction m as [| [k' v'] m IH]; simpl; [done |].
  destruct (String.eqb_spec k k') as [-> | Hne]; [intros [= ->]; left | right; auto].
Qed.

Lemma elem_mget k v m : wf m -> (k, v) ∈ m -> mget k m = Some v.
Proof.
  unfold wf, mkeys. induction m as [| [k' v'] m IH]; simpl; [set_solver |].
  rewrite NoDup_cons. intros [Hk' Hnd] [[= -> ->] | Hin]%elem_of_cons.
  - by rewrite String.eqb_refl.
  - destruct (String.eqb_spec k k') as [-> | Hne]; [| auto].
    exfalso. apply Hk'. apply list_elem_of_fmap. by exists (k', v).
Qed.

Lemma mkeys_mset_present k v m : mhas k m = true -> mkeys (mset k v m) = mkeys m.
Proof.
  unfold mhas, mkeys. induction m as [| [k' v'] m IH]; simpl; [done |].
  destruct (String.eqb_spec k k') as [-> | Hne]; simpl; [done |]. intros H. by rewrite IH.
Qed.

Lemma mset_absent k v m : mget k m = None -> mset k v m = (m ++ [(k, v)])%list.
Proof.
  induction m as [| [k' v'] m IH]; simpl; [done |].
  destruct (String.eqb k k'); [done |]. intros H. by rewrite IH.
Qed.

Lemma wf_mset k v m : wf m -> wf (mset k v m).
Proof.
  intros Hwf. destruct (mget k m) as [w |] eqn:E.
  - unfold wf. rewrite mkeys_mset_present; [exact Hwf |]. unfold mhas. by rewrite E.
  - rewrite mset_absent by exact E. unfold wf, mkeys. rewrite map_app. simpl.
    apply mget_None_keys in E. unfold wf, mkeys in Hwf, E.
    apply NoDup_app. split; [exact Hwf |]. split; [| apply NoDup_singleton].
    intros x Hx ->%list_elem_of_singleton. by apply E.
Qed.

Lemma mdelete_sublist k m : mdelete k m `sublist_of` m.
Proof.
  induction m as [| [k' v'] m IH]; simpl; [done |].
  destruct (String.eqb k k'); [by apply sublist_cons | by apply sublist_skip].
Qed.

Lemma wf_sublist m m' : m' `sublist_of` m -> wf m -> wf m'.
Proof.
  unfold wf, mkeys. intros Hsub Hm. eapply sublist_NoDup; [exact Hm |].
  clear Hm. induction Hsub; simpl; by constructor.
Qed.

Lemma wf_mdelete k m : wf m -> wf (mdelete k m).
Proof. apply wf_sublist, mdelete_sublist. Qed.

Lemma mget_mdelete_ne k k' m : k <> k' -> mget k (mdelete k' m) = mget k m.
Proof.
  intros Hne. induction m as [| [k1 v1] m IH]; simpl; [done |].
  destruct (String.eqb_spec k' k1) as [<- | Hne1]; simpl.
  - apply String.eqb_neq in Hne. by rewrite Hne.
  - by rewrite IH.
Qed.

Lemma mget_mdelete_eq k m : wf m -> mget k (mdelete k m) = None.
Proof.
  unfold wf, mkeys. induction m as [| [k1 v1] m IH]; simpl; [done |].
  rewrite NoDup_cons. intros [Hk1 Hnd].
  destruct (String.eqb_spec k k1) as [-> | Hne]; simpl; [by apply mget_None_keys |].
  apply String.eqb_neq in Hne. rewrite Hne. by apply IH.
Qed.

Lemma mget_mdelete k k' m :
  wf m -> mget k (mdelete k' m) = if String.eqb k k' then None else mget k m.
Proof.
  intros Hwf. destruct (String.eqb_spec k k') as [<- | Hne];
    [by apply mget_mdelete_eq | by apply mget_mdelete_ne].
Qed.
End lemmas.

#[export] Instance mset_meq {V} : Proper (eq ==> eq ==> meq ==> meq) (@mset V).
Proof. intros k ? <- v ? <- m m' H k'. rewrite !mget_mset. by rewrite H. Qed.

(** Deleting, while iterating, the entries that satisfy a test. *)
Definition mdelete_where {V} (p : string -> V -> bool) (m : jsmap V) : jsmap V :=
  fold_left (fun acc '(k, v) => if p k v then mdelete k acc else acc) m m.

Section delete_where.
Context {V : Type} (p : string -> V -> bool).
Implicit Types m : jsmap V.

Lemma fold_delete_get (l acc : jsmap V) k :
  wf acc -> wf l ->
  mget k (fold_left (fun acc '(k, v) => if p k v then mdelete k acc else acc) l acc)
  = match mget k l with
    | Some v => if p k v then None else mget k acc
    | None => mget k acc
    end.
Proof.
  unfold wf, mkeys. revert acc.
  induction l as [| [k1 v1] l IH]; intros acc Hacc; simpl; [done |].
  rewrite NoDup_cons. intros [Hk1 Hl]. rewrite IH; [| destruct (p k1 v1);
    [by apply wf_mdelete | done] | done].
  destruct (String.eqb_spec k k1) as [-> | Hne].
  - rewrite (proj2 (mget_None_keys k1 l)) by done.
    destruct (p k1 v1); [by apply mget_mdelete_eq | done].
  - destruct (p k1 v1); [| done]. by rewrite mget_mdelete_ne.
Qed.

(** Exactly the entries that pass the test are gone. *)
Lemma mget_mdelete_where k m :
  wf m ->
  mget k (mdelete_where p m)
  = match mget k m with Some v => if p k v then None else Some v | None => None end.
Proof.
  intros Hwf. unfold mdelete_where. rewrite fold_delete_get by done.
  destruct (mget k m) eqn:E; [by destruct (p k v) | done].
Qed.

Lemma wf_mdelete_where m : wf m -> wf (mdelete_where p m).
Proof.
  intros Hwf. unfold mdelete_where. generalize m at 1. intros l. revert m Hwf.
  induction l as [| [k v] l IH]; intros m Hwf; simpl; [done |].
  apply IH. destruct (p k v); [by apply wf_mdelete | done].
Qed.
End delete_where.

Create Rewrite HintDb jsmap.
#[export] Hint Rewrite @mget_mset_eq @mget_mset : jsmap.
Create HintDb jsmap_wf.
#[export] Hint Resolve @wf_mset @wf_mdelete @wf_mdelete_where : jsmap_wf.
#[export] Hint Extern 1 (wf empty) => apply NoDup_nil_2 : jsmap_wf.
#[export] Hint Extern 1 (wf []) => apply NoDup_nil_2 : jsmap_wf.
