(* ===== verification/CoreTypes.v ===== *)
(** The data of [packages/core/src]: events and their metadata
    ([edd/event.ts], [edd/event-metadata.ts]), commands ([cqrs/command]),
    aggregates, projections and sagas ([ddd/]), snapshots, idempotency records
    and outbox entries ([persistence/]).  An object literal used as a record of
    handlers is a [jsmap]: its own properties, in order.  Handlers that the user
    supplies are functions of the model's monad; the ones the framework requires
    to be pure ([evolve], upcaster steps, [id] extractors) return a [result],
    since they may throw. *)
From S2P Require Import Prelude JsMap.

(** ** Events *)

Record EventMetadata : Type := {
  md_eventId : string;
  md_timestamp : Z;   (** the instant the ISO string denotes, in milliseconds *)
  md_correlationId : string;
  md_causationId : string;
  md_userId : option ID;
  md_version : option Z;
  md_aggregateName : option string;
  md_aggregateId : option ID;
  md_sequenceNumber : option nat;
  md_traceparent : option string;
  md_tracestate : option string
}.

Record event : Type := {
  ev_name : string;
  ev_payload : value;
  ev_metadata : option EventMetadata
}.

(** [event.metadata?.field] for a field that is itself optional. *)
Definition metadata_opt {A} (f : EventMetadata -> option A) (e : event) : option A :=
  match ev_metadata e with Some md => f md | None => None end.

(** [event.metadata?.field] for a required field. *)
Definition metadata_req {A} (f : EventMetadata -> A) (e : event) : option A :=
  metadata_opt (fun md => Some (f md)) e.

(** [{ ...event, payload }] *)
Definition with_payload (e : event) (p : value) : event :=
  {| ev_name := ev_name e; ev_payload := p; ev_metadata := ev_metadata e |}.

(** [{ ...event, metadata }] *)
Definition with_metadata (e : event) (md : EventMetadata) : event :=
  {| ev_name := ev_name e; ev_payload := ev_payload e; ev_metadata := Some md |}.

(** ** Commands: [targetAggregateId] is present on aggregate commands *)
Record command : Type := {
  cmd_name : string;
  cmd_payload : value;
  cmd_commandId : option ID;
  cmd_targetAggregateId : option ID
}.

(** ** Aggregates *)

Definition upcaster_step : Type := value -> result value.
Abbreviation UpcasterChain := (list upcaster_step).
Definition UpcasterMap : Type := jsmap UpcasterChain.

(** [TEvents | TEvents[]], what a decide handler returns. *)
Inductive decision : Type :=
| OneEvent (e : event)
| ManyEvents (es : list event).

(** [Array.isArray(result) ? result : [result]] *)
Definition normalize_decision (d : decision) : list event :=
  match d with OneEvent e => [e] | ManyEvents es => es end.

Definition evolve_handler : Type := value -> value -> result value.

Record Aggregate (W : Type) : Type := {
  ag_initialState : value;
  ag_decide : jsmap (command -> value -> M W decision);
  ag_evolve : jsmap evolve_handler;
  ag_upcasters : option UpcasterMap
}.
Arguments ag_initialState {W} _.
Arguments ag_decide {W} _.
Arguments ag_evolve {W} _.
Arguments ag_upcasters {W} _.

(** ** Projections *)

Record ProjectionEventHandler (W : Type) : Type := {
  ph_id : option (event -> result ID);
  ph_reduce : event -> value -> M W value
}.
Arguments ph_id {W} _.
Arguments ph_reduce {W} _.

(** [consistency?: "eventual" | "strong"] *)
Inductive Consistency : Type := Eventual | Strong.

Record Projection (W : Type) : Type := {
  pr_on : jsmap (ProjectionEventHandler W);
  pr_initialView : value;      (** [undefined] when the field is absent *)
  pr_consistency : Consistency  (** an absent field reads as eventual *)
}.
Arguments pr_on {W} _.
Arguments pr_initialView {W} _.
Arguments pr_consistency {W} _.

(** [DeleteView], the sentinel a reducer returns to delete the view. *)
Definition DeleteView : value := VSymbol "DeleteView".

(** [newView === DeleteView] *)
Definition is_DeleteView (v : value) : bool :=
  match v with VSymbol d => String.eqb d "DeleteView" | _ => false end.

(** ** Sagas *)

Inductive SagaAtomicity : Type := Atomic | BestEffort.

(** [commands?: TCommands | TCommands[]] *)
Inductive saga_commands : Type :=
| NoCommands
| OneCommand (c : command)
| ManyCommands (cs : list command).

Definition normalize_commands (c : saga_commands) : list command :=
  match c with NoCommands => [] | OneCommand c => [c] | ManyCommands cs => cs end.

Record SagaReaction : Type := { re_state : value; re_commands : saga_commands }.

Record SagaOnEntry (W : Type) : Type := {
  on_id : event -> result ID;
  on_handle : event -> value -> M W SagaReaction
}.
Arguments on_id {W} _.
Arguments on_handle {W} _.

Record Saga (W : Type) : Type := {
  sg_initialState : value;
  sg_startedBy : list string;
  sg_on : jsmap (SagaOnEntry W);
  sg_atomicity : option SagaAtomicity
}.
Arguments sg_initialState {W} _.
Arguments sg_startedBy {W} _.
Arguments sg_on {W} _.
Arguments sg_atomicity {W} _.

(** ** Persisted records *)

Record Snapshot : Type := {
  sn_state : value;
  sn_version : nat;
  sn_stateVersion : option Z
}.

(** The argument of a snapshot strategy. *)
Record SnapshotContext : Type := {
  sc_version : nat;
  sc_lastSnapshotVersion : nat;
  sc_eventsSinceSnapshot : Z
}.

Definition SnapshotStrategy : Type := SnapshotContext -> bool.

(** [everyNEvents] of [persistence/snapshot.ts]. *)
Definition everyNEvents (n : Z) : SnapshotStrategy :=
  fun ctx => (n <=? sc_eventsSinceSnapshot ctx)%Z.

Record IdempotencyRecord : Type := {
  ir_commandId : ID;
  ir_aggregateName : string;
  ir_aggregateId : ID;
  ir_processedAt : Z  (** the instant the ISO string denotes *)
}.

Record OutboxEntry : Type := {
  ob_id : string;
  ob_event : event;
  ob_aggregateName : option string;
  ob_aggregateId : option string;
  ob_createdAt : Z;
  ob_publishedAt : option Z
}.

(** [withMetadataContext] / [metadataProvider] values ([engine/src/domain.ts]).
    Spreading such an object copies the keys it has, so a field is [None] when
    the key is absent, and [Some None] when it is present with [undefined]. *)
Record MetadataContext : Type := {
  mc_correlationId : option (option string);
  mc_causationId : option (option string);
  mc_userId : option (option ID)
}.

Definition empty_context : MetadataContext :=
  {| mc_correlationId := None; mc_causationId := None; mc_userId := None |}.

(** The value read from a key that may be absent. *)
Definition field {A} (o : option (option A)) : option A := or_default o None.

(** [{ ...a, ...b }] *)
Definition merge_context (a b : MetadataContext) : MetadataContext :=
  let pick {A} (x y : option (option A)) := match y with Some _ => y | None => x end in
  {| mc_correlationId := pick (mc_correlationId a) (mc_correlationId b);
     mc_causationId := pick (mc_causationId a) (mc_causationId b);
     mc_userId := pick (mc_userId a) (mc_userId b) |}.
