(* ===== verification/Errors.v ===== *)
(** The error classes of [packages/core] and [packages/engine], with the texts of
    their messages, and what code that inspects an error of any kind sees: its
    properties.  [isUniqueViolation] of the Drizzle and the TypeORM adapters is here. *)
From S2P Require Import Prelude Text Json CoreTypes.
Local Open Scope string_scope.

(** [error.message] *)
Definition error_message (e : js_error) : string :=
  match e with
  | ConcurrencyError name i expected actual =>
      "Concurrency conflict on " ++ composite_key name i ++ ": expected version " ++
      string_of_Z (Z.of_nat expected) ++ ", actual " ++ string_of_Z actual
  | IdempotencyConflictError commandId =>
      "Idempotency conflict: a record for commandId " ++ string_of_ID commandId ++ " already exists"
  | LockTimeoutError name i timeoutMs =>
      "Lock acquisition timed out for " ++ composite_key name i ++ " after " ++ string_of_Z timeoutMs ++ "ms"
  | DomainShutdownError => "Domain is shutting down and no longer accepts commands or queries"
  | ProjectionNotFoundError name => "Projection " ++ quoted name ++ " is not registered in this domain."
  | StrongConsistencyRebuildError name =>
      "Projection " ++ quoted name ++ " uses strong consistency and cannot be rebuilt. " ++
      "v1 supports eventual-consistency projections only."
  | MissingViewStoreFactoryError name =>
      "Projection " ++ quoted name ++ " has no viewStore factory configured. Set DomainWiring.projections[" ++
      quoted name ++ "].viewStore to enable rebuild."
  | ViewStoreNotTruncatableError name =>
      "Projection " ++ quoted name ++ ": the view store does not implement truncate(). " ++
      "Rebuild requires a view store that can clear all entries atomically."
  | EventReaderUnavailableError =>
      "No EventReader is available. Provide a persistenceAdapter.eventReader or use " ++
      "InMemoryEventSourcedAggregatePersistence (which implements EventReader structurally)."
  | LateSubscriptionError name =>
      "EventBus: on(" ++ quoted name ++ ") called for a new event name after connect(). " ++
      "Register all handlers before calling connect()."
  | ExchangeTypeMismatchError exchangeName exchangeType cause =>
      "Failed to assert exchange " ++ quoted exchangeName ++ ": an exchange with this name already " ++
      "exists with a different type than the configured exchangeType (" ++ quoted exchangeType ++ "). " ++
      "RabbitMQ exchanges cannot be changed in place — see the " ++ quoted "Changing exchangeType after deployment" ++
      " section in the @noddde/rabbitmq README. Original error: " ++ cause
  | RangeError m | TypeError m | PlainError m => m
  | DriverError props => match get_prop "message" props with Some (VStr m) => m | _ => EmptyString end
  | ThrownValue v => match read_prop "message" v with VStr m => m | _ => EmptyString end
  end.

(** [typeof error === "object"] and not null *)
Definition is_object (e : js_error) : bool :=
  match e with
  | ThrownValue (VObj _) | ThrownValue (VArr _) | ThrownValue (VDate _) => true
  | ThrownValue _ => false
  | _ => true
  end.

(** [error.k] *)
Definition error_prop (k : string) (e : js_error) : value :=
  match e with
  | DriverError props => or_default (get_prop k props) VUndefined
  | ThrownValue v => read_prop k v
  | _ => if String.eqb k "message" then VStr (error_message e) else VUndefined
  end.

(** [error instanceof Error] *)
Definition is_error (e : js_error) : bool := match e with ThrownValue _ => false | _ => true end.

(** ** Texts *)

(** Lower case, for a regular expression with the flag [i]. *)
Definition lower_char (c : Ascii.ascii) : Ascii.ascii :=
  let n := code c in if ((65 <=? n) && (n <=? 90))%Z then chr (n + 32) else c.
Definition lower_case (s : string) : string := string_of (map lower_char (chars_of s)).

(** [/a|b|.../i.test(s)] for plain words *)
Definition matches_any (words : list string) (s : string) : bool :=
  existsb (fun w => includes (lower_case w) (lower_case s)) words.

(** [v === "text"] and [v === n] *)
Definition is_text (s : string) (v : value) : bool := match v with VStr t => String.eqb s t | _ => false end.
Definition is_number (n : Z) (v : value) : bool := match v with VNum m => (n =? m)%Z | _ => false end.
Definition starts_with (p : string) (v : value) : bool := match v with VStr t => String.prefix p t | _ => false end.
Definition text_or_empty (v : value) : string := match v with VStr t => t | _ => EmptyString end.

(** ** [isUniqueViolation] *)

(** [drizzle/src/errors.ts] *)
Module DrizzleErrors.

Definition isUniqueViolation (error : js_error) : bool :=
  if negb (is_object error) then false else
  let code := error_prop "code" error in
  if is_text "23505" code then true else
  if is_text "ER_DUP_ENTRY" code || is_number 1062 (error_prop "errno" error) then true else
  if starts_with "SQLITE_CONSTRAINT" code then true else
  matches_any ["UNIQUE constraint failed"; "unique constraint"; "Duplicate entry"; "duplicate key"]
    (text_or_empty (error_prop "message" error)).

End DrizzleErrors.

(** [typeorm/src/errors.ts] *)
Module TypeORMErrors.

Definition hasUniqueViolationCode (prop : string -> value) : bool :=
  if is_text "23505" (prop "code") then true else
  if is_text "ER_DUP_ENTRY" (prop "code") || is_number 1062 (prop "errno") then true else
  if starts_with "SQLITE_CONSTRAINT" (prop "code") then true else
  is_number 2627 (prop "number") || is_number 2601 (prop "number").

Definition isUniqueViolation (error : js_error) : bool :=
  if negb (is_object error) then false else
  if hasUniqueViolationCode (fun k => error_prop k error) then true else
  let driverError := error_prop "driverError" error in
  if match driverError with VObj _ => hasUniqueViolationCode (fun k => read_prop k driverError) | _ => false end
  then true else
  let message :=
    match error_prop "message" error with
    | VStr m => m
    | _ => match read_prop "message" driverError with VStr m => m | _ => EmptyString end
    end in
  matches_any ["UNIQUE"; "duplicate"; "unique"] message.

End TypeORMErrors.

(** [error instanceof Error && "code" in error && error.code === "P2002"], the test of
    the Prisma adapter. *)
Definition is_P2002 (error : js_error) : bool := is_error error && is_text "P2002" (error_prop "code" error).

(** ** The errors of the drivers

    What the drivers document, and not how the adapters read it.  A taken key: SQLSTATE
    23505 of PostgreSQL, [ER_DUP_ENTRY] (1062) of MySQL, the codes of SQLite for a unique
    index and for a primary key, 2627 and 2601 of SQL Server; [text] is in the message
    of a server that speaks English. *)
Module Drivers.

Inductive duplicate_key (prop : string -> value) : string -> Prop :=
  | postgres_duplicate : prop "code" = VStr "23505" -> duplicate_key prop "duplicate key"
  | mysql_duplicate : prop "code" = VStr "ER_DUP_ENTRY" -> prop "errno" = VNum 1062 ->
      duplicate_key prop "Duplicate entry"
  | sqlite_duplicate suffix : In suffix [EmptyString; "_UNIQUE"; "_PRIMARYKEY"] ->
      prop "code" = VStr ("SQLITE_CONSTRAINT" ++ suffix) -> duplicate_key prop "UNIQUE constraint failed".

Inductive mssql_duplicate (prop : string -> value) : Prop :=
  | primary_key_violation : prop "number" = VNum 2627 -> mssql_duplicate prop
  | unique_index_violation : prop "number" = VNum 2601 -> mssql_duplicate prop.

(** What an adapter is given for a taken key.  Drizzle 0.30 (yarn.lock) passes the error
    of the driver on. *)
Definition drizzle_taken (e : js_error) : Prop :=
  exists props text, e = DriverError props /\ duplicate_key (fun k => error_prop k e) text.

(** The same, of a server that speaks English. *)
Definition drizzle_taken_in_english (e : js_error) : Prop :=
  exists props text message, e = DriverError props /\ duplicate_key (fun k => error_prop k e) text /\
    get_prop "message" props = Some (VStr message) /\ includes text message = true.

(** A [PrismaClientKnownRequestError]. *)
Definition prisma_taken (e : js_error) : Prop := exists props, e = DriverError props /\ get_prop "code" props = Some (VStr "P2002").

(** A [QueryFailedError], whose [driverError] is the error of the driver. *)
Definition typeorm_taken (e : js_error) : Prop :=
  exists props inner, e = DriverError props /\ get_prop "driverError" props = Some (VObj inner) /\
    let prop k := read_prop k (VObj inner) in mssql_duplicate prop \/ exists text, duplicate_key prop text.

(** Any other failure (the connection is lost, the statement times out, the server
    deadlocks): it has none of the codes above, and does not speak of a unique key. *)
Definition other_code (prop : string -> value) : Prop :=
  (forall c, prop "code" = VStr c -> ~ In c ["23505"; "ER_DUP_ENTRY"; "P2002"] /\ String.prefix "SQLITE_CONSTRAINT" c = false) /\
  prop "errno" <> VNum 1062 /\ prop "number" <> VNum 2627 /\ prop "number" <> VNum 2601.

Definition speaks_of_key (message : value) : bool := matches_any ["unique"; "duplicate"] (text_or_empty message).

Definition other_failure (e : js_error) : Prop :=
  is_concurrency_error e = false /\ other_code (fun k => error_prop k e) /\
  speaks_of_key (error_prop "message" e) = false /\
  let driverError := error_prop "driverError" e in
  other_code (fun k => read_prop k driverError) /\ speaks_of_key (read_prop "message" driverError) = false.

End Drivers.

(** A test of an adapter tells a taken key from any other failure. *)
Class Recognises (violation : js_error -> bool) (taken : js_error -> Prop) : Prop := {
  recognises_taken : forall e, taken e -> violation e = true;
  recognises_other : forall e, Drivers.other_failure e -> violation e = false
}.

Lemma lower_case_append a b : lower_case (a ++ b) = lower_case a ++ lower_case b.
Proof.
  unfold lower_case. rewrite chars_of_append, map_app.
  induction (map lower_char (chars_of a)) as [| c l IH]; [done |]. exact (f_equal (String c) IH).
Qed.

Lemma includes_lower_case sub s : includes sub s = true -> includes (lower_case sub) (lower_case s) = true.
Proof.
  intros (a & r & ->)%includes_spec. apply includes_spec. exists (lower_case a), (lower_case r).
  by rewrite !lower_case_append.
Qed.

(** A message that does not speak of a key has none of the texts that do. *)
Lemma speaks_of_key_false message sub : Drivers.speaks_of_key message = false ->
  includes "unique" (lower_case sub) || includes "duplicate" (lower_case sub) = true ->
  includes sub (text_or_empty message) = false /\ includes (lower_case sub) (lower_case (text_or_empty message)) = false.
Proof.
  unfold Drivers.speaks_of_key, matches_any. cbn -[includes lower_case]. rewrite orb_false_r.
  change (lower_case "unique") with "unique". change (lower_case "duplicate") with "duplicate".
  intros [Hu Hd]%orb_false_iff Hsub.
  assert (H : includes (lower_case sub) (lower_case (text_or_empty message)) = false).
  { destruct (includes (lower_case sub) _) eqn:E; [| done].
    apply orb_true_iff in Hsub as [Hs | Hs]; pose proof (includes_trans _ _ _ Hs E); congruence. }
  split; [| done]. destruct (includes sub _) eqn:E; [| done]. apply includes_lower_case in E. congruence.
Qed.

(** The codes of a taken key are not those of another failure. *)
Lemma other_code_spec prop : Drivers.other_code prop ->
  is_text "23505" (prop "code") = false /\ is_text "ER_DUP_ENTRY" (prop "code") = false /\
  is_text "P2002" (prop "code") = false /\ starts_with "SQLITE_CONSTRAINT" (prop "code") = false /\
  is_number 1062 (prop "errno") = false /\ is_number 2627 (prop "number") = false /\ is_number 2601 (prop "number") = false.
Proof.
  intros (Hc & He & H1 & H2).
  assert (Hn : forall n v, v <> VNum n -> is_number n v = false)
    by (intros n [] Hv; try done; cbn; apply Z.eqb_neq; congruence).
  assert (Ht : forall w, In w ["23505"; "ER_DUP_ENTRY"; "P2002"] -> is_text w (prop "code") = false).
  { intros w Hw. destruct (prop "code") as [| | | | | c | | | |]; try done. cbn. apply String.eqb_neq. intros <-.
    by destruct (Hc _ eq_refl). }
  rewrite !Ht, !Hn by (done || (cbn; tauto)).
  repeat split. destruct (prop "code") as [| | | | | c | | | |]; try done. by destruct (Hc _ eq_refl).
Qed.

Lemma duplicate_key_codes prop text : Drivers.duplicate_key prop text ->
  is_text "23505" (prop "code") || is_text "ER_DUP_ENTRY" (prop "code") || starts_with "SQLITE_CONSTRAINT" (prop "code") = true.
Proof.
  intros [-> | -> _ | suffix Hs ->]; [done | done |]. destruct Hs as [<- | [<- | [<- | []]]]; done.
Qed.

#[export] Instance drizzle_recognises : Recognises DrizzleErrors.isUniqueViolation Drivers.drizzle_taken.
Proof.
  split.
  - intros e (props & text & -> & H%duplicate_key_codes). unfold DrizzleErrors.isUniqueViolation. cbn [is_object negb].
    destruct (is_text "23505" _); [done |]. destruct (is_text "ER_DUP_ENTRY" _); [done |].
    cbn [orb] in *. rewrite H. by destruct (is_number 1062 _).
  - intros e (_ & Hcode & Hmsg & _). unfold DrizzleErrors.isUniqueViolation.
    destruct (negb (is_object e)); [done |].
    destruct (other_code_spec _ Hcode) as (-> & -> & _ & -> & -> & _). cbn [orb]. unfold matches_any.
    cbn [existsb]. by rewrite (proj2 (speaks_of_key_false _ "UNIQUE constraint failed" Hmsg eq_refl)),
      (proj2 (speaks_of_key_false _ "unique constraint" Hmsg eq_refl)),
      (proj2 (speaks_of_key_false _ "Duplicate entry" Hmsg eq_refl)),
      (proj2 (speaks_of_key_false _ "duplicate key" Hmsg eq_refl)).
Qed.

#[export] Instance typeorm_recognises : Recognises TypeORMErrors.isUniqueViolation Drivers.typeorm_taken.
Proof.
  assert (Hother : forall prop, Drivers.other_code prop -> TypeORMErrors.hasUniqueViolationCode prop = false).
  { intros prop H. unfold TypeORMErrors.hasUniqueViolationCode.
    by destruct (other_code_spec _ H) as (-> & -> & _ & -> & -> & -> & ->). }
  split.
  - intros e (props & inner & -> & Hin & H). unfold TypeORMErrors.isUniqueViolation. cbn [is_object negb].
    destruct (TypeORMErrors.hasUniqueViolationCode (fun k => error_prop k _)); [done |]. cbn [error_prop]. rewrite Hin. cbn [or_default].
    assert (TypeORMErrors.hasUniqueViolationCode (fun k => read_prop k (VObj inner)) = true) as ->; [| done].
    unfold TypeORMErrors.hasUniqueViolationCode. destruct H as [[-> | ->] | [text H%duplicate_key_codes]];
      [by repeat case_match | by repeat case_match |].
    destruct (is_text "23505" _); [done |]. destruct (is_text "ER_DUP_ENTRY" _); [done |].
    cbn [orb] in *. rewrite H. by destruct (is_number 1062 _).
  - intros e (_ & Hcode & Hmsg & Hcode' & Hmsg'). unfold TypeORMErrors.isUniqueViolation.
    destruct (negb (is_object e)); [done |]. rewrite (Hother _ Hcode).
    assert (match error_prop "driverError" e with VObj _ => TypeORMErrors.hasUniqueViolationCode
      (fun k => read_prop k (error_prop "driverError" e)) | _ => false end = false) as ->
      by (destruct (error_prop "driverError" e); try done; by apply Hother).
    assert (Hno : forall m, Drivers.speaks_of_key m = false -> matches_any ["UNIQUE"; "duplicate"; "unique"] (text_or_empty m) = false).
    { intros m Hm. unfold matches_any. cbn [existsb].
      by rewrite (proj2 (speaks_of_key_false _ "UNIQUE" Hm eq_refl)), (proj2 (speaks_of_key_false _ "duplicate" Hm eq_refl)),
        (proj2 (speaks_of_key_false _ "unique" Hm eq_refl)). }
    apply Hno in Hmsg, Hmsg'. destruct (error_prop "message" e); try exact Hmsg;
      destruct (read_prop "message" _); try exact Hmsg'; reflexivity.
Qed.

#[export] Instance prisma_recognises : Recognises is_P2002 Drivers.prisma_taken.
Proof.
  split.
  - intros e (props & -> & H). unfold is_P2002. cbn. by rewrite H.
  - intros e (_ & Hcode & _). unfold is_P2002. destruct (other_code_spec _ Hcode) as (_ & _ & -> & _). apply andb_false_r.
Qed.

(** What the model returns where the program would go on with a value that the model
    does not represent (metadata of another shape, an invalid date). *)
Definition outside_model : js_error := PlainError "outside the model".
