(* ===== verification/Wire.v ===== *)
(** Events as JavaScript objects and as JSON texts ([core/src/edd/event.ts],
    [core/src/edd/event-metadata.ts]): the form in which the brokers and the
    databases carry them.  [event_value] is the object, [event_of_value] reads the
    fields of an object back; an object that does not have the type [Event] is not
    represented. *)
From Stdlib Require Import Sorting.Sorted.
From S2P Require Import Prelude Text Json JsMap CoreTypes.
Local Open Scope Z_scope.
Local Open Scope string_scope.

(** ** Objects with optional properties *)

(** An object literal; a property that is [None] is absent. *)
Definition present (l : list (string * option value)) : list (string * value) :=
  omap (fun '(k, o) => option_map (pair k) o) l.

Definition id_value (i : ID) : value :=
  match i with IdStr s => VStr s | IdNum n => VNum n | IdBig n => VBig n end.

Definition id_of_value (v : value) : option ID :=
  match v with VStr s => Some (IdStr s) | VNum n => Some (IdNum n) | VBig n => Some (IdBig n) | _ => None end.

Definition nat_value (n : nat) : value := VNum (Z.of_nat n).

Definition metadata_fields (md : EventMetadata) : list (string * option value) :=
  [("eventId", Some (VStr (md_eventId md)));
   ("timestamp", Some (VStr (string_of (iso_text (md_timestamp md)))));
   ("correlationId", Some (VStr (md_correlationId md)));
   ("causationId", Some (VStr (md_causationId md)));
   ("userId", option_map id_value (md_userId md));
   ("version", option_map VNum (md_version md));
   ("aggregateName", option_map VStr (md_aggregateName md));
   ("aggregateId", option_map id_value (md_aggregateId md));
   ("sequenceNumber", option_map nat_value (md_sequenceNumber md));
   ("traceparent", option_map VStr (md_traceparent md));
   ("tracestate", option_map VStr (md_tracestate md))].

Definition metadata_value (md : EventMetadata) : value := VObj (present (metadata_fields md)).

Definition event_value (e : event) : value :=
  VObj (present [("name", Some (VStr (ev_name e))); ("payload", Some (ev_payload e));
                 ("metadata", option_map metadata_value (ev_metadata e))]).

(** ** Reading an object *)

Definition read_text (v : value) : option string := match v with VStr s => Some s | _ => None end.
Definition read_int (v : value) : option Z := match v with VNum n => Some n | _ => None end.
Definition read_count (v : value) : option nat :=
  match v with VNum n => if (0 <=? n)%Z then Some (Z.to_nat n) else None | _ => None end.

(** A required property, and one that may be absent. *)
Definition req {A} (read : value -> option A) (k : string) (v : value) : option A := read (read_prop k v).
Definition opt {A} (read : value -> option A) (k : string) (v : value) : option (option A) :=
  match read_prop k v with VUndefined => Some None | x => option_map Some (read x) end.

(** The instant of an ISO text; the zone does not matter, since the text has one. *)
Definition read_instant (v : value) : option Z :=
  match v with VStr s => new_Date (fun wall => wall) s | _ => None end.

Definition metadata_of_value (v : value) : option EventMetadata :=
  eventId ← req read_text "eventId" v;
  timestamp ← req read_instant "timestamp" v;
  correlationId ← req read_text "correlationId" v;
  causationId ← req read_text "causationId" v;
  userId ← opt id_of_value "userId" v;
  version ← opt read_int "version" v;
  aggregateName ← opt read_text "aggregateName" v;
  aggregateId ← opt id_of_value "aggregateId" v;
  sequenceNumber ← opt read_count "sequenceNumber" v;
  traceparent ← opt read_text "traceparent" v;
  tracestate ← opt read_text "tracestate" v;
  Some {| md_eventId := eventId; md_timestamp := timestamp; md_correlationId := correlationId;
          md_causationId := causationId; md_userId := userId; md_version := version;
          md_aggregateName := aggregateName; md_aggregateId := aggregateId;
          md_sequenceNumber := sequenceNumber; md_traceparent := traceparent; md_tracestate := tracestate |}.

Definition event_of_value (v : value) : option event :=
  name ← req read_text "name" v;
  metadata ← opt metadata_of_value "metadata" v;
  Some {| ev_name := name; ev_payload := read_prop "payload" v; ev_metadata := metadata |}.

(** ** Which events JSON carries *)

Definition plain_id (i : ID) : Prop := match i with IdBig _ => False | _ => True end.
Definition all_of {A} (P : A -> Prop) (o : option A) : Prop := match o with Some a => P a | None => True end.

Definition metadata_carried (md : EventMetadata) : Prop :=
  common_era (md_timestamp md) /\ all_of plain_id (md_userId md) /\ all_of plain_id (md_aggregateId md).

(** What becomes of a payload. *)
Definition payload_json (p : value) : result value :=
  result_bind (json_of p) (fun o => Ok (or_default o VUndefined)).

Definition carried (e : event) : Prop :=
  ordered (ev_payload e) /\ is_ok (payload_json (ev_payload e)) = true /\ all_of metadata_carried (ev_metadata e).

(** The event that comes out of the wire. *)
Definition wire_event (e : event) : event :=
  match payload_json (ev_payload e) with Ok p => with_payload e p | Err _ => e end.

(** ** Facts *)

(** The property [k] of a literal. *)
Fixpoint literal_prop (k : string) (l : list (string * option value)) : option value :=
  match l with
  | [] => None
  | (k', o) :: l' => if String.eqb k k' then o else literal_prop k l'
  end.

Lemma get_prop_absent k (l : list (string * option value)) : k ∉ map fst l -> get_prop k (present l) = None.
Proof.
  induction l as [| [k' o] l IH]; [done |]. cbn [map fst]. intros [Hne Hl]%not_elem_of_cons.
  unfold present. cbn. destruct o as [v |]; cbn; [| by apply IH].
  apply String.eqb_neq in Hne. rewrite Hne. by apply IH.
Qed.

Lemma get_prop_present k l : NoDup (map fst l) -> get_prop k (present l) = literal_prop k l.
Proof.
  induction l as [| [k' o] l IH]; [done |]. cbn [map fst]. intros [Hk Hl]%NoDup_cons.
  unfold present. cbn. destruct (String.eqb_spec k k') as [-> | Hne].
  - destruct o as [v |]; cbn; [by rewrite String.eqb_refl |]. by apply get_prop_absent.
  - destruct o as [v |]; cbn; [| by apply IH].
    apply String.eqb_neq in Hne. rewrite Hne. by apply IH.
Qed.

Lemma keys_present l : map fst (present l) `sublist_of` map fst l.
Proof.
  unfold present. induction l as [| [k o] l IH]; [done |]. cbn.
  destruct o as [v |]; cbn; by constructor.
Qed.

Lemma own_order_present l : StronglySorted key_before (map fst l) -> own_order (present l).
Proof.
  intros H. apply (own_order_sublist (map (fun k => (fst k, VNull)) l)).
  - rewrite map_map. cbn. apply keys_present.
  - unfold own_order. by rewrite map_map.
Qed.

Lemma present_Forall (P : value -> Prop) l :
  Forall (fun '(_, o) => all_of P o) l -> Forall (fun kv => P (snd kv)) (present l).
Proof.
  unfold present. induction 1 as [| [k o] l Ho _ IH]; [constructor |]. cbn.
  destruct o as [v |]; cbn; [by constructor | done].
Qed.

Lemma is_json_present l : StronglySorted key_before (map fst l) ->
  Forall (fun '(_, o) => all_of is_json o) l -> is_json (VObj (present l)).
Proof. intros Hs Hf. split; [by apply own_order_present |]. by apply foldr_Forall_snd, present_Forall. Qed.

Ltac sorted_keys := repeat constructor; (discriminate || reflexivity).

Lemma all_of_map {A B} (P : B -> Prop) (f : A -> B) o : (forall a, o = Some a -> P (f a)) -> all_of P (option_map f o).
Proof. destruct o as [a |]; cbn; [| done]. intros H. by apply H. Qed.

Lemma is_json_id i : plain_id i -> is_json (id_value i).
Proof. by destruct i. Qed.

Lemma is_json_metadata md : metadata_carried md -> is_json (metadata_value md).
Proof.
  intros (_ & Hu & Ha). apply is_json_present; [sorted_keys |].
  repeat constructor; apply all_of_map; intros a E; try done; apply is_json_id; by rewrite E in *.
Qed.

Lemma opt_map {A} (read : value -> option A) (show : A -> value) k l (o : option A) :
  get_prop k l = option_map show o ->
  (forall a, o = Some a -> read (show a) = Some a /\ show a <> VUndefined) -> opt read k (VObj l) = Some o.
Proof.
  intros Hget Hread. unfold opt, read_prop. rewrite Hget. destruct o as [a |]; cbn; [| done].
  destruct (Hread a eq_refl) as [Hr Hne]. by destruct (show a); cbn in *; rewrite ?Hr.
Qed.

Lemma read_id i : id_of_value (id_value i) = Some i /\ id_value i <> VUndefined.
Proof. by destruct i. Qed.

Lemma read_nat_value n : read_count (nat_value n) = Some n /\ nat_value n <> VUndefined.
Proof.
  split; [| done]. unfold read_count, nat_value. by rewrite (proj2 (Z.leb_le _ _)), Nat2Z.id by lia.
Qed.

Lemma distinct_keys (l : list string) : bool_decide (NoDup l) = true -> NoDup l.
Proof. apply bool_decide_eq_true_1. Qed.

Lemma metadata_read md : metadata_carried md -> metadata_of_value (metadata_value md) = Some md.
Proof.
  intros (He & _ & _). unfold metadata_of_value, metadata_value.
  set (l := present (metadata_fields md)). assert (Hl : forall k, get_prop k l = literal_prop k (metadata_fields md))
    by (intros k; apply get_prop_present, distinct_keys; reflexivity).
  assert (Htext : forall k s, get_prop k l = Some (VStr s) -> req read_text k (VObj l) = Some s)
    by (intros k s E; unfold req, read_prop; by rewrite E).
  rewrite (Htext "eventId" (md_eventId md)) by (rewrite Hl; reflexivity).
  assert (Hts : get_prop "timestamp" l = Some (VStr (string_of (iso_text (md_timestamp md))))) by (rewrite Hl; reflexivity).
  assert (req read_instant "timestamp" (VObj l) = Some (md_timestamp md)) as ->
    by (unfold req, read_prop; rewrite Hts; by apply new_Date_iso_text).
  rewrite (Htext "correlationId" (md_correlationId md)) by (rewrite Hl; reflexivity).
  rewrite (Htext "causationId" (md_causationId md)) by (rewrite Hl; reflexivity).
  rewrite (opt_map id_of_value id_value "userId" l (md_userId md)); [| rewrite Hl; reflexivity | by intros; apply read_id].
  rewrite (opt_map read_int VNum "version" l (md_version md)); [| rewrite Hl; reflexivity | done].
  rewrite (opt_map read_text VStr "aggregateName" l (md_aggregateName md)); [| rewrite Hl; reflexivity | done].
  rewrite (opt_map id_of_value id_value "aggregateId" l (md_aggregateId md)); [| rewrite Hl; reflexivity | by intros; apply read_id].
  rewrite (opt_map read_count nat_value "sequenceNumber" l (md_sequenceNumber md));
    [| rewrite Hl; reflexivity | by intros; apply read_nat_value].
  rewrite (opt_map read_text VStr "traceparent" l (md_traceparent md)); [| rewrite Hl; reflexivity | done].
  rewrite (opt_map read_text VStr "tracestate" l (md_tracestate md)); [| rewrite Hl; reflexivity | done].
  by destruct md.
Qed.

(** The object of an event serialises as the object of the event on the wire. *)
Lemma json_of_event e : carried e -> exists j, json_of (event_value e) = Ok (Some j) /\
  is_json j /\ event_of_value j = Some (wire_event e).
Proof.
  intros (Ho & Hp & Hm). unfold wire_event. destruct (payload_json (ev_payload e)) as [p |] eqn:Ep; [clear Hp | done].
  unfold payload_json in Ep. destruct (json_of (ev_payload e)) as [o |] eqn:Eo; [| done]. injection Ep as <-.
  set (l := [("name", Some (VStr (ev_name e))); ("payload", o); ("metadata", option_map metadata_value (ev_metadata e))]).
  assert (Hmd : forall md, ev_metadata e = Some md -> is_json (metadata_value md))
    by (intros md E; rewrite E in Hm; by apply is_json_metadata).
  assert (Hj : is_json (VObj (present l))).
  { apply is_json_present; [sorted_keys |]. repeat constructor.
    - destruct o as [j |]; [by eapply json_of_is_json | done].
    - by apply all_of_map. }
  assert (Hl : forall k, get_prop k (present l) = literal_prop k l)
    by (intros k; apply get_prop_present, distinct_keys; reflexivity).
  exists (VObj (present l)). split; [| split; [done |]].
  - unfold event_value. cbn [json_of]. destruct (ev_metadata e) as [md |]; cbn -[metadata_value json_of]; rewrite Eo; cbn -[metadata_value json_of].
    + rewrite (json_of_json (metadata_value md)) by by apply Hmd. by destruct o.
    + by destruct o.
  - assert (Hopt : opt metadata_of_value "metadata" (VObj (present l)) = Some (ev_metadata e)).
    { apply (opt_map _ metadata_value); [by rewrite Hl |].
      intros md E. rewrite E in Hm. split; [by apply metadata_read | done]. }
    unfold event_of_value. rewrite Hopt. unfold req, read_prop. rewrite !Hl. by destruct e.
Qed.

(** An event survives the wire, read and written by the model of [JSON]: the JSON text of an event whose payload is built from
    objects of the language without bigints, whose identifiers are strings or numbers and
    whose instant lies in the years 0 to 9999, is read back as the same event, with the
    same metadata, and with what JSON makes of the payload (a date becomes its text, an
    undefined property disappears). *)
Theorem event_json_roundtrip (e : event) :
  carried e ->
  exists text, stringify (event_value e) = Ok (Some text) /\
    exists v, parse text = Ok v /\ event_of_value v = Some (wire_event e).
Proof.
  intros Hc. destruct (json_of_event e Hc) as (j & E & Hj & Hev).
  exists (string_of (print j)). unfold stringify. rewrite E. split; [done |].
  exists j. split; [by apply parse_print | done].
Qed.

Definition placed : event :=
  {| ev_name := "OrderPlaced";
     ev_payload := VObj [("id", VStr "o-1"); ("at", VDate 86399999); ("note", VUndefined); ("lines", VArr [VNum (-12); VNull])];
     ev_metadata := Some {| md_eventId := "e1"; md_timestamp := 1709209845678; md_correlationId := "c1"; md_causationId := "k1";
       md_userId := Some (IdNum 7); md_version := None; md_aggregateName := Some "Order"; md_aggregateId := Some (IdStr "o-1");
       md_sequenceNumber := Some 3%nat; md_traceparent := None; md_tracestate := None |} |}.

Lemma event_json_roundtrip_witness :
  exists text, stringify (event_value placed) = Ok (Some text) /\
    exists v, parse text = Ok v /\ event_of_value v = Some (wire_event placed).
Proof.
  apply (event_json_roundtrip placed).
  repeat split; try done; repeat constructor; (discriminate || reflexivity).
Defined.

Example placed_text : stringify (VObj [("at", VDate 86399999); ("note", VUndefined); ("t", VArr [VUndefined; VBool true])])
  = Ok (Some (string_of (flat_map (fun c => if Ascii.eqb c (chr 39) then [quote_char] else [c])
      (chars_of "{'at':'1970-01-01T23:59:59.999Z','t':[null,true]}")))).
Proof. reflexivity. Qed.
