(* ===== verification/Upcaster.v ===== *)
(** Schema evolution of stored events: [packages/core/src/edd/upcaster.ts].
    A chain [c] takes a payload stored at version [v] through the steps
    [c[v-1], c[v], ...] up to the current version [length c + 1]. *)
From S2P Require Import Prelude JsMap CoreTypes.
Local Open Scope Z_scope.

(** A variadic call collects its arguments into an array: the identity. *)
Definition defineEventUpcasterChain (steps : list upcaster_step) : UpcasterChain := steps.

Definition defineUpcasters (upcasters : UpcasterMap) : UpcasterMap := upcasters.

(** [chain[i]], [undefined] out of range. *)
Definition chain_at (chain : UpcasterChain) (i : Z) : option upcaster_step :=
  if i <? 0 then None else chain !! Z.to_nat i.

(** [for (let i = ...; i < chain.length; i++) payload = chain[i](payload)]:
    [n] is the number of iterations left, [chain.length - i]. *)
Fixpoint upcast_loop (n : nat) (chain : UpcasterChain) (i : Z) (payload : value) : result value :=
  match n with
  | O => Ok payload
  | S n' =>
      match chain_at chain i with
      | None => Err (TypeError "chain[i] is not a function")
      | Some step => result_bind (step payload) (upcast_loop n' chain (i + 1))
      end
  end.

Definition storedVersion (e : event) : Z := or_default (metadata_opt md_version e) 1.

Definition upcastEvent (e : event) (upcasters : UpcasterMap) : result event :=
  match mget (ev_name e) upcasters with
  | None => Ok e
  | Some chain =>
      if Z.of_nat (length chain) =? 0 then Ok e else
      let currentVersion := Z.of_nat (length chain) + 1 in
      if currentVersion <=? storedVersion e then Ok e else
      let i := storedVersion e - 1 in
      result_bind (upcast_loop (Z.to_nat (Z.of_nat (length chain) - i)) chain i (ev_payload e))
        (fun payload => Ok (with_payload e payload))
  end.

Definition upcastEvents (events : list event) (upcasters : UpcasterMap) : result (list event) :=
  map_result (fun e => upcastEvent e upcasters) events.

Definition currentEventVersion (eventName : string) (upcasters : UpcasterMap) : Z :=
  match mget eventName upcasters with
  | None => 1
  | Some chain => Z.of_nat (length chain) + 1
  end.

(** [aggregate.upcasters ? upcastEvents(events, aggregate.upcasters) : events],
    the guard every caller uses. *)
Definition upcast_if (upcasters : option UpcasterMap) (events : list event) : result (list event) :=
  match upcasters with Some u => upcastEvents events u | None => Ok events end.

(** Abstract reading: the steps of a list applied in order. *)
Definition apply_steps (steps : list upcaster_step) (p : value) : result value :=
  fold_result (fun p step => step p) steps p.

(** ** Facts *)

Lemma apply_steps_app s1 s2 p :
  apply_steps (s1 ++ s2) p = result_bind (apply_steps s1 p) (apply_steps s2).
Proof.
  revert p. unfold apply_steps. induction s1 as [| f s1 IH]; intros p; simpl; [done |].
  destruct (f p); simpl; [apply IH | done].
Qed.

Lemma upcast_loop_steps (k : nat) chain p :
  upcast_loop (length chain - k) chain (Z.of_nat k) p = apply_steps (drop k chain) p.
Proof.
  remember (length chain - k)%nat as n eqn:Hn. revert k p Hn.
  induction n as [| n IH]; intros k p Hn; simpl.
  - by rewrite drop_ge by lia.
  - unfold chain_at. destruct (Z.ltb_spec (Z.of_nat k) 0); [lia |]. rewrite Nat2Z.id.
    destruct (chain !! k) as [f |] eqn:E; [| apply lookup_ge_None in E; lia].
    rewrite (drop_S _ _ _ E). unfold apply_steps. simpl.
    destruct (f p); simpl; [| done].
    replace (Z.of_nat k + 1) with (Z.of_nat (S k)) by lia. apply IH. lia.
Qed.

(** A stored version between 1 and the chain's length runs the remaining steps. *)
Lemma upcastEvent_steps e ups chain (v : nat) :
  mget (ev_name e) ups = Some chain ->
  storedVersion e = Z.of_nat (S v) -> (v < length chain)%nat ->
  upcastEvent e ups
  = result_bind (apply_steps (drop v chain) (ev_payload e)) (fun p => Ok (with_payload e p)).
Proof.
  intros Hm Hv Hlt. unfold upcastEvent. rewrite Hm, Hv.
  destruct (Z.eqb_spec (Z.of_nat (length chain)) 0); [lia |].
  destruct (Z.leb_spec (Z.of_nat (length chain) + 1) (Z.of_nat (S v))); [lia |].
  replace (Z.of_nat (S v) - 1) with (Z.of_nat v) by lia.
  replace (Z.to_nat (Z.of_nat (length chain) - Z.of_nat v)) with (length chain - v)%nat by lia.
  by rewrite upcast_loop_steps.
Qed.

(** An event at the current version, or beyond it, is left alone. *)
Lemma upcastEvent_current e ups :
  currentEventVersion (ev_name e) ups <= storedVersion e -> upcastEvent e ups = Ok e.
Proof.
  unfold currentEventVersion, upcastEvent.
  destruct (mget (ev_name e) ups) as [chain |]; [| done]. intros H.
  destruct (_ =? 0); [done |]. by destruct (Z.leb_spec (Z.of_nat (length chain) + 1) (storedVersion e)); [| lia].
Qed.

Lemma upcastEvent_frame e ups e' :
  upcastEvent e ups = Ok e' -> ev_name e' = ev_name e /\ ev_metadata e' = ev_metadata e.
Proof.
  unfold upcastEvent. destruct (mget _ _) as [chain |]; [| by intros [= <-]].
  destruct (_ =? 0); [by intros [= <-] |]. destruct (_ <=? _); [by intros [= <-] |].
  destruct (upcast_loop _ _ _ _); simpl; [by intros [= <-] | done].
Qed.

Lemma map_result_length {A B} (f : A -> result B) l l' :
  map_result f l = Ok l' -> length l' = length l.
Proof.
  revert l'. induction l as [| x l IH]; intros l'; simpl; [by intros [= <-] |].
  destruct (f x); simpl; [| done]. destruct (map_result f l); simpl; [| done].
  intros [= <-]. simpl. by rewrite IH.
Qed.

Lemma map_result_app {A B} (f : A -> result B) l1 l2 :
  map_result f (l1 ++ l2)
  = result_bind (map_result f l1) (fun a => result_bind (map_result f l2) (fun b => Ok (a ++ b))).
Proof.
  induction l1 as [| x l1 IH]; simpl; [by destruct (map_result f l2) |].
  destruct (f x); simpl; [| done]. rewrite IH.
  destruct (map_result f l1); simpl; [| done]. by destruct (map_result f l2).
Qed.

Lemma map_result_id {A} (f : A -> result A) l :
  (forall x, x ∈ l -> f x = Ok x) -> map_result f l = Ok l.
Proof.
  induction l as [| x l IH]; intros H; simpl; [done |].
  rewrite (H x) by (by left). simpl. rewrite IH; [done |]. intros y Hy. apply H. by right.
Qed.

Lemma upcast_if_app ups l1 l2 :
  upcast_if ups (l1 ++ l2)
  = result_bind (upcast_if ups l1) (fun a => result_bind (upcast_if ups l2) (fun b => Ok (a ++ b))).
Proof. destruct ups; simpl; [apply map_result_app | done]. Qed.

(** An event that records [version v] as its schema version, at an instance. *)
Definition stamped (ups : option UpcasterMap) (e : event) : Prop :=
  metadata_opt md_version e = option_map (fun u => currentEventVersion (ev_name e) u) ups.

(** Events stamped with the current version are stable under upcasting. *)
Lemma upcast_if_stamped ups es :
  Forall (stamped ups) es -> upcast_if ups es = Ok es.
Proof.
  destruct ups as [u |]; simpl; [| done]. rewrite Forall_forall. intros H.
  apply map_result_id. intros e He. apply upcastEvent_current.
  unfold storedVersion. rewrite (H e He). simpl. lia.
Qed.

(** ** Properties *)

(** Upcasting is a homomorphism for the growth of a chain: an event stored
    at version [v] of the old schema, upcast through a chain that [new] steps
    extend, gets the payload of the old chain followed by the new steps, under
    the same name and metadata; errors of a step surface unchanged. *)
Theorem upcast_extend_chain (e : event) (ups : UpcasterMap) (old new : UpcasterChain) (v : nat) :
  mget (ev_name e) ups = Some (old ++ new)%list ->
  storedVersion e = Z.of_nat (S v) -> (v < length old)%nat ->
  upcastEvent e ups
  = result_bind (upcastEvent e [(ev_name e, old)])
      (fun e' => result_bind (apply_steps new (ev_payload e'))
      (fun p => Ok (with_payload e p))).
Proof.
  intros Hm Hv Hlt.
  rewrite (upcastEvent_steps e ups (old ++ new) v) by (rewrite ?length_app; done || lia).
  rewrite (upcastEvent_steps e [(ev_name e, old)] old v);
    [| simpl; by rewrite String.eqb_refl | done | done].
  rewrite drop_app_le by lia. rewrite apply_steps_app.
  by destruct (apply_steps (drop v old) (ev_payload e)); simpl;
    [destruct (apply_steps new _) |].
Qed.

Definition add_field (k : string) (v : value) : upcaster_step :=
  fun p => match p with VObj fs => Ok (VObj (fs ++ [(k, v)])) | _ => Err (TypeError "spread") end.

Definition sample_event : event :=
  {| ev_name := "BidPlaced"; ev_payload := VObj [("amount", VNum 5)]; ev_metadata := None |}%string.

Lemma upcast_extend_chain_witness :
  upcastEvent sample_event [("BidPlaced", [add_field "t" (VNum 0); add_field "u" VNull])]%string
  = Ok (with_payload sample_event
          (VObj [("amount", VNum 5); ("t", VNum 0); ("u", VNull)]%string)).
Proof.
  rewrite (upcast_extend_chain _ _ [add_field "t" (VNum 0)] [add_field "u" VNull] 0);
    [reflexivity | reflexivity | reflexivity | simpl; lia].
Defined.
