(* ===== verification/Hash.v ===== *)
(** The advisory-lock key: [packages/core/src/persistence/hash.ts].  A key is
    the list of the string's UTF-16 code units; a 64-bit unsigned word is an
    integer of [0, 2^64), the wrap-around written as the mask the code applies. *)
From S2P Require Import Prelude.
Local Open Scope Z_scope.

Definition FNV_OFFSET_BASIS : Z := 0xcbf29ce484222325.
Definition FNV_PRIME : Z := 0x100000001b3.
Definition MASK : Z := 0xffffffffffffffff.

(** One turn of the loop: [hash ^= BigInt(c); hash = (hash * FNV_PRIME) & MASK]. *)
Definition fnv_step (hash c : Z) : Z := Z.land (Z.lxor hash c * FNV_PRIME) MASK.

Definition to_signed64 (hash : Z) : Z :=
  if 0x8000000000000000 <=? hash then hash - 0x10000000000000000 else hash.

Definition fnv1a64 (key : list Z) : Z := to_signed64 (fold_left fnv_step key FNV_OFFSET_BASIS).

(** [key.charCodeAt(i)] for every [i]. *)
Fixpoint code_units (s : string) : list Z :=
  match s with
  | EmptyString => []
  | String c s' => Z.of_N (Ascii.N_of_ascii c) :: code_units s'
  end.

(** ** Facts *)

(** The modular inverse of the prime: the multiplication of a step loses nothing. *)
Definition FNV_PRIME_INV : Z := 0xce965057aff6957b.

Lemma land_mask x : Z.land x MASK = x mod 2 ^ 64.
Proof. change MASK with (Z.ones 64). by rewrite Z.land_ones by lia. Qed.

Lemma fnv_step_range h c : 0 <= fnv_step h c < 2 ^ 64.
Proof. unfold fnv_step. rewrite land_mask. by apply Z.mod_pos_bound. Qed.

Lemma fold_range l h : 0 <= h < 2 ^ 64 -> 0 <= fold_left fnv_step l h < 2 ^ 64.
Proof.
  revert h. induction l as [| c l IH]; intros h Hh; simpl; [done |].
  apply IH, fnv_step_range.
Qed.

Lemma lxor_range a b : 0 <= a < 2 ^ 64 -> 0 <= b < 2 ^ 64 -> 0 <= Z.lxor a b < 2 ^ 64.
Proof.
  intros Ha Hb. split; [apply Z.lxor_nonneg; lia |].
  destruct (Z.eq_dec (Z.lxor a b) 0) as [-> |]; [done |].
  apply Z.log2_lt_pow2; [assert (0 <= Z.lxor a b) by (apply Z.lxor_nonneg; lia); lia |].
  eapply Z.le_lt_trans; [apply Z.log2_lxor; lia |].
  apply Z.max_lub_lt.
  - destruct (Z.eq_dec a 0) as [-> |]; [simpl; lia | apply Z.log2_lt_pow2; lia].
  - destruct (Z.eq_dec b 0) as [-> |]; [simpl; lia | apply Z.log2_lt_pow2; lia].
Qed.

Lemma mul_prime_inj x y :
  0 <= x < 2 ^ 64 -> 0 <= y < 2 ^ 64 ->
  (x * FNV_PRIME) mod 2 ^ 64 = (y * FNV_PRIME) mod 2 ^ 64 -> x = y.
Proof.
  intros Hx Hy H.
  assert (Hi : (FNV_PRIME * FNV_PRIME_INV) mod 2 ^ 64 = 1) by reflexivity.
  assert (Hinv : forall z, 0 <= z < 2 ^ 64 -> ((z * FNV_PRIME) mod 2 ^ 64 * FNV_PRIME_INV) mod 2 ^ 64 = z).
  { intros z Hz. rewrite Z.mul_mod_idemp_l, <- Z.mul_assoc, <- Z.mul_mod_idemp_r, Hi, Z.mul_1_r by lia.
    by apply Z.mod_small. }
  rewrite <- (Hinv x Hx), <- (Hinv y Hy). by rewrite H.
Qed.

Lemma fnv_step_inj h h' c c' :
  0 <= h < 2 ^ 64 -> 0 <= h' < 2 ^ 64 -> 0 <= c < 2 ^ 16 -> 0 <= c' < 2 ^ 16 ->
  fnv_step h c = fnv_step h' c' -> Z.lxor h c = Z.lxor h' c'.
Proof.
  intros ????. unfold fnv_step. rewrite !land_mask.
  apply mul_prime_inj; apply lxor_range; lia.
Qed.

Lemma lxor_cancel_l h c c' : Z.lxor h c = Z.lxor h c' -> c = c'.
Proof.
  intros H. apply (f_equal (Z.lxor h)) in H.
  by rewrite <- !Z.lxor_assoc, !Z.lxor_nilpotent, !Z.lxor_0_l in H.
Qed.

Lemma fold_inj l h h' :
  0 <= h < 2 ^ 64 -> 0 <= h' < 2 ^ 64 -> Forall (fun c => 0 <= c < 2 ^ 16) l ->
  fold_left fnv_step l h = fold_left fnv_step l h' -> h = h'.
Proof.
  revert h h'. induction l as [| c l IH]; intros h h' Hh Hh' Hl; simpl; [done |].
  apply Forall_cons in Hl as [Hc Hl]. intros H.
  apply IH in H; [| apply fnv_step_range | apply fnv_step_range | done].
  apply fnv_step_inj in H; [| done..].
  rewrite (Z.lxor_comm h c), (Z.lxor_comm h' c) in H. by apply lxor_cancel_l in H.
Qed.

Lemma to_signed64_inj x y :
  0 <= x < 2 ^ 64 -> 0 <= y < 2 ^ 64 -> to_signed64 x = to_signed64 y -> x = y.
Proof.
  unfold to_signed64. intros Hx Hy.
  destruct (Z.leb_spec 0x8000000000000000 x), (Z.leb_spec 0x8000000000000000 y); lia.
Qed.

Lemma offset_range : 0 <= FNV_OFFSET_BASIS < 2 ^ 64.
Proof. unfold FNV_OFFSET_BASIS. lia. Qed.

(** The published test vectors of 64-bit FNV-1a, read as signed numbers. *)
Example fnv1a64_empty : fnv1a64 (code_units "") = 0xcbf29ce484222325 - 2 ^ 64.
Proof. reflexivity. Qed.
Example fnv1a64_a : fnv1a64 (code_units "a") = 0xaf63dc4c8601ec8c - 2 ^ 64.
Proof. reflexivity. Qed.
Example fnv1a64_foobar : fnv1a64 (code_units "foobar") = 0x85944171f73967e8 - 2 ^ 64.
Proof. reflexivity. Qed.

(** ** Properties *)

(** The lock key fits PostgreSQL's [bigint], and modulo [2^64] it is the
    FNV-1a hash over unbounded integers: masking at every step loses nothing. *)
Theorem fnv1a64_bigint (key : list Z) :
  - 2 ^ 63 <= fnv1a64 key < 2 ^ 63 /\
  fnv1a64 key mod 2 ^ 64
  = fold_left (fun h c => (Z.lxor h c * FNV_PRIME) mod 2 ^ 64) key FNV_OFFSET_BASIS.
Proof.
  assert (Heq : forall h, fold_left (fun h c => (Z.lxor h c * FNV_PRIME) mod 2 ^ 64) key h
                          = fold_left fnv_step key h).
  { induction key as [| c key IH]; intros h; simpl; [done |].
    rewrite IH. unfold fnv_step. by rewrite land_mask. }
  rewrite Heq. unfold fnv1a64, to_signed64.
  pose proof (fold_range key _ offset_range) as Hr.
  destruct (Z.leb_spec 0x8000000000000000 (fold_left fnv_step key FNV_OFFSET_BASIS)).
  - split; [lia |]. replace (_ - 0x10000000000000000) with
      (fold_left fnv_step key FNV_OFFSET_BASIS + (-1) * 2 ^ 64) by lia.
    rewrite Z_mod_plus_full. by apply Z.mod_small.
  - split; [lia |]. by apply Z.mod_small.
Qed.

(** Two aggregate keys that differ in one code unit get different lock keys:
    such a pair is never serialised against each other by a collision. *)
Theorem fnv1a64_one_unit (pre suf : list Z) (c c' : Z) :
  Forall (fun u => 0 <= u < 2 ^ 16) suf -> 0 <= c < 2 ^ 16 -> 0 <= c' < 2 ^ 16 ->
  c <> c' -> fnv1a64 (pre ++ c :: suf) <> fnv1a64 (pre ++ c' :: suf).
Proof.
  intros Hsuf Hc Hc' Hne H. apply Hne. unfold fnv1a64 in H. rewrite !fold_left_app in H. simpl in H.
  pose proof (fold_range pre _ offset_range) as Hp.
  apply to_signed64_inj in H; [| apply fold_range, fnv_step_range..].
  apply fold_inj in H; [| apply fnv_step_range | apply fnv_step_range | done].
  apply fnv_step_inj in H; [| done..]. by apply lxor_cancel_l in H.
Qed.

Lemma fnv1a64_one_unit_witness :
  fnv1a64 (code_units "Account:acc-1") <> fnv1a64 (code_units "Account:acc-2").
Proof.
  apply (fnv1a64_one_unit (code_units "Account:acc-") [] 49 50); [constructor | lia..].
Defined.
