(* ===== verification/Uuid.v ===== *)
(** Identifiers: [packages/engine/src/uuid.ts], and the format check of
    [packages/testing/src/metadata-helpers.ts].  The clock reading and the 16
    random bytes, which come from the platform, are arguments. *)
From S2P Require Import Prelude.
Local Open Scope Z_scope.

(** The conversion of a number to a signed 32-bit integer that precedes [&]. *)
Definition to_int32 (x : Z) : Z :=
  let r := x mod 2 ^ 32 in if 2 ^ 31 <=? r then r - 2 ^ 32 else r.

(** [x & 0xff] on a number. *)
Definition and_ff (x : Z) : Z := Z.land (to_int32 x) 0xff.

(** The byte array after the assignments; the quotients of [now] by powers of
    two are truncated by the conversion. *)
Definition uuid_bytes (now : Z) (random : list Z) : list Z :=
  let b := random in
  let b := <[0%nat := and_ff (Z.quot now (2 ^ 40))]> b in
  let b := <[1%nat := and_ff (Z.quot now (2 ^ 32))]> b in
  let b := <[2%nat := and_ff (Z.quot now (2 ^ 24))]> b in
  let b := <[3%nat := and_ff (Z.quot now (2 ^ 16))]> b in
  let b := <[4%nat := and_ff (Z.quot now (2 ^ 8))]> b in
  let b := <[5%nat := and_ff now]> b in
  let b := <[6%nat := Z.lor (Z.land (b !!! 6%nat) 0x0f) 0x70]> b in
  <[8%nat := Z.lor (Z.land (b !!! 8%nat) 0x3f) 0x80]> b.

Definition hex_digit (d : Z) : Ascii.ascii :=
  Ascii.ascii_of_nat (Z.to_nat (if d <? 10 then 48 + d else 87 + d)).

(** [bytes.toString("hex")] *)
Fixpoint to_hex (bytes : list Z) : string :=
  match bytes with
  | [] => EmptyString
  | b :: bs => String (hex_digit (b / 16)) (String (hex_digit (b mod 16)) (to_hex bs))
  end.

(** [hex.slice(i, j)] *)
Definition slice (s : string) (i j : nat) : string := String.substring i (j - i) s.

Definition uuidv7 (now : Z) (random : list Z) : string :=
  let hex := to_hex (uuid_bytes now random) in
  String.concat "-" [slice hex 0 8; slice hex 8 12; slice hex 12 16; slice hex 16 20;
                     slice hex 20 (String.length hex)].

(** [[0-9a-f]] under the [i] flag. *)
Definition is_hex_char (c : Ascii.ascii) : bool :=
  let n := Ascii.nat_of_ascii c in
  ((48 <=? n) && (n <=? 57))%nat || ((97 <=? n) && (n <=? 102))%nat || ((65 <=? n) && (n <=? 70))%nat.

(** A regular expression made of single-character classes, anchored at both ends. *)
Fixpoint matches (classes : list (Ascii.ascii -> bool)) (s : string) : bool :=
  match classes, s with
  | [], EmptyString => true
  | p :: ps, String c s' => p c && matches ps s'
  | _, _ => false
  end.

Definition is_char (code : nat) (c : Ascii.ascii) : bool := (Ascii.nat_of_ascii c =? code)%nat.

(** The class of the variant digit, [[89ab]] under the [i] flag. *)
Definition is_variant_char (c : Ascii.ascii) : bool :=
  existsb (fun code => is_char code c) [56; 57; 97; 98; 65; 66]%nat.

Definition uuidv7_regexp : list (Ascii.ascii -> bool) :=
  (replicate 8 is_hex_char ++ [is_char 45] ++ replicate 4 is_hex_char ++ [is_char 45]
   ++ [is_char 55] ++ replicate 3 is_hex_char ++ [is_char 45]
   ++ [is_variant_char] ++ replicate 3 is_hex_char ++ [is_char 45]
   ++ replicate 12 is_hex_char)%list.

(** ** Facts *)

Definition byte_range (b : Z) : Prop := 0 <= b < 256.

Lemma and_ff_mod x : and_ff x = x mod 256.
Proof.
  unfold and_ff. change 0xff with (Z.ones 8). rewrite Z.land_ones by lia.
  unfold to_int32. change (2 ^ 8) with 256.
  assert (Hm : (x mod 2 ^ 32) mod 256 = x mod 256).
  { symmetry. rewrite Z.mod_mod_divide; [done |]. by exists (2 ^ 24). }
  destruct (2 ^ 31 <=? x mod 2 ^ 32); [| exact Hm].
  replace (x mod 2 ^ 32 - 2 ^ 32) with (x mod 2 ^ 32 + (- 2 ^ 24) * 256) by lia.
  by rewrite Z_mod_plus_full.
Qed.

Lemma and_ff_range x : byte_range (and_ff x).
Proof. rewrite and_ff_mod. by apply Z.mod_pos_bound. Qed.

(** Every byte value below 256, for exhaustive checks. *)
Definition all_bytes : list Z := seqZ 0 256.

Lemma forall_bytes (P : Z -> bool) :
  forallb P all_bytes = true -> forall b, byte_range b -> P b = true.
Proof.
  intros H b Hb. rewrite forallb_forall in H. apply H.
  apply list_elem_of_In, elem_of_seqZ. unfold byte_range in Hb. lia.
Qed.

Lemma hex_chars b : byte_range b ->
  is_hex_char (hex_digit (b / 16)) && is_hex_char (hex_digit (b mod 16)) = true.
Proof. revert b. apply forall_bytes. by vm_compute. Qed.

Lemma version_char b : byte_range b ->
  let v := Z.lor (Z.land b 0x0f) 0x70 in
  is_char 55 (hex_digit (v / 16)) && is_hex_char (hex_digit (v mod 16)) = true.
Proof. revert b. apply forall_bytes. by vm_compute. Qed.

Lemma variant_char b : byte_range b ->
  let v := Z.lor (Z.land b 0x3f) 0x80 in
  is_variant_char (hex_digit (v / 16)) && is_hex_char (hex_digit (v mod 16)) = true.
Proof. revert b. apply forall_bytes. by vm_compute. Qed.

(** The sixteen bytes of an identifier, one by one. *)
Lemma uuid_bytes_eq now r0 r1 r2 r3 r4 r5 r6 r7 r8 r9 r10 r11 r12 r13 r14 r15 :
  0 <= now ->
  uuid_bytes now [r0; r1; r2; r3; r4; r5; r6; r7; r8; r9; r10; r11; r12; r13; r14; r15]
  = [now / 2 ^ 40 mod 256; now / 2 ^ 32 mod 256; now / 2 ^ 24 mod 256; now / 2 ^ 16 mod 256;
     now / 2 ^ 8 mod 256; now mod 256; Z.lor (Z.land r6 0x0f) 0x70; r7;
     Z.lor (Z.land r8 0x3f) 0x80; r9; r10; r11; r12; r13; r14; r15].
Proof.
  intros Hnow. unfold uuid_bytes. rewrite !and_ff_mod, !Z.quot_div_nonneg by lia. reflexivity.
Qed.

Lemma random_bytes_shape (random : list Z) :
  length random = 16%nat -> exists r0 r1 r2 r3 r4 r5 r6 r7 r8 r9 r10 r11 r12 r13 r14 r15,
    random = [r0; r1; r2; r3; r4; r5; r6; r7; r8; r9; r10; r11; r12; r13; r14; r15].
Proof. intros H. do 16 (destruct random as [| ? random]; [done |]). destruct random; [| done]. by do 16 eexists. Qed.

(** The text of sixteen bytes, with its dashes. *)
Definition uuid_text (b : list Z) : string :=
  match b with
  | [b0; b1; b2; b3; b4; b5; b6; b7; b8; b9; b10; b11; b12; b13; b14; b15] =>
      to_hex [b0; b1; b2; b3] ++ "-" ++ to_hex [b4; b5] ++ "-" ++ to_hex [b6; b7] ++ "-" ++
      to_hex [b8; b9] ++ "-" ++ to_hex [b10; b11; b12; b13; b14; b15]
  | _ => EmptyString
  end.

Lemma uuidv7_text now random :
  0 <= now -> length random = 16%nat -> uuidv7 now random = uuid_text (uuid_bytes now random).
Proof.
  intros Hnow (?&?&?&?&?&?&?&?&?&?&?&?&?&?&?&?&->)%random_bytes_shape.
  unfold uuidv7. by rewrite uuid_bytes_eq by done.
Qed.

Lemma hex_char_hi b : byte_range b -> is_hex_char (hex_digit (b / 16)) = true.
Proof. by intros [? _]%hex_chars%andb_true_iff. Qed.
Lemma hex_char_lo b : byte_range b -> is_hex_char (hex_digit (b mod 16)) = true.
Proof. by intros [_ ?]%hex_chars%andb_true_iff. Qed.
Lemma mod_byte_range x : byte_range (x mod 256).
Proof. by apply Z.mod_pos_bound. Qed.

Create HintDb uuid.
#[export] Hint Resolve hex_char_hi hex_char_lo mod_byte_range : uuid.
#[export] Hint Extern 1 (is_hex_char (hex_digit (_ mod 16)) = true) =>
  (by apply variant_char) || (by apply version_char) : uuid.

Lemma hex_digit_compare d d' :
  0 <= d < 16 -> 0 <= d' < 16 -> Ascii.compare (hex_digit d) (hex_digit d') = (d ?= d').
Proof.
  intros Hd Hd'.
  assert (H : forallb (fun x => forallb (fun y =>
    bool_decide (Ascii.compare (hex_digit x) (hex_digit y) = (x ?= y))) (seqZ 0 16)) (seqZ 0 16) = true)
    by (by vm_compute).
  rewrite forallb_forall in H. specialize (H d). rewrite forallb_forall in H.
  apply (bool_decide_eq_true_1 _), H; apply list_elem_of_In, elem_of_seqZ; lia.
Qed.

(** The textual order of two hexadecimal bytes is their numeric order. *)
Lemma hex_compare b b' s s' :
  byte_range b -> byte_range b' ->
  String.compare (String.append (to_hex [b]) s) (String.append (to_hex [b']) s')
  = match b ?= b' with Eq => String.compare s s' | c => c end.
Proof.
  unfold byte_range. intros Hb Hb'. simpl.
  pose proof (Z.div_mod b 16 ltac:(lia)). pose proof (Z.mod_pos_bound b 16 ltac:(lia)).
  pose proof (Z.div_mod b' 16 ltac:(lia)). pose proof (Z.mod_pos_bound b' 16 ltac:(lia)).
  rewrite !hex_digit_compare by lia.
  destruct (Z.compare_spec (b / 16) (b' / 16)), (Z.compare_spec (b mod 16) (b' mod 16)),
    (Z.compare_spec b b'); reflexivity || lia.
Qed.

(** One digit of the comparison of two numbers in base 256. *)
Lemma digit_compare n n' k :
  0 <= k -> n <= n' -> n / 2 ^ (k + 8) = n' / 2 ^ (k + 8) ->
  (n / 2 ^ k mod 256 ?= n' / 2 ^ k mod 256) = (n / 2 ^ k ?= n' / 2 ^ k).
Proof.
  intros Hk Hle Hq. rewrite Z.pow_add_r in Hq by lia.
  rewrite <- !Z.div_div in Hq by lia. change (2 ^ 8) with 256 in Hq.
  pose proof (Z.div_mod (n / 2 ^ k) 256 ltac:(lia)).
  pose proof (Z.div_mod (n' / 2 ^ k) 256 ltac:(lia)).
  destruct (Z.compare_spec (n / 2 ^ k) (n' / 2 ^ k)),
    (Z.compare_spec (n / 2 ^ k mod 256) (n' / 2 ^ k mod 256)); reflexivity || lia.
Qed.

Lemma div_compare_step n n' k (rest : comparison) :
  0 <= k -> n <= n' -> n / 2 ^ (k + 8) = n' / 2 ^ (k + 8) ->
  (n / 2 ^ k = n' / 2 ^ k -> rest = Lt) ->
  match n / 2 ^ k mod 256 ?= n' / 2 ^ k mod 256 with Eq => rest | c => c end = Lt.
Proof.
  intros Hk Hle Hq Hrest. rewrite digit_compare by done.
  pose proof (Z.div_le_mono n n' (2 ^ k) ltac:(lia) Hle).
  destruct (Z.compare_spec (n / 2 ^ k) (n' / 2 ^ k)); [auto | done | lia].
Qed.

Lemma uuid_text_head b0 b1 b2 b3 b4 b5 b6 b7 b8 b9 b10 b11 b12 b13 b14 b15 :
  uuid_text [b0; b1; b2; b3; b4; b5; b6; b7; b8; b9; b10; b11; b12; b13; b14; b15]
  = String.append (to_hex [b0]) (String.append (to_hex [b1]) (String.append (to_hex [b2])
     (String.append (to_hex [b3]) (String.append "-" (String.append (to_hex [b4])
     (String.append (to_hex [b5]) (String.append "-"
        (to_hex [b6; b7] ++ "-" ++ to_hex [b8; b9] ++ "-"
         ++ to_hex [b10; b11; b12; b13; b14; b15])))))))).
Proof. reflexivity. Qed.

(** A common first character does not decide the order. *)
Lemma dash_compare s s' :
  String.compare (String.append "-" s) (String.append "-" s') = String.compare s s'.
Proof. reflexivity. Qed.

(** The six bytes of the timestamp, and the ten others. *)
Definition time_bytes (n : Z) : list Z :=
  [n / 2 ^ 40 mod 256; n / 2 ^ 32 mod 256; n / 2 ^ 24 mod 256; n / 2 ^ 16 mod 256;
   n / 2 ^ 8 mod 256; n mod 256].

Lemma uuid_bytes_split now random :
  0 <= now -> length random = 16%nat ->
  exists t, length t = 10%nat /\ uuid_bytes now random = (time_bytes now ++ t)%list.
Proof.
  intros Hnow (?&?&?&?&?&?&?&?&?&?&?&?&?&?&?&?&->)%random_bytes_shape.
  rewrite uuid_bytes_eq by done. eexists [_; _; _; _; _; _; _; _; _; _]. by split.
Qed.

Lemma uuid_text_compare n n' t t' :
  0 <= n < n' -> n' < 2 ^ 48 -> length t = 10%nat -> length t' = 10%nat ->
  String.compare (uuid_text (time_bytes n ++ t)%list) (uuid_text (time_bytes n' ++ t')%list) = Lt.
Proof.
  intros Hn Hn' Ht Ht'. unfold time_bytes.
  do 10 (destruct t as [| ? t]; [done |]). destruct t; [| done].
  do 10 (destruct t' as [| ? t']; [done |]). destruct t'; [| done].
  simpl app. rewrite !uuid_text_head.
  repeat first [rewrite hex_compare by (apply mod_byte_range) | rewrite dash_compare].
  assert (Hq : n / 2 ^ (40 + 8) = n' / 2 ^ (40 + 8)) by (rewrite !Z.div_small by lia; done).
  apply (div_compare_step n n' 40); [lia | lia | done | clear Hq; intros Hq].
  apply (div_compare_step n n' 32); [lia | lia | done | clear Hq; intros Hq].
  apply (div_compare_step n n' 24); [lia | lia | done | clear Hq; intros Hq].
  apply (div_compare_step n n' 16); [lia | lia | done | clear Hq; intros Hq].
  apply (div_compare_step n n' 8); [lia | lia | done | clear Hq; intros Hq].
  pose proof (div_compare_step n n' 0) as Hlast. rewrite !Z.div_1_r in Hlast.
  apply Hlast; [lia | lia | done | lia].
Qed.

(** ** Properties *)

(** Whatever the clock reads and whatever the random bytes are, the generated
    text is a UUID of version 7 and of the RFC variant: it passes the format
    check that the testing package applies to event identifiers. *)
Theorem uuidv7_format (now : Z) (random : list Z) :
  0 <= now -> length random = 16%nat -> Forall byte_range random ->
  matches uuidv7_regexp (uuidv7 now random) = true.
Proof.
  intros Hnow Hlen Hr. rewrite uuidv7_text by done.
  apply random_bytes_shape in Hlen as (?&?&?&?&?&?&?&?&?&?&?&?&?&?&?&?&->).
  rewrite uuid_bytes_eq by done. rewrite !Forall_cons in Hr. destruct_and! Hr.
  simpl.
  match goal with |- context [Z.land ?x 15] =>
    pose proof (version_char x ltac:(done)) as [-> ->]%andb_true_iff end.
  match goal with |- context [Z.land ?x 63] =>
    pose proof (variant_char x ltac:(done)) as [-> ->]%andb_true_iff end.
  repeat (apply andb_true_iff; split); auto with uuid.
Qed.

Definition sample_random : list Z := seqZ 250 6 ++ seqZ 0 10.

Lemma uuidv7_format_witness :
  matches uuidv7_regexp (uuidv7 1700000000000 sample_random) = true.
Proof.
  apply uuidv7_format; [lia | reflexivity |].
  repeat (apply Forall_cons; split; [split; [discriminate | reflexivity] |]). apply Forall_nil. exact I.
Defined.

(** Identifiers sort by creation time: of two identifiers generated in
    different milliseconds, the earlier one comes first in the textual order that
    an event store indexes by, whatever the random bits are. *)
Theorem uuidv7_time_ordered (now now' : Z) (random random' : list Z) :
  0 <= now < now' -> now' < 2 ^ 48 -> length random = 16%nat -> length random' = 16%nat ->
  String.compare (uuidv7 now random) (uuidv7 now' random') = Lt.
Proof.
  intros Hnow Hmax Hl Hl'. rewrite !uuidv7_text by (done || lia).
  destruct (uuid_bytes_split now random) as (t & Ht & ->); [lia | done |].
  destruct (uuid_bytes_split now' random') as (t' & Ht' & ->); [lia | done |].
  by apply uuid_text_compare.
Qed.

Lemma uuidv7_time_ordered_witness :
  String.compare (uuidv7 1700000000000 (replicate 16 255)) (uuidv7 1700000000001 (replicate 16 0)) = Lt.
Proof. apply uuidv7_time_ordered; [lia | lia | reflexivity | reflexivity]. Defined.
