(* ===== verification/Stores.v ===== *)
(** The in-memory stores of [packages/engine/src/implementations]: the
    event-sourced and the state-stored aggregate persistence
    ([in-memory-aggregate-persistence.ts]), the saga persistence, the snapshot
    store and the view store; and the interfaces of [packages/core/src/persistence]
    they implement, as records of operations on a world.  [EventStoreSpec],
    [VersionedStoreSpec] and [SnapshotStoreSpec] state what an implementation
    promises to the executors; the in-memory stores are their instances. *)
From S2P Require Import Prelude JsMap CoreTypes.

(** ** The interfaces of the persistence layer *)

(** [EventSourcedAggregatePersistence & Partial<PartialEventLoad>] *)
Record EventSourcedPersistence (W : Type) : Type := {
  es_load : string -> ID -> M W (list event);
  es_save : string -> ID -> list event -> nat -> M W unit;
  es_loadAfterVersion : option (string -> ID -> nat -> M W (list event))
}.
Arguments es_load {W} _.
Arguments es_save {W} _.
Arguments es_loadAfterVersion {W} _.

Record StoredState : Type := { st_state : value; st_version : nat; st_stateVersion : option Z }.

(** [StateStoredAggregatePersistence] *)
Record StateStoredPersistence (W : Type) : Type := {
  ss_load : string -> ID -> M W (option StoredState);
  ss_save : string -> ID -> value -> nat -> option Z -> M W unit
}.
Arguments ss_load {W} _.
Arguments ss_save {W} _.

Record SagaState : Type := { ga_state : value; ga_version : nat }.

(** [SagaPersistence] *)
Record SagaPersistence (W : Type) : Type := {
  sp_load : string -> ID -> M W (option SagaState);
  sp_save : string -> ID -> value -> nat -> M W unit
}.
Arguments sp_load {W} _.
Arguments sp_save {W} _.

(** [SnapshotStore] *)
Record SnapshotStore (W : Type) : Type := {
  sn_load : string -> ID -> M W (option Snapshot);
  sn_save : string -> ID -> Snapshot -> M W unit
}.
Arguments sn_load {W} _.
Arguments sn_save {W} _.

(** [ViewStore]; [truncate] is optional ([TruncatableViewStore]). *)
Record ViewStore (W : Type) : Type := {
  vs_save : ID -> value -> M W unit;
  vs_load : ID -> M W value;
  vs_delete : ID -> M W unit;
  vs_truncate : option (M W unit)
}.
Arguments vs_save {W} _.
Arguments vs_load {W} _.
Arguments vs_delete {W} _.
Arguments vs_truncate {W} _.

(** ** What they promise

    [stream w k] is the abstract content of the event store in world [w]: the
    events of the instance with composite key [k]. *)
Class EventStoreSpec {W} (P : EventSourcedPersistence W) (stream : W -> string -> list event) : Prop := {
  es_load_spec : forall w name i,
    es_load P name i w = (Ok (stream w (composite_key name i)), w);
  es_partial_spec : forall f w name i v,
    es_loadAfterVersion P = Some f ->
    f name i v w = (Ok (drop v (stream w (composite_key name i))), w);
  es_save_spec : forall w name i evs v,
    let k := composite_key name i in
    wp (es_save P name i evs v)
       (fun _ w' => (evs = [] \/ length (stream w k) = v) /\
          forall k', stream w' k' = if String.eqb k' k then stream w k ++ evs else stream w k')
       (fun e w' => e = ConcurrencyError name i v (Z.of_nat (length (stream w k))) /\
          evs <> [] /\ length (stream w k) <> v /\ w' = w)
       w
}.

(** [cell w k] is the state and the version stored under [k]; an absent cell has
    version 0. *)
Definition cell_version {A} (version : A -> nat) (o : option A) : nat := or_default (option_map version o) 0%nat.

Lemma cell_version_Some {A} (version : A -> nat) a : cell_version version (Some a) = version a.
Proof. reflexivity. Qed.

Class VersionedStoreSpec {W A} (load : string -> ID -> M W (option A))
    (save : string -> ID -> A -> M W unit) (version : A -> nat)
    (cell : W -> string -> option A) : Prop := {
  vr_load_spec : forall w name i, load name i w = (Ok (cell w (composite_key name i)), w);
  vr_save_spec : forall w name i a v,
    let k := composite_key name i in
    version a = S v ->
    wp (save name i a)
       (fun _ w' => cell_version version (cell w k) = v /\
          forall k', cell w' k' = if String.eqb k' k then Some a else cell w k')
       (fun e w' => e = ConcurrencyError name i v (Z.of_nat (cell_version version (cell w k))) /\
          cell_version version (cell w k) <> v /\ w' = w)
       w
}.

Class SnapshotStoreSpec {W} (P : SnapshotStore W) (snap : W -> string -> option Snapshot) : Prop := {
  sn_load_spec : forall w name i, sn_load P name i w = (Ok (snap w (composite_key name i)), w);
  sn_save_spec : forall w name i s, exists w',
    sn_save P name i s w = (Ok tt, w') /\
    forall k', snap w' k' = if String.eqb k' (composite_key name i) then Some s else snap w k'
}.

(** ** InMemoryEventSourcedAggregatePersistence *)

Module EventStore.

Definition store : Type := jsmap (list event).

(** [this.store.get(key) ?? []]: an empty array is not nullish. *)
Definition stream_of (st : store) (key : string) : list event := or_default (mget key st) [].

Definition load (aggregateName : string) (aggregateId : ID) : M store (list event) :=
  let key := composite_key aggregateName aggregateId in
  gets (fun st => stream_of st key).

Definition loadAfterVersion (aggregateName : string) (aggregateId : ID) (afterVersion : nat)
  : M store (list event) :=
  let key := composite_key aggregateName aggregateId in
  events <- gets (fun st => stream_of st key) ;;
  ret (drop afterVersion events).

Definition save (aggregateName : string) (aggregateId : ID) (events : list event)
    (expectedVersion : nat) : M store unit :=
  if (length events =? 0)%nat then ret tt else
  let key := composite_key aggregateName aggregateId in
  existing <- gets (fun st => stream_of st key) ;;
  if negb (length existing =? expectedVersion)%nat
  then throw (ConcurrencyError aggregateName aggregateId expectedVersion (Z.of_nat (length existing)))
  else
    has <- gets (mhas key) ;;
    if (has : bool)
    then modify (mset key (existing ++ events))
    else modify (mset key events).

(** [EventReadOptions] *)
Record EventReadOptions : Type := {
  ro_after : option (string * ID * nat);   (** [{ aggregateName, aggregateId, version }] *)
  ro_aggregateName : option string
}.

(** The generator's position: entry [i] of the map, element [j] of its array. *)
Definition cursor : Type := nat * nat.

Definition skipped (prefix : option string) (key : string) : bool :=
  match prefix with Some p => negb (String.prefix p key) | None => false end.

(** From position [(i, j)]; [entries] are the map's entries from [i] on. *)
Fixpoint seek (prefix : option string) (entries : store) (i j : nat) : option (event * cursor) :=
  match entries with
  | [] => None
  | (key, events) :: rest =>
      if skipped prefix key then seek prefix rest (S i) 0 else
      match events !! j with
      | Some e => Some (e, (i, S j))
      | None => seek prefix rest (S i) 0
      end
  end.

Definition read_prefix (options : EventReadOptions) : option string :=
  option_map (fun n => String.append n ":") (ro_aggregateName options).

(** One [next()] of the iterator that [read(options)] returns.  The generator
    works on the live map: it is given the store as it is at that call. *)
Definition read_next (options : EventReadOptions) (c : cursor) : M store (option (event * cursor)) :=
  if is_some (ro_after options)
  then throw (PlainError "EventReader: 'after' cursor is not supported by InMemoryEventSourcedAggregatePersistence")
  else gets (fun st => seek (read_prefix options) (drop (fst c) st) (fst c) (snd c)).

(** The class as a record of operations. *)
Definition persistence : EventSourcedPersistence store :=
  {| es_load := load; es_save := save; es_loadAfterVersion := Some loadAfterVersion |}.

(** A consumer that does nothing but collect: [for await (const e of read(o)) out.push(e)]. *)
Fixpoint collect (fuel : nat) (options : EventReadOptions) (c : cursor) : M store (option (list event)) :=
  match fuel with
  | O => ret None
  | S fuel' =>
      n <- read_next options c ;;
      match n with
      | None => ret (Some [])
      | Some (e, c') => rest <- collect fuel' options c' ;; ret (option_map (cons e) rest)
      end
  end.

End EventStore.

(** ** InMemoryStateStoredAggregatePersistence *)

Module StateStore.

Definition store : Type := jsmap StoredState.

Definition load (aggregateName : string) (aggregateId : ID) : M store (option StoredState) :=
  gets (mget (composite_key aggregateName aggregateId)).

Definition save (aggregateName : string) (aggregateId : ID) (state : value)
    (expectedVersion : nat) (stateVersion : option Z) : M store unit :=
  let key := composite_key aggregateName aggregateId in
  existing <- gets (mget key) ;;
  let actualVersion := or_default (option_map st_version existing) 0%nat in
  if negb (actualVersion =? expectedVersion)%nat
  then throw (ConcurrencyError aggregateName aggregateId expectedVersion (Z.of_nat actualVersion))
  else modify (mset key {| st_state := state; st_version := expectedVersion + 1;
                           st_stateVersion := stateVersion |}).

Definition persistence : StateStoredPersistence store := {| ss_load := load; ss_save := save |}.

End StateStore.

(** ** InMemorySagaPersistence *)

Module SagaStore.

Definition store : Type := jsmap SagaState.

Definition load (sagaName : string) (sagaId : ID) : M store (option SagaState) :=
  gets (mget (composite_key sagaName sagaId)).

Definition save (sagaName : string) (sagaId : ID) (state : value) (expectedVersion : nat)
  : M store unit :=
  let key := composite_key sagaName sagaId in
  existing <- gets (mget key) ;;
  let actualVersion := or_default (option_map ga_version existing) 0%nat in
  if negb (actualVersion =? expectedVersion)%nat
  then throw (ConcurrencyError sagaName sagaId expectedVersion (Z.of_nat actualVersion))
  else modify (mset key {| ga_state := state; ga_version := expectedVersion + 1 |}).

Definition persistence : SagaPersistence store := {| sp_load := load; sp_save := save |}.

End SagaStore.

(** ** InMemorySnapshotStore *)

Module SnapStore.

Definition store : Type := jsmap Snapshot.

Definition load (aggregateName : string) (aggregateId : ID) : M store (option Snapshot) :=
  gets (mget (composite_key aggregateName aggregateId)).

Definition save (aggregateName : string) (aggregateId : ID) (snapshot : Snapshot) : M store unit :=
  modify (mset (composite_key aggregateName aggregateId) snapshot).

Definition persistence : SnapshotStore store := {| sn_load := load; sn_save := save |}.

End SnapStore.

(** ** InMemoryViewStore *)

Module Views.

Definition store : Type := jsmap value.

Definition save (viewId : ID) (view : value) : M store unit := modify (mset (string_of_ID viewId) view).

(** [Map.get] of an absent key is [undefined]. *)
Definition load (viewId : ID) : M store value :=
  gets (fun st => or_default (mget (string_of_ID viewId) st) VUndefined).

Definition delete (viewId : ID) : M store unit := modify (mdelete (string_of_ID viewId)).
Definition truncate : M store unit := modify (fun _ => empty).
Definition findAll : M store (list value) := gets mvalues.
Definition find (predicate : value -> bool) : M store (list value) :=
  gets (fun st => List.filter predicate (mvalues st)).

Definition persistence : ViewStore store :=
  {| vs_save := save; vs_load := load; vs_delete := delete; vs_truncate := Some truncate |}.

End Views.

(** ** Composite keys *)

(** No colon occurs in the text. *)
Fixpoint no_colon (s : string) : bool :=
  match s with
  | EmptyString => true
  | String c s' => negb (Ascii.eqb c (Ascii.ascii_of_nat 58)) && no_colon s'
  end.

Lemma colon_split (s1 s2 t1 t2 : string) :
  no_colon s1 = true -> no_colon t1 = true ->
  String.append s1 (String.append ":" s2) = String.append t1 (String.append ":" t2) ->
  s1 = t1 /\ s2 = t2.
Proof.
  revert t1. induction s1 as [| c s1 IH]; intros [| d t1]; simpl.
  - intros _ _ H. by injection H.
  - intros _ Hd H. by injection H as <- _.
  - intros Hc _ H. by injection H as -> _.
  - intros [_ H1]%andb_true_iff [_ H2]%andb_true_iff H. injection H as -> H.
    by destruct (IH t1 H1 H2 H) as [-> ->].
Qed.

(** ** Facts about the event store *)

Module EventStoreFacts.
Import EventStore.

Lemma stream_of_mset k k' evs st :
  stream_of (mset k evs st) k' = if String.eqb k' k then evs else stream_of st k'.
Proof. unfold stream_of. rewrite mget_mset. by destruct (String.eqb k' k). Qed.

#[export] Instance event_store_spec : EventStoreSpec persistence stream_of.
Proof.
  split.
  - reflexivity.
  - intros f w name i v [= <-]. reflexivity.
  - intros w name i evs v. cbn zeta. simpl. unfold save, wp.
    destruct (Nat.eqb_spec (length evs) 0) as [E | E]; simpl.
    { destruct evs; [| done]. split; [by left |]. intros k'. rewrite app_nil_r.
      destruct (String.eqb_spec k' (composite_key name i)) as [-> |]; done. }
    assert (Hne : evs <> []) by (by intros ->). unfold bind, gets, throw, modify.
    destruct (Nat.eqb_spec (length (stream_of w (composite_key name i))) v) as [Ev | Ev]; simpl;
      [| by repeat split].
    unfold mhas, stream_of in *. destruct (mget (composite_key name i) w) as [old |] eqn:G;
      (split; [by right |]); intros k'; rewrite mget_mset;
      destruct (String.eqb_spec k' (composite_key name i)) as [-> |]; simpl; by rewrite ?G.
Qed.

(** One call of [save], whatever its arguments and its outcome. *)
Definition saved (st st' : store) : Prop :=
  exists name i evs v r, save name i evs v st = (r, st').

Lemma saved_prefix st st' k : saved st st' -> stream_of st k `prefix_of` stream_of st' k.
Proof.
  intros (name & i & evs & v & r & H).
  pose proof (es_save_spec (P := persistence) st name i evs v) as Hs. cbn in Hs.
  unfold wp in Hs. rewrite H in Hs. destruct r as [[] | e].
  - destruct Hs as [_ ->]. destruct (String.eqb_spec k (composite_key name i)) as [-> |];
      [by eexists | done].
  - by destruct Hs as (_ & _ & _ & ->).
Qed.

Lemma saved_star_prefix st st' k : rtc saved st st' -> stream_of st k `prefix_of` stream_of st' k.
Proof.
  induction 1 as [| st1 st2 st3 H _ IH]; [done |].
  etrans; [by apply saved_prefix | exact IH].
Qed.

Lemma wf_saved st st' : wf st -> saved st st' -> wf st'.
Proof.
  intros Hwf (name & i & evs & v & r & H). revert H. unfold save, bind, gets, throw, modify, ret.
  destruct (_ =? 0)%nat; [by intros [= <- <-] |]. destruct (negb _); [by intros [= <- <-] |].
  destruct (mhas _ _); intros [= <- <-]; by apply wf_mset.
Qed.

(** What a full read yields: the streams of the matching keys, in map order. *)
Definition contents (prefix : option string) (st : store) : list event :=
  flat_map (fun '(key, events) => if skipped prefix key then [] else events) st.

(** [seek] finds the first of the events that remain, and its position splits them. *)
Lemma seek_spec prefix entries i j :
  match seek prefix entries i j with
  | None => match entries with
            | [] => []
            | (key, events) :: rest => (if skipped prefix key then [] else drop j events) ++ contents prefix rest
            end = []
  | Some (e, (i', j')) => exists n,
      i' = i + n /\
      match entries with
      | [] => []
      | (key, events) :: rest => (if skipped prefix key then [] else drop j events) ++ contents prefix rest
      end
      = e :: match drop n entries with
             | [] => []
             | (key, events) :: rest =>
                 (if skipped prefix key then [] else drop j' events) ++ contents prefix rest
             end
  end%nat.
Proof.
  revert i j. induction entries as [| [key events] rest IH]; intros i j; simpl; [done |].
  assert (Hrec : match seek prefix rest (S i) 0 with
    | None => contents prefix rest = []
    | Some (e, (i', j')) => exists n, i' = (i + n)%nat /\ contents prefix rest
        = e :: match drop n ((key, events) :: rest) with
               | [] => []
               | (key, events) :: rest =>
                   (if skipped prefix key then [] else drop j' events) ++ contents prefix rest
               end
    end).
  { specialize (IH (S i) 0%nat). destruct (seek prefix rest (S i) 0) as [[e [i' j']] |].
    - destruct IH as (n & -> & H). exists (S n). split; [lia |]. simpl. rewrite <- H.
      destruct rest as [| [key' events'] rest]; [done |]. simpl. by destruct (skipped prefix key').
    - destruct rest as [| [key' events'] rest]; [done |]. simpl in *. by destruct (skipped prefix key'). }
  destruct (skipped prefix key) eqn:Es; simpl; [exact Hrec |].
  destruct (events !! j) as [e |] eqn:Ej.
  - exists 0%nat. split; [lia |]. simpl. rewrite Es. by rewrite (drop_S _ _ _ Ej).
  - apply lookup_ge_None in Ej. rewrite drop_ge by done. exact Hrec.
Qed.

(** The events that remain from a position. *)
Definition remaining (prefix : option string) (st : store) (c : cursor) : list event :=
  match drop (fst c) st with
  | [] => []
  | (key, events) :: rest =>
      (if skipped prefix key then [] else drop (snd c) events) ++ contents prefix rest
  end.

Lemma remaining_start prefix st : remaining prefix st (0, 0)%nat = contents prefix st.
Proof.
  unfold remaining. simpl. rewrite drop_0. destruct st as [| [key events] rest]; [done |]. simpl.
  by destruct (skipped prefix key).
Qed.

(** A call of [next()] returns the first of the events that remain and advances
    past it; at the end it returns [done]. *)
Lemma read_next_spec options c st :
  is_some (ro_after options) = false ->
  match remaining (read_prefix options) st c with
  | [] => read_next options c st = (Ok None, st)
  | e :: rest => exists c', read_next options c st = (Ok (Some (e, c')), st) /\
                            remaining (read_prefix options) st c' = rest
  end.
Proof.
  intros Ho. unfold read_next. rewrite Ho. unfold gets, remaining.
  pose proof (seek_spec (read_prefix options) (drop (fst c) st) (fst c) (snd c)) as Hs.
  destruct (seek _ _ _ _) as [[e [i' j']] |].
  - destruct Hs as (n & -> & ->). exists (fst c + n, j')%nat. split; [done |].
    simpl. by rewrite drop_drop.
  - by rewrite Hs.
Qed.

Lemma collect_spec fuel options c st :
  is_some (ro_after options) = false ->
  (length (remaining (read_prefix options) st c) < fuel)%nat ->
  collect fuel options c st = (Ok (Some (remaining (read_prefix options) st c)), st).
Proof.
  intros Ho. revert c. induction fuel as [| fuel IH]; intros c; [lia |]. simpl. unfold bind.
  pose proof (read_next_spec options c st Ho) as Hn.
  destruct (remaining _ st c) as [| e rest]; [by rewrite Hn |]. simpl.
  destruct Hn as (c' & -> & Hc'). intros Hlen. rewrite IH by (rewrite Hc'; lia). by rewrite Hc'.
Qed.

End EventStoreFacts.
Export EventStoreFacts.

(** ** Facts about the versioned stores *)

#[export] Instance state_store_spec (stateVersion : StoredState -> option Z) :
  VersionedStoreSpec StateStore.load
    (fun name i a => StateStore.save name i (st_state a) (pred (st_version a)) (st_stateVersion a))
    st_version (fun st k => mget k st).
Proof.
  split; [reflexivity |].
  intros w name i a v k Hv. rewrite Hv. simpl. unfold StateStore.save, wp, bind, gets, throw, modify.
  fold k. unfold cell_version.
  destruct (Nat.eqb_spec (or_default (option_map st_version (mget k w)) 0%nat) v) as [E | E]; simpl;
    [| done].
  split; [done |]. intros k'. rewrite mget_mset. destruct (String.eqb k' k); [| done].
  f_equal. destruct a; simpl in *. f_equal. lia.
Qed.

#[export] Instance saga_store_spec :
  VersionedStoreSpec SagaStore.load
    (fun name i a => SagaStore.save name i (ga_state a) (pred (ga_version a)))
    ga_version (fun st k => mget k st).
Proof.
  split; [reflexivity |].
  intros w name i a v k Hv. rewrite Hv. simpl. unfold SagaStore.save, wp, bind, gets, throw, modify.
  fold k. unfold cell_version.
  destruct (Nat.eqb_spec (or_default (option_map ga_version (mget k w)) 0%nat) v) as [E | E]; simpl;
    [| done].
  split; [done |]. intros k'. rewrite mget_mset. destruct (String.eqb k' k); [| done].
  f_equal. destruct a; simpl in *. f_equal. lia.
Qed.

#[export] Instance snap_store_spec : SnapshotStoreSpec SnapStore.persistence (fun st k => mget k st).
Proof.
  split; [reflexivity |]. intros w name i s. eexists. split; [reflexivity |].
  intros k'. apply mget_mset.
Qed.

Section versioned.
Context {W A} (load : string -> ID -> M W (option A)) (save : string -> ID -> A -> M W unit)
  (version : A -> nat) (cell : W -> string -> option A)
  `{!VersionedStoreSpec load save version cell}.

(** One call of [save] that replaces version [v]. *)
Definition wrote (w w' : W) : Prop :=
  exists name i a v r, version a = S v /\ save name i a w = (r, w').

Lemma wrote_version w w' k :
  wrote w w' -> (cell_version version (cell w k) <= cell_version version (cell w' k))%nat.
Proof.
  intros (name & i & a & v & r & Hv & H). pose proof (vr_save_spec w name i a v Hv) as Hs.
  cbn zeta in Hs. unfold wp in Hs. rewrite H in Hs. destruct r as [[] | e].
  - destruct Hs as [Hold ->]. destruct (String.eqb_spec k (composite_key name i)) as [-> |]; [| done].
    rewrite Hold, cell_version_Some, Hv. lia.
  - by destruct Hs as (_ & _ & ->).
Qed.

Lemma wrote_star_version w w' k :
  rtc wrote w w' -> (cell_version version (cell w k) <= cell_version version (cell w' k))%nat.
Proof.
  induction 1 as [| w1 w2 w3 H _ IH]; [done |].
  etrans; [by apply wrote_version | exact IH].
Qed.

(** Of two writers that both read version [v], at most one succeeds. *)
Lemma versioned_no_lost_update w w1 w2 name i a b v :
  version a = S v -> version b = S v ->
  save name i a w = (Ok tt, w1) -> rtc wrote w1 w2 ->
  exists actual, save name i b w2 = (Err (ConcurrencyError name i v actual), w2) /\ (Z.of_nat v < actual)%Z.
Proof.
  intros Ha Hb H Hstar. pose proof (vr_save_spec w name i a v Ha) as Hs. cbn zeta in Hs.
  unfold wp in Hs. rewrite H in Hs. destruct Hs as [_ Hcell].
  pose proof (wrote_star_version _ _ (composite_key name i) Hstar) as Hmon.
  rewrite Hcell, String.eqb_refl, cell_version_Some, Ha in Hmon.
  pose proof (vr_save_spec w2 name i b v Hb) as Hs. cbn zeta in Hs. unfold wp in Hs.
  destruct (save name i b w2) as [[[] | e] w3]; [lia |].
  destruct Hs as (-> & _ & ->). eexists. split; [done | lia].
Qed.
End versioned.

(** ** Properties *)

(** The composite key of the in-memory stores identifies the instance: when
    aggregate names contain no colon, two pairs of a name and an identifier share
    a key only if the names are equal and the identifiers print alike. *)
Theorem composite_key_injective (name name' : string) (i i' : ID) :
  no_colon name = true -> no_colon name' = true ->
  composite_key name i = composite_key name' i' -> name = name' /\ string_of_ID i = string_of_ID i'.
Proof. apply colon_split. Qed.

Lemma composite_key_injective_witness :
  composite_key "Auction" (IdNum 12) = composite_key "Auction" (IdBig 12) /\
  string_of_ID (IdNum 12) = string_of_ID (IdBig 12).
Proof.
  split; [reflexivity |].
  apply (composite_key_injective "Auction" "Auction" (IdNum 12) (IdBig 12)); reflexivity.
Defined.

(** No lost update on event streams: once a writer that read version [v] of a
    stream has appended its events, any other writer that also read version [v]
    is refused with a [ConcurrencyError] that names both versions, however many
    saves happen in between, and the refused call changes nothing; the events of
    every stream only grow at the end. *)
Theorem event_store_no_lost_update (st st1 st2 : EventStore.store) (name : string) (i : ID)
    (evs evs' : list event) (v : nat) :
  evs <> [] -> evs' <> [] ->
  EventStore.save name i evs v st = (Ok tt, st1) ->
  rtc saved st1 st2 ->
  (exists actual,
     EventStore.save name i evs' v st2 = (Err (ConcurrencyError name i v actual), st2) /\
     (Z.of_nat (v + length evs) <= actual)%Z) /\
  exists later, EventStore.stream_of st2 (composite_key name i)
                = EventStore.stream_of st (composite_key name i) ++ evs ++ later.
Proof.
  intros Hne Hne' H Hstar.
  pose proof (es_save_spec (P := EventStore.persistence) st name i evs v) as Hs.
  cbn in Hs. unfold wp in Hs. rewrite H in Hs. destruct Hs as [[-> | Hlen] Hst1]; [done |].
  specialize (Hst1 (composite_key name i)). rewrite String.eqb_refl in Hst1.
  pose proof (saved_star_prefix _ _ (composite_key name i) Hstar) as [later Hlater].
  rewrite Hst1, <- app_assoc in Hlater. split; [| by eexists].
  pose proof (es_save_spec (P := EventStore.persistence) st2 name i evs' v) as Hs.
  cbn in Hs. unfold wp in Hs. apply (f_equal length) in Hlater. rewrite !length_app in Hlater.
  assert (length evs <> 0%nat) by (by destruct evs).
  destruct (EventStore.save name i evs' v st2) as [[[] | e] st3]; [destruct Hs as [[-> |] _]; [done | lia] |].
  destruct Hs as (-> & _ & _ & ->). eexists. split; [done | lia].
Qed.

Definition ev (n : string) : event := {| ev_name := n; ev_payload := VNull; ev_metadata := None |}.

Lemma event_store_no_lost_update_witness :
  EventStore.save "Auction" (IdStr "a1") [ev "Created"] 0 [] = (Ok tt, [("Auction:a1", [ev "Created"])]) /\
  exists actual,
    EventStore.save "Auction" (IdStr "a1") [ev "Closed"] 0 [("Auction:a1", [ev "Created"])]
    = (Err (ConcurrencyError "Auction" (IdStr "a1") 0 actual), [("Auction:a1", [ev "Created"])]).
Proof.
  split; [reflexivity |].
  destruct (event_store_no_lost_update [] [("Auction:a1", [ev "Created"])] [("Auction:a1", [ev "Created"])]
    "Auction" (IdStr "a1") [ev "Created"] [ev "Closed"] 0) as [[actual [H _]] _];
    [discriminate | discriminate | reflexivity | apply rtc_refl |].
  by exists actual.
Defined.

(** No lost update on saga state: of two writers that both read version [v]
    of a saga instance, once one has succeeded the other gets a [ConcurrencyError]
    and changes nothing, however many saves of any instance happen in between. *)
Theorem saga_store_no_lost_update (st st1 st2 : SagaStore.store) (name : string) (i : ID)
    (state state' : value) (v : nat) :
  SagaStore.save name i state v st = (Ok tt, st1) ->
  rtc (fun w w' => exists name i state v r, SagaStore.save name i state v w = (r, w')) st1 st2 ->
  exists actual,
    SagaStore.save name i state' v st2 = (Err (ConcurrencyError name i v actual), st2) /\ (Z.of_nat v < actual)%Z.
Proof.
  intros H Hstar.
  apply (versioned_no_lost_update SagaStore.load
    (fun name i a => SagaStore.save name i (ga_state a) (pred (ga_version a)))
    ga_version (fun st k => mget k st) st st1 st2 name i
    {| ga_state := state; ga_version := S v |} {| ga_state := state'; ga_version := S v |} v);
    [done | done | exact H |].
  eapply rtc_subrel; [| exact Hstar]. intros w w' (n & j & s & u & r & Hr).
  by exists n, j, {| ga_state := s; ga_version := S u |}, u, r.
Qed.

Lemma saga_store_no_lost_update_witness :
  exists actual,
    SagaStore.save "Payment" (IdNum 7) (VNum 2) 0 [("Payment:7", {| ga_state := VNum 1; ga_version := 1 |})]
    = (Err (ConcurrencyError "Payment" (IdNum 7) 0 actual),
       [("Payment:7", {| ga_state := VNum 1; ga_version := 1 |})]).
Proof.
  destruct (saga_store_no_lost_update [] [("Payment:7", {| ga_state := VNum 1; ga_version := 1 |})]
    [("Payment:7", {| ga_state := VNum 1; ga_version := 1 |})] "Payment" (IdNum 7) (VNum 1) (VNum 2) 0)
    as [actual [H _]]; [reflexivity | apply rtc_refl |].
  by exists actual.
Defined.

(** A full read of the event store yields every persisted event whose key has
    the requested prefix, once each, in the order of the map and within an
    instance in stored order; reading changes nothing and terminates after as
    many [next()] calls as there are events. *)
Theorem event_store_read_all (st : EventStore.store) (aggregateName : option string) (fuel : nat) :
  (length (flat_map snd st) < fuel)%nat ->
  let options := {| EventStore.ro_after := None; EventStore.ro_aggregateName := aggregateName |} in
  EventStore.collect fuel options (0, 0)%nat st
  = (Ok (Some (flat_map (fun '(key, events) =>
       match aggregateName with
       | Some n => if String.prefix (String.append n ":") key then events else []
       | None => events
       end) st)), st).
Proof.
  intros Hfuel options.
  assert (Hc : contents (EventStore.read_prefix options) st = flat_map (fun '(key, events) =>
    match aggregateName with
    | Some n => if String.prefix (String.append n ":") key then events else []
    | None => events
    end) st).
  { clear Hfuel. induction st as [| [key events] st IH]; simpl; [done |]. rewrite IH.
    unfold EventStore.read_prefix, options. simpl. f_equal.
    destruct aggregateName as [n |]; simpl; [| done]. by destruct (String.prefix _ key). }
  rewrite collect_spec; [by rewrite remaining_start, Hc | done |].
  rewrite remaining_start. eapply Nat.le_lt_trans; [| exact Hfuel].
  clear. unfold contents. induction st as [| [key events] st IH]; simpl; [done |].
  rewrite !length_app. destruct (EventStore.skipped _ key); simpl; lia.
Qed.

Lemma event_store_read_all_witness :
  EventStore.collect 9 {| EventStore.ro_after := None; EventStore.ro_aggregateName := Some "A" |} (0, 0)%nat
    [("A:1", [ev "x"; ev "y"]); ("B:1", [ev "z"]); ("A:2", [ev "u"])]
  = (Ok (Some [ev "x"; ev "y"; ev "u"]), [("A:1", [ev "x"; ev "y"]); ("B:1", [ev "z"]); ("A:2", [ev "u"])]).
Proof.
  refine (event_store_read_all [("A:1", [ev "x"; ev "y"]); ("B:1", [ev "z"]); ("A:2", [ev "u"])] (Some "A") 9 _).
  apply Nat.ltb_lt. reflexivity.
Defined.
