(* ===== verification/Sql.v ===== *)
(** Tables of a relational database, as the adapters use them through an ORM: a
    [Table] is the operations that the ORM offers on a table, which are not under
    [src]; [TableSpec] is their documented behaviour (an insert is atomic and refused
    when a unique key is taken, a find returns the matching rows in the requested
    order, an update reports how many rows it matched), and [ListTable] a table that
    has it.  The rows are those of the schemas ([drizzle/src/pg/schema.ts],
    [typeorm/src/entities.ts]).  The two refinement arguments that the stores of all
    adapters share are here: an event table implements append-only streams, and a
    table of versioned rows implements compare-and-set. *)
From stdpp Require Import gmap sorting.
From Stdlib Require Import Sorting.Sorted.
From S2P Require Import Prelude Text Json JsMap CoreTypes Errors Wire Stores.

(** ** Tables *)

Record query (R : Type) : Type := {
  q_where : R -> bool;
  q_order : option (R -> R -> bool);   (** [orderBy asc(column)] *)
  q_limit : option nat
}.
Arguments q_where {R} _.
Arguments q_order {R} _.
Arguments q_limit {R} _.

(** All the rows that match, in no particular order. *)
Definition where_ {R} (p : R -> bool) : query R := {| q_where := p; q_order := None; q_limit := None |}.

(** [R]: the rows; [N]: what an insert gives for a row (a generated column is missing). *)
Record Table (D R N : Type) : Type := {
  tb_insert : list N -> M D unit;
  tb_find : query R -> M D (list R);
  tb_update : (R -> bool) -> (R -> R) -> M D value;   (** what the driver returns *)
  tb_delete : (R -> bool) -> M D unit;
  tb_save : list N -> M D unit   (** TypeORM: insert, or update by primary key *)
}.
Arguments tb_insert {D R N} _.
Arguments tb_find {D R N} _.
Arguments tb_update {D R N} _.
Arguments tb_delete {D R N} _.
Arguments tb_save {D R N} _.

(** No two of the rows have the same unique key. *)
Definition no_conflict {N} (same_key : N -> N -> bool) (l : list N) : Prop :=
  ForallOrdPairs (fun a b => same_key a b = false) l.

Definition le_of {R} (le : R -> R -> bool) : relation R := fun a b => le a b = true.

(** What a query may return on the rows [l]. *)
Definition answers {R} (q : query R) (l found : list R) : Prop :=
  exists full, full ≡ₚ List.filter (q_where q) l /\
    match q_order q with Some le => StronglySorted (le_of le) full | None => True end /\
    found = match q_limit q with Some n => take n full | None => full end.

(** The new rows have distinct keys, which no row has. *)
Definition fits {R N} (same_key : N -> N -> bool) (data : R -> N) (l : list R) (ns : list N) : Prop :=
  no_conflict same_key ns /\ forall r n, r ∈ l -> n ∈ ns -> same_key (data r) n = false.

Definition ordering {R} (q : query R) : Prop :=
  match q_order q with Some le => Total (le_of le) /\ Transitive (le_of le) | None => True end.

(** The documented behaviour.  [rows d]: the committed rows, and those of the running
    transaction; [data]: the columns given at the insert; [accepts]: the constraints on
    a single row; [taken_error] are the errors that the driver documents for a taken key
    ([Errors.Drivers]); [affected] reads the number of rows that an update matched.  Any
    operation may fail otherwise (the connection is lost), with an error of the driver,
    and then changes nothing. *)
Class TableSpec {D R N} (t : Table D R N) (rows : D -> list R) (data : R -> N)
    (same_key : N -> N -> bool) (accepts : N -> Prop)
    (taken_error : js_error -> Prop) (affected : value -> Z) : Prop := {
  tb_find_spec : forall q d, ordering q ->
    wp (tb_find t q) (fun found d' => d' = d /\ answers q (rows d) found)
       (fun e d' => d' = d /\ Drivers.other_failure e) d;
  tb_insert_spec : forall ns d, Forall accepts ns ->
    wp (tb_insert t ns)
       (fun _ d' => fits same_key data (rows d) ns /\ exists new, map data new = ns /\ rows d' = rows d ++ new)
       (fun e d' => rows d' = rows d /\
          (taken_error e /\ ~ fits same_key data (rows d) ns \/ Drivers.other_failure e))
       d;
  tb_update_spec : forall p f d, (forall r, r ∈ rows d -> p r = true -> data (f r) <> data r ->
      accepts (data (f r)) /\ forall n, same_key n (data (f r)) = same_key n (data r)) ->
    wp (tb_update t p f)
       (fun r d' => rows d' = map (fun x => if p x then f x else x) (rows d) /\
          affected r = Z.of_nat (length (List.filter p (rows d))))
       (fun e d' => rows d' = rows d /\ Drivers.other_failure e) d;
  tb_delete_spec : forall p d,
    wp (tb_delete t p) (fun _ d' => rows d' = List.filter (fun x => negb (p x)) (rows d))
       (fun e d' => rows d' = rows d /\ Drivers.other_failure e) d
}.

(** TypeORM's [save] of rows whose primary key is generated inserts them in one
    transaction; of a row with its primary key, it writes the row under that key. *)
Class SaveInserts {D R N} (t : Table D R N) (rows : D -> list R) (data : R -> N)
    (same_key : N -> N -> bool) (accepts : N -> Prop) (taken_error : js_error -> Prop) : Prop :=
  tb_save_inserts : forall ns d, Forall accepts ns ->
    wp (tb_save t ns)
       (fun _ d' => fits same_key data (rows d) ns /\ exists new, map data new = ns /\ rows d' = rows d ++ new)
       (fun e d' => rows d' = rows d /\
          (taken_error e /\ ~ fits same_key data (rows d) ns \/ Drivers.other_failure e))
       d.

(** ** A table in memory *)

Module ListTable.

Section table.
Context {R N : Type} (fresh : list R -> N -> R) (same_key : N -> N -> bool) (data : R -> N)
  (taken : js_error) (count : nat -> value).

Definition insert_one (n : N) : M (list R) unit :=
  fun l => if existsb (fun r => same_key (data r) n) l then (Err taken, l) else (Ok tt, l ++ [fresh l n]).

(** All or nothing. *)
Definition insert (ns : list N) : M (list R) unit :=
  fun l => match for_each ns insert_one l with (Ok _, l') => (Ok tt, l') | (Err e, _) => (Err e, l) end.

Fixpoint insert_sorted (le : R -> R -> bool) (x : R) (l : list R) : list R :=
  match l with
  | [] => [x]
  | y :: l' => if le x y then x :: l else y :: insert_sorted le x l'
  end.
Definition sort (le : R -> R -> bool) (l : list R) : list R := foldr (insert_sorted le) [] l.

Definition find (q : query R) : M (list R) (list R) :=
  fun l =>
    let found := List.filter (q_where q) l in
    let full := match q_order q with Some le => sort le found | None => found end in
    (Ok (match q_limit q with Some n => take n full | None => full end), l).

Definition update (p : R -> bool) (f : R -> R) : M (list R) value :=
  fun l => (Ok (count (length (List.filter p l))), map (fun x => if p x then f x else x) l).

Definition delete (p : R -> bool) : M (list R) unit := fun l => (Ok tt, List.filter (fun x => negb (p x)) l).

Definition save (ns : list N) : M (list R) unit :=
  for_each ns (fun n l =>
    if existsb (fun r => same_key (data r) n) l
    then (Ok tt, map (fun r => if same_key (data r) n then fresh l n else r) l)
    else (Ok tt, l ++ [fresh l n])).

(** [generated]: the primary key is generated, so that a save is an insert. *)
Definition table (generated : bool) : Table (list R) R N :=
  {| tb_insert := insert; tb_find := find; tb_update := update; tb_delete := delete;
     tb_save := if generated then insert else save |}.
End table.

Section facts.
Context {R N : Type} (fresh : list R -> N -> R) (same_key : N -> N -> bool) (data : R -> N)
  (taken : js_error) (count : nat -> value) (taken_error : js_error -> Prop) (affected : value -> Z).
Hypothesis data_fresh : forall l n, data (fresh l n) = n.
Hypothesis taken_documented : taken_error taken.
Hypothesis affected_count : forall n, affected (count n) = Z.of_nat n.

Lemma insert_sorted_perm le (x : R) l : insert_sorted le x l ≡ₚ x :: l.
Proof.
  induction l as [| y l IH]; [done |]. cbn. destruct (le x y); [done |]. rewrite IH. constructor.
Qed.

Lemma rows_sort_perm le (l : list R) : sort le l ≡ₚ l.
Proof. induction l as [| x l IH]; [done |]. cbn. by rewrite insert_sorted_perm, IH. Qed.

Lemma insert_sorted_sorted (le : R -> R -> bool) x l : Total (le_of le) -> Transitive (le_of le) ->
  StronglySorted (le_of le) l -> StronglySorted (le_of le) (insert_sorted le x l).
Proof.
  intros Htot Htr. induction 1 as [| y l Hs IH Hall]; cbn; [by repeat constructor |].
  destruct (le x y) eqn:E.
  - constructor; [by constructor |]. constructor; [done |].
    eapply List.Forall_impl; [| exact Hall]. intros z Hz. by etrans.
  - constructor; [done |]. rewrite insert_sorted_perm. constructor; [| done].
    destruct (Htot x y) as [H | H]; [| done]. unfold le_of in H. congruence.
Qed.

Lemma rows_sort_sorted (le : R -> R -> bool) l : Total (le_of le) -> Transitive (le_of le) ->
  StronglySorted (le_of le) (sort le l).
Proof. intros. induction l; cbn; [constructor | by apply insert_sorted_sorted]. Qed.

Lemma insert_all ns : forall l,
  match for_each ns (insert_one fresh same_key data taken) l with
  | (Ok _, l') => fits same_key data l ns /\ exists new, map data new = ns /\ l' = l ++ new
  | (Err e, _) => e = taken /\ ~ fits same_key data l ns
  end.
Proof.
  induction ns as [| n ns IH]; intros l; cbn.
  - split; [split; [constructor |]; intros; set_solver |]. exists []. by rewrite app_nil_r.
  - unfold bind, insert_one at 1. destruct (existsb _ l) eqn:E.
    + split; [done |]. intros [_ H]. apply existsb_exists in E as (r & Hr%list_elem_of_In & E).
      rewrite (H r n) in E; [done | done | left].
    + assert (Hn : forall r, r ∈ l -> same_key (data r) n = false).
      { intros r Hr. destruct (same_key (data r) n) eqn:K; [| done].
        assert (existsb (fun r => same_key (data r) n) l = true); [| congruence].
        apply existsb_exists. exists r. by rewrite <- list_elem_of_In. }
      specialize (IH (l ++ [fresh l n])). destruct (for_each ns _ _) as [[[] | e] l'].
      * destruct IH as [[Hns Hl] (new & <- & ->)]. split.
        -- split.
           ++ constructor; [| done]. rewrite Forall_forall. intros m Hm.
              rewrite <- (data_fresh l n). apply Hl; [apply elem_of_app; right; by apply list_elem_of_singleton | done].
           ++ intros r m Hr [-> | Hm]%elem_of_cons; [by apply Hn |]. apply Hl; [by apply elem_of_app; left | done].
        -- exists (fresh l n :: new). cbn. rewrite data_fresh. by rewrite <- app_assoc.
      * destruct IH as [-> Hnot]. split; [done |]. intros [Hns Hl]. apply Hnot. inversion Hns as [| ? ? Hhd Htl]; subst.
        split; [done |]. intros r m [Hr | ->%list_elem_of_singleton]%elem_of_app Hm.
        -- apply Hl; [done | by right].
        -- rewrite data_fresh. rewrite Forall_forall in Hhd. by apply Hhd.
Qed.

#[export] Instance spec generated (accepts : N -> Prop) :
  TableSpec (table fresh same_key data taken count generated) (fun l => l) data same_key accepts taken_error affected.
Proof.
  split.
  - intros q l Hq. unfold wp. cbn. split; [done |]. unfold answers.
    destruct q as [p [le |] lim]; cbn in *.
    + exists (sort le (List.filter p l)). split; [apply rows_sort_perm |]. split; [| done].
      destruct Hq. by apply rows_sort_sorted.
    + exists (List.filter p l). done.
  - intros ns l _. unfold wp. cbn. unfold insert. pose proof (insert_all ns l) as H.
    destruct (for_each ns _ l) as [[[] | e] l']; [done |]. destruct H as [-> H]. split; [done | by left].
  - intros p f l _. unfold wp. cbn. by rewrite affected_count.
  - intros p l. done.
Qed.

#[export] Instance save_spec (accepts : N -> Prop) :
  SaveInserts (table fresh same_key data taken count true) (fun l => l) data same_key accepts taken_error.
Proof. exact (tb_insert_spec (TableSpec := spec true accepts)). Qed.
End facts.

End ListTable.

(** ** The rows of the schemas *)

(** The columns of [noddde_events]; the row has a generated [id] besides. *)
Record EventData : Type := {
  er_aggregateName : string;
  er_aggregateId : string;
  er_sequenceNumber : nat;
  er_eventName : string;
  er_payload : value;
  er_metadata : value;
  er_createdAt : value
}.
Definition EventRow : Type := Z * EventData.
Definition er_id (r : EventRow) : Z := fst r.

(** [noddde_aggregate_states], [noddde_saga_states] and [noddde_snapshots]: the name and
    the identifier are the primary key. *)
Record StateRow : Type := {
  sr_name : string;
  sr_id : string;
  sr_state : value;
  sr_version : nat
}.

(** [noddde_outbox] *)
Record OutboxRow : Type := {
  or_id : string;
  or_event : value;
  or_eventId : value;
  or_aggregateName : value;
  or_aggregateId : value;
  or_createdAt : value;
  or_publishedAt : value
}.

(** [noddde_event_idempotency] *)
Record IdempotencyRow : Type := { kr_key : string; kr_processedAt : value }.

(** The unique index on the events, and the primary keys. *)
Definition same_stream_number (a b : EventData) : bool :=
  String.eqb (er_aggregateName a) (er_aggregateName b) && String.eqb (er_aggregateId a) (er_aggregateId b) &&
  (er_sequenceNumber a =? er_sequenceNumber b)%nat.
Definition same_instance (a b : StateRow) : bool :=
  String.eqb (sr_name a) (sr_name b) && String.eqb (sr_id a) (sr_id b).
Definition same_outbox_id (a b : OutboxRow) : bool := String.eqb (or_id a) (or_id b).
Definition same_dedup_key (a b : IdempotencyRow) : bool := String.eqb (kr_key a) (kr_key b).

(** [where name = ... and id = ...] *)
Definition in_stream (name id : string) (d : EventData) : bool :=
  String.eqb (er_aggregateName d) name && String.eqb (er_aggregateId d) id.
Definition is_instance (name id : string) (r : StateRow) : bool :=
  String.eqb (sr_name r) name && String.eqb (sr_id r) id.

(** [order by sequence_number] and [order by id] *)
Definition by_sequence (a b : EventRow) : bool := (er_sequenceNumber (snd a) <=? er_sequenceNumber (snd b))%nat.
Definition by_id (a b : EventRow) : bool := (er_id a <=? er_id b)%Z.

(** The constraints on a row: the columns declared [notNull], and a column of JSON
    ([nativeJson]) takes JSON values. *)
Definition column_accepted (nativeJson : bool) (v : value) : Prop :=
  nullish v = false /\ (nativeJson = true -> is_json v).
Definition event_accepted (nativeJson : bool) (d : EventData) : Prop :=
  column_accepted nativeJson (er_payload d) /\ (nativeJson = true -> is_json (er_metadata d)).
Definition state_accepted (nativeJson : bool) (r : StateRow) : Prop := column_accepted nativeJson (sr_state r).

(** ** Columns *)

(** A column of text that holds JSON: [JSON.stringify(v)] on the way in; on the way out,
    a text is parsed and a value that the driver has parsed is taken as it is. *)
Definition text_column (v : value) : result value :=
  result_bind (stringify v) (fun t => Ok (match t with Some t => VStr t | None => VUndefined end)).
Definition read_column (v : value) : result value := match v with VStr t => parse t | _ => Ok v end.

(** [nativeJson ? v : JSON.stringify(v)] *)
Definition json_column (nativeJson : bool) (v : value) : result value :=
  if nativeJson then Ok v else text_column v.

(** [events.map((event, index) => ...)] with a callback that may throw. *)
Fixpoint map_index {A B} (f : nat -> A -> result B) (index : nat) (l : list A) : result (list B) :=
  match l with
  | [] => Ok []
  | x :: l' => result_bind (f index x) (fun y => result_bind (map_index f (S index) l') (fun ys => Ok (y :: ys)))
  end.

(** Comparison of two columns of dates: texts, or instants. *)
Definition date_le (a b : value) : bool :=
  match a, b with
  | VStr s, VStr t => String.leb s t
  | VDate x, VDate y => (x <=? y)%Z
  | _, _ => false
  end.
Definition date_lt (a b : value) : bool :=
  match a, b with
  | VStr s, VStr t => String.ltb s t
  | VDate x, VDate y => (x <? y)%Z
  | _, _ => false
  end.

(** [new Date(column)] *)
Definition column_date (to_utc : Z -> Z) (v : value) : result Z :=
  match v with
  | VDate ms => Ok ms
  | VStr s => match new_Date to_utc s with Some ms => Ok ms | None => Err outside_model end
  | _ => Err outside_model
  end.

(** [column ?? undefined] on an optional text. *)
Definition optional_text (v : value) : option string := match v with VStr s => Some s | _ => None end.
(** [field ?? null] *)
Definition nullable_text (o : option string) : value := match o with Some s => VStr s | None => VNull end.

(** An [Event] from its name, the columns of its payload and its metadata. *)
Definition make_event (name : string) (payload metadata : value) : result event :=
  if nullish metadata then Ok {| ev_name := name; ev_payload := payload; ev_metadata := None |}
  else match metadata_of_value metadata with
       | Some md => Ok {| ev_name := name; ev_payload := payload; ev_metadata := Some md |}
       | None => Err outside_model
       end.

(** [als.getStore() ?? db] *)
Definition getExecutor {X} (store : option X) (db : X) : X := or_default store db.

(** ** Rows of the outbox *)

(** [where published_at is null] *)
Definition pending (r : OutboxRow) : bool := nullish (or_publishedAt r).
Definition with_publishedAt (v : value) (r : OutboxRow) : OutboxRow :=
  {| or_id := or_id r; or_event := or_event r; or_eventId := or_eventId r; or_aggregateName := or_aggregateName r;
     or_aggregateId := or_aggregateId r; or_createdAt := or_createdAt r; or_publishedAt := v |}.
Definition by_createdAt (a b : OutboxRow) : bool := date_le (or_createdAt a) (or_createdAt b).

(** [where published_at is null order by created_at limit batchSize] *)
Definition pending_query (batchSize : nat) : query OutboxRow :=
  {| q_where := pending; q_order := Some by_createdAt; q_limit := Some batchSize |}.

(** [id in (...)], and [event_id in (...)], which a null never is. *)
Definition in_texts (l : list string) (v : value) : bool :=
  match v with VStr s => existsb (String.eqb s) l | _ => false end.

(** The event that a column holds. *)
Definition read_event (v : value) : result event :=
  match event_of_value v with Some e => Ok e | None => Err outside_model end.

(** [rows.map((row) => ({ id, event, ..., createdAt, publishedAt }))] *)
Definition outbox_entry (parse_event : value -> result value) (to_utc : Z -> Z) (row : OutboxRow) : result OutboxEntry :=
  result_bind (result_bind (parse_event (or_event row)) read_event) (fun e =>
  result_bind (column_date to_utc (or_createdAt row)) (fun createdAt =>
  result_bind (if nullish (or_publishedAt row) then Ok None
               else result_bind (column_date to_utc (or_publishedAt row)) (fun d => Ok (Some d))) (fun publishedAt =>
  Ok {| ob_id := or_id row; ob_event := e; ob_aggregateName := optional_text (or_aggregateName row);
        ob_aggregateId := optional_text (or_aggregateId row); ob_createdAt := createdAt;
        ob_publishedAt := publishedAt |}))).

(** ** Reading a log in batches

    One batch of [read]: the rows after [cursor], by [id]. *)
Definition batch_query (cursor : Z) (aggregateName : option string) (batchSize : nat) : query EventRow :=
  {| q_where := fun r => (cursor <? er_id r)%Z &&
       match aggregateName with
       | Some n => if String.eqb n EmptyString then true else String.eqb (er_aggregateName (snd r)) n
       | None => true
       end;
     q_order := Some by_id; q_limit := Some batchSize |}.

(** ** Rows as objects

    A row of a dedicated table, whose columns the user's mapper chooses. *)
Definition ObjRow : Type := list (string * value).
Definition column (k : string) (r : ObjRow) : value := or_default (get_prop k r) VUndefined.

(** [JSON.parse(column)] on a column of text. *)
Definition parse_column (v : value) : result value :=
  match v with VStr t => parse t | VNull => Ok VNull | _ => Err SyntaxError end.

(** A non-empty text is truthy. *)
Definition truthy_text (v : value) : bool := match v with VStr s => negb (String.eqb s EmptyString) | _ => false end.

(** [Object.entries(map)] of the dedicated stores, and the lookup that [stateStoreFor] does. *)
Definition no_dedicated_table (aggregateName : string) : js_error :=
  PlainError (String.append "No dedicated state table configured for aggregate " (String.append (quoted aggregateName)
    (String.append ". Add " (String.append (quoted aggregateName) " to the aggregateStates config.")))).
Definition stateStoreFor {A} (dedicatedStores : jsmap A) (aggregateName : string) : result A :=
  match mget aggregateName dedicatedStores with Some s => Ok s | None => Err (no_dedicated_table aggregateName) end.

(** Event rows whose metadata column is a nullable text (Prisma and TypeORM). *)
Definition text_event_row (now : Z) (aggregateName aggregateId : string) (expectedVersion : nat)
    (index : nat) (e : event) : result EventData :=
  result_bind (text_column (ev_payload e)) (fun payload =>
  result_bind (match ev_metadata e with Some md => text_column (metadata_value md) | None => Ok VNull end) (fun metadata =>
  Ok {| er_aggregateName := aggregateName; er_aggregateId := aggregateId;
        er_sequenceNumber := expectedVersion + index + 1; er_eventName := ev_name e;
        er_payload := payload; er_metadata := metadata;
        er_createdAt := VDate (or_default (metadata_req md_timestamp e) now) |})).

(** [{ name, payload: JSON.parse(row.payload), ...(row.metadata ? { metadata: JSON.parse(row.metadata) } : {}) }] *)
Definition text_row_event (row : EventData) : result event :=
  result_bind (parse_column (er_payload row)) (fun payload =>
  if truthy_text (er_metadata row)
  then result_bind (parse_column (er_metadata row)) (fun meta => make_event (er_eventName row) payload meta)
  else make_event (er_eventName row) payload VUndefined).
