(* ===== verification/SqlRefine.v ===== *)
(** What the stores of the adapters implement, and the arguments they share.
    [AppendOnly] is the specification of an event store: one append-only stream per
    instance.  [CompareAndSet] is the specification of a store of versioned states.
    [StreamRefinement] and [CellRefinement] say that a store over a database
    implements them: a relation between the rows and the abstract state that every
    operation keeps, with the abstract result, or else the operation fails with an
    error of the driver and changes nothing. *)
From stdpp Require Import gmap sorting.
From Stdlib Require Import Sorting.Sorted.
From S2P Require Import Prelude Text Json JsMap CoreTypes Errors Wire Stores Sql.

(** ** Specifications *)

Module AppendOnly.

Abbreviation streams := (gmap (string * string) (list event)).

Definition load (name id : string) (s : streams) : list event := s !!! (name, id).
Definition loadAfterVersion (name id : string) (v : nat) (s : streams) : list event := drop v (s !!! (name, id)).

(** [None]: the stream does not have the expected version. *)
Definition save (name id : string) (events : list event) (expectedVersion : nat) (s : streams) : option streams :=
  if (length events =? 0)%nat then Some s
  else if (length (s !!! (name, id)) =? expectedVersion)%nat
  then Some (<[(name, id) := (s !!! (name, id)) ++ events]> s)
  else None.

End AppendOnly.

Module CompareAndSet.

Abbreviation cells := (gmap (string * string) (value * nat)).

Definition load (name id : string) (s : cells) : option (value * nat) := s !! (name, id).

(** The version of an absent cell is 0; a write gives the next version. *)
Definition version (name id : string) (s : cells) : nat := match s !! (name, id) with Some (_, v) => v | None => 0%nat end.
Definition save (name id : string) (state : value) (expectedVersion : nat) (s : cells) : option cells :=
  if (version name id s =? expectedVersion)%nat then Some (<[(name, id) := (state, S expectedVersion)]> s) else None.

End CompareAndSet.

(** ** What an implementation is

    An operation has the abstract result; or a save is refused, with a
    [ConcurrencyError], and the specification refuses it; or the database fails, with
    an error that is neither.  Nothing is written unless it succeeds. *)

(** The error that a refused write throws. *)
Definition conflict_error (name id : string) (expectedVersion : nat) (e : js_error) : Prop :=
  exists actual, e = ConcurrencyError name (IdStr id) expectedVersion actual.

(** What a column of text can hold, and what a column of JSON gives back as it was: a
    JSON value that is neither null nor a text. *)
Definition text_storable (v : value) : Prop := ordered v /\ exists j, json_of v = Ok (Some j).
Definition native_storable (v : value) : Prop :=
  is_json v /\ match v with VNull | VStr _ => False | _ => True end.
Definition storable (nativeJson : bool) (v : value) : Prop := if nativeJson then native_storable v else text_storable v.
Definition event_storable (nativeJson : bool) (e : event) : Prop :=
  carried e /\ storable nativeJson (ev_payload e).

Class StreamRefinement {D} (implements : D -> AppendOnly.streams -> Prop) (ok : event -> Prop)
    (load : string -> string -> M D (list event))
    (loadAfterVersion : string -> string -> nat -> M D (list event))
    (save : string -> string -> list event -> nat -> M D unit) : Prop := {
  sr_load : forall d s name id, implements d s ->
    wp (load name id) (fun events d' => implements d' s /\ events = AppendOnly.load name id s)
       (fun e d' => implements d' s /\ Drivers.other_failure e) d;
  sr_loadAfter : forall d s name id v, implements d s ->
    wp (loadAfterVersion name id v)
       (fun events d' => implements d' s /\ events = AppendOnly.loadAfterVersion name id v s)
       (fun e d' => implements d' s /\ Drivers.other_failure e) d;
  sr_save : forall d s name id events v, implements d s ->
    (v <= length (AppendOnly.load name id s))%nat -> Forall ok events ->
    wp (save name id events v)
       (fun _ d' => exists s', AppendOnly.save name id (map wire_event events) v s = Some s' /\ implements d' s')
       (fun e d' => implements d' s /\
          (conflict_error name id v e /\ AppendOnly.save name id (map wire_event events) v s = None \/
           Drivers.other_failure e))
       d
}.

Class CellRefinement {D} (implements : D -> CompareAndSet.cells -> Prop) (ok : value -> Prop)
    (load : string -> string -> M D (option (value * nat)))
    (save : string -> string -> value -> nat -> M D unit) : Prop := {
  cr_load : forall d s name id, implements d s ->
    wp (load name id) (fun found d' => implements d' s /\ found = CompareAndSet.load name id s)
       (fun e d' => implements d' s /\ Drivers.other_failure e) d;
  cr_save : forall d s name id state j v, implements d s -> ok state -> json_of state = Ok (Some j) ->
    wp (save name id state v)
       (fun _ d' => exists s', CompareAndSet.save name id j v s = Some s' /\ implements d' s')
       (fun e d' => implements d' s /\
          (conflict_error name id v e /\ CompareAndSet.save name id j v s = None \/ Drivers.other_failure e))
       d
}.

(** Two writers that have read the version [v]: unless the database fails, the first
    save succeeds and the second one is refused. *)
Definition one_writer_wins {D} (implements : D -> CompareAndSet.cells -> Prop) (ok : value -> Prop)
    (save : string -> string -> value -> nat -> M D unit) : Prop :=
  forall d s name id first second j1 j2 v, implements d s ->
    ok first -> json_of first = Ok (Some j1) -> ok second -> json_of second = Ok (Some j2) ->
    CompareAndSet.version name id s = v ->
    wp (save name id first v)
       (fun _ d1 => wp (save name id second v) (fun _ _ => False)
          (fun e _ => conflict_error name id v e \/ Drivers.other_failure e) d1)
       (fun e _ => Drivers.other_failure e) d.

Lemma compare_and_set_one_writer {D} (implements : D -> CompareAndSet.cells -> Prop) ok load save :
  CellRefinement implements ok load save -> one_writer_wins implements ok save.
Proof.
  intros H d s name id first second j1 j2 v Hd H1 Hj1 H2 Hj2 Hv.
  assert (Hsave : forall c j, CompareAndSet.version name id c = v ->
    CompareAndSet.save name id j v c = Some (<[(name, id) := (j, S v)]> c))
    by (intros c j Hc; unfold CompareAndSet.save; by rewrite Hc, Nat.eqb_refl).
  eapply wp_mono; [by eapply cr_save | |].
  - intros [] d1 (s1 & E & Hd1). rewrite Hsave in E by done. injection E as <-.
    eapply wp_mono; [by eapply cr_save | | intros e d2 [_ [[He _] | He]]; [by left | by right]].
    intros [] d2 (s2 & E & _). unfold CompareAndSet.save, CompareAndSet.version in E.
    rewrite lookup_insert_eq, (proj2 (Nat.eqb_neq _ _)) in E by lia. done.
  - intros e d1 [_ [[_ E] | He]]; [| done]. by rewrite Hsave in E.
Qed.

(** ** Tables of events *)

Definition stream_query (name id : string) : query EventRow :=
  {| q_where := fun r => in_stream name id (snd r); q_order := Some by_sequence; q_limit := None |}.

Definition stream_query_after (name id : string) (v : nat) : query EventRow :=
  {| q_where := fun r => in_stream name id (snd r) && (v <? er_sequenceNumber (snd r))%nat;
     q_order := Some by_sequence; q_limit := None |}.

(** The rows number the events from [k + 1] on and decode to them. *)
Fixpoint encodes (decode : EventData -> result event) (k : nat) (ds : list EventData) (log : list event) : Prop :=
  match ds, log with
  | [], [] => True
  | d :: ds', e :: log' => er_sequenceNumber d = S k /\ decode d = Ok e /\ encodes decode (S k) ds' log'
  | _, _ => False
  end.

Section encodes.
Context (decode : EventData -> result event).

Lemma encodes_app k ds ds' log log' :
  encodes decode k ds log -> encodes decode (k + length log) ds' log' -> encodes decode k (ds ++ ds') (log ++ log').
Proof.
  revert k log. induction ds as [| d ds IH]; intros k [| e log]; cbn; try done; [by rewrite Nat.add_0_r |].
  intros (Hk & Hd & H) H'. split; [done |]. split; [done |]. apply IH; [done |].
  by replace (S k + length log)%nat with (k + S (length log))%nat by lia.
Qed.

Lemma encodes_decode k ds log : encodes decode k ds log -> map_result decode ds = Ok log.
Proof.
  revert k log. induction ds as [| d ds IH]; intros k [| e log]; cbn; try done.
  intros (_ & -> & H). cbn. by rewrite (IH _ _ H).
Qed.

Lemma encodes_drop v : forall k ds log, encodes decode k ds log -> encodes decode (k + v) (drop v ds) (drop v log).
Proof.
  induction v as [| v IH]; intros k ds log H; [by rewrite Nat.add_0_r, !drop_0 |].
  destruct ds as [| d ds], log as [| e log]; try done.
  destruct H as (_ & _ & H). cbn [drop]. replace (k + S v)%nat with (S k + v)%nat by lia. by apply IH.
Qed.

Lemma encodes_numbers k ds log : encodes decode k ds log ->
  map er_sequenceNumber ds = seq (S k) (length log).
Proof.
  revert k log. induction ds as [| d ds IH]; intros k [| e log]; cbn; try done.
  intros (-> & _ & H). f_equal. by apply IH.
Qed.

Lemma encodes_length k ds log : encodes decode k ds log -> length ds = length log.
Proof. intros H%encodes_numbers. apply (f_equal length) in H. by rewrite length_map, length_seq in H. Qed.

(** The rows of a stream in order. *)
Lemma encodes_filter_after k ds log v : encodes decode k ds log ->
  List.filter (fun d => (v <? er_sequenceNumber d)%nat) ds = drop (v - k) ds.
Proof.
  revert k log. induction ds as [| d ds IH]; intros k [| e log]; try done; [by rewrite drop_nil |].
  intros (Hd & _ & H). cbn [List.filter]. rewrite Hd. destruct (Nat.ltb_spec v (S k)) as [Hv | Hv].
  - replace (v - k)%nat with 0%nat by lia. rewrite (IH _ _ H).
    by replace (v - S k)%nat with 0%nat by lia.
  - replace (v - k)%nat with (S (v - S k)) by lia. apply (IH _ _ H).
Qed.
End encodes.

#[export] Instance filter_perm {A} (p : A -> bool) : Proper (Permutation ==> Permutation) (@List.filter A p).
Proof.
  induction 1 as [| x l l' _ IH | x y l | l1 l2 l3 _ IH1 _ IH2]; cbn; [done | | | by etrans].
  - by destruct (p x); rewrite ?IH.
  - destruct (p x), (p y); by constructor || reflexivity.
Qed.

(** ** An event table implements append-only streams *)

Lemma by_sequence_total : Total (le_of by_sequence).
Proof. intros a b. unfold le_of, by_sequence. rewrite !Nat.leb_le. lia. Qed.

Lemma by_sequence_trans : Transitive (le_of by_sequence).
Proof. intros a b c. unfold le_of, by_sequence. rewrite !Nat.leb_le. lia. Qed.

(** The rows of a stream. *)
Definition stream_data (name id : string) (l : list EventRow) : list EventData :=
  List.filter (in_stream name id) (map snd l).

Lemma filter_snd (p : EventData -> bool) (l : list EventRow) :
  map snd (List.filter (fun r => p (snd r)) l) = List.filter p (map snd l).
Proof. induction l as [| r l IH]; [done |]. cbn. destruct (p (snd r)); cbn; by rewrite IH. Qed.

Lemma Permutation_map_inv_l {A B} (f : A -> B) (l : list A) (l' : list B) :
  map f l ≡ₚ l' -> exists l2, l ≡ₚ l2 /\ map f l2 = l'.
Proof.
  intros H. symmetry in H. apply Permutation_map_inv in H as (l2 & -> & H). exists l2. by split.
Qed.

(** Two orders of the same rows by a number that tells them apart are equal. *)
Lemma sorted_by_number (ds ds' : list EventData) :
  ds ≡ₚ ds' -> NoDup (map er_sequenceNumber ds') ->
  StronglySorted (fun a b => er_sequenceNumber a <= er_sequenceNumber b)%nat ds ->
  StronglySorted (fun a b => er_sequenceNumber a <= er_sequenceNumber b)%nat ds' -> ds = ds'.
Proof.
  intros Hp Hnd H1 H2. eapply StronglySorted_unique_strong; [| exact H1 | exact H2 | exact Hp].
  intros x y Hx Hy Hxy Hyx. cbn in Hxy, Hyx. rewrite Hp in Hx.
  apply list_elem_of_lookup in Hx as [i Hi], Hy as [j Hj].
  assert (Hij : map er_sequenceNumber ds' !! i = map er_sequenceNumber ds' !! j)
    by (rewrite !list_lookup_fmap, Hi, Hj; cbn; f_equal; lia).
  assert (i = j) as -> by (eapply NoDup_lookup; [exact Hnd | | rewrite <- Hij]; rewrite list_lookup_fmap, Hi; done).
  congruence.
Qed.

Lemma StronglySorted_map {A B} (R : relation B) (f : A -> B) l :
  StronglySorted (fun a b => R (f a) (f b)) l -> StronglySorted R (map f l).
Proof.
  induction 1 as [| x l Hs IH Hall]; cbn; constructor; [done |].
  rewrite List.Forall_forall in *. intros y (z & <- & Hz)%List.in_map_iff. auto.
Qed.

Lemma StronglySorted_weaken {A} (R R' : relation A) l :
  (forall a b, R a b -> R' a b) -> StronglySorted R l -> StronglySorted R' l.
Proof.
  intros HR. induction 1 as [| x l Hs IH Hall]; constructor; [done |]. eapply List.Forall_impl; [| exact Hall]. auto.
Qed.

Lemma map_result_map {A B C} (f : B -> result C) (g : A -> B) l :
  map_result f (map g l) = map_result (fun x => f (g x)) l.
Proof. induction l as [| x l IH]; cbn; [done |]. destruct (f (g x)); cbn; [by rewrite IH | done]. Qed.

Lemma seq_sorted_by ds k n : map er_sequenceNumber ds = seq k n ->
  StronglySorted (fun a b => er_sequenceNumber a <= er_sequenceNumber b)%nat ds.
Proof.
  revert k n. induction ds as [| d ds IH]; intros k [| n]; cbn; try done; [constructor |].
  intros [= Hd Hds]. constructor; [by eapply IH |]. rewrite List.Forall_forall. intros y Hy.
  apply (List.in_map er_sequenceNumber) in Hy. rewrite Hds in Hy. apply List.in_seq in Hy. lia.
Qed.

Section event_table.
Context {D : Type} (t : Table D EventRow EventData) (rows : D -> list EventRow)
  (accepts : EventData -> Prop) (taken_error : js_error -> Prop) (affected : value -> Z)
  `{Hspec : !TableSpec t rows snd same_stream_number accepts taken_error affected}
  (decode : EventData -> result event).

(** The rows of [name] and [id] number and encode the events of the stream. *)
Definition holds_stream (l : list EventRow) (name id : string) (log : list event) : Prop :=
  exists ds, stream_data name id l ≡ₚ ds /\ encodes decode 0 ds log.

Definition implements (d : D) (s : AppendOnly.streams) : Prop :=
  forall name id, holds_stream (rows d) name id (s !!! (name, id)).

(** The numbers in a stream are those of its events. *)
Lemma stream_number l name id log r :
  holds_stream l name id log -> r ∈ map snd l -> in_stream name id r = true ->
  (1 <= er_sequenceNumber r <= length log)%nat.
Proof.
  intros (ds & Hds & Henc) Hr Hin. assert (Hd : r ∈ ds).
  { rewrite <- Hds. unfold stream_data. apply list_elem_of_In, List.filter_In. by rewrite <- list_elem_of_In. }
  apply list_elem_of_In, (List.in_map er_sequenceNumber) in Hd.
  rewrite (encodes_numbers decode 0 ds log Henc) in Hd. apply List.in_seq in Hd. lia.
Qed.

Lemma stream_answer (l found : list EventRow) name id log (after : nat -> bool) v :
  (forall n, (1 <= n)%nat -> after n = (v <? n)%nat) -> holds_stream l name id log ->
  answers {| q_where := fun r => in_stream name id (snd r) && after (er_sequenceNumber (snd r));
             q_order := Some by_sequence; q_limit := None |} l found ->
  map_result (fun r => decode (snd r)) found = Ok (drop v log).
Proof.
  intros Hafter Hl (full & Hfull & Hsort & ->). cbn [q_where q_order q_limit] in *.
  assert (Hnums : forall r, r ∈ map snd l -> in_stream name id r = true -> (1 <= er_sequenceNumber r)%nat)
    by (intros r Hr Hin; pose proof (stream_number l name id log r Hl Hr Hin); lia).
  destruct Hl as (ds & Hds & Henc).
  assert (Hperm : map snd full ≡ₚ drop v ds).
  { rewrite Hfull. rewrite (filter_snd (fun d => in_stream name id d && after (er_sequenceNumber d))).
    pose proof (encodes_filter_after decode 0 ds log v Henc) as Hf. rewrite Nat.sub_0_r in Hf. rewrite <- Hf, <- Hds.
    unfold stream_data. clear - Hafter Hnums. induction (map snd l) as [| d l' IH]; [done |]. cbn [List.filter].
    assert (IH' := IH (fun r Hr => Hnums r (list_elem_of_further _ _ _ Hr))).
    destruct (in_stream name id d) eqn:Hin; cbn [andb List.filter]; [| done].
    rewrite Hafter by (apply Hnums; [left | done]).
    destruct (v <? er_sequenceNumber d)%nat; by rewrite ?IH'. }
  pose proof (encodes_numbers decode 0 ds log Henc) as Hnum.
  assert (Hdrop : map er_sequenceNumber (drop v ds) = seq (S v) (length log - v))
    by (rewrite <- List.skipn_map, Hnum; apply drop_seq).
  assert (map snd full = drop v ds) as Heq.
  { apply sorted_by_number; [done | rewrite Hdrop; apply NoDup_seq | |].
    - apply StronglySorted_map. eapply StronglySorted_weaken; [| exact Hsort].
      intros a b. unfold le_of, by_sequence. by rewrite Nat.leb_le.
    - by eapply seq_sorted_by. }
  rewrite <- (map_result_map decode snd), Heq. eapply encodes_decode. by apply encodes_drop.
Qed.

(** A read of a stream. *)
Definition read_stream (q : query EventRow) : M D (list event) :=
  found <- tb_find t q ;; lift_result (map_result (fun r => decode (snd r)) found).

Lemma stream_ordering (p : EventRow -> bool) :
  ordering {| q_where := p; q_order := Some by_sequence; q_limit := None |}.
Proof. split; [apply by_sequence_total | apply by_sequence_trans]. Qed.

Lemma stream_has_number l name id log n :
  holds_stream l name id log -> (1 <= n <= length log)%nat ->
  exists r, r ∈ map snd l /\ in_stream name id r = true /\ er_sequenceNumber r = n.
Proof.
  intros (ds & Hds & Henc) Hn. assert (Hd : List.In n (map er_sequenceNumber ds)).
  { rewrite (encodes_numbers decode 0 ds log Henc). apply List.in_seq. lia. }
  apply List.in_map_iff in Hd as (r & Hr & Hd). apply list_elem_of_In in Hd. rewrite <- Hds in Hd.
  apply list_elem_of_In, List.filter_In in Hd as [Hd Hin]. exists r. by rewrite list_elem_of_In.
Qed.

Lemma same_stream_number_true a b name id : in_stream name id b = true ->
  same_stream_number a b = in_stream name id a && (er_sequenceNumber a =? er_sequenceNumber b)%nat.
Proof.
  unfold in_stream, same_stream_number. intros [H1 H2]%andb_true_iff.
  apply String.eqb_eq in H1 as ->, H2 as ->. done.
Qed.

Lemma new_rows_fit l name id log ns evs :
  holds_stream l name id log -> Forall (fun n => in_stream name id n = true) ns ->
  encodes decode (length log) ns evs -> fits same_stream_number snd l ns.
Proof.
  intros Hl Hns Henc. split.
  - clear Hl. revert Henc. generalize (length log). revert evs.
    induction ns as [| n ns IH]; intros [| e evs] k; try done; [constructor |].
    intros (Hk & _ & Henc). apply Forall_cons in Hns as [_ Hns]. constructor; [| by eapply IH].
    pose proof (encodes_numbers decode _ _ _ Henc) as Hnum. rewrite Forall_forall in *. intros m Hm.
    rewrite (same_stream_number_true n m name id) by by apply Hns.
    apply list_elem_of_In, (List.in_map er_sequenceNumber) in Hm. rewrite Hnum in Hm. apply List.in_seq in Hm.
    rewrite (proj2 (Nat.eqb_neq _ _)) by lia. apply andb_false_r.
  - intros r n Hr Hn. pose proof (encodes_numbers decode _ _ _ Henc) as Hnum.
    rewrite Forall_forall in Hns. rewrite (same_stream_number_true _ n name id) by by apply Hns.
    destruct (in_stream name id (snd r)) eqn:Hin; [| done]. cbn [andb].
    pose proof (stream_number l name id log (snd r) Hl) as Hr'.
    specialize (Hr' ltac:(apply list_elem_of_In, List.in_map; by apply list_elem_of_In) Hin).
    apply list_elem_of_In, (List.in_map er_sequenceNumber) in Hn. rewrite Hnum in Hn. apply List.in_seq in Hn.
    apply Nat.eqb_neq. lia.
Qed.

Lemma fitting_rows_append l name id log v ns evs : (v <= length log)%nat ->
  holds_stream l name id log -> Forall (fun n => in_stream name id n = true) ns ->
  encodes decode v ns evs -> fits same_stream_number snd l ns -> evs = [] \/ length log = v.
Proof.
  intros Hv Hl Hns Henc [_ Hfit]. destruct ns as [| n ns], evs as [| e evs]; try done; [by left |]. right.
  destruct Henc as (Hn & _). apply Forall_cons in Hns as [Hin _].
  destruct (Nat.eq_dec (length log) v) as [| Hne]; [done |].
  destruct (stream_has_number l name id log (S v) Hl ltac:(lia)) as (r & Hr & Hrin & Hrn).
  apply list_elem_of_In, List.in_map_iff in Hr as (row & <- & Hrow).
  specialize (Hfit row n ltac:(by apply list_elem_of_In) ltac:(left)).
  rewrite (same_stream_number_true _ n name id) in Hfit by done.
  rewrite Hrin, Hrn, Hn, Nat.eqb_refl in Hfit. done.
Qed.

Lemma read_stream_spec d s name id v (p : EventRow -> bool) (after : nat -> bool) :
  implements d s -> (forall n, (1 <= n)%nat -> after n = (v <? n)%nat) ->
  (forall r, p r = in_stream name id (snd r) && after (er_sequenceNumber (snd r))) ->
  wp (read_stream {| q_where := p; q_order := Some by_sequence; q_limit := None |})
     (fun events d' => implements d' s /\ events = drop v (s !!! (name, id))) (fun e d' => implements d' s /\ Drivers.other_failure e) d.
Proof.
  intros Hd Hafter Hp. unfold read_stream. rewrite wp_bind. eapply wp_mono; [by apply tb_find_spec, stream_ordering | |].
  - intros found d' [-> Hans]. rewrite wp_lift_result.
    assert (Hans' : answers {| q_where := fun r => in_stream name id (snd r) && after (er_sequenceNumber (snd r));
      q_order := Some by_sequence; q_limit := None |} (rows d) found)
      by (unfold answers in *; cbn in *; by rewrite <- (List.filter_ext _ _ Hp)).
    by rewrite (stream_answer (rows d) found name id _ after v Hafter (Hd name id) Hans').
  - by intros e d' [-> He].
Qed.

Lemma load_spec d s name id : implements d s ->
  wp (read_stream (stream_query name id)) (fun events d' => implements d' s /\ events = AppendOnly.load name id s)
    (fun e d' => implements d' s /\ Drivers.other_failure e) d.
Proof.
  intros Hd. eapply wp_mono; [apply (read_stream_spec d s name id 0 _ (fun _ => true) Hd) | |]; try done.
  - intros n Hn. symmetry. by apply Nat.ltb_lt.
  - intros r. by rewrite andb_true_r.
Qed.

Lemma loadAfter_spec d s name id v : implements d s ->
  wp (read_stream (stream_query_after name id v))
    (fun events d' => implements d' s /\ events = AppendOnly.loadAfterVersion name id v s) (fun e d' => implements d' s /\ Drivers.other_failure e) d.
Proof. intros Hd. by apply (read_stream_spec d s name id v _ (fun n => (v <? n)%nat)). Qed.

(** An insert of the rows of new events is an append. *)
Definition appended (name id : string) (v : nat) (ns : list EventData) (evs : list event) : Prop :=
  Forall (fun n => in_stream name id n = true) ns /\ encodes decode v ns evs.

Lemma snd_app (l new : list EventRow) ns : map snd new = ns -> map snd (l ++ new) = map snd l ++ ns.
Proof. intros <-. apply map_app. Qed.

Lemma holds_stream_app l new name id name' id' log ns evs :
  holds_stream l name' id' log -> map snd new = ns -> appended name id (length log) ns evs ->
  (name', id') = (name, id) -> holds_stream (l ++ new) name' id' (log ++ evs).
Proof.
  intros (ds & Hds & Henc) Hnew [Hns Hevs] [= -> ->]. exists (ds ++ ns). split; [| by apply encodes_app].
  unfold stream_data in *. rewrite (snd_app l new ns Hnew), List.filter_app, Hds. apply Permutation_app_head.
  clear - Hns. induction Hns as [| n ns Hn _ IH]; [done |]. cbn. by rewrite Hn, IH.
Qed.

Lemma holds_stream_other l new name id name' id' log ns :
  holds_stream l name' id' log -> map snd new = ns -> Forall (fun n => in_stream name id n = true) ns ->
  (name', id') <> (name, id) -> holds_stream (l ++ new) name' id' log.
Proof.
  intros (ds & Hds & Henc) Hnew Hns Hne. exists ds. split; [| done].
  unfold stream_data in *. rewrite (snd_app l new ns Hnew), List.filter_app, Hds. clear - Hns Hne.
  induction Hns as [| n ns Hn _ IH]; [by rewrite app_nil_r |]. cbn.
  destruct (in_stream name' id' n) eqn:E; [| done]. exfalso. apply Hne.
  unfold in_stream in *. apply andb_true_iff in Hn as [H1 H2], E as [H3 H4].
  apply String.eqb_eq in H1, H2, H3, H4. congruence.
Qed.

Lemma append_spec (insert : list EventData -> M D unit) d s name id v ns evs :
  (forall ns d, Forall accepts ns -> wp (insert ns)
     (fun _ d' => fits same_stream_number snd (rows d) ns /\ exists new, map snd new = ns /\ rows d' = rows d ++ new)
     (fun e d' => rows d' = rows d /\
        (taken_error e /\ ~ fits same_stream_number snd (rows d) ns \/ Drivers.other_failure e)) d) ->
  implements d s -> (v <= length (s !!! (name, id)))%nat -> Forall accepts ns -> ns <> [] ->
  appended name id v ns evs ->
  wp (insert ns) (fun _ d' => exists s', AppendOnly.save name id evs v s = Some s' /\ implements d' s')
     (fun e d' => implements d' s /\
        (taken_error e /\ AppendOnly.save name id evs v s = None \/ Drivers.other_failure e)) d.
Proof.
  intros Hins Hd Hv Hacc Hne Happ. assert (length evs <> 0%nat) as Hevs.
  { destruct Happ as [_ H]. rewrite <- (encodes_length decode _ _ _ H). by destruct ns. }
  unfold AppendOnly.save. rewrite (proj2 (Nat.eqb_neq _ _) Hevs).
  eapply wp_mono; [by apply Hins | |].
  - intros [] d' [Hfit (new & Hnew & Hrows)]. destruct Happ as [Hns Henc].
    destruct (fitting_rows_append (rows d) name id _ v ns evs Hv (Hd name id) Hns Henc Hfit) as [-> | Hlen]; [done |].
    rewrite Hlen, Nat.eqb_refl. eexists. split; [done |]. intros n i. rewrite Hrows.
    destruct (decide ((n, i) = (name, id))) as [E | E].
    + rewrite E, lookup_total_insert_eq. injection E as -> ->.
      eapply holds_stream_app; [apply Hd | exact Hnew | rewrite Hlen; by split | done].
    + rewrite lookup_total_insert_ne by done. by eapply holds_stream_other; [apply Hd | exact Hnew | exact Hns |].
  - intros e d' (Hrows & He). unfold implements. rewrite Hrows. split; [done |].
    destruct He as [[He Hviol] | He]; [left; split; [done |] | by right].
    destruct (Nat.eqb_spec (length (s !!! (name, id))) v) as [E | E]; [| done].
    exfalso. apply Hviol. destruct Happ as [Hns Henc].
    eapply new_rows_fit; [apply Hd | exact Hns | by rewrite E].
Qed.
End event_table.

(** ** A table of versioned rows implements compare-and-set *)

(** The row that a version check matches, and what the update makes of it. *)
Definition at_version (name id : string) (v : nat) (r : StateRow) : bool :=
  is_instance name id r && (sr_version r =? v)%nat.
Definition new_state (enc : value) (v : nat) (r : StateRow) : StateRow :=
  {| sr_name := sr_name r; sr_id := sr_id r; sr_state := enc; sr_version := v |}.

Lemma is_instance_eq name id name' id' r :
  is_instance name id r = true -> is_instance name' id' r = true -> (name', id') = (name, id).
Proof.
  unfold is_instance. intros [H1 H2]%andb_true_iff [H3 H4]%andb_true_iff.
  apply String.eqb_eq in H1, H2, H3, H4. congruence.
Qed.

Lemma same_instance_is name id r r' : is_instance name id r' = true -> same_instance r r' = is_instance name id r.
Proof.
  unfold is_instance, same_instance. intros [H1 H2]%andb_true_iff. apply String.eqb_eq in H1, H2. by rewrite H1, H2.
Qed.

Section state_table.
Context {D : Type} (t : Table D StateRow StateRow) (rows : D -> list StateRow)
  (accepts : StateRow -> Prop) (taken_error : js_error -> Prop) (affected : value -> Z)
  `{Hspec : !TableSpec t rows id same_instance accepts taken_error affected}
  (decode : value -> result value).

Definition holds_cell (l : list StateRow) (name id : string) (c : option (value * nat)) : Prop :=
  match c with
  | None => List.filter (is_instance name id) l = []
  | Some (state, v) => exists r, List.filter (is_instance name id) l = [r] /\
      decode (sr_state r) = Ok state /\ sr_version r = v /\ (1 <= v)%nat
  end.

Definition holds_cells (d : D) (s : CompareAndSet.cells) : Prop :=
  forall name id, holds_cell (rows d) name id (s !! (name, id)).

(** Reading the row of an instance. *)
Definition read_cell (limit : option nat) (name id : string) : M D (option (value * nat)) :=
  found <- tb_find t {| q_where := is_instance name id; q_order := None; q_limit := limit |} ;;
  match found with
  | [] => ret None
  | row :: _ => state <- lift_result (decode (sr_state row)) ;; ret (Some (state, sr_version row))
  end.

Lemma cell_answer l found limit name id c : limit <> Some 0%nat -> holds_cell l name id c ->
  answers {| q_where := is_instance name id; q_order := None; q_limit := limit |} l found ->
  found = List.filter (is_instance name id) l.
Proof.
  intros Hlim Hc (full & Hfull & _ & ->). cbn in *.
  assert (full = List.filter (is_instance name id) l /\ (length full <= 1)%nat) as [-> Hlen].
  { destruct c as [[state v] |]; [destruct Hc as (r & Hr & _); rewrite Hr in * | cbn in Hc; rewrite Hc in *].
    - apply Permutation_sym, Permutation_length_1_inv in Hfull as ->. by split.
    - apply Permutation_sym, Permutation_nil in Hfull as ->. split; [done | cbn; lia]. }
  destruct limit as [[| n] |]; [done | | done]. apply take_ge. cbn. lia.
Qed.

Lemma read_cell_spec d s limit name id : limit <> Some 0%nat -> holds_cells d s ->
  wp (read_cell limit name id) (fun found d' => holds_cells d' s /\ found = s !! (name, id))
     (fun e d' => holds_cells d' s /\ Drivers.other_failure e) d.
Proof.
  intros Hlim Hd. unfold read_cell. rewrite wp_bind. eapply wp_mono; [by apply tb_find_spec | |].
  - intros found d' [-> Hans]. rewrite (cell_answer _ _ _ _ _ _ Hlim (Hd name id) Hans).
    pose proof (Hd name id) as Hc. destruct (s !! (name, id)) as [[state v] |]; cbn in Hc.
    + destruct Hc as (r & -> & Hr & Hv & _). rewrite wp_bind, wp_lift_result, Hr, wp_ret, Hv. done.
    + by rewrite Hc.
  - by intros e d' [-> He].
Qed.

Lemma holds_cell_snoc l r name id name' id' c c' :
  holds_cell l name' id' c -> is_instance name id r = true ->
  (if decide ((name', id') = (name, id)) then c = None /\ exists state, c' = Some (state, sr_version r) /\
     decode (sr_state r) = Ok state /\ (1 <= sr_version r)%nat else c' = c) ->
  holds_cell (l ++ [r]) name' id' c'.
Proof.
  intros Hc Hr. destruct (decide _) as [[= -> ->] | Hne].
  - intros [-> (state & -> & Hdec & Hv)]. cbn in *. exists r. rewrite List.filter_app, Hc. cbn. by rewrite Hr.
  - intros ->. assert (E : is_instance name' id' r = false).
    { destruct (is_instance name' id' r) eqn:E; [| done]. exfalso. by eapply Hne, is_instance_eq. }
    unfold holds_cell in *. rewrite List.filter_app. cbn. by rewrite E, app_nil_r.
Qed.

(** A new row. *)
Lemma insert_cell_spec d s name id enc j : holds_cells d s -> decode enc = Ok j ->
  accepts {| sr_name := name; sr_id := id; sr_state := enc; sr_version := 1 |} ->
  wp (tb_insert t [{| sr_name := name; sr_id := id; sr_state := enc; sr_version := 1 |}])
     (fun _ d' => exists s', CompareAndSet.save name id j 0 s = Some s' /\ holds_cells d' s')
     (fun e d' => holds_cells d' s /\
        (taken_error e /\ CompareAndSet.save name id j 0 s = None \/ Drivers.other_failure e)) d.
Proof.
  intros Hd Hdec Hnn. set (r := {| sr_name := name; sr_id := id; sr_state := enc; sr_version := 1 |}).
  assert (Hr : is_instance name id r = true) by (unfold is_instance; cbn; by rewrite !String.eqb_refl).
  assert (Hfit : fits same_instance Datatypes.id (rows d) [r] <-> s !! (name, id) = None).
  { pose proof (Hd name id) as Hc. split.
    - intros [_ Hfit]. destruct (s !! (name, id)) as [[state v] |]; [| done].
      destruct Hc as (r' & Hf & _). assert (Hin : List.In r' (List.filter (is_instance name id) (rows d))) by (rewrite Hf; by left).
      apply List.filter_In in Hin as [Hin Hr'%(eq_trans (same_instance_is name id r' r Hr))].
      specialize (Hfit r' r). cbn in Hfit. unfold Datatypes.id in Hfit.
      rewrite Hr' in Hfit. discriminate Hfit; [by apply list_elem_of_In | left].
    - intros E. rewrite E in Hc. cbn in Hc. split; [by repeat constructor |].
      intros r' n Hr' ->%list_elem_of_singleton. unfold Datatypes.id. rewrite (same_instance_is name id) by done.
      destruct (is_instance name id r') eqn:E'; [| done].
      assert (Hin : List.In r' (List.filter (is_instance name id) (rows d)))
        by (apply List.filter_In; by rewrite <- list_elem_of_In).
      by rewrite Hc in Hin. }
  unfold CompareAndSet.save, CompareAndSet.version. eapply wp_mono; [apply tb_insert_spec; by constructor | |].
  - intros [] d' [Hf (new & Hnew & Hrows)]. unfold Datatypes.id in Hnew. rewrite map_id in Hnew. subst new.
    apply Hfit in Hf as Hnone. rewrite Hnone. eexists. split; [done |]. intros n i. rewrite Hrows.
    eapply holds_cell_snoc; [apply Hd | exact Hr |]. destruct (decide ((n, i) = (name, id))) as [E | E].
    + rewrite E, lookup_insert_eq. split; [done |]. exists j. done.
    + by rewrite lookup_insert_ne.
  - intros e d' (Hrows & He). unfold holds_cells. rewrite Hrows. split; [done |].
    destruct He as [[He Hviol] | He]; [left; split; [done |] | by right]. destruct (s !! (name, id)) as [[state v] |] eqn:E; [| by destruct Hviol; apply Hfit].
    pose proof (Hd name id) as Hc. rewrite E in Hc. destruct Hc as (_ & _ & _ & _ & Hv1).
    by destruct (Nat.eqb_spec v 0); [lia |].
Qed.

Lemma filter_map_update (p : StateRow -> bool) f name id l :
  (forall r, is_instance name id (f r) = is_instance name id r) ->
  List.filter (is_instance name id) (map (fun r => if p r then f r else r) l)
  = map (fun r => if p r then f r else r) (List.filter (is_instance name id) l).
Proof.
  intros Hf. induction l as [| r l IH]; [done |]. cbn.
  assert (is_instance name id (if p r then f r else r) = is_instance name id r) as -> by (by destruct (p r)).
  destruct (is_instance name id r); cbn; by rewrite IH.
Qed.

Lemma at_version_filter name id v l :
  List.filter (at_version name id v) l = List.filter (fun r => (sr_version r =? v)%nat) (List.filter (is_instance name id) l).
Proof.
  induction l as [| r l IH]; [done |]. cbn. unfold at_version at 1.
  destruct (is_instance name id r); cbn; [destruct (sr_version r =? v)%nat; by rewrite IH | done].
Qed.

(** Checking the version and writing are one statement. *)
Lemma update_cell_spec d s name id enc j v : holds_cells d s -> decode enc = Ok j ->
  (forall r, accepts (new_state enc (S v) r)) -> v <> 0%nat ->
  wp (tb_update t (at_version name id v) (new_state enc (S v)))
     (fun r d' => if (affected r =? 0)%Z then CompareAndSet.save name id j v s = None /\ holds_cells d' s
        else exists s', CompareAndSet.save name id j v s = Some s' /\ holds_cells d' s')
     (fun e d' => holds_cells d' s /\ Drivers.other_failure e) d.
Proof.
  intros Hd Hdec Hnn Hv0. eapply wp_mono; [apply tb_update_spec | |].
  { intros r _ _ _. split; [apply Hnn |]. intros n. done. }
  2: { intros e d' [Hrows Hce]. unfold holds_cells. by rewrite Hrows. }
  intros r d' [Hrows ->]. rewrite at_version_filter. unfold CompareAndSet.save, CompareAndSet.version.
  assert (Hcells : forall n i, List.filter (is_instance n i) (rows d')
    = map (fun r => if at_version name id v r then new_state enc (S v) r else r) (List.filter (is_instance n i) (rows d)))
    by (intros n i; rewrite Hrows; by apply filter_map_update).
  assert (Hsame : forall n i, (n, i) <> (name, id) -> holds_cell (rows d') n i (s !! (n, i))).
  { intros n i Hne. pose proof (Hd n i) as Hc. unfold holds_cell in *. rewrite Hcells.
    destruct (s !! (n, i)) as [[state w] |]; [| by rewrite Hc].
    destruct Hc as (r' & Hf & Hr'). exists r'. split; [| done]. rewrite Hf. cbn.
    assert (Hi : is_instance n i r' = true) by (apply (List.filter_In _ r' (rows d)); rewrite Hf; by left).
    unfold at_version. destruct (is_instance name id r') eqn:E; [| done]. exfalso. by eapply Hne, is_instance_eq. }
  pose proof (Hd name id) as Hc. specialize (Hcells name id). destruct (s !! (name, id)) as [[state w] |] eqn:Es.
  - destruct Hc as (r' & Hf & Hr' & <- & Hw). rewrite Hf in *. cbn in Hcells |- *.
    assert (Hi : is_instance name id r' = true) by (apply (List.filter_In _ r' (rows d)); rewrite Hf; by left).
    unfold at_version in Hcells. rewrite Hi in Hcells. cbn in Hcells. destruct (Nat.eqb_spec (sr_version r') v) as [<- | Hne]; cbn.
    + eexists. split; [done |]. intros n i. destruct (decide ((n, i) = (name, id))) as [E | E].
      * rewrite E, lookup_insert_eq. injection E as -> ->. cbn. exists (new_state enc (S (sr_version r')) r').
        split; [done |]. repeat split; [done | cbn; lia].
      * rewrite lookup_insert_ne by done. by apply Hsame.
    + split; [done |]. intros n i. destruct (decide ((n, i) = (name, id))) as [[= -> ->] | E]; [| by apply Hsame].
      rewrite Es. by exists r'.
  - cbn in Hc. rewrite Hc in *. cbn. destruct v as [| v]; [done |]. split; [done |].
    intros n i. destruct (decide ((n, i) = (name, id))) as [[= -> ->] | E]; [| by apply Hsame]. by rewrite Es.
Qed.
End state_table.

(** ** Columns of JSON *)

Lemma text_column_ok v j : ordered v -> json_of v = Ok (Some j) ->
  exists t, text_column v = Ok (VStr t) /\ read_column (VStr t) = Ok j.
Proof.
  intros Ho Hj. exists (string_of (print j)). unfold text_column, stringify. rewrite Hj. split; [done |].
  cbn. apply parse_print. by eapply json_of_is_json.
Qed.

(** What a column holds is read back. *)
Lemma json_column_ok nativeJson v j : storable nativeJson v -> json_of v = Ok (Some j) ->
  exists c, json_column nativeJson v = Ok c /\ read_column c = Ok j /\ column_accepted nativeJson c.
Proof.
  destruct nativeJson; cbn.
  - intros [Hv Hs] Hj. rewrite (json_of_json v Hv) in Hj. injection Hj as <-. exists v. split; [done |].
    unfold column_accepted. by destruct v.
  - intros [Ho _] Hj. destruct (text_column_ok v j Ho Hj) as (t & Ht & Hr). by exists (VStr t).
Qed.

Lemma storable_json nativeJson v : storable nativeJson v -> exists j, json_of v = Ok (Some j).
Proof. destruct nativeJson; [intros [Hv _]; exists v; by apply json_of_json | by intros [_ H]]. Qed.

(** [events.map((event, index) => ...)]: the rows of new events. *)
Lemma map_index_rows (f : nat -> event -> result EventData) (decode : EventData -> result event)
    (accepts : EventData -> Prop) name id v (events : list event) : forall k,
  (forall index e, e ∈ events -> exists row, f index e = Ok row /\ accepts row /\
     in_stream name id row = true /\ er_sequenceNumber row = (v + index + 1)%nat /\ decode row = Ok (wire_event e)) ->
  exists ns, map_index f k events = Ok ns /\ Forall accepts ns /\ length ns = length events /\
    appended decode name id (v + k) ns (map wire_event events).
Proof.
  induction events as [| e events IH]; intros k H; [by exists [] |].
  destruct (H k e) as (row & Hrow & Hacc & Hin & Hn & Hdec); [left |].
  destruct (IH (S k)) as (ns & Hns & Haccs & Hlen & Happ & Henc); [intros; apply H; by right |].
  exists (row :: ns). cbn. rewrite Hrow. cbn. rewrite Hns. split; [done |]. split; [by constructor |].
  split; [by rewrite Hlen |]. split; [by constructor |]. cbn.
  split; [lia |]. split; [done |]. by replace (S (v + k)) with (v + S k)%nat by lia.
Qed.

Lemma parse_empty : parse EmptyString = Err SyntaxError.
Proof. reflexivity. Qed.

(** The rows of Prisma and TypeORM. *)
Lemma text_event_row_ok now name id v index e : event_storable false e ->
  exists row, text_event_row now name id v index e = Ok row /\ event_accepted false row /\
    in_stream name id row = true /\ er_sequenceNumber row = (v + index + 1)%nat /\
    text_row_event row = Ok (wire_event e).
Proof.
  intros [(Ho & _ & Hmd) [_ [j Hj]]]. destruct (text_column_ok (ev_payload e) j Ho Hj) as (p & Hp & Hread).
  assert (Hw : wire_event e = with_payload e j) by (unfold wire_event, payload_json; by rewrite Hj).
  unfold text_event_row. rewrite Hp, Hw. cbn [result_bind]. destruct e as [nm pl [md |]]; cbn in *.
  - pose proof (is_json_metadata md Hmd) as Hmj.
    destruct (text_column_ok (metadata_value md) (metadata_value md)) as (m & Hm & Hmr);
      [by apply is_json_ordered | by apply json_of_json |].
    cbn in Hmr. rewrite Hm. eexists. split; [done |]. split; [done |].
    split; [unfold in_stream; cbn; by rewrite !String.eqb_refl |]. split; [done |].
    unfold text_row_event. cbn. rewrite Hread. cbn -[metadata_value]. rewrite Hmr. cbn -[metadata_value].
    destruct (String.eqb_spec m EmptyString) as [-> |]; [by rewrite parse_empty in Hmr |]. cbn -[metadata_value].
    unfold make_event. pose proof (metadata_read md Hmd) as Hr. unfold metadata_value in *. cbn [nullish]. by rewrite Hr.
  - eexists. split; [done |]. split; [done |].
    split; [unfold in_stream; cbn; by rewrite !String.eqb_refl |]. split; [done |].
    unfold text_row_event. cbn. by rewrite Hread.
Qed.

Lemma text_rows now name id v events : Forall (event_storable false) events ->
  exists ns, map_index (text_event_row now name id v) 0 events = Ok ns /\ Forall (event_accepted false) ns /\
    length ns = length events /\ appended text_row_event name id v ns (map wire_event events).
Proof.
  intros Hok. destruct (map_index_rows (text_event_row now name id v) text_row_event (event_accepted false)
    name id v events 0) as (ns & Hns & Hacc & Hlen & Happ).
  - intros index e He. apply text_event_row_ok. rewrite Forall_forall in Hok. by apply Hok.
  - exists ns. by rewrite Nat.add_0_r in Happ.
Qed.

Lemma text_state_column state j : text_storable state -> json_of state = Ok (Some j) ->
  exists c, text_column state = Ok c /\ parse_column c = Ok j /\
    forall n i w, state_accepted false {| sr_name := n; sr_id := i; sr_state := c; sr_version := w |}.
Proof.
  intros [Ho _] Hj. destruct (text_column_ok state j Ho Hj) as (t & Ht & Hr). by exists (VStr t).
Qed.

(** ** Saving events *)

Section save_events.
Context {D : Type} (t : Table D EventRow EventData) (rows : D -> list EventRow)
  (accepts : EventData -> Prop) (taken_error : js_error -> Prop) (affected : value -> Z)
  `{Hspec : !TableSpec t rows snd same_stream_number accepts taken_error affected}
  (decode : EventData -> result event) (insert : list EventData -> M D unit).
Hypothesis Hinsert : forall ns d, Forall accepts ns -> wp (insert ns)
  (fun _ d' => fits same_stream_number snd (rows d) ns /\ exists new, map snd new = ns /\ rows d' = rows d ++ new)
  (fun e d' => rows d' = rows d /\
     (taken_error e /\ ~ fits same_stream_number snd (rows d) ns \/ Drivers.other_failure e)) d.
Context (violation : js_error -> bool) `{Hrec : !Recognises violation taken_error}.

(** The rows of new events, inserted, and a taken number turned into a conflict. *)
Definition save_rows (name id : string) (v : nat) (ns : list EventData) : M D unit :=
  try_catch (insert ns) (fun error =>
    if violation error then throw (ConcurrencyError name (IdStr id) v (-1)) else throw error).

Lemma save_rows_spec d s name id events v ns : implements rows decode d s ->
  (v <= length (AppendOnly.load name id s))%nat -> Forall accepts ns -> length ns = length events ->
  events <> [] -> appended decode name id v ns (map wire_event events) ->
  wp (save_rows name id v ns)
     (fun _ d' => exists s', AppendOnly.save name id (map wire_event events) v s = Some s' /\ implements rows decode d' s')
     (fun e d' => implements rows decode d' s /\
        (conflict_error name id v e /\ AppendOnly.save name id (map wire_event events) v s = None \/
         Drivers.other_failure e)) d.
Proof.
  intros Hd Hv Hacc Hlen Hne Happ. unfold save_rows. rewrite wp_try_catch.
  eapply wp_mono; [eapply append_spec; try done; by destruct ns, events | by intros [] d' |].
  intros e d' (Hd' & [[He Hnone] | He]).
  - rewrite (recognises_taken e He), wp_throw. split; [done |]. left. by split; [eexists |].
  - rewrite (recognises_other e He), wp_throw. split; [done | by right].
Qed.
End save_events.

(** Writing a versioned state: an insert that may find the key taken, or an update that
    may match no row. *)
Section save_state.
Context {D : Type} (t : Table D StateRow StateRow) (rows : D -> list StateRow)
  (accepts : StateRow -> Prop) (taken_error : js_error -> Prop) (affected : value -> Z)
  `{Hspec : !TableSpec t rows id same_instance accepts taken_error affected} (decode : value -> result value)
  (violation : js_error -> bool) `{Hrec : !Recognises violation taken_error}.

Definition write_state (none_matched : value -> bool) (name id : string) (enc : value) (v : nat) : M D unit :=
  if (v =? 0)%nat then
    try_catch (tb_insert t [{| sr_name := name; sr_id := id; sr_state := enc; sr_version := 1 |}])
      (fun error => if violation error then throw (ConcurrencyError name (IdStr id) v (-1)) else throw error)
  else
    result <- tb_update t (at_version name id v) (new_state enc (S v)) ;;
    if none_matched result then throw (ConcurrencyError name (IdStr id) v (-1)) else ret tt.

Lemma write_state_spec none_matched d s name id enc j v :
  (forall r, none_matched r = (affected r =? 0)%Z) ->
  holds_cells rows decode d s -> decode enc = Ok j ->
  (forall n i w, accepts {| sr_name := n; sr_id := i; sr_state := enc; sr_version := w |}) ->
  wp (write_state none_matched name id enc v)
     (fun _ d' => exists s', CompareAndSet.save name id j v s = Some s' /\ holds_cells rows decode d' s')
     (fun e d' => holds_cells rows decode d' s /\
        (conflict_error name id v e /\ CompareAndSet.save name id j v s = None \/ Drivers.other_failure e)) d.
Proof.
  intros Hnone Hd Hdec Hacc. unfold write_state. destruct (Nat.eqb_spec v 0) as [-> | Hv].
  - rewrite wp_try_catch. eapply wp_mono; [by eapply insert_cell_spec | by intros [] d' |].
    intros e d' (Hd' & [[He Hnone'] | He]).
    + rewrite (recognises_taken e He), wp_throw. split; [done |]. left. by split; [eexists |].
    + rewrite (recognises_other e He), wp_throw. split; [done | by right].
  - rewrite wp_bind. eapply wp_mono; [eapply update_cell_spec; try done; by intros r; apply Hacc | |].
    + intros r d'. rewrite Hnone. destruct (affected r =? 0)%Z; [| by rewrite wp_ret].
      intros [Hnone' Hd']. rewrite wp_throw. split; [done |]. left. by split; [eexists |].
    + intros e d' [Hd' He]. split; [done | by right].
Qed.
End save_state.

(** ** Keyset pagination reads the whole log

    The loop of the three event readers. *)
Section read_loop.
Context {D : Type} (t : Table D EventRow EventData) (decode : EventRow -> result event) (batchSize : nat).
Fixpoint read_log (fuel : nat) (aggregateName : option string) (cursor : Z) : M D (option (list event)) :=
  match fuel with
  | O => ret None
  | S fuel' =>
      rows <- tb_find t (batch_query cursor aggregateName batchSize) ;;
      if (length rows =? 0)%nat then ret (Some []) else
      events <- lift_result (map_result decode rows) ;;
      if (length rows <? batchSize)%nat then ret (Some events) else
      rest <- read_log fuel' aggregateName (or_default (option_map er_id (last rows)) cursor) ;;
      ret (option_map (app events) rest)
  end.
End read_loop.

Lemma by_id_total : Total (le_of by_id).
Proof. intros a b. unfold le_of, by_id. rewrite !Z.leb_le. lia. Qed.
Lemma by_id_trans : Transitive (le_of by_id).
Proof. intros a b c. unfold le_of, by_id. rewrite !Z.leb_le. lia. Qed.

Definition after_id (cursor : Z) (r : EventRow) : bool := (cursor <? er_id r)%Z.
Definition of_aggregate (aggregateName : option string) (r : EventRow) : bool :=
  match aggregateName with
  | Some n => if String.eqb n EmptyString then true else String.eqb (er_aggregateName (snd r)) n
  | None => true
  end.

(** [full] is the log in the order of the generated identifiers. *)
Definition in_id_order (full : list EventRow) : Prop := StronglySorted (fun a b => (er_id a < er_id b)%Z) full.

Lemma in_id_order_filter p full : in_id_order full -> in_id_order (List.filter p full).
Proof.
  unfold in_id_order. induction 1 as [| r l Hs IH Hall]; cbn; [constructor |].
  destruct (p r); [| done]. constructor; [done |].
  rewrite List.Forall_forall in *. intros x [Hx _]%List.filter_In. by apply Hall.
Qed.

Lemma sorted_by_id (found full : list EventRow) :
  found ≡ₚ full -> StronglySorted (le_of by_id) found -> in_id_order full -> found = full.
Proof.
  intros Hp Hs Hfull. eapply StronglySorted_unique_strong; [| exact Hs | | exact Hp].
  - intros x y Hx Hy Hxy Hyx. rewrite Hp in Hx. unfold le_of, by_id in *. rewrite Z.leb_le in *.
    clear Hs Hp. induction Hfull as [| r l Hs IH Hall]; [by apply not_elem_of_nil in Hx |].
    rewrite List.Forall_forall in Hall.
    apply elem_of_cons in Hx as [-> | Hx], Hy as [-> | Hy]; [done | | | by apply IH];
      [apply list_elem_of_In, Hall in Hy; cbn in Hy | apply list_elem_of_In, Hall in Hx; cbn in Hx]; lia.
  - eapply StronglySorted_weaken; [| exact Hfull]. intros a b Hab. unfold le_of, by_id. cbn in Hab. apply Z.leb_le. lia.
Qed.

(** The rows after the last row of a batch are those that the batch left. *)
Lemma after_batch (l : list EventRow) (cursor : Z) b r : in_id_order l ->
  last (take b (List.filter (after_id cursor) l)) = Some r ->
  List.filter (after_id (er_id r)) l = drop b (List.filter (after_id cursor) l).
Proof.
  intros Hl Hlast. set (g := List.filter (after_id cursor) l) in *.
  assert (Hg : in_id_order g) by by apply in_id_order_filter.
  apply last_Some in Hlast as [front Hfront].
  assert (Hrg : List.In r g).
  { rewrite <- (take_drop b g), Hfront. apply List.in_or_app. left. apply List.in_or_app. right. by left. }
  apply List.filter_In in Hrg as [_ Hr]. unfold after_id in Hr. apply Z.ltb_lt in Hr.
  assert (E : List.filter (after_id (er_id r)) l = List.filter (after_id (er_id r)) g).
  { subst g. clear - Hr. induction l as [| x l IH]; [done |]. cbn.
    destruct (after_id cursor x) eqn:E1; cbn; destruct (after_id (er_id r) x) eqn:E2; rewrite ?IH; try done.
    apply Z.ltb_lt in E2. apply Z.ltb_ge in E1. lia. }
  rewrite E, <- (take_drop b g) at 1. rewrite Hfront in *. rewrite <- (take_drop b g), Hfront in Hg.
  assert (Hself : after_id (er_id r) r = false) by (apply Z.ltb_ge; lia).
  rewrite !List.filter_app. cbn. rewrite Hself, app_nil_r. clear Hself.
  revert Hg. generalize (drop b g). clear. intros rest Hg.
  induction front as [| x front IH]; cbn in *.
  - apply StronglySorted_inv in Hg as [_ Hall]. rewrite List.Forall_forall in Hall.
    assert (forall x, List.In x rest -> after_id (er_id r) x = true) as H
      by (intros x Hx; apply Z.ltb_lt; exact (Hall x Hx)).
    clear Hall. induction rest as [| x rest IH]; [done |]. cbn. rewrite H by by left. f_equal. apply IH.
    intros y Hy. apply H. by right.
  - apply StronglySorted_inv in Hg as [Hg Hall].
    rewrite List.Forall_forall in Hall. specialize (Hall r ltac:(apply List.in_or_app; left; apply List.in_or_app; right; by left)). cbn in Hall.
    assert (after_id (er_id r) x = false) as -> by (apply Z.ltb_ge; lia). by apply IH.
Qed.

Lemma map_result_total {A B} (f : A -> result B) l :
  (forall x, List.In x l -> exists y, f x = Ok y) -> exists ys, map_result f l = Ok ys.
Proof.
  induction l as [| x l IH]; intros H; [by exists [] |]. cbn. destruct (H x) as [y ->]; [by left |].
  destruct IH as [ys ->]; [intros z Hz; apply H; by right |]. by exists (y :: ys).
Qed.

Lemma map_result_split {A B} (f : A -> result B) n : forall l ys, map_result f l = Ok ys ->
  exists ys1 ys2, ys = ys1 ++ ys2 /\ map_result f (take n l) = Ok ys1 /\ map_result f (drop n l) = Ok ys2.
Proof.
  induction n as [| n IH]; intros l ys H; [exists [], ys; by rewrite take_0, drop_0 |].
  destruct l as [| x l]; [injection H as <-; by exists [], [] |]. cbn in *.
  destruct (f x) as [y |]; [| done]. cbn in *. destruct (map_result f l) as [zs |] eqn:E; [| done]. injection H as <-.
  destruct (IH l zs E) as (z1 & z2 & -> & H1 & H2). exists (y :: z1), z2. cbn. by rewrite H1.
Qed.

Section read_log.
Context {D : Type} (t : Table D EventRow EventData) (rows : D -> list EventRow)
  (accepts : EventData -> Prop) (taken_error : js_error -> Prop) (affected : value -> Z)
  `{Hspec : !TableSpec t rows snd same_stream_number accepts taken_error affected}
  (decode : EventRow -> result event) (batchSize : nat) (aggregateName : option string).
Hypothesis Hbatch : (1 <= batchSize)%nat.

Lemma batch_answer d found cursor full : List.filter (of_aggregate aggregateName) (rows d) ≡ₚ full -> in_id_order full ->
  answers (batch_query cursor aggregateName batchSize) (rows d) found ->
  found = take batchSize (List.filter (after_id cursor) full).
Proof.
  intros Hperm Hfull (l & Hl & Hs & ->). cbn in *. f_equal. apply sorted_by_id; [| done | by apply in_id_order_filter].
  rewrite Hl, <- Hperm. clear. induction (rows d) as [| r l IH]; [done |]. cbn.
  fold (of_aggregate aggregateName r). fold (after_id cursor r).
  destruct (of_aggregate aggregateName r); cbn; [| by rewrite andb_false_r].
  rewrite andb_true_r. by destruct (after_id cursor r); rewrite ?IH.
Qed.

Lemma read_log_from d full : List.filter (of_aggregate aggregateName) (rows d) ≡ₚ full -> in_id_order full ->
  (forall r, r ∈ full -> exists e, decode r = Ok e) ->
  forall fuel cursor, (length (List.filter (after_id cursor) full) < fuel)%nat ->
  wp (read_log t decode batchSize fuel aggregateName cursor)
     (fun found d' => d' = d /\ exists events, found = Some events /\
        map_result decode (List.filter (after_id cursor) full) = Ok events)
     (fun e d' => d' = d /\ Drivers.other_failure e) d.
Proof.
  intros Hperm Hfull Hdec. induction fuel as [| fuel IH]; intros cursor Hlen; [lia |]. cbn [read_log].
  rewrite wp_bind. eapply wp_mono; [apply tb_find_spec; split; [apply by_id_total | apply by_id_trans] | | done].
  intros found d' [-> Hans]. rewrite (batch_answer d found cursor full Hperm Hfull Hans). clear Hans found.
  set (g := List.filter (after_id cursor) full) in *.
  assert (Hg : forall r, List.In r g -> exists e, decode r = Ok e)
    by (intros r [Hr _]%List.filter_In; by apply Hdec, list_elem_of_In).
  destruct (map_result_total decode g Hg) as [events Hev].
  rewrite length_take. destruct (Nat.eqb_spec (Nat.min batchSize (length g)) 0) as [E | E].
  { rewrite wp_ret. split; [done |]. assert (g = []) as -> by (apply nil_length_inv; lia). by exists []. }
  destruct (map_result_split decode batchSize g events Hev) as (evs1 & evs2 & -> & H1 & H2).
  rewrite wp_bind, wp_lift_result, H1.
  destruct (Nat.ltb_spec (Nat.min batchSize (length g)) batchSize) as [Hlt | Hge].
  { rewrite wp_ret. split; [done |]. rewrite drop_ge in H2 by lia. injection H2 as <-. rewrite app_nil_r in Hev.
    by exists evs1. }
  destruct (last (take batchSize g)) as [r |] eqn:Hlast;
    [| apply last_None in Hlast; apply (f_equal length) in Hlast; rewrite length_take in Hlast; cbn in Hlast; lia].
  cbn [option_map or_default]. pose proof (after_batch full cursor batchSize r Hfull Hlast) as Hrest. fold g in Hrest.
  rewrite wp_bind. eapply wp_mono; [apply IH; rewrite Hrest, length_drop; lia | | done].
  intros found d' (-> & events' & -> & Hev'). rewrite wp_ret. split; [done |]. rewrite Hrest, H2 in Hev'.
  injection Hev' as <-. by exists (evs1 ++ evs2).
Qed.
End read_log.
