(* ===== verification/DrizzleStores.v ===== *)
(** The stores of the Drizzle adapter ([adapters/drizzle/src]): [persistence.ts],
    [event-reader.ts], [event-idempotency.ts], [rows-affected.ts],
    [dedicated-state-persistence.ts] and [json-state-mapper.ts].  The tables that the
    query builder gives are those of [Sql.v]; [executor] is the transaction of the
    running unit of work, or the database; [now] is the reading of the clock. *)
From S2P Require Import Prelude Text Json JsMap CoreTypes Errors Wire Stores Sql SqlRefine.

(** [getRowsAffected] of [rows-affected.ts] *)
Definition getRowsAffected (result : value) : value :=
  coalesce (read_prop "rowsAffected" result)
  (coalesce (read_prop "changes" result)
  (coalesce (read_prop "rowCount" result)
  (coalesce (read_prop "count" result)
  (coalesce (read_prop "affectedRows" result)
  (coalesce (read_prop "affectedRows" (match result with VArr (first :: _) => first | _ => VUndefined end))
  (VNum 0)))))).

(** ** The tables *)

Record DrizzleExecutor (D : Type) : Type := {
  dx_events : Table D EventRow EventData;
  dx_aggregateStates : Table D StateRow StateRow;
  dx_sagaStates : Table D StateRow StateRow;
  dx_snapshots : option (Table D StateRow StateRow);
  dx_outbox : Table D OutboxRow OutboxRow;
  dx_idempotency : Table D IdempotencyRow IdempotencyRow
}.
Arguments dx_events {D} _.
Arguments dx_aggregateStates {D} _.
Arguments dx_sagaStates {D} _.
Arguments dx_snapshots {D} _.
Arguments dx_outbox {D} _.
Arguments dx_idempotency {D} _.

(** ** DrizzleEventSourcedAggregatePersistence *)

Module DrizzleEvents.

Definition event_row (nativeJson : bool) (now : Z) (aggregateName aggregateId : string) (expectedVersion : nat)
    (index : nat) (e : event) : result EventData :=
  result_bind (json_column nativeJson (ev_payload e)) (fun payload =>
  result_bind (json_column nativeJson (match ev_metadata e with Some md => metadata_value md | None => VNull end))
    (fun metadata =>
  result_bind (toDbTimestamp (or_default (metadata_req md_timestamp e) now)) (fun createdAt =>
  Ok {| er_aggregateName := aggregateName; er_aggregateId := aggregateId;
        er_sequenceNumber := expectedVersion + index + 1; er_eventName := ev_name e;
        er_payload := payload; er_metadata := metadata; er_createdAt := VStr createdAt |}))).

(** [deserializeEvent] *)
Definition deserializeEvent (row : EventData) : result event :=
  result_bind (read_column (er_payload row)) (fun payload =>
  if nullish (er_metadata row) then make_event (er_eventName row) payload VUndefined
  else result_bind (read_column (er_metadata row)) (fun meta => make_event (er_eventName row) payload meta)).

Section methods.
Context {D : Type} (store : option (DrizzleExecutor D)) (db : DrizzleExecutor D) (nativeJson : bool).

Definition save (now : Z) (aggregateName aggregateId : string) (events : list event) (expectedVersion : nat) : M D unit :=
  if (length events =? 0)%nat then ret tt else
  let eventsTable := dx_events (getExecutor store db) in
  try_catch
    (rows <- lift_result (map_index (event_row nativeJson now aggregateName aggregateId expectedVersion) 0 events) ;;
     tb_insert eventsTable rows)
    (fun error =>
       if DrizzleErrors.isUniqueViolation error
       then throw (ConcurrencyError aggregateName (IdStr aggregateId) expectedVersion (-1))
       else throw error).

Definition load (aggregateName aggregateId : string) : M D (list event) :=
  rows <- tb_find (dx_events (getExecutor store db)) (stream_query aggregateName aggregateId) ;;
  lift_result (map_result (fun row => deserializeEvent (snd row)) rows).

Definition loadAfterVersion (aggregateName aggregateId : string) (afterVersion : nat) : M D (list event) :=
  rows <- tb_find (dx_events (getExecutor store db)) (stream_query_after aggregateName aggregateId afterVersion) ;;
  lift_result (map_result (fun row => deserializeEvent (snd row)) rows).
End methods.
End DrizzleEvents.

(** ** DrizzleStateStoredAggregatePersistence *)

Module DrizzleStates.
Section methods.
Context {D : Type} (store : option (DrizzleExecutor D)) (db : DrizzleExecutor D) (nativeJson : bool).

Definition save (aggregateName aggregateId : string) (state : value) (expectedVersion : nat) : M D unit :=
  let table := dx_aggregateStates (getExecutor store db) in
  serialized <- lift_result (json_column nativeJson state) ;;
  if (expectedVersion =? 0)%nat then
    try_catch
      (tb_insert table [{| sr_name := aggregateName; sr_id := aggregateId; sr_state := serialized; sr_version := 1 |}])
      (fun error =>
         if DrizzleErrors.isUniqueViolation error
         then throw (ConcurrencyError aggregateName (IdStr aggregateId) expectedVersion (-1))
         else throw error)
  else
    result <- tb_update table (at_version aggregateName aggregateId expectedVersion)
                (new_state serialized (S expectedVersion)) ;;
    if is_number 0 (getRowsAffected result)
    then throw (ConcurrencyError aggregateName (IdStr aggregateId) expectedVersion (-1))
    else ret tt.

Definition load (aggregateName aggregateId : string) : M D (option (value * nat)) :=
  rows <- tb_find (dx_aggregateStates (getExecutor store db)) (where_ (is_instance aggregateName aggregateId)) ;;
  match rows with
  | [] => ret None
  | row :: _ => state <- lift_result (read_column (sr_state row)) ;; ret (Some (state, sr_version row))
  end.
End methods.
End DrizzleStates.

(** ** DrizzleSagaPersistence *)

Module DrizzleSagas.

(** The texts by which the class recognises a taken key. *)
Definition is_duplicate (error : js_error) : bool :=
  let message := text_or_empty (error_prop "message" error) in
  includes "UNIQUE constraint failed" message || includes "unique constraint" message ||
  includes "Duplicate entry" message || includes "duplicate key" message.

(** The class probes the result itself, without [count]. *)
Definition rowsAffected (result : value) : value :=
  coalesce (read_prop "rowsAffected" result)
  (coalesce (read_prop "changes" result)
  (coalesce (read_prop "rowCount" result)
  (coalesce (read_prop "affectedRows" result)
  (coalesce (read_prop "affectedRows" (match result with VArr (first :: _) => first | _ => VUndefined end))
  (VNum 0))))).

Section methods.
Context {D : Type} (store : option (DrizzleExecutor D)) (db : DrizzleExecutor D) (nativeJson : bool).

Definition save (sagaName sagaId : string) (state : value) (expectedVersion : nat) : M D unit :=
  let table := dx_sagaStates (getExecutor store db) in
  serialized <- lift_result (json_column nativeJson state) ;;
  if (expectedVersion =? 0)%nat then
    try_catch
      (tb_insert table [{| sr_name := sagaName; sr_id := sagaId; sr_state := serialized; sr_version := 1 |}])
      (fun error =>
         if is_duplicate error
         then throw (ConcurrencyError sagaName (IdStr sagaId) expectedVersion (-1))
         else throw error)
  else
    result <- tb_update table (at_version sagaName sagaId expectedVersion) (new_state serialized (S expectedVersion)) ;;
    if is_number 0 (rowsAffected result)
    then throw (ConcurrencyError sagaName (IdStr sagaId) expectedVersion (-1))
    else ret tt.

Definition load (sagaName sagaId : string) : M D (option (value * nat)) :=
  rows <- tb_find (dx_sagaStates (getExecutor store db)) (where_ (is_instance sagaName sagaId)) ;;
  match rows with
  | [] => ret None
  | row :: _ => state <- lift_result (read_column (sr_state row)) ;; ret (Some (state, sr_version row))
  end.
End methods.
End DrizzleSagas.

(** ** DrizzleSnapshotStore *)

Module DrizzleSnapshots.
Section methods.
Context {D : Type} (store : option (DrizzleExecutor D)) (db : DrizzleExecutor D) (nativeJson : bool).

Definition load (aggregateName aggregateId : string) : M D (option Snapshot) :=
  match dx_snapshots (getExecutor store db) with
  | None => ret None
  | Some table =>
      rows <- tb_find table (where_ (is_instance aggregateName aggregateId)) ;;
      match rows with
      | [] => ret None
      | row :: _ =>
          state <- lift_result (read_column (sr_state row)) ;;
          ret (Some {| sn_state := state; sn_version := sr_version row; sn_stateVersion := None |})
      end
  end.

(** A state that is a text is stored as it is. *)
Definition serialized (state : value) : result value :=
  if nativeJson then Ok state else match state with VStr _ => Ok state | _ => text_column state end.

Definition save (aggregateName aggregateId : string) (snapshot : Snapshot) : M D unit :=
  match dx_snapshots (getExecutor store db) with
  | None => ret tt
  | Some table =>
      enc <- lift_result (serialized (sn_state snapshot)) ;;
      existing <- tb_find table (where_ (is_instance aggregateName aggregateId)) ;;
      if (0 <? length existing)%nat
      then _ <- tb_update table (is_instance aggregateName aggregateId) (new_state enc (sn_version snapshot)) ;; ret tt
      else tb_insert table [{| sr_name := aggregateName; sr_id := aggregateId; sr_state := enc;
                               sr_version := sn_version snapshot |}]
  end.
End methods.
End DrizzleSnapshots.

(** ** DrizzleOutboxStore *)

Module DrizzleOutbox.
Section methods.
Context {D : Type} (store : option (DrizzleExecutor D)) (db : DrizzleExecutor D) (nativeJson : bool).

Definition outbox_row (e : OutboxEntry) : result OutboxRow :=
  result_bind (json_column nativeJson (event_value (ob_event e))) (fun ev =>
  result_bind (toDbTimestamp (ob_createdAt e)) (fun createdAt =>
  result_bind (match ob_publishedAt e with
               | Some d => result_bind (toDbTimestamp d) (fun t => Ok (VStr t))
               | None => Ok VNull
               end) (fun publishedAt =>
  Ok {| or_id := ob_id e; or_event := ev; or_eventId := nullable_text (metadata_req md_eventId (ob_event e));
        or_aggregateName := nullable_text (ob_aggregateName e); or_aggregateId := nullable_text (ob_aggregateId e);
        or_createdAt := VStr createdAt; or_publishedAt := publishedAt |}))).

Definition save (entries : list OutboxEntry) : M D unit :=
  if (length entries =? 0)%nat then ret tt else
  rows <- lift_result (map_result outbox_row entries) ;;
  tb_insert (dx_outbox (getExecutor store db)) rows.

(** [to_utc]: the local time of the process. *)
Definition loadUnpublished (to_utc : Z -> Z) (batchSize : nat) : M D (list OutboxEntry) :=
  rows <- tb_find (dx_outbox (getExecutor store db)) (pending_query batchSize) ;;
  lift_result (map_result (outbox_entry read_column to_utc) rows).

Definition markPublished (now : Z) (ids : list string) : M D unit :=
  if (length ids =? 0)%nat then ret tt else
  at_ <- lift_result (toDbTimestamp now) ;;
  _ <- tb_update (dx_outbox (getExecutor store db)) (fun r => in_texts ids (VStr (or_id r))) (with_publishedAt (VStr at_)) ;;
  ret tt.

Definition markPublishedByEventIds (now : Z) (eventIds : list string) : M D unit :=
  if (length eventIds =? 0)%nat then ret tt else
  at_ <- lift_result (toDbTimestamp now) ;;
  _ <- tb_update (dx_outbox (getExecutor store db)) (fun r => in_texts eventIds (or_eventId r) && pending r)
         (with_publishedAt (VStr at_)) ;;
  ret tt.

Definition deletePublished (olderThan : option Z) : M D unit :=
  before <- lift_result (match olderThan with
                         | Some d => result_bind (toDbTimestamp d) (fun t => Ok (Some (VStr t)))
                         | None => Ok None
                         end) ;;
  tb_delete (dx_outbox (getExecutor store db)) (fun r =>
    negb (pending r) && match before with Some t => date_lt (or_createdAt r) t | None => true end).
End methods.
End DrizzleOutbox.

(** ** DrizzleEventIdempotencyStore *)

Module DrizzleIdempotency.
Section methods.
Context {D : Type} (store : option (DrizzleExecutor D)) (db : DrizzleExecutor D) (ttlMs : option Z).

Definition hasProcessed (to_utc : Z -> Z) (now : Z) (key : string) : M D bool :=
  let table := dx_idempotency (getExecutor store db) in
  rows <- tb_find table (where_ (fun r => String.eqb (kr_key r) key)) ;;
  match rows with
  | [] => ret false
  | row :: _ =>
      match ttlMs with
      | None => ret true
      | Some ttl =>
          processedAt <- lift_result (column_date to_utc (kr_processedAt row)) ;;
          let age := (now - processedAt)%Z in
          if (ttl <? age)%Z
          then (tb_delete table (fun r => String.eqb (kr_key r) key) ;;; ret false)
          else ret true
      end
  end.

Definition markProcessed (now : Z) (key : string) : M D unit :=
  try_catch
    (at_ <- lift_result (toDbTimestamp now) ;;
     tb_insert (dx_idempotency (getExecutor store db)) [{| kr_key := key; kr_processedAt := VStr at_ |}])
    (fun error => if DrizzleErrors.isUniqueViolation error then ret tt else throw error).

Definition removeExpired (now ttl : Z) : M D unit :=
  threshold <- lift_result (toDbTimestamp (now - ttl)) ;;
  tb_delete (dx_idempotency (getExecutor store db)) (fun r => date_le (kr_processedAt r) (VStr threshold)).
End methods.
End DrizzleIdempotency.

(** ** DrizzleEventReader *)

Module DrizzleReader.
Section methods.
Context {D : Type} (eventsTable : Table D EventRow EventData) (batchSize : nat).

(** What the generator yields from [cursor] on.  [fuel] bounds the batches. *)
Fixpoint read (fuel : nat) (aggregateName : option string) (cursor : Z) : M D (option (list event)) :=
  match fuel with
  | O => ret None
  | S fuel' =>
      rows <- tb_find eventsTable (batch_query cursor aggregateName batchSize) ;;
      if (length rows =? 0)%nat then ret (Some []) else
      events <- lift_result (map_result (fun row => DrizzleEvents.deserializeEvent (snd row)) rows) ;;
      if (length rows <? batchSize)%nat then ret (Some events) else
      rest <- read fuel' aggregateName (or_default (option_map er_id (last rows)) cursor) ;;
      ret (option_map (app events) rest)
  end.
End methods.
End DrizzleReader.

(** ** Refinement *)

Definition affected_rows (result : value) : Z := match getRowsAffected result with VNum n => n | _ => -1 end.

Lemma affected_rows_zero r : is_number 0 (getRowsAffected r) = (affected_rows r =? 0)%Z.
Proof. unfold affected_rows. by destruct (getRowsAffected r). Qed.

Lemma event_row_ok nativeJson now name id v index e : common_era now -> event_storable nativeJson e ->
  exists row, DrizzleEvents.event_row nativeJson now name id v index e = Ok row /\ event_accepted nativeJson row /\
    in_stream name id row = true /\ er_sequenceNumber row = (v + index + 1)%nat /\
    DrizzleEvents.deserializeEvent row = Ok (wire_event e).
Proof.
  intros Hnow [Hc Hp]. destruct (storable_json _ _ Hp) as [j Hj].
  destruct (json_column_ok nativeJson (ev_payload e) j Hp Hj) as (payload & Hpay & Hread & Hacc).
  assert (Hw : wire_event e = with_payload e j) by (unfold wire_event, payload_json; by rewrite Hj).
  destruct Hc as (_ & _ & Hmd). unfold DrizzleEvents.event_row. rewrite Hpay. cbn [result_bind].
  assert (exists ts, toDbTimestamp (or_default (metadata_req md_timestamp e) now) = Ok ts) as [ts Hts].
  { unfold metadata_req, metadata_opt. destruct (ev_metadata e) as [md |]; cbn in *.
    - rewrite toDbTimestamp_total; [eauto | by destruct Hmd].
    - rewrite toDbTimestamp_total; eauto. }
  assert (exists meta, json_column nativeJson (match ev_metadata e with Some md => metadata_value md | None => VNull end) = Ok meta /\
    (nativeJson = true -> is_json meta) /\
    result_bind (read_column meta) (fun m => make_event (ev_name e) j m) = Ok (wire_event e) /\
    (nullish meta = true -> ev_metadata e = None)) as (meta & Hmeta & Hmj & Hback & Hnull).
  { rewrite Hw. destruct e as [nm p [md |]]; cbn in *.
    - pose proof (is_json_metadata md Hmd) as Hj'. pose proof (metadata_read md Hmd) as Hr.
      destruct nativeJson; cbn.
      + exists (metadata_value md). split; [done |]. split; [done |]. split; [| done].
        unfold make_event. cbn [read_column metadata_value result_bind nullish]. fold (metadata_value md). by rewrite Hr.
      + destruct (text_column_ok (metadata_value md) (metadata_value md)) as (t & -> & Ht);
          [by apply is_json_ordered | by apply json_of_json |].
        exists (VStr t). split; [done |]. split; [done |]. rewrite Ht. split; [| done].
        unfold make_event. cbn [metadata_value result_bind nullish]. fold (metadata_value md). by rewrite Hr.
    - destruct nativeJson; [by exists VNull | by exists (VStr "null")]. }
  rewrite Hmeta. cbn [result_bind]. rewrite Hts. cbn [result_bind]. eexists. split; [done |].
  split; [by split |]. split; [unfold in_stream; cbn; by rewrite !String.eqb_refl |]. split; [done |].
  unfold DrizzleEvents.deserializeEvent. cbn. rewrite Hread. cbn.
  destruct (nullish meta) eqn:En; [| done]. rewrite Hw. unfold make_event, with_payload. cbn. by rewrite (Hnull eq_refl).
Qed.

Section events.
Context {D : Type} (store : option (DrizzleExecutor D)) (db : DrizzleExecutor D) (nativeJson : bool) (now : Z)
  (rows : D -> list EventRow)
  `{Hspec : !TableSpec (dx_events (getExecutor store db)) rows snd same_stream_number (event_accepted nativeJson)
      Drivers.drizzle_taken affected_rows}.
Hypothesis Hnow : common_era now.

#[export] Instance drizzle_events :
  StreamRefinement (implements rows DrizzleEvents.deserializeEvent) (event_storable nativeJson)
    (DrizzleEvents.load store db) (DrizzleEvents.loadAfterVersion store db) (DrizzleEvents.save store db nativeJson now).
Proof.
  split.
  - intros d s name id Hd. by eapply load_spec.
  - intros d s name id v Hd. by eapply loadAfter_spec.
  - intros d s name id events v Hd Hv Hok. unfold DrizzleEvents.save.
    destruct events as [| e events]; cbn [length Nat.eqb]; [rewrite wp_ret; by exists s |].
    destruct (map_index_rows (DrizzleEvents.event_row nativeJson now name id v) DrizzleEvents.deserializeEvent
      (event_accepted nativeJson) name id v (e :: events) 0) as (ns & Hns & Hacc & Hlen & Happ).
    { intros index e' He'. apply event_row_ok; [done |]. rewrite Forall_forall in Hok. by apply Hok. }
    rewrite Nat.add_0_r in Happ. rewrite Hns.
    by apply (save_rows_spec rows (event_accepted nativeJson) Drivers.drizzle_taken DrizzleEvents.deserializeEvent
      (tb_insert (dx_events (getExecutor store db))) tb_insert_spec DrizzleErrors.isUniqueViolation).
Qed.
End events.

Section states.
Context {D : Type} (store : option (DrizzleExecutor D)) (db : DrizzleExecutor D) (nativeJson : bool)
  (rows : D -> list StateRow).

#[export] Instance drizzle_states
  `{!TableSpec (dx_aggregateStates (getExecutor store db)) rows id same_instance (state_accepted nativeJson)
      Drivers.drizzle_taken affected_rows} :
  CellRefinement (holds_cells rows read_column) (storable nativeJson)
    (DrizzleStates.load store db) (DrizzleStates.save store db nativeJson).
Proof.
  split.
  - intros d s name id Hd. by eapply read_cell_spec.
  - intros d s name id state j v Hd Hok Hj. unfold DrizzleStates.save.
    destruct (json_column_ok nativeJson state j Hok Hj) as (c & Hc & Hread & Hacc).
    rewrite wp_bind, Hc, wp_lift_result.
    by apply (write_state_spec _ rows (state_accepted nativeJson) Drivers.drizzle_taken affected_rows
      read_column DrizzleErrors.isUniqueViolation (fun r => is_number 0 (getRowsAffected r)) d s name id c j v affected_rows_zero).
Qed.

Definition saga_affected_rows (result : value) : Z := match DrizzleSagas.rowsAffected result with VNum n => n | _ => -1 end.

(** The class looks at the message only. *)
#[export] Instance drizzle_saga_recognises : Recognises DrizzleSagas.is_duplicate Drivers.drizzle_taken_in_english.
Proof.
  split.
  - intros e (props & text & message & -> & Hdup & Hm & Hin). unfold DrizzleSagas.is_duplicate. cbn [error_prop].
    rewrite Hm. cbn [or_default text_or_empty]. destruct Hdup; rewrite Hin, ?orb_true_r; done.
  - intros e (_ & _ & Hmsg & _). unfold DrizzleSagas.is_duplicate.
    by rewrite (proj1 (speaks_of_key_false _ "UNIQUE constraint failed" Hmsg eq_refl)),
      (proj1 (speaks_of_key_false _ "unique constraint" Hmsg eq_refl)),
      (proj1 (speaks_of_key_false _ "Duplicate entry" Hmsg eq_refl)),
      (proj1 (speaks_of_key_false _ "duplicate key" Hmsg eq_refl)).
Qed.

#[export] Instance drizzle_sagas
  `{!TableSpec (dx_sagaStates (getExecutor store db)) rows id same_instance (state_accepted nativeJson)
      Drivers.drizzle_taken_in_english saga_affected_rows} :
  CellRefinement (holds_cells rows read_column) (storable nativeJson)
    (DrizzleSagas.load store db) (DrizzleSagas.save store db nativeJson).
Proof.
  split.
  - intros d s name id Hd. by eapply read_cell_spec.
  - intros d s name id state j v Hd Hok Hj. unfold DrizzleSagas.save.
    destruct (json_column_ok nativeJson state j Hok Hj) as (c & Hc & Hread & Hacc).
    rewrite wp_bind, Hc, wp_lift_result.
    apply (write_state_spec _ rows (state_accepted nativeJson) Drivers.drizzle_taken_in_english saga_affected_rows
      read_column DrizzleSagas.is_duplicate (fun r => is_number 0 (DrizzleSagas.rowsAffected r)) d s name id c j v); try done.
    intros r. unfold saga_affected_rows. by destruct (DrizzleSagas.rowsAffected r).
Qed.
End states.
