(* ===== verification/PrismaStores.v ===== *)
(** The stores of the Prisma adapter ([adapters/prisma/src]): [persistence.ts],
    [event-reader.ts], [event-idempotency.ts], [dedicated-state-persistence.ts] and
    [json-state-mapper.ts].  A model delegate of the client is a table of [Sql.v]:
    [create] and [createMany] insert, [findUnique], [findFirst] and [findMany] find,
    [update] and [updateMany] update, [deleteMany] deletes. *)
From S2P Require Import Prelude Text Json JsMap CoreTypes Errors Wire Stores Sql SqlRefine.

Record PrismaExecutor (D : Type) : Type := {
  px_nodddeEvent : Table D EventRow EventData;
  px_nodddeAggregateState : Table D StateRow StateRow;
  px_nodddeSagaState : Table D StateRow StateRow;
  px_nodddeSnapshot : Table D StateRow StateRow;
  px_nodddeOutboxEntry : Table D OutboxRow OutboxRow;
  px_nodddeEventIdempotencyRecord : Table D IdempotencyRow IdempotencyRow;
  px_model : string -> option (Table D ObjRow ObjRow)   (** [executor[modelName]] *)
}.
Arguments px_nodddeEvent {D} _.
Arguments px_nodddeAggregateState {D} _.
Arguments px_nodddeSagaState {D} _.
Arguments px_nodddeSnapshot {D} _.
Arguments px_nodddeOutboxEntry {D} _.
Arguments px_nodddeEventIdempotencyRecord {D} _.
Arguments px_model {D} _.

(** [result.count] of [updateMany] *)
Definition count_of (result : value) : value := read_prop "count" result.

(** ** PrismaEventSourcedAggregatePersistence *)

Module PrismaEvents.
Section methods.
Context {D : Type} (store : option (PrismaExecutor D)) (prisma : PrismaExecutor D).

Definition save (now : Z) (aggregateName aggregateId : string) (events : list event) (expectedVersion : nat) : M D unit :=
  if (length events =? 0)%nat then ret tt else
  let executor := getExecutor store prisma in
  try_catch
    (data <- lift_result (map_index (text_event_row now aggregateName aggregateId expectedVersion) 0 events) ;;
     tb_insert (px_nodddeEvent executor) data)
    (fun error =>
       if is_P2002 error
       then throw (ConcurrencyError aggregateName (IdStr aggregateId) expectedVersion (-1))
       else throw error).

Definition load (aggregateName aggregateId : string) : M D (list event) :=
  rows <- tb_find (px_nodddeEvent (getExecutor store prisma)) (stream_query aggregateName aggregateId) ;;
  lift_result (map_result (fun row => text_row_event (snd row)) rows).

Definition loadAfterVersion (aggregateName aggregateId : string) (afterVersion : nat) : M D (list event) :=
  rows <- tb_find (px_nodddeEvent (getExecutor store prisma)) (stream_query_after aggregateName aggregateId afterVersion) ;;
  lift_result (map_result (fun row => text_row_event (snd row)) rows).
End methods.
End PrismaEvents.

(** ** PrismaStateStoredAggregatePersistence *)

Module PrismaStates.
Section methods.
Context {D : Type} (store : option (PrismaExecutor D)) (prisma : PrismaExecutor D).

Definition save (aggregateName aggregateId : string) (state : value) (expectedVersion : nat) : M D unit :=
  let table := px_nodddeAggregateState (getExecutor store prisma) in
  serialized <- lift_result (text_column state) ;;
  if (expectedVersion =? 0)%nat then
    try_catch
      (tb_insert table [{| sr_name := aggregateName; sr_id := aggregateId; sr_state := serialized; sr_version := 1 |}])
      (fun error =>
         if is_P2002 error
         then throw (ConcurrencyError aggregateName (IdStr aggregateId) 0 (-1))
         else throw error)
  else
    result <- tb_update table (at_version aggregateName aggregateId expectedVersion)
                (new_state serialized (S expectedVersion)) ;;
    if is_number 0 (count_of result)
    then throw (ConcurrencyError aggregateName (IdStr aggregateId) expectedVersion (-1))
    else ret tt.

Definition load (aggregateName aggregateId : string) : M D (option (value * nat)) :=
  rows <- tb_find (px_nodddeAggregateState (getExecutor store prisma)) (where_ (is_instance aggregateName aggregateId)) ;;
  match rows with
  | [] => ret None
  | row :: _ => state <- lift_result (parse_column (sr_state row)) ;; ret (Some (state, sr_version row))
  end.
End methods.
End PrismaStates.

(** ** PrismaSagaPersistence *)

Module PrismaSagas.
Section methods.
Context {D : Type} (store : option (PrismaExecutor D)) (prisma : PrismaExecutor D).

Definition save (sagaName sagaId : string) (state : value) (expectedVersion : nat) : M D unit :=
  let table := px_nodddeSagaState (getExecutor store prisma) in
  serialized <- lift_result (text_column state) ;;
  if (expectedVersion =? 0)%nat then
    try_catch
      (tb_insert table [{| sr_name := sagaName; sr_id := sagaId; sr_state := serialized; sr_version := 1 |}])
      (fun error =>
         if is_P2002 error then throw (ConcurrencyError sagaName (IdStr sagaId) 0 (-1)) else throw error)
  else
    result <- tb_update table (at_version sagaName sagaId expectedVersion) (new_state serialized (S expectedVersion)) ;;
    if is_number 0 (count_of result)
    then throw (ConcurrencyError sagaName (IdStr sagaId) expectedVersion (-1))
    else ret tt.

Definition load (sagaName sagaId : string) : M D (option (value * nat)) :=
  rows <- tb_find (px_nodddeSagaState (getExecutor store prisma)) (where_ (is_instance sagaName sagaId)) ;;
  match rows with
  | [] => ret None
  | row :: _ => state <- lift_result (parse_column (sr_state row)) ;; ret (Some (state, sr_version row))
  end.
End methods.
End PrismaSagas.

(** ** PrismaSnapshotStore *)

Module PrismaSnapshots.
Section methods.
Context {D : Type} (store : option (PrismaExecutor D)) (prisma : PrismaExecutor D).

Definition load (aggregateName aggregateId : string) : M D (option Snapshot) :=
  rows <- tb_find (px_nodddeSnapshot (getExecutor store prisma)) (where_ (is_instance aggregateName aggregateId)) ;;
  match rows with
  | [] => ret None
  | row :: _ =>
      state <- lift_result (parse_column (sr_state row)) ;;
      ret (Some {| sn_state := state; sn_version := sr_version row; sn_stateVersion := None |})
  end.

Definition save (aggregateName aggregateId : string) (snapshot : Snapshot) : M D unit :=
  let table := px_nodddeSnapshot (getExecutor store prisma) in
  serialized <- lift_result (text_column (sn_state snapshot)) ;;
  existing <- tb_find table (where_ (is_instance aggregateName aggregateId)) ;;
  match existing with
  | _ :: _ =>
      _ <- tb_update table (is_instance aggregateName aggregateId) (new_state serialized (sn_version snapshot)) ;; ret tt
  | [] => tb_insert table [{| sr_name := aggregateName; sr_id := aggregateId; sr_state := serialized;
                              sr_version := sn_version snapshot |}]
  end.
End methods.
End PrismaSnapshots.

(** ** PrismaOutboxStore *)

Module PrismaOutbox.
Section methods.
Context {D : Type} (store : option (PrismaExecutor D)) (prisma : PrismaExecutor D).

Definition outbox_row (e : OutboxEntry) : result OutboxRow :=
  result_bind (text_column (event_value (ob_event e))) (fun ev =>
  Ok {| or_id := ob_id e; or_event := ev; or_eventId := nullable_text (metadata_req md_eventId (ob_event e));
        or_aggregateName := nullable_text (ob_aggregateName e); or_aggregateId := nullable_text (ob_aggregateId e);
        or_createdAt := VDate (ob_createdAt e);
        or_publishedAt := match ob_publishedAt e with Some d => VDate d | None => VNull end |}).

Definition save (entries : list OutboxEntry) : M D unit :=
  if (length entries =? 0)%nat then ret tt else
  data <- lift_result (map_result outbox_row entries) ;;
  tb_insert (px_nodddeOutboxEntry (getExecutor store prisma)) data.

Definition loadUnpublished (batchSize : nat) : M D (list OutboxEntry) :=
  rows <- tb_find (px_nodddeOutboxEntry (getExecutor store prisma)) (pending_query batchSize) ;;
  lift_result (map_result (outbox_entry parse_column (fun wall => wall)) rows).

Definition markPublished (now : Z) (ids : list string) : M D unit :=
  if (length ids =? 0)%nat then ret tt else
  _ <- tb_update (px_nodddeOutboxEntry (getExecutor store prisma)) (fun r => in_texts ids (VStr (or_id r)))
         (with_publishedAt (VDate now)) ;;
  ret tt.

Definition markPublishedByEventIds (now : Z) (eventIds : list string) : M D unit :=
  if (length eventIds =? 0)%nat then ret tt else
  _ <- tb_update (px_nodddeOutboxEntry (getExecutor store prisma)) (fun r => in_texts eventIds (or_eventId r) && pending r)
         (with_publishedAt (VDate now)) ;;
  ret tt.

Definition deletePublished (olderThan : option Z) : M D unit :=
  tb_delete (px_nodddeOutboxEntry (getExecutor store prisma)) (fun r =>
    negb (pending r) && match olderThan with Some d => date_lt (or_createdAt r) (VDate d) | None => true end).
End methods.
End PrismaOutbox.

(** ** PrismaEventIdempotencyStore *)

Module PrismaIdempotency.
Section methods.
Context {D : Type} (store : option (PrismaExecutor D)) (prisma : PrismaExecutor D) (ttlMs : option Z).

Definition hasProcessed (now : Z) (key : string) : M D bool :=
  let table := px_nodddeEventIdempotencyRecord (getExecutor store prisma) in
  records <- tb_find table (where_ (fun r => String.eqb (kr_key r) key)) ;;
  match records with
  | [] => ret false
  | record :: _ =>
      match ttlMs with
      | None => ret true
      | Some ttl =>
          processedAt <- lift_result (column_date (fun wall => wall) (kr_processedAt record)) ;;
          if (ttl <? now - processedAt)%Z
          then (tb_delete table (fun r => String.eqb (kr_key r) key) ;;; ret false)
          else ret true
      end
  end.

Definition markProcessed (now : Z) (key : string) : M D unit :=
  try_catch
    (tb_insert (px_nodddeEventIdempotencyRecord (getExecutor store prisma)) [{| kr_key := key; kr_processedAt := VDate now |}])
    (fun error => if is_P2002 error then ret tt else throw error).

Definition removeExpired (now ttl : Z) : M D unit :=
  tb_delete (px_nodddeEventIdempotencyRecord (getExecutor store prisma))
    (fun r => date_le (kr_processedAt r) (VDate (now - ttl))).
End methods.
End PrismaIdempotency.

(** ** PrismaEventReader *)

Module PrismaReader.

Definition BATCH_SIZE : nat := 500.

(** Here an empty text of metadata is parsed. *)
Definition row_event (row : EventRow) : result event :=
  result_bind (parse_column (er_payload (snd row))) (fun payload =>
  if nullish (er_metadata (snd row)) then make_event (er_eventName (snd row)) payload VUndefined
  else result_bind (parse_column (er_metadata (snd row))) (fun meta => make_event (er_eventName (snd row)) payload meta)).

Section methods.
Context {D : Type} (nodddeEvent : Table D EventRow EventData).

Fixpoint read (fuel : nat) (aggregateName : option string) (cursor : Z) : M D (option (list event)) :=
  match fuel with
  | O => ret None
  | S fuel' =>
      rows <- tb_find nodddeEvent (batch_query cursor aggregateName BATCH_SIZE) ;;
      if (length rows =? 0)%nat then ret (Some []) else
      events <- lift_result (map_result row_event rows) ;;
      if (length rows <? BATCH_SIZE)%nat then ret (Some events) else
      rest <- read fuel' aggregateName (or_default (option_map er_id (last rows)) cursor) ;;
      ret (option_map (app events) rest)
  end.
End methods.
End PrismaReader.

(** ** PrismaDedicatedStateStoredPersistence *)

Record PrismaStateMapper : Type := {
  pm_aggregateIdField : string;
  pm_versionField : string;
  pm_toRow : value -> result ObjRow;
  pm_fromRow : ObjRow -> result value
}.

Module PrismaDedicated.
Section methods.
Context {D : Type} (store : option (PrismaExecutor D)) (prisma : PrismaExecutor D) (modelName : string)
  (mapper : PrismaStateMapper).

Definition getDelegate : option (Table D ObjRow ObjRow) := px_model (getExecutor store prisma) modelName.

(** A method of the delegate; there is none when the client has no such model. *)
Definition call {A} (delegate : option (Table D ObjRow ObjRow)) (method : Table D ObjRow ObjRow -> M D A) : M D A :=
  match delegate with
  | Some t => method t
  | None => throw (TypeError "Cannot read properties of undefined")
  end.

Definition save (aggregateName aggregateId : string) (state : value) (expectedVersion : nat) : M D unit :=
  let delegate := getDelegate in
  stateRow <- lift_result (pm_toRow mapper state) ;;
  if (expectedVersion =? 0)%nat then
    try_catch
      (call delegate (fun t => tb_insert t
         [set_prop (pm_versionField mapper) (VNum 1) (set_prop (pm_aggregateIdField mapper) (VStr aggregateId) stateRow)]))
      (fun error =>
         if is_P2002 error
         then throw (ConcurrencyError aggregateName (IdStr aggregateId) expectedVersion (-1))
         else throw error)
  else
    result <- call delegate (fun t => tb_update t
      (fun r => is_text aggregateId (column (pm_aggregateIdField mapper) r) &&
                is_number (Z.of_nat expectedVersion) (column (pm_versionField mapper) r))
      (fun r => assign r (set_prop (pm_versionField mapper) (nat_value (S expectedVersion)) stateRow))) ;;
    if is_number 0 (count_of result)
    then throw (ConcurrencyError aggregateName (IdStr aggregateId) expectedVersion (-1))
    else ret tt.

(** [{ state, version }], the version as the row has it. *)
Definition load (aggregateName aggregateId : string) : M D (option (value * value)) :=
  let delegate := getDelegate in
  rows <- call delegate (fun t => tb_find t
            {| q_where := fun r => is_text aggregateId (column (pm_aggregateIdField mapper) r);
               q_order := None; q_limit := Some 1%nat |}) ;;
  match rows with
  | [] => ret None
  | row :: _ =>
      let version := column (pm_versionField mapper) row in
      let stateRow := del_prop (pm_versionField mapper) (del_prop (pm_aggregateIdField mapper) row) in
      state <- lift_result (pm_fromRow mapper stateRow) ;;
      ret (Some (state, version))
  end.
End methods.

(** [jsonStateMapper(options)]: the three property names may be overridden. *)
Definition jsonStateMapper (aggregateIdField versionField stateField : option string) : PrismaStateMapper :=
  let stateField := or_default stateField "state"%string in
  {| pm_aggregateIdField := or_default aggregateIdField "aggregateId"%string;
     pm_versionField := or_default versionField "version"%string;
     pm_toRow := fun state => result_bind (text_column state) (fun t => Ok [(stateField, t)]);
     pm_fromRow := fun row => match column stateField row with VStr t => parse t | v => Ok v end |}.
End PrismaDedicated.

(** ** Refinement *)

Definition prisma_affected (result : value) : Z := match count_of result with VNum n => n | _ => -1 end.

Lemma prisma_affected_zero r : is_number 0 (count_of r) = (prisma_affected r =? 0)%Z.
Proof. unfold prisma_affected. by destruct (count_of r). Qed.

Section refinement.
Context {D : Type} (store : option (PrismaExecutor D)) (prisma : PrismaExecutor D).

#[export] Instance prisma_events (now : Z) (rows : D -> list EventRow)
  `{!TableSpec (px_nodddeEvent (getExecutor store prisma)) rows snd same_stream_number (event_accepted false)
      Drivers.prisma_taken prisma_affected} :
  StreamRefinement (implements rows text_row_event) (event_storable false)
    (PrismaEvents.load store prisma) (PrismaEvents.loadAfterVersion store prisma) (PrismaEvents.save store prisma now).
Proof.
  split.
  - intros d s name id Hd. by eapply load_spec.
  - intros d s name id v Hd. by eapply loadAfter_spec.
  - intros d s name id events v Hd Hv Hok. unfold PrismaEvents.save.
    destruct events as [| e events]; cbn [length Nat.eqb]; [rewrite wp_ret; by exists s |].
    destruct (text_rows now name id v (e :: events) Hok) as (ns & Hns & Hacc & Hlen & Happ). rewrite Hns.
    by apply (save_rows_spec rows (event_accepted false) Drivers.prisma_taken text_row_event
      (tb_insert (px_nodddeEvent (getExecutor store prisma))) tb_insert_spec is_P2002).
Qed.

Lemma prisma_write (t : Table D StateRow StateRow) (rows : D -> list StateRow)
  `{!TableSpec t rows id same_instance (state_accepted false) Drivers.prisma_taken prisma_affected} d s name id state j v :
  holds_cells rows parse_column d s -> text_storable state -> json_of state = Ok (Some j) ->
  wp (serialized <- lift_result (text_column state) ;;
      write_state t is_P2002 (fun r => is_number 0 (count_of r)) name id serialized v)
     (fun _ d' => exists s', CompareAndSet.save name id j v s = Some s' /\ holds_cells rows parse_column d' s')
     (fun e d' => holds_cells rows parse_column d' s /\
        (conflict_error name id v e /\ CompareAndSet.save name id j v s = None \/ Drivers.other_failure e)) d.
Proof.
  intros Hd Hok Hj. destruct (text_state_column state j Hok Hj) as (c & Hc & Hread & Hacc).
  rewrite wp_bind, Hc, wp_lift_result.
  by apply (write_state_spec t rows (state_accepted false) Drivers.prisma_taken prisma_affected parse_column is_P2002
    (fun r => is_number 0 (count_of r)) d s name id c j v prisma_affected_zero).
Qed.

#[export] Instance prisma_states (rows : D -> list StateRow)
  `{!TableSpec (px_nodddeAggregateState (getExecutor store prisma)) rows id same_instance (state_accepted false)
      Drivers.prisma_taken prisma_affected} :
  CellRefinement (holds_cells rows parse_column) text_storable (PrismaStates.load store prisma) (PrismaStates.save store prisma).
Proof.
  split; [intros d s name id Hd; by eapply read_cell_spec |].
  intros d s name id state j v Hd Hok Hj. pose proof (prisma_write _ rows d s name id state j v Hd Hok Hj) as H.
  unfold write_state in H. destruct v as [| v]; exact H.
Qed.

#[export] Instance prisma_sagas (rows : D -> list StateRow)
  `{!TableSpec (px_nodddeSagaState (getExecutor store prisma)) rows id same_instance (state_accepted false)
      Drivers.prisma_taken prisma_affected} :
  CellRefinement (holds_cells rows parse_column) text_storable (PrismaSagas.load store prisma) (PrismaSagas.save store prisma).
Proof.
  split; [intros d s name id Hd; by eapply read_cell_spec |].
  intros d s name id state j v Hd Hok Hj. pose proof (prisma_write _ rows d s name id state j v Hd Hok Hj) as H.
  unfold write_state in H. destruct v as [| v]; exact H.
Qed.
End refinement.
