(* ===== verification/TypeormStores.v ===== *)
(** The stores of the TypeORM adapter ([adapters/typeorm/src]): [persistence.ts],
    [event-reader.ts], [event-idempotency.ts], [dedicated-state-persistence.ts] and
    [json-state-mapper.ts].  A repository is a table of [Sql.v]; the one of a built-in
    store is found by its table name among the entities that the data source knows. *)
From S2P Require Import Prelude Text Json JsMap CoreTypes Errors Wire Stores Sql SqlRefine.

(** The registered entities, by the table that they map to. *)
Record EntityManager (D : Type) : Type := {
  em_events : option (Table D EventRow EventData);
  em_aggregateStates : option (Table D StateRow StateRow);
  em_sagaStates : option (Table D StateRow StateRow);
  em_snapshots : option (Table D StateRow StateRow);
  em_outbox : option (Table D OutboxRow OutboxRow);
  em_idempotency : Table D IdempotencyRow IdempotencyRow;   (** by its class *)
  em_entity : Table D ObjRow ObjRow                          (** the dedicated entity, by its class *)
}.
Arguments em_events {D} _.
Arguments em_aggregateStates {D} _.
Arguments em_sagaStates {D} _.
Arguments em_snapshots {D} _.
Arguments em_outbox {D} _.
Arguments em_idempotency {D} _.
Arguments em_entity {D} _.

Definition no_entity (tableName : string) : js_error :=
  PlainError (String.append "@noddde/typeorm: no entity is registered for table " (String.append (quoted tableName)
    " on this DataSource. Register the noddde entities, e.g. entities: Object.values(createNodddeEntities(dataSource.options.type)).")).

(** [getRepo(manager, tableName)] *)
Definition getRepo {D R N} (tableName : string) (found : option (Table D R N)) : M D (Table D R N) :=
  match found with Some t => ret t | None => throw (no_entity tableName) end.

(** [result.affected] *)
Definition affected_of (result : value) : value := read_prop "affected" result.

(** ** TypeORMEventSourcedAggregatePersistence *)

Module TypeORMEvents.
Section methods.
Context {D : Type} (store : option (EntityManager D)) (dataSource : EntityManager D).

Definition repo : M D (Table D EventRow EventData) := getRepo "noddde_events" (em_events (getExecutor store dataSource)).

Definition save (now : Z) (aggregateName aggregateId : string) (events : list event) (expectedVersion : nat) : M D unit :=
  if (length events =? 0)%nat then ret tt else
  repo <- repo ;;
  entities <- lift_result (map_index (text_event_row now aggregateName aggregateId expectedVersion) 0 events) ;;
  try_catch (tb_save repo entities)
    (fun error =>
       if TypeORMErrors.isUniqueViolation error
       then throw (ConcurrencyError aggregateName (IdStr aggregateId) expectedVersion (-1))
       else throw error).

Definition load (aggregateName aggregateId : string) : M D (list event) :=
  repo <- repo ;;
  rows <- tb_find repo (stream_query aggregateName aggregateId) ;;
  lift_result (map_result (fun row => text_row_event (snd row)) rows).

Definition loadAfterVersion (aggregateName aggregateId : string) (afterVersion : nat) : M D (list event) :=
  repo <- repo ;;
  rows <- tb_find repo (stream_query_after aggregateName aggregateId afterVersion) ;;
  lift_result (map_result (fun row => text_row_event (snd row)) rows).
End methods.
End TypeORMEvents.

(** ** TypeORMStateStoredAggregatePersistence *)

Module TypeORMStates.
Section methods.
Context {D : Type} (store : option (EntityManager D)) (dataSource : EntityManager D).

Definition repo : M D (Table D StateRow StateRow) :=
  getRepo "noddde_aggregate_states" (em_aggregateStates (getExecutor store dataSource)).

Definition save (aggregateName aggregateId : string) (state : value) (expectedVersion : nat) : M D unit :=
  repo <- repo ;;
  serialized <- lift_result (text_column state) ;;
  if (expectedVersion =? 0)%nat then
    try_catch
      (tb_insert repo [{| sr_name := aggregateName; sr_id := aggregateId; sr_state := serialized; sr_version := 1 |}])
      (fun error =>
         if TypeORMErrors.isUniqueViolation error
         then throw (ConcurrencyError aggregateName (IdStr aggregateId) expectedVersion (-1))
         else throw error)
  else
    result <- tb_update repo (at_version aggregateName aggregateId expectedVersion)
                (new_state serialized (S expectedVersion)) ;;
    if is_number 0 (affected_of result)
    then throw (ConcurrencyError aggregateName (IdStr aggregateId) expectedVersion (-1))
    else ret tt.

(** [findOne] *)
Definition one_instance (name id : string) : query StateRow :=
  {| q_where := is_instance name id; q_order := None; q_limit := Some 1%nat |}.

Definition load (aggregateName aggregateId : string) : M D (option (value * nat)) :=
  repo <- repo ;;
  row <- tb_find repo (one_instance aggregateName aggregateId) ;;
  match row with
  | [] => ret None
  | row :: _ => state <- lift_result (parse_column (sr_state row)) ;; ret (Some (state, sr_version row))
  end.
End methods.
End TypeORMStates.

(** ** TypeORMSagaPersistence *)

Module TypeORMSagas.
Section methods.
Context {D : Type} (store : option (EntityManager D)) (dataSource : EntityManager D).

Definition repo : M D (Table D StateRow StateRow) :=
  getRepo "noddde_saga_states" (em_sagaStates (getExecutor store dataSource)).

(** [error instanceof Error ? error.message : String(error)] *)
Definition message_of (error : js_error) : string :=
  match error with
  | ThrownValue (VStr s) => s
  | ThrownValue _ => EmptyString
  | _ => error_message error
  end.

(** The code after [findOne] returned: a second request may run before it. *)
Definition write (repo : Table D StateRow StateRow) (sagaName sagaId : string) (serialized : value)
    (expectedVersion : nat) (existing : option StateRow) : M D unit :=
  try_catch
    (match existing with
     | Some row =>
         if negb (sr_version row =? expectedVersion)%nat
         then throw (ConcurrencyError sagaName (IdStr sagaId) expectedVersion (Z.of_nat (sr_version row)))
         else tb_save repo [new_state serialized (S expectedVersion) row]
     | None =>
         if negb (expectedVersion =? 0)%nat
         then throw (ConcurrencyError sagaName (IdStr sagaId) expectedVersion 0)
         else tb_save repo [{| sr_name := sagaName; sr_id := sagaId; sr_state := serialized; sr_version := 1 |}]
     end)
    (fun error =>
       if is_concurrency_error error then throw error else
       if matches_any ["UNIQUE"; "duplicate"; "unique"]%string (message_of error)
       then throw (ConcurrencyError sagaName (IdStr sagaId) expectedVersion (-1))
       else throw error).

Definition save (sagaName sagaId : string) (state : value) (expectedVersion : nat) : M D unit :=
  repo <- repo ;;
  serialized <- lift_result (text_column state) ;;
  existing <- tb_find repo (TypeORMStates.one_instance sagaName sagaId) ;;
  write repo sagaName sagaId serialized expectedVersion (hd_error existing).

Definition load (sagaName sagaId : string) : M D (option (value * nat)) :=
  repo <- repo ;;
  row <- tb_find repo (TypeORMStates.one_instance sagaName sagaId) ;;
  match row with
  | [] => ret None
  | row :: _ => state <- lift_result (parse_column (sr_state row)) ;; ret (Some (state, sr_version row))
  end.
End methods.
End TypeORMSagas.

(** ** TypeORMSnapshotStore *)

Module TypeORMSnapshots.
Section methods.
Context {D : Type} (store : option (EntityManager D)) (dataSource : EntityManager D).

Definition repo : M D (Table D StateRow StateRow) :=
  getRepo "noddde_snapshots" (em_snapshots (getExecutor store dataSource)).

Definition load (aggregateName aggregateId : string) : M D (option Snapshot) :=
  repo <- repo ;;
  row <- tb_find repo (TypeORMStates.one_instance aggregateName aggregateId) ;;
  match row with
  | [] => ret None
  | row :: _ =>
      state <- lift_result (parse_column (sr_state row)) ;;
      ret (Some {| sn_state := state; sn_version := sr_version row; sn_stateVersion := None |})
  end.

Definition save (aggregateName aggregateId : string) (snapshot : Snapshot) : M D unit :=
  repo <- repo ;;
  serialized <- lift_result (text_column (sn_state snapshot)) ;;
  existing <- tb_find repo (TypeORMStates.one_instance aggregateName aggregateId) ;;
  match existing with
  | row :: _ => tb_save repo [new_state serialized (sn_version snapshot) row]
  | [] => tb_save repo [{| sr_name := aggregateName; sr_id := aggregateId; sr_state := serialized;
                           sr_version := sn_version snapshot |}]
  end.
End methods.
End TypeORMSnapshots.

(** ** TypeORMOutboxStore *)

Module TypeORMOutbox.
Section methods.
Context {D : Type} (store : option (EntityManager D)) (dataSource : EntityManager D).

Definition repo : M D (Table D OutboxRow OutboxRow) := getRepo "noddde_outbox" (em_outbox (getExecutor store dataSource)).

(** The entity has no column for the identifier of the event. *)
Definition outbox_entity (e : OutboxEntry) : result OutboxRow :=
  result_bind (text_column (event_value (ob_event e))) (fun ev =>
  Ok {| or_id := ob_id e; or_event := ev; or_eventId := VNull;
        or_aggregateName := nullable_text (ob_aggregateName e); or_aggregateId := nullable_text (ob_aggregateId e);
        or_createdAt := VDate (ob_createdAt e);
        or_publishedAt := match ob_publishedAt e with Some d => VDate d | None => VNull end |}).

Definition save (entries : list OutboxEntry) : M D unit :=
  if (length entries =? 0)%nat then ret tt else
  repo <- repo ;;
  entities <- lift_result (map_result outbox_entity entries) ;;
  tb_save repo entities.

Definition loadUnpublished (batchSize : nat) : M D (list OutboxEntry) :=
  repo <- repo ;;
  rows <- tb_find repo (pending_query batchSize) ;;
  lift_result (map_result (outbox_entry parse_column (fun wall => wall)) rows).

Definition markPublished (now : Z) (ids : list string) : M D unit :=
  if (length ids =? 0)%nat then ret tt else
  repo <- repo ;;
  _ <- tb_update repo (fun r => in_texts ids (VStr (or_id r))) (with_publishedAt (VDate now)) ;;
  ret tt.

(** The entries that match, among the oldest [batch] unpublished ones. *)
Definition matching_ids (eventIds : list string) (unpublished : list OutboxEntry) : list string :=
  map ob_id (List.filter (fun e =>
    match metadata_req md_eventId (ob_event e) with
    | Some i => negb (String.eqb i EmptyString) && existsb (String.eqb i) eventIds
    | None => false
    end) unpublished).

(** The number of entries that are looked at. *)
Definition SCAN_LIMIT : nat := Z.to_nat 10000.

Definition markPublishedByEventIds (now : Z) (eventIds : list string) : M D unit :=
  if (length eventIds =? 0)%nat then ret tt else
  unpublished <- loadUnpublished SCAN_LIMIT ;;
  let matchingIds := matching_ids eventIds unpublished in
  if (0 <? length matchingIds)%nat then markPublished now matchingIds else ret tt.

Definition deletePublished (olderThan : option Z) : M D unit :=
  repo <- repo ;;
  match olderThan with
  | Some d => tb_delete repo (fun r => negb (pending r) && date_lt (or_createdAt r) (VDate d))
  | None => tb_delete repo (fun r => negb (pending r))
  end.
End methods.
End TypeORMOutbox.

(** ** TypeORMEventIdempotencyStore *)

Module TypeORMIdempotency.
Section methods.
Context {D : Type} (store : option (EntityManager D)) (dataSource : EntityManager D) (ttlMs : option Z).

Definition repo : Table D IdempotencyRow IdempotencyRow := em_idempotency (getExecutor store dataSource).

Definition markProcessed (now : Z) (key : string) : M D unit :=
  try_catch (tb_insert repo [{| kr_key := key; kr_processedAt := VDate now |}])
    (fun error => if TypeORMErrors.isUniqueViolation error then ret tt else throw error).

Definition hasProcessed (now : Z) (key : string) : M D bool :=
  row <- tb_find repo {| q_where := fun r => String.eqb (kr_key r) key; q_order := None; q_limit := Some 1%nat |} ;;
  match row with
  | [] => ret false
  | row :: _ =>
      match ttlMs with
      | None => ret true
      | Some ttl =>
          processedAt <- lift_result (column_date (fun wall => wall) (kr_processedAt row)) ;;
          let age := (now - processedAt)%Z in
          if (ttl <? age)%Z
          then (tb_delete repo (fun r => String.eqb (kr_key r) key) ;;; ret false)
          else ret true
      end
  end.

Definition removeExpired (now ttl : Z) : M D unit :=
  let threshold := (now - ttl)%Z in
  tb_delete repo (fun r => date_le (kr_processedAt r) (VDate threshold)).
End methods.
End TypeORMIdempotency.

(** ** TypeORMEventReader *)

Module TypeORMReader.

Definition BATCH_SIZE : nat := 500.

(** [deserializeEvent] of [event-reader.ts] *)
Definition deserializeEvent (row : EventRow) : result event :=
  result_bind (parse_column (er_payload (snd row))) (fun payload =>
  if nullish (er_metadata (snd row)) then make_event (er_eventName (snd row)) payload VUndefined
  else result_bind (parse_column (er_metadata (snd row))) (fun meta => make_event (er_eventName (snd row)) payload meta)).

Section methods.
Context {D : Type} (repo : Table D EventRow EventData).

Fixpoint read (fuel : nat) (aggregateName : option string) (cursor : Z) : M D (option (list event)) :=
  match fuel with
  | O => ret None
  | S fuel' =>
      rows <- tb_find repo (batch_query cursor aggregateName BATCH_SIZE) ;;
      if (length rows =? 0)%nat then ret (Some []) else
      events <- lift_result (map_result deserializeEvent rows) ;;
      if (length rows <? BATCH_SIZE)%nat then ret (Some events) else
      rest <- read fuel' aggregateName (or_default (option_map er_id (last rows)) cursor) ;;
      ret (option_map (app events) rest)
  end.
End methods.

(** [read(options)] *)
Definition read_options {D} (dataSource : EntityManager D) (fuel : nat) (aggregateName : option string)
  : M D (option (list event)) :=
  repo <- getRepo "noddde_events" (em_events dataSource) ;;
  read repo fuel aggregateName 0.
End TypeORMReader.

(** ** TypeORMDedicatedStateStoredPersistence *)

Record TypeORMStateMapper : Type := {
  tm_aggregateIdField : string;
  tm_versionField : string;
  tm_toRow : value -> result ObjRow;
  tm_fromRow : ObjRow -> result value
}.

Module TypeORMDedicated.
Section methods.
Context {D : Type} (store : option (EntityManager D)) (dataSource : EntityManager D) (mapper : TypeORMStateMapper).

Definition save (aggregateName aggregateId : string) (state : value) (expectedVersion : nat) : M D unit :=
  let repo := em_entity (getExecutor store dataSource) in
  let aggregateIdField := tm_aggregateIdField mapper in
  let versionField := tm_versionField mapper in
  stateRow <- lift_result (tm_toRow mapper state) ;;
  if (expectedVersion =? 0)%nat then
    try_catch
      (tb_insert repo [set_prop versionField (VNum 1) (set_prop aggregateIdField (VStr aggregateId) stateRow)])
      (fun error =>
         if TypeORMErrors.isUniqueViolation error
         then throw (ConcurrencyError aggregateName (IdStr aggregateId) expectedVersion (-1))
         else throw error)
  else
    result <- tb_update repo
      (fun r => is_text aggregateId (column aggregateIdField r) &&
                is_number (Z.of_nat expectedVersion) (column versionField r))
      (fun r => assign r (set_prop versionField (nat_value (S expectedVersion)) stateRow)) ;;
    if is_number 0 (affected_of result)
    then throw (ConcurrencyError aggregateName (IdStr aggregateId) expectedVersion (-1))
    else ret tt.

Definition load (aggregateName aggregateId : string) : M D (option (value * value)) :=
  let repo := em_entity (getExecutor store dataSource) in
  let aggregateIdField := tm_aggregateIdField mapper in
  let versionField := tm_versionField mapper in
  row <- tb_find repo {| q_where := fun r => is_text aggregateId (column aggregateIdField r);
                         q_order := None; q_limit := Some 1%nat |} ;;
  match row with
  | [] => ret None
  | row :: _ =>
      let version := column versionField row in
      let stateRow := del_prop versionField (del_prop aggregateIdField row) in
      loadedState <- lift_result (tm_fromRow mapper stateRow) ;;
      ret (Some (loadedState, version))
  end.
End methods.

(** [jsonStateMapper(options)] *)
Definition jsonStateMapper (aggregateIdField versionField stateField : option string) : TypeORMStateMapper :=
  let stateField := or_default stateField "state"%string in
  {| tm_aggregateIdField := or_default aggregateIdField "aggregateId"%string;
     tm_versionField := or_default versionField "version"%string;
     tm_toRow := fun state => result_bind (text_column state) (fun t => Ok [(stateField, t)]);
     tm_fromRow := fun row => match column stateField row with VStr t => parse t | v => Ok v end |}.
End TypeORMDedicated.

(** ** Refinement *)

Definition typeorm_affected (result : value) : Z := match affected_of result with VNum n => n | _ => -1 end.

Lemma typeorm_affected_zero r : is_number 0 (affected_of r) = (typeorm_affected r =? 0)%Z.
Proof. unfold typeorm_affected. by destruct (affected_of r). Qed.

Section refinement.
Context {D : Type} (store : option (EntityManager D)) (dataSource : EntityManager D).

Section events.
Context (t : Table D EventRow EventData) (now : Z) (rows : D -> list EventRow)
  `{Hspec : !TableSpec t rows snd same_stream_number (event_accepted false) Drivers.typeorm_taken typeorm_affected}
  `{Hsave : !SaveInserts t rows snd same_stream_number (event_accepted false) Drivers.typeorm_taken}.
Hypothesis Hrepo : em_events (getExecutor store dataSource) = Some t.

#[export] Instance typeorm_events :
  StreamRefinement (implements rows text_row_event) (event_storable false)
    (TypeORMEvents.load store dataSource) (TypeORMEvents.loadAfterVersion store dataSource)
    (TypeORMEvents.save store dataSource now).
Proof.
  split; unfold TypeORMEvents.load, TypeORMEvents.loadAfterVersion, TypeORMEvents.save, TypeORMEvents.repo; rewrite Hrepo.
  - intros d s name id Hd. by eapply load_spec.
  - intros d s name id v Hd. by eapply loadAfter_spec.
  - intros d s name id events v Hd Hv Hok.
    destruct events as [| e events]; cbn [length Nat.eqb]; [rewrite wp_ret; by exists s |].
    destruct (text_rows now name id v (e :: events) Hok) as (ns & Hns & Hacc & Hlen & Happ).
    change (getRepo _ (Some t)) with (@ret D _ t). rewrite wp_bind, wp_ret, wp_bind, wp_lift_result, Hns.
    by apply (save_rows_spec rows (event_accepted false) Drivers.typeorm_taken
      text_row_event (tb_save t) tb_save_inserts TypeORMErrors.isUniqueViolation).
Qed.
End events.

Section states.
Context (t : Table D StateRow StateRow) (rows : D -> list StateRow)
  `{Hspec : !TableSpec t rows id same_instance (state_accepted false) Drivers.typeorm_taken typeorm_affected}.
Hypothesis Hrepo : em_aggregateStates (getExecutor store dataSource) = Some t.

#[export] Instance typeorm_states :
  CellRefinement (holds_cells rows parse_column) text_storable
    (TypeORMStates.load store dataSource) (TypeORMStates.save store dataSource).
Proof.
  split; unfold TypeORMStates.load, TypeORMStates.save, TypeORMStates.repo; rewrite Hrepo.
  - intros d s name id Hd. by eapply (read_cell_spec t rows _ _ _ parse_column d s (Some 1%nat)).
  - intros d s name id state j v Hd Hok Hj.
    destruct (text_state_column state j Hok Hj) as (c & Hc & Hread & Hacc).
    change (getRepo _ (Some t)) with (@ret D _ t). rewrite wp_bind, wp_ret, wp_bind, wp_lift_result, Hc.
    by apply (write_state_spec t rows (state_accepted false) Drivers.typeorm_taken typeorm_affected
      parse_column TypeORMErrors.isUniqueViolation (fun r => is_number 0 (affected_of r)) d s name id c j v typeorm_affected_zero).
Qed.
End states.
End refinement.
