(* ===== verification/SqlStores.v ===== *)
(** The stores of the three SQL adapters together: what they promise to the executors,
    proved from the documented behaviour of the tables, and how two of them differ from
    their contract.  [Dedicated] rows and the assembly of the adapters
    ([builder.ts], [*-adapter.ts]) are in [SqlAdapters.v]. *)
From stdpp Require Import gmap.
From S2P Require Import Prelude Text Json JsMap CoreTypes Errors Wire Stores Sql SqlRefine.
From S2P Require Import DrizzleStores PrismaStores TypeormStores.

(** ** Tables in memory, for concrete runs *)

Definition new_event_row (l : list EventRow) (d : EventData) : EventRow := (Z.of_nat (length l) + 1, d)%Z.
Definition replace_row {R} (l : list R) (r : R) : R := r.

(** A driver that reports the matched rows under [k], and a taken key by [taken]. *)
Definition reports (k : string) (n : nat) : value := VObj [(k, nat_value n)].

Definition events_table (taken : js_error) (k : string) : Table (list EventRow) EventRow EventData :=
  ListTable.table new_event_row same_stream_number snd taken (reports k) true.
Definition states_table (taken : js_error) (k : string) : Table (list StateRow) StateRow StateRow :=
  ListTable.table replace_row same_instance id taken (reports k) false.

(** The errors of [pg], of Prisma's client, and of TypeORM on MySQL. *)
Definition pg_duplicate : js_error :=
  DriverError [("code", VStr "23505"); ("message", VStr "duplicate key value violates unique constraint")].
Definition prisma_duplicate : js_error := DriverError [("code", VStr "P2002")].
Definition typeorm_duplicate : js_error :=
  DriverError [("message", VStr "Duplicate entry"); ("driverError", VObj [("code", VStr "ER_DUP_ENTRY"); ("errno", VNum 1062)])].

Lemma pg_duplicate_taken : Drivers.drizzle_taken pg_duplicate.
Proof. eexists _, _. split; [reflexivity |]. by apply Drivers.postgres_duplicate. Qed.
Lemma pg_duplicate_in_english : Drivers.drizzle_taken_in_english pg_duplicate.
Proof. eexists _, _, _. split; [reflexivity |]. split; [by apply Drivers.postgres_duplicate | by split]. Qed.
Lemma prisma_duplicate_taken : Drivers.prisma_taken prisma_duplicate.
Proof. by eexists. Qed.
Lemma typeorm_duplicate_taken : Drivers.typeorm_taken typeorm_duplicate.
Proof. eexists _, _. split; [reflexivity |]. split; [reflexivity |]. right. eexists. by apply Drivers.mysql_duplicate. Qed.

(** A table that is not there. *)
Definition missing {D R N} : Table D R N :=
  let e := PlainError "no such table" in
  {| tb_insert := fun _ => throw e; tb_find := fun _ => throw e; tb_update := fun _ _ => throw e;
     tb_delete := fun _ => throw e; tb_save := fun _ => throw e |}.

Definition drizzle_db {D} (ev : Table D EventRow EventData) (st sg : Table D StateRow StateRow) : DrizzleExecutor D :=
  {| dx_events := ev; dx_aggregateStates := st; dx_sagaStates := sg; dx_snapshots := Some st;
     dx_outbox := missing; dx_idempotency := missing |}.
Definition prisma_db {D} (ev : Table D EventRow EventData) (st sg : Table D StateRow StateRow) : PrismaExecutor D :=
  {| px_nodddeEvent := ev; px_nodddeAggregateState := st; px_nodddeSagaState := sg; px_nodddeSnapshot := st;
     px_nodddeOutboxEntry := missing; px_nodddeEventIdempotencyRecord := missing; px_model := fun _ => None |}.
Definition typeorm_db {D} (ev : Table D EventRow EventData) (st sg : Table D StateRow StateRow) : EntityManager D :=
  {| em_events := Some ev; em_aggregateStates := Some st; em_sagaStates := Some sg; em_snapshots := Some st;
     em_outbox := None; em_idempotency := missing; em_entity := missing |}.

Lemma events_table_spec taken k accepts (taken_error : js_error -> Prop) affected :
  (forall n, affected (reports k n) = Z.of_nat n) -> taken_error taken ->
  TableSpec (events_table taken k) (fun l => l) snd same_stream_number accepts taken_error affected.
Proof. intros Hn Ht. by apply ListTable.spec. Qed.

Lemma states_table_spec taken k accepts (taken_error : js_error -> Prop) affected :
  (forall n, affected (reports k n) = Z.of_nat n) -> taken_error taken ->
  TableSpec (states_table taken k) (fun l => l) id same_instance accepts taken_error affected.
Proof. intros Hn Ht. by apply ListTable.spec. Qed.

(** ** Event stores *)

(** C9. The three SQL event stores are append-only logs.  Over a table that behaves as
    documented, a load gives the events of the stream in order, a load after a version
    the ones after it, and a save at a version that has been reached appends the events
    (as JSON carries them) exactly when the stream has that version; when it has not,
    nothing is written and a [ConcurrencyError] is thrown, and only then: the errors that
    the drivers document for a taken key ([Drivers]) are recognised, and no other one is.
    Any other failure of the database is thrown as it is and changes nothing.  [store] is
    the running transaction, [nativeJson] the mode of the Drizzle adapter. *)
Theorem sql_event_stores_append_only {D1 D2 D3}
    (drizzle_store : option (DrizzleExecutor D1)) (db : DrizzleExecutor D1) (rows1 : D1 -> list EventRow)
    (prisma_store : option (PrismaExecutor D2)) (prisma : PrismaExecutor D2) (rows2 : D2 -> list EventRow)
    (typeorm_store : option (EntityManager D3)) (dataSource : EntityManager D3) (rows3 : D3 -> list EventRow)
    (t : Table D3 EventRow EventData) (nativeJson : bool) (now : Z) :
  common_era now ->
  TableSpec (dx_events (getExecutor drizzle_store db)) rows1 snd same_stream_number (event_accepted nativeJson)
    Drivers.drizzle_taken affected_rows ->
  TableSpec (px_nodddeEvent (getExecutor prisma_store prisma)) rows2 snd same_stream_number (event_accepted false)
    Drivers.prisma_taken prisma_affected ->
  em_events (getExecutor typeorm_store dataSource) = Some t ->
  TableSpec t rows3 snd same_stream_number (event_accepted false) Drivers.typeorm_taken typeorm_affected ->
  SaveInserts t rows3 snd same_stream_number (event_accepted false) Drivers.typeorm_taken ->
  StreamRefinement (implements rows1 DrizzleEvents.deserializeEvent) (event_storable nativeJson)
    (DrizzleEvents.load drizzle_store db) (DrizzleEvents.loadAfterVersion drizzle_store db)
    (DrizzleEvents.save drizzle_store db nativeJson now) /\
  StreamRefinement (implements rows2 text_row_event) (event_storable false)
    (PrismaEvents.load prisma_store prisma) (PrismaEvents.loadAfterVersion prisma_store prisma)
    (PrismaEvents.save prisma_store prisma now) /\
  StreamRefinement (implements rows3 text_row_event) (event_storable false)
    (TypeORMEvents.load typeorm_store dataSource) (TypeORMEvents.loadAfterVersion typeorm_store dataSource)
    (TypeORMEvents.save typeorm_store dataSource now).
Proof.
  intros Hnow H1 H2 Ht H3 H4. split; [by apply drizzle_events | split; [by apply prisma_events |]].
  by eapply typeorm_events.
Qed.

Lemma sql_event_stores_append_only_witness :
  let d := drizzle_db (events_table pg_duplicate "rowCount") missing missing in
  let p := prisma_db (events_table prisma_duplicate "count") missing missing in
  let t := typeorm_db (events_table typeorm_duplicate "affected") missing missing in
  let stored save := snd (save "Order" "o-1" [placed] 0%nat []) in
  StreamRefinement (implements (fun l : list EventRow => l) DrizzleEvents.deserializeEvent) (event_storable true)
    (DrizzleEvents.load None d) (DrizzleEvents.loadAfterVersion None d) (DrizzleEvents.save None d true 0) /\
  fst (DrizzleEvents.save None d true 0 "Order" "o-1" [placed] 0 []) = Ok tt /\
  fst (DrizzleEvents.save None d true 0 "Order" "o-1" [placed] 0 (stored (DrizzleEvents.save None d true 0)))
  = Err (ConcurrencyError "Order" (IdStr "o-1") 0 (-1)) /\
  StreamRefinement (implements (fun l : list EventRow => l) text_row_event) (event_storable false)
    (PrismaEvents.load None p) (PrismaEvents.loadAfterVersion None p) (PrismaEvents.save None p 0) /\
  fst (PrismaEvents.save None p 0 "Order" "o-1" [placed] 0 (stored (PrismaEvents.save None p 0)))
  = Err (ConcurrencyError "Order" (IdStr "o-1") 0 (-1)) /\
  StreamRefinement (implements (fun l : list EventRow => l) text_row_event) (event_storable false)
    (TypeORMEvents.load None t) (TypeORMEvents.loadAfterVersion None t) (TypeORMEvents.save None t 0) /\
  fst (TypeORMEvents.save None t 0 "Order" "o-1" [placed] 0 (stored (TypeORMEvents.save None t 0)))
  = Err (ConcurrencyError "Order" (IdStr "o-1") 0 (-1)).
Proof.
  cbv zeta.
  destruct (sql_event_stores_append_only None (drizzle_db (events_table pg_duplicate "rowCount") missing missing) (fun l => l)
    None (prisma_db (events_table prisma_duplicate "count") missing missing) (fun l => l)
    None (typeorm_db (events_table typeorm_duplicate "affected") missing missing) (fun l => l)
    (events_table typeorm_duplicate "affected") true 0) as (H1 & H2 & H3).
  - unfold common_era. lia.
  - apply events_table_spec; [done | apply pg_duplicate_taken].
  - apply events_table_spec; [done | apply prisma_duplicate_taken].
  - reflexivity.
  - apply events_table_spec; [done | apply typeorm_duplicate_taken].
  - apply ListTable.save_spec with (affected := typeorm_affected); try done. apply typeorm_duplicate_taken.
  - split; [exact H1 |]. split; [vm_compute; reflexivity |]. split; [vm_compute; reflexivity |].
    split; [exact H2 |]. split; [vm_compute; reflexivity |]. split; [exact H3 | vm_compute; reflexivity].
Defined.

(** ** Stores of versioned states *)

(** C10. The SQL stores of states are compare-and-set: for the shared state-stored
    persistence of the three adapters and the saga persistence of Drizzle and Prisma,
    over a table that behaves as documented, a load gives the state and the version that
    are stored, and a save replaces them exactly when the version is the expected one
    (an absent instance has version 0) and is refused with a [ConcurrencyError] exactly
    when it is not, in one statement: of two writers that have read the same version the
    first one succeeds and the second one gets the [ConcurrencyError].  Any other failure
    of the database is thrown as it is and changes nothing.  The saga store of Drizzle
    reads the message of the error, so a server that speaks English is assumed there. *)
Theorem sql_state_stores_compare_and_set {D1 D2 D3}
    (drizzle_store : option (DrizzleExecutor D1)) (db : DrizzleExecutor D1) (rows1 rows1' : D1 -> list StateRow)
    (prisma_store : option (PrismaExecutor D2)) (prisma : PrismaExecutor D2) (rows2 rows2' : D2 -> list StateRow)
    (typeorm_store : option (EntityManager D3)) (dataSource : EntityManager D3) (rows3 : D3 -> list StateRow)
    (t : Table D3 StateRow StateRow) (nativeJson : bool) :
  TableSpec (dx_aggregateStates (getExecutor drizzle_store db)) rows1 id same_instance (state_accepted nativeJson)
    Drivers.drizzle_taken affected_rows ->
  TableSpec (dx_sagaStates (getExecutor drizzle_store db)) rows1' id same_instance (state_accepted nativeJson)
    Drivers.drizzle_taken_in_english saga_affected_rows ->
  TableSpec (px_nodddeAggregateState (getExecutor prisma_store prisma)) rows2 id same_instance (state_accepted false)
    Drivers.prisma_taken prisma_affected ->
  TableSpec (px_nodddeSagaState (getExecutor prisma_store prisma)) rows2' id same_instance (state_accepted false)
    Drivers.prisma_taken prisma_affected ->
  em_aggregateStates (getExecutor typeorm_store dataSource) = Some t ->
  TableSpec t rows3 id same_instance (state_accepted false) Drivers.typeorm_taken typeorm_affected ->
  let compare_and_set {D} (implements : D -> CompareAndSet.cells -> Prop) ok load save :=
    CellRefinement implements ok load save /\ one_writer_wins implements ok save in
  compare_and_set (holds_cells rows1 read_column) (storable nativeJson)
    (DrizzleStates.load drizzle_store db) (DrizzleStates.save drizzle_store db nativeJson) /\
  compare_and_set (holds_cells rows1' read_column) (storable nativeJson)
    (DrizzleSagas.load drizzle_store db) (DrizzleSagas.save drizzle_store db nativeJson) /\
  compare_and_set (holds_cells rows2 parse_column) text_storable
    (PrismaStates.load prisma_store prisma) (PrismaStates.save prisma_store prisma) /\
  compare_and_set (holds_cells rows2' parse_column) text_storable
    (PrismaSagas.load prisma_store prisma) (PrismaSagas.save prisma_store prisma) /\
  compare_and_set (holds_cells rows3 parse_column) text_storable
    (TypeORMStates.load typeorm_store dataSource) (TypeORMStates.save typeorm_store dataSource).
Proof.
  intros H1 H2 H3 H4 Ht H5. cbv zeta beta.
  assert (Hcas : forall D (implements : D -> CompareAndSet.cells -> Prop) ok load save,
    CellRefinement implements ok load save -> CellRefinement implements ok load save /\ one_writer_wins implements ok save)
    by (intros D implements ok load save H; split; [done | by eapply compare_and_set_one_writer]).
  split; [apply Hcas; by apply drizzle_states | split; [apply Hcas; by apply drizzle_sagas |]].
  split; [apply Hcas; by apply prisma_states | split; [apply Hcas; by apply prisma_sagas |]].
  apply Hcas. by eapply typeorm_states.
Qed.

Lemma sql_state_stores_compare_and_set_witness :
  let d := drizzle_db missing (states_table pg_duplicate "changes") (states_table pg_duplicate "changes") in
  let p := prisma_db missing (states_table prisma_duplicate "count") (states_table prisma_duplicate "count") in
  let t := typeorm_db missing (states_table typeorm_duplicate "affected") missing in
  let row := {| sr_name := "Cart"; sr_id := "c-1"; sr_state := VStr "4"; sr_version := 2 |} in
  let twice save v := let (first, l) := (save "Cart" "c-1" (VNum 5) v [row] : result unit * _) in
    (first, fst (save "Cart" "c-1" (VNum 6) v l)) in
  let conflict v := Err (ConcurrencyError "Cart" (IdStr "c-1") v (-1)) in
  one_writer_wins (holds_cells (fun l : list StateRow => l) read_column) (storable false) (DrizzleSagas.save None d false) /\
  CellRefinement (holds_cells (fun l : list StateRow => l) parse_column) text_storable
    (TypeORMStates.load None t) (TypeORMStates.save None t) /\
  twice (DrizzleStates.save None d false) 2%nat = (Ok tt, conflict 2%nat) /\
  twice (DrizzleSagas.save None d false) 2%nat = (Ok tt, conflict 2%nat) /\
  twice (PrismaStates.save None p) 2%nat = (Ok tt, conflict 2%nat) /\
  twice (TypeORMStates.save None t) 2%nat = (Ok tt, conflict 2%nat) /\
  twice (DrizzleStates.save None d false) 0%nat = (conflict 0%nat, conflict 0%nat) /\
  twice (DrizzleSagas.save None d false) 0%nat = (conflict 0%nat, conflict 0%nat) /\
  twice (PrismaSagas.save None p) 0%nat = (conflict 0%nat, conflict 0%nat) /\
  twice (TypeORMStates.save None t) 0%nat = (conflict 0%nat, conflict 0%nat).
Proof.
  cbv zeta.
  destruct (sql_state_stores_compare_and_set
    None (drizzle_db missing (states_table pg_duplicate "changes") (states_table pg_duplicate "changes")) (fun l => l) (fun l => l)
    None (prisma_db missing (states_table prisma_duplicate "count") (states_table prisma_duplicate "count")) (fun l => l) (fun l => l)
    None (typeorm_db missing (states_table typeorm_duplicate "affected") missing) (fun l => l)
    (states_table typeorm_duplicate "affected") false) as (_ & [_ Hsaga] & _ & _ & [Hstate _]).
  1: by apply states_table_spec; [| apply pg_duplicate_taken].
  1: by apply states_table_spec; [| apply pg_duplicate_in_english].
  1-2: by apply states_table_spec; [| apply prisma_duplicate_taken].
  1: reflexivity.
  1: by apply states_table_spec; [| apply typeorm_duplicate_taken].
  split; [exact Hsaga | split; [exact Hstate |]]. repeat split; vm_compute; reflexivity.
Defined.

(** ** Where they differ from their contract *)

(** The row of a saga at version [v] in a table in memory. *)
Definition saga_row (name id : string) (enc : value) (v : nat) : StateRow :=
  {| sr_name := name; sr_id := id; sr_state := enc; sr_version := v |}.

(** The saga store of the TypeORM adapter loses updates.  It reads the row, compares
    the version in memory and then writes unconditionally: when two writers that expect
    version [v] both read before either writes, both succeed, the second overwrites the
    first, and the version counts one write. *)
Theorem typeorm_saga_lost_update (name id : string) (enc enc1 enc2 : value) (v : nat) (taken : js_error) (k : string) :
  let t := states_table taken k in
  let before := [saga_row name id enc v] in
  exists read1 read2,
    tb_find t (TypeORMStates.one_instance name id) before = (Ok read1, before) /\
    tb_find t (TypeORMStates.one_instance name id) before = (Ok read2, before) /\
    TypeORMSagas.write t name id enc1 v (hd_error read1) before = (Ok tt, [saga_row name id enc1 (S v)]) /\
    TypeORMSagas.write t name id enc2 v (hd_error read2) [saga_row name id enc1 (S v)]
    = (Ok tt, [saga_row name id enc2 (S v)]).
Proof.
  assert (Hrow : forall e w, is_instance name id (saga_row name id e w) = true)
    by (intros; unfold is_instance; cbn; by rewrite !String.eqb_refl).
  assert (Hkey : forall e w e' w', same_instance (saga_row name id e w) (saga_row name id e' w') = true)
    by (intros; unfold same_instance; cbn; by rewrite !String.eqb_refl).
  assert (Hfind : tb_find (states_table taken k) (TypeORMStates.one_instance name id) [saga_row name id enc v]
    = (Ok [saga_row name id enc v], [saga_row name id enc v]))
    by (cbn -[saga_row is_instance]; unfold ListTable.find; cbn -[saga_row is_instance]; by rewrite Hrow).
  cbv zeta. exists [saga_row name id enc v], [saga_row name id enc v].
  split; [exact Hfind | split; [exact Hfind |]].
  unfold TypeORMSagas.write, try_catch. cbn [hd_error sr_version saga_row]. rewrite Nat.eqb_refl. cbn [negb].
  cbn -[saga_row same_instance]. unfold ListTable.save, bind, ret. cbn -[saga_row same_instance].
  assert (Hns : forall e e' w w', new_state e' w' (saga_row name id e w) = saga_row name id e' w') by done.
  by rewrite !Hns, !Hkey.
Qed.

(** A saga update with the driver of [drizzle-orm/postgres-js], which reports the
    matched rows as [count], is written and then reported as a conflict. *)
Theorem drizzle_saga_count_driver (name id : string) (enc state : value) (v : nat) (taken : js_error) :
  v <> 0%nat ->
  let db := drizzle_db missing missing (states_table taken "count") in
  DrizzleSagas.save None db true name id state v [saga_row name id enc v]
  = (Err (ConcurrencyError name (IdStr id) v (-1)), [saga_row name id state (S v)]).
Proof.
  intros Hv. cbv zeta. unfold DrizzleSagas.save, bind, lift_result. cbn -[at_version].
  destruct v as [| v]; [done |]. cbn -[at_version]. unfold ListTable.update.
  assert (Hat : at_version name id (S v) (saga_row name id enc (S v)) = true)
    by (unfold at_version, is_instance; cbn; by rewrite !String.eqb_refl, Nat.eqb_refl).
  cbn -[at_version]. by rewrite Hat.
Qed.

(** Every constraint that SQLite reports counts as a taken key: a missing payload
    (a [NOT NULL] constraint) is reported as a [ConcurrencyError]. *)
Theorem sqlite_constraint_is_conflict (rest : string) :
  DrizzleErrors.isUniqueViolation (DriverError [("code", VStr (String.append "SQLITE_CONSTRAINT" rest))]) = true /\
  TypeORMErrors.isUniqueViolation (DriverError [("code", VStr (String.append "SQLITE_CONSTRAINT" rest))]) = true.
Proof. by split; destruct rest. Qed.

(** A payload that is a text cannot be read back from a column of JSON: the text of
    the payload is parsed. *)
Theorem drizzle_native_text_payload :
  exists row, DrizzleEvents.event_row true 0 "Note" "n-1" 0 0
    {| ev_name := "NoteWritten"; ev_payload := VStr "hello"; ev_metadata := None |} = Ok row /\
  DrizzleEvents.deserializeEvent row = Err SyntaxError.
Proof. eexists. split; [vm_compute; reflexivity |]. vm_compute. reflexivity. Qed.

(** ** Event readers *)

(** C19. The event readers of the three adapters read the whole log.  Over a table that
    behaves as documented, whose generated identifiers are distinct and positive, a full
    read of the events of one aggregate name (or of all) terminates with as many batches
    as rows and one, and yields exactly the stored events, in the order of the
    identifiers; reading changes nothing. *)
Theorem sql_event_readers_complete {D} (t : Table D EventRow EventData) (rows : D -> list EventRow)
    (accepts : EventData -> Prop) (taken_error : js_error -> Prop) (affected : value -> Z)
    (batchSize : nat) (aggregateName : option string) (d : D) (full : list EventRow) (fuel : nat) :
  TableSpec t rows snd same_stream_number accepts taken_error affected ->
  (1 <= batchSize)%nat ->
  List.filter (of_aggregate aggregateName) (rows d) ≡ₚ full -> in_id_order full ->
  (forall r, r ∈ full -> (0 < er_id r)%Z) -> (length full < fuel)%nat ->
  let complete decode read :=
    (forall r, r ∈ full -> exists e, decode r = Ok e) ->
    wp read (fun found d' => d' = d /\ exists events, found = Some events /\ map_result decode full = Ok events)
       (fun e d' => d' = d /\ is_concurrency_error e = false) d in
  complete (fun r => DrizzleEvents.deserializeEvent (snd r)) (DrizzleReader.read t batchSize fuel aggregateName 0) /\
  complete PrismaReader.row_event (PrismaReader.read t fuel aggregateName 0) /\
  complete TypeORMReader.deserializeEvent (TypeORMReader.read t fuel aggregateName 0).
Proof.
  intros Hspec Hbatch Hperm Hord Hpos Hfuel.
  assert (Hall : List.filter (after_id 0) full = full).
  { clear - Hpos. induction full as [| r full IH]; [done |]. cbn.
    rewrite IH by (intros x Hx; apply Hpos; by right).
    unfold after_id. by rewrite (proj2 (Z.ltb_lt _ _)) by (apply Hpos; left). }
  assert (Hread : forall decode n, (1 <= n)%nat -> (forall r, r ∈ full -> exists e, decode r = Ok e) ->
    wp (read_log t decode n fuel aggregateName 0)
      (fun found d' => d' = d /\ exists events, found = Some events /\ map_result decode full = Ok events)
      (fun e d' => d' = d /\ is_concurrency_error e = false) d).
  { intros decode n Hn Hdec.
    eapply wp_mono; [eapply (read_log_from t rows accepts taken_error affected decode n aggregateName Hn d full Hperm Hord Hdec fuel 0); by rewrite Hall | | by intros e d' [-> [He _]]].
    intros found d' (-> & events & -> & E). rewrite Hall in E. by split; [| exists events]. }
  cbv zeta. split; [intros Hdec; exact (Hread _ batchSize Hbatch Hdec) |].
  split; intros Hdec; exact (Hread _ 500%nat (le_n_S 0 499 (Nat.le_0_l 499)) Hdec).
Qed.

Lemma sql_event_readers_complete_witness :
  let d1 := {| er_aggregateName := "Order"; er_aggregateId := "o-1"; er_sequenceNumber := 1; er_eventName := "Placed";
               er_payload := VStr "1"; er_metadata := VNull; er_createdAt := VDate 0 |} in
  let log := [(1%Z, d1)] : list EventRow in
  wp (DrizzleReader.read (events_table pg_duplicate "rowCount") 1 2 None 0)
    (fun found l => l = log /\ exists events, found = Some events /\
       map_result (fun r => DrizzleEvents.deserializeEvent (snd r)) log = Ok events)
    (fun e l => l = log /\ is_concurrency_error e = false) log.
Proof.
  cbv zeta.
  eapply (proj1 (sql_event_readers_complete (events_table pg_duplicate "rowCount") (fun l => l) (fun _ => True)
    Drivers.drizzle_taken affected_rows 1 None _ _ 2 _ _ _ _ _ _)).
  intros r ->%list_elem_of_singleton. by eexists.
  Unshelve.
  - apply events_table_spec; [done | apply pg_duplicate_taken].
  - lia.
  - reflexivity.
  - repeat constructor.
  - intros r ->%list_elem_of_singleton. cbn. lia.
  - cbn. lia.
Defined.
