(* ===== verification/SqlAdapters.v ===== *)
(** Dedicated state tables of the Drizzle adapter
    ([drizzle/src/dedicated-state-persistence.ts], [json-state-mapper.ts]) and the
    assembly of the three SQL adapters: [createDrizzleAdapter] and [DrizzleAdapter]
    ([drizzle/src/builder.ts], [drizzle-adapter.ts]), [createPrismaAdapter] and
    [PrismaAdapter], [createTypeORMAdapter] and [TypeORMAdapter].  An assembled adapter
    is the record of its stores for a given transaction context; the factories of the
    units of work are in [UnitOfWork.v]. *)
From S2P Require Import Prelude Text Json JsMap CoreTypes Errors Wire Stores Sql SqlRefine.
From S2P Require Import DrizzleStores PrismaStores TypeormStores.
Local Open Scope string_scope.

(** ** Columns of a Drizzle table *)

(** A column object: its identity, and its name in the database. *)
Record Column : Type := { col_ref : nat; col_name : option string }.
(** [Object.entries(table)], as far as columns are concerned. *)
Definition TableColumns : Type := list (string * Column).

Definition key_of_column (table : TableColumns) (column : Column) : option string :=
  option_map fst (List.find (fun kc => (col_ref (snd kc) =? col_ref column)%nat) table).

(** [tableAsAny[key]] *)
Definition column_at (table : TableColumns) (key : string) : option Column := mget key table.

Record DrizzleStateMapper : Type := {
  dm_aggregateIdColumn : Column;
  dm_versionColumn : Column;
  dm_toRow : value -> result ObjRow;
  dm_fromRow : ObjRow -> result value
}.

Module DrizzleDedicated.

Definition column_not_found (column : Column) : js_error :=
  let columnName := or_default (col_name column) EmptyString in
  PlainError ("Column reference" ++ (if String.eqb columnName EmptyString then "" else " " ++ quoted columnName) ++
    " not found among the table's properties. The mapper's aggregateIdColumn / " ++
    "versionColumn must be columns from the same Drizzle table passed to stateStored() / aggregateStates.").

Definition findKeyForColumn (table : TableColumns) (column : Column) : result string :=
  match key_of_column table column with Some key => Ok key | None => Err (column_not_found column) end.

(** The fields that the constructor sets. *)
Record persistence : Type := { dp_idKey : string; dp_versionKey : string; dp_mapper : DrizzleStateMapper }.

Definition create (table : TableColumns) (mapper : DrizzleStateMapper) : result persistence :=
  result_bind (findKeyForColumn table (dm_aggregateIdColumn mapper)) (fun idKey =>
  result_bind (findKeyForColumn table (dm_versionColumn mapper)) (fun versionKey =>
  Ok {| dp_idKey := idKey; dp_versionKey := versionKey; dp_mapper := mapper |})).

Section methods.
Context {D : Type} (store : option (Table D ObjRow ObjRow)) (db : Table D ObjRow ObjRow) (this : persistence).

Definition save (aggregateName aggregateId : string) (state : value) (expectedVersion : nat) : M D unit :=
  let table := getExecutor store db in
  stateRow <- lift_result (dm_toRow (dp_mapper this) state) ;;
  if (expectedVersion =? 0)%nat then
    try_catch
      (tb_insert table [set_prop (dp_versionKey this) (VNum 1) (set_prop (dp_idKey this) (VStr aggregateId) stateRow)])
      (fun error =>
         if DrizzleErrors.isUniqueViolation error
         then throw (ConcurrencyError aggregateName (IdStr aggregateId) expectedVersion (-1))
         else throw error)
  else
    result <- tb_update table
      (fun r => is_text aggregateId (Sql.column (dp_idKey this) r) &&
                is_number (Z.of_nat expectedVersion) (Sql.column (dp_versionKey this) r))
      (fun r => assign r (set_prop (dp_versionKey this) (nat_value (S expectedVersion)) stateRow)) ;;
    if is_number 0 (getRowsAffected result)
    then throw (ConcurrencyError aggregateName (IdStr aggregateId) expectedVersion (-1))
    else ret tt.

Definition load (aggregateName aggregateId : string) : M D (option (value * value)) :=
  rows <- tb_find (getExecutor store db) (where_ (fun r => is_text aggregateId (Sql.column (dp_idKey this) r))) ;;
  match rows with
  | [] => ret None
  | row :: _ =>
      let versionValue := Sql.column (dp_versionKey this) row in
      let stateRow := del_prop (dp_versionKey this) (del_prop (dp_idKey this) row) in
      state <- lift_result (dm_fromRow (dp_mapper this) stateRow) ;;
      ret (Some (state, versionValue))
  end.
End methods.

(** [jsonStateMapper(table, options)] *)
Definition missing_columns (aggregateIdColumn stateColumn versionColumn : option Column) : list string :=
  (if is_some aggregateIdColumn then [] else ["aggregateId"]) ++
  (if is_some stateColumn then [] else ["state"]) ++
  (if is_some versionColumn then [] else ["version"]).

Definition jsonStateMapper (table : TableColumns) (aggregateIdColumn versionColumn stateColumn : option Column)
  : result DrizzleStateMapper :=
  let resolve given key := match given with Some c => Some c | None => column_at table key end in
  let aggregateIdColumn := resolve aggregateIdColumn "aggregateId" in
  let versionColumn := resolve versionColumn "version" in
  let stateColumn := resolve stateColumn "state" in
  match aggregateIdColumn, versionColumn, stateColumn with
  | Some idc, Some vc, Some sc =>
      let stateKey := or_default (key_of_column table sc) (or_default (col_name sc) "undefined") in
      Ok {| dm_aggregateIdColumn := idc; dm_versionColumn := vc;
            dm_toRow := fun state => result_bind (text_column state) (fun t => Ok [(stateKey, t)]);
            dm_fromRow := fun row => match Sql.column stateKey row with VStr t => parse t | v => Ok v end |}
  | _, _, _ =>
      Err (PlainError ("jsonStateMapper: missing required columns — " ++
        String.concat ", " (missing_columns aggregateIdColumn stateColumn versionColumn) ++
        ". Provide them via options (aggregateIdColumn, stateColumn, versionColumn) " ++
        "or ensure the table has JS keys named " ++ quoted "aggregateId" ++ ", " ++ quoted "state" ++ ", " ++
        quoted "version" ++ "."))
  end.
End DrizzleDedicated.

(** ** Assembled adapters *)

Record StreamStore (D : Type) : Type := {
  es_sql_load : string -> string -> M D (list event);
  es_sql_loadAfter : string -> string -> nat -> M D (list event);
  es_sql_save : Z -> string -> string -> list event -> nat -> M D unit   (** [now] first *)
}.
Arguments es_sql_load {D} _.
Arguments es_sql_loadAfter {D} _.
Arguments es_sql_save {D} _.

Record CellStore (D V : Type) : Type := {
  cs_load : string -> string -> M D (option (value * V));
  cs_save : string -> string -> value -> nat -> M D unit
}.
Arguments cs_load {D V} _.
Arguments cs_save {D V} _.

Record SnapshotCells (D : Type) : Type := {
  sc_load : string -> string -> M D (option Snapshot);
  sc_save : string -> string -> Snapshot -> M D unit
}.

Record OutboxTable (D : Type) : Type := {
  ot_save : list OutboxEntry -> M D unit;
  ot_loadUnpublished : (Z -> Z) -> nat -> M D (list OutboxEntry);
  ot_markPublished : Z -> list string -> M D unit;
  ot_markPublishedByEventIds : Z -> list string -> M D unit;
  ot_deletePublished : option Z -> M D unit
}.

Record SqlAdapter (D : Type) : Type := {
  sa_events : StreamStore D;
  sa_sagas : CellStore D nat;
  sa_states : option (CellStore D nat);
  sa_snapshots : option (SnapshotCells D);
  sa_outbox : option (OutboxTable D);
  sa_eventReader : nat -> option string -> M D (option (list event));
  sa_stateStoreFor : option (string -> result (CellStore D value));
  sa_hasLocker : bool
}.
Arguments sa_events {D} _.
Arguments sa_sagas {D} _.
Arguments sa_states {D} _.
Arguments sa_snapshots {D} _.
Arguments sa_outbox {D} _.
Arguments sa_eventReader {D} _.
Arguments sa_stateStoreFor {D} _.
Arguments sa_hasLocker {D} _.

(** [for (const [name, aggConfig] of Object.entries(config.aggregateStates)) dedicatedStores.set(name, new ...)] *)
Fixpoint dedicated_stores {C A} (make : string -> C -> result A) (entries : list (string * C)) (stores : jsmap A)
  : result (jsmap A) :=
  match entries with
  | [] => Ok stores
  | (name, c) :: entries' => result_bind (make name c) (fun s => dedicated_stores make entries' (mset name s stores))
  end.

(** *** Drizzle *)

Inductive DrizzleDialect : Type := Pg | Mysql | Sqlite.

(** [db._.dialect.constructor.name], [db.dialect.constructor.name], [db.dialect.name] *)
Record DialectNames : Type := { dn_session : option string; dn_constructor : option string; dn_name : option string }.

Definition inferDialect (db : DialectNames) : result DrizzleDialect :=
  let dialectName := match dn_session db with Some n => Some n | None =>
                     match dn_constructor db with Some n => Some n | None => dn_name db end end in
  let missing := PlainError ("Could not infer dialect from Drizzle db instance. " ++
    "Ensure you are passing a valid Drizzle database instance.") in
  match dialectName with
  | None => Err missing
  | Some name =>
      if String.eqb name EmptyString then Err missing else
      let normalized := lower_case name in
      if includes "pg" normalized || includes "postgres" normalized then Ok Pg else
      if includes "mysql" normalized then Ok Mysql else
      if includes "sqlite" normalized then Ok Sqlite else
      Err (PlainError ("Unrecognized Drizzle dialect: " ++ quoted name ++ ". Supported dialects: pg, mysql, sqlite."))
  end.

Section drizzle.
Context {D : Type} (store : option (DrizzleExecutor D)) (db : DrizzleExecutor D).

Definition drizzle_events_store (nativeJson : bool) : StreamStore D :=
  {| es_sql_load := DrizzleEvents.load store db; es_sql_loadAfter := DrizzleEvents.loadAfterVersion store db;
     es_sql_save := DrizzleEvents.save store db nativeJson |}.
Definition drizzle_sagas_store (nativeJson : bool) : CellStore D nat :=
  {| cs_load := DrizzleSagas.load store db; cs_save := DrizzleSagas.save store db nativeJson |}.
Definition drizzle_states_store (nativeJson : bool) : CellStore D nat :=
  {| cs_load := DrizzleStates.load store db; cs_save := DrizzleStates.save store db nativeJson |}.
Definition drizzle_snapshots_store (nativeJson : bool) : SnapshotCells D :=
  {| sc_load := DrizzleSnapshots.load store db; sc_save := DrizzleSnapshots.save store db nativeJson |}.
Definition drizzle_outbox_store (nativeJson : bool) : OutboxTable D :=
  {| ot_save := DrizzleOutbox.save store db nativeJson; ot_loadUnpublished := DrizzleOutbox.loadUnpublished store db;
     ot_markPublished := DrizzleOutbox.markPublished store db;
     ot_markPublishedByEventIds := DrizzleOutbox.markPublishedByEventIds store db;
     ot_deletePublished := DrizzleOutbox.deletePublished store db |}.

(** [AggregateStateTableConfig], with the operations on its table. *)
Record DrizzleAggregateConfig : Type := {
  dc_table : TableColumns;
  dc_mapper : DrizzleStateMapper;
  dc_store : option (Table D ObjRow ObjRow);
  dc_db : Table D ObjRow ObjRow
}.

(** [adapter.stateStored(table, { mapper })] *)
Definition drizzle_stateStored (c : DrizzleAggregateConfig) : result (CellStore D value) :=
  result_bind (DrizzleDedicated.create (dc_table c) (dc_mapper c)) (fun this =>
  Ok {| cs_load := DrizzleDedicated.load (dc_store c) (dc_db c) this;
        cs_save := DrizzleDedicated.save (dc_store c) (dc_db c) this |}).
Definition drizzle_dedicated (name : string) (c : DrizzleAggregateConfig) : result (CellStore D value) :=
  drizzle_stateStored c.

(** [DrizzleAdapterConfig]: which of the optional tables are given. *)
Record DrizzleAdapterConfig : Type := {
  da_stateStore : bool;
  da_snapshotStore : bool;
  da_outboxStore : bool;
  da_aggregateStates : option (list (string * DrizzleAggregateConfig))
}.

(** [dialect === "pg" || dialect === "mysql"], and [dialect === "pg"] *)
Definition events_native (dialect : option DrizzleDialect) : bool :=
  match dialect with Some Pg | Some Mysql => true | _ => false end.
Definition state_native (dialect : option DrizzleDialect) : bool :=
  match dialect with Some Pg => true | _ => false end.

Definition createDrizzleAdapter (names : DialectNames) (config : DrizzleAdapterConfig) : result (SqlAdapter D) :=
  let dialect := match inferDialect names with Ok d => Some d | Err _ => None end in
  let eventsAndOutboxNativeJson := events_native dialect in
  let stateNativeJson := state_native dialect in
  result_bind (match da_aggregateStates config with
               | None => Ok None
               | Some entries => result_bind (dedicated_stores drizzle_dedicated entries empty) (fun m => Ok (Some (stateStoreFor m)))
               end) (fun stateStoreFor =>
  Ok {| sa_events := drizzle_events_store eventsAndOutboxNativeJson;
        sa_sagas := drizzle_sagas_store stateNativeJson;
        sa_states := if da_stateStore config then Some (drizzle_states_store stateNativeJson) else None;
        sa_snapshots := if da_snapshotStore config then Some (drizzle_snapshots_store stateNativeJson) else None;
        sa_outbox := if da_outboxStore config then Some (drizzle_outbox_store eventsAndOutboxNativeJson) else None;
        sa_eventReader := fun fuel name => DrizzleReader.read (dx_events db) 500 fuel name 0;
        sa_stateStoreFor := stateStoreFor;
        sa_hasLocker := false |}).

(** [new DrizzleAdapter(db)]: here an unknown dialect throws, and every store is there. *)
Definition DrizzleAdapter (names : DialectNames) : result (SqlAdapter D) :=
  result_bind (inferDialect names) (fun dialect =>
  let eventsAndOutboxNativeJson := events_native (Some dialect) in
  let stateNativeJson := state_native (Some dialect) in
  Ok {| sa_events := drizzle_events_store eventsAndOutboxNativeJson;
        sa_sagas := drizzle_sagas_store stateNativeJson;
        sa_states := Some (drizzle_states_store stateNativeJson);
        sa_snapshots := Some (drizzle_snapshots_store stateNativeJson);
        sa_outbox := Some (drizzle_outbox_store eventsAndOutboxNativeJson);
        sa_eventReader := fun fuel name => DrizzleReader.read (dx_events db) 500 fuel name 0;
        sa_stateStoreFor := None;
        sa_hasLocker := false |}).
End drizzle.

(** *** Prisma *)

Section prisma.
Context {D : Type} (store : option (PrismaExecutor D)) (prisma : PrismaExecutor D).

Definition prisma_events_store : StreamStore D :=
  {| es_sql_load := PrismaEvents.load store prisma; es_sql_loadAfter := PrismaEvents.loadAfterVersion store prisma;
     es_sql_save := PrismaEvents.save store prisma |}.
Definition prisma_sagas_store : CellStore D nat :=
  {| cs_load := PrismaSagas.load store prisma; cs_save := PrismaSagas.save store prisma |}.
Definition prisma_states_store : CellStore D nat :=
  {| cs_load := PrismaStates.load store prisma; cs_save := PrismaStates.save store prisma |}.
Definition prisma_snapshots_store : SnapshotCells D :=
  {| sc_load := PrismaSnapshots.load store prisma; sc_save := PrismaSnapshots.save store prisma |}.
Definition prisma_outbox_store : OutboxTable D :=
  {| ot_save := PrismaOutbox.save store prisma; ot_loadUnpublished := fun _ => PrismaOutbox.loadUnpublished store prisma;
     ot_markPublished := PrismaOutbox.markPublished store prisma;
     ot_markPublishedByEventIds := PrismaOutbox.markPublishedByEventIds store prisma;
     ot_deletePublished := PrismaOutbox.deletePublished store prisma |}.

Definition prisma_model_missing (model rest : string) : js_error :=
  PlainError ("Prisma model " ++ quoted model ++ " not found on PrismaClient" ++ rest ++
    ". Ensure the model is defined in your Prisma schema and prisma generate has been run.").

(** [PrismaAggregateStateTableConfig]: the model and the mapper. *)
Definition prisma_dedicated (name : string) (c : string * PrismaStateMapper) : result (CellStore D value) :=
  if is_some (px_model prisma (fst c))
  then Ok {| cs_load := PrismaDedicated.load store prisma (fst c) (snd c);
             cs_save := PrismaDedicated.save store prisma (fst c) (snd c) |}
  else Err (prisma_model_missing (fst c) (" for aggregate " ++ quoted name)).

Record PrismaAdapterConfig : Type := {
  pa_snapshotStore : bool;
  pa_outboxStore : bool;
  pa_aggregateStates : option (list (string * (string * PrismaStateMapper)))
}.

Definition createPrismaAdapter (config : option PrismaAdapterConfig) : result (SqlAdapter D) :=
  let given f := match config with Some c => f c | None => false end in
  result_bind (match config with
               | Some {| pa_aggregateStates := Some entries |} =>
                   result_bind (dedicated_stores prisma_dedicated entries empty) (fun m => Ok (Some (stateStoreFor m)))
               | _ => Ok None
               end) (fun stateStoreFor =>
  Ok {| sa_events := prisma_events_store; sa_sagas := prisma_sagas_store; sa_states := Some prisma_states_store;
        sa_snapshots := if given pa_snapshotStore then Some prisma_snapshots_store else None;
        sa_outbox := if given pa_outboxStore then Some prisma_outbox_store else None;
        sa_eventReader := fun fuel name => PrismaReader.read (px_nodddeEvent prisma) fuel name 0;
        sa_stateStoreFor := stateStoreFor;
        sa_hasLocker := false |}).

(** [new PrismaAdapter(prisma, { dialect })] *)
Definition PrismaAdapter (hasDialect : bool) : SqlAdapter D :=
  {| sa_events := prisma_events_store; sa_sagas := prisma_sagas_store; sa_states := Some prisma_states_store;
     sa_snapshots := Some prisma_snapshots_store; sa_outbox := Some prisma_outbox_store;
     sa_eventReader := fun fuel name => PrismaReader.read (px_nodddeEvent prisma) fuel name 0;
     sa_stateStoreFor := None;
     sa_hasLocker := hasDialect |}.

(** [adapter.stateStored(model, { mapper })] *)
Definition prisma_stateStored (model : string) (mapper : PrismaStateMapper) : result (CellStore D value) :=
  if is_some (px_model prisma model)
  then Ok {| cs_load := PrismaDedicated.load store prisma model mapper;
             cs_save := PrismaDedicated.save store prisma model mapper |}
  else Err (prisma_model_missing model EmptyString).
End prisma.

(** *** TypeORM *)

Section typeorm.
Context {D : Type} (store : option (EntityManager D)) (dataSource : EntityManager D).

Definition typeorm_events_store : StreamStore D :=
  {| es_sql_load := TypeORMEvents.load store dataSource;
     es_sql_loadAfter := TypeORMEvents.loadAfterVersion store dataSource;
     es_sql_save := TypeORMEvents.save store dataSource |}.
Definition typeorm_sagas_store : CellStore D nat :=
  {| cs_load := TypeORMSagas.load store dataSource; cs_save := TypeORMSagas.save store dataSource |}.
Definition typeorm_states_store : CellStore D nat :=
  {| cs_load := TypeORMStates.load store dataSource; cs_save := TypeORMStates.save store dataSource |}.
Definition typeorm_snapshots_store : SnapshotCells D :=
  {| sc_load := TypeORMSnapshots.load store dataSource; sc_save := TypeORMSnapshots.save store dataSource |}.
Definition typeorm_outbox_store : OutboxTable D :=
  {| ot_save := TypeORMOutbox.save store dataSource;
     ot_loadUnpublished := fun _ => TypeORMOutbox.loadUnpublished store dataSource;
     ot_markPublished := TypeORMOutbox.markPublished store dataSource;
     ot_markPublishedByEventIds := TypeORMOutbox.markPublishedByEventIds store dataSource;
     ot_deletePublished := TypeORMOutbox.deletePublished store dataSource |}.

(** [TypeORMAggregateStateTableConfig]: the managers whose dedicated entity is the
    configured one, and the mapper. *)
Record TypeORMAggregateConfig : Type := {
  tc_store : option (EntityManager D);
  tc_dataSource : EntityManager D;
  tc_mapper : TypeORMStateMapper
}.

Definition typeorm_stateStored (c : TypeORMAggregateConfig) : CellStore D value :=
  {| cs_load := TypeORMDedicated.load (tc_store c) (tc_dataSource c) (tc_mapper c);
     cs_save := TypeORMDedicated.save (tc_store c) (tc_dataSource c) (tc_mapper c) |}.

Record TypeORMAdapterConfig : Type := {
  ta_snapshotStore : bool;
  ta_outboxStore : bool;
  ta_aggregateStates : option (list (string * TypeORMAggregateConfig))
}.

Definition createTypeORMAdapter (config : option TypeORMAdapterConfig) : result (SqlAdapter D) :=
  let given f := match config with Some c => f c | None => false end in
  result_bind (match config with
               | Some {| ta_aggregateStates := Some entries |} =>
                   result_bind (dedicated_stores (fun _ c => Ok (typeorm_stateStored c)) entries empty)
                     (fun m => Ok (Some (stateStoreFor m)))
               | _ => Ok None
               end) (fun stateStoreFor =>
  Ok {| sa_events := typeorm_events_store; sa_sagas := typeorm_sagas_store; sa_states := Some typeorm_states_store;
        sa_snapshots := if given ta_snapshotStore then Some typeorm_snapshots_store else None;
        sa_outbox := if given ta_outboxStore then Some typeorm_outbox_store else None;
        sa_eventReader := TypeORMReader.read_options dataSource;
        sa_stateStoreFor := stateStoreFor;
        sa_hasLocker := false |}).

(** [ADVISORY_LOCK_TYPES] *)
Definition ADVISORY_LOCK_TYPES : list string := ["postgres"; "mysql"; "mariadb"; "mssql"].

(** [new TypeORMAdapter(dataSource)]; [dbType] is [dataSource.options.type] *)
Definition TypeORMAdapter (dbType : string) : SqlAdapter D :=
  {| sa_events := typeorm_events_store; sa_sagas := typeorm_sagas_store; sa_states := Some typeorm_states_store;
     sa_snapshots := Some typeorm_snapshots_store; sa_outbox := Some typeorm_outbox_store;
     sa_eventReader := TypeORMReader.read_options dataSource;
     sa_stateStoreFor := None;
     sa_hasLocker := existsb (String.eqb dbType) ADVISORY_LOCK_TYPES |}.
End typeorm.

(** ** Facts *)

Lemma dedicated_stores_spec {C A} (make : string -> C -> result A) entries : forall stores,
  NoDup (map fst entries) ->
  match dedicated_stores make entries stores with
  | Ok m => forall name, mget name m = match mget name entries with
      | Some c => match make name c with Ok s => Some s | Err _ => None end
      | None => mget name stores
      end
  | Err e => exists name c, (name, c) ∈ entries /\ make name c = Err e
  end /\
  (is_ok (dedicated_stores make entries stores) = true -> forall name c, (name, c) ∈ entries -> is_ok (make name c) = true).
Proof.
  induction entries as [| [name c] entries IH]; intros stores; cbn -[mget].
  - intros _. split; [done |]. intros _ n c Hin. by apply not_elem_of_nil in Hin.
  - intros [Hname Hnd]%NoDup_cons. destruct (make name c) as [s | e] eqn:E; cbn -[mget].
    + destruct (IH (mset name s stores) Hnd) as [H1 H2]. split.
      * destruct (dedicated_stores make entries _) as [m | e] eqn:Em.
        -- intros n. rewrite H1. cbn. destruct (String.eqb_spec n name) as [-> | Hne].
           ++ rewrite (proj2 (mget_None_keys name entries)) by done. by rewrite mget_mset_eq, E.
           ++ by rewrite mget_mset_ne by done.
        -- destruct H1 as (n & c' & Hin & He). exists n, c'. split; [by right | done].
      * intros Hok n c' [[= -> ->] | Hin]%elem_of_cons; [by rewrite E | by apply H2].
    + split; [exists name, c; split; [left | done] | done].
Qed.

(** Dedicated tables of the Prisma adapter: for a configuration that names each
    aggregate once, [createPrismaAdapter] succeeds exactly when the client has every
    configured model; the adapter then has a dedicated store for exactly the configured
    aggregates, the one of the configured model, and asking for another aggregate
    throws; the optional stores are there exactly when they are configured. *)
Theorem prisma_dedicated_resolution {D} (store : option (PrismaExecutor D)) (prisma : PrismaExecutor D)
    (entries : list (string * (string * PrismaStateMapper))) (snapshots outbox : bool) :
  NoDup (map fst entries) ->
  let config := {| pa_snapshotStore := snapshots; pa_outboxStore := outbox; pa_aggregateStates := Some entries |} in
  (is_ok (createPrismaAdapter store prisma (Some config)) = true <->
     forall name model mapper, (name, (model, mapper)) ∈ entries -> px_model prisma model <> None) /\
  forall adapter, createPrismaAdapter store prisma (Some config) = Ok adapter ->
    is_some (sa_snapshots adapter) = snapshots /\ is_some (sa_outbox adapter) = outbox /\
    exists storeFor, sa_stateStoreFor adapter = Some storeFor /\
      forall name, storeFor name = match mget name entries with
        | Some (model, mapper) => Ok {| cs_load := PrismaDedicated.load store prisma model mapper;
                                        cs_save := PrismaDedicated.save store prisma model mapper |}
        | None => Err (no_dedicated_table name)
        end.
Proof.
  intros Hnd config. destruct (dedicated_stores_spec (prisma_dedicated store prisma) entries empty Hnd) as [H1 H2].
  unfold createPrismaAdapter. cbn [config pa_aggregateStates pa_snapshotStore pa_outboxStore].
  destruct (dedicated_stores (prisma_dedicated store prisma) entries empty) as [m | e] eqn:E; cbn in *.
  - split.
    + split; [| done]. intros _ name model mapper Hin. specialize (H2 eq_refl _ _ Hin).
      unfold prisma_dedicated in H2. cbn in H2. by destruct (px_model prisma model).
    + intros adapter [= <-]. cbn. split; [by destruct snapshots | split; [by destruct outbox |]].
      eexists. split; [done |]. intros name. unfold stateStoreFor. rewrite H1.
      destruct (mget name entries) as [[model mapper] |] eqn:Em; [| done].
      specialize (H2 eq_refl _ _ (mget_Some_elem _ _ _ Em)). unfold prisma_dedicated in *. cbn in *.
      by destruct (px_model prisma model).
  - split; [| done]. split; [done |]. intros Hall. destruct H1 as (name & [model mapper] & Hin & He).
    unfold prisma_dedicated in He. cbn in He. specialize (Hall _ _ _ Hin). by destruct (px_model prisma model).
Qed.

Definition order_mapper : PrismaStateMapper := PrismaDedicated.jsonStateMapper None None (Some "data").
Definition client_with (model : string) : PrismaExecutor unit :=
  let missing {R N} : Table unit R N :=
    {| tb_insert := fun _ => ret tt; tb_find := fun _ => ret []; tb_update := fun _ _ => ret VNull;
       tb_delete := fun _ => ret tt; tb_save := fun _ => ret tt |} in
  {| px_nodddeEvent := missing; px_nodddeAggregateState := missing; px_nodddeSagaState := missing;
     px_nodddeSnapshot := missing; px_nodddeOutboxEntry := missing; px_nodddeEventIdempotencyRecord := missing;
     px_model := fun m => if String.eqb m model then Some missing else None |}.

Lemma prisma_dedicated_resolution_witness :
  exists adapter storeFor, createPrismaAdapter None (client_with "orders") (Some {| pa_snapshotStore := true;
      pa_outboxStore := false; pa_aggregateStates := Some [("Order", ("orders", order_mapper))] |}) = Ok adapter /\
    sa_stateStoreFor adapter = Some storeFor /\ storeFor "Cart" = Err (no_dedicated_table "Cart").
Proof.
  destruct (prisma_dedicated_resolution None (client_with "orders") [("Order", ("orders", order_mapper))] true false)
    as [H1 H2]; [apply NoDup_singleton |].
  eexists. destruct (H2 _ eq_refl) as (_ & _ & storeFor & Hs & Hname). exists storeFor.
  split; [reflexivity | split; [exact Hs |]]. rewrite Hname. reflexivity.
Defined.

(** The JSON state mappers of the three adapters are inverses: a state that is built
    from objects of the language and serialises to a JSON value is written to one column
    and read back as that value, whatever the names of the columns are. *)
Theorem json_state_mappers_roundtrip (table : TableColumns) (idc vc sc : option Column) (mapper : DrizzleStateMapper)
    (idf vf sf : option string) (state j : value) :
  DrizzleDedicated.jsonStateMapper table idc vc sc = Ok mapper ->
  ordered state -> json_of state = Ok (Some j) ->
  (exists row, dm_toRow mapper state = Ok row /\ dm_fromRow mapper row = Ok j) /\
  (exists row, pm_toRow (PrismaDedicated.jsonStateMapper idf vf sf) state = Ok row /\
     pm_fromRow (PrismaDedicated.jsonStateMapper idf vf sf) row = Ok j) /\
  (exists row, tm_toRow (TypeORMDedicated.jsonStateMapper idf vf sf) state = Ok row /\
     tm_fromRow (TypeORMDedicated.jsonStateMapper idf vf sf) row = Ok j).
Proof.
  intros Hm Ho Hj. destruct (text_column_ok state j Ho Hj) as (t & Ht & Hr). cbn in Hr.
  assert (Hcol : forall k, Sql.column k [(k, VStr t)] = VStr t)
    by (intros k; unfold Sql.column; cbn; by rewrite String.eqb_refl).
  split; [| cbn; rewrite Ht; cbn; split; eexists; (split; [reflexivity |]); by rewrite Hcol].
  revert Hm. unfold DrizzleDedicated.jsonStateMapper.
  destruct (match idc with Some _ => _ | None => _ end) as [c1 |]; [| done].
  destruct (match vc with Some _ => _ | None => _ end) as [c2 |]; [| done].
  destruct (match sc with Some _ => _ | None => _ end) as [c3 |]; [| done].
  intros [= <-]. cbn. rewrite Ht. cbn. eexists. split; [reflexivity |]. by rewrite Hcol.
Qed.

Lemma json_state_mappers_roundtrip_witness :
  exists mapper row, DrizzleDedicated.jsonStateMapper
      [("aggregateId", {| col_ref := 0; col_name := None |}); ("version", {| col_ref := 1; col_name := None |});
       ("state", {| col_ref := 2; col_name := None |})] None None None = Ok mapper /\
    dm_toRow mapper (VObj [("total", VNum 12)]) = Ok row /\ dm_fromRow mapper row = Ok (VObj [("total", VNum 12)]).
Proof.
  eexists.
  destruct (json_state_mappers_roundtrip [("aggregateId", {| col_ref := 0; col_name := None |});
      ("version", {| col_ref := 1; col_name := None |}); ("state", {| col_ref := 2; col_name := None |})]
    None None None _ None None None (VObj [("total", VNum 12)]) (VObj [("total", VNum 12)]) eq_refl)
    as [[row [H1 H2]] _]; [repeat constructor | reflexivity |].
  exists row. split; [reflexivity | split; [exact H1 | exact H2]].
Defined.
