(* ===== verification/Schema.v ===== *)
(** The tables that the adapters declare: [pg/schema.ts], [mysql/schema.ts] and
    [sqlite/schema.ts] of [adapters/drizzle/src], and the entities of
    [adapters/typeorm/src/entities.ts].  A table is data (columns, primary key, unique
    indexes); [row_accepted] decides whether the database takes a row, and the theorems
    say that the rows that the stores write are taken by the tables of the dialect. *)
From S2P Require Import Prelude Text Json JsMap CoreTypes Errors Wire Stores Sql SqlRefine DrizzleStores PrismaStores TypeormStores SqlAdapters.
Local Open Scope string_scope.

(** ** Columns and tables *)

Inductive column_type : Type :=
| Serial                        (** [serial], or an integer with [autoincrement] *)
| Integer                       (** 32 bits (SQLite: 64, of which no more are used) *)
| Text (limit : option Z)       (** [text]: in MySQL, 65535 bytes *)
| Varchar (limit : option Z)    (** [varchar(n)], [nvarchar(n)] or [nvarchar(MAX)] *)
| JsonColumn                    (** [json] or [jsonb]: the driver calls [JSON.stringify] *)
| TimestampText (first last : Z) (** a timestamp that the driver takes and gives as a text *)
| Datetime.                     (** a timestamp as a [Date] *)

Inductive default_value : Type := Now | Const (n : Z).

Record column : Type := {
  c_prop : string;       (** the name in the program *)
  c_name : string;       (** the name in the database *)
  c_type : column_type;
  c_notNull : bool;
  c_primary : bool;
  c_default : option default_value;
  c_transformer : bool   (** TypeORM: [NULLABLE_DATE_TRANSFORMER] *)
}.

Record table : Type := {
  t_name : string;
  t_columns : list column;
  t_primaryKey : list string;      (** a primary key of several columns *)
  t_unique : list (list string);
  t_index : list (list string)
}.

Definition col (prop name : string) (t : column_type) : column :=
  {| c_prop := prop; c_name := name; c_type := t; c_notNull := false; c_primary := false;
     c_default := None; c_transformer := false |}.
Definition notNull (c : column) : column :=
  {| c_prop := c_prop c; c_name := c_name c; c_type := c_type c; c_notNull := true; c_primary := c_primary c;
     c_default := c_default c; c_transformer := c_transformer c |}.
Definition primaryKey (c : column) : column :=
  {| c_prop := c_prop c; c_name := c_name c; c_type := c_type c; c_notNull := true; c_primary := true;
     c_default := c_default c; c_transformer := c_transformer c |}.
Definition default (v : default_value) (c : column) : column :=
  {| c_prop := c_prop c; c_name := c_name c; c_type := c_type c; c_notNull := c_notNull c; c_primary := c_primary c;
     c_default := Some v; c_transformer := c_transformer c |}.
Definition transformed (c : column) : column :=
  {| c_prop := c_prop c; c_name := c_name c; c_type := c_type c; c_notNull := c_notNull c; c_primary := c_primary c;
     c_default := c_default c; c_transformer := true |}.

(** ** What a table takes

    Times are milliseconds of the epoch.  A [timestamp] of MySQL is documented for
    1970-01-01 00:00:01 to 2038-01-19 03:14:07.499 (in UTC, which the session is taken to
    use), and its [datetime], the narrowest of the types that TypeORM gives a [Date], for
    the years 1000 to 9999.  PostgreSQL has no year 0.  Characters that a database cannot
    hold, as NUL in PostgreSQL, are not looked at. *)
Definition MYSQL_FIRST : Z := 1000.
Definition MYSQL_LAST : Z := 2147483647499.
Definition YEAR_1 : Z := -62135596800000.
Definition YEAR_1000 : Z := -30610224000000.
Definition END_OF_9999 : Z := 253402300799999.

Definition within (limit : option Z) (s : string) : bool :=
  match limit with Some n => (Z.of_nat (String.length s) <=? n)%Z | None => true end.

Definition int32 (n : Z) : bool := (-2147483648 <=? n)%Z && (n <=? 2147483647)%Z.

Definition accepts (t : column_type) (v : value) : bool :=
  match t, v with
  | Serial, VNum n | Integer, VNum n => int32 n
  | Text limit, VStr s | Varchar limit, VStr s => within limit s
  | JsonColumn, v => match json_of v with Ok (Some _) => true | _ => false end
  | TimestampText first last, VStr s =>
      match new_Date (fun wall => wall) s with Some d => (first <=? d)%Z && (d <=? last)%Z | None => false end
  | Datetime, VDate d => (YEAR_1000 <=? d)%Z && (d <=? END_OF_9999)%Z
  | _, _ => false
  end.

(** [NULLABLE_DATE_TRANSFORMER.to] and [.from] *)
Definition transformer_to (v : value) : result value :=
  match v with
  | VDate d => result_bind (toISOString d) (fun t => Ok (VStr t))
  | VNull | VUndefined => Ok VNull
  | v => Ok v
  end.
Definition transformer_from (v : value) : value :=
  match v with
  | VStr s => if String.eqb s EmptyString then VNull
              else match new_Date (fun wall => wall) s with Some d => VDate d | None => VUndefined end
  | _ => VNull
  end.

(** The value that the driver is given for a column. *)
Definition driver_value (c : column) (row : ObjRow) : result value :=
  let v := Sql.column (c_prop c) row in if c_transformer c then transformer_to v else Ok v.

Definition generated (c : column) : bool :=
  match c_type c with Serial => true | _ => is_some (c_default c) end.

Definition cell_accepted (row : ObjRow) (c : column) : bool :=
  match driver_value c row with
  | Ok VUndefined => generated c || negb (c_notNull c)
  | Ok VNull => negb (c_notNull c)
  | Ok v => accepts (c_type c) v
  | Err _ => false
  end.

(** Every column takes its cell, and every property of the row has a column. *)
Definition row_accepted (t : table) (row : ObjRow) : bool :=
  forallb (cell_accepted row) (t_columns t) &&
  forallb (fun kv => existsb (fun c => String.eqb (c_prop c) (fst kv)) (t_columns t)) row.

(** ** The rows of the stores as objects *)

Definition event_fields (d : EventData) : ObjRow :=
  [("aggregateName", VStr (er_aggregateName d)); ("aggregateId", VStr (er_aggregateId d));
   ("sequenceNumber", nat_value (er_sequenceNumber d)); ("eventName", VStr (er_eventName d));
   ("payload", er_payload d); ("metadata", er_metadata d); ("createdAt", er_createdAt d)].
Definition state_fields (name id : string) (r : StateRow) : ObjRow :=
  [(name, VStr (sr_name r)); (id, VStr (sr_id r)); ("state", sr_state r); ("version", nat_value (sr_version r))].
Definition outbox_fields (r : OutboxRow) : ObjRow :=
  [("id", VStr (or_id r)); ("event", or_event r); ("aggregateName", or_aggregateName r);
   ("aggregateId", or_aggregateId r); ("createdAt", or_createdAt r); ("publishedAt", or_publishedAt r)].
Definition outbox_fields_with_id (r : OutboxRow) : ObjRow := ("eventId", or_eventId r) :: outbox_fields r.
Definition idempotency_fields (r : IdempotencyRow) : ObjRow := [("key", VStr (kr_key r)); ("processedAt", kr_processedAt r)].

Record schema : Type := {
  s_events : table;
  s_aggregateStates : table;
  s_sagaStates : table;
  s_snapshots : table;
  s_outbox : table;
  s_eventIdempotency : option table
}.

(** ** PostgreSQL *)

Module PgSchema.

(** [timestamp with time zone]; the texts that the adapter writes have years of four digits. *)
Definition TIMESTAMPTZ : column_type := TimestampText YEAR_1 END_OF_9999.

Definition events : table :=
  {| t_name := "noddde_events";
     t_columns :=
       [primaryKey (col "id" "id" Serial);
        notNull (col "aggregateName" "aggregate_name" (Text None));
        notNull (col "aggregateId" "aggregate_id" (Text None));
        notNull (col "sequenceNumber" "sequence_number" Integer);
        notNull (col "eventName" "event_name" (Text None));
        notNull (col "payload" "payload" JsonColumn);
        col "metadata" "metadata" JsonColumn;
        default Now (notNull (col "createdAt" "created_at" TIMESTAMPTZ))];
     t_primaryKey := [];
     t_unique := [["aggregateName"; "aggregateId"; "sequenceNumber"]]; t_index := [] |}.

Definition aggregateStates : table :=
  {| t_name := "noddde_aggregate_states";
     t_columns :=
       [notNull (col "aggregateName" "aggregate_name" (Text None));
        notNull (col "aggregateId" "aggregate_id" (Text None));
        notNull (col "state" "state" JsonColumn);
        default (Const 0) (notNull (col "version" "version" Integer))];
     t_primaryKey := ["aggregateName"; "aggregateId"]; t_unique := []; t_index := [] |}.

Definition sagaStates : table :=
  {| t_name := "noddde_saga_states";
     t_columns :=
       [notNull (col "sagaName" "saga_name" (Text None));
        notNull (col "sagaId" "saga_id" (Text None));
        notNull (col "state" "state" JsonColumn);
        default (Const 0) (notNull (col "version" "version" Integer))];
     t_primaryKey := ["sagaName"; "sagaId"]; t_unique := []; t_index := [] |}.

Definition snapshots : table :=
  {| t_name := "noddde_snapshots";
     t_columns :=
       [notNull (col "aggregateName" "aggregate_name" (Text None));
        notNull (col "aggregateId" "aggregate_id" (Text None));
        notNull (col "state" "state" JsonColumn);
        notNull (col "version" "version" Integer)];
     t_primaryKey := ["aggregateName"; "aggregateId"]; t_unique := []; t_index := [] |}.

Definition outbox : table :=
  {| t_name := "noddde_outbox";
     t_columns :=
       [primaryKey (col "id" "id" (Text None));
        notNull (col "event" "event" JsonColumn);
        col "eventId" "event_id" (Text None);
        col "aggregateName" "aggregate_name" (Text None);
        col "aggregateId" "aggregate_id" (Text None);
        default Now (notNull (col "createdAt" "created_at" TIMESTAMPTZ));
        col "publishedAt" "published_at" TIMESTAMPTZ];
     t_primaryKey := []; t_unique := []; t_index := [["eventId"]] |}.

Definition eventIdempotency : table :=
  {| t_name := "noddde_event_idempotency";
     t_columns :=
       [primaryKey (col "key" "key" (Text None));
        default Now (notNull (col "processedAt" "processed_at" TIMESTAMPTZ))];
     t_primaryKey := []; t_unique := []; t_index := [] |}.
End PgSchema.

(** ** MySQL

    Only the payloads and the events are columns of JSON. *)

Module MysqlSchema.

Definition TIMESTAMP : column_type := TimestampText MYSQL_FIRST MYSQL_LAST.

Definition events : table :=
  {| t_name := "noddde_events";
     t_columns :=
       [primaryKey (col "id" "id" Serial);
        notNull (col "aggregateName" "aggregate_name" (Varchar (Some 255%Z)));
        notNull (col "aggregateId" "aggregate_id" (Varchar (Some 255%Z)));
        notNull (col "sequenceNumber" "sequence_number" Integer);
        notNull (col "eventName" "event_name" (Varchar (Some 255%Z)));
        notNull (col "payload" "payload" JsonColumn);
        col "metadata" "metadata" JsonColumn;
        default Now (notNull (col "createdAt" "created_at" TIMESTAMP))];
     t_primaryKey := [];
     t_unique := [["aggregateName"; "aggregateId"; "sequenceNumber"]]; t_index := [] |}.

Definition aggregateStates : table :=
  {| t_name := "noddde_aggregate_states";
     t_columns :=
       [notNull (col "aggregateName" "aggregate_name" (Varchar (Some 255%Z)));
        notNull (col "aggregateId" "aggregate_id" (Varchar (Some 255%Z)));
        notNull (col "state" "state" (Text (Some 65535%Z)));
        default (Const 0) (notNull (col "version" "version" Integer))];
     t_primaryKey := ["aggregateName"; "aggregateId"]; t_unique := []; t_index := [] |}.

Definition sagaStates : table :=
  {| t_name := "noddde_saga_states";
     t_columns :=
       [notNull (col "sagaName" "saga_name" (Varchar (Some 255%Z)));
        notNull (col "sagaId" "saga_id" (Varchar (Some 255%Z)));
        notNull (col "state" "state" (Text (Some 65535%Z)));
        default (Const 0) (notNull (col "version" "version" Integer))];
     t_primaryKey := ["sagaName"; "sagaId"]; t_unique := []; t_index := [] |}.

Definition snapshots : table :=
  {| t_name := "noddde_snapshots";
     t_columns :=
       [notNull (col "aggregateName" "aggregate_name" (Varchar (Some 255%Z)));
        notNull (col "aggregateId" "aggregate_id" (Varchar (Some 255%Z)));
        notNull (col "state" "state" (Text (Some 65535%Z)));
        notNull (col "version" "version" Integer)];
     t_primaryKey := ["aggregateName"; "aggregateId"]; t_unique := []; t_index := [] |}.

Definition outbox : table :=
  {| t_name := "noddde_outbox";
     t_columns :=
       [primaryKey (col "id" "id" (Varchar (Some 255%Z)));
        notNull (col "event" "event" JsonColumn);
        col "eventId" "event_id" (Varchar (Some 255%Z));
        col "aggregateName" "aggregate_name" (Varchar (Some 255%Z));
        col "aggregateId" "aggregate_id" (Varchar (Some 255%Z));
        default Now (notNull (col "createdAt" "created_at" TIMESTAMP));
        col "publishedAt" "published_at" TIMESTAMP];
     t_primaryKey := []; t_unique := []; t_index := [["eventId"]] |}.

Definition eventIdempotency : table :=
  {| t_name := "noddde_event_idempotency";
     t_columns :=
       [primaryKey (col "key" "key" (Varchar (Some 255%Z)));
        default Now (notNull (col "processedAt" "processed_at" TIMESTAMP))];
     t_primaryKey := []; t_unique := []; t_index := [] |}.
End MysqlSchema.

(** ** SQLite *)

Module SqliteSchema.

Definition events : table :=
  {| t_name := "noddde_events";
     t_columns :=
       [primaryKey (col "id" "id" Serial);
        notNull (col "aggregateName" "aggregate_name" (Text None));
        notNull (col "aggregateId" "aggregate_id" (Text None));
        notNull (col "sequenceNumber" "sequence_number" Integer);
        notNull (col "eventName" "event_name" (Text None));
        notNull (col "payload" "payload" (Text None));
        col "metadata" "metadata" (Text None);
        notNull (col "createdAt" "created_at" (Text None))];
     t_primaryKey := [];
     t_unique := [["aggregateName"; "aggregateId"; "sequenceNumber"]]; t_index := [] |}.

Definition aggregateStates : table :=
  {| t_name := "noddde_aggregate_states";
     t_columns :=
       [notNull (col "aggregateName" "aggregate_name" (Text None));
        notNull (col "aggregateId" "aggregate_id" (Text None));
        notNull (col "state" "state" (Text None));
        default (Const 0) (notNull (col "version" "version" Integer))];
     t_primaryKey := ["aggregateName"; "aggregateId"]; t_unique := []; t_index := [] |}.

Definition sagaStates : table :=
  {| t_name := "noddde_saga_states";
     t_columns :=
       [notNull (col "sagaName" "saga_name" (Text None));
        notNull (col "sagaId" "saga_id" (Text None));
        notNull (col "state" "state" (Text None));
        default (Const 0) (notNull (col "version" "version" Integer))];
     t_primaryKey := ["sagaName"; "sagaId"]; t_unique := []; t_index := [] |}.

Definition snapshots : table :=
  {| t_name := "noddde_snapshots";
     t_columns :=
       [notNull (col "aggregateName" "aggregate_name" (Text None));
        notNull (col "aggregateId" "aggregate_id" (Text None));
        notNull (col "state" "state" (Text None));
        notNull (col "version" "version" Integer)];
     t_primaryKey := ["aggregateName"; "aggregateId"]; t_unique := []; t_index := [] |}.

Definition outbox : table :=
  {| t_name := "noddde_outbox";
     t_columns :=
       [primaryKey (col "id" "id" (Text None));
        notNull (col "event" "event" (Text None));
        col "eventId" "event_id" (Text None);
        col "aggregateName" "aggregate_name" (Text None);
        col "aggregateId" "aggregate_id" (Text None);
        notNull (col "createdAt" "created_at" (Text None));
        col "publishedAt" "published_at" (Text None)];
     t_primaryKey := []; t_unique := []; t_index := [["eventId"]] |}.

Definition eventIdempotency : table :=
  {| t_name := "noddde_event_idempotency";
     t_columns :=
       [primaryKey (col "key" "key" (Text None));
        notNull (col "processedAt" "processed_at" (Text None))];
     t_primaryKey := []; t_unique := []; t_index := [] |}.
End SqliteSchema.

(** [getSchemaForDialect] *)
Definition getSchemaForDialect (dialect : DrizzleDialect) : schema :=
  match dialect with
  | Pg => {| s_events := PgSchema.events; s_aggregateStates := PgSchema.aggregateStates;
             s_sagaStates := PgSchema.sagaStates; s_snapshots := PgSchema.snapshots; s_outbox := PgSchema.outbox;
             s_eventIdempotency := Some PgSchema.eventIdempotency |}
  | Mysql => {| s_events := MysqlSchema.events; s_aggregateStates := MysqlSchema.aggregateStates;
                s_sagaStates := MysqlSchema.sagaStates; s_snapshots := MysqlSchema.snapshots;
                s_outbox := MysqlSchema.outbox; s_eventIdempotency := Some MysqlSchema.eventIdempotency |}
  | Sqlite => {| s_events := SqliteSchema.events; s_aggregateStates := SqliteSchema.aggregateStates;
                 s_sagaStates := SqliteSchema.sagaStates; s_snapshots := SqliteSchema.snapshots;
                 s_outbox := SqliteSchema.outbox; s_eventIdempotency := Some SqliteSchema.eventIdempotency |}
  end.

(** ** TypeORM *)

Module Entities.

(** A column without a declared type has the one of its property ([string], [number]
    or [Date]). *)
Definition StringColumn : column_type := Varchar None.
Definition JSON_COLUMN_TYPE : column_type := Text None.

Definition NodddeEventEntity : table :=
  {| t_name := "noddde_events";
     t_columns :=
       [primaryKey (col "id" "id" Serial);
        notNull (col "aggregateName" "aggregate_name" StringColumn);
        notNull (col "aggregateId" "aggregate_id" StringColumn);
        notNull (col "sequenceNumber" "sequence_number" Integer);
        notNull (col "eventName" "event_name" StringColumn);
        notNull (col "payload" "payload" JSON_COLUMN_TYPE);
        col "metadata" "metadata" JSON_COLUMN_TYPE;
        notNull (col "createdAt" "created_at" Datetime)];
     t_primaryKey := [];
     t_unique := [["aggregateName"; "aggregateId"; "sequenceNumber"]]; t_index := [] |}.

Definition NodddeAggregateStateEntity : table :=
  {| t_name := "noddde_aggregate_states";
     t_columns :=
       [primaryKey (col "aggregateName" "aggregate_name" StringColumn);
        primaryKey (col "aggregateId" "aggregate_id" StringColumn);
        notNull (col "state" "state" (Text None));
        default (Const 0) (notNull (col "version" "version" Integer))];
     t_primaryKey := []; t_unique := []; t_index := [] |}.

Definition NodddeSagaStateEntity : table :=
  {| t_name := "noddde_saga_states";
     t_columns :=
       [primaryKey (col "sagaName" "saga_name" StringColumn);
        primaryKey (col "sagaId" "saga_id" StringColumn);
        notNull (col "state" "state" (Text None));
        default (Const 0) (notNull (col "version" "version" Integer))];
     t_primaryKey := []; t_unique := []; t_index := [] |}.

Definition NodddeSnapshotEntity : table :=
  {| t_name := "noddde_snapshots";
     t_columns :=
       [primaryKey (col "aggregateName" "aggregate_name" StringColumn);
        primaryKey (col "aggregateId" "aggregate_id" StringColumn);
        notNull (col "state" "state" (Text None));
        notNull (col "version" "version" Integer)];
     t_primaryKey := []; t_unique := []; t_index := [] |}.

Definition NodddeOutboxEntryEntity : table :=
  {| t_name := "noddde_outbox";
     t_columns :=
       [primaryKey (col "id" "id" StringColumn);
        notNull (col "event" "event" (Text None));
        col "aggregateName" "aggregate_name" (Varchar None);
        col "aggregateId" "aggregate_id" (Varchar None);
        notNull (col "createdAt" "created_at" Datetime);
        transformed (col "publishedAt" "published_at" (Text None))];
     t_primaryKey := []; t_unique := []; t_index := [] |}.

Definition STATIC_ENTITIES : schema :=
  {| s_events := NodddeEventEntity; s_aggregateStates := NodddeAggregateStateEntity;
     s_sagaStates := NodddeSagaStateEntity; s_snapshots := NodddeSnapshotEntity;
     s_outbox := NodddeOutboxEntryEntity; s_eventIdempotency := None |}.

Record EntityColumnTypes : Type := {
  ct_json : column_type;
  ct_key : column_type;
  ct_datetime : column_type;
  ct_publishedAt : column_type
}.

Definition buildEntities (types : EntityColumnTypes) : schema :=
  let key prop name := col prop name (ct_key types) in
  let pk prop name := primaryKey (key prop name) in
  {| s_events :=
       {| t_name := "noddde_events";
          t_columns :=
            [primaryKey (col "id" "id" Serial);
             notNull (key "aggregateName" "aggregate_name");
             notNull (key "aggregateId" "aggregate_id");
             notNull (col "sequenceNumber" "sequence_number" Integer);
             notNull (key "eventName" "event_name");
             notNull (col "payload" "payload" (ct_json types));
             col "metadata" "metadata" (ct_json types);
             notNull (col "createdAt" "created_at" (ct_datetime types))];
          t_primaryKey := [];
          t_unique := [["aggregateName"; "aggregateId"; "sequenceNumber"]]; t_index := [] |};
     s_aggregateStates :=
       {| t_name := "noddde_aggregate_states";
          t_columns :=
            [pk "aggregateName" "aggregate_name"; pk "aggregateId" "aggregate_id";
             notNull (col "state" "state" (ct_json types));
             default (Const 0) (notNull (col "version" "version" Integer))];
          t_primaryKey := []; t_unique := []; t_index := [] |};
     s_sagaStates :=
       {| t_name := "noddde_saga_states";
          t_columns :=
            [pk "sagaName" "saga_name"; pk "sagaId" "saga_id";
             notNull (col "state" "state" (ct_json types));
             default (Const 0) (notNull (col "version" "version" Integer))];
          t_primaryKey := []; t_unique := []; t_index := [] |};
     s_snapshots :=
       {| t_name := "noddde_snapshots";
          t_columns :=
            [pk "aggregateName" "aggregate_name"; pk "aggregateId" "aggregate_id";
             notNull (col "state" "state" (ct_json types));
             notNull (col "version" "version" Integer)];
          t_primaryKey := []; t_unique := []; t_index := [] |};
     s_outbox :=
       {| t_name := "noddde_outbox";
          t_columns :=
            [pk "id" "id";
             notNull (col "event" "event" (ct_json types));
             key "aggregateName" "aggregate_name";
             key "aggregateId" "aggregate_id";
             notNull (col "createdAt" "created_at" (ct_datetime types));
             transformed (col "publishedAt" "published_at" (ct_publishedAt types))];
          t_primaryKey := []; t_unique := []; t_index := [] |};
     s_eventIdempotency := None |}.

Definition createNodddeEntities (dialect : option string) : schema :=
  match dialect with
  | Some d =>
      if String.eqb d "mssql"
      then buildEntities {| ct_json := Varchar None; ct_key := Varchar (Some 255%Z);
                            ct_datetime := Datetime; ct_publishedAt := Varchar None |}
      else STATIC_ENTITIES
  | None => STATIC_ENTITIES
  end.
End Entities.

(** ** The rows of the stores are typed *)

Definition short (s : string) : Prop := (Z.of_nat (String.length s) <= 255)%Z.
(** In MySQL, a state whose text is at most 65535 bytes. *)
Definition fits_text (v : value) : Prop :=
  forall t, stringify v = Ok (Some t) -> (Z.of_nat (String.length t) <= 65535)%Z.

Lemma short_within s limit : short s -> (255 <= limit)%Z -> within (Some limit) s = true.
Proof. unfold short. intros H Hl. apply Z.leb_le. lia. Qed.

Lemma int32_nat n : (Z.of_nat n < 2147483648)%Z -> int32 (Z.of_nat n) = true.
Proof. intros H. apply andb_true_intro. split; apply Z.leb_le; lia. Qed.

(** The times that the tables of a dialect can hold. *)
Definition storable_time (dialect : DrizzleDialect) (ms : Z) : Prop :=
  match dialect with
  | Pg => YEAR_1 <= ms <= END_OF_9999
  | Mysql => MYSQL_FIRST <= ms <= MYSQL_LAST
  | Sqlite => common_era ms
  end%Z.
Definition datetime_era (ms : Z) : Prop := (YEAR_1000 <= ms <= END_OF_9999)%Z.

Lemma storable_common dialect ms : storable_time dialect ms -> common_era ms.
Proof.
  unfold common_era, storable_time, YEAR_1, END_OF_9999, MYSQL_FIRST, MYSQL_LAST.
  destruct dialect; [lia | lia | done].
Qed.
Lemma datetime_common ms : datetime_era ms -> common_era ms.
Proof. intros H. unfold common_era, datetime_era, YEAR_1000, END_OF_9999 in *. lia. Qed.

(** The column of a time in the tables of a dialect. *)
Definition time_type (dialect : DrizzleDialect) : column_type :=
  match dialect with Pg => PgSchema.TIMESTAMPTZ | Mysql => MysqlSchema.TIMESTAMP | Sqlite => Text None end.

Lemma timestamp_cell dialect ms t : storable_time dialect ms -> toDbTimestamp ms = Ok t ->
  accepts (time_type dialect) (VStr t) = true.
Proof.
  intros H Ht. pose proof (storable_common _ _ H) as Hc. rewrite toDbTimestamp_total in Ht by done. injection Ht as <-.
  destruct dialect; [| | done]; cbn [time_type PgSchema.TIMESTAMPTZ MysqlSchema.TIMESTAMP accepts];
    rewrite new_Date_db_text by done; apply andb_true_intro; split; apply Z.leb_le; apply H.
Qed.

Lemma datetime_cell ms : datetime_era ms -> accepts Datetime (VDate ms) = true.
Proof. intros [H1 H2]. apply andb_true_intro. split; by apply Z.leb_le. Qed.

(** A value in a column of JSON, and in a column of text. *)
Definition json_type (nativeJson : bool) : column_type := if nativeJson then JsonColumn else Text None.

Lemma json_cell nativeJson v j c : json_of v = Ok (Some j) -> json_column nativeJson v = Ok c ->
  accepts (json_type nativeJson) c = true /\ (nullish v = false -> nullish c = false).
Proof.
  intros Hj. destruct nativeJson; cbn.
  - intros [= ->]. cbn. by rewrite Hj.
  - unfold text_column, stringify. rewrite Hj. intros [= <-]. done.
Qed.

Lemma event_row_cells nativeJson now name id v index e row :
  DrizzleEvents.event_row nativeJson now name id v index e = Ok row ->
  exists payload metadata createdAt,
    json_column nativeJson (ev_payload e) = Ok payload /\
    json_column nativeJson (match ev_metadata e with Some md => metadata_value md | None => VNull end) = Ok metadata /\
    toDbTimestamp (or_default (metadata_req md_timestamp e) now) = Ok createdAt /\
    row = {| er_aggregateName := name; er_aggregateId := id; er_sequenceNumber := v + index + 1;
             er_eventName := ev_name e; er_payload := payload; er_metadata := metadata; er_createdAt := VStr createdAt |}.
Proof.
  intros H. apply result_bind_inv in H as (p & Hp & H). apply result_bind_inv in H as (m & Hm & H).
  apply result_bind_inv in H as (t & Ht & [= <-]). by exists p, m, t.
Qed.

(** A column that takes a value, one that may be null. *)
Lemma accepted_cell row c v : driver_value c row = Ok v -> nullish v = false -> accepts (c_type c) v = true ->
  cell_accepted row c = true.
Proof. unfold cell_accepted. intros -> Hn Ha. destruct v; try discriminate Hn; exact Ha. Qed.

Lemma nullable_cell row c v : driver_value c row = Ok v -> c_notNull c = false ->
  nullish v = true \/ accepts (c_type c) v = true -> cell_accepted row c = true.
Proof. unfold cell_accepted. intros -> ->. destruct v; cbn; intros [Hn | Ha]; try done; by rewrite orb_true_r. Qed.

Lemma row_accepted_intro t row : Forall (fun c => cell_accepted row c = true) (t_columns t) ->
  forallb (fun kv => existsb (fun c => String.eqb (c_prop c) (fst kv)) (t_columns t)) row = true ->
  row_accepted t row = true.
Proof.
  intros Hc Hk. unfold row_accepted. rewrite Hk, andb_true_r. apply forallb_forall. intros c Hin.
  rewrite Forall_forall in Hc. apply Hc. by apply list_elem_of_In.
Qed.

(** What an entry of the outbox must respect. *)
Definition entry_bounded (era : Z -> Prop) (e : OutboxEntry) : Prop :=
  carried (ob_event e) /\ short (ob_id e) /\ all_of short (metadata_req md_eventId (ob_event e)) /\
  all_of short (ob_aggregateName e) /\ all_of short (ob_aggregateId e) /\
  era (ob_createdAt e) /\ all_of era (ob_publishedAt e).

Lemma text_cell limit s : short s -> match limit with Some n => (255 <= n)%Z | None => True end ->
  accepts (Text limit) (VStr s) = true /\ accepts (Varchar limit) (VStr s) = true.
Proof. intros Hs Hl. cbn. destruct limit; [rewrite short_within by done |]; done. Qed.

Lemma nullable_text_cell limit o : all_of short o -> match limit with Some n => (255 <= n)%Z | None => True end ->
  (nullish (nullable_text o) = true \/ accepts (Text limit) (nullable_text o) = true) /\
  (nullish (nullable_text o) = true \/ accepts (Varchar limit) (nullable_text o) = true).
Proof. intros Hs Hl. destruct o as [s |]; cbn in *; [| by split; left]. split; right; by apply text_cell. Qed.

Ltac typed_cell :=
  first
    [ reflexivity
    | eapply accepted_cell; [reflexivity | first [reflexivity | assumption] |
        first [reflexivity | assumption | by apply text_cell | by apply short_within]]
    | eapply nullable_cell; [reflexivity | reflexivity |
        first [by left | right; reflexivity | right; assumption | assumption | by apply nullable_text_cell]] ].
Ltac typed_row := apply row_accepted_intro; [repeat (constructor; [typed_cell |]); constructor | reflexivity].

Lemma nat_cell n : (Z.of_nat n < 2147483648)%Z -> accepts Integer (nat_value n) = true.
Proof. apply int32_nat. Qed.

(** The time of an event: the one of its metadata, or the clock's. *)
Definition event_time (now : Z) (e : event) : Z := or_default (metadata_req md_timestamp e) now.

Lemma drizzle_event_typed dialect now name id v index e :
  common_era now -> storable_time dialect (event_time now e) -> short name -> short id -> short (ev_name e) -> (Z.of_nat (v + index + 1) < 2147483648)%Z ->
  event_storable (events_native (Some dialect)) e ->
  exists row, DrizzleEvents.event_row (events_native (Some dialect)) now name id v index e = Ok row /\
    row_accepted (s_events (getSchemaForDialect dialect)) (event_fields row) = true.
Proof.
  intros Hnow Htime Hname Hid Hev Hnum Hst. destruct (event_row_ok _ now name id v index e Hnow Hst) as (row & Hrow & Hacc & _).
  exists row. split; [done |]. destruct Hst as [(_ & _ & Hmd) Hp]. destruct (storable_json _ _ Hp) as [j Hj].
  apply event_row_cells in Hrow as (payload & metadata & createdAt & Hpay & Hmeta & Hat & ->).
  destruct (json_cell _ _ _ _ Hj Hpay) as [Hc _]. destruct Hacc as [[Hnn _] _]. cbn in Hnn.
  assert (Hts : accepts (time_type dialect) (VStr createdAt) = true) by (eapply timestamp_cell; [exact Htime | exact Hat]).
  assert (Hm : nullish metadata = true \/ accepts (json_type (events_native (Some dialect))) metadata = true).
  { destruct (ev_metadata e) as [md |]; cbn in Hmd.
    - right. pose proof (json_of_json _ (is_json_metadata md Hmd)) as Hmj. by destruct (json_cell _ _ _ _ Hmj Hmeta).
    - destruct dialect; cbn in Hmeta; injection Hmeta as <-; [by left | by left | by right]. }
  apply nat_cell in Hnum. destruct dialect; cbn [events_native json_type time_type] in *; typed_row.
Qed.

Lemma state_cell dialect state c : storable (state_native (Some dialect)) state ->
  (dialect = Mysql -> fits_text state) -> json_column (state_native (Some dialect)) state = Ok c ->
  nullish c = false /\
  accepts (match dialect with Pg => JsonColumn | Mysql => Text (Some 65535%Z) | Sqlite => Text None end) c = true.
Proof.
  intros Hs Hfit Hc. destruct (storable_json _ _ Hs) as [j Hj]. destruct (json_cell _ _ _ _ Hj Hc) as [Ha _].
  destruct dialect; cbn in *.
  - injection Hc as <-. split; [| done]. destruct Hs as [_ Hs]. by destruct state.
  - unfold text_column in Hc. apply result_bind_inv in Hc as (o & Ho & [= <-]). specialize (Hfit eq_refl).
    unfold fits_text in Hfit. rewrite Ho in Hfit. unfold stringify in Ho. rewrite Hj in Ho. injection Ho as <-.
    split; [done |]. apply Z.leb_le. by apply Hfit.
  - unfold text_column, stringify in Hc. rewrite Hj in Hc. by injection Hc as <-.
Qed.

Lemma drizzle_state_typed dialect name id v state : short name -> short id -> (Z.of_nat (S v) < 2147483648)%Z ->
  storable (state_native (Some dialect)) state -> (dialect = Mysql -> fits_text state) ->
  exists c, json_column (state_native (Some dialect)) state = Ok c /\
    let r := {| sr_name := name; sr_id := id; sr_state := c; sr_version := S v |} in
    row_accepted (s_aggregateStates (getSchemaForDialect dialect)) (state_fields "aggregateName" "aggregateId" r) = true /\
    row_accepted (s_sagaStates (getSchemaForDialect dialect)) (state_fields "sagaName" "sagaId" r) = true /\
    row_accepted (s_snapshots (getSchemaForDialect dialect)) (state_fields "aggregateName" "aggregateId" r) = true.
Proof.
  intros Hname Hid Hv Hs Hfit. destruct (storable_json _ _ Hs) as [j Hj].
  destruct (json_column_ok _ state j Hs Hj) as (c & Hc & _ & _). exists c. split; [done |].
  destruct (state_cell dialect state c Hs Hfit Hc) as [Hn Ha]. apply nat_cell in Hv.
  destruct dialect; cbn zeta; (split; [| split]); typed_row.
Qed.

Lemma drizzle_outbox_typed dialect entry : entry_bounded (storable_time dialect) entry ->
  exists row, DrizzleOutbox.outbox_row (events_native (Some dialect)) entry = Ok row /\
    row_accepted (s_outbox (getSchemaForDialect dialect)) (outbox_fields_with_id row) = true.
Proof.
  intros (Hc & Hid & Hev & Hname & Haid & Hat & Hpub). destruct (json_of_event _ Hc) as (j & Hj & Hjson & _).
  pose proof (storable_common _ _ Hat) as Hat'.
  unfold DrizzleOutbox.outbox_row. rewrite toDbTimestamp_total by done.
  pose proof (timestamp_cell _ _ _ Hat (toDbTimestamp_total _ Hat')) as Hts.
  assert (exists c, json_column (events_native (Some dialect)) (event_value (ob_event entry)) = Ok c /\ nullish c = false /\
    accepts (json_type (events_native (Some dialect))) c = true) as (c & Hcol & Hn & Ha).
  { destruct dialect; cbn [events_native json_type json_column]; [exists (event_value (ob_event entry)) .. |];
      [by cbn [accepts]; rewrite Hj | by cbn [accepts]; rewrite Hj |].
    unfold text_column, stringify. rewrite Hj. by eexists. }
  rewrite Hcol. cbn [result_bind].
  destruct (ob_publishedAt entry) as [p |]; cbn in Hpub.
  - pose proof (storable_common _ _ Hpub) as Hpub'. rewrite toDbTimestamp_total by done.
    pose proof (timestamp_cell _ _ _ Hpub (toDbTimestamp_total _ Hpub')) as Hps.
    eexists. split; [reflexivity |]. destruct dialect; cbn [events_native json_type time_type] in *; typed_row.
  - eexists. split; [reflexivity |]. destruct dialect; cbn [events_native json_type time_type] in *; typed_row.
Qed.


(** *** TypeORM *)

Definition typeorm_tables (dialect : option string) : schema := Entities.createNodddeEntities dialect.

Lemma entities_cases dialect : typeorm_tables dialect = Entities.STATIC_ENTITIES \/
  typeorm_tables dialect = Entities.createNodddeEntities (Some "mssql").
Proof.
  unfold typeorm_tables, Entities.createNodddeEntities. destruct dialect as [d |]; [| by left].
  destruct (String.eqb d "mssql"); [by right | by left].
Qed.

(** Of a table, what does not depend on the types: names, keys, indexes, and which
    columns are required, generated or transformed. *)
Definition skeleton (t : table) :=
  (t_name t, map (fun c => (c_prop c, c_name c, c_notNull c, c_primary c, c_default c, c_transformer c)) (t_columns t),
   t_primaryKey t, t_unique t, t_index t).
Definition skeletons (s : schema) :=
  map skeleton [s_events s; s_aggregateStates s; s_sagaStates s; s_snapshots s; s_outbox s].

Lemma transformer_roundtrip d : common_era d ->
  exists t, transformer_to (VDate d) = Ok (VStr t) /\ transformer_from (VStr t) = VDate d.
Proof.
  intros H. exists (string_of (iso_text d)). unfold transformer_to, transformer_from.
  rewrite toISOString_total by done. split; [done |]. destruct (String.eqb_spec (string_of (iso_text d)) EmptyString) as [E |]; [| by rewrite new_Date_iso_text].
  pose proof (new_Date_iso_text (fun wall => wall) d H) as Hd. rewrite E in Hd. discriminate Hd.
Qed.

Lemma typeorm_transformed_cell limit o : all_of common_era o -> limit = None ->
  let c := transformed (col "publishedAt" "published_at" (Text limit)) in
  let v := match o with Some d => VDate d | None => VNull end in
  exists x, transformer_to v = Ok x /\ (nullish x = true \/ (accepts (Text limit) x = true /\ accepts (Varchar limit) x = true)).
Proof.
  intros H -> c v. destruct o as [d |]; [| by exists VNull; split; [| left]].
  destruct (transformer_roundtrip d H) as (t & Ht & _). exists (VStr t). split; [done |]. by right.
Qed.

Lemma typeorm_event_typed dialect now name id v index e :
  datetime_era (event_time now e) -> short name -> short id -> short (ev_name e) -> (Z.of_nat (v + index + 1) < 2147483648)%Z ->
  event_storable false e ->
  exists row, text_event_row now name id v index e = Ok row /\
    row_accepted (s_events (typeorm_tables dialect)) (event_fields row) = true.
Proof.
  intros Htime Hname Hid Hev Hnum [(_ & _ & Hmd) [_ [j Hj]]]. pose proof (datetime_cell _ Htime) as Hts. unfold text_event_row.
  assert (exists p, text_column (ev_payload e) = Ok (VStr p)) as [p ->]
    by (unfold text_column, stringify; rewrite Hj; by eexists). cbn [result_bind].
  assert (exists m, match ev_metadata e with Some md => text_column (metadata_value md) | None => Ok VNull end = Ok m /\
    (nullish m = true \/ (accepts (Text None) m = true /\ accepts (Varchar None) m = true))) as (m & -> & Hm).
  { destruct (ev_metadata e) as [md |]; [| by exists VNull; split; [| left]]. cbn in Hmd.
    unfold text_column, stringify. rewrite (json_of_json _ (is_json_metadata md Hmd)). eexists. split; [reflexivity |]. by right. }
  cbn [result_bind]. eexists. split; [reflexivity |]. apply nat_cell in Hnum.
  destruct (entities_cases dialect) as [-> | ->]; destruct Hm as [Hm | [Hm Hm']]; typed_row.
Qed.

Lemma typeorm_outbox_typed dialect entry : entry_bounded datetime_era entry ->
  exists row, TypeORMOutbox.outbox_entity entry = Ok row /\
    row_accepted (s_outbox (typeorm_tables dialect)) (outbox_fields row) = true.
Proof.
  intros (Hc & Hid & Hev & Hname & Haid & Hat & Hpub). destruct (json_of_event _ Hc) as (j & Hj & _).
  pose proof (datetime_cell _ Hat) as Hts.
  assert (Hpub' : all_of common_era (ob_publishedAt entry)) by (destruct (ob_publishedAt entry); [by apply datetime_common | done]).
  unfold TypeORMOutbox.outbox_entity.
  assert (exists p, text_column (event_value (ob_event entry)) = Ok (VStr p)) as [p ->]
    by (unfold text_column, stringify; rewrite Hj; by eexists). cbn [result_bind].
  eexists. split; [reflexivity |].
  destruct (typeorm_transformed_cell None _ Hpub' eq_refl) as (x & Hx & Hcell).
  destruct (entities_cases dialect) as [-> | ->]; apply row_accepted_intro; try reflexivity;
    (repeat (constructor; [first [typed_cell |
       by (eapply nullable_cell; [exact Hx | reflexivity |]; destruct Hcell as [| []]; [left | right])] |])); constructor.
Qed.

(** For every database type, the rows that the stores of the TypeORM adapter write are
    rows of the entities that [createNodddeEntities] returns for it, the nullable date
    of [published_at] is read back from the text that its transformer writes, and the
    entities built for MSSQL stay in step with the declared ones: same tables, columns,
    keys and unique indexes, and the same columns are required. *)
Theorem typeorm_rows_typed (dialect : option string) (now : Z) (name id : string) (v index : nat)
    (e : event) (state : value) (entry : OutboxEntry) :
  datetime_era (event_time now e) ->
  short name -> short id -> short (ev_name e) -> (Z.of_nat (v + index + 1) < 2147483648)%Z ->
  event_storable false e -> text_storable state -> entry_bounded datetime_era entry ->
  let tables := typeorm_tables dialect in
  (exists row, text_event_row now name id v index e = Ok row /\
     row_accepted (s_events tables) (event_fields row) = true) /\
  (exists c, text_column state = Ok c /\
     let r := {| sr_name := name; sr_id := id; sr_state := c; sr_version := S v |} in
     row_accepted (s_aggregateStates tables) (state_fields "aggregateName" "aggregateId" r) = true /\
     row_accepted (s_sagaStates tables) (state_fields "sagaName" "sagaId" r) = true /\
     row_accepted (s_snapshots tables) (state_fields "aggregateName" "aggregateId" r) = true) /\
  (exists row, TypeORMOutbox.outbox_entity entry = Ok row /\
     row_accepted (s_outbox tables) (outbox_fields row) = true /\
     result_bind (transformer_to (or_publishedAt row)) (fun t => Ok (transformer_from t)) = Ok (or_publishedAt row)) /\
  skeletons tables = skeletons Entities.STATIC_ENTITIES.
Proof.
  intros Htime Hname Hid Hev Hnum Hst Hs Hentry tables. split; [by apply typeorm_event_typed |]. split; [| split].
  - destruct Hs as [_ [j Hj]]. unfold text_column, stringify. rewrite Hj. eexists. split; [reflexivity |].
    assert (Hv : (Z.of_nat (S v) < 2147483648)%Z) by lia. apply nat_cell in Hv. subst tables.
    destruct (entities_cases dialect) as [-> | ->]; cbn zeta; (split; [| split]); typed_row.
  - destruct (typeorm_outbox_typed dialect entry Hentry) as (row & Hrow & Hacc). exists row. split; [done |].
    split; [done |]. destruct Hentry as (_ & _ & _ & _ & _ & _ & Hpub). apply result_bind_inv in Hrow as (c & _ & [= <-]).
    cbn [or_publishedAt]. destruct (ob_publishedAt entry) as [d |]; [| done].
    destruct (transformer_roundtrip d (datetime_common _ Hpub)) as (t & -> & Hback). cbn [result_bind]. by rewrite Hback.
  - subst tables. by destruct (entities_cases dialect) as [-> | ->].
Qed.

(** *** Witnesses *)

Definition deposited : event :=
  {| ev_name := "Deposited"; ev_payload := VObj [("amount", VNum 5)]; ev_metadata := None |}.
Definition deposit_entry : OutboxEntry :=
  {| ob_id := "o1"; ob_event := deposited; ob_aggregateName := Some "Account"; ob_aggregateId := None;
     ob_createdAt := 1700000000000; ob_publishedAt := Some 1700000001000%Z |}.

Lemma deposited_carried : carried deposited.
Proof. by repeat constructor. Qed.

Lemma deposit_entry_bounded : entry_bounded (storable_time Mysql) deposit_entry /\ entry_bounded datetime_era deposit_entry.
Proof.
  split; (split; [exact deposited_carried |]);
    unfold short, storable_time, datetime_era, YEAR_1000, END_OF_9999, MYSQL_FIRST, MYSQL_LAST; cbn; lia.
Qed.


Lemma typeorm_rows_typed_witness :
  exists row, text_event_row 1700000000000 "Account" "a1" 3 0 deposited = Ok row /\
    row_accepted (s_events (typeorm_tables (Some "mssql"))) (event_fields row) = true.
Proof.
  apply (typeorm_rows_typed (Some "mssql") 1700000000000 "Account" "a1" 3 0 deposited (VObj [("balance", VNum 5)]) deposit_entry).
  - unfold datetime_era, YEAR_1000, END_OF_9999. cbn. lia.
  - unfold short. cbn. lia.
  - unfold short. cbn. lia.
  - unfold short. cbn. lia.
  - cbn. lia.
  - split; [exact deposited_carried |]. split; [by repeat constructor |]. by eexists.
  - split; [by repeat constructor |]. by eexists.
  - apply deposit_entry_bounded.
Defined.
