(* ===== verification/Broker.v ===== *)
(** What the three broker adapters ([adapters/kafka], [adapters/nats] and
    [adapters/rabbitmq]) share: the configuration [BrokerResilience] of
    [core/src/infrastructure/connectable.ts], the text of an event on the wire, and the
    delivery of one message to the handlers of its event name.

    A handler is a number that stands for its function identity; [invoke] calls it with
    what [JSON.parse] returned.  The handlers of a message run concurrently in the
    program; here they run one after the other, which is one of the orders.  Numbers of
    a message are integers, as in [Json.v].  Clients of brokers are libraries: records
    of operations that act on any state [St], which holds the bus at a lens. *)
From S2P Require Import Prelude Text Json JsMap CoreTypes Errors Wire.
Local Open Scope string_scope.

(** [BrokerResilience] *)
Record BrokerResilience : Type := {
  br_maxAttempts : option Z;
  br_initialDelayMs : option Z;
  br_maxDelayMs : option Z;
  br_maxRetries : option Z
}.

(** [config.resilience?.field] *)
Definition resilience_field {A} (f : BrokerResilience -> option A) (r : option BrokerResilience) : option A :=
  match r with Some r => f r | None => None end.

(** [String(v)]; [None]: it throws, as for an object of [JSON.parse] with a property
    [toString], which is not a function.  Dates print in the zone of the process: they
    are left out. *)
Fixpoint text_of_json (v : value) : option string :=
  match v with
  | VUndefined => Some "undefined"
  | VNull => Some "null"
  | VBool b => Some (if b then "true" else "false")
  | VNum n | VBig n => Some (string_of_Z n)
  | VStr s => Some s
  | VArr items =>
      let fix join_items (l : list value) : option string :=
        match l with
        | [] => Some EmptyString
        | v :: l' =>
            let item := if nullish v then Some EmptyString else text_of_json v in
            match item, l' with
            | Some s, [] => Some s
            | Some s, _ => option_map (fun rest => s ++ "," ++ rest) (join_items l')
            | None, _ => None
            end
        end
      in join_items items
  | VObj o => if is_some (get_prop "toString" o) then None else Some "[object Object]"
  | VSymbol description => Some ("Symbol(" ++ description ++ ")")
  | VDate _ => None
  end.

(** [error instanceof Error ? error.message : String(error)] *)
Definition error_text (e : js_error) : string :=
  match e with ThrownValue v => or_default (text_of_json v) "[object Object]" | _ => error_message e end.

(** [JSON.stringify(event)] *)
Definition event_text (e : event) : result string :=
  result_bind (stringify (event_value e)) (fun t => Ok (or_default t "undefined")).

Section delivery.
Context {St H : Type} (invoke : H -> value -> M St unit).

(** A promise that is settled, whatever its outcome. *)
Definition settled {A} (m : M St A) : M St (result A) := fun s => let '(r, s') := m s in (Ok r, s').

(** [Promise.allSettled(handlers.map((handler) => handler(event)))] *)
Fixpoint allSettled (handlers : list H) (event : value) : M St (list (result unit)) :=
  match handlers with
  | [] => ret []
  | h :: handlers' =>
      r <- settled (invoke h event) ;;
      rs <- allSettled handlers' event ;;
      ret (r :: rs)
  end.
End delivery.

(** The loop over the results keeps the first reason that is not [undefined]. *)
Fixpoint first_rejection (results : list (result unit)) : option js_error :=
  match results with
  | [] => None
  | Ok _ :: results' => first_rejection results'
  | Err (ThrownValue VUndefined) :: results' => first_rejection results'
  | Err e :: _ => Some e
  end.

Definition any_rejected (results : list (result unit)) : bool := existsb (fun r => negb (is_ok r)) results.

(** The log line of a rejection reads [event.name]. *)
Definition property_of_nullish : js_error := TypeError "Cannot read properties of null (reading 'name')".

(** Delivery to every handler, then the first rejection. *)
Definition deliver {St H} (invoke : H -> value -> M St unit) (handlers : list H) (event : value) : M St (option js_error) :=
  results <- allSettled invoke handlers event ;;
  if any_rejected results && nullish event then throw property_of_nullish
  else ret (first_rejection results).

(** The entry of a registry, [?? []]. *)
Definition handlers_for {H} (eventName : string) (handlers : jsmap (list H)) : list H :=
  or_default (mget eventName handlers) [].

(** [this._handlers.get(name)] with one more handler. *)
Definition add_handler {H} (eventName : string) (h : H) (handlers : jsmap (list H)) : jsmap (list H) :=
  mset eventName (handlers_for eventName handlers ++ [h])%list handlers.

(** [set.has(x)] and [set.add(x)] *)
Definition has (x : string) (l : list string) : bool := existsb (String.eqb x) l.
Definition add (x : string) (l : list string) : list string := if has x l then l else (l ++ [x])%list.

(** ** Lemmas *)

(** Every handler runs, whatever the others do, and a delivery changes the state as
    the handlers do. *)
Lemma deliver_invariant {St H} (invoke : H -> value -> M St unit) (handlers : list H) (event : value)
    (I : St -> Prop) s :
  (forall h s, h ∈ handlers -> I s -> I (snd (invoke h event s))) -> I s -> I (snd (deliver invoke handlers event s)).
Proof.
  intros Hi Hs. assert (Hall : I (snd (allSettled invoke handlers event s)) /\
    is_ok (fst (allSettled invoke handlers event s)) = true).
  { revert s Hs. induction handlers as [| h handlers IH]; intros s Hs; [done |].
    cbn [allSettled]. unfold bind, settled. pose proof (Hi h s (list_elem_of_here _ _) Hs) as H1.
    destruct (invoke h event s) as [r s1]. cbn in H1.
    destruct (IH (fun h s Hin => Hi h s (list_elem_of_further _ _ _ Hin)) s1 H1) as [H2 H3].
    destruct (allSettled invoke handlers event s1) as [[rs | e] s2]; [done | done]. }
  unfold deliver, bind. destruct (allSettled invoke handlers event s) as [[rs | e] s'];
    [| by destruct Hall]. destruct (any_rejected rs && nullish event); apply Hall.
Qed.

Lemma has_elem x l : has x l = true <-> x ∈ l.
Proof.
  unfold has. rewrite existsb_exists. split.
  - intros (y & Hin & E). apply String.eqb_eq in E as ->. by apply list_elem_of_In.
  - intros Hin. exists x. split; [by apply list_elem_of_In | apply String.eqb_refl].
Qed.

Lemma add_elem x y l : y ∈ add x l <-> y = x \/ y ∈ l.
Proof.
  unfold add. destruct (has x l) eqn:E.
  - apply has_elem in E. split; [by right |]. by intros [-> |].
  - rewrite elem_of_app, list_elem_of_singleton. tauto.
Qed.
