(* ===== verification/Kafka.v ===== *)
(** [KafkaEventBus] of [adapters/kafka/src/kafka-event-bus.ts].  The client [kafkajs] is
    a record of operations; the fields of the class are the record [bus].  Code between
    two suspensions is not interleaved with other calls of the bus, but the operations
    of the client act on the whole state, so they may call it.  Log lines are left out,
    but for the property they read of a message. *)
From S2P Require Import Prelude Text Json JsMap CoreTypes Errors Wire Broker.
Local Open Scope string_scope.

(** ** Configuration and state *)

Record KafkaEventBusConfig : Type := {
  kf_clientId : string;
  kf_groupId : string;
  kf_topicPrefix : option string;
  kf_topicPartitions : option Z;
  kf_replicationFactor : option Z;
  kf_dlqTopicSuffix : option string;
  kf_sessionTimeout : option Z;
  kf_heartbeatInterval : option Z;
  kf_resilience : option BrokerResilience;
  kf_partitionKeyStrategy : option (event -> option string);   (** [None]: "aggregateId" *)
  kf_warmupOnConnect : bool;
  kf_warmupTimeoutMs : option Z
}.

Definition WIRE_CONTENT_TYPE : string := "application/vnd.noddde.event+json; version=1".
Definition DEFAULT_MAX_RETRIES : Z := 5.

(** A registered handler: the user's, or the one that [_provisionWarmupTopic] adds. *)
Inductive kafka_handler : Type := User (h : nat) | WarmupHandler.

Record bus : Type := {
  kb_producer : bool;      (** the field is not null *)
  kb_consumer : bool;
  kb_connected : bool;
  kb_closed : bool;
  kb_connecting : option (option js_error);   (** not null: the promise is pending, or rejected *)
  kb_warmedUp : bool;
  kb_warmingUp : bool;
  kb_warmupWaiters : nat;
  kb_handlers : jsmap (list kafka_handler);
  kb_subscribedTopics : list string;
  kb_deliveryCounts : jsmap Z;
  kb_provisionedTopics : list string
}.

Definition new_bus : bus :=
  {| kb_producer := false; kb_consumer := false; kb_connected := false; kb_closed := false; kb_connecting := None;
     kb_warmedUp := false; kb_warmingUp := false; kb_warmupWaiters := 0; kb_handlers := empty;
     kb_subscribedTopics := []; kb_deliveryCounts := empty; kb_provisionedTopics := [] |}.

(** Assignments to the fields. *)
Definition set_connection (producer consumer connected closed : bool) (connecting : option (option js_error)) (b : bus) : bus :=
  {| kb_producer := producer; kb_consumer := consumer; kb_connected := connected; kb_closed := closed;
     kb_connecting := connecting; kb_warmedUp := kb_warmedUp b; kb_warmingUp := kb_warmingUp b;
     kb_warmupWaiters := kb_warmupWaiters b; kb_handlers := kb_handlers b; kb_subscribedTopics := kb_subscribedTopics b;
     kb_deliveryCounts := kb_deliveryCounts b; kb_provisionedTopics := kb_provisionedTopics b |}.
Definition set_connecting (v : option (option js_error)) (b : bus) : bus :=
  set_connection (kb_producer b) (kb_consumer b) (kb_connected b) (kb_closed b) v b.
Definition set_connected (v : bool) (b : bus) : bus :=
  set_connection (kb_producer b) (kb_consumer b) v (kb_closed b) (kb_connecting b) b.
Definition set_producer (v : bool) (b : bus) : bus :=
  set_connection v (kb_consumer b) (kb_connected b) (kb_closed b) (kb_connecting b) b.
Definition set_consumer (v : bool) (b : bus) : bus :=
  set_connection (kb_producer b) v (kb_connected b) (kb_closed b) (kb_connecting b) b.
Definition set_warmup (warmedUp warmingUp : bool) (waiters : nat) (b : bus) : bus :=
  {| kb_producer := kb_producer b; kb_consumer := kb_consumer b; kb_connected := kb_connected b; kb_closed := kb_closed b;
     kb_connecting := kb_connecting b; kb_warmedUp := warmedUp; kb_warmingUp := warmingUp; kb_warmupWaiters := waiters;
     kb_handlers := kb_handlers b; kb_subscribedTopics := kb_subscribedTopics b;
     kb_deliveryCounts := kb_deliveryCounts b; kb_provisionedTopics := kb_provisionedTopics b |}.
Definition set_waiters (n : nat) (b : bus) : bus := set_warmup (kb_warmedUp b) (kb_warmingUp b) n b.
Definition set_registry (handlers : jsmap (list kafka_handler)) (subscribed : list string) (counts : jsmap Z)
    (provisioned : list string) (b : bus) : bus :=
  {| kb_producer := kb_producer b; kb_consumer := kb_consumer b; kb_connected := kb_connected b; kb_closed := kb_closed b;
     kb_connecting := kb_connecting b; kb_warmedUp := kb_warmedUp b; kb_warmingUp := kb_warmingUp b;
     kb_warmupWaiters := kb_warmupWaiters b; kb_handlers := handlers; kb_subscribedTopics := subscribed;
     kb_deliveryCounts := counts; kb_provisionedTopics := provisioned |}.
Definition set_handlers (v : jsmap (list kafka_handler)) (b : bus) : bus :=
  set_registry v (kb_subscribedTopics b) (kb_deliveryCounts b) (kb_provisionedTopics b) b.
Definition set_subscribed (v : list string) (b : bus) : bus :=
  set_registry (kb_handlers b) v (kb_deliveryCounts b) (kb_provisionedTopics b) b.
Definition set_counts (v : jsmap Z) (b : bus) : bus :=
  set_registry (kb_handlers b) (kb_subscribedTopics b) v (kb_provisionedTopics b) b.
Definition set_provisioned (v : list string) (b : bus) : bus :=
  set_registry (kb_handlers b) (kb_subscribedTopics b) (kb_deliveryCounts b) v b.

(** ** The client *)

(** What [new Kafka(...)] is given for [retry]. *)
Definition retry_options (r : option BrokerResilience) : option (list (string * Z)) :=
  match r with
  | None => None
  | Some r => Some (omap (fun kv => match snd kv with Some v => Some (fst kv, v) | None => None end)
      [("retries", option_map (fun n => (n - 1)%Z) (br_maxAttempts r)); ("initialRetryTime", br_initialDelayMs r);
       ("maxRetryTime", br_maxDelayMs r)])
  end.

Record ConsumerOptions : Type := { co_groupId : string; co_sessionTimeout : Z; co_heartbeatInterval : Z }.
Record TopicConfig : Type := { tc_topic : string; tc_numPartitions : Z; tc_replicationFactor : option Z }.
Record Message : Type := { ms_key : option string; ms_value : string; ms_headers : list (string * string) }.
Record Location : Type := { lo_topic : string; lo_partition : Z; lo_offset : Z }.

Record Client (St : Type) : Type := {
  kc_new_producer : M St unit;
  kc_new_consumer : ConsumerOptions -> M St unit;
  kc_connect_producer : M St unit;
  kc_connect_consumer : M St unit;
  kc_disconnect_producer : M St unit;
  kc_disconnect_consumer : M St unit;
  kc_subscribe : string -> M St unit;
  kc_run : M St unit;                     (** [consumer.run({ eachMessage })] *)
  kc_wait_fetch : M St unit;              (** [FETCH_START], or 30 seconds *)
  kc_stop : M St unit;
  kc_send : string -> Message -> M St unit;
  kc_commit : string -> Z -> Z -> M St unit;
  kc_admin_connect : M St unit;
  kc_admin_disconnect : M St unit;
  kc_createTopics : list TopicConfig -> M St unit;
  kc_connecting : M St unit;              (** the promises of the running [connect] and [warmup] *)
  kc_warmingUp : M St unit;
  kc_round_trip : M St (nat * bool)       (** intervals that fire before the warmup message is seen (or the timeout) *)
}.
Arguments kc_new_producer {St} _.
Arguments kc_new_consumer {St} _.
Arguments kc_connect_producer {St} _.
Arguments kc_connect_consumer {St} _.
Arguments kc_disconnect_producer {St} _.
Arguments kc_disconnect_consumer {St} _.
Arguments kc_subscribe {St} _.
Arguments kc_run {St} _.
Arguments kc_wait_fetch {St} _.
Arguments kc_stop {St} _.
Arguments kc_send {St} _.
Arguments kc_commit {St} _.
Arguments kc_admin_connect {St} _.
Arguments kc_admin_disconnect {St} _.
Arguments kc_createTopics {St} _.
Arguments kc_connecting {St} _.
Arguments kc_warmingUp {St} _.
Arguments kc_round_trip {St} _.

(** ** Operations *)

Section kafka.
Context {St : Type} (config : KafkaEventBusConfig) (kc : Client St) (the_bus : lens St bus)
  (invoke : nat -> value -> M St unit) (now : M St Z).

Definition this : M St bus := gets (lget the_bus).
Definition upd (f : bus -> bus) : M St unit := zoom the_bus (modify f).

Definition not_connected : js_error := PlainError "KafkaEventBus is not connected. Call connect() first.".

Definition topicName (eventName : string) : string := or_default (kf_topicPrefix config) EmptyString ++ eventName.

Definition resolvePartitionKey (e : event) : option string :=
  match kf_partitionKeyStrategy config with
  | Some strategy => strategy e
  | None => option_map string_of_ID (metadata_opt md_aggregateId e)
  end.

Definition warmupEventName : string := "__noddde_warmup_" ++ kf_clientId config.

(** A method of [this._consumer], when the field may have become null. *)
Definition with_consumer (op : M St unit) : M St unit :=
  b <- this ;;
  if kb_consumer b then op else throw (TypeError "Cannot read properties of null").

(** The registry of [on]. *)
Definition on (eventName : string) (handler : nat) : M bus unit :=
  b <- get ;;
  if kb_closed b then throw (PlainError "KafkaEventBus is closed") else
  let topic := topicName eventName in
  if (kb_connected b || is_some (kb_connecting b)) && negb (has topic (kb_subscribedTopics b))
  then throw (PlainError ("KafkaEventBus: on(" ++ quoted eventName ++ ") called after connect() was started. " ++
    "Kafka does not allow subscribing to a new topic (" ++ quoted topic ++ ") on a running consumer, so this " ++
    "handler's events would be silently lost. Register all handlers with on() before calling connect()."))
  else modify (fun b => set_handlers (add_handler eventName (User handler) (kb_handlers b)) b).

(** Every user's event name has its topic; the warmup topic has its own. *)
Definition create_topics (topics : list TopicConfig) : M St unit :=
  kc_admin_connect kc ;;; try_finally (kc_createTopics kc topics) (kc_admin_disconnect kc).

Definition provisionTopics (topics : list string) : M St unit :=
  b <- this ;;
  let pending := List.filter (fun t => negb (has t (kb_provisionedTopics b))) topics in
  if (length pending =? 0)%nat then ret tt else
  create_topics (map (fun t => {| tc_topic := t; tc_numPartitions := or_default (kf_topicPartitions config) 3%Z;
                                  tc_replicationFactor := kf_replicationFactor config |}) pending) ;;;
  for_each pending (fun t => upd (fun b => set_provisioned (add t (kb_provisionedTopics b)) b)).

Definition provisionWarmupTopic : M St unit :=
  let warmupTopic := topicName warmupEventName in
  create_topics [{| tc_topic := warmupTopic; tc_numPartitions := 1; tc_replicationFactor := None |}] ;;;
  upd (fun b => set_provisioned (add warmupTopic (kb_provisionedTopics b)) b) ;;;
  upd (fun b => set_handlers (add_handler warmupEventName WarmupHandler (kb_handlers b)) b).

Definition dispatch (e : event) : M St unit :=
  b <- this ;;
  if kb_closed b || negb (kb_connected b) || negb (kb_producer b) then throw not_connected else
  value <- lift_result (event_text e) ;;
  kc_send kc (topicName (ev_name e))
    {| ms_key := resolvePartitionKey e; ms_value := value; ms_headers := [("content-type", WIRE_CONTENT_TYPE)] |}.

(** *** Messages *)

Definition offsetKey (l : Location) : string :=
  lo_topic l ++ ":" ++ string_of_Z (lo_partition l) ++ ":" ++ string_of_Z (lo_offset l).

(** The warmup handler resolves every waiter, which removes itself. *)
Definition invoke_handler (h : kafka_handler) (event : value) : M St unit :=
  match h with User h => invoke h event | WarmupHandler => upd (set_waiters 0) end.

Definition parkToDlq (location : Location) (rawValue : string) (error : js_error) (attempts : Z) : M St unit :=
  let dlqTopic := lo_topic location ++ or_default (kf_dlqTopicSuffix config) ".dlq" in
  provisionTopics [dlqTopic] ;;;
  ms <- now ;;
  timestamp <- lift_result (toISOString ms) ;;
  b <- this ;;
  if kb_producer b
  then kc_send kc dlqTopic
    {| ms_key := None; ms_value := rawValue;
       ms_headers := [("content-type", WIRE_CONTENT_TYPE); ("x-noddde-dlq-error", error_text error);
         ("x-noddde-dlq-attempts", string_of_Z attempts); ("x-noddde-dlq-original-topic", lo_topic location);
         ("x-noddde-dlq-original-partition", string_of_Z (lo_partition location));
         ("x-noddde-dlq-original-offset", string_of_Z (lo_offset location)); ("x-noddde-dlq-timestamp", timestamp)] |}
  else throw (TypeError "Cannot read properties of null").

(** [_handleMessage] with a location.  [Some e]: it throws [e], an error of a handler,
    marked [retriable] when it is an [Error]. *)
Definition handleMessage (eventName rawValue : string) (location : Location) : M St (option js_error) :=
  match parse rawValue with
  | Err err => swallow (parkToDlq location rawValue err 1) ;;; ret None
  | Ok event =>
      b <- this ;;
      rejection <- deliver invoke_handler (handlers_for eventName (kb_handlers b)) event ;;
      match rejection with
      | None => ret None
      | Some firstRejection =>
          let maxRetries := or_default (resilience_field br_maxRetries (kf_resilience config)) DEFAULT_MAX_RETRIES in
          b <- this ;;
          let attempt := (or_default (mget (offsetKey location) (kb_deliveryCounts b)) 0 + 1)%Z in
          upd (fun b => set_counts (mset (offsetKey location) attempt (kb_deliveryCounts b)) b) ;;;
          if (attempt <=? maxRetries)%Z then ret (Some firstRejection) else
          parked <- settled (parkToDlq location rawValue firstRejection attempt) ;;
          match parked with
          | Err _ => ret (Some firstRejection)
          | Ok _ =>
              upd (fun b => set_counts (mdelete (offsetKey location) (kb_deliveryCounts b)) b) ;;;
              ret None
          end
      end
  end.

(** [_handleMessage] without a location. *)
Definition handleMessage_direct (eventName rawValue : string) : M St unit :=
  match parse rawValue with
  | Err _ => ret tt
  | Ok event =>
      b <- this ;;
      rejection <- deliver invoke_handler (handlers_for eventName (kb_handlers b)) event ;;
      match rejection with None => ret tt | Some e => throw e end
  end.

(** The event name of a topic. *)
Definition event_of_topic (topic : string) : string :=
  let prefix := or_default (kf_topicPrefix config) EmptyString in
  if String.prefix prefix topic
  then String.substring (String.length prefix) (String.length topic - String.length prefix) topic else topic.

(** The callback of [consumer.run]; [None]: a message without a value. *)
Definition eachMessage (rawValue : option string) (location : Location) : M St (option js_error) :=
  match rawValue with
  | None => ret None
  | Some rawValue =>
      crash <- handleMessage (event_of_topic (lo_topic location)) rawValue location ;;
      match crash with
      | Some e => ret (Some e)
      | None =>
          kc_commit kc (lo_topic location) (lo_partition location) (lo_offset location + 1) ;;;
          upd (fun b => set_counts (mdelete (offsetKey location) (kb_deliveryCounts b)) b) ;;;
          ret None
      end
  end.

(** *** Connection *)

Definition runConsumerLoop : M St unit :=
  with_consumer (kc_run kc) ;;;
  b <- this ;;
  if (0 <? length (kb_subscribedTopics b))%nat then kc_wait_fetch kc else ret tt.

(** One round trip: a dispatch, another at each interval; failures are logged. *)
Definition performWarmupRoundTrip : M St unit :=
  let timeoutMs := or_default (kf_warmupTimeoutMs config) 60000%Z in
  let dispatchOnce := swallow (dispatch {| ev_name := warmupEventName;
                                           ev_payload := VObj [("warmup", VBool true)]; ev_metadata := None |}) in
  upd (fun b => set_waiters (S (kb_warmupWaiters b)) b) ;;;
  dispatchOnce ;;;
  env <- kc_round_trip kc ;;
  let '(intervals, observed) := env in
  for_each (repeat tt intervals) (fun _ => dispatchOnce) ;;;
  upd (fun b => set_waiters (pred (kb_warmupWaiters b)) b) ;;;
  if (observed : bool) then ret tt
  else throw (PlainError ("KafkaEventBus warmup timed out after " ++ string_of_Z timeoutMs ++
    "ms waiting for round-trip on topic " ++ quoted warmupEventName)).

Definition subscribe_topic (topic : string) : M St unit :=
  with_consumer (kc_subscribe kc topic) ;;;
  upd (fun b => set_subscribed (add topic (kb_subscribedTopics b)) b).

Definition warmup : M St unit :=
  b <- this ;;
  if kb_closed b || negb (kb_connected b) then throw not_connected else
  if kb_warmedUp b then ret tt else
  if kb_warmingUp b then kc_warmingUp kc else
  upd (fun b => set_warmup (kb_warmedUp b) true (kb_warmupWaiters b) b) ;;;
  try_finally
    (b <- this ;;
     (if has (topicName warmupEventName) (kb_subscribedTopics b) then ret tt else
        with_consumer (kc_stop kc) ;;;
        provisionWarmupTopic ;;;
        subscribe_topic (topicName warmupEventName) ;;;
        runConsumerLoop) ;;;
     performWarmupRoundTrip ;;;
     upd (fun b => set_warmup true (kb_warmingUp b) (kb_warmupWaiters b) b))
    (upd (fun b => set_warmup (kb_warmedUp b) false (kb_warmupWaiters b) b)).

Definition subscribe_all : M St unit :=
  b <- this ;;
  for_each (mkeys (kb_handlers b)) (fun eventName =>
    b <- this ;;
    if has (topicName eventName) (kb_subscribedTopics b) then ret tt else subscribe_topic (topicName eventName)).

(** What the body of [connect] does before it is suspended for the first time. *)
Definition create_clients : M St unit :=
  kc_new_producer kc ;;;
  upd (set_producer true) ;;;
  kc_new_consumer kc {| co_groupId := kf_groupId config; co_sessionTimeout := or_default (kf_sessionTimeout config) 30000%Z;
                        co_heartbeatInterval := or_default (kf_heartbeatInterval config) 3000%Z |} ;;;
  upd (set_consumer true).

(** The rest of it. *)
Definition establish : M St unit :=
  kc_connect_producer kc ;;;
  with_consumer (kc_connect_consumer kc) ;;;
  (if kf_warmupOnConnect config then provisionWarmupTopic else ret tt) ;;;
  b <- this ;;
  provisionTopics (map topicName (List.filter (fun name => negb (String.eqb name warmupEventName)) (mkeys (kb_handlers b)))) ;;;
  subscribe_all ;;;
  runConsumerLoop ;;;
  upd (set_connected true) ;;;
  (if kf_warmupOnConnect config then warmup else ret tt).

(** [_connecting] is assigned when the body is first suspended or has thrown: if a client
    cannot be created, the [finally] clears the field first and the rejected promise is
    then stored in it. *)
Definition connect : M St unit :=
  b <- this ;;
  if kb_connected b then ret tt else
  match kb_connecting b with
  | Some (Some error) => throw error
  | Some None => kc_connecting kc
  | None =>
      started <- settled create_clients ;;
      match started with
      | Err error =>
          upd (set_connecting None) ;;;
          upd (set_connecting (Some (Some error))) ;;;
          throw error
      | Ok _ =>
          upd (set_connecting (Some None)) ;;;
          try_finally establish (upd (set_connecting None))
      end
  end.

Definition close : M St unit :=
  b <- this ;;
  if kb_closed b then ret tt else
  upd (fun b => set_connection (kb_producer b) (kb_consumer b) false true (kb_connecting b) b) ;;;
  b <- this ;;
  (if kb_consumer b then kc_stop kc ;;; with_consumer (kc_disconnect_consumer kc) ;;; upd (set_consumer false) else ret tt) ;;;
  b <- this ;;
  (if kb_producer b then kc_disconnect_producer kc ;;; upd (set_producer false) else ret tt) ;;;
  upd (set_handlers empty) ;;;
  upd (set_subscribed []).

(** *** The consumer of kafkajs

    A message whose callback throws a retriable error is delivered again; another
    error stops the consumer.  [Some (inl n)]: the n-th delivery returned;
    [Some (inr e)]: stopped by [e]; [None]: [fuel] deliveries were not enough. *)
Fixpoint consume (fuel n : nat) (rawValue : option string) (location : Location) : M St (option (nat + js_error)) :=
  match fuel with
  | O => ret None
  | S fuel' =>
      outcome <- settled (eachMessage rawValue location) ;;
      match outcome with
      | Ok None => ret (Some (inl (S n)))
      | Ok (Some e) => if is_error e then consume fuel' (S n) rawValue location else ret (Some (inr e))
      | Err e => ret (Some (inr e))
      end
  end.
End kafka.

(** ** A message that keeps failing *)

(** What an observer of the process sees: deliveries to the handlers, messages sent,
    offsets committed; most recent first. *)
Record Observed : Type := {
  ob_deliveries : nat;
  ob_sent : list (string * Message);
  ob_committed : list (string * Z * Z)
}.

Definition delivered_once (o : Observed) : Observed :=
  {| ob_deliveries := S (ob_deliveries o); ob_sent := ob_sent o; ob_committed := ob_committed o |}.
Definition sent_one (topic : string) (m : Message) (o : Observed) : Observed :=
  {| ob_deliveries := ob_deliveries o; ob_sent := (topic, m) :: ob_sent o; ob_committed := ob_committed o |}.
Definition committed_one (topic : string) (partition offset : Z) (o : Observed) : Observed :=
  {| ob_deliveries := ob_deliveries o; ob_sent := ob_sent o; ob_committed := (topic, partition, offset) :: ob_committed o |}.

Section failing.
Context {St : Type} (config : KafkaEventBusConfig) (kc : Client St) (the_bus : lens St bus) `{!LensLaws the_bus}
  (invoke : nat -> value -> M St unit) (now : M St Z) (observe : St -> Observed).

(** [m] succeeds, leaves the bus alone, and is observed as [f]. *)
Definition succeeds {A} (m : M St A) (a : A) (f : Observed -> Observed) : Prop :=
  forall s, exists s', m s = (Ok a, s') /\ lget the_bus s' = lget the_bus s /\ observe s' = f (observe s).

(** A broker that answers, and handlers whose n-th common outcome is [outcome n]. *)
Class Environment (registry : jsmap (list kafka_handler)) (eventName : string) (ev : value)
    (outcome : nat -> option js_error) (t : Z) : Prop := {
  env_bus : forall b s, observe (lset the_bus b s) = observe s;
  env_send : forall topic m, succeeds (kc_send kc topic m) tt (sent_one topic m);
  env_commit : forall topic p o, succeeds (kc_commit kc topic p o) tt (committed_one topic p o);
  env_admin_connect : succeeds (kc_admin_connect kc) tt (fun o => o);
  env_admin_disconnect : succeeds (kc_admin_disconnect kc) tt (fun o => o);
  env_createTopics : forall ts, succeeds (kc_createTopics kc ts) tt (fun o => o);
  env_now : succeeds now t (fun o => o) /\ common_era t;
  env_handlers : forall s, kb_handlers (lget the_bus s) = registry -> exists s',
    deliver (invoke_handler the_bus invoke) (handlers_for eventName registry) ev s
      = (Ok (outcome (ob_deliveries (observe s))), s') /\
    lget the_bus s' = lget the_bus s /\ observe s' = delivered_once (observe s)
}.

Context {registry : jsmap (list kafka_handler)} {ev : value} {outcome : nat -> option js_error} {t : Z}
  (location : Location) (rawValue : string).
Context `{Henv : !Environment registry (event_of_topic config (lo_topic location)) ev outcome t}.
Hypothesis Hparse : parse rawValue = Ok ev.

Lemma this_run s : this the_bus s = (Ok (lget the_bus s), s).
Proof. reflexivity. Qed.

Lemma upd_run f s : upd the_bus f s = (Ok tt, lset the_bus (f (lget the_bus s)) s).
Proof. reflexivity. Qed.

(** Provisioning changes only the set of provisioned topics. *)
Lemma provisioned_loop pending : forall s, exists s' l,
  for_each pending (fun t => upd the_bus (fun b => set_provisioned (add t (kb_provisionedTopics b)) b)) s = (Ok tt, s') /\
  lget the_bus s' = set_provisioned l (lget the_bus s) /\ observe s' = observe s.
Proof.
  induction pending as [| x pending IH]; intros s; cbn [for_each].
  - exists s, (kb_provisionedTopics (lget the_bus s)). by destruct (lget the_bus s).
  - rewrite (bind_ok _ _ _ _ _ (upd_run _ _)).
    destruct (IH (lset the_bus (set_provisioned (add x (kb_provisionedTopics (lget the_bus s))) (lget the_bus s)) s))
      as (s' & l & H & B & O). exists s', l. by rewrite H, B, O, lget_lset, env_bus.
Qed.

Lemma provision_run topics s : exists s' l, provisionTopics config kc the_bus topics s = (Ok tt, s') /\
  lget the_bus s' = set_provisioned l (lget the_bus s) /\ observe s' = observe s.
Proof.
  unfold provisionTopics. rewrite (bind_ok _ _ _ _ _ (this_run s)). cbv zeta.
  set (pending := List.filter _ topics).
  destruct (length pending =? 0)%nat.
  { exists s, (kb_provisionedTopics (lget the_bus s)). by destruct (lget the_bus s). }
  unfold create_topics. destruct (env_admin_connect s) as (s1 & H1 & B1 & O1).
  set (cfg := map _ pending). destruct (env_createTopics cfg s1) as (s2 & H2 & B2 & O2).
  destruct (env_admin_disconnect s2) as (s3 & H3 & B3 & O3). cbn in O1, O2, O3.
  unfold bind at 1 2. rewrite H1. unfold try_finally. rewrite H2, H3.
  rewrite <- B1, <- B2, <- B3, <- O1, <- O2, <- O3. apply provisioned_loop.
Qed.

Definition dlq_topic : string := lo_topic location ++ or_default (kf_dlqTopicSuffix config) ".dlq".

(** The dead letter carries the original bytes, and how often it was delivered. *)
Definition dead_letter (error : js_error) (attempts : Z) : Message :=
  {| ms_key := None; ms_value := rawValue;
     ms_headers := [("content-type", WIRE_CONTENT_TYPE); ("x-noddde-dlq-error", error_text error);
       ("x-noddde-dlq-attempts", string_of_Z attempts); ("x-noddde-dlq-original-topic", lo_topic location);
       ("x-noddde-dlq-original-partition", string_of_Z (lo_partition location));
       ("x-noddde-dlq-original-offset", string_of_Z (lo_offset location));
       ("x-noddde-dlq-timestamp", string_of (iso_text t))] |}.

Lemma park_run e n s : kb_producer (lget the_bus s) = true ->
  exists s' l, parkToDlq config kc the_bus now location rawValue e n s = (Ok tt, s') /\
    lget the_bus s' = set_provisioned l (lget the_bus s) /\
    observe s' = sent_one dlq_topic (dead_letter e n) (observe s).
Proof.
  intros Hp. unfold parkToDlq. destruct (provision_run [dlq_topic] s) as (s1 & l & H1 & B1 & O1).
  fold dlq_topic. cbv zeta. rewrite (bind_ok _ _ _ _ _ H1).
  destruct env_now as [Hnow Ht]. destruct (Hnow s1) as (s2 & H2 & B2 & O2). rewrite (bind_ok _ _ _ _ _ H2).
  rewrite toISOString_total by done. unfold lift_result. unfold bind at 1.
  rewrite (bind_ok _ _ _ _ _ (this_run s2)). rewrite B2, B1. cbn [kb_producer set_provisioned set_registry]. rewrite Hp.
  destruct (env_send dlq_topic (dead_letter e n) s2) as (s3 & H3 & B3 & O3).
  exists s3, l. unfold dead_letter in *. rewrite H3. split; [done |]. cbn in O2. by rewrite B3, B2, B1, O3, O2, O1.
Qed.

Definition max_retries : Z := or_default (resilience_field br_maxRetries (kf_resilience config)) DEFAULT_MAX_RETRIES.

Definition key_count (s : St) : option Z := mget (offsetKey location) (kb_deliveryCounts (lget the_bus s)).
Definition failures (s : St) : Z := or_default (key_count s) 0%Z.

Definition ready (s : St) : Prop :=
  kb_producer (lget the_bus s) = true /\ kb_handlers (lget the_bus s) = registry /\ wf (kb_deliveryCounts (lget the_bus s)).

(** The delivery itself, and the counting of a failed one. *)
Lemma delivery_run s e : ready s -> outcome (ob_deliveries (observe s)) = e -> exists s1,
  deliver (invoke_handler the_bus invoke) (handlers_for (event_of_topic config (lo_topic location)) (kb_handlers (lget the_bus s))) ev s
    = (Ok e, s1) /\ lget the_bus s1 = lget the_bus s /\ observe s1 = delivered_once (observe s).
Proof. intros (_ & Hh & _) <-. rewrite Hh. by apply env_handlers. Qed.

Definition counted (n : Z) (b : bus) : bus := set_counts (mset (offsetKey location) n (kb_deliveryCounts b)) b.
Definition uncounted (b : bus) : bus := set_counts (mdelete (offsetKey location) (kb_deliveryCounts b)) b.

Lemma ready_counted n b s : ready s -> b = counted n (lget the_bus s) ->
  ready (lset the_bus b s) /\ failures (lset the_bus b s) = n.
Proof.
  intros (Hp & Hh & Hw) ->. unfold ready, failures, key_count. rewrite lget_lset. cbn.
  split; [split; [done |]; split; [done | by apply wf_mset] | by rewrite mget_mset_eq].
Qed.

Lemma handle_fails s e : ready s -> outcome (ob_deliveries (observe s)) = Some e -> (failures s + 1 <= max_retries)%Z ->
  exists s', eachMessage config kc the_bus invoke now (Some rawValue) location s = (Ok (Some e), s') /\
    ready s' /\ failures s' = (failures s + 1)%Z /\ observe s' = delivered_once (observe s).
Proof.
  intros Hr Ho Hmax. destruct (delivery_run s _ Hr Ho) as (s1 & H1 & B1 & O1).
  assert (Hr1 : ready s1) by (unfold ready; by rewrite B1).
  destruct (ready_counted (failures s + 1) _ s1 Hr1 eq_refl) as [Hr2 Hf].
  eexists. split; [| split; [exact Hr2 | split; [exact Hf | by rewrite env_bus]]].
  unfold eachMessage, handleMessage. rewrite Hparse. unfold bind at 1. rewrite (bind_ok _ _ _ _ _ (this_run s)).
  rewrite (bind_ok _ _ _ _ _ H1). cbv iota zeta. rewrite (bind_ok _ _ _ _ _ (this_run s1)).
  rewrite (bind_ok _ _ _ _ _ (upd_run _ s1)). fold max_retries. unfold failures, key_count in Hmax.
  rewrite B1, (proj2 (Z.leb_le _ _) Hmax). unfold failures, key_count. reflexivity.
Qed.

(** The tail of the callback: the commit, and the entry of the counter. *)
Lemma commit_run s : ready s -> exists s',
  (kc_commit kc (lo_topic location) (lo_partition location) (lo_offset location + 1) ;;;
   upd the_bus uncounted ;;; ret (@None js_error)) s = (Ok None, s') /\
  ready s' /\ key_count s' = None /\
  observe s' = committed_one (lo_topic location) (lo_partition location) (lo_offset location + 1) (observe s).
Proof.
  intros (Hp & Hh & Hw). destruct (env_commit (lo_topic location) (lo_partition location) (lo_offset location + 1) s)
    as (s1 & H1 & B1 & O1).
  exists (lset the_bus (uncounted (lget the_bus s1)) s1). rewrite (bind_ok _ _ _ _ _ H1).
  split; [done |]. unfold ready, key_count. rewrite lget_lset, env_bus, O1, B1. cbn.
  split; [split; [done |]; split; [done | by apply wf_mdelete] |]. split; [by apply mget_mdelete_eq | done].
Qed.

Lemma handle_succeeds s : ready s -> outcome (ob_deliveries (observe s)) = None ->
  exists s', eachMessage config kc the_bus invoke now (Some rawValue) location s = (Ok None, s') /\
    ready s' /\ key_count s' = None /\
    observe s' = committed_one (lo_topic location) (lo_partition location) (lo_offset location + 1) (delivered_once (observe s)).
Proof.
  intros Hr Ho. destruct (delivery_run s _ Hr Ho) as (s1 & H1 & B1 & O1).
  assert (Hr1 : ready s1) by (unfold ready; by rewrite B1).
  destruct (commit_run s1 Hr1) as (s2 & H2 & Hr2 & Hk & O2). exists s2. rewrite O2, O1.
  split; [| done]. unfold eachMessage, handleMessage. rewrite Hparse. unfold bind at 1.
  rewrite (bind_ok _ _ _ _ _ (this_run s)), (bind_ok _ _ _ _ _ H1). exact H2.
Qed.

Lemma handle_parks s e : ready s -> outcome (ob_deliveries (observe s)) = Some e -> (max_retries < failures s + 1)%Z ->
  exists s', eachMessage config kc the_bus invoke now (Some rawValue) location s = (Ok None, s') /\
    ready s' /\ key_count s' = None /\
    observe s' = committed_one (lo_topic location) (lo_partition location) (lo_offset location + 1)
      (sent_one dlq_topic (dead_letter e (failures s + 1)) (delivered_once (observe s))).
Proof.
  intros Hr Ho Hmax. destruct (delivery_run s _ Hr Ho) as (s1 & H1 & B1 & O1).
  assert (Hr1 : ready s1) by (unfold ready; by rewrite B1).
  destruct (ready_counted (failures s + 1) _ s1 Hr1 eq_refl) as [Hr2 Hf].
  set (s2 := lset the_bus _ s1) in *. assert (O2 : observe s2 = observe s1) by apply env_bus.
  destruct Hr2 as (Hp2 & Hh2 & Hw2). destruct (park_run e (failures s + 1) s2 Hp2) as (s3 & l & H3 & B3 & O3).
  set (s4 := lset the_bus (uncounted (lget the_bus s3)) s3). assert (O4 : observe s4 = observe s3) by apply env_bus.
  assert (Hr4 : ready s4).
  { unfold ready, s4. rewrite lget_lset, B3. cbn. split; [exact Hp2 |]. split; [exact Hh2 | by apply wf_mdelete]. }
  destruct (commit_run s4 Hr4) as (s5 & H5 & Hr5 & Hk & O5). exists s5. rewrite O5, O4, O3, O2, O1.
  split; [| done]. unfold eachMessage, handleMessage. rewrite Hparse. unfold bind at 1.
  rewrite (bind_ok _ _ _ _ _ (this_run s)), (bind_ok _ _ _ _ _ H1). cbv iota zeta.
  rewrite (bind_ok _ _ _ _ _ (this_run s1)), (bind_ok _ _ _ _ _ (upd_run _ s1)). fold max_retries.
  unfold failures, key_count in Hmax. rewrite B1, (proj2 (Z.leb_gt _ _) Hmax).
  assert (Hs : settled (parkToDlq config kc the_bus now location rawValue e (failures s + 1)) s2 = (Ok (Ok tt), s3))
    by (unfold settled; by rewrite H3).
  unfold failures, key_count in *. unfold s2, counted in Hs. rewrite B1 in Hs. rewrite (bind_ok _ _ _ _ _ Hs).
  rewrite (bind_ok _ _ _ _ _ (upd_run _ s3)). exact H5.
Qed.

(** What is observed at the end: [n] deliveries, [sent] messages more, one commit. *)
Definition finished (n : nat) (sent : list (string * Message)) (o o' : Observed) : Prop :=
  o' = {| ob_deliveries := ob_deliveries o + n; ob_sent := (sent ++ ob_sent o)%list;
          ob_committed := (lo_topic location, lo_partition location, lo_offset location + 1)%Z :: ob_committed o |}.

Definition consumes (fuel k : nat) (s : St) (n : nat) (sent : list (string * Message)) : Prop :=
  exists s', consume config kc the_bus invoke now fuel k (Some rawValue) location s = (Ok (Some (inl (k + n)%nat)), s') /\
    ready s' /\ key_count s' = None /\ finished n sent (observe s) (observe s').

(** The first [j] of the next deliveries fail with an [Error]. *)
Definition fail_first (j : nat) (s : St) : Prop :=
  forall i, (i < j)%nat -> exists e, outcome (ob_deliveries (observe s) + i) = Some e /\ is_error e = true.

Lemma consume_step fuel k s e s' :
  eachMessage config kc the_bus invoke now (Some rawValue) location s = (Ok (Some e), s') -> is_error e = true ->
  consume config kc the_bus invoke now (S fuel) k (Some rawValue) location s
  = consume config kc the_bus invoke now fuel (S k) (Some rawValue) location s'.
Proof. intros H He. cbn [consume]. unfold bind, settled. by rewrite H, He. Qed.

Lemma consume_last fuel k s s' :
  eachMessage config kc the_bus invoke now (Some rawValue) location s = (Ok None, s') ->
  consume config kc the_bus invoke now (S fuel) k (Some rawValue) location s = (Ok (Some (inl (S k))), s').
Proof. intros H. cbn [consume]. unfold bind, settled. by rewrite H. Qed.

(** A failed delivery, and what it changes for the rest. *)
Lemma consume_retry fuel k j n s sent : ready s -> fail_first (S j) s -> (failures s + 1 <= max_retries)%Z ->
  (forall s', ready s' -> failures s' = (failures s + 1)%Z -> fail_first j s' ->
     ob_deliveries (observe s') = S (ob_deliveries (observe s)) -> consumes fuel (S k) s' n sent) ->
  consumes (S fuel) k s (S n) sent.
Proof.
  intros Hr Hfail Hmax Hrest. destruct (Hfail 0%nat ltac:(lia)) as (e & He & Hie). rewrite Nat.add_0_r in He.
  destruct (handle_fails s e Hr He Hmax) as (s1 & H1 & Hr1 & Hf1 & O1).
  destruct (Hrest s1 Hr1 Hf1) as (s' & H' & Hr' & Hk' & Hfin).
  - intros i Hi. destruct (Hfail (S i) ltac:(lia)) as (e' & He' & Hie'). exists e'. rewrite O1. cbn.
    by rewrite <- Nat.add_succ_r.
  - by rewrite O1.
  - exists s'. rewrite (consume_step fuel k s e s1 H1 Hie), H'. replace (S k + n)%nat with (k + S n)%nat by lia.
    split; [done |]. split; [done |]. split; [done |]. rewrite Hfin, O1. unfold finished. cbn. f_equal. lia.
Qed.

Lemma consume_recovers j : forall fuel k s, ready s -> fail_first j s ->
  outcome (ob_deliveries (observe s) + j) = None -> (failures s + Z.of_nat j <= max_retries)%Z -> (j < fuel)%nat ->
  consumes fuel k s (S j) [].
Proof.
  induction j as [| j IH]; intros [| fuel] k s Hr Hfail Hok Hmax Hfuel; try lia.
  - rewrite Nat.add_0_r in Hok. destruct (handle_succeeds s Hr Hok) as (s1 & H1 & Hr1 & Hk1 & O1).
    exists s1. rewrite (consume_last _ _ _ _ H1). replace (k + 1)%nat with (S k) by lia.
    split; [done |]. split; [done |]. split; [done |]. rewrite O1.
    unfold finished, committed_one. cbn. f_equal. lia.
  - eapply consume_retry; [done | done | lia |]. intros s' Hr' Hf' Hfail' Hd'. apply IH; [done | done | | lia | lia].
    rewrite Hd'. by replace (S (ob_deliveries (observe s)) + j)%nat with (ob_deliveries (observe s) + S j)%nat by lia.
Qed.

Lemma consume_gives_up j : forall fuel k s e, ready s -> fail_first j s ->
  outcome (ob_deliveries (observe s) + j) = Some e -> (failures s + Z.of_nat j = max_retries)%Z -> (j < fuel)%nat ->
  consumes fuel k s (S j) [(dlq_topic, dead_letter e (max_retries + 1))].
Proof.
  induction j as [| j IH]; intros [| fuel] k s e Hr Hfail Hlast Hmax Hfuel; try lia.
  - rewrite Nat.add_0_r in Hlast. destruct (handle_parks s e Hr Hlast ltac:(lia)) as (s1 & H1 & Hr1 & Hk1 & O1).
    replace (failures s + 1)%Z with (max_retries + 1)%Z in O1 by lia.
    exists s1. rewrite (consume_last _ _ _ _ H1). replace (k + 1)%nat with (S k) by lia.
    split; [done |]. split; [done |]. split; [done |]. rewrite O1.
    unfold finished, committed_one. cbn. f_equal. lia.
  - eapply consume_retry; [done | done | lia |]. intros s' Hr' Hf' Hfail' Hd'. apply IH; [done | done | | lia | lia].
    rewrite Hd'. by replace (S (ob_deliveries (observe s)) + j)%nat with (ob_deliveries (observe s) + S j)%nat by lia.
Qed.
End failing.

(** A delivered message whose handlers fail is retried, then dead-lettered. *)
Section failing_message.
Context {St : Type} (config : KafkaEventBusConfig) (kc : Client St) (the_bus : lens St bus)
  (invoke : nat -> value -> M St unit) (now : M St Z) (observe : St -> Observed) (registry : jsmap (list kafka_handler))
  (ev : value) (outcome : nat -> option js_error) (t : Z) (location : Location) (rawValue : string).

(** C20. A message whose handlers fail with errors is delivered again until they all
    accept it or the deliveries exceed [maxRetries] (5 when it is not configured).  In
    the first case nothing is sent to the dead-letter topic; in the second, after
    exactly [maxRetries] + 1 deliveries, one dead letter is sent, with the original
    bytes, the last error and the number of deliveries.  In both the offset is
    committed once, at the end, and the message leaves no entry in the counter.  Enough
    fuel is one unit for each delivery, so the consumer always gets past the message. *)
Theorem kafka_failing_message (j fuel : nat) (s : St) :
  LensLaws the_bus ->
  Environment kc the_bus invoke now observe registry (event_of_topic config (lo_topic location)) ev outcome t ->
  parse rawValue = Ok ev -> ready the_bus (registry := registry) s -> key_count the_bus location s = None ->
  fail_first observe (outcome := outcome) j s -> (j < fuel)%nat ->
  let last := outcome (ob_deliveries (observe s) + j)%nat in
  let run := consumes config kc the_bus invoke now observe (registry := registry) location rawValue fuel 0 s (S j) in
  ((Z.of_nat j <= max_retries config)%Z -> last = None -> run []) /\
  (forall e, Z.of_nat j = max_retries config -> last = Some e ->
     run [(dlq_topic config location, dead_letter location rawValue e (max_retries config + 1) (t := t))]).
Proof.
  intros Hlaws Henv Hparse Hr Hk Hfail Hfuel last run.
  assert (Hf : failures the_bus location s = 0%Z) by (unfold failures; by rewrite Hk).
  split; [intros Hj Hlast | intros e Hj Hlast].
  - eapply consume_recovers; try done. by rewrite Hf.
  - eapply consume_gives_up; try done. by rewrite Hf.
Qed.
End failing_message.

(** ** A world to run the bus in

    A broker that accepts everything.  [w_topics]: the subscriptions of the consumer
    that [kafka.consumer(...)] created last; [w_failing_runs]: how often
    [consumer.run] is still going to fail. *)
Module KafkaWorld.

Record World : Type := {
  w_bus : bus;
  w_observed : Observed;
  w_topics : list string;
  w_failing_runs : nat
}.

Definition bus_lens : lens World bus :=
  Lens w_bus (fun b w => {| w_bus := b; w_observed := w_observed w; w_topics := w_topics w; w_failing_runs := w_failing_runs w |}).
#[export] Instance bus_lens_laws : LensLaws bus_lens.
Proof. split; intros; repeat match goal with w : World |- _ => destruct w end; reflexivity. Qed.

Definition observing (f : Observed -> Observed) : M World unit :=
  modify (fun w => {| w_bus := w_bus w; w_observed := f (w_observed w); w_topics := w_topics w; w_failing_runs := w_failing_runs w |}).
Definition with_topics (f : list string -> list string) : M World unit :=
  modify (fun w => {| w_bus := w_bus w; w_observed := w_observed w; w_topics := f (w_topics w); w_failing_runs := w_failing_runs w |}).

Definition run_consumer : M World unit :=
  w <- get ;;
  match w_failing_runs w with
  | O => ret tt
  | S n =>
      modify (fun w => {| w_bus := w_bus w; w_observed := w_observed w; w_topics := w_topics w; w_failing_runs := n |}) ;;;
      throw (PlainError "broker not available")
  end.

Definition client : Client World :=
  {| kc_new_producer := ret tt; kc_new_consumer := fun _ => with_topics (fun _ => []);
     kc_connect_producer := ret tt; kc_connect_consumer := ret tt; kc_disconnect_producer := ret tt;
     kc_disconnect_consumer := ret tt; kc_subscribe := fun topic => with_topics (fun l => (l ++ [topic])%list);
     kc_run := run_consumer; kc_wait_fetch := ret tt; kc_stop := ret tt;
     kc_send := fun topic m => observing (sent_one topic m); kc_commit := fun topic p o => observing (committed_one topic p o);
     kc_admin_connect := ret tt; kc_admin_disconnect := ret tt; kc_createTopics := fun _ => ret tt;
     kc_connecting := ret tt; kc_warmingUp := ret tt; kc_round_trip := ret (0%nat, true) |}.

(** The n-th delivery fails when [outcome n] is an error. *)
Definition invoke (outcome : nat -> option js_error) (h : nat) (ev : value) : M World unit :=
  w <- get ;;
  observing delivered_once ;;;
  match outcome (ob_deliveries (w_observed w)) with Some e => throw e | None => ret tt end.

Definition plain_config : KafkaEventBusConfig :=
  {| kf_clientId := "svc"; kf_groupId := "svc"; kf_topicPrefix := Some "noddde."; kf_topicPartitions := None;
     kf_replicationFactor := None; kf_dlqTopicSuffix := None; kf_sessionTimeout := None; kf_heartbeatInterval := None;
     kf_resilience := None; kf_partitionKeyStrategy := None; kf_warmupOnConnect := false; kf_warmupTimeoutMs := None |}.

Definition nothing_yet : Observed := {| ob_deliveries := 0; ob_sent := []; ob_committed := [] |}.

(** One handler of [eventName], and a bus that is not connected. *)
Definition start (eventName : string) (failing_runs : nat) : World :=
  {| w_bus := set_handlers [(eventName, [User 0])] new_bus; w_observed := nothing_yet; w_topics := [];
     w_failing_runs := failing_runs |}.
End KafkaWorld.

(** A connection attempt that fails once the topics are subscribed ([consumer.run]
    rejects) leaves them in [_subscribedTopics].  The next [connect] makes a new consumer,
    finds the topics there and subscribes to none of them: it succeeds, the bus is
    connected, and the handlers never receive an event. *)
Example kafka_reconnect_unsubscribed :
  let connect := connect KafkaWorld.plain_config KafkaWorld.client KafkaWorld.bus_lens in
  let '(first, failed) := connect (KafkaWorld.start "OrderPlaced" 1) in
  let '(second, connected) := connect failed in
  is_ok first = false /\ KafkaWorld.w_topics failed = ["noddde.OrderPlaced"] /\
  is_ok second = true /\ kb_connected (KafkaWorld.w_bus connected) = true /\
  handlers_for "OrderPlaced" (kb_handlers (KafkaWorld.w_bus connected)) = [User 0] /\
  KafkaWorld.w_topics connected = [].
Proof. by vm_compute. Qed.

(** *** The witness: a handler that always fails *)

Definition order_text : string := "{}".
Definition order_location : Location := {| lo_topic := "noddde.OrderPlaced"; lo_partition := 0; lo_offset := 41 |}.
Definition connected_bus : bus :=
  set_connection true true true false None (set_handlers [("OrderPlaced", [User 0])] new_bus).
Definition connected_world : KafkaWorld.World :=
  {| KafkaWorld.w_bus := connected_bus; KafkaWorld.w_observed := KafkaWorld.nothing_yet;
     KafkaWorld.w_topics := ["noddde.OrderPlaced"]; KafkaWorld.w_failing_runs := 0 |}.
Definition always_fails (n : nat) : option js_error := Some (PlainError "out of stock").

Lemma failing_environment : Environment KafkaWorld.client KafkaWorld.bus_lens (KafkaWorld.invoke always_fails) (ret 0%Z)
  KafkaWorld.w_observed [("OrderPlaced", [User 0])] "OrderPlaced" (VObj []) always_fails 0.
Proof.
  split; try (intros; intros s; eexists; split; [reflexivity | split; reflexivity]); try done.
  - split; [intros s; by eexists | unfold common_era; lia].
  - intros s Hs. eexists. split; [reflexivity | split; reflexivity].
Qed.

Lemma kafka_failing_message_witness :
  consumes KafkaWorld.plain_config KafkaWorld.client KafkaWorld.bus_lens (KafkaWorld.invoke always_fails) (ret 0%Z)
    KafkaWorld.w_observed (registry := [("OrderPlaced", [User 0])]) order_location order_text 6 0 connected_world 6
    [("noddde.OrderPlaced.dlq", dead_letter order_location order_text (PlainError "out of stock") 6 (t := 0%Z))].
Proof.
  apply (kafka_failing_message KafkaWorld.plain_config KafkaWorld.client KafkaWorld.bus_lens (KafkaWorld.invoke always_fails)
    (ret 0%Z) KafkaWorld.w_observed [("OrderPlaced", [User 0])] (VObj []) always_fails 0 order_location order_text 5 6
    connected_world).
  - exact KafkaWorld.bus_lens_laws.
  - exact failing_environment.
  - reflexivity.
  - split; [reflexivity | split; [reflexivity | constructor]].
  - reflexivity.
  - intros i Hi. by eexists.
  - lia.
  - reflexivity.
  - reflexivity.
Defined.

(** ** No handler without a subscription *)

Section covered.
Context {St : Type} (config : KafkaEventBusConfig) (kc : Client St) (the_bus : lens St bus) `{!LensLaws the_bus}
  (invoke : nat -> value -> M St unit) (now : M St Z).

Definition keeps (I : bus -> Prop) {A} (m : M St A) : Prop :=
  forall s, I (lget the_bus s) -> I (lget the_bus (snd (m s))).

(** [I] is kept by every call of [on]. *)
Definition on_stable (I : bus -> Prop) : Prop :=
  forall eventName handler b, I b -> I (snd (on config eventName handler b)).

(** Whenever the bus waits for the client or for a handler, other parts of the program
    may register handlers, as often as they like; and every operation may fail. *)
Class RegisteringClient : Prop := {
  quiet_client : forall m, m ∈ [kc_new_producer kc; kc_connect_producer kc; kc_connect_consumer kc;
      kc_disconnect_producer kc; kc_disconnect_consumer kc; kc_run kc; kc_wait_fetch kc; kc_stop kc;
      kc_admin_connect kc; kc_admin_disconnect kc; kc_connecting kc; kc_warmingUp kc] -> forall I, on_stable I -> keeps I m;
  quiet_new_consumer : forall o I, on_stable I -> keeps I (kc_new_consumer kc o);
  quiet_subscribe : forall topic I, on_stable I -> keeps I (kc_subscribe kc topic);
  quiet_send : forall topic m I, on_stable I -> keeps I (kc_send kc topic m);
  quiet_commit : forall topic p o I, on_stable I -> keeps I (kc_commit kc topic p o);
  quiet_createTopics : forall ts I, on_stable I -> keeps I (kc_createTopics kc ts);
  quiet_round_trip : forall I, on_stable I -> keeps I (kc_round_trip kc);
  quiet_now : forall I, on_stable I -> keeps I now;
  quiet_handler : forall h v I, on_stable I -> keeps I (invoke h v)
}.
Context `{!RegisteringClient}.

Lemma keeps_ret I {A} (a : A) : keeps I (ret a).
Proof. by intros s. Qed.
Lemma keeps_throw I {A} (e : js_error) : keeps I (@throw St A e).
Proof. by intros s. Qed.
Lemma keeps_lift I {A} (r : result A) : keeps I (lift_result r).
Proof. by intros s. Qed.
Lemma keeps_this I : keeps I (this the_bus).
Proof. by intros s. Qed.
Lemma keeps_bind I {A B} (m : M St A) (k : A -> M St B) : keeps I m -> (forall a, keeps I (k a)) -> keeps I (bind m k).
Proof.
  intros Hm Hk s Hs. specialize (Hm s Hs). unfold bind. destruct (m s) as [[a | e] s']; [by apply Hk | done].
Qed.
Lemma keeps_upd (I : bus -> Prop) f : (forall b, I b -> I (f b)) -> keeps I (upd the_bus f).
Proof. intros Hf s Hs. cbn. rewrite lget_lset. by apply Hf. Qed.
Lemma keeps_finally I {A} (m : M St A) f : keeps I m -> keeps I f -> keeps I (try_finally m f).
Proof.
  intros Hm Hf s Hs. specialize (Hm s Hs). unfold try_finally. destruct (m s) as [r s']. specialize (Hf s' Hm).
  by destruct (f s') as [[[] | e] s''].
Qed.
Lemma keeps_swallow I m : keeps I m -> keeps I (swallow m).
Proof. intros Hm s Hs. rewrite swallow_run. by apply Hm. Qed.
Lemma keeps_settled I {A} (m : M St A) : keeps I m -> keeps I (settled m).
Proof. intros Hm s Hs. specialize (Hm s Hs). unfold settled. by destruct (m s). Qed.
Lemma keeps_for_each I {A} (l : list A) f : (forall x, x ∈ l -> keeps I (f x)) -> keeps I (for_each l f).
Proof.
  induction l as [| x l IH]; intros Hl; [apply keeps_ret |]. cbn [for_each].
  apply keeps_bind; [apply Hl, list_elem_of_here | intros _; apply IH; intros y Hy; by apply Hl, list_elem_of_further].
Qed.
Lemma keeps_client I m : m ∈ [kc_new_producer kc; kc_connect_producer kc; kc_connect_consumer kc;
      kc_disconnect_producer kc; kc_disconnect_consumer kc; kc_run kc; kc_wait_fetch kc; kc_stop kc;
      kc_admin_connect kc; kc_admin_disconnect kc; kc_connecting kc; kc_warmingUp kc] -> on_stable I -> keeps I m.
Proof. intros Hm. by apply quiet_client. Qed.

Ltac keep := repeat first
  [ apply keeps_bind; [| intros ?] | apply keeps_ret | apply keeps_throw | apply keeps_lift | apply keeps_this
  | apply keeps_finally | apply keeps_swallow | apply keeps_settled | apply keeps_for_each; intros ? ?
  | match goal with H : on_stable ?I |- on_stable ?I => exact H end
  | solve [apply keeps_client; [repeat constructor | assumption]]
  | apply quiet_subscribe | apply quiet_send | apply quiet_commit | apply quiet_createTopics | apply quiet_round_trip
  | apply quiet_new_consumer | apply quiet_now
  | match goal with |- keeps _ (if ?c then _ else _) => destruct c end
  | match goal with |- keeps _ (let '(_, _) := ?p in _) => destruct p end
  | match goal with |- keeps _ (match ?p with _ => _ end) => destruct p end
  | done ].

(** What provisioning and counting leave alone. *)
Definition same_core (I : bus -> Prop) : Prop :=
  (forall l b, I b -> I (set_provisioned l b)) /\ (forall c b, I b -> I (set_counts c b)) /\
  (forall n b, I b -> I (set_waiters n b)) /\ (forall x y b, I b -> I (set_warmup x y (kb_warmupWaiters b) b)) /\
  on_stable I.

Lemma keeps_provision I topics : same_core I -> keeps I (provisionTopics config kc the_bus topics).
Proof. intros (Hp & _ & _ & _ & Ho). unfold provisionTopics, create_topics. keep. apply keeps_upd. intros ?. apply Hp. Qed.

Lemma keeps_consumer I op : keeps I op -> keeps I (with_consumer the_bus op).
Proof. intros Hop. unfold with_consumer. keep. Qed.

Lemma keeps_loop I : on_stable I -> keeps I (runConsumerLoop kc the_bus).
Proof. intros Ho. unfold runConsumerLoop, with_consumer. keep. Qed.

Lemma keeps_dispatch I e : on_stable I -> keeps I (dispatch config kc the_bus e).
Proof. intros Ho. unfold dispatch. keep. Qed.

Lemma keeps_round_trip I : same_core I -> keeps I (performWarmupRoundTrip config kc the_bus).
Proof.
  intros (_ & _ & Hn & _ & Ho). unfold performWarmupRoundTrip, dispatch. keep; apply keeps_upd; intros ?; apply Hn.
Qed.

Lemma keeps_deliver I hs v : same_core I -> keeps I (deliver (invoke_handler the_bus invoke) hs v).
Proof.
  intros (_ & _ & Hn & _ & Ho) s. apply (deliver_invariant _ _ _ (fun s => I (lget the_bus s))).
  intros h s' _ Hs'. destruct h as [h |]; cbn [invoke_handler]; [by apply (quiet_handler h v I Ho) |]. cbn. rewrite lget_lset. by apply Hn.
Qed.

#[local] Opaque deliver.
Lemma keeps_message I raw location : same_core I -> keeps I (eachMessage config kc the_bus invoke now raw location).
Proof.
  intros HI. assert (HI' := HI). destruct HI' as (Hp & Hc & _ & _ & Ho). unfold eachMessage, handleMessage, parkToDlq, provisionTopics, create_topics.
  keep; try (by apply keeps_deliver); apply keeps_upd; intros ?; first [apply Hp | apply Hc].
Qed.

#[local] Transparent deliver.

(** Every event name of a user has its topic. *)
Definition covered (b : bus) : Prop :=
  forall name, name ∈ mkeys (kb_handlers b) -> name <> warmupEventName config -> topicName config name ∈ kb_subscribedTopics b.
Definition subscribed_when_connected (b : bus) : Prop := kb_connected b = true -> covered b.

(** What [on] does. *)
Lemma on_run eventName handler b :
  snd (on config eventName handler b) = b \/
  (kb_connected b || is_some (kb_connecting b) = true -> topicName config eventName ∈ kb_subscribedTopics b) /\
  snd (on config eventName handler b) = set_handlers (add_handler eventName (User handler) (kb_handlers b)) b.
Proof.
  unfold on, bind, get. destruct (kb_closed b); [by left |].
  destruct (kb_connected b || is_some (kb_connecting b)); cbn [andb]; [| by right].
  destruct (has (topicName config eventName) (kb_subscribedTopics b)) eqn:E; cbn [negb]; [| by left].
  right. split; [intros _; by apply has_elem | done].
Qed.

(** A connection attempt is under way. *)
Definition attempting (b : bus) : Prop := kb_connected b = false /\ kb_connecting b <> None.

Lemma attempting_refuses b : attempting b -> kb_connected b || is_some (kb_connecting b) = true.
Proof. intros [-> Hc]. by destruct (kb_connecting b). Qed.

Lemma core_connecting : same_core attempting.
Proof. do 4 (split; [done |]). intros n h b Hb. by destruct (on_run n h b) as [-> | [_ ->]]. Qed.

Lemma keys_add n h (m : jsmap (list kafka_handler)) name : name ∈ mkeys (add_handler n h m) -> name = n \/ name ∈ mkeys m.
Proof.
  unfold add_handler. generalize (handlers_for n m ++ [h])%list as v. intros v.
  induction m as [| [k w] m IH]; cbn.
  - intros Hin%list_elem_of_singleton. by left.
  - destruct (String.eqb_spec n k) as [-> | Hne]; cbn; rewrite !elem_of_cons; [tauto |]. intros [-> | Hin]; [tauto |].
    destruct (IH Hin); tauto.
Qed.

(** Whoever is registered while topics can no longer be added has a topic. *)
Lemma covered_on eventName handler b :
  kb_connected b || is_some (kb_connecting b) = true -> covered b -> covered (snd (on config eventName handler b)).
Proof.
  intros Hr Hb. destruct (on_run eventName handler b) as [-> | [Ht ->]]; [done |].
  intros name Hin Hne. destruct (keys_add _ _ _ _ Hin) as [-> | Hin']; [by apply Ht | by apply Hb].
Qed.

Lemma core_subscribed : same_core subscribed_when_connected.
Proof.
  do 4 (split; [done |]). intros eventName handler b Hb Hc.
  assert (Hc' : kb_connected b = true) by (by destruct (on_run eventName handler b) as [E | [_ E]]; rewrite E in Hc).
  apply covered_on; [by rewrite Hc' | by apply Hb].
Qed.

Lemma warmup_handler_subscribed b : subscribed_when_connected b ->
  subscribed_when_connected (set_handlers (add_handler (warmupEventName config) WarmupHandler (kb_handlers b)) b).
Proof. intros Hb Hc name Hin Hne. apply (Hb Hc); [| done]. by destruct (keys_add _ _ _ _ Hin) as [-> |]. Qed.

Lemma more_topics_subscribed topic b : subscribed_when_connected b ->
  subscribed_when_connected (set_subscribed (add topic (kb_subscribedTopics b)) b).
Proof. intros Hb Hc name Hin Hne. apply add_elem. right. by apply Hb. Qed.

Lemma keeps_warmup : keeps subscribed_when_connected (warmup config kc the_bus).
Proof.
  destruct core_subscribed as (Hp & _ & Hn & Hw & Ho).
  unfold warmup, provisionWarmupTopic, create_topics, subscribe_topic, runConsumerLoop, with_consumer,
    performWarmupRoundTrip, dispatch.
  keep; apply keeps_upd; intros ?;
    first [apply Hp | apply Hn | apply Hw | apply warmup_handler_subscribed | apply more_topics_subscribed | done].
Qed.
Lemma wp_keeps I {A} (m : M St A) s : keeps I m -> I (lget the_bus s) ->
  wp m (fun _ s' => I (lget the_bus s')) (fun _ s' => I (lget the_bus s')) s.
Proof. intros Hm Hs. specialize (Hm s Hs). unfold wp. by destruct (m s) as [[a | e] s']. Qed.

(** Subscribing, while the bus is being connected: of the names of the handlers, those in
    [names] are still to be looked at. *)
Definition subscribing (names : list string) (b : bus) : Prop :=
  attempting b /\
  forall name, name ∈ mkeys (kb_handlers b) -> name ∈ names \/ topicName config name ∈ kb_subscribedTopics b.

Lemma subscribing_stable names : on_stable (subscribing names).
Proof.
  intros eventName handler b [Ha Hn]. destruct (on_run eventName handler b) as [-> | [Ht ->]]; [done |].
  split; [done |]. intros name Hin. destruct (keys_add _ _ _ _ Hin) as [-> | Hin']; [| by apply Hn].
  right. by apply Ht, attempting_refuses.
Qed.

Lemma subscribe_one_spec n names s : subscribing (n :: names) (lget the_bus s) ->
  wp (b <- this the_bus ;; if has (topicName config n) (kb_subscribedTopics b) then ret tt
      else subscribe_topic kc the_bus (topicName config n))
     (fun _ s' => subscribing names (lget the_bus s')) (fun _ s' => attempting (lget the_bus s')) s.
Proof.
  assert (Hstep : forall b l, subscribing (n :: names) b -> topicName config n ∈ l ->
    (forall x, x ∈ kb_subscribedTopics b -> x ∈ l) -> subscribing names (set_subscribed l b)).
  { intros b l [Ha Hn] Hin Hl. split; [done |]. intros name Hk. destruct (Hn name Hk) as [[-> | Hx]%elem_of_cons | Hx];
      [by right | by left | by right; apply Hl]. }
  intros Hs. rewrite wp_bind. unfold this at 1. rewrite wp_gets. destruct (has _ _) eqn:E.
  - rewrite wp_ret. replace (lget the_bus s) with (set_subscribed (kb_subscribedTopics (lget the_bus s)) (lget the_bus s))
      by by destruct (lget the_bus s). apply Hstep; [done | by apply has_elem | done].
  - unfold subscribe_topic. rewrite wp_bind. eapply wp_mono.
    + apply (wp_keeps (subscribing (n :: names))); [| done].
      apply keeps_consumer, quiet_subscribe, subscribing_stable.
    + intros [] s1 H1. unfold upd. rewrite wp_zoom, wp_modify, lget_lset.
      apply Hstep; [done | apply add_elem; by left | intros x Hx; apply add_elem; by right].
    + by intros e s1 [].
Qed.

Lemma subscribe_loop_spec names : forall s, subscribing names (lget the_bus s) ->
  wp (for_each names (fun eventName => b <- this the_bus ;;
        if has (topicName config eventName) (kb_subscribedTopics b) then ret tt
        else subscribe_topic kc the_bus (topicName config eventName)))
     (fun _ s' => subscribing [] (lget the_bus s')) (fun _ s' => attempting (lget the_bus s')) s.
Proof.
  induction names as [| n names IH]; intros s Hs; cbn [for_each]; [by rewrite wp_ret |].
  rewrite wp_bind. eapply wp_mono; [by apply subscribe_one_spec | | done]. intros [] s1 H1. by apply IH.
Qed.

Definition all_subscribed (b : bus) : Prop := attempting b /\ covered b.

Lemma all_subscribed_stable : on_stable all_subscribed.
Proof.
  intros eventName handler b [Ha Hb]. split; [by apply core_connecting |].
  by apply covered_on; [apply attempting_refuses |].
Qed.

Lemma subscribe_all_spec s : attempting (lget the_bus s) ->
  wp (subscribe_all config kc the_bus) (fun _ s' => all_subscribed (lget the_bus s'))
     (fun _ s' => attempting (lget the_bus s')) s.
Proof.
  intros Hc. unfold subscribe_all. rewrite wp_bind. unfold this at 1. rewrite wp_gets.
  eapply wp_mono; [apply subscribe_loop_spec | | done].
  - split; [done |]. intros name Hn. by left.
  - intros [] s' [Ha Hn]. split; [done |]. intros name Hin _.
    by destruct (Hn name Hin) as [Hx%not_elem_of_nil |].
Qed.

Ltac quiet_step I := rewrite wp_bind; eapply wp_mono; [apply (wp_keeps I) | cbv beta; intros [] | cbv beta].

Lemma attempting_subscribed b : attempting b -> subscribed_when_connected b.
Proof. intros [Hb _] Hc. congruence. Qed.

Lemma establish_spec s : attempting (lget the_bus s) ->
  wp (establish config kc the_bus) (fun _ s' => subscribed_when_connected (lget the_bus s'))
     (fun _ s' => subscribed_when_connected (lget the_bus s')) s.
Proof.
  intros Hs. assert (Ho : on_stable attempting) by apply core_connecting.
  unfold establish. do 3 (quiet_step attempting;
    [first [ by apply quiet_client; [repeat constructor |]
           | by apply keeps_consumer, keeps_client; [repeat constructor |]
           | destruct (kf_warmupOnConnect config); [unfold provisionWarmupTopic, create_topics; keep; by apply keeps_upd | apply keeps_ret]]
    | done | clear s Hs; intros s Hs | by intros e s1 Hs1; apply attempting_subscribed]).
  rewrite wp_bind. unfold this at 1. rewrite wp_gets.
  quiet_step attempting;
    [apply keeps_provision, core_connecting | done | intros s1 H1 | by intros e s1 Hs1; apply attempting_subscribed].
  rewrite wp_bind. eapply wp_mono; [by apply subscribe_all_spec | | by intros e s2 Hs2; apply attempting_subscribed].
  intros [] s2 H2.
  quiet_step all_subscribed;
    [apply keeps_loop, all_subscribed_stable | done | intros s3 H3 | by intros e s3 [Hs3 _]; apply attempting_subscribed].
  rewrite wp_bind. unfold upd at 1. rewrite wp_zoom, wp_modify.
  apply (wp_keeps subscribed_when_connected).
  - destruct (kf_warmupOnConnect config); [apply keeps_warmup | apply keeps_ret].
  - rewrite lget_lset. intros _. by destruct H3.
Qed.
(** What a program may do with a bus, and what the broker does to it. *)
Inductive call : Type :=
| On (eventName : string) (handler : nat)
| Connect
| Warmup
| Dispatch (e : event)
| Delivered (rawValue : option string) (location : Location)
| Close.

Definition run_call (c : call) : M St unit :=
  match c with
  | On eventName handler => zoom the_bus (on config eventName handler)
  | Connect => connect config kc the_bus
  | Warmup => warmup config kc the_bus
  | Dispatch e => dispatch config kc the_bus e
  | Delivered rawValue location => _ <- eachMessage config kc the_bus invoke now rawValue location ;; ret tt
  | Close => close kc the_bus
  end.

(** Calls one after the other; an error of one does not stop the program. *)
Definition run_calls (calls : list call) : M St unit := for_each calls (fun c => swallow (run_call c)).

Lemma keeps_on eventName handler : keeps subscribed_when_connected (zoom the_bus (on config eventName handler)).
Proof.
  intros s Hs. pose proof (proj2 (proj2 (proj2 (proj2 core_subscribed))) eventName handler _ Hs) as Hx.
  unfold zoom. destruct (on config eventName handler (lget the_bus s)) as [r b]. cbn. by rewrite lget_lset.
Qed.

Lemma keeps_connect : keeps subscribed_when_connected (connect config kc the_bus).
Proof.
  intros s Hs. unfold connect. unfold bind at 1. unfold this, gets.
  destruct (kb_connected (lget the_bus s)) eqn:Ec; [done |].
  destruct (kb_connecting (lget the_bus s)) as [[e |] |]; [done | by apply keeps_client; [repeat constructor | apply core_subscribed |] |].
  assert (Hk : keeps (fun b => kb_connected b = false) (settled (create_clients config kc the_bus))).
  { assert (Ho : on_stable (fun b => kb_connected b = false))
      by (intros n h b Hb; by destruct (on_run n h b) as [-> | [_ ->]]).
    unfold create_clients. keep; by apply keeps_upd. }
  specialize (Hk s Ec). unfold bind at 1. unfold settled in *.
  destruct (create_clients config kc the_bus s) as [[[] | e] s0]; cbn [snd] in Hk.
  2: { intros Hc. cbn in Hc. rewrite !lget_lset in Hc. cbn in Hc. congruence. }
  rewrite (bind_ok _ _ _ _ _ (upd_run the_bus _ s0)). set (s1 := lset the_bus _ s0).
  assert (Hs1 : attempting (lget the_bus s1)) by (unfold s1; by rewrite lget_lset).
  pose proof (establish_spec s1 Hs1) as He. unfold wp in He. unfold try_finally.
  destruct (establish config kc the_bus s1) as [[a | e] s2]; cbn; rewrite lget_lset; exact He.
Qed.

Lemma keeps_close : keeps subscribed_when_connected (close kc the_bus).
Proof.
  intros s Hs. unfold close. unfold bind at 1. unfold this at 1, gets at 1.
  destruct (kb_closed (lget the_bus s)); [done |]. rewrite (bind_ok _ _ _ _ _ (upd_run the_bus _ s)).
  set (s0 := lset the_bus _ s). assert (Hs0 : kb_connected (lget the_bus s0) = false) by (unfold s0; by rewrite lget_lset).
  match goal with |- subscribed_when_connected (lget the_bus (snd (?m s0))) =>
    assert (Hk : keeps (fun b => kb_connected b = false) m) by (assert (Ho : on_stable (fun b => kb_connected b = false))
      by (intros n h b Hb; by destruct (on_run n h b) as [-> | [_ ->]]); unfold with_consumer; keep; by apply keeps_upd) end.
  intros Hc. specialize (Hk s0 Hs0). cbv beta in Hk. congruence.
Qed.

(** C24. Whatever a program calls (on, connect, warmup, dispatch, close) and whatever the
    broker delivers, in any order, while any operation of the client may fail and while
    other parts of the program register handlers with [on] at every point where the bus
    waits for the client or for a handler: whenever the bus is connected, the topic of
    every event name that has a handler is recorded in [_subscribedTopics].  So neither a
    handler that is registered while [connect] is under way nor one that is registered
    later can miss the subscription of its topic silently: [on] refuses it.  (That a
    recorded topic is subscribed on the consumer in use holds for the first connection
    attempt only: see the finding on [connect].) *)
Theorem kafka_handlers_subscribed (calls : list call) (s : St) :
  subscribed_when_connected (lget the_bus s) -> subscribed_when_connected (lget the_bus (snd (run_calls calls s))).
Proof.
  assert (Ho : on_stable subscribed_when_connected) by apply core_subscribed.
  apply keeps_for_each. intros c _. apply keeps_swallow. destruct c; cbn [run_call].
  - apply keeps_on.
  - apply keeps_connect.
  - apply keeps_warmup.
  - by apply keeps_dispatch.
  - apply keeps_bind; [apply keeps_message, core_subscribed | intros ?; apply keeps_ret].
  - apply keeps_close.
Qed.
End covered.

(** A client during whose [run] another part of the program registers a handler. *)
Definition racing_client (eventName : string) (handler : nat) : Client KafkaWorld.World :=
  {| kc_new_producer := ret tt; kc_new_consumer := kc_new_consumer KafkaWorld.client;
     kc_connect_producer := ret tt; kc_connect_consumer := ret tt; kc_disconnect_producer := ret tt;
     kc_disconnect_consumer := ret tt; kc_subscribe := kc_subscribe KafkaWorld.client;
     kc_run := swallow (zoom KafkaWorld.bus_lens (on KafkaWorld.plain_config eventName handler));
     kc_wait_fetch := ret tt; kc_stop := ret tt;
     kc_send := kc_send KafkaWorld.client; kc_commit := kc_commit KafkaWorld.client;
     kc_admin_connect := ret tt; kc_admin_disconnect := ret tt; kc_createTopics := fun _ => ret tt;
     kc_connecting := ret tt; kc_warmingUp := ret tt; kc_round_trip := ret (0%nat, true) |}.

Lemma racing_client_registers eventName handler outcome t :
  RegisteringClient KafkaWorld.plain_config (racing_client eventName handler) KafkaWorld.bus_lens (KafkaWorld.invoke outcome) (ret t).
Proof.
  split; try (intros; by intros s Hs).
  - intros m Hm I HI. rewrite !elem_of_cons in Hm. decompose [or] Hm; subst; try (by intros s Hs).
    + intros s Hs. cbn [racing_client kc_run]. rewrite swallow_run. unfold zoom.
      pose proof (HI eventName handler _ Hs) as H. by destruct (on _ _ _ _).
    + by match goal with Hm : _ ∈ [] |- _ => apply not_elem_of_nil in Hm end.
  - intros h v I _ s Hs. unfold KafkaWorld.invoke, bind, get. cbn. by destruct (outcome _).
Qed.

(** One handler is there before [connect]; one is registered while it runs, two after it. *)
Definition raced : KafkaWorld.World :=
  snd (run_calls KafkaWorld.plain_config (racing_client "OrderPaid" 3) KafkaWorld.bus_lens (KafkaWorld.invoke always_fails) (ret 0%Z)
    [Connect; On "OrderShipped" 1; On "OrderPlaced" 2; Delivered (Some order_text) order_location] (KafkaWorld.start "OrderPlaced" 0)).

Lemma raced_bus :
  kb_connected (KafkaWorld.w_bus raced) = true /\
  kb_handlers (KafkaWorld.w_bus raced) = [("OrderPlaced", [User 0; User 2])].
Proof. by vm_compute. Qed.

Lemma kafka_handlers_subscribed_witness :
  kb_connected (KafkaWorld.w_bus raced) = true /\
  kb_handlers (KafkaWorld.w_bus raced) = [("OrderPlaced", [User 0; User 2])] /\
  subscribed_when_connected KafkaWorld.plain_config (lget KafkaWorld.bus_lens raced).
Proof.
  split; [exact (proj1 raced_bus) |]. split; [exact (proj2 raced_bus) |].
  assert (Hlaws : LensLaws KafkaWorld.bus_lens) by exact KafkaWorld.bus_lens_laws.
  assert (Hreg : RegisteringClient KafkaWorld.plain_config (racing_client "OrderPaid" 3) KafkaWorld.bus_lens
    (KafkaWorld.invoke always_fails) (ret 0%Z)) by apply racing_client_registers.
  unfold raced.
  apply (kafka_handlers_subscribed KafkaWorld.plain_config (racing_client "OrderPaid" 3) KafkaWorld.bus_lens
    (KafkaWorld.invoke always_fails) (ret 0%Z)).
  intros Hc. discriminate Hc.
Defined.

(** A client that cannot be created leaves the rejected promise behind: the next [connect]
    rejects with the same error without trying again, and [on] refuses new names. *)
Example kafka_connect_stays_rejected :
  let broken := {| kc_new_producer := throw (PlainError "bad config"); kc_new_consumer := kc_new_consumer KafkaWorld.client;
     kc_connect_producer := ret tt; kc_connect_consumer := ret tt; kc_disconnect_producer := ret tt;
     kc_disconnect_consumer := ret tt; kc_subscribe := kc_subscribe KafkaWorld.client; kc_run := ret tt;
     kc_wait_fetch := ret tt; kc_stop := ret tt;
     kc_send := kc_send KafkaWorld.client; kc_commit := kc_commit KafkaWorld.client;
     kc_admin_connect := ret tt; kc_admin_disconnect := ret tt; kc_createTopics := fun _ => ret tt;
     kc_connecting := ret tt; kc_warmingUp := ret tt; kc_round_trip := ret (0%nat, true) |} in
  let '(first, failed) := connect KafkaWorld.plain_config broken KafkaWorld.bus_lens (KafkaWorld.start "OrderPlaced" 0) in
  let '(second, _) := connect KafkaWorld.plain_config KafkaWorld.client KafkaWorld.bus_lens failed in
  first = Err (PlainError "bad config") /\ second = first /\
  is_ok (fst (on KafkaWorld.plain_config "OrderShipped" 1 (KafkaWorld.w_bus failed))) = false.
Proof. by vm_compute. Qed.
