(* ===== verification/Nats.v ===== *)
(** [NatsEventBus] of [adapters/nats/src/nats-event-bus.ts].  The client [nats] is a
    record of operations; the fields of the class are the record [bus].  A subscription
    that [on] starts without awaiting it is started at once here.  Log lines are left
    out, but for the property they read of a message. *)
From S2P Require Import Prelude Text Json JsMap CoreTypes Errors Wire Broker.
Local Open Scope string_scope.

(** ** Configuration and state *)

Record NatsEventBusConfig : Type := {
  nf_servers : list string;
  nf_consumerGroup : string;
  nf_streamName : option string;
  nf_subjectPrefix : option string;
  nf_prefetchCount : option Z;
  nf_resilience : option BrokerResilience
}.

Definition NAK_BASE_DELAY_MS : Z := 500.
Definition NAK_MAX_DELAY_MS : Z := 30000.

Record bus : Type := {
  nb_nc : bool;             (** the fields are not null *)
  nb_js : bool;
  nb_connected : bool;
  nb_closed : bool;
  nb_handlers : jsmap (list nat);
  nb_subscribedEventNames : list string
}.

Definition new_bus : bus :=
  {| nb_nc := false; nb_js := false; nb_connected := false; nb_closed := false; nb_handlers := empty;
     nb_subscribedEventNames := [] |}.

Definition set_connection (nc js connected closed : bool) (b : bus) : bus :=
  {| nb_nc := nc; nb_js := js; nb_connected := connected; nb_closed := closed; nb_handlers := nb_handlers b;
     nb_subscribedEventNames := nb_subscribedEventNames b |}.
Definition set_handlers (v : jsmap (list nat)) (b : bus) : bus :=
  {| nb_nc := nb_nc b; nb_js := nb_js b; nb_connected := nb_connected b; nb_closed := nb_closed b; nb_handlers := v;
     nb_subscribedEventNames := nb_subscribedEventNames b |}.
Definition set_subscribed (v : list string) (b : bus) : bus :=
  {| nb_nc := nb_nc b; nb_js := nb_js b; nb_connected := nb_connected b; nb_closed := nb_closed b;
     nb_handlers := nb_handlers b; nb_subscribedEventNames := v |}.

(** ** The client *)

Record ConnectOptions : Type := { no_servers : list string; no_maxReconnectAttempts : Z; no_reconnectTimeWait : Z }.
Record ConsumerOptions : Type := {
  so_durable : string;
  so_deliverGroup : string;
  so_filterSubject : string;
  so_maxAckPending : Z;
  so_maxDeliver : option Z   (** manual acknowledgement, to an inbox of its own *)
}.
(** A delivered message; [info] may be absent. *)
Record JsMsg : Type := { jm_data : string; jm_deliveryCount : option Z }.
Inductive settlement : Type := Ack | Nak (delayMs : Z) | Term.

Record Client (St : Type) : Type := {
  nc_connect : ConnectOptions -> M St unit;
  nc_jetstreamManager : M St unit;
  nc_stream_info : string -> M St unit;
  nc_stream_add : string -> list string -> M St unit;
  nc_publish : string -> string -> list (string * string) -> M St unit;
  nc_subscribe : string -> ConsumerOptions -> M St unit;
  nc_isClosed : M St bool;
  nc_drain : M St unit;
  nc_settle : JsMsg -> settlement -> M St unit   (** [msg.ack()], [msg.nak(delay)], [msg.term()] *)
}.
Arguments nc_connect {St} _.
Arguments nc_jetstreamManager {St} _.
Arguments nc_stream_info {St} _.
Arguments nc_stream_add {St} _.
Arguments nc_publish {St} _.
Arguments nc_subscribe {St} _.
Arguments nc_isClosed {St} _.
Arguments nc_drain {St} _.
Arguments nc_settle {St} _.

(** ** Names *)

Section names.
Context (config : NatsEventBusConfig).

Definition subjectFor (eventName : string) : string := or_default (nf_subjectPrefix config) EmptyString ++ eventName.
Definition dlqSubjectFor (eventName : string) : string :=
  or_default (nf_subjectPrefix config) EmptyString ++ "dlq." ++ eventName.

(** [prefix.endsWith(".")] *)
Definition ends_with_dot (prefix : string) : bool :=
  match rev (chars_of prefix) with c :: _ => Ascii.eqb c (chr 46) | [] => false end.

Definition normalized (prefix : string) : string := if ends_with_dot prefix then prefix else prefix ++ ".".

Definition prefix_required : js_error :=
  PlainError ("NatsEventBus: " ++ quoted "subjectPrefix" ++ " is required when " ++ quoted "streamName" ++
    " is configured. An unset subjectPrefix would create a stream claiming " ++ quoted ">" ++ " — every subject " ++
    "on the server. Provide a namespaced prefix (e.g. subjectPrefix: " ++ quoted "myapp." ++ ").").

Definition buildSubjectsForStream : result (list string) :=
  match nf_subjectPrefix config with
  | None => Err prefix_required
  | Some prefix =>
      if String.eqb prefix EmptyString then Err prefix_required else
      let subject := normalized prefix ++ ">" in
      if String.eqb subject ">" || includes "*" (normalized prefix) || includes ">" (normalized prefix)
      then Err (PlainError ("NatsEventBus: computed stream subject " ++ quoted subject ++ " is invalid or overly broad."))
      else Ok [subject]
  end.

(** [eventName.replace(/[^a-zA-Z0-9_-]/g, "_")] *)
Definition name_char (c : Ascii.ascii) : bool :=
  let n := code c in
  ((97 <=? n) && (n <=? 122) || (65 <=? n) && (n <=? 90) || (48 <=? n) && (n <=? 57) || (n =? 95) || (n =? 45))%Z.
Definition sanitized (eventName : string) : string :=
  string_of (map (fun c => if name_char c then c else chr 95) (chars_of eventName)).
Definition durableName (eventName : string) : string := nf_consumerGroup config ++ "_" ++ sanitized eventName.

Definition consumer_options (eventName : string) : ConsumerOptions :=
  {| so_durable := durableName eventName; so_deliverGroup := durableName eventName;
     so_filterSubject := subjectFor eventName; so_maxAckPending := or_default (nf_prefetchCount config) 256%Z;
     so_maxDeliver := resilience_field br_maxRetries (nf_resilience config) |}.

Definition connect_options : ConnectOptions :=
  {| no_servers := nf_servers config;
     no_maxReconnectAttempts := or_default (resilience_field br_maxAttempts (nf_resilience config)) (-1)%Z;
     no_reconnectTimeWait := or_default (resilience_field br_initialDelayMs (nf_resilience config)) 2000%Z |}.
End names.

Definition computeNakDelayMs (deliveryCount : Z) : Z :=
  let backoffMs := (NAK_BASE_DELAY_MS * 2 ^ Z.max 0 (deliveryCount - 1))%Z in
  Z.min backoffMs NAK_MAX_DELAY_MS.

(** ** Operations *)

Section nats.
Context {St : Type} (config : NatsEventBusConfig) (nc : Client St) (the_bus : lens St bus)
  (invoke : nat -> value -> M St unit).

Definition this : M St bus := gets (lget the_bus).
Definition upd (f : bus -> bus) : M St unit := zoom the_bus (modify f).

Definition createSubscriptionForEvent (eventName : string) (failFast : bool) : M St unit :=
  b <- this ;;
  if negb (nb_js b) then ret tt else
  try_catch (nc_subscribe nc (subjectFor config eventName) (consumer_options config eventName))
    (fun err => if failFast then throw err else ret tt).

Definition activateSubscriptions : M St unit :=
  b <- this ;;
  for_each (mkeys (nb_handlers b)) (fun eventName =>
    upd (fun b => set_subscribed (add eventName (nb_subscribedEventNames b)) b) ;;;
    createSubscriptionForEvent eventName true).

Definition ensure_stream (streamName : string) : M St unit :=
  nc_jetstreamManager nc ;;;
  try_catch (nc_stream_info nc streamName)
    (fun _ => subjects <- lift_result (buildSubjectsForStream config) ;; nc_stream_add nc streamName subjects).

Definition connect : M St unit :=
  b <- this ;;
  if nb_connected b then ret tt else
  nc_connect nc (connect_options config) ;;;
  upd (fun b => set_connection true true true (nb_closed b) b) ;;;
  (match nf_streamName config with
   | Some streamName => if String.eqb streamName EmptyString then ret tt else ensure_stream streamName
   | None => ret tt
   end) ;;;
  activateSubscriptions.

Definition on (eventName : string) (handler : nat) : M St unit :=
  b <- this ;;
  if nb_closed b then throw (PlainError "Cannot register handlers on a closed NatsEventBus.") else
  upd (fun b => set_handlers (add_handler eventName handler (nb_handlers b)) b) ;;;
  if nb_connected b && nb_js b && negb (has eventName (nb_subscribedEventNames b))
  then
    upd (fun b => set_subscribed (add eventName (nb_subscribedEventNames b)) b) ;;;
    createSubscriptionForEvent eventName false
  else ret tt.

Definition dispatch (e : event) : M St unit :=
  b <- this ;;
  if negb (nb_connected b) || negb (nb_js b)
  then throw (PlainError "NatsEventBus is not connected. Call connect() before dispatch().") else
  data <- lift_result (event_text e) ;;
  nc_publish nc (subjectFor config (ev_name e)) data [].

Definition close : M St unit :=
  b <- this ;;
  if nb_closed b then ret tt else
  upd (set_connection (nb_nc b) (nb_js b) false true) ;;;
  (if nb_nc b then
     upd (set_connection false false false true) ;;;
     isClosed <- nc_isClosed nc ;;
     (if (isClosed : bool) then ret tt else nc_drain nc)
   else ret tt) ;;;
  upd (fun b => set_subscribed [] (set_handlers empty b)).

Definition handleMessage (eventName messageData : string) : M St unit :=
  event <- lift_result (parse messageData) ;;
  b <- this ;;
  rejection <- deliver invoke (handlers_for eventName (nb_handlers b)) event ;;
  match rejection with Some e => throw e | None => ret tt end.

Definition publishToDeadLetter (eventName raw : string) (deliveryCount : Z) (error : js_error) : M St unit :=
  b <- this ;;
  if negb (nb_js b) then ret tt else
  swallow (nc_publish nc (dlqSubjectFor config eventName) raw
    [("noddde-original-subject", subjectFor config eventName); ("noddde-delivery-count", string_of_Z deliveryCount);
     ("noddde-failure-reason", error_text error)]).

(** The body of the loop over the messages of a subscription. *)
Definition consume_one (eventName : string) (msg : JsMsg) : M St unit :=
  match parse (jm_data msg) with
  | Err _ => swallow (nc_settle nc msg Term)
  | Ok event =>
      try_catch
        (text <- lift_result (stringify event) ;;
         handleMessage eventName (or_default text "undefined") ;;;
         swallow (nc_settle nc msg Ack))
        (fun err =>
           let deliveryCount := or_default (jm_deliveryCount msg) 1%Z in
           let exhausted := match resilience_field br_maxRetries (nf_resilience config) with
                            | Some maxRetries => (maxRetries <=? deliveryCount)%Z
                            | None => false
                            end in
           if exhausted
           then publishToDeadLetter eventName (jm_data msg) deliveryCount err ;;; swallow (nc_settle nc msg Term)
           else swallow (nc_settle nc msg (Nak (computeNakDelayMs deliveryCount))))
  end.
End nats.

(** ** Every message is settled *)

(** What the server sees of the bus, most recent first. *)
Inductive action : Type :=
| Settled (msg : JsMsg) (x : settlement)
| Published (subject data : string) (headers : list (string * string)).

Section settled.
Context {St : Type} (config : NatsEventBusConfig) (nc : Client St) (the_bus : lens St bus)
  (invoke : nat -> value -> M St unit) (observe : St -> list action).

(** Operations reach the server, whatever they return; handlers use neither the bus nor
    the connection. *)
Class Observes : Prop := {
  observes_settle : forall msg x s, observe (snd (nc_settle nc msg x s)) = Settled msg x :: observe s /\
    lget the_bus (snd (nc_settle nc msg x s)) = lget the_bus s;
  observes_publish : forall subject data hs s, observe (snd (nc_publish nc subject data hs s)) = Published subject data hs :: observe s /\
    lget the_bus (snd (nc_publish nc subject data hs s)) = lget the_bus s;
  observes_handler : forall h v s, observe (snd (invoke h v s)) = observe s /\ lget the_bus (snd (invoke h v s)) = lget the_bus s
}.

(** The outcome of the handlers on a message: [None] when they all accept it. *)
Definition delivered (eventName : string) (event : value) (s : St) : option js_error :=
  match fst (deliver invoke (handlers_for eventName (nb_handlers (lget the_bus s))) event s) with
  | Ok rejection => rejection
  | Err e => Some e
  end.

Definition exhausted (msg : JsMsg) : bool :=
  match resilience_field br_maxRetries (nf_resilience config) with
  | Some maxRetries => (maxRetries <=? or_default (jm_deliveryCount msg) 1%Z)%Z
  | None => false
  end.

Definition dead_letter (eventName : string) (msg : JsMsg) (e : js_error) : action :=
  Published (dlqSubjectFor config eventName) (jm_data msg)
    [("noddde-original-subject", subjectFor config eventName);
     ("noddde-delivery-count", string_of_Z (or_default (jm_deliveryCount msg) 1%Z));
     ("noddde-failure-reason", error_text e)].

(** What the server is told about a message. *)
Definition verdict (eventName : string) (msg : JsMsg) (s : St) : list action :=
  match parse (jm_data msg) with
  | Err _ => [Settled msg Term]
  | Ok event =>
      match delivered eventName event s with
      | None => [Settled msg Ack]
      | Some e =>
          if exhausted msg then [Settled msg Term; dead_letter eventName msg e]
          else [Settled msg (Nak (computeNakDelayMs (or_default (jm_deliveryCount msg) 1%Z)))]
      end
  end.

Lemma swallow_settle `{!Observes} msg x s :
  exists s', swallow (nc_settle nc msg x) s = (Ok tt, s') /\ observe s' = Settled msg x :: observe s.
Proof. rewrite swallow_run. eexists. split; [done |]. apply observes_settle. Qed.

Lemma deliver_quiet `{!Observes} hs event s s' r : deliver invoke hs event s = (r, s') ->
  observe s' = observe s /\ lget the_bus s' = lget the_bus s.
Proof.
  intros Hrun. pose proof (deliver_invariant invoke hs event
    (fun x => observe x = observe s /\ lget the_bus x = lget the_bus s) s) as Hi.
  rewrite Hrun in Hi. apply Hi; [| done]. intros h x _ [Ho Hb]. destruct (observes_handler h event x) as [-> ->]. done.
Qed.

Lemma handle_run `{!Observes} eventName text event s : parse text = Ok event -> exists s',
  observe s' = observe s /\ lget the_bus s' = lget the_bus s /\
  handleMessage the_bus invoke eventName text s
  = (match delivered eventName event s with None => Ok tt | Some e => Err e end, s').
Proof.
  intros Hp. unfold handleMessage, delivered. rewrite Hp. unfold lift_result, this, gets, bind at 1 2.
  unfold bind. destruct (deliver invoke _ event s) as [r s'] eqn:E. destruct (deliver_quiet _ _ _ _ _ E) as [Ho Hb].
  exists s'. split; [done |]. split; [done |]. by destruct r as [[e |] | e].
Qed.

(** C23. Every message is settled once, and the loop over the messages never fails: a
    message that does not decode is terminated, one that all handlers accept is
    acknowledged, one that a handler rejects is asked again after the delay of its
    delivery count or, at [maxRetries] deliveries, copied to the dead-letter subject
    and then terminated.  The operations of the client may fail. *)
Theorem nats_message_settled (eventName : string) (msg : JsMsg) (s : St) :
  Observes -> nb_js (lget the_bus s) = true ->
  exists s', consume_one config nc the_bus invoke eventName msg s = (Ok tt, s') /\
    observe s' = (verdict eventName msg s ++ observe s)%list /\
    exists x, List.filter (fun a => match a with Settled m y => true | Published _ _ _ => false end) (verdict eventName msg s)
              = [Settled msg x].
Proof.
  intros Hobs Hjs. unfold consume_one, verdict. destruct (parse (jm_data msg)) as [event | err] eqn:Ep.
  2: { destruct (swallow_settle msg Term s) as (s' & H & O). exists s'. by rewrite H, O; eauto. }
  destruct (parse_print_parse _ _ Ep) as (text & Hs & Hp). rewrite Hs.
  destruct (handle_run eventName text event s Hp) as (s1 & O1 & B1 & H1).
  unfold lift_result. unfold try_catch, bind at 1. cbn [or_default].
  unfold bind at 1. rewrite H1. destruct (delivered eventName event s) as [e |].
  - cbv beta zeta. fold (exhausted msg). destruct (exhausted msg).
    + unfold publishToDeadLetter, this, gets. unfold bind. rewrite B1, Hjs. cbn [negb]. rewrite swallow_run.
      destruct (observes_publish (dlqSubjectFor config eventName) (jm_data msg)
        [("noddde-original-subject", subjectFor config eventName);
         ("noddde-delivery-count", string_of_Z (or_default (jm_deliveryCount msg) 1%Z));
         ("noddde-failure-reason", error_text e)] s1) as [O2 _].
      destruct (swallow_settle msg Term (snd (nc_publish nc (dlqSubjectFor config eventName) (jm_data msg)
        [("noddde-original-subject", subjectFor config eventName);
         ("noddde-delivery-count", string_of_Z (or_default (jm_deliveryCount msg) 1%Z));
         ("noddde-failure-reason", error_text e)] s1))) as (s3 & -> & O3).
      exists s3. rewrite O3, O2, O1. by eauto.
    + destruct (swallow_settle msg (Nak (computeNakDelayMs (or_default (jm_deliveryCount msg) 1%Z))) s1) as (s2 & -> & O2).
      exists s2. rewrite O2, O1. by eauto.
  - destruct (swallow_settle msg Ack s1) as (s2 & -> & O2). exists s2. rewrite O2, O1. by eauto.
Qed.
End settled.

(** ** The delay before a redelivery *)

(** The delay of a redelivery lies between half a second and 30 seconds, never
    decreases with the number of deliveries, doubles from one delivery to the next
    until the sixth, and is 30 seconds from the seventh delivery on. *)
Theorem nats_nak_delay (n m : Z) :
  (NAK_BASE_DELAY_MS <= computeNakDelayMs n <= NAK_MAX_DELAY_MS)%Z /\
  ((n <= m)%Z -> (computeNakDelayMs n <= computeNakDelayMs m)%Z) /\
  ((1 <= n <= 5)%Z -> computeNakDelayMs (n + 1) = (2 * computeNakDelayMs n)%Z) /\
  ((7 <= n)%Z -> computeNakDelayMs n = NAK_MAX_DELAY_MS).
Proof.
  unfold computeNakDelayMs, NAK_BASE_DELAY_MS, NAK_MAX_DELAY_MS.
  assert (Hmono : forall x y, (x <= y)%Z -> (2 ^ Z.max 0 (x - 1) <= 2 ^ Z.max 0 (y - 1))%Z)
    by (intros x y Hxy; apply Z.pow_le_mono_r; lia).
  assert (H0 : (1 <= 2 ^ Z.max 0 (n - 1))%Z) by (pose proof (Z.pow_pos_nonneg 2 (Z.max 0 (n - 1))); lia).
  split; [lia |]. split; [intros Hnm%Hmono; lia |]. split.
  - intros Hn. assert (n = 1 \/ n = 2 \/ n = 3 \/ n = 4 \/ n = 5)%Z as [-> | [-> | [-> | [-> | ->]]]] by lia; reflexivity.
  - intros H7%Hmono. change (2 ^ Z.max 0 (7 - 1))%Z with 64%Z in H7. lia.
Qed.

(** ** The stream and the subjects *)

Section subjects.
Context (matches : string -> string -> bool).   (** does a subject belong to a pattern? *)
(** In a pattern that ends with [.>], the [>] stands for one or more tokens. *)
Hypothesis matches_tail : forall base subject, ends_with_dot base = true ->
  (matches (base ++ ">") subject = true <-> exists rest, rest <> EmptyString /\ subject = base ++ rest).

Lemma normalized_ends prefix : ends_with_dot (normalized prefix) = true.
Proof.
  unfold normalized. destruct (ends_with_dot prefix) eqn:E; [done |].
  unfold ends_with_dot. rewrite chars_of_append, rev_app_distr. reflexivity.
Qed.

(** The stream that [connect] creates claims one subject.  With a prefix that ends
    with a dot, it holds the subject of every event and its dead-letter subject.  With
    any other prefix it holds the subject of no event (but for names that begin with a
    dot): [dispatch] and the subscriptions use the prefix as it is written, only the
    stream uses the normalized one. *)
Theorem nats_stream_covers_subjects (config : NatsEventBusConfig) (prefix eventName : string) (subjects : list string) :
  nf_subjectPrefix config = Some prefix -> buildSubjectsForStream config = Ok subjects -> eventName <> EmptyString ->
  exists pattern, subjects = [pattern] /\
    (ends_with_dot prefix = true ->
       matches pattern (subjectFor config eventName) = true /\ matches pattern (dlqSubjectFor config eventName) = true) /\
    (ends_with_dot prefix = false ->
       (matches pattern (subjectFor config eventName) = true <->
        exists rest, rest <> EmptyString /\ eventName = "." ++ rest)).
Proof.
  intros Hp Hb Hname. unfold buildSubjectsForStream in Hb. rewrite Hp in Hb.
  destruct (String.eqb prefix EmptyString); [done |]. cbv zeta in Hb.
  destruct (_ || _ || _); [done |]. injection Hb as <-. eexists. split; [done |].
  unfold subjectFor, dlqSubjectFor. rewrite Hp. cbn [or_default]. pose proof (normalized_ends prefix) as Hn.
  split; intros He.
  - rewrite !matches_tail by done. unfold normalized. rewrite He. split; [by exists eventName |]. by exists ("dlq." ++ eventName).
  - rewrite matches_tail by done. unfold normalized. rewrite He. split; intros (rest & Hr & Heq); exists rest; (split; [done |]).
    + rewrite append_assoc in Heq. by apply append_inj_head in Heq.
    + rewrite Heq. by rewrite append_assoc.
Qed.
End subjects.

(** Two event names may share a durable consumer: [sanitized] is not injective. *)
Example durable_names_collide : forall config,
  durableName config "order.placed" = durableName config "order_placed" /\
  subjectFor config "order.placed" <> subjectFor config "order_placed".
Proof. intros config. split; [reflexivity |]. unfold subjectFor. intros H%append_inj_head. discriminate H. Qed.

(** ** Witnesses *)

Module NatsWorld.

Record World : Type := { w_bus : bus; w_actions : list action }.
Definition bus_lens : lens World bus := Lens w_bus (fun b w => {| w_bus := b; w_actions := w_actions w |}).
Definition acting (a : action) : M World unit := modify (fun w => {| w_bus := w_bus w; w_actions := a :: w_actions w |}).

Definition client : Client World :=
  {| nc_connect := fun _ => ret tt; nc_jetstreamManager := ret tt; nc_stream_info := fun _ => ret tt;
     nc_stream_add := fun _ _ => ret tt; nc_publish := fun subject data hs => acting (Published subject data hs);
     nc_subscribe := fun _ _ => ret tt; nc_isClosed := ret false; nc_drain := ret tt;
     nc_settle := fun msg x => acting (Settled msg x) |}.

Definition config : NatsEventBusConfig :=
  {| nf_servers := ["localhost:4222"]; nf_consumerGroup := "svc"; nf_streamName := Some "events";
     nf_subjectPrefix := Some "noddde."; nf_prefetchCount := None;
     nf_resilience := Some {| br_maxAttempts := None; br_initialDelayMs := None; br_maxDelayMs := None; br_maxRetries := Some 3%Z |} |}.

Definition failing (h : nat) (v : value) : M World unit := throw (PlainError "out of stock").
Definition start : World :=
  {| w_bus := set_handlers [("OrderPlaced", [0%nat])] (set_connection true true true false new_bus); w_actions := [] |}.
Definition last_delivery : JsMsg := {| jm_data := "{}"; jm_deliveryCount := Some 3%Z |}.
End NatsWorld.

Lemma nats_message_settled_witness : exists s',
  consume_one NatsWorld.config NatsWorld.client NatsWorld.bus_lens NatsWorld.failing "OrderPlaced" NatsWorld.last_delivery NatsWorld.start
    = (Ok tt, s') /\
  NatsWorld.w_actions s' = [Settled NatsWorld.last_delivery Term;
    Published "noddde.dlq.OrderPlaced" "{}" [("noddde-original-subject", "noddde.OrderPlaced");
      ("noddde-delivery-count", "3"); ("noddde-failure-reason", "out of stock")]].
Proof.
  destruct (nats_message_settled NatsWorld.config NatsWorld.client NatsWorld.bus_lens NatsWorld.failing NatsWorld.w_actions
    "OrderPlaced" NatsWorld.last_delivery NatsWorld.start) as (s' & H & Ho & _).
  - by split.
  - reflexivity.
  - exists s'. split; [exact H |]. rewrite Ho. vm_compute. reflexivity.
Defined.

Lemma nats_nak_delay_witness : (computeNakDelayMs 2 <= computeNakDelayMs 9)%Z /\ computeNakDelayMs 9 = 30000%Z.
Proof. destruct (nats_nak_delay 2 9) as (_ & H & _). destruct (nats_nak_delay 9 9) as (_ & _ & _ & H9). split; [apply H | apply H9]; lia. Defined.

(** One reading of a pattern: all of it but the [>], then something. *)
Definition tail_matches (pattern subject : string) : bool :=
  let base := String.substring 0 (String.length pattern - 1) pattern in
  String.prefix base subject && (String.length base <? String.length subject)%nat.

Lemma substring_app base rest : String.substring 0 (String.length base) (base ++ rest) = base.
Proof. induction base as [| c base IH]; [by destruct rest |]. exact (f_equal (String c) IH). Qed.

Lemma string_length_app a b : String.length (a ++ b) = (String.length a + String.length b)%nat.
Proof. induction a as [| c a IH]; [done |]. exact (f_equal S IH). Qed.

Lemma prefix_split a b : String.prefix a b = true -> exists rest, b = a ++ rest.
Proof.
  revert b. induction a as [| c a IH]; intros b H; [by exists b |]. destruct b as [| c' b]; [done |]. cbn in H.
  destruct (Ascii.ascii_dec c c') as [-> |]; [| done]. destruct (IH b H) as [rest ->]. by exists rest.
Qed.

Lemma prefix_app a rest : String.prefix a (a ++ rest) = true.
Proof.
  induction a as [| c a IH]; [by destruct rest |].
  change (String.prefix (String c a) (String c a ++ rest)) with (if Ascii.ascii_dec c c then String.prefix a (a ++ rest) else false).
  by destruct (Ascii.ascii_dec c c).
Qed.

Lemma tail_matches_ok base subject : ends_with_dot base = true ->
  (tail_matches (base ++ ">") subject = true <-> exists rest, rest <> EmptyString /\ subject = base ++ rest).
Proof.
  intros _. unfold tail_matches. rewrite string_length_app. cbn [String.length].
  replace (String.length base + 1 - 1)%nat with (String.length base) by lia. rewrite substring_app. split.
  - intros [[rest ->]%prefix_split Hl%Nat.ltb_lt]%andb_true_iff. exists rest. split; [| done].
    rewrite string_length_app in Hl. intros ->. cbn in Hl. lia.
  - intros (rest & Hr & ->). rewrite prefix_app. apply Nat.ltb_lt. rewrite string_length_app.
    destruct rest; [done |]. cbn. lia.
Qed.

Lemma nats_stream_covers_subjects_witness :
  tail_matches "noddde.>" "noddde.OrderPlaced" = true /\ tail_matches "noddde.>" "noddde.dlq.OrderPlaced" = true.
Proof.
  destruct (nats_stream_covers_subjects tail_matches tail_matches_ok NatsWorld.config "noddde." "OrderPlaced" ["noddde.>"])
    as (pattern & [= <-] & H & _); [reflexivity | reflexivity | discriminate |]. by apply H.
Defined.
