(* ===== verification/Rabbit.v ===== *)
(** [RabbitMqEventBus] of [adapters/rabbitmq/src/rabbitmq-event-bus.ts].  The client
    [amqplib] is a record of operations, a channel is a number; the fields of the class
    are the record [bus].  A consumer that [on] starts without awaiting it is started at
    once here.  The promise chains of [_aggregateChains] are the step relation of
    [AggregateChains.v].  Log lines are left out, but for the property they read of
    a message. *)
From S2P Require Import Prelude Text Json JsMap CoreTypes Errors Wire Broker.
Local Open Scope string_scope.

(** ** Configuration and state *)

Record RabbitMqEventBusConfig : Type := {
  rf_url : string;
  rf_exchangeName : option string;
  rf_exchangeType : option string;   (** "topic" or "fanout" *)
  rf_queuePrefix : string;
  rf_prefetchCount : option Z;
  rf_resilience : option BrokerResilience
}.

Definition EVENT_CONTENT_TYPE : string := "application/vnd.noddde.event+json; version=1".

(** The fields that the constructor derives. *)
Definition exchangeName (c : RabbitMqEventBusConfig) : string := or_default (rf_exchangeName c) "noddde.events".
Definition exchangeType (c : RabbitMqEventBusConfig) : string := or_default (rf_exchangeType c) "topic".
Definition prefetchCount (c : RabbitMqEventBusConfig) : Z := or_default (rf_prefetchCount c) 10%Z.
Definition dlxName (c : RabbitMqEventBusConfig) : string := exchangeName c ++ ".dlx".
Definition dlqName (c : RabbitMqEventBusConfig) : string := rf_queuePrefix c ++ ".dlq".

(** [isExchangeTypeMismatch] *)
Definition isExchangeTypeMismatch (error : js_error) : bool :=
  let message := error_text error in
  (includes "PRECONDITION_FAILED" message || includes "PRECONDITION-FAILED" message) &&
  includes "inequivalent arg 'type' for exchange" (lower_case message).

Record bus : Type := {
  rb_connection : bool;        (** the field is not null *)
  rb_channel : option nat;
  rb_connected : bool;
  rb_closed : bool;
  rb_reconnecting : bool;
  rb_handlers : jsmap (list nat);
  rb_deliveryCounts : jsmap Z
}.

Definition new_bus : bus :=
  {| rb_connection := false; rb_channel := None; rb_connected := false; rb_closed := false; rb_reconnecting := false;
     rb_handlers := empty; rb_deliveryCounts := empty |}.

Definition set_link (connection : bool) (channel : option nat) (connected closed reconnecting : bool) (b : bus) : bus :=
  {| rb_connection := connection; rb_channel := channel; rb_connected := connected; rb_closed := closed;
     rb_reconnecting := reconnecting; rb_handlers := rb_handlers b; rb_deliveryCounts := rb_deliveryCounts b |}.
Definition set_connection (v : bool) (b : bus) : bus :=
  set_link v (rb_channel b) (rb_connected b) (rb_closed b) (rb_reconnecting b) b.
Definition set_channel (v : option nat) (b : bus) : bus :=
  set_link (rb_connection b) v (rb_connected b) (rb_closed b) (rb_reconnecting b) b.
Definition set_connected (v : bool) (b : bus) : bus :=
  set_link (rb_connection b) (rb_channel b) v (rb_closed b) (rb_reconnecting b) b.
Definition set_reconnecting (v : bool) (b : bus) : bus :=
  set_link (rb_connection b) (rb_channel b) (rb_connected b) (rb_closed b) v b.
Definition set_handlers (v : jsmap (list nat)) (b : bus) : bus :=
  {| rb_connection := rb_connection b; rb_channel := rb_channel b; rb_connected := rb_connected b; rb_closed := rb_closed b;
     rb_reconnecting := rb_reconnecting b; rb_handlers := v; rb_deliveryCounts := rb_deliveryCounts b |}.
Definition set_counts (v : jsmap Z) (b : bus) : bus :=
  {| rb_connection := rb_connection b; rb_channel := rb_channel b; rb_connected := rb_connected b; rb_closed := rb_closed b;
     rb_reconnecting := rb_reconnecting b; rb_handlers := rb_handlers b; rb_deliveryCounts := v |}.

(** ** The client *)

Record PublishOptions : Type := {
  po_contentType : option string;
  po_messageId : option string;
  po_headers : list (string * string)   (** persistent *)
}.
Record ConsumeMessage : Type := { cm_tag : nat; cm_content : string; cm_messageId : option string }.

Record Client (St : Type) : Type := {
  rc_connect : string -> M St unit;
  rc_close_connection : M St unit;
  rc_createConfirmChannel : M St nat;
  rc_close_channel : nat -> M St unit;
  rc_prefetch : nat -> Z -> M St unit;
  rc_assertExchange : nat -> string -> string -> M St unit;
  rc_assertQueue : nat -> string -> M St unit;
  rc_bindQueue : nat -> string -> string -> string -> M St unit;
  rc_consume : nat -> string -> M St unit;
  rc_publish : nat -> string -> string -> string -> PublishOptions -> M St unit;
  rc_waitForConfirms : nat -> M St unit;
  rc_ack : nat -> ConsumeMessage -> M St unit;
  rc_nack : nat -> ConsumeMessage -> M St unit;     (** one message, requeued *)
  rc_watch_connection : M St unit;                  (** the [error] and [close] listeners *)
  rc_watch_channel : nat -> M St unit;
  rc_wait : Z -> M St unit;                         (** [setTimeout] *)
  rc_wait_jittered : Z -> M St unit                 (** the same, times 0.75 to 1.25 at random *)
}.
Arguments rc_connect {St} _.
Arguments rc_close_connection {St} _.
Arguments rc_createConfirmChannel {St} _.
Arguments rc_close_channel {St} _.
Arguments rc_prefetch {St} _.
Arguments rc_assertExchange {St} _.
Arguments rc_assertQueue {St} _.
Arguments rc_bindQueue {St} _.
Arguments rc_consume {St} _.
Arguments rc_publish {St} _.
Arguments rc_waitForConfirms {St} _.
Arguments rc_ack {St} _.
Arguments rc_nack {St} _.
Arguments rc_watch_connection {St} _.
Arguments rc_watch_channel {St} _.
Arguments rc_wait {St} _.
Arguments rc_wait_jittered {St} _.

(** ** Operations *)

Section rabbit.
Context {St : Type} (config : RabbitMqEventBusConfig) (rc : Client St) (the_bus : lens St bus)
  (invoke : nat -> value -> M St unit) (now : M St Z) (sha256 : string -> string).

Definition this : M St bus := gets (lget the_bus).
Definition upd (f : bus -> bus) : M St unit := zoom the_bus (modify f).

Definition max_retries : option Z := resilience_field br_maxRetries (rf_resilience config).

(** *** Consumers *)

Definition assertDeadLetterTopology (channel : nat) : M St unit :=
  rc_assertExchange rc channel (dlxName config) "fanout" ;;;
  rc_assertQueue rc channel (dlqName config) ;;;
  rc_bindQueue rc channel (dlqName config) (dlxName config) EmptyString.

Definition setupConsumer (eventName : string) : M St unit :=
  b <- this ;;
  match rb_channel b with
  | None => ret tt
  | Some channel =>
      let queueName := rf_queuePrefix config ++ "." ++ eventName in
      (if is_some max_retries then assertDeadLetterTopology channel else ret tt) ;;;
      rc_assertQueue rc channel queueName ;;;
      rc_bindQueue rc channel queueName (exchangeName config) eventName ;;;
      rc_consume rc channel queueName
  end.

Definition setup_consumers : M St unit := b <- this ;; for_each (mkeys (rb_handlers b)) setupConsumer.

(** *** Connection *)

(** [Math.min(initialDelay * Math.pow(2, attempt), maxDelay)] *)
Definition backoff (attempt : nat) : Z :=
  let initialDelay := or_default (resilience_field br_initialDelayMs (rf_resilience config)) 1000%Z in
  let maxDelay := or_default (resilience_field br_maxDelayMs (rf_resilience config)) 30000%Z in
  Z.min (initialDelay * 2 ^ Z.of_nat attempt) maxDelay.

(** The body of the [try] of one attempt, once the connection is open. *)
Definition setup_connection : M St unit :=
  upd (set_connection true) ;;;
  channel <- rc_createConfirmChannel rc ;;
  upd (set_channel (Some channel)) ;;;
  rc_prefetch rc channel (prefetchCount config) ;;;
  try_catch (rc_assertExchange rc channel (exchangeName config) (exchangeType config))
    (fun error => if isExchangeTypeMismatch error
                  then throw (ExchangeTypeMismatchError (exchangeName config) (exchangeType config) (error_text error))
                  else throw error) ;;;
  setup_consumers ;;;
  rc_watch_connection rc ;;;
  rc_watch_channel rc channel ;;;
  upd (set_connected true).

Definition is_type_mismatch (e : js_error) : bool := match e with ExchangeTypeMismatchError _ _ _ => true | _ => false end.

(** An attempt; when it fails, what was opened is closed. *)
Definition attempt_connection : M St unit :=
  opened <- settled (rc_connect rc (rf_url config)) ;;
  outcome <- (match opened with Ok _ => settled setup_connection | Err e => ret (Err e) end) ;;
  match outcome with
  | Ok _ => ret tt
  | Err e =>
      (if is_ok opened then swallow (rc_close_connection rc) else ret tt) ;;;
      upd (fun b => set_channel None (set_connection false b)) ;;;
      throw e
  end.

(** [remaining] attempts from [attempt] on; [lastError]: that of the attempt before. *)
Fixpoint retry_connection (remaining attempt : nat) (lastError : js_error) : M St unit :=
  match remaining with
  | O => throw lastError
  | S remaining' =>
      try_catch attempt_connection (fun error =>
        if is_type_mismatch error then throw error else
        (if (0 <? remaining')%nat then rc_wait rc (backoff attempt) else ret tt) ;;;
        retry_connection remaining' (S attempt) error)
  end.

Definition maxAttempts : Z := or_default (resilience_field br_maxAttempts (rf_resilience config)) 3%Z.

Definition connectWithRetry : M St unit := retry_connection (Z.to_nat maxAttempts) 0 (ThrownValue VUndefined).

Definition connect : M St unit :=
  b <- this ;; if rb_connected b then ret tt else connectWithRetry.

(** The body of the [try] of the reconnection loop: here the listeners are attached
    before the setup is complete, and a failure closes nothing. *)
Definition reconnect_once : M St unit :=
  rc_connect rc (rf_url config) ;;;
  upd (set_connection true) ;;;
  rc_watch_connection rc ;;;
  channel <- rc_createConfirmChannel rc ;;
  upd (set_channel (Some channel)) ;;;
  rc_prefetch rc channel (prefetchCount config) ;;;
  rc_assertExchange rc channel (exchangeName config) (exchangeType config) ;;;
  rc_watch_channel rc channel ;;;
  setup_consumers ;;;
  upd (set_connected true).

(** [None]: still trying after [fuel] attempts. *)
Fixpoint reconnectPersistently (fuel attempt : nat) : M St (option unit) :=
  match fuel with
  | O => ret None
  | S fuel' =>
      b <- this ;;
      if rb_closed b then ret (Some tt) else
      outcome <- settled reconnect_once ;;
      match outcome with
      | Ok _ => ret (Some tt)
      | Err _ =>
          b <- this ;;
          if rb_closed b then ret (Some tt) else
          rc_wait_jittered rc (backoff attempt) ;;;
          b <- this ;;
          if rb_closed b then ret (Some tt) else reconnectPersistently fuel' (S attempt)
      end
  end.

(** [_handleUnexpectedClose], awaited. *)
Definition handleUnexpectedClose (fuel : nat) : M St (option unit) :=
  b <- this ;;
  if rb_reconnecting b then ret (Some tt) else
  upd (fun b => set_connected false (set_reconnecting true b)) ;;;
  try_finally (reconnectPersistently fuel 0) (upd (set_reconnecting false)).

Definition on (eventName : string) (handler : nat) : M St unit :=
  b <- this ;;
  if rb_closed b then throw (PlainError "RabbitMqEventBus is closed. Cannot register handlers after close().") else
  upd (fun b => set_handlers (add_handler eventName handler (rb_handlers b)) b) ;;;
  if negb (mhas eventName (rb_handlers b)) && rb_connected b then swallow (setupConsumer eventName) else ret tt.

Definition dispatch (e : event) : M St unit :=
  let not_connected := PlainError "RabbitMqEventBus is not connected. Call connect() before dispatch()." in
  b <- this ;;
  match rb_connected b, rb_channel b with
  | true, Some channel =>
      body <- lift_result (event_text e) ;;
      rc_publish rc channel (exchangeName config) (ev_name e) body
        {| po_contentType := Some EVENT_CONTENT_TYPE; po_messageId := metadata_req md_eventId e; po_headers := [] |} ;;;
      b <- this ;;
      match rb_channel b with
      | Some channel => rc_waitForConfirms rc channel
      | None => throw (TypeError "Cannot read properties of null")
      end
  | _, _ => throw not_connected
  end.

Definition close : M St unit :=
  b <- this ;;
  if rb_closed b then ret tt else
  upd (fun b => set_handlers empty (set_link (rb_connection b) (rb_channel b) false true (rb_reconnecting b) b)) ;;;
  b <- this ;;
  match rb_channel b with
  | Some channel => swallow (rc_close_channel rc channel) ;;; upd (set_channel None)
  | None => ret tt
  end ;;;
  b <- this ;;
  if rb_connection b then swallow (rc_close_connection rc) ;;; upd (set_connection false) else ret tt.

(** *** Messages *)

(** [{ poisoned }] *)
Definition handleMessage (eventName content : string) : M St bool :=
  match parse content with
  | Err _ => ret true
  | Ok event =>
      b <- this ;;
      rejection <- deliver invoke (handlers_for eventName (rb_handlers b)) event ;;
      match rejection with Some e => throw e | None => ret false end
  end.

(** [event.metadata?.aggregateId], as a text; [None]: absent, or something throws. *)
Definition peekAggregateId (content : string) : option string :=
  match parse content with
  | Err _ => None
  | Ok event =>
      if nullish event then None else
      let metadata := read_prop "metadata" event in
      if nullish metadata then None else
      match read_prop "aggregateId" metadata with
      | VUndefined => None
      | aggregateId => text_of_json aggregateId
      end
  end.

Definition deadLetter (channel : nat) (eventName : string) (msg : ConsumeMessage) (reason : string) (attempts : Z) : M St unit :=
  swallow (
    ms <- now ;;
    timestamp <- lift_result (toISOString ms) ;;
    rc_publish rc channel (dlxName config) eventName (cm_content msg)
      {| po_contentType := None; po_messageId := None;
         po_headers := [("x-original-event-name", eventName); ("x-death-reason", reason);
                        ("x-attempts", string_of_Z attempts); ("x-original-timestamp", timestamp)] |}) ;;;
  swallow (rc_ack rc channel msg).

Definition retryKey (msg : ConsumeMessage) : string :=
  match cm_messageId msg with Some i => i | None => sha256 (cm_content msg) end.

Definition forget (key : string) : M St unit := upd (fun b => set_counts (mdelete key (rb_deliveryCounts b)) b).

(** The handlers, then the acknowledgement. *)
Definition try_handlers (channel : nat) (eventName : string) (msg : ConsumeMessage) : M St unit :=
  handled <- settled (handleMessage eventName (cm_content msg)) ;;
  match handled with
  | Ok _ =>
      swallow (rc_ack rc channel msg) ;;;
      (if is_some max_retries then forget (retryKey msg) else ret tt)
  | Err _ => swallow (rc_nack rc channel msg)
  end.

Definition processDelivery (channel : nat) (eventName : string) (msg : ConsumeMessage) : M St unit :=
  match max_retries with
  | None => try_handlers channel eventName msg
  | Some maxRetries =>
      b <- this ;;
      let count := (or_default (mget (retryKey msg) (rb_deliveryCounts b)) 0 + 1)%Z in
      upd (fun b => set_counts (mset (retryKey msg) count (rb_deliveryCounts b)) b) ;;;
      if (maxRetries <? count)%Z
      then forget (retryKey msg) ;;; deadLetter channel eventName msg "max-retries-exceeded" count
      else try_handlers channel eventName msg
  end.
End rabbit.

(** ** A message that keeps failing *)

Inductive action : Type :=
| Acked (tag : nat)
| Nacked (tag : nat)
| DeadLettered (exchange key content : string) (headers : list (string * string)).

(** What the process and the server see: calls of the handlers, and actions, most
    recent first. *)
Record Observed : Type := { ob_deliveries : nat; ob_actions : list action }.
Definition delivered_once (o : Observed) : Observed := {| ob_deliveries := S (ob_deliveries o); ob_actions := ob_actions o |}.
Definition did (a : action) (o : Observed) : Observed := {| ob_deliveries := ob_deliveries o; ob_actions := a :: ob_actions o |}.

Section failing.
Context {St : Type} (config : RabbitMqEventBusConfig) (rc : Client St) (the_bus : lens St bus) `{!LensLaws the_bus}
  (invoke : nat -> value -> M St unit) (now : M St Z) (sha256 : string -> string) (observe : St -> Observed)
  (channel : nat) (eventName : string) (msg : ConsumeMessage).

(** [m] succeeds, leaves the bus alone, and is observed as [f]. *)
Definition succeeds {A} (m : M St A) (a : A) (f : Observed -> Observed) : Prop :=
  forall s, exists s', m s = (Ok a, s') /\ lget the_bus s' = lget the_bus s /\ observe s' = f (observe s).

(** A server that answers, and handlers whose n-th common outcome is [outcome n]. *)
Class Environment (handlers : jsmap (list nat)) (ev : value) (outcome : nat -> option js_error) (t : Z) : Prop := {
  env_bus : forall b s, observe (lset the_bus b s) = observe s;
  env_ack : succeeds (rc_ack rc channel msg) tt (did (Acked (cm_tag msg)));
  env_nack : succeeds (rc_nack rc channel msg) tt (did (Nacked (cm_tag msg)));
  env_publish : forall exchange key content o,
    succeeds (rc_publish rc channel exchange key content o) tt (did (DeadLettered exchange key content (po_headers o)));
  env_now : succeeds now t (fun o => o) /\ common_era t;
  env_handlers : forall s, rb_handlers (lget the_bus s) = handlers -> exists s',
    deliver invoke (handlers_for eventName handlers) ev s = (Ok (outcome (ob_deliveries (observe s))), s') /\
    lget the_bus s' = lget the_bus s /\ observe s' = delivered_once (observe s)
}.

Context {handlers : jsmap (list nat)} {ev : value} {outcome : nat -> option js_error} {t : Z} (maxRetries : Z).
Context `{Henv : !Environment handlers ev outcome t}.
Hypothesis Hparse : parse (cm_content msg) = Ok ev.
Hypothesis Hmax : max_retries config = Some maxRetries.

Definition key_count (s : St) : option Z := mget (retryKey sha256 msg) (rb_deliveryCounts (lget the_bus s)).
Definition failures (s : St) : Z := or_default (key_count s) 0%Z.
Definition ready (s : St) : Prop := rb_handlers (lget the_bus s) = handlers /\ wf (rb_deliveryCounts (lget the_bus s)).

Lemma rabbit_this_run s : this the_bus s = (Ok (lget the_bus s), s).
Proof. reflexivity. Qed.
Lemma rabbit_upd_run f s : upd the_bus f s = (Ok tt, lset the_bus (f (lget the_bus s)) s).
Proof. reflexivity. Qed.

(** The message was counted. *)
Definition after_count (s : St) : St :=
  lset the_bus (set_counts (mset (retryKey sha256 msg) (failures s + 1)%Z (rb_deliveryCounts (lget the_bus s))) (lget the_bus s)) s.

Lemma after_count_spec s : ready s -> ready (after_count s) /\ key_count (after_count s) = Some (failures s + 1)%Z /\
  observe (after_count s) = observe s.
Proof.
  intros [Hh Hw]. unfold ready, key_count, after_count. rewrite lget_lset, env_bus. cbn.
  split; [split; [done | by apply wf_mset] |]. by rewrite mget_mset_eq.
Qed.

Lemma process_counted s : processDelivery config rc the_bus invoke now sha256 channel eventName msg s
  = (if (maxRetries <? failures s + 1)%Z
     then forget the_bus (retryKey sha256 msg) ;;;
          deadLetter config rc now channel eventName msg "max-retries-exceeded" (failures s + 1)
     else try_handlers config rc the_bus invoke sha256 channel eventName msg) (after_count s).
Proof.
  unfold processDelivery. rewrite Hmax, (bind_ok _ _ _ _ _ (rabbit_this_run s)). cbv zeta.
  rewrite (bind_ok _ _ _ _ _ (rabbit_upd_run _ s)). reflexivity.
Qed.

(** The entry of the counter is removed. *)
Lemma forget_run s : ready s -> exists s', forget the_bus (retryKey sha256 msg) s = (Ok tt, s') /\ ready s' /\
  key_count s' = None /\ observe s' = observe s.
Proof.
  intros [Hh Hw]. unfold forget. rewrite rabbit_upd_run. eexists. split; [done |].
  unfold ready, key_count. rewrite lget_lset, env_bus. cbn.
  split; [split; [done | by apply wf_mdelete] |]. by rewrite mget_mdelete_eq.
Qed.

Lemma handlers_run s e : ready s -> outcome (ob_deliveries (observe s)) = e -> exists s',
  handleMessage the_bus invoke eventName (cm_content msg) s = (match e with None => Ok false | Some e => Err e end, s') /\
  lget the_bus s' = lget the_bus s /\ observe s' = delivered_once (observe s).
Proof.
  intros [Hh Hw] <-. destruct (env_handlers s Hh) as (s' & H & Hb & Ho). exists s'. split; [| done].
  unfold handleMessage. rewrite Hparse, (bind_ok _ _ _ _ _ (rabbit_this_run s)), Hh, (bind_ok _ _ _ _ _ H).
  by destruct (outcome _).
Qed.

(** One delivery: accepted, rejected, or past the limit. *)
Lemma process_accepted s : ready s -> outcome (ob_deliveries (observe s)) = None -> (failures s + 1 <= maxRetries)%Z ->
  exists s', processDelivery config rc the_bus invoke now sha256 channel eventName msg s = (Ok tt, s') /\
    ready s' /\ key_count s' = None /\ observe s' = did (Acked (cm_tag msg)) (delivered_once (observe s)).
Proof.
  intros Hr Ho Hle. destruct (after_count_spec s Hr) as (Hr1 & _ & O1). rewrite process_counted, (proj2 (Z.ltb_ge _ _) Hle).
  rewrite <- O1 in Ho. destruct (handlers_run _ _ Hr1 Ho) as (s2 & H2 & B2 & O2).
  destruct (env_ack s2) as (s3 & H3 & B3 & O3).
  assert (Hr3 : ready s3) by (unfold ready; by rewrite B3, B2).
  destruct (forget_run s3 Hr3) as (s4 & H4 & Hr4 & Hk & O4). exists s4. rewrite O4, O3, O2, O1. split; [| done].
  unfold try_handlers, settled. unfold bind at 1. rewrite H2, Hmax. cbn [is_some].
  unfold bind. rewrite swallow_run, H3. exact H4.
Qed.

Lemma process_rejected s e : ready s -> outcome (ob_deliveries (observe s)) = Some e -> (failures s + 1 <= maxRetries)%Z ->
  exists s', processDelivery config rc the_bus invoke now sha256 channel eventName msg s = (Ok tt, s') /\
    ready s' /\ failures s' = (failures s + 1)%Z /\ observe s' = did (Nacked (cm_tag msg)) (delivered_once (observe s)).
Proof.
  intros Hr Ho Hle. destruct (after_count_spec s Hr) as (Hr1 & Hk1 & O1). rewrite process_counted, (proj2 (Z.ltb_ge _ _) Hle).
  rewrite <- O1 in Ho. destruct (handlers_run _ _ Hr1 Ho) as (s2 & H2 & B2 & O2).
  destruct (env_nack s2) as (s3 & H3 & B3 & O3). exists s3. rewrite O3, O2, O1.
  split; [| split; [unfold ready; by rewrite B3, B2 | split; [| done]]].
  - unfold try_handlers, settled. unfold bind at 1. rewrite H2. by rewrite swallow_run, H3.
  - unfold failures at 1, key_count. rewrite B3, B2. fold (key_count (after_count s)). by rewrite Hk1.
Qed.

Definition dead_letter (attempts : Z) : action :=
  DeadLettered (dlxName config) eventName (cm_content msg)
    [("x-original-event-name", eventName); ("x-death-reason", "max-retries-exceeded");
     ("x-attempts", string_of_Z attempts); ("x-original-timestamp", string_of (iso_text t))].

Lemma process_exhausted s : ready s -> (maxRetries < failures s + 1)%Z ->
  exists s', processDelivery config rc the_bus invoke now sha256 channel eventName msg s = (Ok tt, s') /\
    ready s' /\ key_count s' = None /\
    observe s' = did (Acked (cm_tag msg)) (did (dead_letter (failures s + 1)) (observe s)).
Proof.
  intros Hr Hlt. destruct (after_count_spec s Hr) as (Hr1 & _ & O1). rewrite process_counted, (proj2 (Z.ltb_lt _ _) Hlt).
  destruct (forget_run _ Hr1) as (s2 & H2 & Hr2 & Hk2 & O2). rewrite (bind_ok _ _ _ _ _ H2).
  unfold deadLetter. destruct env_now as [Hnow Ht]. destruct (Hnow s2) as (s3 & H3 & B3 & O3).
  destruct (env_publish (dlxName config) eventName (cm_content msg)
    {| po_contentType := None; po_messageId := None; po_headers :=
         [("x-original-event-name", eventName); ("x-death-reason", "max-retries-exceeded");
          ("x-attempts", string_of_Z (failures s + 1)); ("x-original-timestamp", string_of (iso_text t))] |} s3)
    as (s4 & H4 & B4 & O4). destruct (env_ack s4) as (s5 & H5 & B5 & O5). exists s5.
  cbn in O3. rewrite O5, O4, O3, O2, O1. split; [| split; [| split; [| done]]].
  - unfold bind at 1. rewrite swallow_run. unfold bind at 1. rewrite H3, toISOString_total by done.
    unfold lift_result, bind. cbn [snd]. rewrite H4. cbn [snd]. by rewrite swallow_run, H5.
  - unfold ready in *. by rewrite B5, B4, B3.
  - unfold key_count in *. by rewrite B5, B4, B3.
Qed.

(** The server delivers a message until it is acknowledged.  [Some n]: after n
    deliveries; [None]: [fuel] deliveries were not enough. *)
Definition acknowledged (o : Observed) : bool := match ob_actions o with Acked _ :: _ => true | _ => false end.

Fixpoint redeliver (fuel n : nat) : M St (option nat) :=
  match fuel with
  | O => ret None
  | S fuel' =>
      processDelivery config rc the_bus invoke now sha256 channel eventName msg ;;;
      acked <- gets (fun s => acknowledged (observe s)) ;;
      if (acked : bool) then ret (Some (S n)) else redeliver fuel' (S n)
  end.

(** [n] deliveries, of which [handled] reached the handlers, then [actions]. *)
Definition settles (fuel k : nat) (s : St) (n handled : nat) (actions : list action) : Prop :=
  exists s', redeliver fuel k s = (Ok (Some (k + n)%nat), s') /\ ready s' /\ key_count s' = None /\
    observe s' = {| ob_deliveries := ob_deliveries (observe s) + handled; ob_actions := (actions ++ ob_actions (observe s))%list |}.

Definition fail_first (j : nat) (s : St) : Prop :=
  forall i, (i < j)%nat -> exists e, outcome (ob_deliveries (observe s) + i) = Some e.

Lemma redeliver_last fuel k s s' : processDelivery config rc the_bus invoke now sha256 channel eventName msg s = (Ok tt, s') ->
  acknowledged (observe s') = true -> redeliver (S fuel) k s = (Ok (Some (S k)), s').
Proof. intros H Ha. cbn [redeliver]. rewrite (bind_ok _ _ _ _ _ H). unfold bind, gets. by rewrite Ha. Qed.

Lemma redeliver_step fuel k j n handled actions s : ready s -> fail_first (S j) s -> (failures s + 1 <= maxRetries)%Z ->
  (forall s', ready s' -> failures s' = (failures s + 1)%Z -> fail_first j s' ->
     ob_deliveries (observe s') = S (ob_deliveries (observe s)) -> settles fuel (S k) s' n handled actions) ->
  settles (S fuel) k s (S n) (S handled) (actions ++ [Nacked (cm_tag msg)])%list.
Proof.
  intros Hr Hfail Hle Hrest. destruct (Hfail 0%nat ltac:(lia)) as (e & He). rewrite Nat.add_0_r in He.
  destruct (process_rejected s e Hr He Hle) as (s1 & H1 & Hr1 & Hf1 & O1).
  destruct (Hrest s1 Hr1 Hf1) as (s' & H' & Hr' & Hk' & O').
  - intros i Hi. destruct (Hfail (S i) ltac:(lia)) as (e' & He'). exists e'. rewrite O1. cbn. by rewrite <- Nat.add_succ_r.
  - by rewrite O1.
  - exists s'. split; [| split; [done | split; [done |]]].
    + cbn [redeliver]. rewrite (bind_ok _ _ _ _ _ H1). unfold bind, gets. rewrite O1. cbn [acknowledged did ob_actions].
      rewrite H'. do 3 f_equal. lia.
    + rewrite O', O1. unfold did. cbn. rewrite <- app_assoc. cbn. f_equal. lia.
Qed.

Lemma redeliver_accepted j : forall fuel k s, ready s -> fail_first j s ->
  outcome (ob_deliveries (observe s) + j) = None -> (failures s + Z.of_nat j < maxRetries)%Z -> (j < fuel)%nat ->
  settles fuel k s (S j) (S j) (Acked (cm_tag msg) :: repeat (Nacked (cm_tag msg)) j).
Proof.
  induction j as [| j IH]; intros [| fuel] k s Hr Hfail Hok Hlt Hfuel; try lia.
  - rewrite Nat.add_0_r in Hok. destruct (process_accepted s Hr Hok ltac:(lia)) as (s1 & H1 & Hr1 & Hk1 & O1).
    exists s1. rewrite (redeliver_last _ _ _ _ H1) by by rewrite O1. replace (k + 1)%nat with (S k) by lia.
    split; [done |]. split; [done |]. split; [done |]. rewrite O1. unfold did. cbn. f_equal. lia.
  - replace (Acked (cm_tag msg) :: repeat (Nacked (cm_tag msg)) (S j))
      with ((Acked (cm_tag msg) :: repeat (Nacked (cm_tag msg)) j) ++ [Nacked (cm_tag msg)])%list
      by (rewrite <- app_comm_cons, <- repeat_cons; done).
    eapply redeliver_step; [done | done | lia |]. intros s' Hr' Hf' Hfail' Hd'. apply IH; [done | done | | lia | lia].
    rewrite Hd'. by replace (S (ob_deliveries (observe s)) + j)%nat with (ob_deliveries (observe s) + S j)%nat by lia.
Qed.

Lemma redeliver_exhausted j : forall fuel k s, ready s -> fail_first j s ->
  (failures s + Z.of_nat j = maxRetries)%Z -> (j < fuel)%nat ->
  settles fuel k s (S j) j (Acked (cm_tag msg) :: dead_letter (maxRetries + 1) :: repeat (Nacked (cm_tag msg)) j).
Proof.
  induction j as [| j IH]; intros [| fuel] k s Hr Hfail Heq Hfuel; try lia.
  - destruct (process_exhausted s Hr ltac:(lia)) as (s1 & H1 & Hr1 & Hk1 & O1).
    replace (failures s + 1)%Z with (maxRetries + 1)%Z in O1 by lia.
    exists s1. rewrite (redeliver_last _ _ _ _ H1) by by rewrite O1. replace (k + 1)%nat with (S k) by lia.
    split; [done |]. split; [done |]. split; [done |]. rewrite O1. unfold did. cbn. f_equal. lia.
  - replace (Acked (cm_tag msg) :: dead_letter (maxRetries + 1) :: repeat (Nacked (cm_tag msg)) (S j))
      with ((Acked (cm_tag msg) :: dead_letter (maxRetries + 1) :: repeat (Nacked (cm_tag msg)) j) ++ [Nacked (cm_tag msg)])%list
      by (rewrite <- !app_comm_cons, <- repeat_cons; done).
    eapply redeliver_step; [done | done | lia |]. intros s' Hr' Hf' Hfail' Hd'. apply IH; [done | done | lia | lia].
Qed.
End failing.

Section failing_message.
Context {St : Type} (config : RabbitMqEventBusConfig) (rc : Client St) (the_bus : lens St bus)
  (invoke : nat -> value -> M St unit) (now : M St Z) (sha256 : string -> string) (observe : St -> Observed)
  (channel : nat) (eventName : string) (msg : ConsumeMessage)
  (handlers : jsmap (list nat)) (ev : value) (outcome : nat -> option js_error) (t maxRetries : Z).

(** C22. With [maxRetries] configured, a message whose handlers fail is put back in the
    queue and delivered again.  When they accept it within [maxRetries] deliveries, it
    is acknowledged and nothing else happens.  When they do not, the next delivery does
    not reach them: the message is published once to the dead-letter exchange, with its
    original bytes, and acknowledged.  In both cases it leaves no entry in the counter. *)
Theorem rabbit_failing_message (j fuel : nat) (s : St) :
  LensLaws the_bus -> Environment rc the_bus invoke now observe channel eventName msg handlers ev outcome t ->
  parse (cm_content msg) = Ok ev -> max_retries config = Some maxRetries ->
  ready the_bus (handlers := handlers) s -> key_count the_bus sha256 msg s = None ->
  fail_first observe (outcome := outcome) j s -> (j < fuel)%nat ->
  let settles := settles config rc the_bus invoke now sha256 observe channel eventName msg (handlers := handlers) fuel 0 s (S j) in
  let nacks := repeat (Nacked (cm_tag msg)) j in
  ((Z.of_nat j < maxRetries)%Z -> outcome (ob_deliveries (observe s) + j)%nat = None ->
     settles (S j) (Acked (cm_tag msg) :: nacks)) /\
  (Z.of_nat j = maxRetries ->
     settles j (Acked (cm_tag msg) :: dead_letter config eventName msg (t := t) (maxRetries + 1) :: nacks)).
Proof.
  intros Hlaws Henv Hparse Hmax Hr Hk Hfail Hfuel settles nacks.
  assert (Hf : failures the_bus sha256 msg s = 0%Z) by (unfold failures; by rewrite Hk). split.
  - intros Hj Hok. eapply redeliver_accepted; try done. by rewrite Hf.
  - intros Hj. eapply redeliver_exhausted; try done. by rewrite Hf.
Qed.
End failing_message.

(** ** Connecting *)

Section connecting.
Context {St : Type} (config : RabbitMqEventBusConfig) (rc : Client St) (the_bus : lens St bus) `{!LensLaws the_bus}
  (tries : St -> nat) (waits : St -> list Z).

(** [m] neither connects nor waits; what it does to the bus is its own business. *)
Definition idle {A} (m : M St A) : Prop := forall s, tries (snd (m s)) = tries s /\ waits (snd (m s)) = waits s.

(** The operations of the client may fail, and leave the fields of the bus alone. *)
Class Connecting : Prop := {
  con_bus : forall b s, tries (lset the_bus b s) = tries s /\ waits (lset the_bus b s) = waits s;
  con_connect : forall url s, tries (snd (rc_connect rc url s)) = S (tries s) /\ waits (snd (rc_connect rc url s)) = waits s;
  con_wait : forall d s, exists s', rc_wait rc d s = (Ok tt, s') /\ lget the_bus s' = lget the_bus s /\
    tries s' = tries s /\ waits s' = (waits s ++ [d])%list;
  con_close : idle (rc_close_connection rc);
  con_channel : idle (rc_createConfirmChannel rc);
  con_prefetch : forall c n, idle (rc_prefetch rc c n);
  con_exchange : forall c e t, idle (rc_assertExchange rc c e t);
  con_queue : forall c q, idle (rc_assertQueue rc c q);
  con_bind : forall c q e k, idle (rc_bindQueue rc c q e k);
  con_consume : forall c q, idle (rc_consume rc c q);
  con_watch_connection : idle (rc_watch_connection rc);
  con_watch_channel : forall c, idle (rc_watch_channel rc c)
}.
Context `{!Connecting}.

Lemma idle_ret {A} (a : A) : idle (ret a).
Proof. by intros s. Qed.
Lemma idle_throw {A} e : idle (@throw St A e).
Proof. by intros s. Qed.
Lemma idle_this : idle (this the_bus).
Proof. by intros s. Qed.
Lemma idle_upd f : idle (upd the_bus f).
Proof. intros s. apply con_bus. Qed.
Lemma idle_bind {A B} (m : M St A) (k : A -> M St B) : idle m -> (forall a, idle (k a)) -> idle (bind m k).
Proof.
  intros Hm Hk s. destruct (Hm s) as [Ht Hw]. unfold bind. destruct (m s) as [[a | e] s1]; [| done].
  cbn in Ht, Hw. destruct (Hk a s1) as [-> ->]. done.
Qed.
Lemma idle_catch {A} (m : M St A) h : idle m -> (forall e, idle (h e)) -> idle (try_catch m h).
Proof.
  intros Hm Hh s. destruct (Hm s) as [Ht Hw]. unfold try_catch. destruct (m s) as [[a | e] s1]; [done |].
  cbn in Ht, Hw. destruct (Hh e s1) as [-> ->]. done.
Qed.
Lemma idle_for_each {A} (l : list A) f : (forall x, idle (f x)) -> idle (for_each l f).
Proof. intros Hf. induction l as [| x l IH]; [apply idle_ret | by apply idle_bind]. Qed.

Lemma idle_setup : idle (setup_connection config rc the_bus).
Proof.
  unfold setup_connection, setup_consumers, setupConsumer, assertDeadLetterTopology.
  repeat first
    [ apply idle_bind; [| intros ?] | apply idle_ret | apply idle_throw | apply idle_this | apply idle_upd
    | apply idle_catch; [| intros ?] | apply idle_for_each; intros ? | apply con_channel | apply con_prefetch
    | apply con_exchange | apply con_queue | apply con_bind | apply con_consume | apply con_watch_connection
    | apply con_watch_channel
    | match goal with |- idle (if ?c then _ else _) => destruct c end
    | match goal with |- idle (match ?c with _ => _ end) => destruct c end ].
Qed.

(** A setup that succeeds leaves the bus connected. *)
Definition ends_connected {A} (m : M St A) : Prop :=
  forall s a s', m s = (Ok a, s') -> rb_connected (lget the_bus s') = true.
Lemma ends_bind {A B} (m : M St A) (k : A -> M St B) : (forall a, ends_connected (k a)) -> ends_connected (bind m k).
Proof. intros Hk s b s' Hrun. apply bind_inv_ok in Hrun as (a & s1 & _ & Hrun). by eapply Hk. Qed.

Lemma setup_connected : ends_connected (setup_connection config rc the_bus).
Proof.
  unfold setup_connection. do 8 (apply ends_bind; intros ?).
  intros s a' s' Hrun. injection Hrun as _ <-. cbn. by rewrite lget_lset.
Qed.

(** An attempt: one connection, no wait; when it fails nothing is left open. *)
Lemma connect_attempt_spec s :
  wp (attempt_connection config rc the_bus)
     (fun _ s' => rb_connected (lget the_bus s') = true /\ tries s' = S (tries s) /\ waits s' = waits s)
     (fun e s' => rb_connection (lget the_bus s') = false /\ rb_channel (lget the_bus s') = None /\
        tries s' = S (tries s) /\ waits s' = waits s) s.
Proof.
  unfold wp, attempt_connection, settled. destruct (con_connect (rf_url config) s) as [Ht Hw].
  unfold bind at 1. destruct (rc_connect rc (rf_url config) s) as [[[] | e] s1]; cbn in Ht, Hw.
  - unfold bind at 1. destruct (idle_setup s1) as [Ht1 Hw1].
    destruct (setup_connection config rc the_bus s1) as [[[] | e] s2] eqn:E; cbn in Ht1, Hw1.
    + cbn. split; [by eapply setup_connected | by rewrite Ht1, Hw1].
    + cbn [is_ok]. unfold bind at 1. rewrite swallow_run. destruct (con_close s2) as [Ht2 Hw2].
      unfold bind, upd, zoom, modify, throw. rewrite lget_lset. cbn.
      destruct (con_bus (set_channel None (set_connection false (lget the_bus (snd (rc_close_connection rc s2)))))
        (snd (rc_close_connection rc s2))) as [-> ->]. by rewrite Ht2, Hw2, Ht1, Hw1.
  - unfold bind, ret, upd, zoom, modify, throw. cbn [is_ok]. rewrite lget_lset. cbn.
    destruct (con_bus (set_channel None (set_connection false (lget the_bus s1))) s1) as [-> ->]. by rewrite Ht, Hw.
Qed.

(** [k] attempts were made from [attempt] on, with a wait between two. *)
Definition attempted (attempt k : nat) (s s' : St) : Prop :=
  tries s' = (tries s + k)%nat /\ waits s' = (waits s ++ map (backoff config) (seq attempt (k - 1)))%list.

Lemma attempted_once attempt s s' : tries s' = S (tries s) -> waits s' = waits s -> attempted attempt 1 s s'.
Proof. intros Ht Hw. unfold attempted. cbn. rewrite app_nil_r. split; [lia | done]. Qed.

Lemma retry_spec remaining : forall attempt lastError s, (0 < remaining)%nat ->
  wp (retry_connection config rc the_bus remaining attempt lastError)
     (fun _ s' => rb_connected (lget the_bus s') = true /\
        exists k, (1 <= k <= remaining)%nat /\ attempted attempt k s s')
     (fun e s' => rb_connection (lget the_bus s') = false /\ rb_channel (lget the_bus s') = None /\
        exists k, (1 <= k <= remaining)%nat /\ attempted attempt k s s' /\ (is_type_mismatch e = true \/ k = remaining)) s.
Proof.
  induction remaining as [| remaining IH]; intros attempt lastError s Hpos; [lia |].
  cbn [retry_connection]. rewrite wp_try_catch. eapply wp_mono; [apply connect_attempt_spec | |].
  { intros [] s1 (Hc & Ht & Hw). split; [done |]. exists 1%nat. split; [lia | by apply attempted_once]. }
  intros e s1 (Hconn & Hch & Ht & Hw). destruct (is_type_mismatch e) eqn:Em.
  { rewrite wp_throw. split; [done |]. split; [done |]. exists 1%nat. split; [lia |]. split; [by apply attempted_once | by left]. }
  destruct remaining as [| remaining].
  { cbn [Nat.ltb Nat.leb]. unfold wp, bind, ret. cbn. split; [done |]. split; [done |]. exists 1%nat.
    split; [lia |]. split; [by apply attempted_once | by right]. }
  change ((0 <? S remaining)%nat) with true. cbv iota.
  destruct (con_wait (backoff config attempt) s1) as (s2 & H2 & B2 & T2 & W2).
  rewrite wp_bind. unfold wp at 1. rewrite H2.
  assert (Hgrow : forall k s', attempted (S attempt) k s2 s' -> (1 <= k)%nat -> attempted attempt (S k) s s').
  { intros k s' [Hk1 Hk2] Hk. unfold attempted. rewrite Hk1, T2, Ht, Hk2, W2, Hw. split; [lia |].
    replace (S k - 1)%nat with (S (k - 1)) by lia. cbn. by rewrite <- app_assoc. }
  eapply wp_mono; [apply IH; lia | |].
  - intros [] s' (Hc & k & Hk & Ha). split; [done |]. exists (S k). split; [lia |]. by apply Hgrow; [| lia].
  - intros e' s' (Hc & Hch' & k & Hk & Ha & Hend). split; [done |]. split; [done |]. exists (S k). split; [lia |].
    split; [by apply Hgrow; [| lia] |]. destruct Hend as [? | ->]; [by left | by right].
Qed.
End connecting.

Section connect_bounded.
Context {St : Type} (config : RabbitMqEventBusConfig) (rc : Client St) (the_bus : lens St bus)
  (tries : St -> nat) (waits : St -> list Z).

(** C25. [connect] of a bus that is not connected makes at most [maxAttempts] attempts
    (3 when not configured) and ends.  Between two attempts it waits for the backoff of
    the attempt, which never exceeds [maxDelayMs].  When it returns, the bus is
    connected; when it throws, no connection and no channel are left, and it gave up
    early only for an exchange of another type.  With [maxAttempts] at or below zero
    (-1 is documented to mean without a limit) it makes no attempt and throws
    [undefined]. *)
Theorem rabbit_connect_bounded (s : St) :
  LensLaws the_bus -> Connecting rc the_bus tries waits -> rb_connected (lget the_bus s) = false ->
  let connect := connect config rc the_bus in
  let m := Z.to_nat (maxAttempts config) in
  (forall attempt, (backoff config attempt <= or_default (resilience_field br_maxDelayMs (rf_resilience config)) 30000)%Z) /\
  ((0 < maxAttempts config)%Z ->
   wp connect
     (fun _ s' => rb_connected (lget the_bus s') = true /\
        exists k, (1 <= k <= m)%nat /\ attempted config tries waits 0 k s s')
     (fun e s' => rb_connection (lget the_bus s') = false /\ rb_channel (lget the_bus s') = None /\
        exists k, (1 <= k <= m)%nat /\ attempted config tries waits 0 k s s' /\ (is_type_mismatch e = true \/ k = m)) s) /\
  ((maxAttempts config <= 0)%Z -> connect s = (Err (ThrownValue VUndefined), s)).
Proof.
  intros Hlaws Hcon Hs connect m. split; [intros attempt; unfold backoff; lia |].
  assert (Hc : connect s = connectWithRetry config rc the_bus s)
    by (unfold connect, Rabbit.connect, bind, this, gets; by rewrite Hs).
  split; intros Hm.
  - unfold wp. rewrite Hc. apply (retry_spec config rc the_bus tries waits). subst m. lia.
  - rewrite Hc. unfold connectWithRetry. by replace (Z.to_nat (maxAttempts config)) with 0%nat by lia.
Qed.
End connect_bounded.

(** ** Witnesses *)

Module RabbitWorld.

Record World : Type := { w_bus : bus; w_seen : Observed; w_tries : nat; w_waits : list Z }.
Definition bus_lens : lens World bus :=
  Lens w_bus (fun b w => {| w_bus := b; w_seen := w_seen w; w_tries := w_tries w; w_waits := w_waits w |}).
Definition seen (f : Observed -> Observed) : M World unit :=
  modify (fun w => {| w_bus := w_bus w; w_seen := f (w_seen w); w_tries := w_tries w; w_waits := w_waits w |}).
Definition tried : M World unit :=
  modify (fun w => {| w_bus := w_bus w; w_seen := w_seen w; w_tries := S (w_tries w); w_waits := w_waits w |}).
Definition waited (d : Z) : M World unit :=
  modify (fun w => {| w_bus := w_bus w; w_seen := w_seen w; w_tries := w_tries w; w_waits := (w_waits w ++ [d])%list |}).

(** A server that answers, and refuses connections until [accepts] attempts were made. *)
Definition client (accepts : nat) : Client World :=
  {| rc_connect := fun _ => tried ;;; (n <- gets w_tries ;; if (accepts <=? n)%nat then ret tt else throw (PlainError "ECONNREFUSED"));
     rc_close_connection := ret tt; rc_createConfirmChannel := ret 1%nat; rc_close_channel := fun _ => ret tt;
     rc_prefetch := fun _ _ => ret tt; rc_assertExchange := fun _ _ _ => ret tt; rc_assertQueue := fun _ _ => ret tt;
     rc_bindQueue := fun _ _ _ _ => ret tt; rc_consume := fun _ _ => ret tt;
     rc_publish := fun _ exchange key content o => seen (did (DeadLettered exchange key content (po_headers o)));
     rc_waitForConfirms := fun _ => ret tt;
     rc_ack := fun _ msg => seen (did (Acked (cm_tag msg))); rc_nack := fun _ msg => seen (did (Nacked (cm_tag msg)));
     rc_watch_connection := ret tt; rc_watch_channel := fun _ => ret tt; rc_wait := waited; rc_wait_jittered := waited |}.

Definition config (attempts : option Z) : RabbitMqEventBusConfig :=
  {| rf_url := "amqp://localhost"; rf_exchangeName := None; rf_exchangeType := None; rf_queuePrefix := "orders";
     rf_prefetchCount := None;
     rf_resilience := Some {| br_maxAttempts := attempts; br_initialDelayMs := Some 100%Z; br_maxDelayMs := Some 150%Z;
                              br_maxRetries := Some 2%Z |} |}.

Definition handlers : jsmap (list nat) := [("OrderPlaced", [0%nat])].
Definition message : ConsumeMessage := {| cm_tag := 7; cm_content := "{}"; cm_messageId := Some "m-1" |}.
Definition outcome (n : nat) : option js_error := Some (PlainError "out of stock").
Definition failing (h : nat) (v : value) : M World unit := seen delivered_once ;;; throw (PlainError "out of stock").
Definition start : World :=
  {| w_bus := set_handlers handlers new_bus; w_seen := {| ob_deliveries := 0; ob_actions := [] |}; w_tries := 0; w_waits := [] |}.

#[export] Instance bus_laws : LensLaws bus_lens.
Proof. by split; intros; repeat match goal with w : World |- _ => destruct w end. Qed.
#[export] Instance environment : Environment (client 0) bus_lens failing (ret 0%Z) w_seen 1 "OrderPlaced" message handlers (VObj []) outcome 0.
Proof.
  split; try done; try (intros; intros s; by eexists).
  - split; [intros s; by eexists | done].
  - intros s Hs. by eexists.
Qed.
#[export] Instance connecting accepts : Connecting (client accepts) bus_lens w_tries w_waits.
Proof.
  split; try done; try (intros; intros s; done).
  - intros url s. cbn. unfold tried, bind, gets, modify, ret, throw. cbn [w_tries]. by destruct (accepts <=? _)%nat.
  - intros d s. by eexists.
Qed.
End RabbitWorld.

(** Two failures, then the dead-letter exchange. *)
Lemma rabbit_failing_message_witness : exists s',
  redeliver (RabbitWorld.config None) (RabbitWorld.client 0) RabbitWorld.bus_lens RabbitWorld.failing (ret 0%Z) (fun s => s)
    RabbitWorld.w_seen 1 "OrderPlaced" RabbitWorld.message 5 0 RabbitWorld.start = (Ok (Some 3%nat), s') /\
  ob_deliveries (RabbitWorld.w_seen s') = 2%nat /\ length (ob_actions (RabbitWorld.w_seen s')) = 4%nat.
Proof.
  destruct (rabbit_failing_message (RabbitWorld.config None) (RabbitWorld.client 0) RabbitWorld.bus_lens RabbitWorld.failing
    (ret 0%Z) (fun s => s) RabbitWorld.w_seen 1 "OrderPlaced" RabbitWorld.message RabbitWorld.handlers (VObj [])
    RabbitWorld.outcome 0 2 2 5 RabbitWorld.start RabbitWorld.bus_laws RabbitWorld.environment) as [_ H].
  - vm_compute. reflexivity.
  - reflexivity.
  - split; [reflexivity | constructor].
  - reflexivity.
  - intros i _. by eexists.
  - lia.
  - destruct (H eq_refl) as (s' & Hrun & _ & _ & Ho). exists s'. split; [exact Hrun |].
    rewrite Ho. split; reflexivity.
Defined.

(** The third attempt succeeds. *)
Lemma rabbit_connect_bounded_witness :
  wp (connect (RabbitWorld.config (Some 5%Z)) (RabbitWorld.client 3) RabbitWorld.bus_lens)
    (fun _ s' => exists k, attempted (RabbitWorld.config (Some 5%Z)) RabbitWorld.w_tries RabbitWorld.w_waits 0 k RabbitWorld.start s')
    (fun _ _ => True) RabbitWorld.start.
Proof.
  destruct (rabbit_connect_bounded (RabbitWorld.config (Some 5%Z)) (RabbitWorld.client 3) RabbitWorld.bus_lens
    RabbitWorld.w_tries RabbitWorld.w_waits RabbitWorld.start RabbitWorld.bus_laws (RabbitWorld.connecting 3) eq_refl) as (_ & H & _).
  eapply wp_mono; [apply H; reflexivity | |]; [| done]. intros [] s' (_ & k & _ & Ha). by exists k.
Defined.

Example third_attempt : let s' := snd (connect (RabbitWorld.config (Some 5%Z)) (RabbitWorld.client 3) RabbitWorld.bus_lens RabbitWorld.start) in
  (RabbitWorld.w_tries s', RabbitWorld.w_waits s') = (3%nat, [100; 150]%Z).
Proof. vm_compute. reflexivity. Qed.
