(* ===== verification/AggregateChains.v ===== *)
(** The promise chains [_aggregateChains] of the consumer callback of
    [adapters/rabbitmq/src/rabbitmq-event-bus.ts] ([_setupConsumer]): deliveries of one
    aggregate are processed one at a time, in the order of their delivery.

    The callback runs in pieces: up to its [await], the start of the processing (when the
    promise before it in the chain is resolved), the end of the processing (which never
    throws: [process_never_throws]), and the rest of the callback.  Each piece is a step;
    their interleaving, over all callbacks in flight, is arbitrary.  The promise [next]
    of a delivery is identified by the position of the delivery. *)
From S2P Require Import Prelude Json JsMap CoreTypes Errors Broker Rabbit.

(** ** The system *)

Inductive status : Type := Waiting | Running | Done.

Record delivery : Type := {
  dl_aggregate : option string;   (** what [_peekAggregateId] returned *)
  dl_prior : option nat;          (** the promise it waits for; [None]: a resolved one *)
  dl_status : status;
  dl_resumed : bool               (** the callback ran after [await next] *)
}.

(** [_aggregateChains], and the callbacks in the order of their deliveries. *)
Record sys : Type := { tails : jsmap nat; deliveries : list delivery }.
Definition init : sys := {| tails := empty; deliveries := [] |}.

(** The callback up to its [await]. *)
Definition on_message (aggregateId : option string) : M sys unit :=
  s <- gets (fun s => s) ;;
  let next := length (deliveries s) in
  match aggregateId with
  | None =>
      modify (fun s => {| tails := tails s; deliveries := deliveries s ++
        [{| dl_aggregate := None; dl_prior := None; dl_status := Running; dl_resumed := false |}] |})
  | Some a =>
      let prior := mget a (tails s) in
      modify (fun s => {| tails := mset a next (tails s); deliveries := deliveries s ++
        [{| dl_aggregate := Some a; dl_prior := prior; dl_status := Waiting; dl_resumed := false |}] |})
  end.

Definition set_status (x : status) (d : delivery) : delivery :=
  {| dl_aggregate := dl_aggregate d; dl_prior := dl_prior d; dl_status := x; dl_resumed := dl_resumed d |}.
Definition set_resumed (d : delivery) : delivery :=
  {| dl_aggregate := dl_aggregate d; dl_prior := dl_prior d; dl_status := dl_status d; dl_resumed := true |}.

Definition mark (i : nat) (f : delivery -> delivery) : M sys unit :=
  modify (fun s => {| tails := tails s; deliveries := alter f i (deliveries s) |}).

(** After [await next]. *)
Definition after_await (i : nat) (aggregateId : option string) : M sys unit :=
  mark i set_resumed ;;;
  match aggregateId with
  | None => ret tt
  | Some a =>
      s <- gets (fun s => s) ;;
      match mget a (tails s) with
      | Some tail => if Nat.eqb tail i then modify (fun s => {| tails := mdelete a (tails s); deliveries := deliveries s |}) else ret tt
      | None => ret tt
      end
  end.

Definition done (s : sys) (i : nat) : Prop := exists d, deliveries s !! i = Some d /\ dl_status d = Done.
Definition prior_done (s : sys) (prior : option nat) : Prop := match prior with None => True | Some p => done s p end.

Inductive step : sys -> sys -> Prop :=
| step_message s a s' : on_message a s = (Ok tt, s') -> step s s'
| step_start s i d s' : deliveries s !! i = Some d -> dl_status d = Waiting -> prior_done s (dl_prior d) ->
    mark i (set_status Running) s = (Ok tt, s') -> step s s'
| step_finish s i d s' : deliveries s !! i = Some d -> dl_status d = Running ->
    mark i (set_status Done) s = (Ok tt, s') -> step s s'
| step_resume s i d s' : deliveries s !! i = Some d -> dl_status d = Done -> dl_resumed d = false ->
    after_await i (dl_aggregate d) s = (Ok tt, s') -> step s s'.

Definition reachable (s : sys) : Prop := rtc step init s.

(** ** The invariant *)

(** Position [i] is a delivery of [a]. *)
Definition of_aggregate (s : sys) (a : string) (i : nat) : Prop :=
  exists d, deliveries s !! i = Some d /\ dl_aggregate d = Some a.
(** [p] is the last delivery of [a] before [i]. *)
Definition last_before (s : sys) (a : string) (p i : nat) : Prop :=
  (p < i)%nat /\ of_aggregate s a p /\ forall k, (p < k < i)%nat -> ~ of_aggregate s a k.
Definition all_done (s : sys) (a : string) (i : nat) : Prop :=
  forall k, (k < i)%nat -> of_aggregate s a k -> done s k.

Record Inv (s : sys) : Prop := {
  inv_wf : wf (tails s);
  (** the chain: each delivery waits for the one before it, unless all are done *)
  inv_prior : forall i d a, deliveries s !! i = Some d -> dl_aggregate d = Some a ->
    match dl_prior d with Some p => last_before s a p i | None => all_done s a i end;
  inv_started : forall i d a, deliveries s !! i = Some d -> dl_aggregate d = Some a -> dl_status d <> Waiting -> all_done s a i;
  inv_plain : forall i d, deliveries s !! i = Some d -> dl_aggregate d = None -> dl_status d <> Waiting;
  inv_resumed : forall i d, deliveries s !! i = Some d -> dl_resumed d = true -> dl_status d = Done;
  (** the map holds the last delivery of an aggregate, until its callback resumes *)
  inv_tail : forall a, match mget a (tails s) with
    | Some t => last_before s a t (length (deliveries s)) /\ forall d, deliveries s !! t = Some d -> dl_resumed d = false
    | None => all_done s a (length (deliveries s))
    end
}.

(** Marking a delivery keeps its aggregate and its place in the chain. *)
Definition marks (f : delivery -> delivery) : Prop :=
  forall d, dl_aggregate (f d) = dl_aggregate d /\ dl_prior (f d) = dl_prior d.

Section mark.
Context (s s' : sys) (i : nat) (d : delivery) (f : delivery -> delivery).
Hypotheses (Hd : deliveries s !! i = Some d) (Hf : marks f) (Hs' : deliveries s' = alter f i (deliveries s)).

Lemma marked_at k : deliveries s' !! k = if decide (k = i) then Some (f d) else deliveries s !! k.
Proof.
  rewrite Hs'. destruct (decide (k = i)) as [-> | Hne].
  - by rewrite list_lookup_alter_eq, Hd.
  - by rewrite list_lookup_alter_ne.
Qed.

Lemma marked_length : length (deliveries s') = length (deliveries s).
Proof. rewrite Hs'. apply length_alter. Qed.

Lemma marked_inv k dk : deliveries s' !! k = Some dk ->
  exists d0, deliveries s !! k = Some d0 /\ dl_aggregate dk = dl_aggregate d0 /\ dl_prior dk = dl_prior d0 /\
    dk = if decide (k = i) then f d else d0.
Proof.
  rewrite marked_at. destruct (decide (k = i)) as [-> |].
  - intros [= <-]. exists d. split; [exact Hd |]. by destruct (Hf d) as [-> ->].
  - intros H. by exists dk.
Qed.

Lemma marked_aggregate a k : of_aggregate s' a k <-> of_aggregate s a k.
Proof.
  split.
  - intros (dk & H & Ha). destruct (marked_inv k dk H) as (d0 & H0 & E & _). exists d0. by rewrite <- E.
  - intros (dk & H & Ha). unfold of_aggregate. rewrite marked_at. destruct (decide (k = i)) as [-> |]; [| by exists dk].
    exists (f d). split; [easy |]. destruct (Hf d) as [-> _]. rewrite Hd in H. by injection H as ->.
Qed.

Lemma marked_last_before a p k : last_before s' a p k <-> last_before s a p k.
Proof. unfold last_before. rewrite marked_aggregate. by setoid_rewrite marked_aggregate. Qed.

(** No delivery that was done is undone. *)
Hypothesis Hmono : dl_status d = Done -> dl_status (f d) = Done.

Lemma marked_done k : done s k -> done s' k.
Proof.
  intros (dk & H & Hk). unfold done. rewrite marked_at. destruct (decide (k = i)) as [-> |]; [| by exists dk].
  exists (f d). split; [easy |]. apply Hmono. rewrite Hd in H. by injection H as ->.
Qed.
Lemma marked_all_done a k : all_done s a k -> all_done s' a k.
Proof. intros H j Hj Ha. apply marked_done, H, marked_aggregate; assumption. Qed.

(** A mark keeps the invariant when the new status is right, and the map is. *)
Lemma inv_mark : Inv s -> tails s' = tails s ->
  (forall a, dl_aggregate d = Some a -> dl_status (f d) <> Waiting -> all_done s a i) ->
  (dl_aggregate d = None -> dl_status (f d) <> Waiting) ->
  (dl_resumed (f d) = true -> dl_status (f d) = Done) ->
  (forall a, mget a (tails s) = Some i -> dl_resumed (f d) = false) -> Inv s'.
Proof.
  intros HI Ht H1 H2 H3 H4. split; [by rewrite Ht; apply HI | | | | |].
  - intros k dk a (d0 & H0 & Ea & Ep & _)%marked_inv Ha. rewrite Ea in Ha. rewrite Ep.
    pose proof (inv_prior s HI k d0 a H0 Ha) as HP. destruct (dl_prior d0); [by apply marked_last_before | by apply marked_all_done].
  - intros k dk a (d0 & H0 & Ea & _ & E)%marked_inv Ha Hk. rewrite Ea in Ha. apply marked_all_done.
    destruct (decide (k = i)) as [-> |]; subst dk; [| by eapply inv_started].
    rewrite Hd in H0. injection H0 as <-. by apply H1.
  - intros k dk (d0 & H0 & Ea & _ & E)%marked_inv Ha. rewrite Ea in Ha.
    destruct (decide (k = i)) as [-> |]; subst dk; [| by eapply inv_plain].
    rewrite Hd in H0. injection H0 as <-. by apply H2.
  - intros k dk (d0 & H0 & _ & _ & E)%marked_inv.
    destruct (decide (k = i)) as [-> |]; subst dk; [exact H3 | by eapply inv_resumed].
  - intros a. rewrite Ht, marked_length. pose proof (inv_tail s HI a) as HT.
    destruct (mget a (tails s)) as [t |] eqn:Et; [| by apply marked_all_done]. destruct HT as [HT1 HT2].
    split; [by apply marked_last_before |]. intros dk (d0 & H0 & _ & _ & E)%marked_inv.
    destruct (decide (t = i)) as [-> |]; subst dk; [by eapply H4 | by apply HT2].
Qed.
End mark.

Lemma chains_inv_init : Inv init.
Proof. split; try done; try (intros [|]; done); [constructor | intros a k Hk; cbn in Hk; lia]. Qed.

(** *** A new delivery *)

Section message.
Context (s s' : sys) (x : delivery) (Hs' : deliveries s' = deliveries s ++ [x]).

Lemma snoc_old i : (i < length (deliveries s))%nat -> deliveries s' !! i = deliveries s !! i.
Proof. intros H. rewrite Hs'. by apply lookup_app_l. Qed.
Lemma snoc_new : deliveries s' !! length (deliveries s) = Some x.
Proof. rewrite Hs', lookup_app_r by lia. by rewrite Nat.sub_diag. Qed.
Lemma snoc_inv i d : deliveries s' !! i = Some d ->
  (deliveries s !! i = Some d /\ (i < length (deliveries s))%nat) \/ (i = length (deliveries s) /\ d = x).
Proof.
  intros H. destruct (Nat.lt_trichotomy i (length (deliveries s))) as [Hi | [-> | Hi]].
  - left. by rewrite <- snoc_old.
  - right. split; [done |]. rewrite snoc_new in H. by injection H.
  - rewrite Hs', lookup_ge_None_2 in H; [done |]. rewrite length_app. cbn. lia.
Qed.

Lemma snoc_aggregate a i : (i < length (deliveries s))%nat -> of_aggregate s' a i <-> of_aggregate s a i.
Proof. intros H. unfold of_aggregate. by rewrite snoc_old. Qed.
Lemma snoc_all_done a i : (i <= length (deliveries s))%nat -> all_done s a i -> all_done s' a i.
Proof.
  intros Hi H k Hk Ha. rewrite snoc_aggregate in Ha by lia. destruct (H k Hk Ha) as (d & Hd & Hdone).
  exists d. by rewrite snoc_old by lia.
Qed.
Lemma snoc_last_before a p i : (i <= length (deliveries s))%nat -> last_before s a p i -> last_before s' a p i.
Proof.
  intros Hi (Hp & Ha & Hn). split; [done |]. split; [apply snoc_aggregate; [lia | done] |].
  intros k Hk. rewrite snoc_aggregate by lia. by apply Hn.
Qed.

(** The place of the next delivery in the chain of [a]. *)
Lemma snoc_place a : Inv s ->
  match mget a (tails s) with
  | Some t => last_before s' a t (length (deliveries s))
  | None => all_done s' a (length (deliveries s))
  end.
Proof.
  intros HI. pose proof (inv_tail s HI a) as HT.
  destruct (mget a (tails s)); [apply snoc_last_before | apply snoc_all_done]; try lia; [by destruct HT | done].
Qed.

Lemma inv_message : Inv s -> wf (tails s') -> dl_resumed x = false ->
  match dl_aggregate x with
  | Some a => dl_prior x = mget a (tails s) /\ dl_status x = Waiting
  | None => dl_status x <> Waiting
  end ->
  (forall a, mget a (tails s') = if decide (dl_aggregate x = Some a) then Some (length (deliveries s)) else mget a (tails s)) ->
  Inv s'.
Proof.
  intros HI Hwf Hres Hx Ht. split; [done | | | | |].
  - intros i d a [[Hd Hi] | [-> ->]]%snoc_inv Ha.
    + pose proof (inv_prior s HI i d a Hd Ha) as HP.
      destruct (dl_prior d); [apply snoc_last_before | apply snoc_all_done]; (lia || done).
    + rewrite Ha in Hx. destruct Hx as [-> _]. by apply snoc_place.
  - intros i d a [[Hd Hi] | [-> ->]]%snoc_inv Ha Hw.
    + apply snoc_all_done; [lia | by eapply inv_started].
    + rewrite Ha in Hx. by destruct Hx.
  - intros i d [[Hd Hi] | [-> ->]]%snoc_inv Ha; [by eapply inv_plain | by rewrite Ha in Hx].
  - intros i d [[Hd Hi] | [-> ->]]%snoc_inv; [by eapply inv_resumed | by rewrite Hres].
  - intros a. rewrite Ht. assert (Hlen : length (deliveries s') = S (length (deliveries s))) by (rewrite Hs', length_app; cbn; lia).
    destruct (decide (dl_aggregate x = Some a)) as [Ha | Hne].
    + split; [| intros d; rewrite snoc_new; by intros [= <-]]. rewrite Hlen. split; [lia |].
      split; [exists x; by rewrite snoc_new | lia].
    + assert (Hnot : ~ of_aggregate s' a (length (deliveries s))).
      { intros (d & Hd & Ha). rewrite snoc_new in Hd. by injection Hd as <-. }
      pose proof (snoc_place a HI) as HP. pose proof (inv_tail s HI a) as HT.
      destruct (mget a (tails s)) as [t |].
      * destruct HP as (Hp & Ha & Hn). destruct HT as [_ HT]. rewrite Hlen. split; [| intros d; rewrite snoc_old by lia; apply HT].
        split; [lia |]. split; [done |]. intros k Hk. destruct (decide (k = length (deliveries s))) as [-> |]; [done | apply Hn; lia].
      * rewrite Hlen. intros k Hk Ha. destruct (decide (k = length (deliveries s))) as [-> |]; [done | apply HP; [lia | done]].
Qed.
End message.

Lemma on_message_inv s a s' : on_message a s = (Ok tt, s') -> Inv s -> Inv s'.
Proof.
  intros H HI. destruct a as [a |]; injection H as <-; (eapply inv_message; [reflexivity | done | | done | | ]).
  - apply wf_mset, HI.
  - done.
  - intros a'. cbn. rewrite mget_mset. destruct (String.eqb_spec a' a) as [-> | Hne];
      destruct (decide _) as [E |]; try done; try congruence.
  - apply HI.
  - done.
  - intros a'. cbn. by destruct (decide _).
Qed.

(** *** The other steps *)

Lemma marks_status x : marks (set_status x).
Proof. done. Qed.
Lemma marks_resumed : marks set_resumed.
Proof. done. Qed.

(** A delivery may start when the one before it is done: then all before it are. *)
Lemma prior_all_done s i d a : Inv s -> deliveries s !! i = Some d -> dl_aggregate d = Some a ->
  prior_done s (dl_prior d) -> all_done s a i.
Proof.
  intros HI Hd Ha Hp. pose proof (inv_prior s HI i d a Hd Ha) as HP. destruct (dl_prior d) as [p |]; [| done].
  destruct HP as (Hlt & Hpa & Hn). destruct Hp as (dp & Hdp & Hdone). intros k Hk Hka.
  destruct (Nat.lt_trichotomy k p) as [Hkp | [-> | Hkp]]; [| by exists dp |].
  - destruct Hpa as (dp' & Hdp' & Hpa). rewrite Hdp in Hdp'. injection Hdp' as <-.
    eapply (inv_started s HI p dp a); [done | done | by rewrite Hdone | done | done].
  - by destruct (Hn k ltac:(lia)).
Qed.

Lemma tail_delivery s a t : Inv s -> mget a (tails s) = Some t -> exists d, deliveries s !! t = Some d /\
  dl_aggregate d = Some a /\ dl_resumed d = false.
Proof.
  intros HI Ht. pose proof (inv_tail s HI a) as HT. rewrite Ht in HT. destruct HT as [(_ & (d & Hd & Ha) & _) Hr].
  exists d. auto.
Qed.

Lemma tail_not_resumed s a i d : Inv s -> deliveries s !! i = Some d -> mget a (tails s) = Some i -> dl_resumed d = false.
Proof.
  intros HI Hd Ht. destruct (tail_delivery s a i HI Ht) as (d' & Hd' & _ & Hr). rewrite Hd in Hd'. by injection Hd' as ->.
Qed.

Lemma start_inv s i d s' : deliveries s !! i = Some d -> dl_status d = Waiting -> prior_done s (dl_prior d) ->
  mark i (set_status Running) s = (Ok tt, s') -> Inv s -> Inv s'.
Proof.
  intros Hd Hw Hp H HI. injection H as <-. eapply (inv_mark s _ i d (set_status Running)); try done.
  - by rewrite Hw.
  - intros a Ha _. by eapply prior_all_done.
  - cbn. intros Hr. pose proof (inv_resumed s HI i d Hd Hr). congruence.
  - intros a Ht. cbn. by eapply tail_not_resumed.
Qed.

Lemma finish_inv s i d s' : deliveries s !! i = Some d -> dl_status d = Running ->
  mark i (set_status Done) s = (Ok tt, s') -> Inv s -> Inv s'.
Proof.
  intros Hd Hw H HI. injection H as <-. eapply (inv_mark s _ i d (set_status Done)); try done.
  - intros a Ha _. eapply inv_started; [done | done | done | by rewrite Hw].
  - intros a Ht. cbn. by eapply tail_not_resumed.
Qed.

(** The tail of a chain that is done may be forgotten. *)
Lemma inv_forget s a i d : Inv s -> deliveries s !! i = Some d -> dl_status d = Done -> mget a (tails s) = Some i ->
  Inv {| tails := mdelete a (tails s); deliveries := deliveries s |}.
Proof.
  intros HI Hd Hdone Ht. split; try apply HI; [by apply wf_mdelete, HI |]. intros a'. cbn [tails].
  rewrite mget_mdelete by apply HI. destruct (String.eqb_spec a' a) as [-> | Hne]; [| apply (inv_tail s HI)].
  pose proof (inv_tail s HI a) as HT. rewrite Ht in HT. destruct HT as [(Hlt & (d' & Hd' & Ha) & Hn) _].
  rewrite Hd in Hd'. injection Hd' as <-. intros k Hk Hka. destruct (Nat.lt_trichotomy k i) as [Hki | [-> | Hki]].
  - eapply (inv_started s HI i d a); [done | done | by rewrite Hdone | done | done].
  - by exists d.
  - by destruct (Hn k ltac:(cbn in *; lia)).
Qed.

Lemma after_await_run i aggregateId s : after_await i aggregateId s =
  (Ok tt, {| tails := match aggregateId with
               | Some a => match mget a (tails s) with
                   | Some tail => if Nat.eqb tail i then mdelete a (tails s) else tails s
                   | None => tails s
                   end
               | None => tails s
               end;
             deliveries := alter set_resumed i (deliveries s) |}).
Proof.
  unfold after_await, mark, bind, gets, modify, ret. cbn. destruct aggregateId as [a |]; [| done].
  cbn. destruct (mget a (tails s)) as [tail |]; [| done]. by destruct (Nat.eqb tail i).
Qed.

Lemma resume_inv s i d s' : deliveries s !! i = Some d -> dl_status d = Done ->
  after_await i (dl_aggregate d) s = (Ok tt, s') -> Inv s -> Inv s'.
Proof.
  intros Hd Hdone H HI.
  assert (Hmark : forall t, Inv {| tails := t; deliveries := deliveries s |} -> (forall a, mget a t <> Some i) ->
    Inv {| tails := t; deliveries := alter set_resumed i (deliveries s) |}).
  { intros t Ht Hnot. eapply (inv_mark {| tails := t; deliveries := deliveries s |} _ i d set_resumed); try done.
    - intros a Ha _. eapply (inv_started _ Ht i d); [done | done | by rewrite Hdone].
    - cbn. by rewrite Hdone.
    - intros a E. by destruct (Hnot a). }
  assert (HI' : Inv {| tails := tails s; deliveries := deliveries s |}) by by destruct s.
  assert (Htail : forall a, mget a (tails s) = Some i -> dl_aggregate d = Some a).
  { intros a Ht. destruct (tail_delivery s a i HI Ht) as (d' & Hd' & Ha & _). rewrite Hd in Hd'. by injection Hd' as <-. }
  rewrite after_await_run in H. injection H as <-. destruct (dl_aggregate d) as [a |] eqn:Ea.
  - destruct (mget a (tails s)) as [t |] eqn:Et; [destruct (Nat.eqb_spec t i) as [-> | Hne] |].
    + apply Hmark; [by eapply inv_forget |].
      intros a'. rewrite mget_mdelete by apply HI. destruct (String.eqb_spec a' a) as [-> | Hne]; [done |].
      intros E. apply Htail in E. congruence.
    + apply Hmark; [done |]. intros a' E. pose proof (Htail a' E) as [= <-]. congruence.
    + apply Hmark; [done |]. intros a' E. pose proof (Htail a' E) as [= <-]. congruence.
  - apply Hmark; [done |]. intros a' E. by apply Htail in E.
Qed.

Lemma chains_inv_step s s' : step s s' -> Inv s -> Inv s'.
Proof.
  intros [s0 a s0' H | s0 i d s0' Hd Hw Hp H | s0 i d s0' Hd Hw H | s0 i d s0' Hd Hw _ H];
    [by eapply on_message_inv | by eapply start_inv | by eapply finish_inv | by eapply resume_inv].
Qed.

Lemma inv_reachable s : reachable s -> Inv s.
Proof. intros H. eapply (rtc_ind_r (fun s => Inv s) init); [exact chains_inv_init | | exact H]. intros y z _ Hs Hy. by eapply chains_inv_step. Qed.

(** ** What the chains guarantee *)

(** Nothing that happens to a delivery is thrown out of its processing. *)
Lemma process_never_throws {St} config (rc : Client St) the_bus invoke now sha256 channel eventName msg s :
  is_ok (fst (processDelivery config rc the_bus invoke now sha256 channel eventName msg s)) = true.
Proof.
  assert (Hswallow : forall (m : M St unit) A (k : M St A), (forall s, is_ok (fst (k s)) = true) -> forall s, is_ok (fst ((swallow m ;;; k) s)) = true).
  { intros m A k Hk s0. unfold bind. rewrite swallow_run. apply Hk. }
  assert (Hlast : forall (m : M St unit) s, is_ok (fst (swallow m s)) = true) by (intros m s0; by rewrite swallow_run).
  assert (Htry : forall s, is_ok (fst (try_handlers config rc the_bus invoke sha256 channel eventName msg s)) = true).
  { intros s0. unfold try_handlers, settled, bind at 1. destruct (handleMessage _ _ _ _ s0) as [[? | ?] s1]; [| apply Hlast].
    apply Hswallow. intros s2. by destruct (is_some _). }
  unfold processDelivery. destruct (max_retries config) as [maxRetries |]; [| apply Htry].
  unfold bind at 1, this, gets. cbv zeta. unfold bind at 1, upd, zoom, modify.
  destruct (_ <? _)%Z; [| apply Htry]. unfold bind, forget, upd, zoom, modify, deadLetter. apply Hswallow, Hlast.
Qed.

Lemma can_progress s : Inv s -> forall i d, deliveries s !! i = Some d -> dl_status d = Waiting ->
  exists k dk, (k <= i)%nat /\ deliveries s !! k = Some dk /\ dl_aggregate dk = dl_aggregate d /\
    (dl_status dk = Running \/ (dl_status dk = Waiting /\ prior_done s (dl_prior dk))).
Proof.
  intros HI i. induction i as [i IH] using lt_wf_ind. intros d Hd Hw.
  destruct (dl_aggregate d) as [a |] eqn:Ea; [| by destruct (inv_plain s HI i d Hd Ea)].
  pose proof (inv_prior s HI i d a Hd Ea) as HP. destruct (dl_prior d) as [p |] eqn:Ep.
  - destruct HP as (Hlt & (dp & Hdp & Hpa) & _). destruct (dl_status dp) eqn:Es.
    + destruct (IH p Hlt dp Hdp Es) as (k & dk & Hk & Hdk & Hak & Hs). rewrite Hpa in Hak.
      exists k, dk. repeat split; try done. lia.
    + exists p, dp. repeat split; try done; [lia | by left].
    + exists i, d. repeat split; try done. right. rewrite Ep. split; [done | by exists dp].
  - exists i, d. repeat split; try done. right. by rewrite Ep.
Qed.

Lemma mget_none_empty {V} (m : jsmap V) : (forall k, mget k m = None) -> m = empty.
Proof. destruct m as [| [k v] m]; [done |]. intros H. specialize (H k). cbn in H. by rewrite String.eqb_refl in H. Qed.

(** C21. Deliveries of one aggregate run one at a time and in the order in which the
    server delivered them: when one of them has started, all before it are done.  A
    delivery without aggregate never waits.  No delivery waits for ever: as long as one
    waits, one of its aggregate is running, or is waiting and may start.  When every
    callback has returned, no chain is left in the map. *)
Theorem rabbit_aggregate_order (s : sys) :
  reachable s ->
  (forall a i j d, (i < j)%nat -> of_aggregate s a i -> deliveries s !! j = Some d -> dl_aggregate d = Some a ->
     dl_status d <> Waiting -> done s i) /\
  (forall i d, deliveries s !! i = Some d -> dl_aggregate d = None -> dl_status d <> Waiting) /\
  (forall i d, deliveries s !! i = Some d -> dl_status d = Waiting ->
     exists k dk, (k <= i)%nat /\ deliveries s !! k = Some dk /\ dl_aggregate dk = dl_aggregate d /\
       (dl_status dk = Running \/ (dl_status dk = Waiting /\ prior_done s (dl_prior dk)))) /\
  ((forall i d, deliveries s !! i = Some d -> dl_resumed d = true) -> tails s = empty).
Proof.
  intros HI%inv_reachable. split; [| split; [| split]].
  - intros a i j d Hij Hi Hd Ha Hw. by eapply (inv_started s HI j d a).
  - apply (inv_plain s HI).
  - by apply can_progress.
  - intros Hall. apply mget_none_empty. intros a. destruct (mget a (tails s)) as [t |] eqn:Ht; [| done].
    destruct (tail_delivery s a t HI Ht) as (d & Hd & _ & Hr). rewrite (Hall t d Hd) in Hr. done.
Qed.

(** Two deliveries of one order: the second waits until the first is done. *)
Module TwoDeliveries.
Definition plain (st : status) (prior : option nat) : delivery :=
  {| dl_aggregate := Some "order-1"%string; dl_prior := prior; dl_status := st; dl_resumed := false |}.
Definition both (first second : status) : sys :=
  {| tails := [("order-1"%string, 1%nat)]; deliveries := [plain first None; plain second (Some 0%nat)] |}.
End TwoDeliveries.

Ltac run := cbv; reflexivity.

Lemma two_deliveries_reachable : reachable (TwoDeliveries.both Done Running).
Proof.
  eapply rtc_l; [eapply (step_message init (Some "order-1"%string)); run |].
  eapply rtc_l; [eapply (step_message _ (Some "order-1"%string)); run |].
  eapply rtc_l; [eapply (step_start _ 0); [run | run | exact I | run] |].
  eapply rtc_l; [eapply (step_finish _ 0); run |].
  eapply rtc_l; [eapply (step_start _ 1); [run | run | eexists; split; run | run] |].
  apply rtc_refl.
Qed.

Lemma rabbit_aggregate_order_witness : done (TwoDeliveries.both Done Running) 0.
Proof.
  destruct (rabbit_aggregate_order (TwoDeliveries.both Done Running) two_deliveries_reachable) as (H & _).
  eapply (H "order-1"%string 0%nat 1%nat (TwoDeliveries.plain Running (Some 0%nat))); try reflexivity; try done; [lia |].
  by eexists.
Defined.
