(* ===== verification/Logger.v ===== *)
(** [NodddeLogger] and [NoopLogger] of [engine/src/logger.ts].  A logger is its
    configuration; the streams of the process, the clock and the environment are
    arguments.  Lines and fields are the strings of the model. *)
From S2P Require Import Prelude Text Json Errors Broker.
Local Open Scope string_scope.

(** ** Levels *)

Inductive level : Type := debug | info | warn | error.

Definition level_text (l : level) : string :=
  match l with debug => "debug" | info => "info" | warn => "warn" | error => "error" end.
Definition level_severity (l : level) : Z := match l with debug => 0 | info => 1 | warn => 2 | error => 3 end.

(** [SEVERITY_MAP[level] ?? WARN] *)
Definition severity (l : string) : Z :=
  if String.eqb l "debug" then 0 else if String.eqb l "info" then 1 else if String.eqb l "warn" then 2 else
  if String.eqb l "error" then 3 else if String.eqb l "silent" then 4 else 2.

(** [NODE_ENV], and [process.stdout.isTTY] *)
Definition detectPretty (NODE_ENV : option string) (isTTY : option bool) : bool :=
  match NODE_ENV with
  | Some e => if String.eqb e "production" then false else or_default isTTY false
  | None => or_default isTTY false
  end.

Record NodddeLogger : Type := { lg_severityThreshold : Z; lg_level : string; lg_namespace : string; lg_pretty : bool }.

Definition new_logger (level namespace : option string) (pretty : option bool) (detected : bool) : NodddeLogger :=
  let level := or_default level "warn" in
  {| lg_severityThreshold := severity level; lg_level := level; lg_namespace := or_default namespace "noddde";
     lg_pretty := or_default pretty detected |}.

Definition child (this : NodddeLogger) (namespace : string) : NodddeLogger :=
  new_logger (Some (lg_level this)) (Some (lg_namespace this ++ ":" ++ namespace)) (Some (lg_pretty this)) false.

(** ** Lines *)

Definition ESC (code : string) : string := String (chr 27) ("[" ++ code ++ "m").
Definition RESET : string := ESC "0".
Definition DIM : string := ESC "90".
Definition CYAN : string := ESC "36".
Definition BOLD : string := ESC "1".
Definition level_color (l : level) : string :=
  match l with debug => ESC "35" | info => ESC "32" | warn => ESC "33" | error => ESC "31" end.
Definition level_label (l : level) : string :=
  match l with debug => "DEBUG" | info => " INFO" | warn => " WARN" | error => "ERROR" end.

Definition newline : string := String (chr 10) EmptyString.

Definition formatValue (v : value) : result string :=
  match v with
  | VStr s => Ok (quoted s)
  | VArr _ | VObj _ | VDate _ => result_bind (stringify v) (fun t => Ok (or_default t "undefined"))
  | _ => Ok (or_default (text_of_json v) EmptyString)
  end.

(** [Object.entries(data).map(...).join(" ")], after a space *)
Definition kv_pairs (data : list (string * value)) : result string :=
  result_bind (map_result (fun '(k, v) => result_bind (formatValue v) (fun t => Ok (DIM ++ k ++ "=" ++ RESET ++ t))) data)
    (fun pairs => Ok (" " ++ String.concat " " pairs)).

Definition pretty_line (this : NodddeLogger) (pid : string) (l : level) (message timestamp : string)
    (data : option (list (string * value))) : result string :=
  result_bind (match data with Some d => kv_pairs d | None => Ok EmptyString end) (fun kvPairs =>
    Ok (DIM ++ timestamp ++ RESET ++ " " ++ level_color l ++ BOLD ++ level_label l ++ RESET ++ " " ++ DIM ++ pid ++ " ---" ++ RESET ++
        " " ++ CYAN ++ "[" ++ lg_namespace this ++ "]" ++ RESET ++ " " ++ message ++ kvPairs ++ newline)).

(** The entry of a JSON line: [data] may replace its properties. *)
Definition json_entry (this : NodddeLogger) (l : level) (message timestamp : string) (data : option (list (string * value))) : value :=
  let entry := [("timestamp", VStr timestamp); ("level", VStr (level_text l)); ("namespace", VStr (lg_namespace this)); ("message", VStr message)] in
  VObj (match data with Some d => assign entry d | None => entry end).

Definition json_line (this : NodddeLogger) (l : level) (message timestamp : string) (data : option (list (string * value))) : result string :=
  result_bind (stringify (json_entry this l message timestamp data)) (fun t => Ok (or_default t "undefined" ++ newline)).

(** ** Emission *)

Section emit.
Context {St : Type} (stdout_write stderr_write : string -> M St unit) (now : M St Z) (pid : string) (this : NodddeLogger).

Definition to_stderr (l : level) : bool := match l with warn | error => true | _ => false end.

Definition emit (l : level) (message : string) (data : option (list (string * value))) : M St unit :=
  let data := match data with Some [] => None | d => d end in
  ms <- now ;;
  timestamp <- lift_result (toISOString ms) ;;
  line <- lift_result (if lg_pretty this then pretty_line this pid l message timestamp data
                       else json_line this l message timestamp data) ;;
  if to_stderr l then stderr_write line else stdout_write line.

(** [debug], [info], [warn] and [error] *)
Definition log (l : level) (message : string) (data : option (list (string * value))) : M St unit :=
  if (lg_severityThreshold this <=? level_severity l)%Z then emit l message data else ret tt.
End emit.

(** ** A JSON line *)

Definition no_control (s : chars) : Prop := Forall (fun c => (32 <= code c)%Z) s.

Lemma no_control_app s t : no_control s -> no_control t -> no_control (s ++ t)%list.
Proof. intros. by apply Forall_app. Qed.
Lemma escape_no_control c : no_control (escape c).
Proof. destruct c as [[] [] [] [] [] [] [] []]; repeat constructor; discriminate. Qed.
Lemma print_string_no_control s : no_control (print_string s).
Proof.
  unfold print_string. constructor; [discriminate |]. apply no_control_app; [| by repeat constructor].
  induction (chars_of s) as [| c l IH]; [constructor |]. cbn [flat_map]. apply no_control_app; [apply escape_no_control | done].
Qed.
Lemma digits_no_control fuel : forall n acc, (0 <= n)%Z -> no_control (chars_of acc) -> no_control (chars_of (digits fuel n acc)).
Proof.
  induction fuel as [| fuel IH]; intros n acc Hn Hacc; [done |]. cbn [digits].
  pose proof (Z.mod_pos_bound n 10 ltac:(lia)) as Hm.
  assert (Hd : no_control (chars_of (String (Ascii.ascii_of_nat (48 + Z.to_nat (n mod 10))) acc))).
  { rewrite chars_of_cons, ascii_digit by lia. constructor; [| done]. rewrite code_digit; lia. }
  destruct (n / 10 =? 0)%Z; [done |]. apply IH; [apply Z.div_pos; lia | done].
Qed.
Lemma number_no_control n : no_control (chars_of (string_of_Z n)).
Proof.
  unfold string_of_Z. assert (H : no_control (chars_of (digits (S (Z.to_nat (Z.log2 (Z.abs n)))) (Z.abs n) EmptyString)))
    by (apply digits_no_control; [lia | constructor]).
  destruct (n <? 0)%Z; [| exact H]. rewrite chars_of_cons. by constructor.
Qed.
Lemma commas_no_control l : Forall no_control l -> no_control (commas l).
Proof.
  induction 1 as [| x l Hx Hl IH]; [constructor |]. destruct l as [| y l]; [done |].
  change (commas (x :: y :: l)) with (x ++ chr 44 :: commas (y :: l))%list. apply no_control_app; [done |]. by constructor.
Qed.

Lemma print_no_control j : no_control (print j).
Proof.
  induction j as [v Hleaf | items IH | fields IH] using value_nested_ind.
  - destruct v as [| | [] | n | | str | | | |]; try done; try (by repeat constructor; discriminate);
      [apply number_no_control | apply print_string_no_control].
  - cbn [print]. constructor; [discriminate |]. apply no_control_app; [| by repeat constructor].
    apply commas_no_control. by apply Forall_map.
  - cbn [print]. constructor; [discriminate |]. apply no_control_app; [| by repeat constructor].
    apply commas_no_control, Forall_map. eapply Forall_impl; [exact IH |]. intros [k x] Hx.
    change (no_control (print_string k ++ chr 58 :: print x)%list). apply no_control_app; [apply print_string_no_control | by constructor].
Qed.

Lemma set_prop_ordered k v o : ordered (VObj o) -> ordered v -> ordered (VObj (set_prop k v o)).
Proof.
  intros [Ho Hf] Hv. split; [by apply set_prop_order |]. clear Ho. revert Hf.
  induction o as [| [k' v'] o IH]; cbn [set_prop foldr]; [by split |]. intros [Hv' Hf].
  destruct (String.eqb k k'); [by split |]. destruct (precedes k k'); [by split |]. split; [done | by apply IH].
Qed.

Lemma assign_ordered p : forall o, ordered (VObj o) -> foldr (fun '(_, x) Q => ordered x /\ Q) True p -> ordered (VObj (assign o p)).
Proof.
  induction p as [| [k v] p IH]; intros o Ho Hp; [done |]. destruct Hp as [Hv Hp]. cbn [assign fold_left].
  apply (IH (set_prop k v o)); [by apply set_prop_ordered | done].
Qed.

Lemma json_entry_ordered this l message timestamp data :
  match data with Some d => ordered (VObj d) | None => True end -> ordered (json_entry this l message timestamp data).
Proof.
  assert (Hbase : ordered (VObj [("timestamp", VStr timestamp); ("level", VStr (level_text l));
    ("namespace", VStr (lg_namespace this)); ("message", VStr message)])).
  { split; [| done]. repeat constructor; (discriminate || reflexivity). }
  destruct data as [d |]; [| by intros _]. intros [_ Hd]. by apply assign_ordered.
Qed.

Lemma json_of_object fields : json_of (VObj fields) <> Ok None.
Proof. cbn [json_of]. destruct (map_result _ fields); cbn; discriminate. Qed.

(** The streams of the process, and its clock. *)
Class Streams {St} (stdout_write stderr_write : string -> M St unit) (now : M St Z) (written : St -> list (bool * string)) (ms : Z) : Prop := {
  streams_out : forall line s, exists s', stdout_write line s = (Ok tt, s') /\ written s' = (written s ++ [(false, line)])%list;
  streams_err : forall line s, exists s', stderr_write line s = (Ok tt, s') /\ written s' = (written s ++ [(true, line)])%list;
  streams_now : forall s, now s = (Ok ms, s)
}.

Section json_lines.
Context {St : Type} (stdout_write stderr_write : string -> M St unit) (now : M St Z) (written : St -> list (bool * string)).

(** In JSON mode a call below the threshold does nothing.  A call at the threshold or
    above it writes one line, on the error stream for warnings and errors and on the
    other stream otherwise; the text before the newline holds no control character,
    hence no other newline, and parses to the JSON form of the entry, in which the
    fields of [data] replace its own.  When [data] has no JSON form (a big integer) the
    call throws and writes nothing. *)
Theorem log_json_line (pid : string) (this : NodddeLogger) (l : level) (message : string) (data : option (list (string * value)))
    (ms : Z) (s : St) :
  Streams stdout_write stderr_write now written ms -> common_era ms -> lg_pretty this = false ->
  match data with Some d => ordered (VObj d) | None => True end ->
  let call := log stdout_write stderr_write now pid this l message data in
  let entry := json_entry this l message (string_of (iso_text ms)) data in
  ((level_severity l < lg_severityThreshold this)%Z -> call s = (Ok tt, s)) /\
  ((lg_severityThreshold this <= level_severity l)%Z ->
   match json_of entry with
   | Ok j => exists j' text s', j = Some j' /\ call s = (Ok tt, s') /\
       written s' = (written s ++ [(match l with warn | error => true | _ => false end, (text ++ newline)%string)])%list /\ no_control (chars_of text) /\ parse text = Ok j'
   | Err e => call s = (Err e, s)
   end).
Proof.
  intros Hst Hera Hjson Hdata call entry. split; intros Hlevel; subst call; unfold log.
  { by rewrite (proj2 (Z.leb_gt _ _) Hlevel). }
  rewrite (proj2 (Z.leb_le _ _) Hlevel).
  pose proof (json_entry_ordered this l message (string_of (iso_text ms)) data Hdata) as Hord. fold entry in Hord.
  assert (Hobj : json_of entry <> Ok None) by apply json_of_object.
  assert (Hcall : emit stdout_write stderr_write now pid this l message data s =
    match json_of entry with
    | Ok j => (if to_stderr l then stderr_write else stdout_write)
                (or_default (option_map (fun j => string_of (print j)) j) "undefined" ++ newline) s
    | Err e => (Err e, s)
    end).
  { assert (Hentry : json_entry this l message (string_of (iso_text ms)) (match data with Some [] => None | d => d end) = entry)
      by by destruct data as [[| kv d] |].
    unfold emit. rewrite (bind_ok _ _ _ _ _ (streams_now s)), toISOString_total by done. unfold bind, lift_result.
    rewrite Hjson. unfold json_line, stringify. rewrite Hentry. clearbody entry.
    destruct (json_of entry); [by destruct (to_stderr l) | done]. }
  rewrite !Hcall. clear Hcall. clearbody entry. destruct (json_of entry) as [[j |] | e] eqn:Ej; [| done | done].
  exists j, (string_of (print j)). cbn [option_map or_default].
  assert (Hrest : no_control (chars_of (string_of (print j))) /\ parse (string_of (print j)) = Ok j).
  { rewrite chars_of_string_of. split; [apply print_no_control | apply parse_print; by eapply json_of_is_json]. }
  destruct (to_stderr l) eqn:Ht; [destruct (streams_err (string_of (print j) ++ newline) s) as (s' & H & Hw)
    | destruct (streams_out (string_of (print j) ++ newline) s) as (s' & H & Hw)];
    (exists s'; split; [done |]; split; [exact H |]; split; [rewrite Hw; by destruct l | exact Hrest]).
Qed.
End json_lines.

(** A process whose streams are lists of lines. *)
Lemma log_json_line_witness :
  let this := new_logger None (Some "noddde:saga") (Some false) false in
  let data := [("sagaId", VStr "s-1"); ("note", VStr (String (chr 10) EmptyString))] in
  exists text, snd (log (fun line => modify (fun w => w ++ [(false, line)])%list) (fun line => modify (fun w => w ++ [(true, line)])%list)
    (ret 0%Z) "1" this error "Saga execution failed." (Some data) []) = [(true, text ++ newline)] /\ no_control (chars_of text).
Proof.
  intros this data.
  destruct (log_json_line (fun line => modify (fun w => w ++ [(false, line)])%list) (fun line => modify (fun w => w ++ [(true, line)])%list)
    (ret 0%Z) (fun w => w) "1" this error "Saga execution failed." (Some data) 0 []) as [_ H].
  - split; [by eexists | by eexists | done].
  - unfold common_era. lia.
  - reflexivity.
  - split; [| done]. repeat constructor; (discriminate || reflexivity).
  - specialize (H ltac:(vm_compute; discriminate)).
    destruct (json_of (json_entry this error "Saga execution failed." (string_of (iso_text 0)) (Some data))) as [j | e] eqn:Ej;
      [| vm_compute in Ej; discriminate Ej].
    destruct H as (j' & text & s' & _ & Hrun & Hw & Hc & _). exists text. rewrite Hrun. split; [exact Hw | exact Hc].
Defined.
