(* ===== verification/Tracing.v ===== *)
(** Tracing: [OTelInstrumentation] of [engine/src/tracing.ts], the interface it implements
    ([core/src/infrastructure/instrumentation.ts]) and its empty implementation there.
    The OpenTelemetry interface is a library: a record of operations.  The other files
    leave the spans out; [with_span_transparent] is the reason. *)
From S2P Require Import Prelude.
Local Open Scope string_scope.

Record TraceContext : Type := { tr_traceparent : option string; tr_tracestate : option string }.
Definition no_context : TraceContext := {| tr_traceparent := None; tr_tracestate := None |}.
Record TraceCorrelation : Type := { tc_traceId : option string; tc_spanId : option string }.
Definition no_correlation : TraceCorrelation := {| tc_traceId := None; tc_spanId := None |}.
Definition attributes : Type := list (string * option (string + Z)).

(** [Instrumentation] *)
Record Instrumentation (St : Type) : Type := {
  in_withSpan : forall A, string -> attributes -> M St A -> M St A;
  in_injectTraceContext : M St TraceContext;
  in_getActiveTraceCorrelation : M St TraceCorrelation;
  in_withExtractedContext : forall A, TraceContext -> M St A -> M St A
}.
Arguments in_withSpan {St} _ {A}.
Arguments in_injectTraceContext {St} _.
Arguments in_getActiveTraceCorrelation {St} _.
Arguments in_withExtractedContext {St} _ {A}.

Definition NoopInstrumentation {St} : Instrumentation St :=
  {| in_withSpan := fun A _ _ fn => fn; in_injectTraceContext := ret no_context;
     in_getActiveTraceCorrelation := ret no_correlation; in_withExtractedContext := fun A _ fn => fn |}.

(** ** The library *)

Inductive SpanStatusCode : Type := OK | ERROR.

Record OTelApi (St : Type) : Type := {
  ot_startSpan : string -> attributes -> M St nat;
  ot_setStatus : nat -> SpanStatusCode -> M St unit;
  ot_recordException : nat -> js_error -> M St unit;
  ot_end : nat -> M St unit;
  ot_with_span : forall A, nat -> M St A -> M St A;                (** [context.with(trace.setSpan(context.active(), span), f)] *)
  ot_inject : M St (list (string * string));                       (** the carrier, filled *)
  ot_getActiveSpan : M St (option (string * string));              (** its [traceId] and [spanId] *)
  ot_with_extracted : forall A, TraceContext -> M St A -> M St A   (** [context.with(extractedCtx, f)] *)
}.
Arguments ot_startSpan {St} _.
Arguments ot_setStatus {St} _.
Arguments ot_recordException {St} _.
Arguments ot_end {St} _.
Arguments ot_with_span {St} _ {A}.
Arguments ot_inject {St} _.
Arguments ot_getActiveSpan {St} _.
Arguments ot_with_extracted {St} _ {A}.

(** ** The class *)

(** [error instanceof Error] *)
Definition is_error_object (e : js_error) : bool := match e with ThrownValue _ => false | _ => true end.

(** A text that is there and not empty. *)
Definition truthy_text (o : option string) : option string :=
  match o with Some s => if String.eqb s "" then None else Some s | None => None end.

Fixpoint carried (key : string) (carrier : list (string * string)) : option string :=
  match carrier with
  | [] => None
  | (k, v) :: carrier' => if String.eqb k key then Some v else carried key carrier'
  end.

Section otel.
Context {St : Type} (otel : option (OTelApi St)).

Definition withSpan {A} (name : string) (attrs : attributes) (fn : M St A) : M St A :=
  match otel with
  | None => fn
  | Some o =>
      span <- ot_startSpan o name attrs ;;
      ot_with_span o span
        (try_finally
          (try_catch
            (result <- fn ;; ot_setStatus o span OK ;;; ret result)
            (fun error =>
               ot_setStatus o span ERROR ;;;
               (if is_error_object error then ot_recordException o span error else ret tt) ;;;
               throw error))
          (ot_end o span))
  end.

Definition injectTraceContext : M St TraceContext :=
  match otel with
  | None => ret no_context
  | Some o =>
      carrier <- ot_inject o ;;
      ret {| tr_traceparent := truthy_text (carried "traceparent" carrier);
             tr_tracestate := truthy_text (carried "tracestate" carrier) |}
  end.

Definition getActiveTraceCorrelation : M St TraceCorrelation :=
  match otel with
  | None => ret no_correlation
  | Some o =>
      span <- ot_getActiveSpan o ;;
      match span with
      | None => ret no_correlation
      | Some (traceId, spanId) => ret {| tc_traceId := Some traceId; tc_spanId := Some spanId |}
      end
  end.

Definition withExtractedContext {A} (carrier : TraceContext) (fn : M St A) : M St A :=
  match otel with
  | Some o => if is_some (truthy_text (tr_traceparent carrier)) then ot_with_extracted o carrier fn else fn
  | None => fn
  end.

Definition OTelInstrumentation : Instrumentation St :=
  {| in_withSpan := @withSpan; in_injectTraceContext := injectTraceContext;
     in_getActiveTraceCorrelation := getActiveTraceCorrelation; in_withExtractedContext := @withExtractedContext |}.
End otel.

(** ** Transparency *)

(** What a tracer sees, in order. *)
Inductive span_event : Type :=
| Started (span : nat) (name : string)
| Status (span : nat) (code : SpanStatusCode)
| Exception (span : nat) (e : js_error)
| Ended (span : nat).

Section transparent.
Context {St V : Type} (o : OTelApi St) (view : St -> V) (spans : St -> list span_event).

(** [m] succeeds with [a], is seen by the tracer as [es], and changes nothing else. *)
Definition traces {B} (m : M St B) (a : B) (es : list span_event) : Prop :=
  forall s, exists s', m s = (Ok a, s') /\ view s' = view s /\ spans s' = (spans s ++ es)%list.

(** A tracer that does not fail; running code in a context is running the code. *)
Class Tracer : Prop := {
  tracer_start : forall name attrs s, exists span s', ot_startSpan o name attrs s = (Ok span, s') /\
    view s' = view s /\ spans s' = (spans s ++ [Started span name])%list;
  tracer_status : forall span code, traces (ot_setStatus o span code) tt [Status span code];
  tracer_exception : forall span e, traces (ot_recordException o span e) tt [Exception span e];
  tracer_end : forall span, traces (ot_end o span) tt [Ended span];
  tracer_with : forall A span (f : M St A) s, exists s1 s2, view s1 = view s /\ spans s1 = spans s /\
    ot_with_span o span f s = (fst (f s1), s2) /\ view s2 = view (snd (f s1)) /\ spans s2 = spans (snd (f s1));
  tracer_extracted : forall A carrier (f : M St A) s, exists s1 s2, view s1 = view s /\ spans s1 = spans s /\
    ot_with_extracted o carrier f s = (fst (f s1), s2) /\ view s2 = view (snd (f s1)) /\ spans s2 = spans (snd (f s1))
}.

(** Code whose result and effect on the rest do not depend on the tracer. *)
Definition oblivious {A} (fn : M St A) : Prop :=
  forall s s', view s = view s' -> fst (fn s) = fst (fn s') /\ view (snd (fn s)) = view (snd (fn s')).

(** What the tracer sees of a span after its code has run. *)
Definition closing {A} (span : nat) (r : result A) : list span_event :=
  match r with
  | Ok _ => [Status span OK; Ended span]
  | Err e => Status span ERROR :: (if is_error_object e then [Exception span e] else []) ++ [Ended span]
  end%list.

(** The body of the callback of [context.with]. *)
Lemma span_body_run {A} `{!Tracer} span (fn : M St A) s : exists s',
  try_finally
    (try_catch (result <- fn ;; ot_setStatus o span OK ;;; ret result)
      (fun error => ot_setStatus o span ERROR ;;; (if is_error_object error then ot_recordException o span error else ret tt) ;;; throw error))
    (ot_end o span) s = (fst (fn s), s') /\
  view s' = view (snd (fn s)) /\ spans s' = (spans (snd (fn s)) ++ closing span (fst (fn s)))%list.
Proof.
  unfold try_finally, try_catch. destruct (fn s) as [[a | e] s1] eqn:Ef; cbn [fst snd closing].
  - destruct (tracer_status span OK s1) as (s2 & H2 & V2 & S2). destruct (tracer_end span s2) as (s3 & H3 & V3 & S3).
    unfold bind. rewrite Ef, H2. cbn. rewrite H3. exists s3. split; [done |]. rewrite V3, V2, S3, S2. by rewrite <- app_assoc.
  - destruct (tracer_status span ERROR s1) as (s2 & H2 & V2 & S2). unfold bind. rewrite Ef, H2.
    destruct (is_error_object e).
    + destruct (tracer_exception span e s2) as (s3 & H3 & V3 & S3). destruct (tracer_end span s3) as (s4 & H4 & V4 & S4).
      rewrite H3. cbn. rewrite H4. exists s4. split; [done |]. rewrite V4, V3, V2, S4, S3, S2. by rewrite <- !app_assoc.
    + destruct (tracer_end span s2) as (s3 & H3 & V3 & S3). cbn. rewrite H3. exists s3. split; [done |].
      rewrite V3, V2, S3, S2. by rewrite <- app_assoc.
Qed.

(** Tracing is transparent.  With OpenTelemetry or without it, [withSpan] returns what
    its function returns, throws what it throws, and changes the state of the domain as
    it does.  With it, the function runs inside one new span, which is ended once
    whatever happens, with the status of the outcome, and with the exception recorded
    when an error was thrown.  Running a function in an extracted context is transparent
    too. *)
Theorem with_span_transparent {A} (name : string) (attrs : attributes) (carrier : TraceContext) (fn : M St A) (s : St) :
  Tracer -> oblivious fn ->
  withSpan None name attrs fn s = fn s /\ withExtractedContext None carrier fn s = fn s /\
  (let '(r, s') := withSpan (Some o) name attrs fn s in
   r = fst (fn s) /\ view s' = view (snd (fn s)) /\
   exists span s1, view s1 = view s /\ spans s1 = (spans s ++ [Started span name])%list /\
     spans s' = (spans (snd (fn s1)) ++ closing span r)%list) /\
  (let '(r, s') := withExtractedContext (Some o) carrier fn s in
   r = fst (fn s) /\ view s' = view (snd (fn s))).
Proof.
  intros Ht Hfn. split; [done |]. split; [done |]. split.
  - unfold withSpan. destruct (tracer_start name attrs s) as (span & s1 & H1 & V1 & S1).
    rewrite (bind_ok _ _ _ _ _ H1).
    match goal with |- context [ot_with_span o span ?f s1] => destruct (tracer_with A span f s1) as (s2 & s3 & V2 & S2 & -> & V3 & S3) end.
    destruct (span_body_run span fn s2) as (s4 & H4 & V4 & S4). rewrite H4 in V3, S3. rewrite H4. cbn [fst snd] in *.
    destruct (Hfn s2 s ltac:(by rewrite V2)) as [Hr Hv]. split; [done |]. split; [by rewrite V3, V4, Hv |].
    exists span, s2. split; [by rewrite V2 |]. split; [by rewrite S2 | by rewrite S3].
  - unfold withExtractedContext. destruct (is_some _); [| by destruct (fn s)].
    destruct (tracer_extracted A carrier fn s) as (s1 & s2 & V1 & S1 & -> & V2 & S2).
    destruct (Hfn s1 s V1) as [Hr Hv]. split; [done | by rewrite V2].
Qed.
End transparent.

(** A tracer that writes down what it sees, next to a counter. *)
Module ListTracer.
Definition World : Type := nat * list span_event.
Definition see (e : span_event) : M World unit := modify (fun '(n, es) => (n, (es ++ [e])%list)).
Definition api : OTelApi World :=
  {| ot_startSpan := fun name _ => see (Started 1 name) ;;; ret 1%nat; ot_setStatus := fun span code => see (Status span code);
     ot_recordException := fun span e => see (Exception span e); ot_end := fun span => see (Ended span);
     ot_with_span := fun A _ f => f; ot_inject := ret []; ot_getActiveSpan := ret None; ot_with_extracted := fun A _ f => f |}.

#[export] Instance tracer : Tracer api fst snd.
Proof.
  split.
  - intros name attrs [n es]. by exists 1%nat, (n, (es ++ [Started 1 name])%list).
  - intros span code [n es]. by eexists.
  - intros span e [n es]. by eexists.
  - intros span [n es]. by eexists.
  - intros A span f s. exists s, (snd (f s)). cbn. by destruct (f s).
  - intros A carrier f s. exists s, (snd (f s)). cbn. by destruct (f s).
Qed.

Definition work : M World unit := modify (fun '(n, es) => (S n, es)) ;;; throw (PlainError "out of stock").
End ListTracer.

Lemma with_span_transparent_witness :
  let '(r, s') := withSpan (Some ListTracer.api) "noddde.command" [] ListTracer.work (0%nat, []) in
  r = Err (PlainError "out of stock") /\ fst s' = 1%nat.
Proof.
  destruct (with_span_transparent ListTracer.api fst snd "noddde.command" [] no_context ListTracer.work (0%nat, []) ListTracer.tracer)
    as (_ & _ & H & _).
  - intros [n es] [n' es'] E. cbn in E. subst n'. split; reflexivity.
  - destruct (withSpan (Some ListTracer.api) "noddde.command" [] ListTracer.work (0%nat, [])) as [r s'].
    destruct H as (Hr & Hv & _). split; [exact Hr | exact Hv].
Defined.
