(* ===== verification/Host.v ===== *)
(** What the platform supplies: the clock and the random number generator.
    Both are oracles, indexed by the number of readings made so far: a program
    that reads them depends on nothing else of the platform. *)
From S2P Require Import Prelude Uuid.

Record Host : Type := {
  h_clock : nat -> Z;          (** the n-th reading of [Date.now()] *)
  h_random : nat -> list Z;    (** the n-th draw of [randomBytes(16)] *)
  h_ticks : nat;
  h_draws : nat
}.

(** [Date.now()], [new Date()] *)
Definition date_now : M Host Z :=
  fun h => (Ok (h_clock h (h_ticks h)),
            {| h_clock := h_clock h; h_random := h_random h;
               h_ticks := S (h_ticks h); h_draws := h_draws h |}).

(** [randomBytes(16)] *)
Definition random_bytes16 : M Host (list Z) :=
  fun h => (Ok (h_random h (h_draws h)),
            {| h_clock := h_clock h; h_random := h_random h;
               h_ticks := h_ticks h; h_draws := S (h_draws h) |}).

(** [uuidv7()] *)
Definition new_uuid : M Host string :=
  now <- date_now ;;
  bytes <- random_bytes16 ;;
  ret (uuidv7 now bytes).

(** The host of an example: one reading per millisecond, constant bytes. *)
Definition sample_host : Host :=
  {| h_clock := fun n => (1700000000000 + Z.of_nat n)%Z;
     h_random := fun n => replicate 16 (Z.of_nat n mod 256)%Z;
     h_ticks := 0; h_draws := 0 |}.
