(* ===== verification/Idempotency.v ===== *)
(** Deduplication: the command idempotency store
    ([implementations/in-memory-idempotency-store.ts]), the event idempotency
    store ([implementations/in-memory-event-idempotency-store.ts]) and the event
    handler wrapper [withIdempotency] ([core/src/edd/event-idempotency.ts]).
    [now] is the reading of [Date.now()] that a method makes; [ttlMs] is the
    constructor's optional argument. *)
From S2P Require Import Prelude JsMap CoreTypes.
Local Open Scope Z_scope.

(** ** The interfaces *)

(** [IdempotencyStore] *)
Record IdempotencyStore (W : Type) : Type := {
  id_exists : ID -> M W bool;
  id_save : IdempotencyRecord -> M W unit;
  id_remove : ID -> M W unit;
  id_removeExpired : Z -> M W unit
}.
Arguments id_exists {W} _.
Arguments id_save {W} _.
Arguments id_remove {W} _.
Arguments id_removeExpired {W} _.

(** [EventIdempotencyStore] *)
Record EventIdempotencyStore (W : Type) : Type := {
  ei_hasProcessed : string -> M W bool;
  ei_markProcessed : string -> M W unit;
  ei_removeExpired : Z -> M W unit
}.
Arguments ei_hasProcessed {W} _.
Arguments ei_markProcessed {W} _.
Arguments ei_removeExpired {W} _.

(** [ttlMs != null && Date.now() - at > ttlMs] *)
Definition expired (ttlMs : option Z) (now at_ : Z) : bool :=
  match ttlMs with Some ttl => ttl <? now - at_ | None => false end.

(** ** InMemoryIdempotencyStore *)

Module CommandIdempotency.

Definition store : Type := jsmap IdempotencyRecord.

Section methods.
Context (ttlMs : option Z) (now : Z).

Definition getLiveRecord (commandId : ID) : M store (option IdempotencyRecord) :=
  let key := string_of_ID commandId in
  record <- gets (mget key) ;;
  match record with
  | None => ret None
  | Some r =>
      if expired ttlMs now (ir_processedAt r)
      then (modify (mdelete key) ;;; ret None)
      else ret (Some r)
  end.

Definition exists_ (commandId : ID) : M store bool :=
  r <- getLiveRecord commandId ;; ret (match r with Some _ => true | None => false end).

Definition save (record : IdempotencyRecord) : M store unit :=
  live <- getLiveRecord (ir_commandId record) ;;
  match live with
  | Some _ => throw (IdempotencyConflictError (ir_commandId record))
  | None =>
      let key := string_of_ID (ir_commandId record) in
      modify (mset key record)
  end.
End methods.

Definition remove (commandId : ID) : M store unit := modify (mdelete (string_of_ID commandId)).

Definition removeExpired (now ttl : Z) : M store unit :=
  let cutoff := now - ttl in
  modify (mdelete_where (fun _ record => ir_processedAt record <=? cutoff)).

End CommandIdempotency.

(** ** InMemoryEventIdempotencyStore *)

Module EventIdempotency.

Definition store : Type := jsmap Z.

Definition hasProcessed (ttlMs : option Z) (now : Z) (key : string) : M store bool :=
  recordedAt <- gets (mget key) ;;
  match recordedAt with
  | None => ret false
  | Some at_ =>
      if expired ttlMs now at_
      then (modify (mdelete key) ;;; ret false)
      else ret true
  end.

Definition markProcessed (now : Z) (key : string) : M store unit := modify (mset key now).

Definition removeExpired (now ttl : Z) : M store unit :=
  let cutoff := now - ttl in modify (mdelete_where (fun _ recordedAt => recordedAt <=? cutoff)).

End EventIdempotency.

(** ** withIdempotency *)

(** [WithIdempotencyOptions]: the key function is the user's; its result may be
    nullish at run time. *)
Definition key_option : Type := option (event -> result (option string)).

Definition dedup_key_error : js_error :=
  PlainError "withIdempotency: could not derive a dedup key from the event. Provide `options.key` or ensure `event.metadata.eventId` is set.".

Definition dedup_key (options : key_option) (e : event) : result (option string) :=
  match options with Some key => key e | None => Ok (metadata_req md_eventId e) end.

Definition withIdempotency {W Infra} (handler : event -> Infra -> M W unit)
    (store : EventIdempotencyStore W) (options : key_option) : event -> Infra -> M W unit :=
  fun e infrastructure =>
    key <- lift_result (dedup_key options e) ;;
    match key with
    | None => throw dedup_key_error
    | Some key =>
        done <- ei_hasProcessed store key ;;
        if (done : bool) then ret tt else
        (handler e infrastructure ;;; ei_markProcessed store key)
    end.

(** What a store promises to the wrapper: [processed w k] is its answer for [k]. *)
Class EventIdempotencySpec {W} (S : EventIdempotencyStore W) (processed : W -> string -> bool) : Prop := {
  ei_has_spec : forall w k, exists w',
    ei_hasProcessed S k w = (Ok (processed w k), w') /\ forall k', processed w' k' = processed w k';
  ei_mark_spec : forall w k, exists w',
    ei_markProcessed S k w = (Ok tt, w') /\
    forall k', processed w' k' = if String.eqb k' k then true else processed w k'
}.

(** The in-memory event store without a time to live. *)
Definition forever_store (now : Z) : EventIdempotencyStore EventIdempotency.store :=
  {| ei_hasProcessed := EventIdempotency.hasProcessed None now;
     ei_markProcessed := EventIdempotency.markProcessed now;
     ei_removeExpired := EventIdempotency.removeExpired now |}.

(** ** Facts *)

#[export] Instance forever_store_spec now :
  EventIdempotencySpec (forever_store now) (fun st k => mhas k st).
Proof.
  split.
  - intros w k. exists w. split; [| done]. simpl. unfold EventIdempotency.hasProcessed, bind, gets, mhas.
    by destruct (mget k w).
  - intros w k. eexists. split; [reflexivity |]. intros k'. unfold mhas. rewrite mget_mset.
    by destruct (String.eqb k' k).
Qed.

Lemma live_record_spec ttl now i (st : CommandIdempotency.store) :
  wf st ->
  exists st', wf st' /\
    CommandIdempotency.getLiveRecord ttl now i st
    = (Ok match mget (string_of_ID i) st with
          | Some r => if expired ttl now (ir_processedAt r) then None else Some r
          | None => None
          end, st') /\
    forall k, mget k st'
      = if String.eqb k (string_of_ID i)
        then match mget k st with
             | Some r => if expired ttl now (ir_processedAt r) then None else Some r
             | None => None
             end
        else mget k st.
Proof.
  intros Hwf. unfold CommandIdempotency.getLiveRecord, bind, gets, ret, modify.
  destruct (mget (string_of_ID i) st) as [r |] eqn:G; [destruct (expired ttl now _) eqn:E |].
  - eexists. split; [by apply wf_mdelete |]. split; [done |]. intros k. rewrite mget_mdelete by done.
    destruct (String.eqb_spec k (string_of_ID i)) as [-> |]; [| done]. by rewrite G, E.
  - exists st. split; [done |]. split; [done |]. intros k.
    destruct (String.eqb_spec k (string_of_ID i)) as [-> |]; [| done]. by rewrite G, E.
  - exists st. split; [done |]. split; [done |]. intros k.
    destruct (String.eqb_spec k (string_of_ID i)) as [-> |]; [| done]. by rewrite G.
Qed.

(** Calls that do not name the identifier [i] and do not remove records. *)
Definition other_call (ttl : option Z) (i : ID) (st st' : CommandIdempotency.store) : Prop :=
  (exists now j b, string_of_ID j <> string_of_ID i /\ CommandIdempotency.exists_ ttl now j st = (Ok b, st')) \/
  (exists now r res, string_of_ID (ir_commandId r) <> string_of_ID i /\
     CommandIdempotency.save ttl now r st = (res, st')).

Lemma other_call_frame ttl i st st' :
  wf st -> other_call ttl i st st' ->
  wf st' /\ mget (string_of_ID i) st' = mget (string_of_ID i) st.
Proof.
  intros Hwf [(now & j & b & Hne & H) | (now & r & res & Hne & H)].
  - destruct (live_record_spec ttl now j st Hwf) as (st1 & Hwf1 & E & G).
    unfold CommandIdempotency.exists_, bind in H. rewrite E in H. injection H as _ <-.
    split; [done |]. rewrite G. by destruct (String.eqb_spec (string_of_ID i) (string_of_ID j)).
  - destruct (live_record_spec ttl now (ir_commandId r) st Hwf) as (st1 & Hwf1 & E & G).
    unfold CommandIdempotency.save, bind in H. rewrite E in H.
    assert (Hfr : mget (string_of_ID i) st1 = mget (string_of_ID i) st)
      by (rewrite G; by destruct (String.eqb_spec (string_of_ID i) (string_of_ID (ir_commandId r)))).
    destruct (match mget _ _ with Some _ => _ | None => _ end); injection H as _ <-; [done |].
    split; [by apply wf_mset |]. by rewrite mget_mset_ne.
Qed.

Lemma other_calls_frame ttl i st st' :
  wf st -> rtc (other_call ttl i) st st' ->
  wf st' /\ mget (string_of_ID i) st' = mget (string_of_ID i) st.
Proof.
  intros Hwf Hstar. induction Hstar as [| st1 st2 st3 H _ IH]; [done |].
  apply other_call_frame in H as [Hwf2 <-]; [| done]. by apply IH.
Qed.

(** ** Properties *)

(** A claimed command stays claimed for exactly its time to live: after a
    successful [save], whatever other commands are checked and claimed in between,
    [exists] answers true as long as the record's age is at most [ttlMs] (forever
    without one) and a second claim is then refused with an
    [IdempotencyConflictError]; from the next millisecond on [exists] answers
    false and the identifier can be claimed again. *)
Theorem idempotency_claim_window (ttl : option Z) (now now' : Z) (r r' : IdempotencyRecord)
    (st st1 st2 : CommandIdempotency.store) :
  wf st -> ir_commandId r' = ir_commandId r ->
  CommandIdempotency.save ttl now r st = (Ok tt, st1) ->
  rtc (other_call ttl (ir_commandId r)) st1 st2 ->
  let live := match ttl with Some t => now' - ir_processedAt r <=? t | None => true end in
  fst (CommandIdempotency.exists_ ttl now' (ir_commandId r) st2) = Ok live /\
  fst (CommandIdempotency.save ttl now' r' st2)
  = if live then Err (IdempotencyConflictError (ir_commandId r)) else Ok tt.
Proof.
  intros Hwf Hid H Hstar live.
  assert (Hst1 : wf st1 /\ mget (string_of_ID (ir_commandId r)) st1 = Some r).
  { destruct (live_record_spec ttl now (ir_commandId r) st Hwf) as (st' & Hwf' & E & G).
    unfold CommandIdempotency.save, bind in H. rewrite E in H.
    destruct (match mget _ _ with Some _ => _ | None => _ end); [done |]. injection H as <-.
    split; [by apply wf_mset | apply mget_mset_eq]. }
  destruct Hst1 as [Hwf1 G1].
  destruct (other_calls_frame _ _ _ _ Hwf1 Hstar) as [Hwf2 G2]. rewrite G1 in G2.
  destruct (live_record_spec ttl now' (ir_commandId r) st2 Hwf2) as (st3 & _ & E & _).
  rewrite G2 in E.
  assert (Hlive : expired ttl now' (ir_processedAt r) = negb live).
  { unfold expired, live. destruct ttl as [t |]; [| done].
    destruct (Z.ltb_spec t (now' - ir_processedAt r)), (Z.leb_spec (now' - ir_processedAt r) t);
      reflexivity || lia. }
  rewrite Hlive in E. unfold CommandIdempotency.exists_, CommandIdempotency.save, bind.
  rewrite Hid, E. by destruct live.
Qed.

Definition sample_record : IdempotencyRecord :=
  {| ir_commandId := IdStr "c-1"; ir_aggregateName := "Auction"; ir_aggregateId := IdStr "a";
     ir_processedAt := 1000 |}.

Lemma idempotency_claim_window_witness :
  fst (CommandIdempotency.exists_ (Some 50) 1050 (IdStr "c-1") [("c-1"%string, sample_record)]) = Ok true.
Proof.
  refine (proj1 (idempotency_claim_window (Some 50) 1000 1050 sample_record sample_record
    empty [("c-1"%string, sample_record)] [("c-1"%string, sample_record)] _ _ _ _));
    [apply NoDup_nil_2 | reflexivity | reflexivity | apply rtc_refl].
Defined.

(** The sweep and the check disagree at the boundary: a record whose age is
    exactly the time to live is still live for [exists], and the same clock
    reading makes [removeExpired] delete it. *)
Theorem remove_expired_boundary (ttl : Z) (r : IdempotencyRecord) (st : CommandIdempotency.store) :
  wf st -> mget (string_of_ID (ir_commandId r)) st = Some r ->
  let now := ir_processedAt r + ttl in
  fst (CommandIdempotency.exists_ (Some ttl) now (ir_commandId r) st) = Ok true /\
  forall st', CommandIdempotency.removeExpired now ttl st = (Ok tt, st') ->
    fst (CommandIdempotency.exists_ (Some ttl) now (ir_commandId r) st') = Ok false /\
    forall k r', mget k st = Some r' -> now < ir_processedAt r' + ttl -> mget k st' = Some r'.
Proof.
  intros Hwf G now. split.
  - unfold CommandIdempotency.exists_, CommandIdempotency.getLiveRecord, bind, gets. rewrite G.
    unfold expired, now. destruct (Z.ltb_spec ttl (ir_processedAt r + ttl - ir_processedAt r)); [lia | done].
  - unfold CommandIdempotency.removeExpired, modify. intros st' [= <-]. split.
    + unfold CommandIdempotency.exists_, CommandIdempotency.getLiveRecord, bind, gets.
      rewrite mget_mdelete_where, G by done. unfold now.
      destruct (Z.leb_spec (ir_processedAt r) (ir_processedAt r + ttl - ttl)); [done | lia].
    + intros k r' Gk Hlt. rewrite mget_mdelete_where, Gk by done.
      destruct (Z.leb_spec (ir_processedAt r') (now - ttl)); [lia | done].
Qed.

Lemma remove_expired_boundary_witness :
  fst (CommandIdempotency.exists_ (Some 50) 1050 (IdStr "c-1") [("c-1"%string, sample_record)]) = Ok true.
Proof.
  refine (proj1 (remove_expired_boundary 50 sample_record [("c-1"%string, sample_record)] _ _));
    [apply NoDup_singleton | reflexivity].
Defined.

(** [withIdempotency] runs the handler at most once per key among sequential
    deliveries: a delivery whose handler fails is not marked, so a redelivery runs
    it again; once it has succeeded, and provided the later calls keep what the
    store has recorded, a redelivery of an event with the same key succeeds
    without running the handler.  An event without a key is rejected before the
    store or the handler is touched. *)
Theorem with_idempotency_once {W Infra} (S : EventIdempotencyStore W) (processed : W -> string -> bool)
    `{!EventIdempotencySpec S processed} (handler : event -> Infra -> M W unit) (options : key_option)
    (e : event) (infra : Infra) (w : W) :
  (forall e w w' r k, handler e infra w = (r, w') -> processed w' k = processed w k) ->
  match dedup_key options e with
  | Err err => withIdempotency handler S options e infra w = (Err err, w)
  | Ok None => withIdempotency handler S options e infra w = (Err dedup_key_error, w)
  | Ok (Some k) =>
      let '(r, w1) := withIdempotency handler S options e infra w in
      (forall k', processed w1 k'
         = if String.eqb k' k then (match r with Ok _ => true | Err _ => processed w k' end)
           else processed w k') /\
      (r = Ok tt -> forall w2 e2 h2, processed w2 k = processed w1 k ->
         dedup_key options e2 = Ok (Some k) ->
         fst (withIdempotency h2 S options e2 infra w2) = Ok tt /\
         snd (withIdempotency h2 S options e2 infra w2) = snd (ei_hasProcessed S k w2))
  end.
Proof.
  intros Hframe. unfold withIdempotency, lift_result, bind.
  destruct (dedup_key options e) as [[k |] | err]; [| done | done].
  assert (Hskip : forall w2 e2 (h2 : event -> Infra -> M W unit),
    processed w2 k = true -> dedup_key options e2 = Ok (Some k) ->
    (fst (withIdempotency h2 S options e2 infra w2) = Ok tt /\
     snd (withIdempotency h2 S options e2 infra w2) = snd (ei_hasProcessed S k w2))).
  { intros w2 e2 h2 Hp Hk. unfold withIdempotency, lift_result, bind. rewrite Hk.
    destruct (ei_has_spec w2 k) as (w3 & -> & _). by rewrite Hp. }
  destruct (ei_has_spec w k) as (w1 & -> & Hw1).
  destruct (processed w k) eqn:P; simpl.
  { split; [| intros _ w2 e2 h2 Hp; apply Hskip; by rewrite Hp, Hw1].
    intros k'. rewrite Hw1. by destruct (String.eqb_spec k' k) as [-> |]. }
  destruct (handler e infra w1) as [[[] | err] w2] eqn:Hh.
  - destruct (ei_mark_spec w2 k) as (w3 & -> & Hw3). split.
    + intros k'. rewrite Hw3, (Hframe _ _ _ _ _ Hh). by destruct (String.eqb k' k).
    + intros _ w4 e2 h2 Hp. apply Hskip. by rewrite Hp, Hw3, String.eqb_refl.
  - split; [| done]. intros k'. rewrite (Hframe _ _ _ _ _ Hh), Hw1. by destruct (String.eqb k' k).
Qed.

Definition keyed_event : event :=
  {| ev_name := "Paid"; ev_payload := VNum 1;
     ev_metadata := Some {| md_eventId := "e-1"; md_timestamp := 0; md_correlationId := "x";
       md_causationId := "x"; md_userId := None; md_version := None; md_aggregateName := None;
       md_aggregateId := None; md_sequenceNumber := None; md_traceparent := None;
       md_tracestate := None |} |}.

Lemma with_idempotency_once_witness :
  (let '(r, w1) := withIdempotency (fun _ (_ : unit) => ret tt) (forever_store 7) None keyed_event tt empty in
   r = Ok tt /\ mhas "e-1" w1 = true).
Proof.
  pose proof (with_idempotency_once (forever_store 7) (fun st k => mhas k st)
    (fun _ (_ : unit) => ret tt) None keyed_event tt empty) as H.
  cbv beta in H. specialize (H (fun e w w' r k E => f_equal (fun p => mhas k (snd p)) (eq_sym E))).
  simpl in *. split; [reflexivity |]. exact (proj1 H "e-1"%string).
Defined.
