(* ===== verification/Outbox.v ===== *)
(** The transactional outbox: the in-memory store
    ([implementations/in-memory-outbox-store.ts]) and the relay that publishes
    what a crash or a failed dispatch left behind ([outbox-relay.ts]).
    The relay is defined over any [OutboxStore] and any event bus. *)
From S2P Require Import Prelude JsMap CoreTypes.
From Stdlib Require Import Sorting.Sorted.

(** ** The interface *)

(** [OutboxStore] *)
Record OutboxStore (W : Type) : Type := {
  ox_save : list OutboxEntry -> M W unit;
  ox_loadUnpublished : nat -> M W (list OutboxEntry);
  ox_markPublished : list string -> M W unit;
  ox_markPublishedByEventIds : list string -> M W unit;
  ox_deletePublished : option Z -> M W unit
}.
Arguments ox_save {W} _.
Arguments ox_loadUnpublished {W} _.
Arguments ox_markPublished {W} _.
Arguments ox_markPublishedByEventIds {W} _.
Arguments ox_deletePublished {W} _.

Definition unpublished (e : OutboxEntry) : bool :=
  match ob_publishedAt e with None => true | Some _ => false end.

(** [entry.publishedAt = now] *)
Definition publish_at (now : Z) (e : OutboxEntry) : OutboxEntry :=
  {| ob_id := ob_id e; ob_event := ob_event e; ob_aggregateName := ob_aggregateName e;
     ob_aggregateId := ob_aggregateId e; ob_createdAt := ob_createdAt e;
     ob_publishedAt := Some now |}.

(** ** InMemoryOutboxStore *)

Module OutboxMemory.

Definition store : Type := jsmap OutboxEntry.

Definition save (entries : list OutboxEntry) : M store unit :=
  for_each entries (fun entry => modify (mset (ob_id entry) entry)).

(** [Array.prototype.sort] with the comparison of creation times: a stable sort. *)
Fixpoint insert_by_createdAt (e : OutboxEntry) (l : list OutboxEntry) : list OutboxEntry :=
  match l with
  | [] => [e]
  | x :: l' => if (ob_createdAt e <=? ob_createdAt x)%Z then e :: l else x :: insert_by_createdAt e l'
  end.

Fixpoint sort_by_createdAt (l : list OutboxEntry) : list OutboxEntry :=
  match l with [] => [] | x :: l' => insert_by_createdAt x (sort_by_createdAt l') end.

Definition loadUnpublished (batchSize : nat) : M store (list OutboxEntry) :=
  gets (fun st => take batchSize (sort_by_createdAt (List.filter unpublished (mvalues st)))).

(** [now] is the reading of [new Date()]. *)
Definition markPublished (now : Z) (ids : list string) : M store unit :=
  for_each ids (fun id =>
    entry <- gets (mget id) ;;
    match entry with
    | Some e => if unpublished e then modify (mset id (publish_at now e)) else ret tt
    | None => ret tt
    end).

(** [entry.event.metadata?.eventId != null && idSet.has(...)] *)
Definition has_event_id (eventIds : list string) (e : OutboxEntry) : bool :=
  match metadata_req md_eventId (ob_event e) with
  | Some i => existsb (String.eqb i) eventIds
  | None => false
  end.

Definition markPublishedByEventIds (now : Z) (eventIds : list string) : M store unit :=
  modify (map (fun '(k, e) =>
    (k, if unpublished e && has_event_id eventIds e then publish_at now e else e))).

Definition deletePublished (olderThan : option Z) : M store unit :=
  modify (mdelete_where (fun _ e =>
    negb (unpublished e) &&
    match olderThan with None => true | Some d => (ob_createdAt e <? d)%Z end)).

Definition findAll : M store (list OutboxEntry) := gets mvalues.

(** The class as a record of operations, at a clock reading. *)
Definition outbox (now : Z) : OutboxStore store :=
  {| ox_save := save; ox_loadUnpublished := loadUnpublished; ox_markPublished := markPublished now;
     ox_markPublishedByEventIds := markPublishedByEventIds now;
     ox_deletePublished := deletePublished |}.

End OutboxMemory.

(** A store that is a part of a larger world. *)
Definition zoom_outbox {W S} (l : lens W S) (o : OutboxStore S) : OutboxStore W :=
  {| ox_save := fun es => zoom l (ox_save o es);
     ox_loadUnpublished := fun n => zoom l (ox_loadUnpublished o n);
     ox_markPublished := fun ids => zoom l (ox_markPublished o ids);
     ox_markPublishedByEventIds := fun ids => zoom l (ox_markPublishedByEventIds o ids);
     ox_deletePublished := fun d => zoom l (ox_deletePublished o d) |}.

(** ** OutboxRelay *)

(** The fields of a relay. *)
Record RelayState : Type := { rl_timer : bool; rl_processing : bool; rl_drained : bool }.

Definition new_relay : RelayState := {| rl_timer := false; rl_processing := false; rl_drained := false |}.

Section relay.
Context {W : Type} (outboxStore : OutboxStore W) (dispatch : event -> M W unit)
  (relay : lens W RelayState) (optBatchSize : option nat).

Definition set_timer (b : bool) : M W unit :=
  zoom relay (modify (fun r => {| rl_timer := b; rl_processing := rl_processing r; rl_drained := rl_drained r |})).
Definition set_processing (b : bool) : M W unit :=
  zoom relay (modify (fun r => {| rl_timer := rl_timer r; rl_processing := b; rl_drained := rl_drained r |})).
Definition set_drained : M W unit :=
  zoom relay (modify (fun r => {| rl_timer := rl_timer r; rl_processing := rl_processing r; rl_drained := true |})).

Definition start : M W unit :=
  r <- gets (lget relay) ;; if rl_timer r then ret tt else set_timer true.

Definition stop : M W unit :=
  r <- gets (lget relay) ;; if rl_timer r then set_timer false else ret tt.

(** The loop over a batch: [dispatched] counts the entries that were dispatched
    and marked. *)
Fixpoint dispatch_entries (entries : list OutboxEntry) (dispatched : nat) : M W nat :=
  match entries with
  | [] => ret dispatched
  | entry :: entries' =>
      dispatched' <- try_catch
        (dispatch (ob_event entry) ;;;
         (ox_markPublished outboxStore [ob_id entry] ;;;
          ret (S dispatched)))
        (fun _ => ret dispatched) ;;
      dispatch_entries entries' dispatched'
  end.

Definition processOnce : M W nat :=
  r <- gets (lget relay) ;;
  if rl_processing r then ret 0%nat else
  (set_processing true ;;;
   try_finally
     (try_catch
        (let batchSize := or_default optBatchSize 100%nat in
         entries <- ox_loadUnpublished outboxStore batchSize ;;
         if (length entries =? 0)%nat then ret 0%nat
         else dispatch_entries entries 0)
        (fun _ => ret 0%nat))
     (set_processing false)).

(** [do { processed = await processOnce() } while (processed > 0)]; [None] when
    [fuel] turns were not enough. *)
Fixpoint drain_loop (fuel : nat) : M W (option unit) :=
  match fuel with
  | O => ret None
  | S fuel' =>
      processed <- processOnce ;;
      if (0 <? processed)%nat then drain_loop fuel' else ret (Some tt)
  end.

Definition drain (fuel : nat) : M W (option unit) :=
  r <- gets (lget relay) ;;
  if rl_drained r then ret (Some tt) else
  (set_drained ;;; (stop ;;; drain_loop fuel)).
End relay.

(** ** Facts about the store *)

Module OutboxFacts.
Import OutboxMemory.

Lemma insert_perm e l : insert_by_createdAt e l ≡ₚ e :: l.
Proof.
  induction l as [| x l IH]; simpl; [done |].
  destruct (_ <=? _)%Z; [done |]. rewrite IH. apply Permutation_swap.
Qed.

Lemma sort_perm l : sort_by_createdAt l ≡ₚ l.
Proof. induction l as [| x l IH]; simpl; [done |]. by rewrite insert_perm, IH. Qed.

Definition older (a b : OutboxEntry) : Prop := (ob_createdAt a <= ob_createdAt b)%Z.

Lemma insert_sorted e l : StronglySorted older l -> StronglySorted older (insert_by_createdAt e l).
Proof.
  induction 1 as [| x l Hs IH Hall]; simpl; [by repeat constructor |].
  destruct (Z.leb_spec (ob_createdAt e) (ob_createdAt x)).
  - constructor; [by constructor |]. constructor; [done |].
    eapply Forall_impl; [exact Hall |]. intros y Hy. unfold older in *. lia.
  - constructor; [done |]. rewrite insert_perm. constructor; [unfold older; lia | done].
Qed.

Lemma sort_sorted l : StronglySorted older (sort_by_createdAt l).
Proof. induction l as [| x l IH]; simpl; [constructor | by apply insert_sorted]. Qed.

(** Entries created at the same instant keep their order. *)
Lemma insert_stable e l t :
  List.filter (fun x => ob_createdAt x =? t)%Z (insert_by_createdAt e l)
  = List.filter (fun x => ob_createdAt x =? t)%Z (e :: l).
Proof.
  induction l as [| x l IH]; simpl; [done |].
  destruct (Z.leb_spec (ob_createdAt e) (ob_createdAt x)); simpl; [done |].
  rewrite IH. simpl.
  destruct (Z.eqb_spec (ob_createdAt x) t), (Z.eqb_spec (ob_createdAt e) t); try done. lia.
Qed.

Lemma sort_stable l t :
  List.filter (fun x => ob_createdAt x =? t)%Z (sort_by_createdAt l)
  = List.filter (fun x => ob_createdAt x =? t)%Z l.
Proof.
  induction l as [| x l IH]; simpl; [done |]. rewrite insert_stable. simpl. by rewrite IH.
Qed.

(** Every entry is stored under its own identifier. *)
Definition keyed (st : store) : Prop := wf st /\ forall k e, mget k st = Some e -> ob_id e = k.

Lemma keyed_mset st e : keyed st -> keyed (mset (ob_id e) e st).
Proof.
  intros [Hwf Hk]. split; [by apply wf_mset |]. intros k e'. rewrite mget_mset.
  destruct (String.eqb_spec k (ob_id e)) as [-> |]; [by intros [= ->] | apply Hk].
Qed.

Lemma keyed_save es st : keyed st -> keyed (snd (save es st)).
Proof.
  revert st. induction es as [| e es IH]; intros st H; [done |]. apply (IH _ (keyed_mset _ e H)).
Qed.

(** The unpublished entries of a store. *)
Definition pending (st : store) : list OutboxEntry := List.filter unpublished (mvalues st).

Lemma pending_elem st e : keyed st -> e ∈ pending st <-> mget (ob_id e) st = Some e /\ unpublished e = true.
Proof.
  intros [Hwf Hk]. unfold pending, mvalues. rewrite list_elem_of_In, List.filter_In, in_map_iff. split.
  - intros [([k e'] & Heq & Hin) Hu]. simpl in Heq. subst e'.
    apply list_elem_of_In in Hin. apply (elem_mget _ _ _ Hwf) in Hin.
    by rewrite (Hk _ _ Hin).
  - intros [Hm Hu]. split; [| done]. exists (ob_id e, e). split; [done |].
    by apply list_elem_of_In, mget_Some_elem.
Qed.

Lemma filter_length_mset k e e' (st : store) :
  wf st -> mget k st = Some e -> unpublished e = true -> unpublished e' = false ->
  length (pending st) = S (length (pending (mset k e' st))).
Proof.
  unfold pending, mvalues, wf, mkeys. intros Hwf Hm Hu Hu'.
  induction st as [| [k1 e1] st IH]; simpl in *; [done |].
  apply NoDup_cons in Hwf as [_ Hwf].
  destruct (String.eqb_spec k k1) as [-> |]; simpl.
  - injection Hm as ->. by rewrite Hu, Hu'.
  - destruct (unpublished e1); simpl; by rewrite (IH Hwf Hm).
Qed.

Lemma markPublished_one now e st :
  keyed st -> e ∈ pending st ->
  exists st', markPublished now [ob_id e] st = (Ok tt, st') /\ keyed st' /\
    length (pending st) = S (length (pending st')) /\
    (forall e', e' ∈ pending st' <-> e' ∈ pending st /\ ob_id e' <> ob_id e).
Proof.
  intros Hk Hin. pose proof Hin as [Hm Hu]%(pending_elem _ _ Hk).
  exists (mset (ob_id e) (publish_at now e) st).
  assert (Hk' : keyed (mset (ob_id e) (publish_at now e) st)) by apply (keyed_mset st (publish_at now e) Hk).
  split; [| split; [done | split]].
  - unfold markPublished, for_each, bind, gets, modify, ret. by rewrite Hm, Hu.
  - by eapply filter_length_mset; [apply Hk | exact Hm | |].
  - intros e'. rewrite (pending_elem _ _ Hk'), (pending_elem _ _ Hk), mget_mset.
    destruct (String.eqb_spec (ob_id e') (ob_id e)) as [E |]; [| tauto].
    split; [intros [[= <-] ?]; done | by intros [_ ?]].
Qed.

End OutboxFacts.
Export OutboxFacts.

(** ** The relay over the in-memory store and an arbitrary bus

    The world is the relay's fields, the outbox and the state [B] of the bus. *)

Section relay_run.
Context {B : Type} (now : Z) (dispatch : event -> M B unit) (optBatchSize : option nat).

Definition world : Type := RelayState * OutboxMemory.store * B.
Definition relay_lens : lens world RelayState := compose_lens fst_lens fst_lens.
Definition store_lens : lens world OutboxMemory.store := compose_lens fst_lens snd_lens.
Definition bus_lens : lens world B := snd_lens.

Definition relay_outbox : OutboxStore world := zoom_outbox store_lens (OutboxMemory.outbox now).
Definition relay_dispatch (e : event) : M world unit := zoom bus_lens (dispatch e).

Definition relay_processOnce : M world nat :=
  processOnce relay_outbox relay_dispatch relay_lens optBatchSize.
Definition relay_drain (fuel : nat) : M world (option unit) :=
  drain relay_outbox relay_dispatch relay_lens optBatchSize fuel.

(** The entries of a batch that the bus accepts, in order. *)
Fixpoint accepted (entries : list OutboxEntry) (b : B) : list OutboxEntry * B :=
  match entries with
  | [] => ([], b)
  | e :: es =>
      let '(r, b1) := dispatch (ob_event e) b in
      let '(oks, b2) := accepted es b1 in
      (if is_ok r then e :: oks else oks, b2)
  end.

Lemma accepted_sublist es b : fst (accepted es b) `sublist_of` es.
Proof.
  revert b. induction es as [| e es IH]; intros b; simpl; [done |].
  destruct (dispatch (ob_event e) b) as [r b1]. specialize (IH b1).
  destruct (accepted es b1) as [oks b2]. simpl in *.
  destruct (is_ok r); [by apply sublist_skip | by apply sublist_cons].
Qed.

(** A batch of distinct pending entries. *)
Lemma dispatch_entries_spec es r st b n :
  keyed st -> NoDup (map ob_id es) -> Forall (fun e => e ∈ pending st) es ->
  exists st', keyed st' /\
    dispatch_entries relay_outbox relay_dispatch es n (r, st, b)
    = (Ok (n + length (fst (accepted es b))), (r, st', snd (accepted es b))) /\
    length (pending st) = (length (pending st') + length (fst (accepted es b)))%nat /\
    (forall e, e ∈ pending st' <-> e ∈ pending st /\ ob_id e ∉ map ob_id (fst (accepted es b))) /\
    (fst (accepted es b) = [] -> st' = st).
Proof.
  revert st b n. induction es as [| e es IH]; intros st b n Hk Hnd Hp.
  { exists st. simpl. rewrite Nat.add_0_r. split; [done |]. split; [done |]. split; [lia |].
    split; [| done]. intros e. split; [intros ?; split; [done | set_solver] | by intros [? _]]. }
  apply Forall_cons in Hp as [He Hp]. simpl in Hnd. apply NoDup_cons in Hnd as [Hni Hnd].
  cbn [dispatch_entries accepted].
  unfold bind at 1, try_catch, relay_dispatch at 1, zoom, bind at 1. cbn -[OutboxMemory.markPublished].
  destruct (dispatch (ob_event e) b) as [[[] | err] b1]; cbn -[OutboxMemory.markPublished].
  - destruct (markPublished_one now e st Hk He) as (st1 & Hm & Hk1 & Hl1 & Hp1).
    unfold bind, zoom. cbn -[OutboxMemory.markPublished]. rewrite Hm. simpl.
    assert (Hp' : Forall (fun e => e ∈ pending st1) es).
    { rewrite Forall_forall in *. intros x Hx. apply Hp1. split; [by apply Hp |].
      intros E. apply Hni. rewrite <- E. apply list_elem_of_fmap. by exists x. }
    destruct (IH st1 b1 (S n) Hk1 Hnd Hp') as (st' & Hk' & Hrun & Hlen & Hpend & Hsame).
    exists st'. split; [done |]. rewrite Hrun. destruct (accepted es b1) as [oks b2]. simpl in *.
    split; [by rewrite Nat.add_succ_r |]. split; [lia |]. split; [| done].
    intros x. rewrite Hpend, Hp1, not_elem_of_cons. tauto.
  - destruct (IH st b1 n Hk Hnd Hp) as (st' & Hk' & Hrun & Hlen & Hpend & Hsame).
    exists st'. split; [done |]. rewrite Hrun. by destruct (accepted es b1) as [oks b2].
Qed.

(** The batch that a poll of [st] works on. *)
Definition batch (st : OutboxMemory.store) : list OutboxEntry :=
  take (or_default optBatchSize 100%nat) (OutboxMemory.sort_by_createdAt (pending st)).

Lemma batch_elem st e : e ∈ batch st -> e ∈ pending st.
Proof.
  unfold batch. intros H%elem_of_take. destruct H as (i & H & _).
  apply list_elem_of_lookup_2 in H. by rewrite sort_perm in H.
Qed.

Lemma pending_NoDup st : keyed st -> NoDup (map ob_id (pending st)).
Proof.
  intros [Hwf Hk]. unfold pending, mvalues. revert Hwf Hk. unfold wf, mkeys.
  induction st as [| [k e] st IH]; intros Hwf Hk; simpl in *; [constructor |].
  apply NoDup_cons in Hwf as [Hni Hwf].
  assert (Hke : ob_id e = k) by (apply Hk; by rewrite String.eqb_refl).
  assert (Hk' : forall k' e', mget k' st = Some e' -> ob_id e' = k').
  { intros k' e' Hm. apply Hk. destruct (String.eqb_spec k' k) as [-> |]; [| done].
    exfalso. apply Hni. apply list_elem_of_fmap. exists (k, e'). split; [done |].
    by apply mget_Some_elem. }
  specialize (IH Hwf Hk'). destruct (unpublished e); [| done]. simpl. constructor; [| done].
  rewrite Hke. intros Hin. apply Hni.
  apply list_elem_of_fmap in Hin as (e' & Heq & Hin%list_elem_of_In%List.filter_In).
  destruct Hin as [([k' e''] & <- & Hin)%in_map_iff _]. simpl in *.
  apply list_elem_of_In in Hin as Hin'. apply (elem_mget _ _ _ Hwf), Hk' in Hin'.
  apply list_elem_of_fmap. exists (k', e''). split; [simpl; congruence | by apply list_elem_of_In].
Qed.

Lemma batch_NoDup st : keyed st -> NoDup (map ob_id (batch st)).
Proof.
  intros H%pending_NoDup. unfold batch.
  rewrite <- (sort_perm (pending st)) in H. rewrite <- firstn_map.
  eapply sublist_NoDup; [exact H | apply sublist_take].
Qed.

Lemma processOnce_spec r st b :
  keyed st -> rl_processing r = false ->
  exists st', keyed st' /\
    relay_processOnce (r, st, b)
    = (Ok (length (fst (accepted (batch st) b))), (r, st', snd (accepted (batch st) b))) /\
    length (pending st) = (length (pending st') + length (fst (accepted (batch st) b)))%nat /\
    (forall e, e ∈ pending st' <->
       e ∈ pending st /\ ob_id e ∉ map ob_id (fst (accepted (batch st) b))) /\
    (fst (accepted (batch st) b) = [] -> st' = st).
Proof.
  intros Hk Hr. unfold relay_processOnce, processOnce. unfold bind at 1, gets. simpl. rewrite Hr.
  set (r1 := {| rl_timer := rl_timer r; rl_processing := true; rl_drained := rl_drained r |}).
  destruct (dispatch_entries_spec (batch st) r1 st b 0 Hk (batch_NoDup st Hk)) as (st' & Hk' & Hrun & Hlen & Hp & Hsame).
  { apply Forall_forall. apply batch_elem. }
  exists st'. split; [done |]. split; [| by split].
  unfold bind at 1, set_processing at 1, zoom, modify. simpl. fold r1.
  unfold try_finally, try_catch, bind at 1, zoom, OutboxMemory.loadUnpublished, gets. simpl.
  assert (Hlast : forall x : OutboxMemory.store, ({| rl_timer := rl_timer r1; rl_processing := false; rl_drained := rl_drained r1 |}, x) = (r, x)).
  { intros x. f_equal. unfold r1. simpl. rewrite <- Hr. by destruct r. }
  fold (pending st). fold (batch st).
  destruct (length (batch st) =? 0)%nat eqn:E.
  - apply Nat.eqb_eq in E. destruct (batch st); [| done]. simpl in *.
    injection Hrun as <-. unfold ret. simpl. by rewrite Hlast.
  - rewrite Hrun. simpl. by rewrite Hlast.
Qed.

(** A turn that dispatches nothing leaves the store as it is. *)
Lemma drain_loop_spec fuel r st b :
  keyed st -> rl_processing r = false -> (length (pending st) < fuel)%nat ->
  exists st' b1, keyed st' /\
    drain_loop relay_outbox relay_dispatch relay_lens optBatchSize fuel (r, st, b)
    = (Ok (Some tt), (r, st', snd (accepted (batch st') b1))) /\
    fst (accepted (batch st') b1) = [] /\
    (forall e, e ∈ pending st' -> e ∈ pending st).
Proof.
  revert st b. induction fuel as [| fuel IH]; intros st b Hk Hr Hf; [lia |].
  destruct (processOnce_spec r st b Hk Hr) as (st1 & Hk1 & Hrun & Hlen & Hp & Hsame).
  cbn [drain_loop]. unfold bind. unfold relay_processOnce in Hrun. rewrite Hrun.
  destruct (fst (accepted (batch st) b)) as [| e oks] eqn:E; simpl in *.
  - exists st, b. rewrite Hsame by done. rewrite E. done.
  - destruct (IH st1 (snd (accepted (batch st) b)) Hk1 Hr ltac:(lia)) as (st' & b1 & Hk' & Hrun' & Hacc & Hp').
    exists st', b1. split; [done |]. split; [exact Hrun' |]. split; [done |].
    intros x Hx. by apply Hp, Hp'.
Qed.
End relay_run.

(** ** Properties *)

(** [loadUnpublished] returns the oldest pending entries: at most [batchSize]
    of them, all unpublished, by increasing creation time and, within an instant,
    in insertion order; what it leaves out is no older than what it returns. *)
Theorem load_unpublished_oldest (st : OutboxMemory.store) (batchSize : nat) :
  exists sorted,
    OutboxMemory.loadUnpublished batchSize st = (Ok (take batchSize sorted), st) /\
    sorted ≡ₚ pending st /\ StronglySorted older sorted /\
    (forall t, List.filter (fun e => ob_createdAt e =? t)%Z sorted
               = List.filter (fun e => ob_createdAt e =? t)%Z (pending st)) /\
    (forall a b, a ∈ take batchSize sorted -> b ∈ drop batchSize sorted -> older a b).
Proof.
  exists (OutboxMemory.sort_by_createdAt (pending st)). split; [done |].
  split; [apply sort_perm |]. split; [apply sort_sorted |]. split; [apply sort_stable |].
  pose proof (sort_sorted (pending st)) as Hs. revert Hs.
  generalize (OutboxMemory.sort_by_createdAt (pending st)) as l. clear st.
  induction batchSize as [| n IH]; intros [| x l] Hs a b; simpl; try set_solver.
  apply StronglySorted_inv in Hs as [Hs Hall]. rewrite Forall_forall in Hall.
  intros [-> | Ha]%elem_of_cons Hb; [| by apply (IH l)].
  apply Hall. rewrite <- (take_drop n l). apply elem_of_app. by right.
Qed.

(** One poll of the relay dispatches the batch oldest first, each entry once,
    goes on past the entries that the bus refuses, and marks as published exactly
    the entries the bus accepted: the others stay pending for the next poll, and
    nothing else of the outbox becomes published or pending. *)
Theorem relay_poll {B} (now : Z) (dispatch : event -> M B unit) (optBatchSize : option nat)
    (r : RelayState) (st : OutboxMemory.store) (b : B) :
  keyed st -> rl_processing r = false ->
  let oks := accepted dispatch (batch optBatchSize st) b in
  exists st',
    relay_processOnce now dispatch optBatchSize (r, st, b) = (Ok (length (fst oks)), (r, st', snd oks)) /\
    keyed st' /\
    forall e, e ∈ pending st' <-> e ∈ pending st /\ ob_id e ∉ map ob_id (fst oks).
Proof.
  intros Hk Hr oks.
  destruct (processOnce_spec now dispatch optBatchSize r st b Hk Hr) as (st' & Hk' & Hrun & _ & Hp & _).
  by exists st'.
Qed.

Definition sample_entry (i : string) (at_ : Z) : OutboxEntry :=
  {| ob_id := i; ob_event := {| ev_name := i; ev_payload := VNull; ev_metadata := None |};
     ob_aggregateName := None; ob_aggregateId := None; ob_createdAt := at_; ob_publishedAt := None |}.

Definition sample_outbox : OutboxMemory.store :=
  [("o1", sample_entry "o1" 5); ("o2", sample_entry "o2" 3)]%string.

(** A bus that records the names it is given and refuses ["o1"]. *)
Definition picky_bus (e : event) : M (list string) unit :=
  fun log => (if String.eqb (ev_name e) "o1" then Err (PlainError "down") else Ok tt, log ++ [ev_name e]).

Lemma sample_outbox_keyed : keyed sample_outbox.
Proof.
  split; [unfold wf; simpl; repeat constructor; set_solver |].
  intros k e. simpl. destruct (String.eqb_spec k "o1") as [-> |]; [by intros [= <-] |].
  destruct (String.eqb_spec k "o2") as [-> |]; [by intros [= <-] | done].
Qed.

Lemma relay_poll_witness :
  exists st', relay_processOnce 9 picky_bus None (new_relay, sample_outbox, [])
              = (Ok 1%nat, (new_relay, st', ["o2"; "o1"]%string)).
Proof.
  destruct (relay_poll 9 picky_bus None new_relay sample_outbox [] sample_outbox_keyed eq_refl)
    as (st' & H & _). exists st'. exact H.
Defined.

(** [drain] terminates, within as many polls as there are pending entries plus
    one, when dispatching adds nothing to the outbox: it returns after a poll in
    which the bus accepted nothing, and the entries still pending were pending at
    the start.  If the bus accepts everything and batches are not empty, the
    outbox is empty of pending entries; a second [drain] does nothing. *)
Theorem relay_drain_terminates {B} (now : Z) (dispatch : event -> M B unit) (optBatchSize : option nat)
    (r : RelayState) (st : OutboxMemory.store) (b : B) (fuel : nat) :
  keyed st -> rl_processing r = false -> rl_drained r = false -> (length (pending st) < fuel)%nat ->
  exists st' b1,
    let oks := accepted dispatch (batch optBatchSize st') b1 in
    let r' := {| rl_timer := false; rl_processing := false; rl_drained := true |} in
    relay_drain now dispatch optBatchSize fuel (r, st, b) = (Ok (Some tt), (r', st', snd oks)) /\
    fst oks = [] /\ (forall e, e ∈ pending st' -> e ∈ pending st) /\
    ((forall e b, fst (dispatch e b) = Ok tt) -> or_default optBatchSize 100%nat <> 0%nat -> pending st' = []) /\
    forall fuel' b', relay_drain now dispatch optBatchSize fuel' (r', st', b') = (Ok (Some tt), (r', st', b')).
Proof.
  intros Hk Hr Hd Hf.
  set (r' := {| rl_timer := false; rl_processing := false; rl_drained := true |}).
  destruct (drain_loop_spec now dispatch optBatchSize fuel r' st b Hk eq_refl Hf)
    as (st' & b1 & Hk' & Hrun & Hnone & Hsub).
  exists st', b1. simpl. fold r'. split; [| split; [done | split; [done | split; [| done]]]].
  - unfold relay_drain, drain, bind at 1, gets. simpl. rewrite Hd.
    unfold bind at 1, set_drained, zoom, modify. simpl. rewrite Hr.
    unfold bind at 1, stop, bind at 1, gets. simpl.
    destruct (rl_timer r); unfold set_timer, zoom, modify, ret; simpl; exact Hrun.
  - intros Hall Hn. revert Hnone. unfold batch.
    destruct (pending st') as [| e l] eqn:E; [done |].
    pose proof (sort_perm (e :: l)) as Hperm.
    destruct (OutboxMemory.sort_by_createdAt (e :: l)) as [| x xs];
      [by apply Permutation_nil_cons in Hperm |].
    destruct (or_default optBatchSize 100%nat) as [| n]; [done |]. simpl.
    pose proof (Hall (ob_event x) b1) as Hx. destruct (dispatch (ob_event x) b1) as [rx b2]. simpl in Hx.
    subst rx. destruct (accepted dispatch (take n xs) b2). done.
Qed.

Lemma relay_drain_terminates_witness :
  exists st' b1,
    relay_drain 9 picky_bus None 3 (new_relay, sample_outbox, [])
    = (Ok (Some tt), ({| rl_timer := false; rl_processing := false; rl_drained := true |}, st',
                      snd (accepted picky_bus (batch None st') b1))).
Proof.
  destruct (relay_drain_terminates 9 picky_bus None new_relay sample_outbox [] 3 sample_outbox_keyed
              eq_refl eq_refl) as (st' & b1 & H & _); [apply Nat.ltb_lt; reflexivity |].
  by exists st', b1.
Defined.
