(* ===== verification/UnitOfWork.v ===== *)
(** Units of work: the in-memory class ([implementations/in-memory-unit-of-work.ts]),
    the three transactional classes ([adapters/prisma/src/unit-of-work.ts],
    [adapters/typeorm/src/unit-of-work.ts], [adapters/drizzle/src/unit-of-work.ts])
    and the completion hooks ([engine/src/uow-completion-hooks.ts]).

    All classes have the same fields and the same [enlist], [deferPublish],
    [rollback] and [assertNotCompleted]; they differ in how [commit] runs the
    enlisted operations, which is the argument [run] of [commit].  An operation
    is a closure over the world [W]; it receives the value of [uow.context] at
    the time it runs.  The weak map that holds the completion hooks is keyed by
    the unit of work: its entry is kept with it ([None]: no entry). *)
From S2P Require Import Prelude CoreTypes.

Section classes.
Context {W Tx : Type}.

Definition operation : Type := option Tx -> M W unit.

Record CompletionHooks : Type := {
  hk_onCommitted : list (M W unit);
  hk_onSettled : list (M W unit)
}.

Record UnitOfWork : Type := {
  uw_operations : list operation;
  uw_pendingEvents : list event;
  uw_completed : bool;
  uw_hooks : option CompletionHooks
}.

(** [unitOfWorkFactory()] *)
Definition new_uow : UnitOfWork :=
  {| uw_operations := []; uw_pendingEvents := []; uw_completed := false; uw_hooks := None |}.

Definition already_completed : js_error := PlainError "UnitOfWork already completed".

Definition assertNotCompleted : M UnitOfWork unit :=
  u <- get ;; if uw_completed u then throw already_completed else ret tt.

Definition enlist (op : operation) : M UnitOfWork unit :=
  assertNotCompleted ;;;
  modify (fun u => {| uw_operations := uw_operations u ++ [op];
                      uw_pendingEvents := uw_pendingEvents u;
                      uw_completed := uw_completed u; uw_hooks := uw_hooks u |}).

Definition deferPublish (events : list event) : M UnitOfWork unit :=
  assertNotCompleted ;;;
  modify (fun u => {| uw_operations := uw_operations u;
                      uw_pendingEvents := uw_pendingEvents u ++ events;
                      uw_completed := uw_completed u; uw_hooks := uw_hooks u |}).

Definition set_completed : M UnitOfWork unit :=
  modify (fun u => {| uw_operations := uw_operations u; uw_pendingEvents := uw_pendingEvents u;
                      uw_completed := true; uw_hooks := uw_hooks u |}).

Definition rollback : M UnitOfWork unit :=
  assertNotCompleted ;;;
  (set_completed ;;;
   modify (fun u => {| uw_operations := []; uw_pendingEvents := [];
                       uw_completed := uw_completed u; uw_hooks := uw_hooks u |})).

(** A unit of work and the world its operations act on. *)
Definition uow_of : lens (UnitOfWork * W) UnitOfWork := fst_lens.
Definition world_of : lens (UnitOfWork * W) W := snd_lens.

Definition commit (run : list operation -> M W unit) : M (UnitOfWork * W) (list event) :=
  zoom uow_of assertNotCompleted ;;;
  (zoom uow_of set_completed ;;;
   (u <- gets fst ;;
    (zoom world_of (run (uw_operations u)) ;;;
     ret (uw_pendingEvents u)))).

(** *** How [commit] runs the operations *)

(** [InMemoryUnitOfWork]: [context] is always [undefined]. *)
Definition run_in_memory (operations : list operation) : M W unit :=
  for_each operations (fun op => op None).

(** [PrismaUnitOfWork], [TypeORMUnitOfWork] and [DrizzleUnitOfWork] on an
    asynchronous driver ([commitWithCallback]): the database's [transaction] is
    given a callback that runs the operations on the transaction handle. *)
Definition run_in_transaction (transaction : (Tx -> M W unit) -> M W unit)
    (operations : list operation) : M W unit :=
  transaction (fun tx => for_each operations (fun op => op (Some tx))).

(** [DrizzleUnitOfWork] on a synchronous SQLite driver ([commitWithSqlStatements]),
    with the effects of the three SQL statements. *)
Definition run_sql_statements (BEGIN COMMIT ROLLBACK : M W unit) (db : Tx)
    (operations : list operation) : M W unit :=
  BEGIN ;;;
  try_catch
    (for_each operations (fun op => op (Some db)) ;;; COMMIT)
    (fun error => swallow ROLLBACK ;;; throw error).

(** *** The classes *)

Definition InMemoryUnitOfWork_commit : M (UnitOfWork * W) (list event) := commit run_in_memory.
Definition PrismaUnitOfWork_commit (transaction : (Tx -> M W unit) -> M W unit)
  : M (UnitOfWork * W) (list event) := commit (run_in_transaction transaction).
Definition TypeORMUnitOfWork_commit (transaction : (Tx -> M W unit) -> M W unit)
  : M (UnitOfWork * W) (list event) := commit (run_in_transaction transaction).

(** [useSqlStatements] is [isSyncSQLite(db)]. *)
Definition DrizzleUnitOfWork_commit (useSqlStatements : bool)
    (transaction : (Tx -> M W unit) -> M W unit) (BEGIN COMMIT ROLLBACK : M W unit) (db : Tx)
  : M (UnitOfWork * W) (list event) :=
  commit (if useSqlStatements then run_sql_statements BEGIN COMMIT ROLLBACK db
          else run_in_transaction transaction).

(** *** Completion hooks *)

Definition getOrCreate (u : UnitOfWork) : CompletionHooks :=
  or_default (uw_hooks u) {| hk_onCommitted := []; hk_onSettled := [] |}.

Definition set_hooks (h : option CompletionHooks) (u : UnitOfWork) : UnitOfWork :=
  {| uw_operations := uw_operations u; uw_pendingEvents := uw_pendingEvents u;
     uw_completed := uw_completed u; uw_hooks := h |}.

Definition onUowCommitted (hook : M W unit) : M UnitOfWork unit :=
  modify (fun u => let hooks := getOrCreate u in
    set_hooks (Some {| hk_onCommitted := hk_onCommitted hooks ++ [hook];
                       hk_onSettled := hk_onSettled hooks |}) u).

Definition onUowSettled (hook : M W unit) : M UnitOfWork unit :=
  modify (fun u => let hooks := getOrCreate u in
    set_hooks (Some {| hk_onCommitted := hk_onCommitted hooks;
                       hk_onSettled := hk_onSettled hooks ++ [hook] |}) u).

Definition runUowCompletionHooks (committed : bool) : M (UnitOfWork * W) unit :=
  u <- gets fst ;;
  match uw_hooks u with
  | None => ret tt
  | Some hooks =>
      zoom uow_of (modify (set_hooks None)) ;;;
      ((if committed then zoom world_of (for_each (hk_onCommitted hooks) (fun hook => hook)) else ret tt) ;;;
       zoom world_of (for_each (hk_onSettled hooks) (fun hook => hook)))
  end.

(** *** What the database promises

    [durable w] is the part of the world that the database keeps. *)
Class TransactionSpec {D} (transaction : (Tx -> M W unit) -> M W unit) (durable : W -> D) : Prop := {
  tx_spec : forall body w, exists tx,
    wp (transaction body)
       (fun _ w' => body tx w = (Ok tt, w'))
       (fun _ w' => durable w' = durable w) w
}.

Class SqlSpec {D} (BEGIN COMMIT ROLLBACK : M W unit) (durable committed : W -> D) : Prop := {
  (** outside a transaction the committed content is what queries see *)
  sql_begin : forall w, wp BEGIN (fun _ w' => committed w' = durable w)
                          (fun _ w' => durable w' = durable w) w;
  sql_commit : forall w, wp COMMIT (fun _ w' => durable w' = durable w)
                           (fun _ w' => committed w' = committed w) w;
  sql_rollback : forall w, wp ROLLBACK (fun _ w' => durable w' = committed w)
                             (fun _ w' => durable w' = committed w) w
}.

(** *** Calls that a unit of work receives before it completes *)
Inductive call : Type := Enlist (op : operation) | Defer (events : list event).

Definition do_call (c : call) : M UnitOfWork unit :=
  match c with Enlist op => enlist op | Defer events => deferPublish events end.

Definition ops_of (cs : list call) : list operation :=
  flat_map (fun c => match c with Enlist op => [op] | Defer _ => [] end) cs.
Definition events_of (cs : list call) : list event :=
  flat_map (fun c => match c with Enlist _ => [] | Defer es => es end) cs.

(** ** Facts *)

Lemma calls_spec cs u :
  uw_completed u = false ->
  for_each cs do_call u
  = (Ok tt, {| uw_operations := uw_operations u ++ ops_of cs;
               uw_pendingEvents := uw_pendingEvents u ++ events_of cs;
               uw_completed := false; uw_hooks := uw_hooks u |}).
Proof.
  revert u. induction cs as [| c cs IH]; intros u Hu; simpl.
  - unfold ret. rewrite !app_nil_r, <- Hu. by destruct u.
  - unfold bind at 1. destruct c; simpl; unfold enlist, deferPublish, assertNotCompleted, bind, get, modify;
      rewrite Hu; simpl; rewrite IH by done; simpl; by rewrite <- !app_assoc.
Qed.

Lemma commit_spec run u w :
  uw_completed u = false ->
  commit run (u, w)
  = let done := {| uw_operations := uw_operations u; uw_pendingEvents := uw_pendingEvents u;
                   uw_completed := true; uw_hooks := uw_hooks u |} in
    match run (uw_operations u) w with
    | (Ok _, w') => (Ok (uw_pendingEvents u), (done, w'))
    | (Err e, w') => (Err e, (done, w'))
    end.
Proof.
  intros Hu. unfold commit, zoom, assertNotCompleted, set_completed, bind, get, gets, modify, ret. simpl.
  rewrite Hu. simpl. by destruct (run _ w) as [[[] | e] w'].
Qed.

Lemma commit_completed run u w :
  uw_completed u = true -> commit run (u, w) = (Err already_completed, (u, w)).
Proof.
  intros Hu. unfold commit, zoom, assertNotCompleted, bind, get, throw. simpl. rewrite Hu. done.
Qed.

Lemma rollback_spec u :
  uw_completed u = false ->
  rollback u = (Ok tt, {| uw_operations := []; uw_pendingEvents := []; uw_completed := true;
                          uw_hooks := uw_hooks u |}).
Proof.
  intros Hu. unfold rollback, assertNotCompleted, set_completed, bind, get, modify. by rewrite Hu.
Qed.

Lemma rollback_completed u : uw_completed u = true -> rollback u = (Err already_completed, u).
Proof. intros Hu. unfold rollback, assertNotCompleted, bind, get, throw. by rewrite Hu. Qed.

(** Running a list of operations stops at the first one that fails. *)
Lemma for_each_prefix {A S} (l : list A) (f : A -> M S unit) s :
  match for_each l f s with
  | (Ok _, s') => True
  | (Err e, s') => exists l1 x l2 s1, l = l1 ++ x :: l2 /\
      for_each l1 f s = (Ok tt, s1) /\ f x s1 = (Err e, s')
  end.
Proof.
  revert s. induction l as [| x l IH]; intros s; simpl; [done |]. unfold bind.
  destruct (f x s) as [[[] | e] s1] eqn:E.
  - specialize (IH s1). destruct (for_each l f s1) as [[[] | e] s2]; [done |].
    destruct IH as (l1 & y & l2 & s3 & -> & H1 & H2). exists (x :: l1), y, l2, s3.
    split; [done |]. split; [| done]. simpl. unfold bind. by rewrite E.
  - by exists [], x, l, s.
Qed.

(** The hooks that a settlement runs, in order. *)
Definition due_hooks (u : UnitOfWork) (committed : bool) : list (M W unit) :=
  (if committed then hk_onCommitted (getOrCreate u) else []) ++ hk_onSettled (getOrCreate u).

Lemma run_completion_hooks u committed w :
  runUowCompletionHooks committed (u, w)
  = let '(r, w') := for_each (due_hooks u committed) (fun hook => hook) w in (r, (set_hooks None u, w')).
Proof.
  unfold runUowCompletionHooks, due_hooks, getOrCreate. unfold bind at 1. unfold gets at 1. simpl.
  destruct u as [ops evs done [[cs ss] |]]; simpl.
  - rewrite for_each_app. unfold bind, zoom, modify, ret, gets. simpl. destruct committed; simpl.
    + destruct (for_each cs _ w) as [[[] | e] w1]; simpl; [| reflexivity].
      by destruct (for_each ss _ w1) as [[[] | e] w2].
    + by destruct (for_each ss _ w) as [[[] | e] w2].
  - by destruct committed.
Qed.

End classes.
Arguments UnitOfWork : clear implicits.
Arguments CompletionHooks : clear implicits.
Arguments operation : clear implicits.
Arguments call : clear implicits.

(** ** Properties *)

(** A unit of work is single-use: once [commit] or [rollback] has been called,
    whatever its outcome, every further [enlist], [deferPublish], [commit] and
    [rollback] throws ["UnitOfWork already completed"] and changes neither the
    unit of work nor the world. *)
Theorem uow_single_use {W Tx} (run : list (operation W Tx) -> M W unit) (u u1 : UnitOfWork W Tx) (w w1 : W) :
  (exists r, commit run (u, w) = (r, (u1, w1))) \/ (exists r, rollback u = (r, u1) /\ w1 = w) ->
  (forall op, enlist op u1 = (Err already_completed, u1)) /\
  (forall es, deferPublish es u1 = (Err already_completed, u1)) /\
  (forall run', commit run' (u1, w1) = (Err already_completed, (u1, w1))) /\
  rollback u1 = (Err already_completed, u1).
Proof.
  intros H. assert (Hc : uw_completed u1 = true).
  { destruct H as [[r H] | (r & H & _)]; destruct (uw_completed u) eqn:E.
    - rewrite commit_completed in H by done. by injection H as _ <- _.
    - rewrite commit_spec in H by done. cbv zeta in H.
      destruct (run (uw_operations u) w) as [[] ?]; by injection H as _ <- _.
    - rewrite rollback_completed in H by done. by injection H as _ <-.
    - rewrite rollback_spec in H by done. by injection H as _ <-. }
  repeat split; intros; unfold enlist, deferPublish, assertNotCompleted, bind, get, throw;
    rewrite ?commit_completed, ?rollback_completed, ?Hc; done.
Qed.

Lemma uow_single_use_witness :
  deferPublish [] (snd (rollback (new_uow (W := nat) (Tx := unit))))
  = (Err already_completed, snd (rollback new_uow)).
Proof.
  refine (proj1 (proj2 (uow_single_use (W := nat) (Tx := unit) run_in_memory new_uow
    (snd (rollback new_uow)) 0%nat 0%nat _)) []).
  right. exists (Ok tt). split; reflexivity.
Defined.

(** Committing an in-memory unit of work runs the enlisted operations in the
    order of enlistment and returns the deferred events in the order of deferral.
    There is no rollback: when an operation fails, the commit fails with its
    error, the operations before it have taken effect and the ones after it have
    not run. *)
Theorem in_memory_commit {W Tx} (cs : list (call W Tx)) (w : W) :
  let u := snd (for_each cs do_call new_uow) in
  match InMemoryUnitOfWork_commit (u, w) with
  | (Ok events, (_, w')) =>
      events = events_of cs /\ for_each (ops_of cs) (fun op => op None) w = (Ok tt, w')
  | (Err e, (_, w')) => exists before op after w1,
      ops_of cs = before ++ op :: after /\
      for_each before (fun op => op None) w = (Ok tt, w1) /\ op None w1 = (Err e, w')
  end.
Proof.
  cbv zeta. rewrite calls_spec by done. cbn [snd]. unfold InMemoryUnitOfWork_commit.
  rewrite commit_spec by done. simpl. unfold run_in_memory. pose proof (for_each_prefix (ops_of cs) (fun op => op None) w) as H.
  destruct (for_each (ops_of cs) (fun op => op None) w) as [[[] | e] w']; done.
Qed.

(** A transactional commit is all or nothing: for the Prisma and TypeORM units of work,
    and the Drizzle one on an asynchronous driver, if the commit fails, the content of the
    database is what it was before; if it succeeds, every operation has run, in order, on
    the handle of one transaction, and the events are those deferred.  Assumes that the
    database's [transaction] call undoes the callback's writes when it rejects; the path
    that issues the statements itself is in [SyncSqlite.v]. *)
Theorem transactional_commit_atomic {W Tx D} (transaction : (Tx -> M W unit) -> M W unit)
    (durable : W -> D) `{!TransactionSpec transaction durable} (BEGIN COMMIT ROLLBACK : M W unit) (db : Tx)
    (commit_ : M (UnitOfWork W Tx * W) (list event)) (cs : list (call W Tx)) (w : W) :
  In commit_ [PrismaUnitOfWork_commit transaction; TypeORMUnitOfWork_commit transaction;
              DrizzleUnitOfWork_commit false transaction BEGIN COMMIT ROLLBACK db] ->
  let u := snd (for_each cs do_call new_uow) in
  match commit_ (u, w) with
  | (Ok events, (_, w')) => events = events_of cs /\
      exists tx, for_each (ops_of cs) (fun op => op (Some tx)) w = (Ok tt, w')
  | (Err _, (_, w')) => durable w' = durable w
  end.
Proof.
  intros Hin. assert (commit_ = commit (run_in_transaction transaction)) as ->
    by (destruct Hin as [<- | [<- | [<- | []]]]; reflexivity).
  cbv zeta. rewrite calls_spec by done. cbn [snd]. rewrite commit_spec by done. simpl.
  unfold run_in_transaction.
  destruct (tx_spec (fun tx => for_each (ops_of cs) (fun op => op (Some tx))) w) as [tx Htx].
  unfold wp in Htx. destruct (transaction _ w) as [[[] | e] w']; [| done].
  split; [done |]. by exists tx.
Qed.

(** A database that keeps a copy to go back to. *)
Definition copying_transaction {W} (body : unit -> M W unit) : M W unit :=
  fun w => match body tt w with (Ok _, w') => (Ok tt, w') | (Err e, _) => (Err e, w) end.

#[export] Instance copying_transaction_spec {W} : TransactionSpec (@copying_transaction W) (fun w => w).
Proof.
  split. intros body w. exists tt. unfold wp, copying_transaction.
  by destruct (body tt w) as [[[] | e] w'].
Qed.

Definition push (n : nat) : operation (list nat) unit := fun _ => modify (fun l => l ++ [n]).
Definition boom : operation (list nat) unit := fun _ => throw (PlainError "boom").

Lemma transactional_commit_atomic_witness :
  match TypeORMUnitOfWork_commit copying_transaction
          (snd (for_each [Enlist (push 1); Enlist boom] do_call new_uow), []) with
  | (Ok _, _) => False
  | (Err _, (_, w')) => w' = []
  end.
Proof.
  exact (transactional_commit_atomic copying_transaction (fun w => w) (ret tt) (ret tt) (ret tt) tt _
    [Enlist (push 1); Enlist boom] [] (or_intror (or_introl eq_refl))).
Defined.

(** The explicit statements of the Drizzle unit of work on a synchronous SQLite driver. *)
Section sql_statements.
Context {W Tx D : Type} (BEGIN COMMIT ROLLBACK : M W unit) (durable committed : W -> D)
  `{!SqlSpec BEGIN COMMIT ROLLBACK durable committed} (db : Tx) (ops : list (operation W Tx)).
Hypothesis Hops : forall op w r w', op ∈ ops -> op (Some db) w = (r, w') -> committed w' = committed w.

Lemma operations_committed w : committed (snd (for_each ops (fun op => op (Some db)) w)) = committed w.
Proof.
  revert w Hops. induction ops as [| op l IH]; intros w Hl; simpl; [done |].
  unfold bind. destruct (op (Some db) w) as [[[] | e] w1] eqn:E; simpl.
  - rewrite IH; [| intros; eapply Hl; [by right | done]]. by eapply Hl; [left | exact E].
  - by eapply Hl; [left | exact E].
Qed.

Lemma rollback_swallowed w w0 : committed w = durable w0 -> durable (snd (swallow ROLLBACK w)) = durable w0.
Proof.
  intros Hw. rewrite swallow_run. pose proof (sql_rollback w) as Hr. unfold wp in Hr.
  destruct (ROLLBACK w) as [[[] | e] w1]; simpl; congruence.
Qed.

Lemma sql_statements_spec w :
  match run_sql_statements BEGIN COMMIT ROLLBACK db ops w with
  | (Ok _, w') => exists w0 w1, BEGIN w = (Ok tt, w0) /\
      for_each ops (fun op => op (Some db)) w0 = (Ok tt, w1) /\ durable w' = durable w1
  | (Err _, w') => durable w' = durable w
  end.
Proof.
  unfold run_sql_statements, try_catch, bind. pose proof (sql_begin w) as Hb. unfold wp in Hb.
  destruct (BEGIN w) as [[[] | e] w0]; [| done]. pose proof (operations_committed w0) as Hloop.
  destruct (for_each ops (fun op => op (Some db)) w0) as [[[] | e] w1] eqn:E; simpl in Hloop.
  - pose proof (sql_commit w1) as Hc. unfold wp in Hc. destruct (COMMIT w1) as [[[] | e] w2]; [by exists w0, w1 |].
    pose proof (rollback_swallowed w2 w ltac:(congruence)) as Hr. rewrite swallow_run in *. exact Hr.
  - pose proof (rollback_swallowed w1 w ltac:(congruence)) as Hr. rewrite swallow_run in *. exact Hr.
Qed.
End sql_statements.

(** A SQLite connection: the content that queries see, and the content to go back to. *)
Definition conn : Type := (list nat * list nat)%type.
Definition sql_BEGIN : M conn unit := modify (fun c => (fst c, fst c)).
Definition sql_COMMIT : M conn unit := modify (fun c => (fst c, fst c)).
Definition sql_ROLLBACK : M conn unit := modify (fun c => (snd c, snd c)).

#[export] Instance sqlite_spec : SqlSpec sql_BEGIN sql_COMMIT sql_ROLLBACK fst snd.
Proof. by split. Qed.

Definition insert_row (n : nat) : operation conn unit := fun _ => modify (fun c => (fst c ++ [n], snd c)).
Definition failing_row : operation conn unit := fun _ => throw (PlainError "constraint").

(** Completion hooks run once: settling a unit of work runs the [onCommitted]
    hooks in order only if it committed, then the [onSettled] hooks in order, and
    forgets them, so that settling it again does nothing; a hook that fails stops
    the ones after it. *)
Theorem completion_hooks_once {W Tx} (u : UnitOfWork W Tx) (w : W) (committed again : bool) :
  let '(r, (u', w')) := runUowCompletionHooks committed (u, w) in
  (r, w') = for_each ((if committed then hk_onCommitted (getOrCreate u) else [])
                      ++ hk_onSettled (getOrCreate u)) (fun hook => hook) w /\
  runUowCompletionHooks again (u', w') = (Ok tt, (u', w')).
Proof.
  rewrite run_completion_hooks. unfold due_hooks.
  destruct (for_each (_ ++ _) (fun hook => hook) w) as [r w']. split; [done |].
  rewrite run_completion_hooks. by destruct again.
Qed.
