(* ===== verification/SyncSqlite.v ===== *)
(** Concurrent commits on one synchronous SQLite connection: [SyncCommitMutex] and
    [commitWithSqlStatements] of [adapters/drizzle/src/unit-of-work.ts].  The units of work
    of one factory share the connection and the mutex.  A commit runs in pieces, between
    which any other commit may run: the call, up to [await previous] of the mutex; [BEGIN],
    when the promise before it in the queue is resolved; every operation; [COMMIT]; and
    [ROLLBACK] after a failure.  The promise that a call puts into [queue] is identified by
    the unit of work that made the call; it is resolved when that commit has settled. *)
From stdpp Require Import list.
From S2P Require Import Prelude CoreTypes UnitOfWork.

(** ** The system *)

Section system.
Context {W Tx : Type} (BEGIN COMMIT ROLLBACK : M W unit) (db : Tx).

Inductive phase : Type :=
  | Enlisting                              (** [commit] has not been called *)
  | Queued (previous : option nat)         (** [await previous] *)
  | Running (todo : list (operation W Tx)) (** after [BEGIN], in the [try] *)
  | Failing (e : js_error)                 (** in the [catch] *)
  | Settled (r : result (list event)).     (** [release()] has been called *)

(** [called]: the calls of the mutex's [run] so far, in order (the code does not keep it). *)
Record sys : Type := { world : W; queue : option nat; phases : list phase; called : list nat }.

Definition start (works : list (UnitOfWork W Tx)) (w : W) : sys :=
  {| world := w; queue := None; phases := replicate (length works) Enlisting; called := [] |}.

(** The promise is resolved; the first [previous] is [Promise.resolve()]. *)
Definition released (previous : option nat) (s : sys) : bool :=
  match previous with
  | None => true
  | Some i => match phases s !! i with Some (Settled _) => true | _ => false end
  end.

Definition goto (i : nat) (p : phase) (w : W) (s : sys) : sys :=
  {| world := w; queue := queue s; phases := <[i := p]> (phases s); called := called s |}.

(** [const previous = this.queue; ... this.queue = new Promise(...)] *)
Definition enqueue (i : nat) (s : sys) : sys :=
  {| world := world s; queue := Some i; phases := <[i := Queued (queue s)]> (phases s); called := called s ++ [i] |}.

(** The next piece of the commit of [u], the unit of work [i]; [None]: it waits, or has settled. *)
Definition piece (u : UnitOfWork W Tx) (i : nat) (p : phase) (s : sys) : option sys :=
  match p with
  | Enlisting => Some (enqueue i s)
  | Queued previous =>
      if released previous s then
        match BEGIN (world s) with
        | (Ok _, w) => Some (goto i (Running (uw_operations u)) w s)
        | (Err e, w) => Some (goto i (Settled (Err e)) w s)
        end
      else None
  | Running (op :: todo) =>
      match op (Some db) (world s) with
      | (Ok _, w) => Some (goto i (Running todo) w s)
      | (Err e, w) => Some (goto i (Failing e) w s)
      end
  | Running [] =>
      match COMMIT (world s) with
      | (Ok _, w) => Some (goto i (Settled (Ok (uw_pendingEvents u))) w s)
      | (Err e, w) => Some (goto i (Failing e) w s)
      end
  | Failing e => Some (goto i (Settled (Err e)) (snd (swallow ROLLBACK (world s))) s)
  | Settled _ => None
  end.

Definition step (works : list (UnitOfWork W Tx)) (i : nat) (s : sys) : option sys :=
  u ← works !! i; p ← phases s !! i; piece u i p s.

(** The steps of the units of work that [schedule] names, in its order. *)
Fixpoint run (works : list (UnitOfWork W Tx)) (schedule : list nat) (s : sys) : option sys :=
  match schedule with
  | [] => Some s
  | i :: schedule' => s' ← step works i s; run works schedule' s'
  end.

(** ** The commits one by one *)

(** The commit of [u] with nothing else running. *)
Definition alone (u : UnitOfWork W Tx) : M W (list event) :=
  fun w => let '(r, (_, w')) := DrizzleUnitOfWork_commit true (fun _ => ret tt) BEGIN COMMIT ROLLBACK db (u, w) in (r, w').

Fixpoint serial (works : list (UnitOfWork W Tx)) (order : list nat) (w : W) : list (nat * result (list event)) * W :=
  match order with
  | [] => ([], w)
  | i :: order' =>
      match works !! i with
      | Some u => let '(r, w1) := alone u w in let '(rs, w2) := serial works order' w1 in ((i, r) :: rs, w2)
      | None => serial works order' w
      end
  end.

(** ** Facts *)

(** What is left of a commit. *)
Definition finish (u : UnitOfWork W Tx) (p : phase) : M W (list event) :=
  match p with
  | Running todo =>
      try_catch (for_each todo (fun op => op (Some db)) ;;; COMMIT)
        (fun e => swallow ROLLBACK ;;; throw e) ;;; ret (uw_pendingEvents u)
  | Failing e => swallow ROLLBACK ;;; throw e
  | Settled r => fun w => (r, w)
  | Enlisting | Queued _ => alone u
  end.

Lemma alone_spec u w : uw_completed u = false ->
  alone u w = (BEGIN ;;; finish u (Running (uw_operations u))) w.
Proof.
  intros Hu. unfold alone, DrizzleUnitOfWork_commit, finish, bind, ret. rewrite commit_spec by done.
  cbv zeta. unfold run_sql_statements, bind. destruct (BEGIN w) as [[[] | e] w1]; [| done].
  by destruct (try_catch _ _ w1) as [[[] | e] w2].
Qed.

(** A step of a commit that has called [run] leaves what is left of it. *)
Lemma piece_finish u i p s s' : uw_completed u = false -> (i < length (phases s))%nat ->
  p <> Enlisting -> piece u i p s = Some s' ->
  exists p', s' = goto i p' (world s') s /\ p' <> Enlisting /\ (forall prev, p' <> Queued prev) /\
    finish u p' (world s') = finish u p (world s).
Proof.
  intros Hu Hi Hp. destruct p as [| prev | [| op todo] | e | r]; cbn [piece]; try done.
  - destruct (released prev s); [| done]. cbn [finish]. rewrite alone_spec by done. unfold bind at 1.
    destruct (BEGIN (world s)) as [[[] | e] w]; intros [= <-]; by eexists.
  - cbn [finish for_each]. unfold bind, try_catch, ret.
    destruct (COMMIT (world s)) as [[[] | e] w]; intros [= <-]; eexists; (split; [reflexivity |]); [done |].
    split; [done | split; [done |]]. cbn [finish goto world]. unfold bind, throw.
    by destruct (swallow ROLLBACK w) as [[[] | ?] ?].
  - cbn [finish for_each]. unfold bind, try_catch, ret.
    destruct (op (Some db) (world s)) as [[[] | e] w]; intros [= <-]; eexists; (split; [reflexivity |]); [done |].
    split; [done | split; [done |]]. cbn [finish goto world]. unfold bind, throw.
    by destruct (swallow ROLLBACK w) as [[[] | ?] ?].
  - intros [= <-]. eexists. split; [reflexivity |]. split; [done | split; [done |]].
    cbn [finish goto world]. unfold bind, throw. by rewrite swallow_run.
Qed.

Lemma serial_snoc works order i u w : works !! i = Some u ->
  serial works (order ++ [i]) w =
    (let '(rs, w1) := serial works order w in let '(r, w2) := alone u w1 in (rs ++ [(i, r)], w2)).
Proof.
  intros Hu. revert w. induction order as [| j order IH]; intros w; cbn [serial app].
  - rewrite Hu. by destruct (alone u w).
  - destruct (works !! j) as [v |]; [| apply IH]. destruct (alone v w) as [r w1]. rewrite IH.
    destruct (serial works order w1) as [rs w2]. by destruct (alone u w2).
Qed.
End system.
Arguments phase : clear implicits.
Arguments sys : clear implicits.

Section serial.
Context {W Tx : Type} (BEGIN COMMIT ROLLBACK : M W unit) (db : Tx) (works : list (UnitOfWork W Tx)) (w : W).
Hypothesis fresh : Forall (fun u => uw_completed u = false) works.

Abbreviation sys := (sys W Tx).
Abbreviation phase := (phase W Tx).
Abbreviation alone := (alone BEGIN COMMIT ROLLBACK db).
Abbreviation finish := (finish BEGIN COMMIT ROLLBACK db).
Abbreviation serial := (serial BEGIN COMMIT ROLLBACK db works).
Abbreviation step := (step BEGIN COMMIT ROLLBACK db works).
Abbreviation run := (run BEGIN COMMIT ROLLBACK db works).

(** The commits that wait: each for the one before it in the queue. *)
Fixpoint chain (phs : list phase) (previous : option nat) (l : list nat) : Prop :=
  match l with
  | [] => True
  | i :: l' => phs !! i = Some (Queued previous) /\ chain phs (Some i) l'
  end.

(** The commit at the head of the queue: it may be running, and nothing that it has not
    called for has happened since the one before it settled. *)
Definition at_head (s : sys) (previous : option nat) (i : nat) (after : W) : Prop :=
  exists u p, works !! i = Some u /\ phases s !! i = Some p /\
    match p with Queued previous' => previous' = previous | Running _ | Failing _ => True | _ => False end /\
    finish u p (world s) = alone u after.

(** The commits have been made one by one, except for the one at the head. *)
Record invariant (s : sys) : Prop := {
  inv_length : length (phases s) = length works;
  inv_called : NoDup (called s) /\ Forall (fun i => (i < length works)%nat) (called s);
  inv_queue : queue s = last (called s);
  inv_enlisting : forall i, (i < length works)%nat -> i ∉ called s -> phases s !! i = Some Enlisting;
  inv_serial : exists settled waiting, called s = settled ++ waiting /\
    let '(outcomes, after) := serial settled w in
    Forall (fun '(i, r) => phases s !! i = Some (Settled r)) outcomes /\
    match waiting with
    | [] => world s = after
    | i :: l => at_head s (last settled) i after /\ chain (phases s) (Some i) l
    end
}.

Lemma chain_other (phs : list phase) i p previous l : i ∉ l -> chain phs previous l -> chain (<[i := p]> phs) previous l.
Proof.
  revert previous. induction l as [| j l IH]; intros previous; [done |].
  intros [Hij Hi]%not_elem_of_cons [Hj Hl]. split; [by rewrite list_lookup_insert_ne | by apply IH].
Qed.

Lemma chain_snoc (phs : list phase) previous l i :
  phs !! i = Some (Queued (or_default (option_map Some (last l)) previous)) -> chain phs previous l ->
  chain phs previous (l ++ [i]).
Proof.
  revert previous. induction l as [| j l IH]; intros previous; [done |]. intros Hi [Hj Hl]. split; [done |].
  apply IH; [| done]. rewrite last_cons in Hi. by destruct (last l).
Qed.

Lemma chain_blocked (phs : list phase) j l i : chain phs (Some j) l -> i ∈ l ->
  exists k, phs !! i = Some (Queued (Some k)) /\ (k = j \/ exists previous, phs !! k = Some (Queued previous)).
Proof.
  revert j. induction l as [| x l IH]; intros j; [intros _ H; by apply not_elem_of_nil in H |].
  intros [Hx Hl] [-> | Hi]%elem_of_cons; [exists j; split; [done | by left] |].
  destruct (IH x Hl Hi) as (k & Hk & [-> | Hq]); exists k || exists x; (split; [done |]); right; [by eexists | done].
Qed.

Lemma serial_outcomes settled c : Forall (fun i => (i < length works)%nat) settled ->
  map fst (fst (serial settled c)) = settled.
Proof.
  intros H. revert c. induction H as [| i l Hi Hl IH]; intros c; [done |]. cbn [SyncSqlite.serial].
  destruct (lookup_lt_is_Some_2 works i Hi) as [u ->]. destruct (alone u c) as [r c1].
  specialize (IH c1). destruct (serial l c1) as [rs c2]. cbn. by rewrite <- IH.
Qed.

(** The phases of the commits that have been called. *)
Lemma invariant_settled (s : sys) settled waiting i : called s = settled ++ waiting ->
  Forall (fun '(i, r) => phases s !! i = Some (Settled r)) (fst (serial settled w)) ->
  Forall (fun i => (i < length works)%nat) (called s) -> i ∈ settled -> exists r, phases s !! i = Some (Settled r).
Proof.
  intros Hc Hout Hlt Hi. rewrite Hc in Hlt. apply Forall_app in Hlt as [Hlt _].
  rewrite <- (serial_outcomes settled w Hlt) in Hi. apply list_elem_of_fmap in Hi as ([j r] & -> & Hin).
  rewrite Forall_forall in Hout. exists r. exact (Hout _ Hin).
Qed.

Lemma start_invariant : invariant (start works w).
Proof.
  split; cbn [start phases called queue world].
  - apply length_replicate.
  - split; [constructor | done].
  - done.
  - intros i Hi _. by apply lookup_replicate_2.
  - by exists [], [].
Qed.

Lemma outcomes_insert i p outcomes (phs : list phase) : i ∉ map fst outcomes ->
  Forall (fun '(j, r) => phs !! j = Some (Settled r)) outcomes ->
  Forall (fun '(j, r) => <[i := p]> phs !! j = Some (Settled r)) outcomes.
Proof.
  intros Hi H. rewrite Forall_forall in *. intros [j r] Hj. rewrite list_lookup_insert_ne; [exact (H _ Hj) |].
  intros ->. apply Hi, list_elem_of_fmap. by exists (j, r).
Qed.

Lemma enqueue_invariant (s : sys) i : invariant s -> (i < length works)%nat -> i ∉ called s -> invariant (enqueue i s).
Proof.
  intros [Hlen [Hnd Hlt] Hq Hen (settled & waiting & Hc & Hser)] Hi Hni. split; cbn [enqueue phases called queue world].
  - by rewrite length_insert.
  - split; [apply NoDup_app; split; [done |]; split; [set_solver | apply NoDup_singleton] | apply Forall_app; split; [done | by constructor]].
  - by rewrite last_snoc.
  - intros k Hk Hnk. rewrite elem_of_app, list_elem_of_singleton in Hnk.
    rewrite list_lookup_insert_ne by (intros ->; tauto). apply Hen; tauto.
  - exists settled, (waiting ++ [i]). rewrite Hc. split; [by rewrite <- app_assoc |].
    assert (Hset : Forall (fun i => (i < length works)%nat) settled) by (rewrite Hc in Hlt; by apply Forall_app in Hlt as [H _]).
    pose proof (serial_outcomes settled w Hset) as Hids. rewrite Hc in Hni.
    destruct (serial settled w) as [outcomes after]. destruct Hser as [Hout Hw]. change (map fst outcomes = settled) in Hids.
    split; [apply outcomes_insert; [rewrite Hids; set_solver | done] |].
    destruct (lookup_lt_is_Some_2 works i Hi) as [u Hu]. destruct waiting as [| j l]; cbn [app].
    + split; [| done]. exists u, (Queued (queue s)). split; [done |].
      split; [apply list_lookup_insert_eq; lia |]. rewrite Hq, Hc, app_nil_r. split; [done |]. cbn. by rewrite Hw.
    + destruct Hw as [(v & p & Hv & Hp & Hact & Hfin) Hchain]. split.
      * exists v, p. split; [done |]. split; [| done]. cbn. rewrite list_lookup_insert_ne; [done | set_solver].
      * apply chain_snoc; [| apply chain_other; [set_solver | done]].
        rewrite list_lookup_insert_eq by lia. rewrite Hq, Hc, last_app_cons, last_cons. by destruct (last l).
Qed.

(** A step of the commit at the head of the queue. *)
Lemma head_invariant (s s' : sys) settled i l : invariant s -> called s = settled ++ i :: l ->
  (let '(outcomes, after) := serial settled w in
   Forall (fun '(j, r) => phases s !! j = Some (Settled r)) outcomes /\
   at_head s (last settled) i after /\ chain (phases s) (Some i) l) ->
  step i s = Some s' -> invariant s'.
Proof.
  intros [Hlen [Hnd Hlt] Hq Hen _] Hc Hser Hstep.
  assert (Hnd' := Hnd). assert (Hlt' := Hlt). rewrite Hc in Hlt', Hnd'.
  apply Forall_app in Hlt' as [Hset [Hi Hl]%Forall_cons]. apply NoDup_app in Hnd' as (_ & Hdis & [Hil Hndl]%NoDup_cons).
  assert (Hids : i ∉ settled) by (intros H; apply (Hdis i H); left).
  rewrite <- (serial_outcomes settled w Hset) in Hids. unfold SyncSqlite.step in Hstep.
  destruct (serial settled w) as [outcomes after] eqn:Es. destruct Hser as (Hout & (u & p & Hu & Hp & Hact & Hfin) & Hchain).
  rewrite Hu, Hp in Hstep. cbn in Hstep. assert (Hfresh : uw_completed u = false)
    by (rewrite Forall_forall in fresh; by apply fresh, (list_elem_of_lookup_2 _ i)).
  destruct (piece_finish BEGIN COMMIT ROLLBACK db u i p s s' Hfresh ltac:(lia)) as (p' & Hs' & Hne & Hnq & Hfin'); [by destruct p | done |].
  rewrite Hfin in Hfin'. apply (outcomes_insert i p') in Hout; [| done]. rewrite Hs'.
  split; cbn [goto phases called queue world]; [by rewrite length_insert | done | done | |].
  { intros k Hk Hnk. rewrite list_lookup_insert_ne; [by apply Hen | intros ->; apply Hnk; rewrite Hc; set_solver]. }
  assert (Hp' : <[i := p']> (phases s) !! i = Some p') by (apply list_lookup_insert_eq; lia).
  apply (chain_other _ i p') in Hchain; [| done].
  assert (Hstay : match p' with Running _ | Failing _ => True | _ => False end ->
    at_head {| world := world s'; queue := queue s; phases := <[i := p']> (phases s); called := called s |} (last settled) i after)
    by (intros Hact'; exists u, p'; split; [done | split; [done | split; [by destruct p' | done]]]).
  destruct p' as [| prev | todo | e | r]; [done | by destruct (Hnq prev) | | |].
  1-2: exists settled, (i :: l); split; [done |]; rewrite Es; split; [done |]; split; [by apply Hstay | done].
  exists (settled ++ [i]), l. split; [by rewrite Hc, <- app_assoc |]. rewrite (serial_snoc _ _ _ _ _ _ _ u) by done.
  rewrite Es, <- Hfin'. cbn [SyncSqlite.finish]. split; [apply Forall_app; split; [done | by constructor] |].
  destruct l as [| j l]; [done |]. destruct Hchain as [Hj Hchain]. split; [| done].
  apply Forall_cons in Hl as [Hjl _]. destruct (lookup_lt_is_Some_2 works j Hjl) as [v Hv].
  exists v, (Queued (Some i)). by rewrite last_snoc.
Qed.

Lemma step_invariant i (s s' : sys) : invariant s -> step i s = Some s' -> invariant s'.
Proof.
  intros Hinv Hstep. assert (Hs := Hstep). unfold SyncSqlite.step in Hs.
  destruct (works !! i) as [u |] eqn:Hu; [| done]. destruct (phases s !! i) as [p |] eqn:Hp; [| done]. cbn in Hs.
  assert (Hi := lookup_lt_Some _ _ _ Hu). destruct Hinv as [Hlen Hcalled Hq Hen Hser]. assert (Hinv : invariant s) by by split.
  destruct (decide (i ∈ called s)) as [Hin | Hni].
  - destruct Hser as (settled & waiting & Hc & Hser).
    pose proof (invariant_settled s settled waiting i Hc) as Hset. pose proof (head_invariant s s' settled) as Hhead.
    destruct (serial settled w) as [outcomes after]. destruct Hser as [Hout Hw]. rewrite Hc in Hin.
    apply elem_of_app in Hin as [Hin | Hin].
    { destruct (Hset Hout (proj2 Hcalled) Hin) as [r Hr]. rewrite Hp in Hr. by injection Hr as ->. }
    destruct waiting as [| j l]; [by apply not_elem_of_nil in Hin |]. apply elem_of_cons in Hin as [-> | Hin].
    + by eapply Hhead.
    + destruct Hw as [(v & pj & _ & Hpj & Hact & _) Hchain].
      destruct (chain_blocked _ _ _ _ Hchain Hin) as (k & Hk & Hprev). rewrite Hp in Hk. injection Hk as ->.
      cbn [piece released] in Hs. destruct Hprev as [-> | [previous Hk]]; [rewrite Hpj in Hs; by destruct pj | by rewrite Hk in Hs].
  - rewrite (Hen i Hi Hni) in Hp. injection Hp as <-. injection Hs as <-. by apply enqueue_invariant.
Qed.

Lemma run_invariant schedule (s s' : sys) : invariant s -> run schedule s = Some s' -> invariant s'.
Proof.
  revert s. induction schedule as [| i l IH]; intros s Hs; cbn [SyncSqlite.run]; [by intros [= <-] |].
  destruct (step i s) as [s1 |] eqn:E; [| done]. cbn. apply IH. by eapply step_invariant.
Qed.

(** ** Progress *)

(** The steps that a commit has left. *)
Definition phase_cost (u : UnitOfWork W Tx) (p : phase) : nat :=
  match p with
  | Enlisting => length (uw_operations u) + 4
  | Queued _ => length (uw_operations u) + 3
  | Running todo => length todo + 2
  | Failing _ => 1
  | Settled _ => 0
  end.
Definition cost (s : sys) : nat := sum_list (zip_with phase_cost works (phases s)).

Lemma cost_insert (us : list (UnitOfWork W Tx)) (phs : list phase) i u p p' :
  us !! i = Some u -> phs !! i = Some p -> (phase_cost u p' < phase_cost u p)%nat ->
  (sum_list (zip_with phase_cost us (<[i := p']> phs)) < sum_list (zip_with phase_cost us phs))%nat.
Proof.
  revert us phs. induction i as [| i IH]; intros [| v us] [| q phs] Hu Hp Hlt; try done; cbn.
  - injection Hu as <-. injection Hp as <-. unfold id. lia.
  - exact (proj1 (Nat.add_lt_mono_l _ _ _) (IH us phs Hu Hp Hlt)).
Qed.

Lemma step_cost i (s s' : sys) : step i s = Some s' -> (cost s' < cost s)%nat.
Proof.
  unfold SyncSqlite.step. destruct (works !! i) as [u |] eqn:Hu; [| done].
  destruct (phases s !! i) as [p |] eqn:Hp; [| done]. cbn. unfold cost.
  destruct p as [| prev | [| op todo] | e | r]; cbn [piece]; intros Hs; repeat case_match; simplify_eq;
    (eapply cost_insert; [exact Hu | exact Hp | cbn; lia]).
Qed.

Lemma run_cost schedule (s s' : sys) : run schedule s = Some s' -> (length schedule + cost s' <= cost s)%nat.
Proof.
  revert s. induction schedule as [| i l IH]; intros s; cbn [SyncSqlite.run length]; [intros [= <-]; lia |].
  destruct (step i s) as [s1 |] eqn:E; [| done]. cbn. intros H. apply step_cost in E. apply IH in H. lia.
Qed.

(** The commit at the head of the queue can go on, and one that has not been called can be. *)
Lemma stuck_settled (s : sys) : invariant s -> (forall i, step i s = None) ->
  called s ≡ₚ seq 0 (length works) /\ exists settled, called s = settled /\
    let '(outcomes, after) := serial settled w in
    Forall (fun '(i, r) => phases s !! i = Some (Settled r)) outcomes /\ world s = after.
Proof.
  intros [Hlen [Hnd Hlt] Hq Hen Hser] Hstuck. split.
  - apply NoDup_Permutation; [done | apply NoDup_seq |]. intros i. rewrite elem_of_seq. split.
    + intros Hi. rewrite Forall_forall in Hlt. specialize (Hlt i Hi). cbn in Hlt. lia.
    + intros [_ Hi]. rewrite Nat.add_0_l in Hi. destruct (decide (i ∈ called s)) as [| Hni]; [done |]. specialize (Hstuck i).
      unfold SyncSqlite.step in Hstuck. destruct (lookup_lt_is_Some_2 works i Hi) as [u Hu].
      by rewrite Hu, (Hen i Hi Hni) in Hstuck.
  - destruct Hser as (settled & waiting & Hc & Hser).
    pose proof (fun i => invariant_settled s settled waiting i Hc) as Hset. exists settled.
    destruct (serial settled w) as [outcomes after]. destruct Hser as [Hout Hw].
    destruct waiting as [| i l]; [by rewrite app_nil_r in Hc |]. exfalso.
    destruct Hw as [(u & p & Hu & Hp & Hact & _) _]. specialize (Hstuck i). unfold SyncSqlite.step in Hstuck.
    rewrite Hu, Hp in Hstuck. cbn in Hstuck. destruct p as [| previous | [| op todo] | e | r]; try done; cbn [piece] in Hstuck.
    + subst previous. assert (released (last settled) s = true) as Hr.
      { destruct (last settled) as [j |] eqn:El; [| done]. cbn. apply last_Some_elem_of in El.
        by destruct (Hset j Hout Hlt El) as [r ->]. }
      rewrite Hr in Hstuck. by destruct (BEGIN (world s)) as [[[] |] ?].
    + by destruct (COMMIT (world s)) as [[[] |] ?].
    + by destruct (op (Some db) (world s)) as [[[] |] ?].
Qed.
End serial.

(** What is between [BEGIN] and the end of the commit. *)
Definition in_transaction {W Tx} (p : phase W Tx) : bool := match p with Running _ | Failing _ => true | _ => false end.

(** What one commit does, alone: all of its operations or nothing. *)
Lemma alone_atomic {W Tx D} (BEGIN COMMIT ROLLBACK : M W unit) (durable committed : W -> D)
    `{!SqlSpec BEGIN COMMIT ROLLBACK durable committed} (db : Tx) (u : UnitOfWork W Tx) (w : W) :
  uw_completed u = false ->
  (forall op w r w', op ∈ uw_operations u -> op (Some db) w = (r, w') -> committed w' = committed w) ->
  match alone BEGIN COMMIT ROLLBACK db u w with
  | (Ok events, w') => events = uw_pendingEvents u /\ exists w0 w1, BEGIN w = (Ok tt, w0) /\
      for_each (uw_operations u) (fun op => op (Some db)) w0 = (Ok tt, w1) /\ durable w' = durable w1
  | (Err _, w') => durable w' = durable w
  end.
Proof.
  intros Hu Hops. unfold alone, DrizzleUnitOfWork_commit. rewrite commit_spec by done. cbv zeta.
  pose proof (sql_statements_spec BEGIN COMMIT ROLLBACK durable committed db (uw_operations u) Hops w) as H.
  by destruct (run_sql_statements _ _ _ _ _ w) as [[[] | e] w'].
Qed.

Lemma start_cost {W Tx} (works : list (UnitOfWork W Tx)) (w : W) :
  cost works (start works w) = sum_list_with (fun u => length (uw_operations u) + 4)%nat works.
Proof.
  unfold cost, start. cbn [phases]. induction works as [| u works IH]; [done |].
  change (phase_cost u Enlisting + sum_list (zip_with phase_cost works (replicate (length works) Enlisting))
    = (length (uw_operations u) + 4) + sum_list_with (fun u => length (uw_operations u) + 4) works)%nat. by rewrite IH.
Qed.

(** The settled commits are the ones that the serial run has made, and only the commit
    after them can be in a transaction. *)
Lemma invariant_phases {W Tx} BEGIN COMMIT ROLLBACK (db : Tx) (works : list (UnitOfWork W Tx)) (w : W) s :
  invariant BEGIN COMMIT ROLLBACK db works w s ->
  exists settled waiting outcomes after, called s = settled ++ waiting /\
    serial BEGIN COMMIT ROLLBACK db works settled w = (outcomes, after) /\ map fst outcomes = settled /\
    (forall i r, phases s !! i = Some (Settled r) <-> (i, r) ∈ outcomes) /\
    (forall i p, phases s !! i = Some p -> in_transaction p = true -> hd_error waiting = Some i) /\
    (waiting = [] -> world s = after).
Proof.
  intros [Hlen [Hnd Hlt] Hq Hen (settled & waiting & Hc & Hser)]. exists settled, waiting.
  assert (Hset : Forall (fun i => (i < length works)%nat) settled) by (rewrite Hc in Hlt; by apply Forall_app in Hlt as [? _]).
  pose proof (serial_outcomes BEGIN COMMIT ROLLBACK db works settled w Hset) as Hids.
  destruct (serial BEGIN COMMIT ROLLBACK db works settled w) as [outcomes after]. exists outcomes, after.
  change (map fst outcomes = settled) in Hids. destruct Hser as [Hout Hw]. rewrite Forall_forall in Hout.
  assert (Hwhere : forall i p, phases s !! i = Some p -> p = Enlisting \/ i ∈ settled \/ hd_error waiting = Some i \/
    exists prev, p = Queued prev).
  { intros i p Hp. assert (Hi := lookup_lt_Some _ _ _ Hp). rewrite Hlen in Hi.
    destruct (decide (i ∈ called s)) as [Hin | Hni]; [| left; rewrite (Hen i Hi Hni) in Hp; by injection Hp].
    rewrite Hc in Hin. apply elem_of_app in Hin as [Hin | Hin]; [by right; left |]. right; right.
    destruct waiting as [| j l]; [by apply not_elem_of_nil in Hin |]. destruct Hw as [_ Hchain].
    apply elem_of_cons in Hin as [-> | Hin]; [by left |]. right.
    destruct (chain_blocked _ _ _ _ Hchain Hin) as (k & Hk & _). exists (Some k). congruence. }
  split; [done | split; [done | split; [done |]]]. split; [| split].
  - intros i r. split; [| intros Hin; exact (Hout (i, r) Hin)]. intros Hp.
    destruct (Hwhere i _ Hp) as [He | [Hin | [Hhd | [prev He]]]]; [done | | | done].
    + rewrite <- Hids in Hin. apply list_elem_of_fmap in Hin as ([j r'] & -> & Hin). cbn in *.
      specialize (Hout _ Hin). cbn in Hout. rewrite Hp in Hout. injection Hout as ->. done.
    + destruct waiting as [| j l]; [done |]. injection Hhd as ->. destruct Hw as [(u & p & _ & Hp' & Hact & _) _].
      rewrite Hp in Hp'. by injection Hp' as <-.
  - intros i p Hp Hin. destruct (Hwhere i p Hp) as [-> | [Hs | [Hhd | [prev ->]]]]; try done.
    rewrite <- Hids in Hs. apply list_elem_of_fmap in Hs as ([j r'] & -> & Hs). cbn in *.
    specialize (Hout _ Hs). cbn in Hout. rewrite Hp in Hout. by injection Hout as ->.
  - intros ->. exact Hw.
Qed.

(** C27. Concurrent commits on one synchronous SQLite connection are serial and atomic.
    Any number of units of work of a Drizzle factory commit, and the pieces of their
    commits interleave in any way.  At every moment at most one of them is between its
    [BEGIN] and its end, and those that have settled have the outcomes, and left the
    database, that the same commits have one after the other, in the order in which
    [commit] was called; one commit leaves the database as it was when it fails (in an
    operation or in [COMMIT]), and otherwise has run all of its operations, in order, and
    returns its deferred events.  Every schedule ends, and when no commit can go on, all
    have settled.  Assumes what [BEGIN], [COMMIT] and [ROLLBACK] do, and that operations do
    not end the transaction. *)
Theorem sync_commits_serial {W Tx D} (BEGIN COMMIT ROLLBACK : M W unit) (durable committed : W -> D)
    `{!SqlSpec BEGIN COMMIT ROLLBACK durable committed} (db : Tx) (works : list (UnitOfWork W Tx)) (w : W)
    (schedule : list nat) (s : sys W Tx) :
  Forall (fun u => uw_completed u = false) works ->
  (forall u op w r w', u ∈ works -> op ∈ uw_operations u -> op (Some db) w = (r, w') -> committed w' = committed w) ->
  run BEGIN COMMIT ROLLBACK db works schedule (start works w) = Some s ->
  (forall u w0, u ∈ works -> match alone BEGIN COMMIT ROLLBACK db u w0 with
     | (Ok events, w') => events = uw_pendingEvents u /\ exists w1 w2, BEGIN w0 = (Ok tt, w1) /\
         for_each (uw_operations u) (fun op => op (Some db)) w1 = (Ok tt, w2) /\ durable w' = durable w2
     | (Err _, w') => durable w' = durable w0
     end) /\
  (exists settled waiting outcomes after, called s = settled ++ waiting /\
     serial BEGIN COMMIT ROLLBACK db works settled w = (outcomes, after) /\ map fst outcomes = settled /\
     (forall i r, phases s !! i = Some (Settled r) <-> (i, r) ∈ outcomes) /\
     (forall i p, phases s !! i = Some p -> in_transaction p = true -> hd_error waiting = Some i) /\
     (waiting = [] -> world s = after)) /\
  (length schedule <= sum_list_with (fun u => length (uw_operations u) + 4) works)%nat /\
  ((forall i, step BEGIN COMMIT ROLLBACK db works i s = None) ->
     called s ≡ₚ seq 0 (length works) /\ Forall (fun p => exists r, p = Settled r) (phases s) /\
     world s = snd (serial BEGIN COMMIT ROLLBACK db works (called s) w)).
Proof.
  intros Hfresh Hops Hrun. split.
  { intros u w0 Hu. apply alone_atomic with (committed := committed); [done | |].
    - rewrite Forall_forall in Hfresh. by apply Hfresh.
    - intros op w1 r w2 Hop. by apply (Hops u op w1 r w2 Hu Hop). }
  pose proof (run_cost _ _ _ _ _ _ _ _ Hrun) as Hcost. rewrite start_cost in Hcost.
  pose proof (run_invariant BEGIN COMMIT ROLLBACK db works w Hfresh _ _ _ (start_invariant _ _ _ _ _ _) Hrun) as Hinv.
  split; [by apply invariant_phases |]. split; [lia |]. intros Hstuck.
  destruct (stuck_settled BEGIN COMMIT ROLLBACK db works w s Hinv Hstuck) as [Hperm (settled & Hc & Hser)].
  split; [done |]. rewrite Hc. pose proof (inv_length _ _ _ _ _ _ _ Hinv) as Hlen.
  pose proof (fun i => invariant_settled BEGIN COMMIT ROLLBACK db works w s settled [] i) as Hset.
  rewrite app_nil_r in Hset. destruct (serial _ _ _ _ works settled w) as [outcomes after]. destruct Hser as [Hout Hw].
  split; [| exact Hw]. apply Forall_lookup. intros i p Hp.
  destruct (Hset i Hc Hout (proj2 (inv_called _ _ _ _ _ _ _ Hinv))) as [r Hr].
  - rewrite <- Hc, Hperm. apply elem_of_seq. apply lookup_lt_Some in Hp. lia.
  - exists r. congruence.
Qed.

(** Two units of work, one of which fails, and a third; their pieces interleave. *)
Definition three_commits : list (UnitOfWork conn unit) :=
  [snd (for_each [Enlist (insert_row 1); Enlist (insert_row 2)] do_call new_uow);
   snd (for_each [Enlist (insert_row 3); Enlist failing_row] do_call new_uow);
   snd (for_each [Enlist (insert_row 4)] do_call new_uow)].
Definition interleaved : list nat := [1; 0; 1; 2; 1; 1; 1; 0; 0; 0; 0; 2; 2; 2]%nat.

Definition after_interleaved : sys conn unit :=
  {| world := ([7; 1; 2; 4], [7; 1; 2; 4])%nat; queue := Some 2%nat;
     phases := [Settled (Ok []); Settled (Err (PlainError "constraint")); Settled (Ok [])]; called := [1; 0; 2]%nat |}.

Lemma three_commits_fresh : Forall (fun u => uw_completed u = false) three_commits.
Proof. by repeat constructor. Qed.

Lemma three_commits_keep op (c : conn) r c' u : u ∈ three_commits -> op ∈ uw_operations u ->
  op (Some tt) c = (r, c') -> snd c' = snd c.
Proof.
  intros Hu Hop E. unfold three_commits in Hu. rewrite !elem_of_cons, elem_of_nil in Hu.
  destruct Hu as [-> | [-> | [-> | []]]]; cbn in Hop; rewrite !elem_of_cons, elem_of_nil in Hop;
    [destruct Hop as [-> | [-> | []]] | destruct Hop as [-> | [-> | []]] | destruct Hop as [-> | []]];
    by injection E as _ <-.
Qed.

Lemma interleaved_run : run sql_BEGIN sql_COMMIT sql_ROLLBACK tt three_commits interleaved (start three_commits ([7], [7])%nat)
  = Some after_interleaved.
Proof. vm_compute. reflexivity. Qed.

Lemma interleaved_done i : step sql_BEGIN sql_COMMIT sql_ROLLBACK tt three_commits i after_interleaved = None.
Proof. by destruct i as [| [| [| i]]]. Qed.

Lemma sync_commits_serial_witness :
  run sql_BEGIN sql_COMMIT sql_ROLLBACK tt three_commits interleaved (start three_commits ([7], [7])%nat)
  = Some after_interleaved /\
  world after_interleaved = snd (serial sql_BEGIN sql_COMMIT sql_ROLLBACK tt three_commits [1; 0; 2]%nat ([7], [7])%nat).
Proof.
  split; [exact interleaved_run |].
  exact (proj2 (proj2 (proj2 (proj2 (proj2 (sync_commits_serial sql_BEGIN sql_COMMIT sql_ROLLBACK fst snd tt three_commits
    ([7], [7])%nat interleaved after_interleaved
    three_commits_fresh
    (fun u op c r c' Hu Hop E => three_commits_keep op c r c' u Hu Hop E) interleaved_run))) interleaved_done))).
Defined.
