(* ===== verification/Locker.v ===== *)
(** Locks: [InMemoryAggregateLocker] ([implementations/in-memory-aggregate-locker.ts])
    and the [KeyedMutex] that the database lockers put in front of an advisory lock
    ([adapters/prisma/src/keyed-mutex.ts], [adapters/typeorm/src/keyed-mutex.ts]).

    JavaScript runs the code between two suspensions atomically: each step of the
    two transition systems below is one such piece of code (a call up to its
    return or to its [await], a timer callback, the resumption of a waiter), and
    the interleaving of the callers is the order of the steps.  Callers are
    numbered. *)
From S2P Require Import Prelude JsMap.

Module AggregateLocker.

(** ** The class *)

(** A waiter object of the queue is identified by the caller that made it. *)
Definition waiter : Type := nat.

Record Entry : Type := { locked : bool; queue : list waiter }.
Definition locks : Type := jsmap Entry.

Definition getEntry (key : string) : M locks Entry :=
  entry <- gets (mget key) ;;
  match entry with
  | Some e => ret e
  | None => let e := {| locked := false; queue := [] |} in modify (mset key e) ;;; ret e
  end.

(** What a call of [acquire] has done when it returns its promise. *)
Inductive acquired : Type := Resolved | Queued (timer : bool).

(** [timeoutMs && timeoutMs > 0] *)
Definition has_timer (timeoutMs : option Z) : bool :=
  match timeoutMs with Some t => (0 <? t)%Z | None => false end.

Definition acquire (key : string) (p : waiter) (timeoutMs : option Z) : M locks acquired :=
  entry <- getEntry key ;;
  if negb (locked entry)
  then (modify (mset key {| locked := true; queue := queue entry |}) ;;; ret Resolved)
  else (modify (mset key {| locked := true; queue := queue entry ++ [p] |}) ;;;
        ret (Queued (has_timer timeoutMs))).

(** [queue.splice(indexOf(waiter), 1)] *)
Fixpoint remove_waiter (p : waiter) (q : list waiter) : list waiter :=
  match q with
  | [] => []
  | x :: q' => if Nat.eqb p x then q' else x :: remove_waiter p q'
  end.

(** The callback of the timer: [true] when it rejects with [LockTimeoutError]. *)
Definition on_timeout (key : string) (p : waiter) : M locks bool :=
  entry <- getEntry key ;;
  if existsb (Nat.eqb p) (queue entry)
  then (modify (mset key {| locked := locked entry; queue := remove_waiter p (queue entry) |}) ;;; ret true)
  else ret false.

(** [release]: the waiter it resolves, if any. *)
Definition release (key : string) : M locks (option waiter) :=
  entry <- gets (mget key) ;;
  match entry with
  | None => ret None
  | Some e =>
      if negb (locked e) then ret None else
      match queue e with
      | next :: rest => modify (mset key {| locked := true; queue := rest |}) ;;; ret (Some next)
      | [] => modify (mset key {| locked := false; queue := [] |}) ;;; ret None
      end
  end.

(** ** Callers *)

Inductive pstate : Type :=
| Idle
| Waiting (key : string) (timer : bool)
| Holding (key : string).

Record sys : Type := { lk : locks; procs : nat -> pstate }.

Definition init : sys := {| lk := empty; procs := fun _ => Idle |}.

Definition upd (f : nat -> pstate) (p : nat) (x : pstate) : nat -> pstate :=
  fun q => if Nat.eqb q p then x else f q.

(** Callers acquire, and release what they hold; a timer may fire for a waiter
    that has one.  Releasing a lock one does not hold is not a step. *)
Inductive step : sys -> sys -> Prop :=
| step_acquire s p key timeoutMs r l' :
    procs s p = Idle -> acquire key p timeoutMs (lk s) = (Ok r, l') ->
    step s {| lk := l'; procs := upd (procs s) p
                (match r with Resolved => Holding key | Queued t => Waiting key t end) |}
| step_timeout s p key l' :
    procs s p = Waiting key true -> on_timeout key p (lk s) = (Ok true, l') ->
    step s {| lk := l'; procs := upd (procs s) p Idle |}
| step_release s p key r l' :
    procs s p = Holding key -> release key (lk s) = (Ok r, l') ->
    step s {| lk := l'; procs := match r with
                | Some q => upd (upd (procs s) p Idle) q (Holding key)
                | None => upd (procs s) p Idle
                end |}.

Definition reachable (s : sys) : Prop := rtc step init s.

Definition entry_of (s : sys) (key : string) : Entry :=
  or_default (mget key (lk s)) {| locked := false; queue := [] |}.

(** ** The invariant *)

Record key_inv (s : sys) (key : string) : Prop := {
  inv_free : locked (entry_of s key) = false ->
    queue (entry_of s key) = [] /\ forall p, procs s p <> Holding key;
  inv_held : locked (entry_of s key) = true ->
    exists p, procs s p = Holding key /\ forall q, procs s q = Holding key -> q = p;
  inv_nodup : NoDup (queue (entry_of s key));
  inv_queue : forall p, p ∈ queue (entry_of s key) <-> exists t, procs s p = Waiting key t
}.

Definition Inv (s : sys) : Prop := forall key, key_inv s key.

Lemma upd_eq f p x : upd f p x p = x.
Proof. unfold upd. by rewrite Nat.eqb_refl. Qed.

Lemma upd_ne f p q x : q <> p -> upd f p x q = f q.
Proof. unfold upd. by intros ->%Nat.eqb_neq. Qed.

Lemma entry_set l f key key' e :
  entry_of {| lk := mset key e l; procs := f |} key'
  = if String.eqb key' key then e else entry_of {| lk := l; procs := f |} key'.
Proof. unfold entry_of. simpl. rewrite mget_mset. by destruct (String.eqb key' key). Qed.

Lemma getEntry_spec s key :
  exists l, getEntry key (lk s) = (Ok (entry_of s key), l) /\
    forall f key', entry_of {| lk := l; procs := f |} key' = entry_of s key'.
Proof.
  unfold getEntry, bind, gets, ret, modify, entry_of. destruct (mget key (lk s)) as [e |] eqn:E.
  - by exists (lk s).
  - eexists. split; [done |]. intros f key'. simpl. rewrite mget_mset.
    destruct (String.eqb_spec key' key) as [-> |]; [by rewrite E | done].
Qed.

Lemma remove_elem p q x : NoDup q -> x ∈ remove_waiter p q <-> x ∈ q /\ x <> p.
Proof.
  induction 1 as [| y q Hy Hnd IH]; simpl; [set_solver |].
  destruct (Nat.eqb_spec p y) as [<- | Hne].
  - rewrite elem_of_cons. split; [intros Hx; split; [by right | by intros ->] |].
    intros [[-> |] ?]; done.
  - rewrite !elem_of_cons, IH. split; [intros [-> | [??]]; auto | tauto].
Qed.

Lemma remove_sublist p q : remove_waiter p q `sublist_of` q.
Proof.
  induction q as [| y q IH]; simpl; [done |].
  destruct (Nat.eqb p y); [by apply sublist_cons | by apply sublist_skip].
Qed.

Lemma remove_nodup p q : NoDup q -> NoDup (remove_waiter p q).
Proof. intros H. eapply sublist_NoDup; [exact H | apply remove_sublist]. Qed.

(** A step on one key leaves the invariant of the others, when the callers whose
    state changes had, and get, nothing to do with them. *)
Lemma key_inv_frame s s' key' :
  key_inv s key' ->
  entry_of s' key' = entry_of s key' ->
  (forall q, procs s q <> procs s' q ->
     (forall t, procs s q <> Waiting key' t) /\ procs s q <> Holding key' /\
     (forall t, procs s' q <> Waiting key' t) /\ procs s' q <> Holding key') ->
  (forall q, procs s q = procs s' q \/ procs s q <> procs s' q) ->
  key_inv s' key'.
Proof.
  intros [Hf Hh Hn Hq] He Hd Hdec.
  assert (HH : forall q, procs s' q = Holding key' <-> procs s q = Holding key').
  { intros q. destruct (Hdec q) as [-> | Hne]; [done |].
    destruct (Hd q Hne) as (_ & ? & _ & ?). done. }
  assert (HW : forall q t, procs s' q = Waiting key' t <-> procs s q = Waiting key' t).
  { intros q t. destruct (Hdec q) as [-> | Hne]; [done |].
    destruct (Hd q Hne) as (H1 & _ & H2 & _). specialize (H1 t). specialize (H2 t). done. }
  split; rewrite He.
  - intros H. destruct (Hf H) as [? Hp]. split; [done |]. intros p. rewrite HH. apply Hp.
  - intros H. destruct (Hh H) as (p & Hp & Hu). exists p. rewrite HH. split; [done |].
    intros q. rewrite HH. apply Hu.
  - done.
  - intros p. rewrite Hq. by setoid_rewrite HW.
Qed.

#[local] Instance pstate_eq_dec : EqDecision pstate.
Proof. solve_decision. Defined.

Lemma procs_dec (f g : nat -> pstate) q : f q = g q \/ f q <> g q.
Proof. destruct (decide (f q = g q)); auto. Qed.

Ltac upd_cases :=
  repeat match goal with
  | H : context [upd _ ?p _ ?p] |- _ => rewrite upd_eq in H
  | |- context [upd _ ?p _ ?p] => rewrite upd_eq
  | Hne : ?q <> ?p, H : context [upd _ ?p _ ?q] |- _ => rewrite (upd_ne _ _ _ _ Hne) in H
  | Hne : ?q <> ?p |- context [upd _ ?p _ ?q] => rewrite (upd_ne _ _ _ _ Hne)
  | H : context [upd _ ?p _ ?q] |- _ => destruct (Nat.eq_dec q p) as [-> | ?];
      [rewrite upd_eq in H | rewrite upd_ne in H by done]
  | |- context [upd _ ?p _ ?q] => destruct (Nat.eq_dec q p) as [-> | ?];
      [rewrite upd_eq | rewrite upd_ne by done]
  end.

Lemma inv_acquire s p key timeoutMs r l' :
  Inv s -> procs s p = Idle -> acquire key p timeoutMs (lk s) = (Ok r, l') ->
  Inv {| lk := l'; procs := upd (procs s) p
           (match r with Resolved => Holding key | Queued t => Waiting key t end) |}.
Proof.
  intros HI Hp H key'. destruct (getEntry_spec s key) as (l & Hg & Hl).
  unfold acquire, bind in H. rewrite Hg in H. destruct (HI key) as [Hf Hh Hn Hq].
  destruct (String.eqb_spec key' key) as [-> | Hne].
  - destruct (locked (entry_of s key)) eqn:El; unfold modify, ret in H; injection H as <- <-;
      (split; rewrite entry_set, String.eqb_refl; simpl).
    + done.
    + intros _. destruct (Hh eq_refl) as (h & Hh1 & Hh2). exists h.
      split; [upd_cases; congruence |]. intros q Hq'. upd_cases; [done | auto].
    + apply NoDup_app. split; [done |]. split; [| apply NoDup_singleton].
      intros x Hx ->%list_elem_of_singleton. apply Hq in Hx as [t Hx]. congruence.
    + intros q. rewrite elem_of_app, list_elem_of_singleton, Hq. upd_cases.
      * split; [intros _; by eexists | by right].
      * split; [by intros [? | ?] | by left].
    + done.
    + intros _. exists p. split; [by upd_cases |]. intros q Hq'. upd_cases; [done |].
      by apply (proj2 (Hf eq_refl)) in Hq'.
    + done.
    + intros q. rewrite Hq. upd_cases; [| done]. split; intros [t ?]; congruence.
  - assert (He : forall f, entry_of {| lk := l'; procs := f |} key' = entry_of s key').
    { intros f. apply String.eqb_neq in Hne.
      destruct (locked (entry_of s key)); unfold modify, ret in H; injection H as <- <-;
        rewrite entry_set, Hne; apply Hl. }
    eapply key_inv_frame; [apply (HI key') | apply He | | apply procs_dec].
    intros q Hd. simpl in *. upd_cases; [| done]. rewrite Hp.
    destruct r; repeat split; congruence.
Qed.

Lemma inv_timeout s p key l' :
  Inv s -> procs s p = Waiting key true -> on_timeout key p (lk s) = (Ok true, l') ->
  Inv {| lk := l'; procs := upd (procs s) p Idle |}.
Proof.
  intros HI Hp H key'. destruct (getEntry_spec s key) as (l & Hg & Hl).
  unfold on_timeout, bind in H. rewrite Hg in H. destruct (HI key) as [Hf Hh Hn Hq].
  destruct (existsb _ _); [| done]. unfold modify, ret in H. injection H as <-.
  destruct (String.eqb_spec key' key) as [-> | Hne].
  - split; rewrite entry_set, String.eqb_refl; simpl.
    + intros El. destruct (Hf El) as [-> Hp']. split; [done |]. intros q. upd_cases; [done | apply Hp'].
    + intros El. destruct (Hh El) as (h & Hh1 & Hh2). exists h.
      split; [upd_cases; congruence |]. intros q Hq'. upd_cases; [done | auto].
    + by apply remove_nodup.
    + intros q. rewrite remove_elem, Hq by done. upd_cases; [| tauto].
      split; [by intros [_ ?] | by intros [t ?]].
  - eapply key_inv_frame; [apply (HI key') | | | apply procs_dec].
    + apply String.eqb_neq in Hne. rewrite entry_set, Hne. apply Hl.
    + intros q Hd. simpl in *. upd_cases; [| done]. rewrite Hp. repeat split; congruence.
Qed.

(** Where a release leaves every entry. *)
Lemma release_entry s key e r l' f key' :
  mget key (lk s) = Some e -> locked e = true -> release key (lk s) = (Ok r, l') ->
  entry_of {| lk := l'; procs := f |} key'
  = if String.eqb key' key
    then match queue e with
         | _ :: rest => {| locked := true; queue := rest |}
         | [] => {| locked := false; queue := [] |}
         end
    else entry_of s key'.
Proof.
  intros E El H. unfold release, bind, gets in H. simpl in H. rewrite E, El in H. simpl in H.
  unfold modify, ret in H. destruct (queue e); injection H as <- <-; apply entry_set.
Qed.

Lemma inv_release s p key r l' :
  Inv s -> procs s p = Holding key -> release key (lk s) = (Ok r, l') ->
  Inv {| lk := l'; procs := match r with
           | Some q => upd (upd (procs s) p Idle) q (Holding key)
           | None => upd (procs s) p Idle end |}.
Proof.
  intros HI Hp H key'. destruct (HI key) as [Hf Hh Hn Hq].
  destruct (locked (entry_of s key)) eqn:El;
    [| by destruct (Hf eq_refl) as [_ Hno]; apply Hno in Hp].
  destruct (Hh eq_refl) as (h & Hh1 & Hh2). pose proof (Hh2 _ Hp) as <-.
  unfold entry_of in Hf, Hh, Hn, Hq, El.
  destruct (mget key (lk s)) as [e |] eqn:E; [| done]. simpl in *.
  pose proof (fun f key' => release_entry s key e r l' f key' E El H) as He.
  unfold release, bind, gets in H. simpl in H. rewrite E, El in H. simpl in H.
  destruct (queue e) as [| next rest] eqn:Eq; unfold modify, ret in H; injection H as <- <-.
  - destruct (String.eqb_spec key' key) as [-> | Hne].
    + split; rewrite He, String.eqb_refl; simpl.
      * intros _. split; [done |]. intros q Hq'. upd_cases; [done |]. by apply Hh2 in Hq'.
      * done.
      * constructor.
      * intros q. rewrite Hq. upd_cases; [| done]. split; intros [t ?]; congruence.
    + eapply key_inv_frame; [apply (HI key') | | | apply procs_dec].
      * rewrite He. by apply String.eqb_neq in Hne as ->.
      * intros q Hd. simpl in *. upd_cases; [| done]. rewrite Hp. repeat split; congruence.
  - apply NoDup_cons in Hn as [Hni Hn].
    destruct (proj1 (Hq next)) as [tn Hnext]; [by left |].
    assert (Hpn : next <> p) by (intros ->; congruence).
    destruct (String.eqb_spec key' key) as [-> | Hne].
    + split; rewrite He, String.eqb_refl; simpl.
      * done.
      * intros _. exists next. split; [by upd_cases |]. intros q Hq'. upd_cases; try done.
        by apply Hh2 in Hq'.
      * done.
      * intros q. assert (Hq' := Hq q). rewrite elem_of_cons in Hq'. upd_cases.
        -- split; [done | by intros [t ?]].
        -- split; [| by intros [t ?]]. intros Hin.
           destruct (proj1 Hq' (or_intror Hin)) as [t ?]; congruence.
        -- rewrite <- Hq'. naive_solver.
    + eapply key_inv_frame; [apply (HI key') | | | apply procs_dec].
      * rewrite He. by apply String.eqb_neq in Hne as ->.
      * intros q Hd. simpl in *. upd_cases; rewrite ?Hnext, ?Hp; try done;
          repeat split; congruence.
Qed.

Lemma inv_init : Inv init.
Proof.
  intros key. split; simpl; [by split | done | constructor |].
  intros p. split; [by intros ?%not_elem_of_nil | by intros [t ?]].
Qed.

Lemma inv_step s s' : Inv s -> step s s' -> Inv s'.
Proof.
  intros HI Hs. destruct Hs as [s p key t r l' Hp Ha | s p key l' Hp Ha | s p key r l' Hp Ha].
  - exact (inv_acquire s p key t r l' HI Hp Ha).
  - exact (inv_timeout s p key l' HI Hp Ha).
  - exact (inv_release s p key r l' HI Hp Ha).
Qed.

Lemma reachable_inv s : reachable s -> Inv s.
Proof.
  unfold reachable. intros H. assert (Hi := inv_init). revert Hi.
  induction H as [| s1 s2 s3 Hs _ IH]; [done |]. intros Hi. by apply IH, (inv_step s1).
Qed.

End AggregateLocker.

(** ** KeyedMutex *)

Module KeyedMutex.

(** [pending] and [release] hold, for a key, the promise of the current holder
    and the function that resolves it: both are identified by a number that no
    other promise has. *)
Record mutex : Type := { pending : jsmap nat; release_ : jsmap nat; next_id : nat }.

(** The piece of [lock] between two suspensions: the test of the loop and, when
    nothing is pending, the rest of the function.  [Some g] is the promise that
    the caller awaits next, [None] is a return. *)
Definition lock_turn (key : string) : M mutex (option nat) :=
  m <- get ;;
  match mget key (pending m) with
  | Some current => ret (Some current)
  | None =>
      modify (fun m => {| pending := mset key (next_id m) (pending m);
                          release_ := mset key (next_id m) (release_ m);
                          next_id := S (next_id m) |}) ;;;
      ret None
  end.

(** [unlock]: the promise it resolves. *)
Definition unlock (key : string) : M mutex (option nat) :=
  m <- get ;;
  match mget key (release_ m) with
  | None => ret None
  | Some release =>
      modify (fun m => {| pending := mdelete key (pending m); release_ := mdelete key (release_ m);
                          next_id := next_id m |}) ;;;
      ret (Some release)
  end.

Inductive pstate : Type :=
| Idle
| Awaiting (key : string) (promise : nat)  (** suspended in [await current] *)
| Holding (key : string).

Record sys : Type := { mx : mutex; resolved : list nat; procs : nat -> pstate }.

Definition init : sys :=
  {| mx := {| pending := empty; release_ := empty; next_id := 0 |}; resolved := []; procs := fun _ => Idle |}.

Definition upd (f : nat -> pstate) (p : nat) (x : pstate) : nat -> pstate :=
  fun q => if Nat.eqb q p then x else f q.

(** A caller enters [lock], or resumes in it once the promise it awaits is resolved. *)
Definition may_turn (s : sys) (p : nat) (key : string) : Prop :=
  procs s p = Idle \/ exists g, procs s p = Awaiting key g /\ g ∈ resolved s.

Inductive step : sys -> sys -> Prop :=
| step_lock s p key r m' :
    may_turn s p key -> lock_turn key (mx s) = (Ok r, m') ->
    step s {| mx := m'; resolved := resolved s; procs := upd (procs s) p
                (match r with Some g => Awaiting key g | None => Holding key end) |}
| step_unlock s p key r m' :
    procs s p = Holding key -> unlock key (mx s) = (Ok r, m') ->
    step s {| mx := m'; resolved := (match r with Some g => g :: resolved s | None => resolved s end);
              procs := upd (procs s) p Idle |}.

Definition reachable (s : sys) : Prop := rtc step init s.

Record Inv (s : sys) : Prop := {
  inv_wf : wf (pending (mx s)) /\ wf (release_ (mx s));
  inv_same : forall k, mget k (pending (mx s)) = mget k (release_ (mx s));
  inv_held : forall k p, procs s p = Holding k ->
    mhas k (pending (mx s)) = true /\ forall q, procs s q = Holding k -> q = p;
  inv_await : forall k p g, procs s p = Awaiting k g ->
    g ∈ resolved s \/ mget k (pending (mx s)) = Some g;
  inv_owner : forall k, mhas k (pending (mx s)) = true -> exists p, procs s p = Holding k
}.

Lemma mutex_inv_init : Inv init.
Proof. split; simpl; try done. split; apply NoDup_nil_2. Qed.

Lemma mutex_upd_eq f p x : upd f p x p = x.
Proof. unfold upd. by rewrite Nat.eqb_refl. Qed.
Lemma mutex_upd_ne f p q x : q <> p -> upd f p x q = f q.
Proof. unfold upd. by intros ->%Nat.eqb_neq. Qed.

Ltac upd_cases :=
  repeat match goal with
  | H : context [upd _ ?p _ ?p] |- _ => rewrite mutex_upd_eq in H
  | |- context [upd _ ?p _ ?p] => rewrite mutex_upd_eq
  | Hne : ?q <> ?p, H : context [upd _ ?p _ ?q] |- _ => rewrite (mutex_upd_ne _ _ _ _ Hne) in H
  | Hne : ?q <> ?p |- context [upd _ ?p _ ?q] => rewrite (mutex_upd_ne _ _ _ _ Hne)
  | H : context [upd _ ?p _ ?q] |- _ => destruct (Nat.eq_dec q p) as [-> | ?];
      [rewrite mutex_upd_eq in H | rewrite mutex_upd_ne in H by done]
  | |- context [upd _ ?p _ ?q] => destruct (Nat.eq_dec q p) as [-> | ?];
      [rewrite mutex_upd_eq | rewrite mutex_upd_ne by done]
  end.

Lemma mhas_mset {V} k k' (v : V) m : mhas k (mset k' v m) = if String.eqb k k' then true else mhas k m.
Proof. unfold mhas. rewrite mget_mset. by destruct (String.eqb k k'). Qed.
Lemma mhas_mdelete {V} k k' (m : jsmap V) :
  wf m -> mhas k (mdelete k' m) = if String.eqb k k' then false else mhas k m.
Proof. intros H. unfold mhas. rewrite mget_mdelete by done. by destruct (String.eqb k k'). Qed.

Lemma turn_not_holding s p key k : may_turn s p key -> procs s p <> Holding k.
Proof. intros [-> | (g & -> & _)]; done. Qed.

Lemma inv_lock s p key r m' :
  Inv s -> may_turn s p key -> lock_turn key (mx s) = (Ok r, m') ->
  Inv {| mx := m'; resolved := resolved s; procs := upd (procs s) p
           (match r with Some g => Awaiting key g | None => Holding key end) |}.
Proof.
  intros [[Hw1 Hw2] Hsame Hheld Haw Hown] Hturn H. pose proof (turn_not_holding s p key) as Hnh.
  unfold lock_turn, bind, get in H. destruct (mget key (pending (mx s))) as [g |] eqn:E;
    unfold ret, modify in H; injection H as <- <-; (split; simpl; [split; by auto with jsmap_wf | ..]).
  - done.
  - intros k q Hq. upd_cases; [done |]. destruct (Hheld _ _ Hq) as [? Hu]. split; [done |].
    intros q' Hq'. upd_cases; [done | auto].
  - intros k q g' Hq. upd_cases; [injection Hq as <- <-; by right | by eapply Haw].
  - intros k Hk. destruct (Hown k Hk) as [q Hq]. exists q. upd_cases; [by apply Hnh in Hq | done].
  - intros k. by rewrite !mget_mset, Hsame.
  - assert (Hnone : forall q, procs s q <> Holding key).
    { intros q Hq. destruct (Hheld _ _ Hq) as [Hc _]. unfold mhas in Hc. by rewrite E in Hc. }
    intros k q Hq. rewrite mhas_mset. upd_cases.
    + injection Hq as <-. rewrite String.eqb_refl. split; [done |]. intros q' Hq'. upd_cases; [done |].
      by apply Hnone in Hq'.
    + destruct (Hheld _ _ Hq) as [-> Hu]. split; [by destruct (String.eqb k key) |].
      intros q' Hq'. upd_cases; [| auto]. injection Hq' as <-. by apply Hnone in Hq.
  - intros k q g' Hq. upd_cases; [done |]. destruct (Haw _ _ _ Hq) as [? | Hg]; [by left |]. right.
    rewrite mget_mset. destruct (String.eqb_spec k key) as [-> |]; [congruence | done].
  - intros k. rewrite mhas_mset. destruct (String.eqb_spec k key) as [-> |].
    + intros _. exists p. by upd_cases.
    + intros Hk. destruct (Hown k Hk) as [q Hq]. exists q. upd_cases; [by apply Hnh in Hq | done].
Qed.

Lemma inv_unlock s p key r m' :
  Inv s -> procs s p = Holding key -> unlock key (mx s) = (Ok r, m') ->
  Inv {| mx := m'; resolved := (match r with Some g => g :: resolved s | None => resolved s end);
         procs := upd (procs s) p Idle |}.
Proof.
  intros [[Hw1 Hw2] Hsame Hheld Haw Hown] Hp H.
  destruct (Hheld _ _ Hp) as [Hhas Hu].
  unfold unlock, bind, get in H. rewrite <- Hsame in H. unfold mhas in Hhas.
  destruct (mget key (pending (mx s))) as [g |] eqn:E; [| done].
  unfold ret, modify in H. injection H as <- <-. split; simpl.
  - split; by apply wf_mdelete.
  - intros k. by rewrite !mget_mdelete, Hsame.
  - intros k q Hq. rewrite mhas_mdelete by done. upd_cases; [done |].
    destruct (Hheld _ _ Hq) as [-> Hu']. split.
    + destruct (String.eqb_spec k key) as [-> |]; [| done]. by apply Hu in Hq.
    + intros q' Hq'. upd_cases; [done | auto].
  - intros k q g' Hq. upd_cases; [done |]. destruct (Haw _ _ _ Hq) as [? | Hg]; [left; by right |].
    rewrite mget_mdelete by done. destruct (String.eqb_spec k key) as [-> |]; [| by right].
    left. assert (g' = g) as -> by congruence. left.
  - intros k. rewrite mhas_mdelete by done. destruct (String.eqb_spec k key) as [-> |]; [done |].
    intros Hk. destruct (Hown k Hk) as [q Hq]. exists q. upd_cases; [| done]. congruence.
Qed.

Lemma mutex_inv_step s s' : Inv s -> step s s' -> Inv s'.
Proof.
  intros HI Hs. destruct Hs as [s p key r m' Hp Ha | s p key r m' Hp Ha].
  - exact (inv_lock s p key r m' HI Hp Ha).
  - exact (inv_unlock s p key r m' HI Hp Ha).
Qed.

Lemma mutex_reachable_inv s : reachable s -> Inv s.
Proof.
  unfold reachable. intros H. assert (Hi := mutex_inv_init). revert Hi.
  induction H as [| s1 s2 s3 Hs _ IH]; [done |]. intros Hi. by apply IH, (mutex_inv_step s1).
Qed.

(** Caller 3 has locked, caller 4 has suspended behind it, caller 3 has unlocked. *)
Definition freed : sys :=
  {| mx := {| pending := []; release_ := []; next_id := 1 |}; resolved := [0%nat];
     procs := upd (upd (upd (procs init) 3 (Holding "k")) 4 (Awaiting "k" 0)) 3 Idle |}.

Lemma freed_reachable : reachable freed.
Proof.
  eapply rtc_l; [eapply step_lock with (p := 3%nat) (key := "k"%string); [by left | reflexivity] |].
  eapply rtc_l; [eapply step_lock with (p := 4%nat) (key := "k"%string); [by left | reflexivity] |].
  eapply rtc_l; [by eapply step_unlock with (p := 3%nat) (key := "k"%string) |]. apply rtc_refl.
Qed.

End KeyedMutex.

(** ** Properties *)

Import AggregateLocker.

Lemma remove_lookup p q n x :
  q !! n = Some x -> x <> p -> exists m, (m <= n)%nat /\ remove_waiter p q !! m = Some x.
Proof.
  revert n. induction q as [| y q IH]; intros n H Hne; simpl; [done |].
  destruct (Nat.eqb_spec p y) as [-> | Hpy].
  - destruct n as [| n]; simpl in *; [by injection H as -> |]. by exists n; split; [lia |].
  - destruct n as [| n]; simpl in *; [by exists 0%nat; split; [lia |] |].
    destruct (IH n H Hne) as (m & Hm & Hl). exists (S m). split; [lia | done].
Qed.

(** Mutual exclusion and no lost wake-up: whatever the interleaving of
    acquisitions, releases and timeouts, at most one caller holds the lock of an
    aggregate instance; while somebody waits for it, somebody holds it; and a free
    lock has an empty queue. *)
Theorem locker_mutual_exclusion (s : sys) (key : string) :
  reachable s ->
  (forall p q, procs s p = Holding key -> procs s q = Holding key -> p = q) /\
  (forall p t, procs s p = Waiting key t -> exists h, procs s h = Holding key) /\
  ((forall p, procs s p <> Holding key) -> queue (entry_of s key) = []).
Proof.
  intros Hr. destruct (reachable_inv s Hr key) as [Hf Hh Hn Hq].
  destruct (locked (entry_of s key)) eqn:El.
  - destruct (Hh eq_refl) as (h & H1 & H2). split; [| split].
    + intros p q Hp Hq'. by rewrite (H2 p Hp), (H2 q Hq').
    + intros p t _. by exists h.
    + intros H. by destruct (H h).
  - destruct (Hf eq_refl) as [Hempty Hno]. split; [| split].
    + intros p q Hp _. by apply Hno in Hp.
    + intros p t Hp. assert (Hin : p ∈ queue (entry_of s key)) by (apply Hq; by exists t).
      rewrite Hempty in Hin. by apply not_elem_of_nil in Hin.
    + done.
Qed.

(** Caller 1 holds the lock of ["A:1"] and caller 2 waits. *)
Definition contended : sys :=
  {| lk := [("A:1", {| locked := true; queue := [2%nat] |})]%string;
     procs := upd (upd (procs init) 1 (Holding "A:1")) 2 (Waiting "A:1" true) |}.

Lemma contended_reachable : reachable contended.
Proof.
  eapply rtc_l; [exact (step_acquire init 1 "A:1" None Resolved _ eq_refl eq_refl) |].
  eapply rtc_l; [exact (step_acquire
    {| lk := [("A:1", {| locked := true; queue := [] |})]%string;
       procs := upd (procs init) 1 (Holding "A:1") |} 2 "A:1" (Some 50%Z) (Queued true) _ eq_refl eq_refl) |].
  apply rtc_refl.
Qed.

Lemma locker_mutual_exclusion_witness : exists h, procs contended h = Holding "A:1".
Proof.
  destruct (locker_mutual_exclusion contended "A:1" contended_reachable) as (_ & H & _).
  apply (H 2%nat true). reflexivity.
Defined.

(** A release serves the head of the queue and keeps the rest in order. *)
Lemma release_serves_head s key r l' :
  key_inv s key -> release key (lk s) = (Ok r, l') ->
  r = head (queue (entry_of s key)) /\
  forall f, queue (entry_of {| lk := l'; procs := f |} key) = tail (queue (entry_of s key)).
Proof.
  intros [Hf _ _ _] H. unfold release, bind, gets, entry_of in *.
  destruct (mget key (lk s)) as [e |] eqn:E;
    [| injection H as <- <-; split; [done | simpl; by rewrite E]]. simpl in *.
  destruct (locked e) eqn:El; simpl in H;
    [| injection H as <- <-; destruct (Hf eq_refl) as [Hq0 _]; rewrite Hq0;
     split; [done | intros f; simpl; by rewrite E]].
  destruct (queue e); unfold modify, ret in H; injection H as <- <-; simpl;
    split; try done; intros f; by rewrite mget_mset_eq.
Qed.

(** A release of another key leaves a queue alone. *)
Lemma release_other s key k r l' f :
  key <> k -> release k (lk s) = (Ok r, l') ->
  entry_of {| lk := l'; procs := f |} key = entry_of s key.
Proof.
  intros Hne Ha. unfold release, bind, gets, modify, ret, entry_of in *. simpl.
  destruct (mget k (lk s)) as [e |]; [| by injection Ha as <- <-].
  destruct (locked e); simpl in Ha; [| by injection Ha as <- <-].
  destruct (queue e); injection Ha as <- <-; by rewrite mget_mset_ne.
Qed.

(** First come, first served: a release hands the lock to the caller at the
    head of the queue and moves every other waiter one place forward; no step
    moves a waiter back, and it leaves the queue only by getting the lock or by
    its own timeout.  A waiter at place [n] therefore needs at most [n + 1]
    releases. *)
Theorem locker_fifo (s s' : sys) (key : string) (p n : nat) :
  reachable s -> queue (entry_of s key) !! n = Some p -> step s s' ->
  (procs s' p = Idle \/ procs s' p = Holding key \/
   exists m, (m <= n)%nat /\ queue (entry_of s' key) !! m = Some p) /\
  (forall h r l', procs s h = Holding key -> release key (lk s) = (Ok r, l') ->
     match n with
     | O => r = Some p
     | S m => queue (entry_of {| lk := l'; procs := procs s |} key) !! m = Some p
     end).
Proof.
  intros Hr Hn Hs. pose proof (fun r l' => release_serves_head s key r l' (reachable_inv s Hr key)) as Hrel.
  split.
  - destruct Hs as [s q k t r l' Hp Ha | s q k l' Hp Ha | s q k r l' Hp Ha].
    + right; right. exists n. split; [done |].
      destruct (getEntry_spec s k) as (l & Hg & Hl). unfold acquire, bind in Ha. rewrite Hg in Ha.
      destruct (locked (entry_of s k)); unfold modify, ret in Ha; injection Ha as <- <-;
        rewrite entry_set; (destruct (String.eqb_spec key k) as [<- |]; [| by rewrite Hl]); simpl.
      * by apply lookup_app_l_Some.
      * done.
    + destruct (getEntry_spec s k) as (l & Hg & Hl). unfold on_timeout, bind in Ha. rewrite Hg in Ha.
      destruct (existsb _ _); [| done]. unfold modify, ret in Ha. injection Ha as <-.
      destruct (Nat.eq_dec p q) as [-> | Hne]; [left; simpl; by rewrite upd_eq |].
      right; right. rewrite entry_set. destruct (String.eqb_spec key k) as [<- |].
      * by apply remove_lookup.
      * exists n. split; [done |]. by rewrite Hl.
    + destruct (String.eqb_spec key k) as [<- | Hne].
      * destruct (Hrel _ _ Ha) as [-> Htl]. destruct (queue (entry_of s key)) as [| x xs]; [done |].
        destruct n as [| n]; simpl in *.
        -- right; left. injection Hn as ->. by rewrite upd_eq.
        -- right; right. exists n. split; [lia |]. by rewrite Htl.
      * right; right. exists n. split; [done |]. by rewrite (release_other _ _ _ _ _ _ Hne Ha).
  - intros h r l' _ Ha. destruct (Hrel _ _ Ha) as [-> Htl].
    destruct (queue (entry_of s key)) as [| x xs]; [done |].
    destruct n as [| n]; simpl in *; [done |]. by rewrite Htl.
Qed.

Lemma locker_fifo_witness :
  match release "A:1" (lk contended) with
  | (Ok r, _) => r = Some 2%nat
  | _ => False
  end.
Proof.
  exact (proj2 (locker_fifo contended
    {| lk := [("A:1", {| locked := true; queue := [] |})]%string;
       procs := upd (procs contended) 2 Idle |} "A:1" 2 0 contended_reachable eq_refl
    (step_timeout contended 2 "A:1" _ eq_refl eq_refl)) 1%nat (Some 2%nat) _ eq_refl eq_refl).
Defined.

(** The in-process mutex of the database lockers: whatever the interleaving of
    calls, resumptions and unlocks, at most one caller is past [lock] for a key,
    and a caller suspended in [lock] while nobody holds the key awaits a promise
    that is already resolved, so it will run again. *)
Theorem keyed_mutex_exclusion (s : KeyedMutex.sys) (key : string) :
  KeyedMutex.reachable s ->
  (forall p q, KeyedMutex.procs s p = KeyedMutex.Holding key ->
     KeyedMutex.procs s q = KeyedMutex.Holding key -> p = q) /\
  (forall p g, KeyedMutex.procs s p = KeyedMutex.Awaiting key g ->
     (forall h, KeyedMutex.procs s h <> KeyedMutex.Holding key) ->
     KeyedMutex.may_turn s p key /\
     exists m', KeyedMutex.lock_turn key (KeyedMutex.mx s) = (Ok None, m')).
Proof.
  intros Hr. destruct (KeyedMutex.mutex_reachable_inv s Hr) as [_ _ Hheld Haw Hown]. split.
  - intros p q Hp Hq. destruct (Hheld _ _ Hp) as [_ Hu]. symmetry. by apply Hu.
  - intros p g Hp Hno.
    assert (Hnone : mget key (KeyedMutex.pending (KeyedMutex.mx s)) = None).
    { destruct (mget key (KeyedMutex.pending (KeyedMutex.mx s))) eqn:E; [| done].
      destruct (Hown key) as [h Hh]; [unfold mhas; by rewrite E |]. by apply Hno in Hh. }
    split.
    + right. exists g. split; [done |]. destruct (Haw _ _ _ Hp) as [? | Hg]; [done | congruence].
    + unfold KeyedMutex.lock_turn, bind, get. rewrite Hnone. by eexists.
Qed.

Lemma keyed_mutex_exclusion_witness :
  KeyedMutex.may_turn KeyedMutex.freed 4 "k".
Proof.
  refine (proj1 (proj2 (keyed_mutex_exclusion KeyedMutex.freed "k" KeyedMutex.freed_reachable) 4%nat 0%nat eq_refl _)).
  intros h. unfold KeyedMutex.freed, KeyedMutex.upd. simpl.
  destruct (Nat.eqb h 3); [done |]. by destruct (Nat.eqb h 4).
Defined.
