(* ===== verification/AdvisoryLock.v ===== *)
(** The lockers on advisory locks of a database: [PostgresLocker] and [MySQLLocker] of
    the packages [adapters/drizzle], [adapters/prisma] and [adapters/typeorm]
    ([src/pg/advisory-locker.ts], [src/mysql/advisory-locker.ts]), [MSSQLLocker]
    ([adapters/typeorm/src/mssql/advisory-locker.ts]), and the classes that choose one
    of them ([advisory-locker.ts] of the three packages).

    The three packages have the same code but for the statements' results, the key of
    [_held], and the connection: these are the record [Package].  The statements are
    the record [Session], those of one database session. *)
From S2P Require Import Prelude Text JsMap Json Errors Hash Locker Broker.
Local Open Scope string_scope.

(** ** The database session and the locker *)

Record Session (St : Type) : Type := {
  se_pg_try_advisory_lock : Z -> M St value;
  se_pg_advisory_lock : Z -> M St unit;
  se_pg_advisory_unlock : Z -> M St value;
  se_GET_LOCK : string -> Z -> M St value;
  se_RELEASE_LOCK : string -> M St value;
  se_getapplock : string -> Z -> M St value;
  se_releaseapplock : string -> M St unit;
  se_now : M St Z;
  se_wait : Z -> M St unit;            (** [setTimeout] *)
  se_await : nat -> M St unit          (** a promise of the mutex *)
}.
Arguments se_pg_try_advisory_lock {St} _.
Arguments se_pg_advisory_lock {St} _.
Arguments se_pg_advisory_unlock {St} _.
Arguments se_GET_LOCK {St} _.
Arguments se_RELEASE_LOCK {St} _.
Arguments se_getapplock {St} _.
Arguments se_releaseapplock {St} _.
Arguments se_now {St} _.
Arguments se_wait {St} _.
Arguments se_await {St} _.

(** [_held] and the mutex of the process. *)
Record Locker : Type := { ad_held : list string; ad_mutex : KeyedMutex.mutex }.
Definition new_locker : Locker :=
  {| ad_held := []; ad_mutex := {| KeyedMutex.pending := empty; KeyedMutex.release_ := empty; KeyedMutex.next_id := 0 |} |}.
Definition held_of : lens Locker (list string) := Lens ad_held (fun h l => {| ad_held := h; ad_mutex := ad_mutex l |}).
Definition mutex_of : lens Locker KeyedMutex.mutex := Lens ad_mutex (fun m l => {| ad_held := ad_held l; ad_mutex := m |}).

(** ** What differs between the packages *)

(** [result[0]] *)
Definition item0 (v : value) : value := match v with VArr (x :: _) => x | _ => VUndefined end.
Definition of_result (r : value) (v : value) : result value :=
  if nullish r then Err (TypeError "Cannot read properties of undefined (reading '0')") else Ok v.

(** [result[0]?.column] *)
Definition first_column (column : string) (r : value) : result value := of_result r (read_prop column (item0 r)).
(** [result.rows?.[0]?.column ?? result[0]?.column] *)
Definition drizzle_pg_column (column : string) (r : value) : result value :=
  of_result r (coalesce (read_prop column (item0 (read_prop "rows" r))) (read_prop column (item0 r))).
(** [result.rows?.[0]?.column ?? result[0]?.[0]?.column ?? result[0]?.column] *)
Definition drizzle_mysql_column (column : string) (r : value) : result value :=
  of_result r (coalesce (read_prop column (item0 (read_prop "rows" r)))
    (coalesce (read_prop column (item0 (item0 r))) (read_prop column (item0 r)))).

(** [v === true || v === "t"] *)
Definition is_granted (v : value) : bool := match v with VBool b => b | VStr s => String.eqb s "t" | _ => false end.
(** [Number(v) === 1], of a column: a number, a big integer or the text of one. *)
Definition number_is_1 (v : value) : bool :=
  match v with VNum n | VBig n => Z.eqb n 1 | VStr s => String.eqb s "1" | VBool b => b | _ => false end.
(** [v === 1n || v === 1] *)
Definition strictly_1 (v : value) : bool := match v with VNum n | VBig n => Z.eqb n 1 | _ => false end.

(** The names under which the database knows a lock. *)
Definition hash_key (key : string) : Z := fnv1a64 (code_units key).
Definition lockName (key : string) : string := String.substring 0 64 key.
Definition mssql_lockName (key : string) : string := String.substring 0 255 key.

Record Package (St : Type) : Type := {
  pk_connection : M St unit;                     (** [await this.getQueryable()] *)
  pk_pg_column : string -> value -> result value;
  pk_mysql_column : string -> value -> result value;
  pk_is_1 : value -> bool;
  pk_pg_held : string -> string;
  pk_mysql_held : string -> string;
  pk_not_held : string -> string -> js_error     (** statement, key *)
}.
Arguments pk_connection {St} _.
Arguments pk_pg_column {St} _.
Arguments pk_mysql_column {St} _.
Arguments pk_is_1 {St} _.
Arguments pk_pg_held {St} _.
Arguments pk_mysql_held {St} _.
Arguments pk_not_held {St} _.

Definition not_held_text (class statement key reason : string) : js_error :=
  PlainError (class ++ ": " ++ statement ++ " reported the lock for " ++ quoted key ++
    " was not held on this connection, so it was NOT released and will leak. " ++
    "This means acquire() and release() ran on different " ++ reason).

Definition drizzle_package {St} : Package St :=
  {| pk_connection := ret tt; pk_pg_column := drizzle_pg_column; pk_mysql_column := drizzle_mysql_column;
     pk_is_1 := number_is_1; pk_pg_held := fun key => string_of_Z (hash_key key); pk_mysql_held := lockName;
     pk_not_held := fun statement key => not_held_text "DrizzleAdvisoryLocker" statement key
       ("pool connections. Construct the locker with DrizzleAdvisoryLocker.fromUrl(url, " ++
        quoted (if String.eqb statement "RELEASE_LOCK" then "mysql" else "pg") ++
        ") (recommended) or pass a db instance backed by a single dedicated connection (not a pool).") |}.

Definition prisma_package {St} : Package St :=
  {| pk_connection := ret tt; pk_pg_column := first_column; pk_mysql_column := first_column;
     pk_is_1 := strictly_1; pk_pg_held := fun key => string_of_Z (hash_key key); pk_mysql_held := lockName;
     pk_not_held := fun statement key => not_held_text "PrismaAdvisoryLocker" statement key
       ("pool connections — Prisma multiplexes queries over its connection pool. " ++
        "Construct the locker with PrismaAdvisoryLocker.fromUrl(url, " ++
        quoted (if String.eqb statement "RELEASE_LOCK" then "mysql" else "postgresql") ++
        ") (recommended) or pass a PrismaClient pinned to connection_limit=1.") |}.

Definition typeorm_package {St} (getQueryable : M St unit) : Package St :=
  {| pk_connection := getQueryable; pk_pg_column := first_column; pk_mysql_column := first_column;
     pk_is_1 := number_is_1; pk_pg_held := fun key => key; pk_mysql_held := fun key => key;
     pk_not_held := fun statement key => not_held_text "TypeORMAdvisoryLocker" statement key "sessions." |}.

(** ** The lockers *)

Section lockers.
Context {St : Type} (pk : Package St) (se : Session St) (the_locker : lens St Locker).

Definition key_of (aggregateName aggregateId : string) : string := aggregateName ++ ":" ++ aggregateId.

Definition on_mutex {A} (m : M KeyedMutex.mutex A) : M St A := zoom the_locker (zoom mutex_of m).
Definition on_held (f : list string -> list string) : M St unit := zoom the_locker (zoom held_of (modify f)).
Definition hold (k : string) : M St unit := on_held (add k).
Definition unhold (k : string) : M St unit := on_held (List.filter (fun x => negb (String.eqb k x))).
Definition believed_held (k : string) : M St bool := gets (fun s => has k (ad_held (lget the_locker s))).

(** [await this.mutex.lock(key)]; [None]: it waits after [fuel] turns. *)
Fixpoint lock_local (fuel : nat) (key : string) : M St (option unit) :=
  match fuel with
  | O => ret None
  | S fuel' =>
      turn <- on_mutex (KeyedMutex.lock_turn key) ;;
      match turn with
      | None => ret (Some tt)
      | Some promise => se_await se promise ;;; lock_local fuel' key
      end
  end.
Definition unlock_local (key : string) : M St unit := on_mutex (KeyedMutex.unlock key) ;;; ret tt.

(** The lock of the process around that of the database. *)
Definition acquire (acquireDb : M St (option unit)) (fuel : nat) (aggregateName aggregateId : string) : M St (option unit) :=
  let key := key_of aggregateName aggregateId in
  locked <- lock_local fuel key ;;
  match locked with
  | None => ret None
  | Some _ => try_catch acquireDb (fun error => unlock_local key ;;; throw error)
  end.

Definition release (releaseDb : M St unit) (aggregateName aggregateId : string) : M St unit :=
  try_finally releaseDb (unlock_local (key_of aggregateName aggregateId)).

(** [timeoutMs && timeoutMs > 0] *)
Definition positive (timeoutMs : option Z) : option Z :=
  match timeoutMs with Some t => if (0 <? t)%Z then Some t else None | None => None end.

(** *** PostgreSQL *)

Definition pg_try (h : Z) : M St bool :=
  r <- se_pg_try_advisory_lock se h ;;
  acquired <- lift_result (pk_pg_column pk "acquired" r) ;;
  ret (is_granted acquired).

(** One turn of the polling loop. *)
Definition pg_attempt (key : string) : M St bool :=
  granted <- pg_try (hash_key key) ;;
  if (granted : bool) then hold (pk_pg_held pk key) ;;; ret true else ret false.

Fixpoint pg_poll (fuel : nat) (aggregateName aggregateId : string) (timeoutMs deadline : Z) : M St (option unit) :=
  match fuel with
  | O => ret None
  | S fuel' =>
      granted <- pg_attempt (key_of aggregateName aggregateId) ;;
      if (granted : bool) then ret (Some tt) else
      t <- se_now se ;;
      if (deadline <=? t)%Z then throw (LockTimeoutError aggregateName (IdStr aggregateId) timeoutMs) else
      se_wait se 50 ;;;
      pg_poll fuel' aggregateName aggregateId timeoutMs deadline
  end.

Definition pg_acquireDb (fuel : nat) (aggregateName aggregateId : string) (timeoutMs : option Z) : M St (option unit) :=
  let key := key_of aggregateName aggregateId in
  pk_connection pk ;;;
  match positive timeoutMs with
  | Some t =>
      start <- se_now se ;;
      pg_poll fuel aggregateName aggregateId t (start + t)
  | None =>
      se_pg_advisory_lock se (hash_key key) ;;;
      hold (pk_pg_held pk key) ;;;
      ret (Some tt)
  end.

Definition pg_unlock (h : Z) : M St bool :=
  r <- se_pg_advisory_unlock se h ;;
  released <- lift_result (pk_pg_column pk "released" r) ;;
  ret (is_granted released).

Definition pg_free (key : string) : M St unit :=
  let k := pk_pg_held pk key in
  believedHeld <- believed_held k ;;
  pk_connection pk ;;;
  ok <- pg_unlock (hash_key key) ;;
  if (ok : bool) then unhold k
  else if (believedHeld : bool) then throw (pk_not_held pk "pg_advisory_unlock" key) else ret tt.

Definition pg_releaseDb (aggregateName aggregateId : string) : M St unit := pg_free (key_of aggregateName aggregateId).

(** *** MySQL and MariaDB *)

(** [timeoutMs ? Math.ceil(timeoutMs / 1000) : -1] *)
Definition timeoutSec (timeoutMs : option Z) : Z :=
  match timeoutMs with Some t => if (t =? 0)%Z then -1 else - (- t / 1000) | None => -1 end.

Definition mysql_try (name : string) (seconds : Z) : M St bool :=
  r <- se_GET_LOCK se name seconds ;;
  acquired <- lift_result (pk_mysql_column pk "acquired" r) ;;
  ret (pk_is_1 pk acquired).

Definition mysql_attempt (timeoutMs : option Z) (key : string) : M St bool :=
  granted <- mysql_try (lockName key) (timeoutSec timeoutMs) ;;
  if (granted : bool) then hold (pk_mysql_held pk key) ;;; ret true else ret false.

Definition mysql_acquireDb (aggregateName aggregateId : string) (timeoutMs : option Z) : M St (option unit) :=
  pk_connection pk ;;;
  granted <- mysql_attempt timeoutMs (key_of aggregateName aggregateId) ;;
  if (granted : bool) then ret (Some tt)
  else throw (LockTimeoutError aggregateName (IdStr aggregateId) (or_default timeoutMs 0%Z)).

Definition mysql_unlock (name : string) : M St bool :=
  r <- se_RELEASE_LOCK se name ;;
  released <- lift_result (pk_mysql_column pk "released" r) ;;
  ret (pk_is_1 pk released).

Definition mysql_free (key : string) : M St unit :=
  let k := pk_mysql_held pk key in
  believedHeld <- believed_held k ;;
  pk_connection pk ;;;
  ok <- mysql_unlock (lockName key) ;;
  if (ok : bool) then unhold k
  else if (believedHeld : bool) then throw (pk_not_held pk "RELEASE_LOCK" key) else ret tt.

Definition mysql_releaseDb (aggregateName aggregateId : string) : M St unit := mysql_free (key_of aggregateName aggregateId).

(** *** SQL Server, in the TypeORM package *)

Definition mssql_acquireDb (aggregateName aggregateId : string) (timeoutMs : option Z) : M St (option unit) :=
  pk_connection pk ;;;
  r <- se_getapplock se (mssql_lockName (key_of aggregateName aggregateId)) (or_default (positive timeoutMs) (-1)%Z) ;;
  lockResult <- lift_result (first_column "lockResult" r) ;;
  match lockResult with
  | VNum n => if (n <? 0)%Z then throw (LockTimeoutError aggregateName (IdStr aggregateId) (or_default timeoutMs 0%Z)) else ret (Some tt)
  | _ => ret (Some tt)
  end.

Definition mssql_releaseDb (aggregateName aggregateId : string) : M St unit :=
  pk_connection pk ;;;
  swallow (se_releaseapplock se (mssql_lockName (key_of aggregateName aggregateId))).

End lockers.

(** ** The classes of the packages *)

Module DrizzleLockers.
Section drizzle.
Context {St : Type} (se : Session St) (the_locker : lens St Locker).
Definition pg_acquireDb := pg_acquireDb drizzle_package se the_locker.
Definition pg_releaseDb := pg_releaseDb drizzle_package se the_locker.
Definition pg_acquire fuel n i timeoutMs := acquire se the_locker (pg_acquireDb fuel n i timeoutMs) fuel n i.
Definition pg_release n i := release the_locker (pg_releaseDb n i) n i.
Definition mysql_acquireDb := mysql_acquireDb drizzle_package se the_locker.
Definition mysql_releaseDb := mysql_releaseDb drizzle_package se the_locker.
Definition mysql_acquire fuel n i timeoutMs := acquire se the_locker (mysql_acquireDb n i timeoutMs) fuel n i.
Definition mysql_release n i := release the_locker (mysql_releaseDb n i) n i.
End drizzle.
End DrizzleLockers.

Module PrismaLockers.
Section prisma.
Context {St : Type} (se : Session St) (the_locker : lens St Locker).
Definition pg_acquireDb := pg_acquireDb prisma_package se the_locker.
Definition pg_releaseDb := pg_releaseDb prisma_package se the_locker.
Definition pg_acquire fuel n i timeoutMs := acquire se the_locker (pg_acquireDb fuel n i timeoutMs) fuel n i.
Definition pg_release n i := release the_locker (pg_releaseDb n i) n i.
Definition mysql_acquireDb := mysql_acquireDb prisma_package se the_locker.
Definition mysql_releaseDb := mysql_releaseDb prisma_package se the_locker.
Definition mysql_acquire fuel n i timeoutMs := acquire se the_locker (mysql_acquireDb n i timeoutMs) fuel n i.
Definition mysql_release n i := release the_locker (mysql_releaseDb n i) n i.
End prisma.
End PrismaLockers.

Module TypeORMLockers.
Section typeorm.
Context {St : Type} (getQueryable : M St unit) (se : Session St) (the_locker : lens St Locker).
Definition pg_acquire fuel n i timeoutMs :=
  acquire se the_locker (pg_acquireDb (typeorm_package getQueryable) se the_locker fuel n i timeoutMs) fuel n i.
Definition pg_release n i := release the_locker (pg_releaseDb (typeorm_package getQueryable) se the_locker n i) n i.
Definition mysql_acquire fuel n i timeoutMs :=
  acquire se the_locker (mysql_acquireDb (typeorm_package getQueryable) se the_locker n i timeoutMs) fuel n i.
Definition mysql_release n i := release the_locker (mysql_releaseDb (typeorm_package getQueryable) se the_locker n i) n i.
Definition mssql_acquire fuel n i timeoutMs :=
  acquire se the_locker (mssql_acquireDb (typeorm_package getQueryable) se n i timeoutMs) fuel n i.
Definition mssql_release n i := release the_locker (mssql_releaseDb (typeorm_package getQueryable) se n i) n i.
End typeorm.
End TypeORMLockers.

Inductive backend : Type := Postgres | MySQL | MSSQL.

Definition unsupported (dialect : string) : js_error :=
  PlainError ("Pessimistic locking is not supported with " ++ dialect ++
    ". Use InMemoryAggregateLocker for single-process deployments.").

(** The constructors. *)
Definition drizzle_backend (dialect : string) : result backend :=
  if String.eqb dialect "pg" then Ok Postgres else
  if String.eqb dialect "mysql" then Ok MySQL else Err (unsupported dialect).
Definition prisma_backend (dialect : string) : result backend :=
  if String.eqb dialect "postgresql" then Ok Postgres else
  if String.eqb dialect "mysql" || String.eqb dialect "mariadb" then Ok MySQL else Err (unsupported dialect).
Definition typeorm_backend (dbType : string) : result backend :=
  if String.eqb dbType "postgres" then Ok Postgres else
  if String.eqb dbType "mysql" || String.eqb dbType "mariadb" then Ok MySQL else
  if String.eqb dbType "mssql" then Ok MSSQL else Err (unsupported dbType).

(** [withConnectionLimitOne] *)
Definition withConnectionLimitOne (url : string) : string :=
  if includes "?connection_limit=" url || includes "&connection_limit=" url then url else
  url ++ (if includes "?" url then "&" else "?") ++ "connection_limit=1".

(** [close] of the Drizzle and Prisma lockers, which own a connection or not. *)
Record owner_state : Type := { ow_owned : bool; ow_closed : bool }.

Definition close_owned {St} (the_owner : lens St owner_state) (end_connection : M St unit) : M St unit :=
  o <- gets (lget the_owner) ;;
  if ow_closed o then ret tt else
  zoom the_owner (modify (fun o => {| ow_owned := ow_owned o; ow_closed := true |})) ;;;
  if ow_owned o
  then end_connection ;;; zoom the_owner (modify (fun o => {| ow_owned := false; ow_closed := ow_closed o |}))
  else ret tt.

(** The pinned [QueryRunner] of TypeORM.  [connecting] keeps the promise of the first
    connection, with its outcome. *)
Record pinned : Type := { pn_queryRunner : option nat; pn_connecting : option (result nat); pn_closed : bool }.

Section pinned.
Context {St : Type} (the_pin : lens St pinned) (createQueryRunner : M St nat) (connect_runner : nat -> M St unit)
  (release_runner : nat -> M St unit).

Definition getQueryRunner : M St nat :=
  p <- gets (lget the_pin) ;;
  match pn_queryRunner p with
  | Some q => ret q
  | None =>
      match pn_connecting p with
      | Some outcome => lift_result outcome
      | None =>
          outcome <- settled (q <- createQueryRunner ;; connect_runner q ;;; ret q) ;;
          zoom the_pin (modify (fun p => {| pn_queryRunner := match outcome with Ok q => Some q | Err _ => pn_queryRunner p end;
                                            pn_connecting := Some outcome; pn_closed := pn_closed p |})) ;;;
          lift_result outcome
      end
  end.

Definition close_pinned : M St unit :=
  p <- gets (lget the_pin) ;;
  if pn_closed p then ret tt else
  zoom the_pin (modify (fun p => {| pn_queryRunner := pn_queryRunner p; pn_connecting := pn_connecting p; pn_closed := true |})) ;;;
  match pn_queryRunner p with
  | Some q =>
      release_runner q ;;;
      zoom the_pin (modify (fun p => {| pn_queryRunner := None; pn_connecting := pn_connecting p; pn_closed := pn_closed p |}))
  | None => ret tt
  end.
End pinned.

(** The local lock of the Drizzle package, written out in its classes: one map. *)
Module DrizzleLocal.
Record locks : Type := { localLocks : jsmap nat; next_gate : nat }.

Definition acquireLocal_turn (key : string) : M locks (option nat) :=
  l <- gets (fun l => l) ;;
  match mget key (localLocks l) with
  | Some gate => ret (Some gate)
  | None =>
      modify (fun l => {| localLocks := mset key (next_gate l) (localLocks l); next_gate := S (next_gate l) |}) ;;;
      ret None
  end.

Definition releaseLocal (key : string) : M locks (option nat) :=
  l <- gets (fun l => l) ;;
  modify (fun l => {| localLocks := mdelete key (localLocks l); next_gate := next_gate l |}) ;;;
  ret (mget key (localLocks l)).

(** The mutex that has the same promises in both of its maps. *)
Definition as_mutex (l : locks) : KeyedMutex.mutex :=
  {| KeyedMutex.pending := localLocks l; KeyedMutex.release_ := localLocks l; KeyedMutex.next_id := next_gate l |}.
End DrizzleLocal.

(** ** Lemmas *)

(** The Drizzle package's local lock is the mutex of the other two. *)
Lemma drizzle_local_lock key (l : DrizzleLocal.locks) :
  KeyedMutex.lock_turn key (DrizzleLocal.as_mutex l)
  = (let '(r, l') := DrizzleLocal.acquireLocal_turn key l in (r, DrizzleLocal.as_mutex l')) /\
  (forall g, mget key (DrizzleLocal.localLocks l) = Some g ->
   KeyedMutex.unlock key (DrizzleLocal.as_mutex l)
   = (let '(r, l') := DrizzleLocal.releaseLocal key l in (r, DrizzleLocal.as_mutex l'))).
Proof.
  split.
  - unfold KeyedMutex.lock_turn, DrizzleLocal.acquireLocal_turn, bind, get, gets. cbn.
    by destruct (mget key (DrizzleLocal.localLocks l)).
  - intros g Hg. unfold KeyedMutex.unlock, DrizzleLocal.releaseLocal, bind, get, gets. cbn. by rewrite Hg.
Qed.

(** A connection that failed once fails for ever, without being tried again. *)
Example typeorm_connect_failure_sticks :
  let connect := throw (PlainError "ECONNREFUSED") in
  let get := getQueryRunner (fst_lens (A := pinned) (B := nat)) (modify (fun '(p, n) => (p, S n)) ;;; ret 1%nat) (fun _ => connect) in
  let start := ({| pn_queryRunner := None; pn_connecting := None; pn_closed := false |}, 0%nat) in
  let s1 := snd (get start) in
  fst (get s1) = Err (PlainError "ECONNREFUSED") /\ snd (snd (get s1)) = 1%nat.
Proof. split; reflexivity. Qed.

(** Two aggregates whose names share 64 characters share the MySQL lock. *)
Example mysql_names_collide (a b : string) : let n := String.concat "" (repeat "0123456789abcdef" 4) in
  lockName (key_of n a) = lockName (key_of n b).
Proof. done. Qed.

(** *** A lock that stays taken *)

Section refused.
Context {St : Type} (pk : Package St) (se : Session St) (the_locker : lens St Locker) `{!LensLaws the_locker}
  (clock : St -> Z) (attempts : St -> nat).

(** A session that works, on which the lock of another session is never released; a
    timer lasts as long as it was set to, at least. *)
Class Refusing : Prop := {
  rf_locker : forall l s, clock (lset the_locker l s) = clock s /\ attempts (lset the_locker l s) = attempts s;
  rf_connection : forall s, exists s', pk_connection pk s = (Ok tt, s') /\ lget the_locker s' = lget the_locker s /\
    (clock s <= clock s')%Z /\ attempts s' = attempts s;
  rf_try : forall h s, exists r column s', se_pg_try_advisory_lock se h s = (Ok r, s') /\
    pk_pg_column pk "acquired" r = Ok column /\ is_granted column = false /\ lget the_locker s' = lget the_locker s /\
    (clock s <= clock s')%Z /\ attempts s' = S (attempts s);
  rf_now : forall s, se_now se s = (Ok (clock s), s);
  rf_wait : forall d s, exists s', se_wait se d s = (Ok tt, s') /\ lget the_locker s' = lget the_locker s /\
    (clock s + d <= clock s')%Z /\ attempts s' = attempts s
}.
Context `{!Refusing}.

Lemma attempt_refused key s : exists s', pg_attempt pk se the_locker key s = (Ok false, s') /\
  lget the_locker s' = lget the_locker s /\ (clock s <= clock s')%Z /\ attempts s' = S (attempts s).
Proof.
  destruct (rf_try (hash_key key) s) as (r & column & s' & H1 & H2 & H3 & Hrest). exists s'. split; [| done].
  unfold pg_attempt, pg_try, bind, lift_result. rewrite H1. cbn. by rewrite H2, H3.
Qed.

Lemma poll_refused name id timeoutMs deadline (n : nat) : forall fuel s,
  (deadline - clock s <= 50 * Z.of_nat n)%Z -> (n < fuel)%nat ->
  exists s', pg_poll pk se the_locker fuel name id timeoutMs deadline s = (Err (LockTimeoutError name (IdStr id) timeoutMs), s') /\
    lget the_locker s' = lget the_locker s /\ (deadline <= clock s')%Z /\
    (attempts s < attempts s' <= attempts s + n + 1)%nat.
Proof.
  induction n as [| n IH]; intros [| fuel] s Hd Hfuel; try lia; cbn [pg_poll];
    destruct (attempt_refused (key_of name id) s) as (s1 & H1 & L1 & C1 & A1);
    rewrite (bind_ok _ _ _ _ _ H1); cbv iota; rewrite (bind_ok _ _ _ _ _ (rf_now s1));
    destruct (Z.leb_spec deadline (clock s1)) as [Hend | Hgo]; try lia.
  - exists s1. repeat split; try done; lia.
  - exists s1. repeat split; try done; lia.
  - destruct (rf_wait 50 s1) as (s2 & H2 & L2 & C2 & A2). rewrite (bind_ok _ _ _ _ _ H2).
    destruct (IH fuel s2 ltac:(lia) ltac:(lia)) as (s' & H' & L' & C' & A'). exists s'.
    split; [done |]. split; [by rewrite L', L2 |]. split; [done | lia].
Qed.
End refused.

(** The mutex of a key that nobody holds in this process. *)
Definition locally_free {St} (the_locker : lens St Locker) (key : string) (s : St) : Prop :=
  let m := ad_mutex (lget the_locker s) in
  mget key (KeyedMutex.pending m) = None /\ mget key (KeyedMutex.release_ m) = None /\
  wf (KeyedMutex.pending m) /\ wf (KeyedMutex.release_ m).

Section mutex.
Context {St : Type} (the_locker : lens St Locker) `{!LensLaws the_locker}.

Definition locally_held (key : string) (s : St) : Prop :=
  let m := ad_mutex (lget the_locker s) in
  (exists g, mget key (KeyedMutex.release_ m) = Some g) /\ wf (KeyedMutex.pending m) /\ wf (KeyedMutex.release_ m).

Lemma lock_local_free (se : Session St) fuel key s : locally_free the_locker key s -> (0 < fuel)%nat ->
  exists l, lock_local se the_locker fuel key s = (Ok (Some tt), lset the_locker l s) /\
    ad_held l = ad_held (lget the_locker s) /\ locally_held key (lset the_locker l s).
Proof.
  intros (Hp & Hr & Hwp & Hwr) Hf. destruct fuel as [| fuel]; [lia |].
  cbn [lock_local]. unfold on_mutex, zoom, bind, KeyedMutex.lock_turn, get. cbn. rewrite Hp. cbn.
  eexists. split; [done |]. split; [done |]. unfold locally_held. rewrite lget_lset. cbn.
  split; [eexists; apply mget_mset_eq |]. split; by apply wf_mset.
Qed.

Lemma unlock_local_held key s : locally_held key s ->
  exists l, unlock_local the_locker key s = (Ok tt, lset the_locker l s) /\
    ad_held l = ad_held (lget the_locker s) /\ locally_free the_locker key (lset the_locker l s).
Proof.
  intros ((g & Hg) & Hwp & Hwr). unfold unlock_local, on_mutex, zoom, bind, KeyedMutex.unlock, get. cbn. rewrite Hg. cbn.
  eexists. split; [done |]. split; [done |]. unfold locally_free. rewrite lget_lset. cbn.
  rewrite !mget_mdelete_eq by done. split; [done |]. split; [done |]. split; by apply wf_mdelete.
Qed.

Lemma locally_held_lget key s s' : lget the_locker s' = lget the_locker s -> locally_held key s -> locally_held key s'.
Proof. unfold locally_held. by intros ->. Qed.
End mutex.

Section times_out.
Context {St : Type} (pk : Package St) (se : Session St) (the_locker : lens St Locker)
  (clock : St -> Z) (attempts : St -> nat).

(** [acquire] of the PostgreSQL lockers with a timeout, on a lock that another session
    keeps, ends: it throws [LockTimeoutError], not before the timeout has passed, after
    at least one and at most [timeoutMs / 50] (rounded up) and one polls, and leaves the
    lock of the process free and [_held] as it was. *)
Theorem advisory_acquire_times_out (name id : string) (timeoutMs : Z) (fuel : nat) (s : St) :
  let acquire := acquire se the_locker (pg_acquireDb pk se the_locker fuel name id (Some timeoutMs)) fuel name id in
  let polls := Z.to_nat ((timeoutMs + 49) / 50) in
  LensLaws the_locker -> Refusing pk se the_locker clock attempts ->
  (0 < timeoutMs)%Z -> (polls < fuel)%nat -> locally_free the_locker (key_of name id) s ->
  exists s', acquire s = (Err (LockTimeoutError name (IdStr id) timeoutMs), s') /\
    (clock s + timeoutMs <= clock s')%Z /\
    (attempts s < attempts s' <= attempts s + polls + 1)%nat /\
    locally_free the_locker (key_of name id) s' /\ ad_held (lget the_locker s') = ad_held (lget the_locker s).
Proof.
  intros acquire polls Hlaws Href Ht Hfuel Hfree.
  destruct (lock_local_free the_locker se fuel (key_of name id) s Hfree ltac:(lia)) as (l & Hl & Hh & Hheld).
  destruct (rf_locker pk se the_locker clock attempts l s) as [C0 A0]. destruct (rf_connection pk se the_locker clock attempts (lset the_locker l s)) as (s1 & H1 & L1 & C1 & A1).
  assert (Hpolls : (timeoutMs <= 50 * Z.of_nat polls)%Z).
  { subst polls. pose proof (Z.mul_div_le (timeoutMs + 49) 50 ltac:(lia)).
    pose proof (Z.mod_pos_bound (timeoutMs + 49) 50 ltac:(lia)). pose proof (Z.div_mod (timeoutMs + 49) 50 ltac:(lia)). lia. }
  destruct (poll_refused pk se the_locker clock attempts name id timeoutMs (clock s1 + timeoutMs) polls fuel s1 ltac:(lia) Hfuel)
    as (s2 & H2 & L2 & C2 & A2).
  assert (Hheld2 : locally_held the_locker (key_of name id) s2) by (apply (locally_held_lget _ _ (lset the_locker l s)); [by rewrite L2, L1 | exact Hheld]).
  destruct (unlock_local_held the_locker (key_of name id) s2 Hheld2) as (l3 & H3 & Hh3 & Hfree3).
  destruct (rf_locker pk se the_locker clock attempts l3 s2) as [C3 A3]. exists (lset the_locker l3 s2). rewrite C3, A3, lget_lset, Hh3, L2, L1, lget_lset, Hh.
  split; [| split; [lia | split; [lia | split; [exact Hfree3 | done]]]].
  subst acquire. unfold AdvisoryLock.acquire. rewrite (bind_ok _ _ _ _ _ Hl). unfold try_catch, pg_acquireDb.
  rewrite (bind_ok _ _ _ _ _ H1). unfold positive. rewrite (proj2 (Z.ltb_lt _ _) Ht), (bind_ok _ _ _ _ _ (rf_now pk se the_locker clock attempts s1)), H2.
  by rewrite (bind_ok _ _ _ _ _ H3).
Qed.
End times_out.

(** A clock that advances by the waits, and a lock that another session keeps. *)
Module TakenLock.
Record World : Type := { w_locker : Locker; w_clock : Z; w_attempts : nat }.
Definition locker_lens : lens World Locker :=
  Lens w_locker (fun l w => {| w_locker := l; w_clock := w_clock w; w_attempts := w_attempts w |}).
Definition wait (d : Z) : M World unit :=
  modify (fun w => {| w_locker := w_locker w; w_clock := w_clock w + d; w_attempts := w_attempts w |}).
Definition refuse : M World value :=
  modify (fun w => {| w_locker := w_locker w; w_clock := w_clock w; w_attempts := S (w_attempts w) |}) ;;;
  ret (VArr [VObj [("acquired", VBool false)]]).
Definition session : Session World :=
  {| se_pg_try_advisory_lock := fun _ => refuse; se_pg_advisory_lock := fun _ => ret tt;
     se_pg_advisory_unlock := fun _ => ret (VArr []); se_GET_LOCK := fun _ _ => ret (VArr []);
     se_RELEASE_LOCK := fun _ => ret (VArr []); se_getapplock := fun _ _ => ret (VArr []); se_releaseapplock := fun _ => ret tt;
     se_now := gets w_clock; se_wait := wait; se_await := fun _ => ret tt |}.
Definition start : World := {| w_locker := new_locker; w_clock := 1000; w_attempts := 0 |}.

#[export] Instance locker_laws : LensLaws locker_lens.
Proof. by split; intros; repeat match goal with w : World |- _ => destruct w end. Qed.
#[export] Instance refusing : Refusing prisma_package session locker_lens w_clock w_attempts.
Proof.
  split; try done.
  - intros s. exists s. repeat split; lia.
  - intros h s. do 3 eexists. split; [done |]. split; [done |]. split; [done |]. split; [done |]. cbn. lia.
  - intros d s. eexists. split; [done |]. split; [done |]. cbn. lia.
Qed.
End TakenLock.

Lemma advisory_acquire_times_out_witness : exists s',
  PrismaLockers.pg_acquire TakenLock.session TakenLock.locker_lens 9 "Account" "acc-1" (Some 120%Z) TakenLock.start
    = (Err (LockTimeoutError "Account" (IdStr "acc-1") 120), s') /\ (TakenLock.w_attempts s' <= 4)%nat.
Proof.
  destruct (advisory_acquire_times_out prisma_package TakenLock.session TakenLock.locker_lens TakenLock.w_clock
    TakenLock.w_attempts "Account" "acc-1" 120 9 TakenLock.start) as (s' & H & _ & Ha & _).
  - exact TakenLock.locker_laws.
  - exact TakenLock.refusing.
  - lia.
  - vm_compute. lia.
  - repeat split; constructor.
  - exists s'. split; [exact H | apply Ha].
Defined.
