(* ===== verification/LockProtocol.v ===== *)
(** Mutual exclusion through the lockers of [AdvisoryLock.v], over several processes.

    Each process has one locker and one database session, and any number of callers.
    The lock of a database belongs to a session and counts: the session that owns it
    gets it again, which is why the lockers put a mutex of the process in front of it.
    A step is one piece of code between two suspensions: a turn of the mutex
    ([KeyedMutex.lock_turn]), one statement with what follows it ([pg_attempt],
    [pg_free] and their MySQL counterparts), the release of the mutex. *)
From S2P Require Import Prelude JsMap Json Errors Hash Locker Broker AdvisoryLock.

(** ** The database *)

(** The owner of a lock: a session, and how often it took the lock. *)
Definition owned : Type := option (nat * nat).
Definition granted (session : nat) (o : owned) : bool := match o with None => true | Some (q, _) => Nat.eqb q session end.
Definition grant (session : nat) (o : owned) : owned :=
  match o with
  | None => Some (session, 1%nat)
  | Some (q, n) => if Nat.eqb q session then Some (q, S n) else o
  end.
Definition mine (session : nat) (o : owned) : bool := match o with None => false | Some (q, _) => Nat.eqb q session end.
Definition ungrant (session : nat) (o : owned) : owned :=
  match o with
  | Some (q, n) => if Nat.eqb q session then (match n with S (S m) => Some (q, S m) | _ => None end) else o
  | None => None
  end.

(** What is documented of [pg_try_advisory_lock] and [pg_advisory_unlock], and of
    [GET_LOCK] and [RELEASE_LOCK]: [try] takes the lock [n] for a session when it is
    free or the session's own, [unlock] gives back one of the session's. *)
Class AdvisoryServer {Srv N} `{EqDecision N} (owner : Srv -> N -> owned) (try unlock : nat -> N -> M (Srv * Locker) bool) : Prop := {
  server_try : forall p n srv l, exists srv', try p n (srv, l) = (Ok (granted p (owner srv n)), (srv', l)) /\
    forall m, owner srv' m = if decide (m = n) then grant p (owner srv n) else owner srv m;
  server_unlock : forall p n srv l, exists srv', unlock p n (srv, l) = (Ok (mine p (owner srv n)), (srv', l)) /\
    forall m, owner srv' m = if decide (m = n) then ungrant p (owner srv n) else owner srv m
}.

(** What a locker promises: [attempt] and [free] are the statements of the database
    under the name of the key. *)
Class SessionLock {Srv N} `{EqDecision N} (owner : Srv -> N -> owned) (name : string -> N)
    (attempt : nat -> option Z -> string -> M (Srv * Locker) bool) (free : nat -> string -> M (Srv * Locker) unit) : Prop := {
  lock_attempt : forall p t key srv l, exists srv' l',
    attempt p t key (srv, l) = (Ok (granted p (owner srv (name key))), (srv', l')) /\ ad_mutex l' = ad_mutex l /\
    forall m, owner srv' m = if decide (m = name key) then grant p (owner srv (name key)) else owner srv m;
  lock_free : forall p key srv l, mine p (owner srv (name key)) = true -> exists srv' l',
    free p key (srv, l) = (Ok tt, (srv', l')) /\ ad_mutex l' = ad_mutex l /\
    forall m, owner srv' m = if decide (m = name key) then ungrant p (owner srv (name key)) else owner srv m
}.

(** The lockers keep the promise. *)
Section lockers_keep.
Context {Srv : Type} (pk : Package (Srv * Locker)) (se : nat -> Session (Srv * Locker)).
Hypothesis Hconnection : forall s, pk_connection pk s = (Ok tt, s).

Lemma hold_run k srv (l : Locker) : exists l', hold (@snd_lens Srv Locker) k (srv, l) = (Ok tt, (srv, l')) /\ ad_mutex l' = ad_mutex l.
Proof. by eexists. Qed.
Lemma unhold_run k srv (l : Locker) : exists l', unhold (@snd_lens Srv Locker) k (srv, l) = (Ok tt, (srv, l')) /\ ad_mutex l' = ad_mutex l.
Proof. by eexists. Qed.

#[export] Instance pg_locker_keeps (owner : Srv -> Z -> owned) :
  AdvisoryServer owner (fun p => pg_try pk (se p)) (fun p => pg_unlock pk (se p)) ->
  SessionLock owner hash_key (fun p _ => pg_attempt pk (se p) (@snd_lens Srv Locker)) (fun p => pg_free pk (se p) (@snd_lens Srv Locker)).
Proof.
  intros Hsrv. split.
  - intros p _ key srv l. destruct (server_try p (hash_key key) srv l) as (srv' & H1 & Ho).
    unfold pg_attempt. rewrite (bind_ok _ _ _ _ _ H1). destruct (granted p (owner srv (hash_key key))).
    + destruct (hold_run (pk_pg_held pk key) srv' l) as (l' & H2 & Hm). exists srv', l'. by rewrite (bind_ok _ _ _ _ _ H2).
    + by exists srv', l.
  - intros p key srv l Hmine. destruct (server_unlock p (hash_key key) srv l) as (srv' & H1 & Ho). rewrite Hmine in H1.
    destruct (unhold_run (pk_pg_held pk key) srv' l) as (l' & H2 & Hm). exists srv', l'. split; [| done].
    unfold pg_free, believed_held. unfold bind at 1, gets. by rewrite (bind_ok _ _ _ _ _ (Hconnection _)), (bind_ok _ _ _ _ _ H1).
Qed.

#[export] Instance mysql_locker_keeps (owner : Srv -> string -> owned) :
  (forall seconds, AdvisoryServer owner (fun p n => mysql_try pk (se p) n seconds) (fun p => mysql_unlock pk (se p))) ->
  SessionLock owner lockName (fun p t => mysql_attempt pk (se p) (@snd_lens Srv Locker) t) (fun p => mysql_free pk (se p) (@snd_lens Srv Locker)).
Proof.
  intros Hsrv. split.
  - intros p t key srv l. pose proof (Hsrv (timeoutSec t)) as Hs.
    destruct (server_try (AdvisoryServer := Hs) p (lockName key) srv l) as (srv' & H1 & Ho).
    unfold mysql_attempt. rewrite (bind_ok _ _ _ _ _ H1). destruct (granted p (owner srv (lockName key))).
    + destruct (hold_run (pk_mysql_held pk key) srv' l) as (l' & H2 & Hm). exists srv', l'. by rewrite (bind_ok _ _ _ _ _ H2).
    + by exists srv', l.
  - intros p key srv l Hmine. pose proof (Hsrv 0%Z) as Hs.
    destruct (server_unlock (AdvisoryServer := Hs) p (lockName key) srv l) as (srv' & H1 & Ho). rewrite Hmine in H1.
    destruct (unhold_run (pk_mysql_held pk key) srv' l) as (l' & H2 & Hm). exists srv', l'. split; [| done].
    unfold mysql_free, believed_held. unfold bind at 1, gets. by rewrite (bind_ok _ _ _ _ _ (Hconnection _)), (bind_ok _ _ _ _ _ H1).
Qed.
End lockers_keep.

(** ** The system *)

Inductive pstate : Type :=
| Idle
| Awaiting (key : string) (promise : nat)   (** in [lock], behind a caller of the process *)
| Polling (key : string)                    (** has the mutex, asks the database *)
| Holding (key : string)                    (** [acquire] returned *)
| Freed (key : string).                     (** in [release], after the statement *)

Section system.
Context {Srv N : Type} `{EqDecision N} (owner : Srv -> N -> owned) (name : string -> N)
  (attempt : nat -> option Z -> string -> M (Srv * Locker) bool) (free : nat -> string -> M (Srv * Locker) unit).

Record sys : Type := {
  srv : Srv;
  lockers : nat -> Locker;
  resolved : nat -> list nat;         (** promises of the mutexes *)
  callers : nat -> nat -> pstate
}.

Definition init (srv0 : Srv) : sys :=
  {| srv := srv0; lockers := fun _ => new_locker; resolved := fun _ => []; callers := fun _ _ => Idle |}.

Definition at_process {A} (f : nat -> A) (p : nat) (x : A) : nat -> A := fun q => if Nat.eqb q p then x else f q.

(** Process [p] goes on: its locker, its promises, and its caller [c]. *)
Definition go (s : sys) (srv' : Srv) (p : nat) (l : Locker) (r : list nat) (c : nat) (x : pstate) : sys :=
  {| srv := srv'; lockers := at_process (lockers s) p l; resolved := at_process (resolved s) p r;
     callers := at_process (callers s) p (at_process (callers s p) c x) |}.

Definition resolving (g : option nat) (r : list nat) : list nat := match g with Some g => g :: r | None => r end.

Definition may_turn (s : sys) (p c : nat) (key : string) : Prop :=
  callers s p c = Idle \/ exists g, callers s p c = Awaiting key g /\ g ∈ resolved s p.

Inductive step : sys -> sys -> Prop :=
| step_lock s p c key r m' :
    may_turn s p c key -> KeyedMutex.lock_turn key (ad_mutex (lockers s p)) = (Ok r, m') ->
    step s (go s (srv s) p (lset mutex_of m' (lockers s p)) (resolved s p) c
              (match r with Some g => Awaiting key g | None => Polling key end))
| step_attempt s p c key t b srv' l' :
    callers s p c = Polling key -> attempt p t key (srv s, lockers s p) = (Ok b, (srv', l')) ->
    step s (go s srv' p l' (resolved s p) c (if b then Holding key else Polling key))
| step_give_up s p c key g m' :          (** the timeout, or an error of the database *)
    callers s p c = Polling key -> KeyedMutex.unlock key (ad_mutex (lockers s p)) = (Ok g, m') ->
    step s (go s (srv s) p (lset mutex_of m' (lockers s p)) (resolving g (resolved s p)) c Idle)
| step_free s p c key r srv' l' :
    callers s p c = Holding key -> free p key (srv s, lockers s p) = (r, (srv', l')) ->
    step s (go s srv' p l' (resolved s p) c (Freed key))
| step_unlock s p c key g m' :
    callers s p c = Freed key -> KeyedMutex.unlock key (ad_mutex (lockers s p)) = (Ok g, m') ->
    step s (go s (srv s) p (lset mutex_of m' (lockers s p)) (resolving g (resolved s p)) c Idle).

Definition reachable (srv0 : Srv) (s : sys) : Prop := rtc step (init srv0) s.

(** ** The invariant *)

(** What a process knows: its mutex. *)
Definition local_state (x : pstate) : KeyedMutex.pstate :=
  match x with
  | Idle => KeyedMutex.Idle
  | Awaiting key g => KeyedMutex.Awaiting key g
  | Polling key | Holding key | Freed key => KeyedMutex.Holding key
  end.
Definition view (s : sys) (p : nat) : KeyedMutex.sys :=
  {| KeyedMutex.mx := ad_mutex (lockers s p); KeyedMutex.resolved := resolved s p;
     KeyedMutex.procs := fun c => local_state (callers s p c) |}.

(** The callers of a process that hold a lock of the database, and their number. *)
Definition holds_name (s : sys) (p : nat) (n : N) (c : nat) : Prop := exists key, callers s p c = Holding key /\ name key = n.
Definition count (p : nat) (o : owned) : nat := match o with Some (q, k) => if Nat.eqb q p then k else 0%nat | None => 0%nat end.
Definition counted (s : sys) (p : nat) (n : N) : Prop :=
  exists l : list nat, NoDup l /\ (forall c, c ∈ l <-> holds_name s p n c) /\ count p (owner (srv s) n) = length l.

Record Inv (s : sys) : Prop := {
  inv_local : forall p, KeyedMutex.Inv (view s p);
  inv_count : forall p n, counted s p n;
  inv_positive : forall n p k, owner (srv s) n = Some (p, k) -> k <> 0%nat
}.

(** The invariant of a mutex depends on the states of its callers, not on the function. *)
Lemma mutex_inv_ext (s s' : KeyedMutex.sys) : KeyedMutex.mx s = KeyedMutex.mx s' -> KeyedMutex.resolved s = KeyedMutex.resolved s' ->
  (forall c, KeyedMutex.procs s c = KeyedMutex.procs s' c) -> KeyedMutex.Inv s -> KeyedMutex.Inv s'.
Proof.
  destruct s as [m r f], s' as [m' r' f']. cbn. intros <- <- Hf [H1 H2 H3 H4 H5]. split; cbn in *; try done.
  - intros k c. rewrite <- Hf. intros Hc. destruct (H3 k c Hc) as [Ha Hb]. split; [done |]. intros q. rewrite <- Hf. apply Hb.
  - intros k c g. rewrite <- Hf. apply H4.
  - intros k Hk. destruct (H5 k Hk) as [c Hc]. exists c. by rewrite <- Hf.
Qed.

Lemma at_same {A} (f : nat -> A) p x : at_process f p x p = x.
Proof. unfold at_process. by rewrite Nat.eqb_refl. Qed.
Lemma at_other {A} (f : nat -> A) p q x : q <> p -> at_process f p x q = f q.
Proof. unfold at_process. by intros ->%Nat.eqb_neq. Qed.

Lemma caller_go s srv' p l r c x q c' :
  callers (go s srv' p l r c x) q c' = if Nat.eqb q p && Nat.eqb c' c then x else callers s q c'.
Proof.
  cbn. destruct (Nat.eqb_spec q p) as [-> |]; [rewrite at_same | by rewrite at_other].
  cbn. destruct (Nat.eqb_spec c' c) as [-> |]; [by rewrite at_same | by rewrite at_other].
Qed.

(** The mutexes: that of [p] is in the state that the step of the mutex gives. *)
Lemma local_go s srv' p l r c x (after : KeyedMutex.sys) : (forall q, KeyedMutex.Inv (view s q)) -> KeyedMutex.Inv after ->
  KeyedMutex.mx after = ad_mutex l -> KeyedMutex.resolved after = r ->
  (forall c', KeyedMutex.procs after c' = local_state (if Nat.eqb c' c then x else callers s p c')) ->
  forall q, KeyedMutex.Inv (view (go s srv' p l r c x) q).
Proof.
  intros HI Ha Hm Hr Hp q. destruct (Nat.eq_dec q p) as [-> | Hne].
  - eapply (mutex_inv_ext after); [| | | exact Ha]; cbn; by rewrite ?at_same.
  - eapply (mutex_inv_ext (view s q)); [| | | apply HI]; cbn; by rewrite ?at_other.
Qed.

(** A step that leaves the mutexes alone. *)
Lemma local_unchanged s srv' p l r c x : (forall q, KeyedMutex.Inv (view s q)) -> ad_mutex l = ad_mutex (lockers s p) -> r = resolved s p ->
  local_state x = local_state (callers s p c) -> forall q, KeyedMutex.Inv (view (go s srv' p l r c x) q).
Proof.
  intros HI Hm -> Hx. eapply local_go; [done | apply (HI p) | done | done |]. intros c'. cbn.
  destruct (Nat.eqb_spec c' c) as [-> |]; [by rewrite Hx | done].
Qed.

Lemma local_locked s p c key r m' : Inv s -> may_turn s p c key ->
  KeyedMutex.lock_turn key (ad_mutex (lockers s p)) = (Ok r, m') ->
  forall q, KeyedMutex.Inv (view (go s (srv s) p (lset mutex_of m' (lockers s p)) (resolved s p) c
    (match r with Some g => Awaiting key g | None => Polling key end)) q).
Proof.
  intros HI Hturn H. eapply local_go; [apply HI | eapply (KeyedMutex.inv_lock (view s p) c key r m'); [apply HI | | done] | done | done |].
  - destruct Hturn as [Hi | (g & Hg & Hin)]; [left; cbn; by rewrite Hi | right; exists g; cbn; by rewrite Hg].
  - intros c'. cbn. unfold KeyedMutex.upd. destruct (Nat.eqb c' c); [by destruct r | done].
Qed.

Lemma local_unlocked s p c key g m' : Inv s -> local_state (callers s p c) = KeyedMutex.Holding key ->
  KeyedMutex.unlock key (ad_mutex (lockers s p)) = (Ok g, m') ->
  forall q, KeyedMutex.Inv (view (go s (srv s) p (lset mutex_of m' (lockers s p)) (resolving g (resolved s p)) c Idle) q).
Proof.
  intros HI Hc H. eapply local_go; [apply HI | eapply (KeyedMutex.inv_unlock (view s p) c key g m'); [apply HI | exact Hc | exact H] | done | |].
  - by destruct g.
  - intros c'. cbn. unfold KeyedMutex.upd. by destruct (Nat.eqb c' c).
Qed.
(** *** Counting *)

Lemma count_grant p q o : granted p o = true -> count q (grant p o) = if Nat.eqb q p then S (count q o) else count q o.
Proof.
  destruct o as [[q0 n] |]; cbn.
  - intros ->%Nat.eqb_eq. rewrite Nat.eqb_refl. cbn. rewrite (Nat.eqb_sym p q). by destruct (Nat.eqb q p).
  - intros _. rewrite (Nat.eqb_sym p q). by destruct (Nat.eqb q p).
Qed.
Lemma refused_grant p o : granted p o = false -> grant p o = o.
Proof. destruct o as [[q n] |]; cbn; [by intros -> | done]. Qed.
Lemma count_ungrant p q o : mine p o = true -> (forall k, o = Some (p, k) -> k <> 0%nat) ->
  count q (ungrant p o) = if Nat.eqb q p then pred (count q o) else count q o.
Proof.
  destruct o as [[q0 n] |]; cbn; [| done]. intros ->%Nat.eqb_eq Hpos. rewrite Nat.eqb_refl, (Nat.eqb_sym p q).
  specialize (Hpos n eq_refl). destruct n as [| [| m]]; [done | |]; cbn; rewrite ?(Nat.eqb_sym p q); by destruct (Nat.eqb q p).
Qed.
Lemma positive_grant p o : (forall q k, o = Some (q, k) -> k <> 0%nat) -> forall q k, grant p o = Some (q, k) -> k <> 0%nat.
Proof.
  intros Ho q k. destruct o as [[q0 n] |]; cbn; [| by intros [= _ <-]].
  destruct (Nat.eqb q0 p); [by intros [= _ <-] | intros [= <- <-]; by eapply Ho].
Qed.
Lemma positive_ungrant p o : (forall q k, o = Some (q, k) -> k <> 0%nat) -> forall q k, ungrant p o = Some (q, k) -> k <> 0%nat.
Proof.
  intros Ho q k. destruct o as [[q0 n] |]; cbn; [| done].
  destruct (Nat.eqb q0 p); [destruct n as [| [| n]]; [done | done | by intros [= _ <-]] | intros [= <- <-]; by eapply Ho].
Qed.

Lemma holds_go s srv' p l r c x q n c' : holds_name (go s srv' p l r c x) q n c' <->
  (if Nat.eqb q p && Nat.eqb c' c then exists key, x = Holding key /\ name key = n else holds_name s q n c').
Proof. unfold holds_name. rewrite caller_go. by destruct (Nat.eqb q p && Nat.eqb c' c). Qed.

Lemma counted_same s s' p n : (forall c, holds_name s p n c <-> holds_name s' p n c) ->
  count p (owner (srv s') n) = count p (owner (srv s) n) -> counted s p n -> counted s' p n.
Proof. intros Hh Hc (l & Hd & Hl & Hn). exists l. split; [done |]. split; [| by rewrite Hc]. intros c. by rewrite Hl, Hh. Qed.

Lemma counted_new s s' p n c : ~ holds_name s p n c -> (forall c', holds_name s' p n c' <-> c' = c \/ holds_name s p n c') ->
  count p (owner (srv s') n) = S (count p (owner (srv s) n)) -> counted s p n -> counted s' p n.
Proof.
  intros Hc Hh Hn (l & Hd & Hl & Hlen). exists (c :: l). split; [constructor; [by rewrite Hl | done] |].
  split; [| by rewrite Hn, Hlen]. intros c'. by rewrite elem_of_cons, Hl, Hh.
Qed.

Lemma counted_gone s s' p n c : holds_name s p n c -> (forall c', holds_name s' p n c' <-> c' <> c /\ holds_name s p n c') ->
  count p (owner (srv s') n) = pred (count p (owner (srv s) n)) -> counted s p n -> counted s' p n.
Proof.
  intros Hc Hh Hn (l & Hd & Hl & Hlen). apply Hl in Hc. apply elem_of_Permutation in Hc as [l' Hperm].
  assert (Hd' : NoDup (c :: l')) by by rewrite <- Hperm. apply NoDup_cons in Hd' as [Hc Hd'].
  exists l'. split; [done |]. split; [| rewrite Hn, Hlen; by rewrite Hperm].
  intros c'. rewrite Hh, <- Hl, Hperm, elem_of_cons. split; [| tauto]. intros Hin. split; [by intros -> | by right].
Qed.

(** A step that does not touch the database, of a caller that holds nothing before and
    after. *)
Lemma counted_quiet s p l r c x : (forall key, callers s p c <> Holding key) -> (forall key, x <> Holding key) ->
  forall q n, counted s q n -> counted (go s (srv s) p l r c x) q n.
Proof.
  intros Hc Hx q n. apply counted_same; [| done]. intros c'. rewrite holds_go.
  destruct (Nat.eqb_spec q p) as [-> |]; [| done]. destruct (Nat.eqb_spec c' c) as [-> |]; [| done]. cbn.
  split; intros (key & H & _); [by apply Hc in H | by apply Hx in H].
Qed.

(** *** The steps *)

Context (HL : SessionLock owner name attempt free).

Lemma holder_owns s p c key : Inv s -> callers s p c = Holding key -> exists k, owner (srv s) (name key) = Some (p, k).
Proof.
  intros HI Hc. destruct (inv_count s HI p (name key)) as (l & _ & Hl & Hlen).
  assert (Hin : c ∈ l) by (apply Hl; by exists key). unfold count in Hlen.
  destruct (owner (srv s) (name key)) as [[q k] |]; [destruct (Nat.eqb_spec q p) as [-> |]; [by exists k |] |];
    destruct l; (done || by apply not_elem_of_nil in Hin).
Qed.

Lemma inv_attempt s p c key t b srv' l' : Inv s -> callers s p c = Polling key ->
  attempt p t key (srv s, lockers s p) = (Ok b, (srv', l')) ->
  Inv (go s srv' p l' (resolved s p) c (if b then Holding key else Polling key)).
Proof.
  intros HI Hc H. destruct (lock_attempt p t key (srv s) (lockers s p)) as (srv1 & l1 & H1 & Hm & Ho).
  rewrite H in H1. injection H1 as -> -> ->. set (o := owner (srv s) (name key)) in *.
  assert (Hown : forall m, owner srv1 m = if decide (m = name key) then grant p (owner (srv s) m) else owner (srv s) m)
    by (intros m; rewrite Ho; by destruct (decide (m = name key)) as [-> |]).
  split.
  - apply local_unchanged; [apply HI | done | done |]. rewrite Hc. by destruct (granted p o).
  - intros q n. pose proof (inv_count s HI q n) as Hcount. destruct (granted p o) eqn:Eg.
    + assert (Hnot : ~ holds_name s p n c) by (intros (k & Hk & _); congruence).
      assert (Hcnt : count q (owner srv1 n) = if decide (n = name key) then (if Nat.eqb q p then S (count q (owner (srv s) n)) else count q (owner (srv s) n)) else count q (owner (srv s) n)).
      { rewrite Hown. destruct (decide (n = name key)) as [-> |]; [by apply count_grant | done]. }
      destruct (decide (n = name key)) as [-> | Hn]; [destruct (Nat.eqb_spec q p) as [-> | Hq] |].
      * eapply (counted_new s _ p (name key) c); [done | | done | done]. intros c'. rewrite holds_go, Nat.eqb_refl.
        destruct (Nat.eqb_spec c' c) as [-> |]; cbn; [| naive_solver]. split; [by left | intros _; by exists key].
      * eapply counted_same; [| done | done]. intros c'. rewrite holds_go. by destruct (Nat.eqb_spec q p).
      * eapply counted_same; [| done | done]. intros c'. rewrite holds_go. destruct (Nat.eqb_spec q p) as [-> |]; [| done].
        destruct (Nat.eqb_spec c' c) as [-> |]; [| done]. cbn. split; [done |]. by intros (k & [= <-] & ?).
    + eapply counted_same; [| | done].
      * intros c'. rewrite holds_go. destruct (Nat.eqb_spec q p) as [-> |]; [| done].
        destruct (Nat.eqb_spec c' c) as [-> |]; [| done]. cbn. split; intros (k & Hk & _); congruence.
      * cbn [srv go]. rewrite Hown. destruct (decide (n = name key)) as [-> |]; [by rewrite refused_grant | done].
  - cbn [srv go]. intros n q k. rewrite Hown. destruct (decide (n = name key)); [| apply HI]. apply positive_grant, (inv_positive s HI n).
Qed.

Lemma inv_free s p c key r srv' l' : Inv s -> callers s p c = Holding key ->
  free p key (srv s, lockers s p) = (r, (srv', l')) ->
  r = Ok tt /\ Inv (go s srv' p l' (resolved s p) c (Freed key)).
Proof.
  intros HI Hc H. destruct (holder_owns s p c key HI Hc) as [k0 Hk0].
  assert (Hmine : mine p (owner (srv s) (name key)) = true) by (rewrite Hk0; cbn; by rewrite Nat.eqb_refl).
  destruct (lock_free p key (srv s) (lockers s p) Hmine) as (srv1 & l1 & H1 & Hm & Ho).
  rewrite H in H1. injection H1 as -> -> ->. split; [done |].
  assert (Hown : forall m, owner srv1 m = if decide (m = name key) then ungrant p (owner (srv s) m) else owner (srv s) m)
    by (intros m; rewrite Ho; by destruct (decide (m = name key)) as [-> |]).
  split.
  - apply local_unchanged; [apply HI | done | done | by rewrite Hc].
  - intros q n. pose proof (inv_count s HI q n) as Hcount.
    assert (Hcnt : count q (owner srv1 n) = if decide (n = name key) then (if Nat.eqb q p then pred (count q (owner (srv s) n)) else count q (owner (srv s) n)) else count q (owner (srv s) n)).
    { rewrite Hown. destruct (decide (n = name key)) as [-> |]; [| done]. apply count_ungrant; [done |]. intros k. apply HI. }
    destruct (decide (n = name key)) as [-> | Hn]; [destruct (Nat.eqb_spec q p) as [-> | Hq] |].
    + eapply (counted_gone s _ p (name key) c); [by exists key | | done | done]. intros c'. rewrite holds_go, Nat.eqb_refl.
      destruct (Nat.eqb_spec c' c) as [-> |]; cbn; [| tauto]. split; [by intros (k & ? & _) | by intros [? _]].
    + eapply counted_same; [| done | done]. intros c'. rewrite holds_go. by destruct (Nat.eqb_spec q p).
    + eapply counted_same; [| done | done]. intros c'. rewrite holds_go. destruct (Nat.eqb_spec q p) as [-> |]; [| done].
      destruct (Nat.eqb_spec c' c) as [-> |]; [| done]. cbn. split; intros (k & Hk & Hkn); congruence.
  - cbn [srv go]. intros n q k. rewrite Hown. destruct (decide (n = name key)); [| apply HI]. apply positive_ungrant, (inv_positive s HI n).
Qed.

Lemma inv_step_protocol s s' : step s s' -> Inv s -> Inv s'.
Proof.
  intros Hstep HI. destruct Hstep as [s p c key r m' Ht H | s p c key t b srv' l' Hc H | s p c key g m' Hc H
    | s p c key r srv' l' Hc H | s p c key g m' Hc H].
  - split; [by eapply local_locked | | apply HI]. intros q n. apply counted_quiet; [| by destruct r | apply HI].
    destruct Ht as [-> | (g & -> & _)]; done.
  - by eapply inv_attempt.
  - split; [eapply local_unlocked; [done | by rewrite Hc | done] | | apply HI].
    intros q n. apply counted_quiet; [by rewrite Hc | done | apply HI].
  - by eapply inv_free.
  - split; [eapply local_unlocked; [done | by rewrite Hc | done] | | apply HI].
    intros q n. apply counted_quiet; [by rewrite Hc | done | apply HI].
Qed.

Lemma inv_init_protocol srv0 : (forall n, owner srv0 n = None) -> Inv (init srv0).
Proof.
  intros H0. split.
  - intros p. eapply (mutex_inv_ext KeyedMutex.init); [done | done | done | apply KeyedMutex.mutex_inv_init].
  - intros p n. exists []. split; [constructor |]. cbn. rewrite H0. split; [| done].
    intros c. split; [by intros ?%not_elem_of_nil | by intros (k & ? & _)].
  - intros n p k. cbn. by rewrite H0.
Qed.

Lemma reachable_inv_protocol srv0 s : (forall n, owner srv0 n = None) -> reachable srv0 s -> Inv s.
Proof.
  intros H0 H. eapply (rtc_ind_r (fun s => Inv s) (init srv0)); [by apply inv_init_protocol | | exact H].
  intros y z _ Hs Hy. by eapply inv_step_protocol.
Qed.
End system.

(** ** Mutual exclusion *)

Section exclusion.
Context {Srv N : Type} `{EqDecision N} (owner : Srv -> N -> owned) (name : string -> N)
  (attempt : nat -> option Z -> string -> M (Srv * Locker) bool) (free : nat -> string -> M (Srv * Locker) unit).

(** C29. The lockers of any number of processes, each with its own session of one
    database, exclude each other: whatever the interleaving, at most one caller of all
    the processes holds the lock of an aggregate.  A caller that holds it releases it
    without an error, on the session that owns it.  The database keeps no lock that no
    caller holds, also when aggregates share a name in the database. *)
Theorem advisory_mutual_exclusion (srv0 : Srv) (s : sys) :
  SessionLock owner name attempt free -> (forall n, owner srv0 n = None) -> reachable attempt free srv0 s ->
  (forall p c p' c' key, callers s p c = Holding key -> callers s p' c' = Holding key -> p = p' /\ c = c') /\
  (forall p c key, callers s p c = Holding key ->
     mine p (owner (srv s) (name key)) = true /\ fst (free p key (srv s, lockers s p)) = Ok tt) /\
  (forall n p k, owner (srv s) n = Some (p, k) -> exists c key, callers s p c = Holding key /\ name key = n).
Proof.
  intros HL H0 Hs. apply (reachable_inv_protocol owner name attempt free HL) in Hs; [| done]. split; [| split].
  - intros p c p' c' key Hc Hc'. destruct (holder_owns owner name s p c key Hs Hc) as [k Hk].
    destruct (holder_owns owner name s p' c' key Hs Hc') as [k' Hk']. rewrite Hk in Hk'. injection Hk' as <- _.
    split; [done |]. destruct (KeyedMutex.inv_held _ (inv_local owner name s Hs p) key c) as [_ Hu]; [cbn; by rewrite Hc |].
    symmetry. apply Hu. cbn. by rewrite Hc'.
  - intros p c key Hc. destruct (holder_owns owner name s p c key Hs Hc) as [k Hk].
    assert (Hmine : mine p (owner (srv s) (name key)) = true) by (rewrite Hk; cbn; by rewrite Nat.eqb_refl).
    split; [done |]. destruct (lock_free p key (srv s) (lockers s p) Hmine) as (srv' & l' & -> & _). done.
  - intros n p k Hn. destruct (inv_count owner name s Hs p n) as (l & _ & Hl & Hlen).
    pose proof (inv_positive owner name s Hs n p k Hn) as Hk. rewrite Hn in Hlen. cbn in Hlen. rewrite Nat.eqb_refl in Hlen.
    destruct l as [| c l]; [done |]. destruct (proj1 (Hl c) (list_elem_of_here _ _)) as (key & Hc & Hkey). by exists c, key.
Qed.
End exclusion.

(** PostgreSQL through the Prisma package: two processes ask for one account. *)
Module TwoProcesses.
Definition Locks : Type := Z -> owned.
Definition owner (d : Locks) : Z -> owned := d.
Definition update (f : owned -> owned) (h : Z) (d : Locks) : Locks := fun m => if decide (m = h) then f (d h) else d m.
Definition answer (column : string) (b : bool) : value := VArr [VObj [(column, VBool b)]].

Definition session (p : nat) : Session (Locks * Locker) :=
  {| se_pg_try_advisory_lock := fun h '(d, l) => (Ok (answer "acquired" (granted p (d h))), (update (grant p) h d, l));
     se_pg_advisory_lock := fun h '(d, l) => (Ok tt, (update (grant p) h d, l));
     se_pg_advisory_unlock := fun h '(d, l) => (Ok (answer "released" (mine p (d h))), (update (ungrant p) h d, l));
     se_GET_LOCK := fun _ _ => ret VNull; se_RELEASE_LOCK := fun _ => ret VNull; se_getapplock := fun _ _ => ret VNull;
     se_releaseapplock := fun _ => ret tt; se_now := ret 0%Z; se_wait := fun _ => ret tt; se_await := fun _ => ret tt |}.

#[export] Instance server : AdvisoryServer owner (fun p => pg_try prisma_package (session p)) (fun p => pg_unlock prisma_package (session p)).
Proof. split; intros p n d l; eexists; split; reflexivity. Qed.

Definition attempt (p : nat) (t : option Z) : string -> M (Locks * Locker) bool :=
  pg_attempt prisma_package (session p) (@snd_lens Locks Locker).
Definition free (p : nat) : string -> M (Locks * Locker) unit := pg_free prisma_package (session p) (@snd_lens Locks Locker).

#[export] Instance locks_keep : SessionLock owner hash_key attempt free.
Proof. exact (pg_locker_keeps prisma_package session (fun _ => eq_refl) owner server). Qed.

(** The first caller of process 1 has locked the account and given it back; the first
    caller of process 2 has it now. *)
Definition account : string := key_of "Account" "acc-1".
Definition nobody : Locks := fun _ => None.
Ltac advance tac := eapply rtc_l; [tac |].

Lemma second_holds : exists s, reachable attempt free nobody s /\ callers s 2 1 = Holding account.
Proof.
  eexists. split.
  - unfold reachable.
    advance ltac:(eapply (step_lock _ _ _ 1 1 account); [left; reflexivity | reflexivity]).
    advance ltac:(eapply (step_attempt _ _ _ 1 1 account None); [reflexivity | vm_compute; reflexivity]).
    advance ltac:(eapply (step_lock _ _ _ 2 1 account); [left; reflexivity | reflexivity]).
    advance ltac:(eapply (step_free _ _ _ 1 1 account); [reflexivity | vm_compute; reflexivity]).
    advance ltac:(eapply (step_attempt _ _ _ 2 1 account None); [reflexivity | vm_compute; reflexivity]).
    apply rtc_refl.
  - reflexivity.
Qed.
End TwoProcesses.

Lemma advisory_mutual_exclusion_witness : exists s,
  reachable TwoProcesses.attempt TwoProcesses.free TwoProcesses.nobody s /\ callers s 2 1 = Holding TwoProcesses.account /\
  callers s 1 1 <> Holding TwoProcesses.account.
Proof.
  destruct TwoProcesses.second_holds as (s & Hs & Hc). exists s. split; [exact Hs |]. split; [exact Hc |]. intros Hc1.
  destruct (advisory_mutual_exclusion TwoProcesses.owner hash_key TwoProcesses.attempt TwoProcesses.free
    TwoProcesses.nobody s TwoProcesses.locks_keep (fun _ => eq_refl) Hs) as (H & _).
  destruct (H 1%nat 1%nat 2%nat 1%nat TwoProcesses.account Hc1 Hc) as [E _]. discriminate E.
Defined.
