(* ===== verification/Metadata.v ===== *)
(** Event metadata: [MetadataEnricher] ([engine/src/executors/metadata-enricher.ts]).
    The world [W] gives access to the platform through the lens [host]. *)
From S2P Require Import Prelude JsMap CoreTypes Uuid Host.

(** What [instrumentation.injectTraceContext()] returns. *)
Record TraceContext : Type := { tc_traceparent : option string; tc_tracestate : option string }.

Definition no_trace : TraceContext := {| tc_traceparent := None; tc_tracestate := None |}.

(** [events.map((event, index) => ...)] with a callback that has effects. *)
Fixpoint map_indexed {St A B} (f : nat -> A -> M St B) (index : nat) (l : list A) : M St (list B) :=
  match l with
  | [] => ret []
  | x :: l' =>
      y <- f index x ;;
      ys <- map_indexed f (S index) l' ;;
      ret (y :: ys)
  end.

Lemma map_indexed_cons {St A B} (f : nat -> A -> M St B) i x l s :
  map_indexed f i (x :: l) s
  = match f i x s with
    | (Ok y, s1) =>
        match map_indexed f (S i) l s1 with
        | (Ok ys, s2) => (Ok (y :: ys), s2)
        | (Err e, s2) => (Err e, s2)
        end
    | (Err e, s1) => (Err e, s1)
    end.
Proof. reflexivity. Qed.

Section enricher.
Context {W : Type} (host : lens W Host)
  (metadataProvider : option (M W MetadataContext))
  (injectTraceContext : option (M W TraceContext)).

(** [overrideCtx] is [metadataStorage.getStore()]. *)
Definition enrich (overrideCtx : option MetadataContext) (events : list event)
    (aggregateName : string) (aggregateId : ID) (version : nat) (causationFallback : string)
    (eventVersionResolver : option (string -> Z)) : M W (list event) :=
  providerCtx <- match metadataProvider with Some p => p | None => ret empty_context end ;;
  let mergedCtx := merge_context providerCtx (or_default overrideCtx empty_context) in
  correlationId <- match field (mc_correlationId mergedCtx) with
                   | Some c => ret c
                   | None => zoom host new_uuid
                   end ;;
  let causationId := or_default (field (mc_causationId mergedCtx)) causationFallback in
  traceCtx <- match injectTraceContext with Some i => i | None => ret no_trace end ;;
  map_indexed (fun index e =>
    eventId <- zoom host new_uuid ;;
    timestamp <- zoom host date_now ;;
    ret (with_metadata e
      {| md_eventId := eventId;
         md_timestamp := timestamp;
         md_correlationId := correlationId;
         md_causationId := causationId;
         md_userId := field (mc_userId mergedCtx);
         md_version := option_map (fun f => f (ev_name e)) eventVersionResolver;
         md_aggregateName := Some aggregateName;
         md_aggregateId := Some aggregateId;
         md_sequenceNumber := Some (version + index + 1)%nat;
         md_traceparent := tc_traceparent traceCtx;
         md_tracestate := tc_tracestate traceCtx |})) 0 events.
End enricher.

(** ** Facts *)

(** What enriching leaves and what it sets, position by position: [es] are the raw
    events, [es'] the enriched ones, [n] the version before the first. *)
Inductive enriched (name : string) (i : ID) (corr caus : string) (user : option ID)
    (resolver : option (string -> Z)) : nat -> list event -> list event -> Prop :=
| enriched_nil n : enriched name i corr caus user resolver n [] []
| enriched_cons n e es e' es' md :
    e' = with_metadata e md ->
    md_correlationId md = corr -> md_causationId md = caus -> md_userId md = user ->
    md_version md = option_map (fun f => f (ev_name e)) resolver ->
    md_aggregateName md = Some name -> md_aggregateId md = Some i ->
    md_sequenceNumber md = Some (S n) ->
    enriched name i corr caus user resolver (S n) es es' ->
    enriched name i corr caus user resolver n (e :: es) (e' :: es').

Lemma enriched_shape name i corr caus user resolver n es es' :
  enriched name i corr caus user resolver n es es' ->
  map ev_name es' = map ev_name es /\ map ev_payload es' = map ev_payload es /\ length es' = length es.
Proof.
  induction 1 as [| n e es e' es' md -> _ _ _ _ _ _ _ _ (H1 & H2 & H3)]; [done |].
  simpl. by rewrite H1, H2, H3.
Qed.

(** The only effect of a clock reading or of a draw is on the host. *)
Definition same_but_host {W} (host : lens W Host) (w w' : W) : Prop :=
  exists h, w' = lset host h w.

Section host_effects.
Context {W : Type} (host : lens W Host) `{!LensLaws host}.

Lemma sbh_refl w : same_but_host host w w.
Proof. exists (lget host w). by rewrite lset_lget. Qed.

Lemma sbh_trans w1 w2 w3 :
  same_but_host host w1 w2 -> same_but_host host w2 w3 -> same_but_host host w1 w3.
Proof. intros [h1 ->] [h2 ->]. exists h2. by rewrite lset_lset. Qed.

Lemma zoom_uuid_run w : exists u w', zoom host new_uuid w = (Ok u, w') /\ same_but_host host w w'.
Proof. unfold zoom. do 2 eexists. split; [reflexivity |]. by eexists. Qed.

Lemma zoom_now_run w : exists t w', zoom host date_now w = (Ok t, w') /\ same_but_host host w w'.
Proof. unfold zoom. do 2 eexists. split; [reflexivity |]. by eexists. Qed.

Lemma map_indexed_enriched name i corr caus user resolver trace version index es w :
  exists es' w',
    map_indexed (fun index e =>
      eventId <- zoom host new_uuid ;;
      timestamp <- zoom host date_now ;;
      ret (with_metadata e
        {| md_eventId := eventId; md_timestamp := timestamp; md_correlationId := corr;
           md_causationId := caus; md_userId := user;
           md_version := option_map (fun f => f (ev_name e)) resolver;
           md_aggregateName := Some name; md_aggregateId := Some i;
           md_sequenceNumber := Some (version + index + 1)%nat;
           md_traceparent := tc_traceparent trace; md_tracestate := tc_tracestate trace |}))
      index es w = (Ok es', w') /\
    same_but_host host w w' /\
    enriched name i corr caus user resolver (version + index) es es'.
Proof.
  revert index w. induction es as [| e es IH]; intros index w.
  { exists [], w. split; [done |]. split; [apply sbh_refl | constructor]. }
  destruct (zoom_uuid_run w) as (u & w1 & E1 & H1).
  destruct (zoom_now_run w1) as (t & w2 & E2 & H2).
  destruct (IH (S index) w2) as (es' & w3 & E3 & H3 & Hes).
  rewrite Nat.add_succ_r in Hes.
  do 2 eexists. split; [| split].
  - rewrite map_indexed_cons. unfold bind at 1. rewrite E1. unfold bind at 1. rewrite E2.
    unfold ret at 1. rewrite E3. reflexivity.
  - eapply sbh_trans; [exact H1 |]. eapply sbh_trans; [exact H2 | exact H3].
  - econstructor; [reflexivity | done | done | done | done | done | done | | exact Hes].
    simpl. f_equal. lia.
Qed.
End host_effects.

(** ** Properties *)

(** Enriching the events of one command sets, on every event, the aggregate's
    name and identifier, consecutive sequence numbers that continue the version
    the aggregate had, one correlation identifier shared by the whole batch, the
    causation identifier of the context or else the fallback, and the current
    schema version; names, payloads and order are those of the handler.  A key
    that the active context has, even with the value [undefined], hides the
    provider's; only when the result is nullish is a default taken.  Outside the
    clock and the random numbers nothing changes. *)
Theorem enrich_spec {W} (host : lens W Host) `{!LensLaws host}
    (provider : option MetadataContext) (override : option MetadataContext) (events : list event)
    (name : string) (i : ID) (version : nat) (fallback : string) (resolver : option (string -> Z)) (w : W) :
  let pick {A} (f : MetadataContext -> option (option A)) :=
    match match override with Some c => f c | None => None end with
    | Some v => v
    | None => match provider with Some c => field (f c) | None => None end
    end in
  exists events' corr w',
    enrich host (option_map ret provider) None override events name i version fallback resolver w
    = (Ok events', w') /\
    same_but_host host w w' /\
    enriched name i corr (or_default (pick mc_causationId) fallback) (pick mc_userId) resolver
      version events events' /\
    (forall c, pick mc_correlationId = Some c -> corr = c).
Proof.
  intros pick. unfold enrich.
  set (pctx := or_default provider empty_context).
  set (merged := merge_context pctx (or_default override empty_context)).
  assert (Hpick : forall A (f : MetadataContext -> option (option A)),
    f empty_context = None ->
    f merged = match f (or_default override empty_context) with Some v => Some v | None => f pctx end ->
    field (f merged) = pick A f).
  { intros A f Hf0 Hf. rewrite Hf. unfold pick, pctx, field.
    destruct override as [o |]; simpl.
    - destruct (f o); [done |]. destruct provider; simpl; [done |]. by rewrite Hf0.
    - rewrite Hf0. destruct provider; simpl; [done |]. by rewrite Hf0. }
  assert (Hprov : forall k : MetadataContext -> M W (list event),
    bind match option_map ret provider with Some p => p | None => ret empty_context end k w = k pctx w).
  { intros k. unfold pctx. by destruct provider. }
  rewrite Hprov. fold merged.
  rewrite <- (Hpick _ mc_causationId eq_refl), <- (Hpick _ mc_userId eq_refl),
    <- (Hpick _ mc_correlationId eq_refl)
    by (subst merged; simpl; by destruct (_ (or_default override empty_context))).
  destruct (field (mc_correlationId merged)) as [c |].
  - destruct (map_indexed_enriched host name i c (or_default (field (mc_causationId merged)) fallback)
      (field (mc_userId merged)) resolver no_trace version 0 events w) as (es' & w' & E & Hw & Hes).
    exists es', c, w'. rewrite Nat.add_0_r in Hes. split; [exact E |]. split; [done |].
    split; [done |]. by intros ? [= ->].
  - destruct (zoom_uuid_run host w) as (c & w1 & E1 & Hw1).
    destruct (map_indexed_enriched host name i c (or_default (field (mc_causationId merged)) fallback)
      (field (mc_userId merged)) resolver no_trace version 0 events w1) as (es' & w' & E & Hw & Hes).
    exists es', c, w'. rewrite Nat.add_0_r in Hes. split; [unfold bind; rewrite E1; exact E |].
    split; [eapply sbh_trans; [done | exact Hw1 | exact Hw] |]. split; [done |]. done.
Qed.

Definition id_lens {A} : lens A A := Lens (fun a => a) (fun a _ => a).
#[export] Instance id_lens_laws {A} : LensLaws (@id_lens A).
Proof. by split. Qed.

(** A saga's context with an explicitly undefined user hides the provider's user. *)
Lemma enrich_spec_witness :
  exists events' corr w',
    enrich id_lens
      (Some (ret {| mc_correlationId := None; mc_causationId := None; mc_userId := Some (Some (IdStr "bob")) |}))
      None (Some {| mc_correlationId := Some (Some "c"%string); mc_causationId := None; mc_userId := Some None |})
      [{| ev_name := "Paid"; ev_payload := VNull; ev_metadata := None |}]
      "Order" (IdNum 3) 4 "Pay" None sample_host = (Ok events', w') /\
    enriched "Order" (IdNum 3) corr "Pay" None None 4
      [{| ev_name := "Paid"; ev_payload := VNull; ev_metadata := None |}] events' /\ corr = "c"%string.
Proof.
  destruct (enrich_spec id_lens
    (Some {| mc_correlationId := None; mc_causationId := None; mc_userId := Some (Some (IdStr "bob")) |})
    (Some {| mc_correlationId := Some (Some "c"%string); mc_causationId := None; mc_userId := Some None |})
    [{| ev_name := "Paid"; ev_payload := VNull; ev_metadata := None |}]
    "Order" (IdNum 3) 4 "Pay" None sample_host) as (es & corr & w' & H1 & _ & H3 & H4).
  exists es, corr, w'. split; [exact H1 |]. split; [exact H3 |]. apply H4. reflexivity.
Defined.
