(* ===== verification/Concurrency.v ===== *)
(** Concurrency control ([engine/src/concurrency-strategy.ts]) and the state an
    asynchronous execution runs in: the world, and the two [AsyncLocalStorage]
    cells that hold the active unit of work and the active metadata context
    ([uowStorage], [metadataStorage] of [engine/src/domain.ts]). *)
From S2P Require Import Prelude JsMap CoreTypes UnitOfWork.

(** ** The execution state *)

Section exec.
Context {W Tx : Type}.

Record Exec : Type := {
  ex_world : W;
  ex_uow : option (UnitOfWork W Tx);      (** [uowStorage.getStore()] *)
  ex_meta : option MetadataContext        (** [metadataStorage.getStore()] *)
}.

Definition the_world : lens Exec W :=
  Lens ex_world (fun w s => {| ex_world := w; ex_uow := ex_uow s; ex_meta := ex_meta s |}).

#[export] Instance the_world_laws : LensLaws the_world.
Proof. by split; intros; repeat match goal with s : Exec |- _ => destruct s end. Qed.

Definition world_op {A} (m : M W A) : M Exec A := zoom the_world m.

Definition set_uow (u : option (UnitOfWork W Tx)) (s : Exec) : Exec :=
  {| ex_world := ex_world s; ex_uow := u; ex_meta := ex_meta s |}.
Definition set_meta (c : option MetadataContext) (s : Exec) : Exec :=
  {| ex_world := ex_world s; ex_uow := ex_uow s; ex_meta := c |}.

(** Code that works on a unit of work the caller holds (not the active one): the
    outcome, and the unit of work as the code leaves it. *)
Definition on_uow {A} (u : UnitOfWork W Tx) (m : M (UnitOfWork W Tx * W) A)
  : M Exec (result A * UnitOfWork W Tx) :=
  fun s => let '(r, (u', w')) := m (u, ex_world s) in
           (Ok (r, u'), {| ex_world := w'; ex_uow := ex_uow s; ex_meta := ex_meta s |}).

(** Code that works on the active unit of work [existingUow!]. *)
Definition on_active_uow {A} (m : M (UnitOfWork W Tx * W) A) : M Exec A :=
  fun s => match ex_uow s with
           | Some u => let '(r, (u', w')) := m (u, ex_world s) in
                       (r, {| ex_world := w'; ex_uow := Some u'; ex_meta := ex_meta s |})
           | None => (Err (TypeError "undefined"), s)
           end.

(** [uowStorage.run(uow, f)]: [f] runs with [uow] active and the previous value is
    restored; the outcome of [f] and the unit of work as [f] leaves it. *)
Definition run_with_uow {A} (u : UnitOfWork W Tx) (f : M Exec A) : M Exec (result A * UnitOfWork W Tx) :=
  fun s => let '(r, s') := f (set_uow (Some u) s) in
           (Ok (r, or_default (ex_uow s') u), set_uow (ex_uow s) s').

(** [metadataStorage.run(ctx, f)] *)
Definition run_with_meta {A} (c : MetadataContext) (f : M Exec A) : M Exec A :=
  fun s => let '(r, s') := f (set_meta (Some c) s) in (r, set_meta (ex_meta s) s').

(** ** The interfaces *)

(** [AggregateLocker], as an awaited call sees it. *)
Record AggregateLocker : Type := {
  al_acquire : string -> ID -> option Z -> M W unit;
  al_release : string -> ID -> M W unit
}.

(** [ConcurrencyStrategy].  [execute] returns what the attempt returns. *)
Record ConcurrencyStrategy : Type := {
  cs_execute : forall A, string -> ID -> M Exec A -> M Exec A;
  cs_acquireForUow : option (string -> ID -> M (UnitOfWork W Tx * W) unit)
}.

(** ** OptimisticConcurrencyStrategy *)

(** The loop from the attempt number [i] on, [n] attempts being left. *)
Fixpoint retry_loop {A} (n : nat) (i maxRetries : Z) (attempt : M Exec A) : M Exec A :=
  match n with
  | O => throw (PlainError "unreachable: retry loop exhausted without result")
  | S n' =>
      try_catch attempt (fun error =>
        if is_concurrency_error error && (i <? maxRetries)%Z
        then retry_loop n' (i + 1) maxRetries attempt
        else throw error)
  end.

Definition optimistic_execute (maxRetries : Z) {A} (_aggregateName : string) (_aggregateId : ID)
    (attempt : M Exec A) : M Exec A :=
  retry_loop (Z.to_nat (maxRetries + 1)) 0 maxRetries attempt.

Definition OptimisticConcurrencyStrategy (maxRetries : Z) : ConcurrencyStrategy :=
  {| cs_execute := @optimistic_execute maxRetries; cs_acquireForUow := None |}.

(** ** PessimisticConcurrencyStrategy *)

Definition pessimistic_execute (locker : AggregateLocker) (timeoutMs : option Z) {A}
    (aggregateName : string) (aggregateId : ID) (attempt : M Exec A) : M Exec A :=
  world_op (al_acquire locker aggregateName aggregateId timeoutMs) ;;;
  try_finally attempt (world_op (al_release locker aggregateName aggregateId)).

Definition pessimistic_acquireForUow (locker : AggregateLocker) (timeoutMs : option Z)
    (aggregateName : string) (aggregateId : ID) : M (UnitOfWork W Tx * W) unit :=
  zoom world_of (al_acquire locker aggregateName aggregateId timeoutMs) ;;;
  zoom uow_of (onUowSettled (al_release locker aggregateName aggregateId)).

Definition PessimisticConcurrencyStrategy (locker : AggregateLocker) (timeoutMs : option Z)
  : ConcurrencyStrategy :=
  {| cs_execute := @pessimistic_execute locker timeoutMs;
     cs_acquireForUow := Some (pessimistic_acquireForUow locker timeoutMs) |}.

(** ** PerAggregateConcurrencyStrategy *)

Definition strategy_for (strategies : jsmap ConcurrencyStrategy) (defaultStrategy : ConcurrencyStrategy)
    (aggregateName : string) : ConcurrencyStrategy :=
  or_default (mget aggregateName strategies) defaultStrategy.

Definition PerAggregateConcurrencyStrategy (strategies : jsmap ConcurrencyStrategy)
    (defaultStrategy : ConcurrencyStrategy) : ConcurrencyStrategy :=
  {| cs_execute := fun A name i attempt =>
       cs_execute (strategy_for strategies defaultStrategy name) A name i attempt;
     cs_acquireForUow := Some (fun name i =>
       match cs_acquireForUow (strategy_for strategies defaultStrategy name) with
       | Some acquire => acquire name i
       | None => ret tt
       end) |}.

(** ** What a locker promises

    [held w k]: the lock of the instance with key [k] is held. *)
Class LockerSpec (locker : AggregateLocker) (held : W -> string -> bool) : Prop := {
  al_acquire_spec : forall w name i t,
    wp (al_acquire locker name i t)
       (fun _ w' => held w (composite_key name i) = false /\
          forall k, held w' k = if String.eqb k (composite_key name i) then true else held w k)
       (fun _ w' => forall k, held w' k = held w k) w;
  al_release_spec : forall w name i, exists w',
    al_release locker name i w = (Ok tt, w') /\
    forall k, held w' k = if String.eqb k (composite_key name i) then false else held w k
}.

(** ** Facts *)

(** [n] runs of [attempt] in a row, each refused with a [ConcurrencyError]. *)
Inductive conflicts {A} (attempt : M Exec A) : nat -> Exec -> Exec -> Prop :=
| conflicts_0 s : conflicts attempt 0 s s
| conflicts_S n s s1 s2 e :
    attempt s = (Err e, s1) -> is_concurrency_error e = true ->
    conflicts attempt n s1 s2 -> conflicts attempt (S n) s s2.

(** How a retried execution can end. *)
Definition retried {A} (maxRetries : nat) (attempt : M Exec A) (s : Exec) (r : result A) (s' : Exec) : Prop :=
  exists k s1, (k <= maxRetries)%nat /\ conflicts attempt k s s1 /\ attempt s1 = (r, s') /\
    match r with
    | Ok _ => True
    | Err e => is_concurrency_error e = false \/ k = maxRetries
    end.

Lemma retry_loop_spec {A} (attempt : M Exec A) n i (maxRetries : Z) s :
  (0 <= i <= maxRetries)%Z -> Z.of_nat n = (maxRetries - i + 1)%Z ->
  let '(r, s') := retry_loop n i maxRetries attempt s in
  retried (Z.to_nat (maxRetries - i)) attempt s r s'.
Proof.
  revert i s. induction n as [| n IH]; intros i s Hi Hn; [lia |]. simpl. unfold try_catch.
  destruct (attempt s) as [[a | e] s1] eqn:E.
  { exists 0%nat, s. split; [lia |]. split; [constructor | done]. }
  destruct (is_concurrency_error e) eqn:Ec; simpl.
  - destruct (Z.ltb_spec i maxRetries) as [Hlt | Hge].
    + specialize (IH (i + 1)%Z s1 ltac:(lia) ltac:(lia)).
      destruct (retry_loop n (i + 1) maxRetries attempt s1) as [r s'].
      destruct IH as (k & s2 & Hk & Hc & Ha & Hr). exists (S k), s2.
      split; [lia |]. split; [by econstructor |]. split; [done |].
      destruct r; [done |]. destruct Hr; [by left | right; lia].
    + exists 0%nat, s. split; [lia |]. split; [constructor |]. split; [exact E | right; lia].
  - exists 0%nat, s. split; [lia |]. split; [constructor |]. split; [exact E | by left].
Qed.
End exec.
Arguments Exec : clear implicits.
Arguments AggregateLocker : clear implicits.
Arguments ConcurrencyStrategy : clear implicits.
Arguments cs_execute {W Tx} _ {A} _ _ _.

(** ** Properties *)

(** The optimistic strategy makes at most [maxRetries + 1] attempts: it retries
    after a [ConcurrencyError] and only then, from the state the failed attempt
    left, and returns the outcome of its last attempt unchanged: a success, an
    error of another kind, or the conflict of the last permitted attempt. *)
Theorem optimistic_retry_bound {W Tx A} (maxRetries : nat) (name : string) (i : ID)
    (attempt : M (Exec W Tx) A) (s : Exec W Tx) :
  let '(r, s') := cs_execute (OptimisticConcurrencyStrategy (Z.of_nat maxRetries)) name i attempt s in
  retried maxRetries attempt s r s'.
Proof.
  simpl. unfold optimistic_execute.
  pose proof (retry_loop_spec attempt (Z.to_nat (Z.of_nat maxRetries + 1)) 0 (Z.of_nat maxRetries) s
    ltac:(lia) ltac:(lia)) as H.
  destruct (retry_loop _ _ _ attempt s) as [r s'].
  by replace (Z.to_nat (Z.of_nat maxRetries - 0)) with maxRetries in H by lia.
Qed.

(** The pessimistic strategy never leaks its lock: if it cannot be acquired
    the attempt does not run and no lock changes; otherwise the attempt runs with
    the lock held and, whether it succeeds or fails, the lock is free afterwards
    and the outcome is the attempt's. *)
Theorem pessimistic_releases {W Tx A} (locker : AggregateLocker W) (held : W -> string -> bool)
    `{!LockerSpec locker held} (timeoutMs : option Z) (name : string) (i : ID)
    (attempt : M (Exec W Tx) A) (s : Exec W Tx) :
  let k := composite_key name i in
  let '(r, s') := cs_execute (PessimisticConcurrencyStrategy locker timeoutMs) name i attempt s in
  match al_acquire locker name i timeoutMs (ex_world s) with
  | (Err e, w1) => r = Err e /\ s' = lset the_world w1 s /\ forall k', held w1 k' = held (ex_world s) k'
  | (Ok _, w1) => held w1 k = true /\
      exists s2, attempt (lset the_world w1 s) = (r, s2) /\ held (ex_world s') k = false /\
        (forall k', k' <> k -> held (ex_world s') k' = held (ex_world s2) k')
  end.
Proof.
  simpl. unfold pessimistic_execute, bind, world_op, zoom at 1. simpl.
  pose proof (al_acquire_spec (ex_world s) name i timeoutMs) as Ha. unfold wp in Ha.
  destruct (al_acquire locker name i timeoutMs (ex_world s)) as [[[] | e] w1]; [| by split].
  unfold try_finally. simpl.
  destruct (attempt _) as [r s2] eqn:E. unfold zoom.
  destruct (al_release_spec (ex_world s2) name i) as (w3 & Hr & Hw3). simpl. rewrite Hr.
  split; [destruct Ha as [_ ->]; by rewrite String.eqb_refl |].
  exists s2. split; [done |]. simpl. split; [by rewrite Hw3, String.eqb_refl |].
  intros k' Hk'. rewrite Hw3. by apply String.eqb_neq in Hk' as ->.
Qed.

(** A locker that keeps the list of held keys and fails when one is taken. *)
Definition list_locker : AggregateLocker (list string) :=
  {| al_acquire := fun name i _ => held <- get ;;
       if existsb (String.eqb (composite_key name i)) held
       then throw (LockTimeoutError name i 5)
       else modify (cons (composite_key name i));
     al_release := fun name i => modify (List.filter (fun k => negb (String.eqb k (composite_key name i)))) |}.

#[export] Instance list_locker_spec :
  LockerSpec list_locker (fun held k => existsb (String.eqb k) held).
Proof.
  split.
  - intros w name i t. unfold wp. simpl. unfold bind, get.
    destruct (existsb (String.eqb (composite_key name i)) w) eqn:E; simpl; [done |].
    split; [done |]. intros k. by destruct (String.eqb k (composite_key name i)).
  - intros w name i. eexists. split; [reflexivity |]. intros k. simpl.
    set (key := composite_key name i).
    induction w as [| x w IH]; simpl; [by destruct (String.eqb k key) |].
    destruct (String.eqb_spec x key) as [-> | Hne]; simpl; rewrite IH;
      destruct (String.eqb_spec k key) as [Ek | Ek]; try done.
    rewrite Ek. apply not_eq_sym, String.eqb_neq in Hne. by rewrite Hne.
Qed.

Lemma pessimistic_releases_witness :
  exists s2 : Exec (list string) unit,
    throw (A := unit) (PlainError "boom") {| ex_world := ["A:1"%string]; ex_uow := None; ex_meta := None |}
    = (Err (PlainError "boom"), s2).
Proof.
  pose proof (pessimistic_releases (Tx := unit) (A := unit) list_locker
    (fun held k => existsb (String.eqb k) held) None "A" (IdNum 1) (throw (PlainError "boom"))
    {| ex_world := []; ex_uow := None; ex_meta := None |}) as H.
  cbv zeta in H. simpl in H. destruct H as (_ & s2 & H & _). exists s2. exact H.
Defined.

(** C28. Inside an owning unit of work the lock outlives the command: it is held
    when [acquireForUow] returns, and settling the unit of work, by commit or by
    rollback, releases it, whatever hooks were registered before, provided they do
    not fail and do not take the lock themselves. *)
Theorem pessimistic_held_until_settled {W Tx} (locker : AggregateLocker W) (held : W -> string -> bool)
    `{!LockerSpec locker held} (timeoutMs : option Z) (name : string) (i : ID) (u u1 : UnitOfWork W Tx)
    (w w1 w2 w3 : W) (committed : bool) :
  let k := composite_key name i in
  pessimistic_acquireForUow locker timeoutMs name i (u, w) = (Ok tt, (u1, w1)) ->
  for_each ((if committed then hk_onCommitted (getOrCreate u) else []) ++ hk_onSettled (getOrCreate u))
    (fun hook => hook) w2 = (Ok tt, w3) ->
  held w1 k = true /\
  match runUowCompletionHooks committed (u1, w2) with
  | (r, (_, w')) => r = Ok tt /\ held w' k = false
  end.
Proof.
  intros k H Hhooks. unfold pessimistic_acquireForUow, bind, zoom, onUowSettled, modify in H. simpl in H.
  pose proof (al_acquire_spec w name i timeoutMs) as Ha. unfold wp in Ha.
  destruct (al_acquire locker name i timeoutMs w) as [[[] | e] w'] eqn:E; [| done]. injection H as <- <-.
  destruct Ha as [_ Hheld]. split; [by rewrite Hheld, String.eqb_refl |].
  remember (getOrCreate u) as hooks eqn:Eh. clear Eh.
  unfold runUowCompletionHooks, bind at 1, gets, zoom, modify. simpl.
  destruct (al_release_spec w3 name i) as (w4 & Hr & Hw4).
  assert (Hfin : forall w5, for_each (hk_onSettled hooks) (fun hook => hook) w5 = (Ok tt, w3) ->
    for_each (hk_onSettled hooks ++ [al_release locker name i]) (fun hook => hook) w5 = (Ok tt, w4)).
  { intros w5 H5. rewrite for_each_app. unfold bind. rewrite H5. simpl. unfold bind. by rewrite Hr. }
  rewrite for_each_app in Hhooks. unfold bind in Hhooks |- *. destruct committed; simpl.
  - destruct (for_each (hk_onCommitted hooks) (fun hook => hook) w2) as [[[] | e] w5]; [| done].
    simpl. rewrite (Hfin _ Hhooks). split; [done |]. by rewrite Hw4, String.eqb_refl.
  - unfold ret in *. simpl in *. rewrite (Hfin _ Hhooks).
    split; [done |]. by rewrite Hw4, String.eqb_refl.
Qed.

Lemma pessimistic_held_until_settled_witness :
  existsb (String.eqb "A:1") ["A:1"%string] = true.
Proof.
  refine (proj1 (pessimistic_held_until_settled (Tx := unit) list_locker
    (fun held k => existsb (String.eqb k) held) None "A" (IdNum 1) new_uow _ [] ["A:1"%string]
    ["A:1"%string] ["A:1"%string] true _ _)); reflexivity.
Defined.
