(* ===== verification/World.v ===== *)
(** The in-memory world: the platform and one instance of every in-memory store,
    each reached through a lens.  The store classes of [Stores.v], [Idempotency.v]
    and [Outbox.v] become operations of this world, and meet the specifications
    that the executors are verified against; an operation of one store leaves the
    others alone. *)
From S2P Require Import Prelude JsMap CoreTypes Host Stores Idempotency Outbox.

Record World : Type := {
  w_host : Host;
  w_events : EventStore.store;
  w_states : StateStore.store;
  w_sagas : SagaStore.store;
  w_snaps : SnapStore.store;
  w_idem : CommandIdempotency.store;
  w_outbox : OutboxMemory.store;
  w_views : jsmap Views.store;   (** one view store per projection *)
  w_log : list event             (** what the event bus has been given *)
}.

Definition host_lens : lens World Host := Lens w_host (fun x w =>
  {| w_host := x; w_events := w_events w; w_states := w_states w; w_sagas := w_sagas w;
     w_snaps := w_snaps w; w_idem := w_idem w; w_outbox := w_outbox w; w_views := w_views w; w_log := w_log w |}).
Definition events_lens : lens World EventStore.store := Lens w_events (fun x w =>
  {| w_host := w_host w; w_events := x; w_states := w_states w; w_sagas := w_sagas w;
     w_snaps := w_snaps w; w_idem := w_idem w; w_outbox := w_outbox w; w_views := w_views w; w_log := w_log w |}).
Definition states_lens : lens World StateStore.store := Lens w_states (fun x w =>
  {| w_host := w_host w; w_events := w_events w; w_states := x; w_sagas := w_sagas w;
     w_snaps := w_snaps w; w_idem := w_idem w; w_outbox := w_outbox w; w_views := w_views w; w_log := w_log w |}).
Definition sagas_lens : lens World SagaStore.store := Lens w_sagas (fun x w =>
  {| w_host := w_host w; w_events := w_events w; w_states := w_states w; w_sagas := x;
     w_snaps := w_snaps w; w_idem := w_idem w; w_outbox := w_outbox w; w_views := w_views w; w_log := w_log w |}).
Definition snaps_lens : lens World SnapStore.store := Lens w_snaps (fun x w =>
  {| w_host := w_host w; w_events := w_events w; w_states := w_states w; w_sagas := w_sagas w;
     w_snaps := x; w_idem := w_idem w; w_outbox := w_outbox w; w_views := w_views w; w_log := w_log w |}).
Definition idem_lens : lens World CommandIdempotency.store := Lens w_idem (fun x w =>
  {| w_host := w_host w; w_events := w_events w; w_states := w_states w; w_sagas := w_sagas w;
     w_snaps := w_snaps w; w_idem := x; w_outbox := w_outbox w; w_views := w_views w; w_log := w_log w |}).
Definition outbox_lens : lens World OutboxMemory.store := Lens w_outbox (fun x w =>
  {| w_host := w_host w; w_events := w_events w; w_states := w_states w; w_sagas := w_sagas w;
     w_snaps := w_snaps w; w_idem := w_idem w; w_outbox := x; w_views := w_views w; w_log := w_log w |}).
Definition views_lens : lens World (jsmap Views.store) := Lens w_views (fun x w =>
  {| w_host := w_host w; w_events := w_events w; w_states := w_states w; w_sagas := w_sagas w;
     w_snaps := w_snaps w; w_idem := w_idem w; w_outbox := w_outbox w; w_views := x; w_log := w_log w |}).
Definition log_lens : lens World (list event) := Lens w_log (fun x w =>
  {| w_host := w_host w; w_events := w_events w; w_states := w_states w; w_sagas := w_sagas w;
     w_snaps := w_snaps w; w_idem := w_idem w; w_outbox := w_outbox w; w_views := w_views w; w_log := x |}).

Ltac lens_laws := by split; intros; repeat match goal with s : World |- _ => destruct s end.
#[export] Instance host_lens_laws : LensLaws host_lens. Proof. lens_laws. Qed.
#[export] Instance events_lens_laws : LensLaws events_lens. Proof. lens_laws. Qed.
#[export] Instance states_lens_laws : LensLaws states_lens. Proof. lens_laws. Qed.
#[export] Instance sagas_lens_laws : LensLaws sagas_lens. Proof. lens_laws. Qed.
#[export] Instance snaps_lens_laws : LensLaws snaps_lens. Proof. lens_laws. Qed.
#[export] Instance idem_lens_laws : LensLaws idem_lens. Proof. lens_laws. Qed.
#[export] Instance outbox_lens_laws : LensLaws outbox_lens. Proof. lens_laws. Qed.
#[export] Instance views_lens_laws : LensLaws views_lens. Proof. lens_laws. Qed.
#[export] Instance log_lens_laws : LensLaws log_lens. Proof. lens_laws. Qed.

Definition empty_world (h : Host) : World :=
  {| w_host := h; w_events := empty; w_states := empty; w_sagas := empty; w_snaps := empty;
     w_idem := empty; w_outbox := empty; w_views := empty; w_log := [] |}.

(** ** The stores as operations of the world *)

Definition zoom_events {W S} (l : lens W S) (p : EventSourcedPersistence S) : EventSourcedPersistence W :=
  {| es_load := fun n i => zoom l (es_load p n i);
     es_save := fun n i evs v => zoom l (es_save p n i evs v);
     es_loadAfterVersion := option_map (fun f n i v => zoom l (f n i v)) (es_loadAfterVersion p) |}.

Definition zoom_states {W S} (l : lens W S) (p : StateStoredPersistence S) : StateStoredPersistence W :=
  {| ss_load := fun n i => zoom l (ss_load p n i);
     ss_save := fun n i s v sv => zoom l (ss_save p n i s v sv) |}.

Definition zoom_sagas {W S} (l : lens W S) (p : SagaPersistence S) : SagaPersistence W :=
  {| sp_load := fun n i => zoom l (sp_load p n i);
     sp_save := fun n i s v => zoom l (sp_save p n i s v) |}.

Definition zoom_snaps {W S} (l : lens W S) (p : SnapshotStore S) : SnapshotStore W :=
  {| sn_load := fun n i => zoom l (sn_load p n i);
     sn_save := fun n i s => zoom l (sn_save p n i s) |}.

Definition world_events : EventSourcedPersistence World := zoom_events events_lens EventStore.persistence.
Definition world_states : StateStoredPersistence World := zoom_states states_lens StateStore.persistence.
Definition world_sagas : SagaPersistence World := zoom_sagas sagas_lens SagaStore.persistence.
Definition world_snaps : SnapshotStore World := zoom_snaps snaps_lens SnapStore.persistence.

(** [new InMemoryIdempotencyStore(ttlMs)]: the methods read the clock. *)
Definition world_idempotency (ttlMs : option Z) : IdempotencyStore World :=
  {| id_exists := fun i => now <- zoom host_lens date_now ;;
                           zoom idem_lens (CommandIdempotency.exists_ ttlMs now i);
     id_save := fun r => now <- zoom host_lens date_now ;;
                         zoom idem_lens (CommandIdempotency.save ttlMs now r);
     id_remove := fun i => zoom idem_lens (CommandIdempotency.remove i);
     id_removeExpired := fun ttl => now <- zoom host_lens date_now ;;
                                    zoom idem_lens (CommandIdempotency.removeExpired now ttl) |}.

(** [new InMemoryOutboxStore()] *)
Definition world_outbox : OutboxStore World :=
  {| ox_save := fun es => zoom outbox_lens (OutboxMemory.save es);
     ox_loadUnpublished := fun n => zoom outbox_lens (OutboxMemory.loadUnpublished n);
     ox_markPublished := fun ids => now <- zoom host_lens date_now ;;
                                    zoom outbox_lens (OutboxMemory.markPublished now ids);
     ox_markPublishedByEventIds := fun ids => now <- zoom host_lens date_now ;;
                                    zoom outbox_lens (OutboxMemory.markPublishedByEventIds now ids);
     ox_deletePublished := fun d => zoom outbox_lens (OutboxMemory.deletePublished d) |}.

(** The view store of one projection. *)
Definition view_lens (projection : string) : lens World Views.store :=
  Lens (fun w => or_default (mget projection (w_views w)) [])
       (fun x w => lset views_lens (mset projection x (w_views w)) w).

Definition zoom_view {W S} (l : lens W S) (v : ViewStore S) : ViewStore W :=
  {| vs_save := fun i x => zoom l (vs_save v i x);
     vs_load := fun i => zoom l (vs_load v i);
     vs_delete := fun i => zoom l (vs_delete v i);
     vs_truncate := option_map (zoom l) (vs_truncate v) |}.

Definition world_view (projection : string) : ViewStore World :=
  zoom_view (view_lens projection) Views.persistence.

(** An event bus that records what it is given. *)
Definition log_dispatch (e : event) : M World unit := zoom log_lens (modify (fun l => l ++ [e])).

(** ** The specifications hold of the world *)

Definition world_stream (w : World) (k : string) : list event := EventStore.stream_of (w_events w) k.
Definition world_snap (w : World) (k : string) : option Snapshot := mget k (w_snaps w).

#[export] Instance world_events_spec : EventStoreSpec world_events world_stream.
Proof.
  split.
  - intros w n i. by destruct w.
  - intros f w n i v [= <-]. by destruct w.
  - intros w n i evs v. pose proof (es_save_spec (P := EventStore.persistence) (w_events w) n i evs v) as H.
    cbn zeta in *. simpl in *. unfold wp, zoom in *. simpl in *.
    destruct (EventStore.save n i evs v (w_events w)) as [[[] | e] st]; simpl; [done |].
    destruct H as (-> & H1 & H2 & ->). by destruct w.
Qed.

#[export] Instance world_snaps_spec : SnapshotStoreSpec world_snaps world_snap.
Proof.
  split.
  - intros w n i. by destruct w.
  - intros w n i s. eexists. split; [reflexivity |]. intros k. apply mget_mset.
Qed.

Definition world_saga (w : World) (k : string) : option SagaState := mget k (w_sagas w).

#[export] Instance world_sagas_spec :
  VersionedStoreSpec (sp_load world_sagas)
    (fun name i a => sp_save world_sagas name i (ga_state a) (pred (ga_version a))) ga_version world_saga.
Proof.
  split; [by intros [] name i |].
  intros w name i a v k Hv. pose proof (vr_save_spec (w_sagas w) name i a v Hv) as H. cbv zeta in H.
  unfold wp in *. simpl in *. unfold zoom. simpl.
  destruct (SagaStore.save name i (ga_state a) (pred (ga_version a)) (w_sagas w)) as [[[] | e] st];
    simpl; [exact H |].
  destruct H as (-> & H & ->). split; [done |]. split; [done |]. by destruct w.
Qed.
