(* ===== verification/CommandExecutor.v ===== *)
(** The command lifecycle: [engine/src/executors/command-lifecycle-executor.ts]
    and [engine/src/aggregate-persistence-resolver.ts].  The executor is defined
    over any world [W]; its collaborators (constructor arguments in the source)
    are the variables of the section.  A unit of work that the code mutates while
    others hold it is threaded explicitly, so that what was enlisted before an
    error is still there after it. *)
From S2P Require Import Prelude JsMap CoreTypes Upcaster Host Stores Idempotency UnitOfWork Concurrency Metadata.

(** [PersistenceConfiguration]: [Array.isArray(loaded)] tells the two apart. *)
Inductive PersistenceConfiguration (W : Type) : Type :=
| EventSourced (p : EventSourcedPersistence W)
| StateStored (p : StateStoredPersistence W).
Arguments EventSourced {W} _.
Arguments StateStored {W} _.

(** ** Persistence resolvers *)

Definition persistence_resolver (W : Type) : Type := string -> result (PersistenceConfiguration W).

Definition GlobalAggregatePersistenceResolver {W} (persistence : PersistenceConfiguration W)
  : persistence_resolver W :=
  fun _aggregateName => Ok persistence.

Definition PerAggregatePersistenceResolver {W} (m : jsmap (PersistenceConfiguration W))
  : persistence_resolver W :=
  fun aggregateName =>
    match mget aggregateName m with
    | None => Err (PlainError (String.append "No persistence configured for aggregate " (quoted aggregateName)))
    | Some persistence => Ok persistence
    end.

(** What [snapshotResolver] returns. *)
Record SnapshotConfig (W : Type) : Type := { cf_store : SnapshotStore W; cf_strategy : SnapshotStrategy }.
Arguments cf_store {W} _.
Arguments cf_strategy {W} _.

Record PendingSnapshot : Type := {
  ps_aggregateName : string; ps_aggregateId : ID; ps_snapshot : Snapshot
}.

(** [command.targetAggregateId] of an aggregate command. *)
Definition target (c : command) : ID := or_default (cmd_targetAggregateId c) (IdStr "undefined").

(** One turn of a replay: [applyHandler ? applyHandler(event.payload, state) : state]. *)
Definition evolve_step (evolve : jsmap evolve_handler) (state : value) (e : event) : result value :=
  match mget (ev_name e) evolve with
  | Some applyHandler => applyHandler (ev_payload e) state
  | None => Ok state
  end.

(** [upcastedEvents.reduce(...)] over [aggregate.upcasters ? upcastEvents(...) : events]. *)
Definition replay {W} (aggregate : Aggregate W) (events : list event) (state : value) : result value :=
  result_bind (upcast_if (ag_upcasters aggregate) events) (fun upcastedEvents =>
    fold_result (evolve_step (ag_evolve aggregate)) upcastedEvents state).

(** What step 1 of the lifecycle computes. *)
Record Loaded : Type := {
  ld_snapshot : option Snapshot;
  ld_state : value;
  ld_version : nat;
  ld_isEventSourced : bool
}.

Section executor.
Context {W Tx : Type} (host : lens W Host)
  (persistenceResolver : persistence_resolver W)
  (dispatch : event -> M (Exec W Tx) unit)
  (run_commit : list (operation W Tx) -> M W unit)
  (concurrencyStrategy : ConcurrencyStrategy W Tx)
  (enrich_events : option MetadataContext -> list event -> string -> ID -> nat -> string ->
                   option (string -> Z) -> M W (list event))
  (snapshotResolver : option (string -> option (SnapshotConfig W)))
  (idempotencyStore : option (IdempotencyStore W))
  (onEventsProduced : option (list event -> M (UnitOfWork W Tx * W) unit))
  (onEventsDispatched : option (list event -> M (Exec W Tx) unit)).

(** [this.snapshotResolver?.(aggregateName)] *)
Definition snapshot_config (aggregateName : string) : option (SnapshotConfig W) :=
  match snapshotResolver with Some r => r aggregateName | None => None end.

(** Step 1: load, from the snapshot if there is one. *)
Definition load_aggregate (aggregateName : string) (aggregate : Aggregate W) (aggregateId : ID)
    (persistence : PersistenceConfiguration W) : M W Loaded :=
  snapshot <- match snapshot_config aggregateName with
              | Some c => sn_load (cf_store c) aggregateName aggregateId
              | None => ret None
              end ;;
  match snapshot with
  | Some sn =>
      events <- match persistence with
                | EventSourced p =>
                    match es_loadAfterVersion p with
                    | Some loadAfterVersion => loadAfterVersion aggregateName aggregateId (sn_version sn)
                    | None => allEvents <- es_load p aggregateName aggregateId ;;
                              ret (drop (sn_version sn) allEvents)
                    end
                | StateStored p =>
                    loaded <- ss_load p aggregateName aggregateId ;;
                    throw (TypeError "allEvents.slice is not a function")
                end ;;
      let version := (sn_version sn + length events)%nat in
      currentState <- lift_result (replay aggregate events (sn_state sn)) ;;
      ret {| ld_snapshot := Some sn; ld_state := currentState; ld_version := version;
             ld_isEventSourced := true |}
  | None =>
      match persistence with
      | EventSourced p =>
          events <- es_load p aggregateName aggregateId ;;
          let version := length events in
          currentState <- lift_result (replay aggregate events (ag_initialState aggregate)) ;;
          ret {| ld_snapshot := None; ld_state := currentState; ld_version := version;
                 ld_isEventSourced := true |}
      | StateStored p =>
          stateResult <- ss_load p aggregateName aggregateId ;;
          ret {| ld_snapshot := None;
                 ld_state := coalesce (or_default (option_map st_state stateResult) VUndefined)
                                      (ag_initialState aggregate);
                 ld_version := or_default (option_map st_version stateResult) 0%nat;
                 ld_isEventSourced := false |}
      end
  end.

Definition no_handler (commandName aggregateName : string) : js_error :=
  PlainError (String.append "No command handler found for command: "
    (String.append commandName (String.append " on aggregate: " aggregateName))).

(** Step 5: the operation that saves the outcome. *)
Definition save_operation (persistence : PersistenceConfiguration W) (aggregateName : string)
    (aggregateId : ID) (enrichedEvents : list event) (newState : value) (version : nat)
  : operation W Tx :=
  fun _ =>
    match persistence with
    | EventSourced p => es_save p aggregateName aggregateId enrichedEvents version
    | StateStored p => ss_save p aggregateName aggregateId newState version None
    end.

(** Step 5.5: the operation that claims the command. *)
Definition claim_operation (store : IdempotencyStore W) (commandId : ID) (aggregateName : string)
    (aggregateId : ID) : operation W Tx :=
  fun _ =>
    processedAt <- zoom host date_now ;;
    id_save store {| ir_commandId := commandId; ir_aggregateName := aggregateName;
                     ir_aggregateId := aggregateId; ir_processedAt := processedAt |}.

(** The load, execute, apply, enrich, enlist, defer cycle.  [metadata] is the
    active metadata context. *)
Definition executeLifecycle (metadata : option MetadataContext) (aggregateName : string)
    (aggregate : Aggregate W) (c : command) (persistence : PersistenceConfiguration W)
  : M (UnitOfWork W Tx * W) (option PendingSnapshot) :=
  loaded <- zoom world_of (load_aggregate aggregateName aggregate (target c) persistence) ;;
  let currentState := ld_state loaded in
  let version := ld_version loaded in
  match mget (cmd_name c) (ag_decide aggregate) with
  | None => throw (no_handler (cmd_name c) aggregateName)
  | Some handler =>
  result <- zoom world_of (handler c currentState) ;;
  let newEvents := normalize_decision result in
  newState <- lift_result (fold_result (evolve_step (ag_evolve aggregate)) newEvents currentState) ;;
  let eventVersionResolver :=
    option_map (fun ups name => currentEventVersion name ups) (ag_upcasters aggregate) in
  enrichedEvents <- zoom world_of (enrich_events metadata newEvents aggregateName (target c) version
                                     (cmd_name c) eventVersionResolver) ;;
  (zoom uow_of (enlist
     (match ld_isEventSourced loaded, persistence with
      | true, EventSourced _ | false, StateStored _ =>
          save_operation persistence aggregateName (target c) enrichedEvents newState version
      | _, _ => fun _ => throw (TypeError "save")
      end)) ;;;
  (match cmd_commandId c, idempotencyStore with
   | Some commandId, Some store =>
       zoom uow_of (enlist (claim_operation store commandId aggregateName (target c)))
   | _, _ => ret tt
   end ;;;
  (zoom uow_of (deferPublish enrichedEvents) ;;;
  (match onEventsProduced with Some f => f enrichedEvents | None => ret tt end ;;;
  match (if ld_isEventSourced loaded then snapshot_config aggregateName else None) with
  | None => ret None
  | Some config =>
      let newVersion := (version + length newEvents)%nat in
      let lastSnapshotVersion := or_default (option_map sn_version (ld_snapshot loaded)) 0%nat in
      let eventsSinceSnapshot := (Z.of_nat newVersion - Z.of_nat lastSnapshotVersion)%Z in
      if cf_strategy config {| sc_version := newVersion; sc_lastSnapshotVersion := lastSnapshotVersion;
                               sc_eventsSinceSnapshot := eventsSinceSnapshot |}
      then ret (Some {| ps_aggregateName := aggregateName; ps_aggregateId := target c;
                        ps_snapshot := {| sn_state := newState; sn_version := newVersion;
                                          sn_stateVersion := None |} |})
      else ret None
  end))))
  end.

(** One attempt of the implicit path: create the unit of work, run the lifecycle,
    commit; on an error, roll back as far as possible and rethrow. *)
Definition attempt_on_uow (metadata : option MetadataContext) (aggregateName : string)
    (aggregate : Aggregate W) (c : command) (persistence : PersistenceConfiguration W)
  : M (UnitOfWork W Tx * W) (list event * option PendingSnapshot) :=
  try_catch
    (pending <- executeLifecycle metadata aggregateName aggregate c persistence ;;
     events <- commit run_commit ;;
     ret (events, pending))
    (fun error => swallow (zoom uow_of rollback) ;;; throw error).

Definition attempt (aggregateName : string) (aggregate : Aggregate W) (c : command)
    (persistence : PersistenceConfiguration W) : M (Exec W Tx) (list event * option PendingSnapshot) :=
  metadata <- gets ex_meta ;;
  outcome <- on_uow new_uow (attempt_on_uow metadata aggregateName aggregate c persistence) ;;
  lift_result (fst outcome).

(** [snapshotConfig.store.save(...)] of a pending snapshot, best effort. *)
Definition save_snapshot (aggregateName : string) (pending : option PendingSnapshot) : M W unit :=
  match pending, snapshot_config aggregateName with
  | Some ps, Some config =>
      swallow (sn_save (cf_store config) (ps_aggregateName ps) (ps_aggregateId ps) (ps_snapshot ps))
  | _, _ => ret tt
  end.

(** [onEventsDispatched], best effort, when there are events. *)
Definition after_dispatch (events : list event) : M (Exec W Tx) unit :=
  match onEventsDispatched with
  | Some f => if (0 <? length events)%nat then swallow (f events) else ret tt
  | None => ret tt
  end.

(** The path without an active unit of work. *)
Definition execute_implicit (aggregateName : string) (aggregate : Aggregate W) (c : command)
    (persistence : PersistenceConfiguration W) : M (Exec W Tx) unit :=
  outcome <- cs_execute concurrencyStrategy aggregateName (target c)
               (attempt aggregateName aggregate c persistence) ;;
  let '(events, pending) := outcome in
  (world_op (save_snapshot aggregateName pending) ;;;
   (for_each events dispatch ;;;
    after_dispatch events)).

(** The path inside an active unit of work, which owns commit and publishing. *)
Definition execute_explicit (aggregateName : string) (aggregate : Aggregate W) (c : command)
    (persistence : PersistenceConfiguration W) : M (Exec W Tx) unit :=
  metadata <- gets ex_meta ;;
  let runLifecycle := on_active_uow (executeLifecycle metadata aggregateName aggregate c persistence) in
  pending <- match cs_acquireForUow concurrencyStrategy with
             | Some acquireForUow =>
                 on_active_uow (acquireForUow aggregateName (target c)) ;;; runLifecycle
             | None => cs_execute concurrencyStrategy aggregateName (target c) runLifecycle
             end ;;
  match pending, snapshot_config aggregateName with
  | Some ps, Some config =>
      on_active_uow (zoom uow_of (onUowCommitted (save_snapshot aggregateName (Some ps))))
  | _, _ => ret tt
  end.

(** The idempotency fast path. *)
Definition already_processed (c : command) : M (Exec W Tx) bool :=
  match cmd_commandId c, idempotencyStore with
  | Some commandId, Some store => world_op (id_exists store commandId)
  | _, _ => ret false
  end.

Definition execute (aggregateName : string) (aggregate : Aggregate W) (c : command) : M (Exec W Tx) unit :=
  alreadyProcessed <- already_processed c ;;
  if (alreadyProcessed : bool) then ret tt else
  persistence <- lift_result (persistenceResolver aggregateName) ;;
  existingUow <- gets ex_uow ;;
  match existingUow with
  | None => execute_implicit aggregateName aggregate c persistence
  | Some _ => execute_explicit aggregateName aggregate c persistence
  end.
End executor.

(** ** Facts about replay *)

Section replay_facts.
Context {W : Type} (aggregate : Aggregate W).

Lemma fold_result_app {A B} (f : B -> A -> result B) l1 l2 b :
  fold_result f (l1 ++ l2) b = result_bind (fold_result f l1 b) (fold_result f l2).
Proof. revert b. induction l1 as [| x l1 IH]; intros b; simpl; [done |].
  destruct (f b x); simpl; [apply IH | done]. Qed.

(** Replaying a history on top of the state of its first part. *)
Lemma replay_app l1 l2 s s1 :
  replay aggregate l1 s = Ok s1 -> replay aggregate (l1 ++ l2) s = replay aggregate l2 s1.
Proof.
  unfold replay. rewrite upcast_if_app.
  destruct (upcast_if _ l1) as [u1 |]; simpl; [| done].
  destruct (upcast_if _ l2) as [u2 |]; simpl; [| done].
  rewrite fold_result_app. by intros ->.
Qed.

(** Evolving depends on the name and the payload of an event only. *)
Lemma evolve_shape evolve es es' s :
  map ev_name es' = map ev_name es -> map ev_payload es' = map ev_payload es ->
  fold_result (evolve_step evolve) es' s = fold_result (evolve_step evolve) es s.
Proof.
  revert es' s. induction es as [| e es IH]; intros [| e' es'] s; simpl; try done.
  intros [= Hn Hns] [= Hp Hps]. unfold evolve_step at 1 3. rewrite Hn, Hp.
  destruct (match mget _ _ with Some _ => _ | None => _ end); simpl; [by apply IH | done].
Qed.

Lemma enriched_stamped name i corr caus user n es es' :
  enriched name i corr caus user
    (option_map (fun ups name => currentEventVersion name ups) (ag_upcasters aggregate)) n es es' ->
  Forall (stamped (ag_upcasters aggregate)) es'.
Proof.
  intros Hen. induction Hen as [| n e es e' es' md -> _ _ _ Hv _ _ _ _ IH]; constructor; [| done].
  unfold stamped, metadata_opt. simpl. rewrite Hv. by destruct (ag_upcasters aggregate).
Qed.

(** The events a command has produced, once stored, replay to the state that the
    command computed: their schema version is current, so no upcaster applies. *)
Lemma replay_enriched name i corr caus user n es es' s s' :
  enriched name i corr caus user
    (option_map (fun ups name => currentEventVersion name ups) (ag_upcasters aggregate)) n es es' ->
  fold_result (evolve_step (ag_evolve aggregate)) es s = Ok s' ->
  replay aggregate es' s = Ok s'.
Proof.
  intros Hen Hf. unfold replay. rewrite upcast_if_stamped.
  - simpl. destruct (enriched_shape _ _ _ _ _ _ _ _ _ Hen) as (H1 & H2 & _).
    by rewrite (evolve_shape _ es es').
  - by eapply enriched_stamped.
Qed.
End replay_facts.

(** ** What the executor relies on: the event store, the snapshot store and the
    platform are separate parts of the world *)

Class StoresFrame {W} (host : lens W Host) (P : EventSourcedPersistence W) (S : SnapshotStore W)
    (stream : W -> string -> list event) (snap : W -> string -> option Snapshot) : Prop := {
  fr_stream :: EventStoreSpec P stream;
  fr_snap :: SnapshotStoreSpec S snap;
  fr_host : forall h w k, stream (lset host h w) k = stream w k /\ snap (lset host h w) k = snap w k;
  fr_save : forall n i evs v w r w' k, es_save P n i evs v w = (r, w') -> snap w' k = snap w k;
  fr_sn_save : forall n i s w r w' k, sn_save S n i s w = (r, w') -> stream w' k = stream w k
}.

Section lifecycle.
Context {W Tx : Type} (host : lens W Host) `{!LensLaws host}
  (P : EventSourcedPersistence W) (SN : SnapshotStore W)
  (stream : W -> string -> list event) (snap : W -> string -> option Snapshot)
  `{!StoresFrame host P SN stream snap}
  (provider : option MetadataContext) (strategy : SnapshotStrategy)
  (idempotencyStore : option (IdempotencyStore W))
  (onEventsProduced : option (list event -> M (UnitOfWork W Tx * W) unit))
  (name : string) (aggregate : Aggregate W).

(** The content of the two stores is the same. *)
Definition same_obs (w w' : W) : Prop :=
  forall k, stream w' k = stream w k /\ snap w' k = snap w k.

#[export] Instance same_obs_equivalence : Equivalence same_obs.
Proof.
  split; repeat intro; [done | |].
  - by destruct (H k) as [-> ->].
  - destruct (H k) as [<- <-]. apply H0.
Qed.

(** Code that touches neither store. *)
Definition quiet {A} (m : M W A) : Prop := forall w r w', m w = (r, w') -> same_obs w w'.

(** Collaborators that touch neither store, and only enlist such operations. *)
Record quiet_collaborators : Prop := {
  q_decide : forall n handler, mget n (ag_decide aggregate) = Some handler -> forall c s, quiet (handler c s);
  q_idem : forall st r, idempotencyStore = Some st -> quiet (id_save st r);
  q_produced : forall f es u w r u' w',
    onEventsProduced = Some f -> uw_completed u = false -> f es (u, w) = (r, (u', w')) ->
    same_obs w w' /\ exists ops, u' = {| uw_operations := uw_operations u ++ ops;
      uw_pendingEvents := uw_pendingEvents u; uw_completed := false; uw_hooks := uw_hooks u |} /\
      Forall (fun op => forall tx, quiet (op tx)) ops
}.

(** The stored snapshots of this aggregate are states of its own history. *)
Definition snapshots_consistent (w : W) : Prop :=
  forall i sn, snap w (composite_key name i) = Some sn ->
    (sn_version sn <= length (stream w (composite_key name i)))%nat /\
    replay aggregate (take (sn_version sn) (stream w (composite_key name i)))
      (ag_initialState aggregate) = Ok (sn_state sn).

Definition with_snapshots : option (string -> option (SnapshotConfig W)) :=
  Some (fun _ => Some {| cf_store := SN; cf_strategy := strategy |}).

Lemma sbh_obs w w' : same_but_host host w w' -> same_obs w w'.
Proof. intros [h ->] k. apply fr_host. Qed.

(** Loading through a consistent snapshot is a full replay of the history. *)
Lemma load_is_replay w i :
  snapshots_consistent w ->
  let k := composite_key name i in
  load_aggregate with_snapshots name aggregate i (EventSourced P) w
  = (match replay aggregate (stream w k) (ag_initialState aggregate) with
     | Ok s => Ok {| ld_snapshot := snap w k; ld_state := s; ld_version := length (stream w k);
                     ld_isEventSourced := true |}
     | Err e => Err e
     end, w).
Proof.
  intros Hc k. unfold load_aggregate, snapshot_config, with_snapshots.
  erewrite bind_ok by (apply sn_load_spec). fold k.
  destruct (snap w k) as [sn |] eqn:Es.
  - destruct (Hc i sn Es) as [Hle Hr]. fold k in Hle, Hr.
    assert (Hev : (match es_loadAfterVersion P with
      | Some f => f name i (sn_version sn)
      | None => allEvents <- es_load P name i ;; ret (drop (sn_version sn) allEvents)
      end) w = (Ok (drop (sn_version sn) (stream w k)), w)).
    { destruct (es_loadAfterVersion P) as [f |] eqn:Ef.
      - by rewrite (es_partial_spec f w name i (sn_version sn) Ef).
      - erewrite bind_ok by (apply es_load_spec). done. }
    erewrite bind_ok by exact Hev.
    rewrite <- (replay_app aggregate _ (drop (sn_version sn) (stream w k)) _ _ Hr), take_drop.
    unfold bind, lift_result. destruct (replay aggregate (stream w k) _); [| done].
    unfold ret. do 3 f_equal. rewrite length_drop. lia.
  - erewrite bind_ok by (apply es_load_spec). fold k.
    unfold bind, lift_result. by destruct (replay aggregate (stream w k) _).
Qed.

(** The claim of step 5.5, when there is one to make. *)
Definition claim_ops (c : command) : list (operation W Tx) :=
  match cmd_commandId c, idempotencyStore with
  | Some commandId, Some store => [claim_operation host store commandId name (target c)]
  | _, _ => []
  end.

(** The events are what the decide handler of the command returned for [state]. *)
Definition decided (c : command) (state : value) (newEvents : list event) : Prop :=
  exists handler raw w w', mget (cmd_name c) (ag_decide aggregate) = Some handler /\
    handler c state w = (Ok raw, w') /\ newEvents = normalize_decision raw.

(** What a lifecycle leaves in the unit of work when it succeeds: one save of the
    enriched events at the version it has read, the claim of the command, quiet
    operations, the events to publish, and possibly a snapshot of the new state. *)
Definition lifecycle_done (c : command) (u : UnitOfWork W Tx) (w : W)
    (pending : option PendingSnapshot) (u' : UnitOfWork W Tx) : Prop :=
  let history := stream w (composite_key name (target c)) in
  exists state newEvents newState enr corr caus user rest,
    replay aggregate history (ag_initialState aggregate) = Ok state /\
    decided c state newEvents /\
    fold_result (evolve_step (ag_evolve aggregate)) newEvents state = Ok newState /\
    enriched name (target c) corr caus user
      (option_map (fun ups name => currentEventVersion name ups) (ag_upcasters aggregate))
      (length history) newEvents enr /\
    u' = {| uw_operations := uw_operations u ++
              save_operation (EventSourced P) name (target c) enr newState (length history)
              :: claim_ops c ++ rest;
            uw_pendingEvents := uw_pendingEvents u ++ enr;
            uw_completed := false; uw_hooks := uw_hooks u |} /\
    Forall (fun op => forall tx, quiet (op tx)) (claim_ops c ++ rest) /\
    (onEventsProduced = None -> rest = []) /\
    (pending = None \/
     pending = Some {| ps_aggregateName := name; ps_aggregateId := target c;
       ps_snapshot := {| sn_state := newState; sn_version := (length history + length newEvents)%nat;
                         sn_stateVersion := None |} |}).

Lemma enlist_run op (u : UnitOfWork W Tx) (w : W) :
  uw_completed u = false ->
  zoom uow_of (enlist op) (u, w)
  = (Ok tt, ({| uw_operations := uw_operations u ++ [op]; uw_pendingEvents := uw_pendingEvents u;
                uw_completed := false; uw_hooks := uw_hooks u |}, w)).
Proof.
  intros Hu. unfold zoom, enlist, assertNotCompleted, bind, get, modify. simpl. rewrite Hu. simpl.
  by rewrite Hu.
Qed.

Lemma defer_run es (u : UnitOfWork W Tx) (w : W) :
  uw_completed u = false ->
  zoom (uow_of (W := W) (Tx := Tx)) (deferPublish es) (u, w)
  = (Ok tt, ({| uw_operations := uw_operations u; uw_pendingEvents := uw_pendingEvents u ++ es;
                uw_completed := false; uw_hooks := uw_hooks u |}, w)).
Proof.
  intros Hu. unfold zoom, deferPublish, assertNotCompleted, bind, get, modify. simpl. rewrite Hu. simpl.
  by rewrite Hu.
Qed.

Lemma claim_quiet st commandId i tx :
  quiet_collaborators -> idempotencyStore = Some st ->
  quiet (claim_operation (Tx := Tx) host st commandId name i tx).
Proof.
  intros Hq Hst w r w'. unfold claim_operation.
  destruct (zoom_now_run host w) as (t & w1 & E & H1). erewrite bind_ok by exact E. intros H2.
  etrans; [by apply sbh_obs | by eapply (q_idem Hq)].
Qed.

Lemma claim_run c (w : W) :
  quiet_collaborators ->
  Forall (fun op => forall tx, quiet (op tx)) (claim_ops c) /\
  forall u1 : UnitOfWork W Tx, uw_completed u1 = false ->
    match cmd_commandId c, idempotencyStore return M (UnitOfWork W Tx * W) unit with
    | Some commandId, Some store =>
        zoom uow_of (enlist (claim_operation host store commandId name (target c)))
    | _, _ => ret tt
    end (u1, w) = (Ok tt, ({| uw_operations := uw_operations u1 ++ claim_ops c;
                uw_pendingEvents := uw_pendingEvents u1; uw_completed := false; uw_hooks := uw_hooks u1 |}, w)).
Proof.
  intros Hq. unfold claim_ops.
  assert (Hnil : forall u1 : UnitOfWork W Tx, uw_completed u1 = false ->
    ret tt (u1, w) = (Ok tt, ({| uw_operations := uw_operations u1 ++ []; uw_pendingEvents := uw_pendingEvents u1;
      uw_completed := false; uw_hooks := uw_hooks u1 |}, w))).
  { intros [? ? ? ?] Hu1. simpl in *. subst. unfold ret. by rewrite app_nil_r. }
  destruct (cmd_commandId c) as [cid |]; [destruct idempotencyStore as [st |] eqn:Est |];
    [| by split..].
  split.
  - constructor; [| done]. intros tx. by apply claim_quiet.
  - intros u1 Hu1. by apply enlist_run.
Qed.

Definition the_enricher : option MetadataContext -> list event -> string -> ID -> nat -> string ->
    option (string -> Z) -> M W (list event) := enrich host (option_map ret provider) None.

Definition the_lifecycle (meta : option MetadataContext) (c : command)
  : M (UnitOfWork W Tx * W) (option PendingSnapshot) :=
  executeLifecycle host the_enricher with_snapshots idempotencyStore onEventsProduced
    meta name aggregate c (EventSourced P).

(** What the callback adds to a unit of work. *)
Lemma produced_run enr ops pend hooks w w2 :
  quiet_collaborators -> same_obs w w2 ->
  match (match onEventsProduced with Some f => f enr | None => ret tt end)
          ({| uw_operations := ops; uw_pendingEvents := pend; uw_completed := false; uw_hooks := hooks |}, w2) with
  | (Err _, (_, w')) => same_obs w w'
  | (Ok _, (u', w')) => same_obs w w' /\ exists rest,
      u' = {| uw_operations := ops ++ rest; uw_pendingEvents := pend; uw_completed := false; uw_hooks := hooks |} /\
      Forall (fun op => forall tx, quiet (op tx)) rest /\ (onEventsProduced = None -> rest = [])
  end.
Proof.
  intros Hq O. destruct onEventsProduced as [f |] eqn:Ep.
  - set (u := {| uw_operations := ops; uw_pendingEvents := _; uw_completed := _; uw_hooks := _ |}).
    destruct (f enr (u, w2)) as [r [u4 w4]] eqn:E4.
    destruct (q_produced Hq f enr u w2 r u4 w4 Ep eq_refl E4) as (O4 & rest & -> & Hrest).
    assert (same_obs w w4) by (by etrans).
    destruct r; [| done]. split; [done |]. exists rest. by repeat split.
  - simpl. split; [done |]. exists []. by rewrite app_nil_r.
Qed.

(** The lifecycle touches no store before the commit, whatever its outcome. *)
Lemma lifecycle_spec meta c u w :
  quiet_collaborators ->
  snapshots_consistent w -> uw_completed u = false ->
  match the_lifecycle meta c (u, w) with
  | (Err _, (_, w')) => same_obs w w'
  | (Ok pending, (u', w')) => same_obs w w' /\
      lifecycle_done c u w pending u'
  end.
Proof.
  intros Hq Hc Hu. unfold the_lifecycle, executeLifecycle.
  pose proof (load_is_replay w (target c) Hc) as Hload.
  cbv zeta in Hload. set (k := composite_key name (target c)) in *.
  destruct (replay aggregate (stream w k) (ag_initialState aggregate)) as [state | e] eqn:Er;
    [| erewrite bind_err by (apply zoom_run; exact Hload); done].
  erewrite bind_ok by (apply zoom_run; exact Hload). cbn [ld_state ld_version ld_isEventSourced ld_snapshot].
  change (lset world_of w (u, w)) with (u, w).
  destruct (mget (cmd_name c) (ag_decide aggregate)) as [handler |] eqn:Eh; [| done].
  destruct (handler c state w) as [[result | e] w1] eqn:E1.
  2:{ erewrite bind_err by (apply zoom_run; exact E1). by eapply (q_decide Hq). }
  pose proof (q_decide Hq _ _ Eh _ _ _ _ _ E1) as O1.
  erewrite bind_ok by (apply zoom_run; exact E1). change (lset world_of w1 (u, w)) with (u, w1).
  destruct (fold_result (evolve_step (ag_evolve aggregate)) (normalize_decision result) state)
    as [newState | e] eqn:Ef; [| done].
  erewrite bind_ok by reflexivity.
  destruct (enrich_spec host provider meta (normalize_decision result) name (target c)
    (length (stream w k)) (cmd_name c)
    (option_map (fun ups name => currentEventVersion name ups) (ag_upcasters aggregate)) w1)
    as (enr & corr & w2 & E2 & O2 & Hen & _).
  erewrite bind_ok by (apply zoom_run; exact E2). change (lset world_of w2 (u, w1)) with (u, w2).
  apply sbh_obs in O2.
  assert (O : same_obs w w2) by (by etrans).
  cbn iota. erewrite bind_ok by (by apply enlist_run).
  set (ops1 := uw_operations u ++ _).
  destruct (claim_run c w2 Hq) as [Hclaims Hrun].
  erewrite bind_ok by (by apply Hrun). cbn [uw_operations uw_pendingEvents uw_hooks].
  erewrite bind_ok by (by apply defer_run). cbn [uw_operations uw_pendingEvents uw_hooks].
  pose proof (produced_run enr (ops1 ++ claim_ops c) (uw_pendingEvents u ++ enr) (uw_hooks u) w w2 Hq O) as Hprod.
  destruct (match onEventsProduced with Some f => f enr | None => ret tt end _)
    as [[[] | e] [u4 w4]] eqn:E4; [| by rewrite (bind_err _ _ _ _ _ E4)].
  rewrite (bind_ok _ _ _ _ _ E4). destruct Hprod as (O4 & rest & -> & Hrest & Hnil).
  unfold snapshot_config, with_snapshots. cbn [cf_strategy].
  match goal with |- context [if ?b then _ else _] => destruct b end; unfold ret;
    (split; [done |]); exists state, (normalize_decision result), newState, enr, corr;
    do 2 eexists; exists rest; fold k;
    (split; [done |]; split; [by exists handler, result, w, w1 |]; split; [done |]; split; [exact Hen |]; split;
      [unfold ops1; by rewrite <- !app_assoc | split; [by apply Forall_app_2 | split; [done |]]]);
    [by right | by left].
Qed.

Definition the_attempt (meta : option MetadataContext) (c : command)
  : M (UnitOfWork W Tx * W) (list event * option PendingSnapshot) :=
  attempt_on_uow host run_in_memory the_enricher with_snapshots idempotencyStore onEventsProduced
    meta name aggregate c (EventSourced P).

Lemma quiet_ops (ops : list (operation W Tx)) w r w' :
  Forall (fun op => forall tx, quiet (op tx)) ops ->
  for_each ops (fun op => op None) w = (r, w') -> same_obs w w'.
Proof.
  intros Hq. revert w. induction Hq as [| op ops Hop _ IH]; intros w H; simpl in H.
  - by injection H as <- <-.
  - unfold bind in H. destruct (op None w) as [[[] | e] w1] eqn:E.
    + etrans; [by eapply Hop | by apply IH].
    + injection H as <- <-. by eapply Hop.
Qed.

(** The histories of [w'] extend those of [w]; the snapshots are the same. *)
Definition grown (w w' : W) : Prop :=
  forall k, stream w k `prefix_of` stream w' k /\ snap w' k = snap w k.

Lemma same_grown w w' : same_obs w w' -> grown w w'.
Proof. intros H k. destruct (H k) as [-> ->]. by split. Qed.

Lemma grown_trans w1 w2 w3 : grown w1 w2 -> grown w2 w3 -> grown w1 w3.
Proof.
  intros H1 H2 k. destruct (H1 k) as [Hp <-], (H2 k) as [Hp' ->]. split; [by etrans | done].
Qed.

Lemma grown_consistent w w' : grown w w' -> snapshots_consistent w -> snapshots_consistent w'.
Proof.
  intros Hg Hc i sn Hs. destruct (Hg (composite_key name i)) as [[later Hl] Hsn].
  rewrite Hsn in Hs. destruct (Hc i sn Hs) as [Hle Hr]. rewrite Hl, length_app. split; [lia |].
  by rewrite take_app_le.
Qed.

(** What a successful attempt has done. *)
Definition attempt_done (c : command) (w : W) (events : list event) (pending : option PendingSnapshot)
    (w' : W) : Prop :=
  let k := composite_key name (target c) in
  (forall k', stream w' k' = (if String.eqb k' k then stream w k ++ events else stream w k') /\
              snap w' k' = snap w k') /\
  exists state newEvents newState corr caus user,
    replay aggregate (stream w k) (ag_initialState aggregate) = Ok state /\
    decided c state newEvents /\
    fold_result (evolve_step (ag_evolve aggregate)) newEvents state = Ok newState /\
    enriched name (target c) corr caus user
      (option_map (fun ups name => currentEventVersion name ups) (ag_upcasters aggregate))
      (length (stream w k)) newEvents events /\
    replay aggregate (stream w' k) (ag_initialState aggregate) = Ok newState /\
    (pending = None \/
     pending = Some {| ps_aggregateName := name; ps_aggregateId := target c;
       ps_snapshot := {| sn_state := newState; sn_version := length (stream w' k);
                         sn_stateVersion := None |} |}) /\
    (exists w2 rest, for_each (claim_ops c ++ rest) (fun op => op None) w2 = (Ok tt, w') /\
       (onEventsProduced = None -> rest = [])).

Lemma rollback_rethrow {A} e (u1 : UnitOfWork W Tx) (w1 : W) :
  (swallow (zoom uow_of rollback) ;;; throw (A := A) e) (u1, w1) = (Err e, (snd (rollback u1), w1)).
Proof. unfold bind. rewrite swallow_run. unfold zoom, throw. simpl. by destruct (rollback u1). Qed.

(** After a lifecycle that succeeded, the operations it has enlisted decide. *)
Lemma attempt_commits meta c w pending (u1 : UnitOfWork W Tx) w1 :
  the_lifecycle meta c (new_uow, w) = (Ok pending, (u1, w1)) -> uw_completed u1 = false ->
  exists u', the_attempt meta c (new_uow, w)
    = match run_in_memory (uw_operations u1) w1 with
      | (Ok _, w') => (Ok (uw_pendingEvents u1, pending), (u', w'))
      | (Err e, w') => (Err e, (u', w'))
      end.
Proof.
  intros El Hu. unfold the_attempt, attempt_on_uow. fold (the_lifecycle meta c).
  destruct (run_in_memory (uw_operations u1) w1) as [[[] | e] w'] eqn:Er; eexists.
  - apply try_catch_ok. erewrite bind_ok by exact El. unfold bind. rewrite commit_spec by done.
    cbv zeta. by rewrite Er.
  - erewrite try_catch_err; [apply rollback_rethrow |].
    erewrite bind_ok by exact El. unfold bind. rewrite commit_spec by done. cbv zeta. by rewrite Er.
Qed.

(** The save, then quiet operations: one stream grows, and nothing else changes. *)
Lemma save_then_quiet i enr w w1 w2 ops r w3 :
  let k := composite_key name i in
  same_obs w w1 -> (forall k', stream w2 k' = if String.eqb k' k then stream w1 k ++ enr else stream w1 k') ->
  (forall k', snap w2 k' = snap w1 k') ->
  Forall (fun op : operation W Tx => forall tx, quiet (op tx)) ops ->
  for_each ops (fun op => op None) w2 = (r, w3) ->
  forall k', stream w3 k' = (if String.eqb k' k then stream w k ++ enr else stream w k') /\ snap w3 k' = snap w k'.
Proof.
  intros k O1 Hst Hsn Hrest Eo k'. destruct (O1 k') as [S1 N1], (quiet_ops _ _ _ _ Hrest Eo k') as [S3 N3].
  rewrite S3, N3, Hst, Hsn, N1. destruct (O1 k) as [-> _]. by rewrite S1.
Qed.

Lemma attempt_spec meta c w :
  quiet_collaborators -> snapshots_consistent w ->
  match the_attempt meta c (new_uow, w) with
  | (Err _, (_, w')) => grown w w' /\
      (idempotencyStore = None -> onEventsProduced = None -> same_obs w w')
  | (Ok (events, pending), (_, w')) => attempt_done c w events pending w'
  end.
Proof.
  intros Hq Hc. pose proof (lifecycle_spec meta c new_uow w Hq Hc eq_refl) as Hl.
  destruct (the_lifecycle meta c (new_uow, w)) as [[pending | e] [u1 w1]] eqn:El.
  2:{ unfold the_attempt, attempt_on_uow. erewrite try_catch_err by (eapply bind_err; exact El).
      rewrite rollback_rethrow. split; [by apply same_grown | done]. }
  destruct Hl as (O1 & state & newEvents & newState & enr & corr & caus & user & rest &
                  Hrep & Hdec & Hf & Hen & -> & Hrest & Hnil & Hpend).
  destruct (attempt_commits _ _ _ _ _ _ El eq_refl) as [u' ->].
  set (k := composite_key name (target c)) in *.
  cbn [uw_operations uw_pendingEvents new_uow app]. unfold run_in_memory. cbn [for_each]. unfold bind at 1.
  pose proof (es_save_spec w1 name (target c) enr (length (stream w k))) as Hsave.
  cbv zeta in Hsave. unfold wp in Hsave. fold k in Hsave. unfold save_operation at 1.
  destruct (es_save P name (target c) enr (length (stream w k)) w1) as [[[] | e] w2] eqn:Es.
  2:{ destruct Hsave as (_ & _ & _ & ->). split; [by apply same_grown | done]. }
  destruct Hsave as [_ Hst].
  destruct (for_each (claim_ops c ++ rest) (fun op => op None) w2) as [r w3] eqn:Eo.
  pose proof (save_then_quiet (target c) enr w w1 w2 _ r w3 O1 Hst
    (fun k' => fr_save name (target c) enr (length (stream w k)) w1 _ w2 k' Es) Hrest Eo) as Hobs.
  cbv zeta in Hobs. fold k in Hobs. destruct r as [[] | e].
  - split; [exact Hobs |]. exists state, newEvents, newState, corr, caus, user.
    destruct (Hobs k) as [Hk _]. rewrite String.eqb_refl in Hk. fold k. rewrite Hk.
    split; [done |]. split; [done |]. split; [done |]. split; [done |]. split.
    + rewrite (replay_app _ _ _ _ _ Hrep). by eapply replay_enriched.
    + split; [| by exists w2, rest].
      rewrite length_app. destruct (enriched_shape _ _ _ _ _ _ _ _ _ Hen) as (_ & _ & ->). done.
  - split.
    + intros k'. destruct (Hobs k') as [-> ->]. split; [| done].
      destruct (String.eqb_spec k' k) as [-> |]; [by eexists | done].
    + intros Hi Hp. rewrite (Hnil Hp) in Eo. unfold claim_ops in Eo. rewrite Hi in Eo.
      destruct (cmd_commandId c); done.
Qed.
End lifecycle.
