(* ===== verification/Frames.v ===== *)
(** Frames: code that keeps an invariant of the state, and code that leaves a part of it
    alone.  The command executor only touches the parts of the world that its
    collaborators touch: [commit_keeps] says so, and lets a theorem about a whole
    domain compose the executor with what else lives in the same world. *)
From S2P Require Import Prelude JsMap CoreTypes Upcaster Host Stores Idempotency UnitOfWork Concurrency Metadata CommandExecutor.

(** ** Invariants of programs *)

Definition stays {S A} (J : S -> Prop) (m : M S A) : Prop := forall s, J s -> J (snd (m s)).

(** [m] leaves what [f] observes as it is. *)
Definition keeps {S F A} (f : S -> F) (m : M S A) : Prop := forall s, f (snd (m s)) = f s.

Create HintDb frames.

Section closure.
Context {S : Type} (J : S -> Prop).

Lemma stays_ret {A} (a : A) : stays J (ret a).
Proof. by intros s. Qed.
Lemma stays_throw {A} e : stays J (throw (A := A) e).
Proof. by intros s. Qed.
Lemma stays_get : stays J get.
Proof. by intros s. Qed.
Lemma stays_gets {A} (g : S -> A) : stays J (gets g).
Proof. by intros s. Qed.
Lemma stays_lift_result {A} (r : result A) : stays J (lift_result r).
Proof. by intros s. Qed.
Lemma stays_bind {A B} (m : M S A) (k : A -> M S B) : stays J m -> (forall a, stays J (k a)) -> stays J (bind m k).
Proof.
  intros Hm Hk s Hs. specialize (Hm s Hs). unfold bind. destruct (m s) as [[a | e] s']; [by apply Hk | done].
Qed.
Lemma stays_try_catch {A} (m : M S A) h : stays J m -> (forall e, stays J (h e)) -> stays J (try_catch m h).
Proof.
  intros Hm Hk s Hs. specialize (Hm s Hs). unfold try_catch. destruct (m s) as [[a | e] s']; [done | by apply Hk].
Qed.
Lemma stays_try_finally {A} (m : M S A) f : stays J m -> stays J f -> stays J (try_finally m f).
Proof.
  intros Hm Hf s Hs. specialize (Hm s Hs). unfold try_finally. destruct (m s) as [r s'].
  specialize (Hf s' Hm). by destruct (f s') as [[[] | e] s''].
Qed.
Lemma stays_swallow (m : M S unit) : stays J m -> stays J (swallow m).
Proof. intros Hm. apply stays_try_catch; [done |]. intros e. apply stays_ret. Qed.
Lemma stays_for_each {A} (l : list A) (f : A -> M S unit) : (forall x, x ∈ l -> stays J (f x)) -> stays J (for_each l f).
Proof.
  induction l as [| x l IH]; intros H; cbn [for_each]; [apply stays_ret |].
  apply stays_bind; [apply H, list_elem_of_here |]. intros _. apply IH. intros y Hy. by apply H, list_elem_of_further.
Qed.
Lemma stays_zoom {T A} (l : lens S T) (m : M T A) : (forall s t, J s -> J (lset l t s)) -> stays J (zoom l m).
Proof. intros H s Hs. unfold zoom. destruct (m (lget l s)) as [r t]. by apply H. Qed.
End closure.

Lemma stays_map_indexed {S A B} (J : S -> Prop) (f : nat -> A -> M S B) l : forall i,
  (forall i x, stays J (f i x)) -> stays J (map_indexed f i l).
Proof.
  induction l as [| x l IH]; intros i H; cbn [map_indexed]; [apply stays_ret |].
  apply stays_bind; [done |]. intros y. apply stays_bind; [by apply IH |]. intros ys. apply stays_ret.
Qed.

Lemma keeps_stays {S F A} (f : S -> F) (m : M S A) v : keeps f m -> stays (fun s => f s = v) m.
Proof. by intros H s <-. Qed.
Lemma stays_keeps {S F A} (f : S -> F) (m : M S A) : (forall v, stays (fun s => f s = v) m) -> keeps f m.
Proof. intros H s. by apply (H (f s) s). Qed.

#[export] Hint Resolve stays_ret stays_throw stays_get stays_gets stays_lift_result stays_bind stays_try_catch
  stays_try_finally stays_swallow stays_for_each stays_map_indexed keeps_stays : frames.

(** ** The executor *)

Section executor.
Context {W Tx F : Type} (frame : W -> F) (host : lens W Host) (P : EventSourcedPersistence W) (SN : SnapshotStore W)
  (provider : option MetadataContext) (strategy : SnapshotStrategy) (name : string) (aggregate : Aggregate W).

(** What the executor calls leaves the frame alone. *)
Record frame_collaborators : Prop := {
  fc_host : forall h w, frame (lset host h w) = frame w;
  fc_load : forall i, keeps frame (es_load P name i);
  fc_after : forall f i v, es_loadAfterVersion P = Some f -> keeps frame (f name i v);
  fc_save : forall i es v, keeps frame (es_save P name i es v);
  fc_snap : forall i, keeps frame (sn_load SN name i);
  fc_decide : forall n handler, mget n (ag_decide aggregate) = Some handler -> forall c s, keeps frame (handler c s)
}.
Context (Hc : frame_collaborators).

Lemma zoom_host_keeps {A} (m : M Host A) v : stays (fun w => frame w = v) (zoom host m).
Proof. apply stays_zoom. intros w h <-. apply (fc_host Hc). Qed.

Lemma load_stays i v : stays (fun w => frame w = v)
  (load_aggregate (with_snapshots SN strategy) name aggregate i (EventSourced P)).
Proof.
  unfold load_aggregate, snapshot_config, with_snapshots. cbn [cf_store].
  apply stays_bind; [apply keeps_stays, (fc_snap Hc) |]. intros [sn |].
  - apply stays_bind; [| auto with frames]. destruct (es_loadAfterVersion P) as [f |] eqn:E.
    + apply keeps_stays. by apply (fc_after Hc).
    + apply stays_bind; [apply keeps_stays, (fc_load Hc) | auto with frames].
  - apply stays_bind; [apply keeps_stays, (fc_load Hc) | auto with frames].
Qed.

Lemma enrich_stays meta es i version causation resolver v : stays (fun w => frame w = v)
  (the_enricher host provider meta es name i version causation resolver).
Proof.
  unfold the_enricher, enrich. apply stays_bind; [destruct provider; cbn [option_map]; auto with frames |]. intros ctx.
  apply stays_bind; [destruct (field _); [auto with frames | apply zoom_host_keeps] |]. intros corr.
  apply stays_bind; [auto with frames |]. intros tc. apply stays_map_indexed. intros n e.
  apply stays_bind; [apply zoom_host_keeps |]. intros eid. apply stays_bind; [apply zoom_host_keeps | auto with frames].
Qed.

(** A unit of work in progress: nothing done yet, and what it will do keeps the frame. *)
Definition pending_uow (v : F) (s : UnitOfWork W Tx * W) : Prop :=
  frame (snd s) = v /\ Forall (fun op => forall tx, keeps frame (op tx)) (uw_operations (fst s)).

Lemma zoom_world_stays {A} (m : M W A) v : stays (fun w => frame w = v) m -> stays (pending_uow v) (zoom world_of m).
Proof. intros Hm [u w] [Hw Ho]. specialize (Hm w Hw). unfold zoom. cbn. by destruct (m w). Qed.

Lemma zoom_uow_stays {A} (m : M (UnitOfWork W Tx) A) v :
  (forall u, Forall (fun op => forall tx, keeps frame (op tx)) (uw_operations u) ->
     Forall (fun op => forall tx, keeps frame (op tx)) (uw_operations (snd (m u)))) ->
  stays (pending_uow v) (zoom uow_of m).
Proof. intros Hm [u w] [Hw Ho]. specialize (Hm u Ho). unfold zoom. cbn. by destruct (m u). Qed.

Lemma enlist_stays op v : (forall tx, keeps frame (op tx)) -> stays (pending_uow v) (zoom uow_of (enlist op)).
Proof.
  intros Hop. apply zoom_uow_stays. intros u Hu. unfold enlist, assertNotCompleted, bind, get, throw, ret, modify.
  destruct (uw_completed u); [done |]. cbn. apply Forall_app_2; [done | by constructor].
Qed.

Lemma defer_stays es v : stays (pending_uow v) (zoom uow_of (deferPublish (W := W) (Tx := Tx) es)).
Proof.
  apply zoom_uow_stays. intros u Hu. unfold deferPublish, assertNotCompleted, bind, get, throw, ret, modify.
  by destruct (uw_completed u).
Qed.

Lemma lifecycle_stays meta c v : stays (pending_uow v)
  (executeLifecycle host (the_enricher host provider) (with_snapshots SN strategy) None None
     meta name aggregate c (EventSourced P)).
Proof.
  unfold executeLifecycle. apply stays_bind; [apply zoom_world_stays, load_stays |]. intros ld. cbv zeta.
  destruct (mget (cmd_name c) (ag_decide aggregate)) as [handler |] eqn:Eh; [| auto with frames].
  apply stays_bind; [apply zoom_world_stays, keeps_stays; by eapply (fc_decide Hc) |]. intros d.
  apply stays_bind; [auto with frames |]. intros ns.
  apply stays_bind; [apply zoom_world_stays, enrich_stays |]. intros enr.
  apply stays_bind.
  { apply enlist_stays. intros tx. destruct (ld_isEventSourced ld); [apply (fc_save Hc) |].
    apply stays_keeps. intros v'. auto with frames. }
  intros _. apply stays_bind; [destruct (cmd_commandId c); auto with frames |]. intros _.
  apply stays_bind; [apply defer_stays |]. intros _. apply stays_bind; [auto with frames |]. intros _.
  destruct (if ld_isEventSourced ld then _ else _); [| auto with frames].
  destruct (cf_strategy _ _); auto with frames.
Qed.

Lemma commit_stays v : stays (pending_uow v) (commit run_in_memory).
Proof.
  intros [u w] [Hw Ho]. unfold commit, zoom, assertNotCompleted, set_completed, bind, get, gets, ret, throw, modify.
  cbn -[run_in_memory]. destruct (uw_completed u); [done |]. cbn -[run_in_memory].
  assert (Hrun : stays (fun w => frame w = v) (run_in_memory (uw_operations u))).
  { unfold run_in_memory. apply stays_for_each. intros op Hop. apply keeps_stays.
    rewrite Forall_forall in Ho. by apply Ho. }
  specialize (Hrun w Hw). destruct (run_in_memory (uw_operations u) w) as [[[] | e] w']; (split; [exact Hrun | exact Ho]).
Qed.

Lemma attempt_frame c : keeps (fun s : Exec W Tx => (ex_uow s, frame (ex_world s)))
  (attempt host run_in_memory (the_enricher host provider) (with_snapshots SN strategy) None None
     name aggregate c (EventSourced P)).
Proof.
  intros s. unfold attempt, bind, gets, on_uow, lift_result.
  assert (H : stays (pending_uow (frame (ex_world s)))
    (attempt_on_uow host run_in_memory (the_enricher host provider) (with_snapshots SN strategy) None None
       (ex_meta s) name aggregate c (EventSourced P))).
  { unfold attempt_on_uow. apply stays_try_catch.
    - apply stays_bind; [apply lifecycle_stays |]. intros p. apply stays_bind; [apply commit_stays | auto with frames].
    - intros e. apply stays_bind; [| auto with frames]. apply stays_swallow, zoom_uow_stays. intros u Hu.
      unfold rollback, assertNotCompleted, set_completed, bind, get, throw, ret, modify.
      by destruct (uw_completed u); cbn. }
  specialize (H (new_uow, ex_world s)).
  destruct (attempt_on_uow _ _ _ _ _ _ _ _ _ _ _ _) as [r [u' w']]. cbn in *. f_equal. apply H. by split.
Qed.
End executor.
