(* ===== verification/CommandCorrect.v ===== *)
(** What the command executor guarantees: theorems about [execute] and its parts
    on event-sourced aggregates, over any world whose stores meet their
    specifications, with the in-memory unit of work.  The in-memory world
    instantiates them. *)
From S2P Require Import Prelude JsMap CoreTypes Upcaster Host Stores Idempotency UnitOfWork Concurrency Metadata World CommandExecutor Frames.

#[export] Instance world_frame : StoresFrame host_lens world_events world_snaps world_stream world_snap.
Proof.
  split; try apply _.
  - by intros h w k.
  - intros n i evs v w r w' k H. simpl in H. unfold zoom in H.
    destruct (EventStore.save _ _ _ _ _) as [r0 t]. by injection H as _ <-.
  - intros n i s w r w' k H. simpl in H. unfold zoom in H. by injection H as _ <-.
Qed.

(** ** An example: an account whose events carry an amount *)

Definition deposit_handler : command -> value -> M World decision :=
  fun c state =>
    match cmd_payload c with
    | VNum n => ret (OneEvent {| ev_name := "Deposited"; ev_payload := VNum n; ev_metadata := None |})
    | _ => throw (PlainError "invalid amount")
    end.

Definition apply_deposit : evolve_handler := fun payload state =>
  match payload, state with
  | VNum n, VNum total => Ok (VNum (total + n))
  | _, _ => Err (TypeError "amount")
  end.

Definition account : Aggregate World :=
  {| ag_initialState := VNum 0;
     ag_decide := [("Deposit"%string, deposit_handler)];
     ag_evolve := [("Deposited"%string, apply_deposit)];
     ag_upcasters := None |}.

Definition deposit (n : Z) : command :=
  {| cmd_name := "Deposit"; cmd_payload := VNum n; cmd_commandId := Some (IdStr "cmd-1");
     cmd_targetAggregateId := Some (IdNum 1) |}.

Definition start : World := empty_world sample_host.
Definition start_exec : Exec World unit := {| ex_world := start; ex_uow := None; ex_meta := None |}.

Lemma account_decide_quiet n handler :
  mget n (ag_decide account) = Some handler ->
  forall c s, quiet world_stream world_snap (handler c s).
Proof.
  simpl. destruct (String.eqb n "Deposit"); [| done]. intros [= <-] c s w r w' H.
  unfold deposit_handler, ret, throw in H. by destruct (cmd_payload c); injection H as <- <-.
Qed.

Lemma account_quiet idem :
  (forall st r, idem = Some st -> quiet world_stream world_snap (id_save st r)) ->
  quiet_collaborators (Tx := unit) world_stream world_snap idem None account.
Proof.
  intros Hi. split; [apply account_decide_quiet | exact Hi | done].
Qed.

Lemma world_idempotency_quiet ttl st r :
  Some (world_idempotency ttl) = Some st -> quiet world_stream world_snap (id_save st r).
Proof.
  intros [= <-] w r' w' H. simpl in H. unfold bind in H.
  destruct (zoom_now_run host_lens w) as (t & w1 & E & [h ->]). rewrite E in H.
  unfold zoom in H. destruct (CommandIdempotency.save ttl t r _) as [r1 st1].
  injection H as _ <-. done.
Qed.

Lemma start_consistent name (agg : Aggregate World) :
  snapshots_consistent world_stream world_snap name agg start.
Proof. intros i sn H. done. Qed.

(** The executor of the in-memory world. *)
Definition memory_execute (strategy : SnapshotStrategy) (idem : option (IdempotencyStore World))
    (maxRetries : Z) (name : string) (agg : Aggregate World) (c : command) : M (Exec World unit) unit :=
  execute host_lens (GlobalAggregatePersistenceResolver (EventSourced world_events))
    (fun e => world_op (log_dispatch e)) run_in_memory (OptimisticConcurrencyStrategy maxRetries)
    (enrich host_lens None None) (with_snapshots world_snaps strategy) idem None None name agg c.

(** Depositing 5 then 7, with a snapshot every two events. *)
Example two_deposits :
  let s := snd (bind (memory_execute (everyNEvents 2) None 0 "Account" account (deposit 5))
                  (fun _ => memory_execute (everyNEvents 2) None 0 "Account" account (deposit 7)) start_exec) in
  map ev_payload (world_stream (ex_world s) "Account:1") = [VNum 5; VNum 7] /\
  map (metadata_opt md_sequenceNumber) (w_log (ex_world s)) = [Some 1%nat; Some 2%nat] /\
  option_map sn_state (world_snap (ex_world s) "Account:1") = Some (VNum 12).
Proof. by vm_compute. Qed.

(** ** A history with a stored snapshot *)

(** Three deposits under a strategy that asks for a snapshot every two events: the
    snapshot counts the first two. *)
Definition deposited : World :=
  ex_world (snd (for_each [deposit 5; deposit 7; deposit 11]
    (memory_execute (everyNEvents 2) None 3 "Account" account) start_exec)).
Definition deposited_exec : Exec World unit := {| ex_world := deposited; ex_uow := None; ex_meta := None |}.

Lemma deposited_stored :
  map ev_payload (world_stream deposited "Account:1") = [VNum 5; VNum 7; VNum 11] /\
  world_snap deposited "Account:1" = Some {| sn_state := VNum 12; sn_version := 2; sn_stateVersion := None |}.
Proof. by vm_compute. Qed.

Lemma deposited_consistent : snapshots_consistent world_stream world_snap "Account" account deposited.
Proof.
  intros i sn H. assert (Hs : w_snaps deposited
    = [("Account:1"%string, {| sn_state := VNum 12; sn_version := 2; sn_stateVersion := None |})])
    by (vm_compute; reflexivity).
  unfold world_snap in H. rewrite Hs in H. cbn [mget] in H.
  destruct (String.eqb (composite_key "Account" i) "Account:1") eqn:E; [| discriminate H].
  apply String.eqb_eq in E as ->. injection H as <-. cbn [sn_version sn_state]. split.
  - replace (length (world_stream deposited "Account:1")) with 3%nat by (vm_compute; reflexivity). lia.
  - vm_compute. reflexivity.
Qed.

(** The in-memory event store without its partial load: the executor then slices
    the full history. *)
Definition full_load_events : EventSourcedPersistence World :=
  {| es_load := es_load world_events; es_save := es_save world_events; es_loadAfterVersion := None |}.

#[export] Instance full_load_frame : StoresFrame host_lens full_load_events world_snaps world_stream world_snap.
Proof.
  destruct world_frame as [Hs Hn Hh Hv Hw]. split; [| exact Hn | exact Hh | exact Hv | exact Hw].
  split; [apply (es_load_spec (P := world_events)) | discriminate | apply (es_save_spec (P := world_events))].
Qed.

(** ** Facts *)

Section execution.
Context {W Tx : Type} (host : lens W Host) `{!LensLaws host}
  (P : EventSourcedPersistence W) (SN : SnapshotStore W)
  (stream : W -> string -> list event) (snap : W -> string -> option Snapshot)
  `{!StoresFrame host P SN stream snap}
  (provider : option MetadataContext) (strategy : SnapshotStrategy)
  (idempotencyStore : option (IdempotencyStore W))
  (onEventsProduced : option (list event -> M (UnitOfWork W Tx * W) unit))
  (onEventsDispatched : option (list event -> M (Exec W Tx) unit))
  (dispatch : event -> M (Exec W Tx) unit)
  (maxRetries : nat) (name : string) (aggregate : Aggregate W).

Definition exec_attempt (c : command) : M (Exec W Tx) (list event * option PendingSnapshot) :=
  attempt host run_in_memory (the_enricher host provider) (with_snapshots SN strategy)
    idempotencyStore onEventsProduced name aggregate c (EventSourced P).

Definition exec_implicit (c : command) : M (Exec W Tx) unit :=
  execute_implicit host dispatch run_in_memory (OptimisticConcurrencyStrategy (Z.of_nat maxRetries))
    (the_enricher host provider) (with_snapshots SN strategy) idempotencyStore onEventsProduced
    onEventsDispatched name aggregate c (EventSourced P).

Lemma exec_attempt_spec c s :
  quiet_collaborators stream snap idempotencyStore onEventsProduced aggregate ->
  snapshots_consistent stream snap name aggregate (ex_world s) ->
  match exec_attempt c s with
  | (Err _, s') => grown stream snap (ex_world s) (ex_world s') /\
      (idempotencyStore = None -> onEventsProduced = None ->
       same_obs stream snap (ex_world s) (ex_world s'))
  | (Ok (events, pending), s') =>
      attempt_done host stream snap idempotencyStore onEventsProduced name aggregate c (ex_world s) events pending (ex_world s')
  end.
Proof.
  intros Hq Hc. unfold exec_attempt, attempt.
  pose proof (attempt_spec host P SN stream snap provider strategy idempotencyStore onEventsProduced
    name aggregate (ex_meta s) c (ex_world s) Hq Hc) as H.
  unfold the_attempt in H. unfold bind, gets, on_uow, lift_result. cbn iota beta.
  destruct (attempt_on_uow _ _ _ _ _ _ _ _ _ _ _ _) as [[[events pending] | e] [u' w']];
    exact H.
Qed.

(** The retried attempts: conflicts leave the histories as they are, or longer. *)
Lemma conflicts_spec c n s s1 :
  quiet_collaborators stream snap idempotencyStore onEventsProduced aggregate ->
  snapshots_consistent stream snap name aggregate (ex_world s) ->
  conflicts (exec_attempt c) n s s1 ->
  grown stream snap (ex_world s) (ex_world s1) /\
  (idempotencyStore = None -> onEventsProduced = None ->
   same_obs stream snap (ex_world s) (ex_world s1)).
Proof.
  intros Hq Hc H. induction H as [s | n s s1 s2 e Ha _ _ IH].
  - split; [by apply same_grown | done].
  - pose proof (exec_attempt_spec c s Hq Hc) as Hs. rewrite Ha in Hs. destruct Hs as [Hg Ho].
    destruct (IH (grown_consistent _ _ _ _ _ _ Hg Hc)) as [Hg' Ho']. split.
    + by eapply grown_trans.
    + intros Hi Hp. etrans; [by apply Ho | by apply Ho'].
Qed.

Lemma strategy_spec c s :
  quiet_collaborators stream snap idempotencyStore onEventsProduced aggregate ->
  snapshots_consistent stream snap name aggregate (ex_world s) ->
  match cs_execute (OptimisticConcurrencyStrategy (Z.of_nat maxRetries)) name (target c)
          (exec_attempt c) s with
  | (Err _, s') => grown stream snap (ex_world s) (ex_world s') /\
      (idempotencyStore = None -> onEventsProduced = None ->
       same_obs stream snap (ex_world s) (ex_world s'))
  | (Ok (events, pending), s') => exists s1 : Exec W Tx,
      grown stream snap (ex_world s) (ex_world s1) /\
      (idempotencyStore = None -> onEventsProduced = None ->
       same_obs stream snap (ex_world s) (ex_world s1)) /\
      attempt_done host stream snap idempotencyStore onEventsProduced name aggregate c (ex_world s1) events pending (ex_world s')
  end.
Proof.
  intros Hq Hc. simpl. unfold optimistic_execute.
  pose proof (retry_loop_spec (exec_attempt c) (Z.to_nat (Z.of_nat maxRetries + 1)) 0 (Z.of_nat maxRetries) s
    ltac:(lia) ltac:(lia)) as H.
  destruct (retry_loop _ _ _ (exec_attempt c) s) as [r s'].
  destruct H as (k & s1 & _ & Hk & Ha & _).
  destruct (conflicts_spec c k s s1 Hq Hc Hk) as [Hg Ho].
  pose proof (exec_attempt_spec c s1 Hq (grown_consistent _ _ _ _ _ _ Hg Hc)) as Hs. rewrite Ha in Hs.
  destruct r as [[events pending] | e].
  - by exists s1.
  - destruct Hs as [Hg' Ho']. split; [by eapply grown_trans |].
    intros Hi Hp. etrans; [by apply Ho | by apply Ho'].
Qed.

(** Saving the pending snapshot of a successful attempt keeps every snapshot true. *)
Lemma save_snapshot_spec c w0 w events pending :
  attempt_done host stream snap idempotencyStore onEventsProduced name aggregate c w0 events pending w ->
  snapshots_consistent stream snap name aggregate w0 ->
  exists w', save_snapshot (with_snapshots SN strategy) name pending w = (Ok tt, w') /\
    (forall k, stream w' k = stream w k) /\ snapshots_consistent stream snap name aggregate w' /\
    (forall k, k <> composite_key name (target c) -> snap w' k = snap w k).
Proof.
  intros Hd Hc. pose proof Hd as [Hst (state & newEvents & newState & corr & caus & user & Hrep & _ & _ & _ & Hrep' & Hp & _)].
  set (k := composite_key name (target c)) in *.
  assert (Hc' : snapshots_consistent stream snap name aggregate w).
  { eapply grown_consistent; [| exact Hc]. intros k'. destruct (Hst k') as [-> ->]. split; [| done].
    destruct (String.eqb_spec k' k) as [-> |]; [by eexists | done]. }
  destruct Hp as [-> | ->].
  - by exists w.
  - unfold save_snapshot, snapshot_config, with_snapshots. cbn [cf_store ps_aggregateName ps_aggregateId ps_snapshot].
    rewrite swallow_run.
    match goal with |- context [sn_save SN ?n ?i ?sn w] =>
      destruct (sn_save_spec (P := SN) w n i sn) as (w' & Hw' & Hsn) end.
    rewrite Hw'. exists w'. split; [done |].
    assert (Hstr : forall k', stream w' k' = stream w k') by (intros k'; by eapply fr_sn_save).
    split; [done |].
    split; [| intros k' Hne; rewrite Hsn; fold k; by destruct (String.eqb_spec k' k)].
    intros i sn Hi. rewrite Hsn in Hi. fold k in Hi. rewrite Hstr.
    destruct (String.eqb_spec (composite_key name i) k) as [-> | Hne].
    + injection Hi as <-. simpl. split; [done |]. by rewrite firstn_all.
    + by apply Hc'.
Qed.

(** Without an active unit of work a command takes the implicit path. *)
Lemma execute_implicit_run c s :
  idempotencyStore = None -> ex_uow s = None ->
  execute host (GlobalAggregatePersistenceResolver (EventSourced P)) dispatch run_in_memory
    (OptimisticConcurrencyStrategy (Z.of_nat maxRetries)) (the_enricher host provider)
    (with_snapshots SN strategy) idempotencyStore onEventsProduced onEventsDispatched name aggregate c s
  = exec_implicit c s.
Proof.
  intros Hi Hnone.
  assert (Hal : already_processed (W := W) (Tx := Tx) idempotencyStore c s = (Ok false, s))
    by (unfold already_processed; rewrite Hi; by destruct (cmd_commandId c)).
  unfold execute. rewrite (bind_ok _ _ _ _ _ Hal). cbv beta iota.
  unfold GlobalAggregatePersistenceResolver. erewrite bind_ok by reflexivity.
  unfold bind at 1, gets at 1. by rewrite Hnone.
Qed.

(** Everything the implicit path does before it publishes. *)
Definition exec_commit (c : command) : M (Exec W Tx) (list event) :=
  outcome <- cs_execute (OptimisticConcurrencyStrategy (Z.of_nat maxRetries)) name (target c) (exec_attempt c) ;;
  (world_op (save_snapshot (with_snapshots SN strategy) name (snd outcome)) ;;; ret (fst outcome)).

Lemma exec_implicit_split c :
  exec_implicit c ≈ (events <- exec_commit c ;;
                     (for_each events dispatch ;;; after_dispatch onEventsDispatched events)).
Proof.
  unfold exec_implicit, execute_implicit, exec_commit. symmetry. etransitivity; [apply bind_assoc |].
  apply bind_proper; [done |]. intros [events pending]. cbn [fst snd].
  etransitivity; [apply bind_assoc |]. apply bind_proper; [done |]. intros _. by intros s.
Qed.

(** It fails and nothing has changed, or one history has grown by the events that it
    returns. *)
Lemma exec_commit_spec c s :
  quiet_collaborators stream snap idempotencyStore onEventsProduced aggregate ->
  snapshots_consistent stream snap name aggregate (ex_world s) ->
  idempotencyStore = None -> onEventsProduced = None ->
  match exec_commit c s with
  | (Err e, s') => same_obs stream snap (ex_world s) (ex_world s') /\
      cs_execute (OptimisticConcurrencyStrategy (Z.of_nat maxRetries)) name (target c) (exec_attempt c) s = (Err e, s')
  | (Ok events, s2) => exists s0 pending w1,
      same_obs stream snap (ex_world s) s0 /\
      attempt_done host stream snap idempotencyStore onEventsProduced name aggregate c s0 events pending w1 /\
      (forall k, stream (ex_world s2) k = stream w1 k) /\
      snapshots_consistent stream snap name aggregate (ex_world s2) /\
      (forall k, k <> composite_key name (target c) -> snap (ex_world s2) k = snap (ex_world s) k)
  end.
Proof.
  intros Hq Hc Hi Hp. pose proof (strategy_spec c s Hq Hc) as Hs. unfold exec_commit.
  destruct (cs_execute _ name (target c) _ s) as [[[events pending] | e] s1] eqn:Es.
  - destruct Hs as (s00 & Hg & Ho & Hd). specialize (Ho Hi Hp).
    destruct (save_snapshot_spec c (ex_world s00) (ex_world s1) events pending Hd (grown_consistent _ _ _ _ _ _ Hg Hc))
      as (w2 & Hw2 & Hst & Hc2 & Hne).
    rewrite (bind_ok _ _ _ _ _ Es). cbn [fst snd].
    erewrite bind_ok by (unfold world_op; apply zoom_run; exact Hw2). unfold ret.
    exists (ex_world s00), pending, (ex_world s1). cbn. split; [exact Ho |]. split; [exact Hd |].
    split; [exact Hst |]. split; [exact Hc2 |]. intros k Hk. rewrite (Hne k Hk).
    destruct Hd as [Hd _]. rewrite (proj2 (Hd k)). apply Ho.
  - rewrite (bind_err _ _ _ _ _ Es). by split; [apply Hs |].
Qed.

(** The rest of the world is left alone. *)
Lemma exec_commit_frame {F} (frame : W -> F) c :
  idempotencyStore = None -> onEventsProduced = None ->
  frame_collaborators frame host P SN name aggregate -> (forall n i s, keeps frame (sn_save SN n i s)) ->
  keeps (fun s : Exec W Tx => (ex_uow s, frame (ex_world s))) (exec_commit c).
Proof.
  intros Hi Hp Hf Hsn. apply stays_keeps. intros v. unfold exec_commit. apply stays_bind.
  - cbn [cs_execute OptimisticConcurrencyStrategy]. unfold optimistic_execute.
    assert (Ha : stays (fun s : Exec W Tx => (ex_uow s, frame (ex_world s)) = v) (exec_attempt c)).
    { apply keeps_stays. unfold exec_attempt. rewrite Hi, Hp. by apply attempt_frame. }
    generalize 0%Z as i. induction (Z.to_nat (Z.of_nat maxRetries + 1)) as [| n IH]; intros i; cbn [retry_loop];
      [apply stays_throw |]. apply stays_try_catch; [done |]. intros e. destruct (_ && _); [apply IH | apply stays_throw].
  - intros [events pending]. cbn [fst snd]. apply stays_bind; [| intros _; apply stays_ret].
    intros s <-. unfold world_op, zoom. cbn. unfold save_snapshot, snapshot_config, with_snapshots.
    destruct pending as [ps |]; [| done]. cbn [cf_store]. rewrite swallow_run. cbn. by rewrite Hsn.
Qed.

End execution.

(** An invariant that dispatching and the callback keep holds after publishing. *)
Lemma publish_keeps {W Tx} (dispatch : event -> M (Exec W Tx) unit)
    (onEventsDispatched : option (list event -> M (Exec W Tx) unit)) (I : Exec W Tx -> Prop) events s r s' :
  (forall e s r s', dispatch e s = (r, s') -> I s -> I s') ->
  (forall f es s r s', onEventsDispatched = Some f -> f es s = (r, s') -> I s -> I s') ->
  I s ->
  (for_each events dispatch ;;; after_dispatch onEventsDispatched events) s = (r, s') -> I s'.
Proof.
  intros Hd Hf HI H.
  assert (Hloop : forall l s r s', I s -> for_each l dispatch s = (r, s') -> I s').
  { clear -Hd. induction l as [| e l IH]; intros s r s' HI H; simpl in H; [by injection H as _ <- |].
    unfold bind in H. destruct (dispatch e s) as [[[] | err] s1] eqn:E.
    - eapply IH; [| exact H]. by eapply Hd.
    - injection H as _ <-. by eapply Hd. }
  unfold bind in H. destruct (for_each events dispatch s) as [[[] | err] s1] eqn:E.
  - apply Hloop in E; [| done]. unfold after_dispatch in H.
    destruct onEventsDispatched as [f |]; [| by injection H as _ <-].
    destruct (_ <? _)%nat; [| by injection H as _ <-]. rewrite swallow_run in H. injection H as _ <-.
    destruct (f events s1) as [r1 s2] eqn:E2. by eapply Hf.
  - injection H as _ <-. by eapply Hloop.
Qed.

(** ** Properties *)

(** C4. Loading an aggregate through its snapshot, by the partial load or by
    slicing the full history, gives the state and the version that replaying the
    whole history gives, and fails exactly when that fails, as long as stored
    snapshots are states of the aggregate's own history. *)
Theorem snapshot_load_is_full_replay {W} (host : lens W Host) (P : EventSourcedPersistence W)
    (SN : SnapshotStore W) (stream : W -> string -> list event) (snap : W -> string -> option Snapshot)
    `{!StoresFrame host P SN stream snap} (strategy : SnapshotStrategy) (name : string)
    (aggregate : Aggregate W) (i : ID) (w : W) :
  snapshots_consistent stream snap name aggregate w ->
  match load_aggregate (with_snapshots SN strategy) name aggregate i (EventSourced P) w,
        load_aggregate None name aggregate i (EventSourced P) w with
  | (Ok l, w1), (Ok l', w2) =>
      ld_state l = ld_state l' /\ ld_version l = ld_version l' /\ w1 = w /\ w2 = w
  | (Err e, w1), (Err e', w2) => e = e' /\ w1 = w /\ w2 = w
  | _, _ => False
  end.
Proof.
  intros Hc. pose proof (load_is_replay host P SN stream snap strategy name aggregate w i Hc) as H.
  cbv zeta in H. rewrite H. clear H.
  assert (H : load_aggregate None name aggregate i (EventSourced P) w
    = (match replay aggregate (stream w (composite_key name i)) (ag_initialState aggregate) with
       | Ok s => Ok {| ld_snapshot := None; ld_state := s; ld_isEventSourced := true;
                       ld_version := length (stream w (composite_key name i)) |}
       | Err e => Err e
       end, w)).
  { unfold load_aggregate, snapshot_config. erewrite bind_ok by reflexivity. cbv beta iota.
    erewrite bind_ok by (apply es_load_spec). unfold bind, lift_result.
    by destruct (replay aggregate (stream w (composite_key name i)) _). }
  rewrite H. by destruct (replay aggregate (stream w (composite_key name i)) _).
Qed.

Lemma loads_deposited P :
  P = world_events \/ P = full_load_events ->
  fst (load_aggregate (with_snapshots world_snaps (everyNEvents 2)) "Account" account (IdNum 1)
         (EventSourced P) deposited)
    = Ok {| ld_snapshot := Some {| sn_state := VNum 12; sn_version := 2; sn_stateVersion := None |};
            ld_state := VNum 23; ld_isEventSourced := true; ld_version := 3 |} /\
  fst (load_aggregate None "Account" account (IdNum 1) (EventSourced P) deposited)
    = Ok {| ld_snapshot := None; ld_state := VNum 23; ld_isEventSourced := true; ld_version := 3 |}.
Proof. intros [-> | ->]; split; vm_compute; reflexivity. Qed.

Lemma same_loads {W} (x y : result Loaded * W) (w : W) l l' :
  fst x = Ok l -> fst y = Ok l' ->
  match x, y with
  | (Ok l, w1), (Ok l', w2) => ld_state l = ld_state l' /\ ld_version l = ld_version l' /\ w1 = w /\ w2 = w
  | (Err e, w1), (Err e', w2) => e = e' /\ w1 = w /\ w2 = w
  | _, _ => False
  end ->
  ld_state l = ld_state l' /\ ld_version l = ld_version l'.
Proof. destruct x as [r w1], y as [r' w2]. simpl. intros -> ->. tauto. Qed.

(** The account's snapshot of version 2 is behind its history: both load paths
    replay the third deposit on it, as the full replay does. *)
Lemma snapshot_load_is_full_replay_witness :
  option_map sn_version (world_snap deposited "Account:1") = Some 2%nat /\
  length (world_stream deposited "Account:1") = 3%nat /\
  Forall (fun P => exists l l',
    fst (load_aggregate (with_snapshots world_snaps (everyNEvents 2)) "Account" account (IdNum 1)
           (EventSourced P) deposited) = Ok l /\
    fst (load_aggregate None "Account" account (IdNum 1) (EventSourced P) deposited) = Ok l' /\
    option_map sn_version (ld_snapshot l) = Some 2%nat /\ ld_snapshot l' = None /\ ld_state l' = VNum 23 /\
    ld_state l = ld_state l' /\ ld_version l = ld_version l') [world_events; full_load_events].
Proof.
  split; [vm_compute; reflexivity |]. split; [vm_compute; reflexivity |].
  constructor; [| constructor; [| constructor]].
  - destruct (loads_deposited world_events (or_introl eq_refl)) as [E1 E2].
    eexists _, _. split; [exact E1 |]. split; [exact E2 |].
    split; [reflexivity |]. split; [reflexivity |]. split; [reflexivity |].
    exact (same_loads
      (load_aggregate (with_snapshots world_snaps (everyNEvents 2)) "Account" account (IdNum 1) (EventSourced world_events) deposited)
      (load_aggregate None "Account" account (IdNum 1) (EventSourced world_events) deposited) deposited _ _ E1 E2
      (snapshot_load_is_full_replay host_lens world_events world_snaps world_stream world_snap
        (everyNEvents 2) "Account" account (IdNum 1) deposited deposited_consistent)).
  - destruct (loads_deposited full_load_events (or_intror eq_refl)) as [E1 E2].
    eexists _, _. split; [exact E1 |]. split; [exact E2 |].
    split; [reflexivity |]. split; [reflexivity |]. split; [reflexivity |].
    exact (same_loads
      (load_aggregate (with_snapshots world_snaps (everyNEvents 2)) "Account" account (IdNum 1) (EventSourced full_load_events) deposited)
      (load_aggregate None "Account" account (IdNum 1) (EventSourced full_load_events) deposited) deposited _ _ E1 E2
      (snapshot_load_is_full_replay host_lens full_load_events world_snaps world_stream world_snap
        (everyNEvents 2) "Account" account (IdNum 1) deposited deposited_consistent)).
Defined.

(** C5. The invariant of event-sourced aggregates with snapshots: executing a
    command, whatever its outcome, however many conflicts are retried and whatever
    is published, keeps every stored snapshot of the aggregate equal to the replay
    of the prefix of its history that the snapshot's version counts. *)
Theorem execute_keeps_snapshots_consistent {W Tx} (host : lens W Host) `{!LensLaws host}
    (P : EventSourcedPersistence W) (SN : SnapshotStore W)
    (stream : W -> string -> list event) (snap : W -> string -> option Snapshot)
    `{!StoresFrame host P SN stream snap} (provider : option MetadataContext) (strategy : SnapshotStrategy)
    (idempotencyStore : option (IdempotencyStore W))
    (onEventsProduced : option (list event -> M (UnitOfWork W Tx * W) unit))
    (onEventsDispatched : option (list event -> M (Exec W Tx) unit))
    (dispatch : event -> M (Exec W Tx) unit) (maxRetries : nat) (name : string) (aggregate : Aggregate W)
    (c : command) (s s' : Exec W Tx) (r : result unit) :
  quiet_collaborators stream snap idempotencyStore onEventsProduced aggregate ->
  (forall st i, idempotencyStore = Some st -> quiet stream snap (id_exists st i)) ->
  (forall e s r s', dispatch e s = (r, s') -> snapshots_consistent stream snap name aggregate (ex_world s) ->
     snapshots_consistent stream snap name aggregate (ex_world s')) ->
  (forall f es s r s', onEventsDispatched = Some f -> f es s = (r, s') ->
     snapshots_consistent stream snap name aggregate (ex_world s) ->
     snapshots_consistent stream snap name aggregate (ex_world s')) ->
  ex_uow s = None -> snapshots_consistent stream snap name aggregate (ex_world s) ->
  execute host (GlobalAggregatePersistenceResolver (EventSourced P)) dispatch run_in_memory
    (OptimisticConcurrencyStrategy (Z.of_nat maxRetries)) (the_enricher host provider)
    (with_snapshots SN strategy) idempotencyStore onEventsProduced onEventsDispatched
    name aggregate c s = (r, s') ->
  snapshots_consistent stream snap name aggregate (ex_world s').
Proof.
  intros Hq Hex Hdisp Hdone Hnone Hc H. unfold execute in H.
  assert (Hal : exists b s0, already_processed idempotencyStore c s = (b, s0) /\ ex_uow s0 = None /\
    same_obs stream snap (ex_world s) (ex_world s0)).
  { unfold already_processed. destruct (cmd_commandId c) as [cid |]; [| by exists (Ok false), s].
    destruct idempotencyStore as [st |] eqn:Est; [| by exists (Ok false), s].
    unfold world_op, zoom. destruct (id_exists st cid (lget the_world s)) as [b w1] eqn:Ew.
    exists b, (lset the_world w1 s). split; [done |]. split; [done |]. by eapply Hex. }
  destruct Hal as (b & s0 & Hal & Hnone0 & Ho).
  assert (Hc0 : snapshots_consistent stream snap name aggregate (ex_world s0))
    by (eapply grown_consistent; [by apply same_grown | exact Hc]).
  destruct b as [b | e]; [| by rewrite (bind_err _ _ _ _ _ Hal) in H; injection H as _ <-].
  rewrite (bind_ok _ _ _ _ _ Hal) in H. destruct b; [by injection H as _ <- |].
  unfold GlobalAggregatePersistenceResolver in H.
  erewrite bind_ok in H by reflexivity. unfold bind at 1, gets at 1 in H. rewrite Hnone0 in H.
  unfold execute_implicit in H.
  pose proof (strategy_spec host P SN stream snap provider strategy idempotencyStore onEventsProduced
    maxRetries name aggregate c s0 Hq Hc0) as Hs. unfold exec_attempt in Hs.
  destruct (cs_execute _ name (target c) _ s0) as [[[events pending] | e] s1] eqn:Es.
  2:{ rewrite (bind_err _ _ _ _ _ Es) in H. injection H as _ <-.
      destruct Hs as [Hg _]. by eapply grown_consistent. }
  rewrite (bind_ok _ _ _ _ _ Es) in H. destruct Hs as (s00 & Hg & _ & Hd).
  destruct (save_snapshot_spec host P SN stream snap strategy idempotencyStore onEventsProduced name
    aggregate c (ex_world s00) (ex_world s1) events pending Hd (grown_consistent _ _ _ _ _ _ Hg Hc0))
    as (w2 & Hw2 & _ & Hc2 & _).
  erewrite bind_ok in H by (unfold world_op; apply zoom_run; exact Hw2).
  eapply (publish_keeps dispatch onEventsDispatched
    (fun s => snapshots_consistent stream snap name aggregate (ex_world s))); [| | | exact H].
  - intros e s2 r2 s3 Hd2. by apply (Hdisp e s2 r2 s3).
  - intros f es s2 r2 s3 Hf Hd2. by apply (Hdone f es s2 r2 s3).
  - exact Hc2.
Qed.

Lemma log_keeps (agg : Aggregate World) name e (s : Exec World unit) r s' :
  world_op (log_dispatch e) s = (r, s') ->
  snapshots_consistent world_stream world_snap name agg (ex_world s) ->
  snapshots_consistent world_stream world_snap name agg (ex_world s').
Proof. intros H Hc. injection H as _ <-. exact Hc. Qed.

Lemma memory_execute_run strategy maxRetries name (agg : Aggregate World) c :
  memory_execute strategy None (Z.of_nat maxRetries) name agg c
  = execute host_lens (GlobalAggregatePersistenceResolver (EventSourced world_events))
      (fun e => world_op (log_dispatch e)) run_in_memory (OptimisticConcurrencyStrategy (Z.of_nat maxRetries))
      (the_enricher host_lens None) (with_snapshots world_snaps strategy) None None None name agg c.
Proof. reflexivity. Qed.

(** A fourth deposit, on a history whose snapshot counts two events: the stored
    snapshot is loaded, and replaced by one that counts four. *)
Lemma execute_keeps_snapshots_consistent_witness :
  let after := snd (memory_execute (everyNEvents 2) None 3 "Account" account (deposit 13) deposited_exec) in
  world_snap (ex_world deposited_exec) "Account:1"
    = Some {| sn_state := VNum 12; sn_version := 2; sn_stateVersion := None |} /\
  world_snap (ex_world after) "Account:1"
    = Some {| sn_state := VNum 36; sn_version := 4; sn_stateVersion := None |} /\
  snapshots_consistent world_stream world_snap "Account" account (ex_world after).
Proof.
  split; [vm_compute; reflexivity |]. split; [vm_compute; reflexivity |].
  apply (execute_keeps_snapshots_consistent host_lens world_events world_snaps world_stream world_snap
    None (everyNEvents 2) None None None (fun e => world_op (log_dispatch e)) 3 "Account" account (deposit 13)
    deposited_exec _ (fst (memory_execute (everyNEvents 2) None 3 "Account" account (deposit 13) deposited_exec))).
  - apply account_quiet. discriminate.
  - discriminate.
  - apply log_keeps.
  - discriminate.
  - reflexivity.
  - exact deposited_consistent.
  - rewrite <- memory_execute_run. apply surjective_pairing.
Defined.

(** C2. A command without an idempotency claim is all or nothing.  Either it fails
    (its handler is missing or throws, an evolve handler or an upcaster throws, or
    the conflicts outlast the retries): then no history and no snapshot has changed
    and nothing has been published.  Or the history of the target instance, and
    no other, has grown by exactly the enriched events of one decision taken on
    the replay of that history, numbered consecutively; and only from there are
    these events published, in order. *)
Theorem command_all_or_nothing {W Tx} (host : lens W Host) `{!LensLaws host}
    (P : EventSourcedPersistence W) (SN : SnapshotStore W)
    (stream : W -> string -> list event) (snap : W -> string -> option Snapshot)
    `{!StoresFrame host P SN stream snap} (provider : option MetadataContext) (strategy : SnapshotStrategy)
    (onEventsDispatched : option (list event -> M (Exec W Tx) unit))
    (dispatch : event -> M (Exec W Tx) unit) (maxRetries : nat) (name : string) (aggregate : Aggregate W)
    (c : command) (s : Exec W Tx) :
  quiet_collaborators (Tx := Tx) stream snap None None aggregate ->
  ex_uow s = None -> snapshots_consistent stream snap name aggregate (ex_world s) ->
  let outcome := execute host (GlobalAggregatePersistenceResolver (EventSourced P)) dispatch run_in_memory
    (OptimisticConcurrencyStrategy (Z.of_nat maxRetries)) (the_enricher host provider)
    (with_snapshots SN strategy) None None onEventsDispatched name aggregate c s in
  (exists e s', outcome = (Err e, s') /\ same_obs stream snap (ex_world s) (ex_world s') /\
     cs_execute (OptimisticConcurrencyStrategy (Z.of_nat maxRetries)) name (target c)
       (exec_attempt host P SN provider strategy None None name aggregate c) s = (Err e, s')) \/
  (exists s0 events pending w1 s2,
     same_obs stream snap (ex_world s) s0 /\
     attempt_done (Tx := Tx) host stream snap None None name aggregate c s0 events pending w1 /\
     (forall k, stream (ex_world s2) k = stream w1 k) /\
     outcome = (for_each events dispatch ;;; after_dispatch onEventsDispatched events) s2).
Proof.
  intros Hq Hnone Hc outcome.
  assert (Hout : outcome = exec_implicit host P SN provider strategy None None onEventsDispatched dispatch
                             maxRetries name aggregate c s) by by apply execute_implicit_run.
  rewrite Hout. clear Hout outcome.
  pose proof (exec_commit_spec (Tx := Tx) host P SN stream snap provider strategy None None
    maxRetries name aggregate c s Hq Hc eq_refl eq_refl) as Hs.
  rewrite exec_implicit_split.
  destruct (exec_commit _ _ _ _ _ _ _ _ _ _ c s) as [[events | e] s2] eqn:E.
  - right. destruct Hs as (s0 & pending & w1 & Ho & Hd & Hst & _). rewrite (bind_ok _ _ _ _ _ E).
    by exists s0, events, pending, w1, s2.
  - left. destruct Hs as [Ho He]. rewrite (bind_err _ _ _ _ _ E). by exists e, s2.
Qed.

(** A rejected deposit. *)
Lemma command_all_or_nothing_witness :
  exists e s', memory_execute (everyNEvents 2) None 3 "Account" account
      {| cmd_name := "Withdraw"; cmd_payload := VNull; cmd_commandId := None;
         cmd_targetAggregateId := Some (IdNum 1) |} start_exec = (Err e, s') /\
    same_obs world_stream world_snap start (ex_world s').
Proof.
  destruct (command_all_or_nothing host_lens world_events world_snaps world_stream world_snap
    None (everyNEvents 2) None (fun e => world_op (log_dispatch e)) 3 "Account" account
    {| cmd_name := "Withdraw"; cmd_payload := VNull; cmd_commandId := None;
       cmd_targetAggregateId := Some (IdNum 1) |} start_exec
    (account_quiet None (fun st r (H : None = Some st) => False_ind _ (eq_ind None
        (fun o => match o with None => True | Some _ => False end) I _ H)))
    eq_refl (start_consistent _ _)) as [(e & s' & H1 & H2 & _) | (s0 & evs & p & w1 & s2 & _ & _ & _ & H)].
  - exists e, s'. split; [exact H1 | exact H2].
  - exfalso. assert (Hfail : fst (memory_execute (everyNEvents 2) None 3 "Account" account
      {| cmd_name := "Withdraw"; cmd_payload := VNull; cmd_commandId := None;
         cmd_targetAggregateId := Some (IdNum 1) |} start_exec) <> Ok tt) by (vm_compute; discriminate).
    apply Hfail. unfold memory_execute, the_enricher in *. simpl option_map in H.
    match type of H with ?x = _ => change (fst x = Ok tt) end. rewrite H. clear.
    assert (Hlog : forall l (s : Exec World unit), fst (for_each l (fun e => world_op (log_dispatch e)) s) = Ok tt).
    { induction l as [| x l IH]; intros s; [reflexivity | exact (IH _)]. }
    unfold bind. specialize (Hlog evs s2).
    destruct (for_each evs (fun e => world_op (log_dispatch e)) s2) as [[[] | e] s3]; [reflexivity | discriminate].
Defined.

(** Inside an active unit of work a command writes nothing: it leaves every
    history and snapshot as they are, and on success adds to the active unit of
    work one save at the version it read, its idempotency claim, the events to
    publish once the owner has committed, and, when the strategy asks for a
    snapshot, the hook that saves it after the commit. *)
Theorem explicit_command_defers {W Tx} (host : lens W Host) `{!LensLaws host}
    (P : EventSourcedPersistence W) (SN : SnapshotStore W)
    (stream : W -> string -> list event) (snap : W -> string -> option Snapshot)
    `{!StoresFrame host P SN stream snap} (provider : option MetadataContext) (strategy : SnapshotStrategy)
    (idempotencyStore : option (IdempotencyStore W))
    (onEventsProduced : option (list event -> M (UnitOfWork W Tx * W) unit))
    (name : string) (aggregate : Aggregate W) (c : command) (s : Exec W Tx) (u : UnitOfWork W Tx) :
  quiet_collaborators stream snap idempotencyStore onEventsProduced aggregate ->
  snapshots_consistent stream snap name aggregate (ex_world s) ->
  ex_uow s = Some u -> uw_completed u = false ->
  match execute_explicit host (OptimisticConcurrencyStrategy 0) (the_enricher host provider)
          (with_snapshots SN strategy) idempotencyStore onEventsProduced name aggregate c (EventSourced P) s with
  | (Err _, s') => same_obs stream snap (ex_world s) (ex_world s')
  | (Ok _, s') => same_obs stream snap (ex_world s) (ex_world s') /\
      exists pending u1,
        lifecycle_done host P stream snap idempotencyStore onEventsProduced name aggregate c u (ex_world s) pending u1 /\
        ex_uow s' = Some match pending with
          | Some ps => snd (onUowCommitted (save_snapshot (with_snapshots SN strategy) name (Some ps)) u1)
          | None => u1
          end
  end.
Proof.
  intros Hq Hc Hu Hcomp. unfold execute_explicit.
  erewrite bind_ok by reflexivity. cbv beta zeta.
  pose proof (lifecycle_spec host P SN stream snap provider strategy idempotencyStore onEventsProduced
    name aggregate (ex_meta s) c u (ex_world s) Hq Hc Hcomp) as Hl. unfold the_lifecycle in Hl.
  set (run := executeLifecycle _ _ _ _ _ _ _ _ _ _) in *.
  assert (Hrun : on_active_uow run s = (let '(r, (u', w')) := run (u, ex_world s) in
    (r, {| ex_world := w'; ex_uow := Some u'; ex_meta := ex_meta s |})))
    by (unfold on_active_uow; by rewrite Hu).
  cbn [cs_acquireForUow OptimisticConcurrencyStrategy cs_execute].
  unfold optimistic_execute. change (Z.to_nat (0 + 1)) with 1%nat. cbn [retry_loop].
  unfold bind at 1, try_catch. rewrite Hrun.
  destruct (run (u, ex_world s)) as [[pending | e] [u1 w1]].
  - destruct Hl as [Ho Hd]. destruct pending as [ps |].
    + unfold snapshot_config, with_snapshots, on_active_uow, zoom. simpl.
      split; [exact Ho |]. by exists (Some ps), u1.
    + simpl. split; [exact Ho |]. by exists None, u1.
  - rewrite andb_false_r. exact Hl.
Qed.

Lemma explicit_command_defers_witness :
  same_obs world_stream world_snap start (ex_world (snd (execute_explicit host_lens
    (OptimisticConcurrencyStrategy 0) (the_enricher host_lens None) (with_snapshots world_snaps (everyNEvents 1))
    None None "Account" account (deposit 5) (EventSourced world_events)
    {| ex_world := start; ex_uow := Some (new_uow (Tx := unit)); ex_meta := None |}))).
Proof.
  pose proof (explicit_command_defers (Tx := unit) host_lens world_events world_snaps world_stream world_snap
    None (everyNEvents 1) None None "Account" account (deposit 5)
    {| ex_world := start; ex_uow := Some (new_uow (Tx := unit)); ex_meta := None |} new_uow
    (account_quiet None (fun st r (H : None = Some st) => False_ind _ (eq_ind None
        (fun o => match o with None => True | Some _ => False end) I _ H)))
    (start_consistent _ _) eq_refl eq_refl) as H.
  destruct (execute_explicit _ _ _ _ _ _ _ _ _ _ _) as [[[] | e] s']; [exact (proj1 H) | exact H].
Defined.

Lemma claim_recorded cid name i tx w w' :
  claim_operation (Tx := unit) host_lens (world_idempotency None) cid name i tx w = (Ok tt, w') ->
  exists r, mget (string_of_ID cid) (w_idem w') = Some r.
Proof.
  intros (t & w1 & _ & H)%bind_inv_ok. simpl in H. apply bind_inv_ok in H as (now & w2 & _ & H).
  unfold zoom in H. destruct (CommandIdempotency.save _ _ _ _) as [res st] eqn:E. injection H as -> <-.
  set (r := {| ir_commandId := cid; ir_aggregateName := name; ir_aggregateId := i; ir_processedAt := t |}) in *.
  exists r. simpl. revert E.
  unfold CommandIdempotency.save, CommandIdempotency.getLiveRecord, bind, gets, ret, modify. simpl.
  destruct (mget (string_of_ID cid) (w_idem w2)); [done |]. intros [= <-]. apply mget_mset_eq.
Qed.

Lemma exists_recorded cid r w :
  mget (string_of_ID cid) (w_idem w) = Some r ->
  exists h, id_exists (world_idempotency None) cid w = (Ok true, lset host_lens h w).
Proof.
  intros Hr. simpl. destruct (zoom_now_run host_lens w) as (t & w1 & E & [h ->]).
  exists h. rewrite (bind_ok _ _ _ _ _ E). unfold zoom, CommandIdempotency.exists_,
    CommandIdempotency.getLiveRecord, bind, gets, ret. simpl. rewrite Hr. by destruct w.
Qed.

(** Publishing to the log and saving a snapshot leave the claims alone. *)
Lemma log_keeps_claims l : forall (s : Exec World unit) r s',
  for_each l (fun e => world_op (log_dispatch e)) s = (r, s') ->
  w_idem (ex_world s') = w_idem (ex_world s).
Proof.
  induction l as [| e l IH]; intros s r s' H; simpl in H; [by injection H as _ <- |].
  unfold bind in H. simpl in H. by apply IH in H as ->.
Qed.

Lemma snapshot_keeps_claims strategy name pending (s : Exec World unit) r s' :
  world_op (save_snapshot (with_snapshots world_snaps strategy) name pending) s = (r, s') ->
  w_idem (ex_world s') = w_idem (ex_world s).
Proof.
  intros H. unfold world_op, zoom, save_snapshot, snapshot_config, with_snapshots in H.
  destruct pending; [rewrite swallow_run in H |]; by injection H as _ <-.
Qed.

(** The fast path reads the claims and nothing else. *)
Lemma fast_path_spec c cid (s s0 : Exec World unit) b :
  cmd_commandId c = Some cid ->
  already_processed (Some (world_idempotency None)) c s = (Ok b, s0) ->
  w_idem (ex_world s0) = w_idem (ex_world s) /\ ex_uow s0 = ex_uow s /\
  same_obs world_stream world_snap (ex_world s) (ex_world s0) /\
  b = match mget (string_of_ID cid) (w_idem (ex_world s)) with Some _ => true | None => false end.
Proof.
  intros Hcid. unfold already_processed. rewrite Hcid. unfold world_op, zoom. simpl.
  unfold bind, zoom, CommandIdempotency.exists_, CommandIdempotency.getLiveRecord, bind, gets. simpl.
  destruct (mget (string_of_ID cid) (w_idem (ex_world s))); by intros [= <- <-].
Qed.

(** A successful execution leaves the command claimed. *)
Lemma execute_claims strategy (maxRetries : nat) name agg c cid (s s1 : Exec World unit) :
  (forall n handler, mget n (ag_decide agg) = Some handler ->
     forall c s, quiet world_stream world_snap (handler c s)) ->
  ex_uow s = None -> snapshots_consistent world_stream world_snap name agg (ex_world s) ->
  cmd_commandId c = Some cid ->
  memory_execute strategy (Some (world_idempotency None)) (Z.of_nat maxRetries) name agg c s = (Ok tt, s1) ->
  exists r, mget (string_of_ID cid) (w_idem (ex_world s1)) = Some r.
Proof.
  intros Hq Hnone Hc Hcid H. unfold memory_execute, execute in H.
  apply bind_inv_ok in H as (b & s0 & Hal & H).
  destruct (fast_path_spec c cid s s0 b Hcid Hal) as (Hi0 & Hn0 & Ho & ->).
  rewrite <- Hi0 in H. rewrite Hnone in Hn0.
  destruct (mget (string_of_ID cid) (w_idem (ex_world s0))) as [r |] eqn:E.
  { injection H as <-. by exists r. }
  unfold GlobalAggregatePersistenceResolver in H. erewrite bind_ok in H by reflexivity.
  unfold bind at 1, gets at 1 in H. rewrite Hn0 in H. unfold execute_implicit in H.
  apply bind_inv_ok in H as ([events pending] & s3 & Hs & H).
  pose proof (strategy_spec (Tx := unit) host_lens world_events world_snaps world_stream world_snap None strategy
    (Some (world_idempotency None)) None maxRetries name agg c s0) as Hspec.
  unfold exec_attempt in Hspec. unfold the_enricher in Hspec. simpl option_map in Hspec. rewrite Hs in Hspec.
  destruct Hspec as (s4 & _ & _ & Hd).
  { split; [exact Hq | apply world_idempotency_quiet | done]. }
  { eapply grown_consistent; [by apply same_grown | exact Hc]. }
  destruct Hd as [_ (? & ? & ? & ? & ? & ? & _ & _ & _ & _ & _ & _ & w2 & rest & Hops & Hnil)].
  rewrite (Hnil eq_refl) in Hops. unfold claim_ops in Hops. rewrite Hcid in Hops.
  cbn [app for_each] in Hops. apply bind_inv_ok in Hops as ([] & w3 & Hclaim & Hw3).
  injection Hw3 as ->. apply bind_inv_ok in H as ([] & s5 & H5 & H).
  apply bind_inv_ok in H as ([] & s6 & H6 & H). injection H as <-.
  apply snapshot_keeps_claims in H5. apply log_keeps_claims in H6. rewrite H6, H5. by eapply claim_recorded.
Qed.

(** C3. Exactly-once effect of identified commands: once a command with an
    identifier has been executed successfully on the in-memory stores, executing
    any command with the same identifier, on any aggregate and in any later state
    whose claim on the identifier is still there, succeeds without running
    anything: apart from the reading of the clock the world, the histories and
    what has been published are untouched. *)
Theorem identified_command_once (strategy : SnapshotStrategy) (maxRetries : nat) (name : string)
    (agg : Aggregate World) (c : command) (cid : ID) (s s1 : Exec World unit) :
  (forall n handler, mget n (ag_decide agg) = Some handler ->
     forall c s, quiet world_stream world_snap (handler c s)) ->
  ex_uow s = None -> snapshots_consistent world_stream world_snap name agg (ex_world s) ->
  cmd_commandId c = Some cid ->
  memory_execute strategy (Some (world_idempotency None)) (Z.of_nat maxRetries) name agg c s = (Ok tt, s1) ->
  forall name2 agg2 c2 s2, cmd_commandId c2 = Some cid ->
    mget (string_of_ID cid) (w_idem (ex_world s2)) = mget (string_of_ID cid) (w_idem (ex_world s1)) ->
    exists h, memory_execute strategy (Some (world_idempotency None)) (Z.of_nat maxRetries) name2 agg2 c2 s2
              = (Ok tt, lset the_world (lset host_lens h (ex_world s2)) s2).
Proof.
  intros Hq Hnone Hc Hcid H name2 agg2 c2 s2 Hcid2 Hi.
  destruct (execute_claims strategy maxRetries name agg c cid s s1 Hq Hnone Hc Hcid H) as [r Hr].
  rewrite <- Hi in Hr. destruct (exists_recorded cid r (ex_world s2) Hr) as [h Hh]. exists h.
  unfold memory_execute, execute, already_processed. rewrite Hcid2.
  erewrite bind_ok by (unfold world_op; apply zoom_run; exact Hh). done.
Qed.

Lemma identified_command_once_witness :
  exists h s2, memory_execute (everyNEvents 2) (Some (world_idempotency None)) 3 "Account" account (deposit 9) s2
             = (Ok tt, lset the_world (lset host_lens h (ex_world s2)) s2).
Proof.
  destruct (identified_command_once (everyNEvents 2) 3 "Account" account (deposit 5) (IdStr "cmd-1") start_exec
    (snd (memory_execute (everyNEvents 2) (Some (world_idempotency None)) 3 "Account" account (deposit 5) start_exec))
    account_decide_quiet eq_refl (start_consistent _ _) eq_refl
    ltac:(rewrite (surjective_pairing (memory_execute _ _ _ _ _ _ _)); f_equal; vm_compute; reflexivity)
    "Account" account (deposit 9) _ eq_refl eq_refl) as [h H].
  eexists h, _. exact H.
Defined.

(** The causation identifier of a command's events is the name of the command,
    also when the command carries an identifier. *)
Example causation_is_command_name :
  map (metadata_req md_causationId)
    (w_log (ex_world (snd (memory_execute (everyNEvents 2) None 0 "Account" account (deposit 5) start_exec))))
  = [Some "Deposit"%string].
Proof. by vm_compute. Qed.
