(* ===== verification/Buses.v ===== *)
(** The in-process buses: [InMemoryCommandBus], [InMemoryQueryBus] and
    [EventEmitterEventBus] ([engine/src/implementations]).  Handlers act on the
    state [St] of the program.  The event bus keeps its handlers in arrays that the
    running dispatch and the calls of [on], [off] and [close] share: arrays live in
    a store and are named by references, and a handler is named by a number that
    stands for its function identity. *)
From S2P Require Import Prelude JsMap CoreTypes.

(** ** InMemoryCommandBus *)

Module CommandBus.
Section bus.
Context {St : Type}.

Definition handler : Type := command -> M St unit.
Definition handlers : Type := jsmap handler.

Definition register (commandName : string) (h : handler) : M handlers unit :=
  has <- gets (mhas commandName) ;;
  if (has : bool)
  then throw (PlainError (String.append "Handler already registered for command: " commandName))
  else modify (mset commandName h).

Definition dispatch (hs : handlers) (c : command) : M St unit :=
  match mget (cmd_name c) hs with
  | None => throw (PlainError (String.append "No handler registered for command: " (cmd_name c)))
  | Some h => h c
  end.
End bus.
End CommandBus.

(** ** InMemoryQueryBus *)

Module QueryBus.

Record query : Type := { q_name : string; q_payload : value }.

Section bus.
Context {St : Type}.

(** A query handler receives the payload. *)
Definition handler : Type := value -> M St value.
Definition handlers : Type := jsmap handler.

Definition register (queryName : string) (h : handler) : M handlers unit :=
  has <- gets (mhas queryName) ;;
  if (has : bool)
  then throw (PlainError (String.append "Handler already registered for query: " queryName))
  else modify (mset queryName h).

Definition dispatch (hs : handlers) (q : query) : M St value :=
  match mget (q_name q) hs with
  | None => throw (PlainError (String.append "No handler registered for query: " (q_name q)))
  | Some h => h (q_payload q)
  end.
End bus.
End QueryBus.

(** ** EventEmitterEventBus *)

Module EventBus.

(** The array of a reference, and the references of the registry. *)
Record bus : Type := {
  arrays : list (list nat);        (** the n-th array allocated *)
  registry : jsmap nat             (** event name to array reference *)
}.

Definition new_bus : bus := {| arrays := []; registry := empty |}.

Definition on (eventName : string) (handler : nat) : M bus unit :=
  b <- get ;;
  match mget eventName (registry b) with
  | Some existing =>
      modify (fun b => {| arrays := alter (fun a => a ++ [handler]) existing (arrays b);
                          registry := registry b |})
  | None =>
      modify (fun b => {| arrays := arrays b ++ [[handler]];
                          registry := mset eventName (length (arrays b)) (registry b) |})
  end.

(** [existing.splice(existing.indexOf(handler), 1)] *)
Fixpoint splice_first (handler : nat) (a : list nat) : list nat :=
  match a with
  | [] => []
  | x :: a' => if Nat.eqb handler x then a' else x :: splice_first handler a'
  end.

Definition off (eventName : string) (handler : nat) : M bus unit :=
  b <- get ;;
  match mget eventName (registry b) with
  | None => ret tt
  | Some existing =>
      modify (fun b => {| arrays := alter (splice_first handler) existing (arrays b);
                          registry := registry b |})
  end.

(** [removeAllListeners]: the registry is cleared; an array that a running
    dispatch iterates is not. *)
Definition removeAllListeners : M bus unit :=
  modify (fun b => {| arrays := arrays b; registry := empty |}).

Definition close : M bus unit := removeAllListeners.

Section dispatch.
Context {St : Type} (the_bus : lens St bus)
  (invoke : nat -> event -> M St unit)                 (** call of a handler *)
  (log_error : nat -> event -> js_error -> M St unit). (** [logger.error(...)] *)

(** [for (const handler of eventHandlers)]: the iterator reads the live array at
    each turn. [None]: [fuel] turns were not enough. *)
Fixpoint dispatch_loop (fuel : nat) (ref i : nat) (e : event) : M St (option unit) :=
  match fuel with
  | O => ret None
  | S fuel' =>
      b <- gets (lget the_bus) ;;
      match (arrays b !!! ref) !! i with
      | None => ret (Some tt)
      | Some handler =>
          try_catch (invoke handler e) (fun err => log_error handler e err) ;;;
          dispatch_loop fuel' ref (i + 1) e
      end
  end.

Definition dispatch (fuel : nat) (e : event) : M St (option unit) :=
  b <- gets (lget the_bus) ;;
  match mget (ev_name e) (registry b) with
  | None => ret (Some tt)
  | Some ref => dispatch_loop fuel ref 0 e
  end.
End dispatch.

(** The handlers registered for an event name. *)
Definition handlers_of (b : bus) (eventName : string) : list nat :=
  match mget eventName (registry b) with Some ref => arrays b !!! ref | None => [] end.

(** References are allocated, and no two names share an array. *)
Record bus_wf (b : bus) : Prop := {
  wf_alloc : forall n ref, mget n (registry b) = Some ref -> (ref < length (arrays b))%nat;
  wf_unshared : forall n n' ref, mget n (registry b) = Some ref -> mget n' (registry b) = Some ref -> n = n'
}.

(** ** Facts *)

Lemma new_bus_wf : bus_wf new_bus.
Proof. by split. Qed.

Lemma lookup_total_alter_eq (f : list nat -> list nat) ref (l : list (list nat)) :
  (ref < length l)%nat -> alter f ref l !!! ref = f (l !!! ref).
Proof.
  intros H. rewrite !list_lookup_total_alt, list_lookup_alter_eq.
  destruct (lookup_lt_is_Some_2 l ref H) as [x ->]. done.
Qed.

Lemma lookup_total_alter_ne (f : list nat -> list nat) ref ref' (l : list (list nat)) :
  ref <> ref' -> alter f ref l !!! ref' = l !!! ref'.
Proof. intros H. by rewrite !list_lookup_total_alt, list_lookup_alter_ne. Qed.

Lemma on_spec b n h :
  bus_wf b -> exists b', on n h b = (Ok tt, b') /\ bus_wf b' /\
    forall n', handlers_of b' n' = if String.eqb n' n then handlers_of b n ++ [h] else handlers_of b n'.
Proof.
  intros [Ha Hs]. unfold on, bind, get, modify, handlers_of.
  destruct (mget n (registry b)) as [ref |] eqn:E.
  - eexists. split; [done |]. split.
    + split; simpl; [intros m r Hm; rewrite length_alter; by eapply Ha | apply Hs].
    + intros n'. simpl. destruct (String.eqb_spec n' n) as [-> | Hne].
      * rewrite E. apply lookup_total_alter_eq. by eapply Ha.
      * destruct (mget n' (registry b)) as [ref' |] eqn:E'; [| done].
        apply lookup_total_alter_ne. intros ->. by apply Hne, (Hs _ _ ref').
  - eexists. split; [done |]. split.
    + split; simpl.
      * intros m r. rewrite mget_mset, length_app. simpl.
        destruct (String.eqb m n); [intros [= <-]; lia | intros Hm%Ha; lia].
      * intros m m' r. rewrite !mget_mset.
        destruct (String.eqb_spec m n) as [-> |], (String.eqb_spec m' n) as [-> |]; try done.
        -- intros [= <-] Hm%Ha. lia.
        -- intros Hm%Ha [= <-]. lia.
        -- apply Hs.
    + intros n'. simpl. rewrite mget_mset. destruct (String.eqb_spec n' n) as [-> | Hne].
      * rewrite list_lookup_total_alt, lookup_app_r, Nat.sub_diag by done. done.
      * destruct (mget n' (registry b)) as [ref' |] eqn:E'; [| done].
        rewrite !list_lookup_total_alt, lookup_app_l; [done | by eapply Ha].
Qed.

Lemma off_spec b n h :
  bus_wf b -> exists b', off n h b = (Ok tt, b') /\ bus_wf b' /\
    forall n', handlers_of b' n' = if String.eqb n' n then splice_first h (handlers_of b n) else handlers_of b n'.
Proof.
  intros [Ha Hs]. unfold off, bind, get, modify, ret, handlers_of.
  destruct (mget n (registry b)) as [ref |] eqn:E.
  - eexists. split; [done |]. split.
    + split; simpl; [intros m r Hm; rewrite length_alter; by eapply Ha | apply Hs].
    + intros n'. simpl. destruct (String.eqb_spec n' n) as [-> | Hne].
      * rewrite E. apply lookup_total_alter_eq. by eapply Ha.
      * destruct (mget n' (registry b)) as [ref' |] eqn:E'; [| done].
        apply lookup_total_alter_ne. intros ->. by apply Hne, (Hs _ _ ref').
  - exists b. split; [done |]. split; [done |]. intros n'.
    destruct (String.eqb_spec n' n) as [-> |]; [by rewrite E | done].
Qed.

Lemma splice_app_single h a : h ∉ a -> splice_first h (a ++ [h]) = a.
Proof.
  induction a as [| x a IH]; simpl; [by rewrite Nat.eqb_refl |].
  rewrite not_elem_of_cons. intros [Hne Hin]. apply Nat.eqb_neq in Hne as ->. by rewrite IH.
Qed.

Section dispatch_facts.
Context {St : Type} (the_bus : lens St bus)
  (invoke : nat -> event -> M St unit) (log_error : nat -> event -> js_error -> M St unit).

(** Each handler in turn, its error handed to the logger. *)
Definition run_handlers (hs : list nat) (e : event) : M St unit :=
  for_each hs (fun h => try_catch (invoke h e) (fun err => log_error h e err)).

(** Handlers, and the logger, leave the array with reference [ref] alone. *)
Definition stable (ref : nat) (e : event) : Prop :=
  forall h s r s', (invoke h e s = (r, s') \/ exists err, log_error h e err s = (r, s')) ->
    arrays (lget the_bus s') !!! ref = arrays (lget the_bus s) !!! ref.

Lemma dispatch_loop_spec fuel ref i e s :
  stable ref e -> (forall h err s, fst (log_error h e err s) = Ok tt) ->
  (length (drop i (arrays (lget the_bus s) !!! ref)) < fuel)%nat ->
  dispatch_loop the_bus invoke log_error fuel ref i e s
  = (Ok (Some tt), snd (run_handlers (drop i (arrays (lget the_bus s) !!! ref)) e s)) /\
  fst (run_handlers (drop i (arrays (lget the_bus s) !!! ref)) e s) = Ok tt.
Proof.
  intros Hst Hlog. revert i s. induction fuel as [| fuel IH]; intros i s Hlen; [lia |].
  cbn [dispatch_loop]. unfold bind at 1, gets at 1.
  destruct ((arrays (lget the_bus s) !!! ref) !! i) as [h |] eqn:E.
  - rewrite (drop_S _ _ _ E) in *. unfold run_handlers in *. cbn [for_each].
    assert (Hone : exists s1, try_catch (invoke h e) (fun err => log_error h e err) s = (Ok tt, s1) /\
      arrays (lget the_bus s1) !!! ref = arrays (lget the_bus s) !!! ref).
    { unfold try_catch. destruct (invoke h e s) as [[[] | err] s1] eqn:Ei.
      - exists s1. split; [done |]. eapply Hst. by left.
      - pose proof (Hlog h err s1) as Hl. destruct (log_error h e err s1) as [r s2] eqn:El.
        simpl in Hl. subst r. exists s2. split; [done |].
        rewrite (Hst h s1 (Ok tt) s2) by (right; by exists err). eapply Hst. by left. }
    destruct Hone as (s1 & H1 & Ha). rewrite !(bind_ok _ _ _ _ _ H1).
    specialize (IH (i + 1)%nat s1). rewrite Ha in IH. replace (i + 1)%nat with (S i) in * by lia.
    apply IH. simpl in Hlen. lia.
  - rewrite drop_ge by (by apply lookup_ge_None). done.
Qed.
End dispatch_facts.
End EventBus.

(** ** Properties *)

(** Registration is exclusive and routing is exact: a name can be registered
    once, a second registration throws and changes nothing; afterwards a command
    of that name runs that handler and no other, commands of other names are
    routed as before, and a command without a handler is rejected before anything
    runs. *)
Theorem command_bus_routing {St} (hs : CommandBus.handlers (St := St)) (name : string)
    (h : CommandBus.handler) (c : command) (s : St) :
  let '(r, hs') := CommandBus.register name h hs in
  (r = Ok tt <-> mget name hs = None) /\
  (mget name hs <> None -> hs' = hs) /\
  CommandBus.dispatch hs' c s
  = match mget (cmd_name c) hs with
    | Some old => old c s
    | None =>
        if String.eqb (cmd_name c) name then h c s
        else (Err (PlainError (String.append "No handler registered for command: " (cmd_name c))), s)
    end.
Proof.
  unfold CommandBus.register, CommandBus.dispatch, bind, gets, mhas, modify, throw.
  destruct (mget name hs) as [old |] eqn:E; simpl.
  - split; [done |]. split; [done |]. destruct (String.eqb_spec (cmd_name c) name) as [-> | Hne].
    + by rewrite E.
    + by destruct (mget (cmd_name c) hs).
  - split; [done |]. split; [done |]. rewrite mget_mset.
    destruct (String.eqb_spec (cmd_name c) name) as [-> | Hne]; [by rewrite E |].
    by destruct (mget (cmd_name c) hs).
Qed.

(** C30. Dispatching an event never rejects because of a handler: every handler
    registered for the event's name runs once, in registration order, each to its
    end before the next, and the error of one is given to the logger and does not
    stop the others; an event without handlers is a no-op.  Assumes that running
    handlers do not change the handlers of this very name, and that the logger
    does not throw; as many turns as handlers are enough. *)
Theorem event_bus_isolates_failures {St} (the_bus : lens St EventBus.bus)
    (invoke : nat -> event -> M St unit) (log_error : nat -> event -> js_error -> M St unit)
    (e : event) (s : St) (fuel : nat) :
  let hs := EventBus.handlers_of (lget the_bus s) (ev_name e) in
  (forall ref, mget (ev_name e) (EventBus.registry (lget the_bus s)) = Some ref ->
     EventBus.stable the_bus invoke log_error ref e) ->
  (forall h err s, fst (log_error h e err s) = Ok tt) ->
  (length hs < fuel)%nat ->
  EventBus.dispatch the_bus invoke log_error fuel e s
  = (Ok (Some tt), snd (EventBus.run_handlers invoke log_error hs e s)) /\
  fst (EventBus.run_handlers invoke log_error hs e s) = Ok tt.
Proof.
  intros hs Hst Hlog Hfuel. unfold EventBus.dispatch. unfold bind at 1, gets at 1.
  unfold hs, EventBus.handlers_of in *.
  destruct (mget (ev_name e) (EventBus.registry (lget the_bus s))) as [ref |]; [| done].
  pose proof (EventBus.dispatch_loop_spec the_bus invoke log_error fuel ref 0 e s
    (Hst ref eq_refl) Hlog) as H.
  rewrite drop_0 in H. by apply H.
Qed.

(** Two handlers; the first fails. *)
Definition demo_state : Type := EventBus.bus * list nat.
Definition demo_invoke (h : nat) (_ : event) : M demo_state unit :=
  fun s => (if Nat.eqb h 1 then Err (PlainError "boom") else Ok tt, (fst s, snd s ++ [h])).
Definition demo_log (_ : nat) (_ : event) (_ : js_error) : M demo_state unit := ret tt.
Definition demo_bus : EventBus.bus :=
  {| EventBus.arrays := [[1; 2]]%nat; EventBus.registry := [("Paid"%string, 0%nat)] |}.
Definition paid : event := {| ev_name := "Paid"; ev_payload := VNull; ev_metadata := None |}.

Lemma event_bus_isolates_failures_witness :
  EventBus.dispatch fst_lens demo_invoke demo_log 3 paid (demo_bus, [])
  = (Ok (Some tt), (demo_bus, [1; 2]%nat)).
Proof.
  refine (proj1 (event_bus_isolates_failures fst_lens demo_invoke demo_log paid (demo_bus, []) 3 _ _ _)).
  - intros ref _ h s r s' [H | [err H]]; injection H as _ <-; reflexivity.
  - reflexivity.
  - apply Nat.ltb_lt. reflexivity.
Defined.

(** Subscriptions: [on] appends a handler to those of its event name and of no
    other; [off] removes its first registration and nothing else, so that
    unsubscribing a handler that was subscribed once restores the handlers that
    were there; and after [close] no event reaches any handler. *)
Theorem event_bus_subscriptions (b : EventBus.bus) (n : string) (h : nat) :
  EventBus.bus_wf b ->
  exists b1 b2 b3,
    EventBus.on n h b = (Ok tt, b1) /\ EventBus.bus_wf b1 /\
    EventBus.off n h b1 = (Ok tt, b2) /\ EventBus.bus_wf b2 /\
    EventBus.close b1 = (Ok tt, b3) /\
    (forall n', EventBus.handlers_of b1 n'
       = if String.eqb n' n then EventBus.handlers_of b n ++ [h] else EventBus.handlers_of b n') /\
    (h ∉ EventBus.handlers_of b n -> forall n', EventBus.handlers_of b2 n' = EventBus.handlers_of b n') /\
    (forall n', EventBus.handlers_of b3 n' = []).
Proof.
  intros Hwf. destruct (EventBus.on_spec b n h Hwf) as (b1 & H1 & Hwf1 & Hh1).
  destruct (EventBus.off_spec b1 n h Hwf1) as (b2 & H2 & Hwf2 & Hh2).
  eexists b1, b2, _. do 4 (split; [done |]). split; [reflexivity |]. split; [done |]. split.
  - intros Hni n'. rewrite Hh2. destruct (String.eqb_spec n' n) as [-> | Hne].
    + rewrite Hh1, String.eqb_refl. by apply EventBus.splice_app_single.
    + rewrite Hh1. by apply String.eqb_neq in Hne as ->.
  - done.
Qed.

Lemma event_bus_subscriptions_witness :
  exists b1, EventBus.on "Paid" 3 EventBus.new_bus = (Ok tt, b1) /\ EventBus.handlers_of b1 "Paid" = [3%nat].
Proof.
  destruct (event_bus_subscriptions EventBus.new_bus "Paid" 3 EventBus.new_bus_wf)
    as (b1 & b2 & b3 & H1 & _ & _ & _ & _ & H2 & _).
  exists b1. split; [exact H1 |]. rewrite H2. reflexivity.
Defined.
