(* ===== verification/SagaExecutor.v ===== *)
(** The saga lifecycle: [engine/src/executors/saga-executor.ts].  The command bus
    and the event bus are the arguments [dispatch_command] and [dispatch_event];
    both run in the execution state, so that a command dispatched inside the scope
    of a unit of work finds it there. *)
From S2P Require Import Prelude JsMap CoreTypes Host Stores UnitOfWork Concurrency Metadata World.

Section executor.
Context {W Tx : Type} (host : lens W Host)
  (sagaPersistence : SagaPersistence W)
  (run_commit : list (operation W Tx) -> M W unit)
  (dispatch_command : command -> M (Exec W Tx) unit)
  (dispatch_event : event -> M (Exec W Tx) unit)
  (onEventsDispatched : option (list event -> M (Exec W Tx) unit)).

(** Step 6: the context that the triggering event hands on. *)
Definition saga_context (e : event) : M W MetadataContext :=
  correlationId <- match metadata_req md_correlationId e with
                   | Some c => ret c
                   | None => zoom host new_uuid
                   end ;;
  ret {| mc_correlationId := Some (Some correlationId);
         mc_causationId := Some (Some (or_default (metadata_req md_eventId e) (ev_name e)));
         mc_userId := Some (metadata_opt md_userId e) |}.

(** [uow.enlist(() => sagaPersistence.save(...))] *)
Definition save_saga (sagaName : string) (sagaId : ID) (state : value) (expectedVersion : nat)
  : operation W Tx :=
  fun _ => sp_save sagaPersistence sagaName sagaId state expectedVersion.

(** [failCommitPhase]: roll back as far as possible, and rethrow. *)
Definition failCommitPhase {A} (error : js_error) : M (Exec W Tx) A :=
  on_active_uow (swallow (zoom uow_of rollback)) ;;; throw error.

Definition commitOnly : M (Exec W Tx) (list event) := on_active_uow (commit run_commit).

Definition publish (events : list event) : M (Exec W Tx) unit :=
  for_each events dispatch_event ;;;
  match onEventsDispatched with
  | Some f => if (0 <? length events)%nat then swallow (f events) else ret tt
  | None => ret tt
  end.

Definition dispatchCommands (commands : list command) : M (Exec W Tx) unit :=
  for_each commands dispatch_command.

(** [runHooksOnce], at the place where it does run. *)
Definition run_hooks (u : UnitOfWork W Tx) (committed : bool) : M (Exec W Tx) unit :=
  _ <- on_uow u (swallow (runUowCompletionHooks committed)) ;; ret tt.

(** The scope of the unit of work, up to its commit; then the hooks, whatever the
    outcome, outside the scope; [k] continues after a commit. *)
Definition in_scope (ctx : MetadataContext) (body : M (Exec W Tx) (list event))
    (k : list event -> M (Exec W Tx) unit) : M (Exec W Tx) unit :=
  scope <- run_with_uow new_uow (run_with_meta ctx (try_catch body failCommitPhase)) ;;
  let '(outcome, uow) := scope in
  match outcome with
  | Ok deferredEvents => run_hooks uow true ;;; k deferredEvents
  | Err error => run_hooks uow false ;;; throw error
  end.

(** Mode ["best-effort"]: the state is committed first, the commands follow. *)
Definition run_best_effort (ctx : MetadataContext) (save : operation W Tx) (commands : list command)
  : M (Exec W Tx) unit :=
  in_scope ctx
    (on_active_uow (zoom uow_of (enlist save)) ;;; commitOnly)
    (fun deferredEvents =>
       publish deferredEvents ;;;
       if (0 <? length commands)%nat then run_with_meta ctx (dispatchCommands commands) else ret tt).

(** Mode ["atomic"]: one unit of work spans the state and the commands. *)
Definition run_atomic (ctx : MetadataContext) (save : operation W Tx) (commands : list command)
  : M (Exec W Tx) unit :=
  in_scope ctx
    (on_active_uow (zoom uow_of (enlist save)) ;;; (dispatchCommands commands ;;; commitOnly))
    publish.

(** Step 4: the state and version to go on from; [None] when the event is ignored. *)
Definition bootstrap_or_resume (saga : Saga W) (e : event) (loaded : option SagaState)
  : option (value * nat) :=
  match loaded with
  | None =>
      if existsb (String.eqb (ev_name e)) (sg_startedBy saga)
      then Some (sg_initialState saga, 0%nat)
      else None
  | Some st => Some (ga_state st, ga_version st)
  end.

Definition execute (sagaName : string) (saga : Saga W) (e : event) : M (Exec W Tx) unit :=
  match mget (ev_name e) (sg_on saga) with
  | None => ret tt
  | Some onEntry =>
      sagaId <- lift_result (on_id onEntry e) ;;
      loaded <- world_op (sp_load sagaPersistence sagaName sagaId) ;;
      match bootstrap_or_resume saga e loaded with
      | None => ret tt
      | Some (currentState, expectedVersion) =>
          reaction <- world_op (on_handle onEntry e currentState) ;;
          sagaCtx <- world_op (saga_context e) ;;
          let commands := normalize_commands (re_commands reaction) in
          let save := save_saga sagaName sagaId (re_state reaction) expectedVersion in
          match or_default (sg_atomicity saga) Atomic with
          | BestEffort => run_best_effort sagaCtx save commands
          | Atomic => run_atomic sagaCtx save commands
          end
      end
  end.
End executor.

(** ** What the theorems rely on *)

(** A commit that fails leaves what [cell] shows of the database as it was; one
    that succeeds has run the operations in order. *)
Class AtomicCommit {W Tx A} (run_commit : list (operation W Tx) -> M W unit)
    (cell : W -> string -> option A) : Prop := {
  ac_spec : forall ops w,
    wp (run_commit ops)
       (fun _ w' => exists ctx, for_each ops (fun op => op ctx) w = (Ok tt, w'))
       (fun _ w' => forall k, cell w' k = cell w k) w
}.

#[export] Instance transaction_atomic {W Tx A D} (transaction : (Tx -> M W unit) -> M W unit)
    (durable : W -> D) (view : D -> string -> option A) :
  TransactionSpec transaction durable ->
  AtomicCommit (run_in_transaction transaction) (fun w => view (durable w)).
Proof.
  intros Ht. split. intros ops w. unfold run_in_transaction.
  destruct (tx_spec (fun tx => for_each ops (fun op => op (Some tx))) w) as [tx H].
  eapply wp_mono; [exact H | |].
  - intros [] w' Hw. by exists (Some tx).
  - intros err w' Hw k. by rewrite Hw.
Qed.

(** ** Code that leaves a part of the database alone *)

Section quiet.
Context {W Tx B : Type} (cell : W -> string -> option B).

(** Code that does not change what [cell] shows. *)
Definition cell_quiet {A} (m : M W A) : Prop :=
  forall w r w', m w = (r, w') -> forall k, cell w' k = cell w k.

Definition hooks_quiet (u : UnitOfWork W Tx) : Prop :=
  Forall cell_quiet (hk_onCommitted (getOrCreate u)) /\ Forall cell_quiet (hk_onSettled (getOrCreate u)).

Lemma quiet_for_each {A} (l : list A) (f : A -> M W unit) :
  Forall (fun x => cell_quiet (f x)) l -> cell_quiet (for_each l f).
Proof.
  induction 1 as [| x l Hx _ IH]; intros w r w' H k; simpl in H; [by injection H as <- <- |].
  unfold bind in H. destruct (f x w) as [[[] | e] w1] eqn:E.
  - rewrite (IH _ _ _ H). by eapply Hx.
  - injection H as <- <-. by eapply Hx.
Qed.

(** Settling a unit of work whose hooks leave it alone. *)
Lemma run_hooks_spec (u : UnitOfWork W Tx) committed (s : Exec W Tx) :
  Forall cell_quiet (hk_onCommitted (getOrCreate u)) -> Forall cell_quiet (hk_onSettled (getOrCreate u)) ->
  exists s', run_hooks u committed s = (Ok tt, s') /\ ex_uow s' = ex_uow s /\ ex_meta s' = ex_meta s /\
    forall k, cell (ex_world s') k = cell (ex_world s) k.
Proof.
  intros H1 H2. unfold run_hooks, bind, on_uow, ret. rewrite swallow_run.
  destruct (runUowCompletionHooks committed (u, ex_world s)) as [r [u' w']] eqn:E. simpl.
  eexists. split; [done |]. split; [done |]. split; [done |]. simpl. intros k.
  rewrite run_completion_hooks in E.
  destruct (for_each (due_hooks u committed) (fun hook => hook) (ex_world s)) as [r1 w1] eqn:E1.
  injection E as _ _ <-.
  refine (quiet_for_each (due_hooks u committed) (fun hook => hook) _ _ _ _ E1 k).
  unfold due_hooks. apply Forall_app_2; [by destruct committed | done].
Qed.

End quiet.

Section saga.
Context {W Tx : Type} (host : lens W Host) `{!LensLaws host}
  (sagaPersistence : SagaPersistence W) (cell : W -> string -> option SagaState)
  `{!VersionedStoreSpec (sp_load sagaPersistence)
      (fun name i a => sp_save sagaPersistence name i (ga_state a) (pred (ga_version a))) ga_version cell}
  (run_commit : list (operation W Tx) -> M W unit) `{!AtomicCommit run_commit cell}
  (dispatch_command : command -> M (Exec W Tx) unit)
  (dispatch_event : event -> M (Exec W Tx) unit)
  (onEventsDispatched : option (list event -> M (Exec W Tx) unit)).

(** A unit of work that has grown by operations and hooks that leave sagas alone. *)
Definition uow_grown (u u' : UnitOfWork W Tx) : Prop :=
  uw_completed u' = false /\
  (exists ops, uw_operations u' = uw_operations u ++ ops /\ Forall (fun op => forall tx, cell_quiet cell (op tx)) ops) /\
  Forall (cell_quiet cell) (hk_onCommitted (getOrCreate u')) /\ Forall (cell_quiet cell) (hk_onSettled (getOrCreate u')).

(** Commands dispatched inside the scope change no saga before the commit and
    enlist only operations and hooks that change none. *)
Definition commands_enlist : Prop :=
  forall c s u r s',
    ex_uow s = Some u -> uw_completed u = false -> dispatch_command c s = (r, s') ->
    Forall (cell_quiet cell) (hk_onCommitted (getOrCreate u)) -> Forall (cell_quiet cell) (hk_onSettled (getOrCreate u)) ->
    (forall k, cell (ex_world s') k = cell (ex_world s) k) /\
    exists u', ex_uow s' = Some u' /\ uow_grown u u'.

Lemma uow_grown_trans u1 u2 u3 : uow_grown u1 u2 -> uow_grown u2 u3 -> uow_grown u1 u3.
Proof.
  intros (_ & (ops & E & Hops) & _) (Hc & (ops' & E' & Hops') & Hh).
  split; [done |]. split; [| done]. exists (ops ++ ops'). rewrite E', E, app_assoc.
  split; [done | by apply Forall_app_2].
Qed.

Lemma dispatch_commands_spec cs s u :
  commands_enlist -> ex_uow s = Some u -> uw_completed u = false ->
  Forall (cell_quiet cell) (hk_onCommitted (getOrCreate u)) -> Forall (cell_quiet cell) (hk_onSettled (getOrCreate u)) ->
  let '(_, s') := dispatchCommands dispatch_command cs s in
  (forall k, cell (ex_world s') k = cell (ex_world s) k) /\
  exists u', ex_uow s' = Some u' /\ uow_grown u u'.
Proof.
  intros Hcmd. unfold dispatchCommands. revert s u. induction cs as [| c cs IH]; intros s u Hu Hc H1 H2; simpl.
  - split; [done |]. exists u. split; [done |]. split; [done |]. split; [| done].
    exists []. by rewrite app_nil_r.
  - unfold bind. destruct (dispatch_command c s) as [r s1] eqn:E.
    destruct (Hcmd c s u r s1 Hu Hc E H1 H2) as (Hcell & u1 & Hu1 & Hg).
    destruct r as [[] | e]; [| split; [done | by exists u1]].
    destruct Hg as (Hc1 & Hops & H3 & H4) eqn:Eg.
    specialize (IH s1 u1 Hu1 Hc1 H3 H4).
    destruct (for_each cs dispatch_command s1) as [r' s2]. destruct IH as (Hcell' & u2 & Hu2 & Hg2).
    split; [intros k; by rewrite Hcell', Hcell |]. exists u2. split; [done |].
    eapply uow_grown_trans; [| exact Hg2]. by split.
Qed.

(** Committing a unit of work whose first operation saves the saga. *)
Lemma commit_saga_spec (u : UnitOfWork W Tx) ops name i state v w :
  uw_completed u = false -> uw_operations u = save_saga sagaPersistence name i state v :: ops ->
  Forall (fun op => forall tx, cell_quiet cell (op tx)) ops ->
  let k := composite_key name i in
  match commit run_commit (u, w) with
  | (Ok events, (u', w')) => events = uw_pendingEvents u /\ uw_hooks u' = uw_hooks u /\
      cell_version ga_version (cell w k) = v /\
      forall k', cell w' k' = if String.eqb k' k then Some {| ga_state := state; ga_version := S v |} else cell w k'
  | (Err _, (u', w')) => uw_hooks u' = uw_hooks u /\ forall k', cell w' k' = cell w k'
  end.
Proof.
  intros Hc Hops Hq k. rewrite commit_spec by done. cbv zeta.
  pose proof (ac_spec (uw_operations u) w) as H. unfold wp in H.
  destruct (run_commit (uw_operations u) w) as [[[] | e] w'] eqn:E; [| by split].
  destruct H as [ctx H]. rewrite Hops in H. simpl in H. unfold bind in H.
  pose proof (vr_save_spec w name i {| ga_state := state; ga_version := S v |} v eq_refl) as Hs.
  cbv zeta in Hs. unfold wp in Hs. simpl in Hs. unfold save_saga in H at 1.
  destruct (sp_save sagaPersistence name i state v w) as [[[] | e] w1]; [| done].
  destruct Hs as [Hv Hcell]. split; [done |]. split; [done |]. split; [done |]. intros k'.
  rewrite (quiet_for_each cell ops (fun op => op ctx)
    ltac:(eapply Forall_impl; [exact Hq | auto]) _ _ _ H). apply Hcell.
Qed.

(** The body of the scope: the save, the commands, the commit. *)
Definition scope_body (save : operation W Tx) (commands : list command) : M (Exec W Tx) (list event) :=
  on_active_uow (zoom uow_of (enlist save)) ;;; (dispatchCommands dispatch_command commands ;;; commitOnly run_commit).

(** What the commands of an atomic saga find: the world in which the handler ran,
    and a unit of work in which only the save is enlisted. *)
Definition saga_scope (ctx : MetadataContext) (save : operation W Tx) (w : W) : Exec W Tx :=
  {| ex_world := w;
     ex_uow := Some {| uw_operations := [save]; uw_pendingEvents := []; uw_completed := false; uw_hooks := None |};
     ex_meta := Some ctx |}.

(** A unit of work that has come to its end: [err] stopped the commands or the
    commit, and [w] is the world in which that was found. *)
Definition scope_fails (err : js_error) (rc : result unit) (sc : Exec W Tx) (uc : UnitOfWork W Tx) (w : W) : Prop :=
  ex_uow sc = Some uc /\
  (rc = Err err /\ w = ex_world sc \/ rc = Ok tt /\ run_commit (uw_operations uc) (ex_world sc) = (Err err, w)).

(** All of the scope's operations have been committed. *)
Definition scope_commits (rc : result unit) (sc : Exec W Tx) (uc : UnitOfWork W Tx) (w : W) : Prop :=
  ex_uow sc = Some uc /\ rc = Ok tt /\ run_commit (uw_operations uc) (ex_world sc) = (Ok tt, w).

(** The world after the hooks of a settled unit of work. *)
Definition settled (committed : bool) (uc : UnitOfWork W Tx) (w : W) : W :=
  snd (for_each (due_hooks uc committed) (fun hook => hook) w).

Lemma run_hooks_run (u : UnitOfWork W Tx) committed (s : Exec W Tx) :
  run_hooks u committed s
  = (Ok tt, {| ex_world := settled committed u (ex_world s); ex_uow := ex_uow s; ex_meta := ex_meta s |}).
Proof.
  unfold run_hooks, bind, on_uow, ret, settled. rewrite swallow_run, run_completion_hooks.
  by destruct (for_each (due_hooks u committed) _ (ex_world s)) as [r w].
Qed.

Lemma settled_hooks committed (u u' : UnitOfWork W Tx) w :
  uw_hooks u' = uw_hooks u -> settled committed u' w = settled committed u w.
Proof. intros H. unfold settled, due_hooks, getOrCreate. by rewrite H. Qed.

Lemma settled_quiet committed (u : UnitOfWork W Tx) w :
  hooks_quiet cell u -> forall k, cell (settled committed u w) k = cell w k.
Proof.
  intros [H1 H2] k. unfold settled.
  destruct (for_each (due_hooks u committed) (fun hook => hook) w) as [r w'] eqn:E. simpl.
  refine (quiet_for_each cell (due_hooks u committed) (fun hook => hook) _ _ _ _ E k).
  unfold due_hooks. apply Forall_app_2; [by destruct committed | done].
Qed.

(** [failCommitPhase] settles the unit of work and keeps its hooks. *)
Lemma failCommitPhase_run err (s : Exec W Tx) u :
  ex_uow s = Some u ->
  exists u', uw_hooks u' = uw_hooks u /\ failCommitPhase (A := list event) err s
    = (Err err, {| ex_world := ex_world s; ex_uow := Some u'; ex_meta := ex_meta s |}).
Proof.
  intros Hu. unfold failCommitPhase, bind, on_active_uow. rewrite Hu, swallow_run.
  destruct (uw_completed u) eqn:Ec; unfold zoom; simpl.
  - rewrite (rollback_completed u Ec). by exists u.
  - rewrite (rollback_spec u Ec). by eexists; split; [| reflexivity].
Qed.

(** The body of the scope ends as the commands and the commit end. *)
Lemma scope_body_spec ctx save commands w :
  commands_enlist ->
  let '(rc, sc) := for_each commands dispatch_command (saga_scope ctx save w) in
  exists uc w3 u', uw_hooks u' = uw_hooks uc /\ uow_grown
      {| uw_operations := [save]; uw_pendingEvents := []; uw_completed := false; uw_hooks := None |} uc /\
    (forall k, cell (ex_world sc) k = cell w k) /\
    match try_catch (scope_body save commands) failCommitPhase (set_meta (Some ctx) (set_uow (Some new_uow)
            {| ex_world := w; ex_uow := None; ex_meta := None |})) with
    | (Ok events, s') => scope_commits rc sc uc w3 /\ events = uw_pendingEvents uc /\
        ex_world s' = w3 /\ ex_uow s' = Some u'
    | (Err err, s') => scope_fails err rc sc uc w3 /\ ex_world s' = w3 /\ ex_uow s' = Some u'
    end.
Proof.
  intros Hcmd. unfold scope_body, try_catch.
  set (s0 := set_meta _ _). assert (He : on_active_uow (zoom uow_of (enlist save)) s0 = (Ok tt, saga_scope ctx save w))
    by reflexivity.
  rewrite (bind_ok _ _ _ _ _ He). unfold bind at 1.
  pose proof (dispatch_commands_spec commands (saga_scope ctx save w) _ Hcmd eq_refl eq_refl
    (Forall_nil_2 _) (Forall_nil_2 _)) as Hd.
  unfold dispatchCommands in *.
  destruct (for_each commands dispatch_command (saga_scope ctx save w)) as [rc sc].
  destruct Hd as (Hcell & uc & Hu & Hg). cbn [ex_world saga_scope] in Hcell. exists uc.
  destruct rc as [[] | err].
  - unfold commitOnly, on_active_uow. rewrite Hu, commit_spec by apply Hg. cbv zeta.
    destruct (run_commit (uw_operations uc) (ex_world sc)) as [[[] | err] w3] eqn:E.
    + eexists w3, _. split; [| split; [exact Hg | split; [exact Hcell | by split]]]. reflexivity.
    + match goal with |- context [failCommitPhase err ?s2] =>
        destruct (failCommitPhase_run err s2 _ eq_refl) as (u' & Hh & ->) end.
      exists w3, u'. split; [exact Hh | split; [exact Hg | split; [exact Hcell |]]].
      split; [| done]. split; [exact Hu | by right].
  - destruct (failCommitPhase_run err sc uc Hu) as (u' & Hh & ->). exists (ex_world sc), u'.
    split; [exact Hh | split; [exact Hg | split; [exact Hcell |]]]. split; [| done].
    split; [exact Hu | by left].
Qed.

(** What a committed scope has stored. *)
Lemma scope_commits_cells rc sc uc w3 name i state v w :
  uow_grown {| uw_operations := [save_saga sagaPersistence name i state v]; uw_pendingEvents := [];
               uw_completed := false; uw_hooks := None |} uc ->
  (forall k, cell (ex_world sc) k = cell w k) -> scope_commits rc sc uc w3 ->
  let k := composite_key name i in
  cell_version ga_version (cell w k) = v /\
  forall k', cell w3 k' = if String.eqb k' k then Some {| ga_state := state; ga_version := S v |} else cell w k'.
Proof.
  intros (Hc & (ops & Hops & Hq) & _) Hcell (_ & _ & E) k.
  pose proof (commit_saga_spec uc ops name i state v (ex_world sc) Hc Hops Hq) as H. cbv zeta in H. fold k in H.
  rewrite commit_spec in H by done. cbv zeta in H. rewrite E in H. destruct H as (_ & _ & Hv & H).
  split; [by rewrite <- Hcell |]. intros k'. rewrite H. by destruct (String.eqb k' k).
Qed.

Lemma scope_fails_cells err rc sc uc w3 w :
  (forall k, cell (ex_world sc) k = cell w k) -> scope_fails err rc sc uc w3 ->
  forall k, cell w3 k = cell w k.
Proof.
  intros Hcell (_ & [[_ ->] | [_ E]]) k; [done |].
  pose proof (ac_spec (uw_operations uc) (ex_world sc)) as H. unfold wp in H. rewrite E in H.
  by rewrite H.
Qed.

(** The whole scope, from the world [w] in which it is entered. *)
Lemma in_scope_spec ctx name i state v commands k0 w (s : Exec W Tx) :
  commands_enlist -> ex_world s = w ->
  let k := composite_key name i in
  let save := save_saga sagaPersistence name i state v in
  let '(rc, sc) := for_each commands dispatch_command (saga_scope ctx save w) in
  exists uc w3, 
  (exists err s', in_scope ctx (scope_body save commands) k0 s = (Err err, s') /\
     scope_fails err rc sc uc w3 /\ ex_world s' = settled false uc w3 /\
     ex_uow s' = ex_uow s /\ ex_meta s' = ex_meta s /\
     forall k', cell (ex_world s') k' = cell w k') \/
  (exists s', in_scope ctx (scope_body save commands) k0 s = k0 (uw_pendingEvents uc) s' /\
     scope_commits rc sc uc w3 /\ ex_world s' = settled true uc w3 /\
     ex_uow s' = ex_uow s /\ ex_meta s' = ex_meta s /\
     forall k', cell (ex_world s') k'
       = if String.eqb k' k then Some {| ga_state := state; ga_version := S v |} else cell w k').
Proof.
  intros Hcmd <- k save. unfold in_scope.
  pose proof (scope_body_spec ctx save commands (ex_world s) Hcmd) as Hb.
  destruct (for_each commands dispatch_command (saga_scope ctx save (ex_world s))) as [rc sc].
  destruct Hb as (uc & w3 & u' & Hh & Hg & Hcell & Hb). exists uc, w3.
  assert (Hquiet : hooks_quiet cell uc) by (destruct Hg as (_ & _ & Hg); exact Hg).
  set (body := try_catch (scope_body save commands) failCommitPhase) in *.
  set (s0 := set_meta (Some ctx) (set_uow (Some new_uow) {| ex_world := ex_world s; ex_uow := None; ex_meta := None |})) in *.
  destruct (body s0) as [r s1] eqn:Eb.
  assert (Hu1 : ex_uow s1 = Some u') by (destruct r; tauto).
  assert (Hscope : run_with_uow new_uow (run_with_meta ctx body) s
    = (Ok (r, u'), set_uow (ex_uow s) (set_meta (ex_meta s) s1))).
  { unfold run_with_uow, run_with_meta. change (set_meta (Some ctx) (set_uow (Some new_uow) s)) with s0.
    rewrite Eb. simpl. by rewrite Hu1. }
  rewrite (bind_ok _ _ _ _ _ Hscope).
  destruct r as [events | err]; rewrite (bind_ok _ _ _ _ _ (run_hooks_run _ _ _)).
  - right. destruct Hb as (Hcom & -> & Hw & _). eexists. split; [reflexivity |]. split; [exact Hcom |].
    cbn [ex_world ex_uow ex_meta set_uow set_meta]. rewrite Hw, (settled_hooks true uc u' w3 Hh).
    split; [done |]. split; [done |]. split; [done |]. intros k'.
    destruct (scope_commits_cells rc sc uc w3 name i state v (ex_world s) Hg Hcell Hcom) as [_ Hk].
    by rewrite settled_quiet.
  - left. destruct Hb as (Hf & Hw & _). exists err. eexists. split; [reflexivity |]. split; [exact Hf |].
    cbn [ex_world ex_uow ex_meta set_uow set_meta]. rewrite Hw, (settled_hooks false uc u' w3 Hh).
    split; [done |]. split; [done |]. split; [done |]. intros k'. rewrite settled_quiet by exact Hquiet.
    eapply scope_fails_cells; eassumption.
Qed.

Definition run_saga : string -> Saga W -> event -> M (Exec W Tx) unit :=
  execute host sagaPersistence run_commit dispatch_command dispatch_event onEventsDispatched.

(** The correlation identifier that the commands of a saga carry: the one of the
    event that triggers it, or else a fresh one drawn from the world [w]. *)
Definition correlates (e : event) (w : W) (corr : string) (w' : W) : Prop :=
  match metadata_req md_correlationId e with
  | Some c => corr = c /\ w' = w
  | None => zoom host new_uuid w = (Ok corr, w')
  end.

(** The handler has run: what comes after it. *)
Lemma run_saga_handled name saga e entry i st v reaction w1 s :
  (forall h w k, cell (lset host h w) k = cell w k) ->
  mget (ev_name e) (sg_on saga) = Some entry -> on_id entry e = Ok i ->
  bootstrap_or_resume saga e (cell (ex_world s) (composite_key name i)) = Some (st, v) ->
  on_handle entry e st (ex_world s) = (Ok reaction, w1) ->
  exists corr w2, correlates e w1 corr w2 /\ (forall k, cell w2 k = cell w1 k) /\
    let ctx := {| mc_correlationId := Some (Some corr);
                  mc_causationId := Some (Some (or_default (metadata_req md_eventId e) (ev_name e)));
                  mc_userId := Some (metadata_opt md_userId e) |} in
    let save := save_saga sagaPersistence name i (re_state reaction) v in
    let commands := normalize_commands (re_commands reaction) in
    let s1 := {| ex_world := w2; ex_uow := ex_uow s; ex_meta := ex_meta s |} in
    run_saga name saga e s
    = match or_default (sg_atomicity saga) Atomic with
      | BestEffort => run_best_effort run_commit dispatch_command dispatch_event onEventsDispatched ctx save commands s1
      | Atomic => run_atomic run_commit dispatch_command dispatch_event onEventsDispatched ctx save commands s1
      end.
Proof.
  intros Hhost Hon Hid Hboot Hh. unfold run_saga, execute. rewrite Hon.
  unfold lift_result at 1. rewrite Hid. erewrite bind_ok by reflexivity.
  erewrite bind_ok by (unfold world_op; apply zoom_run; apply vr_load_spec).
  assert (Hs : lset the_world (lget the_world s) s = s) by apply lset_lget. rewrite Hs.
  change (lget the_world s) with (ex_world s). rewrite Hboot.
  erewrite bind_ok by (unfold world_op; apply zoom_run; exact Hh).
  assert (Hctx : exists corr w2, correlates e w1 corr w2 /\ (forall k, cell w2 k = cell w1 k) /\
    saga_context host e w1 = (Ok {| mc_correlationId := Some (Some corr);
                  mc_causationId := Some (Some (or_default (metadata_req md_eventId e) (ev_name e)));
                  mc_userId := Some (metadata_opt md_userId e) |}, w2)).
  { unfold saga_context, correlates. destruct (metadata_req md_correlationId e) as [c |].
    - exists c, w1. by repeat split.
    - destruct (zoom_uuid_run host w1) as (u & w2 & E & [h ->]). exists u, (lset host h w1).
      split; [exact E |]. split; [intros k; apply Hhost |]. by rewrite (bind_ok _ _ _ _ _ E). }
  destruct Hctx as (corr & w2 & Hcorr & Hc2 & E). exists corr, w2. split; [exact Hcorr |]. split; [exact Hc2 |].
  erewrite bind_ok by (unfold world_op; apply zoom_run; exact E). cbv zeta.
  by destruct (or_default (sg_atomicity saga) Atomic).
Qed.
End saga.
Arguments saga_scope {W Tx} ctx save w.
Arguments scope_fails {W Tx} run_commit err rc sc uc w.
Arguments scope_commits {W Tx} run_commit rc sc uc w.
Arguments settled {W Tx} committed uc w.
Arguments correlates {W} host e w corr w'.

(** ** Properties *)

(** C6. What an atomic saga does is determined by its commands and one commit.  The
    commands run, in order, in a unit of work in which the save of the new state is
    already enlisted, and under the metadata of the triggering event: its
    correlation identifier or a fresh one, its identifier (or else its name) as the
    cause, its user.  If a command fails, or the commit of everything enlisted
    fails, that error propagates, no saga state has changed and nothing is
    published; otherwise the new state and the next version of this instance, and
    of no other, are stored, and the events that were deferred, all of them and in
    order, are then given to the event bus and to [onEventsDispatched].  Either way
    the hooks of the settled unit of work have run, and the code goes on with the
    unit of work and the metadata that were active before. *)
Theorem saga_atomic {W Tx} (host : lens W Host) `{!LensLaws host}
    (sagaPersistence : SagaPersistence W) (cell : W -> string -> option SagaState)
    `{!VersionedStoreSpec (sp_load sagaPersistence)
        (fun name i a => sp_save sagaPersistence name i (ga_state a) (pred (ga_version a))) ga_version cell}
    (run_commit : list (operation W Tx) -> M W unit) `{!AtomicCommit run_commit cell}
    (dispatch_command : command -> M (Exec W Tx) unit) (dispatch_event : event -> M (Exec W Tx) unit)
    (onEventsDispatched : option (list event -> M (Exec W Tx) unit))
    (name : string) (saga : Saga W) (e : event) (entry : SagaOnEntry W) (i : ID) (st : value) (v : nat)
    (reaction : SagaReaction) (s : Exec W Tx) (w1 : W) :
  (forall h w k, cell (lset host h w) k = cell w k) ->
  commands_enlist cell dispatch_command ->
  mget (ev_name e) (sg_on saga) = Some entry -> on_id entry e = Ok i ->
  bootstrap_or_resume saga e (cell (ex_world s) (composite_key name i)) = Some (st, v) ->
  on_handle entry e st (ex_world s) = (Ok reaction, w1) -> (forall k, cell w1 k = cell (ex_world s) k) ->
  sg_atomicity saga <> Some BestEffort ->
  let outcome := run_saga host sagaPersistence run_commit dispatch_command dispatch_event onEventsDispatched
                   name saga e s in
  let k := composite_key name i in
  exists corr w2, correlates host e w1 corr w2 /\
    let ctx := {| mc_correlationId := Some (Some corr);
                  mc_causationId := Some (Some (or_default (metadata_req md_eventId e) (ev_name e)));
                  mc_userId := Some (metadata_opt md_userId e) |} in
    let save : operation W Tx := fun _ => sp_save sagaPersistence name i (re_state reaction) v in
    let '(rc, sc) := for_each (normalize_commands (re_commands reaction)) dispatch_command
                       (saga_scope ctx save w2) in
    exists uc, ex_uow sc = Some uc /\
    match match rc with
          | Ok _ => run_commit (uw_operations uc) (ex_world sc)
          | Err err => (Err err, ex_world sc)
          end with
    | (Err err, w3) =>
        outcome = (Err err, {| ex_world := settled false uc w3; ex_uow := ex_uow s; ex_meta := ex_meta s |}) /\
        forall k', cell (settled false uc w3) k' = cell (ex_world s) k'
    | (Ok _, w3) =>
        outcome = (for_each (uw_pendingEvents uc) dispatch_event ;;;
                   match onEventsDispatched with
                   | Some f => if (0 <? length (uw_pendingEvents uc))%nat
                               then swallow (f (uw_pendingEvents uc)) else ret tt
                   | None => ret tt
                   end) {| ex_world := settled true uc w3; ex_uow := ex_uow s; ex_meta := ex_meta s |} /\
        forall k', cell (settled true uc w3) k'
          = if String.eqb k' k then Some {| ga_state := re_state reaction; ga_version := S v |}
            else cell (ex_world s) k'
    end.
Proof.
  intros Hhost Hcmd Hon Hid Hboot Hh Hw1 Hmode outcome k. unfold outcome.
  destruct (run_saga_handled host sagaPersistence cell run_commit dispatch_command dispatch_event
    onEventsDispatched name saga e entry i st v reaction w1 s Hhost Hon Hid Hboot Hh)
    as (corr & w2 & Hcorr & Hc2 & Hrun).
  exists corr, w2. split; [exact Hcorr |]. cbv zeta in Hrun |- *. rewrite Hrun. clear Hrun.
  replace (or_default (sg_atomicity saga) Atomic) with Atomic by (by destruct (sg_atomicity saga) as [[] |]).
  match goal with |- context [saga_scope ?c _ w2] => set (ctx := c) end.
  pose proof (in_scope_spec sagaPersistence cell run_commit dispatch_command ctx name i
    (re_state reaction) v (normalize_commands (re_commands reaction))
    (publish dispatch_event onEventsDispatched) w2
    {| ex_world := w2; ex_uow := ex_uow s; ex_meta := ex_meta s |} Hcmd eq_refl) as H.
  cbv zeta in H. change (save_saga sagaPersistence name i (re_state reaction) v)
    with (fun _ : option Tx => sp_save sagaPersistence name i (re_state reaction) v) in H |- *.
  destruct (for_each _ dispatch_command _) as [rc sc].
  destruct H as (uc & w3 & [(err & s' & H & [Hu Hf] & Hw & Hs & Hm & Hc) | (s' & H & (Hu & Hr & Hf) & Hw & Hs & Hm & Hc)]);
    exists uc; (split; [exact Hu |]); destruct s' as [w' u' m']; cbn [ex_world ex_uow ex_meta] in *; subst w' u' m'.
  - assert (Hcell : forall k', cell (settled false uc w3) k' = cell (ex_world s) k')
      by (intros k'; by rewrite Hc, Hc2, Hw1).
    destruct Hf as [[-> ->] | [-> ->]]; by split.
  - subst rc. rewrite Hf. split; [exact H |]. intros k'. by rewrite Hc, Hc2, Hw1.
Qed.

(** A payment saga that asks for a charge. *)
Definition payment_entry : SagaOnEntry World :=
  {| on_id := fun _ => Ok (IdNum 7);
     on_handle := fun _ _ => ret {| re_state := VStr "awaiting";
       re_commands := OneCommand {| cmd_name := "Charge"; cmd_payload := VNull; cmd_commandId := None;
                                    cmd_targetAggregateId := None |} |} |}.

Definition payment (atomicity : option SagaAtomicity) : Saga World :=
  {| sg_initialState := VNull; sg_startedBy := ["OrderPlaced"%string];
     sg_on := [("OrderPlaced"%string, payment_entry)]; sg_atomicity := atomicity |}.

Definition order_placed : event := {| ev_name := "OrderPlaced"; ev_payload := VNull; ev_metadata := None |}.
Definition charged : event := {| ev_name := "Charged"; ev_payload := VNull; ev_metadata := None |}.

Definition saga_start : Exec World unit :=
  {| ex_world := empty_world sample_host; ex_uow := None; ex_meta := None |}.

Definition refuse_command (_ : command) : M (Exec World unit) unit := throw (PlainError "declined").

(** A charge that goes through: the command bus defers its event in the active unit of work. *)
Definition charge_command (_ : command) : M (Exec World unit) unit :=
  on_active_uow (zoom uow_of (deferPublish [charged])).

Lemma refuse_enlists : commands_enlist world_saga refuse_command.
Proof.
  intros c s u r s' Hu Hc [= <- <-] H1 H2. split; [done |]. exists u. split; [done |].
  split; [done |]. split; [| done]. exists []. by rewrite app_nil_r.
Qed.

Lemma charge_enlists : commands_enlist world_saga charge_command.
Proof.
  intros c s u r s' Hu Hc H H1 H2. unfold charge_command, on_active_uow in H. rewrite Hu in H.
  unfold zoom, deferPublish, assertNotCompleted, bind, get, modify in H. simpl in H. rewrite Hc in H.
  injection H as <- <-. split; [done |]. eexists. split; [reflexivity |]. split; [done |]. split; [| done].
  exists []. by rewrite app_nil_r.
Qed.

#[export] Instance world_atomic :
  AtomicCommit (Tx := unit) (run_in_transaction (@copying_transaction World)) world_saga.
Proof. exact (transaction_atomic copying_transaction (fun w => w) (fun w k => mget k (w_sagas w)) _). Qed.

(** The payment saga, run over the in-memory database in the given mode. *)
Definition run_payment (atomicity : option SagaAtomicity) (dispatch_command : command -> M (Exec World unit) unit)
    : result unit * Exec World unit :=
  run_saga host_lens world_sagas (run_in_transaction copying_transaction) dispatch_command
    (fun e => world_op (log_dispatch e)) None "Payment" (payment atomicity) order_placed saga_start.

(** A charge that is declined leaves the saga unstarted; one that goes through
    stores it, and its event is published. *)
Lemma saga_atomic_witness :
  (exists err s', run_payment None refuse_command = (Err err, s') /\ world_saga (ex_world s') "Payment:7" = None) /\
  (exists s', run_payment None charge_command = (Ok tt, s') /\ w_log (ex_world s') = [charged] /\
     world_saga (ex_world s') "Payment:7" = Some {| ga_state := VStr "awaiting"; ga_version := 1 |}).
Proof.
  split.
  - destruct (saga_atomic host_lens world_sagas world_saga (run_in_transaction copying_transaction)
      refuse_command (fun e => world_op (log_dispatch e)) None "Payment" (payment None) order_placed
      payment_entry (IdNum 7) VNull 0 _ saga_start (ex_world saga_start)
      (fun h w k => eq_refl) refuse_enlists eq_refl eq_refl eq_refl eq_refl (fun k => eq_refl)
      ltac:(discriminate)) as (corr & w2 & _ & uc & _ & H & Hc).
    eexists _, _. split; [exact H | exact (Hc "Payment:7"%string)].
  - destruct (saga_atomic host_lens world_sagas world_saga (run_in_transaction copying_transaction)
      charge_command (fun e => world_op (log_dispatch e)) None "Payment" (payment None) order_placed
      payment_entry (IdNum 7) VNull 0 _ saga_start (ex_world saga_start)
      (fun h w k => eq_refl) charge_enlists eq_refl eq_refl eq_refl eq_refl (fun k => eq_refl)
      ltac:(discriminate)) as (corr & w2 & Hw2 & uc & Huc & H).
    apply (f_equal snd) in Hw2. cbn [snd] in Hw2. subst w2. injection Huc as <-. destruct H as [H Hc].
    eexists. split; [exact H |]. split; [reflexivity | exact (Hc "Payment:7"%string)].
Defined.

(** C7. A best-effort saga commits its new state, and nothing else, before any of
    its commands runs.  If that commit fails, its error propagates, no saga state
    has changed and neither a command nor an event is dispatched; otherwise the new
    state and the next version of this instance, and of no other, are stored, and
    from that database, outside any unit of work of the saga, all its commands are
    dispatched in order under the metadata of the triggering event.  The outcome is
    then the one of the commands: one that fails does not undo the state.  The code
    goes on under the metadata that were active before. *)
Theorem saga_best_effort {W Tx} (host : lens W Host) `{!LensLaws host}
    (sagaPersistence : SagaPersistence W) (cell : W -> string -> option SagaState)
    `{!VersionedStoreSpec (sp_load sagaPersistence)
        (fun name i a => sp_save sagaPersistence name i (ga_state a) (pred (ga_version a))) ga_version cell}
    (run_commit : list (operation W Tx) -> M W unit) `{!AtomicCommit run_commit cell}
    (dispatch_command : command -> M (Exec W Tx) unit) (dispatch_event : event -> M (Exec W Tx) unit)
    (onEventsDispatched : option (list event -> M (Exec W Tx) unit))
    (name : string) (saga : Saga W) (e : event) (entry : SagaOnEntry W) (i : ID) (st : value) (v : nat)
    (reaction : SagaReaction) (s : Exec W Tx) (w1 : W) :
  (forall h w k, cell (lset host h w) k = cell w k) ->
  mget (ev_name e) (sg_on saga) = Some entry -> on_id entry e = Ok i ->
  bootstrap_or_resume saga e (cell (ex_world s) (composite_key name i)) = Some (st, v) ->
  on_handle entry e st (ex_world s) = (Ok reaction, w1) -> (forall k, cell w1 k = cell (ex_world s) k) ->
  sg_atomicity saga = Some BestEffort ->
  let outcome := run_saga host sagaPersistence run_commit dispatch_command dispatch_event onEventsDispatched
                   name saga e s in
  let k := composite_key name i in
  exists corr w2, correlates host e w1 corr w2 /\
    let ctx := {| mc_correlationId := Some (Some corr);
                  mc_causationId := Some (Some (or_default (metadata_req md_eventId e) (ev_name e)));
                  mc_userId := Some (metadata_opt md_userId e) |} in
    let save : operation W Tx := fun _ => sp_save sagaPersistence name i (re_state reaction) v in
    match run_commit [save] w2 with
    | (Err err, w3) =>
        outcome = (Err err, {| ex_world := w3; ex_uow := ex_uow s; ex_meta := ex_meta s |}) /\
        forall k', cell w3 k' = cell (ex_world s) k'
    | (Ok _, w3) =>
        (forall k', cell w3 k'
           = if String.eqb k' k then Some {| ga_state := re_state reaction; ga_version := S v |}
             else cell (ex_world s) k') /\
        let '(r, s2) := for_each (normalize_commands (re_commands reaction)) dispatch_command
                          {| ex_world := w3; ex_uow := ex_uow s; ex_meta := Some ctx |} in
        outcome = (r, {| ex_world := ex_world s2; ex_uow := ex_uow s2; ex_meta := ex_meta s |})
    end.
Proof.
  intros Hhost Hon Hid Hboot Hh Hw1 Hmode outcome k. unfold outcome.
  destruct (run_saga_handled host sagaPersistence cell run_commit dispatch_command dispatch_event
    onEventsDispatched name saga e entry i st v reaction w1 s Hhost Hon Hid Hboot Hh)
    as (corr & w2 & Hcorr & Hc2 & Hrun).
  exists corr, w2. split; [exact Hcorr |]. cbv zeta in Hrun |- *. rewrite Hrun, Hmode. clear Hrun. cbn [or_default].
  match goal with |- context [Some ?c] => match type of c with MetadataContext => set (ctx := c) end end.
  set (commands := normalize_commands (re_commands reaction)).
  set (k0 := fun deferredEvents => publish dispatch_event onEventsDispatched deferredEvents ;;;
    if (0 <? length commands)%nat then run_with_meta ctx (dispatchCommands dispatch_command commands) else ret tt).
  set (s1 := {| ex_world := w2; ex_uow := ex_uow s; ex_meta := ex_meta s |}).
  (* the body is the one of an atomic saga without commands *)
  match goal with |- context [run_best_effort ?a ?b ?c ?d ?e ?f ?g ?h] =>
    assert (Hbody : run_best_effort a b c d e f g h = in_scope ctx (scope_body run_commit (fun _ => ret tt)
        (save_saga sagaPersistence name i (re_state reaction) v) []) k0 s1) by reflexivity end.
  rewrite Hbody. clear Hbody.
  destruct (in_scope_spec sagaPersistence cell run_commit (fun _ => ret tt) ctx name i
    (re_state reaction) v [] k0 w2 s1) as (uc & w3 & H);
    [intros c s2 u r s2' Hu Hcomp [= <- <-] H1 H2; split; [done |]; exists u; split; [done |];
     split; [done |]; split; [| done]; exists []; by rewrite app_nil_r | reflexivity |].
  cbn [for_each] in H.
  change (save_saga sagaPersistence name i (re_state reaction) v)
    with (fun _ : option Tx => sp_save sagaPersistence name i (re_state reaction) v) in H |- *.
  destruct H as [(err & s' & H & [[= <-] Hf] & Hw & Hs & Hm & Hc) | (s' & H & ([= <-] & _ & Hf) & Hw & Hs & Hm & Hc)];
    destruct s' as [w' u' m']; cbn [ex_world ex_uow ex_meta saga_scope uw_operations] in *; subst w' u' m'.
  - destruct Hf as [[Hf _] | [_ Hf]]; [discriminate Hf |]. rewrite Hf. split; [exact H |].
    intros k'. specialize (Hc k'). unfold settled in Hc. simpl in Hc. by rewrite Hc, Hc2, Hw1.
  - rewrite Hf. split; [intros k'; specialize (Hc k'); unfold settled in Hc; simpl in Hc; by rewrite Hc, Hc2, Hw1 |].
    rewrite H. unfold k0, publish. simpl. unfold dispatchCommands, run_with_meta, bind, ret, settled. simpl.
    destruct commands as [| c cs].
    + destruct onEventsDispatched; reflexivity.
    + simpl length.
      replace (match onEventsDispatched with Some _ => _ | None => _ end) with
        (fun s : Exec W Tx => (Ok tt, s)) by (by destruct onEventsDispatched).
      simpl. unfold set_meta. simpl.
      by destruct (bind (dispatch_command c) _ _) as [r s2].
Qed.

(** The payment saga in this mode: the charge is declined, but the state stays;
    and a charge that needs a unit of work finds none. *)
Lemma saga_best_effort_witness :
  exists s', run_payment (Some BestEffort) refuse_command = (Err (PlainError "declined"), s') /\
    world_saga (ex_world s') "Payment:7" = Some {| ga_state := VStr "awaiting"; ga_version := 1 |} /\
    ex_meta s' = None.
Proof.
  destruct (saga_best_effort host_lens world_sagas world_saga (run_in_transaction copying_transaction)
    refuse_command (fun e => world_op (log_dispatch e)) None "Payment" (payment (Some BestEffort)) order_placed
    payment_entry (IdNum 7) VNull 0 _ saga_start (ex_world saga_start)
    (fun h w k => eq_refl) eq_refl eq_refl eq_refl eq_refl (fun k => eq_refl) eq_refl)
    as (corr & w2 & Hw2 & H).
  apply (f_equal snd) in Hw2. cbn [snd] in Hw2. subst w2. destruct H as [Hc H].
  eexists. split; [exact H |]. split; [exact (Hc "Payment:7"%string) | reflexivity].
Defined.

(** An event that a saga does not handle, and an event that cannot start an
    instance that does not exist yet, change nothing: no handler runs, nothing is
    saved, dispatched or published. *)
Theorem saga_ignores {W Tx} (host : lens W Host)
    (sagaPersistence : SagaPersistence W) (cell : W -> string -> option SagaState)
    `{!VersionedStoreSpec (sp_load sagaPersistence)
        (fun name i a => sp_save sagaPersistence name i (ga_state a) (pred (ga_version a))) ga_version cell}
    (run_commit : list (operation W Tx) -> M W unit)
    (dispatch_command : command -> M (Exec W Tx) unit) (dispatch_event : event -> M (Exec W Tx) unit)
    (onEventsDispatched : option (list event -> M (Exec W Tx) unit))
    (name : string) (saga : Saga W) (e : event) (s : Exec W Tx) :
  match mget (ev_name e) (sg_on saga) with
  | None => True
  | Some entry => exists i, on_id entry e = Ok i /\ cell (ex_world s) (composite_key name i) = None /\
                            ev_name e ∉ sg_startedBy saga
  end ->
  run_saga host sagaPersistence run_commit dispatch_command dispatch_event onEventsDispatched name saga e s
  = (Ok tt, s).
Proof.
  unfold run_saga, execute. destruct (mget (ev_name e) (sg_on saga)) as [entry |]; [| done].
  intros (i & Hid & Hcell & Hni). unfold lift_result. rewrite Hid. erewrite bind_ok by reflexivity.
  erewrite bind_ok by (unfold world_op; apply zoom_run; apply vr_load_spec).
  change (lget the_world s) with (ex_world s). rewrite Hcell. unfold bootstrap_or_resume.
  assert (Hex : existsb (String.eqb (ev_name e)) (sg_startedBy saga) = false).
  { apply not_true_iff_false. intros (x & Hin & Heq)%existsb_exists. apply Hni.
    apply String.eqb_eq in Heq as ->. by apply list_elem_of_In. }
  rewrite Hex. unfold ret. f_equal. by destruct s.
Qed.

Lemma saga_ignores_witness :
  run_saga host_lens world_sagas run_in_memory refuse_command (fun e => world_op (log_dispatch e)) None
    "Payment" {| sg_initialState := VNull; sg_startedBy := []; sg_on := [("OrderPlaced"%string, payment_entry)];
                 sg_atomicity := None |} order_placed saga_start = (Ok tt, saga_start).
Proof.
  apply (saga_ignores host_lens world_sagas world_saga). exists (IdNum 7).
  split; [reflexivity |]. split; [reflexivity |]. apply not_elem_of_nil.
Defined.
