(* ===== verification/Projection.v ===== *)
(** Projections, as [engine/src/domain.ts] runs them and as
    [engine/src/projection-rebuild.ts] rebuilds them: the live event handler of an
    eventually consistent projection, the operations that a strongly consistent
    one enlists in the unit of work of the command ([onEventsProduced], together
    with the outbox entries), the default identity extractor, and the rebuild of a
    view store from the event log.  A handler of the event bus is named by a
    number, its function identity. *)
From S2P Require Import Prelude JsMap CoreTypes Upcaster Host Stores Outbox UnitOfWork Metadata Buses World.

(** ** Resolution of the handlers (step 5.9 of [Domain.init]) *)

Definition missing_aggregate_id (projectionName eventName : string) : js_error :=
  PlainError (String.append "Projection " (String.append (quoted projectionName)
    (String.append ": handler " (String.append (quoted eventName)
    (String.append " has no " (String.append (quoted "id")
    (String.append " function and the event's metadata.aggregateId is missing. Either provide an explicit "
    (String.append (quoted "id") " extractor or ensure events carry aggregate metadata.")))))))).

(** The default [id] extractor. *)
Definition default_id (projectionName eventName : string) : event -> result ID :=
  fun e => match metadata_opt md_aggregateId e with
           | Some i => Ok i
           | None => Err (missing_aggregate_id projectionName eventName)
           end.

Definition augment_handler {W} (projectionName eventName : string) (h : ProjectionEventHandler W)
  : ProjectionEventHandler W :=
  match ph_id h with
  | Some _ => h
  | None => {| ph_id := Some (default_id projectionName eventName); ph_reduce := ph_reduce h |}
  end.

(** The projection that the engine runs, when it has a view store. *)
Definition augment {W} (projectionName : string) (p : Projection W) : Projection W :=
  {| pr_on := map (fun '(n, h) => (n, augment_handler projectionName n h)) (pr_on p);
     pr_initialView := pr_initialView p; pr_consistency := pr_consistency p |}.

(** [ViewStoreFactory.getForContext] *)
Definition ViewStoreFactory (W Tx : Type) : Type := option Tx -> ViewStore W.

(** [InMemoryViewStoreFactory]: one shared store, whatever the context. *)
Definition InMemoryViewStoreFactory {W Tx} (store : ViewStore W) : ViewStoreFactory W Tx := fun _ => store.

(** ** One event, one view *)

Section update.
Context {W Tx : Type}.

(** Load, reduce, save or delete: [true] when the view was deleted. *)
Definition update_view (views : ViewStore W) (p : Projection W) (h : ProjectionEventHandler W)
    (viewId : ID) (e : event) : M W bool :=
  loaded <- vs_load views viewId ;;
  let currentView := coalesce loaded (pr_initialView p) in
  newView <- ph_reduce h e currentView ;;
  if is_DeleteView newView
  then vs_delete views viewId ;;; ret true
  else vs_save views viewId newView ;;; ret false.

(** The handler subscribed for [eventName] (step 10). *)
Definition boundHandler (views : ViewStore W) (p : Projection W) (h : ProjectionEventHandler W)
    (id : event -> result ID) : event -> M W unit :=
  fun e => viewId <- lift_result (id e) ;; _ <- update_view views p h viewId e ;; ret tt.

(** Every handler of the projection that has an identity extractor. *)
Definition subscriptions (views : ViewStore W) (p : Projection W) : jsmap (event -> M W unit) :=
  flat_map (fun '(eventName, h) =>
    match ph_id h with Some id => [(eventName, boundHandler views p h id)] | None => [] end) (pr_on p).

(** What the event bus runs for this projection when [e] is dispatched. *)
Definition deliver_live (views : ViewStore W) (p : Projection W) (e : event) : M W unit :=
  match mget (ev_name e) (subscriptions views p) with Some f => f e | None => ret tt end.

(** ** Strong consistency (step 5.10) *)

(** The thunk enlisted for one event and one strongly consistent projection. *)
Definition strong_update (factory : ViewStoreFactory W Tx) (p : Projection W)
    (h : ProjectionEventHandler W) (viewId : ID) (e : event) : operation W Tx :=
  fun context => _ <- update_view (factory context) p h viewId e ;; ret tt.

Definition enlist_strong (factory : ViewStoreFactory W Tx) (p : Projection W) (e : event)
  : M (UnitOfWork W Tx * W) unit :=
  match mget (ev_name e) (pr_on p) with
  | Some h =>
      match ph_id h with
      | Some id =>
          viewId <- lift_result (id e) ;;
          zoom uow_of (enlist (strong_update factory p h viewId e))
      | None => ret tt
      end
  | None => ret tt
  end.

(** One outbox entry per event. *)
Definition outbox_entry (host : lens W Host) (e : event) : M W OutboxEntry :=
  id <- zoom host new_uuid ;;
  createdAt <- zoom host date_now ;;
  ret {| ob_id := id; ob_event := e;
         ob_aggregateName := metadata_opt md_aggregateName e;
         ob_aggregateId := option_map string_of_ID (metadata_opt md_aggregateId e);
         ob_createdAt := createdAt; ob_publishedAt := None |}.

Definition onEventsProduced (host : lens W Host)
    (strongProjections : list (Projection W * ViewStoreFactory W Tx)) (outboxStore : option (OutboxStore W))
    (events : list event) : M (UnitOfWork W Tx * W) unit :=
  for_each strongProjections (fun '(p, factory) => for_each events (enlist_strong factory p)) ;;;
  match outboxStore with
  | Some outbox =>
      if (0 <? length events)%nat then
        entries <- zoom world_of (map_indexed (fun _ => outbox_entry host) 0 events) ;;
        zoom uow_of (enlist (fun _ => ox_save outbox entries))
      else ret tt
  | None => ret tt
  end.

(** Best-effort marking of what has been published. *)
Definition event_ids (events : list event) : list string :=
  flat_map (fun e => match metadata_req md_eventId e with Some i => [i] | None => [] end) events.

Definition onEventsDispatched (outboxStore : OutboxStore W) (events : list event) : M W unit :=
  let eventIds := event_ids events in
  if (0 <? length eventIds)%nat then ox_markPublishedByEventIds outboxStore eventIds else ret tt.
End update.

(** ** Rebuilding ([rebuildProjectionImpl]) *)

(** [ProjectionRebuildOptions] without the logger; the interval counts applied events. *)
Record ProjectionRebuildOptions (W : Type) : Type := {
  po_progressInterval : option Z;
  po_onProgress : option (nat -> M W unit)
}.
Arguments po_progressInterval {W} _.
Arguments po_onProgress {W} _.

Record ProjectionRebuildResult : Type := {
  rr_projectionName : string;
  rr_eventsRead : nat;
  rr_eventsApplied : nat;
  rr_viewsDeleted : nat;
  rr_durationMs : Z
}.

(** [RebuildContext]: the reader is given by its iterator ([rc_read_next], from
    [rc_start]), the bus by its [on] and its optional [off]. *)
Record RebuildContext (W C : Type) : Type := {
  rc_projectionName : string;
  rc_projection : Projection W;
  rc_viewStore : ViewStore W;
  rc_start : C;
  rc_read_next : C -> M W (option (event * C));
  rc_on : string -> nat -> M W unit;
  rc_off : option (string -> nat -> M W unit);
  rc_subscriptionRegistry : jsmap (jsmap nat);
  rc_aggregateUpcasters : jsmap UpcasterMap
}.
Arguments rc_projectionName {W C} _.
Arguments rc_projection {W C} _.
Arguments rc_viewStore {W C} _.
Arguments rc_start {W C} _.
Arguments rc_read_next {W C} _.
Arguments rc_on {W C} _.
Arguments rc_off {W C} _.
Arguments rc_subscriptionRegistry {W C} _.
Arguments rc_aggregateUpcasters {W C} _.

Definition no_off : js_error := PlainError
  "rebuildProjection: the wired EventBus does not support listener removal (no 'off' method). Cannot safely detach projection subscriptions during rebuild.".

Definition no_viewId (eventName : string) : js_error :=
  PlainError (String.append "rebuildProjection: cannot derive viewId for event '"
    (String.append eventName (String.append "'; projection.on['"
      (String.append eventName "'].id is required")))).

(** The upcasters of the event's aggregate, and the event they make of it. *)
Definition event_upcasters (ups : jsmap UpcasterMap) (e : event) : option UpcasterMap :=
  match metadata_opt md_aggregateName e with
  | Some name => if String.eqb name EmptyString then None else mget name ups
  | None => None
  end.

Definition upcast_one (ups : jsmap UpcasterMap) (e : event) : result event :=
  match event_upcasters ups e with
  | Some u => result_bind (upcastEvents [e] u) (fun es => Ok (hd e es))
  | None => Ok e
  end.

(** [handler.id ? handler.id(event) : event.metadata?.aggregateId], which must not be nullish. *)
Definition rebuild_viewId {W} (h : ProjectionEventHandler W) (e : event) : result ID :=
  match ph_id h with
  | Some id => id e
  | None =>
      match metadata_opt md_aggregateId e with Some i => Ok i | None => Err (no_viewId (ev_name e)) end
  end.

(** [eventsRead], [eventsApplied], [viewsDeleted] *)
Record counters : Type := { ct_read : nat; ct_applied : nat; ct_deleted : nat }.
Definition counted (deleted : bool) (c : counters) : counters :=
  {| ct_read := ct_read c; ct_applied := S (ct_applied c);
     ct_deleted := if deleted then S (ct_deleted c) else ct_deleted c |}.

Section rebuild.
Context {W C : Type} (host : lens W Host) (ctx : RebuildContext W C) (options : ProjectionRebuildOptions W).

Definition report_progress (c : counters) : M W unit :=
  let progressInterval := or_default (po_progressInterval options) 1000%Z in
  if (Z.of_nat (ct_applied c) mod progressInterval =? 0)%Z
  then match po_onProgress options with Some f => f (ct_applied c) | None => ret tt end
  else ret tt.

(** The body of the loop for one event. *)
Definition replay_event (e0 : event) (c0 : counters) : M W counters :=
  let c := {| ct_read := S (ct_read c0); ct_applied := ct_applied c0; ct_deleted := ct_deleted c0 |} in
  e <- lift_result (upcast_one (rc_aggregateUpcasters ctx) e0) ;;
  match mget (ev_name e) (pr_on (rc_projection ctx)) with
  | None => ret c
  | Some h =>
      viewId <- lift_result (rebuild_viewId h e) ;;
      deleted <- update_view (rc_viewStore ctx) (rc_projection ctx) h viewId e ;;
      let c' := counted deleted c in
      report_progress c' ;;; ret c'
  end.

(** [for await (let event of eventReader.read())]; [None]: [fuel] turns were not enough. *)
Fixpoint replay_loop (fuel : nat) (pos : C) (c : counters) : M W (option counters) :=
  match fuel with
  | O => ret None
  | S fuel' =>
      next <- rc_read_next ctx pos ;;
      match next with
      | None => ret (Some c)
      | Some (e, pos') => c' <- replay_event e c ;; replay_loop fuel' pos' c'
      end
  end.

Definition truncate_views : M W unit :=
  match vs_truncate (rc_viewStore ctx) with
  | Some truncate => truncate
  | None => throw (TypeError "viewStore.truncate is not a function")
  end.

Definition projSubs : jsmap nat :=
  or_default (mget (rc_projectionName ctx) (rc_subscriptionRegistry ctx)) empty.

Definition detach : M W unit :=
  match rc_off ctx with
  | Some off => for_each projSubs (fun '(eventName, handler) => off eventName handler)
  | None => if (0 <? length projSubs)%nat then throw no_off else ret tt
  end.

Definition reattach : M W unit :=
  match rc_off ctx with
  | Some _ => for_each projSubs (fun '(eventName, handler) => rc_on ctx eventName handler)
  | None => ret tt
  end.

Definition rebuildProjectionImpl (fuel : nat) : M W (option ProjectionRebuildResult) :=
  startMs <- zoom host date_now ;;
  (detach ;;;
   try_finally
     (truncate_views ;;;
      (done <- replay_loop fuel (rc_start ctx) {| ct_read := 0; ct_applied := 0; ct_deleted := 0 |} ;;
       match done with
       | None => ret None
       | Some c =>
           now <- zoom host date_now ;;
           ret (Some {| rr_projectionName := rc_projectionName ctx; rr_eventsRead := ct_read c;
                        rr_eventsApplied := ct_applied c; rr_viewsDeleted := ct_deleted c;
                        rr_durationMs := (now - startMs)%Z |})
       end))
     reattach).
End rebuild.

(** ** Facts about the rebuild over the in-memory stores *)

(** The handlers that detaching and reattaching leave on the bus. *)
Lemma detach_bus subs : forall b,
  wf subs -> EventBus.bus_wf b ->
  exists b', for_each subs (fun '(n, h) => EventBus.off n h) b = (Ok tt, b') /\ EventBus.bus_wf b' /\
    forall n, EventBus.handlers_of b' n
      = match mget n subs with
        | Some h => EventBus.splice_first h (EventBus.handlers_of b n)
        | None => EventBus.handlers_of b n
        end.
Proof.
  induction subs as [| [n h] subs IH]; intros b Hwf Hb; simpl; [by exists b |].
  apply NoDup_cons in Hwf as [Hn Hwf]. apply mget_None_keys in Hn. simpl in Hn.
  destruct (EventBus.off_spec b n h Hb) as (b1 & H1 & Hb1 & Hh1). unfold bind. rewrite H1.
  destruct (IH b1 Hwf Hb1) as (b2 & H2 & Hb2 & Hh2). exists b2. split; [done |]. split; [done |].
  intros n'. rewrite Hh2, Hh1. destruct (String.eqb_spec n' n) as [-> | Hne]; [by rewrite Hn | done].
Qed.

Lemma reattach_bus subs : forall b,
  wf subs -> EventBus.bus_wf b ->
  exists b', for_each subs (fun '(n, h) => EventBus.on n h) b = (Ok tt, b') /\ EventBus.bus_wf b' /\
    forall n, EventBus.handlers_of b' n
      = match mget n subs with
        | Some h => EventBus.handlers_of b n ++ [h]
        | None => EventBus.handlers_of b n
        end.
Proof.
  induction subs as [| [n h] subs IH]; intros b Hwf Hb; simpl; [by exists b |].
  apply NoDup_cons in Hwf as [Hn Hwf]. apply mget_None_keys in Hn. simpl in Hn.
  destruct (EventBus.on_spec b n h Hb) as (b1 & H1 & Hb1 & Hh1). unfold bind. rewrite H1.
  destruct (IH b1 Hwf Hb1) as (b2 & H2 & Hb2 & Hh2). exists b2. split; [done |]. split; [done |].
  intros n'. rewrite Hh2, Hh1. destruct (String.eqb_spec n' n) as [-> | Hne]; [by rewrite Hn | done].
Qed.

Lemma splice_perm h a : h ∈ a -> EventBus.splice_first h a ++ [h] ≡ₚ a.
Proof.
  induction a as [| x a IH]; simpl; [by intros ?%elem_of_nil |].
  intros H. destruct (Nat.eqb_spec h x) as [-> | Hne].
  - by rewrite Permutation_app_comm.
  - simpl. rewrite IH; [done |]. by apply elem_of_cons in H as [? |].
Qed.

Section memory.
Context {W : Type} (host : lens W Host) (views : lens W Views.store) (events : lens W EventStore.store)
  (bus : lens W EventBus.bus)
  `{!LensLaws views, !LensLaws events, !LensLaws bus, !LensLaws host}
  `{!Disjoint views events, !Disjoint views bus, !Disjoint views host,
    !Disjoint events bus, !Disjoint events host, !Disjoint bus host}.

(** The context that [Domain.rebuildProjection] builds over the in-memory stores. *)
Definition memory_context (name : string) (p : Projection W) (registry : jsmap (jsmap nat))
    (ups : jsmap UpcasterMap) : RebuildContext W EventStore.cursor :=
  {| rc_projectionName := name; rc_projection := p;
     rc_viewStore := zoom_view views Views.persistence;
     rc_start := (0, 0)%nat;
     rc_read_next := fun c => zoom events
       (EventStore.read_next {| EventStore.ro_after := None; EventStore.ro_aggregateName := None |} c);
     rc_on := fun n h => zoom bus (EventBus.on n h);
     rc_off := Some (fun n h => zoom bus (EventBus.off n h));
     rc_subscriptionRegistry := registry; rc_aggregateUpcasters := ups |}.

(** Everything but the clock and the views is as before. *)
Definition same_site (s s' : W) : Prop :=
  lget events s' = lget events s /\ lget bus s' = lget bus s.

Context (name : string) (p : Projection W) (registry : jsmap (jsmap nat)) (ups : jsmap UpcasterMap)
  (options : ProjectionRebuildOptions W) (reducer : string -> event -> value -> result value).

(** Reducers are functions of the event and the view. *)
Definition pure_reducers : Prop :=
  forall n h, mget n (pr_on p) = Some h -> forall e v s, ph_reduce h e v s = (reducer n e v, s).

Definition quiet_progress : Prop :=
  forall f, po_onProgress options = Some f -> forall n s, f n s = (Ok tt, s).

(** The effect of one event of the current schema on the views and the counters. *)
Definition apply_current (e : event) (st : Views.store * counters) : result (Views.store * counters) :=
  let '(v, c0) := st in
  let c := {| ct_read := S (ct_read c0); ct_applied := ct_applied c0; ct_deleted := ct_deleted c0 |} in
  match mget (ev_name e) (pr_on p) with
  | None => Ok (v, c)
  | Some h =>
      result_bind (rebuild_viewId h e) (fun i =>
      let key := string_of_ID i in
      result_bind (reducer (ev_name e) e (coalesce (or_default (mget key v) VUndefined) (pr_initialView p)))
        (fun next => if is_DeleteView next then Ok (mdelete key v, counted true c)
                     else Ok (mset key next v, counted false c)))
  end.

(** The effect of one event of the log. *)
Definition apply_event (st : Views.store * counters) (e : event) : result (Views.store * counters) :=
  result_bind (upcast_one ups e) (fun e' => apply_current e' st).

(** The views that the events of a log determine. *)
Definition views_of_log (log : list event) : result (Views.store * counters) :=
  fold_result apply_event log (empty, {| ct_read := 0; ct_applied := 0; ct_deleted := 0 |}).

Lemma update_view_run h e i s :
  pure_reducers -> mget (ev_name e) (pr_on p) = Some h ->
  update_view (zoom_view views Views.persistence) p h i e s
  = match reducer (ev_name e) e
            (coalesce (or_default (mget (string_of_ID i) (lget views s)) VUndefined) (pr_initialView p)) with
    | Ok next =>
        if is_DeleteView next
        then (Ok true, lset views (mdelete (string_of_ID i) (lget views s)) s)
        else (Ok false, lset views (mset (string_of_ID i) next (lget views s)) s)
    | Err err => (Err err, s)
    end.
Proof.
  intros Hp Hh. unfold update_view. simpl. unfold bind at 1, zoom at 1, Views.load, gets. simpl.
  rewrite lset_lget. unfold bind at 1. rewrite (Hp _ _ Hh).
  destruct (reducer _ _ _) as [next | err]; [| done].
  destruct (is_DeleteView next); reflexivity.
Qed.

Lemma report_progress_run c s : quiet_progress -> report_progress options c s = (Ok tt, s).
Proof.
  intros Hq. unfold report_progress. destruct (_ =? 0)%Z; [| done].
  destruct (po_onProgress options) as [f |] eqn:E; [by apply Hq | done].
Qed.

Lemma views_site v s : same_site s (lset views v s).
Proof. split; by rewrite disj_r. Qed.

(** A run agrees with the reference [ref]: same error, or same value and views. *)
Definition agrees {A} (ref : result (Views.store * counters)) (wrap : counters -> A) (s : W)
    (run : result A * W) : Prop :=
  same_site s (snd run) /\
  match ref with
  | Ok (v, c) => fst run = Ok (wrap c) /\ lget views (snd run) = v
  | Err err => fst run = Err err
  end.

Lemma replay_event_run e c s :
  pure_reducers -> quiet_progress ->
  agrees (apply_event (lget views s, c) e) (fun c => c) s
    (replay_event (memory_context name p registry ups) options e c s).
Proof.
  intros Hp Hq. unfold replay_event, apply_event, apply_current. cbn [memory_context rc_aggregateUpcasters
    rc_projection rc_viewStore]. unfold bind at 1, lift_result at 1.
  destruct (upcast_one ups e) as [e1 | err]; simpl; [| done].
  destruct (mget (ev_name e1) (pr_on p)) as [h |] eqn:Eh; [| done].
  unfold bind at 1, lift_result at 1. destruct (rebuild_viewId h e1) as [i | err]; simpl; [| done].
  unfold bind at 1. rewrite (update_view_run h e1 i s Hp Eh).
  destruct (reducer _ _ _) as [next | err]; simpl; [| done].
  destruct (is_DeleteView next); erewrite bind_ok by (apply report_progress_run; exact Hq);
    (split; [apply views_site | split; [done | apply lget_lset]]).
Qed.

(** The loop applies the events that remain, in order. *)
Lemma replay_loop_run fuel : forall pos c s,
  pure_reducers -> quiet_progress ->
  (length (remaining None (lget events s) pos) < fuel)%nat ->
  agrees (fold_result apply_event (remaining None (lget events s) pos) (lget views s, c)) Some s
    (replay_loop (memory_context name p registry ups) options fuel pos c s).
Proof.
  induction fuel as [| fuel IH]; intros pos c s Hp Hq Hlen; [lia |]. cbn [replay_loop].
  pose proof (read_next_spec {| EventStore.ro_after := None; EventStore.ro_aggregateName := None |}
    pos (lget events s) eq_refl) as Hn. change (EventStore.read_prefix _) with (@None string) in Hn.
  destruct (remaining None (lget events s) pos) as [| e rest] eqn:El.
  - unfold bind at 1. cbn [memory_context rc_read_next]. unfold zoom at 1. by rewrite Hn, lset_lget.
  - destruct Hn as (pos' & Hn & Hrest).
    assert (Hnext : rc_read_next (memory_context name p registry ups) pos s = (Ok (Some (e, pos')), s))
      by (simpl; unfold zoom; by rewrite Hn, lset_lget).
    rewrite (bind_ok _ _ _ _ _ Hnext). cbn [fold_result].
    destruct (replay_event_run e c s Hp Hq) as [[He Hb] H1]. unfold bind.
    destruct (replay_event _ _ e c s) as [r s1]. simpl in *.
    destruct (apply_event (lget views s, c) e) as [[v c1] | err]; simpl; [| by subst r].
    destruct H1 as [-> <-].
    destruct (IH pos' c1 s1 Hp Hq) as [[He2 Hb2] H2]; [rewrite He, Hrest; simpl in Hlen; lia |].
    rewrite He, Hrest in H2. split; [split; congruence | exact H2].
Qed.

(** What one event of the log does to the views. *)
Inductive view_effect : Type := Ignored | Saved | Deleted.
#[local] Instance view_effect_dec : EqDecision view_effect.
Proof. solve_decision. Defined.

Definition event_effect (v : Views.store) (e0 : event) : result (Views.store * view_effect) :=
  result_bind (upcast_one ups e0) (fun e =>
  match mget (ev_name e) (pr_on p) with
  | None => Ok (v, Ignored)
  | Some h =>
      result_bind (rebuild_viewId h e) (fun i =>
      let key := string_of_ID i in
      result_bind (reducer (ev_name e) e (coalesce (or_default (mget key v) VUndefined) (pr_initialView p)))
        (fun next => if is_DeleteView next then Ok (mdelete key v, Deleted) else Ok (mset key next v, Saved)))
  end).

(** The views that a log makes of [v], and the effect of each of its events. *)
Fixpoint view_effects (v : Views.store) (log : list event) : result (Views.store * list view_effect) :=
  match log with
  | [] => Ok (v, [])
  | e :: rest =>
      result_bind (event_effect v e) (fun '(v1, x) =>
      result_bind (view_effects v1 rest) (fun '(v2, xs) => Ok (v2, x :: xs)))
  end.

Definition how_many (x : view_effect) (xs : list view_effect) : nat := count_occ view_effect_dec xs x.

Lemma apply_event_effect v c e :
  apply_event (v, c) e
  = result_bind (event_effect v e) (fun '(v1, x) =>
      Ok (v1, {| ct_read := S (ct_read c); ct_applied := ct_applied c + how_many Saved [x] + how_many Deleted [x];
                 ct_deleted := ct_deleted c + how_many Deleted [x] |}))%nat.
Proof.
  unfold apply_event, apply_current, event_effect, how_many. destruct (upcast_one ups e) as [e1 |]; [| done]. simpl.
  destruct (mget (ev_name e1) (pr_on p)) as [h |]; simpl; [| by rewrite !Nat.add_0_r].
  destruct (rebuild_viewId h e1); [| done]. simpl. destruct (reducer _ _ _); [| done]. simpl.
  destruct (is_DeleteView _); simpl; unfold counted; simpl; do 3 f_equal; lia.
Qed.

(** The counters of a replay count the effects. *)
Lemma counters_of_log log : forall v c,
  fold_result apply_event log (v, c)
  = result_bind (view_effects v log) (fun '(v', xs) =>
      Ok (v', {| ct_read := ct_read c + length log;
                 ct_applied := ct_applied c + how_many Saved xs + how_many Deleted xs;
                 ct_deleted := ct_deleted c + how_many Deleted xs |}))%nat.
Proof.
  induction log as [| e log IH]; intros v [r a d]; cbn [fold_result view_effects].
  - unfold how_many. cbn. by rewrite !Nat.add_0_r.
  - rewrite apply_event_effect. destruct (event_effect v e) as [[v1 x] |]; [| done]. cbn [result_bind].
    rewrite IH. destruct (view_effects v1 log) as [[v2 xs] |]; [| done].
    cbn [result_bind ct_read ct_applied ct_deleted length]. do 3 f_equal; [lia | |];
      unfold how_many; destruct x; cbn; lia.
Qed.

Lemma view_effects_length log : forall v v' xs, view_effects v log = Ok (v', xs) -> length xs = length log.
Proof.
  induction log as [| e log IH]; intros v v' xs H; cbn in H; [by injection H as _ <- |].
  destruct (event_effect v e) as [[v1 x] |]; [| done]. cbn in H.
  destruct (view_effects v1 log) as [[v2 ys] |] eqn:E; [| done]. injection H as _ <-. cbn. f_equal. by eapply IH.
Qed.

(** Detaching and reattaching, on the whole state. *)
Lemma detach_run s :
  wf (projSubs (memory_context name p registry ups)) -> EventBus.bus_wf (lget bus s) ->
  exists b', detach (memory_context name p registry ups) s = (Ok tt, lset bus b' s) /\ EventBus.bus_wf b' /\
    forall n, EventBus.handlers_of b' n
      = match mget n (projSubs (memory_context name p registry ups)) with
        | Some h => EventBus.splice_first h (EventBus.handlers_of (lget bus s) n)
        | None => EventBus.handlers_of (lget bus s) n
        end.
Proof.
  intros Hwf Hb. destruct (detach_bus _ _ Hwf Hb) as (b' & H & Hb' & Hh). exists b'. split; [| done].
  unfold detach. cbn [rc_off rc_on memory_context].
  rewrite (for_each_zoom_pairs bus _ _ s). by apply zoom_run.
Qed.

Lemma reattach_run s :
  wf (projSubs (memory_context name p registry ups)) -> EventBus.bus_wf (lget bus s) ->
  exists b', reattach (memory_context name p registry ups) s = (Ok tt, lset bus b' s) /\ EventBus.bus_wf b' /\
    forall n, EventBus.handlers_of b' n
      = match mget n (projSubs (memory_context name p registry ups)) with
        | Some h => EventBus.handlers_of (lget bus s) n ++ [h]
        | None => EventBus.handlers_of (lget bus s) n
        end.
Proof.
  intros Hwf Hb. destruct (reattach_bus _ _ Hwf Hb) as (b' & H & Hb' & Hh). exists b'. split; [| done].
  unfold reattach. cbn [rc_off rc_on memory_context].
  rewrite (for_each_zoom_pairs bus _ _ s). by apply zoom_run.
Qed.

Lemma now_run s : exists t h, zoom host date_now s = (Ok t, lset host h s).
Proof. eexists _, _. reflexivity. Qed.

(** Between detaching and reattaching: truncate and replay. *)
Lemma replay_run fuel startMs s :
  pure_reducers -> quiet_progress ->
  (length (contents None (lget events s)) < fuel)%nat ->
  let ctx := memory_context name p registry ups in
  exists r s', (truncate_views ctx ;;;
      (done <- replay_loop ctx options fuel (rc_start ctx) {| ct_read := 0; ct_applied := 0; ct_deleted := 0 |} ;;
       match done with
       | None => ret None
       | Some c => now <- zoom host date_now ;;
           ret (Some {| rr_projectionName := rc_projectionName ctx; rr_eventsRead := ct_read c;
                        rr_eventsApplied := ct_applied c; rr_viewsDeleted := ct_deleted c;
                        rr_durationMs := (now - startMs)%Z |})
       end)) s = (r, s') /\ same_site s s' /\
    match views_of_log (contents None (lget events s)) with
    | Ok (v, c) => lget views s' = v /\ exists res, r = Ok (Some res) /\
        rr_projectionName res = name /\ rr_eventsRead res = ct_read c /\
        rr_eventsApplied res = ct_applied c /\ rr_viewsDeleted res = ct_deleted c
    | Err err => r = Err err
    end.
Proof.
  intros Hp Hq Hlen ctx. set (s1 := lset views empty s).
  assert (Ht : truncate_views ctx s = (Ok tt, s1)) by reflexivity.
  assert (He : lget events s1 = lget events s) by (unfold s1; by rewrite disj_r).
  rewrite <- remaining_start, <- He in *. unfold views_of_log.
  destruct (replay_loop_run fuel (0, 0)%nat {| ct_read := 0; ct_applied := 0; ct_deleted := 0 |} s1 Hp Hq Hlen)
    as [[He2 Hb2] H]. rewrite (bind_ok _ _ _ _ _ Ht).
  unfold bind at 1. change (rc_start ctx) with (0, 0)%nat. fold ctx in He2, Hb2, H.
  assert (Hv1 : lget views s1 = empty) by apply lget_lset. rewrite Hv1 in H.
  destruct (replay_loop ctx options fuel (0, 0)%nat _ s1) as [r s2]. simpl in He2, Hb2, H.
  assert (Hs2 : same_site s s2) by (split; [congruence | rewrite Hb2; unfold s1; by rewrite disj_r]).
  destruct (fold_result apply_event _ _) as [[v c] | err].
  - destruct H as [-> <-]. destruct (now_run s2) as (now & h & Hn). rewrite (bind_ok _ _ _ _ _ Hn).
    eexists _, _. split; [reflexivity |]. destruct Hs2 as [H1 H2].
    split; [split; by rewrite disj_l |]. split; [by rewrite disj_l |]. by eexists.
  - subst r. eexists _, _. split; [reflexivity |]. by split.
Qed.

(** Every handler has an identity extractor, as step 5.9 ensures. *)
Definition identified : Prop := Forall (fun '(_, h) => is_some (ph_id h) = true) (pr_on p).

Lemma subscription_of e :
  identified ->
  mget (ev_name e) (subscriptions (zoom_view views Views.persistence) p)
  = match mget (ev_name e) (pr_on p) with
    | Some h => Some (boundHandler (zoom_view views Views.persistence) p h (rebuild_viewId h))
    | None => None
    end.
Proof.
  unfold identified, subscriptions. generalize (zoom_view views Views.persistence). intros V.
  induction 1 as [| [n h] l Hh _ IH]; [done |]. simpl.
  destruct (ph_id h) as [id |] eqn:Ei; [| done]. simpl. destruct (String.eqb (ev_name e) n); [| exact IH].
  unfold rebuild_viewId. by rewrite Ei.
Qed.

Lemma deliver_live_run e c s s' :
  pure_reducers -> identified ->
  deliver_live (zoom_view views Views.persistence) p e s = (Ok tt, s') ->
  exists c', apply_current e (lget views s, c) = Ok (lget views s', c').
Proof.
  intros Hp Hid. unfold deliver_live, apply_current. rewrite (subscription_of e Hid).
  destruct (mget (ev_name e) (pr_on p)) as [h |] eqn:Eh; [| intros [= <-]; by eexists].
  unfold boundHandler. unfold bind at 1, lift_result. destruct (rebuild_viewId h e) as [i |]; [| done]. simpl.
  unfold bind at 1. rewrite (update_view_run h e i s Hp Eh).
  destruct (reducer _ _ _) as [next |]; [| done]. simpl.
  destruct (is_DeleteView next); intros [= <-]; rewrite lget_lset; by eexists.
Qed.

Lemma deliver_all_run es : forall log c s s',
  pure_reducers -> identified -> map_result (upcast_one ups) log = Ok es ->
  for_each es (deliver_live (zoom_view views Views.persistence) p) s = (Ok tt, s') ->
  exists c', fold_result apply_event log (lget views s, c) = Ok (lget views s', c').
Proof.
  induction es as [| e es IH]; intros [| e0 log] c s s' Hp Hid Hm H; simpl in *.
  - injection H as <-. by exists c.
  - destruct (upcast_one ups e0); [| done]. simpl in Hm. by destruct (map_result _ log).
  - done.
  - unfold apply_event at 1. destruct (upcast_one ups e0) as [e1 |]; [| done]. cbn [result_bind] in *.
    destruct (map_result (upcast_one ups) log) as [es' |] eqn:El; [| done]. injection Hm as -> ->.
    apply bind_inv_ok in H as ([] & s1 & H1 & H2).
    destruct (deliver_live_run e c s s1 Hp Hid H1) as [c1 ->]. cbn [result_bind]. by eapply IH.
Qed.

(** The projection's subscriptions are on the bus. *)
Definition subscribed (s : W) : Prop :=
  let subs := projSubs (memory_context name p registry ups) in
  wf subs /\ EventBus.bus_wf (lget bus s) /\
  forall n h, mget n subs = Some h -> h ∈ EventBus.handlers_of (lget bus s) n.

(** C12. Rebuilding a projection makes its views a function of the event log: whatever
    the view store held, a successful rebuild leaves exactly the views obtained by
    applying the events of the log, upcast by their aggregate's upcasters, to no
    views at all, and reports the number of events it read (all of them), of those
    it applied (each one that a reducer of the projection saw: it saved a view or
    deleted one) and of those that deleted a view; it fails exactly when an upcaster, an identity extractor or a reducer
    does, with that error.  In both cases the log is untouched and every handler
    that was subscribed on the bus is subscribed again, and nothing else is.  As
    many turns as events, plus one, are enough. *)
Theorem rebuild_from_log (s : W) (fuel : nat) :
  pure_reducers -> quiet_progress -> subscribed s ->
  let log := contents None (lget events s) in
  (length log < fuel)%nat ->
  exists r s', rebuildProjectionImpl host (memory_context name p registry ups) options fuel s = (r, s') /\
    lget events s' = lget events s /\ EventBus.bus_wf (lget bus s') /\
    (forall n, EventBus.handlers_of (lget bus s') n ≡ₚ EventBus.handlers_of (lget bus s) n) /\
    match view_effects empty log with
    | Ok (v, effects) => lget views s' = v /\ length effects = length log /\
        exists res, r = Ok (Some res) /\ rr_projectionName res = name /\
        rr_eventsRead res = length log /\
        rr_eventsApplied res = (how_many Saved effects + how_many Deleted effects)%nat /\
        rr_viewsDeleted res = how_many Deleted effects
    | Err err => r = Err err
    end.
Proof.
  intros Hp Hq (Hwf & Hb & Hin) log Hlen. unfold rebuildProjectionImpl.
  destruct (now_run s) as (startMs & h & Hn). rewrite (bind_ok _ _ _ _ _ Hn).
  set (s0 := lset host h s). assert (Hb0 : lget bus s0 = lget bus s) by apply disj_l.
  assert (He0 : lget events s0 = lget events s) by apply disj_l. rewrite <- Hb0 in Hb.
  destruct (detach_run s0 Hwf Hb) as (b1 & H1 & Hb1 & Hh1). rewrite (bind_ok _ _ _ _ _ H1).
  set (s1 := lset bus b1 s0) in *. assert (He1 : lget events s1 = lget events s)
    by (unfold s1; by rewrite disj_l).
  unfold log in *. rewrite <- He1 in *.
  destruct (replay_run fuel startMs s1 Hp Hq Hlen) as (r & s2 & H2 & [He2 Hb2] & Hr).
  unfold try_finally. rewrite H2. assert (Hbus2 : lget bus s2 = b1) by (rewrite Hb2; apply lget_lset).
  destruct (reattach_run s2 Hwf) as (b3 & H3 & Hb3 & Hh3); [by rewrite Hbus2 |]. rewrite H3.
  eexists r, _. split; [reflexivity |]. split; [by rewrite disj_l |]. rewrite lget_lset. split; [done |]. split.
  - intros n. rewrite Hh3, Hbus2, Hh1, Hb0. destruct (mget n _) as [hd |] eqn:E; [| done].
    by apply splice_perm, Hin.
  - unfold views_of_log in Hr. rewrite counters_of_log in Hr.
    destruct (view_effects empty _) as [[v xs] |] eqn:Ev; cbn [result_bind] in Hr; [| done].
    destruct Hr as (Hv & res & -> & Hname & E1 & E2 & E3). split; [by rewrite disj_l |].
    split; [by apply view_effects_length in Ev |]. by exists res.
Qed.

(** C13. A rebuild agrees with live delivery: if the projection, starting with an empty
    view store, was given the events of the log one by one by the event bus, in the
    order of the log and in their current schema, then a rebuild from that log, at
    any later time and over whatever the store then holds, ends with the same
    views. *)
Theorem rebuild_agrees_with_live (es : list event) (s0 s1 s : W) (fuel : nat) :
  pure_reducers -> quiet_progress -> identified -> subscribed s ->
  lget views s0 = empty ->
  for_each es (deliver_live (zoom_view views Views.persistence) p) s0 = (Ok tt, s1) ->
  map_result (upcast_one ups) (contents None (lget events s)) = Ok es ->
  (length (contents None (lget events s)) < fuel)%nat ->
  exists res s', rebuildProjectionImpl host (memory_context name p registry ups) options fuel s
                 = (Ok (Some res), s') /\ lget views s' = lget views s1.
Proof.
  intros Hp Hq Hid (Hwf & Hb & _) H0 Hlive Hlog Hlen. unfold rebuildProjectionImpl.
  destruct (now_run s) as (startMs & h & Hn). rewrite (bind_ok _ _ _ _ _ Hn).
  set (sh := lset host h s). assert (Hb0 : lget bus sh = lget bus s) by apply disj_l. rewrite <- Hb0 in Hb.
  destruct (detach_run sh Hwf Hb) as (b1 & H1 & Hb1 & _). rewrite (bind_ok _ _ _ _ _ H1).
  set (sd := lset bus b1 sh) in *. assert (He : lget events sd = lget events s)
    by (unfold sd, sh; by rewrite !disj_l).
  rewrite <- He in *. destruct (replay_run fuel startMs sd Hp Hq Hlen) as (r & s2 & H2 & [_ Hb2] & Hr).
  destruct (deliver_all_run es _ {| ct_read := 0; ct_applied := 0; ct_deleted := 0 |} s0 s1 Hp Hid Hlog Hlive)
    as [c' Hc]. rewrite H0 in Hc.
  assert (Hl : views_of_log (contents None (lget events sd)) = Ok (lget views s1, c')) by exact Hc.
  rewrite Hl in Hr. destruct Hr as (Hv & res & -> & _).
  unfold try_finally. rewrite H2. assert (Hbus2 : lget bus s2 = b1) by (rewrite Hb2; apply lget_lset).
  destruct (reattach_run s2 Hwf) as (b3 & H3 & _); [by rewrite Hbus2 |]. rewrite H3.
  eexists res, _. split; [reflexivity |]. by rewrite disj_l.
Qed.
End memory.

(** ** Facts about strong consistency *)

Section strong.
Context {W Tx : Type} (host : lens W Host) `{!LensLaws host}.

(** A unit of work with more operations. *)
Definition with_ops (u : UnitOfWork W Tx) (ops : list (operation W Tx)) : UnitOfWork W Tx :=
  {| uw_operations := uw_operations u ++ ops; uw_pendingEvents := uw_pendingEvents u;
     uw_completed := uw_completed u; uw_hooks := uw_hooks u |}.

Lemma with_ops_nil u : with_ops u [] = u.
Proof. unfold with_ops. rewrite app_nil_r. by destruct u. Qed.

Lemma with_ops_app u ops ops' : with_ops (with_ops u ops) ops' = with_ops u (ops ++ ops').
Proof. unfold with_ops. simpl. by rewrite <- app_assoc. Qed.

Lemma enlist_with_ops op (u : UnitOfWork W Tx) (w : W) :
  uw_completed u = false -> zoom uow_of (enlist op) (u, w) = (Ok tt, (with_ops u [op], w)).
Proof.
  intros Hu. unfold zoom, enlist, assertNotCompleted, bind, get, modify. simpl. by rewrite Hu.
Qed.

Lemma mget_subscriptions (V : ViewStore W) (p : Projection W) n :
  wf (pr_on p) ->
  mget n (subscriptions V p)
  = match mget n (pr_on p) with
    | Some h => option_map (boundHandler V p h) (ph_id h)
    | None => None
    end.
Proof.
  unfold subscriptions, wf, mkeys. intros Hwf. induction (pr_on p) as [| [n' h] l IH]; [done |].
  apply NoDup_cons in Hwf as [Hn Hwf]. specialize (IH Hwf). simpl in *.
  destruct (String.eqb_spec n n') as [-> | Hne].
  - destruct (ph_id h) as [id |]; simpl; [by rewrite String.eqb_refl |]. rewrite IH.
    apply mget_None_keys in Hn. simpl in Hn. by rewrite Hn.
  - destruct (ph_id h) as [id |]; simpl; [| exact IH]. apply String.eqb_neq in Hne. by rewrite Hne.
Qed.

(** Enlisting for one event: the operations, run at commit, deliver the event. *)
Lemma enlist_strong_run (factory : ViewStoreFactory W Tx) p e u w u' w' :
  wf (pr_on p) -> uw_completed u = false ->
  enlist_strong factory p e (u, w) = (Ok tt, (u', w')) ->
  w' = w /\ exists ops, u' = with_ops u ops /\
    forall context, for_each ops (fun op => op context) ≈ deliver_live (factory context) p e.
Proof.
  intros Hwf Hu. unfold enlist_strong, deliver_live.
  assert (Hnone : ret tt (u, w) = (Ok tt, (u', w')) ->
    w' = w /\ exists ops, u' = with_ops u ops /\
      forall context : option Tx, for_each ops (fun op => op context) ≈ ret tt).
  { intros [= <- <-]. split; [done |]. exists []. by rewrite with_ops_nil. }
  destruct (mget (ev_name e) (pr_on p)) as [h |] eqn:Eh.
  2: { intros H. destruct (Hnone H) as (? & ops & ? & Hr). split; [done |]. exists ops. split; [done |].
       intros context. by rewrite (mget_subscriptions _ _ _ Hwf), Eh. }
  destruct (ph_id h) as [id |] eqn:Ei.
  2: { intros H. destruct (Hnone H) as (? & ops & ? & Hr). split; [done |]. exists ops. split; [done |].
       intros context. by rewrite (mget_subscriptions _ _ _ Hwf), Eh, Ei. }
  unfold bind at 1, lift_result. destruct (id e) as [i |] eqn:Eid; [| done].
  rewrite enlist_with_ops by done. intros [= <- <-]. split; [done |].
  exists [strong_update factory p h i e]. split; [done |]. intros context s.
  rewrite (mget_subscriptions _ _ _ Hwf), Eh, Ei. simpl. unfold boundHandler, strong_update, bind, lift_result.
  rewrite Eid. by destruct (update_view _ _ _ _ _ s) as [[b | err] s1].
Qed.

(** Loops of such calls compose. *)
Lemma enlist_loop_run {A} (f : A -> M (UnitOfWork W Tx * W) unit) (g : option Tx -> A -> M W unit) xs :
  (forall x u w u' w', x ∈ xs -> uw_completed u = false -> f x (u, w) = (Ok tt, (u', w')) ->
     w' = w /\ exists ops, u' = with_ops u ops /\ forall context, for_each ops (fun op => op context) ≈ g context x) ->
  forall u w u' w', uw_completed u = false -> for_each xs f (u, w) = (Ok tt, (u', w')) ->
  w' = w /\ exists ops, u' = with_ops u ops /\
    forall context, for_each ops (fun op => op context) ≈ for_each xs (g context).
Proof.
  induction xs as [| x xs IH]; intros Hf u w u' w' Hu H; simpl in H.
  - injection H as <- <-. split; [done |]. exists []. by rewrite with_ops_nil.
  - apply bind_inv_ok in H as ([] & [u1 w1] & H1 & H2).
    destruct (Hf x u w u1 w1 ltac:(left) Hu H1) as (-> & ops1 & -> & Hg1).
    destruct (IH (fun y u w u' w' Hy => Hf y u w u' w' ltac:(by right)) (with_ops u ops1) _ _ _ Hu H2) as (-> & ops2 & -> & Hg2).
    split; [done |]. exists (ops1 ++ ops2). rewrite with_ops_app. split; [done |].
    intros context. rewrite for_each_app, Hg1. simpl. by setoid_rewrite Hg2.
Qed.

Lemma outbox_entries_run es : forall n w,
  exists entries h, map_indexed (fun _ => outbox_entry host) n es w = (Ok entries, lset host h w) /\
    map ob_event entries = es /\ Forall (fun o => unpublished o = true) entries.
Proof.
  induction es as [| e es IH]; intros n w.
  - exists [], (lget host w). by rewrite lset_lget.
  - rewrite map_indexed_cons. unfold outbox_entry at 1.
    destruct (zoom_uuid_run host w) as (i & w1 & E1 & [h1 ->]). rewrite (bind_ok _ _ _ _ _ E1).
    destruct (zoom_now_run host (lset host h1 w)) as (t & w2 & E2 & [h2 ->]). rewrite (bind_ok _ _ _ _ _ E2).
    unfold ret at 1. cbv beta iota.
    destruct (IH (S n) (lset host h2 (lset host h1 w))) as (entries & h & -> & Hm & Hu).
    eexists _, h. split; [by rewrite !lset_lset |]. simpl. rewrite Hm. by split; [| constructor].
Qed.

(** C15. Strong consistency: when events are produced inside a unit of work, nothing
    is written; what is enlisted, run later by the commit on its transaction
    handle, does exactly what live delivery of the events would do to the views of
    each strongly consistent projection, projection after projection and event
    after event, on the view store scoped to that handle; after that it saves one
    unpublished outbox entry per event, in order, when an outbox is configured and
    there are events. *)
Theorem strong_consistency_in_commit (strongProjections : list (Projection W * ViewStoreFactory W Tx))
    (outboxStore : option (OutboxStore W)) (events : list event) (u u' : UnitOfWork W Tx) (w w' : W) :
  Forall (fun '(p, _) => wf (pr_on p)) strongProjections -> uw_completed u = false ->
  onEventsProduced host strongProjections outboxStore events (u, w) = (Ok tt, (u', w')) ->
  (exists h, w' = lset host h w) /\
  exists ops entries, u' = with_ops u ops /\
    map ob_event entries = events /\ Forall (fun o => unpublished o = true) entries /\
    forall context, for_each ops (fun op => op context) ≈
      (for_each strongProjections (fun '(p, factory) => for_each events (deliver_live (factory context) p)) ;;;
       match outboxStore with
       | Some outbox => if (0 <? length events)%nat then ox_save outbox entries else ret tt
       | None => ret tt
       end).
Proof.
  intros Hwf Hu H. apply bind_inv_ok in H as ([] & [u1 w1] & H1 & H2).
  apply (enlist_loop_run _ (fun context '(p, factory) => for_each events (deliver_live (factory context) p)))
    in H1 as (-> & ops1 & -> & Hops1); [| | done].
  2: { intros [p factory] v x v' x' Hin Hv Hrun. rewrite Forall_forall in Hwf. specialize (Hwf _ Hin). simpl in Hwf.
       refine (enlist_loop_run _ (fun context e => deliver_live (factory context) p e) events _ v x v' x' Hv Hrun).
       intros e y z y' z' _ Hy He. by eapply enlist_strong_run. }
  destruct (outbox_entries_run events 0 w) as (entries & h & He & Hm & Hup).
  assert (Hskip : forall m : M W unit, m ≈ (m ;;; ret tt))
    by (intros m s; unfold bind, ret; by destruct (m s) as [[[] | err] s1]).
  assert (Hdone : ret tt (with_ops u ops1, w) = (Ok tt, (u', w')) ->
    (exists h, w' = lset host h w) /\ u' = with_ops u ops1).
  { intros [= <- <-]. split; [| done]. exists (lget host w). by rewrite lset_lget. }
  destruct outboxStore as [outbox |]; [destruct (0 <? length events)%nat |].
  - rewrite (bind_ok _ _ _ entries (with_ops u ops1, lset host h w)) in H2
      by (unfold zoom; simpl; by rewrite He).
    rewrite enlist_with_ops in H2 by done. injection H2 as <- <-. split; [by exists h |].
    rewrite with_ops_app. eexists _, entries. do 3 (split; [done |]). intros context.
    rewrite for_each_app, Hops1. apply bind_proper; [reflexivity |]. intros []. symmetry. apply Hskip.
  - destruct (Hdone H2) as [Hh ->]. split; [done |]. exists ops1, entries. do 3 (split; [done |]).
    intros context. by rewrite <- Hskip.
  - destruct (Hdone H2) as [Hh ->]. split; [done |]. exists ops1, entries. do 3 (split; [done |]).
    intros context. by rewrite <- Hskip.
Qed.
End strong.

(** ** Examples *)

(** A program with a clock, an event store, a view store and an event bus. *)
Definition site : Type := Host * EventStore.store * (Views.store * EventBus.bus).
Definition site_host : lens site Host := compose_lens fst_lens fst_lens.
Definition site_events : lens site EventStore.store := compose_lens fst_lens snd_lens.
Definition site_views : lens site Views.store := compose_lens snd_lens fst_lens.
Definition site_bus : lens site EventBus.bus := compose_lens snd_lens snd_lens.

(** The balance of an account, from its deposits. *)
Definition add_deposit (_ : string) (e : event) (v : value) : result value :=
  match ev_payload e, v with
  | VNum n, VNum m => Ok (VNum (m + n))
  | _, _ => Err (TypeError "balance")
  end.

Definition balances : Projection site := augment "Balances"
  {| pr_on := [("Deposited"%string, {| ph_id := None; ph_reduce := fun e v => lift_result (add_deposit "Deposited" e v) |})];
     pr_initialView := VNum 0; pr_consistency := Eventual |}.

Definition deposited (n : Z) : event :=
  {| ev_name := "Deposited"; ev_payload := VNum n;
     ev_metadata := Some {| md_eventId := "e"; md_timestamp := 0; md_correlationId := "c";
       md_causationId := "d"; md_userId := None; md_version := None; md_aggregateName := Some "Account"%string;
       md_aggregateId := Some (IdNum 1); md_sequenceNumber := None; md_traceparent := None;
       md_tracestate := None |} |}.

(** Two deposits are in the log; the view store holds a stale balance. *)
Definition stale_site : site :=
  ((sample_host, [("Account:1"%string, [deposited 5; deposited 3])]),
   ([("1"%string, VNum 99); ("7"%string, VNum 7)],
    {| EventBus.arrays := [[4; 9]%nat]; EventBus.registry := [("Deposited"%string, 0%nat)] |})).

Definition balances_registry : jsmap (jsmap nat) := [("Balances", [("Deposited", 4%nat)])]%string.
Definition no_options : ProjectionRebuildOptions site := {| po_progressInterval := None; po_onProgress := None |}.

Ltac site_disjoint := split; intros; repeat match goal with s : site |- _ => destruct s as [[? ?] [? ?]] end; reflexivity.
#[export] Instance site_views_events : Disjoint site_views site_events. Proof. site_disjoint. Qed.
#[export] Instance site_views_host : Disjoint site_views site_host. Proof. site_disjoint. Qed.
#[export] Instance site_views_bus : Disjoint site_views site_bus. Proof. site_disjoint. Qed.
#[export] Instance site_events_bus : Disjoint site_events site_bus. Proof. site_disjoint. Qed.
#[export] Instance site_events_host : Disjoint site_events site_host. Proof. site_disjoint. Qed.
#[export] Instance site_bus_host : Disjoint site_bus site_host. Proof. site_disjoint. Qed.
#[export] Instance site_host_laws : LensLaws site_host. Proof. apply _. Qed.
#[export] Instance site_events_laws : LensLaws site_events. Proof. apply _. Qed.
#[export] Instance site_views_laws : LensLaws site_views. Proof. apply _. Qed.
#[export] Instance site_bus_laws : LensLaws site_bus. Proof. apply _. Qed.

Lemma balances_pure : pure_reducers balances add_deposit.
Proof.
  intros n h. simpl. destruct (String.eqb_spec n "Deposited") as [-> |]; [| done]. intros [= <-] e v s. done.
Qed.

Lemma stale_subscribed :
  subscribed site_views site_events site_bus "Balances" balances balances_registry [] stale_site.
Proof.
  split; [apply NoDup_singleton |]. split.
  - split; intros n; [intros ref | intros n' ref]; simpl; destruct (String.eqb_spec n "Deposited"); try done.
    + intros [= <-]. simpl. lia.
    + destruct (String.eqb_spec n' "Deposited"); [congruence | done].
  - intros n h. simpl. destruct (String.eqb_spec n "Deposited") as [-> |]; [| done]. intros [= <-]. left.
Qed.

(** A log with an event that the projection does not know, and one that closes an
    account: its view is deleted. *)
Definition account_event (n : string) : event :=
  {| ev_name := n; ev_payload := VNull; ev_metadata := ev_metadata (deposited 0) |}.

Definition closing_log : list event :=
  [deposited 5; account_event "Renamed"; deposited 3; account_event "Closed"; deposited 2].

Definition closing_site : site :=
  ((sample_host, [("Account:1"%string, closing_log)]),
   ([("1"%string, VNum 99); ("7"%string, VNum 7)],
    {| EventBus.arrays := [[4; 9]%nat]; EventBus.registry := [("Deposited"%string, 0%nat)] |})).

Definition add_or_close (n : string) (e : event) (v : value) : result value :=
  if String.eqb n "Closed" then Ok DeleteView else add_deposit n e v.

Definition open_balances : Projection site := augment "Balances"
  {| pr_on := map (fun n => (n, {| ph_id := None; ph_reduce := fun e v => lift_result (add_or_close n e v) |}))
       ["Deposited"; "Closed"]%string;
     pr_initialView := VNum 0; pr_consistency := Eventual |}.

Lemma open_balances_pure : pure_reducers open_balances add_or_close.
Proof.
  intros n h. simpl. destruct (String.eqb_spec n "Deposited") as [-> |]; [by intros [= <-] e v s |].
  destruct (String.eqb_spec n "Closed") as [-> |]; [by intros [= <-] e v s | done].
Qed.

Lemma closing_subscribed :
  subscribed site_views site_events site_bus "Balances" open_balances balances_registry [] closing_site.
Proof. exact stale_subscribed. Qed.

Lemma rebuild_from_log_witness :
  exists res s', rebuildProjectionImpl site_host (memory_context site_views site_events site_bus "Balances"
      open_balances balances_registry []) no_options 6 closing_site = (Ok (Some res), s') /\
    lget site_views s' = [("1"%string, VNum 2)] /\
    rr_eventsRead res = 5%nat /\ rr_eventsApplied res = 4%nat /\ rr_viewsDeleted res = 1%nat.
Proof.
  destruct (rebuild_from_log site_host site_views site_events site_bus "Balances" open_balances balances_registry []
    no_options add_or_close closing_site 6 open_balances_pure ltac:(done) closing_subscribed ltac:(simpl; lia))
    as (r & s' & H & _ & _ & _ & Hv & _ & res & -> & _ & H1 & H2 & H3).
  exists res, s'. split; [exact H |]. split; [exact Hv |]. split; [exact H1 |]. split; [exact H2 | exact H3].
Defined.

Lemma rebuild_agrees_with_live_witness :
  exists res s', rebuildProjectionImpl site_host (memory_context site_views site_events site_bus "Balances" balances
      balances_registry []) no_options 3 stale_site = (Ok (Some res), s') /\
    lget site_views s' = [("1"%string, VNum 8)].
Proof.
  exact (rebuild_agrees_with_live site_host site_views site_events site_bus "Balances" balances balances_registry []
    no_options add_deposit [deposited 5; deposited 3] (lset site_views [] stale_site) _ stale_site 3
    balances_pure ltac:(done) ltac:(repeat constructor) stale_subscribed eq_refl eq_refl eq_refl ltac:(simpl; lia)).
Defined.

Lemma strong_consistency_in_commit_witness :
  exists ops : list (operation site unit), exists entries : list OutboxEntry,
    uw_operations (fst (snd (onEventsProduced site_host
      [(balances, InMemoryViewStoreFactory (zoom_view site_views Views.persistence))] None
      [deposited 5] (new_uow, stale_site)))) = ops /\
    map ob_event entries = [deposited 5].
Proof.
  destruct (strong_consistency_in_commit (Tx := unit) site_host
    [(balances, InMemoryViewStoreFactory (zoom_view site_views Views.persistence))] None [deposited 5]
    new_uow _ stale_site _ ltac:(repeat constructor; by apply not_elem_of_nil) eq_refl eq_refl)
    as (_ & ops & entries & _ & Hm & _).
  eexists _, entries. split; [reflexivity | exact Hm].
Defined.
