(* ===== verification/Domain.v ===== *)
(** The running domain ([Domain] of [engine/src/domain.ts]): the gate that counts
    operations in flight and stops new ones at shutdown, explicit units of work,
    the routing of commands and queries, and the checks of [rebuildProjection].
    The command executor and the buses are arguments; so is the lens [gate_lens]
    to the domain's own fields. *)
From S2P Require Import Prelude JsMap CoreTypes Host Stores Outbox UnitOfWork Concurrency World SagaExecutor Projection.

(** ** The operation gate *)

(** [_shuttingDown], [_activeOperations], [_drainResolve] and [_shutdownPromise]:
    of the last two, whether they are set. *)
Record Gate : Type := {
  gt_shuttingDown : bool;
  gt_activeOperations : Z;
  gt_drainResolve : bool;
  gt_shutdownPromise : bool
}.

Definition open_gate : Gate :=
  {| gt_shuttingDown := false; gt_activeOperations := 0; gt_drainResolve := false; gt_shutdownPromise := false |}.

Definition set_active (n : Z) (g : Gate) : Gate :=
  {| gt_shuttingDown := gt_shuttingDown g; gt_activeOperations := n;
     gt_drainResolve := gt_drainResolve g; gt_shutdownPromise := gt_shutdownPromise g |}.

Definition acquireOperation : M Gate unit :=
  g <- get ;;
  if gt_shuttingDown g then throw DomainShutdownError
  else modify (set_active (gt_activeOperations g + 1)).

(** [true] when it resolves the promise that [shutdown] awaits. *)
Definition releaseOperation : M Gate bool :=
  g <- get ;;
  (modify (set_active (gt_activeOperations g - 1)) ;;;
   ret ((gt_activeOperations g - 1 =? 0)%Z && gt_drainResolve g)).

(** How far [_performShutdown] has run when [shutdown] returns its promise. *)
Inductive shutdown_started : Type :=
| AlreadyStarted       (** the promise of the first call *)
| AwaitsDrain          (** operations are in flight: suspended in the race with the deadline *)
| Proceeds.            (** nothing is in flight: on to the next phase *)

Definition shutdown : M Gate shutdown_started :=
  g <- get ;;
  if gt_shutdownPromise g then ret AlreadyStarted else
  let waits := (0 <? gt_activeOperations g)%Z in
  (modify (fun g => {| gt_shuttingDown := true; gt_activeOperations := gt_activeOperations g;
                       gt_drainResolve := gt_drainResolve g || waits; gt_shutdownPromise := true |}) ;;;
   ret (if waits then AwaitsDrain else Proceeds)).

(** ** The rest of shutdown: relay, bus, components

    [drain_relay] ends by itself or by the deadline. *)
Definition close_phases {W : Type} (drain_relay : option (M W unit)) (close_bus : M W unit)
    (closeables : list (M W unit)) : M W unit :=
  match drain_relay with Some d => d | None => ret tt end ;;;
  (close_bus ;;;
   for_each (rev closeables) (fun close => swallow close)).

Section domain.
Context {W Tx : Type} (gate : lens W Gate)
  (run_commit : list (operation W Tx) -> M W unit)
  (executor : string -> Aggregate W -> command -> M (Exec W Tx) unit)
  (commandBus_dispatch : command -> M (Exec W Tx) unit)
  (queryBus_dispatch : string -> value -> M (Exec W Tx) value)
  (eventBus_dispatch : event -> M (Exec W Tx) unit)
  (outboxStore : option (OutboxStore W)).

(** [this._acquireOperation(); try { ... } finally { this._releaseOperation(); }] *)
Definition guarded {A} (body : M (Exec W Tx) A) : M (Exec W Tx) A :=
  world_op (zoom gate acquireOperation) ;;;
  try_finally body (_ <- world_op (zoom gate releaseOperation) ;; ret tt).

#[export] Instance guarded_proper {A} : Proper (M_eq ==> M_eq) (@guarded A).
Proof. intros m m' H. apply bind_proper; [done |]. intros _. by apply try_finally_proper. Qed.

Definition nested_uow : js_error := PlainError "Nested units of work are not supported".

(** What runs inside [uowStorage.run(uow, ...)]. *)
Definition uow_scope {A} (fn : M (Exec W Tx) A) : M (Exec W Tx) (A * list event) :=
  try_catch
    (result <- fn ;;
     events <- on_active_uow (commit run_commit) ;;
     ret (result, events))
    (fun error => on_active_uow (swallow (zoom uow_of rollback)) ;;; throw error).

(** Publishing and marking, after the scope. *)
Definition publish_committed (events : list event) : M (Exec W Tx) unit :=
  for_each events eventBus_dispatch ;;;
  match outboxStore with
  | Some outbox =>
      if (0 <? length events)%nat then world_op (swallow (onEventsDispatched outbox events)) else ret tt
  | None => ret tt
  end.

Definition uow_body {A} (fn : M (Exec W Tx) A) : M (Exec W Tx) A :=
  existing <- gets ex_uow ;;
  if is_some existing then throw nested_uow else
  scope <- run_with_uow new_uow (uow_scope fn) ;;
  let '(outcome, uow) := scope in
  match outcome with
  | Ok (result, events) => run_hooks uow true ;;; (publish_committed events ;;; ret result)
  | Err error => run_hooks uow false ;;; throw error
  end.

Definition withUnitOfWork {A} (fn : M (Exec W Tx) A) : M (Exec W Tx) A := guarded (uow_body fn).

Definition withMetadataContext {A} (context : MetadataContext) (fn : M (Exec W Tx) A) : M (Exec W Tx) A :=
  run_with_meta context fn.

(** The first aggregate, in definition order, that decides on the command. *)
Fixpoint find_aggregate (commandName : string) (aggregates : jsmap (Aggregate W))
  : option (string * Aggregate W) :=
  match aggregates with
  | [] => None
  | (aggregateName, aggregate) :: rest =>
      if mhas commandName (ag_decide aggregate) then Some (aggregateName, aggregate)
      else find_aggregate commandName rest
  end.

Definition dispatchCommand (aggregates : jsmap (Aggregate W)) (c : command) : M (Exec W Tx) (option ID) :=
  guarded
    (match find_aggregate (cmd_name c) aggregates with
     | Some (aggregateName, aggregate) => executor aggregateName aggregate c
     | None => commandBus_dispatch c
     end ;;;
     ret (cmd_targetAggregateId c)).

Definition dispatchQuery (name : string) (payload : value) : M (Exec W Tx) value :=
  guarded (queryBus_dispatch name payload).
End domain.

(** ** [rebuildProjection] *)

(** What the checks look at: whether [init] has run, the aggregates, the resolved
    projections, the view store factories, the reader of the adapter, and what each
    aggregate's persistence offers as a reader ([None]: the resolver throws, or the
    persistence has no [read]). *)
Record RebuildWiring (W Tx C : Type) : Type := {
  rw_initialized : bool;
  rw_aggregates : jsmap (Aggregate W);
  rw_projections : jsmap (Projection W);
  rw_factories : jsmap (ViewStoreFactory W Tx);
  rw_adapterReader : option (C * (C -> M W (option (event * C))));
  rw_aggregateReaders : list (option (C * (C -> M W (option (event * C)))))
}.
Arguments rw_initialized {W Tx C} _.
Arguments rw_aggregates {W Tx C} _.
Arguments rw_projections {W Tx C} _.
Arguments rw_factories {W Tx C} _.
Arguments rw_adapterReader {W Tx C} _.
Arguments rw_aggregateReaders {W Tx C} _.

Definition resolve_reader {W Tx C} (r : RebuildWiring W Tx C) : option (C * (C -> M W (option (event * C)))) :=
  match rw_adapterReader r with
  | Some reader => Some reader
  | None => head (omap (fun o => o) (rw_aggregateReaders r))
  end.

Definition bad_interval (n : Z) : js_error :=
  RangeError (String.append "progressInterval must be a positive integer, got " (string_of_Z n)).

Definition not_initialized : js_error :=
  PlainError "Domain not initialized. Call init() before rebuildProjection().".

(** The upcasters of each aggregate that declares some. *)
Fixpoint aggregate_upcasters {W} (aggregates : jsmap (Aggregate W)) (built : jsmap UpcasterMap) : jsmap UpcasterMap :=
  match aggregates with
  | [] => built
  | (aggregateName, aggregate) :: rest =>
      aggregate_upcasters rest
        (match ag_upcasters aggregate with Some u => mset aggregateName u built | None => built end)
  end.

(** The checks, in order; on success, the projection, its view store and the reader. *)
Definition rebuild_checks {W Tx C} (r : RebuildWiring W Tx C) (name : string) (shuttingDown : bool)
    (options : ProjectionRebuildOptions W)
  : result (Projection W * ViewStore W * (C * (C -> M W (option (event * C))))) :=
  if shuttingDown then Err DomainShutdownError else
  if negb (rw_initialized r) then Err not_initialized else
  match mget name (rw_projections r) with
  | None => Err (ProjectionNotFoundError name)
  | Some projection =>
      match pr_consistency projection with
      | Strong => Err (StrongConsistencyRebuildError name)
      | Eventual =>
          match mget name (rw_factories r) with
          | None => Err (MissingViewStoreFactoryError name)
          | Some factory =>
              let baseStore := factory None in
              match resolve_reader r with
              | None => Err EventReaderUnavailableError
              | Some reader =>
                  if negb (is_some (vs_truncate baseStore)) then Err (ViewStoreNotTruncatableError name) else
                  match po_progressInterval options with
                  | Some n => if (n <=? 0)%Z then Err (bad_interval n) else Ok (projection, baseStore, reader)
                  | None => Ok (projection, baseStore, reader)
                  end
              end
          end
      end
  end.

Definition rebuildProjection {W Tx C} (host : lens W Host) (gate : lens W Gate) (r : RebuildWiring W Tx C)
    (on : string -> nat -> M W unit) (off : option (string -> nat -> M W unit))
    (registry : jsmap (jsmap nat))
    (name : string) (options : ProjectionRebuildOptions W) (fuel : nat)
  : M W (option ProjectionRebuildResult) :=
  g <- gets (lget gate) ;;
  checked <- lift_result (rebuild_checks r name (gt_shuttingDown g) options) ;;
  let '(projection, viewStore, (start, read_next)) := checked in
  rebuildProjectionImpl host
    {| rc_projectionName := name; rc_projection := projection; rc_viewStore := viewStore;
       rc_start := start; rc_read_next := read_next; rc_on := on; rc_off := off;
       rc_subscriptionRegistry := registry; rc_aggregateUpcasters := aggregate_upcasters (rw_aggregates r) empty |} options fuel.

(** ** Interleaving of operations and shutdown

    Each step is a piece of code that runs without suspension: the entry of an
    operation, its exit, a call of [shutdown], the resumption of [shutdown] when
    the drain promise is resolved, and the deadline.  Operations in flight are
    named by numbers; an operation may start others before it ends. *)
Inductive phase : Type :=
| Running
| Draining (resolved : bool)   (** suspended in the race; is the drain promise resolved? *)
| Closing (drained : bool).    (** phase 2 on; [false]: by the deadline *)

Record sys : Type := { sy_gate : Gate; sy_open : list nat; sy_phase : phase }.

Definition init_sys : sys := {| sy_gate := open_gate; sy_open := []; sy_phase := Running |}.

Definition resolve_drain (p : phase) : phase :=
  match p with Draining _ => Draining true | _ => p end.

Inductive gate_step : sys -> sys -> Prop :=
| step_begin s op g' :
    acquireOperation (sy_gate s) = (Ok tt, g') ->
    gate_step s {| sy_gate := g'; sy_open := op :: sy_open s; sy_phase := sy_phase s |}
| step_end s op before after resolved g' :
    sy_open s = before ++ op :: after -> releaseOperation (sy_gate s) = (Ok resolved, g') ->
    gate_step s {| sy_gate := g'; sy_open := before ++ after;
                   sy_phase := if (resolved : bool) then resolve_drain (sy_phase s) else sy_phase s |}
| step_shutdown s r g' :
    shutdown (sy_gate s) = (Ok r, g') ->
    gate_step s {| sy_gate := g'; sy_open := sy_open s;
                   sy_phase := match r with
                               | AlreadyStarted => sy_phase s
                               | AwaitsDrain => Draining false
                               | Proceeds => Closing true
                               end |}
| step_resume s :
    sy_phase s = Draining true ->
    gate_step s {| sy_gate := sy_gate s; sy_open := sy_open s; sy_phase := Closing true |}
| step_deadline s b :
    sy_phase s = Draining b ->
    gate_step s {| sy_gate := sy_gate s; sy_open := sy_open s; sy_phase := Closing false |}.

Definition gate_reachable (s : sys) : Prop := rtc gate_step init_sys s.

Record gate_inv (s : sys) : Prop := {
  gi_count : gt_activeOperations (sy_gate s) = Z.of_nat (length (sy_open s));
  gi_started : gt_shuttingDown (sy_gate s) = gt_shutdownPromise (sy_gate s) /\
    (sy_phase s = Running <-> gt_shuttingDown (sy_gate s) = false);
  gi_wakeup : sy_phase s = Draining false -> sy_open s <> [] /\ gt_drainResolve (sy_gate s) = true;
  gi_drained : sy_phase s = Draining true \/ sy_phase s = Closing true -> sy_open s = []
}.

Lemma gate_inv_init : gate_inv init_sys.
Proof. by split. Qed.

Lemma acquire_run g : acquireOperation g
  = if gt_shuttingDown g then (Err DomainShutdownError, g) else (Ok tt, set_active (gt_activeOperations g + 1) g).
Proof. unfold acquireOperation, bind, get, modify, throw. by destruct (gt_shuttingDown g). Qed.

Lemma gate_inv_step s s' : gate_inv s -> gate_step s s' -> gate_inv s'.
Proof.
  intros Hi Hs. revert Hi.
  destruct Hs as [s0 op g' H | s0 op before after resolved g' Hop H | s0 r g' H | s0 H | s0 b H];
    intros [Hc [Hp Hr] Hw Hd].
  - rewrite acquire_run in H. destruct (gt_shuttingDown (sy_gate s0)) eqn:Es; [done |]. injection H as <-.
    assert (Hrun : sy_phase s0 = Running) by by apply Hr.
    split; simpl; rewrite ?Hrun, ?Hc in *; [lia | by rewrite Es | done | by intros [|]].
  - unfold releaseOperation, bind, get, modify, ret in H. injection H as <- <-.
    assert (Hlen : length (sy_open s0) = S (length (before ++ after)))
      by (rewrite Hop, !length_app; simpl; lia).
    assert (Hz : (gt_activeOperations (sy_gate s0) - 1 =? 0)%Z = true <-> before ++ after = []).
    { rewrite Z.eqb_eq, Hc, Hlen. destruct (before ++ after); simpl; split; (done || lia). }
    assert (Hne : sy_open s0 <> []) by (intros E; rewrite E in Hlen; done).
    split; simpl.
    + rewrite Hc, Hlen. lia.
    + split; [done |]. rewrite <- Hr. destruct (_ && _); [| done]. by destruct (sy_phase s0).
    + destruct (_ && _) eqn:E; [by destruct (sy_phase s0) |]. intros Hf. destruct (Hw Hf) as [_ Hres].
      rewrite Hres, andb_true_r in E. split; [| done]. intros Hnil. apply Hz in Hnil. congruence.
    + destruct (_ && _) eqn:E; [by intros _; apply andb_true_iff in E as [E _]; apply Hz |].
      intros Hph. by apply Hd in Hph.
  - unfold shutdown, bind, get, modify, ret in H. destruct (gt_shutdownPromise (sy_gate s0)) eqn:Es.
    { injection H as <- <-. split; simpl; try done. by rewrite Es. }
    injection H as <- <-. destruct (Z.ltb_spec 0 (gt_activeOperations (sy_gate s0))) as [Hlt | Hge];
      (split; simpl; [done | done | |]).
    + intros _. rewrite orb_true_r. split; [| done]. intros E. rewrite Hc, E in Hlt. simpl in Hlt. lia.
    + by intros [|].
    + done.
    + intros _. destruct (sy_open s0); [done |]. simpl in Hc. lia.
  - split; simpl; [done | | done | intros _; apply Hd; by left]. split; [done |]. rewrite <- Hr, H. done.
  - split; simpl; [done | | done | by intros [|]]. split; [done |]. rewrite <- Hr, H. done.
Qed.

Lemma gate_reachable_inv s : gate_reachable s -> gate_inv s.
Proof.
  intros H. unfold gate_reachable in H. remember init_sys as s0 eqn:E. assert (Hi : gate_inv s0) by (subst; apply gate_inv_init).
  clear E. induction H as [| s1 s2 s3 H12 _ IH]; [done |]. by eapply IH, gate_inv_step.
Qed.

(** Once shutdown has begun, the operations in flight only end. *)
Lemma closing_step s s' :
  gate_inv s -> gate_step s s' -> sy_phase s <> Running ->
  sy_phase s' <> Running /\ sy_open s' `sublist_of` sy_open s.
Proof.
  intros [_ [_ Hr] _ _] Hs. revert Hr.
  destruct Hs as [s0 op g' H | s0 op before after resolved g' Hop H | s0 r g' H | s0 H | s0 b H];
    intros Hr Hne; simpl.
  - rewrite acquire_run in H. destruct (gt_shuttingDown (sy_gate s0)); [done |]. exfalso. by apply Hne, Hr.
  - split; [| rewrite Hop; by apply sublist_app; [| apply sublist_cons]].
    destruct resolved; [by destruct (sy_phase s0) | done].
  - split; [by destruct r | done].
  - by split.
  - by split.
Qed.

Lemma closing_star s s' :
  gate_inv s -> rtc gate_step s s' -> sy_phase s <> Running -> sy_open s' `sublist_of` sy_open s.
Proof.
  intros Hi H. revert Hi. induction H as [| s1 s2 s3 H12 _ IH]; intros Hi Hne; [done |].
  destruct (closing_step s1 s2 Hi H12 Hne) as [Hne2 Hsub].
  etrans; [apply IH; [by eapply gate_inv_step | done] | exact Hsub].
Qed.

(** ** Facts about explicit units of work *)

Section uow_facts.
Context {W Tx : Type} (gate : lens W Gate) `{!LensLaws gate}
  (run_commit : list (operation W Tx) -> M W unit).

Lemma enter_run (s : Exec W Tx) :
  world_op (zoom gate acquireOperation) s
  = let g := lget gate (ex_world s) in
    if gt_shuttingDown g then (Err DomainShutdownError, s)
    else (Ok tt, lset the_world (lset gate (set_active (gt_activeOperations g + 1) g) (ex_world s)) s).
Proof.
  unfold world_op, zoom. simpl. rewrite acquire_run. destruct (gt_shuttingDown _); [| done].
  rewrite lset_lget. by destruct s.
Qed.

(** The exit of an operation never fails. *)
Lemma leave_run (s : Exec W Tx) :
  let g := lget gate (ex_world s) in
  (_ <- world_op (zoom gate releaseOperation) ;; ret tt) s
  = (Ok tt, lset the_world (lset gate (set_active (gt_activeOperations g - 1) g) (ex_world s)) s).
Proof. reflexivity. Qed.

(** Rolling back as far as possible, whatever the state of the unit of work. *)
Lemma rollback_attempt (s : Exec W Tx) u :
  ex_uow s = Some u ->
  exists u3, uw_hooks u3 = uw_hooks u /\
    on_active_uow (swallow (zoom uow_of rollback)) s
    = (Ok tt, {| ex_world := ex_world s; ex_uow := Some u3; ex_meta := ex_meta s |}).
Proof.
  intros Hu. unfold on_active_uow. rewrite Hu, swallow_run. unfold zoom. simpl.
  destruct (uw_completed u) eqn:Hc.
  - rewrite (rollback_completed u Hc). simpl. by exists u.
  - rewrite (rollback_spec u Hc). simpl. eexists. split; [| reflexivity]. done.
Qed.

(** The scope, when [fn] leaves an uncompleted unit of work [u]. *)
Lemma uow_scope_run {A} (fn : M (Exec W Tx) A) (s : Exec W Tx) r s1 u :
  fn s = (r, s1) -> ex_uow s1 = Some u -> uw_completed u = false ->
  match r with
  | Ok a =>
      match commit run_commit (u, ex_world s1) with
      | (Ok events, (u2, w2)) => uow_scope run_commit fn s
          = (Ok (a, events), {| ex_world := w2; ex_uow := Some u2; ex_meta := ex_meta s1 |})
      | (Err e, (u2, w2)) => exists u3, uw_hooks u3 = uw_hooks u /\ uow_scope run_commit fn s
          = (Err e, {| ex_world := w2; ex_uow := Some u3; ex_meta := ex_meta s1 |})
      end
  | Err e => exists u3, uw_hooks u3 = uw_hooks u /\ uow_scope run_commit fn s
      = (Err e, {| ex_world := ex_world s1; ex_uow := Some u3; ex_meta := ex_meta s1 |})
  end.
Proof.
  intros Hfn Hu Hc. unfold uow_scope, try_catch. destruct r as [a | e].
  - rewrite (bind_ok _ _ _ _ _ Hfn).
    pose proof (commit_spec run_commit u (ex_world s1) Hc) as Hcommit. cbv zeta in Hcommit. rewrite Hcommit.
    assert (Hin : on_active_uow (commit run_commit) s1
      = (let '(r, (u', w')) := commit run_commit (u, ex_world s1) in
         (r, {| ex_world := w'; ex_uow := Some u'; ex_meta := ex_meta s1 |})))
      by (unfold on_active_uow; by rewrite Hu).
    rewrite Hcommit in Hin.
    destruct (run_commit (uw_operations u) (ex_world s1)) as [[[] | e] w2].
    + by rewrite (bind_ok _ _ _ _ _ Hin).
    + rewrite (bind_err _ _ _ _ _ Hin). cbv beta iota.
      destruct (rollback_attempt {| ex_world := w2; ex_uow := Some {| uw_operations := uw_operations u;
        uw_pendingEvents := uw_pendingEvents u; uw_completed := true; uw_hooks := uw_hooks u |};
        ex_meta := ex_meta s1 |} _ eq_refl) as (u3 & Hh & Hrun).
      exists u3. split; [exact Hh |]. by rewrite (bind_ok _ _ _ _ _ Hrun).
  - rewrite (bind_err _ _ _ _ _ Hfn). destruct (rollback_attempt s1 u Hu) as (u3 & Hh & Hrun).
    exists u3. split; [exact Hh |]. by rewrite (bind_ok _ _ _ _ _ Hrun).
Qed.

(** The scope over a database: nothing of it has changed, or everything enlisted
    has run. *)
Lemma uow_scope_spec {A B} (cell : W -> string -> option B) `{!AtomicCommit run_commit cell}
    (fn : M (Exec W Tx) A) (s : Exec W Tx) r s1 u :
  fn s = (r, s1) -> ex_uow s1 = Some u -> uw_completed u = false -> hooks_quiet cell u ->
  (exists e u3 s2, uow_scope run_commit fn s = (Err e, s2) /\ ex_uow s2 = Some u3 /\ hooks_quiet cell u3 /\
     forall k, cell (ex_world s2) k = cell (ex_world s1) k) \/
  (exists a u2 s2 context, r = Ok a /\ uow_scope run_commit fn s = (Ok (a, uw_pendingEvents u), s2) /\
     ex_uow s2 = Some u2 /\ hooks_quiet cell u2 /\
     for_each (uw_operations u) (fun op => op context) (ex_world s1) = (Ok tt, ex_world s2)).
Proof.
  intros Hfn Hu Hc Hq. pose proof (uow_scope_run fn s r s1 u Hfn Hu Hc) as H.
  assert (Hk : forall u3 : UnitOfWork W Tx, uw_hooks u3 = uw_hooks u -> hooks_quiet cell u3)
    by (intros u3 H3; unfold hooks_quiet, getOrCreate in *; by rewrite H3).
  destruct r as [a | e].
  - rewrite commit_spec in H by done. cbv zeta in H.
    pose proof (ac_spec (uw_operations u) (ex_world s1)) as Ha. unfold wp in Ha.
    destruct (run_commit (uw_operations u) (ex_world s1)) as [[[] | e] w2].
    + right. destruct Ha as [context Ha]. eexists a, _, _, context. split; [done |]. split; [exact H |].
      split; [done |]. split; [by apply Hk | exact Ha].
    + left. destruct H as (u3 & Hh & H). eexists e, u3, _. split; [exact H |]. split; [done |].
      split; [by apply Hk | exact Ha].
  - left. destruct H as (u3 & Hh & H). eexists e, u3, _. split; [exact H |]. split; [done |].
    split; [by apply Hk | done].
Qed.

(** The body of [withUnitOfWork], outside any unit of work: it fails with the
    database as it was, or it has committed and goes on to publish. *)
Lemma uow_body_spec {A B} (cell : W -> string -> option B) `{!AtomicCommit run_commit cell} eventBus_dispatch
    outboxStore (fn : M (Exec W Tx) A) (s : Exec W Tx) r s1 u :
  ex_uow s = None ->
  fn (set_uow (Some new_uow) s) = (r, s1) -> ex_uow s1 = Some u -> uw_completed u = false -> hooks_quiet cell u ->
  (exists e s', uow_body run_commit eventBus_dispatch outboxStore fn s = (Err e, s') /\ ex_uow s' = None /\
     forall k, cell (ex_world s') k = cell (ex_world s1) k) \/
  (exists a context w2 s3, r = Ok a /\
     for_each (uw_operations u) (fun op => op context) (ex_world s1) = (Ok tt, w2) /\
     ex_uow s3 = None /\ (forall k, cell (ex_world s3) k = cell w2 k) /\
     uow_body run_commit eventBus_dispatch outboxStore fn s
     = (publish_committed eventBus_dispatch outboxStore (uw_pendingEvents u) ;;; ret a) s3).
Proof.
  intros Hs0 Hfn Hu Hc Hq.
  assert (Hrun : run_with_uow new_uow (uow_scope run_commit fn) s
    = (let '(r, s') := uow_scope run_commit fn (set_uow (Some new_uow) s) in
       (Ok (r, or_default (ex_uow s') new_uow), set_uow None s')))
    by (unfold run_with_uow; by rewrite Hs0).
  assert (Hbody : uow_body run_commit eventBus_dispatch outboxStore fn s =
    (scope <- run_with_uow new_uow (uow_scope run_commit fn) ;;
     let '(outcome, uow) := scope in
     match outcome with
     | Ok (result, events) => run_hooks uow true ;;; (publish_committed eventBus_dispatch outboxStore events ;;; ret result)
     | Err error => run_hooks uow false ;;; throw error
     end) s) by (unfold uow_body, bind at 1, gets; by rewrite Hs0).
  rewrite Hbody. clear Hbody.
  destruct (uow_scope_spec cell fn _ r s1 u Hfn Hu Hc Hq)
    as [(e & u3 & s2 & Hs & Hu3 & [Hk1 Hk2] & Hc2) | (a & u2 & s2 & context & -> & Hs & Hu2 & [Hk1 Hk2] & Hops)];
    rewrite Hs in Hrun; rewrite (bind_ok _ _ _ _ _ Hrun); cbv beta iota.
  - left. rewrite Hu3. cbn [or_default].
    destruct (run_hooks_spec cell u3 false (set_uow None s2) Hk1 Hk2) as (s3 & H3 & Hu4 & _ & Hc3).
    rewrite (bind_ok _ _ _ _ _ H3). eexists e, _. split; [reflexivity |]. split; [exact Hu4 |].
    intros k. by rewrite Hc3, <- Hc2.
  - right. rewrite Hu2. cbn [or_default].
    destruct (run_hooks_spec cell u2 true (set_uow None s2) Hk1 Hk2) as (s3 & H3 & Hu4 & _ & Hc3).
    exists a, context, (ex_world s2), s3. split; [done |]. split; [exact Hops |]. split; [exact Hu4 |].
    split; [exact Hc3 |]. by rewrite (bind_ok _ _ _ _ _ H3).
Qed.
End uow_facts.

(** ** Properties *)

(** C16. Graceful shutdown, under every interleaving of operations, calls of
    [shutdown], its resumption and its deadline: the counter is the number of
    operations in flight; once shutdown has begun every new operation is refused
    with [DomainShutdownError] and the operations in flight can only end; if
    [shutdown] is suspended on the drain promise then some operation is in flight,
    and the exit of the last one resolves the promise (no lost wake-up); and it
    goes on to close the buses without its deadline having passed only when no
    operation is in flight. *)
Theorem shutdown_gate (s : sys) :
  gate_reachable s ->
  gt_activeOperations (sy_gate s) = Z.of_nat (length (sy_open s)) /\
  (sy_phase s <> Running ->
     acquireOperation (sy_gate s) = (Err DomainShutdownError, sy_gate s) /\
     forall s', rtc gate_step s s' -> sy_open s' `sublist_of` sy_open s) /\
  (sy_phase s = Draining false -> sy_open s <> [] /\
     forall op, sy_open s = [op] -> exists g', releaseOperation (sy_gate s) = (Ok true, g')) /\
  (sy_phase s = Closing true -> sy_open s = []).
Proof.
  intros Hr. pose proof (gate_reachable_inv s Hr) as Hi. destruct Hi as [Hc [Hp Hph] Hw Hd].
  split; [exact Hc |]. split; [| split].
  - intros Hne. split.
    + rewrite acquire_run. destruct (gt_shuttingDown (sy_gate s)); [done |]. exfalso. by apply Hne, Hph.
    + intros s' Hs. by eapply closing_star; [by apply gate_reachable_inv | |].
  - intros Hdr. destruct (Hw Hdr) as [Hne Hres]. split; [done |]. intros op Hop.
    unfold releaseOperation, bind, get, modify, ret. rewrite Hc, Hop, Hres. by eexists.
  - intros H. apply Hd. by right.
Qed.

(** One operation in flight when [shutdown] is called. *)
Definition draining : sys :=
  {| sy_gate := {| gt_shuttingDown := true; gt_activeOperations := 1; gt_drainResolve := true;
                   gt_shutdownPromise := true |};
     sy_open := [7%nat]; sy_phase := Draining false |}.

Definition entered : sys := {| sy_gate := set_active 1 open_gate; sy_open := [7%nat]; sy_phase := Running |}.

Lemma draining_reachable : gate_reachable draining.
Proof.
  apply rtc_l with entered; [exact (step_begin init_sys 7%nat (set_active 1 open_gate) eq_refl) |].
  apply rtc_once. exact (step_shutdown entered AwaitsDrain (sy_gate draining) eq_refl).
Qed.

Lemma shutdown_gate_witness :
  acquireOperation (sy_gate draining) = (Err DomainShutdownError, sy_gate draining) /\
  exists g', releaseOperation (sy_gate draining) = (Ok true, g').
Proof.
  destruct (shutdown_gate draining draining_reachable) as (_ & H1 & H2 & _).
  split; [apply H1; discriminate | exact (proj2 (H2 eq_refl) 7%nat eq_refl)].
Defined.

(** C11. An explicit unit of work is all or nothing.  Inside another unit of work
    [withUnitOfWork] is refused and nothing changes.  Otherwise, if the function
    only enlists (it changes nothing of what [cell] shows of the database, and
    completes no unit of work), then either the call fails before publishing and
    the database is as it was, or the function has returned, everything it
    enlisted has run in order in one commit, the unit of work is no longer active,
    and only then its events are published in order; from there on the database
    part of the outcome is that of the commit. *)
Theorem with_unit_of_work {W Tx A B} (gate : lens W Gate) `{!LensLaws gate}
    (run_commit : list (operation W Tx) -> M W unit) (cell : W -> string -> option B)
    `{!AtomicCommit run_commit cell} (eventBus_dispatch : event -> M (Exec W Tx) unit)
    (outboxStore : option (OutboxStore W)) (fn : M (Exec W Tx) A) (s : Exec W Tx) :
  gt_shuttingDown (lget gate (ex_world s)) = false ->
  (forall g w k, cell (lset gate g w) k = cell w k) ->
  (forall s0 r s1, ex_uow s0 = Some new_uow -> fn s0 = (r, s1) ->
     (forall k, cell (ex_world s1) k = cell (ex_world s0) k) /\
     exists u1, ex_uow s1 = Some u1 /\ uw_completed u1 = false /\ hooks_quiet cell u1) ->
  let outcome := withUnitOfWork gate run_commit eventBus_dispatch outboxStore fn s in
  match ex_uow s with
  | Some _ => outcome = (Err nested_uow, s)
  | None =>
      (exists e s', outcome = (Err e, s') /\ ex_uow s' = None /\
         forall k, cell (ex_world s') k = cell (ex_world s) k) \/
      (exists a u1 s1 context w2 s3,
         fn (set_uow (Some new_uow) (snd (world_op (zoom gate acquireOperation) s))) = (Ok a, s1) /\
         ex_uow s1 = Some u1 /\
         for_each (uw_operations u1) (fun op => op context) (ex_world s1) = (Ok tt, w2) /\
         ex_uow s3 = None /\ (forall k, cell (ex_world s3) k = cell w2 k) /\
         outcome = try_finally
           (publish_committed eventBus_dispatch outboxStore (uw_pendingEvents u1) ;;; ret a)
           (_ <- world_op (zoom gate releaseOperation) ;; ret tt) s3)
  end.
Proof.
  intros Hopen Hgate Hfn outcome. unfold outcome, withUnitOfWork, guarded. clear outcome.
  pose proof (enter_run gate s) as Henter. cbv zeta in Henter. rewrite Hopen in Henter.
  rewrite (bind_ok _ _ _ _ _ Henter), Henter. cbn [snd]. set (sa := lset the_world _ s) in *.
  destruct (ex_uow s) as [u |] eqn:Eu.
  - assert (Hb : uow_body run_commit eventBus_dispatch outboxStore fn sa = (Err nested_uow, sa))
      by (unfold uow_body, bind at 1, gets; change (ex_uow sa) with (ex_uow s); by rewrite Eu).
    unfold try_finally. rewrite Hb, leave_run. unfold sa. destruct s as [w0 u0 m0]. simpl in *.
    rewrite lget_lset, lset_lset. unfold set_active. simpl. rewrite Z.add_simpl_r.
    destruct (lget gate w0) as [sd ac dr sp] eqn:Eg. simpl. rewrite <- Eg, lset_lget. by subst.
  - destruct (fn (set_uow (Some new_uow) sa)) as [r s1] eqn:Ef.
    destruct (Hfn (set_uow (Some new_uow) sa) r s1 eq_refl Ef) as (Hq & u1 & Hu1 & Hc1 & Hhooks).
    destruct (uow_body_spec run_commit cell eventBus_dispatch outboxStore fn sa r s1 u1 Eu Ef Hu1 Hc1 Hhooks)
      as [(e & s2 & Hb & Hu2 & Hc2) | (a & context & w2 & s3 & -> & Hops & Hu3 & Hc3 & Hb)].
    + left. unfold try_finally. rewrite Hb, leave_run. eexists e, _. split; [reflexivity |]. split; [exact Hu2 |].
      intros k. simpl. rewrite Hgate, Hc2, Hq. apply Hgate.
    + right. exists a, u1, s1, context, w2, s3. do 5 (split; [done |]). unfold try_finally. by rewrite Hb.
Qed.


(** A function that enlists a save of an order and returns its number. *)
Definition order_gate : lens (Gate * jsmap nat) Gate := fst_lens.
Definition order_transaction (body : unit -> M (Gate * jsmap nat) unit) : M (Gate * jsmap nat) unit :=
  copying_transaction body.
Definition place_order : M (Exec (Gate * jsmap nat) unit) nat :=
  on_active_uow (zoom uow_of (enlist (fun _ => zoom snd_lens (modify (mset "order" 1%nat))))) ;;; ret 1%nat.

#[export] Instance order_atomic :
  AtomicCommit (run_in_transaction order_transaction) (fun w k => mget k (snd w)).
Proof. exact (transaction_atomic order_transaction (fun w => w) (fun w k => mget k (snd w)) copying_transaction_spec). Qed.

Definition order_start : Exec (Gate * jsmap nat) unit := {| ex_world := (open_gate, []); ex_uow := None; ex_meta := None |}.

Lemma with_unit_of_work_witness :
  exists s3, ex_uow s3 = None /\ mget "order" (snd (ex_world s3)) = Some 1%nat /\
    withUnitOfWork order_gate (run_in_transaction order_transaction) (fun _ => ret tt) None place_order order_start
    = try_finally (publish_committed (fun _ => ret tt) None [] ;;; ret 1%nat)
        (_ <- world_op (zoom order_gate releaseOperation) ;; ret tt) s3.
Proof.
  destruct (with_unit_of_work order_gate (run_in_transaction order_transaction) (fun w k => mget k (snd w))
    (fun _ => ret tt) None place_order order_start eq_refl (fun _ _ _ => eq_refl))
    as [(e & s' & H & _) | (a & u1 & s1 & context & w2 & s3 & Hfn & Hu1 & Hops & Hu3 & Hc & H)].
  - intros [w0 u0 m0] r s1 Hu H. simpl in Hu. subst u0. injection H as _ <-. split; [done |].
    eexists. split; [reflexivity |]. split; [done |]. split; constructor.
  - exfalso. vm_compute in H. discriminate H.
  - injection Hfn as <- <-. injection Hu1 as <-. injection Hops as <-. exists s3.
    split; [exact Hu3 |]. split; [exact (Hc "order"%string) | exact H].
Defined.

(** Routing of commands: a domain that is shutting down refuses every command and
    nothing changes.  Otherwise a command runs through the lifecycle of the first
    aggregate, in the order of the definition, that has a decide handler of the
    command's name, and through no other; only when no aggregate has one it goes to
    the command bus; the caller gets the command's target identifier, or the error
    unchanged; and in every case the operation is counted out again. *)
Theorem dispatch_command_routes {W Tx} (gate : lens W Gate) `{!LensLaws gate}
    (executor : string -> Aggregate W -> command -> M (Exec W Tx) unit)
    (commandBus_dispatch : command -> M (Exec W Tx) unit)
    (aggregates : jsmap (Aggregate W)) (c : command) (s : Exec W Tx) (run : M (Exec W Tx) unit) :
  let decides (a : Aggregate W) := mhas (cmd_name c) (ag_decide a) in
  ((exists before name agg after, aggregates = before ++ (name, agg) :: after /\ decides agg = true /\
      Forall (fun '(_, a) => decides a = false) before /\ run = executor name agg c) \/
   (Forall (fun '(_, a) => decides a = false) aggregates /\ run = commandBus_dispatch c)) ->
  dispatchCommand gate executor commandBus_dispatch aggregates c s
  = match world_op (zoom gate acquireOperation) s with
    | (Err e, s0) => (Err DomainShutdownError, s)
    | (Ok _, s0) =>
        let '(r, s1) := run s0 in
        let g := lget gate (ex_world s1) in
        (match r with Ok _ => Ok (cmd_targetAggregateId c) | Err e => Err e end,
         lset the_world (lset gate (set_active (gt_activeOperations g - 1) g) (ex_world s1)) s1)
    end.
Proof.
  intros decides Hrun.
  assert (Hfind : match find_aggregate (cmd_name c) aggregates with
    | Some (name, agg) => executor name agg c
    | None => commandBus_dispatch c
    end = run).
  { destruct Hrun as [(before & name & agg & after & -> & Hd & Hb & ->) | [Hb ->]].
    - induction Hb as [| [n a] l Ha _ IH]; simpl; [unfold decides in Hd; by rewrite Hd |].
      unfold decides in Ha. by rewrite Ha.
    - induction Hb as [| [n a] l Ha _ IH]; simpl; [done |]. unfold decides in Ha. by rewrite Ha. }
  unfold dispatchCommand, guarded. rewrite Hfind. pose proof (enter_run gate s) as Henter. cbv zeta in Henter.
  destruct (gt_shuttingDown _); rewrite Henter.
  - by rewrite (bind_err _ _ _ _ _ Henter).
  - rewrite (bind_ok _ _ _ _ _ Henter). unfold try_finally.
    match goal with |- context [run ?st] => destruct (run st) as [[[] | e] s1] eqn:Er end.
    + rewrite (bind_ok _ _ _ _ _ Er). unfold ret at 1. by rewrite leave_run.
    + rewrite (bind_err _ _ _ _ _ Er). by rewrite leave_run.
Qed.

Definition no_aggregate : Aggregate (Gate * jsmap nat) :=
  {| ag_initialState := VNull; ag_decide := []; ag_evolve := []; ag_upcasters := None |}.
Definition ship : command :=
  {| cmd_name := "Ship"; cmd_payload := VNull; cmd_commandId := None; cmd_targetAggregateId := None |}.

Lemma dispatch_command_routes_witness :
  dispatchCommand order_gate (fun _ _ _ => ret tt) (fun _ => throw (PlainError "bus")) [("Order"%string, no_aggregate)]
    ship order_start = (Err (PlainError "bus"), order_start).
Proof.
  refine (dispatch_command_routes order_gate (fun _ _ _ => ret tt) (fun _ => throw (PlainError "bus"))
    [("Order"%string, no_aggregate)] ship order_start _ (or_intror (conj _ eq_refl))).
  constructor; [reflexivity | constructor].
Defined.

(** A rebuild is refused before anything is touched: no subscription is detached,
    no view truncated and no event read unless the domain is initialized and not shutting down, the
    projection exists, is eventually consistent and has a view store that can be
    truncated, a reader of the event log can be found, the adapter's own first, and
    the progress interval is positive; each refusal has its own error. *)
Theorem rebuild_guarded {W Tx C} (host : lens W Host) (gate : lens W Gate) (r : RebuildWiring W Tx C)
    (on : string -> nat -> M W unit) (off : option (string -> nat -> M W unit))
    (registry : jsmap (jsmap nat)) (name : string)
    (options : ProjectionRebuildOptions W) (fuel : nat) (w : W) :
  match rebuild_checks r name (gt_shuttingDown (lget gate w)) options with
  | Err e => rebuildProjection host gate r on off registry name options fuel w = (Err e, w)
  | Ok (projection, viewStore, reader) =>
      gt_shuttingDown (lget gate w) = false /\ rw_initialized r = true /\
      mget name (rw_projections r) = Some projection /\ pr_consistency projection = Eventual /\
      (exists factory, mget name (rw_factories r) = Some factory /\ viewStore = factory None) /\
      is_some (vs_truncate viewStore) = true /\
      (rw_adapterReader r = Some reader \/ rw_adapterReader r = None /\ In (Some reader) (rw_aggregateReaders r)) /\
      (forall n, po_progressInterval options = Some n -> (0 < n)%Z)
  end.
Proof.
  destruct (rebuild_checks r name _ options) as [[[projection viewStore] reader] | e] eqn:E.
  - unfold rebuild_checks in E. destruct (gt_shuttingDown _); [done |].
    destruct (rw_initialized r); [| done]. cbn [negb] in E.
    destruct (mget name (rw_projections r)) as [p |]; [| done].
    destruct (pr_consistency p) eqn:Ec; [| done].
    destruct (mget name (rw_factories r)) as [factory |]; [| done].
    destruct (resolve_reader r) as [rd |] eqn:Er; [| done].
    destruct (is_some (vs_truncate (factory None))) eqn:Et; [| done]. simpl in E.
    assert (Hok : E = E -> p = projection /\ factory None = viewStore /\ rd = reader /\
      forall n, po_progressInterval options = Some n -> (0 < n)%Z).
    { intros _. destruct (po_progressInterval options) as [n |].
      - destruct (Z.leb_spec n 0); [done |]. injection E as <- <- <-. repeat split; try done. by intros n' [= <-].
      - by injection E as <- <- <-. }
    destruct (Hok eq_refl) as (<- & <- & <- & Hn). repeat split; try done; [by exists factory |].
    unfold resolve_reader in Er. destruct (rw_adapterReader r) as [a |]; [left; congruence | right]. split; [done |].
    induction (rw_aggregateReaders r) as [| [x |] l IH]; simpl in Er; [done | |].
    + injection Er as ->. by left.
    + right. by apply IH.
  - unfold rebuildProjection, bind, gets, lift_result. by rewrite E.
Qed.
