(* ===== verification/Wiring.v ===== *)
(** Wiring: how [Domain.init] ([engine/src/domain.ts]) turns the configuration into
    the persistence resolver, the snapshot resolver and the concurrency strategy
    that the executors receive.  A factory is a program of the world; the in-memory
    persistence that serves as the default is the argument [in_memory]. *)
From S2P Require Import Prelude JsMap CoreTypes Stores Idempotency Outbox UnitOfWork Concurrency CommandExecutor.

(** ** The configuration *)

(** The three forms of [AggregateWiring.persistence]. *)
Inductive PersistenceWiring (W : Type) : Type :=
| PersistenceFactory (f : M W (PersistenceConfiguration W))
| PersistenceShorthand (s : string)
| PersistenceObject (p : PersistenceConfiguration W).
Arguments PersistenceFactory {W} _.
Arguments PersistenceShorthand {W} _.
Arguments PersistenceObject {W} _.

(** The forms of [AggregateWiring.concurrency] ([None]: absent). *)
Inductive ConcurrencyWiring (W : Type) : Type :=
| OptimisticShorthand
| PessimisticShorthand
| OptimisticObject (maxRetries : option Z)
| PessimisticObject (locker : option (AggregateLocker W)) (lockTimeoutMs : option Z).
Arguments OptimisticShorthand {W}.
Arguments PessimisticShorthand {W}.
Arguments OptimisticObject {W} _.
Arguments PessimisticObject {W} _ _.

Record SnapshotWiring (W : Type) : Type := {
  sw_store : option (M W (SnapshotStore W));
  sw_strategy : SnapshotStrategy
}.
Arguments sw_store {W} _.
Arguments sw_strategy {W} _.

Record AggregateWiring (W : Type) : Type := {
  aw_persistence : option (PersistenceWiring W);
  aw_concurrency : option (ConcurrencyWiring W);
  aw_snapshots : option (SnapshotWiring W)
}.
Arguments aw_persistence {W} _.
Arguments aw_concurrency {W} _.
Arguments aw_snapshots {W} _.

(** [isGlobalAggregateWiring] of [wireDomain], on the keys of [wiring.aggregates]
    ([None]: the field is absent). *)
Definition isGlobalAggregateWiring (agg : option (list string)) : bool :=
  match agg with
  | None => true
  | Some keys =>
      existsb (String.eqb "persistence") keys || existsb (String.eqb "concurrency") keys ||
      existsb (String.eqb "snapshots") keys || (length keys =? 0)%nat
  end.

(** A per-aggregate wiring is told from a global one by its keys, so that an
    aggregate named like a field of [AggregateWiring] turns it into a global one. *)
Example aggregate_named_snapshots : isGlobalAggregateWiring (Some ["Order"; "snapshots"]%string) = true.
Proof. reflexivity. Qed.

(** [PersistenceAdapter]: the stores an adapter may provide. *)
Record PersistenceAdapter (W Tx : Type) : Type := {
  ad_eventSourcedPersistence : option (EventSourcedPersistence W);
  ad_stateStoredPersistence : option (StateStoredPersistence W);
  ad_sagaPersistence : option (SagaPersistence W);
  ad_snapshotStore : option (SnapshotStore W);
  ad_run_commit : option (list (operation W Tx) -> M W unit);   (** its [unitOfWorkFactory] *)
  ad_aggregateLocker : option (AggregateLocker W);
  ad_idempotencyStore : option (IdempotencyStore W);
  ad_outboxStore : option (OutboxStore W);
  ad_init : option (M W unit);
  ad_close : option (M W unit)
}.
Arguments ad_eventSourcedPersistence {W Tx} _.
Arguments ad_stateStoredPersistence {W Tx} _.
Arguments ad_sagaPersistence {W Tx} _.
Arguments ad_snapshotStore {W Tx} _.
Arguments ad_run_commit {W Tx} _.
Arguments ad_aggregateLocker {W Tx} _.
Arguments ad_idempotencyStore {W Tx} _.
Arguments ad_outboxStore {W Tx} _.
Arguments ad_init {W Tx} _.
Arguments ad_close {W Tx} _.

(** [adapter?.field] *)
Definition from_adapter {W Tx A} (f : PersistenceAdapter W Tx -> option A) (adapter : option (PersistenceAdapter W Tx))
  : option A := match adapter with Some a => f a | None => None end.

(** ** Persistence (step 4) *)

Definition aggregate_error (aggregateName : string) (rest : string) : js_error :=
  PlainError (String.append "Aggregate " (String.append (quoted aggregateName) (String.append ": " rest))).

Definition shorthand_text (s rest : string) : string :=
  String.append "persistence shorthand '" (String.append s (String.append "' " rest)).

Section wiring.
Context {W Tx : Type} (adapter : option (PersistenceAdapter W Tx)) (in_memory : PersistenceConfiguration W).

Definition resolveAggregatePersistence (aggregateName : string) (persistence : option (PersistenceWiring W))
  : M W (option (PersistenceConfiguration W)) :=
  match persistence with
  | None => ret (option_map StateStored (from_adapter ad_stateStoredPersistence adapter))
  | Some (PersistenceShorthand s) =>
      match adapter with
      | None => throw (aggregate_error aggregateName
                  (shorthand_text s "requires a persistenceAdapter in DomainWiring."))
      | Some a =>
          if String.eqb s "event-sourced" then
            match ad_eventSourcedPersistence a with
            | Some p => ret (Some (EventSourced p))
            | None => throw (aggregate_error aggregateName
                "persistence 'event-sourced' requested but the adapter does not provide eventSourcedPersistence.")
            end
          else if String.eqb s "state-stored" then
            match ad_stateStoredPersistence a with
            | Some p => ret (Some (StateStored p))
            | None => throw (aggregate_error aggregateName
                "persistence 'state-stored' requested but the adapter does not provide stateStoredPersistence.")
            end
          else throw (aggregate_error aggregateName
                 (String.append "unknown persistence shorthand '" (String.append s "'.")))
      end
  | Some (PersistenceFactory f) => p <- f ;; ret (Some p)
  | Some (PersistenceObject p) => ret (Some p)
  end.

(** [[...names].join(", ")] *)
Fixpoint join (names : list string) : string :=
  match names with
  | [] => EmptyString
  | [n] => n
  | n :: rest => String.append n (String.append ", " (join rest))
  end.

Definition unknown_aggregate (name : string) (aggregateNames : list string) : js_error :=
  PlainError (String.append "Per-aggregate wiring references unknown aggregate: " (String.append name
    (String.append ". Registered aggregates: " (String.append (join aggregateNames) ".")))).

Definition missing_entries (missing : list string) : js_error :=
  PlainError (String.append "Per-aggregate persistence is missing entries for: " (join missing)).

(** The loop over the registered aggregates: what was resolved so far, and the rest. *)
Fixpoint resolve_all (perAggregateWirings : jsmap (AggregateWiring W)) (aggregateNames : list string)
    (resolved : jsmap (PersistenceConfiguration W)) : M W (jsmap (PersistenceConfiguration W)) :=
  match aggregateNames with
  | [] => ret resolved
  | aggregateName :: rest =>
      persistence <- resolveAggregatePersistence aggregateName
        (match mget aggregateName perAggregateWirings with Some aw => aw_persistence aw | None => None end) ;;
      resolve_all perAggregateWirings rest
        (match persistence with Some p => mset aggregateName p resolved | None => resolved end)
  end.

Definition missing_names (aggregateNames : list string) (resolved : jsmap (PersistenceConfiguration W)) : list string :=
  List.filter (fun n => negb (mhas n resolved)) aggregateNames.

(** Per-aggregate mode. *)
Definition resolve_per_aggregate (perAggregateWirings : jsmap (AggregateWiring W)) (aggregateNames : list string)
  : M W (persistence_resolver W) :=
  match List.find (fun name => negb (existsb (String.eqb name) aggregateNames)) (mkeys perAggregateWirings) with
  | Some name => throw (unknown_aggregate name aggregateNames)
  | None =>
      resolved <- resolve_all perAggregateWirings aggregateNames empty ;;
      if (0 <? length resolved)%nat then
        let missing := missing_names aggregateNames resolved in
        if (0 <? length missing)%nat && (length resolved <? length aggregateNames)%nat then
          match adapter with
          | None => throw (missing_entries missing)
          | Some _ => ret (PerAggregatePersistenceResolver
                        (fold_left (fun m name => mset name in_memory m) missing resolved))
          end
        else ret (PerAggregatePersistenceResolver resolved)
      else ret (GlobalAggregatePersistenceResolver in_memory)
  end.

(** Global mode. *)
Definition resolve_global (globalWiring : option (AggregateWiring W)) : M W (persistence_resolver W) :=
  resolvedPersistence <- resolveAggregatePersistence "(global)"
    (match globalWiring with Some aw => aw_persistence aw | None => None end) ;;
  ret (GlobalAggregatePersistenceResolver (or_default resolvedPersistence in_memory)).

(** [wiring.aggregates]: one wiring for all, or one per aggregate. *)
Inductive aggregates_wiring : Type :=
| GlobalWiring (w : option (AggregateWiring W))
| PerAggregateWirings (ws : jsmap (AggregateWiring W)).

Definition resolve_persistence (aggregates : aggregates_wiring) (aggregateNames : list string)
  : M W (persistence_resolver W) :=
  match aggregates with
  | PerAggregateWirings ws => resolve_per_aggregate ws aggregateNames
  | GlobalWiring w => resolve_global w
  end.

(** ** Snapshots (step 4.5) *)

Definition no_snapshot_store (aggregateName : option string) : js_error :=
  let tail := "snapshots.strategy is set but no snapshot store is available. Provide snapshots.store or use a persistenceAdapter with snapshotStore."%string in
  match aggregateName with
  | Some name => aggregate_error name tail
  | None => PlainError (String.append "Global " tail)
  end.

Definition resolve_snapshot_store (aggregateName : option string) (sw : SnapshotWiring W) : M W (SnapshotStore W) :=
  match sw_store sw, from_adapter ad_snapshotStore adapter with
  | Some store, _ => store
  | None, Some store => ret store
  | None, None => throw (no_snapshot_store aggregateName)
  end.

Fixpoint resolve_snapshots (ws : jsmap (AggregateWiring W)) (resolved : jsmap (SnapshotConfig W))
  : M W (jsmap (SnapshotConfig W)) :=
  match ws with
  | [] => ret resolved
  | (name, aw) :: rest =>
      match aw_snapshots aw with
      | Some sw =>
          store <- resolve_snapshot_store (Some name) sw ;;
          resolve_snapshots rest (mset name {| cf_store := store; cf_strategy := sw_strategy sw |} resolved)
      | None => resolve_snapshots rest resolved
      end
  end.

Definition resolve_snapshot_resolver (aggregates : aggregates_wiring)
  : M W (option (string -> option (SnapshotConfig W))) :=
  match aggregates with
  | PerAggregateWirings ws =>
      resolved <- resolve_snapshots ws empty ;;
      ret (if (0 <? length resolved)%nat then Some (fun aggregateName => mget aggregateName resolved) else None)
  | GlobalWiring (Some aw) =>
      match aw_snapshots aw with
      | Some sw =>
          store <- resolve_snapshot_store None sw ;;
          ret (Some (fun _ => Some {| cf_store := store; cf_strategy := sw_strategy sw |}))
      | None => ret None
      end
  | GlobalWiring None => ret None
  end.

(** ** Concurrency (step 5.6) *)

Definition resolveConcurrency (aggregateName : string) (concurrency : option (ConcurrencyWiring W))
  : result (ConcurrencyStrategy W Tx) :=
  match concurrency with
  | None | Some OptimisticShorthand => Ok (OptimisticConcurrencyStrategy 0)
  | Some PessimisticShorthand =>
      match from_adapter ad_aggregateLocker adapter with
      | None => Err (aggregate_error aggregateName
          "concurrency 'pessimistic' requires an aggregate locker. Provide a persistenceAdapter with aggregateLocker or use object form with explicit locker.")
      | Some locker => Ok (PessimisticConcurrencyStrategy locker None)
      end
  | Some (PessimisticObject locker lockTimeoutMs) =>
      match (match locker with Some _ => locker | None => from_adapter ad_aggregateLocker adapter end) with
      | None => Err (aggregate_error aggregateName
          "pessimistic concurrency requires a locker. Provide concurrency.locker or use a persistenceAdapter with aggregateLocker.")
      | Some locker => Ok (PessimisticConcurrencyStrategy locker lockTimeoutMs)
      end
  | Some (OptimisticObject maxRetries) => Ok (OptimisticConcurrencyStrategy (or_default maxRetries 0%Z))
  end.

Fixpoint resolve_strategies (ws : jsmap (AggregateWiring W)) (strategies : jsmap (ConcurrencyStrategy W Tx))
  : result (jsmap (ConcurrencyStrategy W Tx)) :=
  match ws with
  | [] => Ok strategies
  | (name, aw) :: rest =>
      match aw_concurrency aw with
      | Some concurrency =>
          result_bind (resolveConcurrency name (Some concurrency)) (fun strategy =>
            resolve_strategies rest (mset name strategy strategies))
      | None => resolve_strategies rest strategies
      end
  end.

Definition resolve_concurrency_strategy (aggregates : aggregates_wiring) : result (ConcurrencyStrategy W Tx) :=
  match aggregates with
  | PerAggregateWirings ws =>
      result_bind (resolve_strategies ws empty) (fun strategies =>
        let defaultStrategy := OptimisticConcurrencyStrategy 0 in
        Ok (if (0 <? length strategies)%nat then PerAggregateConcurrencyStrategy strategies defaultStrategy
            else defaultStrategy))
  | GlobalWiring w =>
      resolveConcurrency "(global)" (match w with Some aw => aw_concurrency aw | None => None end)
  end.

(** ** Stores that default to the adapter's (steps 5 to 5.8b) *)

(** An explicit factory first, the adapter's store next; [None]: neither. *)
Definition resolve_store {A} (explicit : option (M W A)) (provided : option A) : M W (option A) :=
  match explicit, provided with
  | Some f, _ => store <- f ;; ret (Some store)
  | None, Some store => ret (Some store)
  | None, None => ret None
  end.

Definition resolve_saga_persistence (hasSagas : bool) (explicit : option (M W (SagaPersistence W)))
    (in_memory_sagas : SagaPersistence W) : M W (option (SagaPersistence W)) :=
  if hasSagas then
    store <- resolve_store explicit (from_adapter ad_sagaPersistence adapter) ;;
    ret (Some (or_default store in_memory_sagas))
  else ret None.

Definition resolve_unit_of_work (explicit : option (M W (list (operation W Tx) -> M W unit)))
  : M W (list (operation W Tx) -> M W unit) :=
  run <- resolve_store explicit (from_adapter ad_run_commit adapter) ;;
  ret (or_default run run_in_memory).

Definition resolve_idempotency (explicit : option (M W (IdempotencyStore W))) : M W (option (IdempotencyStore W)) :=
  resolve_store explicit (from_adapter ad_idempotencyStore adapter).

Definition resolve_outbox (explicit : option (M W (OutboxStore W))) : M W (option (OutboxStore W)) :=
  resolve_store explicit (from_adapter ad_outboxStore adapter).
End wiring.
Arguments aggregates_wiring : clear implicits.

(** ** What the resolution guarantees *)

(** The wiring of the aggregate names its persistence as an object. *)
Definition wired_object {W} (ws : jsmap (AggregateWiring W)) (name : string) : option (PersistenceConfiguration W) :=
  match mget name ws with
  | Some aw => match aw_persistence aw with Some (PersistenceObject p) => Some p | _ => None end
  | None => None
  end.

Section resolution.
Context {W Tx : Type} (adapter : option (PersistenceAdapter W Tx)) (in_memory : PersistenceConfiguration W).
Context (ws : jsmap (AggregateWiring W)).
Implicit Types resolved : jsmap (PersistenceConfiguration W).

(** Nothing is invented and nothing is forgotten by the loop. *)
Definition resolution_of (names : list string) resolved0 resolved : Prop :=
  wf resolved /\
  (forall n, n ∈ mkeys resolved -> n ∈ mkeys resolved0 \/ n ∈ names) /\
  (forall n, n ∉ names -> mget n resolved = mget n resolved0) /\
  (forall n p, n ∈ names -> wired_object ws n = Some p -> mget n resolved = Some p).

Lemma mkeys_mset k (v : PersistenceConfiguration W) resolved n :
  n ∈ mkeys (mset k v resolved) -> n ∈ mkeys resolved \/ n = k.
Proof.
  destruct (decide (n = k)) as [-> | Hn]; [by right | left].
  destruct (decide (n ∈ mkeys resolved)) as [H' | H']; [done |].
  apply mget_None_keys in H'. exfalso. eapply mget_None_keys; [| exact H].
  by rewrite mget_mset_ne.
Qed.

Lemma resolve_object name aw p :
  mget name ws = Some aw -> wired_object ws name = Some p -> aw_persistence aw = Some (PersistenceObject p).
Proof. unfold wired_object. intros ->. destruct (aw_persistence aw) as [[] |]; congruence. Qed.

Lemma resolve_all_spec names : forall resolved0 w, wf resolved0 ->
  wp (resolve_all adapter ws names resolved0) (fun r _ => resolution_of names resolved0 r) (fun _ _ => True) w.
Proof.
  induction names as [| name names IH]; intros resolved0 w Hwf; cbn [resolve_all].
  { apply wp_ret. split; [done |]. split; [auto |]. split; [done | by intros ? ? ?%elem_of_nil]. }
  apply wp_bind. set (m := resolveAggregatePersistence _ _ _).
  destruct (m w) as [[o | e] w'] eqn:Hm; unfold wp at 1; rewrite Hm; [| done].
  assert (Hobj : forall p, wired_object ws name = Some p -> o = Some p).
  { intros p Hp. subst m. destruct (mget name ws) as [aw |] eqn:Ha; [| by unfold wired_object in Hp; rewrite Ha in Hp].
    rewrite (resolve_object _ _ _ Ha Hp) in Hm. by injection Hm as <- <-. }
  set (r1 := match o with Some p => _ | None => _ end).
  assert (Hr1 : wf r1) by (subst r1; destruct o; [by apply wf_mset | done]).
  eapply wp_mono; [by apply IH | | done].
  intros r _ (Hr & Hin & Hout & Hp). split; [done |]. split; [| split].
  - intros n Hn. destruct (Hin n Hn) as [H | H]; [| right; by apply list_elem_of_further].
    subst r1. destruct o; [apply mkeys_mset in H as [H | ->]; [by left | right; apply list_elem_of_here] | by left].
  - intros n [Hne Hn]%not_elem_of_cons. rewrite (Hout n Hn). subst r1. destruct o; [by apply mget_mset_ne | done].
  - intros n p Hn Hw. destruct (decide (n ∈ names)) as [Hi | Hi]; [by apply Hp |].
    apply elem_of_cons in Hn as [-> | Hn]; [| done].
    rewrite (Hout name Hi). subst r1. rewrite (Hobj p Hw). apply mget_mset_eq.
Qed.

Lemma fill_missing missing : forall resolved n,
  (n ∈ missing -> mget n (fold_left (fun m name => mset name in_memory m) missing resolved) = Some in_memory) /\
  (n ∉ missing -> mget n (fold_left (fun m name => mset name in_memory m) missing resolved) = mget n resolved).
Proof.
  induction missing as [| x missing IH]; intros resolved n; cbn [fold_left].
  { split; [by intros ?%elem_of_nil | done]. }
  destruct (IH (mset x in_memory resolved) n) as [H1 H2]. split.
  - intros Hn. destruct (decide (n ∈ missing)) as [Hi | Hi]; [by apply H1 |].
    apply elem_of_cons in Hn as [-> | Hn]; [| done]. rewrite (H2 Hi). apply mget_mset_eq.
  - intros [Hne Hi]%not_elem_of_cons. rewrite (H2 Hi). by apply mget_mset_ne.
Qed.

Lemma elem_missing names resolved n : n ∈ missing_names names resolved <-> n ∈ names /\ mget n resolved = None.
Proof.
  unfold missing_names. rewrite list_elem_of_In, filter_In, <- list_elem_of_In.
  unfold mhas. destruct (mget n resolved); simpl; naive_solver.
Qed.

(** A name without an entry means that there are fewer entries than names. *)
Lemma missing_fewer names resolved n :
  wf resolved -> (forall k, k ∈ mkeys resolved -> k ∈ names) -> n ∈ missing_names names resolved ->
  (length resolved < length names)%nat.
Proof.
  intros Hwf Hin [Hn Hnone]%elem_missing.
  assert (Hle : (length (n :: mkeys resolved) <= length names)%nat).
  { apply NoDup_incl_length.
    - apply NoDup_ListNoDup, NoDup_cons. split; [by apply mget_None_keys | exact Hwf].
    - intros k Hk. apply list_elem_of_In. apply list_elem_of_In, elem_of_cons in Hk as [-> | Hk]; auto. }
  unfold mkeys in Hle. simpl in Hle. rewrite length_map in Hle. lia.
Qed.

Lemma per_aggregate_spec names w :
  wp (resolve_per_aggregate adapter in_memory ws names)
     (fun r _ => forall n, n ∈ names ->
        (exists p, r n = Ok p) /\ (forall p, wired_object ws n = Some p -> r n = Ok p))
     (fun _ _ => True) w.
Proof.
  unfold resolve_per_aggregate. destruct (List.find _ _); [done |].
  apply wp_bind. eapply wp_mono; [apply resolve_all_spec, NoDup_nil_2 | | done].
  intros resolved w1 (Hwf & Hin & _ & Hobj).
  assert (Hin' : forall k, k ∈ mkeys resolved -> k ∈ names).
  { intros k Hk. by destruct (Hin k Hk) as [H%elem_of_nil |]. }
  assert (Hmiss : forall n, n ∈ names -> n ∉ missing_names names resolved -> exists p, mget n resolved = Some p).
  { intros n Hn Hm. rewrite elem_missing in Hm. destruct (mget n resolved); [eauto | by destruct Hm]. }
  destruct (Nat.ltb_spec 0 (length resolved)) as [Hpos | Hz].
  2: { apply wp_ret. intros n Hn. split; [by eexists |]. intros p Hp.
       specialize (Hobj n p Hn Hp). destruct resolved; [done | simpl in Hz; lia]. }
  destruct (missing_names names resolved) as [| m0 missing] eqn:Hms.
  - apply wp_ret. intros n Hn. destruct (Hmiss n Hn) as [p Hp]; [apply not_elem_of_nil |].
    unfold PerAggregatePersistenceResolver. rewrite Hp. split; [by eexists |].
    intros p' Hp'. specialize (Hobj n p' Hn Hp'). congruence.
  - assert (Hlt : (length resolved < length names)%nat)
      by (eapply missing_fewer; [exact Hwf | exact Hin' | rewrite Hms; apply list_elem_of_here]).
    apply Nat.ltb_lt in Hlt. rewrite Hlt. cbn [length Nat.ltb Nat.leb andb].
    destruct adapter as [ad |]; [| done]. apply wp_ret. intros n Hn. unfold PerAggregatePersistenceResolver.
    destruct (fill_missing (m0 :: missing) resolved n) as [H1 H2].
    destruct (decide (n ∈ m0 :: missing)) as [Hi | Hi].
    + rewrite (H1 Hi). split; [by eexists |]. intros p Hp. specialize (Hobj n p Hn Hp).
      rewrite <- Hms, elem_missing in Hi. destruct Hi. congruence.
    + rewrite (H2 Hi). destruct (Hmiss n Hn Hi) as [p Hp]. rewrite Hp. split; [by eexists |].
      intros p' Hp'. specialize (Hobj n p' Hn Hp'). congruence.
Qed.

Lemma find_unknown names n :
  n ∈ mkeys ws -> n ∉ names ->
  exists k, k ∈ mkeys ws /\ k ∉ names /\
    List.find (fun name => negb (existsb (String.eqb name) names)) (mkeys ws) = Some k.
Proof.
  intros Hk Hn.
  assert (Hex : forall x, existsb (String.eqb x) names = true <-> x ∈ names).
  { intros x. rewrite existsb_exists, list_elem_of_In.
    split; [intros (y & Hy & ->%String.eqb_eq); done | intros; exists x; by rewrite String.eqb_refl]. }
  destruct (List.find _ _) as [k |] eqn:Hf.
  - apply find_some in Hf as [Hin Hb]. exists k. split; [by apply list_elem_of_In |]. split; [| done].
    intros H%Hex. by rewrite H in Hb.
  - exfalso. eapply find_none in Hf; [| by apply list_elem_of_In].
    apply negb_false_iff, Hex in Hf. done.
Qed.
End resolution.

(** C17. Step 4 of [Domain.init] leaves no aggregate without persistence.  When the
    resolution succeeds, the resolver that the command executor receives answers for
    every registered aggregate (a command never fails with "No persistence
    configured"), and an aggregate whose wiring is a persistence object gets that
    very object, per aggregate or globally.  A per-aggregate wiring that names an
    aggregate the domain does not register is refused before any persistence factory
    has run: the error names it and the world is as it was. *)
Theorem persistence_resolution {W Tx} (adapter : option (PersistenceAdapter W Tx)) in_memory
    (aggregates : aggregates_wiring W) names (w : W) :
  (forall r w', resolve_persistence adapter in_memory aggregates names w = (Ok r, w') ->
     forall n, n ∈ names ->
       (exists p, r n = Ok p) /\
       (forall p, match aggregates with
                  | PerAggregateWirings ws => wired_object ws n = Some p
                  | GlobalWiring gw => exists aw, gw = Some aw /\ aw_persistence aw = Some (PersistenceObject p)
                  end -> r n = Ok p)) /\
  (forall ws n, aggregates = PerAggregateWirings ws -> n ∈ mkeys ws -> n ∉ names ->
     exists k, k ∈ mkeys ws /\ k ∉ names /\
       resolve_persistence adapter in_memory aggregates names w = (Err (unknown_aggregate k names), w)).
Proof.
  split.
  - intros r w' Hr n Hn. destruct aggregates as [gw | ws]; cbn [resolve_persistence] in Hr.
    + unfold resolve_global in Hr. apply bind_inv_ok in Hr as (o & w1 & Ho & Hr). injection Hr as <- <-.
      split; [by eexists |]. intros p (aw & -> & Hp). rewrite Hp in Ho. by injection Ho as <- _.
    + exact (wp_ok _ _ _ _ _ _ Hr (per_aggregate_spec adapter in_memory ws names w) n Hn).
  - intros ws n -> Hk Hn. destruct (find_unknown ws names n Hk Hn) as (k & Hk' & Hn' & Hf).
    exists k. split; [done |]. split; [done |].
    cbn [resolve_persistence]. unfold resolve_per_aggregate. by rewrite Hf.
Qed.

(** Two aggregates, one wired with an object: with an adapter the other one falls back
    to the in-memory persistence, and a wiring for a third name is refused. *)
Definition wiring_memory : PersistenceConfiguration nat :=
  StateStored {| ss_save := fun _ _ _ _ _ => ret tt; ss_load := fun _ _ => ret None |}.
Definition wiring_custom : PersistenceConfiguration nat :=
  StateStored {| ss_save := fun _ _ _ _ _ => modify Datatypes.S; ss_load := fun _ _ => ret None |}.
Definition wiring_adapter : PersistenceAdapter nat unit :=
  {| ad_eventSourcedPersistence := None; ad_stateStoredPersistence := None; ad_sagaPersistence := None;
     ad_snapshotStore := None; ad_run_commit := None; ad_aggregateLocker := None;
     ad_idempotencyStore := None; ad_outboxStore := None; ad_init := None; ad_close := None |}.
Definition wiring_of (name : string) : aggregates_wiring nat :=
  PerAggregateWirings [(name, {| aw_persistence := Some (PersistenceObject wiring_custom);
                                 aw_concurrency := None; aw_snapshots := None |})].

Lemma persistence_resolution_witness :
  (exists r, resolve_persistence (Some wiring_adapter) wiring_memory (wiring_of "Order") ["Cart"; "Order"] 0%nat
               = (Ok r, 0%nat) /\
     r "Order" = Ok wiring_custom /\ (exists p, r "Cart" = Ok p) /\ r "Cart" = Ok wiring_memory) /\
  (exists k, k ∈ ["Payment"] /\ k ∉ ["Cart"; "Order"] /\
     resolve_persistence (Some wiring_adapter) wiring_memory (wiring_of "Payment") ["Cart"; "Order"] 0%nat
       = (Err (unknown_aggregate k ["Cart"; "Order"]), 0%nat)).
Proof.
  split.
  - destruct (persistence_resolution (Some wiring_adapter) wiring_memory (wiring_of "Order") ["Cart"; "Order"] 0%nat)
      as [H _].
    eexists. split; [reflexivity |].
    split; [apply (H _ _ eq_refl "Order"); [by apply list_elem_of_further, list_elem_of_here | reflexivity] |].
    split; [apply (H _ _ eq_refl "Cart"), list_elem_of_here | reflexivity].
  - apply (proj2 (persistence_resolution (Some wiring_adapter) wiring_memory (wiring_of "Payment")
             ["Cart"; "Order"] 0%nat) _ "Payment" eq_refl).
    + apply list_elem_of_here.
    + by apply (bool_decide_unpack _).
Defined.
