(* ===== verification/Init.v ===== *)
(** Initialisation: the part of [Domain.init] ([engine/src/domain.ts]) that connects
    the definition of a domain to its buses: the view stores of the projections
    (steps 5.9 and 5.7b), the command and query handlers (steps 6 to 9), the
    subscriptions of projections, sagas and standalone handlers (steps 10 to 12),
    and the components that shutdown closes (step 13).  The buses are the in-process
    ones of [Buses.v]; a closure given to the event bus is named by its number in
    the list of the closures created so far. *)
From S2P Require Import Prelude JsMap CoreTypes Host Stores UnitOfWork Concurrency World Buses Projection Domain.

(** ** The definition of a domain ([core/src/ddd/domain-definition.ts]) *)

(** A query handler of a projection: the payload, and the view store that is merged
    into its infrastructure when there is one. *)
Definition projection_query_handler (W Tx : Type) : Type := value -> option (ViewStore W) -> M (Exec W Tx) value.

Record ProjectionDefinition (W Tx : Type) : Type := {
  pd_projection : Projection W;
  pd_queryHandlers : jsmap (option (projection_query_handler W Tx));
  pd_viewStore : option (ViewStoreFactory W Tx)
}.
Arguments pd_projection {W Tx} _.
Arguments pd_queryHandlers {W Tx} _.
Arguments pd_viewStore {W Tx} _.

(** A handler that is present but [undefined] is [None]. *)
Record DomainDefinition (W Tx : Type) : Type := {
  df_aggregates : jsmap (Aggregate W);
  df_standaloneCommandHandlers : option (jsmap (option (command -> M (Exec W Tx) unit)));
  df_projections : jsmap (ProjectionDefinition W Tx);
  df_standaloneQueryHandlers : option (jsmap (option (value -> M (Exec W Tx) value)));
  df_sagas : option (jsmap (Saga W));
  df_standaloneEventHandlers : option (jsmap (option (event -> M (Exec W Tx) unit)))
}.
Arguments df_aggregates {W Tx} _.
Arguments df_standaloneCommandHandlers {W Tx} _.
Arguments df_projections {W Tx} _.
Arguments df_standaloneQueryHandlers {W Tx} _.
Arguments df_sagas {W Tx} _.
Arguments df_standaloneEventHandlers {W Tx} _.

(** ** View stores (steps 5.9 and 5.7b) *)

Record ResolvedProjections (W Tx : Type) : Type := {
  rp_viewStores : jsmap (ViewStore W);
  rp_factories : jsmap (ViewStoreFactory W Tx);
  rp_projections : jsmap (Projection W)
}.
Arguments rp_viewStores {W Tx} _.
Arguments rp_factories {W Tx} _.
Arguments rp_projections {W Tx} _.

Definition unwired_strong (name : string) : js_error :=
  PlainError (String.append "Projection " (String.append (quoted name)
    (String.append " uses strong consistency but has no viewStore configured. Set DomainWiring.projections["
    (String.append (quoted name) "].viewStore.")))).

Section views.
Context {W Tx : Type} (wiring : jsmap (ViewStoreFactory W Tx)).

(** [wiringViewStore?.viewStore ?? projection.viewStore] *)
Definition projection_factory (name : string) (pd : ProjectionDefinition W Tx) : option (ViewStoreFactory W Tx) :=
  match mget name wiring with Some f => Some f | None => pd_viewStore pd end.

Definition resolve_projection (name : string) (pd : ProjectionDefinition W Tx) (r : ResolvedProjections W Tx)
  : ResolvedProjections W Tx :=
  match projection_factory name pd with
  | Some factory =>
      {| rp_viewStores := mset name (factory None) (rp_viewStores r);
         rp_factories := mset name factory (rp_factories r);
         rp_projections := mset name (augment name (pd_projection pd)) (rp_projections r) |}
  | None =>
      {| rp_viewStores := rp_viewStores r; rp_factories := rp_factories r;
         rp_projections := mset name (pd_projection pd) (rp_projections r) |}
  end.

Definition resolve_views (projections : jsmap (ProjectionDefinition W Tx)) : ResolvedProjections W Tx :=
  fold_left (fun r '(name, pd) => resolve_projection name pd r) projections
    {| rp_viewStores := empty; rp_factories := empty; rp_projections := empty |}.

(** The first strongly consistent projection without a view store. *)
Definition find_unwired_strong (r : ResolvedProjections W Tx) : option string :=
  option_map fst (List.find (fun '(name, p) =>
    negb (mhas name (rp_factories r)) &&
    match pr_consistency p with Strong => true | Eventual => false end) (rp_projections r)).

Definition resolve_projections (projections : jsmap (ProjectionDefinition W Tx)) : result (ResolvedProjections W Tx) :=
  let r := resolve_views projections in
  match find_unwired_strong r with
  | Some name => Err (unwired_strong name)
  | None => Ok r
  end.

(** The projections that [onEventsProduced] maintains (step 5.10). *)
Definition strongProjections (r : ResolvedProjections W Tx) : list (string * Projection W) :=
  List.filter (fun '(name, p) =>
    match pr_consistency p with Strong => true | Eventual => false end && mhas name (rp_factories r))
    (rp_projections r).
End views.

(** ** Registration (steps 6 to 12) *)

(** The three buses, the closures handed to the event bus, and the registry of the
    projections' subscriptions. *)
Record Registry (W Tx : Type) : Type := {
  rg_commands : @CommandBus.handlers (Exec W Tx);
  rg_queries : @QueryBus.handlers (Exec W Tx);
  rg_bus : EventBus.bus;
  rg_closures : list (event -> M (Exec W Tx) unit);
  rg_projectionSubscriptions : jsmap (jsmap nat)
}.
Arguments rg_commands {W Tx} _.
Arguments rg_queries {W Tx} _.
Arguments rg_bus {W Tx} _.
Arguments rg_closures {W Tx} _.
Arguments rg_projectionSubscriptions {W Tx} _.

Section registration.
Context {W Tx : Type}.
Implicit Types g : Registry W Tx.

Definition fresh_registry : Registry W Tx :=
  {| rg_commands := empty; rg_queries := empty; rg_bus := EventBus.new_bus; rg_closures := [];
     rg_projectionSubscriptions := empty |}.

Definition commands_of : lens (Registry W Tx) (@CommandBus.handlers (Exec W Tx)) := Lens rg_commands (fun x g =>
  {| rg_commands := x; rg_queries := rg_queries g; rg_bus := rg_bus g; rg_closures := rg_closures g;
     rg_projectionSubscriptions := rg_projectionSubscriptions g |}).
Definition queries_of : lens (Registry W Tx) (@QueryBus.handlers (Exec W Tx)) := Lens rg_queries (fun x g =>
  {| rg_commands := rg_commands g; rg_queries := x; rg_bus := rg_bus g; rg_closures := rg_closures g;
     rg_projectionSubscriptions := rg_projectionSubscriptions g |}).
Definition bus_of : lens (Registry W Tx) EventBus.bus := Lens rg_bus (fun x g =>
  {| rg_commands := rg_commands g; rg_queries := rg_queries g; rg_bus := x; rg_closures := rg_closures g;
     rg_projectionSubscriptions := rg_projectionSubscriptions g |}).

(** A new function value: its identity is its number. *)
Definition closure (f : event -> M (Exec W Tx) unit) : M (Registry W Tx) nat :=
  fun g => (Ok (length (rg_closures g)),
    {| rg_commands := rg_commands g; rg_queries := rg_queries g; rg_bus := rg_bus g;
       rg_closures := rg_closures g ++ [f]; rg_projectionSubscriptions := rg_projectionSubscriptions g |}).

Definition subscribeToEvent (eventName : string) (handler : nat) : M (Registry W Tx) unit :=
  zoom bus_of (EventBus.on eventName handler).

(** [this._projectionSubscriptions], the inner map created on first use. *)
Definition record_subscription (projectionName eventName : string) (handler : nat) : M (Registry W Tx) unit :=
  modify (fun g =>
    let inner := or_default (mget projectionName (rg_projectionSubscriptions g)) empty in
    {| rg_commands := rg_commands g; rg_queries := rg_queries g; rg_bus := rg_bus g; rg_closures := rg_closures g;
       rg_projectionSubscriptions :=
         mset projectionName (mset eventName handler inner) (rg_projectionSubscriptions g) |}).

Context (executor : string -> Aggregate W -> command -> M (Exec W Tx) unit)
  (sagaExecutor : option (string -> Saga W -> event -> M (Exec W Tx) unit)).

(** Step 6. *)
Definition register_aggregates (aggregates : jsmap (Aggregate W)) : M (Registry W Tx) unit :=
  for_each aggregates (fun '(aggregateName, aggregate) =>
    for_each (mkeys (ag_decide aggregate)) (fun commandName =>
      zoom commands_of (CommandBus.register commandName (executor aggregateName aggregate)))).

(** Step 7. *)
Definition register_standalone_commands (hs : option (jsmap (option (command -> M (Exec W Tx) unit))))
  : M (Registry W Tx) unit :=
  for_each (or_default hs []) (fun '(commandName, handler) =>
    match handler with
    | Some h => zoom commands_of (CommandBus.register commandName h)
    | None => ret tt
    end).

(** Step 8. *)
Definition register_projection_queries (r : ResolvedProjections W Tx)
    (projections : jsmap (ProjectionDefinition W Tx)) : M (Registry W Tx) unit :=
  for_each projections (fun '(projectionName, pd) =>
    let viewStoreInstance := mget projectionName (rp_viewStores r) in
    for_each (pd_queryHandlers pd) (fun '(queryName, handler) =>
      match handler with
      | Some h => zoom queries_of (QueryBus.register queryName (fun payload => h payload viewStoreInstance))
      | None => ret tt
      end)).

(** Step 9. *)
Definition register_standalone_queries (hs : option (jsmap (option (value -> M (Exec W Tx) value))))
  : M (Registry W Tx) unit :=
  for_each (or_default hs []) (fun '(queryName, handler) =>
    match handler with
    | Some h => zoom queries_of (QueryBus.register queryName h)
    | None => ret tt
    end).

(** Step 10: one handler of an eventually consistent projection. *)
Definition subscribe_handler (projectionName : string) (views : ViewStore W) (p : Projection W)
    (entry : string * ProjectionEventHandler W) : M (Registry W Tx) unit :=
  let '(eventName, h) := entry in
  match ph_id h with
  | None => ret tt
  | Some id =>
      handler <- closure (fun e => world_op (boundHandler views p h id e)) ;;
      (record_subscription projectionName eventName handler ;;;
       subscribeToEvent eventName handler)
  end.

Definition subscribe_projections (r : ResolvedProjections W Tx) : M (Registry W Tx) unit :=
  for_each (rp_projections r) (fun '(projectionName, p) =>
    match pr_consistency p, mget projectionName (rp_viewStores r) with
    | Strong, _ | _, None => ret tt
    | Eventual, Some views => for_each (pr_on p) (subscribe_handler projectionName views p)
    end).

(** Step 11. *)
Definition subscribe_sagas (sagas : option (jsmap (Saga W))) : M (Registry W Tx) unit :=
  match sagas, sagaExecutor with
  | Some sagas, Some execute =>
      for_each sagas (fun '(sagaName, saga) =>
        for_each (mkeys (sg_on saga)) (fun eventName =>
          handler <- closure (execute sagaName saga) ;; subscribeToEvent eventName handler))
  | _, _ => ret tt
  end.

(** Step 12. *)
Definition subscribe_standalone (hs : option (jsmap (option (event -> M (Exec W Tx) unit)))) : M (Registry W Tx) unit :=
  for_each (or_default hs []) (fun '(eventName, handler) =>
    match handler with
    | Some h => handler <- closure h ;; subscribeToEvent eventName handler
    | None => ret tt
    end).

Definition register_handlers (df : DomainDefinition W Tx) (r : ResolvedProjections W Tx) : M (Registry W Tx) unit :=
  register_aggregates (df_aggregates df) ;;;
  (register_standalone_commands (df_standaloneCommandHandlers df) ;;;
  (register_projection_queries r (df_projections df) ;;;
  (register_standalone_queries (df_standaloneQueryHandlers df) ;;;
  (subscribe_projections r ;;;
  (subscribe_sagas (df_sagas df) ;;;
   subscribe_standalone (df_standaloneEventHandlers df)))))).
End registration.

(** ** What shutdown will close (step 13) *)

(** In discovery order; [close_phases] goes through the closeable ones in reverse. *)
Definition collect_components {A} (adapter : option A) (customInfra : list A) (commandBus eventBus queryBus : A)
    (sagaPersistence outboxStore idempotencyStore : option A) : list A :=
  let optional (o : option A) := match o with Some a => [a] | None => [] end in
  optional adapter ++ customInfra ++ [commandBus; eventBus; queryBus] ++
  optional sagaPersistence ++ optional outboxStore ++ optional idempotencyStore.

(** ** What a registration amounts to, as lists *)

Section plans.
Context {W Tx : Type} (executor : string -> Aggregate W -> command -> M (Exec W Tx) unit)
  (sagaExecutor : option (string -> Saga W -> event -> M (Exec W Tx) unit)).

(** The handlers that are present. *)
Definition present {A} (hs : option (jsmap (option A))) : jsmap A :=
  flat_map (fun '(n, h) => match h with Some h => [(n, h)] | None => [] end) (or_default hs []).

Definition aggregate_entries (aggregates : jsmap (Aggregate W)) : jsmap (command -> M (Exec W Tx) unit) :=
  flat_map (fun '(aggregateName, aggregate) =>
    map (fun commandName => (commandName, executor aggregateName aggregate)) (mkeys (ag_decide aggregate))) aggregates.

Definition command_entries (df : DomainDefinition W Tx) : jsmap (command -> M (Exec W Tx) unit) :=
  aggregate_entries (df_aggregates df) ++ present (df_standaloneCommandHandlers df).

Definition query_entries (df : DomainDefinition W Tx) (r : ResolvedProjections W Tx) : jsmap (value -> M (Exec W Tx) value) :=
  flat_map (fun '(projectionName, pd) =>
    map (fun '(queryName, h) => (queryName, fun payload => h payload (mget projectionName (rp_viewStores r))))
      (present (Some (pd_queryHandlers pd)))) (df_projections df) ++
  present (df_standaloneQueryHandlers df).

(** A subscription: of which projection, to which event, which function. *)
Record subscription : Type := {
  su_projection : option string;
  su_event : string;
  su_run : event -> M (Exec W Tx) unit
}.

Definition plan_of (r : ResolvedProjections W Tx) (projectionName : string) (p : Projection W) : list subscription :=
  match pr_consistency p, mget projectionName (rp_viewStores r) with
  | Strong, _ | _, None => []
  | Eventual, Some views =>
      map (fun '(eventName, f) => {| su_projection := Some projectionName; su_event := eventName;
                                     su_run := fun e => world_op (f e) |}) (subscriptions views p)
  end.

Definition projection_plan (r : ResolvedProjections W Tx) : list subscription :=
  flat_map (fun '(projectionName, p) => plan_of r projectionName p) (rp_projections r).

Definition saga_plan (sagas : option (jsmap (Saga W))) : list subscription :=
  match sagas, sagaExecutor with
  | Some sagas, Some execute =>
      flat_map (fun '(sagaName, saga) =>
        map (fun eventName => {| su_projection := None; su_event := eventName; su_run := execute sagaName saga |})
          (mkeys (sg_on saga))) sagas
  | _, _ => []
  end.

Definition standalone_plan (hs : option (jsmap (option (event -> M (Exec W Tx) unit)))) : list subscription :=
  map (fun '(eventName, h) => {| su_projection := None; su_event := eventName; su_run := h |}) (present hs).

Definition event_plan (df : DomainDefinition W Tx) (r : ResolvedProjections W Tx) : list subscription :=
  projection_plan r ++ saga_plan (df_sagas df) ++ standalone_plan (df_standaloneEventHandlers df).

(** One subscription, as steps 10 to 12 make it. *)
Definition subscribe_one (x : subscription) : M (Registry W Tx) unit :=
  handler <- closure (su_run x) ;;
  (match su_projection x with
   | Some projectionName => record_subscription projectionName (su_event x) handler
   | None => ret tt
   end ;;;
   subscribeToEvent (su_event x) handler).
End plans.
Arguments subscription : clear implicits.

Lemma elem_present {A} n (h : A) hs : (n, Some h) ∈ or_default hs [] -> In (n, h) (present hs).
Proof.
  intros H. unfold present. apply in_flat_map. exists (n, Some h). split; [by apply list_elem_of_In | by left].
Qed.

(** ** The loops are those lists *)

Section loops.
Context {W Tx : Type} (executor : string -> Aggregate W -> command -> M (Exec W Tx) unit)
  (sagaExecutor : option (string -> Saga W -> event -> M (Exec W Tx) unit)).

Lemma register_aggregates_list aggregates :
  register_aggregates executor aggregates
  ≈ for_each (aggregate_entries executor aggregates) (fun '(n, h) => zoom commands_of (CommandBus.register n h)).
Proof.
  unfold register_aggregates, aggregate_entries. rewrite for_each_flat_map.
  apply for_each_ext. intros [name ag] _. by rewrite for_each_map.
Qed.

Lemma for_each_present {A} (hs : option (jsmap (option A))) (f : string * A -> M (Registry W Tx) unit) :
  for_each (present hs) f
  ≈ for_each (or_default hs []) (fun '(n, h) => match h with Some h => f (n, h) | None => ret tt end).
Proof.
  unfold present. rewrite for_each_flat_map. apply for_each_ext. intros [n [h |]] _; [| done].
  apply for_each_one.
Qed.

Lemma register_standalone_commands_list hs :
  register_standalone_commands hs
  ≈ for_each (present hs) (fun '(n, h) => zoom (commands_of (W := W) (Tx := Tx)) (CommandBus.register n h)).
Proof. by rewrite for_each_present. Qed.

Lemma register_queries_list (df : DomainDefinition W Tx) r :
  (register_projection_queries r (df_projections df) ;;;
   register_standalone_queries (df_standaloneQueryHandlers df))
  ≈ for_each (query_entries df r) (fun '(n, h) => zoom queries_of (QueryBus.register n h)).
Proof.
  unfold query_entries. symmetry. etransitivity; [apply for_each_app |].
  apply bind_proper; [| intros _; apply for_each_present].
  etransitivity; [apply for_each_flat_map |]. apply for_each_ext. intros [name pd] _.
  etransitivity; [apply for_each_map |]. etransitivity; [apply for_each_present |].
  apply for_each_ext. by intros [n [h |]] _.
Qed.

Lemma subscribe_projections_list (r : ResolvedProjections W Tx) :
  subscribe_projections r ≈ for_each (projection_plan r) subscribe_one.
Proof.
  unfold subscribe_projections, projection_plan. rewrite for_each_flat_map.
  apply for_each_ext. intros [name p] _. unfold plan_of. destruct (pr_consistency p); [| done].
  destruct (mget name (rp_viewStores r)) as [views |]; [| done].
  rewrite for_each_map. unfold subscriptions. rewrite for_each_flat_map.
  apply for_each_ext. intros [n h] _. unfold subscribe_handler. destruct (ph_id h) as [id |]; [| done].
  by rewrite for_each_one.
Qed.

Lemma subscribe_sagas_list sagas :
  subscribe_sagas sagaExecutor sagas ≈ for_each (saga_plan sagaExecutor sagas) subscribe_one.
Proof.
  unfold subscribe_sagas, saga_plan. destruct sagas as [sagas |], sagaExecutor as [execute |]; [| done..].
  rewrite for_each_flat_map. apply for_each_ext. intros [name saga] _. by rewrite for_each_map.
Qed.

Lemma subscribe_standalone_list hs :
  subscribe_standalone hs ≈ for_each (standalone_plan (W := W) (Tx := Tx) hs) subscribe_one.
Proof.
  unfold subscribe_standalone, standalone_plan. rewrite for_each_map, for_each_present.
  apply for_each_ext. by intros [n [h |]] _.
Qed.
End loops.

(** ** Exclusive registration *)

Section exclusive.
Context {V : Type} (register : string -> V -> M (jsmap V) unit) (taken : string -> js_error).
Context (register_run : forall n v m,
  register n v m = if mhas n m then (Err (taken n), m) else (Ok tt, mset n v m)).
Implicit Types m l : jsmap V.

Lemma mhas_elem n m : mhas n m = true <-> n ∈ mkeys m.
Proof.
  unfold mhas. destruct (mget n m) as [v |] eqn:E.
  - split; [intros _ | done]. destruct (decide (n ∈ mkeys m)) as [H | H]; [done |].
    apply mget_None_keys in H. congruence.
  - split; [done |]. intros H. by apply mget_None_keys in E.
Qed.

(** Names that are pairwise distinct are all registered, in order; otherwise the
    first name that is taken is refused. *)
Lemma register_all l : forall m, wf m ->
  (NoDup (mkeys m ++ mkeys l) -> for_each l (fun '(n, v) => register n v) m = (Ok tt, (m ++ l)%list)) /\
  (~ NoDup (mkeys m ++ mkeys l) -> exists n m', first_repeat (mkeys m ++ mkeys l) n /\
     for_each l (fun '(n, v) => register n v) m = (Err (taken n), m')).
Proof.
  induction l as [| [n v] l IH]; intros m Hwf; cbn [for_each mkeys map fst].
  { rewrite !app_nil_r. by split. }
  destruct (mhas n m) eqn:Hn.
  - split.
    + intros Hnd. exfalso. apply mhas_elem in Hn. apply NoDup_app in Hnd as (_ & H & _).
      by apply (H n Hn), list_elem_of_here.
    + intros _. exists n, m. split; [exists (mkeys m), (map fst l); by apply mhas_elem in Hn |].
      unfold bind. by rewrite register_run, Hn.
  - assert (Habs : mget n m = None) by (unfold mhas in Hn; by destruct (mget n m)).
    rewrite (bind_ok _ _ m tt (m ++ [(n, v)])) by (by rewrite register_run, Hn, mset_absent).
    destruct (IH (m ++ [(n, v)])%list) as [H1 H2]; [rewrite <- mset_absent by done; by apply wf_mset |].
    assert (Hk : mkeys (m ++ [(n, v)])%list ++ mkeys l = mkeys m ++ n :: map fst l)
      by (unfold mkeys; rewrite map_app, <- app_assoc; done).
    rewrite Hk in H1, H2. split.
    + intros Hnd. rewrite (H1 Hnd). by rewrite <- app_assoc.
    + intros Hnd. destruct (H2 Hnd) as (n' & m' & Hin & Hr). exists n', m'.
      by split.
Qed.

Lemma mget_app n m l : mget n (m ++ l) = match mget n m with Some v => Some v | None => mget n l end.
Proof. induction m as [| [k v] m IH]; [done |]. cbn [app mget]. by destruct (String.eqb n k). Qed.
End exclusive.

(** ** The outcome of a registration *)

Section outcome.
Context {W Tx : Type} (executor : string -> Aggregate W -> command -> M (Exec W Tx) unit)
  (sagaExecutor : option (string -> Saga W -> event -> M (Exec W Tx) unit)).
Implicit Types (g : Registry W Tx) (plan : list (subscription W Tx)).

#[export] Instance commands_of_laws : LensLaws (@commands_of W Tx).
Proof. by split; intros; repeat match goal with g : Registry _ _ |- _ => destruct g end. Qed.
#[export] Instance queries_of_laws : LensLaws (@queries_of W Tx).
Proof. by split; intros; repeat match goal with g : Registry _ _ |- _ => destruct g end. Qed.

Lemma register_commands_list (df : DomainDefinition W Tx) :
  (register_aggregates executor (df_aggregates df) ;;;
   register_standalone_commands (df_standaloneCommandHandlers df))
  ≈ zoom commands_of (for_each (command_entries executor df) (fun '(n, h) => CommandBus.register n h)).
Proof.
  symmetry. etransitivity; [symmetry; apply (for_each_zoom_pairs commands_of) |].
  etransitivity; [apply for_each_app |]. apply bind_proper; [symmetry; apply register_aggregates_list |].
  intros _. symmetry. apply register_standalone_commands_list.
Qed.

Lemma subscribe_events_list (df : DomainDefinition W Tx) r :
  (subscribe_projections r ;;;
   (subscribe_sagas sagaExecutor (df_sagas df) ;;; subscribe_standalone (df_standaloneEventHandlers df)))
  ≈ for_each (event_plan sagaExecutor df r) subscribe_one.
Proof.
  symmetry. etransitivity; [apply for_each_app |]. apply bind_proper; [symmetry; apply subscribe_projections_list |].
  intros _. etransitivity; [apply for_each_app |]. apply bind_proper; [symmetry; apply subscribe_sagas_list |].
  intros _. symmetry. apply subscribe_standalone_list.
Qed.

Lemma register_handlers_list (df : DomainDefinition W Tx) r :
  register_handlers executor sagaExecutor df r
  ≈ (zoom commands_of (for_each (command_entries executor df) (fun '(n, h) => CommandBus.register n h)) ;;;
     (zoom queries_of (for_each (query_entries df r) (fun '(n, h) => QueryBus.register n h)) ;;;
      for_each (event_plan sagaExecutor df r) subscribe_one)).
Proof.
  unfold register_handlers.
  etransitivity; [symmetry; apply bind_assoc |]. apply bind_proper; [apply register_commands_list |]. intros _.
  etransitivity; [symmetry; apply bind_assoc |]. apply bind_proper; [| intros _; apply subscribe_events_list].
  etransitivity; [apply register_queries_list |]. apply (for_each_zoom_pairs queries_of).
Qed.

(** ** The event bus after the subscriptions *)

(** What the registry of a projection's subscriptions holds. *)
Definition inner g (projectionName : string) : jsmap nat :=
  or_default (mget projectionName (rg_projectionSubscriptions g)) empty.

Record events_inv plan g : Prop := {
  ei_bus : EventBus.bus_wf (rg_bus g);
  ei_closures : rg_closures g = map su_run plan;
  ei_members : forall n h, h ∈ EventBus.handlers_of (rg_bus g) n <->
                           exists x, plan !! h = Some x /\ su_event x = n;
  ei_handlers : forall n, map (fun h => plan !! h) (EventBus.handlers_of (rg_bus g) n)
                          = map Some (List.filter (fun x => String.eqb (su_event x) n) plan);
  ei_inner : forall p, wf (inner g p);
  ei_recorded : forall p n h, mget n (inner g p) = Some h ->
                  exists x, plan !! h = Some x /\ su_projection x = Some p /\ su_event x = n;
  ei_all : forall p x, x ∈ plan -> su_projection x = Some p -> is_some (mget (su_event x) (inner g p)) = true
}.

Lemma fresh_inv : events_inv [] fresh_registry.
Proof.
  split; try done.
  - intros n h. cbn. split; [by intros ?%elem_of_nil | by intros (x & ? & _)].
  - intros p. apply NoDup_nil_2.
  - by intros p x ?%elem_of_nil.
Qed.

(** The registry after one subscription, the bus being [b']. *)
Definition after_one (x : subscription W Tx) (b' : EventBus.bus) g : Registry W Tx :=
  {| rg_commands := rg_commands g; rg_queries := rg_queries g; rg_bus := b';
     rg_closures := rg_closures g ++ [su_run x];
     rg_projectionSubscriptions :=
       match su_projection x with
       | Some p => mset p (mset (su_event x) (length (rg_closures g)) (inner g p)) (rg_projectionSubscriptions g)
       | None => rg_projectionSubscriptions g
       end |}.

Lemma inner_after_one x b' g p :
  inner (after_one x b' g) p
  = if decide (su_projection x = Some p) then mset (su_event x) (length (rg_closures g)) (inner g p) else inner g p.
Proof.
  unfold inner at 1, after_one. cbn [rg_projectionSubscriptions].
  destruct (su_projection x) as [q |]; [| done]. rewrite mget_mset.
  destruct (String.eqb_spec p q) as [-> | Hne]; [by rewrite decide_True | by rewrite decide_False by congruence].
Qed.

Lemma lookup_snoc_lt {A} (l : list A) x h : (h < length l)%nat -> (l ++ [x]) !! h = l !! h.
Proof. apply lookup_app_l. Qed.

Lemma lookup_snoc_end {A} (l : list A) (x y : A) h :
  (l ++ [x]) !! h = Some y <-> l !! h = Some y \/ h = length l /\ x = y.
Proof.
  destruct (decide (h < length l)%nat) as [H | H].
  - rewrite lookup_snoc_lt by done. split; [by left | intros [? | [-> _]]; [done | lia]].
  - rewrite lookup_app_r by lia. rewrite (lookup_ge_None_2 l h) by lia.
    split; [| intros [? | [-> ->]]; [done | by rewrite Nat.sub_diag]].
    intros Hs. right. destruct (h - length l)%nat eqn:E; [| done]. injection Hs as ->. split; [lia | done].
Qed.

(** One subscription adds one closure, one handler and one record. *)
Lemma subscribe_one_run plan g x :
  events_inv plan g ->
  exists g', subscribe_one x g = (Ok tt, g') /\ events_inv (plan ++ [x]) g' /\
    rg_commands g' = rg_commands g /\ rg_queries g' = rg_queries g.
Proof.
  intros [Hb Hc Hm Hh Hw Hr Ha]. assert (Hlen : length (rg_closures g) = length plan) by (by rewrite Hc, length_map).
  destruct (EventBus.on_spec (rg_bus g) (su_event x) (length (rg_closures g)) Hb) as (b' & Hon & Hb' & Hhs).
  exists (after_one x b' g). split; [| split; [| by split]].
  { unfold subscribe_one, closure, bind, subscribeToEvent, zoom, after_one, inner.
    destruct (su_projection x); cbn -[EventBus.on]; rewrite Hon; reflexivity. }
  rewrite Hlen in Hhs. split; cbn [rg_bus rg_closures after_one]; [done | by rewrite Hc, map_app | | | | |].
  - intros n h. rewrite Hhs. setoid_rewrite lookup_snoc_end. destruct (String.eqb_spec n (su_event x)) as [-> | Hne].
    + rewrite elem_of_app, list_elem_of_singleton, Hm. naive_solver.
    + rewrite Hm. naive_solver.
  - intros n. rewrite Hhs, List.filter_app. cbn [List.filter]. rewrite (String.eqb_sym (su_event x) n).
    assert (Hold : forall n, map (fun h => (plan ++ [x]) !! h) (EventBus.handlers_of (rg_bus g) n)
                             = map Some (List.filter (fun x => String.eqb (su_event x) n) plan)).
    { intros m. rewrite <- Hh. apply map_ext_in. intros h Hin%list_elem_of_In.
      apply Hm in Hin as (y & Hy & _). apply lookup_snoc_lt. by eapply lookup_lt_Some. }
    destruct (String.eqb_spec n (su_event x)) as [-> | Hne].
    + rewrite !map_app, Hold. cbn [map]. by rewrite (proj2 (lookup_snoc_end plan x x (length plan)) (or_intror (conj eq_refl eq_refl))).
    + rewrite app_nil_r. apply Hold.
  - intros p. rewrite inner_after_one. destruct (decide _); [by apply wf_mset | done].
  - intros p n h. rewrite inner_after_one. setoid_rewrite lookup_snoc_end. destruct (decide _) as [Hp | Hp].
    + rewrite mget_mset, Hlen. destruct (String.eqb_spec n (su_event x)) as [-> | Hne]; [intros [= <-] | intros H%Hr]; naive_solver.
    + intros H%Hr. naive_solver.
  - intros p y. rewrite elem_of_app, list_elem_of_singleton, inner_after_one. intros Hy Hp.
    destruct (decide _) as [Hx | Hx].
    + rewrite mget_mset. destruct (String.eqb_spec (su_event y) (su_event x)) as [E | Hne]; [done |].
      destruct Hy as [Hy | ->]; [by eapply Ha | done].
    + destruct Hy as [Hy | ->]; [by eapply Ha | done].
Qed.

Lemma subscribe_all_run plan : forall done g,
  events_inv done g ->
  exists g', for_each plan subscribe_one g = (Ok tt, g') /\ events_inv (done ++ plan) g' /\
    rg_commands g' = rg_commands g /\ rg_queries g' = rg_queries g.
Proof.
  induction plan as [| x plan IH]; intros done g Hi; cbn [for_each].
  - exists g. by rewrite app_nil_r.
  - destruct (subscribe_one_run done g x Hi) as (g1 & H1 & Hi1 & Hc1 & Hq1). rewrite (bind_ok _ _ _ _ _ H1).
    destruct (IH _ _ Hi1) as (g' & H & Hi' & Hc & Hq). exists g'. rewrite <- app_assoc in Hi'.
    by rewrite Hc, Hq.
Qed.

Definition taken_command (n : string) : js_error :=
  PlainError (String.append "Handler already registered for command: " n).
Definition taken_query (n : string) : js_error :=
  PlainError (String.append "Handler already registered for query: " n).

Definition command_names (df : DomainDefinition W Tx) : list string := mkeys (command_entries executor df).
Definition query_names (df : DomainDefinition W Tx) r : list string := mkeys (query_entries df r).

Lemma register_handlers_run (df : DomainDefinition W Tx) r :
  match register_handlers executor sagaExecutor df r fresh_registry with
  | (Ok _, g) => NoDup (command_names df) /\ NoDup (query_names df r) /\
      rg_commands g = command_entries executor df /\ rg_queries g = query_entries df r /\
      events_inv (event_plan sagaExecutor df r) g
  | (Err e, _) =>
      (exists n, first_repeat (command_names df) n /\ e = taken_command n) \/
      (NoDup (command_names df) /\ exists n, first_repeat (query_names df r) n /\ e = taken_query n)
  end.
Proof.
  rewrite register_handlers_list.
  destruct (register_all CommandBus.register taken_command
    (fun n v m => ltac:(unfold CommandBus.register, bind, gets; by destruct (mhas n m))) 
    (command_entries executor df) empty (NoDup_nil_2)) as [Hc1 Hc2].
  destruct (decide (NoDup (command_names df))) as [Hc | Hc].
  2: { destruct (Hc2 Hc) as (n & m & Hin & He). erewrite bind_err by (apply zoom_run; exact He). left. by exists n. }
  erewrite bind_ok by (apply zoom_run; exact (Hc1 Hc)).
  destruct (register_all QueryBus.register taken_query
    (fun n v m => ltac:(unfold QueryBus.register, bind, gets; by destruct (mhas n m))) 
    (query_entries df r) empty (NoDup_nil_2)) as [Hq1 Hq2].
  destruct (decide (NoDup (query_names df r))) as [Hq | Hq].
  2: { destruct (Hq2 Hq) as (n & m & Hin & He). erewrite bind_err by (apply zoom_run; exact He). right. split; [done |]. by exists n. }
  erewrite bind_ok by (apply zoom_run; exact (Hq1 Hq)).
  match goal with |- context [for_each _ subscribe_one ?g] => set (g0 := g) end.
  destruct (subscribe_all_run (event_plan sagaExecutor df r) [] g0) as (g' & -> & Hi & Hcm & Hqm).
  { destruct fresh_inv as [? ? ? ? ? ? ?]. by split. }
  by rewrite Hcm, Hqm.
Qed.

(** The bus and the domain look for a command in the same place. *)
Lemma mget_aggregate_entries c aggregates :
  mget c (aggregate_entries executor aggregates)
  = match find_aggregate c aggregates with Some (name, ag) => Some (executor name ag) | None => None end.
Proof.
  unfold aggregate_entries. induction aggregates as [| [name ag] rest IH]; [done |].
  cbn [flat_map find_aggregate]. rewrite mget_app, IH.
  assert (Hm : mget c (map (fun n => (n, executor name ag)) (mkeys (ag_decide ag)))
               = if mhas c (ag_decide ag) then Some (executor name ag) else None).
  { unfold mhas. induction (ag_decide ag) as [| [k h] d IHd]; [done |].
    cbn. by destruct (String.eqb c k). }
  rewrite Hm. by destruct (mhas c (ag_decide ag)).
Qed.
End outcome.

(** ** The resolved projections *)

Section resolved.
Context {W Tx : Type} (wiring : jsmap (ViewStoreFactory W Tx)).
Implicit Types (r : ResolvedProjections W Tx) (ps : jsmap (ProjectionDefinition W Tx)).

Definition resolved_at r (name : string) :=
  (mget name (rp_viewStores r), mget name (rp_factories r), mget name (rp_projections r)).

(** What the resolution of one projection should be. *)
Definition expected_at (name : string) (pd : ProjectionDefinition W Tx) :=
  match projection_factory wiring name pd with
  | Some f => (Some (f None), Some f, Some (augment name (pd_projection pd)))
  | None => (None, None, Some (pd_projection pd))
  end.

Lemma resolve_projection_at name pd r n :
  resolved_at r name = (None, None, None) ->
  resolved_at (resolve_projection wiring name pd r) n = if String.eqb n name then expected_at name pd else resolved_at r n.
Proof.
  intros Hn. unfold resolved_at, resolve_projection, expected_at in *. injection Hn as H1 H2 _.
  destruct (projection_factory wiring name pd) as [f |]; cbn; rewrite !mget_mset;
    destruct (String.eqb_spec n name) as [-> |]; try done. by rewrite H1, H2.
Qed.

Lemma resolve_fold ps : forall r name,
  wf ps -> (forall n, n ∈ mkeys ps -> resolved_at r n = (None, None, None)) ->
  resolved_at (fold_left (fun r '(name, pd) => resolve_projection wiring name pd r) ps r) name
  = match mget name ps with Some pd => expected_at name pd | None => resolved_at r name end.
Proof.
  induction ps as [| [k pd] ps IH]; intros r name Hwf Hn; [done |].
  apply NoDup_cons in Hwf as [Hk Hwf]. cbn [fold_left mget].
  assert (Hk0 : resolved_at r k = (None, None, None)) by apply Hn, list_elem_of_here.
  rewrite IH; [| exact Hwf |].
  - rewrite (resolve_projection_at _ _ _ _ Hk0). destruct (String.eqb_spec name k) as [-> | Hne]; [| done].
    by rewrite (proj2 (mget_None_keys k ps) Hk).
  - intros n Hin. rewrite (resolve_projection_at _ _ _ _ Hk0). destruct (String.eqb_spec n k) as [-> | Hne]; [done |].
    by apply Hn, list_elem_of_further.
Qed.

Lemma resolve_views_at ps name :
  wf ps ->
  resolved_at (resolve_views wiring ps) name
  = match mget name ps with Some pd => expected_at name pd | None => (None, None, None) end.
Proof. intros Hwf. unfold resolve_views. by rewrite resolve_fold. Qed.

Lemma resolve_views_wf ps : wf (rp_projections (resolve_views wiring ps)).
Proof.
  unfold resolve_views.
  assert (H : forall r, wf (rp_projections r) ->
    wf (rp_projections (fold_left (fun r '(name, pd) => resolve_projection wiring name pd r) ps r))).
  { induction ps as [| [k pd] ps IH]; intros r Hr; [done |]. cbn [fold_left]. apply IH.
    unfold resolve_projection. by destruct (projection_factory _ _ _); apply wf_mset. }
  apply H, NoDup_nil_2.
Qed.

Definition resolved_as (name : string) (pd : ProjectionDefinition W Tx) : Projection W :=
  match projection_factory wiring name pd with
  | Some _ => augment name (pd_projection pd)
  | None => pd_projection pd
  end.

Lemma resolve_views_list ps :
  wf ps ->
  rp_projections (resolve_views wiring ps)
  = map (fun '(name, pd) => (name, resolved_as name pd)) ps.
Proof.
  intros Hwf. unfold resolve_views.
  assert (H : forall r, NoDup (mkeys (rp_projections r) ++ mkeys ps) ->
    rp_projections (fold_left (fun r '(name, pd) => resolve_projection wiring name pd r) ps r)
    = rp_projections r ++ map (fun '(name, pd) => (name, resolved_as name pd)) ps); [| by apply H].
  clear Hwf. induction ps as [| [k pd] ps IH]; intros r Hr; cbn [fold_left map]; [by rewrite app_nil_r |].
  assert (Hk : mget k (rp_projections r) = None).
  { apply mget_None_keys. intros Hin. apply NoDup_app in Hr as (_ & Hr & _). apply (Hr k Hin), list_elem_of_here. }
  assert (Hp : rp_projections (resolve_projection wiring k pd r) = rp_projections r ++
    [(k, resolved_as k pd)]).
  { unfold resolve_projection, resolved_as. destruct (projection_factory wiring k pd); cbn; by apply mset_absent. }
  rewrite IH; rewrite Hp; [by rewrite <- app_assoc |].
  unfold mkeys in *. rewrite map_app, <- app_assoc. exact Hr.
Qed.

(** A projection that is strongly consistent and has no view store. *)
Definition unwired (x : string * ProjectionDefinition W Tx) : Prop :=
  pr_consistency (pd_projection (snd x)) = Strong /\ mget (fst x) wiring = None /\ pd_viewStore (snd x) = None.

Lemma find_resolved (has : string -> bool) ps :
  option_map fst (List.find (fun '(name, p) => negb (has name) &&
      match pr_consistency p with Strong => true | Eventual => false end)
      (map (fun '(name, pd) => (name, resolved_as name pd)) ps))
  = option_map fst (List.find (fun x => negb (has (fst x)) &&
      match pr_consistency (pd_projection (snd x)) with Strong => true | Eventual => false end) ps).
Proof.
  induction ps as [| [k pd] l IH]; [done |]. cbn [map List.find fst snd].
  replace (pr_consistency (resolved_as k pd)) with (pr_consistency (pd_projection pd))
    by (unfold resolved_as; by destruct (projection_factory wiring k pd)).
  by destruct (_ && _).
Qed.

Lemma resolve_projections_first ps :
  wf ps ->
  match resolve_projections wiring ps with
  | Ok r => Forall (fun x => ~ unwired x) ps
  | Err e => exists name pd, first_in unwired ps (name, pd) /\ e = unwired_strong name
  end.
Proof.
  intros Hwf. unfold resolve_projections, find_unwired_strong. rewrite resolve_views_list by done.
  set (has := fun name => mhas name (rp_factories (resolve_views wiring ps))).
  set (f := fun x : string * ProjectionDefinition W Tx => negb (has (fst x)) &&
    match pr_consistency (pd_projection (snd x)) with Strong => true | Eventual => false end).
  pose proof (find_resolved has ps) as Hfind. fold f in Hfind. unfold has in Hfind at 1.
  rewrite Hfind. clear Hfind.
  assert (Hf : forall x, x ∈ ps -> f x = true <-> unwired x).
  { intros [k pd] Hin. apply (elem_mget _ _ _ Hwf) in Hin. pose proof (resolve_views_at ps k Hwf) as Hat.
    unfold resolved_at, expected_at in Hat. rewrite Hin in Hat. unfold f, has, mhas, unwired. cbn [fst snd].
    assert (Hg : mget k (rp_factories (resolve_views wiring ps)) = projection_factory wiring k pd)
      by (by destruct (projection_factory wiring k pd); injection Hat as _ -> _).
    rewrite Hg. unfold projection_factory.
    by destruct (mget k wiring), (pd_viewStore pd), (pr_consistency (pd_projection pd)); cbn; intuition congruence. }
  clearbody f. clear has Hwf. induction ps as [| x l IH]; cbn [List.find option_map]; [constructor |].
  pose proof (Hf x (list_elem_of_here _ _)) as Hx. destruct (f x) eqn:E; cbn [option_map].
  - destruct x as [k pd]. exists k, pd. split; [| done]. exists [], l. split; [done |]. split; [constructor | by apply Hx].
  - assert (Hn : ~ unwired x) by (rewrite <- Hx; congruence).
    specialize (IH (fun y Hy => Hf y (list_elem_of_further _ _ _ Hy))).
    destruct (List.find f l) as [y |]; cbn [option_map] in *; [| by constructor].
    destruct IH as (k & pd & (l1 & l2 & -> & H1 & H2) & ->). exists k, pd. split; [| done].
    exists (x :: l1), l2. split; [done |]. by split; [constructor |].
Qed.

(** With a view store every handler has an identity extractor. *)
Lemma subscriptions_all (views : ViewStore W) name p :
  mkeys (subscriptions views (augment name p)) = mkeys (pr_on p).
Proof.
  unfold subscriptions, mkeys. generalize (augment name p) at 1. intros q. cbn [pr_on augment].
  induction (pr_on p) as [| [n h] on IH]; [done |]. cbn [map flat_map].
  unfold augment_handler at 1. destruct (ph_id h) as [id |] eqn:E; cbn [ph_id]; rewrite ?E; cbn; by rewrite IH.
Qed.
(** The subscriptions of one projection. *)
Lemma plan_of_filter r k p name :
  List.filter (fun x => bool_decide (su_projection x = Some name)) (plan_of r k p)
  = if String.eqb name k then plan_of r k p else [].
Proof.
  unfold plan_of. destruct (pr_consistency p), (mget k (rp_viewStores r)) as [views |];
    try by destruct (String.eqb name k).
  induction (subscriptions views p) as [| [n f] l IH]; cbn; [by destruct (String.eqb name k) |].
  destruct (String.eqb_spec name k) as [-> | Hne].
  - rewrite bool_decide_true by done. by rewrite IH.
  - rewrite bool_decide_false by congruence. exact IH.
Qed.

Lemma projection_plan_at r name :
  wf (rp_projections r) ->
  List.filter (fun x => bool_decide (su_projection x = Some name)) (projection_plan r)
  = match mget name (rp_projections r) with Some p => plan_of r name p | None => [] end.
Proof.
  unfold projection_plan. induction (rp_projections r) as [| [k p] l IH]; intros Hwf; [done |].
  apply NoDup_cons in Hwf as [Hk Hwf]. cbn [flat_map mget]. rewrite List.filter_app, plan_of_filter, (IH Hwf).
  destruct (String.eqb_spec name k) as [-> | Hne]; [| done].
  by rewrite (proj2 (mget_None_keys k l) Hk), app_nil_r.
Qed.

Lemma plan_of_augmented r name p views :
  pr_consistency p = Eventual -> mget name (rp_viewStores r) = Some views ->
  map (fun x => (su_projection x, su_event x)) (plan_of r name (augment name p))
  = map (fun n => (Some name, n)) (mkeys (pr_on p)).
Proof.
  intros Hc Hv. unfold plan_of. cbn [pr_consistency augment]. rewrite Hc, Hv.
  rewrite <- (subscriptions_all views name p). unfold mkeys. rewrite !map_map. by apply map_ext; intros [].
Qed.

Lemma find_unwired_none r name p :
  find_unwired_strong r = None -> (name, p) ∈ rp_projections r -> mget name (rp_factories r) = None ->
  pr_consistency p = Eventual.
Proof.
  unfold find_unwired_strong. destruct (List.find _ _) eqn:E; [done |]. intros _ Hin Hf.
  apply list_elem_of_In in Hin. apply (find_none _ _ E) in Hin. unfold mhas in Hin. rewrite Hf in Hin.
  by destruct (pr_consistency p).
Qed.
End resolved.

(** ** Properties *)

(** The handlers that [init] registers.  Registration succeeds exactly when the
    names of all commands, of aggregates and standalone handlers together, are
    pairwise distinct and those of all queries are too; otherwise it rejects and
    names the first command, or else the first query, that is registered twice.  After a success the command
    bus routes every command as [Domain.dispatchCommand] does, so that a command
    dispatched on the bus by a handler and one dispatched on the domain reach the
    same aggregate or standalone handler; and a query reaches the handler of the
    projection, with that projection's view store, or the standalone handler, that
    declares it. *)
Theorem registration_routes {W Tx} (executor : string -> Aggregate W -> command -> M (Exec W Tx) unit)
    (sagaExecutor : option (string -> Saga W -> event -> M (Exec W Tx) unit)) (gate : lens W Gate)
    (df : DomainDefinition W Tx) (r : ResolvedProjections W Tx) :
  match register_handlers executor sagaExecutor df r fresh_registry with
  | (Err e, _) =>
      (exists n, first_repeat (command_names executor df) n /\ e = taken_command n) \/
      (NoDup (command_names executor df) /\ exists n, first_repeat (query_names df r) n /\ e = taken_query n)
  | (Ok _, g) =>
      NoDup (command_names executor df) /\ NoDup (query_names df r) /\
      (forall c s, CommandBus.dispatch (rg_commands g) c s
         = match find_aggregate (cmd_name c) (df_aggregates df) with
           | Some (name, ag) => executor name ag c s
           | None => match mget (cmd_name c) (present (df_standaloneCommandHandlers df)) with
                     | Some h => h c s
                     | None => (Err (PlainError (String.append "No handler registered for command: " (cmd_name c))), s)
                     end
           end) /\
      (forall c s, dispatchCommand gate executor (CommandBus.dispatch (rg_commands g)) (df_aggregates df) c s
         = guarded gate (CommandBus.dispatch (rg_commands g) c ;;; ret (cmd_targetAggregateId c)) s) /\
      (forall name pd n h payload s, (name, pd) ∈ df_projections df -> (n, Some h) ∈ pd_queryHandlers pd ->
         QueryBus.dispatch (rg_queries g) {| QueryBus.q_name := n; QueryBus.q_payload := payload |} s
         = h payload (mget name (rp_viewStores r)) s) /\
      (forall n h payload s, (n, Some h) ∈ or_default (df_standaloneQueryHandlers df) [] ->
         QueryBus.dispatch (rg_queries g) {| QueryBus.q_name := n; QueryBus.q_payload := payload |} s = h payload s)
  end.
Proof.
  pose proof (register_handlers_run executor sagaExecutor df r) as H.
  destruct (register_handlers executor sagaExecutor df r fresh_registry) as [[[] | e] g]; [| exact H].
  destruct H as (Hc & Hq & -> & Hqs & _). split; [done |]. split; [done |].
  assert (Hbus : forall c s, CommandBus.dispatch (command_entries executor df) c s
    = match find_aggregate (cmd_name c) (df_aggregates df) with
      | Some (name, ag) => executor name ag c s
      | None => match mget (cmd_name c) (present (df_standaloneCommandHandlers df)) with
                | Some h => h c s
                | None => (Err (PlainError (String.append "No handler registered for command: " (cmd_name c))), s)
                end
      end).
  { intros c s. unfold CommandBus.dispatch, command_entries, CommandBus.handler. rewrite mget_app, mget_aggregate_entries.
    destruct (find_aggregate (cmd_name c) (df_aggregates df)) as [[name ag] |]; [done |]. by destruct (mget _ _). }
  assert (Hquery : forall n h payload s, (n, h) ∈ query_entries df r ->
    QueryBus.dispatch (rg_queries g) {| QueryBus.q_name := n; QueryBus.q_payload := payload |} s = h payload s).
  { intros n h payload s Hin. unfold QueryBus.dispatch, QueryBus.handler. cbn. by rewrite Hqs, (elem_mget _ _ _ Hq Hin). }
  split; [exact Hbus |]. split; [| split].
  - intros c. apply guarded_proper, bind_proper; [| done]. intros s. rewrite Hbus.
    destruct (find_aggregate (cmd_name c) (df_aggregates df)) as [[name ag] |] eqn:E; [done |].
    by rewrite Hbus, E.
  - intros name pd n h payload s Hp Hn.
    apply (Hquery n (fun payload => h payload (mget name (rp_viewStores r)))).
    apply elem_of_app. left. apply list_elem_of_In, in_flat_map. exists (name, pd).
    split; [by apply list_elem_of_In |]. apply in_map_iff. exists (n, h). split; [done |].
    apply elem_present, Hn.
  - intros n h payload s Hn. apply Hquery, elem_of_app. right. apply list_elem_of_In. by apply elem_present.
Qed.

(** The subscriptions that [init] makes.  After a successful registration the
    handlers of an event on the bus are, in this order: those of the eventually
    consistent projections that have a view store, those of the sagas and the
    standalone handlers that are declared for it, each in definition order, and no
    others, so that a dispatch runs exactly these functions, each shielded from the
    errors of the others.  The registry that [rebuildProjection] uses to detach a
    projection lists every subscription of that projection and nothing that is not
    on the bus. *)
Theorem subscriptions_complete {W Tx} (executor : string -> Aggregate W -> command -> M (Exec W Tx) unit)
    (sagaExecutor : option (string -> Saga W -> event -> M (Exec W Tx) unit))
    (df : DomainDefinition W Tx) (r : ResolvedProjections W Tx) (g : Registry W Tx) :
  register_handlers executor sagaExecutor df r fresh_registry = (Ok tt, g) ->
  let listeners n := map su_run (List.filter (fun x => String.eqb (su_event x) n) (event_plan sagaExecutor df r)) in
  let invoke h e := match rg_closures g !! h with Some f => f e | None => ret tt end in
  EventBus.bus_wf (rg_bus g) /\
  (forall n, map (fun h => rg_closures g !! h) (EventBus.handlers_of (rg_bus g) n) = map Some (listeners n)) /\
  (forall (log : event -> js_error -> M (Exec W Tx) unit) e s,
     EventBus.run_handlers invoke (fun _ => log) (EventBus.handlers_of (rg_bus g) (ev_name e)) e s
     = for_each (listeners (ev_name e)) (fun f => try_catch (f e) (log e)) s) /\
  (forall p, wf (inner g p) /\
     (forall n h, mget n (inner g p) = Some h ->
        h ∈ EventBus.handlers_of (rg_bus g) n /\
        exists x, x ∈ event_plan sagaExecutor df r /\ su_projection x = Some p /\ su_event x = n /\
                  rg_closures g !! h = Some (su_run x)) /\
     (forall x, x ∈ event_plan sagaExecutor df r -> su_projection x = Some p ->
        is_some (mget (su_event x) (inner g p)) = true)).
Proof.
  intros Hr listeners invoke. pose proof (register_handlers_run executor sagaExecutor df r) as H.
  rewrite Hr in H. destruct H as (_ & _ & _ & _ & [Hb Hc Hm Hh Hw Hrec Hall]).
  assert (Hl : forall n, map (fun h => rg_closures g !! h) (EventBus.handlers_of (rg_bus g) n) = map Some (listeners n)).
  { intros n. unfold listeners. rewrite map_map, Hc.
    transitivity (map (option_map su_run) (map Some (List.filter (fun x => String.eqb (su_event x) n)
      (event_plan sagaExecutor df r)))); [| by rewrite map_map].
    rewrite <- Hh, map_map. apply map_ext. intros h. apply list_lookup_fmap. }
  split; [done |]. split; [exact Hl |]. split.
  - intros log e s. unfold EventBus.run_handlers, invoke.
    set (G := fun o : option (event -> M (Exec W Tx) unit) =>
      try_catch (match o with Some f => f e | None => ret tt end) (log e)).
    transitivity (for_each (map (fun h => rg_closures g !! h) (EventBus.handlers_of (rg_bus g) (ev_name e))) G s);
      [symmetry; apply (for_each_map (fun h => rg_closures g !! h) _ G) |].
    rewrite Hl. apply (for_each_map Some _ G).
  - intros p. split; [apply Hw |]. split; [| apply Hall]. intros n h Hn.
    destruct (Hrec p n h Hn) as (x & Hx & Hp & He). split; [apply Hm; by exists x |].
    exists x. split; [by eapply list_elem_of_lookup_2 |]. split; [done |]. split; [done |].
    rewrite Hc. change (map su_run ?l) with (su_run <$> l). by rewrite list_lookup_fmap, Hx.
Qed.

(** View stores of the projections.  [init] rejects exactly when a strongly
    consistent projection has no view store, neither wired nor of its own, and names
    one.  Otherwise every projection that has a view store is maintained for every
    event it handles, by the unit of work when it is strongly consistent and by a
    subscription when it is not, a handler without an identity extractor included;
    a wired view store takes precedence over the projection's own. *)
Theorem projections_resolved {W Tx} (wiring : jsmap (ViewStoreFactory W Tx)) (ps : jsmap (ProjectionDefinition W Tx)) :
  wf ps ->
  match resolve_projections wiring ps with
  | Err e => exists name pd, mget name ps = Some pd /\ pr_consistency (pd_projection pd) = Strong /\
               mget name wiring = None /\ pd_viewStore pd = None /\ e = unwired_strong name
  | Ok r => forall name pd, mget name ps = Some pd ->
      match or_default (option_map Some (mget name wiring)) (pd_viewStore pd) with
      | Some f =>
          let p := augment name (pd_projection pd) in
          mget name (rp_factories r) = Some f /\ mget name (rp_viewStores r) = Some (f None) /\
          mget name (rp_projections r) = Some p /\
          match pr_consistency (pd_projection pd) with
          | Strong => (name, p) ∈ strongProjections r
          | Eventual => map (fun x => (su_projection x, su_event x))
                          (List.filter (fun x => bool_decide (su_projection x = Some name)) (projection_plan r))
                        = map (fun n => (Some name, n)) (mkeys (pr_on (pd_projection pd)))
          end
      | None => pr_consistency (pd_projection pd) = Eventual /\ mget name (rp_viewStores r) = None /\
          forall x, x ∈ projection_plan r -> su_projection x <> Some name
      end
  end.
Proof.
  intros Hwf. unfold resolve_projections. pose proof (resolve_views_at wiring ps) as Hat.
  pose proof (resolve_views_wf wiring ps) as Hwp. set (r := resolve_views wiring ps) in *.
  assert (Hfac : forall name pd, or_default (option_map Some (mget name wiring)) (pd_viewStore pd)
                                 = projection_factory wiring name pd).
  { intros name pd. unfold projection_factory. by destruct (mget name wiring). }
  destruct (find_unwired_strong r) as [name |] eqn:E.
  - unfold find_unwired_strong in E. destruct (List.find _ _) as [[n p] |] eqn:Ef; [| done]. injection E as ->.
    apply find_some in Ef as [Hin%list_elem_of_In Hb]. apply andb_true_iff in Hb as [Hf Hs].
    apply (elem_mget _ _ _ Hwp) in Hin. specialize (Hat name Hwf). unfold resolved_at in Hat. rewrite Hin in Hat.
    destruct (mget name ps) as [pd |] eqn:Ep; [| done]. exists name, pd. unfold expected_at in Hat.
    specialize (Hfac name pd). unfold mhas in Hf.
    destruct (projection_factory wiring name pd); injection Hat as _ Hg Hp; rewrite Hg in Hf; [done |].
    rewrite Hp in Hs. destruct (pr_consistency (pd_projection pd)); [done |].
    by destruct (mget name wiring), (pd_viewStore pd).
  - intros name pd Hpd. specialize (Hat name Hwf). rewrite Hpd in Hat. unfold resolved_at, expected_at in Hat.
    rewrite Hfac. destruct (projection_factory wiring name pd) as [f |]; injection Hat as Hv Hf Hp.
    + cbv zeta. split; [done |]. split; [done |]. split; [done |].
      destruct (pr_consistency (pd_projection pd)) eqn:Ec.
      * rewrite (projection_plan_at _ _ Hwp), Hp. by eapply plan_of_augmented.
      * apply list_elem_of_In, filter_In. split; [by apply list_elem_of_In, mget_Some_elem |].
        cbn. unfold mhas. by rewrite Ec, Hf.
    + split; [by eapply find_unwired_none; [| apply mget_Some_elem |] |]. split; [done |]. intros x Hx Hn.
      assert (Hin : In x (List.filter (fun x => bool_decide (su_projection x = Some name)) (projection_plan r)))
        by (apply filter_In; split; [by apply list_elem_of_In | by apply bool_decide_true]).
      rewrite (projection_plan_at _ _ Hwp), Hp in Hin. unfold plan_of in Hin. rewrite Hv in Hin.
      by destruct (pr_consistency _).
Qed.

(** ** A small shop

    One aggregate, one standalone command handler, one projection with a query and
    one standalone event handler that reacts to the event of the projection. *)
Definition shop : Type := Gate * Views.store.
Definition shop_views : ViewStore shop := zoom_view snd_lens Views.persistence.

Definition cart : Aggregate shop :=
  {| ag_initialState := VNum 0; ag_decide := [("AddItem"%string, fun _ _ => ret (ManyEvents []))];
     ag_evolve := []; ag_upcasters := None |}.

Definition totals : ProjectionDefinition shop unit :=
  {| pd_projection := {| pr_on := [("ItemAdded"%string, {| ph_id := None; ph_reduce := fun e _ => ret (ev_payload e) |})];
                         pr_initialView := VNum 0; pr_consistency := Eventual |};
     pd_queryHandlers := [("GetTotal"%string, Some (fun _ views =>
       match views with Some vs => world_op (vs_load vs (IdStr "total")) | None => ret VUndefined end))];
     pd_viewStore := Some (InMemoryViewStoreFactory shop_views) |}.

Definition shop_definition : DomainDefinition shop unit :=
  {| df_aggregates := [("Cart"%string, cart)];
     df_standaloneCommandHandlers := Some [("Ping"%string, Some (fun _ => ret tt)); ("Unused"%string, None)];
     df_projections := [("Totals"%string, totals)];
     df_standaloneQueryHandlers := None;
     df_sagas := None;
     df_standaloneEventHandlers := Some [("ItemAdded"%string, Some (fun _ => ret tt))] |}.

Definition shop_resolved : ResolvedProjections shop unit := resolve_views empty (df_projections shop_definition).
Definition shop_executor (_ : string) (_ : Aggregate shop) (_ : command) : M (Exec shop unit) unit := ret tt.
Definition shop_registry : Registry shop unit :=
  snd (register_handlers shop_executor None shop_definition shop_resolved fresh_registry).
Definition shop_start : Exec shop unit := {| ex_world := (open_gate, []); ex_uow := None; ex_meta := None |}.

Lemma registration_routes_witness :
  QueryBus.dispatch (rg_queries shop_registry) {| QueryBus.q_name := "GetTotal"; QueryBus.q_payload := VNull |} shop_start
  = (Ok VUndefined, shop_start).
Proof.
  pose proof (registration_routes shop_executor None fst_lens shop_definition shop_resolved) as H.
  unfold shop_registry.
  destruct (register_handlers shop_executor None shop_definition shop_resolved fresh_registry) as [[[] | e] g] eqn:E.
  - destruct H as (_ & _ & _ & _ & H & _). cbn [snd].
    rewrite (H "Totals"%string totals "GetTotal"%string _ VNull shop_start (list_elem_of_here _ _) (list_elem_of_here _ _)).
    reflexivity.
  - vm_compute in E. discriminate E.
Defined.

Lemma subscriptions_complete_witness :
  map (fun h => is_some (rg_closures shop_registry !! h)) (EventBus.handlers_of (rg_bus shop_registry) "ItemAdded")
  = [true; true].
Proof.
  destruct (subscriptions_complete shop_executor None shop_definition shop_resolved shop_registry) as (_ & H & _).
  { reflexivity. }
  rewrite <- (map_map (fun h => rg_closures shop_registry !! h) is_some), H. reflexivity.
Defined.

Lemma projections_resolved_witness :
  match resolve_projections empty (df_projections shop_definition) with
  | Ok r => map (fun x => (su_projection x, su_event x))
              (List.filter (fun x => bool_decide (su_projection x = Some "Totals"%string)) (projection_plan r))
            = [(Some "Totals", "ItemAdded")]%string
  | Err _ => False
  end.
Proof.
  assert (Hwf : wf (df_projections shop_definition)) by (apply NoDup_singleton).
  pose proof (projections_resolved empty (df_projections shop_definition) Hwf) as H.
  destruct (resolve_projections empty (df_projections shop_definition)) as [r | e].
  - destruct (H "Totals"%string totals eq_refl) as (_ & _ & _ & Hp). exact Hp.
  - destruct H as (name & pd & H1 & H2 & _). cbn [mget df_projections shop_definition] in H1.
    destruct (String.eqb name "Totals"); [| discriminate H1]. injection H1 as <-. discriminate H2.
Defined.
