(* ===== verification/Assembly.v ===== *)
(** Assembly: [wireDomain] and the whole of [Domain.init] ([engine/src/domain.ts]), from
    the configuration to a domain that runs: the resolution steps of [Wiring.v] and
    [Init.v] in the order of the source, the check of the upcaster chains, the
    executors, the registration on the buses, the connection of the buses; and the
    operations of the domain that use what was resolved ([dispatchCommand],
    [withUnitOfWork], the outbox relay, [shutdown]).  Log lines and spans are left out
    ([Logger.v], [Tracing.v]).

    Handlers hold [this._infrastructure], the buses that hold the handlers.  The knot is
    cut by the depth of nested dispatches: [infrastructure_at d] lets a handler dispatch
    [d] levels deep and refuses the next level. *)
From S2P Require Import Prelude JsMap CoreTypes Host Stores Idempotency Outbox UnitOfWork Metadata Concurrency World CommandExecutor Buses SagaExecutor Projection Domain Wiring Init.

(** ** The configuration *)

(** What the engine looks for on a component of the infrastructure ([isConnectable],
    [isCloseable]). *)
Record component (W : Type) : Type := { cp_connect : option (M W unit); cp_close : option (M W unit) }.
Arguments cp_connect {W} _.
Arguments cp_close {W} _.

Definition isConnectable {W} (c : component W) : bool := is_some (cp_connect c).
Definition isCloseable {W} (c : component W) : bool := is_some (cp_close c).

(** [CQRSInfrastructure].  A bus keeps its handlers as the in-process one does; a bus of
    the wiring may have a [dispatch] of its own, which may use the in-process one (a broker
    does not, a spy does). *)
Record CQRSInfrastructure (W Tx : Type) : Type := {
  cb_commandBus : component W;
  cb_eventBus : component W;
  cb_queryBus : component W;
  cb_dispatch_command : option ((command -> M (Exec W Tx) unit) -> command -> M (Exec W Tx) unit);
  cb_dispatch_event : option ((event -> M (Exec W Tx) unit) -> event -> M (Exec W Tx) unit)
}.
Arguments cb_commandBus {W Tx} _.
Arguments cb_eventBus {W Tx} _.
Arguments cb_queryBus {W Tx} _.
Arguments cb_dispatch_command {W Tx} _.
Arguments cb_dispatch_event {W Tx} _.

(** [wiring.aggregates], an object of one of two types: its keys, and the two readings
    that the casts of the source give. *)
Record aggregates_object (W : Type) : Type := {
  ao_keys : list string;
  ao_global : AggregateWiring W;
  ao_perAggregate : jsmap (AggregateWiring W)
}.
Arguments ao_keys {W} _.
Arguments ao_global {W} _.
Arguments ao_perAggregate {W} _.

(** [DomainWiring]. *)
Record DomainWiring (W Tx : Type) : Type := {
  dw_persistenceAdapter : option (PersistenceAdapter W Tx);
  dw_infrastructure : option (M W (list (component W)));
  dw_aggregates : option (aggregates_object W);
  dw_projections : jsmap (ViewStoreFactory W Tx);
  dw_sagas : option (M W (SagaPersistence W));
  dw_buses : option (list (component W) -> M W (CQRSInfrastructure W Tx));
  dw_unitOfWork : option (M W (list (operation W Tx) -> M W unit));
  dw_idempotency : option (M W (IdempotencyStore W));
  dw_outbox : option (M W (OutboxStore W));
  dw_relayBatchSize : option nat;
  dw_metadataProvider : option (M W MetadataContext)
}.
Arguments dw_persistenceAdapter {W Tx} _.
Arguments dw_infrastructure {W Tx} _.
Arguments dw_aggregates {W Tx} _.
Arguments dw_projections {W Tx} _.
Arguments dw_sagas {W Tx} _.
Arguments dw_buses {W Tx} _.
Arguments dw_unitOfWork {W Tx} _.
Arguments dw_idempotency {W Tx} _.
Arguments dw_outbox {W Tx} _.
Arguments dw_relayBatchSize {W Tx} _.
Arguments dw_metadataProvider {W Tx} _.

(** The wiring [{}]. *)
Definition empty_wiring {W Tx} : DomainWiring W Tx :=
  {| dw_persistenceAdapter := None; dw_infrastructure := None; dw_aggregates := None; dw_projections := empty;
     dw_sagas := None; dw_buses := None; dw_unitOfWork := None; dw_idempotency := None; dw_outbox := None;
     dw_relayBatchSize := None; dw_metadataProvider := None |}.

(** [wireDomain]: per-aggregate wirings, when [wiring.aggregates] is not a global one. *)
Definition aggregates_of {W Tx} (wiring : DomainWiring W Tx) : aggregates_wiring W :=
  match dw_aggregates wiring with
  | None => GlobalWiring None
  | Some ao =>
      if isGlobalAggregateWiring (Some (ao_keys ao)) then GlobalWiring (Some (ao_global ao))
      else PerAggregateWirings (ao_perAggregate ao)
  end.

(** ** Upcaster chains (step 5.12)

    What a definition written without types may hold in the place of a chain. *)
Inductive raw_step : Type :=
| FunctionStep (f : upcaster_step)
| OtherStep (v : value).

Inductive raw_chain : Type :=
| ArrayChain (steps : list raw_step)
| OtherChain (v : value).

Definition is_function (s : raw_step) : bool := match s with FunctionStep _ => true | OtherStep _ => false end.

Definition valid_chain (c : raw_chain) : bool :=
  match c with ArrayChain steps => negb (existsb (fun s => negb (is_function s)) steps) | OtherChain _ => false end.

Definition invalid_chain (eventName aggregateName : string) : js_error :=
  PlainError (String.append "Invalid upcaster chain for event " (String.append (quoted eventName)
    (String.append " on aggregate " (String.append (quoted aggregateName) ": chain must be an array of functions.")))).

(** The two nested loops: an error at the first chain that is not one. *)
Definition validate_upcasters {S} (aggregates : jsmap (option (jsmap raw_chain))) : M S unit :=
  for_each aggregates (fun '(aggregateName, upcasters) =>
    for_each (or_default upcasters []) (fun '(eventName, chain) =>
      if valid_chain chain then ret tt else throw (invalid_chain eventName aggregateName))).

(** ** What [init] resolves (steps 0.6 to 5.8b) *)

Record Resolved (W Tx : Type) : Type := {
  rs_customInfra : list (component W);
  rs_cqrsInfra : CQRSInfrastructure W Tx;
  rs_persistenceResolver : persistence_resolver W;
  rs_snapshotResolver : option (string -> option (SnapshotConfig W));
  rs_sagaPersistence : option (SagaPersistence W);
  rs_run_commit : list (operation W Tx) -> M W unit;
  rs_concurrencyStrategy : ConcurrencyStrategy W Tx;
  rs_idempotencyStore : option (IdempotencyStore W);
  rs_projections : ResolvedProjections W Tx;
  rs_outboxStore : option (OutboxStore W)
}.
Arguments rs_customInfra {W Tx} _.
Arguments rs_cqrsInfra {W Tx} _.
Arguments rs_persistenceResolver {W Tx} _.
Arguments rs_snapshotResolver {W Tx} _.
Arguments rs_sagaPersistence {W Tx} _.
Arguments rs_run_commit {W Tx} _.
Arguments rs_concurrencyStrategy {W Tx} _.
Arguments rs_idempotencyStore {W Tx} _.
Arguments rs_projections {W Tx} _.
Arguments rs_outboxStore {W Tx} _.

(** [this._infrastructure], as the executors and the handlers use it. *)
Record Infrastructure (W Tx : Type) : Type := {
  if_dispatchCommand : command -> M (Exec W Tx) unit;
  if_dispatchEvent : event -> M (Exec W Tx) unit;
  if_dispatchQuery : string -> value -> M (Exec W Tx) value
}.
Arguments if_dispatchCommand {W Tx} _.
Arguments if_dispatchEvent {W Tx} _.
Arguments if_dispatchQuery {W Tx} _.

Definition too_deep : js_error := PlainError "dispatches nested too deeply".

Definition no_infrastructure {W Tx} : Infrastructure W Tx :=
  {| if_dispatchCommand := fun _ => throw too_deep; if_dispatchEvent := fun _ => throw too_deep;
     if_dispatchQuery := fun _ _ => throw too_deep |}.

Section assembly.
Context {W Tx : Type} (host : lens W Host) (gate : lens W Gate) (bus : lens W EventBus.bus) (relay : lens W RelayState)
  (in_memory : PersistenceConfiguration W)        (** [new InMemoryEventSourcedAggregatePersistence()] *)
  (in_memory_sagas : SagaPersistence W)           (** [new InMemorySagaPersistence()] *)
  (injectTraceContext : option (M W TraceContext))
  (log_failure : nat -> event -> js_error -> M (Exec W Tx) unit)  (** the event bus's report of a failed handler *)
  (saga_component : SagaPersistence W -> component W)
  (outbox_component : OutboxStore W -> component W)
  (idempotency_component : IdempotencyStore W -> component W).

(** The default buses: nothing to connect; the event bus clears its registry. *)
Definition in_process_buses : CQRSInfrastructure W Tx :=
  {| cb_commandBus := {| cp_connect := None; cp_close := None |};
     cb_eventBus := {| cp_connect := None; cp_close := Some (zoom bus EventBus.close) |};
     cb_queryBus := {| cp_connect := None; cp_close := None |};
     cb_dispatch_command := None; cb_dispatch_event := None |}.

Context (wiring : DomainWiring W Tx)
  (definition : Infrastructure W Tx -> DomainDefinition W Tx)  (** the handlers receive the infrastructure *)
  (upcasters : jsmap (option (jsmap raw_chain))).              (** of each aggregate, as declared *)

(** Steps 0.6 to 5.8b.  [df] is the definition. *)
Definition resolve (df : DomainDefinition W Tx) : M W (Resolved W Tx) :=
  let adapter := dw_persistenceAdapter wiring in
  let aggregates := aggregates_of wiring in
  match from_adapter ad_init adapter with Some init => init | None => ret tt end ;;;
  (customInfra <- match dw_infrastructure wiring with Some f => f | None => ret [] end ;;
  cqrsInfra <- match dw_buses wiring with Some f => f customInfra | None => ret in_process_buses end ;;
  persistenceResolver <- resolve_persistence adapter in_memory aggregates (mkeys (df_aggregates df)) ;;
  snapshotResolver <- resolve_snapshot_resolver adapter aggregates ;;
  sagaPersistence <- resolve_saga_persistence adapter (0 <? length (or_default (df_sagas df) []))%nat
                       (dw_sagas wiring) in_memory_sagas ;;
  run_commit <- resolve_unit_of_work adapter (dw_unitOfWork wiring) ;;
  concurrencyStrategy <- lift_result (resolve_concurrency_strategy adapter aggregates) ;;
  idempotencyStore <- resolve_idempotency adapter (dw_idempotency wiring) ;;
  projections <- lift_result (resolve_projections (dw_projections wiring) (df_projections df)) ;;
  outboxStore <- resolve_outbox adapter (dw_outbox wiring) ;;
  ret {| rs_customInfra := customInfra; rs_cqrsInfra := cqrsInfra;
         rs_persistenceResolver := persistenceResolver; rs_snapshotResolver := snapshotResolver;
         rs_sagaPersistence := sagaPersistence; rs_run_commit := run_commit;
         rs_concurrencyStrategy := concurrencyStrategy; rs_idempotencyStore := idempotencyStore;
         rs_projections := projections; rs_outboxStore := outboxStore |}).

(** ** The executors (steps 5.10 and 5.11) *)

(** The strongly consistent projections with their factories. *)
Definition strong_with_factories (rp : ResolvedProjections W Tx) : list (Projection W * ViewStoreFactory W Tx) :=
  flat_map (fun '(name, p) => match mget name (rp_factories rp) with Some f => [(p, f)] | None => [] end)
    (strongProjections rp).

Definition events_produced (rs : Resolved W Tx) : option (list event -> M (UnitOfWork W Tx * W) unit) :=
  let strong := strong_with_factories (rs_projections rs) in
  if (0 <? length strong)%nat || is_some (rs_outboxStore rs)
  then Some (onEventsProduced host strong (rs_outboxStore rs)) else None.

Definition events_dispatched (rs : Resolved W Tx) : option (list event -> M (Exec W Tx) unit) :=
  option_map (fun outboxStore es => world_op (onEventsDispatched outboxStore es)) (rs_outboxStore rs).

Definition command_executor (rs : Resolved W Tx) (infra : Infrastructure W Tx)
  : string -> Aggregate W -> command -> M (Exec W Tx) unit :=
  CommandExecutor.execute host (rs_persistenceResolver rs) (if_dispatchEvent infra) (rs_run_commit rs)
    (rs_concurrencyStrategy rs) (enrich host (dw_metadataProvider wiring) injectTraceContext)
    (rs_snapshotResolver rs) (rs_idempotencyStore rs) (events_produced rs) (events_dispatched rs).

Definition saga_executor (rs : Resolved W Tx) (infra : Infrastructure W Tx)
  : option (string -> Saga W -> event -> M (Exec W Tx) unit) :=
  option_map (fun sagaPersistence =>
    SagaExecutor.execute host sagaPersistence (rs_run_commit rs) (if_dispatchCommand infra)
      (if_dispatchEvent infra) (events_dispatched rs)) (rs_sagaPersistence rs).

(** ** The buses *)

(** Steps 6 to 12. *)
Definition registration (rs : Resolved W Tx) (infra : Infrastructure W Tx) : result unit * Registry W Tx :=
  register_handlers (command_executor rs infra) (saga_executor rs infra) (definition infra)
    (rs_projections rs) fresh_registry.

(** [eventBus.dispatch]: the in-process bus runs the handlers that its arrays hold at
    that moment; each was subscribed with a closure of its own. *)
Definition invoke (g : Registry W Tx) (h : nat) (e : event) : M (Exec W Tx) unit :=
  match rg_closures g !! h with Some f => f e | None => ret tt end.

Definition in_process_dispatch (g : Registry W Tx) (e : event) : M (Exec W Tx) unit :=
  _ <- EventBus.dispatch (compose_lens the_world bus) (invoke g) log_failure (S (length (rg_closures g))) e ;;
  ret tt.

Definition event_dispatch (rs : Resolved W Tx) (g : Registry W Tx) : event -> M (Exec W Tx) unit :=
  match cb_dispatch_event (rs_cqrsInfra rs) with
  | Some dispatch => dispatch (in_process_dispatch g)
  | None => in_process_dispatch g
  end.

Definition command_dispatch (rs : Resolved W Tx) (g : Registry W Tx) : command -> M (Exec W Tx) unit :=
  match cb_dispatch_command (rs_cqrsInfra rs) with
  | Some dispatch => dispatch (CommandBus.dispatch (rg_commands g))
  | None => CommandBus.dispatch (rg_commands g)
  end.

(** The infrastructure that [g] is the registry of. *)
Definition infrastructure_of (rs : Resolved W Tx) (g : Registry W Tx) : Infrastructure W Tx :=
  {| if_dispatchCommand := command_dispatch rs g;
     if_dispatchEvent := event_dispatch rs g;
     if_dispatchQuery := fun name payload =>
       QueryBus.dispatch (rg_queries g) {| QueryBus.q_name := name; QueryBus.q_payload := payload |} |}.

Fixpoint infrastructure_at (rs : Resolved W Tx) (depth : nat) : Infrastructure W Tx :=
  match depth with
  | O => no_infrastructure
  | S depth' => infrastructure_of rs (snd (registration rs (infrastructure_at rs depth')))
  end.

(** ** [Domain.init] *)

(** What a running domain keeps. *)
Record RunningDomain : Type := {
  rd_resolved : Resolved W Tx;
  rd_allComponents : list (component W)
}.

Definition connect_all (cqrs : CQRSInfrastructure W Tx) : M W unit :=
  for_each [cb_commandBus cqrs; cb_eventBus cqrs; cb_queryBus cqrs] (fun b =>
    match cp_connect b with Some connect => connect | None => ret tt end).

Definition adapter_component (adapter : PersistenceAdapter W Tx) : component W :=
  {| cp_connect := None; cp_close := ad_close adapter |}.

Definition all_components (rs : Resolved W Tx) : list (component W) :=
  collect_components (option_map adapter_component (dw_persistenceAdapter wiring)) (rs_customInfra rs)
    (cb_commandBus (rs_cqrsInfra rs)) (cb_eventBus (rs_cqrsInfra rs)) (cb_queryBus (rs_cqrsInfra rs))
    (option_map saga_component (rs_sagaPersistence rs)) (option_map outbox_component (rs_outboxStore rs))
    (option_map idempotency_component (rs_idempotencyStore rs)).

(** Everything before step 13b: nothing is connected yet. *)
Definition prepare (depth : nat) : M W (Resolved W Tx) :=
  rs <- resolve (definition no_infrastructure) ;;
  validate_upcasters upcasters ;;;
  let '(registered, g) := registration rs (infrastructure_at rs depth) in
  zoom bus (fun _ => (Ok tt, rg_bus g)) ;;;
  (lift_result registered ;;; ret rs).

Definition init (depth : nat) : M W RunningDomain :=
  rs <- prepare depth ;;
  connect_all (rs_cqrsInfra rs) ;;;
  ret {| rd_resolved := rs; rd_allComponents := all_components rs |}.

(** ** The running domain *)

Section running.
Context (rd : RunningDomain) (depth : nat).

(** The infrastructure whose handlers may dispatch [depth] levels deep. *)
Definition running_infrastructure : Infrastructure W Tx := infrastructure_at (rd_resolved rd) (S depth).

Definition domain_dispatchCommand (c : command) : M (Exec W Tx) (option ID) :=
  dispatchCommand gate (command_executor (rd_resolved rd) running_infrastructure)
    (if_dispatchCommand running_infrastructure) (df_aggregates (definition running_infrastructure)) c.

Definition domain_dispatchQuery (name : string) (payload : value) : M (Exec W Tx) value :=
  dispatchQuery gate (if_dispatchQuery running_infrastructure) name payload.

Definition domain_withUnitOfWork {A} (fn : M (Exec W Tx) A) : M (Exec W Tx) A :=
  withUnitOfWork gate (rs_run_commit (rd_resolved rd)) (if_dispatchEvent running_infrastructure)
    (rs_outboxStore (rd_resolved rd)) fn.

(** [rebuildProjection]: the adapter's reader first, else the first aggregate whose
    persistence has a [read]. *)
Definition domain_rebuildProjection {C} (adapterReader : option (C * (C -> M W (option (event * C)))))
    (reader_of : PersistenceConfiguration W -> option (C * (C -> M W (option (event * C)))))
    (name : string) (options : ProjectionRebuildOptions W) (fuel : nat) : M W (option ProjectionRebuildResult) :=
  let rs := rd_resolved rd in
  let aggregates := df_aggregates (definition running_infrastructure) in
  rebuildProjection host gate
    {| rw_initialized := true; rw_aggregates := aggregates; rw_projections := rp_projections (rs_projections rs);
       rw_factories := rp_factories (rs_projections rs); rw_adapterReader := adapterReader;
       rw_aggregateReaders := map (fun aggregateName =>
         match rs_persistenceResolver rs aggregateName with Ok p => reader_of p | Err _ => None end) (mkeys aggregates) |}
    (fun n h => zoom bus (EventBus.on n h)) (Some (fun n h => zoom bus (EventBus.off n h)))
    (rg_projectionSubscriptions (snd (registration rs (infrastructure_at rs depth)))) name options fuel.

(** ** The outbox relay *)

Definition relay_event (e : event) : M W unit := fun w =>
  let '(r, s) := if_dispatchEvent running_infrastructure e {| ex_world := w; ex_uow := None; ex_meta := None |} in
  (r, ex_world s).

Definition startOutboxRelay : M W unit :=
  match rs_outboxStore (rd_resolved rd) with Some _ => start relay | None => ret tt end.

Definition stopOutboxRelay : M W unit :=
  match rs_outboxStore (rd_resolved rd) with Some _ => stop relay | None => ret tt end.

Definition processOutboxOnce : M W nat :=
  match rs_outboxStore (rd_resolved rd) with
  | None => ret 0%nat
  | Some outboxStore => processOnce outboxStore relay_event relay (dw_relayBatchSize wiring)
  end.

(** Phases 2 to 4 of [shutdown]. *)
Definition close_domain (fuel : nat) : M W unit :=
  close_phases
    (option_map (fun outboxStore =>
       _ <- drain outboxStore relay_event relay (dw_relayBatchSize wiring) fuel ;; ret tt) (rs_outboxStore (rd_resolved rd)))
    (match cp_close (cb_eventBus (rs_cqrsInfra (rd_resolved rd))) with Some close => close | None => ret tt end)
    (omap cp_close (rd_allComponents rd)).
End running.
End assembly.

(** ** Facts *)

(** The chains of a definition, in the order of the two loops, each with its aggregate
    and its event. *)
Definition declared_chains (aggregates : jsmap (option (jsmap raw_chain))) : list (string * (string * raw_chain)) :=
  flat_map (fun '(aggregateName, upcasters) => map (pair aggregateName) (or_default upcasters [])) aggregates.

(** What a chain should be: an array of functions. *)
Definition functions_only (c : string * (string * raw_chain)) : Prop :=
  exists steps, snd (snd c) = ArrayChain (map FunctionStep steps).

Lemma valid_chain_functions c : valid_chain (snd (snd c)) = true <-> functions_only c.
Proof.
  destruct c as [a [n [steps | v]]]; unfold functions_only; cbn [snd valid_chain].
  2: { split; [done | by intros (fs & H)]. }
  rewrite negb_true_iff. split.
  - intros H. induction steps as [| [f | v] steps IH]; [by exists [] | | done].
    destruct (IH H) as [fs [= ->]]. by exists (f :: fs).
  - intros [fs [= ->]]. by induction fs as [| f fs IH].
Qed.

Definition check_chain {S} (x : string * (string * raw_chain)) : M S unit :=
  if valid_chain (snd (snd x)) then ret tt else throw (invalid_chain (fst (snd x)) (fst x)).

Lemma check_chains {S} l (s : S) :
  for_each l check_chain s
  = (match List.find (fun x => negb (valid_chain (snd (snd x)))) l with
     | Some (aggregateName, (eventName, _)) => Err (invalid_chain eventName aggregateName)
     | None => Ok tt
     end, s).
Proof.
  induction l as [| [a [n c]] l IH]; [done |]. cbn [for_each List.find snd fst]. unfold check_chain at 1, bind at 1.
  cbn [snd fst]. by destruct (valid_chain c).
Qed.

(** The check stops at the first chain that is not one. *)
Lemma validate_spec {S} (aggregates : jsmap (option (jsmap raw_chain))) (s : S) :
  match validate_upcasters aggregates s with
  | (Ok _, s') => s' = s /\ Forall functions_only (declared_chains aggregates)
  | (Err e, s') => s' = s /\ exists name n c,
      first_in (fun x => ~ functions_only x) (declared_chains aggregates) (name, (n, c)) /\ e = invalid_chain n name
  end.
Proof.
  assert (Hrun : validate_upcasters aggregates s = for_each (declared_chains aggregates) check_chain s).
  { unfold declared_chains. rewrite for_each_flat_map. unfold validate_upcasters.
    apply for_each_ext. intros [name ups] _ s1. rewrite for_each_map. apply for_each_ext. by intros [n c] _ s2. }
  rewrite Hrun, check_chains.
  assert (Hiff : forall x, negb (valid_chain (snd (snd x))) = true <-> ~ functions_only x)
    by (intros x; rewrite <- valid_chain_functions, negb_true_iff; by destruct (valid_chain _)).
  pose proof (find_first_in _ _ (declared_chains aggregates) Hiff) as Hf.
  destruct (List.find _ _) as [[name [n c]] |]; (split; [done |]).
  - by exists name, n, c.
  - eapply Forall_impl; [exact Hf |]. intros x Hx. apply valid_chain_functions, not_false_iff_true.
    intros E. by apply Hx, Hiff, negb_true_iff.
Qed.

Section default_wiring.
Context {W Tx : Type} (host : lens W Host) (bus : lens W EventBus.bus) `{!LensLaws bus}
  (in_memory : PersistenceConfiguration W) (in_memory_sagas : SagaPersistence W)
  (injectTraceContext : option (M W TraceContext))
  (log_failure : nat -> event -> js_error -> M (Exec W Tx) unit)
  (saga_component : SagaPersistence W -> component W) (outbox_component : OutboxStore W -> component W)
  (idempotency_component : IdempotencyStore W -> component W)
  (definition : Infrastructure W Tx -> DomainDefinition W Tx) (upcasters : jsmap (option (jsmap raw_chain))).

(** What [{}] resolves to. *)
Definition default_resolved (rp : ResolvedProjections W Tx) : Resolved W Tx :=
  {| rs_customInfra := []; rs_cqrsInfra := in_process_buses bus;
     rs_persistenceResolver := GlobalAggregatePersistenceResolver in_memory; rs_snapshotResolver := None;
     rs_sagaPersistence := if (0 <? length (or_default (df_sagas (definition no_infrastructure)) []))%nat
                           then Some in_memory_sagas else None;
     rs_run_commit := run_in_memory; rs_concurrencyStrategy := OptimisticConcurrencyStrategy 0;
     rs_idempotencyStore := None; rs_projections := rp; rs_outboxStore := None |}.

Lemma resolve_default (w : W) :
  resolve bus in_memory in_memory_sagas empty_wiring (definition no_infrastructure) w
  = match resolve_projections empty (df_projections (definition no_infrastructure)) with
    | Ok rp => (Ok (default_resolved rp), w)
    | Err e => (Err e, w)
    end.
Proof.
  unfold resolve, default_resolved. set (has := (0 <? _)%nat). destruct has;
    cbn -[resolve_projections]; unfold bind, ret, lift_result, resolve_global, resolve_saga_persistence;
    cbn -[resolve_projections]; by destruct (resolve_projections _ _).
Qed.

Lemma connect_in_process (w : W) : connect_all (in_process_buses (W := W) (Tx := Tx) bus) w = (Ok tt, w).
Proof. reflexivity. Qed.
End default_wiring.

(** C18. [wireDomain(definition)] without any wiring checks, in this order, that no
    projection is strongly consistent without a view store, that every declared upcaster
    chain is an array of functions, that the names of the commands are pairwise distinct
    and that those of the queries are.  When all four hold it succeeds: every aggregate
    then runs on the in-memory event store without snapshots, units of work commit in
    memory, conflicts are not retried, there is neither an idempotency store nor an outbox,
    there is a saga store exactly when the definition has a saga, and the event bus has for
    each event one handler per declared listener; nothing else has changed.  Otherwise it
    fails, and the error is the one of the first condition that does not hold and names its
    first culprit in definition order: the projection, the event and aggregate of the chain,
    the first command or query whose name was already taken.  In the first two cases nothing
    has changed, in the others at most the event bus. *)
Theorem wire_without_wiring {W Tx} (host : lens W Host) (bus : lens W EventBus.bus)
    (in_memory : PersistenceConfiguration W) (in_memory_sagas : SagaPersistence W) injectTraceContext
    (log_failure : nat -> event -> js_error -> M (Exec W Tx) unit) saga_component outbox_component idempotency_component
    (definition : Infrastructure W Tx -> DomainDefinition W Tx) upcasters (depth : nat) (w : W) :
  let ps := df_projections (definition no_infrastructure) in
  let strong_without_store x := pr_consistency (pd_projection (snd x)) = Strong /\ pd_viewStore (snd x) = None in
  let chains := declared_chains upcasters in
  let resolved := default_resolved bus in_memory in_memory_sagas definition in
  let infra rp := infrastructure_at host bus injectTraceContext log_failure empty_wiring definition (resolved rp) depth in
  let executor rp := command_executor host injectTraceContext empty_wiring (resolved rp) (infra rp) in
  let commands rp := command_names (executor rp) (definition (infra rp)) in
  let queries rp := query_names (definition (infra rp)) rp in
  wf ps ->
  match init host bus in_memory in_memory_sagas injectTraceContext log_failure saga_component outbox_component
          idempotency_component empty_wiring definition upcasters depth w with
  | (Ok rd, w') => exists rp b,
      Forall (fun x => ~ strong_without_store x) ps /\ Forall functions_only chains /\
      resolve_projections empty ps = Ok rp /\ NoDup (commands rp) /\ NoDup (queries rp) /\
      rd_resolved rd = resolved rp /\ w' = lset bus b w /\
      (forall n, length (EventBus.handlers_of b n)
         = length (List.filter (fun x => String.eqb (su_event x) n)
             (event_plan (saga_executor host (resolved rp) (infra rp)) (definition (infra rp)) rp)))
  | (Err e, w') =>
      (exists name pd, first_in strong_without_store ps (name, pd) /\ e = unwired_strong name /\ w' = w) \/
      Forall (fun x => ~ strong_without_store x) ps /\
      ((exists name n c, first_in (fun x => ~ functions_only x) chains (name, (n, c)) /\
          e = invalid_chain n name /\ w' = w) \/
       Forall functions_only chains /\
       exists rp, resolve_projections empty ps = Ok rp /\ (exists b, w' = lset bus b w) /\
         ((exists n, first_repeat (commands rp) n /\ e = taken_command n) \/
          NoDup (commands rp) /\ exists n, first_repeat (queries rp) n /\ e = taken_query n))
  end.
Proof.
  cbv zeta. intros Hwf. unfold init, prepare. rewrite (bind_assoc _ _ _ w). unfold bind at 1. rewrite resolve_default.
  pose proof (resolve_projections_first empty (df_projections (definition no_infrastructure)) Hwf) as Hpr.
  destruct (resolve_projections empty _) as [rp | e].
  2: { left. destruct Hpr as (name & pd & Hfirst & ->). exists name, pd. split; [| done].
    revert Hfirst. apply first_in_iff. intros x. unfold unwired. cbn [mget]. naive_solver. }
  apply (Forall_impl _ (fun x => ~ (pr_consistency (pd_projection (snd x)) = Strong /\ pd_viewStore (snd x) = None))) in Hpr;
    [| intros x; unfold unwired; cbn [mget]; naive_solver].
  rewrite (bind_assoc _ _ _ w). unfold bind at 1. pose proof (validate_spec upcasters w) as Hv.
  destruct (validate_upcasters upcasters w) as [[[] | e] w0].
  2: { destruct Hv as (-> & name & n & c & H1 & ->). right. split; [exact Hpr |]. left. by exists name, n, c. }
  destruct Hv as [-> Hv]. set (rs := default_resolved _ _ _ _ rp). set (infra := infrastructure_at _ _ _ _ _ _ rs depth).
  pose proof (register_handlers_run (command_executor host injectTraceContext empty_wiring rs infra)
    (saga_executor host rs infra) (definition infra) rp) as Hreg.
  unfold registration. change (rs_projections rs) with rp.
  destruct (register_handlers _ _ _ rp fresh_registry) as [[[] | e] g].
  - destruct Hreg as (Hc & Hq & _ & _ & Hinv). eexists rp, (rg_bus g). split; [exact Hpr |]. split; [exact Hv |].
    split; [done |]. split; [exact Hc |]. split; [exact Hq |]. split; [done |]. split; [done |].
    intros n. pose proof (ei_handlers _ _ Hinv n) as Hh. apply (f_equal (@length _)) in Hh. by rewrite !length_map in Hh.
  - right. split; [exact Hpr |]. right. split; [exact Hv |]. exists rp. split; [done |].
    split; [by exists (rg_bus g) | exact Hreg].
Qed.

(** A domain with an aggregate, a projection that nobody keeps and a standalone handler. *)
Definition shop_world : Type := Host * EventBus.bus.
Definition shop_events : PersistenceConfiguration shop_world :=
  EventSourced {| es_load := fun _ _ => ret []; es_save := fun _ _ _ _ => ret tt; es_loadAfterVersion := None |}.
Definition shop_sagas : SagaPersistence shop_world :=
  {| sp_load := fun _ _ => ret None; sp_save := fun _ _ _ _ => ret tt |}.
Definition shop_definition (_ : Infrastructure shop_world unit) : DomainDefinition shop_world unit :=
  {| df_aggregates := [("Order"%string, {| ag_initialState := VNull; ag_evolve := []; ag_upcasters := None;
       ag_decide := [("PlaceOrder"%string, fun _ _ => ret (OneEvent {| ev_name := "OrderPlaced"; ev_payload := VNull; ev_metadata := None |}))] |})];
     df_standaloneCommandHandlers := None;
     df_projections := [("Orders"%string, {| pd_queryHandlers := []; pd_viewStore := None;
       pd_projection := {| pr_on := [("OrderPlaced"%string, {| ph_id := None; ph_reduce := fun _ v => ret v |})];
                           pr_initialView := VNull; pr_consistency := Eventual |} |})];
     df_standaloneQueryHandlers := None; df_sagas := None;
     df_standaloneEventHandlers := Some [("OrderPlaced"%string, Some (fun _ => ret tt))] |}.
Definition shop_component {A} (_ : A) : component shop_world := {| cp_connect := None; cp_close := None |}.
Definition shop_init (upcasters : jsmap (option (jsmap raw_chain))) : M shop_world RunningDomain :=
  init fst_lens snd_lens shop_events shop_sagas None (fun _ _ _ => ret tt) shop_component shop_component shop_component
    empty_wiring shop_definition upcasters 1.

(** The projection without a view store gets no handler: the only one is the standalone one. *)
Lemma wire_without_wiring_witness :
  match shop_init [("Order"%string, Some [("OrderPlaced"%string, ArrayChain [FunctionStep (fun p => Ok p)])])]
          (sample_host, EventBus.new_bus) with
  | (Ok rd, (h, b)) => h = sample_host /\ rs_sagaPersistence (rd_resolved rd) = None /\
      length (EventBus.handlers_of b "OrderPlaced") = 1%nat
  | (Err _, _) => False
  end.
Proof.
  unfold shop_init. set (ups := [("Order"%string, _)]).
  pose proof (wire_without_wiring fst_lens snd_lens shop_events shop_sagas None (fun _ _ _ => ret tt)
    shop_component shop_component shop_component shop_definition ups 1 (sample_host, EventBus.new_bus)
    ltac:(apply (bool_decide_unpack _); vm_compute; exact I)) as H.
  cbv zeta in H.
  assert (Hok : is_ok (fst (init fst_lens snd_lens shop_events shop_sagas None (fun _ _ _ => ret tt)
    shop_component shop_component shop_component empty_wiring shop_definition ups 1 (sample_host, EventBus.new_bus))) = true)
    by (vm_compute; reflexivity).
  destruct (init _ _ _ _ _ _ _ _ _ _ _ _ _ _) as [[rd | e] [h b]]; [| discriminate Hok].
  destruct H as (rp & b' & _ & _ & Hrp & _ & _ & -> & Hw & Hlen). injection Hw as -> ->.
  split; [reflexivity |]. split; [reflexivity |]. rewrite Hlen.
  vm_compute in Hrp. injection Hrp as <-. vm_compute. reflexivity.
Defined.

(** A chain that is not an array of functions stops the initialisation. *)
Example invalid_upcasters_refused :
  fst (shop_init [("Order"%string, Some [("OrderPlaced"%string, ArrayChain [OtherStep (VStr "v1")])])] (sample_host, EventBus.new_bus))
  = Err (invalid_chain "OrderPlaced" "Order").
Proof. vm_compute. reflexivity. Qed.
