(* ===== verification/ReadModel.v ===== *)
(** The read model follows the write model: a whole domain, assembled by [Assembly.init]
    over the in-memory stores and buses, and the commands that it is given.  The views of
    its eventually consistent projections are at every moment a function of one order of
    the stored events, an order that keeps the history of every instance. *)
From S2P Require Import Prelude JsMap CoreTypes Host Stores Idempotency Outbox UnitOfWork Metadata Concurrency World CommandExecutor Frames CommandCorrect Buses Projection Domain Wiring Init Assembly.

(** ** Stores as parts of a larger state *)

Section lift.
Context {W S : Type} (l : lens W S) `{!LensLaws l}.

Lemma zoom_events_spec (P : EventSourcedPersistence S) stream :
  EventStoreSpec P stream -> EventStoreSpec (zoom_events l P) (fun w => stream (lget l w)).
Proof.
  intros HP. split.
  - intros w n i. cbn. unfold zoom. by rewrite es_load_spec, lset_lget.
  - intros f w n i v Hf. cbn in Hf. destruct (es_loadAfterVersion P) as [g |] eqn:E; [| done].
    injection Hf as <-. unfold zoom. by rewrite (es_partial_spec g _ _ _ _ E), lset_lget.
  - intros w n i evs v. cbn. apply wp_zoom. eapply wp_mono; [apply es_save_spec | |].
    + intros [] t [H1 H2]. rewrite lget_lset. by split.
    + intros e t (He & Hn & Hv & ->). rewrite lset_lget. by split.
Qed.

Lemma zoom_snaps_spec (P : SnapshotStore S) snap :
  SnapshotStoreSpec P snap -> SnapshotStoreSpec (zoom_snaps l P) (fun w => snap (lget l w)).
Proof.
  intros HP. split.
  - intros w n i. cbn. unfold zoom. by rewrite sn_load_spec, lset_lget.
  - intros w n i s. cbn. unfold zoom. destruct (sn_save_spec (lget l w) n i s) as (t & -> & Ht).
    exists (lset l t w). split; [done |]. by rewrite lget_lset.
Qed.

Lemma zoom_frame host (P : EventSourcedPersistence S) (SN : SnapshotStore S) stream snap :
  StoresFrame host P SN stream snap ->
  StoresFrame (compose_lens l host) (zoom_events l P) (zoom_snaps l SN)
    (fun w => stream (lget l w)) (fun w => snap (lget l w)).
Proof.
  intros H. split.
  - apply zoom_events_spec, fr_stream.
  - apply zoom_snaps_spec, fr_snap.
  - intros h w k. cbn. rewrite lget_lset. apply fr_host.
  - intros n i evs v w r w' k. cbn. unfold zoom. destruct (es_save P n i evs v (lget l w)) as [r0 t] eqn:E.
    intros [= _ <-]. rewrite lget_lset. by eapply fr_save.
  - intros n i s w r w' k. cbn. unfold zoom. destruct (sn_save SN n i s (lget l w)) as [r0 t] eqn:E.
    intros [= _ <-]. rewrite lget_lset. by eapply fr_sn_save.
Qed.
End lift.

(** ** The site: the in-memory world, the domain's own fields, the buses and the relay *)

Definition Site : Type := World * (Gate * (EventBus.bus * RelayState)).

Definition site_world : lens Site World := fst_lens.
Definition site_host : lens Site Host := compose_lens site_world host_lens.
Definition site_gate : lens Site Gate := compose_lens snd_lens fst_lens.
Definition site_bus : lens Site EventBus.bus := compose_lens snd_lens (compose_lens snd_lens fst_lens).
Definition site_relay : lens Site RelayState := compose_lens snd_lens (compose_lens snd_lens snd_lens).

Definition site_events : EventSourcedPersistence Site := zoom_events site_world world_events.
Definition site_snaps : SnapshotStore Site := zoom_snaps site_world world_snaps.
Definition site_sagas : SagaPersistence Site := zoom_sagas site_world world_sagas.
Definition site_outbox : OutboxStore Site := zoom_outbox site_world world_outbox.
Definition site_view_lens (name : string) : lens Site Views.store := compose_lens site_world (view_lens name).
Definition site_view (name : string) : ViewStore Site := zoom_view (site_view_lens name) Views.persistence.

Definition site_stream (w : Site) (k : string) : list event := world_stream (fst w) k.
Definition site_snap (w : Site) (k : string) : option Snapshot := world_snap (fst w) k.
Definition views_at (name : string) (s : Exec Site unit) : Views.store := lget (site_view_lens name) (ex_world s).

#[export] Instance site_frame : StoresFrame site_host site_events site_snaps site_stream site_snap.
Proof. apply (zoom_frame site_world), world_frame. Qed.

Definition empty_site (h : Host) : Site := (empty_world h, (open_gate, (EventBus.new_bus, new_relay))).
Definition at_site (w : Site) : Exec Site unit := {| ex_world := w; ex_uow := None; ex_meta := None |}.

(** What an event of a projection may not change. *)
Definition beside (s : Exec Site unit) : option (UnitOfWork Site unit) * EventStore.store * SnapStore.store * EventBus.bus :=
  (ex_uow s, w_events (fst (ex_world s)), w_snaps (fst (ex_world s)), lget site_bus (ex_world s)).

Lemma mset_mset {V} k (v v' : V) m : mset k v (mset k v' m) = mset k v m.
Proof.
  induction m as [| [k' u] m IH]; cbn [mset].
  - by rewrite String.eqb_refl.
  - destruct (String.eqb_spec k k') as [-> | Hne]; cbn [mset]; [by rewrite String.eqb_refl |].
    destruct (String.eqb_spec k k'); [done |]. by rewrite IH.
Qed.

(** A view store that is not there yet reads as an empty one: two of the three laws. *)
Lemma view_get_set name v w : lget (site_view_lens name) (lset (site_view_lens name) v w) = v.
Proof. cbn. by rewrite mget_mset_eq. Qed.
Lemma view_set_set name v v' w :
  lset (site_view_lens name) v (lset (site_view_lens name) v' w) = lset (site_view_lens name) v w.
Proof. destruct w as [[] d]. cbn. by rewrite mset_mset. Qed.

(** The state with other views for one projection. *)
Definition with_views (name : string) (v : Views.store) (s : Exec Site unit) : Exec Site unit :=
  lset the_world (lset (site_view_lens name) v (ex_world s)) s.

Lemma with_views_at name v s n : views_at n (with_views name v s) = if String.eqb n name then v else views_at n s.
Proof. unfold views_at, with_views. cbn. rewrite mget_mset. by destruct (String.eqb n name). Qed.

Lemma with_views_beside name v s : beside (with_views name v s) = beside s.
Proof. by destruct s as [[[] []] u m]. Qed.

(** ** One event, one projection *)

Definition no_counters : counters := {| ct_read := 0; ct_applied := 0; ct_deleted := 0 |}.

(** The views after an event: a handler that fails leaves them as they are. *)
Definition live {W} (p : Projection W) (reducer : string -> event -> value -> result value)
    (v : Views.store) (e : event) : Views.store :=
  match apply_current p reducer e (v, no_counters) with Ok (v', _) => v' | Err _ => v end.

(** The state after loading, reducing and storing the view [i]. *)
Lemma update_view_run_at name (p : Projection Site) reducer h (e : event) i (w : Site) :
  pure_reducers p reducer -> mget (ev_name e) (pr_on p) = Some h ->
  let v := lget (site_view_lens name) w in
  update_view (site_view name) p h i e w
  = match reducer (ev_name e) e (coalesce (or_default (mget (string_of_ID i) v) VUndefined) (pr_initialView p)) with
    | Ok next =>
        if is_DeleteView next then (Ok true, lset (site_view_lens name) (mdelete (string_of_ID i) v) w)
        else (Ok false, lset (site_view_lens name) (mset (string_of_ID i) next v) w)
    | Err err => (Err err, lset (site_view_lens name) v w)
    end.
Proof.
  intros Hp Hh v. unfold update_view, site_view. cbn [zoom_view vs_load Views.persistence vs_save vs_delete].
  erewrite bind_ok by (apply zoom_run; reflexivity). fold v.
  unfold bind at 1. rewrite (Hp _ _ Hh). destruct (reducer _ _ _) as [next | err]; [| done].
  destruct (is_DeleteView next); (erewrite bind_ok by (apply zoom_run; reflexivity));
    by rewrite view_get_set, view_set_set.
Qed.

Section event.
Context (log_failure : nat -> event -> js_error -> M (Exec Site unit) unit)
  (quiet_log : forall h e err s, log_failure h e err s = (Ok tt, s)).

(** What one delivery does. *)
Definition delivered (name : string) (p : Projection Site) reducer (e : event) (s s' : Exec Site unit) : Prop :=
  views_at name s' = live p reducer (views_at name s) e /\
  (forall n, n <> name -> views_at n s' = views_at n s) /\ beside s' = beside s.

Lemma with_views_delivered name p reducer e s v :
  v = live p reducer (views_at name s) e -> delivered name p reducer e s (with_views name v s).
Proof.
  intros ->. split; [by rewrite with_views_at, String.eqb_refl |]. split; [| apply with_views_beside].
  intros n Hn. rewrite with_views_at. by destruct (String.eqb_spec n name).
Qed.

Lemma bound_handler_run name (p : Projection Site) reducer h id (e : event) (n : nat) (s : Exec Site unit) :
  pure_reducers p reducer -> mget (ev_name e) (pr_on p) = Some h -> ph_id h = Some id ->
  exists s', try_catch (world_op (boundHandler (site_view name) p h id e)) (log_failure n e) s = (Ok tt, s') /\
    delivered name p reducer e s s'.
Proof.
  intros Hp Hh Hid. assert (Ei : rebuild_viewId h e = id e) by (unfold rebuild_viewId; by rewrite Hid).
  unfold boundHandler, world_op, try_catch, zoom. unfold bind at 1, lift_result.
  destruct (id e) as [i | err].
  2: { exists s. rewrite quiet_log. split; [by destruct s |]. unfold delivered, live, apply_current. rewrite Hh, Ei. done. }
  unfold bind. rewrite (update_view_run_at name p reducer h e i _ Hp Hh).
  set (v := lget (site_view_lens name) (lget the_world s)).
  destruct (reducer _ _ _) as [next | err] eqn:Er; [destruct (is_DeleteView next) eqn:Ed |]; rewrite ?quiet_log;
    (eexists; split; [reflexivity |]; apply (with_views_delivered name));
    unfold live, apply_current; rewrite Hh, Ei; cbn [result_bind];
    change (views_at name s) with v; rewrite Er; cbn [result_bind]; by rewrite ?Ed.
Qed.

(** ** One event, all projections *)

(** The projection [name], as [init] resolves it. *)
Record subscribed_projection (rp : ResolvedProjections Site unit) (reducer : string -> event -> value -> result value)
    (name : string) (p : Projection Site) : Prop := {
  sp_eventual : pr_consistency p = Eventual;
  sp_views : mget name (rp_viewStores rp) = Some (site_view name);
  sp_wf : wf (pr_on p);
  sp_identified : Forall (fun '(_, h) => is_some (ph_id h) = true) (pr_on p);
  sp_pure : pure_reducers p reducer
}.

Lemma plan_of_event rp reducer name p n :
  subscribed_projection rp reducer name p ->
  match mget n (pr_on p) with
  | Some h => exists id, ph_id h = Some id /\
      List.filter (fun x => String.eqb (su_event x) n) (plan_of rp name p)
      = [{| su_projection := Some name; su_event := n; su_run := fun e => world_op (boundHandler (site_view name) p h id e) |}]
  | None => List.filter (fun x => String.eqb (su_event x) n) (plan_of rp name p) = []
  end.
Proof.
  intros [Hc Hv Hwf Hid _]. unfold plan_of. rewrite Hc, Hv. unfold subscriptions.
  revert Hwf Hid. generalize (pr_on p). intros on. induction on as [| [k h] on IH]; intros Hwf Hid; [done |].
  apply NoDup_cons in Hwf as [Hk Hwf]. apply Forall_cons in Hid as [Hi Hid]. specialize (IH Hwf Hid).
  cbn [flat_map mget]. destruct (ph_id h) as [id |] eqn:Eh; [| done]. cbn [app map List.filter su_event].
  rewrite (String.eqb_sym k n). destruct (String.eqb_spec n k) as [-> | Hne]; [| exact IH].
  rewrite (proj2 (mget_None_keys k on) Hk) in IH. exists id. split; [exact Eh |]. by rewrite IH.
Qed.

(** The listeners of the projections, in turn. *)
Lemma deliver_all rp reducers (l : jsmap (Projection Site)) (e : event) : forall s,
  wf l -> (forall name p, (name, p) ∈ l -> subscribed_projection rp (reducers name) name p) ->
  let listeners := map su_run (List.filter (fun x => String.eqb (su_event x) (ev_name e))
                     (flat_map (fun '(name, p) => plan_of rp name p) l)) in
  exists s', for_each listeners (fun f => try_catch (f e) (log_failure 0 e)) s = (Ok tt, s') /\ beside s' = beside s /\
    (forall name p, (name, p) ∈ l -> views_at name s' = live p (reducers name) (views_at name s) e) /\
    (forall n, n ∉ mkeys l -> views_at n s' = views_at n s).
Proof.
  induction l as [| [k p] l IH]; intros s Hwf Hsub; cbn zeta.
  { exists s. split; [done |]. split; [done |]. split; [by intros ? ? ?%elem_of_nil | done]. }
  apply NoDup_cons in Hwf as [Hk Hwf]. cbn [flat_map]. rewrite List.filter_app, map_app, for_each_app.
  assert (H1 : exists s1, for_each (map su_run (List.filter (fun x => String.eqb (su_event x) (ev_name e)) (plan_of rp k p)))
      (fun f => try_catch (f e) (log_failure 0 e)) s = (Ok tt, s1) /\ delivered k p (reducers k) e s s1).
  { pose proof (Hsub k p (list_elem_of_here _ _)) as Hp. pose proof (plan_of_event rp _ k p (ev_name e) Hp) as Hf.
    destruct (mget (ev_name e) (pr_on p)) as [h |] eqn:Eh.
    - destruct Hf as (id & Hid & ->). cbn [map su_run]. rewrite for_each_one.
      by apply bound_handler_run; [apply Hp | |].
    - rewrite Hf. exists s. split; [done |]. unfold delivered, live, apply_current. by rewrite Eh. }
  destruct H1 as (s1 & H1 & Hv1 & Ho1 & Hb1). rewrite (bind_ok _ _ _ _ _ H1).
  destruct (IH s1 Hwf) as (s2 & H2 & Hb2 & Hv2 & Ho2); [by intros; apply Hsub, list_elem_of_further |].
  exists s2. split; [exact H2 |]. split; [congruence |]. split.
  - intros name q [[= -> ->] | Hin]%elem_of_cons.
    + by rewrite (Ho2 k Hk).
    + rewrite (Hv2 name q Hin), Ho1; [done |]. intros ->. apply Hk. unfold mkeys. by apply (list_elem_of_fmap_2' fst l (k, q)).
  - intros n [Hne Hn]%not_elem_of_cons. rewrite (Ho2 n Hn). by apply Ho1.
Qed.

(** A projection's handler leaves the event bus alone, whatever the event. *)
Lemma bound_handler_bus name (p : Projection Site) h id (e : event) (s : Exec Site unit) :
  (forall e v w, snd (ph_reduce h e v w) = w) ->
  lget site_bus (ex_world (snd (world_op (boundHandler (site_view name) p h id e) s))) = lget site_bus (ex_world s).
Proof.
  intros Hr. set (J := fun w : Site => lget site_bus w = lget site_bus (ex_world s)).
  assert (H : stays J (boundHandler (site_view name) p h id e)).
  { assert (Hz : forall A (m : M Views.store A), stays J (zoom (site_view_lens name) m))
      by (intros A m; by apply stays_zoom).
    unfold boundHandler, update_view. apply stays_bind; [auto with frames |]. intros i.
    apply stays_bind; [| auto with frames]. apply stays_bind; [apply Hz |]. intros v. cbv zeta.
    apply stays_bind; [intros w Hw; by rewrite Hr |]. intros next.
    destruct (is_DeleteView next); (apply stays_bind; [apply Hz | auto with frames]). }
  specialize (H (ex_world s) eq_refl). unfold world_op, zoom. cbn [the_world lget].
  destruct (boundHandler (site_view name) p h id e (ex_world s)) as [r w']. exact H.
Qed.

Lemma plan_bus rp reducers (l : jsmap (Projection Site)) x (e : event) s :
  (forall name p, (name, p) ∈ l -> subscribed_projection rp (reducers name) name p) ->
  x ∈ flat_map (fun '(name, p) => plan_of rp name p) l ->
  lget site_bus (ex_world (snd (su_run x e s))) = lget site_bus (ex_world s).
Proof.
  intros Hsub Hx%list_elem_of_In. apply in_flat_map in Hx as ([name p] & Hin%list_elem_of_In & Hx).
  destruct (Hsub name p Hin) as [Hc Hv Hwf Hid Hp]. unfold plan_of in Hx. rewrite Hc, Hv in Hx.
  apply in_map_iff in Hx as ([n f] & <- & Hx). cbn [su_run].
  unfold subscriptions in Hx. apply in_flat_map in Hx as ([k h] & Hk & Hx).
  destruct (ph_id h) as [id |]; [| done]. destruct Hx as [[= <- <-] |]; [| done].
  apply bound_handler_bus. intros e' v w. rewrite (Hp k h); [done |].
  apply elem_mget; [done | by apply list_elem_of_In].
Qed.

(** The event bus, once [g] is what [init] registered: each projection gets the event. *)
Lemma dispatch_all rp reducers (g : Registry Site unit) (e : event) (s : Exec Site unit) :
  wf (rp_projections rp) ->
  (forall name p, (name, p) ∈ rp_projections rp -> subscribed_projection rp (reducers name) name p) ->
  events_inv (projection_plan rp) g -> lget site_bus (ex_world s) = rg_bus g ->
  exists s', (_ <- EventBus.dispatch (compose_lens the_world site_bus) (invoke g) log_failure
                     (S (length (rg_closures g))) e ;; ret tt) s = (Ok tt, s') /\ beside s' = beside s /\
    (forall name p, (name, p) ∈ rp_projections rp -> views_at name s' = live p (reducers name) (views_at name s) e) /\
    (forall n, n ∉ mkeys (rp_projections rp) -> views_at n s' = views_at n s).
Proof.
  intros Hwf Hsub [Hb Hcl Hm Hh _ _ _] Hbus.
  destruct (deliver_all rp reducers (rp_projections rp) e s Hwf Hsub) as (s' & Hrun & Hrest).
  exists s'. split; [| exact Hrest].
  set (hs := EventBus.handlers_of (rg_bus g) (ev_name e)).
  set (listeners := map su_run (List.filter (fun x => String.eqb (su_event x) (ev_name e)) (projection_plan rp))).
  assert (Hl : map (fun h => rg_closures g !! h) hs = map Some listeners).
  { unfold listeners. rewrite map_map, Hcl.
    transitivity (map (option_map su_run) (map Some (List.filter (fun x => String.eqb (su_event x) (ev_name e))
      (projection_plan rp)))); [| by rewrite map_map].
    unfold hs. rewrite <- Hh, map_map. apply map_ext. intros h. apply list_lookup_fmap. }
  assert (Hhs : EventBus.run_handlers (invoke g) log_failure hs e s = (Ok tt, s')).
  { unfold EventBus.run_handlers. set (G := fun o : option (event -> M (Exec Site unit) unit) =>
      try_catch (match o with Some f => f e | None => ret tt end) (log_failure 0 e)).
    transitivity (for_each (map (fun h => rg_closures g !! h) hs) G s).
    - rewrite (for_each_map (fun h => rg_closures g !! h) _ G). apply for_each_ext. intros h _ s0.
      unfold G, invoke, try_catch. destruct (match rg_closures g !! h with Some f => f e | None => ret tt end s0) as [[|] ?];
        [done | by rewrite !quiet_log].
    - rewrite Hl, (for_each_map Some _ G). exact Hrun. }
  assert (Hlen : (length hs <= length (rg_closures g))%nat).
  { transitivity (length listeners); [by rewrite <- (length_map (fun h => rg_closures g !! h)), Hl, length_map |].
    unfold listeners. rewrite Hcl, !length_map. apply filter_length_le. }
  assert (Hst : forall ref, EventBus.stable (compose_lens the_world site_bus) (invoke g) log_failure ref e).
  { intros ref h s0 r s1 Hi. cbn [lget compose_lens the_world]. f_equal. f_equal. destruct Hi as [Hi | [err Hi]].
    - unfold invoke in Hi. destruct (rg_closures g !! h) as [f |] eqn:Ef; [| by injection Hi as _ <-].
      rewrite Hcl in Ef. change (map su_run ?l) with (su_run <$> l) in Ef.
      apply list_lookup_fmap_Some in Ef as (x & -> & Hx). apply list_elem_of_lookup_2 in Hx.
      change s1 with (snd (r, s1)). rewrite <- Hi. by eapply plan_bus.
    - rewrite quiet_log in Hi. by injection Hi as _ <-. }
  unfold EventBus.dispatch. unfold bind at 1, bind at 1, gets at 1. cbn [lget compose_lens the_world]. rewrite Hbus.
  unfold hs, EventBus.handlers_of in Hhs, Hlen.
  destruct (mget (ev_name e) (EventBus.registry (rg_bus g))) as [ref |]; [| exact Hhs].
  destruct (EventBus.dispatch_loop_spec (compose_lens the_world site_bus) (invoke g) log_failure
    (S (length (rg_closures g))) ref 0 e s (Hst ref)) as [Hd _]; [by intros; rewrite quiet_log | |];
    cbn [lget compose_lens the_world] in *; rewrite ?Hbus, drop_0 in *; [lia |].
  rewrite Hd, Hhs. done.
Qed.
End event.

(** ** Maps over the entries of a map *)

Lemma mget_map_entries {A B} (f : string -> A -> B) n (m : jsmap A) :
  mget n (map (fun '(k, a) => (k, f k a)) m) = option_map (f n) (mget n m).
Proof.
  induction m as [| [k a] m IH]; [done |]. cbn [map mget].
  destruct (String.eqb_spec n k) as [-> | Hne]; [done | exact IH].
Qed.

Lemma mkeys_map_entries {A B} (f : string -> A -> B) (m : jsmap A) :
  mkeys (map (fun '(k, a) => (k, f k a)) m) = mkeys m.
Proof. unfold mkeys. rewrite map_map. by apply map_ext; intros []. Qed.

Lemma augment_pure {W} name (p : Projection W) red : pure_reducers p red -> pure_reducers (augment name p) red.
Proof.
  intros H n h. cbn [augment pr_on]. rewrite (mget_map_entries (augment_handler name)).
  destruct (mget n (pr_on p)) as [h0 |] eqn:E; [| done]. intros [= <-] e v s.
  unfold augment_handler. destruct (ph_id h0); by apply (H n h0 E).
Qed.

Lemma augment_identified {W} name (p : Projection W) :
  Forall (fun '(_, h) => is_some (ph_id h) = true) (pr_on (augment name p)).
Proof.
  cbn [augment pr_on]. induction (pr_on p) as [| [n h] on IH]; constructor; [| exact IH].
  unfold augment_handler. by destruct (ph_id h) eqn:E; cbn; rewrite ?E.
Qed.

(** ** The domain *)

(** The instance that an enriched event belongs to. *)
Definition instance_key (e : event) : option string :=
  match metadata_opt md_aggregateName e, metadata_opt md_aggregateId e with
  | Some name, Some i => Some (composite_key name i)
  | _, _ => None
  end.

Definition of_instance (k : string) (e : event) : bool := bool_decide (instance_key e = Some k).

Definition history (k : string) (log : list event) : list event := List.filter (of_instance k) log.

Lemma enriched_instance name i corr caus user resolver n es es' :
  enriched name i corr caus user resolver n es es' ->
  Forall (fun e => instance_key e = Some (composite_key name i)) es'.
Proof.
  induction 1 as [| n e es e' es' md -> _ _ _ _ Hn Hi _ _ IH]; constructor; [| done].
  unfold instance_key, metadata_opt. cbn. by rewrite Hn, Hi.
Qed.

Lemma history_app k log es key :
  Forall (fun e => instance_key e = Some key) es ->
  history k (log ++ es) = if String.eqb k key then history k log ++ es else history k log.
Proof.
  intros H. unfold history. rewrite List.filter_app.
  assert (Hes : List.filter (of_instance k) es = if String.eqb k key then es else []).
  { induction H as [| e es He _ IH]; cbn [List.filter]; [by destruct (String.eqb k key) |].
    unfold of_instance at 1. rewrite He. destruct (String.eqb_spec k key) as [-> | Hne].
    - rewrite bool_decide_true by done. by rewrite IH.
    - rewrite bool_decide_false by congruence. exact IH. }
  rewrite Hes. destruct (String.eqb k key); [done | apply app_nil_r].
Qed.

(** The parts of the site that a command handler may not touch. *)
Definition site_stores (w : Site) : EventStore.store * SnapStore.store * jsmap Views.store * EventBus.bus :=
  (w_events (fst w), w_snaps (fst w), w_views (fst w), lget site_bus w).

Section domain.
Context (log_failure : nat -> event -> js_error -> M (Exec Site unit) unit)
  (quiet_log : forall h e err s, log_failure h e err s = (Ok tt, s))
  (strategy : SnapshotStrategy) (aggregates : jsmap (Aggregate Site))
  (projections : jsmap (ProjectionDefinition Site unit)) (upcasters : jsmap (option (jsmap raw_chain)))
  (reducer : string -> string -> event -> value -> result value).

(** Aggregates and projections; no saga and no standalone handler. *)
Definition rm_definition (_ : Infrastructure Site unit) : DomainDefinition Site unit :=
  {| df_aggregates := aggregates; df_standaloneCommandHandlers := None; df_projections := projections;
     df_standaloneQueryHandlers := None; df_sagas := None; df_standaloneEventHandlers := None |}.

(** [{ aggregates: { snapshots: { store, strategy } }, projections: { [name]: { viewStore } } }] *)
Definition rm_wiring : DomainWiring Site unit :=
  {| dw_persistenceAdapter := None; dw_infrastructure := None;
     dw_aggregates := Some {| ao_keys := ["snapshots"%string];
       ao_global := {| aw_persistence := None; aw_concurrency := None;
                       aw_snapshots := Some {| sw_store := Some (ret site_snaps); sw_strategy := strategy |} |};
       ao_perAggregate := empty |};
     dw_projections := map (fun '(name, _) => (name, InMemoryViewStoreFactory (site_view name))) projections;
     dw_sagas := None; dw_buses := None; dw_unitOfWork := None; dw_idempotency := None; dw_outbox := None;
     dw_relayBatchSize := None; dw_metadataProvider := None |}.

Definition not_a_component {A} (_ : A) : component Site := {| cp_connect := None; cp_close := None |}.

Definition rm_init (depth : nat) : M Site (RunningDomain) :=
  init site_host site_bus (EventSourced site_events) site_sagas None log_failure
    not_a_component not_a_component not_a_component rm_wiring rm_definition upcasters depth.

Definition rm_dispatchCommand (rd : RunningDomain) (depth : nat) : command -> M (Exec Site unit) (option ID) :=
  domain_dispatchCommand site_host site_gate site_bus None log_failure rm_wiring rm_definition rd depth.

(** Handlers work on what they are given; names make composite keys unambiguous. *)
Record plain_domain : Prop := {
  pl_names : forall name ag, (name, ag) ∈ aggregates -> no_colon name = true;
  pl_aggregates : wf aggregates;
  pl_decide : forall name ag n handler, (name, ag) ∈ aggregates -> mget n (ag_decide ag) = Some handler ->
    forall c v, keeps site_stores (handler c v);
  pl_projections : wf projections;
  pl_eventual : forall name pd, mget name projections = Some pd ->
    pr_consistency (pd_projection pd) = Eventual /\ wf (pr_on (pd_projection pd)) /\
    pure_reducers (pd_projection pd) (reducer name)
}.

(** ** What [init] makes of it *)

Definition rm_resolved (rp : ResolvedProjections Site unit) : Resolved Site unit :=
  {| rs_customInfra := []; rs_cqrsInfra := in_process_buses site_bus;
     rs_persistenceResolver := GlobalAggregatePersistenceResolver (EventSourced site_events);
     rs_snapshotResolver := with_snapshots site_snaps strategy; rs_sagaPersistence := None;
     rs_run_commit := run_in_memory; rs_concurrencyStrategy := OptimisticConcurrencyStrategy 0;
     rs_idempotencyStore := None; rs_projections := rp; rs_outboxStore := None |}.

Definition rm_infrastructure (rp : ResolvedProjections Site unit) (depth : nat) : Infrastructure Site unit :=
  infrastructure_at site_host site_bus None log_failure rm_wiring rm_definition (rm_resolved rp) depth.

Definition rm_registration (rp : ResolvedProjections Site unit) (depth : nat) : result unit * Registry Site unit :=
  registration site_host None rm_wiring rm_definition (rm_resolved rp) (rm_infrastructure rp depth).

Lemma validate_quiet (w : Site) r w' : validate_upcasters upcasters w = (r, w') -> w' = w.
Proof.
  intros H. change w' with (snd (r, w')). rewrite <- H.
  assert (Hs : stays (fun x => x = w) (validate_upcasters upcasters)); [| by apply Hs].
  unfold validate_upcasters. apply stays_for_each. intros [name ups] _.
  apply stays_for_each. intros [n chain] _. destruct (valid_chain chain); [apply stays_ret | apply stays_throw].
Qed.

Lemma rm_init_inv depth (w w1 : Site) rd :
  rm_init depth w = (Ok rd, w1) ->
  exists rp g, resolve_projections (dw_projections rm_wiring) projections = Ok rp /\
    rd_resolved rd = rm_resolved rp /\ rm_registration rp depth = (Ok tt, g) /\ w1 = lset site_bus (rg_bus g) w.
Proof.
  unfold rm_init, init, prepare. intros H.
  apply bind_inv_ok in H as (rs & w2 & H & H2). apply bind_inv_ok in H as (rs' & w3 & Hr & H).
  assert (Hrs : exists rp, resolve_projections (dw_projections rm_wiring) projections = Ok rp /\ rs' = rm_resolved rp /\ w3 = w).
  { unfold resolve in Hr. cbn -[resolve_projections] in Hr. unfold bind, lift_result, ret, resolve_global, GlobalAggregatePersistenceResolver in Hr.
    cbn -[resolve_projections] in Hr. destruct (resolve_projections _ projections) as [rp |] eqn:E; [| done].
    cbn in Hr. injection Hr as <- <-. exists rp. by repeat split. }
  destruct Hrs as (rp & Hrp & -> & ->). apply bind_inv_ok in H as ([] & w4 & Hv & H). apply validate_quiet in Hv as ->.
  exists rp. fold (rm_infrastructure rp depth) in H. fold (rm_registration rp depth) in H.
  destruct (rm_registration rp depth) as [r g]. exists g.
  apply bind_inv_ok in H as ([] & w5 & Hb & H). injection Hb as <-.
  apply bind_inv_ok in H as ([] & w6 & Hl & H). injection Hl as -> <-. injection H as <- <-.
  injection H2 as <- <-. by repeat split.
Qed.

(** What the resolution leaves for the bus. *)
Lemma mget_wired name :
  mget name (dw_projections rm_wiring)
  = option_map (fun _ => InMemoryViewStoreFactory (site_view name)) (mget name projections).
Proof. apply (mget_map_entries (fun name _ => InMemoryViewStoreFactory (site_view name))). Qed.

Lemma resolved_projections rp name p :
  plain_domain -> resolve_projections (dw_projections rm_wiring) projections = Ok rp ->
  (name, p) ∈ rp_projections rp <-> exists pd, mget name projections = Some pd /\ p = augment name (pd_projection pd).
Proof.
  intros Hp H. unfold resolve_projections in H. destruct (find_unwired_strong _); [done |]. injection H as <-.
  pose proof (resolve_views_at (dw_projections rm_wiring) projections name (pl_projections Hp)) as Hat.
  pose proof (resolve_views_wf (dw_projections rm_wiring) projections) as Hwf.
  unfold resolved_at, expected_at, projection_factory in Hat. rewrite mget_wired in Hat.
  destruct (mget name projections) as [pd |] eqn:E; cbn [option_map] in Hat; injection Hat as _ _ Hat.
  - split; [intros Hin; exists pd; split; [done |] | intros (pd' & [= <-] & ->); by apply mget_Some_elem].
    apply (elem_mget _ _ _ Hwf) in Hin. by injection (eq_trans (eq_sym Hin) Hat).
  - split; [intros Hin | by intros (? & ? & _)]. apply (elem_mget _ _ _ Hwf) in Hin.
    discriminate (eq_trans (eq_sym Hin) Hat).
Qed.

Lemma all_subscribed rp name p :
  plain_domain -> resolve_projections (dw_projections rm_wiring) projections = Ok rp ->
  (name, p) ∈ rp_projections rp -> subscribed_projection rp (reducer name) name p.
Proof.
  intros Hp H Hin. pose proof Hin as Hin'. apply (resolved_projections rp name p Hp H) in Hin' as (pd & Hpd & ->).
  destruct (pl_eventual Hp name pd Hpd) as (Hc & Hwf & Hpure). split.
  - exact Hc.
  - unfold resolve_projections in H. destruct (find_unwired_strong _); [done |]. injection H as <-.
    pose proof (resolve_views_at (dw_projections rm_wiring) projections name (pl_projections Hp)) as Hat.
    unfold resolved_at, expected_at, projection_factory in Hat. rewrite mget_wired, Hpd in Hat. cbn [option_map] in Hat.
    injection Hat as -> _ _. reflexivity.
  - cbn [augment pr_on]. unfold wf. by rewrite (mkeys_map_entries (augment_handler name)).
  - apply augment_identified.
  - by apply augment_pure.
Qed.

Lemma no_strong rp :
  plain_domain -> resolve_projections (dw_projections rm_wiring) projections = Ok rp ->
  strong_with_factories rp = [].
Proof.
  intros Hp H. unfold strong_with_factories, strongProjections.
  assert (Hall : forall name p, (name, p) ∈ rp_projections rp -> pr_consistency p = Eventual).
  { intros name p Hin. by apply (sp_eventual _ _ _ _ (all_subscribed rp name p Hp H Hin)). }
  induction (rp_projections rp) as [| [name p] l IH]; [done |]. cbn [List.filter].
  rewrite (Hall name p) by apply list_elem_of_here. cbn. apply IH. intros n q Hin. by eapply Hall, list_elem_of_further.
Qed.

(** ** The invariant

    [stored] orders the events of the store, [seen] those that the projections were given. *)
Record consistent (g : Registry Site unit) (s : Exec Site unit) (stored seen : list event) : Prop := {
  co_uow : ex_uow s = None;
  co_bus : lget site_bus (ex_world s) = rg_bus g;
  co_history : forall k, site_stream (ex_world s) k = history k stored;
  co_snaps : forall name ag, (name, ag) ∈ aggregates ->
    snapshots_consistent site_stream site_snap name ag (ex_world s);
  co_views : forall name pd, mget name projections = Some pd ->
    views_at name s = fold_left (live (augment name (pd_projection pd)) (reducer name)) seen empty
}.

Lemma beside_consistent g s s' stored seen seen' :
  beside s' = beside s -> consistent g s stored seen ->
  (forall name pd, mget name projections = Some pd ->
     views_at name s' = fold_left (live (augment name (pd_projection pd)) (reducer name)) seen' empty) ->
  consistent g s' stored seen'.
Proof.
  unfold beside. intros [= Hu He Hs Hb] [H1 H2 H3 H4 _] Hv.
  assert (Hst : forall k, site_stream (ex_world s') k = site_stream (ex_world s) k)
    by (intros k; unfold site_stream, world_stream; by rewrite He).
  assert (Hsn : forall k, site_snap (ex_world s') k = site_snap (ex_world s) k)
    by (intros k; unfold site_snap, world_snap; by rewrite Hs).
  split; [by rewrite Hu | by rewrite <- H2 | intros k; by rewrite Hst | | done].
  intros name ag Hin i sn. rewrite Hsn, Hst. by apply H4.
Qed.

(** One event reaches every projection. *)
Lemma publish_one rp depth g e s stored seen :
  plain_domain -> resolve_projections (dw_projections rm_wiring) projections = Ok rp ->
  rm_registration rp depth = (Ok tt, g) -> consistent g s stored seen ->
  exists s', if_dispatchEvent (rm_infrastructure rp (S depth)) e s = (Ok tt, s') /\ consistent g s' stored (seen ++ [e]).
Proof.
  intros Hp Hrp Hreg Hc. unfold rm_infrastructure. cbn [infrastructure_at infrastructure_of if_dispatchEvent].
  fold (rm_infrastructure rp depth). fold (rm_registration rp depth). rewrite Hreg. cbn [snd].
  unfold event_dispatch. cbn [rm_resolved rs_cqrsInfra in_process_buses cb_dispatch_event]. unfold in_process_dispatch.
  assert (Hinv : events_inv (projection_plan rp) g).
  { pose proof (register_handlers_run (command_executor site_host None rm_wiring (rm_resolved rp) (rm_infrastructure rp depth))
      (saga_executor site_host (rm_resolved rp) (rm_infrastructure rp depth)) (rm_definition (rm_infrastructure rp depth)) rp) as H.
    unfold rm_registration, registration in Hreg. cbn [rm_resolved rs_projections] in Hreg. rewrite Hreg in H.
    destruct H as (_ & _ & _ & _ & H). unfold event_plan in H. cbn in H. by rewrite app_nil_r in H. }
  assert (Hwf : wf (rp_projections rp)).
  { unfold resolve_projections in Hrp. destruct (find_unwired_strong _); [done |]. injection Hrp as <-. apply resolve_views_wf. }
  destruct (dispatch_all log_failure quiet_log rp reducer g e s Hwf
    (fun name p => all_subscribed rp name p Hp Hrp) Hinv (co_bus _ _ _ _ Hc)) as (s' & H & Hb & Hv & _).
  exists s'. split; [exact H |]. eapply beside_consistent; [exact Hb | exact Hc |].
  intros name pd Hpd. rewrite fold_left_app. cbn [fold_left]. rewrite <- (co_views _ _ _ _ Hc name pd Hpd).
  apply Hv. apply (resolved_projections rp name _ Hp Hrp). by exists pd.
Qed.

Lemma publish_all rp depth g es : forall s stored seen,
  plain_domain -> resolve_projections (dw_projections rm_wiring) projections = Ok rp ->
  rm_registration rp depth = (Ok tt, g) -> consistent g s stored seen ->
  exists s', for_each es (if_dispatchEvent (rm_infrastructure rp (S depth))) s = (Ok tt, s') /\
    consistent g s' stored (seen ++ es).
Proof.
  induction es as [| e es IH]; intros s stored seen Hp Hrp Hreg Hc; cbn [for_each].
  { exists s. by rewrite app_nil_r. }
  destruct (publish_one rp depth g e s stored seen Hp Hrp Hreg Hc) as (s1 & H1 & Hc1).
  destruct (IH s1 stored (seen ++ [e]) Hp Hrp Hreg Hc1) as (s2 & H2 & Hc2).
  exists s2. rewrite (bind_ok _ _ _ _ _ H1). split; [exact H2 |]. by rewrite <- app_assoc in Hc2.
Qed.

(** ** Commands *)

Lemma find_aggregate_elem {W} n (ags : jsmap (Aggregate W)) name ag :
  find_aggregate n ags = Some (name, ag) -> (name, ag) ∈ ags.
Proof.
  induction ags as [| [k a] ags IH]; [done |]. cbn [find_aggregate].
  destruct (mhas n (ag_decide a)); [intros [= <- <-]; apply list_elem_of_here | intros H; by apply list_elem_of_further, IH].
Qed.

(** What handlers may not touch includes the stores. *)
Lemma decide_quiet name ag :
  plain_domain -> (name, ag) ∈ aggregates -> quiet_collaborators (Tx := unit) site_stream site_snap None None ag.
Proof.
  intros Hp Hin. split; [| done | done]. intros n handler Hh c v w r w' H.
  pose proof (pl_decide Hp name ag n handler Hin Hh c v w) as Hk. rewrite H in Hk. injection Hk as He Hs _ _.
  intros k. unfold site_stream, site_snap, world_stream, world_snap. by rewrite He, Hs.
Qed.

(** The views and the bus. *)
Definition read_side (w : Site) : jsmap Views.store * EventBus.bus := (w_views (fst w), lget site_bus w).

Lemma read_side_frame name ag :
  plain_domain -> (name, ag) ∈ aggregates ->
  frame_collaborators read_side site_host site_events site_snaps name ag.
Proof.
  intros Hp Hin. split; try done.
  - by intros f i v [= <-] w.
  - intros i es v s. cbn. unfold zoom. cbn. by destruct (EventStore.save name i es v _).
  - intros n handler Hh c v w. pose proof (pl_decide Hp name ag n handler Hin Hh c v w) as Hk.
    unfold site_stores in Hk. unfold read_side. congruence.
Qed.

Lemma read_side_views (s s' : Exec Site unit) : read_side (ex_world s') = read_side (ex_world s) ->
  (forall name, views_at name s' = views_at name s) /\ lget site_bus (ex_world s') = lget site_bus (ex_world s).
Proof. unfold read_side. intros [= Hv Hb]. split; [| done]. intros name. unfold views_at. cbn. by rewrite Hv. Qed.

(** Snapshots of the other aggregates. *)
Lemma other_snapshots name ag c (s s' : Exec Site unit) name' ag' :
  plain_domain -> (name, ag) ∈ aggregates -> (name', ag') ∈ aggregates -> name' <> name ->
  (forall k, k <> composite_key name (target c) -> site_stream (ex_world s') k = site_stream (ex_world s) k /\
     site_snap (ex_world s') k = site_snap (ex_world s) k) ->
  snapshots_consistent site_stream site_snap name' ag' (ex_world s) ->
  snapshots_consistent site_stream site_snap name' ag' (ex_world s').
Proof.
  intros Hp Hin Hin' Hne Hsame Hc i sn.
  assert (Hk : composite_key name' i <> composite_key name (target c)).
  { intros Hk. apply Hne. by destruct (colon_split _ _ _ _ (pl_names Hp _ _ Hin') (pl_names Hp _ _ Hin) Hk). }
  destruct (Hsame _ Hk) as [-> ->]. apply Hc.
Qed.

Definition read_model (g : Registry Site unit) (s : Exec Site unit) : Prop := exists log, consistent g s log log.

(** The commit of a command: one history grows, the views are yet to be told. *)
Lemma commit_consistent name ag c s g log :
  plain_domain -> (name, ag) ∈ aggregates -> consistent g s log log ->
  match exec_commit site_host site_events site_snaps None strategy None None 0 name ag c s with
  | (Ok events, s') => consistent g s' (log ++ events) log
  | (Err _, s') => consistent g s' log log
  end.
Proof.
  intros Hp Hin [Hu Hb Hh Hs Hv].
  pose proof (exec_commit_frame (Tx := unit) site_host site_events site_snaps None strategy None None 0 name ag read_side c
    eq_refl eq_refl (read_side_frame name ag Hp Hin)) as Hf.
  specialize (Hf (fun n i sn w => eq_refl) s).
  pose proof (exec_commit_spec (Tx := unit) site_host site_events site_snaps site_stream site_snap None strategy None None 0
    name ag c s (decide_quiet name ag Hp Hin) (Hs name ag Hin) eq_refl eq_refl) as Hspec.
  destruct (exec_commit _ _ _ _ _ _ _ _ _ _ c s) as [[events | e] s'].
  all: pose proof (f_equal fst Hf) as Huow; destruct (read_side_views s s' (f_equal snd Hf)) as [Hv' Hb'];
    cbn [fst snd] in Huow.
  - destruct Hspec as (s0 & pending & w1 & Ho & [Hst (state & newEvents & newState & corr & caus & user & _ & _ & _ & Hen & _)] & Hs2 & Hsn & Hne).
    assert (Hstream : forall k, site_stream (ex_world s') k
      = if String.eqb k (composite_key name (target c)) then site_stream (ex_world s) k ++ events else site_stream (ex_world s) k).
    { intros k. rewrite Hs2, (proj1 (Hst k)). destruct (String.eqb_spec k (composite_key name (target c))) as [-> |];
        by rewrite (proj1 (Ho _)). }
    split; [by rewrite Huow | by rewrite Hb' | | | intros n pd Hpd; rewrite Hv'; by apply Hv].
    + intros k. rewrite Hstream, Hh. symmetry. eapply history_app, enriched_instance, Hen.
    + intros n a Hin'. destruct (decide (n = name)) as [-> | Hn].
      * assert (a = ag) as ->; [| exact Hsn].
        apply (elem_mget _ _ _ (pl_aggregates Hp)) in Hin, Hin'. congruence.
      * apply (other_snapshots name ag c s s' n a Hp Hin Hin' Hn); [| by apply Hs].
        intros k Hk. split; [rewrite Hstream; by destruct (String.eqb_spec k (composite_key name (target c))) | by apply Hne].
  - destruct Hspec as [Ho _]. split; [by rewrite Huow | by rewrite Hb' | | | intros n pd Hpd; rewrite Hv'; by apply Hv].
    + intros k. by rewrite (proj1 (Ho k)).
    + intros n a Hin' i sn. destruct (Ho (composite_key n i)) as [-> ->]. by apply Hs.
Qed.

(** A command keeps the read model a function of the write model, whatever its outcome. *)
Lemma command_read_model rp depth rd g c :
  plain_domain -> resolve_projections (dw_projections rm_wiring) projections = Ok rp ->
  rd_resolved rd = rm_resolved rp -> rm_registration rp depth = (Ok tt, g) ->
  stays (read_model g) (rm_dispatchCommand rd depth c).
Proof.
  intros Hp Hrp Hrd Hreg.
  assert (Hgate : forall A (m : M Gate A), stays (read_model g) (world_op (zoom site_gate m))).
  { intros A m [[w [gt rest]] u meta] [log [H1 H2 H3 H4 H5]]. unfold world_op, zoom. cbn.
    destruct (m gt) as [r gt']. exists log. by split. }
  unfold rm_dispatchCommand, domain_dispatchCommand, dispatchCommand, guarded, running_infrastructure. rewrite Hrd.
  fold (rm_infrastructure rp (S depth)). cbn [rm_definition df_aggregates].
  apply stays_bind; [apply Hgate |]. intros _.
  apply stays_try_finally; [| apply stays_bind; [apply Hgate | intros b; apply stays_ret]].
  apply stays_bind; [| intros _; apply stays_ret].
  destruct (find_aggregate (cmd_name c) aggregates) as [[name ag] |] eqn:Ef.
  - apply find_aggregate_elem in Ef. intros s [log Hc]. unfold command_executor, events_produced, events_dispatched.
    cbn [rm_resolved rs_projections rs_outboxStore rs_persistenceResolver rs_run_commit rs_concurrencyStrategy
      rs_snapshotResolver rs_idempotencyStore is_some]. rewrite (no_strong rp Hp Hrp). cbn [length Nat.ltb Nat.leb orb option_map].
    pose proof (execute_implicit_run (Tx := unit) site_host site_events site_snaps None strategy None None None
      (if_dispatchEvent (rm_infrastructure rp (S depth))) 0 name ag c s eq_refl (co_uow _ _ _ _ Hc)) as Hrun.
    unfold the_enricher in Hrun. cbn [option_map] in Hrun. change (Z.of_nat 0) with 0%Z in Hrun. cbn [rm_wiring dw_metadataProvider].
    rewrite Hrun, exec_implicit_split. clear Hrun.
    pose proof (commit_consistent name ag c s g log Hp Ef Hc) as Hcommit. unfold bind at 1.
    destruct (exec_commit _ _ _ _ _ _ _ _ _ _ c s) as [[events | e] s1]; [| by exists log].
    destruct (publish_all rp depth g events s1 (log ++ events) log Hp Hrp Hreg Hcommit) as (s2 & H2 & Hc2).
    rewrite (bind_ok _ _ _ _ _ H2). by exists (log ++ events).
  - intros s Hs. unfold rm_infrastructure. cbn [infrastructure_at infrastructure_of if_dispatchCommand].
    fold (rm_infrastructure rp depth). fold (rm_registration rp depth). rewrite Hreg. cbn [snd].
    pose proof (register_handlers_run (command_executor site_host None rm_wiring (rm_resolved rp) (rm_infrastructure rp depth))
      (saga_executor site_host (rm_resolved rp) (rm_infrastructure rp depth)) (rm_definition (rm_infrastructure rp depth)) rp) as H.
    unfold rm_registration, registration in Hreg. cbn [rm_resolved rs_projections] in Hreg. rewrite Hreg in H.
    unfold command_dispatch. cbn [rm_resolved rs_cqrsInfra in_process_buses cb_dispatch_command].
    destruct H as (_ & _ & -> & _). unfold CommandBus.dispatch, command_entries, CommandBus.handler.
    rewrite mget_app, mget_aggregate_entries. cbn [rm_definition df_aggregates df_standaloneCommandHandlers]. by rewrite Ef.
Qed.

(** C8. The read model follows the write model, from the wiring to the views.  A domain of
    aggregates and eventually consistent projections is wired over the in-memory stores,
    with snapshots; whatever commands are then dispatched, known or not, accepted or
    rejected, there is one order of all the stored events that keeps the order of every
    instance's history and of which the views of each projection are the fold (an event
    whose handler fails being skipped): no event is lost or delivered twice, and no
    rejected command leaves a trace in the views. *)
Theorem read_model_follows_write_model (depth : nat) (h : Host) (w1 : Site) (rd : RunningDomain) (cs : list command) (s' : Exec Site unit) :
  plain_domain ->
  rm_init depth (empty_site h) = (Ok rd, w1) ->
  for_each cs (fun c => swallow (_ <- rm_dispatchCommand rd depth c ;; ret tt)) (at_site w1) = (Ok tt, s') ->
  exists log,
    (forall k, site_stream (ex_world s') k = List.filter (fun e => bool_decide (instance_key e = Some k)) log) /\
    (forall name pd, mget name projections = Some pd ->
       views_at name s' = fold_left (live (augment name (pd_projection pd)) (reducer name)) log empty).
Proof.
  intros Hp Hinit Hrun. destruct (rm_init_inv depth _ _ _ Hinit) as (rp & g & Hrp & Hrd & Hreg & ->).
  assert (H0 : read_model g (at_site (lset site_bus (rg_bus g) (empty_site h)))).
  { exists []. by split. }
  assert (Hs : stays (read_model g) (for_each cs (fun c => swallow (_ <- rm_dispatchCommand rd depth c ;; ret tt)))).
  { apply stays_for_each. intros c _. apply stays_swallow, stays_bind; [by eapply command_read_model | intros i; apply stays_ret]. }
  specialize (Hs _ H0). rewrite Hrun in Hs. destruct Hs as [log [_ _ H3 _ H5]]. exists log. by split.
Qed.
End domain.

(** ** A bank *)

Definition bank_deposit : command -> value -> M Site decision := fun c _ =>
  match cmd_payload c with
  | VNum n => ret (OneEvent {| ev_name := "Deposited"; ev_payload := VNum n; ev_metadata := None |})
  | _ => throw (PlainError "invalid amount")
  end.

Definition bank_aggregates : jsmap (Aggregate Site) :=
  [("Account"%string, {| ag_initialState := VNum 0; ag_decide := [("Deposit"%string, bank_deposit)];
                         ag_evolve := [("Deposited"%string, apply_deposit)]; ag_upcasters := None |})].

(** The balance per account, and a projection whose handler always fails. *)
Definition bank_reducer (projection : string) (n : string) (e : event) (v : value) : result value :=
  if String.eqb projection "Balances" then add_deposit n e v else Err (PlainError "broken projection").

Definition bank_projection (name : string) : ProjectionDefinition Site unit :=
  {| pd_projection := {| pr_on := [("Deposited"%string, {| ph_id := None;
                                     ph_reduce := fun e v s => (bank_reducer name "Deposited" e v, s) |})];
                         pr_initialView := VNum 0; pr_consistency := Eventual |};
     pd_queryHandlers := []; pd_viewStore := None |}.

Definition bank_projections : jsmap (ProjectionDefinition Site unit) :=
  [("Broken"%string, bank_projection "Broken"); ("Balances"%string, bank_projection "Balances")].

Definition bank_log (h : nat) (e : event) (err : js_error) : M (Exec Site unit) unit := ret tt.

Definition bank_init : result RunningDomain * Site :=
  rm_init bank_log (everyNEvents 2) bank_aggregates bank_projections [] 0 (empty_site sample_host).

Definition bank_command (name : string) (account : Z) (payload : value) : command :=
  {| cmd_name := name; cmd_payload := payload; cmd_commandId := None; cmd_targetAggregateId := Some (IdNum account) |}.

(** Three deposits on two accounts, a rejected one, an unknown command. *)
Definition bank_commands : list command :=
  [bank_command "Deposit" 1 (VNum 5); bank_command "Deposit" 2 (VNum 10); bank_command "Deposit" 1 VNull;
   bank_command "Transfer" 1 (VNum 3); bank_command "Deposit" 1 (VNum 7)].

Definition bank_run (rd : RunningDomain) (w : Site) : result unit * Exec Site unit :=
  for_each bank_commands (fun c => swallow (_ <- rm_dispatchCommand bank_log (everyNEvents 2) bank_aggregates
                                               bank_projections rd 0 c ;; ret tt)) (at_site w).

Lemma bank_plain : plain_domain bank_aggregates bank_projections bank_reducer.
Proof.
  split.
  - intros name ag [[= -> ->] | H]%elem_of_cons; [reflexivity | by apply elem_of_nil in H].
  - by apply (bool_decide_unpack _).
  - intros name ag n handler [[= -> ->] | H]%elem_of_cons; [| by apply elem_of_nil in H]. cbn.
    destruct (String.eqb n "Deposit"); [| done]. intros [= <-] c v w. unfold bank_deposit. by destruct (cmd_payload c).
  - by apply (bool_decide_unpack _).
  - intros name pd. cbn. destruct (String.eqb_spec name "Broken") as [-> | _]; [| destruct (String.eqb_spec name "Balances") as [-> | _]; [| done]];
      (intros [= <-]; split; [done |]; split; [by apply (bool_decide_unpack _) |];
       intros n h; cbn; destruct (String.eqb_spec n "Deposited") as [-> | _]; [by intros [= <-] | done]).
Qed.

Lemma bank_observed :
  match bank_init with
  | (Ok rd, w1) =>
      let '(r, s') := bank_run rd w1 in
      r = Ok tt /\ map ev_payload (site_stream (ex_world s') "Account:1") = [VNum 5; VNum 7] /\
      views_at "Balances" s' = [("1"%string, VNum 12); ("2"%string, VNum 10)] /\ views_at "Broken" s' = []
  | (Err _, _) => False
  end.
Proof. vm_compute. by repeat split. Qed.

Lemma read_model_follows_write_model_witness :
  match bank_init with
  | (Ok rd, w1) => exists log,
      map ev_payload (List.filter (fun e => bool_decide (instance_key e = Some "Account:1"%string)) log) = [VNum 5; VNum 7] /\
      fold_left (live (augment "Balances" (pd_projection (bank_projection "Balances"))) (bank_reducer "Balances")) log empty
        = [("1"%string, VNum 12); ("2"%string, VNum 10)]
  | (Err _, _) => False
  end.
Proof.
  pose proof bank_observed as Ho. destruct bank_init as [[rd | e] w1] eqn:Hi; [| exact Ho].
  destruct (bank_run rd w1) as [r s'] eqn:Hr. destruct Ho as (-> & Ho1 & Ho2 & _).
  destruct (read_model_follows_write_model bank_log (fun _ _ _ _ => eq_refl) (everyNEvents 2) bank_aggregates
    bank_projections [] bank_reducer 0 sample_host w1 rd bank_commands s' bank_plain Hi Hr) as (log & Hh & Hv).
  exists log. rewrite <- Hh, <- (Hv "Balances"%string (bank_projection "Balances") eq_refl). split; [exact Ho1 | exact Ho2].
Defined.

(** ** A saga that reacts between two events

    The events of one command are published one after the other, and a saga that reacts to
    the first runs in between: here it commands the same instance, whose third event then
    reaches the projection before the second.  The store has the events in the order of
    their versions, so the views of a live projection and those of a rebuild may differ;
    [read_model_follows_write_model] is about domains without sagas for this reason. *)
Definition task_event (name : string) : event := {| ev_name := name; ev_payload := VStr name; ev_metadata := None |}.

Definition task_command (name : string) (i : ID) : command :=
  {| cmd_name := name; cmd_payload := VUndefined; cmd_commandId := None; cmd_targetAggregateId := Some i |}.

Definition task_id (e : event) : result ID :=
  match metadata_opt md_aggregateId e with Some i => Ok i | None => Err (PlainError "no aggregate") end.

Definition task_definition (atomicity : SagaAtomicity) (_ : Infrastructure Site unit) : DomainDefinition Site unit :=
  {| df_aggregates := [("Task"%string, {| ag_initialState := VNull; ag_evolve := []; ag_upcasters := None;
       ag_decide := [("Start"%string, fun _ _ => ret (ManyEvents [task_event "Started"; task_event "Prepared"]));
                     ("Finish"%string, fun _ _ => ret (OneEvent (task_event "Finished")))] |})];
     df_standaloneCommandHandlers := None;
     df_projections := [("Trace"%string, {| pd_queryHandlers := []; pd_viewStore := Some (InMemoryViewStoreFactory (site_view "Trace"));
       pd_projection := {| pr_on := map (fun n => (n, {| ph_id := None; ph_reduce := fun e v =>
                                      ret (match v with VArr l => VArr (l ++ [ev_payload e]) | _ => VArr [ev_payload e] end) |}))
                                    ["Started"; "Prepared"; "Finished"]%string;
                           pr_initialView := VArr []; pr_consistency := Eventual |} |})];
     df_standaloneQueryHandlers := None;
     df_sagas := Some [("Flow"%string, {| sg_initialState := VNull; sg_startedBy := ["Started"%string]; sg_atomicity := Some atomicity;
       sg_on := [("Started"%string, {| on_id := task_id; on_handle := fun e st =>
         match task_id e with
         | Ok i => ret {| re_state := st; re_commands := OneCommand (task_command "Finish" i) |}
         | Err err => throw err
         end |})] |})];
     df_standaloneEventHandlers := None |}.

Definition task_run (atomicity : SagaAtomicity) (depth : nat) : option (result (option ID) * list value * value) :=
  match init site_host site_bus (EventSourced site_events) site_sagas None bank_log not_a_component not_a_component
          not_a_component empty_wiring (task_definition atomicity) [] depth (empty_site sample_host) with
  | (Ok rd, w) =>
      let '(r, s) := domain_dispatchCommand site_host site_gate site_bus None bank_log empty_wiring
                       (task_definition atomicity) rd depth (task_command "Start" (IdNum 1)) (at_site w) in
      Some (r, map ev_payload (site_stream (ex_world s) "Task:1"), or_default (mget "1" (views_at "Trace" s)) VUndefined)
  | (Err _, _) => None
  end.

Example events_overtake_in_both_modes :
  forall atomicity, task_run atomicity 3
    = Some (Ok (Some (IdNum 1)), map VStr ["Started"; "Prepared"; "Finished"]%string,
            VArr (map VStr ["Started"; "Finished"; "Prepared"]%string)).
Proof. intros []; vm_compute; reflexivity. Qed.
