(* ===== verification/OutboxCommit.v ===== *)
(** What a command leaves in the transactional outbox: the executor, the callback that enlists
    the entries ([onEventsProduced] of [Projection.v]) and the in-memory stores of [World.v],
    followed to the commit.  Under [outbox_commit_spec], a command either changes nothing but
    the clock, or appends its events to one history and one pending entry per event to the
    outbox, under identifiers of their own. *)
From S2P Require Import Prelude JsMap CoreTypes Upcaster Uuid Host Stores Idempotency Outbox UnitOfWork Metadata Concurrency World CommandExecutor Frames CommandCorrect Projection.

(** ** The platform advances *)

Definition later (h h' : Host) : Prop :=
  h_clock h' = h_clock h /\ h_random h' = h_random h /\ (h_ticks h <= h_ticks h')%nat /\ (h_draws h <= h_draws h')%nat.

#[export] Instance later_preorder : PreOrder later.
Proof.
  split; [by intros h |]. intros h1 h2 h3 (Hc & Hr & ? & ?) (Hc' & Hr' & ? & ?).
  split; [congruence |]. split; [congruence |]. lia.
Qed.

(** Only the clock has been read and random numbers have been drawn. *)
Definition elapsed (w w' : World) : Prop := exists h, later (w_host w) h /\ w' = lset host_lens h w.

#[export] Instance elapsed_preorder : PreOrder elapsed.
Proof.
  split.
  - intros w. exists (w_host w). split; [done | by destruct w].
  - intros w1 w2 w3 (h & Hh & ->) (h' & Hh' & ->). exists h'. split; [by transitivity h | done].
Qed.

(** The identifier of a reading of the clock and a draw of random bytes. *)
Definition draw (h : Host) (p : nat * nat) : string := uuidv7 (h_clock h (fst p)) (h_random h (snd p)).

(** Identifiers drawn between two moments, each from random bytes of its own. *)
Definition drawn (h h' : Host) (ids : list string) : Prop := exists ps,
  ids = map (draw h) ps /\ NoDup (map snd ps) /\
  Forall (fun p => (fst p < h_ticks h')%nat /\ (h_draws h <= snd p < h_draws h')%nat) ps.

Lemma drawn_nil h h' : drawn h h' [].
Proof. exists []. split; [done |]. split; constructor. Qed.

Lemma draw_later h h' p : later h h' -> draw h' p = draw h p.
Proof. by intros (E1 & E2 & _); unfold draw; rewrite E1, E2. Qed.

Lemma drawn_app h h1 h2 ids ids' : later h h1 -> later h1 h2 -> drawn h h1 ids -> drawn h1 h2 ids' -> drawn h h2 (ids ++ ids').
Proof.
  intros H1 H2 (ps & -> & Hn & Hps) (ps' & -> & Hn' & Hps'). exists (ps ++ ps'). split; [| split].
  - rewrite map_app. f_equal. apply map_ext. intros p. by apply draw_later.
  - rewrite map_app. apply NoDup_app. split; [done |]. split; [| done].
    intros n (p & -> & Hp)%list_elem_of_fmap (p' & E & Hp')%list_elem_of_fmap.
    rewrite Forall_forall in Hps, Hps'. specialize (Hps p Hp). specialize (Hps' p' Hp'). lia.
  - destruct H1 as (_ & _ & Ht & Hd), H2 as (_ & _ & Ht' & Hd'). apply Forall_app_2.
    + eapply Forall_impl; [exact Hps |]. cbv beta. lia.
    + eapply Forall_impl; [exact Hps' |]. cbv beta. lia.
Qed.

Lemma drawn_earlier h h1 h2 ids : later h h1 -> drawn h1 h2 ids -> drawn h h2 ids.
Proof.
  intros H1 (ps & -> & Hn & Hps). exists ps. split; [apply map_ext; intros p; by apply draw_later |]. split; [done |].
  destruct H1 as (_ & _ & _ & Hd). eapply Forall_impl; [exact Hps |]. cbv beta. lia.
Qed.

Lemma new_uuid_run w : exists w', zoom host_lens new_uuid w = (Ok (draw (w_host w) (h_ticks (w_host w), h_draws (w_host w))), w') /\
  elapsed w w' /\ drawn (w_host w) (w_host w') [draw (w_host w) (h_ticks (w_host w), h_draws (w_host w))].
Proof.
  eexists. split; [reflexivity |]. split.
  - eexists. split; [| reflexivity]. split; [done |]. split; [done |]. cbn. lia.
  - exists [(h_ticks (w_host w), h_draws (w_host w))]. split; [done |]. split; [repeat constructor; set_solver |].
    constructor; [cbn; lia | constructor].
Qed.

Lemma date_now_run w : exists t w', zoom host_lens date_now w = (Ok t, w') /\ elapsed w w'.
Proof. do 2 eexists. split; [reflexivity |]. eexists. split; [| reflexivity]. split; [done |]. split; [done |]. cbn. lia. Qed.

Lemma elapsed_later w w' : elapsed w w' -> later (w_host w) (w_host w').
Proof. by intros (h & Hh & ->). Qed.

(** A loop that draws one identifier for each element. *)
Lemma map_indexed_drawn {A B} (f : nat -> A -> M World B) (key : B -> string) (R : A -> B -> Prop) :
  (forall i x w, exists y w', f i x w = (Ok y, w') /\ elapsed w w' /\ R x y /\ drawn (w_host w) (w_host w') [key y]) ->
  forall xs i w, exists ys w', map_indexed f i xs w = (Ok ys, w') /\ elapsed w w' /\ Forall2 R xs ys /\
    drawn (w_host w) (w_host w') (map key ys).
Proof.
  intros Hf. induction xs as [| x xs IH]; intros i w.
  - exists [], w. split; [done |]. split; [done |]. split; [constructor | apply drawn_nil].
  - destruct (Hf i x w) as (y & w1 & E & He & HR & Hd). destruct (IH (S i) w1) as (ys & w2 & E2 & He2 & HR2 & Hd2).
    exists (y :: ys), w2. rewrite map_indexed_cons, E, E2. split; [done |]. split; [by transitivity w1 |].
    split; [by constructor |]. apply (drawn_app _ (w_host w1) _ [key y]); [by apply elapsed_later | by apply elapsed_later | done | done].
Qed.

(** ** What a command enlists *)

Definition event_key (e : event) : string := or_default (metadata_req md_eventId e) EmptyString.
Definition identified (e : event) : Prop := metadata_req md_eventId e = Some (event_key e).

Definition entry_of (e : event) (x : OutboxEntry) : Prop := ob_event x = e /\ ob_publishedAt x = None.

(** The identifiers of events and of their entries, drawn between two moments. *)
Definition numbered (h h' : Host) (events : list event) (entries : list OutboxEntry) : Prop :=
  Forall identified events /\ Forall2 entry_of events entries /\ drawn h h' (map event_key events ++ map ob_id entries).

Section command.
Context {Tx : Type} (provider : option MetadataContext) (strategy : SnapshotStrategy) (maxRetries : nat)
  (name : string) (aggregate : Aggregate World).

(** A decision reads the state, and at most the clock. *)
Definition pure_decisions : Prop := forall n handler, mget n (ag_decide aggregate) = Some handler ->
  forall c s w, elapsed w (snd (handler c s w)).
Context (Hpure : pure_decisions).

Definition produced : list event -> M (UnitOfWork World Tx * World) unit :=
  onEventsProduced (Tx := Tx) host_lens [] (Some world_outbox).

Lemma enrich_drawn meta es i version causation resolver w : exists enr w',
  the_enricher host_lens provider meta es name i version causation resolver w = (Ok enr, w') /\ elapsed w w' /\
  Forall identified enr /\ drawn (w_host w) (w_host w') (map event_key enr).
Proof.
  unfold the_enricher, enrich.
  assert (Hp : match option_map ret provider with Some p => p | None => ret empty_context end w =
    (Ok (or_default provider empty_context), w)) by by destruct provider.
  rewrite (bind_ok _ _ _ _ _ Hp). clear Hp. cbv zeta.
  set (merged := merge_context _ _).
  assert (Hcorr : exists corr w1, (match field (mc_correlationId merged) with Some c => ret c | None => zoom host_lens new_uuid end) w = (Ok corr, w1) /\ elapsed w w1).
  { destruct (field (mc_correlationId merged)) as [c |]; [by exists c, w |]. destruct (new_uuid_run w) as (w1 & E & He & _). by eexists _, w1. }
  destruct Hcorr as (corr & w1 & E1 & He1). rewrite (bind_ok _ _ _ _ _ E1). rewrite (bind_ok _ _ w1 no_trace w1 eq_refl).
  destruct (map_indexed_drawn (fun index e =>
      eventId <- zoom host_lens new_uuid ;; timestamp <- zoom host_lens date_now ;;
      ret (with_metadata e
        {| md_eventId := eventId; md_timestamp := timestamp; md_correlationId := corr;
           md_causationId := or_default (field (mc_causationId merged)) causation;
           md_userId := field (mc_userId merged); md_version := option_map (fun f => f (ev_name e)) resolver;
           md_aggregateName := Some name; md_aggregateId := Some i; md_sequenceNumber := Some (version + index + 1)%nat;
           md_traceparent := tc_traceparent no_trace; md_tracestate := tc_tracestate no_trace |}))
      event_key (fun _ y => identified y)) with (xs := es) (i := 0%nat) (w := w1) as (enr & w2 & E2 & He2 & HR & Hd).
  { intros index e w0. destruct (new_uuid_run w0) as (w' & E & He & Hd). rewrite (bind_ok _ _ _ _ _ E).
    destruct (date_now_run w') as (t & w'' & E' & He'). rewrite (bind_ok _ _ _ _ _ E').
    eexists _, w''. split; [reflexivity |]. split; [by transitivity w' |]. split; [done |].
    apply (drawn_app _ (w_host w') _ [_] []); [by apply elapsed_later | by apply elapsed_later | exact Hd | apply drawn_nil]. }
  exists enr, w2. split; [exact E2 |]. split; [by transitivity w1 |]. split.
  - apply Forall_forall. intros e He. apply list_elem_of_lookup_1 in He as [n Hn].
    destruct (Forall2_lookup_r _ _ _ _ _ HR Hn) as (x & _ & Hx). exact Hx.
  - apply (drawn_earlier _ (w_host w1)); [by apply elapsed_later | done].
Qed.

Lemma entries_drawn events w : exists entries w',
  map_indexed (fun _ => outbox_entry host_lens) 0 events w = (Ok entries, w') /\ elapsed w w' /\
  Forall2 entry_of events entries /\ drawn (w_host w) (w_host w') (map ob_id entries).
Proof.
  destruct (map_indexed_drawn (fun _ => outbox_entry host_lens) ob_id entry_of) with (xs := events) (i := 0%nat) (w := w)
    as (entries & w' & E & He & HR & Hd); [| by exists entries, w'].
  intros i e w0. unfold outbox_entry. destruct (new_uuid_run w0) as (w1 & E & He & Hd). rewrite (bind_ok _ _ _ _ _ E).
  destruct (date_now_run w1) as (t & w2 & E' & He'). rewrite (bind_ok _ _ _ _ _ E').
  eexists _, w2. split; [reflexivity |]. split; [by transitivity w1 |]. split; [done |].
  apply (drawn_app _ (w_host w1) _ [_] []); [by apply elapsed_later | by apply elapsed_later | exact Hd | apply drawn_nil].
Qed.

(** The operations of the unit of work: the events at the version that was read, then the
    entries. *)
Definition enlisted (i : ID) (enr : list event) (entries : list OutboxEntry) (ops : list (operation World Tx)) : Prop :=
  exists state version, ops = save_operation (EventSourced world_events) name i enr state version
    :: (if (0 <? length enr)%nat then [fun _ => ox_save world_outbox entries] else []).

Lemma produced_drawn enr u w : uw_completed u = false -> exists entries w',
  produced enr (u, w) = (Ok tt, ({| uw_operations := uw_operations u ++ (if (0 <? length enr)%nat then [fun _ => ox_save world_outbox entries] else []);
     uw_pendingEvents := uw_pendingEvents u; uw_completed := false; uw_hooks := uw_hooks u |}, w')) /\
  elapsed w w' /\ Forall2 entry_of enr entries /\ drawn (w_host w) (w_host w') (map ob_id entries).
Proof.
  intros Hu. unfold produced, onEventsProduced. cbn [for_each]. rewrite (bind_ok _ _ (u, w) tt (u, w) eq_refl).
  destruct (0 <? length enr)%nat eqn:El.
  - destruct (entries_drawn enr w) as (entries & w' & E & He & HR & Hd). exists entries, w'.
    erewrite bind_ok by (apply zoom_run; exact E). split; [by apply enlist_run | done].
  - exists [], w. destruct enr as [| e enr]; [| done]. split; [| split; [done | split; [constructor | apply drawn_nil]]].
    destruct u. cbn in *. subst. unfold ret. by rewrite app_nil_r.
Qed.

Lemma load_reads i w : wp (load_aggregate (with_snapshots world_snaps strategy) name aggregate i (EventSourced world_events))
  (fun ld w' => w' = w /\ ld_isEventSourced ld = true) (fun _ w' => w' = w) w.
Proof.
  unfold wp, load_aggregate, snapshot_config, with_snapshots. cbn [cf_store].
  erewrite bind_ok by (apply (sn_load_spec (P := world_snaps))). destruct (world_snap w (composite_key name i)) as [sn |].
  - destruct (es_loadAfterVersion world_events) as [f |] eqn:Ef.
    + erewrite bind_ok by (by apply (es_partial_spec (P := world_events) f)). cbv zeta.
      unfold bind, lift_result. by destruct (replay _ _ _).
    + done.
  - erewrite bind_ok by (apply (es_load_spec (P := world_events))). cbv zeta. unfold bind, lift_result. by destruct (replay _ _ _).
Qed.

Definition the_command_lifecycle (meta : option MetadataContext) (c : command) : M (UnitOfWork World Tx * World) (option PendingSnapshot) :=
  executeLifecycle host_lens (the_enricher host_lens provider) (with_snapshots world_snaps strategy) None (Some produced)
    meta name aggregate c (EventSourced world_events).

Lemma lifecycle_enlists meta c w :
  match the_command_lifecycle meta c (new_uow, w) with
  | (Err _, (_, w')) => elapsed w w'
  | (Ok _, (u', w')) => exists entries, elapsed w w' /\ enlisted (target c) (uw_pendingEvents u') entries (uw_operations u') /\
      uw_completed u' = false /\ numbered (w_host w) (w_host w') (uw_pendingEvents u') entries
  end.
Proof.
  unfold the_command_lifecycle, executeLifecycle. pose proof (load_reads (target c) w) as Hload. unfold wp in Hload.
  destruct (load_aggregate _ _ _ _ _ w) as [[ld | e] w0] eqn:El.
  2: { subst w0. erewrite bind_err by (apply zoom_run; exact El). change (elapsed w w). reflexivity. }
  destruct Hload as [-> Hes]. erewrite bind_ok by (apply zoom_run; exact El). change (lset world_of w (new_uow, w)) with (new_uow (W := World) (Tx := Tx), w).
  cbv zeta. destruct (mget (cmd_name c) (ag_decide aggregate)) as [handler |] eqn:Eh; [| change (elapsed w w); reflexivity].
  pose proof (Hpure _ _ Eh c (ld_state ld) w) as Hd. destruct (handler c (ld_state ld) w) as [[result | e] w1] eqn:E1.
  2: { erewrite bind_err by (apply zoom_run; exact E1). exact Hd. }
  erewrite bind_ok by (apply zoom_run; exact E1). change (lset world_of w1 (new_uow, w)) with (new_uow (W := World) (Tx := Tx), w1).
  destruct (fold_result _ (normalize_decision result) (ld_state ld)) as [newState | e]; [| exact Hd].
  erewrite bind_ok by reflexivity.
  destruct (enrich_drawn meta (normalize_decision result) (target c) (ld_version ld) (cmd_name c)
    (option_map (fun ups name => currentEventVersion name ups) (ag_upcasters aggregate)) w1) as (enr & w2 & E2 & He2 & Hid & Hdr).
  erewrite bind_ok by (apply zoom_run; exact E2). change (lset world_of w2 (new_uow, w1)) with (new_uow (W := World) (Tx := Tx), w2).
  rewrite Hes. erewrite bind_ok by (by apply enlist_run).
  assert (Hclaim : forall st : UnitOfWork World Tx * World, match cmd_commandId c, None (A := IdempotencyStore World) return M (UnitOfWork World Tx * World) unit with
    | Some commandId, Some store => zoom uow_of (enlist (claim_operation host_lens store commandId name (target c))) | _, _ => ret tt end st = (Ok tt, st))
    by by destruct (cmd_commandId c).
  erewrite bind_ok by apply Hclaim. clear Hclaim.
  erewrite bind_ok by (by apply defer_run). cbn [uw_operations uw_pendingEvents uw_hooks new_uow app].
  match goal with |- context [produced enr] => idtac end.
  edestruct (produced_drawn enr) as (entries & w3 & E3 & He3 & HR & Hd3); [| erewrite bind_ok by exact E3]; [done |].
  cbn [uw_operations uw_pendingEvents uw_hooks].
  assert (Hw : elapsed w w3) by (transitivity w2; [by transitivity w1 | done]).
  assert (Hn : numbered (w_host w) (w_host w3) enr entries).
  { split; [done |]. split; [done |]. apply (drawn_earlier _ (w_host w1)); [by apply elapsed_later |].
    apply (drawn_app _ (w_host w2)); [by apply elapsed_later | by apply elapsed_later | done | done]. }
  unfold snapshot_config, with_snapshots. cbn [cf_strategy].
  match goal with |- context [if ?b then _ else _] => destruct b end; unfold ret;
    (exists entries; split; [done |]; split; [by eexists _, _ |]; by split).
Qed.

(** What the commit of a command does to the world. *)
Definition committed (i : ID) (w : World) (events : list event) (w' : World) : Prop := exists entries,
  w_log w' = w_log w /\ later (w_host w) (w_host w') /\
  (forall k, world_stream w' k = if String.eqb k (composite_key name i) then world_stream w k ++ events else world_stream w k) /\
  w_outbox w' = snd (OutboxMemory.save entries (w_outbox w)) /\ numbered (w_host w) (w_host w') events entries.

Lemma save_run entries st : OutboxMemory.save entries st = (Ok tt, snd (OutboxMemory.save entries st)).
Proof. unfold OutboxMemory.save. revert st. induction entries as [| x entries IH]; intros st; [done |]. apply IH. Qed.

Lemma commit_enlisted i (u : UnitOfWork World Tx) w entries :
  uw_completed u = false -> Forall2 entry_of (uw_pendingEvents u) entries ->
  enlisted i (uw_pendingEvents u) entries (uw_operations u) ->
  match commit run_in_memory (u, w) with
  | (Err _, (_, w')) => w' = w
  | (Ok events, (_, w')) => events = uw_pendingEvents u /\ w_log w' = w_log w /\ w_host w' = w_host w /\
      (forall k, world_stream w' k = if String.eqb k (composite_key name i) then world_stream w k ++ events else world_stream w k) /\
      w_outbox w' = snd (OutboxMemory.save entries (w_outbox w))
  end.
Proof.
  intros Hu HR (state & version & Hops). unfold commit, zoom, assertNotCompleted, set_completed, bind, get, gets, modify, ret.
  cbn -[run_in_memory]. rewrite Hu. cbn -[run_in_memory]. rewrite Hops. unfold run_in_memory. cbn [for_each]. unfold bind at 1.
  cbn [save_operation].
  pose proof (es_save_spec (P := world_events) w name i (uw_pendingEvents u) version) as Hs. unfold wp in Hs. cbv zeta in Hs.
  destruct (es_save world_events name i (uw_pendingEvents u) version w) as [[[] | e] w1] eqn:Es; [| by destruct Hs as (_ & _ & _ & ->)].
  destruct Hs as [_ Hs].
  assert (Hs' : forall k, world_stream w1 k = if String.eqb k (composite_key name i) then world_stream w k ++ uw_pendingEvents u else world_stream w k).
  { intros k. rewrite Hs. by destruct (String.eqb_spec k (composite_key name i)) as [-> |]. }
  clear Hs. assert (Hframe : exists t, w1 = lset events_lens t w).
  { change (es_save world_events name i (uw_pendingEvents u) version w) with (zoom events_lens (EventStore.save name i (uw_pendingEvents u) version) w) in Es.
    unfold zoom in Es. destruct (EventStore.save _ _ _ _ _) as [r t]. injection Es as _ <-. by exists t. }
  destruct Hframe as [t ->]. destruct (uw_pendingEvents u) as [| e es].
  - inversion HR; subst. split; [done |]. split; [done |]. split; [done |]. split; [exact Hs' | done].
  - cbn [length Nat.ltb Nat.leb for_each world_outbox ox_save]. unfold bind, zoom. cbn [lget lset outbox_lens w_outbox events_lens].
    rewrite save_run. cbn. split; [done |]. split; [done |]. split; [done |]. split; [exact Hs' | done].
Qed.

Lemma attempt_writes meta c w :
  match attempt_on_uow host_lens run_in_memory (the_enricher host_lens provider) (with_snapshots world_snaps strategy) None
          (Some produced) meta name aggregate c (EventSourced world_events) (new_uow, w) with
  | (Err _, (_, w')) => elapsed w w'
  | (Ok (events, _), (_, w')) => committed (target c) w events w'
  end.
Proof.
  pose proof (lifecycle_enlists meta c w) as Hl. unfold attempt_on_uow, try_catch. unfold the_command_lifecycle in Hl.
  destruct (executeLifecycle _ _ _ _ _ _ _ _ _ _ _) as [[pending | e] [u1 w1]] eqn:El.
  2: { rewrite (bind_err _ _ _ _ _ El). rewrite rollback_rethrow. exact Hl. }
  rewrite (bind_ok _ _ _ _ _ El). destruct Hl as (entries & He & Hops & Hu & Hn).
  pose proof (commit_enlisted (target c) u1 w1 entries Hu (proj1 (proj2 Hn)) Hops) as Hc.
  destruct (commit run_in_memory (u1, w1)) as [[events | e] [u2 w2]] eqn:Ec.
  - rewrite (bind_ok _ _ _ _ _ Ec). cbn. destruct Hc as (-> & Hlog & Hhost & Hst & Hout). destruct He as (h & Hh & ->).
    exists entries. rewrite Hlog, Hhost, Hout. split; [done |]. split; [exact Hh |]. split; [exact Hst |]. by split.
  - rewrite (bind_err _ _ _ _ _ Ec). rewrite rollback_rethrow, Hc. exact He.
Qed.

(** ** The whole command *)

(** The executor of [Assembly.v] for event-sourced aggregates with an outbox and no strongly
    consistent projection, on the in-memory stores. *)
Definition outbox_execute (dispatch : event -> M (Exec World Tx) unit) (c : command) : M (Exec World Tx) unit :=
  execute host_lens (GlobalAggregatePersistenceResolver (EventSourced world_events)) dispatch run_in_memory
    (OptimisticConcurrencyStrategy (Z.of_nat maxRetries)) (the_enricher host_lens provider)
    (with_snapshots world_snaps strategy) None (Some produced)
    (Some (fun es => world_op (onEventsDispatched world_outbox es))) name aggregate c.

(** Everything that it does before it publishes. *)
Definition outbox_commit (c : command) : M (Exec World Tx) (list event) :=
  exec_commit host_lens world_events world_snaps provider strategy None (Some produced) maxRetries name aggregate c.

Lemma outbox_execute_split dispatch c s : ex_uow s = None ->
  outbox_execute dispatch c s =
  (events <- outbox_commit c ;;
   (for_each events dispatch ;;; after_dispatch (Some (fun es => world_op (onEventsDispatched world_outbox es))) events)) s.
Proof.
  intros Hs. unfold outbox_execute.
  rewrite (execute_implicit_run host_lens world_events world_snaps provider strategy None (Some produced)
    (Some (fun es => world_op (onEventsDispatched world_outbox es))) dispatch maxRetries name aggregate c s eq_refl Hs).
  apply exec_implicit_split.
Qed.

Lemma committed_after i w w0 events w' : elapsed w w0 -> committed i w0 events w' -> committed i w events w'.
Proof.
  intros (h & Hh & ->) (entries & Hlog & Hl & Hst & Hout & Hid & HR & Hd). exists entries.
  split; [exact Hlog |]. split; [by transitivity h |]. split; [exact Hst |]. split; [exact Hout |].
  split; [done |]. split; [done |]. by apply (drawn_earlier _ h).
Qed.

Lemma outbox_commit_spec c s :
  match outbox_commit c s with
  | (Err _, s') => elapsed (ex_world s) (ex_world s') /\ ex_uow s' = ex_uow s
  | (Ok events, s') => committed (target c) (ex_world s) events (ex_world s') /\ ex_uow s' = ex_uow s
  end.
Proof.
  unfold outbox_commit, exec_commit. cbn [cs_execute OptimisticConcurrencyStrategy]. unfold optimistic_execute.
  pose proof (retry_loop_spec (exec_attempt host_lens world_events world_snaps provider strategy None (Some produced) name aggregate c)
    (Z.to_nat (Z.of_nat maxRetries + 1)) 0 (Z.of_nat maxRetries) s ltac:(lia) ltac:(lia)) as H.
  set (attempted := exec_attempt _ _ _ _ _ _ _ _ _ c) in *.
  assert (Ha : forall s, match attempted s with
    | (Err _, s') => elapsed (ex_world s) (ex_world s') /\ ex_uow s' = ex_uow s
    | (Ok (events, _), s') => committed (target c) (ex_world s) events (ex_world s') /\ ex_uow s' = ex_uow s end).
  { intros s0. pose proof (attempt_writes (ex_meta s0) c (ex_world s0)) as Hw.
    unfold attempted, exec_attempt, attempt, bind, gets, on_uow, lift_result. cbn iota beta.
    destruct (attempt_on_uow _ _ _ _ _ _ _ _ _ _ _ _) as [[[events pending] | e] [u' w']]; by split. }
  destruct (retry_loop _ _ _ attempted s) as [r s'] eqn:Er. destruct H as (k & s1 & _ & Hk & Hlast & _).
  assert (Hconf : elapsed (ex_world s) (ex_world s1) /\ ex_uow s1 = ex_uow s).
  { clear -Hk Ha. induction Hk as [s | n s s1 s2 e E _ _ [IH IH']]; [done |]. specialize (Ha s). rewrite E in Ha.
    destruct Ha as [Ha Ha']. split; [by transitivity (ex_world s1) | by rewrite IH']. }
  destruct Hconf as [Hel Hu]. specialize (Ha s1). rewrite Hlast in Ha. destruct r as [[events pending] | e].
  - rewrite (bind_ok _ _ _ _ _ Er). cbn [fst snd]. destruct Ha as [Hc Hu'].
    assert (Hsn : exists w, world_op (Tx := Tx) (save_snapshot (with_snapshots world_snaps strategy) name pending) s' =
      (Ok tt, {| ex_world := lset snaps_lens w (ex_world s'); ex_uow := ex_uow s'; ex_meta := ex_meta s' |})).
    { destruct s' as [w u m]. unfold world_op, zoom. cbn. unfold save_snapshot, snapshot_config, with_snapshots.
      destruct pending as [ps |]; [by eexists | by exists (w_snaps w); destruct w]. }
    destruct Hsn as [w Hsn]. rewrite (bind_ok _ _ _ _ _ Hsn). cbn. split; [| by rewrite Hu'].
    apply (committed_after _ _ (ex_world s1)); [exact Hel |].
    destruct Hc as (entries & Hlog & Hl & Hst & Hout & Hn). by exists entries.
  - rewrite (bind_err _ _ _ _ _ Er). destruct Ha as [He Hu']. split; [by transitivity (ex_world s1) | by rewrite Hu'].
Qed.
End command.
