(* ===== verification/OutboxDelivery.v ===== *)
(** The transactional outbox end to end: commands, relays, a bus that may fail at any event and
    tasks that may stop at any point, interleaved.  No stored event is lost. *)
From S2P Require Import Prelude JsMap CoreTypes Upcaster Uuid Host Stores Idempotency Outbox UnitOfWork Metadata Concurrency World CommandExecutor Frames CommandCorrect Projection OutboxCommit.

(** ** No event is lost *)

(** The identifiers drawn so far are distinct: the times of the clock and the random bytes have
    been read, so this is a statement about one run. *)
Definition distinct_draws (h : Host) : Prop := forall p q,
  (fst p < h_ticks h)%nat -> (snd p < h_draws h)%nat -> (fst q < h_ticks h)%nat -> (snd q < h_draws h)%nat ->
  draw h p = draw h q -> snd p = snd q.

Definition old (h : Host) (id : string) : Prop := exists p, id = draw h p /\ (fst p < h_ticks h)%nat /\ (snd p < h_draws h)%nat.

Lemma old_later h h' id : later h h' -> old h id -> old h' id.
Proof.
  intros H (p & -> & Ht & Hd). exists p. split; [by rewrite (draw_later h h') |]. destruct H as (_ & _ & ? & ?). lia.
Qed.

Lemma distinct_earlier h h' : later h h' -> distinct_draws h' -> distinct_draws h.
Proof.
  intros Hl H p q Hp Hp' Hq Hq' E. pose proof Hl as (_ & _ & ? & ?). apply H; [lia | lia | lia | lia |].
  by rewrite !(draw_later h h').
Qed.

Lemma drawn_NoDup h h' ids : later h h' -> distinct_draws h' -> drawn h h' ids -> NoDup ids.
Proof.
  intros Hl Hd (ps & -> & Hn & Hps). revert Hn. induction Hps as [| p ps (Hp & _ & Hp') Hps IH]; cbn; [constructor |].
  intros [Hni Hn]%NoDup_cons. constructor; [| by apply IH]. intros (q & E & Hq)%list_elem_of_fmap.
  apply Hni. rewrite Forall_forall in Hps. destruct (Hps q Hq) as (Hq1 & _ & Hq2).
  rewrite (Hd p q); [by apply list_elem_of_fmap_2 | lia | lia | lia | lia |]. by rewrite !(draw_later h h').
Qed.

Lemma drawn_fresh h h' ids id : later h h' -> distinct_draws h' -> drawn h h' ids -> id ∈ ids -> ~ old h id.
Proof.
  intros Hl Hd (ps & -> & _ & Hps) (p & -> & Hp)%list_elem_of_fmap (q & E & Hq & Hq').
  rewrite Forall_forall in Hps. destruct (Hps p Hp) as (Hp1 & Hp2 & Hp3). pose proof Hl as (_ & _ & ? & ?).
  assert (Heq : snd p = snd q); [| lia]. apply Hd; [lia | lia | lia | lia |]. by rewrite !(draw_later h h').
Qed.

Lemma drawn_old h h' ids id : later h h' -> drawn h h' ids -> id ∈ ids -> old h' id.
Proof.
  intros Hl (ps & -> & _ & Hps) (p & -> & Hp)%list_elem_of_fmap. rewrite Forall_forall in Hps. destruct (Hps p Hp) as (? & ? & ?).
  exists p. split; [by rewrite (draw_later h h') | lia].
Qed.

Definition stored (w : World) (e : event) : Prop := exists k, e ∈ world_stream w k.

(** The outbox and the log of the bus cover the stored events. *)
Record delivery (w : World) : Prop := {
  dv_keyed : keyed (w_outbox w);
  dv_old : forall x, x ∈ mvalues (w_outbox w) -> old (w_host w) (ob_id x) /\ identified (ob_event x) /\ old (w_host w) (event_key (ob_event x));
  dv_unique : forall x y, x ∈ mvalues (w_outbox w) -> y ∈ mvalues (w_outbox w) ->
    event_key (ob_event x) = event_key (ob_event y) -> ob_event x = ob_event y;
  dv_entries : forall x, x ∈ mvalues (w_outbox w) -> stored w (ob_event x);
  dv_log : forall e, e ∈ w_log w -> stored w e;
  dv_covered : forall e, stored w e -> e ∈ w_log w \/ exists x, x ∈ pending (w_outbox w) /\ ob_event x = e
}.

Lemma delivery_start h : delivery (empty_world h).
Proof.
  split; cbn; try by (intros ? H; apply not_elem_of_nil in H).
  - split; [apply NoDup_nil_2 | done].
  - intros x y H. by apply not_elem_of_nil in H.
  - intros e [k H]. by apply not_elem_of_nil in H.
Qed.

(** *** Publishing and marking *)

(** What happens to the bus and to the outbox without a command being committed: the stored
    events stay, the log only receives stored events, and an entry stops being pending when its
    event is in the log. *)
Record moves (w w' : World) : Prop := {
  mv_host : later (w_host w) (w_host w');
  mv_events : w_events w' = w_events w;
  mv_log : forall e, e ∈ w_log w' -> e ∈ w_log w \/ stored w e;
  mv_grows : forall e, e ∈ w_log w -> e ∈ w_log w';
  mv_keyed : keyed (w_outbox w) -> keyed (w_outbox w');
  mv_kept : forall y, y ∈ mvalues (w_outbox w') -> exists x, x ∈ mvalues (w_outbox w) /\ ob_id y = ob_id x /\ ob_event y = ob_event x;
  mv_pending : forall x, x ∈ pending (w_outbox w) -> x ∈ pending (w_outbox w') \/ ob_event x ∈ w_log w'
}.

Lemma moves_stored w w' e : moves w w' -> stored w' e <-> stored w e.
Proof. intros H. unfold stored, world_stream. by rewrite (mv_events _ _ H). Qed.

#[export] Instance moves_preorder : PreOrder moves.
Proof.
  split.
  - intros w. split; try done; [by left | by intros y Hy; exists y | by left].
  - intros w1 w2 w3 H1 H2. split.
    + transitivity (w_host w2); [apply H1 | apply H2].
    + rewrite (mv_events _ _ H2). apply H1.
    + intros e [He | He]%(mv_log _ _ H2); [by apply (mv_log _ _ H1) | right; by apply (moves_stored w1 w2)].
    + intros e He. by apply (mv_grows _ _ H2), (mv_grows _ _ H1).
    + intros Hk. by apply (mv_keyed _ _ H2), (mv_keyed _ _ H1).
    + intros y (x & Hx & E1 & E2)%(mv_kept _ _ H2). apply (mv_kept _ _ H1) in Hx as (x' & Hx' & E3 & E4).
      exists x'. split; [done |]. split; congruence.
    + intros x [Hx | Hx]%(mv_pending _ _ H1); [by apply (mv_pending _ _ H2) | right; by apply (mv_grows _ _ H2)].
Qed.

Lemma delivery_moves w w' : moves w w' -> delivery w -> delivery w'.
Proof.
  intros Hm Hd. split.
  - by apply (mv_keyed _ _ Hm), dv_keyed.
  - intros y (x & Hx & -> & ->)%(mv_kept _ _ Hm). destruct (dv_old _ Hd x Hx) as (Ho & Hi & Ho').
    split; [| split; [done |]]; eapply old_later; try apply (mv_host _ _ Hm); done.
  - intros y1 y2 (x1 & Hx1 & _ & ->)%(mv_kept _ _ Hm) (x2 & Hx2 & _ & ->)%(mv_kept _ _ Hm). by apply (dv_unique _ Hd).
  - intros y (x & Hx & _ & ->)%(mv_kept _ _ Hm). apply (moves_stored w w' _ Hm). by apply (dv_entries _ Hd).
  - intros e [He | He]%(mv_log _ _ Hm); apply (moves_stored w w' _ Hm); [by apply (dv_log _ Hd) | done].
  - intros e He. apply (moves_stored w w' _ Hm) in He. destruct (dv_covered _ Hd e He) as [Hl | (x & Hx & <-)].
    + left. by apply (mv_grows _ _ Hm).
    + destruct (mv_pending _ _ Hm x Hx) as [Hp | Hl]; [right; by exists x | by left].
Qed.

Lemma elapsed_moves w w' : elapsed w w' -> moves w w'.
Proof. intros (h & Hh & ->). split; try done; [by left | by intros y Hy; exists y | by left]. Qed.

(** Stamping the publication time on the pending entries that pass a test. *)
Definition stamp (p : OutboxEntry -> bool) (now : Z) : OutboxMemory.store -> OutboxMemory.store :=
  map (fun '(k, x) => (k, if unpublished x && p x then publish_at now x else x)).

Lemma pending_values st x : x ∈ pending st <-> x ∈ mvalues st /\ unpublished x = true.
Proof. unfold pending. by rewrite list_elem_of_In, List.filter_In, <- list_elem_of_In. Qed.

Lemma stamp_keys p now st : mkeys (stamp p now st) = mkeys st.
Proof. unfold mkeys, stamp. rewrite map_map. apply map_ext. by intros [k x]. Qed.

Lemma stamp_values p now st :
  mvalues (stamp p now st) = map (fun x => if unpublished x && p x then publish_at now x else x) (mvalues st).
Proof. unfold mvalues, stamp. rewrite !map_map. apply map_ext. by intros [k x]. Qed.

Lemma stamp_get p now st k :
  mget k (stamp p now st) = option_map (fun x => if unpublished x && p x then publish_at now x else x) (mget k st).
Proof. induction st as [| [k1 x1] st IH]; [done |]. cbn. by destruct (String.eqb k k1). Qed.

Lemma stamp_keyed p now st : keyed st -> keyed (stamp p now st).
Proof.
  intros [Hwf Hk]. split; [unfold wf; by rewrite stamp_keys |]. intros k x. rewrite stamp_get.
  destruct (mget k st) as [x0 |] eqn:E; [| done]. apply Hk in E. intros [= <-]. by destruct (unpublished x0 && p x0).
Qed.

Lemma stamp_moves p now w :
  (forall x, x ∈ pending (w_outbox w) -> p x = true -> ob_event x ∈ w_log w) ->
  moves w (lset outbox_lens (stamp p now (w_outbox w)) w).
Proof.
  intros Hp. split; cbn [lset outbox_lens w_host w_events w_log w_outbox]; try done.
  - by left.
  - apply stamp_keyed.
  - intros y. rewrite stamp_values. intros (x & -> & Hx)%list_elem_of_fmap. exists x. split; [done |].
    by destruct (unpublished x && p x).
  - intros x Hx. destruct (p x) eqn:E; [right; by apply Hp |]. left. apply pending_values in Hx as [Hx Hu].
    apply pending_values. split; [| done]. rewrite stamp_values. apply list_elem_of_fmap. exists x.
    by rewrite E, andb_false_r.
Qed.

Lemma keyed_tail k x st : keyed ((k, x) :: st) -> ob_id x = k /\ mget k st = None /\ keyed st.
Proof.
  intros [[Hni Hwf]%NoDup_cons Hk]. split; [apply Hk; cbn; by rewrite String.eqb_refl |].
  split; [by apply mget_None_keys |]. split; [exact Hwf |]. intros k0 e E. apply Hk. cbn.
  destruct (String.eqb_spec k0 k) as [-> |]; [| done]. by rewrite (proj2 (mget_None_keys k st) Hni) in E.
Qed.

Lemma stamp_one now i st : keyed st ->
  stamp (fun x => String.eqb (ob_id x) i) now st
  = match mget i st with Some e => if unpublished e then mset i (publish_at now e) st else st | None => st end.
Proof.
  induction st as [| [k x] st IH]; intros Hk; [done |]. apply keyed_tail in Hk as (Hx & Hn & Hk). specialize (IH Hk).
  cbn [stamp map mget mset]. fold (stamp (fun x => String.eqb (ob_id x) i) now st). rewrite IH, Hx, String.eqb_sym.
  destruct (String.eqb_spec i k) as [-> |].
  - rewrite Hn. by destruct (unpublished x).
  - rewrite andb_false_r. destruct (mget i st) as [e |]; [by destruct (unpublished e) | done].
Qed.

Lemma markPublished_stamp now i st : keyed st ->
  OutboxMemory.markPublished now [i] st = (Ok tt, stamp (fun x => String.eqb (ob_id x) i) now st).
Proof.
  intros Hk. rewrite (stamp_one now i st Hk). unfold OutboxMemory.markPublished, for_each, bind, gets, modify, ret.
  destruct (mget i st) as [e |]; [by destruct (unpublished e) | done].
Qed.

(** The operations of the outbox on the world. *)
Lemma mark_one_run i w : keyed (w_outbox w) -> exists now h, later (w_host w) h /\
  ox_markPublished world_outbox [i] w = (Ok tt, lset outbox_lens (stamp (fun x => String.eqb (ob_id x) i) now (w_outbox w)) (lset host_lens h w)).
Proof.
  intros Hk. destruct (date_now_run w) as (now & w1 & E & (h & Hh & ->)). exists now, h. split; [done |].
  cbn [ox_markPublished world_outbox]. rewrite (bind_ok _ _ _ _ _ E). by erewrite zoom_run by (apply markPublished_stamp; exact Hk).
Qed.

Lemma mark_one_moves i w : keyed (w_outbox w) ->
  (forall x, x ∈ pending (w_outbox w) -> ob_id x = i -> ob_event x ∈ w_log w) ->
  exists w', ox_markPublished world_outbox [i] w = (Ok tt, w') /\ moves w w' /\
    exists now, w_outbox w' = snd (OutboxMemory.markPublished now [i] (w_outbox w)).
Proof.
  intros Hk Hlog. destruct (mark_one_run i w Hk) as (now & h & Hh & E). rewrite E. eexists. split; [reflexivity |]. split.
  - transitivity (lset host_lens h w); [apply elapsed_moves; by exists h |].
    apply (stamp_moves _ _ (lset host_lens h w)). intros x Hx Hi%String.eqb_eq. by apply (Hlog x Hx).
  - exists now. by rewrite (markPublished_stamp _ _ _ Hk).
Qed.

Lemma mark_events_moves ids w :
  (forall x, x ∈ pending (w_outbox w) -> OutboxMemory.has_event_id ids x = true -> ob_event x ∈ w_log w) ->
  exists w', ox_markPublishedByEventIds world_outbox ids w = (Ok tt, w') /\ moves w w'.
Proof.
  intros Hlog. destruct (date_now_run w) as (now & w1 & E & He). cbn [ox_markPublishedByEventIds world_outbox].
  rewrite (bind_ok _ _ _ _ _ E). destruct He as (h & Hh & ->). eexists. split; [reflexivity |].
  transitivity (lset host_lens h w); [apply elapsed_moves; by exists h |].
  by apply (stamp_moves (OutboxMemory.has_event_id ids) now (lset host_lens h w)).
Qed.

Lemma delete_moves d w : keyed (w_outbox w) -> moves w (snd (ox_deletePublished world_outbox d w)).
Proof.
  intros [Hwf Hk]. cbn [ox_deletePublished world_outbox]. unfold zoom, OutboxMemory.deletePublished, modify.
  cbn [lget outbox_lens snd]. set (p := fun (_ : string) (e : OutboxEntry) => _ : bool).
  assert (Hk' : keyed (mdelete_where p (w_outbox w))).
  { split; [by apply wf_mdelete_where |]. intros k e. rewrite mget_mdelete_where by done.
    destruct (mget k (w_outbox w)) as [x |] eqn:E; [| done]. destruct (p k x); [done |]. intros [= <-]. by apply Hk. }
  split; cbn [lset outbox_lens w_host w_events w_log w_outbox]; try done.
  - by left.
  - intros y ([k x] & -> & Hx)%list_elem_of_fmap. apply (elem_mget _ _ _ (proj1 Hk')) in Hx.
    rewrite mget_mdelete_where in Hx by done. exists x. split; [| done].
    destruct (mget k (w_outbox w)) as [x' |] eqn:E; [| done]. destruct (p k x'); [done |]. injection Hx as ->.
    apply list_elem_of_fmap. exists (k, x). split; [done | by apply mget_Some_elem].
  - intros x Hx. left. apply (pending_elem _ _ (conj Hwf Hk)) in Hx as [Hm Hu]. apply (pending_elem _ _ Hk').
    rewrite mget_mdelete_where, Hm by done. unfold p. by rewrite Hu.
Qed.

(** *** A commit *)

Lemma save_new entries st : NoDup (map ob_id entries) -> (forall x, x ∈ entries -> ob_id x ∉ mkeys st) ->
  snd (OutboxMemory.save entries st) = st ++ map (fun x => (ob_id x, x)) entries.
Proof.
  revert st. induction entries as [| x entries IH]; intros st Hn Hf; [by rewrite app_nil_r |].
  apply NoDup_cons in Hn as [Hni Hn]. change (snd (OutboxMemory.save (x :: entries) st)) with (snd (OutboxMemory.save entries (mset (ob_id x) x st))).
  rewrite mset_absent by (apply mget_None_keys, Hf; left). rewrite IH; [by rewrite <- app_assoc | done |].
  intros y Hy. unfold mkeys. rewrite map_app, not_elem_of_app. split; [by apply Hf; right |].
  intros E%list_elem_of_singleton. cbn in E. apply Hni. rewrite <- E. by apply list_elem_of_fmap_2.
Qed.

Lemma keyed_value st k : keyed st -> k ∈ mkeys st -> exists x, x ∈ mvalues st /\ ob_id x = k.
Proof.
  intros [Hwf Hk] ([k' x] & -> & Hx)%list_elem_of_fmap. exists x. split; [by apply (list_elem_of_fmap_2 snd st (k', x)) |].
  by apply Hk, elem_mget.
Qed.

Lemma mvalues_new st entries : mvalues (st ++ map (fun x => (ob_id x, x)) entries) = mvalues st ++ entries.
Proof. unfold mvalues. rewrite map_app, map_map. f_equal. apply map_id. Qed.

(** The entries of a commit are appended to the outbox, under fresh identifiers. *)
Lemma committed_fresh w events entries w' : delivery w -> later (w_host w) (w_host w') -> distinct_draws (w_host w') ->
  w_outbox w' = snd (OutboxMemory.save entries (w_outbox w)) -> numbered (w_host w) (w_host w') events entries ->
  mvalues (w_outbox w') = mvalues (w_outbox w) ++ entries /\ NoDup (map event_key events) /\
  forall id, id ∈ map event_key events ++ map ob_id entries -> ~ old (w_host w) id /\ old (w_host w') id.
Proof.
  intros Hd Hl Hdd Ho (_ & _ & Hids).
  assert (Hf : forall id, id ∈ map event_key events ++ map ob_id entries -> ~ old (w_host w) id /\ old (w_host w') id).
  { intros id Hid. split; [by eapply drawn_fresh | by eapply drawn_old]. }
  apply (drawn_NoDup _ _ _ Hl Hdd) in Hids. apply NoDup_app in Hids as (Hne & _ & Hni).
  split; [| by split]. rewrite Ho, save_new, mvalues_new; [done | done |].
  intros x Hx Hin. apply (keyed_value _ _ (dv_keyed _ Hd)) in Hin as (y & Hy & E).
  destruct (Hf (ob_id x)) as [Hx' _]; [apply elem_of_app; right; by apply list_elem_of_fmap_2 |].
  apply Hx'. rewrite <- E. by apply (dv_old _ Hd).
Qed.

Lemma entry_of_left events entries e : Forall2 entry_of events entries -> e ∈ events -> exists x, x ∈ entries /\ entry_of e x.
Proof.
  intros HR [n Hn]%list_elem_of_lookup_1. destruct (Forall2_lookup_l _ _ _ _ _ HR Hn) as (x & Hx & H).
  exists x. split; [by eapply list_elem_of_lookup_2 | done].
Qed.

Lemma entry_of_right events entries x : Forall2 entry_of events entries -> x ∈ entries -> ob_event x ∈ events.
Proof.
  intros HR [n Hn]%list_elem_of_lookup_1. destruct (Forall2_lookup_r _ _ _ _ _ HR Hn) as (e & He & [-> _]).
  by eapply list_elem_of_lookup_2.
Qed.

Lemma key_inj events e e' : NoDup (map event_key events) -> e ∈ events -> e' ∈ events -> event_key e = event_key e' -> e = e'.
Proof.
  induction events as [| x events IH]; [by intros _ ?%not_elem_of_nil |].
  intros [Hni Hn]%NoDup_cons [-> | He]%elem_of_cons [-> | He']%elem_of_cons E; try done; [| | by apply IH].
  - exfalso. apply Hni. rewrite E. by apply list_elem_of_fmap_2.
  - exfalso. apply Hni. rewrite <- E. by apply list_elem_of_fmap_2.
Qed.

(** A stored event under an identifier that no other event of the outbox has. *)
Definition claims (w : World) (e : event) : Prop :=
  stored w e /\ old (w_host w) (event_key e) /\ forall x, x ∈ mvalues (w_outbox w) -> event_key (ob_event x) = event_key e -> ob_event x = e.

Lemma claims_moves w w' e : moves w w' -> claims w e -> claims w' e.
Proof.
  intros Hm (Hs & Ho & Hu). split; [by apply (moves_stored w w') |]. split; [eapply old_later; [apply Hm | done] |].
  intros y (x & Hx & _ & ->)%(mv_kept _ _ Hm). by apply Hu.
Qed.

(** An entry read from the outbox. *)
Definition agrees (w : World) (x : OutboxEntry) : Prop :=
  stored w (ob_event x) /\ old (w_host w) (ob_id x) /\ forall y, y ∈ mvalues (w_outbox w) -> ob_id y = ob_id x -> ob_event y = ob_event x.

Lemma agrees_moves w w' x : moves w w' -> agrees w x -> agrees w' x.
Proof.
  intros Hm (Hs & Ho & Hu). split; [by apply (moves_stored w w') |]. split; [eapply old_later; [apply Hm | done] |].
  intros y (z & Hz & -> & ->)%(mv_kept _ _ Hm). by apply Hu.
Qed.

Lemma claims_all w w' events : moves w w' -> Forall (claims w) events -> Forall (claims w') events.
Proof. intros Hm H. eapply Forall_impl; [exact H |]. intros e. by apply claims_moves. Qed.

Lemma agrees_all w w' entries : moves w w' -> Forall (agrees w) entries -> Forall (agrees w') entries.
Proof. intros Hm H. eapply Forall_impl; [exact H |]. intros x. by apply agrees_moves. Qed.

Section commit.
Context (name : string) (i : ID) (w w' : World) (events : list event).
Context (Hc : committed name i w events w') (Hdd : distinct_draws (w_host w')) (Hd : delivery w).

Lemma commit_stored e : stored w' e <-> stored w e \/ e ∈ events.
Proof.
  destruct Hc as (entries & _ & _ & Hst & _). unfold stored. setoid_rewrite Hst. split.
  - intros [k H]. destruct (String.eqb k _); [apply elem_of_app in H as [H | H]; [by left; exists k | by right] | by left; exists k].
  - intros [[k H] | H].
    + exists k. destruct (String.eqb k _); [apply elem_of_app; by left | done].
    + exists (composite_key name i). rewrite String.eqb_refl. apply elem_of_app. by right.
Qed.

Lemma commit_values : exists entries, mvalues (w_outbox w') = mvalues (w_outbox w) ++ entries /\ Forall2 entry_of events entries /\
  keyed (w_outbox w') /\ NoDup (map event_key events) /\ Forall (fun e => identified e /\ old (w_host w') (event_key e)) events /\
  (forall x, x ∈ entries -> (~ old (w_host w) (ob_id x) /\ old (w_host w') (ob_id x)) /\
     ~ old (w_host w) (event_key (ob_event x)) /\ old (w_host w') (event_key (ob_event x))).
Proof.
  destruct Hc as (entries & _ & Hl & _ & Ho & Hn). destruct (committed_fresh _ _ _ _ Hd Hl Hdd Ho Hn) as (Hv & Hne & Hf).
  destruct Hn as (Hid & HR & _). exists entries. split; [done |]. split; [done |].
  split; [rewrite Ho; by apply keyed_save, dv_keyed |]. split; [done |].
  split; [apply Forall_forall; intros e He; rewrite Forall_forall in Hid; split; [by apply Hid | apply Hf, elem_of_app; left; by apply list_elem_of_fmap_2] |].
  intros x Hx. split; apply Hf, elem_of_app; [right | left]; apply list_elem_of_fmap_2; [done | by eapply entry_of_right].
Qed.

Lemma commit_delivery : delivery w' /\ Forall (claims w') events.
Proof.
  destruct commit_values as (entries & Hv & HR & Hk & Hne & Hid & Hf).
  assert (Hl : later (w_host w) (w_host w')) by by destruct Hc as (? & _ & ? & _).
  assert (Hlog : w_log w' = w_log w) by by destruct Hc as (? & ? & _).
  assert (Hu : forall x e, x ∈ mvalues (w_outbox w') -> e ∈ events -> event_key (ob_event x) = event_key e -> ob_event x = e).
  { intros x e. rewrite Hv. intros [Hx | Hx]%elem_of_app He E; [| by apply (key_inj events); [| by eapply entry_of_right | |]].
    destruct (entry_of_left _ _ _ HR He) as (y & Hy & Ey & _). destruct (Hf y Hy) as (_ & Hnew & _).
    destruct Hnew. rewrite Ey, <- E. by apply (dv_old _ Hd). }
  rewrite Forall_forall in Hid. split; [split |].
  - done.
  - rewrite Hv. intros x [Hx | Hx]%elem_of_app.
    + destruct (dv_old _ Hd x Hx) as (Ho & Hi & Ho'). split; [by eapply old_later |]. split; [done | by eapply old_later].
    + destruct (Hf x Hx) as ([_ ?] & _ & ?). split; [done |]. split; [| done]. by eapply Hid, entry_of_right.
  - intros x y Hx. pose proof Hx as Hx'. rewrite Hv. rewrite Hv in Hx. intros [Hy | Hy]%elem_of_app E.
    + apply elem_of_app in Hx as [Hx | Hx]; [by apply (dv_unique _ Hd) |].
      symmetry. apply Hu; [rewrite Hv; apply elem_of_app; by left | by eapply entry_of_right | done].
    + apply Hu; [done | by eapply entry_of_right | done].
  - rewrite Hv. intros x [Hx | Hx]%elem_of_app; apply commit_stored; [left; by apply (dv_entries _ Hd) | right; by eapply entry_of_right].
  - rewrite Hlog. intros e He. apply commit_stored. left. by apply (dv_log _ Hd).
  - rewrite Hlog. intros e [He | He]%commit_stored.
    + destruct (dv_covered _ Hd e He) as [Hin | (x & Hx & <-)]; [by left | right; exists x; split; [| done]].
      apply pending_values in Hx as [Hx Hp]. apply pending_values. split; [rewrite Hv; apply elem_of_app; by left | done].
    + right. destruct (entry_of_left _ _ _ HR He) as (x & Hx & E & Hp). exists x. split; [| done]. apply pending_values.
      split; [rewrite Hv; apply elem_of_app; by right |]. unfold unpublished. by rewrite Hp.
  - apply Forall_forall. intros e He. split; [apply commit_stored; by right |]. split; [by apply Hid |]. intros x Hx. by apply Hu.
Qed.
(** Identifiers drawn before the commit are not those of the new entries. *)
Lemma commit_claims e : claims w e -> claims w' e.
Proof.
  destruct commit_values as (entries & Hv & _ & _ & _ & _ & Hf). intros (Hs & Ho & Hu). destruct Hc as (entries0 & _ & Hl & _).
  split; [apply commit_stored; by left |]. split; [by eapply old_later |]. intros x. rewrite Hv.
  intros [Hx | Hx]%elem_of_app E; [by apply Hu |]. destruct (Hf x Hx) as (_ & Hnew & _). destruct Hnew. by rewrite E.
Qed.

Lemma commit_agrees x : agrees w x -> agrees w' x.
Proof.
  destruct commit_values as (entries & Hv & _ & _ & _ & _ & Hf). intros (Hs & Ho & Hu). destruct Hc as (entries0 & _ & Hl & _).
  split; [apply commit_stored; by left |]. split; [by eapply old_later |]. intros y. rewrite Hv.
  intros [Hy | Hy]%elem_of_app E; [by apply Hu |]. destruct (Hf y Hy) as ([Hnew _] & _). destruct Hnew. by rewrite E.
Qed.
End commit.

(** ** The bus *)

(** What becomes of an event that is given to the bus: it is delivered, it is refused, or it is
    delivered and the caller is told that it was not. *)
Inductive Fault : Type := Healthy | Refused (e : js_error) | LostReply (e : js_error).

Definition bus (fault : event -> World -> Fault) (e : event) : M World unit := fun w =>
  match fault e w with
  | Healthy => (Ok tt, lset log_lens (w_log w ++ [e]) w)
  | Refused err => (Err err, w)
  | LostReply err => (Err err, lset log_lens (w_log w ++ [e]) w)
  end.

Lemma log_moves e w : stored w e -> moves w (lset log_lens (w_log w ++ [e]) w).
Proof.
  intros He. split; cbn [lset log_lens w_host w_events w_log w_outbox]; try done.
  - intros e' [H | ->%list_elem_of_singleton]%elem_of_app; [by left | by right].
  - intros e' H. apply elem_of_app. by left.
  - intros y Hy. by exists y.
  - by left.
Qed.

Lemma bus_moves fault e w : stored w e ->
  wp (bus fault e) (fun _ w' => moves w w' /\ e ∈ w_log w') (fun _ w' => moves w w') w.
Proof.
  intros He. unfold wp, bind, bus. destruct (fault e w); [split | done |]; try by apply log_moves.
  cbn. apply elem_of_app. right. by apply list_elem_of_singleton.
Qed.

Lemma publish_moves fault events w : Forall (claims w) events ->
  wp (for_each events (bus fault)) (fun _ w' => moves w w' /\ forall e, e ∈ events -> e ∈ w_log w') (fun _ w' => moves w w') w.
Proof.
  revert w. induction events as [| e events IH]; intros w H.
  - split; [done |]. by intros e ?%not_elem_of_nil.
  - apply Forall_cons in H as [He H]. cbn [for_each]. apply wp_bind.
    eapply wp_mono; [apply (bus_moves fault e w), He | | done]. intros [] w1 [Hm Hl].
    eapply wp_mono; [apply (IH w1) | |].
    + by apply (claims_all w).
    + intros _ w2 [Hm' Hl']. split; [by transitivity w1 |]. intros e' [-> | H']%elem_of_cons; [by apply (mv_grows _ _ Hm') | by apply Hl'].
    + intros err w2 Hm'. by transitivity w1.
Qed.

Lemma event_ids_keys events i : i ∈ event_ids events -> exists e, e ∈ events /\ metadata_req md_eventId e = Some i.
Proof.
  unfold event_ids. rewrite list_elem_of_In, in_flat_map. intros (e & He & Hi). exists e. split; [by apply list_elem_of_In |].
  destruct (metadata_req md_eventId e) as [j |]; [destruct Hi as [-> | []]; done | done].
Qed.

(** Published events are marked by their identifiers. *)
Lemma dispatched_moves events w : Forall (claims w) events -> (forall e, e ∈ events -> e ∈ w_log w) ->
  exists w', onEventsDispatched world_outbox events w = (Ok tt, w') /\ moves w w'.
Proof.
  intros Hc Hl. unfold onEventsDispatched. destruct (0 <? length (event_ids events))%nat; [| by exists w].
  apply mark_events_moves. intros x [Hx _]%pending_values. unfold OutboxMemory.has_event_id.
  destruct (metadata_req md_eventId (ob_event x)) as [j |] eqn:Ej; [| done].
  intros (j' & Hj & ->%String.eqb_eq)%existsb_exists. apply list_elem_of_In, event_ids_keys in Hj as (e & He & Ee).
  rewrite Forall_forall in Hc. destruct (Hc e He) as (_ & _ & Hu). rewrite (Hu x Hx); [by apply Hl |].
  unfold event_key. by rewrite Ej, Ee.
Qed.

(** ** Commands *)


(** ** Commands and relays at work together *)

Section commands.
Context (provider : option MetadataContext) (strategy : SnapshotStrategy) (maxRetries : nat)
  (name : string) (aggregate : Aggregate World).

Definition the_commit (c : command) : M (Exec World unit) (list event) := outbox_commit provider strategy maxRetries name aggregate c.
Definition the_command (fault : event -> World -> Fault) (c : command) : M (Exec World unit) unit :=
  outbox_execute provider strategy maxRetries name aggregate (fun e => world_op (bus fault e)) c.
End commands.

(** What is going on besides the stores: a command gives its events to the bus, a relay works
    on a batch, or marks the entry whose event the bus has accepted. *)
Inductive task : Type :=
  | Publishing (published todo : list event)
  | Relaying (todo : list OutboxEntry)
  | Marking (x : OutboxEntry) (todo : list OutboxEntry).

(** The tasks take turns at the operations of the stores and of the bus, which may fail at any
    of them; a task may stop for good between two operations, as all of them do when the process
    ends. *)
Inductive step : World * list task -> World * list task -> Prop :=
  | step_elapsed w w' ts : elapsed w w' -> step (w, ts) (w', ts)
  | step_committed provider strategy maxRetries name aggregate c s events s' ts :
      pure_decisions aggregate ->
      the_commit provider strategy maxRetries name aggregate c s = (Ok events, s') ->
      step (ex_world s, ts) (ex_world s', Publishing [] events :: ts)
  | step_published fault w published e todo w' ts1 ts2 : bus fault e w = (Ok tt, w') ->
      step (w, ts1 ++ Publishing published (e :: todo) :: ts2) (w', ts1 ++ Publishing (published ++ [e]) todo :: ts2)
  | step_refused fault w published e todo err w' ts1 ts2 : bus fault e w = (Err err, w') ->
      step (w, ts1 ++ Publishing published (e :: todo) :: ts2) (w', ts1 ++ ts2)
  | step_marked w events r w' ts1 ts2 : onEventsDispatched world_outbox events w = (r, w') ->
      step (w, ts1 ++ Publishing events [] :: ts2) (w', ts1 ++ ts2)
  | step_loaded n w entries w' ts : ox_loadUnpublished world_outbox n w = (Ok entries, w') ->
      step (w, ts) (w', Relaying entries :: ts)
  | step_relayed fault w x todo w' ts1 ts2 : bus fault (ob_event x) w = (Ok tt, w') ->
      step (w, ts1 ++ Relaying (x :: todo) :: ts2) (w', ts1 ++ Marking x todo :: ts2)
  | step_skipped fault w x todo err w' ts1 ts2 : bus fault (ob_event x) w = (Err err, w') ->
      step (w, ts1 ++ Relaying (x :: todo) :: ts2) (w', ts1 ++ Relaying todo :: ts2)
  | step_relay_marked w x todo r w' ts1 ts2 : ox_markPublished world_outbox [ob_id x] w = (r, w') ->
      step (w, ts1 ++ Marking x todo :: ts2) (w', ts1 ++ Relaying todo :: ts2)
  | step_cleaned olderThan w r w' ts : ox_deletePublished world_outbox olderThan w = (r, w') -> step (w, ts) (w', ts)
  | step_stopped w ts ts' : ts' `sublist_of` ts -> step (w, ts) (w, ts').

Definition task_ok (w : World) (t : task) : Prop :=
  match t with
  | Publishing published todo => Forall (claims w) (published ++ todo) /\ forall e, e ∈ published -> e ∈ w_log w
  | Relaying todo => Forall (agrees w) todo
  | Marking x todo => ob_event x ∈ w_log w /\ Forall (agrees w) (x :: todo)
  end.

Definition system_ok (st : World * list task) : Prop := delivery (fst st) /\ Forall (task_ok (fst st)) (snd st).

Lemma task_ok_mono w w' t : (forall e, claims w e -> claims w' e) -> (forall x, agrees w x -> agrees w' x) ->
  (forall e, e ∈ w_log w -> e ∈ w_log w') -> task_ok w t -> task_ok w' t.
Proof.
  intros Hc Ha Hl. destruct t as [published todo | todo | x todo]; cbn.
  - intros [H H']. split; [by eapply Forall_impl | auto].
  - intros H. by eapply Forall_impl.
  - intros [H H']. split; [auto | by eapply Forall_impl].
Qed.

Lemma tasks_moves w w' ts : moves w w' -> Forall (task_ok w) ts -> Forall (task_ok w') ts.
Proof.
  intros Hm H. eapply Forall_impl; [exact H |]. intros t. apply task_ok_mono.
  - intros e. by apply claims_moves.
  - intros x. by apply agrees_moves.
  - apply (mv_grows _ _ Hm).
Qed.

(** A task makes a move and leaves others behind. *)
Lemma system_moves w w' ts1 t ts2 ts' : system_ok (w, ts1 ++ t :: ts2) -> moves w w' -> Forall (task_ok w') ts' ->
  system_ok (w', ts1 ++ ts' ++ ts2).
Proof.
  intros [Hd H] Hm H'. cbn in *. split; [by eapply delivery_moves |]. cbn.
  apply Forall_app in H as [H1 H2]. apply Forall_cons in H2 as [_ H2].
  apply Forall_app_2; [by eapply tasks_moves |]. apply Forall_app_2; [done | by eapply tasks_moves].
Qed.

Lemma task_in w ts1 t ts2 : system_ok (w, ts1 ++ t :: ts2) -> task_ok w t.
Proof. intros [_ H]. cbn in H. apply Forall_app in H as [_ H]. by apply Forall_cons in H as [H _]. Qed.

Lemma load_agrees n w entries w' : delivery w -> ox_loadUnpublished world_outbox n w = (Ok entries, w') ->
  w' = w /\ Forall (fun x => x ∈ pending (w_outbox w)) entries /\ Forall (agrees w) entries.
Proof.
  intros Hd [= <- <-]. split; [by destruct w |]. fold (pending (w_outbox w)).
  assert (H : Forall (fun x => x ∈ pending (w_outbox w)) (take n (OutboxMemory.sort_by_createdAt (pending (w_outbox w))))).
  { apply Forall_forall. intros x Hx. rewrite <- (sort_perm (pending (w_outbox w))). by eapply sublist_subseteq, Hx; apply sublist_take. }
  split; [exact H |]. eapply Forall_impl; [exact H |]. intros x [Hx Hu]%(pending_elem _ _ (dv_keyed _ Hd)).
  assert (Hv : x ∈ mvalues (w_outbox w)) by (by apply (list_elem_of_fmap_2 snd _ (ob_id x, x)), mget_Some_elem).
  split; [by apply (dv_entries _ Hd) |]. split; [by apply (dv_old _ Hd) |].
  intros y ([k y'] & -> & Hy)%list_elem_of_fmap E. apply (elem_mget _ _ _ (proj1 (dv_keyed _ Hd))) in Hy.
  pose proof (proj2 (dv_keyed _ Hd) _ _ Hy) as Hk. cbn in *. rewrite E in Hk. subst k. congruence.
Qed.

(** The commit, seen from the world. *)
Lemma commit_step provider strategy maxRetries name aggregate c s : pure_decisions aggregate ->
  match the_commit provider strategy maxRetries name aggregate c s with
  | (Ok events, s') => committed name (target c) (ex_world s) events (ex_world s')
  | (Err _, s') => elapsed (ex_world s) (ex_world s')
  end.
Proof.
  intros Hpure. pose proof (outbox_commit_spec (Tx := unit) provider strategy maxRetries name aggregate Hpure c s) as H.
  unfold the_commit. by destruct (outbox_commit _ _ _ _ _ _ s) as [[events | e] s']; destruct H as [H _].
Qed.

Lemma bus_later fault e w : w_host (snd (bus fault e w)) = w_host w.
Proof. unfold bus. by destruct (fault e w). Qed.

Lemma mark_later (m : Z -> M OutboxMemory.store unit) w :
  later (w_host w) (w_host (snd ((now <- zoom host_lens date_now ;; zoom outbox_lens (m now)) w))).
Proof.
  destruct (date_now_run w) as (now & w1 & E & He). rewrite (bind_ok _ _ _ _ _ E). apply elapsed_later in He.
  unfold zoom. by destruct (m now _).
Qed.

Lemma dispatched_later events w : later (w_host w) (w_host (snd (onEventsDispatched world_outbox events w))).
Proof. unfold onEventsDispatched. destruct (0 <? length (event_ids events))%nat; [apply mark_later | done]. Qed.

Lemma step_later st st' : step st st' -> later (w_host (fst st)) (w_host (fst st')).
Proof.
  destruct 1 as [w w' ts H | provider strategy maxRetries name aggregate c s events s' ts Hp H | fault w published e todo w' ts1 ts2 H |
    fault w published e todo err w' ts1 ts2 H | w events r w' ts1 ts2 H | n w entries w' ts H | fault w x todo w' ts1 ts2 H |
    fault w x todo err w' ts1 ts2 H | w x todo r w' ts1 ts2 H | olderThan w r w' ts H | w ts ts' H]; cbn.
  - by apply elapsed_later.
  - pose proof (commit_step provider strategy maxRetries name aggregate c s Hp) as Hs. rewrite H in Hs. by destruct Hs as (? & _ & ? & _).
  - pose proof (bus_later fault e w) as Hb. rewrite H in Hb. cbn in Hb. by rewrite Hb.
  - pose proof (bus_later fault e w) as Hb. rewrite H in Hb. cbn in Hb. by rewrite Hb.
  - pose proof (dispatched_later events w) as Hb. by rewrite H in Hb.
  - injection H as _ <-. done.
  - pose proof (bus_later fault (ob_event x) w) as Hb. rewrite H in Hb. cbn in Hb. by rewrite Hb.
  - pose proof (bus_later fault (ob_event x) w) as Hb. rewrite H in Hb. cbn in Hb. by rewrite Hb.
  - pose proof (mark_later (fun now => OutboxMemory.markPublished now [ob_id x]) w) as Hb.
    cbv beta in Hb. cbn [ox_markPublished world_outbox] in H. by rewrite H in Hb.
  - injection H as _ <-. done.
  - done.
Qed.

Lemma relay_mark_moves w x : delivery w -> ob_event x ∈ w_log w -> agrees w x ->
  exists w', ox_markPublished world_outbox [ob_id x] w = (Ok tt, w') /\ moves w w' /\
    exists now, w_outbox w' = snd (OutboxMemory.markPublished now [ob_id x] (w_outbox w)).
Proof.
  intros Hd Hl (_ & _ & Ha). apply mark_one_moves; [by apply dv_keyed |]. intros y [Hy _]%pending_values E. by rewrite (Ha y).
Qed.

Lemma step_ok st st' : step st st' -> distinct_draws (w_host (fst st')) -> system_ok st -> system_ok st'.
Proof.
  destruct 1 as [w w' ts H | provider strategy maxRetries name aggregate c s events s' ts Hp H | fault w published e todo w' ts1 ts2 H |
    fault w published e todo err w' ts1 ts2 H | w events r w' ts1 ts2 H | n w entries w' ts H | fault w x todo w' ts1 ts2 H |
    fault w x todo err w' ts1 ts2 H | w x todo r w' ts1 ts2 H | olderThan w r w' ts H | w ts ts' H]; cbn; intros Hdd Hok.
  - apply elapsed_moves in H. split; [by eapply delivery_moves; [| apply Hok] | by eapply tasks_moves; [| apply Hok]].
  - pose proof (commit_step provider strategy maxRetries name aggregate c s Hp) as Hs. rewrite H in Hs. destruct Hok as [Hd Ht].
    pose proof (commit_delivery name (target c) _ _ events Hs Hdd Hd) as [Hd' Hc]. split; [done |]. constructor.
    + split; [done |]. by intros e' ?%not_elem_of_nil.
    + eapply Forall_impl; [exact Ht |]. intros t. apply task_ok_mono; [by eapply commit_claims | by eapply commit_agrees |].
      destruct Hs as (? & Hl & _). cbn. by rewrite Hl.
  - pose proof (task_in _ _ _ _ Hok) as [Hc Hl]. pose proof Hc as Hc'. apply Forall_app in Hc' as [_ [He _]%Forall_cons].
    pose proof (bus_moves fault e w (proj1 He)) as Hb. unfold wp in Hb. rewrite H in Hb. destruct Hb as [Hm Hin].
    apply (system_moves w w' ts1 _ ts2 [_] Hok Hm), Forall_singleton. split.
    + rewrite <- app_assoc. by apply (claims_all w).
    + intros e' [H' | ->%list_elem_of_singleton]%elem_of_app; [by apply (mv_grows _ _ Hm), Hl | done].
  - pose proof (task_in _ _ _ _ Hok) as [Hc _]. apply Forall_app in Hc as [_ [He _]%Forall_cons].
    pose proof (bus_moves fault e w (proj1 He)) as Hb. unfold wp in Hb. rewrite H in Hb.
    by apply (system_moves w w' ts1 _ ts2 [] Hok).
  - pose proof (task_in _ _ _ _ Hok) as [Hc Hl]. rewrite app_nil_r in Hc.
    destruct (dispatched_moves events w Hc Hl) as (w1 & E & Hm). rewrite E in H. injection H as _ <-.
    by apply (system_moves w w1 ts1 _ ts2 [] Hok).
  - destruct Hok as [Hd Ht]. destruct (load_agrees _ _ _ _ Hd H) as (-> & _ & Ha). split; [done |]. by constructor.
  - pose proof (task_in _ _ _ _ Hok) as Ha. pose proof Ha as [Hx Ht]%Forall_cons.
    pose proof (bus_moves fault _ w (proj1 Hx)) as Hb. unfold wp in Hb. rewrite H in Hb. destruct Hb as [Hm Hin].
    apply (system_moves w w' ts1 _ ts2 [_] Hok Hm), Forall_singleton. split; [done |]. by apply (agrees_all w).
  - pose proof (task_in _ _ _ _ Hok) as [Hx Ht]%Forall_cons.
    pose proof (bus_moves fault _ w (proj1 Hx)) as Hb. unfold wp in Hb. rewrite H in Hb.
    apply (system_moves w w' ts1 _ ts2 [_] Hok Hb), Forall_singleton. by apply (agrees_all w).
  - pose proof (task_in _ _ _ _ Hok) as [Hl [Hx Ht]%Forall_cons].
    destruct (relay_mark_moves w x (proj1 Hok) Hl Hx) as (w1 & E & Hm & _). rewrite E in H. injection H as _ <-.
    apply (system_moves w w1 ts1 _ ts2 [_] Hok Hm), Forall_singleton. by apply (agrees_all w).
  - pose proof (delete_moves olderThan w (dv_keyed _ (proj1 Hok))) as Hm. rewrite H in Hm.
    split; [by eapply delivery_moves; [| apply Hok] | by eapply tasks_moves; [| apply Hok]].
  - destruct Hok as [Hd Ht]. split; [done |]. cbn in *. rewrite Forall_forall in *. intros t Hin. by eapply Ht, sublist_subseteq.
Qed.

Lemma steps_ok st st' : rtc step st st' -> later (w_host (fst st)) (w_host (fst st')) /\
  (distinct_draws (w_host (fst st')) -> system_ok st -> system_ok st').
Proof.
  induction 1 as [st | st st1 st' H1 _ [Hl IH]]; [done |]. pose proof (step_later _ _ H1) as Hl1.
  split; [by transitivity (w_host (fst st1)) |]. intros Hd Hok. apply IH; [done |].
  apply (step_ok _ _ H1); [by eapply distinct_earlier | done].
Qed.

(** ** The relay *)

Definition sys : Type := World * RelayState.
Definition sys_outbox : OutboxStore sys := zoom_outbox fst_lens world_outbox.
Definition sys_bus (fault : event -> World -> Fault) (e : event) : M sys unit := zoom fst_lens (bus fault e).
Definition sys_processOnce fault (batchSize : option nat) : M sys nat := processOnce sys_outbox (sys_bus fault) snd_lens batchSize.
Definition sys_drain fault (batchSize : option nat) (fuel : nat) : M sys (option unit) := drain sys_outbox (sys_bus fault) snd_lens batchSize fuel.

(** A bus that delivers. *)
Definition reliable : event -> World -> Fault := fun _ _ => Healthy.

Lemma bus_outbox fault e w : w_outbox (snd (bus fault e w)) = w_outbox w.
Proof. unfold bus. by destruct (fault e w). Qed.

(** A batch is a sequence of steps of a relay task. *)
Lemma entries_steps fault es n w r ts : keyed (w_outbox w) -> exists k w',
  dispatch_entries sys_outbox (sys_bus fault) es n (w, r) = (Ok k, (w', r)) /\ rtc step (w, Relaying es :: ts) (w', ts).
Proof.
  revert n w. induction es as [| x es IH]; intros n w Hk.
  - exists n, w. split; [done |]. apply rtc_once. apply step_stopped. by apply sublist_cons.
  - pose proof (bus_outbox fault (ob_event x) w) as Ho. cbn [dispatch_entries]. unfold bind at 1, try_catch, sys_bus at 1.
    unfold bind at 1. unfold zoom at 1. cbn [lget fst_lens fst].
    destruct (bus fault (ob_event x) w) as [[[] | err] w1] eqn:E; cbn [snd] in Ho.
    + rewrite <- Ho in Hk. destruct (mark_one_run (ob_id x) w1 Hk) as (now & h & Hh & Em).
      unfold bind at 1. cbn [ox_markPublished sys_outbox zoom_outbox]. unfold zoom at 1. cbn [lget lset fst_lens fst snd].
      rewrite Em. set (w2 := lset outbox_lens _ _) in *. destruct (IH (S n) w2) as (k & w' & Hrun & Hs); [by apply stamp_keyed |].
      exists k, w'. split; [exact Hrun |]. eapply rtc_l; [by apply (step_relayed fault w x es w1 [] ts) |].
      eapply rtc_l; [by apply (step_relay_marked w1 x es (Ok tt) w2 [] ts) | exact Hs].
    + destruct (IH n w1) as (k & w' & Hrun & Hs); [by rewrite Ho |]. exists k, w'. split; [exact Hrun |].
      eapply rtc_l; [by apply (step_skipped fault w x es err w1 [] ts) | exact Hs].
Qed.

Definition batch_of (batchSize : option nat) (w : World) : list OutboxEntry := batch batchSize (w_outbox w).

Definition busy (r : RelayState) : RelayState := {| rl_timer := rl_timer r; rl_processing := true; rl_drained := rl_drained r |}.

(** A poll works on the batch that it loads. *)
Lemma poll_run fault batchSize w r k w' : rl_processing r = false ->
  dispatch_entries sys_outbox (sys_bus fault) (batch_of batchSize w) 0 (w, busy r) = (Ok k, (w', busy r)) ->
  sys_processOnce fault batchSize (w, r) = (Ok k, (w', r)).
Proof.
  intros Hr Hrun. unfold sys_processOnce, processOnce. unfold bind at 1, gets. cbn [lget snd_lens snd]. rewrite Hr.
  unfold bind at 1, set_processing at 1, zoom at 1, modify. cbn [lget lset snd_lens snd fst]. fold (busy r).
  assert (Hload : ox_loadUnpublished sys_outbox (or_default batchSize 100%nat) (w, busy r) = (Ok (batch_of batchSize w), (w, busy r)))
    by by destruct w.
  assert (Hlast : set_processing (W := sys) snd_lens false (w', busy r) = (Ok tt, (w', r))) by (destruct r; cbn in *; by subst).
  unfold try_finally, try_catch. cbv zeta. rewrite (bind_ok _ _ _ _ _ Hload).
  destruct (length (batch_of batchSize w) =? 0)%nat eqn:E.
  - apply Nat.eqb_eq, nil_length_inv in E. rewrite E in Hrun. injection Hrun as <- <-. unfold ret. by rewrite Hlast.
  - by rewrite Hrun, Hlast.
Qed.

(** A poll is a sequence of steps. *)
Lemma poll_steps fault batchSize w r ts : keyed (w_outbox w) -> rl_processing r = false -> exists k w',
  sys_processOnce fault batchSize (w, r) = (Ok k, (w', r)) /\ rtc step (w, ts) (w', ts).
Proof.
  intros Hk Hr. destruct (entries_steps fault (batch_of batchSize w) 0 w (busy r) ts Hk) as (k & w' & Hrun & Hs).
  exists k, w'. split; [by apply poll_run |]. eapply rtc_l; [| exact Hs].
  apply (step_loaded (or_default batchSize 100%nat)). by destruct w.
Qed.

(** With a reliable bus, every entry of a batch is delivered and marked. *)
Lemma entries_reliable es n w r : keyed (w_outbox w) -> Forall (agrees w) es -> NoDup (map ob_id es) ->
  Forall (fun x => x ∈ pending (w_outbox w)) es -> exists w',
  dispatch_entries sys_outbox (sys_bus reliable) es n (w, r) = (Ok (n + length es)%nat, (w', r)) /\ moves w w' /\
  length (pending (w_outbox w)) = (length (pending (w_outbox w')) + length es)%nat.
Proof.
  revert n w. induction es as [| x es IH]; intros n w Hk Ha Hn Hp.
  - exists w. cbn. rewrite !Nat.add_0_r. done.
  - apply Forall_cons in Ha as [Hx Ha]. apply NoDup_cons in Hn as [Hni Hn]. apply Forall_cons in Hp as [Hpx Hp].
    set (w1 := lset log_lens (w_log w ++ [ob_event x]) w). assert (Hm1 : moves w w1) by apply log_moves, Hx.
    assert (Hin : ob_event x ∈ w_log w1) by (apply elem_of_app; right; by apply list_elem_of_singleton).
    destruct (mark_one_moves (ob_id x) w1 Hk) as (w2 & E2 & Hm2 & now & Ho).
    { intros y [Hy _]%pending_values E. destruct Hx as (_ & _ & Hu). by rewrite (Hu y). }
    destruct (markPublished_one now x (w_outbox w) Hk Hpx) as (st' & Est & Hk' & Hlen & Hpend).
    assert (Ho' : w_outbox w2 = st') by (rewrite Ho; cbn [w1 lset log_lens w_outbox]; by rewrite Est).
    assert (Hm : moves w w2) by by transitivity w1.
    destruct (IH (S n) w2) as (w' & Hrun & Hm' & Hlen'); [by rewrite Ho' | by apply (agrees_all w) | done | |].
    { rewrite Ho'. rewrite Forall_forall in Hp |- *. intros y Hy. apply Hpend. split; [by apply Hp |].
      intros E. apply Hni. rewrite <- E. by apply list_elem_of_fmap_2. }
    exists w'. split; [| split; [by transitivity w2 | cbn [length]; rewrite Hlen, <- Ho', Hlen'; lia]].
    cbn [dispatch_entries length]. rewrite Nat.add_succ_r. unfold bind at 1, try_catch, sys_bus at 1. unfold bind at 1. unfold zoom at 1.
    cbn [lget lset fst_lens fst snd bus reliable]. fold w1. unfold bind at 1. cbn [ox_markPublished sys_outbox zoom_outbox]. unfold zoom at 1.
    cbn [lget lset fst_lens fst snd]. by rewrite E2.
Qed.

Lemma poll_reliable batchSize w r : delivery w -> rl_processing r = false -> exists w',
  sys_processOnce reliable batchSize (w, r) = (Ok (length (batch_of batchSize w)), (w', r)) /\ moves w w' /\
  length (pending (w_outbox w)) = (length (pending (w_outbox w')) + length (batch_of batchSize w))%nat.
Proof.
  intros Hd Hr. pose proof (dv_keyed _ Hd) as Hk.
  destruct (load_agrees (or_default batchSize 100%nat) w (batch_of batchSize w) w Hd) as (_ & Hp & Ha); [by destruct w |].
  destruct (entries_reliable (batch_of batchSize w) 0 w (busy r) Hk Ha (batch_NoDup _ _ Hk) Hp) as (w' & Hrun & Hm & Hlen).
  exists w'. split; [by apply poll_run | by split].
Qed.

Lemma batch_empty batchSize w : or_default batchSize 100%nat <> 0%nat -> batch_of batchSize w = [] -> pending (w_outbox w) = [].
Proof.
  unfold batch_of, batch. intros Hn E. pose proof (sort_perm (pending (w_outbox w))) as Hperm.
  destruct (OutboxMemory.sort_by_createdAt _) as [| x xs]; [by apply Permutation_nil in Hperm |]. by destruct (or_default batchSize 100%nat).
Qed.

Lemma drain_reliable batchSize fuel w r : delivery w -> rl_processing r = false -> or_default batchSize 100%nat <> 0%nat ->
  (length (pending (w_outbox w)) < fuel)%nat -> exists w',
  drain_loop sys_outbox (sys_bus reliable) snd_lens batchSize fuel (w, r) = (Ok (Some tt), (w', r)) /\ moves w w' /\ pending (w_outbox w') = [].
Proof.
  intros Hd Hr Hn. revert w Hd. induction fuel as [| fuel IH]; intros w Hd Hf; [lia |].
  destruct (poll_reliable batchSize w r Hd Hr) as (w1 & Hrun & Hm & Hlen). cbn [drain_loop].
  rewrite (bind_ok _ _ _ _ _ Hrun). destruct (batch_of batchSize w) as [| x es] eqn:E.
  - exists w1. split; [done |]. split; [done |]. rewrite (batch_empty _ _ Hn E) in Hlen. cbn in Hlen.
    apply nil_length_inv. lia.
  - cbn in Hlen. destruct (IH w1) as (w' & Hrun' & Hm' & Hp); [by eapply delivery_moves | lia |].
    exists w'. split; [exact Hrun' |]. split; [by transitivity w1 | done].
Qed.

(** ** The executor is a task *)

(** Publishing the rest of the events and marking all of them. *)
Definition publish_rest (fault : event -> World -> Fault) (published todo : list event) : M (Exec World unit) unit :=
  for_each todo (fun e => world_op (bus fault e)) ;;;
  after_dispatch (Some (fun es => world_op (onEventsDispatched world_outbox es))) (published ++ todo).

Lemma publish_steps fault published todo s ts :
  rtc step (ex_world s, Publishing published todo :: ts) (ex_world (snd (publish_rest fault published todo s)), ts).
Proof.
  revert published s. induction todo as [| e todo IH]; intros published s; unfold publish_rest; cbn [for_each].
  - rewrite app_nil_r, (bind_ok _ _ s tt s eq_refl). unfold after_dispatch, swallow, try_catch, world_op, zoom. cbn [lget lset the_world].
    destruct (0 <? length published)%nat; [| by apply rtc_once, step_stopped, sublist_cons].
    destruct (onEventsDispatched world_outbox published (ex_world s)) as [r w1] eqn:E.
    apply rtc_once. destruct r as [[] | err]; [by apply (step_marked (ex_world s) published (Ok tt) w1 [] ts) |].
    by apply (step_marked (ex_world s) published (Err err) w1 [] ts).
  - destruct (bus fault e (ex_world s)) as [[[] | err] w1] eqn:E.
    + set (s1 := lset the_world w1 s). assert (E1 : world_op (Tx := unit) (bus fault e) s = (Ok tt, s1)) by by apply zoom_run.
      assert (Hrest : publish_rest fault published (e :: todo) s = publish_rest fault (published ++ [e]) todo s1).
      { unfold publish_rest. cbn [for_each]. rewrite (bind_assoc _ _ _ s), (bind_ok _ _ _ _ _ E1). by rewrite <- app_assoc. }
      unfold publish_rest in Hrest at 1. cbn [for_each] in Hrest. rewrite Hrest.
      eapply rtc_l; [| exact (IH (published ++ [e]) s1)]. by apply (step_published fault (ex_world s) published e todo w1 [] ts).
    + assert (E1 : world_op (Tx := unit) (bus fault e) s = (Err err, lset the_world w1 s)) by by apply zoom_run.
      rewrite (bind_assoc _ _ _ s), (bind_err _ _ _ _ _ E1).
      apply rtc_once. by apply (step_refused fault (ex_world s) published e todo err w1 [] ts).
Qed.

(** [execute] of the code, run to its end, is a sequence of steps. *)
Lemma command_steps provider strategy maxRetries name aggregate fault c s ts : pure_decisions aggregate -> ex_uow s = None ->
  rtc step (ex_world s, ts) (ex_world (snd (the_command provider strategy maxRetries name aggregate fault c s)), ts).
Proof.
  intros Hp Hs. unfold the_command. rewrite outbox_execute_split by exact Hs.
  pose proof (commit_step provider strategy maxRetries name aggregate c s Hp) as H. unfold the_commit in H.
  destruct (outbox_commit provider strategy maxRetries name aggregate c s) as [[events | e] s1] eqn:E.
  - rewrite (bind_ok _ _ _ _ _ E). eapply rtc_l; [| exact (publish_steps fault [] events s1 ts)].
    by apply (step_committed provider strategy maxRetries name aggregate c s events s1 ts).
  - rewrite (bind_err _ _ _ _ _ E). by apply rtc_once, step_elapsed.
Qed.

(** ** Properties *)

(** C1. The transactional outbox loses nothing.  Commands and relays run together, their
    operations in any order, the bus may refuse an event or report a failure after it has
    delivered it, any task may stop between two operations, and published entries may be
    cleaned up: at every moment each stored event has been delivered or is the event of a
    pending entry, and only stored events have been delivered.  From there, a drain with a bus
    that works ends within as many polls as there are pending entries, plus one; then nothing is
    pending, the histories are as they were and every stored event has been delivered.  The
    identifiers drawn so far are assumed distinct. *)
Theorem no_event_is_lost (h : Host) (w : World) (ts : list task) (batchSize : option nat) (fuel : nat) (r : RelayState) :
  rtc step (empty_world h, []) (w, ts) -> distinct_draws (w_host w) ->
  or_default batchSize 100%nat <> 0%nat -> (length (pending (w_outbox w)) < fuel)%nat ->
  rl_processing r = false -> rl_drained r = false ->
  (forall e, stored w e -> e ∈ w_log w \/ exists x, x ∈ pending (w_outbox w) /\ ob_event x = e) /\
  (forall e, e ∈ w_log w -> stored w e) /\
  exists w', sys_drain reliable batchSize fuel (w, r) =
      (Ok (Some tt), (w', {| rl_timer := false; rl_processing := false; rl_drained := true |})) /\
    pending (w_outbox w') = [] /\ w_events w' = w_events w /\ forall e, stored w' e <-> e ∈ w_log w'.
Proof.
  intros Hrun Hdd Hn Hf Hr Hr'. assert (Hok : system_ok (w, ts)).
  { apply (proj2 (steps_ok _ _ Hrun) Hdd). split; [apply delivery_start | constructor]. }
  destruct Hok as [Hd _]. cbn in Hd. split; [apply (dv_covered _ Hd) |]. split; [apply (dv_log _ Hd) |].
  destruct (drain_reliable batchSize fuel w {| rl_timer := false; rl_processing := false; rl_drained := true |} Hd eq_refl Hn Hf)
    as (w' & Hdrain & Hm & Hp).
  exists w'. split; [| split; [done |]; split; [apply Hm |]].
  - unfold sys_drain, drain. destruct r as [timer processing drained]. cbn in Hr, Hr'. subst processing drained.
    unfold bind at 1, gets. cbn [lget snd_lens snd rl_drained]. erewrite bind_ok by reflexivity.
    unfold stop. destruct timer; exact Hdrain.
  - pose proof (delivery_moves _ _ Hm Hd) as Hd'. intros e. split; [| apply (dv_log _ Hd')].
    intros [He | (x & Hx & _)]%(dv_covered _ Hd'); [done |]. rewrite Hp in Hx. by apply not_elem_of_nil in Hx.
Qed.

(** The account of [CommandCorrect.v]: a deposit whose event the bus refuses. *)
Lemma account_pure : pure_decisions account.
Proof.
  intros n handler. simpl. destruct (String.eqb n "Deposit"); [| done]. intros [= <-] c s w.
  unfold deposit_handler, ret, throw. by destruct (cmd_payload c).
Qed.

Definition refused_deposit : Exec World unit :=
  snd (the_command None (everyNEvents 100) 0 "Account" account (fun _ _ => Refused (PlainError "down")) (deposit 5) start_exec).

(** The identifiers of a host, compared one by one. *)
Definition distinct_drawsb (h : Host) : bool :=
  let drawn := map (fun p => (draw h p, snd p)) (list_prod (seq 0 (h_ticks h)) (seq 0 (h_draws h))) in
  forallb (fun x => forallb (fun y => implb (String.eqb (fst x) (fst y)) (Nat.eqb (snd x) (snd y))) drawn) drawn.

Lemma distinct_drawsb_sound h : distinct_drawsb h = true -> distinct_draws h.
Proof.
  unfold distinct_drawsb. intros H p q Hp Hp' Hq Hq' E. rewrite forallb_forall in H.
  assert (Hin : forall p, (fst p < h_ticks h)%nat -> (snd p < h_draws h)%nat ->
    In (draw h p, snd p) (map (fun p => (draw h p, snd p)) (list_prod (seq 0 (h_ticks h)) (seq 0 (h_draws h))))).
  { intros [t d] ? ?. apply in_map_iff. exists (t, d). split; [done |]. apply in_prod; apply in_seq; cbn in *; lia. }
  specialize (H _ (Hin p Hp Hp')). rewrite forallb_forall in H. specialize (H _ (Hin q Hq Hq')).
  change (implb (String.eqb (draw h p) (draw h q)) (Nat.eqb (snd p) (snd q)) = true) in H.
  apply String.eqb_eq in E. rewrite E in H. by apply Nat.eqb_eq.
Qed.

Lemma no_event_is_lost_witness : exists w', sys_drain reliable None 2 (ex_world refused_deposit, new_relay) =
    (Ok (Some tt), (w', {| rl_timer := false; rl_processing := false; rl_drained := true |})) /\
  length (world_stream w' (composite_key "Account" (IdNum 1))) = 1%nat /\ length (pending (w_outbox (ex_world refused_deposit))) = 1%nat /\
  forall e, stored w' e <-> e ∈ w_log w'.
Proof.
  destruct (no_event_is_lost sample_host (ex_world refused_deposit) [] None 2 new_relay) as (_ & _ & w' & E & _ & Es & Hall).
  - apply (command_steps None (everyNEvents 100) 0 "Account" account _ (deposit 5) start_exec []); [apply account_pure | reflexivity].
  - apply distinct_drawsb_sound. vm_compute. reflexivity.
  - discriminate.
  - apply Nat.ltb_lt. vm_compute. reflexivity.
  - reflexivity.
  - reflexivity.
  - exists w'. split; [exact E |]. split; [unfold world_stream; rewrite Es; vm_compute; reflexivity |].
    split; [vm_compute; reflexivity | exact Hall].
Defined.
