(* ===== verification/Harness.v ===== *)
(** The test harnesses of [packages/testing/src]: Given-When-Then for aggregates, sagas and
    projections ([aggregate-harness.ts], [saga-harness.ts], [projection-harness.ts]), and the
    helpers on event metadata ([metadata-helpers.ts]).  What a harness reports is what the engine
    does: the theorems compare them with [CommandExecutor.v], [SagaExecutor.v], [Projection.v]
    and [Metadata.v]. *)
From S2P Require Import Prelude JsMap CoreTypes Upcaster Uuid Host Stores Idempotency Outbox UnitOfWork Metadata Concurrency World CommandExecutor Frames CommandCorrect SagaExecutor Projection Broker.
Local Open Scope string_scope.

(** [err instanceof Error ? err : new Error(String(err))] *)
Definition as_error (e : js_error) : js_error :=
  match e with ThrownValue v => PlainError (or_default (text_of_json v) "[object Object]") | _ => e end.

(** Calling or reading a property of [undefined]. *)
Definition not_a_function (what : string) : js_error := TypeError (what ++ " is not a function").
Definition no_property (property : string) : js_error :=
  TypeError ("Cannot read properties of undefined (reading '" ++ property ++ "')").

(** ** Aggregates *)

Record AggregateTestResult : Type := { ar_events : list event; ar_state : value; ar_error : option js_error }.

(** [evolveAggregate]; [initialState ?? aggregate.initialState]. *)
Definition evolveAggregate {W} (aggregate : Aggregate W) (events : list event) (initialState : value) : result value :=
  fold_result (evolve_step (ag_evolve aggregate)) events (coalesce initialState (ag_initialState aggregate)).

Module AggregateHarness.

(** What the builder has accumulated; the infrastructure is part of the handlers. *)
Record builder : Type := { givenEvents : list event; the_command : option command }.

Definition testAggregate : builder := {| givenEvents := []; the_command := None |}.
Definition given (events : list event) (b : builder) : builder :=
  {| givenEvents := givenEvents b ++ events; the_command := the_command b |}.
Definition when (cmd : command) (b : builder) : builder :=
  {| givenEvents := givenEvents b; the_command := Some cmd |}.

Section execute.
Context {W : Type} (aggregate : Aggregate W).

(** The body of the [try]. *)
Definition run (c : option command) (priorState : value) : M W AggregateTestResult :=
  match c with
  | None => throw (no_property "name")
  | Some c =>
      match mget (cmd_name c) (ag_decide aggregate) with
      | None => throw (not_a_function "handler")
      | Some handler =>
          rawResult <- handler c priorState ;;
          let events := normalize_decision rawResult in
          state <- lift_result (evolveAggregate aggregate events priorState) ;;
          ret {| ar_events := events; ar_state := state; ar_error := None |}
      end
  end.

Definition execute (b : builder) : M W AggregateTestResult :=
  priorState <- lift_result (evolveAggregate aggregate (givenEvents b) VUndefined) ;;
  try_catch (run (the_command b) priorState)
    (fun err => ret {| ar_events := []; ar_state := priorState; ar_error := Some (as_error err) |}).
End execute.
End AggregateHarness.

(** ** Sagas *)

Record SagaTestResult : Type := { sr_state : value; sr_commands : list command; sr_error : option js_error }.

Module SagaHarness.

Record builder : Type := { currentState : value; the_event : option event }.

Definition testSaga : builder := {| currentState := VUndefined; the_event := None |}.
Definition givenState (state : value) (b : builder) : builder := {| currentState := state; the_event := the_event b |}.
Definition when (evt : event) (b : builder) : builder := {| currentState := currentState b; the_event := Some evt |}.

Section execute.
Context {W : Type} (saga : Saga W).

Definition run (e : option event) (state : value) : M W SagaTestResult :=
  match e with
  | None => throw (no_property "name")
  | Some e =>
      match mget (ev_name e) (sg_on saga) with
      | None => throw (not_a_function "handler")
      | Some entry =>
          reaction <- on_handle entry e state ;;
          ret {| sr_state := re_state reaction; sr_commands := normalize_commands (re_commands reaction); sr_error := None |}
      end
  end.

Definition execute (b : builder) : M W SagaTestResult :=
  let state := coalesce (currentState b) (sg_initialState saga) in
  try_catch (run (the_event b) state)
    (fun err => ret {| sr_state := state; sr_commands := []; sr_error := Some (as_error err) |}).
End execute.
End SagaHarness.

(** ** Projections *)

Record ProjectionTestResult : Type := { vr_view : value; vr_error : option js_error }.

Module ProjectionHarness.

Record builder : Type := { startView : value; events : list event }.

Definition testProjection : builder := {| startView := VUndefined; events := [] |}.
Definition initialView (view : value) (b : builder) : builder := {| startView := view; events := events b |}.
Definition given (evts : list event) (b : builder) : builder := {| startView := startView b; events := events b ++ evts |}.

Section execute.
Context {W : Type} (projection : Projection W).

(** The loop: an event without a handler leaves the view. *)
Fixpoint replay_view (events : list event) (currentView : value) : M W value :=
  match events with
  | [] => ret currentView
  | e :: events' =>
      next <- match mget (ev_name e) (pr_on projection) with
              | Some handler => ph_reduce handler e currentView
              | None => ret currentView
              end ;;
      replay_view events' next
  end.

Definition execute (b : builder) : M W ProjectionTestResult :=
  try_catch
    (view <- replay_view (events b) (startView b) ;; ret {| vr_view := view; vr_error := None |})
    (fun err => ret {| vr_view := startView b; vr_error := Some (as_error err) |}).
End execute.
End ProjectionHarness.

(** ** Metadata *)

(** [stripMetadata] *)
Definition stripMetadata (events : list event) : list event :=
  map (fun e => {| ev_name := ev_name e; ev_payload := ev_payload e; ev_metadata := None |}) events.

Definition no_metadata (e : event) : js_error := PlainError ("Event " ++ quoted (ev_name e) ++ " has no metadata").
Definition bad_eventId (e : event) (i : string) : js_error :=
  PlainError ("Event " ++ quoted (ev_name e) ++ " has invalid eventId: " ++ quoted i ++ " (expected UUID v7)").
Definition empty_field (e : event) (what : string) : js_error := PlainError ("Event " ++ quoted (ev_name e) ++ " has empty " ++ what).

(** [expectValidMetadata].  A timestamp is the instant of a valid ISO string in this model, so
    [Date.parse] accepts it. *)
Definition expectValidMetadata (e : event) : result unit :=
  match ev_metadata e with
  | None => Err (no_metadata e)
  | Some md =>
      if negb (matches uuidv7_regexp (md_eventId md)) then Err (bad_eventId e (md_eventId md))
      else if String.eqb (md_correlationId md) EmptyString then Err (empty_field e "correlationId")
      else if String.eqb (md_causationId md) EmptyString then Err (empty_field e "causationId")
      else Ok tt
  end.

(** What a template literal makes of [event.metadata?.field]. *)
Definition shown (o : option string) : string := or_default o "undefined".
Definition at_index (e : event) (i : nat) : string := "Event " ++ quoted (ev_name e) ++ " at index " ++ string_of_Z (Z.of_nat i).

Definition option_string_eqb (a b : option string) : bool :=
  match a, b with Some x, Some y => String.eqb x y | None, None => true | _, _ => false end.

(** The loop of [expectSameCorrelation] from index [i]. *)
Fixpoint correlated (first : string) (i : nat) (events : list event) : result unit :=
  match events with
  | [] => Ok tt
  | e :: events' =>
      if option_string_eqb (metadata_req md_correlationId e) (Some first) then correlated first (S i) events'
      else Err (PlainError (at_index e i ++ " has correlationId " ++ quoted (shown (metadata_req md_correlationId e))
                            ++ " but expected " ++ quoted first))
  end.

Definition expectSameCorrelation (events : list event) : result unit :=
  match events with
  | [] => Ok tt
  | first :: rest =>
      let missing := Err (PlainError ("First event " ++ quoted (ev_name first) ++ " has no correlationId in metadata")) in
      match metadata_req md_correlationId first with
      | Some c => if String.eqb c EmptyString then missing else correlated c 1 rest
      | None => missing
      end
  end.

(** The loop of [expectCausationChain]: [prev] is at index [i - 1]. *)
Fixpoint caused (prev : event) (i : nat) (events : list event) : result unit :=
  match events with
  | [] => Ok tt
  | curr :: events' =>
      if option_string_eqb (metadata_req md_causationId curr) (metadata_req md_eventId prev) then caused curr (S i) events'
      else Err (PlainError (at_index curr i ++ " has causationId " ++ quoted (shown (metadata_req md_causationId curr))
                            ++ " but expected " ++ quoted (shown (metadata_req md_eventId prev))
                            ++ " (eventId of previous event " ++ quoted (ev_name prev) ++ ")"))
  end.

Definition expectCausationChain (events : list event) : result unit :=
  match events with [] => Ok tt | first :: rest => caused first 1 rest end.

(** [TestMetadataFactoryOptions], [TestMetadataContext] *)
Record TestMetadataFactoryOptions (W : Type) : Type := {
  fo_eventIdGenerator : option (M W string);
  fo_timestampGenerator : option (M W Z);
  fo_correlationId : option string;
  fo_userId : option ID
}.
Arguments fo_eventIdGenerator {W} _.
Arguments fo_timestampGenerator {W} _.
Arguments fo_correlationId {W} _.
Arguments fo_userId {W} _.

Record TestMetadataContext : Type := {
  tm_aggregateName : string;
  tm_aggregateId : ID;
  tm_sequenceNumber : nat;
  tm_correlationId : option string;
  tm_causationId : option string;
  tm_userId : option ID
}.

(** The instant of ["2024-01-01T00:00:00.000Z"]. *)
Definition new_year_2024 : Z := 1704067200000.

Section factory.
Context {W : Type} (counter : lens W nat) (options : option (TestMetadataFactoryOptions W)).

(** [`evt-${++counter}`] *)
Definition next_eventId : M W string :=
  n <- zoom counter get ;;
  zoom counter (modify (fun _ => S n)) ;;;
  ret ("evt-" ++ string_of_Z (Z.of_nat (S n))).

Definition option_of {A} (f : TestMetadataFactoryOptions W -> option A) : option A :=
  match options with Some o => f o | None => None end.

Definition buildMetadata (ctx : TestMetadataContext) : M W EventMetadata :=
  eventId <- or_default (option_of fo_eventIdGenerator) next_eventId ;;
  timestamp <- or_default (option_of fo_timestampGenerator) (ret new_year_2024) ;;
  ret {| md_eventId := eventId; md_timestamp := timestamp;
         md_correlationId := or_default (tm_correlationId ctx) (or_default (option_of fo_correlationId) "test-correlation-id");
         md_causationId := or_default (tm_causationId ctx) "test-causation-id";
         md_userId := match tm_userId ctx with Some u => Some u | None => option_of fo_userId end;
         md_version := None;
         md_aggregateName := Some (tm_aggregateName ctx); md_aggregateId := Some (tm_aggregateId ctx);
         md_sequenceNumber := Some (tm_sequenceNumber ctx);
         md_traceparent := None; md_tracestate := None |}.
End factory.

(** ** The aggregate harness and the engine *)

Section aggregate.
Context {W Tx : Type} (host : lens W Host) `{!LensLaws host}
  (P : EventSourcedPersistence W) (stream : W -> string -> list event) `{!EventStoreSpec P stream}
  (provider : option MetadataContext) (name : string) (aggregate : Aggregate W)
  (Hno_upcasters : ag_upcasters aggregate = None).

(** The lifecycle of the engine, without the optional parts. *)
Definition engine_lifecycle (meta : option MetadataContext) (c : command) : M (UnitOfWork W Tx * W) (option PendingSnapshot) :=
  executeLifecycle host (the_enricher host provider) None None None meta name aggregate c (EventSourced P).

Definition same_events (es es' : list event) : Prop := map ev_name es' = map ev_name es /\ map ev_payload es' = map ev_payload es.

Lemma replay_plain events : replay aggregate events (ag_initialState aggregate)
  = fold_result (evolve_step (ag_evolve aggregate)) events (ag_initialState aggregate).
Proof. unfold replay. by rewrite Hno_upcasters. Qed.

Lemma evolve_given given history : same_events history given ->
  evolveAggregate aggregate given VUndefined = replay aggregate history (ag_initialState aggregate).
Proof. intros [Hn Hp]. rewrite replay_plain. by apply evolve_shape. Qed.

Lemma coalesce_present v d : nullish v = false -> coalesce v d = v.
Proof. unfold coalesce. by intros ->. Qed.

Definition scenario (given : list event) (c : command) : AggregateHarness.builder :=
  AggregateHarness.when c (AggregateHarness.given given AggregateHarness.testAggregate).

(** What the engine does when the harness reports [res]. *)
Definition agrees_with_engine (c : command) (history : list event) (res : AggregateTestResult) (w1 : W)
    (outcome : result (option PendingSnapshot) * (UnitOfWork W Tx * W)) : Prop :=
  match ar_error res, outcome with
  | Some e, (Err e', (u, w')) => w' = w1 /\ u = new_uow /\ (mhas (cmd_name c) (ag_decide aggregate) = true -> e = as_error e')
  | None, (Ok _, (u, w')) => same_but_host host w1 w' /\ same_events (ar_events res) (uw_pendingEvents u) /\
      uw_operations u = [save_operation (EventSourced P) name (target c) (uw_pendingEvents u) (ar_state res) (length history)] /\
      replay aggregate (history ++ uw_pendingEvents u) (ag_initialState aggregate) = Ok (ar_state res)
  | _, _ => False
  end.

(** C14. What an aggregate test reports is what the engine does.  Given events with the names and
    payloads of the stored history, the harness and the command lifecycle of the engine make
    the same decision: when the test reports events, the engine enlists one save of events with
    the same names and payloads, at the version that it has read, and the history with them
    replays to the state of the test; when it reports an error, the engine fails with it and has
    enlisted nothing.  The harness itself fails only when a given event cannot be applied, and
    then the engine cannot load the aggregate.  The aggregate has no upcasters, and no state
    of it is [null]. *)
Theorem aggregate_harness_predicts_engine meta c given w :
  let history := stream w (composite_key name (target c)) in
  same_events history given ->
  (forall state, replay aggregate history (ag_initialState aggregate) = Ok state -> nullish state = false) ->
  match AggregateHarness.execute aggregate (scenario given c) w with
  | (Ok res, w1) => agrees_with_engine c history res w1 (engine_lifecycle meta c (new_uow, w))
  | (Err e, w1) => w1 = w /\ engine_lifecycle meta c (new_uow, w) = (Err e, (new_uow, w))
  end.
Proof.
  intros history Hgiven Hnn. unfold AggregateHarness.execute, scenario, AggregateHarness.when, AggregateHarness.given.
  cbn [AggregateHarness.givenEvents AggregateHarness.the_command AggregateHarness.testAggregate app].
  rewrite (evolve_given given history Hgiven).
  assert (Hload : load_aggregate None name aggregate (target c) (EventSourced P) w =
    match replay aggregate history (ag_initialState aggregate) with
    | Ok state => (Ok {| ld_snapshot := None; ld_state := state; ld_version := length history; ld_isEventSourced := true |}, w)
    | Err e => (Err e, w) end).
  { unfold load_aggregate, snapshot_config. erewrite bind_ok by reflexivity. cbv iota.
    erewrite bind_ok by (apply (es_load_spec (P := P))). fold history. unfold bind, lift_result. by destruct (replay _ _ _). }
  unfold engine_lifecycle, executeLifecycle. destruct (replay aggregate history (ag_initialState aggregate)) as [prior | e] eqn:Er.
  2: { erewrite bind_err by reflexivity. split; [done |]. by erewrite bind_err by (apply zoom_run; exact Hload). }
  erewrite bind_ok by reflexivity. erewrite bind_ok by (apply zoom_run; exact Hload). cbn [ld_state ld_version ld_isEventSourced ld_snapshot].
  change (lset world_of w (new_uow, w)) with (new_uow (W := W) (Tx := Tx), w). unfold AggregateHarness.run, try_catch.
  destruct (mget (cmd_name c) (ag_decide aggregate)) as [handler |] eqn:Eh.
  2: { cbn. unfold agrees_with_engine. cbn. split; [done |]. split; [done |]. unfold mhas. by rewrite Eh. }
  destruct (handler c prior w) as [[raw | e] w1] eqn:E1.
  2: { rewrite (bind_err _ _ _ _ _ E1), (bind_err _ _ _ _ _ (zoom_run world_of _ (new_uow, w) _ _ E1)). done. }
  rewrite (bind_ok _ _ _ _ _ E1), (bind_ok _ _ _ _ _ (zoom_run world_of _ (new_uow, w) _ _ E1)).
  change (lset world_of w1 (new_uow, w)) with (new_uow (W := W) (Tx := Tx), w1).
  unfold evolveAggregate. rewrite (coalesce_present prior _ (Hnn _ eq_refl)).
  destruct (fold_result (evolve_step (ag_evolve aggregate)) (normalize_decision raw) prior) as [state | e] eqn:Ef; [| done].
  erewrite !bind_ok by reflexivity.
  destruct (enrich_spec host provider meta (normalize_decision raw) name (target c) (length history) (cmd_name c)
    (option_map (fun ups name => currentEventVersion name ups) (ag_upcasters aggregate)) w1) as (enr & corr & w2 & E2 & O2 & Hen & _).
  erewrite bind_ok by (apply zoom_run; exact E2). change (lset world_of w2 (new_uow, w1)) with (new_uow (W := W) (Tx := Tx), w2).
  cbn iota. erewrite bind_ok by (by apply enlist_run). unfold agrees_with_engine. cbn [ar_error].
  assert (Hc : forall st : UnitOfWork W Tx * W, match cmd_commandId c, None (A := IdempotencyStore W) return M (UnitOfWork W Tx * W) unit with
    | Some commandId, Some store => zoom uow_of (enlist (claim_operation host store commandId name (target c))) | _, _ => ret tt end st = (Ok tt, st))
    by by destruct (cmd_commandId c).
  erewrite bind_ok by apply Hc. erewrite bind_ok by (by apply defer_run). cbn.
  split; [done |]. destruct (enriched_shape _ _ _ _ _ _ _ _ _ Hen) as (Hn & Hp & _). split; [by split |]. split; [done |].
  rewrite (replay_app aggregate history enr _ _ Er). by eapply replay_enriched.
Qed.
End aggregate.

(** ** The saga harness and the engine *)

Section saga.
Context {W Tx : Type} (host : lens W Host) (sagaPersistence : SagaPersistence W)
  (run_commit : list (operation W Tx) -> M W unit) (dispatch_command : command -> M (Exec W Tx) unit)
  (dispatch_event : event -> M (Exec W Tx) unit) (onEventsDispatched : option (list event -> M (Exec W Tx) unit)).

Definition engine_saga (sagaName : string) (saga : Saga W) (e : event) : M (Exec W Tx) unit :=
  SagaExecutor.execute host sagaPersistence run_commit dispatch_command dispatch_event onEventsDispatched sagaName saga e.

(** The reaction, once it is known: the state is saved and the commands are dispatched. *)
Definition engine_reacts (sagaName : string) (saga : Saga W) (e : event) (sagaId : ID) (version : nat)
    (state : value) (commands : list command) : M (Exec W Tx) unit :=
  ctx <- world_op (saga_context host e) ;;
  let save := save_saga sagaPersistence sagaName sagaId state version in
  match or_default (sg_atomicity saga) Atomic with
  | BestEffort => run_best_effort run_commit dispatch_command dispatch_event onEventsDispatched ctx save commands
  | Atomic => run_atomic run_commit dispatch_command dispatch_event onEventsDispatched ctx save commands
  end.

Definition saga_scenario (state : value) (e : event) : SagaHarness.builder :=
  SagaHarness.when e (SagaHarness.givenState state SagaHarness.testSaga).

(** An event that the engine does not ignore. *)
Lemma saga_harness_engine sagaName saga e entry sagaId loaded state version (s : Exec W Tx) :
  mget (ev_name e) (sg_on saga) = Some entry -> on_id entry e = Ok sagaId ->
  sp_load sagaPersistence sagaName sagaId (ex_world s) = (Ok loaded, ex_world s) ->
  bootstrap_or_resume saga e loaded = Some (state, version) -> nullish state = false ->
  exists res w1, SagaHarness.execute saga (saga_scenario state e) (ex_world s) = (Ok res, w1) /\
    let s1 := {| ex_world := w1; ex_uow := ex_uow s; ex_meta := ex_meta s |} in
    match sr_error res with
    | None => engine_saga sagaName saga e s = engine_reacts sagaName saga e sagaId version (sr_state res) (sr_commands res) s1
    | Some err => exists err', engine_saga sagaName saga e s = (Err err', s1) /\ err = as_error err'
    end.
Proof.
  intros Hon Hid Hload Hboot Hstate. unfold SagaHarness.execute, saga_scenario, SagaHarness.when, SagaHarness.givenState.
  cbn [SagaHarness.currentState SagaHarness.the_event SagaHarness.testSaga]. rewrite (coalesce_present _ _ Hstate).
  unfold SagaHarness.run, try_catch, engine_saga, SagaExecutor.execute. rewrite Hon, Hid.
  erewrite (bind_ok (lift_result (Ok sagaId))) by reflexivity.
  assert (Hl : world_op (Tx := Tx) (sp_load sagaPersistence sagaName sagaId) s = (Ok loaded, s)).
  { unfold world_op, zoom. cbn. rewrite Hload. by destruct s. }
  rewrite (bind_ok _ _ _ _ _ Hl), Hboot.
  destruct (on_handle entry e state (ex_world s)) as [[reaction | err] w1] eqn:E.
  - rewrite (bind_ok _ _ _ _ _ E). eexists _, w1. split; [reflexivity |]. cbn [sr_error sr_state sr_commands].
    unfold world_op at 1. by rewrite (bind_ok _ _ s _ _ (zoom_run the_world _ s _ _ E)).
  - rewrite (bind_err _ _ _ _ _ E). eexists _, w1. split; [reflexivity |]. exists err. split; [| done].
    unfold world_op. by rewrite (bind_err _ _ s _ _ (zoom_run the_world _ s _ _ E)).
Qed.
End saga.

(** ** The projection harness and the engine *)

Section projection.
Context {W : Type} (views : lens W Views.store) `{!LensLaws views} (p : Projection W)
  (reducer : string -> event -> value -> result value) (i : ID).

(** The events handled are all about the view [i], and reducers make proper views. *)
Record one_view (events : list event) : Prop := {
  ov_wf : wf (pr_on p);
  ov_pure : pure_reducers p reducer;
  ov_id : forall e h, e ∈ events -> mget (ev_name e) (pr_on p) = Some h -> exists f, ph_id h = Some f /\ f e = Ok i;
  ov_proper : forall n e v next, reducer n e v = Ok next -> nullish next = false /\ is_DeleteView next = false
}.

Definition live (events : list event) : M W unit := for_each events (deliver_live (zoom_view views Views.persistence) p).

(** What a reducer is given for the view [i]. *)
Definition current (s : W) : value :=
  coalesce (or_default (mget (string_of_ID i) (lget views s)) VUndefined) (pr_initialView p).

Lemma deliver_one e s : wf (pr_on p) -> pure_reducers p reducer ->
  (forall h, mget (ev_name e) (pr_on p) = Some h -> exists f, ph_id h = Some f /\ f e = Ok i) ->
  (forall n e v next, reducer n e v = Ok next -> nullish next = false /\ is_DeleteView next = false) ->
  match mget (ev_name e) (pr_on p) with
  | None => deliver_live (zoom_view views Views.persistence) p e s = (Ok tt, s)
  | Some _ => match reducer (ev_name e) e (current s) with
              | Ok next => exists s', deliver_live (zoom_view views Views.persistence) p e s = (Ok tt, s') /\ current s' = next
              | Err err => deliver_live (zoom_view views Views.persistence) p e s = (Err err, s)
              end
  end.
Proof.
  intros Hwf Hp Hid Hok. unfold deliver_live. rewrite mget_subscriptions by done.
  destruct (mget (ev_name e) (pr_on p)) as [h |] eqn:Eh; [| done]. destruct (Hid h eq_refl) as (f & Hf & Hi). rewrite Hf.
  cbn [option_map]. unfold boundHandler. rewrite Hi. erewrite (bind_ok (lift_result (Ok i))) by reflexivity.
  pose proof (update_view_run views p reducer h e i s Hp Eh) as Hu. fold (current s) in Hu. unfold bind. rewrite Hu.
  destruct (reducer (ev_name e) e (current s)) as [next |] eqn:Er; [| done].
  destruct (Hok _ _ _ _ Er) as [Hn Hdel]. rewrite Hdel. eexists. split; [reflexivity |]. unfold current.
  rewrite lget_lset, mget_mset_eq. by apply coalesce_present.
Qed.

Lemma replay_view_live events s :
  one_view events ->
  match ProjectionHarness.replay_view p events (current s) s with
  | (Ok v, s1) => s1 = s /\ exists s', live events s = (Ok tt, s') /\ current s' = v
  | (Err err, s1) => s1 = s /\ exists s', live events s = (Err err, s')
  end.
Proof.
  intros [Hwf Hp Hid Hok]. assert (H : forall s0, match ProjectionHarness.replay_view p events (current s) s0 with
    | (Ok v, s1) => s1 = s0 /\ exists s', live events s = (Ok tt, s') /\ current s' = v
    | (Err err, s1) => s1 = s0 /\ exists s', live events s = (Err err, s') end); [| apply H].
  revert s. induction events as [| e events IH]; intros s s0; [split; [done | by exists s] |].
  cbn [ProjectionHarness.replay_view]. unfold live. cbn [for_each].
  assert (Hids : forall e' h, e' ∈ events -> mget (ev_name e') (pr_on p) = Some h -> exists f, ph_id h = Some f /\ f e' = Ok i)
    by (intros e' h He'; apply Hid; by right).
  specialize (IH Hids). pose proof (deliver_one e s Hwf Hp (fun h => Hid e h ltac:(left)) Hok) as Hd.
  destruct (mget (ev_name e) (pr_on p)) as [h |] eqn:Eh.
  - unfold bind at 1. rewrite (Hp _ _ Eh). destruct (reducer (ev_name e) e (current s)) as [next | err].
    + destruct Hd as (s1 & Hd & <-). rewrite (bind_ok _ _ _ _ _ Hd). apply IH.
    + rewrite (bind_err _ _ _ _ _ Hd). split; [done | by exists s].
  - erewrite bind_ok by reflexivity. rewrite (bind_ok _ _ _ _ _ Hd). apply IH.
Qed.

Definition view_scenario (start : value) (events : list event) : ProjectionHarness.builder :=
  ProjectionHarness.given events (ProjectionHarness.initialView start ProjectionHarness.testProjection).

Lemma projection_harness_engine events s :
  one_view events -> exists res, ProjectionHarness.execute p (view_scenario (current s) events) s = (Ok res, s) /\
    match vr_error res with
    | None => exists s', live events s = (Ok tt, s') /\ current s' = vr_view res
    | Some err => exists err' s', live events s = (Err err', s') /\ err = as_error err'
    end.
Proof.
  intros H. pose proof (replay_view_live events s H) as Hr. unfold ProjectionHarness.execute, view_scenario, try_catch.
  cbn [ProjectionHarness.given ProjectionHarness.initialView ProjectionHarness.startView ProjectionHarness.events ProjectionHarness.testProjection app].
  destruct (ProjectionHarness.replay_view p events (current s) s) as [[v | err] s1] eqn:E; destruct Hr as [-> Hr].
  - rewrite (bind_ok _ _ _ _ _ E). by eexists.
  - rewrite (bind_err _ _ _ _ _ E). destruct Hr as [s' Hr]. eexists. split; [reflexivity |]. by exists err, s'.
Qed.
End projection.

(** ** The engine's metadata passes the helpers *)

(** A clock that is not before 1970 and random numbers of the documented shape. *)
Definition proper_host (h : Host) : Prop :=
  (forall n, 0 <= h_clock h n)%Z /\ forall n, length (h_random h n) = 16%nat /\ Forall byte_range (h_random h n).

Lemma map_indexed_all {St A B} (f : nat -> A -> M St B) (I : St -> Prop) (Q : B -> Prop) :
  (forall i x s, I s -> wp (f i x) (fun y s' => I s' /\ Q y) (fun _ _ => True) s) ->
  forall xs i s, I s -> wp (map_indexed f i xs) (fun ys s' => I s' /\ Forall Q ys) (fun _ _ => True) s.
Proof.
  intros Hf xs. induction xs as [| x xs IH]; intros i s Hs; [by split |]. cbn [map_indexed]. apply wp_bind.
  eapply wp_mono; [by apply Hf | | done]. intros y s1 [Hs1 Hy]. apply wp_bind.
  eapply wp_mono; [by apply IH | | done]. intros ys s2 [Hs2 Hys]. split; [done | by constructor].
Qed.

Lemma matches_nonempty s : matches uuidv7_regexp s = true -> s <> EmptyString.
Proof. by intros H ->. Qed.

Section valid.
Context {W : Type} (host : lens W Host) `{!LensLaws host}.

Definition proper (w : W) : Prop := proper_host (lget host w).

Lemma uuid_valid w : proper w -> wp (zoom host new_uuid) (fun u w' => proper w' /\ matches uuidv7_regexp u = true) (fun _ _ => False) w.
Proof.
  intros [Hc Hr]. unfold wp, zoom, new_uuid, bind, date_now, random_bytes16, ret, proper. cbn. rewrite lget_lset. split; [done |].
  destruct (Hr (h_draws (lget host w))) as [Hl Hb]. by apply uuidv7_format.
Qed.

Lemma now_proper w : proper w -> wp (zoom host date_now) (fun _ w' => proper w') (fun _ _ => False) w.
Proof. intros H. unfold wp, zoom, date_now, proper. cbn. by rewrite lget_lset. Qed.

(** An event whose identifiers are in order. *)
Definition traced (corr caus : string) (e : event) : Prop := exists md, ev_metadata e = Some md /\
  matches uuidv7_regexp (md_eventId md) = true /\ md_correlationId md = corr /\ md_causationId md = caus.

Lemma traced_valid corr caus e : corr <> EmptyString -> caus <> EmptyString -> traced corr caus e -> expectValidMetadata e = Ok tt.
Proof.
  intros Hcorr Hcaus (md & E & Hm & <- & <-). unfold expectValidMetadata. rewrite E, Hm.
  apply String.eqb_neq in Hcorr, Hcaus. by rewrite Hcorr, Hcaus.
Qed.

Lemma correlated_all c n events : Forall (fun e => metadata_req md_correlationId e = Some c) events -> correlated c n events = Ok tt.
Proof. intros H. revert n. induction H as [| e events He _ IH]; intros n; [done |]. cbn [correlated]. rewrite He. cbn [option_string_eqb]. by rewrite String.eqb_refl. Qed.

Lemma traced_correlated corr caus events : corr <> EmptyString -> Forall (traced corr caus) events -> expectSameCorrelation events = Ok tt.
Proof.
  intros Hc H. assert (Hall : Forall (fun e => metadata_req md_correlationId e = Some corr) events).
  { eapply Forall_impl; [exact H |]. intros e (md & E & _ & <- & _). unfold metadata_req, metadata_opt. by rewrite E. }
  destruct events as [| e events]; [done |]. apply Forall_cons in Hall as [He Hall]. cbn. rewrite He.
  apply String.eqb_neq in Hc. rewrite Hc. by apply correlated_all.
Qed.

Definition merged_context (provider override : option MetadataContext) : MetadataContext :=
  merge_context (or_default provider empty_context) (or_default override empty_context).

Lemma enrich_traced provider override events name i version fallback resolver w :
  let merged := merged_context provider override in
  proper w -> field (mc_correlationId merged) <> Some EmptyString ->
  wp (enrich host (option_map ret provider) None override events name i version fallback resolver)
    (fun events' _ => exists corr, corr <> EmptyString /\
       Forall (traced corr (or_default (field (mc_causationId merged)) fallback)) events') (fun _ _ => True) w.
Proof.
  intros merged Hw Hcorr. unfold enrich. apply wp_bind.
  assert (Hp : wp (match option_map ret provider with Some p => p | None => ret empty_context end)
    (fun c w' => c = or_default provider empty_context /\ w' = w) (fun _ _ => True) w) by by destruct provider.
  eapply wp_mono; [exact Hp | | done]. intros c w' [-> ->]. cbv zeta. fold (merged_context provider override). fold merged.
  apply wp_bind. eapply wp_mono with (Q := fun corr w' => proper w' /\ corr <> EmptyString) (E := fun _ _ => True); [| | done].
  { destruct (field (mc_correlationId merged)) as [c |]; [apply wp_ret; split; [done | by intros ->] |].
    eapply wp_mono; [by apply uuid_valid | | done]. intros u w' [Hw' Hu]. split; [done | by apply matches_nonempty]. }
  intros corr w1 [Hw1 Hc]. apply wp_bind, wp_ret. eapply wp_mono.
  - apply (map_indexed_all _ proper (traced corr (or_default (field (mc_causationId merged)) fallback))); [| exact Hw1].
    intros n e s Hs. apply wp_bind. eapply wp_mono; [by apply uuid_valid | | done]. intros u s1 [Hs1 Hu].
    apply wp_bind. eapply wp_mono; [by apply now_proper | | done]. intros t s2 Hs2. apply wp_ret. split; [done |]. by eexists.
  - intros ys s [_ H]. by exists corr.
  - done.
Qed.
End valid.

(** ** Examples *)

Definition deposited (n : Z) : event := {| ev_name := "Deposited"; ev_payload := VNum n; ev_metadata := None |}.

Definition funded : World := lset events_lens [(composite_key "Account" (IdNum 1), [deposited 3; deposited 4])] start.

Lemma aggregate_harness_predicts_engine_witness :
  AggregateHarness.execute account (scenario [deposited 3; deposited 4] (deposit 5)) funded
    = (Ok {| ar_events := [deposited 5]; ar_state := VNum 12; ar_error := None |}, funded) /\
  agrees_with_engine (Tx := unit) host_lens world_events "Account" account (deposit 5) [deposited 3; deposited 4]
    {| ar_events := [deposited 5]; ar_state := VNum 12; ar_error := None |} funded
    (engine_lifecycle host_lens world_events None "Account" account None (deposit 5) (new_uow, funded)).
Proof.
  split; [reflexivity |].
  apply (aggregate_harness_predicts_engine (Tx := unit) host_lens world_events world_stream None "Account" account eq_refl
    None (deposit 5) [deposited 3; deposited 4] funded); [by split |].
  intros state H. vm_compute in H. by injection H as <-.
Defined.

(** [execute] of an aggregate test may throw: the given events are applied outside the [try]. *)
Lemma given_events_throw : exists e,
  AggregateHarness.execute account (scenario [{| ev_name := "Deposited"; ev_payload := VNull; ev_metadata := None |}] (deposit 5)) start
    = (Err e, start).
Proof. eexists. reflexivity. Qed.

(** A projection test does not start from the projection's [initialView], which the engine gives
    to the first event of a view. *)
Definition counting : Projection World :=
  {| pr_on := [("Deposited", {| ph_id := Some (fun _ => Ok (IdStr "v"));
       ph_reduce := fun _ view => match view with VNum n => ret (VNum (n + 1)) | _ => throw (TypeError "view") end |})];
     pr_initialView := VNum 0; pr_consistency := Eventual |}.

Lemma initial_view_ignored :
  (exists res, ProjectionHarness.execute counting (ProjectionHarness.given [deposited 1] ProjectionHarness.testProjection) start = (Ok res, start) /\
     vr_error res = Some (TypeError "view")) /\
  exists w, deliver_live (world_view "Count") counting (deposited 1) start = (Ok tt, w) /\
     mget "v" (lget (view_lens "Count") w) = Some (VNum 1).
Proof. split; eexists; by split. Qed.
