(* ===== verification/DomainHarness.v ===== *)
(** [testDomain] of [packages/testing/src/domain-harness.ts]: a domain wired over the in-memory
    stores and buses, with spies on the two buses and on [dispatchCommand].  The engine is that
    of [Assembly.v]; the spies are the [dispatch] methods that the wiring's buses carry. *)
From S2P Require Import Prelude JsMap CoreTypes Errors Host Stores Idempotency Outbox UnitOfWork Metadata Concurrency World CommandExecutor Buses SagaExecutor Projection Domain Wiring Init Assembly.
Local Open Scope string_scope.

(** [DomainSpy] *)
Record DomainSpy : Type := {
  sy_publishedEvents : list event;
  sy_dispatchedCommands : list command;
  sy_unhandledCommands : list command;
  sy_commandErrors : list (command * js_error)
}.

Definition new_spy : DomainSpy :=
  {| sy_publishedEvents := []; sy_dispatchedCommands := []; sy_unhandledCommands := []; sy_commandErrors := [] |}.

Definition published (e : event) (s : DomainSpy) : DomainSpy :=
  {| sy_publishedEvents := (sy_publishedEvents s ++ [e])%list; sy_dispatchedCommands := sy_dispatchedCommands s;
     sy_unhandledCommands := sy_unhandledCommands s; sy_commandErrors := sy_commandErrors s |}.
Definition dispatched (c : command) (s : DomainSpy) : DomainSpy :=
  {| sy_publishedEvents := sy_publishedEvents s; sy_dispatchedCommands := (sy_dispatchedCommands s ++ [c])%list;
     sy_unhandledCommands := sy_unhandledCommands s; sy_commandErrors := sy_commandErrors s |}.
Definition unhandled (c : command) (s : DomainSpy) : DomainSpy :=
  {| sy_publishedEvents := sy_publishedEvents s; sy_dispatchedCommands := sy_dispatchedCommands s;
     sy_unhandledCommands := (sy_unhandledCommands s ++ [c])%list; sy_commandErrors := sy_commandErrors s |}.
Definition failed (c : command) (e : js_error) (s : DomainSpy) : DomainSpy :=
  {| sy_publishedEvents := sy_publishedEvents s; sy_dispatchedCommands := sy_dispatchedCommands s;
     sy_unhandledCommands := sy_unhandledCommands s; sy_commandErrors := (sy_commandErrors s ++ [(c, e)])%list |}.

(** [isMissingHandlerError] *)
Definition isMissingHandlerError (error : js_error) (commandName : string) : bool :=
  match error with
  | ThrownValue _ => false
  | _ => String.eqb (error_message error) ("No handler registered for command: " ++ commandName)
  end.

Lemma existsb_keys {V} (k : string) (m : jsmap V) : existsb (String.eqb k) (mkeys m) = mhas k m.
Proof.
  unfold mhas, mkeys. induction m as [| [k' v] m IH]; [done |]. cbn [existsb map fst mget]. rewrite IH. by destruct (String.eqb k k').
Qed.

Section harness.
Context {W Tx : Type} (host : lens W Host) (gate : lens W Gate) (bus : lens W EventBus.bus) (spy : lens W DomainSpy)
  (in_memory : PersistenceConfiguration W)        (** [new InMemoryEventSourcedAggregatePersistence()] *)
  (in_memory_sagas : SagaPersistence W)           (** [new InMemorySagaPersistence()] *)
  (injectTraceContext : option (M W TraceContext))
  (log_failure : nat -> event -> js_error -> M (Exec W Tx) unit)
  (saga_component : SagaPersistence W -> component W) (outbox_component : OutboxStore W -> component W)
  (idempotency_component : IdempotencyStore W -> component W).

Definition note (f : DomainSpy -> DomainSpy) : M (Exec W Tx) unit := world_op (zoom spy (modify f)).

(** [recordDispatch]; [nothing] is what [undefined as T] stands for. *)
Definition recordDispatch {A} (nothing : A) (c : command) (dispatch : M (Exec W Tx) A) : M (Exec W Tx) A :=
  note (dispatched c) ;;;
  try_catch dispatch (fun error =>
    if isMissingHandlerError error (cmd_name c) then note (unhandled c) ;;; ret nothing
    else note (failed c error) ;;; throw error).

(** The buses, with the replaced [dispatch] methods. *)
Definition spied_buses : CQRSInfrastructure W Tx :=
  {| cb_commandBus := {| cp_connect := None; cp_close := None |};
     cb_eventBus := {| cp_connect := None; cp_close := Some (zoom bus EventBus.close) |};
     cb_queryBus := {| cp_connect := None; cp_close := None |};
     cb_dispatch_command := Some (fun originalCommandDispatch c => recordDispatch tt c (originalCommandDispatch c));
     cb_dispatch_event := Some (fun originalEventDispatch e => note (published e) ;;; originalEventDispatch e) |}.

(** [TestDomainConfig]; the handlers receive the infrastructure. *)
Record TestDomainConfig : Type := {
  tc_aggregates : option (jsmap (Aggregate W));
  tc_projections : option (jsmap (ProjectionDefinition W Tx));
  tc_projectionViewStores : option (jsmap (ViewStoreFactory W Tx));
  tc_sagas : option (jsmap (Saga W));
  tc_standaloneQueryHandlers : option (jsmap (option (value -> M (Exec W Tx) value)));
  tc_infrastructure : list (component W)
}.

Definition test_definition (config : Infrastructure W Tx -> TestDomainConfig) (infra : Infrastructure W Tx) : DomainDefinition W Tx :=
  let c := config infra in
  {| df_aggregates := or_default (tc_aggregates c) []; df_standaloneCommandHandlers := None;
     df_projections := or_default (tc_projections c) []; df_standaloneQueryHandlers := tc_standaloneQueryHandlers c;
     df_sagas := tc_sagas c; df_standaloneEventHandlers := None |}.

Definition test_wiring (c : TestDomainConfig) : DomainWiring W Tx :=
  {| dw_persistenceAdapter := None; dw_infrastructure := Some (ret (tc_infrastructure c));
     dw_aggregates := Some {| ao_keys := ["persistence"];
       ao_global := {| aw_persistence := Some (PersistenceFactory (ret in_memory)); aw_concurrency := None; aw_snapshots := None |};
       ao_perAggregate := [] |};
     dw_projections := or_default (tc_projectionViewStores c) [];
     dw_sagas := option_map (fun _ => ret in_memory_sagas) (tc_sagas c);
     dw_buses := Some (fun _ => ret spied_buses);
     dw_unitOfWork := None; dw_idempotency := None; dw_outbox := None; dw_relayBatchSize := None; dw_metadataProvider := None |}.

(** [aggregateCommandNames] *)
Definition aggregateCommandNames (c : TestDomainConfig) : list string :=
  flat_map (fun '(_, aggregate) => mkeys (ag_decide aggregate)) (or_default (tc_aggregates c) []).

Context (config : Infrastructure W Tx -> TestDomainConfig).

(** The configuration as the harness reads it: what handlers capture does not matter there. *)
Definition the_config : TestDomainConfig := config no_infrastructure.

Definition testDomain (depth : nat) : M W (RunningDomain (W := W) (Tx := Tx)) :=
  init host bus in_memory in_memory_sagas injectTraceContext log_failure saga_component outbox_component idempotency_component
    (test_wiring the_config) (test_definition config) [] depth.

(** The replaced [domain.dispatchCommand]. *)
Definition test_dispatchCommand (rd : RunningDomain (W := W) (Tx := Tx)) (depth : nat) (c : command) : M (Exec W Tx) (option ID) :=
  let originalDispatchCommand := domain_dispatchCommand host gate bus injectTraceContext log_failure (test_wiring the_config) (test_definition config) rd depth in
  if existsb (String.eqb (cmd_name c)) (aggregateCommandNames the_config)
  then recordDispatch None c (originalDispatchCommand c)
  else originalDispatchCommand c.

(** What the configuration resolves to: what [{}] does, over the spied buses. *)
Definition test_resolved (rp : ResolvedProjections W Tx) : Resolved W Tx :=
  {| rs_customInfra := tc_infrastructure the_config; rs_cqrsInfra := spied_buses;
     rs_persistenceResolver := GlobalAggregatePersistenceResolver in_memory; rs_snapshotResolver := None;
     rs_sagaPersistence := if (0 <? length (or_default (tc_sagas the_config) []))%nat then Some in_memory_sagas else None;
     rs_run_commit := run_in_memory; rs_concurrencyStrategy := OptimisticConcurrencyStrategy 0;
     rs_idempotencyStore := None; rs_projections := rp; rs_outboxStore := None |}.

Lemma resolve_test (w : W) :
  resolve bus in_memory in_memory_sagas (test_wiring the_config) (test_definition config no_infrastructure) w
  = match resolve_projections (or_default (tc_projectionViewStores the_config) []) (or_default (tc_projections the_config) []) with
    | Ok rp => (Ok (test_resolved rp), w)
    | Err e => (Err e, w)
    end.
Proof.
  unfold resolve, test_resolved, test_definition, test_wiring. fold the_config. cbn [df_sagas df_projections df_aggregates dw_sagas dw_projections].
  destruct (tc_sagas the_config) as [[| x sagas] |];
    cbn -[resolve_projections]; unfold bind, ret, lift_result, resolve_global, resolve_saga_persistence;
    cbn -[resolve_projections]; by destruct (resolve_projections _ _).
Qed.

(** The wrapper of [dispatchCommand] takes the commands that the engine routes to an aggregate. *)
Lemma aggregate_commands name :
  existsb (String.eqb name) (aggregateCommandNames the_config) = is_some (find_aggregate name (or_default (tc_aggregates the_config) [])).
Proof.
  unfold aggregateCommandNames. induction (or_default (tc_aggregates the_config) []) as [| [n ag] l IH]; [done |].
  cbn [flat_map find_aggregate]. rewrite existsb_app, IH, existsb_keys. by destruct (mhas name (ag_decide ag)).
Qed.
End harness.

(** ** What the spy reports *)

(** Between two moments: events and commands have been added, and each added command is reported
    as unhandled or as failed at most once. *)
Definition accounts (a b : DomainSpy) : Prop := exists cs us fs,
  (exists es, sy_publishedEvents b = sy_publishedEvents a ++ es)%list /\
  sy_dispatchedCommands b = (sy_dispatchedCommands a ++ cs)%list /\ sy_unhandledCommands b = (sy_unhandledCommands a ++ us)%list /\
  sy_commandErrors b = (sy_commandErrors a ++ fs)%list /\ (us ++ map fst fs)%list ⊆+ cs.

#[export] Instance accounts_preorder : PreOrder accounts.
Proof.
  split.
  - intros a. exists [], [], []. rewrite !app_nil_r. split; [by exists []; rewrite app_nil_r | by repeat split].
  - intros a b c (cs & us & fs & [es He] & Hc & Hu & Hf & Hs) (cs' & us' & fs' & [es' He'] & Hc' & Hu' & Hf' & Hs').
    exists (cs ++ cs')%list, (us ++ us')%list, (fs ++ fs')%list. rewrite He', Hc', Hu', Hf', He, Hc, Hu, Hf, <- !app_assoc.
    split; [by eexists |]. do 3 (split; [done |]). rewrite map_app.
    transitivity ((us ++ map fst fs) ++ (us' ++ map fst fs'))%list; [| by apply submseteq_app].
    apply Permutation_submseteq. solve_Permutation.
Qed.

(** A dispatch that is recorded accounts for itself and for what happened inside. *)
Theorem record_dispatch_accounts {W Tx A} (spy : lens W DomainSpy) `{!LensLaws spy} (nothing : A) (c : command)
    (dispatch : M (Exec W Tx) A) (s : Exec W Tx) :
  let look (s : Exec W Tx) := lget spy (ex_world s) in
  (forall s, accounts (look s) (look (snd (dispatch s)))) ->
  let '(r, s') := recordDispatch spy nothing c dispatch s in
  let s0 := snd (note (Tx := Tx) spy (dispatched c) s) in
  accounts (look s) (look s') /\
  match fst (dispatch s0) with
  | Ok a => r = Ok a
  | Err e => r = if isMissingHandlerError e (cmd_name c) then Ok nothing else Err e
  end.
Proof.
  intros look Hd. assert (Hnote : forall f (s : Exec W Tx), exists s1, note spy f s = (Ok tt, s1) /\ look s1 = f (look s)).
  { intros f s1. unfold note, world_op, zoom, modify. eexists. split; [reflexivity |]. unfold look. cbn. by rewrite lget_lset. }
  unfold recordDispatch. destruct (Hnote (dispatched c) s) as (s0 & E0 & L0). rewrite (bind_ok _ _ _ _ _ E0), E0. cbn [snd]. unfold try_catch.
  pose proof (Hd s0) as (cs & us & fs & [es Hes] & Hcs & Hus & Hfs & Hsub).
  destruct (dispatch s0) as [[a | e] s1]; cbn [fst snd] in *; rewrite L0 in *.
  - split; [| done]. exists (c :: cs), us, fs. split; [by exists es |]. cbn in Hcs. rewrite <- app_assoc in Hcs.
    do 3 (split; [done |]). by apply submseteq_cons.
  - destruct (isMissingHandlerError e (cmd_name c)).
    + destruct (Hnote (unhandled c) s1) as (s2 & E2 & L2). rewrite (bind_ok _ _ _ _ _ E2). split; [| done]. fold look. cbn [ret]. rewrite L2.
      exists (c :: cs), (us ++ [c])%list, fs. cbn in *. rewrite <- app_assoc in Hcs. split; [by exists es |]. rewrite Hus, app_assoc.
      do 3 (split; [done |]). rewrite <- app_assoc. cbn. rewrite <- Permutation_middle. by apply submseteq_skip.
    + destruct (Hnote (failed c e) s1) as (s2 & E2 & L2). rewrite (bind_ok _ _ _ _ _ E2). split; [| done]. cbn [throw]. rewrite L2.
      exists (c :: cs), us, (fs ++ [(c, e)])%list. cbn in *. rewrite <- app_assoc in Hcs. split; [by exists es |]. rewrite Hfs, app_assoc.
      do 3 (split; [done |]). rewrite map_app, app_assoc. cbn. rewrite Permutation_app_comm. by apply submseteq_skip.
Qed.
