(* ===== verification/TypedDomain.v ===== *)
(** Domains written against the framework ([samples]): their states and payloads have
    declared types, which the engine carries as values.  [Typed A] says how a value of the
    type [A] looks at run time; [decider] and [evolver] are handlers of declared types as the
    framework sees them.  The type checker admits no other payloads and states; the model
    throws on them.

    [TypedAggregate] is what an aggregate of the samples promises to the engine, and
    [engine_keeps_story] what the engine gives back: a property of the histories of an
    aggregate that its decisions keep is a property of every stored history. *)
From S2P Require Import Prelude Text Json Wire JsMap CoreTypes Upcaster Host Stores Idempotency UnitOfWork Concurrency Metadata World CommandExecutor Frames CommandCorrect Projection Harness.
Local Open Scope string_scope.

(** ** Values of declared types *)

Class Typed (A : Type) : Type := {
  to_value : A -> value;
  of_value : value -> option A;
  of_to_value : forall a, of_value (to_value a) = Some a
}.

(** The types whose values are never [null]. *)
Class NonNull (A : Type) `{Typed A} : Prop := to_value_nonnull : forall a, to_value a <> VNull.

#[export] Instance string_typed : Typed string :=
  {| to_value := VStr; of_value := read_text; of_to_value _ := eq_refl |}.
#[export] Instance number_typed : Typed Z :=
  {| to_value := VNum; of_value := read_int; of_to_value _ := eq_refl |}.
#[export] Instance bool_typed : Typed bool :=
  {| to_value := VBool; of_value := fun v => match v with VBool b => Some b | _ => None end; of_to_value _ := eq_refl |}.
#[export] Instance any_typed : Typed value | 100 :=
  {| to_value := fun v => v; of_value := Some; of_to_value _ := eq_refl |}.
#[export] Instance id_typed : Typed ID :=
  {| to_value := id_value; of_value := id_of_value; of_to_value i := proj1 (read_id i) |}.

(** [void], the payload of a command without one. *)
#[export] Instance void_typed : Typed unit.
Proof. refine {| to_value := fun _ => VUndefined; of_value := fun _ => Some tt |}. by intros []. Defined.

#[export] Instance string_nonnull : NonNull string. Proof. done. Qed.
#[export] Instance number_nonnull : NonNull Z. Proof. done. Qed.
#[export] Instance id_nonnull : NonNull ID. Proof. by intros []. Qed.

(** [A | null] *)
#[export] Instance nullable_typed {A} `{NonNull A} : Typed (option A).
Proof.
  refine {| to_value := fun o => match o with Some a => to_value a | None => VNull end;
            of_value := fun v => match v with VNull => Some None | _ => option_map Some (of_value v) end |}.
  intros [a |]; [| done]. pose proof (to_value_nonnull a). pose proof (of_to_value a) as E.
  destruct (to_value a); first [by rewrite E | done].
Defined.

(** [A[]] *)
Fixpoint of_values {A} `{Typed A} (vs : list value) : option (list A) :=
  match vs with
  | [] => Some []
  | v :: vs' => a ← of_value v; l ← of_values vs'; Some (a :: l)
  end.

#[export] Instance list_typed {A} `{Typed A} : Typed (list A).
Proof.
  refine {| to_value := fun l => VArr (map to_value l);
            of_value := fun v => match v with VArr vs => of_values vs | _ => None end |}.
  intros l. induction l as [| a l IH]; [done |]. cbn in *. by rewrite of_to_value, IH.
Defined.

(** The property [k] of an object, at its declared type. *)
Definition prop {A} `{Typed A} (k : string) (v : value) : option A := of_value (read_prop k v).

Lemma prop_read {A} `{Typed A} k v (a : A) : read_prop k v = to_value a -> prop k v = Some a.
Proof. unfold prop. intros ->. apply of_to_value. Qed.

(** Proves that a record is read back from the literal that it is written as. *)
Ltac read_record :=
  intros []; rewrite ?(prop_read _ _ _ eq_refl); cbn [mbind option_bind]; 
  repeat (erewrite prop_read by reflexivity; cbn [mbind option_bind]); reflexivity.

(** ** Handlers of declared types *)

Definition ill_typed : js_error := TypeError "a value of another type".

Definition decider {W P St E} `{Typed P} `{Typed St} (to_event : E -> event) (d : ID -> P -> St -> M W E)
  : command -> value -> M W decision :=
  fun c state =>
    match of_value (cmd_payload c), of_value state with
    | Some p, Some s => e <- d (target c) p s ;; ret (OneEvent (to_event e))
    | _, _ => throw ill_typed
    end.

Definition evolver {P St} `{Typed P} `{Typed St} (f : P -> St -> St) : evolve_handler :=
  fun payload state =>
    match of_value payload, of_value state with
    | Some p, Some s => Ok (to_value (f p s))
    | _, _ => Err ill_typed
    end.

(** A reducer of a projection; it receives the event. *)
Definition reducer {W P V} `{Typed P} `{Typed V} (f : P -> V -> V) : event -> value -> M W value :=
  fun e view => lift_result (evolver f (ev_payload e) view).

(** [{ name, payload }] *)
Definition literal_event {P} `{Typed P} (name : string) (payload : P) : event :=
  {| ev_name := name; ev_payload := to_value payload; ev_metadata := None |}.

Lemma decider_inv {W P St E} `{Typed P} `{Typed St} (to_event : E -> event) (d : ID -> P -> St -> M W E) c s w dec w' :
  decider to_event d c (to_value s) w = (Ok dec, w') ->
  exists p e, of_value (cmd_payload c) = Some p /\ d (target c) p s w = (Ok e, w') /\ dec = OneEvent (to_event e).
Proof.
  unfold decider. rewrite of_to_value. destruct (of_value (cmd_payload c)) as [p |]; [| done].
  intros (e & w1 & H1 & H2)%bind_inv_ok. injection H2 as <- <-. by exists p, e.
Qed.

Lemma decider_run {W P St E} `{Typed P} `{Typed St} (to_event : E -> event) (d : ID -> P -> St -> M W E) c p s w :
  of_value (cmd_payload c) = Some p ->
  decider to_event d c (to_value s) w
  = match d (target c) p s w with (Ok e, w') => (Ok (OneEvent (to_event e)), w') | (Err e, w') => (Err e, w') end.
Proof. intros Hp. unfold decider. rewrite Hp, of_to_value. unfold bind. by destruct (d _ p s w) as [[e | e] w']. Qed.

Lemma evolver_run {P St} `{Typed P} `{Typed St} (f : P -> St -> St) p s :
  evolver f (to_value p) (to_value s) = Ok (to_value (f p s)).
Proof. unfold evolver. by rewrite !of_to_value. Qed.

Lemma evolve_typed {P St} `{Typed P} `{Typed St} (evolve : jsmap evolve_handler) name (f : P -> St -> St) p s :
  mget name evolve = Some (evolver f) -> evolve_step evolve (to_value s) (literal_event name p) = Ok (to_value (f p s)).
Proof. unfold evolve_step. cbn [ev_name ev_payload literal_event]. intros ->. apply evolver_run. Qed.

Lemma decider_quiet {W P St E} `{Typed P} `{Typed St} (stream : W -> string -> list event) (snap : W -> string -> option Snapshot)
    (to_event : E -> event) (d : ID -> P -> St -> M W E) c v :
  (forall i p s, quiet stream snap (d i p s)) -> quiet stream snap (decider to_event d c v).
Proof.
  intros Hd w r w'. unfold decider. destruct (of_value (cmd_payload c)) as [p |]; [| by intros [= _ <-]].
  destruct (of_value v) as [s |]; [| by intros [= _ <-]]. unfold bind.
  destruct (d (target c) p s w) as [[e | e] w1] eqn:E1; intros [= _ <-]; by eapply Hd.
Qed.

(** The evolve step of an event, whose handler is found by its name. *)
Ltac typed_evolve := etransitivity; [eapply evolve_typed; reflexivity | reflexivity].

(** [clock.now().toISOString()] *)
Definition iso_now {W} (clock_now : M W Z) : M W string := now <- clock_now ;; lift_result (toISOString now).

(** Steps through a decider: its guards, then the reading of the clock. *)
Ltac decided_by :=
  repeat match goal with
  | H : context [decide ?P] |- _ => destruct (decide P); try discriminate H
  | H : bind _ _ _ = (Ok _, _) |- _ => apply bind_inv_ok in H as (? & ? & _ & H)
  | H : ret _ _ = (Ok _, _) |- _ => injection H as <- _
  | H : ~ (_ <> _) |- _ => apply dec_stable in H
  end.

Lemma iso_now_quiet {W} (stream : W -> string -> list event) snap (clock_now : M W Z) :
  quiet stream snap clock_now -> quiet stream snap (iso_now clock_now).
Proof.
  intros Hc w r w'. unfold iso_now, bind. destruct (clock_now w) as [[now | e] w1] eqn:E; intros [= _ <-]; by eapply Hc.
Qed.

Lemma quiet_bind {W A B} (stream : W -> string -> list event) snap (m : M W A) (k : A -> M W B) :
  quiet stream snap m -> (forall a, quiet stream snap (k a)) -> quiet stream snap (bind m k).
Proof.
  intros Hm Hk w r w'. unfold bind. destruct (m w) as [[a | e] w1] eqn:E.
  - intros H. etrans; [by eapply Hm | by eapply Hk].
  - intros [= _ <-]. by eapply Hm.
Qed.

Lemma quiet_ret {W A} (stream : W -> string -> list event) snap (a : A) : quiet stream snap (ret a).
Proof. by intros w r w' [= _ <-]. Qed.
Lemma quiet_throw {W A} (stream : W -> string -> list event) snap e : quiet stream snap (throw (A := A) e).
Proof. by intros w r w' [= _ <-]. Qed.

Create HintDb quiet.
#[export] Hint Resolve quiet_ret quiet_throw iso_now_quiet : quiet.

(** Proves that a decider made of guards, readings of the clock and one event is quiet. *)
Ltac quiet_decider :=
  repeat match goal with
  | |- quiet _ _ (match ?x with _ => _ end) => destruct x
  | |- quiet _ _ (bind _ _) => apply quiet_bind; [| intros ?]
  end; auto with quiet.

(** ** Aggregates of declared types *)

(** [e] is the event [x] of the model, whatever its metadata. *)
Definition carries {Ev} (to_event : Ev -> event) (e : event) (x : Ev) : Prop :=
  ev_name e = ev_name (to_event x) /\ ev_payload e = ev_payload (to_event x).

Class TypedAggregate {W St Ev : Type} `{Typed St} (aggregate : Aggregate W) (initial : St)
    (evolve : Ev -> St -> St) (to_event : Ev -> event) (decides : command -> St -> Ev -> Prop) : Prop := {
  ta_initial : ag_initialState aggregate = to_value initial;
  ta_evolve : forall e s, evolve_step (ag_evolve aggregate) (to_value s) (to_event e) = Ok (to_value (evolve e s));
  ta_decide : forall handler c s w dec w', mget (cmd_name c) (ag_decide aggregate) = Some handler ->
    handler c (to_value s) w = (Ok dec, w') -> exists e, dec = OneEvent (to_event e) /\ decides c s e
}.

Section story.
Context {W St Ev : Type} `{Typed St} (aggregate : Aggregate W) (initial : St) (evolve : Ev -> St -> St)
  (to_event : Ev -> event) (decides : command -> St -> Ev -> Prop)
  `{!TypedAggregate aggregate initial evolve to_event decides}.

(** The state after the events [h]. *)
Definition state_after (h : list Ev) : St := foldl (fun s e => evolve e s) initial h.

Lemma state_after_snoc h e : state_after (h ++ [e]) = evolve e (state_after h).
Proof. unfold state_after. by rewrite foldl_app. Qed.

(** What holds at every event of a history, of the events before it. *)
Definition every_step (Q : list Ev -> Ev -> Prop) (h : list Ev) : Prop :=
  forall h1 e h2, h = (h1 ++ e :: h2)%list -> Q h1 e.

Lemma every_step_nil Q : every_step Q [].
Proof. by intros []. Qed.

Lemma every_step_snoc Q h e : every_step Q h -> Q h e -> every_step Q (h ++ [e]).
Proof.
  intros Hh He h1 e' h2 E. destruct h2 as [| x h2 _] using rev_ind.
  - apply app_inj_tail in E as [-> ->]. done.
  - rewrite app_comm_cons, app_assoc in E. apply app_inj_tail in E as [-> _]. by apply (Hh h1 e' h2).
Qed.

Lemma every_step_inv Q h e : every_step Q (h ++ [e]) -> every_step Q h /\ Q h e.
Proof.
  intros Hh. split; [| by apply (Hh h e [])]. intros h1 x h2 ->. apply (Hh h1 x (h2 ++ [e])%list). by rewrite <- app_assoc.
Qed.

(** The stored history [stored] is, event by event, the history [h]; no upcaster changes it. *)
Definition tells (stored : list event) (h : list Ev) : Prop :=
  upcast_if (ag_upcasters aggregate) stored = Ok stored /\ Forall2 (carries to_event) stored h.

Lemma carries_shape stored h : Forall2 (carries to_event) stored h ->
  map ev_name stored = map ev_name (map to_event h) /\ map ev_payload stored = map ev_payload (map to_event h).
Proof. induction 1 as [| e x stored h [Hn Hp] _ [IHn IHp]]; [done |]. cbn. by rewrite Hn, Hp, IHn, IHp. Qed.

Lemma evolve_all h : forall s,
  fold_result (evolve_step (ag_evolve aggregate)) (map to_event h) (to_value s)
  = Ok (to_value (foldl (fun s e => evolve e s) s h)).
Proof. induction h as [| e h IH]; intros s; [done |]. cbn [map fold_result foldl]. rewrite ta_evolve. apply IH. Qed.

Lemma tells_replay stored h :
  tells stored h -> replay aggregate stored (ag_initialState aggregate) = Ok (to_value (state_after h)).
Proof.
  intros (Hu & [Hn Hp]%carries_shape). unfold replay. rewrite Hu. cbn [result_bind].
  rewrite (evolve_shape _ _ _ _ Hn Hp), ta_initial. apply evolve_all.
Qed.

Lemma tells_nil : tells [] [].
Proof. split; [by destruct (ag_upcasters aggregate) | constructor]. Qed.

(** Events that the engine has stamped with the current versions extend a story. *)
Lemma tells_enriched stored h i name corr caus user n e events :
  tells stored h ->
  enriched name i corr caus user (option_map (fun ups name => currentEventVersion name ups) (ag_upcasters aggregate)) n
    [to_event e] events ->
  tells (stored ++ events) (h ++ [e]).
Proof.
  intros [Hu Hc] Hen. split.
  - rewrite upcast_if_app, Hu. cbn [result_bind].
    by rewrite upcast_if_stamped by (eapply enriched_stamped; exact Hen).
  - destruct (enriched_shape _ _ _ _ _ _ _ _ _ Hen) as (En & Ep & _).
    destruct events as [| x [|]]; [discriminate En | | discriminate En]. injection En as En. injection Ep as Ep.
    apply Forall2_app; [exact Hc |]. by repeat constructor.
Qed.
End story.

(** Instances with one composite key have one text. *)
Lemma composite_key_id name i j : composite_key name i = composite_key name j -> string_of_ID i = string_of_ID j.
Proof.
  unfold composite_key. intros H.
  assert (Hs : forall s t u : string, String.append s t = String.append s u -> t = u).
  { induction s as [| c s IH]; intros t u E; [done |]. injection E as E. by apply IH. }
  apply Hs in H. by injection H.
Qed.

(** ** What the engine keeps *)

Section engine.
Context {W Tx St Ev : Type} `{Typed St} (host : lens W Host) `{!LensLaws host}
  (P : EventSourcedPersistence W) (SN : SnapshotStore W)
  (stream : W -> string -> list event) (snap : W -> string -> option Snapshot) `{!StoresFrame host P SN stream snap}
  (provider : option MetadataContext) (strategy : SnapshotStrategy) (maxRetries : nat)
  (dispatch : event -> M (Exec W Tx) unit)
  (name : string) (aggregate : Aggregate W) (initial : St) (evolve : Ev -> St -> St) (to_event : Ev -> event)
  (decides : command -> St -> Ev -> Prop) `{!TypedAggregate aggregate initial evolve to_event decides}.

(** The command executor of the engine for this aggregate, without an outbox and claims. *)
Definition engine_execute (c : command) : M (Exec W Tx) unit :=
  execute host (GlobalAggregatePersistenceResolver (EventSourced P)) dispatch run_in_memory
    (OptimisticConcurrencyStrategy (Z.of_nat maxRetries)) (the_enricher host provider)
    (with_snapshots SN strategy) None None None name aggregate c.

(** Commands one after the other; a command that fails does not stop the next one. *)
Definition engine_run (cs : list command) : M (Exec W Tx) unit := for_each cs (fun c => swallow (engine_execute c)).

(** The stored history of every instance is a story that satisfies [J]. *)
Definition stories (J : ID -> list Ev -> Prop) (w : W) : Prop :=
  forall i, exists h, tells aggregate to_event (stream w (composite_key name i)) h /\ J i h.

(** The commands [C] keep [J], whose instances are those of the composite key. *)
Record keeps_story (C : command -> Prop) (J : ID -> list Ev -> Prop) : Prop := {
  kp_decide : forall c h e, C c -> J (target c) h -> decides c (state_after initial evolve h) e -> J (target c) (h ++ [e])%list;
  kp_same : forall i j h, composite_key name i = composite_key name j -> J i h -> J j h
}.

Record quiet_domain : Prop := {
  qd_aggregate : quiet_collaborators (Tx := Tx) stream snap None None aggregate;
  qd_dispatch : forall e s r s', dispatch e s = (r, s') ->
    ex_uow s' = ex_uow s /\ same_obs stream snap (ex_world s) (ex_world s')
}.

Definition ready (J : ID -> list Ev -> Prop) (s : Exec W Tx) : Prop :=
  ex_uow s = None /\ snapshots_consistent stream snap name aggregate (ex_world s) /\ stories J (ex_world s).

Lemma stories_same J w w' : same_obs stream snap w w' -> stories J w -> stories J w'.
Proof. intros Ho HJ i. destruct (HJ i) as (h & Ht & Hh). exists h. by rewrite (proj1 (Ho _)). Qed.

Lemma ready_same J s s' : ex_uow s' = ex_uow s -> same_obs stream snap (ex_world s) (ex_world s') -> ready J s -> ready J s'.
Proof.
  intros Hu Ho (Hn & Hc & HJ). split; [congruence |]. split; [| by eapply stories_same].
  eapply grown_consistent; [by apply same_grown | done].
Qed.

Lemma attempt_keeps_story C J c w0 events pending w1 :
  keeps_story C J -> C c -> attempt_done (Tx := Tx) host stream snap None None name aggregate c w0 events pending w1 ->
  stories J w0 -> stories J w1.
Proof.
  intros HK Hc [Hst (state & newEvents & newState & corr & caus & user & Hrep & Hdec & _ & Hen & _)] HJ i.
  destruct (Hst (composite_key name i)) as [-> _].
  destruct (String.eqb_spec (composite_key name i) (composite_key name (target c))) as [E | _]; [| apply HJ].
  destruct (HJ (target c)) as (h & Ht & Hh). destruct Hdec as (handler & raw & w & w' & Hm & Hr & ->).
  rewrite (tells_replay aggregate initial evolve to_event decides _ _ Ht) in Hrep. injection Hrep as <-.
  destruct (ta_decide handler c _ w raw w' Hm Hr) as (e & -> & Hd).
  exists (h ++ [e])%list. split.
  - by eapply tells_enriched.
  - eapply (kp_same _ _ HK); [symmetry; exact E |]. by eapply kp_decide.
Qed.

Lemma commit_keeps_uow c s :
  ex_uow (snd (exec_commit (Tx := Tx) host P SN provider strategy None None maxRetries name aggregate c s)) = ex_uow s.
Proof.
  pose proof (exec_commit_frame (Tx := Tx) host P SN provider strategy None None maxRetries name aggregate
    (fun _ => tt) c eq_refl eq_refl ltac:(by split) ltac:(done) s) as Hk.
  by injection Hk.
Qed.

(** A property that the decisions keep is kept by the engine, whatever a command does: it
    fails, it is retried after conflicts, its events are published. *)
Lemma engine_keeps_story C J c s r s' :
  keeps_story C J -> quiet_domain -> C c -> ready J s -> engine_execute c s = (r, s') -> ready J s'.
Proof.
  intros HK [Hq Hdisp] Hc (Hn & Hsn & HJ) Hr. unfold engine_execute in Hr.
  rewrite (execute_implicit_run host P SN provider strategy None None None dispatch maxRetries name aggregate c s eq_refl Hn) in Hr.
  rewrite exec_implicit_split in Hr.
  pose proof (exec_commit_spec (Tx := Tx) host P SN stream snap provider strategy None None
    maxRetries name aggregate c s Hq Hsn eq_refl eq_refl) as Hs.
  pose proof (commit_keeps_uow c s) as Huow.
  destruct (exec_commit _ _ _ _ _ _ _ _ _ _ c s) as [[events | e] s2] eqn:E.
  - destruct Hs as (s0 & pending & w1 & Ho & Hd & Hst & Hsn2 & _). rewrite (bind_ok _ _ _ _ _ E) in Hr.
    assert (Hready : ready J s2).
    { split; [by etrans |]. split; [done |]. intros i. rewrite Hst. revert i. change (stories J w1).
      eapply attempt_keeps_story; [done | done | exact Hd |]. by eapply stories_same. }
    eapply (publish_keeps dispatch None (ready J)); [| done | exact Hready | exact Hr].
    intros e1 s3 r1 s4 Hd1 H3. destruct (Hdisp _ _ _ _ Hd1). by eapply ready_same.
  - rewrite (bind_err _ _ _ _ _ E) in Hr. injection Hr as _ <-. destruct Hs as [Ho _].
    eapply ready_same; [| exact Ho | done]. exact Huow.
Qed.

Lemma engine_run_keeps C J cs : keeps_story C J -> quiet_domain -> Forall C cs ->
  forall s, ready J s -> ready J (snd (engine_run cs s)).
Proof.
  intros HK Hq Hcs. induction Hcs as [| c cs Hc _ IH]; intros s Hs; [done |]. unfold engine_run. cbn [for_each].
  rewrite (bind_ok _ _ s tt (snd (engine_execute c s))) by apply swallow_run.
  apply IH. eapply engine_keeps_story; [done | done | exact Hc | exact Hs | apply surjective_pairing].
Qed.

(** Before the first command. *)
Lemma ready_start (J : ID -> list Ev -> Prop) s :
  ex_uow s = None -> (forall k, stream (ex_world s) k = [] /\ snap (ex_world s) k = None) -> (forall i, J i []) -> ready J s.
Proof.
  intros Hn He HJ. split; [done |]. split.
  - intros i sn. by rewrite (proj2 (He _)).
  - intros i. exists []. rewrite (proj1 (He _)). split; [apply tells_nil | apply HJ].
Qed.

(** What is stored of an instance, and what it is loaded as. *)
Lemma stories_load J w i : stories J w ->
  exists h, J i h /\ Forall2 (carries to_event) (stream w (composite_key name i)) h /\
    replay aggregate (stream w (composite_key name i)) (ag_initialState aggregate) = Ok (to_value (state_after initial evolve h)).
Proof.
  intros HJ. destruct (HJ i) as (h & Ht & Hh). exists h. split; [done |]. split; [apply Ht | by eapply tells_replay].
Qed.

(** The three together. *)
Lemma engine_run_stories C J cs s :
  keeps_story C J -> quiet_domain -> Forall C cs -> (forall i, J i []) ->
  ex_uow s = None -> (forall k, stream (ex_world s) k = [] /\ snap (ex_world s) k = None) ->
  forall i, exists h, J i h /\
    Forall2 (carries to_event) (stream (ex_world (snd (engine_run cs s))) (composite_key name i)) h /\
    replay aggregate (stream (ex_world (snd (engine_run cs s))) (composite_key name i)) (ag_initialState aggregate)
    = Ok (to_value (state_after initial evolve h)).
Proof.
  intros HK Hq Hcs HJ Hn He i. apply stories_load.
  by apply (engine_run_keeps C J cs HK Hq Hcs s (ready_start J s Hn He HJ)).
Qed.
End engine.

(** The in-memory world, whose event bus records. *)
Lemma memory_quiet_domain (aggregate : Aggregate World) :
  (forall n handler, mget n (ag_decide aggregate) = Some handler -> forall c s, quiet world_stream world_snap (handler c s)) ->
  quiet_domain (Tx := unit) world_stream world_snap (fun e => world_op (log_dispatch e)) aggregate.
Proof.
  intros Hq. split.
  - split; [exact Hq | done | done].
  - intros e s r s'. unfold world_op, zoom. cbn. by intros [= _ <-].
Qed.

(** ** Projections of declared types *)

Class TypedProjection {W V Ev : Type} `{Typed V} (p : Projection W) (initial : V) (reduce : Ev -> V -> V)
    (to_event : Ev -> event) : Prop := {
  tp_wf : wf (pr_on p);
  tp_initial : pr_initialView p = to_value initial;
  tp_reduce : forall h e x v s, mget (ev_name e) (pr_on p) = Some h -> carries to_event e x ->
    ph_reduce h e (to_value v) s = (Ok (to_value (reduce x v)), s);
  tp_skip : forall x v, mget (ev_name (to_event x)) (pr_on p) = None -> reduce x v = v;
  tp_view : forall v : V, nullish (to_value v) = false /\ is_DeleteView (to_value v) = false
}.

Section views.
Context {W V Ev : Type} `{Typed V} (views : lens W Views.store) `{!LensLaws views} (p : Projection W) (initial : V)
  (reduce : Ev -> V -> V) (to_event : Ev -> event) `{!TypedProjection p initial reduce to_event}.

(** The events [es] are the events [l] of the model, each with the view that it is about. *)
Definition about (e : event) (ix : ID * Ev) : Prop :=
  carries to_event e (snd ix) /\
  forall h, mget (ev_name e) (pr_on p) = Some h -> exists id, ph_id h = Some id /\ id e = Ok (fst ix).

(** The events about the view [i]. *)
Definition of_view (i : ID) (l : list (ID * Ev)) : list Ev :=
  map snd (List.filter (fun ix => String.eqb (string_of_ID (fst ix)) (string_of_ID i)) l).

Definition view_after (v : V) (h : list Ev) : V := foldl (fun v x => reduce x v) v h.

Lemma deliver_typed e i x v s : about e (i, x) -> current views p i s = to_value v ->
  exists s', deliver_live (zoom_view views Views.persistence) p e s = (Ok tt, s') /\
    current views p i s' = to_value (reduce x v) /\
    (forall j, string_of_ID j <> string_of_ID i -> current views p j s' = current views p j s) /\
    (wf (lget views s) -> wf (lget views s')).
Proof.
  intros [Hc Hid] Hv. cbn [fst snd] in *. unfold deliver_live. rewrite mget_subscriptions by apply tp_wf.
  destruct (mget (ev_name e) (pr_on p)) as [h |] eqn:Eh.
  - destruct (Hid h eq_refl) as (id & -> & Hi). cbn [option_map]. unfold boundHandler. rewrite Hi.
    erewrite (bind_ok (lift_result (Ok i))) by reflexivity. unfold update_view.
    assert (Hl : vs_load (zoom_view views Views.persistence) i s = (Ok (or_default (mget (string_of_ID i) (lget views s)) VUndefined), s))
      by (cbn; unfold zoom; cbn; by rewrite lset_lget).
    unfold current in Hv. do 2 unfold bind at 1. rewrite Hl, Hv. unfold bind at 1. rewrite (tp_reduce h e x v s Eh Hc).
    destruct (tp_view (TypedProjection := TypedProjection0) (reduce x v)) as [Hn Hdel]. rewrite Hdel.
    eexists. split; [reflexivity |]. unfold current. split.
    + rewrite lget_lset, mget_mset_eq. by apply coalesce_present.
    + split; [intros j Hj; by rewrite lget_lset, mget_mset_ne by done |]. rewrite lget_lset. apply wf_mset.
  - rewrite (proj1 Hc) in Eh. exists s. split; [done |]. split; [| done]. by rewrite (tp_skip x v Eh).
Qed.

(** Live delivery makes each view a fold over the events about it. *)
Lemma live_views es l : Forall2 about es l -> forall s (v : ID -> V),
  (forall i j, string_of_ID i = string_of_ID j -> v i = v j) ->
  (forall i, current views p i s = to_value (v i)) ->
  exists s', live views p es s = (Ok tt, s') /\
    (forall i, current views p i s' = to_value (view_after (v i) (of_view i l))) /\
    (wf (lget views s) -> wf (lget views s')).
Proof.
  induction 1 as [| e [i x] es l Ha _ IH]; intros s v Hext Hv; [by exists s |].
  destruct (deliver_typed e i x (v i) s Ha (Hv i)) as (s1 & H1 & Hi & Hj & Hw).
  destruct (IH s1 (fun j => if String.eqb (string_of_ID i) (string_of_ID j) then reduce x (v j) else v j)) as (s' & H2 & Hs' & Hw').
  - intros j k E. rewrite E. by rewrite (Hext j k E).
  - intros j. destruct (String.eqb_spec (string_of_ID i) (string_of_ID j)) as [E | E].
    + rewrite <- (Hext i j E). unfold current in *. by rewrite <- E.
    + rewrite (Hj j (fun H => E (eq_sym H))). apply Hv.
  - exists s'. split; [unfold live; cbn [for_each]; by rewrite (bind_ok _ _ _ _ _ H1) |].
    split; [| auto]. intros j. rewrite Hs'. unfold of_view. cbn [List.filter fst snd]. by destruct (String.eqb (string_of_ID i) (string_of_ID j)).
Qed.

(** From an empty store. *)
Lemma live_views_fresh es l s : Forall2 about es l -> lget views s = [] ->
  exists s', live views p es s = (Ok tt, s') /\ wf (lget views s') /\
    forall i, current views p i s' = to_value (view_after initial (of_view i l)).
Proof.
  intros Ha Hs. destruct (live_views es l Ha s (fun _ => initial)) as (s' & H1 & H2 & Hw); [done | |].
  - intros i. unfold current. rewrite Hs. apply tp_initial.
  - exists s'. split; [done |]. split; [| done]. apply Hw. rewrite Hs. constructor.
Qed.

(** The view under a key of the store. *)
Lemma view_stored s k v : mget k (lget views s) = Some v -> nullish v = false -> current views p (IdStr k) s = v.
Proof. intros Hg Hn. unfold current. cbn [string_of_ID]. rewrite Hg. by apply coalesce_present. Qed.
End views.
