(* ===== verification/SampleFlashSale.v ===== *)
(** The flash sale ([samples/sample-flash-sale/src/domain]): one aggregate, an item with a
    limited stock.  Its commands, events and state have the declared types; [FlashSaleItem]
    is the aggregate that the engine runs. *)
From S2P Require Import Prelude Text Json Wire JsMap CoreTypes Upcaster Host Stores Idempotency UnitOfWork Concurrency Metadata World CommandExecutor Frames CommandCorrect TypedDomain.
Local Open Scope string_scope.

(** ** The event model *)

Record FlashSaleCreatedPayload : Type := { fc_itemId : ID; fc_initialStock : Z }.
Record ItemPurchasedPayload : Type := { ip_buyerId : string; ip_quantity : Z }.
Record PurchaseRejectedPayload : Type := { pj_buyerId : string; pj_reason : string }.

#[export] Instance FlashSaleCreatedPayload_typed : Typed FlashSaleCreatedPayload.
Proof.
  refine {| to_value := fun p => VObj [("itemId", to_value (fc_itemId p)); ("initialStock", to_value (fc_initialStock p))];
            of_value := fun v => itemId ← prop "itemId" v; initialStock ← prop "initialStock" v;
                                 Some {| fc_itemId := itemId; fc_initialStock := initialStock |} |}.
  read_record.
Defined.

#[export] Instance ItemPurchasedPayload_typed : Typed ItemPurchasedPayload.
Proof.
  refine {| to_value := fun p => VObj [("buyerId", to_value (ip_buyerId p)); ("quantity", to_value (ip_quantity p))];
            of_value := fun v => buyerId ← prop "buyerId" v; quantity ← prop "quantity" v;
                                 Some {| ip_buyerId := buyerId; ip_quantity := quantity |} |}.
  read_record.
Defined.

#[export] Instance PurchaseRejectedPayload_typed : Typed PurchaseRejectedPayload.
Proof.
  refine {| to_value := fun p => VObj [("buyerId", to_value (pj_buyerId p)); ("reason", to_value (pj_reason p))];
            of_value := fun v => buyerId ← prop "buyerId" v; reason ← prop "reason" v;
                                 Some {| pj_buyerId := buyerId; pj_reason := reason |} |}.
  read_record.
Defined.

Inductive FlashSaleEvent : Type :=
| FlashSaleCreated (payload : FlashSaleCreatedPayload)
| ItemPurchased (payload : ItemPurchasedPayload)
| PurchaseRejected (payload : PurchaseRejectedPayload).

Definition flash_sale_event (e : FlashSaleEvent) : event :=
  match e with
  | FlashSaleCreated p => literal_event "FlashSaleCreated" p
  | ItemPurchased p => literal_event "ItemPurchased" p
  | PurchaseRejected p => literal_event "PurchaseRejected" p
  end.

(** ** The commands *)

Record CreateFlashSalePayload : Type := { cf_initialStock : Z }.
Record PurchaseItemPayload : Type := { pi_buyerId : string; pi_quantity : Z }.

#[export] Instance CreateFlashSalePayload_typed : Typed CreateFlashSalePayload.
Proof.
  refine {| to_value := fun p => VObj [("initialStock", to_value (cf_initialStock p))];
            of_value := fun v => initialStock ← prop "initialStock" v; Some {| cf_initialStock := initialStock |} |}.
  read_record.
Defined.

#[export] Instance PurchaseItemPayload_typed : Typed PurchaseItemPayload.
Proof.
  refine {| to_value := fun p => VObj [("buyerId", to_value (pi_buyerId p)); ("quantity", to_value (pi_quantity p))];
            of_value := fun v => buyerId ← prop "buyerId" v; quantity ← prop "quantity" v;
                                 Some {| pi_buyerId := buyerId; pi_quantity := quantity |} |}.
  read_record.
Defined.

(** ** The state *)

Record FlashSaleState : Type := { stock : Z; sold : Z; buyers : list string }.

#[export] Instance FlashSaleState_typed : Typed FlashSaleState.
Proof.
  refine {| to_value := fun s => VObj [("stock", to_value (stock s)); ("sold", to_value (sold s)); ("buyers", to_value (buyers s))];
            of_value := fun v => stock ← prop "stock" v; sold ← prop "sold" v; buyers ← prop "buyers" v;
                                 Some {| stock := stock; sold := sold; buyers := buyers |} |}.
  read_record.
Defined.

Definition initialFlashSaleState : FlashSaleState := {| stock := 0; sold := 0; buyers := [] |}.

(** ** The aggregate *)

Definition evolveFlashSaleCreated (payload : FlashSaleCreatedPayload) (_ : FlashSaleState) : FlashSaleState :=
  {| stock := fc_initialStock payload; sold := 0; buyers := [] |}.

Definition evolveItemPurchased (payload : ItemPurchasedPayload) (state : FlashSaleState) : FlashSaleState :=
  {| stock := stock state - ip_quantity payload; sold := sold state + ip_quantity payload;
     buyers := (buyers state ++ [ip_buyerId payload])%list |}.

Definition evolvePurchaseRejected (_ : PurchaseRejectedPayload) (state : FlashSaleState) : FlashSaleState := state.

Section aggregate.
Context {W : Type}.

Definition decideCreateFlashSale (targetAggregateId : ID) (payload : CreateFlashSalePayload) (_ : FlashSaleState)
  : M W FlashSaleEvent :=
  ret (FlashSaleCreated {| fc_itemId := targetAggregateId; fc_initialStock := cf_initialStock payload |}).

Definition decidePurchaseItem (_ : ID) (payload : PurchaseItemPayload) (state : FlashSaleState) : M W FlashSaleEvent :=
  if (stock state <=? 0)%Z then
    ret (PurchaseRejected {| pj_buyerId := pi_buyerId payload; pj_reason := "out_of_stock" |})
  else
    ret (ItemPurchased {| ip_buyerId := pi_buyerId payload; ip_quantity := pi_quantity payload |}).

Definition FlashSaleItem : Aggregate W :=
  {| ag_initialState := to_value initialFlashSaleState;
     ag_decide := [("CreateFlashSale", decider flash_sale_event decideCreateFlashSale);
                   ("PurchaseItem", decider flash_sale_event decidePurchaseItem)];
     ag_evolve := [("FlashSaleCreated", evolver evolveFlashSaleCreated);
                   ("ItemPurchased", evolver evolveItemPurchased);
                   ("PurchaseRejected", evolver evolvePurchaseRejected)];
     ag_upcasters := None |}.
End aggregate.

(** ** Facts *)

Definition flash_sale_evolve (e : FlashSaleEvent) (s : FlashSaleState) : FlashSaleState :=
  match e with
  | FlashSaleCreated p => evolveFlashSaleCreated p s
  | ItemPurchased p => evolveItemPurchased p s
  | PurchaseRejected p => evolvePurchaseRejected p s
  end.

(** What a command may decide. *)
Definition flash_sale_decides (c : command) (s : FlashSaleState) (e : FlashSaleEvent) : Prop :=
  (cmd_name c = "CreateFlashSale" /\ exists p : CreateFlashSalePayload, of_value (cmd_payload c) = Some p /\
     e = FlashSaleCreated {| fc_itemId := target c; fc_initialStock := cf_initialStock p |}) \/
  (cmd_name c = "PurchaseItem" /\ exists p : PurchaseItemPayload, of_value (cmd_payload c) = Some p /\
     ((stock s <= 0)%Z /\ e = PurchaseRejected {| pj_buyerId := pi_buyerId p; pj_reason := "out_of_stock" |} \/
      (0 < stock s)%Z /\ e = ItemPurchased {| ip_buyerId := pi_buyerId p; ip_quantity := pi_quantity p |})).

#[export] Instance FlashSaleItem_typed {W} :
  TypedAggregate (W := W) FlashSaleItem initialFlashSaleState flash_sale_evolve flash_sale_event flash_sale_decides.
Proof.
  split; [done | |].
  - intros [p | p | p] s; typed_evolve.
  - intros handler c s w dec w'. cbn [FlashSaleItem ag_decide mget].
    destruct (String.eqb_spec (cmd_name c) "CreateFlashSale") as [En | _].
    { intros [= <-] (p & e & Hp & Hd & ->)%decider_inv. injection Hd as <- _. eexists. split; [done |]. left. eauto. }
    destruct (String.eqb_spec (cmd_name c) "PurchaseItem") as [En | _]; [| done].
    intros [= <-] (p & e & Hp & Hd & ->)%decider_inv. exists e. split; [done |]. right. split; [done |]. exists p. split; [done |].
    unfold decidePurchaseItem in Hd. destruct (Z.leb_spec (stock s) 0); injection Hd as <- _; [by left | by right].
Qed.

Lemma FlashSaleItem_quiet {W} (stream : W -> string -> list event) snap n handler :
  mget n (ag_decide FlashSaleItem) = Some handler -> forall c s, quiet stream snap (handler c s).
Proof.
  cbn [FlashSaleItem ag_decide mget]. destruct (String.eqb n "CreateFlashSale"); [| destruct (String.eqb n "PurchaseItem"); [| done]];
    intros [= <-] c s; apply decider_quiet; intros i p s' w r w'.
  - by intros [= _ <-].
  - unfold decidePurchaseItem. by destruct (stock s' <=? 0)%Z; intros [= _ <-].
Qed.

(** The current sale of a history: its initial stock and its purchases. *)
Definition sale_step (sale : Z * list ItemPurchasedPayload) (e : FlashSaleEvent) : Z * list ItemPurchasedPayload :=
  match e with
  | FlashSaleCreated p => (fc_initialStock p, [])
  | ItemPurchased p => (fst sale, (snd sale ++ [p])%list)
  | PurchaseRejected _ => sale
  end.
Definition the_sale (h : list FlashSaleEvent) : Z * list ItemPurchasedPayload := foldl sale_step (0%Z, []) h.

Definition total (ps : list ItemPurchasedPayload) : Z := foldr (fun p n => ip_quantity p + n)%Z 0%Z ps.

Definition summary (sale : Z * list ItemPurchasedPayload) : FlashSaleState :=
  {| stock := fst sale - total (snd sale); sold := total (snd sale); buyers := map ip_buyerId (snd sale) |}.

Lemma total_snoc ps p : total (ps ++ [p]) = (total ps + ip_quantity p)%Z.
Proof. unfold total. induction ps as [| p' ps IH]; cbn; [lia |]. rewrite IH. lia. Qed.

Lemma the_sale_snoc h e : the_sale (h ++ [e]) = sale_step (the_sale h) e.
Proof. unfold the_sale. by rewrite foldl_app. Qed.

(** The state is the summary of the current sale. *)
Lemma state_summary h : state_after initialFlashSaleState flash_sale_evolve h = summary (the_sale h).
Proof.
  induction h as [| e h IH] using rev_ind; [done |]. rewrite state_after_snoc, the_sale_snoc, IH.
  destruct (the_sale h) as [n ps]. destruct e as [p | p | p]; cbn [flash_sale_evolve sale_step fst snd].
  - unfold summary, evolveFlashSaleCreated. cbn. by rewrite Z.sub_0_r.
  - unfold summary, evolveItemPurchased. cbn [fst snd stock sold buyers]. rewrite total_snoc, map_app. f_equal. lia.
  - done.
Qed.

(** Purchases of at most [q] pieces each have sold at most [q - 1] too many. *)
Definition sold_within (q : Z) (_ : ID) (h : list FlashSaleEvent) : Prop :=
  Forall (fun p => 0 < ip_quantity p <= q)%Z (snd (the_sale h)) /\
  (total (snd (the_sale h)) = 0 \/ total (snd (the_sale h)) < fst (the_sale h) + q)%Z.

Definition purchases_within (q : Z) (c : command) : Prop :=
  cmd_name c = "PurchaseItem" -> forall p : PurchaseItemPayload, of_value (cmd_payload c) = Some p -> (0 < pi_quantity p <= q)%Z.

Lemma flash_sale_keeps q name : keeps_story name initialFlashSaleState flash_sale_evolve flash_sale_decides (purchases_within q) (sold_within q).
Proof.
  split; [| done]. intros c h e Hc [Hq Hs] Hd. unfold sold_within. rewrite the_sale_snoc.
  destruct Hd as [(_ & p & _ & ->) | (Hn & p & Hp & Hd)]; [cbn; auto |].
  rewrite state_summary in Hd. destruct (the_sale h) as [n ps]. cbn [fst snd summary stock] in Hq, Hs, Hd. destruct Hd as [[_ ->] | [Hst ->]]; [done |].
  specialize (Hc Hn p Hp). cbn [sale_step fst snd]. rewrite total_snoc. cbn [ip_quantity]. split.
  - apply Forall_app_2; [done | by constructor].
  - lia.
Qed.

(** ** Properties *)

(** The engine on the items of a flash sale, over any event store and any bus whose
    handlers store nothing. *)
Section sale.
Context {W Tx : Type} (host : lens W Host) `{!LensLaws host} (P : EventSourcedPersistence W) (SN : SnapshotStore W)
  (stream : W -> string -> list event) (snap : W -> string -> option Snapshot) `{!StoresFrame host P SN stream snap}
  (provider : option MetadataContext) (strategy : SnapshotStrategy) (maxRetries : nat)
  (dispatch : event -> M (Exec W Tx) unit).

Definition run_sale (cs : list command) : M (Exec W Tx) unit :=
  engine_run host P SN provider strategy maxRetries dispatch "FlashSaleItem" FlashSaleItem cs.

(** A flash sale sells what it has.  Let commands arrive in any order and number, each
    purchase asking for one to [q] pieces; some may fail, be retried, or be loaded through
    snapshots.  Then the state of every item is the summary of its current sale: what was
    put on sale less what was bought, and the buyers in order; and it has sold at most
    [q - 1] pieces more than were put on sale, so none too many when every purchase asks for
    one piece. *)
Theorem flash_sale_bounded q cs s :
  (forall e s r s', dispatch e s = (r, s') -> ex_uow s' = ex_uow s /\ same_obs stream snap (ex_world s) (ex_world s')) ->
  Forall (purchases_within q) cs ->
  ex_uow s = None -> (forall k, stream (ex_world s) k = [] /\ snap (ex_world s) k = None) ->
  forall i, exists h,
    Forall2 (carries flash_sale_event) (stream (ex_world (snd (run_sale cs s))) (composite_key "FlashSaleItem" i)) h /\
    let '(initialStock, purchases) := the_sale h in
    replay (W := W) FlashSaleItem (stream (ex_world (snd (run_sale cs s))) (composite_key "FlashSaleItem" i)) (ag_initialState (W := W) FlashSaleItem)
    = Ok (to_value (summary (initialStock, purchases))) /\
    (total purchases = 0 \/ total purchases < initialStock + q)%Z /\
    Forall (fun p => 0 < ip_quantity p <= q)%Z purchases.
Proof.
  intros Hd Hcs Hn He i.
  destruct (engine_run_stories host P SN stream snap provider strategy maxRetries dispatch "FlashSaleItem" FlashSaleItem
    initialFlashSaleState flash_sale_evolve flash_sale_event flash_sale_decides _ _ cs s (flash_sale_keeps q _))
    with (i := i) as (h & [Hq Hs] & Hc & Hr); [| exact Hcs | by split; [| left] | done | done |].
  - split; [| exact Hd]. split; [| done | done]. intros n handler Hm. by apply (FlashSaleItem_quiet stream snap n).
  - exists h. split; [exact Hc |]. unfold run_sale. rewrite Hr, state_summary. by destruct (the_sale h).
Qed.
End sale.

(** ** An example, and what the guard of [decidePurchaseItem] lets through *)

Definition flash_command {P} `{Typed P} (name : string) (payload : P) : command :=
  {| cmd_name := name; cmd_payload := to_value payload; cmd_commandId := None; cmd_targetAggregateId := Some (IdStr "item-1") |}.

Definition buy (who : string) (n : Z) : command := flash_command "PurchaseItem" {| pi_buyerId := who; pi_quantity := n |}.
Definition on_sale (n : Z) : command := flash_command "CreateFlashSale" {| cf_initialStock := n |}.

Definition memory_sale (cs : list command) : list event :=
  world_stream (ex_world (snd (run_sale host_lens world_events world_snaps None (everyNEvents 2) 3
    (fun e => world_op (log_dispatch e)) cs start_exec))) "FlashSaleItem:item-1".

(** Two pieces, three buyers: the third is rejected. *)
Example sale_of_two : map ev_name (memory_sale [on_sale 2; buy "a" 1; buy "b" 1; buy "c" 1])
  = ["FlashSaleCreated"; "ItemPurchased"; "ItemPurchased"; "PurchaseRejected"].
Proof. by vm_compute. Qed.

(** One piece is left and five are sold: only an exhausted stock is refused. *)
Lemma oversold : replay (W := World) FlashSaleItem (memory_sale [on_sale 1; buy "a" 5]) (ag_initialState (W := World) FlashSaleItem)
  = Ok (to_value {| stock := -4; sold := 5; buyers := ["a"] |}).
Proof. by vm_compute. Qed.

Lemma flash_sale_bounded_witness : exists h,
    Forall2 (carries flash_sale_event) (world_stream (ex_world (snd (run_sale host_lens world_events world_snaps None (everyNEvents 2) 3
      (fun e => world_op (log_dispatch e)) [on_sale 2; buy "a" 1; buy "b" 1; buy "c" 1] start_exec))) (composite_key "FlashSaleItem" (IdStr "item-1"))) h /\
    let '(initialStock, purchases) := the_sale h in
    replay (W := World) FlashSaleItem (world_stream (ex_world (snd (run_sale host_lens world_events world_snaps None (everyNEvents 2) 3
      (fun e => world_op (log_dispatch e)) [on_sale 2; buy "a" 1; buy "b" 1; buy "c" 1] start_exec))) (composite_key "FlashSaleItem" (IdStr "item-1")))
      (ag_initialState (W := World) FlashSaleItem)
    = Ok (to_value (summary (initialStock, purchases))) /\
    (total purchases = 0 \/ total purchases < initialStock + 1)%Z /\ Forall (fun p => 0 < ip_quantity p <= 1)%Z purchases.
Proof.
  apply (flash_sale_bounded host_lens world_events world_snaps world_stream world_snap None (everyNEvents 2) 3
    (fun e => world_op (log_dispatch e)) 1 [on_sale 2; buy "a" 1; buy "b" 1; buy "c" 1] start_exec).
  - intros e s r s'. unfold world_op, zoom. cbn. by intros [= _ <-].
  - unfold purchases_within. repeat (constructor; [intros Hn p Hp; vm_compute in Hn, Hp; first [discriminate Hn | by injection Hp as <-] |]). constructor.
  - reflexivity.
  - by split.
Defined.
