(* ===== verification/SampleAuction.v ===== *)
(** The auction ([samples/sample-auction/src]): one aggregate, whose bids are checked against
    a clock, an upcaster chain and a projection.  An instant of a payload is a date when the
    payload is in memory, and the text of the date when it comes out of a store that keeps
    JSON; the comparison of the source accepts both, and means something else. *)
From Stdlib Require Import Sorting.Sorted.
From S2P Require Import Prelude Text Json Wire JsMap CoreTypes Upcaster Host Stores Idempotency UnitOfWork Concurrency Metadata World CommandExecutor Frames CommandCorrect Projection Harness TypedDomain.
Local Open Scope string_scope.

(** ** Instants *)

(** A field of the declared type [Date]. *)
Inductive Date : Type :=
| DateOf (ms : Z)
| TextOfDate (s : string).

#[export] Instance Date_typed : Typed Date.
Proof.
  refine {| to_value := fun d => match d with DateOf ms => VDate ms | TextOfDate s => VStr s end;
            of_value := fun v => match v with VDate ms => Some (DateOf ms) | VStr s => Some (TextOfDate s) | _ => None end |}.
  by intros [].
Defined.

(** [Number(text)], [None] for [NaN]: of the texts that are numbers, the decimal integers. *)
Definition digits_number (s : chars) : option Z :=
  match s with
  | [] => None
  | _ => let '(n, rest) := take_digits s 0 in match rest with [] => Some n | _ => None end
  end.
Definition text_number (s : string) : option Z :=
  match chars_of s with
  | [] => Some 0%Z
  | c :: rest => if (code c =? 45)%Z then option_map Z.opp (digits_number rest) else digits_number (c :: rest)
  end.

(** [now > d]: both operands become numbers; a comparison with [NaN] is false. *)
Definition date_gt (now : Z) (d : Date) : bool :=
  match match d with DateOf ms => Some ms | TextOfDate s => text_number s end with
  | Some ms => (ms <? now)%Z
  | None => false
  end.

(** ** The event model *)

Record AuctionCreatedPayload : Type := { ac_item : string; ac_startingPrice : Z; ac_endsAt : Date }.
Record BidPlacedPayload : Type := { bp_bidderId : string; bp_amount : Z; bp_timestamp : Date }.
Record BidRejectedPayload : Type := { br_bidderId : string; br_amount : Z; br_reason : string }.
Record AuctionClosedPayload : Type := { cl_winnerId : option string; cl_winningBid : option Z }.

#[export] Instance AuctionCreatedPayload_typed : Typed AuctionCreatedPayload.
Proof.
  refine {| to_value := fun p => VObj [("item", to_value (ac_item p)); ("startingPrice", to_value (ac_startingPrice p));
                                       ("endsAt", to_value (ac_endsAt p))];
            of_value := fun v => item ← prop "item" v; startingPrice ← prop "startingPrice" v; endsAt ← prop "endsAt" v;
                                 Some {| ac_item := item; ac_startingPrice := startingPrice; ac_endsAt := endsAt |} |}.
  read_record.
Defined.

#[export] Instance BidPlacedPayload_typed : Typed BidPlacedPayload.
Proof.
  refine {| to_value := fun p => VObj [("bidderId", to_value (bp_bidderId p)); ("amount", to_value (bp_amount p));
                                       ("timestamp", to_value (bp_timestamp p))];
            of_value := fun v => bidderId ← prop "bidderId" v; amount ← prop "amount" v; timestamp ← prop "timestamp" v;
                                 Some {| bp_bidderId := bidderId; bp_amount := amount; bp_timestamp := timestamp |} |}.
  read_record.
Defined.

#[export] Instance BidRejectedPayload_typed : Typed BidRejectedPayload.
Proof.
  refine {| to_value := fun p => VObj [("bidderId", to_value (br_bidderId p)); ("amount", to_value (br_amount p));
                                       ("reason", to_value (br_reason p))];
            of_value := fun v => bidderId ← prop "bidderId" v; amount ← prop "amount" v; reason ← prop "reason" v;
                                 Some {| br_bidderId := bidderId; br_amount := amount; br_reason := reason |} |}.
  read_record.
Defined.

#[export] Instance AuctionClosedPayload_typed : Typed AuctionClosedPayload.
Proof.
  refine {| to_value := fun p => VObj [("winnerId", to_value (cl_winnerId p)); ("winningBid", to_value (cl_winningBid p))];
            of_value := fun v => winnerId ← prop "winnerId" v; winningBid ← prop "winningBid" v;
                                 Some {| cl_winnerId := winnerId; cl_winningBid := winningBid |} |}.
  read_record.
Defined.

Inductive AuctionEvent : Type :=
| AuctionCreated (payload : AuctionCreatedPayload)
| BidPlaced (payload : BidPlacedPayload)
| BidRejected (payload : BidRejectedPayload)
| AuctionClosed (payload : AuctionClosedPayload).

Definition auction_event (e : AuctionEvent) : event :=
  match e with
  | AuctionCreated p => literal_event "AuctionCreated" p
  | BidPlaced p => literal_event "BidPlaced" p
  | BidRejected p => literal_event "BidRejected" p
  | AuctionClosed p => literal_event "AuctionClosed" p
  end.

(** ** The commands *)

Record PlaceBidPayload : Type := { pb_bidderId : string; pb_amount : Z }.

#[export] Instance PlaceBidPayload_typed : Typed PlaceBidPayload.
Proof.
  refine {| to_value := fun p => VObj [("bidderId", to_value (pb_bidderId p)); ("amount", to_value (pb_amount p))];
            of_value := fun v => bidderId ← prop "bidderId" v; amount ← prop "amount" v;
                                 Some {| pb_bidderId := bidderId; pb_amount := amount |} |}.
  read_record.
Defined.

(** ** The state *)

Inductive AuctionStatus : Type := open | closed.

#[export] Instance AuctionStatus_eq_dec : EqDecision AuctionStatus.
Proof. solve_decision. Defined.

#[export] Instance AuctionStatus_typed : Typed AuctionStatus.
Proof.
  refine {| to_value := fun s => VStr match s with open => "open" | closed => "closed" end;
            of_value := fun v => match v with
              | VStr s => if String.eqb s "open" then Some open else if String.eqb s "closed" then Some closed else None
              | _ => None end |}.
  by intros [].
Defined.

Record Bid : Type := { bd_bidderId : string; bd_amount : Z }.

#[export] Instance Bid_typed : Typed Bid.
Proof.
  refine {| to_value := fun b => VObj [("bidderId", to_value (bd_bidderId b)); ("amount", to_value (bd_amount b))];
            of_value := fun v => bidderId ← prop "bidderId" v; amount ← prop "amount" v;
                                 Some {| bd_bidderId := bidderId; bd_amount := amount |} |}.
  read_record.
Defined.
#[export] Instance Bid_nonnull : NonNull Bid. Proof. done. Qed.

Record AuctionState : Type := {
  item : string;
  startingPrice : Z;
  endsAt : Date;
  status : AuctionStatus;
  highestBid : option Bid;
  bidCount : Z
}.

#[export] Instance AuctionState_typed : Typed AuctionState.
Proof.
  refine {| to_value := fun s => VObj [("item", to_value (item s)); ("startingPrice", to_value (startingPrice s));
              ("endsAt", to_value (endsAt s)); ("status", to_value (status s));
              ("highestBid", to_value (highestBid s)); ("bidCount", to_value (bidCount s))];
            of_value := fun v => item ← prop "item" v; startingPrice ← prop "startingPrice" v; endsAt ← prop "endsAt" v;
              status ← prop "status" v; highestBid ← prop "highestBid" v; bidCount ← prop "bidCount" v;
              Some {| item := item; startingPrice := startingPrice; endsAt := endsAt; status := status;
                      highestBid := highestBid; bidCount := bidCount |} |}.
  read_record.
Defined.

Definition initialAuctionState : AuctionState :=
  {| item := EmptyString; startingPrice := 0; endsAt := DateOf 0; status := open; highestBid := None; bidCount := 0 |}.

(** ** The evolvers *)

Definition evolveAuctionCreated (event : AuctionCreatedPayload) (_ : AuctionState) : AuctionState :=
  {| item := ac_item event; startingPrice := ac_startingPrice event; endsAt := ac_endsAt event;
     status := open; highestBid := None; bidCount := 0 |}.

Definition evolveBidPlaced (event : BidPlacedPayload) (state : AuctionState) : AuctionState :=
  {| item := item state; startingPrice := startingPrice state; endsAt := endsAt state; status := status state;
     highestBid := Some {| bd_bidderId := bp_bidderId event; bd_amount := bp_amount event |};
     bidCount := bidCount state + 1 |}.

Definition evolveBidRejected (_ : BidRejectedPayload) (state : AuctionState) : AuctionState := state.

Definition evolveAuctionClosed (_ : AuctionClosedPayload) (state : AuctionState) : AuctionState :=
  {| item := item state; startingPrice := startingPrice state; endsAt := endsAt state; status := closed;
     highestBid := highestBid state; bidCount := bidCount state |}.

(** ** The upcasters: version 1 of [BidPlaced] has no timestamp *)

Definition bidPlacedUpcasters : UpcasterChain := defineEventUpcasterChain
  [fun v1 => Ok (VObj (set_prop "timestamp" (VDate 0) (match v1 with VObj fields => fields | _ => [] end)))].

Definition auctionUpcasters : UpcasterMap := defineUpcasters [("BidPlaced", bidPlacedUpcasters)].

(** ** The aggregate *)

(** [state.highestBid?.amount ?? state.startingPrice] *)
Definition minimum_bid (state : AuctionState) : Z := or_default (option_map bd_amount (highestBid state)) (startingPrice state).

(** [SystemClock.now] of [infrastructure/index.ts] *)
Definition SystemClock_now {W} (host : lens W Host) : M W Z := zoom host date_now.

Section aggregate.
Context {W : Type} (clock_now : M W Z).

Definition decideCreateAuction (_ : ID) (payload : AuctionCreatedPayload) (_ : AuctionState) : M W AuctionEvent :=
  ret (AuctionCreated payload).

Definition rejected (p : PlaceBidPayload) (reason : string) : AuctionEvent :=
  BidRejected {| br_bidderId := pb_bidderId p; br_amount := pb_amount p; br_reason := reason |}.

Definition decidePlaceBid (_ : ID) (payload : PlaceBidPayload) (state : AuctionState) : M W AuctionEvent :=
  now <- clock_now ;;
  if decide (status state = closed) then ret (rejected payload "Auction is closed")
  else if date_gt now (endsAt state) then ret (rejected payload "Auction has ended")
  else if (pb_amount payload <=? minimum_bid state)%Z
  then ret (rejected payload ("Bid must exceed " ++ string_of_Z (minimum_bid state)))
  else ret (BidPlaced {| bp_bidderId := pb_bidderId payload; bp_amount := pb_amount payload; bp_timestamp := DateOf now |}).

Definition decideCloseAuction (_ : ID) (_ : unit) (state : AuctionState) : M W AuctionEvent :=
  ret (AuctionClosed {| cl_winnerId := option_map bd_bidderId (highestBid state);
                        cl_winningBid := option_map bd_amount (highestBid state) |}).

Definition Auction : Aggregate W :=
  {| ag_initialState := to_value initialAuctionState;
     ag_decide := [("CreateAuction", decider auction_event decideCreateAuction);
                   ("PlaceBid", decider auction_event decidePlaceBid);
                   ("CloseAuction", decider auction_event decideCloseAuction)];
     ag_evolve := [("AuctionCreated", evolver evolveAuctionCreated);
                   ("BidPlaced", evolver evolveBidPlaced);
                   ("BidRejected", evolver evolveBidRejected);
                   ("AuctionClosed", evolver evolveAuctionClosed)];
     ag_upcasters := Some auctionUpcasters |}.
End aggregate.

(** ** The projection [AuctionSummary] *)

Record AuctionSummaryView : Type := {
  av_auctionId : string;
  av_item : string;
  av_currentHighBid : option Z;
  av_currentLeader : option string;
  av_bidCount : Z;
  av_status : AuctionStatus
}.

#[export] Instance AuctionSummaryView_typed : Typed AuctionSummaryView.
Proof.
  refine {| to_value := fun v => VObj [("auctionId", to_value (av_auctionId v)); ("item", to_value (av_item v));
              ("currentHighBid", to_value (av_currentHighBid v)); ("currentLeader", to_value (av_currentLeader v));
              ("bidCount", to_value (av_bidCount v)); ("status", to_value (av_status v))];
            of_value := fun v => auctionId ← prop "auctionId" v; item ← prop "item" v;
              currentHighBid ← prop "currentHighBid" v; currentLeader ← prop "currentLeader" v;
              bidCount ← prop "bidCount" v; status ← prop "status" v;
              Some {| av_auctionId := auctionId; av_item := item; av_currentHighBid := currentHighBid;
                      av_currentLeader := currentLeader; av_bidCount := bidCount; av_status := status |} |}.
  read_record.
Defined.

Definition initialAuctionSummaryView : AuctionSummaryView :=
  {| av_auctionId := EmptyString; av_item := EmptyString; av_currentHighBid := None; av_currentLeader := None;
     av_bidCount := 0; av_status := open |}.

Definition onAuctionCreated (payload : AuctionCreatedPayload) (view : AuctionSummaryView) : AuctionSummaryView :=
  {| av_auctionId := av_auctionId view; av_item := ac_item payload; av_currentHighBid := None; av_currentLeader := None;
     av_bidCount := 0; av_status := open |}.

Definition onBidPlaced (payload : BidPlacedPayload) (view : AuctionSummaryView) : AuctionSummaryView :=
  {| av_auctionId := av_auctionId view; av_item := av_item view; av_currentHighBid := Some (bp_amount payload);
     av_currentLeader := Some (bp_bidderId payload); av_bidCount := av_bidCount view + 1; av_status := av_status view |}.

Definition onAuctionClosed (_ : AuctionClosedPayload) (view : AuctionSummaryView) : AuctionSummaryView :=
  {| av_auctionId := av_auctionId view; av_item := av_item view; av_currentHighBid := av_currentHighBid view;
     av_currentLeader := av_currentLeader view; av_bidCount := av_bidCount view; av_status := closed |}.

Definition AuctionSummaryProjection {W} : Projection W :=
  {| pr_on := [("AuctionCreated", {| ph_id := None; ph_reduce := reducer onAuctionCreated |});
               ("BidPlaced", {| ph_id := None; ph_reduce := reducer onBidPlaced |});
               ("AuctionClosed", {| ph_id := None; ph_reduce := reducer onAuctionClosed |})];
     pr_initialView := to_value initialAuctionSummaryView;
     pr_consistency := Eventual |}.

(** [(await views.load(query.auctionId)) ?? null] *)
Definition handleGetAuctionSummary {W} (views : ViewStore W) (auctionId : ID) : M W value :=
  view <- vs_load views auctionId ;; ret (coalesce view VNull).

(** ** Facts *)

Definition auction_evolve (e : AuctionEvent) (s : AuctionState) : AuctionState :=
  match e with
  | AuctionCreated p => evolveAuctionCreated p s
  | BidPlaced p => evolveBidPlaced p s
  | BidRejected p => evolveBidRejected p s
  | AuctionClosed p => evolveAuctionClosed p s
  end.

(** Why a bid is rejected at the instant [now], if it is. *)
Definition rejection (now : Z) (p : PlaceBidPayload) (s : AuctionState) : option string :=
  if decide (status s = closed) then Some "Auction is closed"
  else if date_gt now (endsAt s) then Some "Auction has ended"
  else if (pb_amount p <=? minimum_bid s)%Z then Some ("Bid must exceed " ++ string_of_Z (minimum_bid s))
  else None.

Definition auction_decides (c : command) (s : AuctionState) (e : AuctionEvent) : Prop :=
  (exists p, e = AuctionCreated p) \/
  (exists p now, e = match rejection now p s with
                     | Some reason => rejected p reason
                     | None => BidPlaced {| bp_bidderId := pb_bidderId p; bp_amount := pb_amount p; bp_timestamp := DateOf now |}
                     end) \/
  e = AuctionClosed {| cl_winnerId := option_map bd_bidderId (highestBid s); cl_winningBid := option_map bd_amount (highestBid s) |}.

Lemma decidePlaceBid_run {W} (clock_now : M W Z) i p s w :
  decidePlaceBid clock_now i p s w
  = match clock_now w with
    | (Ok now, w') => (Ok match rejection now p s with
                          | Some reason => rejected p reason
                          | None => BidPlaced {| bp_bidderId := pb_bidderId p; bp_amount := pb_amount p; bp_timestamp := DateOf now |}
                          end, w')
    | (Err e, w') => (Err e, w')
    end.
Proof.
  unfold decidePlaceBid, rejection, bind. destruct (clock_now w) as [[now | e] w']; [| done].
  destruct (decide _); [done |]. destruct (date_gt _ _); [done |]. by destruct (_ <=? _)%Z.
Qed.

#[export] Instance Auction_typed {W} (clock_now : M W Z) :
  TypedAggregate (Auction clock_now) initialAuctionState auction_evolve auction_event auction_decides.
Proof.
  split; [done | |].
  - intros [p | p | p | p] s; typed_evolve.
  - intros handler c s w dec w'. cbn [Auction ag_decide mget].
    destruct (String.eqb (cmd_name c) "CreateAuction").
    { intros [= <-] (p & e & _ & Hd & ->)%decider_inv. injection Hd as <- _. eexists. split; [done |]. left. eauto. }
    destruct (String.eqb (cmd_name c) "PlaceBid").
    { intros [= <-] (p & e & _ & Hd & ->)%decider_inv. rewrite decidePlaceBid_run in Hd.
      destruct (clock_now w) as [[now | err] w1]; [| done]. injection Hd as <- _. eexists. split; [done |]. right. left. eauto. }
    destruct (String.eqb (cmd_name c) "CloseAuction"); [| done].
    intros [= <-] (p & e & _ & Hd & ->)%decider_inv. injection Hd as <- _. eexists. split; [done |]. by right; right.
Qed.

Lemma Auction_quiet {W} (stream : W -> string -> list event) snap (clock_now : M W Z) n handler :
  quiet stream snap clock_now -> mget n (ag_decide (Auction clock_now)) = Some handler -> forall c s, quiet stream snap (handler c s).
Proof.
  intros Hclock. cbn [Auction ag_decide mget].
  repeat (destruct (String.eqb n _); [intros [= <-] c s; apply decider_quiet; intros i p s' w r w' |]); [| | | done].
  - by intros [= _ <-].
  - rewrite decidePlaceBid_run. destruct (clock_now w) as [[now | e] w1] eqn:E; intros [= _ <-]; by eapply Hclock.
  - by intros [= _ <-].
Qed.

(** The current auction of a history: its terms, its accepted bids, whether it is closed. *)
Record auction : Type := { au_terms : AuctionCreatedPayload; au_bids : list BidPlacedPayload; au_status : AuctionStatus }.

Definition auction_step (a : auction) (e : AuctionEvent) : auction :=
  match e with
  | AuctionCreated p => {| au_terms := p; au_bids := []; au_status := open |}
  | BidPlaced p => {| au_terms := au_terms a; au_bids := (au_bids a ++ [p])%list; au_status := au_status a |}
  | BidRejected _ => a
  | AuctionClosed _ => {| au_terms := au_terms a; au_bids := au_bids a; au_status := closed |}
  end.

Definition no_auction : auction :=
  {| au_terms := {| ac_item := EmptyString; ac_startingPrice := 0; ac_endsAt := DateOf 0 |}; au_bids := []; au_status := open |}.

Definition the_auction (h : list AuctionEvent) : auction := foldl auction_step no_auction h.

Definition last_bid (a : auction) : option Bid :=
  option_map (fun b => {| bd_bidderId := bp_bidderId b; bd_amount := bp_amount b |}) (last (au_bids a)).

Definition auction_summary (a : auction) : AuctionState :=
  {| item := ac_item (au_terms a); startingPrice := ac_startingPrice (au_terms a); endsAt := ac_endsAt (au_terms a);
     status := au_status a; highestBid := last_bid a; bidCount := Z.of_nat (length (au_bids a)) |}.

Lemma the_auction_snoc h e : the_auction (h ++ [e]) = auction_step (the_auction h) e.
Proof. unfold the_auction. by rewrite foldl_app. Qed.

Lemma auction_state_summary h : state_after initialAuctionState auction_evolve h = auction_summary (the_auction h).
Proof.
  induction h as [| e h IH] using rev_ind; [done |]. rewrite state_after_snoc, the_auction_snoc, IH.
  destruct e as [p | p | p | p]; try done.
  unfold auction_summary, last_bid. cbn [auction_evolve evolveBidPlaced auction_step au_terms au_bids au_status].
  rewrite last_snoc, length_app. cbn. unfold evolveBidPlaced. cbn. f_equal. lia.
Qed.

(** What the rules of an auction say of an event, after the events before it. *)
Definition lawful (before : list AuctionEvent) (e : AuctionEvent) : Prop :=
  let a := the_auction before in
  match e with
  | AuctionCreated _ => True
  | BidPlaced p => au_status a = open /\ (minimum_bid (auction_summary a) < bp_amount p)%Z /\
      exists now, bp_timestamp p = DateOf now /\ date_gt now (ac_endsAt (au_terms a)) = false
  | BidRejected p => au_status a = closed \/ (exists now, date_gt now (ac_endsAt (au_terms a)) = true) \/
      (br_amount p <= minimum_bid (auction_summary a))%Z
  | AuctionClosed p => cl_winnerId p = option_map bp_bidderId (last (au_bids a)) /\
      cl_winningBid p = option_map bp_amount (last (au_bids a))
  end.

(** The accepted bids rise from the starting price, and are in time. *)
Definition rising (a : auction) : Prop :=
  StronglySorted Z.lt (ac_startingPrice (au_terms a) :: map bp_amount (au_bids a)).
Definition in_time (a : auction) : Prop :=
  Forall (fun b => exists now, bp_timestamp b = DateOf now /\ date_gt now (ac_endsAt (au_terms a)) = false) (au_bids a).

Definition auction_rules (_ : ID) (h : list AuctionEvent) : Prop :=
  rising (the_auction h) /\ in_time (the_auction h) /\ every_step lawful h.

Lemma StronglySorted_snoc l (x y : Z) : last l = Some x -> StronglySorted Z.lt l -> (x < y)%Z -> StronglySorted Z.lt (l ++ [y]).
Proof.
  revert x. induction l as [| a l IH]; intros x Hl Hs Hxy; [done |]. inversion Hs as [| ? ? Hs' Hf]; subst.
  cbn [app]. constructor.
  - destruct l as [| b l]; [by repeat constructor |]. by apply (IH x).
  - apply Forall_app_2; [done |]. constructor; [| constructor].
    destruct l as [| b l]; [by injection Hl as -> |]. change (last (b :: l) = Some x) in Hl.
    apply last_Some in Hl as [l' El]. rewrite El, Forall_app in Hf. destruct Hf as [_ Hx]. apply Forall_inv in Hx. lia.
Qed.

(** The bid to beat is the last accepted amount, or the starting price. *)
Lemma minimum_last a : last (ac_startingPrice (au_terms a) :: map bp_amount (au_bids a)) = Some (minimum_bid (auction_summary a)).
Proof.
  unfold minimum_bid, auction_summary, last_bid. cbn [highestBid startingPrice].
  destruct (au_bids a) as [| b bs _] using rev_ind; [done |]. rewrite map_app. cbn [map].
  rewrite app_comm_cons, !last_snoc. done.
Qed.

Lemma auction_step_ok h e :
  rising (the_auction h) -> in_time (the_auction h) -> lawful h e ->
  rising (auction_step (the_auction h) e) /\ in_time (auction_step (the_auction h) e).
Proof.
  intros Hr Ht Hl. destruct e as [p | p | p | p]; cbn [auction_step]; try done.
  - split; [by repeat constructor | constructor].
  - destruct Hl as (_ & Hm & Hin). unfold rising, in_time in *. cbn [au_terms au_bids] in *. split.
    + rewrite map_app, app_comm_cons. eapply StronglySorted_snoc; [apply minimum_last | done | done].
    + apply Forall_app_2; [done | by constructor].
Qed.

Lemma decided_lawful c h e : auction_decides c (auction_summary (the_auction h)) e -> lawful h e.
Proof.
  intros [(p & ->) | [(p & now & ->) | ->]]; [done | |].
  - unfold rejection. cbn [auction_summary status endsAt]. destruct (decide (au_status (the_auction h) = closed)) as [Hc | Ho]; [by left |].
    destruct (date_gt now _) eqn:Hd; [right; left; by exists now |].
    destruct (Z.leb_spec (pb_amount p) (minimum_bid (auction_summary (the_auction h)))) as [Hle | Hlt]; [by right; right |].
    unfold lawful. cbn [bp_amount bp_timestamp]. split; [by destruct (au_status _) |]. split; [done | by exists now].
  - cbn [lawful cl_winnerId cl_winningBid auction_summary highestBid]. unfold last_bid. by destruct (last _).
Qed.

Lemma auction_keeps name :
  keeps_story name initialAuctionState auction_evolve auction_decides (fun _ => True) auction_rules.
Proof.
  split; [| done]. intros c h e _ (Hr & Ht & Hl) Hd. rewrite auction_state_summary in Hd. apply decided_lawful in Hd.
  unfold auction_rules. rewrite the_auction_snoc. destruct (auction_step_ok h e Hr Ht Hd). split; [done |]. split; [done |].
  by apply every_step_snoc.
Qed.

Lemma auction_start i : auction_rules i [].
Proof. split; [by repeat constructor |]. split; [constructor | apply every_step_nil]. Qed.

(** ** Properties *)

Section auctions.
Context {W Tx : Type} (host : lens W Host) `{!LensLaws host} (P : EventSourcedPersistence W) (SN : SnapshotStore W)
  (stream : W -> string -> list event) (snap : W -> string -> option Snapshot) `{!StoresFrame host P SN stream snap}
  (provider : option MetadataContext) (strategy : SnapshotStrategy) (maxRetries : nat)
  (dispatch : event -> M (Exec W Tx) unit) (clock_now : M W Z).

Definition run_auctions (cs : list command) : M (Exec W Tx) unit :=
  engine_run host P SN provider strategy maxRetries dispatch "Auction" (Auction clock_now) cs.

End auctions.

(** ** The view agrees with the aggregate *)

Definition auction_view_step (e : AuctionEvent) (v : AuctionSummaryView) : AuctionSummaryView :=
  match e with
  | AuctionCreated p => onAuctionCreated p v
  | BidPlaced p => onBidPlaced p v
  | BidRejected _ => v
  | AuctionClosed p => onAuctionClosed p v
  end.

#[export] Instance AuctionSummary_typed {W} :
  TypedProjection (W := W) (augment "AuctionSummary" AuctionSummaryProjection) initialAuctionSummaryView auction_view_step auction_event.
Proof.
  split; [| done | | | done].
  - unfold wf. by apply (bool_decide_unpack _).
  - intros h e x v s Hh [Hn Hp]. rewrite Hn in Hh.
    destruct x as [p | p | p | p]; cbn [auction_event literal_event ev_payload] in Hp; cbn in Hh; try done; injection Hh as <-; cbn [ph_reduce augment_handler ph_id];
      unfold reducer; rewrite Hp; unfold lift_result; by rewrite evolver_run.
  - by intros [p | p | p | p] v.
Qed.

(** The view of an auction: nothing in it says which auction it is about. *)
Definition summary_view (a : auction) : AuctionSummaryView :=
  {| av_auctionId := EmptyString; av_item := ac_item (au_terms a); av_currentHighBid := option_map bd_amount (last_bid a);
     av_currentLeader := option_map bd_bidderId (last_bid a); av_bidCount := Z.of_nat (length (au_bids a)); av_status := au_status a |}.

Lemma view_summary h : view_after auction_view_step initialAuctionSummaryView h = summary_view (the_auction h).
Proof.
  induction h as [| e h IH] using rev_ind; [done |]. unfold view_after in *. rewrite foldl_app, the_auction_snoc, IH. cbn [foldl].
  destruct e as [p | p | p | p]; try done.
  unfold summary_view, last_bid. cbn [auction_view_step auction_step au_terms au_bids au_status]. rewrite last_snoc, length_app.
  unfold onBidPlaced. cbn. f_equal. lia.
Qed.

(** However the events of several auctions are interleaved, the view of each shows the
    highest bid, its bidder, the number of bids and the status of its own events. *)
Lemma auction_views {W} (views : lens W Views.store) `{!LensLaws views} es l s :
  Forall2 (about (W := W) (augment "AuctionSummary" AuctionSummaryProjection) auction_event) es l -> lget views s = [] ->
  exists s', live views (augment "AuctionSummary" AuctionSummaryProjection) es s = (Ok tt, s') /\
    forall i, current views (augment "AuctionSummary" AuctionSummaryProjection) i s'
      = to_value (summary_view (the_auction (of_view i l))).
Proof.
  intros Ha Hs. destruct (live_views_fresh views _ initialAuctionSummaryView auction_view_step auction_event es l s Ha Hs) as (s' & H1 & _ & H2).
  exists s'. split; [done |]. intros i. by rewrite H2, view_summary.
Qed.

(** ** Upcasting: a bid of version 1 *)

Record BidPlacedV1 : Type := { v1_bidderId : string; v1_amount : Z }.
Definition v1_value (b : BidPlacedV1) : value := VObj [("bidderId", VStr (v1_bidderId b)); ("amount", VNum (v1_amount b))].

Lemma v1_upcast b md : metadata_opt md_version {| ev_name := "BidPlaced"; ev_payload := v1_value b; ev_metadata := md |} = None ->
  upcastEvent {| ev_name := "BidPlaced"; ev_payload := v1_value b; ev_metadata := md |} auctionUpcasters
  = Ok {| ev_name := "BidPlaced"; ev_metadata := md;
          ev_payload := to_value {| bp_bidderId := v1_bidderId b; bp_amount := v1_amount b; bp_timestamp := DateOf 0 |} |}.
Proof. intros Hv. unfold upcastEvent, storedVersion. rewrite Hv. by destruct b. Qed.

(** ** The end of an auction, and a store that keeps JSON *)

Lemma take_digits_all s : forall acc n, take_digits s acc = (n, []) -> forall c, c ∈ s -> digit_of c <> None.
Proof.
  induction s as [| c s IH]; intros acc n H c' Hc; [by apply not_elem_of_nil in Hc |]. cbn in H.
  destruct (digit_of c) as [d |] eqn:Ed; [| done]. apply elem_of_cons in Hc as [-> | Hc]; [by rewrite Ed | by eapply IH].
Qed.

Lemma not_digits s c : c ∈ s -> digit_of c = None -> digits_number s = None.
Proof.
  intros Hc Hd. unfold digits_number. destruct s as [| c' s]; [done |].
  destruct (take_digits (c' :: s) 0) as [n [| r rest]] eqn:E; [| done]. by destruct (take_digits_all _ _ _ E c Hc).
Qed.

(** The text of a date is not a number: it ends in [Z]. *)
Lemma iso_not_number ms : text_number (string_of (iso_text ms)) = None.
Proof.
  unfold text_number. rewrite chars_of_string_of. unfold iso_text.
  set (tail := (time_text _ ++ [chr 90])%list).
  assert (Hz : chr 90 ∈ tail) by (apply elem_of_app; right; left).
  assert (Hd : digit_of (chr 90) = None) by reflexivity.
  destruct (date_text (ms / ms_per_day)) as [| c rest]; cbn [app].
  - change (code (chr 84) =? 45)%Z with false. cbv iota. apply (not_digits _ (chr 90)); [by right | done].
  - destruct (code c =? 45)%Z; rewrite (not_digits _ (chr 90)); try done;
      rewrite ?elem_of_cons, elem_of_app, elem_of_cons; auto.
Qed.

(** A deadline is enforced as long as it is a date. *)
Lemma deadline_enforced now p s ms : endsAt s = DateOf ms -> status s = open -> (ms < now)%Z ->
  rejection now p s = Some "Auction has ended".
Proof.
  intros He Hs Hn. unfold rejection. rewrite Hs. cbn. unfold date_gt. rewrite He. by destruct (Z.ltb_spec ms now); [| lia].
Qed.

(** Once it has been through JSON, no bid is too late. *)
Lemma deadline_lost now p s ms : endsAt s = TextOfDate (string_of (iso_text ms)) -> status s = open ->
  (minimum_bid s < pb_amount p)%Z -> rejection now p s = None.
Proof.
  intros He Hs Hm. unfold rejection. rewrite Hs. cbn. unfold date_gt. rewrite He, iso_not_number.
  by destruct (Z.leb_spec (pb_amount p) (minimum_bid s)); [lia |].
Qed.

(** What JSON makes of a date of a payload. *)
Lemma created_through_json p ms text : ac_endsAt p = DateOf ms -> toISOString ms = Ok text ->
  payload_json (to_value p)
  = Ok (to_value {| ac_item := ac_item p; ac_startingPrice := ac_startingPrice p; ac_endsAt := TextOfDate text |}).
Proof.
  destruct p as [it price ends]. cbn [ac_endsAt]. intros -> Ht. unfold payload_json. cbn [to_value AuctionCreatedPayload_typed].
  cbn. by rewrite Ht.
Qed.

(** ** The scenario of [main.ts], and the same auction over a store that keeps JSON *)

Definition auction_command {P} `{Typed P} (name : string) (payload : P) : command :=
  {| cmd_name := name; cmd_payload := to_value payload; cmd_commandId := None; cmd_targetAggregateId := Some (IdStr "auction-1") |}.

Definition create_auction (thing : string) (price deadline : Z) : command :=
  auction_command "CreateAuction" {| ac_item := thing; ac_startingPrice := price; ac_endsAt := DateOf deadline |}.
Definition place_bid (who : string) (amount : Z) : command := auction_command "PlaceBid" {| pb_bidderId := who; pb_amount := amount |}.
Definition close_auction : command := auction_command "CloseAuction" tt.

Definition main_scenario (deadline : Z) : list command :=
  [create_auction "Vintage Guitar" 500 deadline; place_bid "alice" 550; place_bid "bob" 600; place_bid "charlie" 580; close_auction].

Definition memory_auction (cs : list command) : Exec World unit :=
  snd (run_auctions host_lens world_events world_snaps None (everyNEvents 2) 3
    (fun e => world_op (log_dispatch e)) (SystemClock_now host_lens) cs start_exec).

Definition bids_of (s : Exec World unit) : list string :=
  map ev_name (world_stream (ex_world s) "Auction:auction-1").

Example main_runs : bids_of (memory_auction (main_scenario 1800000000000))
  = ["AuctionCreated"; "BidPlaced"; "BidPlaced"; "BidRejected"; "AuctionClosed"].
Proof. vm_compute. reflexivity. Qed.

(** The deadline has passed when the first bid comes in. *)
Example too_late : bids_of (memory_auction (main_scenario 1600000000000))
  = ["AuctionCreated"; "BidRejected"; "BidRejected"; "BidRejected"; "AuctionClosed"].
Proof. vm_compute. reflexivity. Qed.

(** A store that keeps the payloads as JSON texts. *)
Definition json_events (P : EventSourcedPersistence World) : EventSourcedPersistence World :=
  {| es_load := fun n i => events <- es_load P n i ;; ret (map wire_event events);
     es_save := es_save P; es_loadAfterVersion := None |}.

(** Over such a store the same late bids are accepted. *)
Lemma late_bids_accepted :
  bids_of (snd (run_auctions host_lens (json_events world_events) world_snaps None (fun _ => false) 3
    (fun e => world_op (log_dispatch e)) (SystemClock_now host_lens) (main_scenario 1600000000000) start_exec))
  = ["AuctionCreated"; "BidPlaced"; "BidPlaced"; "BidRejected"; "AuctionClosed"].
Proof. vm_compute. reflexivity. Qed.

Lemma system_clock_quiet : quiet world_stream world_snap (SystemClock_now host_lens).
Proof. intros w r w'. unfold SystemClock_now, zoom. cbn. by intros [= _ <-]. Qed.

