(* ===== verification/SampleHotelRooms.v ===== *)
(** The rooms of the hotel ([samples/sample-hotel-booking/src]): the aggregate [Room], its
    state in a dedicated table ([infrastructure/persistence/room-state-mapper.ts]), the
    projection [RoomAvailability] and its view store. *)
From S2P Require Import Prelude Text Json Wire JsMap CoreTypes Upcaster Host Stores Idempotency UnitOfWork Concurrency Metadata World CommandExecutor Frames CommandCorrect Projection Sql SqlAdapters Harness TypedDomain.
Local Open Scope string_scope.

(** ** [infrastructure/types.ts] *)

Inductive RoomType : Type := single | double | suite.

#[export] Instance RoomType_eq_dec : EqDecision RoomType.
Proof. solve_decision. Defined.

Definition room_type_text (t : RoomType) : string := match t with single => "single" | double => "double" | suite => "suite" end.

#[export] Instance RoomType_typed : Typed RoomType.
Proof.
  refine {| to_value := fun t => VStr (room_type_text t);
            of_value := fun v => match v with
              | VStr s => if String.eqb s "single" then Some single else if String.eqb s "double" then Some double
                          else if String.eqb s "suite" then Some suite else None
              | _ => None end |}.
  by intros [].
Defined.
#[export] Instance RoomType_nonnull : NonNull RoomType. Proof. done. Qed.

(** ** The event model *)

Record RoomCreatedPayload : Type := { rc_roomId : ID; rc_roomNumber : string; rc_type : RoomType; rc_floor : Z; rc_pricePerNight : Z }.
Record RoomMadeAvailablePayload : Type := { ra_roomId : ID }.
Record RoomReservedPayload : Type := { rr_roomId : ID; rr_bookingId : string; rr_guestId : string; rr_checkIn : string; rr_checkOut : string }.
Record GuestCheckedInPayload : Type := { gi_roomId : ID; gi_bookingId : string; gi_guestId : string; gi_checkedInAt : string }.
Record GuestCheckedOutPayload : Type := { go_roomId : ID; go_bookingId : string; go_guestId : string; go_checkedOutAt : string }.
Record RoomUnderMaintenancePayload : Type := { um_roomId : ID; um_reason : string; um_estimatedUntil : string }.

#[export] Instance RoomCreatedPayload_typed : Typed RoomCreatedPayload.
Proof.
  refine {| to_value := fun p => VObj [("roomId", to_value (rc_roomId p)); ("roomNumber", to_value (rc_roomNumber p)); ("type", to_value (rc_type p));
                                       ("floor", to_value (rc_floor p)); ("pricePerNight", to_value (rc_pricePerNight p))];
            of_value := fun v => roomId ← prop "roomId" v; roomNumber ← prop "roomNumber" v; type ← prop "type" v;
              floor ← prop "floor" v; pricePerNight ← prop "pricePerNight" v;
              Some {| rc_roomId := roomId; rc_roomNumber := roomNumber; rc_type := type; rc_floor := floor; rc_pricePerNight := pricePerNight |} |}.
  read_record.
Defined.

#[export] Instance RoomMadeAvailablePayload_typed : Typed RoomMadeAvailablePayload.
Proof.
  refine {| to_value := fun p => VObj [("roomId", to_value (ra_roomId p))];
            of_value := fun v => roomId ← prop "roomId" v; Some {| ra_roomId := roomId |} |}.
  read_record.
Defined.

#[export] Instance RoomReservedPayload_typed : Typed RoomReservedPayload.
Proof.
  refine {| to_value := fun p => VObj [("roomId", to_value (rr_roomId p)); ("bookingId", to_value (rr_bookingId p)); ("guestId", to_value (rr_guestId p));
                                       ("checkIn", to_value (rr_checkIn p)); ("checkOut", to_value (rr_checkOut p))];
            of_value := fun v => roomId ← prop "roomId" v; bookingId ← prop "bookingId" v; guestId ← prop "guestId" v;
              checkIn ← prop "checkIn" v; checkOut ← prop "checkOut" v;
              Some {| rr_roomId := roomId; rr_bookingId := bookingId; rr_guestId := guestId; rr_checkIn := checkIn; rr_checkOut := checkOut |} |}.
  read_record.
Defined.

#[export] Instance GuestCheckedInPayload_typed : Typed GuestCheckedInPayload.
Proof.
  refine {| to_value := fun p => VObj [("roomId", to_value (gi_roomId p)); ("bookingId", to_value (gi_bookingId p)); ("guestId", to_value (gi_guestId p));
                                       ("checkedInAt", to_value (gi_checkedInAt p))];
            of_value := fun v => roomId ← prop "roomId" v; bookingId ← prop "bookingId" v; guestId ← prop "guestId" v;
              checkedInAt ← prop "checkedInAt" v;
              Some {| gi_roomId := roomId; gi_bookingId := bookingId; gi_guestId := guestId; gi_checkedInAt := checkedInAt |} |}.
  read_record.
Defined.

#[export] Instance GuestCheckedOutPayload_typed : Typed GuestCheckedOutPayload.
Proof.
  refine {| to_value := fun p => VObj [("roomId", to_value (go_roomId p)); ("bookingId", to_value (go_bookingId p)); ("guestId", to_value (go_guestId p));
                                       ("checkedOutAt", to_value (go_checkedOutAt p))];
            of_value := fun v => roomId ← prop "roomId" v; bookingId ← prop "bookingId" v; guestId ← prop "guestId" v;
              checkedOutAt ← prop "checkedOutAt" v;
              Some {| go_roomId := roomId; go_bookingId := bookingId; go_guestId := guestId; go_checkedOutAt := checkedOutAt |} |}.
  read_record.
Defined.

#[export] Instance RoomUnderMaintenancePayload_typed : Typed RoomUnderMaintenancePayload.
Proof.
  refine {| to_value := fun p => VObj [("roomId", to_value (um_roomId p)); ("reason", to_value (um_reason p)); ("estimatedUntil", to_value (um_estimatedUntil p))];
            of_value := fun v => roomId ← prop "roomId" v; reason ← prop "reason" v; estimatedUntil ← prop "estimatedUntil" v;
              Some {| um_roomId := roomId; um_reason := reason; um_estimatedUntil := estimatedUntil |} |}.
  read_record.
Defined.

Inductive RoomEvent : Type :=
| RoomCreated (payload : RoomCreatedPayload)
| RoomMadeAvailable (payload : RoomMadeAvailablePayload)
| RoomReserved (payload : RoomReservedPayload)
| GuestCheckedIn (payload : GuestCheckedInPayload)
| GuestCheckedOut (payload : GuestCheckedOutPayload)
| RoomUnderMaintenance (payload : RoomUnderMaintenancePayload).

Definition room_event (e : RoomEvent) : event :=
  match e with
  | RoomCreated p => literal_event "RoomCreated" p
  | RoomMadeAvailable p => literal_event "RoomMadeAvailable" p
  | RoomReserved p => literal_event "RoomReserved" p
  | GuestCheckedIn p => literal_event "GuestCheckedIn" p
  | GuestCheckedOut p => literal_event "GuestCheckedOut" p
  | RoomUnderMaintenance p => literal_event "RoomUnderMaintenance" p
  end.

(** ** The commands *)

Record CreateRoomPayload : Type := { cr_roomNumber : string; cr_type : RoomType; cr_floor : Z; cr_pricePerNight : Z }.
Record ReserveRoomPayload : Type := { rv_bookingId : string; rv_guestId : string; rv_checkIn : string; rv_checkOut : string }.
Record CheckInGuestPayload : Type := { ci_bookingId : string; ci_guestId : string }.
Record CheckOutGuestPayload : Type := { co_bookingId : string; co_guestId : string }.
Record PutUnderMaintenancePayload : Type := { pm_reason : string; pm_estimatedUntil : string }.

#[export] Instance CreateRoomPayload_typed : Typed CreateRoomPayload.
Proof.
  refine {| to_value := fun p => VObj [("roomNumber", to_value (cr_roomNumber p)); ("type", to_value (cr_type p)); ("floor", to_value (cr_floor p));
                                       ("pricePerNight", to_value (cr_pricePerNight p))];
            of_value := fun v => roomNumber ← prop "roomNumber" v; type ← prop "type" v; floor ← prop "floor" v; pricePerNight ← prop "pricePerNight" v;
              Some {| cr_roomNumber := roomNumber; cr_type := type; cr_floor := floor; cr_pricePerNight := pricePerNight |} |}.
  read_record.
Defined.

#[export] Instance ReserveRoomPayload_typed : Typed ReserveRoomPayload.
Proof.
  refine {| to_value := fun p => VObj [("bookingId", to_value (rv_bookingId p)); ("guestId", to_value (rv_guestId p)); ("checkIn", to_value (rv_checkIn p));
                                       ("checkOut", to_value (rv_checkOut p))];
            of_value := fun v => bookingId ← prop "bookingId" v; guestId ← prop "guestId" v; checkIn ← prop "checkIn" v; checkOut ← prop "checkOut" v;
              Some {| rv_bookingId := bookingId; rv_guestId := guestId; rv_checkIn := checkIn; rv_checkOut := checkOut |} |}.
  read_record.
Defined.

#[export] Instance CheckInGuestPayload_typed : Typed CheckInGuestPayload.
Proof.
  refine {| to_value := fun p => VObj [("bookingId", to_value (ci_bookingId p)); ("guestId", to_value (ci_guestId p))];
            of_value := fun v => bookingId ← prop "bookingId" v; guestId ← prop "guestId" v; Some {| ci_bookingId := bookingId; ci_guestId := guestId |} |}.
  read_record.
Defined.

#[export] Instance CheckOutGuestPayload_typed : Typed CheckOutGuestPayload.
Proof.
  refine {| to_value := fun p => VObj [("bookingId", to_value (co_bookingId p)); ("guestId", to_value (co_guestId p))];
            of_value := fun v => bookingId ← prop "bookingId" v; guestId ← prop "guestId" v; Some {| co_bookingId := bookingId; co_guestId := guestId |} |}.
  read_record.
Defined.

#[export] Instance PutUnderMaintenancePayload_typed : Typed PutUnderMaintenancePayload.
Proof.
  refine {| to_value := fun p => VObj [("reason", to_value (pm_reason p)); ("estimatedUntil", to_value (pm_estimatedUntil p))];
            of_value := fun v => reason ← prop "reason" v; estimatedUntil ← prop "estimatedUntil" v;
              Some {| pm_reason := reason; pm_estimatedUntil := estimatedUntil |} |}.
  read_record.
Defined.

(** ** The state *)

Inductive RoomStatus : Type := created | available | reserved | occupied | maintenance.

#[export] Instance RoomStatus_eq_dec : EqDecision RoomStatus.
Proof. solve_decision. Defined.

Definition room_status_text (s : RoomStatus) : string :=
  match s with created => "created" | available => "available" | reserved => "reserved" | occupied => "occupied" | maintenance => "maintenance" end.

#[export] Instance RoomStatus_typed : Typed RoomStatus.
Proof.
  refine {| to_value := fun s => VStr (room_status_text s);
            of_value := fun v => match v with
              | VStr s => if String.eqb s "created" then Some created else if String.eqb s "available" then Some available
                          else if String.eqb s "reserved" then Some reserved else if String.eqb s "occupied" then Some occupied
                          else if String.eqb s "maintenance" then Some maintenance else None
              | _ => None end |}.
  by intros [].
Defined.

Record RoomState : Type := {
  rs_roomNumber : option string;
  rs_type : option RoomType;
  rs_floor : Z;
  rs_pricePerNight : Z;
  rs_status : RoomStatus;
  rs_currentBookingId : option string;
  rs_currentGuestId : option string
}.

#[export] Instance RoomState_typed : Typed RoomState.
Proof.
  refine {| to_value := fun s => VObj [("roomNumber", to_value (rs_roomNumber s)); ("type", to_value (rs_type s)); ("floor", to_value (rs_floor s));
              ("pricePerNight", to_value (rs_pricePerNight s)); ("status", to_value (rs_status s));
              ("currentBookingId", to_value (rs_currentBookingId s)); ("currentGuestId", to_value (rs_currentGuestId s))];
            of_value := fun v => roomNumber ← prop "roomNumber" v; type ← prop "type" v; floor ← prop "floor" v;
              pricePerNight ← prop "pricePerNight" v; status ← prop "status" v;
              currentBookingId ← prop "currentBookingId" v; currentGuestId ← prop "currentGuestId" v;
              Some {| rs_roomNumber := roomNumber; rs_type := type; rs_floor := floor; rs_pricePerNight := pricePerNight;
                      rs_status := status; rs_currentBookingId := currentBookingId; rs_currentGuestId := currentGuestId |} |}.
  read_record.
Defined.

Definition initialRoomState : RoomState :=
  {| rs_roomNumber := None; rs_type := None; rs_floor := 0; rs_pricePerNight := 0; rs_status := created;
     rs_currentBookingId := None; rs_currentGuestId := None |}.

(** ** The evolvers *)

Definition evolveRoomCreated (event : RoomCreatedPayload) (_ : RoomState) : RoomState :=
  {| rs_roomNumber := Some (rc_roomNumber event); rs_type := Some (rc_type event); rs_floor := rc_floor event;
     rs_pricePerNight := rc_pricePerNight event; rs_status := created; rs_currentBookingId := None; rs_currentGuestId := None |}.

(** [{ ...state, status, currentBookingId, currentGuestId }] *)
Definition with_occupancy (status : RoomStatus) (bookingId guestId : option string) (state : RoomState) : RoomState :=
  {| rs_roomNumber := rs_roomNumber state; rs_type := rs_type state; rs_floor := rs_floor state;
     rs_pricePerNight := rs_pricePerNight state; rs_status := status;
     rs_currentBookingId := bookingId; rs_currentGuestId := guestId |}.

Definition evolveRoomMadeAvailable (_ : RoomMadeAvailablePayload) (state : RoomState) : RoomState :=
  with_occupancy available None None state.

Definition evolveRoomReserved (event : RoomReservedPayload) (state : RoomState) : RoomState :=
  with_occupancy reserved (Some (rr_bookingId event)) (Some (rr_guestId event)) state.

Definition evolveGuestCheckedIn (_ : GuestCheckedInPayload) (state : RoomState) : RoomState :=
  with_occupancy occupied (rs_currentBookingId state) (rs_currentGuestId state) state.

Definition evolveGuestCheckedOut (_ : GuestCheckedOutPayload) (state : RoomState) : RoomState :=
  with_occupancy available None None state.

Definition evolveRoomUnderMaintenance (_ : RoomUnderMaintenancePayload) (state : RoomState) : RoomState :=
  with_occupancy maintenance None None state.

(** ** The deciders *)

Section aggregate.
Context {W : Type} (clock_now : M W Z).

Definition decideCreateRoom (roomId : ID) (payload : CreateRoomPayload) (state : RoomState) : M W RoomEvent :=
  match rs_roomNumber state with
  | Some _ => throw (PlainError "Room already created")
  | None => ret (RoomCreated {| rc_roomId := roomId; rc_roomNumber := cr_roomNumber payload; rc_type := cr_type payload;
                                rc_floor := cr_floor payload; rc_pricePerNight := cr_pricePerNight payload |})
  end.

Definition decideMakeRoomAvailable (roomId : ID) (_ : unit) (state : RoomState) : M W RoomEvent :=
  if decide (rs_status state = occupied) then throw (PlainError "Cannot make occupied room available")
  else ret (RoomMadeAvailable {| ra_roomId := roomId |}).

Definition decideReserveRoom (roomId : ID) (payload : ReserveRoomPayload) (state : RoomState) : M W RoomEvent :=
  if decide (rs_status state <> available)
  then throw (PlainError ("Cannot reserve room in " ++ room_status_text (rs_status state) ++ " status"))
  else ret (RoomReserved {| rr_roomId := roomId; rr_bookingId := rv_bookingId payload; rr_guestId := rv_guestId payload;
                            rr_checkIn := rv_checkIn payload; rr_checkOut := rv_checkOut payload |}).

Definition decideCheckInGuest (roomId : ID) (payload : CheckInGuestPayload) (state : RoomState) : M W RoomEvent :=
  if decide (rs_status state <> reserved)
  then throw (PlainError ("Cannot check in to room in " ++ room_status_text (rs_status state) ++ " status"))
  else if decide (rs_currentBookingId state <> Some (ci_bookingId payload))
  then throw (PlainError "Booking ID does not match reservation")
  else
    checkedInAt <- iso_now clock_now ;;
    ret (GuestCheckedIn {| gi_roomId := roomId; gi_bookingId := ci_bookingId payload; gi_guestId := ci_guestId payload;
                           gi_checkedInAt := checkedInAt |}).

Definition decideCheckOutGuest (roomId : ID) (payload : CheckOutGuestPayload) (state : RoomState) : M W RoomEvent :=
  if decide (rs_status state <> occupied)
  then throw (PlainError ("Cannot check out from room in " ++ room_status_text (rs_status state) ++ " status"))
  else
    checkedOutAt <- iso_now clock_now ;;
    ret (GuestCheckedOut {| go_roomId := roomId; go_bookingId := co_bookingId payload; go_guestId := co_guestId payload;
                            go_checkedOutAt := checkedOutAt |}).

Definition decidePutUnderMaintenance (roomId : ID) (payload : PutUnderMaintenancePayload) (state : RoomState) : M W RoomEvent :=
  if decide (rs_status state = occupied) then throw (PlainError "Cannot put occupied room under maintenance")
  else ret (RoomUnderMaintenance {| um_roomId := roomId; um_reason := pm_reason payload; um_estimatedUntil := pm_estimatedUntil payload |}).

Definition Room : Aggregate W :=
  {| ag_initialState := to_value initialRoomState;
     ag_decide := [("CreateRoom", decider room_event decideCreateRoom);
                   ("MakeRoomAvailable", decider room_event decideMakeRoomAvailable);
                   ("ReserveRoom", decider room_event decideReserveRoom);
                   ("CheckInGuest", decider room_event decideCheckInGuest);
                   ("CheckOutGuest", decider room_event decideCheckOutGuest);
                   ("PutUnderMaintenance", decider room_event decidePutUnderMaintenance)];
     ag_evolve := [("RoomCreated", evolver evolveRoomCreated);
                   ("RoomMadeAvailable", evolver evolveRoomMadeAvailable);
                   ("RoomReserved", evolver evolveRoomReserved);
                   ("GuestCheckedIn", evolver evolveGuestCheckedIn);
                   ("GuestCheckedOut", evolver evolveGuestCheckedOut);
                   ("RoomUnderMaintenance", evolver evolveRoomUnderMaintenance)];
     ag_upcasters := None |}.
End aggregate.

(** ** The dedicated table *)

(** The keys and the column names of [roomsTable]. *)
Definition roomsTable : TableColumns :=
  map (fun '(n, (key, name)) => (key, {| col_ref := n; col_name := Some name |}))
    (imap pair [("aggregateId", "aggregate_id"); ("version", "version"); ("roomNumber", "room_number"); ("type", "type");
      ("floor", "floor"); ("pricePerNight", "price_per_night"); ("status", "status");
      ("currentBookingId", "current_booking_id"); ("currentGuestId", "current_guest_id")]).

(** [createRoomStateMapper]; a table without the two framework columns has not the type. *)
Definition createRoomStateMapper (aggregateId version : Column) : DrizzleStateMapper :=
  {| dm_aggregateIdColumn := aggregateId;
     dm_versionColumn := version;
     dm_toRow := fun state =>
       let field k := (k, read_prop k state) in
       Ok [field "roomNumber"; field "type"; field "floor"; field "pricePerNight"; field "status";
           field "currentBookingId"; field "currentGuestId"];
     dm_fromRow := fun r =>
       let field k default := (k, coalesce (Sql.column k r) default) in
       Ok (VObj [field "roomNumber" VNull; field "type" VNull; field "floor" (VNum 0); field "pricePerNight" (VNum 0);
                 field "status" (VStr "created"); field "currentBookingId" VNull; field "currentGuestId" VNull]) |}.

Definition roomStateMapper : option DrizzleStateMapper :=
  aggregateId ← column_at roomsTable "aggregateId"; version ← column_at roomsTable "version";
  Some (createRoomStateMapper aggregateId version).

(** ** The projection [RoomAvailability] *)

Record RoomAvailabilityView : Type := {
  rv_roomId : ID;
  rv_roomNumber : string;
  rv_type : RoomType;
  rv_floor : Z;
  rv_pricePerNight : Z;
  rv_status : string;
  rv_currentGuestId : option string
}.

#[export] Instance RoomAvailabilityView_typed : Typed RoomAvailabilityView.
Proof.
  refine {| to_value := fun w => VObj [("roomId", to_value (rv_roomId w)); ("roomNumber", to_value (rv_roomNumber w)); ("type", to_value (rv_type w));
              ("floor", to_value (rv_floor w)); ("pricePerNight", to_value (rv_pricePerNight w)); ("status", to_value (rv_status w));
              ("currentGuestId", to_value (rv_currentGuestId w))];
            of_value := fun v => roomId ← prop "roomId" v; roomNumber ← prop "roomNumber" v; type ← prop "type" v;
              floor ← prop "floor" v; pricePerNight ← prop "pricePerNight" v; status ← prop "status" v; currentGuestId ← prop "currentGuestId" v;
              Some {| rv_roomId := roomId; rv_roomNumber := roomNumber; rv_type := type; rv_floor := floor;
                      rv_pricePerNight := pricePerNight; rv_status := status; rv_currentGuestId := currentGuestId |} |}.
  read_record.
Defined.

Definition initialRoomAvailabilityView : RoomAvailabilityView :=
  {| rv_roomId := IdStr EmptyString; rv_roomNumber := EmptyString; rv_type := single; rv_floor := 0; rv_pricePerNight := 0;
     rv_status := "created"; rv_currentGuestId := None |}.

(** [{ ...view, status, currentGuestId }] *)
Definition view_occupancy (status : string) (guestId : option string) (view : RoomAvailabilityView) : RoomAvailabilityView :=
  {| rv_roomId := rv_roomId view; rv_roomNumber := rv_roomNumber view; rv_type := rv_type view; rv_floor := rv_floor view;
     rv_pricePerNight := rv_pricePerNight view; rv_status := status; rv_currentGuestId := guestId |}.

Module RoomAvailability.

Definition onRoomCreated (p : RoomCreatedPayload) (_ : RoomAvailabilityView) : RoomAvailabilityView :=
  {| rv_roomId := rc_roomId p; rv_roomNumber := rc_roomNumber p; rv_type := rc_type p; rv_floor := rc_floor p;
     rv_pricePerNight := rc_pricePerNight p; rv_status := "created"; rv_currentGuestId := None |}.
Definition onRoomMadeAvailable (_ : RoomMadeAvailablePayload) : RoomAvailabilityView -> RoomAvailabilityView := view_occupancy "available" None.
Definition onRoomReserved (p : RoomReservedPayload) : RoomAvailabilityView -> RoomAvailabilityView := view_occupancy "reserved" (Some (rr_guestId p)).
Definition onGuestCheckedIn (p : GuestCheckedInPayload) : RoomAvailabilityView -> RoomAvailabilityView := view_occupancy "occupied" (Some (gi_guestId p)).
Definition onGuestCheckedOut (_ : GuestCheckedOutPayload) : RoomAvailabilityView -> RoomAvailabilityView := view_occupancy "available" None.
Definition onRoomUnderMaintenance (_ : RoomUnderMaintenancePayload) : RoomAvailabilityView -> RoomAvailabilityView := view_occupancy "maintenance" None.

(** [id: (event) => event.payload.roomId]: every event of a room has the field. *)
Definition room_id (e : event) : result ID :=
  match prop "roomId" (ev_payload e) with Some i => Ok i | None => Err ill_typed end.

Definition entry {W P} `{Typed P} (reduce : P -> RoomAvailabilityView -> RoomAvailabilityView) : ProjectionEventHandler W :=
  {| ph_id := Some room_id; ph_reduce := reducer reduce |}.
End RoomAvailability.

Definition RoomAvailabilityProjection {W} : Projection W :=
  {| pr_on := [("RoomCreated", RoomAvailability.entry RoomAvailability.onRoomCreated);
               ("RoomMadeAvailable", RoomAvailability.entry RoomAvailability.onRoomMadeAvailable);
               ("RoomReserved", RoomAvailability.entry RoomAvailability.onRoomReserved);
               ("GuestCheckedIn", RoomAvailability.entry RoomAvailability.onGuestCheckedIn);
               ("GuestCheckedOut", RoomAvailability.entry RoomAvailability.onGuestCheckedOut);
               ("RoomUnderMaintenance", RoomAvailability.entry RoomAvailability.onRoomUnderMaintenance)];
     pr_initialView := to_value initialRoomAvailabilityView;
     pr_consistency := Strong |}.

(** [!type] *)
Definition falsy (v : value) : bool :=
  match v with
  | VUndefined | VNull | VBool false => true
  | VNum n | VBig n => (n =? 0)%Z
  | VStr s => String.eqb s EmptyString
  | _ => false
  end.

(** [a === b] on texts *)
Definition same_text (a b : value) : bool := match a, b with VStr s, VStr t => String.eqb s t | _, _ => false end.

(** [InMemoryRoomAvailabilityViewStore.findAvailable]; [type] is [undefined], [null] or a text. *)
Definition findAvailable (type : value) : M Views.store (list value) :=
  Views.find (fun room => same_text (read_prop "status" room) (VStr "available") &&
                          (falsy type || same_text (read_prop "type" room) type)).

(** The query handlers of the projection, and the standalone one over the base store. *)
Definition handleGetRoomAvailability {W} (views : ViewStore W) (query : value) : M W value :=
  match prop "roomId" query with
  | Some roomId => view <- vs_load views roomId ;; ret (coalesce view VNull)
  | None => throw ill_typed
  end.
Definition handleListAvailableRooms {W} (views : lens W Views.store) (query : value) : M W value :=
  rooms <- zoom views (findAvailable (read_prop "type" query)) ;; ret (VArr rooms).
Definition SearchAvailableRoomsHandler {W} (roomAvailabilityViewStore : lens W Views.store) (query : value) : M W value :=
  rooms <- zoom roomAvailabilityViewStore (findAvailable (read_prop "type" query)) ;; ret (VArr rooms).

(** ** Facts *)

Definition room_evolve (e : RoomEvent) (s : RoomState) : RoomState :=
  match e with
  | RoomCreated p => evolveRoomCreated p s
  | RoomMadeAvailable p => evolveRoomMadeAvailable p s
  | RoomReserved p => evolveRoomReserved p s
  | GuestCheckedIn p => evolveGuestCheckedIn p s
  | GuestCheckedOut p => evolveGuestCheckedOut p s
  | RoomUnderMaintenance p => evolveRoomUnderMaintenance p s
  end.

Definition room_of (e : RoomEvent) : ID :=
  match e with
  | RoomCreated p => rc_roomId p
  | RoomMadeAvailable p => ra_roomId p
  | RoomReserved p => rr_roomId p
  | GuestCheckedIn p => gi_roomId p
  | GuestCheckedOut p => go_roomId p
  | RoomUnderMaintenance p => um_roomId p
  end.

(** The guards of the deciders. *)
Definition room_guard (s : RoomState) (e : RoomEvent) : Prop :=
  match e with
  | RoomCreated _ => rs_roomNumber s = None
  | RoomReserved _ => rs_status s = available
  | GuestCheckedIn p => rs_status s = reserved /\ rs_currentBookingId s = Some (gi_bookingId p)
  | GuestCheckedOut _ => rs_status s = occupied
  | RoomMadeAvailable _ | RoomUnderMaintenance _ => rs_status s <> occupied
  end.

Definition room_decides (c : command) (s : RoomState) (e : RoomEvent) : Prop := room_of e = target c /\ room_guard s e.

#[export] Instance Room_typed {W} (clock_now : M W Z) :
  TypedAggregate (Room clock_now) initialRoomState room_evolve room_event room_decides.
Proof.
  split; [done | |].
  - intros [p | p | p | p | p | p] s; typed_evolve.
  - intros handler c s w dec w'. cbn [Room ag_decide mget].
    repeat (destruct (String.eqb (cmd_name c) _);
      [intros [= <-] (p & e & _ & Hd & ->)%decider_inv; exists e; (split; [done |]) |]); [.. | done].
    + unfold decideCreateRoom in Hd. destruct (rs_roomNumber s) eqn:En; [done |]. by decided_by.
    + unfold decideMakeRoomAvailable in Hd. by decided_by.
    + unfold decideReserveRoom in Hd. by decided_by.
    + unfold decideCheckInGuest in Hd. by decided_by.
    + unfold decideCheckOutGuest in Hd. by decided_by.
    + unfold decidePutUnderMaintenance in Hd. by decided_by.
Qed.

Lemma Room_quiet {W} (stream : W -> string -> list event) snap (clock_now : M W Z) n handler :
  quiet stream snap clock_now -> mget n (ag_decide (Room clock_now)) = Some handler -> forall c s, quiet stream snap (handler c s).
Proof.
  intros Hclock. cbn [Room ag_decide mget].
  repeat (destruct (String.eqb n _); [intros [= <-] c s |]); [.. | done]; (apply decider_quiet; intros i p st);
    [unfold decideCreateRoom | unfold decideMakeRoomAvailable | unfold decideReserveRoom
    | unfold decideCheckInGuest | unfold decideCheckOutGuest | unfold decidePutUnderMaintenance];
    quiet_decider.
Qed.

(** ** The occupancy of a room, read off its events alone *)

Record stay : Type := { st_created : bool; st_holder : option string; st_inside : bool }.

Definition stay_step (s : stay) (e : RoomEvent) : stay :=
  match e with
  | RoomCreated _ => {| st_created := true; st_holder := None; st_inside := false |}
  | RoomReserved p => {| st_created := st_created s; st_holder := Some (rr_bookingId p); st_inside := false |}
  | GuestCheckedIn _ => {| st_created := st_created s; st_holder := st_holder s; st_inside := true |}
  | RoomMadeAvailable _ | GuestCheckedOut _ | RoomUnderMaintenance _ =>
      {| st_created := st_created s; st_holder := None; st_inside := false |}
  end.

Definition the_stay (h : list RoomEvent) : stay := foldl stay_step {| st_created := false; st_holder := None; st_inside := false |} h.

Lemma the_stay_snoc h e : the_stay (h ++ [e]) = stay_step (the_stay h) e.
Proof. unfold the_stay. by rewrite foldl_app. Qed.

(** What the state says of the occupancy. *)
Record occupancy (s : stay) (state : RoomState) : Prop := {
  oc_created : rs_roomNumber state = None <-> st_created s = false;
  oc_holder : rs_currentBookingId state = st_holder s;
  oc_inside : rs_status state = occupied <-> st_inside s = true;
  oc_free : rs_status state = available -> st_holder s = None
}.

Lemma room_occupancy h : occupancy (the_stay h) (state_after initialRoomState room_evolve h).
Proof.
  induction h as [| e h [Hc Hh Hi Hf]] using rev_ind; [by split |]. rewrite the_stay_snoc, state_after_snoc.
  by destruct e as [p | p | p | p | p | p]; split; cbn.
Qed.

(** What the rules of the house say of an event, after the events before it. *)
Definition room_lawful (before : list RoomEvent) (e : RoomEvent) : Prop :=
  let s := the_stay before in
  match e with
  | RoomCreated _ => st_created s = false
  | RoomReserved _ => st_holder s = None /\ st_inside s = false
  | GuestCheckedIn p => st_holder s = Some (gi_bookingId p) /\ st_inside s = false
  | GuestCheckedOut _ => st_inside s = true
  | RoomMadeAvailable _ | RoomUnderMaintenance _ => st_inside s = false
  end.

Lemma room_guard_lawful h e : room_guard (state_after initialRoomState room_evolve h) e -> room_lawful h e.
Proof.
  destruct (room_occupancy h) as [Hc Hh Hi Hf]. destruct e as [p | p | p | p | p | p]; cbn [room_guard room_lawful].
  - by intros ?%Hc.
  - intros Hn. destruct (st_inside (the_stay h)); [| done]. by destruct Hn, Hi as [_ ->].
  - intros Ha. split; [by apply Hf |]. destruct (st_inside (the_stay h)); [| done]. destruct Hi as [_ Hi]. rewrite Hi in Ha by done. done.
  - intros [Hr Hb]. split; [congruence |]. destruct (st_inside (the_stay h)); [| done]. destruct Hi as [_ Hi]. rewrite Hi in Hr by done. done.
  - by intros ?%Hi.
  - intros Hn. destruct (st_inside (the_stay h)); [| done]. by destruct Hn, Hi as [_ ->].
Qed.

Definition room_rules (i : ID) (h : list RoomEvent) : Prop :=
  every_step room_lawful h /\ Forall (fun e => string_of_ID (room_of e) = string_of_ID i) h.

Lemma room_keeps name : keeps_story name initialRoomState room_evolve room_decides (fun _ => True) room_rules.
Proof.
  split.
  - intros c h e _ [Hl Hr] [Hi Hg%room_guard_lawful]. split; [by apply every_step_snoc |].
    apply Forall_app_2; [done |]. constructor; [by rewrite Hi | constructor].
  - intros i j h E%composite_key_id [Hl Hr]. split; [done |]. by rewrite <- E.
Qed.

(** Between two reservations the room was given back. *)
Definition gives_back (e : RoomEvent) : bool :=
  match e with RoomReserved _ | GuestCheckedIn _ => false | _ => true end.

Lemma held_until h s : Forall (fun e => gives_back e = false) h -> st_holder s <> None -> st_holder (foldl stay_step s h) <> None.
Proof.
  revert s. induction h as [| e h IH]; intros s; [done |]. intros [He Hh]%Forall_cons Hs. cbn [foldl]. apply IH; [done |].
  by destruct e as [p | p | p | p | p | p].
Qed.

Lemma reserved_once h h1 p h2 q h3 :
  every_step room_lawful h -> h = (h1 ++ RoomReserved p :: h2 ++ RoomReserved q :: h3)%list ->
  exists e, e ∈ h2 /\ gives_back e = true.
Proof.
  intros Hl E. destruct (decide (Forall (fun e => gives_back e = false) h2)) as [Hf | Hn].
  - exfalso. rewrite app_comm_cons, app_assoc in E. destruct (Hl _ _ _ E) as [Hh _].
    unfold the_stay in Hh. rewrite foldl_app in Hh. revert Hh. cbn [foldl]. by apply held_until.
  - apply not_Forall_Exists in Hn; [| apply _]. apply Exists_exists in Hn as (e & He & Hb).
    exists e. split; [done |]. destruct (gives_back e) eqn:Eb; [done | by destruct Hb].
Qed.

(** ** The view follows the state *)

Definition room_view_step (e : RoomEvent) (v : RoomAvailabilityView) : RoomAvailabilityView :=
  match e with
  | RoomCreated p => RoomAvailability.onRoomCreated p v
  | RoomMadeAvailable p => RoomAvailability.onRoomMadeAvailable p v
  | RoomReserved p => RoomAvailability.onRoomReserved p v
  | GuestCheckedIn p => RoomAvailability.onGuestCheckedIn p v
  | GuestCheckedOut p => RoomAvailability.onGuestCheckedOut p v
  | RoomUnderMaintenance p => RoomAvailability.onRoomUnderMaintenance p v
  end.

#[export] Instance RoomAvailability_typed {W} :
  TypedProjection (W := W) RoomAvailabilityProjection initialRoomAvailabilityView room_view_step room_event.
Proof.
  split; [unfold wf; by apply (bool_decide_unpack _) | done | | | done].
  - intros h e x v s Hh [Hn Hp]. rewrite Hn in Hh.
    destruct x as [p | p | p | p | p | p]; cbn [room_event literal_event ev_payload] in Hp; cbn in Hh; injection Hh as <-;
      cbn [ph_reduce RoomAvailability.entry]; unfold reducer; rewrite Hp; unfold lift_result; by rewrite evolver_run.
  - by intros [p | p | p | p | p | p] v.
Qed.

Definition room_view (h : list RoomEvent) : RoomAvailabilityView := view_after room_view_step initialRoomAvailabilityView h.
Definition room_state (h : list RoomEvent) : RoomState := state_after initialRoomState room_evolve h.

(** What the view has in common with the state. *)
Record mirrors (i : ID) (h : list RoomEvent) (v : RoomAvailabilityView) (s : RoomState) : Prop := {
  mi_status : rv_status v = room_status_text (rs_status s);
  mi_room : st_created (the_stay h) = true -> string_of_ID (rv_roomId v) = string_of_ID i /\ rs_type s = Some (rv_type v) /\ rs_roomNumber s = Some (rv_roomNumber v)
}.

Lemma view_mirrors i h : Forall (fun e => string_of_ID (room_of e) = string_of_ID i) h -> mirrors i h (room_view h) (room_state h).
Proof.
  induction h as [| e h IH] using rev_ind; [by split |]. intros [Hh He]%Forall_app. apply Forall_inv in He.
  destruct (IH Hh) as [Hs Hr]. unfold room_view, room_state, view_after in *. rewrite foldl_app, state_after_snoc.
  cbn [foldl]. destruct e as [p | p | p | p | p | p]; split; rewrite ?the_stay_snoc; cbn; rewrite ?He; done.
Qed.

Lemma text_status s t : same_text (VStr (room_status_text s)) (VStr (room_status_text t)) = true -> s = t.
Proof. by destruct s, t. Qed.

(** The values that [findAvailable] selects. *)
Lemma findAvailable_run type st : findAvailable type st
  = (Ok (List.filter (fun room => same_text (read_prop "status" room) (VStr "available") &&
                          (falsy type || same_text (read_prop "type" room) type)) (mvalues st)), st).
Proof. done. Qed.

(** The property that [id] of the entries reads. *)
Lemma about_room {W} e i x : about (W := W) RoomAvailabilityProjection room_event e (i, x) -> room_of x = i.
Proof.
  intros [[Hn Hp] Hid]. cbn [fst snd] in *.
  assert (Hroom : prop "roomId" (ev_payload (room_event x)) = Some (room_of x)) by (by destruct x; apply prop_read).
  rewrite Hn in Hid.
  destruct x as [p | p | p | p | p | p]; destruct (Hid _ eq_refl) as (f & [= <-] & Hf);
    unfold RoomAvailability.room_id in Hf; rewrite Hp in Hf; rewrite Hroom in Hf; by injection Hf.
Qed.

(** ** Properties *)

Section rooms.
Context {W Tx : Type} (host : lens W Host) `{!LensLaws host} (P : EventSourcedPersistence W) (SN : SnapshotStore W)
  (stream : W -> string -> list event) (snap : W -> string -> option Snapshot) `{!StoresFrame host P SN stream snap}
  (provider : option MetadataContext) (strategy : SnapshotStrategy) (maxRetries : nat)
  (dispatch : event -> M (Exec W Tx) unit) (clock_now : M W Z).

Definition run_rooms (cs : list command) : M (Exec W Tx) unit :=
  engine_run host P SN provider strategy maxRetries dispatch "Room" (Room clock_now) cs.

End rooms.

Lemma view_status h : rv_status (room_view h) = room_status_text (rs_status (room_state h)).
Proof.
  unfold room_view, room_state, view_after, state_after. induction h as [| e h IH] using rev_ind; [done |].
  rewrite !foldl_app. cbn [foldl]. by destruct e.
Qed.

Lemma view_reservable h : same_text (VStr (rv_status (room_view h))) (VStr "available") = true <-> rs_status (room_state h) = available.
Proof. rewrite view_status. by destruct (rs_status (room_state h)). Qed.

Section search.
Context {W : Type} (views : lens W Views.store) `{!LensLaws views}.

(** A room of the asked type that can be reserved, as the view shows it. *)
Definition offered (type : value) (l : list (ID * RoomEvent)) (room : value) : Prop :=
  exists i, let h := of_view i l in
    room = to_value (room_view h) /\
    (falsy type || same_text (VStr (room_type_text (rv_type (room_view h)))) type) = true /\
    (st_created (the_stay h) = true -> string_of_ID (rv_roomId (room_view h)) = string_of_ID i /\ rs_type (room_state h) = Some (rv_type (room_view h))) /\
    forall (p : ReserveRoomPayload) (w : W), exists e, decideReserveRoom i p (room_state h) w = (Ok e, w).

Lemma reservable {W'} i p s (w : W') : rs_status s = available -> exists e, decideReserveRoom i p s w = (Ok e, w).
Proof. intros H. unfold decideReserveRoom. rewrite H. by eexists. Qed.

(** Every view of the store is the fold of the events about it. *)
Definition shows (l : list (ID * RoomEvent)) (s' : W) : Prop :=
  wf (lget views s') /\ forall i, current views RoomAvailabilityProjection i s' = to_value (room_view (of_view i l)).

Lemma of_view_rooms es l i : Forall2 (about (W := W) RoomAvailabilityProjection room_event) es l ->
  Forall (fun e => string_of_ID (room_of e) = string_of_ID i) (of_view i l).
Proof.
  intros Ha. unfold of_view. induction Ha as [| e [j x] es l Hx _ IH]; [constructor |]. cbn [List.filter fst].
  destruct (String.eqb_spec (string_of_ID j) (string_of_ID i)) as [E |]; [| done]. cbn [map snd].
  constructor; [| done]. by rewrite (about_room e j x Hx).
Qed.

Lemma selected_offered es l s' type room :
  Forall2 (about (W := W) RoomAvailabilityProjection room_event) es l -> shows l s' -> room ∈ mvalues (lget views s') ->
  same_text (read_prop "status" room) (VStr "available") && (falsy type || same_text (read_prop "type" room) type) = true ->
  offered type l room.
Proof.
  intros Ha [Hwf Hv] Hin [Hst Hty]%andb_true_iff. apply list_elem_of_fmap in Hin as ([k v] & -> & Hin). cbn [snd] in *.
  pose proof (view_stored views RoomAvailabilityProjection s' k v (elem_mget _ _ _ Hwf Hin) ltac:(by destruct v)) as Hcur.
  rewrite Hv in Hcur. exists (IdStr k). cbn zeta. set (h := of_view (IdStr k) l) in *. subst v. split; [done |].
  change (same_text (VStr (rv_status (room_view h))) (VStr "available") = true) in Hst. apply view_reservable in Hst.
  split; [exact Hty |]. split.
  - intros Hc. destruct (view_mirrors (IdStr k) h (of_view_rooms es l _ Ha)) as [_ Hm]. destruct (Hm Hc) as (H1 & H2 & _). by split.
  - intros p w. by apply reservable.
Qed.

Lemma stored_view l s' i : shows l s' -> rs_status (room_state (of_view i l)) = available ->
  to_value (room_view (of_view i l)) ∈ mvalues (lget views s').
Proof.
  intros [Hwf Hv] Hst. specialize (Hv i). unfold current in Hv. destruct (mget (string_of_ID i) (lget views s')) as [v |] eqn:E.
  - cbn [or_default] in Hv. unfold coalesce in Hv. destruct (nullish v) eqn:En.
    + exfalso. apply view_reservable in Hst. apply (f_equal of_value) in Hv. cbn [pr_initialView RoomAvailabilityProjection] in Hv.
      rewrite !of_to_value in Hv. injection Hv as Hv. by rewrite <- Hv in Hst.
    + subst v. apply list_elem_of_fmap. exists (string_of_ID i, to_value (room_view (of_view i l))). split; [done |]. by apply mget_Some_elem.
  - exfalso. apply view_reservable in Hst. apply (f_equal of_value) in Hv. cbn [or_default coalesce nullish pr_initialView RoomAvailabilityProjection] in Hv.
    rewrite !of_to_value in Hv. injection Hv as Hv. by rewrite <- Hv in Hst.
Qed.

(** C36. The search offers the rooms that can be reserved.  Let events of any rooms be delivered
    to the projection in any interleaving.  Then every room that the search returns is the
    view of a room whose aggregate accepts a reservation, of the type that was asked for, and
    with the identifier of that room when it was created; and every available room of
    that type is returned. *)
Theorem search_offers_reservable es l s type :
  Forall2 (about (W := W) RoomAvailabilityProjection room_event) es l -> lget views s = [] ->
  exists s' rooms, live views RoomAvailabilityProjection es s = (Ok tt, s') /\
    SearchAvailableRoomsHandler views (VObj [("type", type)]) s' = (Ok (VArr rooms), s') /\
    Forall (offered type l) rooms /\
    forall i, rs_status (room_state (of_view i l)) = available ->
      (falsy type || same_text (VStr (room_type_text (rv_type (room_view (of_view i l))))) type) = true ->
      to_value (room_view (of_view i l)) ∈ rooms.
Proof.
  intros Ha Hs.
  destruct (live_views_fresh views _ initialRoomAvailabilityView room_view_step room_event es l s Ha Hs) as (s' & H1 & Hv).
  eexists s', _. split; [exact H1 |]. unfold SearchAvailableRoomsHandler, zoom, bind. rewrite findAvailable_run.
  cbn [read_prop get_prop String.eqb or_default]. rewrite lset_lget. split; [reflexivity |]. split.
  - apply Forall_forall. intros room [Hin Hsel]%list_elem_of_In%List.filter_In. apply list_elem_of_In in Hin.
    by apply (selected_offered es l s' type room Ha Hv Hin).
  - intros i Hst Hty. apply list_elem_of_In, List.filter_In. split.
    + apply list_elem_of_In. by apply (stored_view l s').
    + apply andb_true_iff. split; [by apply view_reservable in Hst | exact Hty].
Qed.
End search.

(** The mapper of the dedicated table loses nothing: the row has one value for each column
    of the state, and the state is read back from it. *)
Lemma room_mapper_roundtrip mapper s : roomStateMapper = Some mapper ->
  exists row, dm_toRow mapper (to_value (A := RoomState) s) = Ok row /\ dm_fromRow mapper row = Ok (to_value s) /\
    map fst row = [ "roomNumber"; "type"; "floor"; "pricePerNight"; "status"; "currentBookingId"; "currentGuestId" ].
Proof.
  intros [= <-]. eexists. split; [reflexivity |]. split; [| done].
  destruct s as [[number |] [type |] floor price status [booking |] [guest |]]; reflexivity.
Qed.

(** The mapper names columns of its table, so the adapter accepts it. *)
Lemma room_table_accepted : exists mapper p, roomStateMapper = Some mapper /\ DrizzleDedicated.create roomsTable mapper = Ok p /\
  DrizzleDedicated.dp_idKey p = "aggregateId" /\ DrizzleDedicated.dp_versionKey p = "version".
Proof. eexists _, _. split; [reflexivity |]. split; [reflexivity |]. done. Qed.

(** ** Examples *)

Definition room_command {P} `{Typed P} (name : string) (payload : P) : command :=
  {| cmd_name := name; cmd_payload := to_value payload; cmd_commandId := None; cmd_targetAggregateId := Some (IdStr "room-101") |}.

Definition create_room : command :=
  room_command "CreateRoom" {| cr_roomNumber := "101"; cr_type := double; cr_floor := 1; cr_pricePerNight := 120 |}.
Definition reserve_room (booking guest : string) : command :=
  room_command "ReserveRoom" {| rv_bookingId := booking; rv_guestId := guest; rv_checkIn := "2026-05-01"; rv_checkOut := "2026-05-03" |}.
Definition check_in (booking guest : string) : command := room_command "CheckInGuest" {| ci_bookingId := booking; ci_guestId := guest |}.
Definition check_out (booking guest : string) : command := room_command "CheckOutGuest" {| co_bookingId := booking; co_guestId := guest |}.
Definition make_available : command := room_command "MakeRoomAvailable" tt.

Definition memory_clock : M World Z := zoom host_lens date_now.

Definition memory_rooms (cs : list command) : Exec World unit :=
  snd (run_rooms host_lens world_events world_snaps None (everyNEvents 2) 3 (fun e => world_op (log_dispatch e)) memory_clock cs start_exec).

Definition room_events (cs : list command) : list string := map ev_name (world_stream (ex_world (memory_rooms cs)) "Room:room-101").

(** The second booking of the same room is refused. *)
Example booked_once : room_events [create_room; make_available; reserve_room "b1" "alice"; reserve_room "b2" "bob"; check_in "b1" "alice"; check_out "b1" "alice"]
  = ["RoomCreated"; "RoomMadeAvailable"; "RoomReserved"; "GuestCheckedIn"; "GuestCheckedOut"].
Proof. vm_compute. reflexivity. Qed.

(** A check-out is not compared with the stay: bob ends the stay of alice. *)
Lemma checkout_of_another : room_events [create_room; make_available; reserve_room "b1" "alice"; check_in "b1" "alice"; check_out "b2" "bob"]
  = ["RoomCreated"; "RoomMadeAvailable"; "RoomReserved"; "GuestCheckedIn"; "GuestCheckedOut"].
Proof. vm_compute. reflexivity. Qed.

(** A room that was never created can be booked. *)
Lemma booked_without_creation : room_events [make_available; reserve_room "b1" "alice"] = ["RoomMadeAvailable"; "RoomReserved"].
Proof. vm_compute. reflexivity. Qed.

Lemma memory_clock_quiet : quiet world_stream world_snap memory_clock.
Proof. intros w r w'. unfold memory_clock, zoom. cbn. by intros [= _ <-]. Qed.


Definition two_rooms : list (ID * RoomEvent) :=
  [(IdStr "r1", RoomCreated {| rc_roomId := IdStr "r1"; rc_roomNumber := "101"; rc_type := double; rc_floor := 1; rc_pricePerNight := 120 |});
   (IdStr "r2", RoomCreated {| rc_roomId := IdStr "r2"; rc_roomNumber := "102"; rc_type := suite; rc_floor := 1; rc_pricePerNight := 300 |});
   (IdStr "r2", RoomMadeAvailable {| ra_roomId := IdStr "r2" |})].

Lemma two_rooms_about : Forall2 (about (W := Views.store) RoomAvailabilityProjection room_event) (map (fun ix => room_event (snd ix)) two_rooms) two_rooms.
Proof.
  repeat (constructor; [split; [by split | intros h [= <-]; eexists; split; reflexivity] |]). constructor.
Qed.

Definition whole_store : lens Views.store Views.store := Lens (fun s => s) (fun s _ => s).
#[export] Instance whole_store_laws : LensLaws whole_store. Proof. by split. Qed.

Lemma search_offers_reservable_witness :
  exists s' rooms, live whole_store RoomAvailabilityProjection (map (fun ix => room_event (snd ix)) two_rooms) [] = (Ok tt, s') /\
    SearchAvailableRoomsHandler whole_store (VObj [("type", VStr "suite")]) s' = (Ok (VArr rooms), s') /\
    Forall (offered (W := Views.store) (VStr "suite") two_rooms) rooms /\
    forall i, rs_status (room_state (of_view i two_rooms)) = available ->
      (falsy (VStr "suite") || same_text (VStr (room_type_text (rv_type (room_view (of_view i two_rooms))))) (VStr "suite")) = true ->
      to_value (room_view (of_view i two_rooms)) ∈ rooms.
Proof. apply (search_offers_reservable whole_store); [apply two_rooms_about | reflexivity]. Defined.
