(* ===== verification/SampleHotelBooking.v ===== *)
(** The bookings of the hotel ([samples/sample-hotel-booking/src/domain]): the aggregate
    [Booking], and the projections [GuestHistory] and [Revenue] over its events. *)
From S2P Require Import Prelude Text Json Wire JsMap CoreTypes Upcaster Host Stores Idempotency UnitOfWork Concurrency Metadata World CommandExecutor Frames CommandCorrect Projection Harness TypedDomain SampleHotelRooms.
Local Open Scope string_scope.

(** ** The event model; [guestId] of a payment is that of the state, which may be [null] *)

Record BookingCreatedPayload : Type := { bc_bookingId : ID; bc_guestId : string; bc_roomType : RoomType; bc_checkIn : string; bc_checkOut : string; bc_totalAmount : Z; bc_createdAt : string }.
Record BookingConfirmedPayload : Type := { bf_bookingId : ID; bf_roomId : ID; bf_confirmedAt : string }.
Record BookingCancelledPayload : Type := { bx_bookingId : ID; bx_reason : string; bx_cancelledAt : string }.
Record BookingModifiedPayload : Type := { bm_bookingId : ID; bm_newCheckIn : string; bm_newCheckOut : string; bm_newTotalAmount : Z; bm_modifiedAt : string }.
Record PaymentRequestedPayload : Type := { pr_bookingId : ID; pr_guestId : option string; pr_paymentId : string; pr_amount : Z }.
Record PaymentCompletedPayload : Type := { pc_bookingId : ID; pc_paymentId : string; pc_transactionId : string; pc_amount : Z; pc_completedAt : string }.
Record PaymentFailedPayload : Type := { pf_bookingId : ID; pf_paymentId : string; pf_reason : string }.
Record PaymentRefundedPayload : Type := { pd_bookingId : ID; pd_paymentId : string; pd_amount : Z; pd_refundedAt : string }.

#[export] Instance BookingCreatedPayload_typed : Typed BookingCreatedPayload.
Proof.
  refine {| to_value := fun p => VObj [("bookingId", to_value (bc_bookingId p)); ("guestId", to_value (bc_guestId p));
                                       ("roomType", to_value (bc_roomType p)); ("checkIn", to_value (bc_checkIn p));
                                       ("checkOut", to_value (bc_checkOut p)); ("totalAmount", to_value (bc_totalAmount p));
                                       ("createdAt", to_value (bc_createdAt p))];
            of_value := fun v =>
              bookingId ← prop "bookingId" v; guestId ← prop "guestId" v; roomType ← prop "roomType" v; checkIn ← prop "checkIn" v;
              checkOut ← prop "checkOut" v; totalAmount ← prop "totalAmount" v; createdAt ← prop "createdAt" v;
              Some {| bc_bookingId := bookingId; bc_guestId := guestId; bc_roomType := roomType; bc_checkIn := checkIn; bc_checkOut := checkOut;
                      bc_totalAmount := totalAmount; bc_createdAt := createdAt |} |}.
  read_record.
Defined.

#[export] Instance BookingConfirmedPayload_typed : Typed BookingConfirmedPayload.
Proof.
  refine {| to_value := fun p => VObj [("bookingId", to_value (bf_bookingId p)); ("roomId", to_value (bf_roomId p));
                                       ("confirmedAt", to_value (bf_confirmedAt p))];
            of_value := fun v =>
              bookingId ← prop "bookingId" v; roomId ← prop "roomId" v; confirmedAt ← prop "confirmedAt" v;
              Some {| bf_bookingId := bookingId; bf_roomId := roomId; bf_confirmedAt := confirmedAt |} |}.
  read_record.
Defined.

#[export] Instance BookingCancelledPayload_typed : Typed BookingCancelledPayload.
Proof.
  refine {| to_value := fun p => VObj [("bookingId", to_value (bx_bookingId p)); ("reason", to_value (bx_reason p));
                                       ("cancelledAt", to_value (bx_cancelledAt p))];
            of_value := fun v =>
              bookingId ← prop "bookingId" v; reason ← prop "reason" v; cancelledAt ← prop "cancelledAt" v;
              Some {| bx_bookingId := bookingId; bx_reason := reason; bx_cancelledAt := cancelledAt |} |}.
  read_record.
Defined.

#[export] Instance BookingModifiedPayload_typed : Typed BookingModifiedPayload.
Proof.
  refine {| to_value := fun p => VObj [("bookingId", to_value (bm_bookingId p)); ("newCheckIn", to_value (bm_newCheckIn p));
                                       ("newCheckOut", to_value (bm_newCheckOut p)); ("newTotalAmount", to_value (bm_newTotalAmount p));
                                       ("modifiedAt", to_value (bm_modifiedAt p))];
            of_value := fun v =>
              bookingId ← prop "bookingId" v; newCheckIn ← prop "newCheckIn" v; newCheckOut ← prop "newCheckOut" v;
              newTotalAmount ← prop "newTotalAmount" v; modifiedAt ← prop "modifiedAt" v;
              Some {| bm_bookingId := bookingId; bm_newCheckIn := newCheckIn; bm_newCheckOut := newCheckOut; bm_newTotalAmount := newTotalAmount;
                      bm_modifiedAt := modifiedAt |} |}.
  read_record.
Defined.

#[export] Instance PaymentRequestedPayload_typed : Typed PaymentRequestedPayload.
Proof.
  refine {| to_value := fun p => VObj [("bookingId", to_value (pr_bookingId p)); ("guestId", to_value (pr_guestId p));
                                       ("paymentId", to_value (pr_paymentId p)); ("amount", to_value (pr_amount p))];
            of_value := fun v =>
              bookingId ← prop "bookingId" v; guestId ← prop "guestId" v; paymentId ← prop "paymentId" v; amount ← prop "amount" v;
              Some {| pr_bookingId := bookingId; pr_guestId := guestId; pr_paymentId := paymentId; pr_amount := amount |} |}.
  read_record.
Defined.

#[export] Instance PaymentCompletedPayload_typed : Typed PaymentCompletedPayload.
Proof.
  refine {| to_value := fun p => VObj [("bookingId", to_value (pc_bookingId p)); ("paymentId", to_value (pc_paymentId p));
                                       ("transactionId", to_value (pc_transactionId p)); ("amount", to_value (pc_amount p));
                                       ("completedAt", to_value (pc_completedAt p))];
            of_value := fun v =>
              bookingId ← prop "bookingId" v; paymentId ← prop "paymentId" v; transactionId ← prop "transactionId" v; amount ← prop "amount" v;
              completedAt ← prop "completedAt" v;
              Some {| pc_bookingId := bookingId; pc_paymentId := paymentId; pc_transactionId := transactionId; pc_amount := amount;
                      pc_completedAt := completedAt |} |}.
  read_record.
Defined.

#[export] Instance PaymentFailedPayload_typed : Typed PaymentFailedPayload.
Proof.
  refine {| to_value := fun p => VObj [("bookingId", to_value (pf_bookingId p)); ("paymentId", to_value (pf_paymentId p));
                                       ("reason", to_value (pf_reason p))];
            of_value := fun v =>
              bookingId ← prop "bookingId" v; paymentId ← prop "paymentId" v; reason ← prop "reason" v;
              Some {| pf_bookingId := bookingId; pf_paymentId := paymentId; pf_reason := reason |} |}.
  read_record.
Defined.

#[export] Instance PaymentRefundedPayload_typed : Typed PaymentRefundedPayload.
Proof.
  refine {| to_value := fun p => VObj [("bookingId", to_value (pd_bookingId p)); ("paymentId", to_value (pd_paymentId p));
                                       ("amount", to_value (pd_amount p)); ("refundedAt", to_value (pd_refundedAt p))];
            of_value := fun v =>
              bookingId ← prop "bookingId" v; paymentId ← prop "paymentId" v; amount ← prop "amount" v; refundedAt ← prop "refundedAt" v;
              Some {| pd_bookingId := bookingId; pd_paymentId := paymentId; pd_amount := amount; pd_refundedAt := refundedAt |} |}.
  read_record.
Defined.

Inductive BookingEvent : Type :=
| BookingCreated (payload : BookingCreatedPayload)
| BookingConfirmed (payload : BookingConfirmedPayload)
| BookingCancelled (payload : BookingCancelledPayload)
| BookingModified (payload : BookingModifiedPayload)
| PaymentRequested (payload : PaymentRequestedPayload)
| PaymentCompleted (payload : PaymentCompletedPayload)
| PaymentFailed (payload : PaymentFailedPayload)
| PaymentRefunded (payload : PaymentRefundedPayload).

Definition booking_event (e : BookingEvent) : event :=
  match e with
  | BookingCreated p => literal_event "BookingCreated" p
  | BookingConfirmed p => literal_event "BookingConfirmed" p
  | BookingCancelled p => literal_event "BookingCancelled" p
  | BookingModified p => literal_event "BookingModified" p
  | PaymentRequested p => literal_event "PaymentRequested" p
  | PaymentCompleted p => literal_event "PaymentCompleted" p
  | PaymentFailed p => literal_event "PaymentFailed" p
  | PaymentRefunded p => literal_event "PaymentRefunded" p
  end.

(** ** The commands *)

Record CreateBookingPayload : Type := { xb_guestId : string; xb_roomType : RoomType; xb_checkIn : string; xb_checkOut : string; xb_totalAmount : Z }.
Record ConfirmBookingPayload : Type := { xc_roomId : ID }.
Record CancelBookingPayload : Type := { xx_reason : string }.
Record ModifyBookingPayload : Type := { xm_newCheckIn : string; xm_newCheckOut : string; xm_newTotalAmount : Z }.
Record RequestPaymentPayload : Type := { xr_paymentId : string; xr_amount : Z }.
Record CompletePaymentPayload : Type := { xp_paymentId : string; xp_transactionId : string; xp_amount : Z }.
Record FailPaymentPayload : Type := { xf_paymentId : string; xf_reason : string }.
Record RefundPaymentPayload : Type := { xd_paymentId : string; xd_amount : Z }.

#[export] Instance CreateBookingPayload_typed : Typed CreateBookingPayload.
Proof.
  refine {| to_value := fun p => VObj [("guestId", to_value (xb_guestId p)); ("roomType", to_value (xb_roomType p));
                                       ("checkIn", to_value (xb_checkIn p)); ("checkOut", to_value (xb_checkOut p));
                                       ("totalAmount", to_value (xb_totalAmount p))];
            of_value := fun v =>
              guestId ← prop "guestId" v; roomType ← prop "roomType" v; checkIn ← prop "checkIn" v; checkOut ← prop "checkOut" v;
              totalAmount ← prop "totalAmount" v;
              Some {| xb_guestId := guestId; xb_roomType := roomType; xb_checkIn := checkIn; xb_checkOut := checkOut; xb_totalAmount := totalAmount |} |}.
  read_record.
Defined.

#[export] Instance ConfirmBookingPayload_typed : Typed ConfirmBookingPayload.
Proof.
  refine {| to_value := fun p => VObj [("roomId", to_value (xc_roomId p))];
            of_value := fun v =>
              roomId ← prop "roomId" v;
              Some {| xc_roomId := roomId |} |}.
  read_record.
Defined.

#[export] Instance CancelBookingPayload_typed : Typed CancelBookingPayload.
Proof.
  refine {| to_value := fun p => VObj [("reason", to_value (xx_reason p))];
            of_value := fun v =>
              reason ← prop "reason" v;
              Some {| xx_reason := reason |} |}.
  read_record.
Defined.

#[export] Instance ModifyBookingPayload_typed : Typed ModifyBookingPayload.
Proof.
  refine {| to_value := fun p => VObj [("newCheckIn", to_value (xm_newCheckIn p)); ("newCheckOut", to_value (xm_newCheckOut p));
                                       ("newTotalAmount", to_value (xm_newTotalAmount p))];
            of_value := fun v =>
              newCheckIn ← prop "newCheckIn" v; newCheckOut ← prop "newCheckOut" v; newTotalAmount ← prop "newTotalAmount" v;
              Some {| xm_newCheckIn := newCheckIn; xm_newCheckOut := newCheckOut; xm_newTotalAmount := newTotalAmount |} |}.
  read_record.
Defined.

#[export] Instance RequestPaymentPayload_typed : Typed RequestPaymentPayload.
Proof.
  refine {| to_value := fun p => VObj [("paymentId", to_value (xr_paymentId p)); ("amount", to_value (xr_amount p))];
            of_value := fun v =>
              paymentId ← prop "paymentId" v; amount ← prop "amount" v;
              Some {| xr_paymentId := paymentId; xr_amount := amount |} |}.
  read_record.
Defined.

#[export] Instance CompletePaymentPayload_typed : Typed CompletePaymentPayload.
Proof.
  refine {| to_value := fun p => VObj [("paymentId", to_value (xp_paymentId p)); ("transactionId", to_value (xp_transactionId p));
                                       ("amount", to_value (xp_amount p))];
            of_value := fun v =>
              paymentId ← prop "paymentId" v; transactionId ← prop "transactionId" v; amount ← prop "amount" v;
              Some {| xp_paymentId := paymentId; xp_transactionId := transactionId; xp_amount := amount |} |}.
  read_record.
Defined.

#[export] Instance FailPaymentPayload_typed : Typed FailPaymentPayload.
Proof.
  refine {| to_value := fun p => VObj [("paymentId", to_value (xf_paymentId p)); ("reason", to_value (xf_reason p))];
            of_value := fun v =>
              paymentId ← prop "paymentId" v; reason ← prop "reason" v;
              Some {| xf_paymentId := paymentId; xf_reason := reason |} |}.
  read_record.
Defined.

#[export] Instance RefundPaymentPayload_typed : Typed RefundPaymentPayload.
Proof.
  refine {| to_value := fun p => VObj [("paymentId", to_value (xd_paymentId p)); ("amount", to_value (xd_amount p))];
            of_value := fun v =>
              paymentId ← prop "paymentId" v; amount ← prop "amount" v;
              Some {| xd_paymentId := paymentId; xd_amount := amount |} |}.
  read_record.
Defined.

(** ** The state *)

Inductive BookingStatus : Type := pending | awaiting_payment | confirmed | cancelled | modified.

#[export] Instance BookingStatus_eq_dec : EqDecision BookingStatus.
Proof. solve_decision. Defined.

Definition booking_status_text (s : BookingStatus) : string :=
  match s with pending => "pending" | awaiting_payment => "awaiting_payment" | confirmed => "confirmed"
             | cancelled => "cancelled" | modified => "modified" end.

#[export] Instance BookingStatus_typed : Typed BookingStatus.
Proof.
  refine {| to_value := fun s => VStr (booking_status_text s);
            of_value := fun v => match v with
              | VStr s => if String.eqb s "pending" then Some pending else if String.eqb s "awaiting_payment" then Some awaiting_payment
                          else if String.eqb s "confirmed" then Some confirmed else if String.eqb s "cancelled" then Some cancelled
                          else if String.eqb s "modified" then Some modified else None
              | _ => None end |}.
  by intros [].
Defined.

Record BookingState : Type := { bs_guestId : option string; bs_roomType : option RoomType; bs_checkIn : option string; bs_checkOut : option string; bs_totalAmount : Z; bs_status : BookingStatus; bs_roomId : option ID; bs_paymentId : option string; bs_transactionId : option string }.

#[export] Instance BookingState_typed : Typed BookingState.
Proof.
  refine {| to_value := fun p => VObj [("guestId", to_value (bs_guestId p)); ("roomType", to_value (bs_roomType p));
                                       ("checkIn", to_value (bs_checkIn p)); ("checkOut", to_value (bs_checkOut p));
                                       ("totalAmount", to_value (bs_totalAmount p)); ("status", to_value (bs_status p));
                                       ("roomId", to_value (bs_roomId p)); ("paymentId", to_value (bs_paymentId p));
                                       ("transactionId", to_value (bs_transactionId p))];
            of_value := fun v =>
              guestId ← prop "guestId" v; roomType ← prop "roomType" v; checkIn ← prop "checkIn" v; checkOut ← prop "checkOut" v;
              totalAmount ← prop "totalAmount" v; status ← prop "status" v; roomId ← prop "roomId" v; paymentId ← prop "paymentId" v;
              transactionId ← prop "transactionId" v;
              Some {| bs_guestId := guestId; bs_roomType := roomType; bs_checkIn := checkIn; bs_checkOut := checkOut; bs_totalAmount := totalAmount;
                      bs_status := status; bs_roomId := roomId; bs_paymentId := paymentId; bs_transactionId := transactionId |} |}.
  read_record.
Defined.

Definition initialBookingState : BookingState :=
  {| bs_guestId := None; bs_roomType := None; bs_checkIn := None; bs_checkOut := None; bs_totalAmount := 0;
     bs_status := pending; bs_roomId := None; bs_paymentId := None; bs_transactionId := None |}.

(** ** The evolvers *)

Definition evolveBookingCreated (event : BookingCreatedPayload) (_ : BookingState) : BookingState :=
  {| bs_guestId := Some (bc_guestId event); bs_roomType := Some (bc_roomType event); bs_checkIn := Some (bc_checkIn event);
     bs_checkOut := Some (bc_checkOut event); bs_totalAmount := bc_totalAmount event; bs_status := pending;
     bs_roomId := None; bs_paymentId := None; bs_transactionId := None |}.

Definition evolveBookingConfirmed (event : BookingConfirmedPayload) (state : BookingState) : BookingState :=
  {| bs_guestId := bs_guestId state; bs_roomType := bs_roomType state; bs_checkIn := bs_checkIn state;
     bs_checkOut := bs_checkOut state; bs_totalAmount := bs_totalAmount state; bs_status := confirmed;
     bs_roomId := Some (bf_roomId event); bs_paymentId := bs_paymentId state; bs_transactionId := bs_transactionId state |}.

Definition evolveBookingCancelled (_ : BookingCancelledPayload) (state : BookingState) : BookingState :=
  {| bs_guestId := bs_guestId state; bs_roomType := bs_roomType state; bs_checkIn := bs_checkIn state;
     bs_checkOut := bs_checkOut state; bs_totalAmount := bs_totalAmount state; bs_status := cancelled;
     bs_roomId := bs_roomId state; bs_paymentId := bs_paymentId state; bs_transactionId := bs_transactionId state |}.

Definition evolveBookingModified (event : BookingModifiedPayload) (state : BookingState) : BookingState :=
  {| bs_guestId := bs_guestId state; bs_roomType := bs_roomType state; bs_checkIn := Some (bm_newCheckIn event);
     bs_checkOut := Some (bm_newCheckOut event); bs_totalAmount := bm_newTotalAmount event; bs_status := bs_status state;
     bs_roomId := bs_roomId state; bs_paymentId := bs_paymentId state; bs_transactionId := bs_transactionId state |}.

Definition evolvePaymentRequested (event : PaymentRequestedPayload) (state : BookingState) : BookingState :=
  {| bs_guestId := bs_guestId state; bs_roomType := bs_roomType state; bs_checkIn := bs_checkIn state;
     bs_checkOut := bs_checkOut state; bs_totalAmount := bs_totalAmount state; bs_status := awaiting_payment;
     bs_roomId := bs_roomId state; bs_paymentId := Some (pr_paymentId event); bs_transactionId := bs_transactionId state |}.

Definition evolvePaymentCompleted (event : PaymentCompletedPayload) (state : BookingState) : BookingState :=
  {| bs_guestId := bs_guestId state; bs_roomType := bs_roomType state; bs_checkIn := bs_checkIn state;
     bs_checkOut := bs_checkOut state; bs_totalAmount := bs_totalAmount state; bs_status := bs_status state;
     bs_roomId := bs_roomId state; bs_paymentId := bs_paymentId state; bs_transactionId := Some (pc_transactionId event) |}.

Definition evolvePaymentFailed (_ : PaymentFailedPayload) (state : BookingState) : BookingState :=
  {| bs_guestId := bs_guestId state; bs_roomType := bs_roomType state; bs_checkIn := bs_checkIn state;
     bs_checkOut := bs_checkOut state; bs_totalAmount := bs_totalAmount state; bs_status := pending; bs_roomId := bs_roomId state;
     bs_paymentId := None; bs_transactionId := bs_transactionId state |}.

Definition evolvePaymentRefunded (_ : PaymentRefundedPayload) (state : BookingState) : BookingState :=
  {| bs_guestId := bs_guestId state; bs_roomType := bs_roomType state; bs_checkIn := bs_checkIn state;
     bs_checkOut := bs_checkOut state; bs_totalAmount := bs_totalAmount state; bs_status := bs_status state;
     bs_roomId := bs_roomId state; bs_paymentId := bs_paymentId state; bs_transactionId := None |}.

(** ** The deciders *)

Section aggregate.
Context {W : Type} (clock_now : M W Z).

Definition decideCreateBooking (bookingId : ID) (payload : CreateBookingPayload) (state : BookingState) : M W BookingEvent :=
  if decide (bs_guestId state <> None) then throw (PlainError "Booking already created")
  else
    createdAt <- iso_now clock_now ;;
    ret (BookingCreated {| bc_bookingId := bookingId; bc_guestId := xb_guestId payload; bc_roomType := xb_roomType payload;
      bc_checkIn := xb_checkIn payload; bc_checkOut := xb_checkOut payload; bc_totalAmount := xb_totalAmount payload;
      bc_createdAt := createdAt |}).

Definition decideConfirmBooking (bookingId : ID) (payload : ConfirmBookingPayload) (state : BookingState) : M W BookingEvent :=
  if decide (bs_status state <> awaiting_payment /\ bs_status state <> pending)
  then throw (PlainError ("Cannot confirm booking in " ++ booking_status_text (bs_status state) ++ " status"))
  else
    confirmedAt <- iso_now clock_now ;;
    ret (BookingConfirmed {| bf_bookingId := bookingId; bf_roomId := xc_roomId payload; bf_confirmedAt := confirmedAt |}).

Definition decideCancelBooking (bookingId : ID) (payload : CancelBookingPayload) (state : BookingState) : M W BookingEvent :=
  if decide (bs_status state = cancelled) then throw (PlainError "Booking already cancelled")
  else
    cancelledAt <- iso_now clock_now ;;
    ret (BookingCancelled {| bx_bookingId := bookingId; bx_reason := xx_reason payload; bx_cancelledAt := cancelledAt |}).

Definition decideModifyBooking (bookingId : ID) (payload : ModifyBookingPayload) (state : BookingState) : M W BookingEvent :=
  if decide (bs_status state = cancelled) then throw (PlainError "Cannot modify cancelled booking")
  else
    modifiedAt <- iso_now clock_now ;;
    ret (BookingModified {| bm_bookingId := bookingId; bm_newCheckIn := xm_newCheckIn payload; bm_newCheckOut := xm_newCheckOut payload;
      bm_newTotalAmount := xm_newTotalAmount payload; bm_modifiedAt := modifiedAt |}).

Definition decideRequestPayment (bookingId : ID) (payload : RequestPaymentPayload) (state : BookingState) : M W BookingEvent :=
  if decide (bs_status state <> pending)
  then throw (PlainError ("Cannot request payment in " ++ booking_status_text (bs_status state) ++ " status"))
  else
    ret (PaymentRequested {| pr_bookingId := bookingId; pr_guestId := bs_guestId state; pr_paymentId := xr_paymentId payload;
      pr_amount := xr_amount payload |}).

Definition decideCompletePayment (bookingId : ID) (payload : CompletePaymentPayload) (state : BookingState) : M W BookingEvent :=
  if decide (bs_status state <> awaiting_payment)
  then throw (PlainError ("Cannot complete payment in " ++ booking_status_text (bs_status state) ++ " status"))
  else
    completedAt <- iso_now clock_now ;;
    ret (PaymentCompleted {| pc_bookingId := bookingId; pc_paymentId := xp_paymentId payload; pc_transactionId := xp_transactionId payload;
      pc_amount := xp_amount payload; pc_completedAt := completedAt |}).

Definition decideFailPayment (bookingId : ID) (payload : FailPaymentPayload) (state : BookingState) : M W BookingEvent :=
  if decide (bs_status state <> awaiting_payment)
  then throw (PlainError ("Cannot fail payment in " ++ booking_status_text (bs_status state) ++ " status"))
  else
    ret (PaymentFailed {| pf_bookingId := bookingId; pf_paymentId := xf_paymentId payload; pf_reason := xf_reason payload |}).

Definition decideRefundPayment (bookingId : ID) (payload : RefundPaymentPayload) (state : BookingState) : M W BookingEvent :=
  if decide (bs_transactionId state = None) then throw (PlainError "No payment to refund")
  else
    refundedAt <- iso_now clock_now ;;
    ret (PaymentRefunded {| pd_bookingId := bookingId; pd_paymentId := xd_paymentId payload; pd_amount := xd_amount payload; pd_refundedAt := refundedAt |}).

Definition Booking : Aggregate W :=
  {| ag_initialState := to_value initialBookingState;
     ag_decide := [("CreateBooking", decider booking_event decideCreateBooking);
                   ("ConfirmBooking", decider booking_event decideConfirmBooking);
                   ("CancelBooking", decider booking_event decideCancelBooking);
                   ("ModifyBooking", decider booking_event decideModifyBooking);
                   ("RequestPayment", decider booking_event decideRequestPayment);
                   ("CompletePayment", decider booking_event decideCompletePayment);
                   ("FailPayment", decider booking_event decideFailPayment);
                   ("RefundPayment", decider booking_event decideRefundPayment)];
     ag_evolve := [("BookingCreated", evolver evolveBookingCreated);
                   ("BookingConfirmed", evolver evolveBookingConfirmed);
                   ("BookingCancelled", evolver evolveBookingCancelled);
                   ("BookingModified", evolver evolveBookingModified);
                   ("PaymentRequested", evolver evolvePaymentRequested);
                   ("PaymentCompleted", evolver evolvePaymentCompleted);
                   ("PaymentFailed", evolver evolvePaymentFailed);
                   ("PaymentRefunded", evolver evolvePaymentRefunded)];
     ag_upcasters := None |}.
End aggregate.

(** ** The projection [GuestHistory] *)

Record GuestBooking : Type := { gb_bookingId : ID; gb_roomType : RoomType; gb_checkIn : string; gb_checkOut : string; gb_status : string }.
Record GuestHistoryView : Type := { gh_guestId : string; gh_bookings : list GuestBooking }.

#[export] Instance GuestBooking_typed : Typed GuestBooking.
Proof.
  refine {| to_value := fun p => VObj [("bookingId", to_value (gb_bookingId p)); ("roomType", to_value (gb_roomType p));
                                       ("checkIn", to_value (gb_checkIn p)); ("checkOut", to_value (gb_checkOut p));
                                       ("status", to_value (gb_status p))];
            of_value := fun v =>
              bookingId ← prop "bookingId" v; roomType ← prop "roomType" v; checkIn ← prop "checkIn" v; checkOut ← prop "checkOut" v;
              status ← prop "status" v;
              Some {| gb_bookingId := bookingId; gb_roomType := roomType; gb_checkIn := checkIn; gb_checkOut := checkOut; gb_status := status |} |}.
  read_record.
Defined.

#[export] Instance GuestHistoryView_typed : Typed GuestHistoryView.
Proof.
  refine {| to_value := fun p => VObj [("guestId", to_value (gh_guestId p)); ("bookings", to_value (gh_bookings p))];
            of_value := fun v =>
              guestId ← prop "guestId" v; bookings ← prop "bookings" v;
              Some {| gh_guestId := guestId; gh_bookings := bookings |} |}.
  read_record.
Defined.

Module GuestHistory.

Definition initialView : GuestHistoryView := {| gh_guestId := EmptyString; gh_bookings := [] |}.

Definition onBookingCreated (p : BookingCreatedPayload) (view : GuestHistoryView) : GuestHistoryView :=
  {| gh_guestId := bc_guestId p;
     gh_bookings := (gh_bookings view ++
       [{| gb_bookingId := bc_bookingId p; gb_roomType := bc_roomType p; gb_checkIn := bc_checkIn p; gb_checkOut := bc_checkOut p;
           gb_status := "pending" |}])%list |}.

(** [id: (event) => event.payload.guestId] *)
Definition guest_id (e : event) : result ID :=
  match prop "guestId" (ev_payload e) with Some guestId => Ok (IdStr guestId) | None => Err ill_typed end.
End GuestHistory.

Definition GuestHistoryProjection {W} : Projection W :=
  {| pr_on := [("BookingCreated", {| ph_id := Some GuestHistory.guest_id; ph_reduce := reducer GuestHistory.onBookingCreated |})];
     pr_initialView := to_value GuestHistory.initialView;
     pr_consistency := Eventual |}.

Definition handleGetGuestHistory {W} (views : ViewStore W) (query : value) : M W value :=
  match prop "guestId" query with
  | Some guestId => view <- vs_load views (IdStr guestId) ;; ret (coalesce view VNull)
  | None => throw ill_typed
  end.

(** ** The projection [Revenue] *)

Record RevenueView : Type := { re_date : string; re_totalRevenue : Z; re_bookingCount : Z }.

#[export] Instance RevenueView_typed : Typed RevenueView.
Proof.
  refine {| to_value := fun p => VObj [("date", to_value (re_date p)); ("totalRevenue", to_value (re_totalRevenue p));
                                       ("bookingCount", to_value (re_bookingCount p))];
            of_value := fun v =>
              date ← prop "date" v; totalRevenue ← prop "totalRevenue" v; bookingCount ← prop "bookingCount" v;
              Some {| re_date := date; re_totalRevenue := totalRevenue; re_bookingCount := bookingCount |} |}.
  read_record.
Defined.

Module Revenue.

Definition initialView : RevenueView := {| re_date := EmptyString; re_totalRevenue := 0; re_bookingCount := 0 |}.

(** [text.split("T")[0]] *)
Fixpoint before_T (s : string) : string :=
  match s with
  | EmptyString => EmptyString
  | String c s' => if Ascii.eqb c (chr 84) then EmptyString else String c (before_T s')
  end.

Definition onPaymentCompleted (p : PaymentCompletedPayload) (view : RevenueView) : RevenueView :=
  {| re_date := before_T (pc_completedAt p); re_totalRevenue := re_totalRevenue view + pc_amount p;
     re_bookingCount := re_bookingCount view + 1 |}.

(** [id: (event) => event.payload.completedAt.split("T")[0]!] *)
Definition day (e : event) : result ID :=
  match prop "completedAt" (ev_payload e) with Some completedAt => Ok (IdStr (before_T completedAt)) | None => Err ill_typed end.
End Revenue.

Definition RevenueProjection {W} : Projection W :=
  {| pr_on := [("PaymentCompleted", {| ph_id := Some Revenue.day; ph_reduce := reducer Revenue.onPaymentCompleted |})];
     pr_initialView := to_value Revenue.initialView;
     pr_consistency := Eventual |}.

Definition handleGetDailyRevenue {W} (views : ViewStore W) (query : value) : M W value :=
  match prop "date" query with
  | Some date => view <- vs_load views (IdStr date) ;; ret (coalesce view VNull)
  | None => throw ill_typed
  end.

(** ** Facts *)

Definition booking_evolve (e : BookingEvent) (s : BookingState) : BookingState :=
  match e with
  | BookingCreated p => evolveBookingCreated p s
  | BookingConfirmed p => evolveBookingConfirmed p s
  | BookingCancelled p => evolveBookingCancelled p s
  | BookingModified p => evolveBookingModified p s
  | PaymentRequested p => evolvePaymentRequested p s
  | PaymentCompleted p => evolvePaymentCompleted p s
  | PaymentFailed p => evolvePaymentFailed p s
  | PaymentRefunded p => evolvePaymentRefunded p s
  end.

Definition booking_of (e : BookingEvent) : ID :=
  match e with
  | BookingCreated p => bc_bookingId p
  | BookingConfirmed p => bf_bookingId p
  | BookingCancelled p => bx_bookingId p
  | BookingModified p => bm_bookingId p
  | PaymentRequested p => pr_bookingId p
  | PaymentCompleted p => pc_bookingId p
  | PaymentFailed p => pf_bookingId p
  | PaymentRefunded p => pd_bookingId p
  end.

(** The guards of the deciders; a payment is requested in the name of the guest. *)
Definition booking_guard (s : BookingState) (e : BookingEvent) : Prop :=
  match e with
  | BookingCreated _ => bs_guestId s = None
  | BookingConfirmed _ => bs_status s = awaiting_payment \/ bs_status s = pending
  | BookingCancelled _ | BookingModified _ => bs_status s <> cancelled
  | PaymentRequested p => bs_status s = pending /\ pr_guestId p = bs_guestId s
  | PaymentCompleted _ | PaymentFailed _ => bs_status s = awaiting_payment
  | PaymentRefunded _ => bs_transactionId s <> None
  end.

Definition booking_decides (c : command) (s : BookingState) (e : BookingEvent) : Prop := booking_of e = target c /\ booking_guard s e.

Lemma not_both_not (s : BookingStatus) : ~ (s <> awaiting_payment /\ s <> pending) -> s = awaiting_payment \/ s = pending.
Proof. destruct s; intros H; auto; by destruct H. Qed.

#[export] Instance Booking_typed {W} (clock_now : M W Z) :
  TypedAggregate (Booking clock_now) initialBookingState booking_evolve booking_event booking_decides.
Proof.
  split; [done | |].
  - intros [p | p | p | p | p | p | p | p] s; typed_evolve.
  - intros handler c s w dec w'. cbn [Booking ag_decide mget].
    repeat (destruct (String.eqb (cmd_name c) _);
      [intros [= <-] (p & e & _ & Hd & ->)%decider_inv; exists e; (split; [done |]) |]); [.. | done].
    + unfold decideCreateBooking in Hd. by decided_by.
    + unfold decideConfirmBooking in Hd. decided_by. split; [done |]. by apply not_both_not.
    + unfold decideCancelBooking in Hd. by decided_by.
    + unfold decideModifyBooking in Hd. by decided_by.
    + unfold decideRequestPayment in Hd. by decided_by.
    + unfold decideCompletePayment in Hd. by decided_by.
    + unfold decideFailPayment in Hd. by decided_by.
    + unfold decideRefundPayment in Hd. by decided_by.
Qed.

Lemma Booking_quiet {W} (stream : W -> string -> list event) snap (clock_now : M W Z) n handler :
  quiet stream snap clock_now -> mget n (ag_decide (Booking clock_now)) = Some handler -> forall c s, quiet stream snap (handler c s).
Proof.
  intros Hclock. cbn [Booking ag_decide mget].
  repeat (destruct (String.eqb n _); [intros [= <-] c s |]); [.. | done]; (apply decider_quiet; intros i p st);
    [unfold decideCreateBooking | unfold decideConfirmBooking | unfold decideCancelBooking | unfold decideModifyBooking
    | unfold decideRequestPayment | unfold decideCompletePayment | unfold decideFailPayment | unfold decideRefundPayment];
    quiet_decider.
Qed.

(** ** The life of a booking, read off its events alone *)

Record life : Type := { lf_created : bool; lf_phase : BookingStatus; lf_payments : nat; lf_refunds : nat }.

Definition in_phase (l : life) (phase : BookingStatus) : life :=
  {| lf_created := lf_created l; lf_phase := phase; lf_payments := lf_payments l; lf_refunds := lf_refunds l |}.

Definition life_step (l : life) (e : BookingEvent) : life :=
  match e with
  | BookingCreated _ => {| lf_created := true; lf_phase := pending; lf_payments := lf_payments l; lf_refunds := lf_refunds l |}
  | BookingConfirmed _ => in_phase l confirmed
  | BookingCancelled _ => in_phase l cancelled
  | BookingModified _ => l
  | PaymentRequested _ => in_phase l awaiting_payment
  | PaymentCompleted _ => {| lf_created := lf_created l; lf_phase := lf_phase l; lf_payments := S (lf_payments l); lf_refunds := lf_refunds l |}
  | PaymentFailed _ => in_phase l pending
  | PaymentRefunded _ => {| lf_created := lf_created l; lf_phase := lf_phase l; lf_payments := lf_payments l; lf_refunds := S (lf_refunds l) |}
  end.

Definition the_life (h : list BookingEvent) : life :=
  foldl life_step {| lf_created := false; lf_phase := pending; lf_payments := 0; lf_refunds := 0 |} h.

Lemma the_life_snoc h e : the_life (h ++ [e]) = life_step (the_life h) e.
Proof. unfold the_life. by rewrite foldl_app. Qed.

(** What the rules of the house say of an event, after the events before it. *)
Definition booking_lawful (before : list BookingEvent) (e : BookingEvent) : Prop :=
  let l := the_life before in
  match e with
  | BookingCreated _ => lf_created l = false
  | BookingConfirmed _ => lf_phase l = awaiting_payment \/ lf_phase l = pending
  | BookingCancelled _ | BookingModified _ => lf_phase l <> cancelled
  | PaymentRequested _ => lf_phase l = pending
  | PaymentCompleted _ | PaymentFailed _ => lf_phase l = awaiting_payment
  | PaymentRefunded _ => lf_refunds l < lf_payments l
  end.

Definition booking_state (h : list BookingEvent) : BookingState := state_after initialBookingState booking_evolve h.

(** The state tells the life. *)
Record lives (l : life) (s : BookingState) : Prop := {
  lv_created : bs_guestId s = None <-> lf_created l = false;
  lv_phase : bs_status s = lf_phase l;
  lv_paid : bs_transactionId s <> None -> lf_refunds l < lf_payments l;
  lv_balance : lf_refunds l <= lf_payments l
}.

Lemma booking_lives h : every_step booking_lawful h -> lives (the_life h) (booking_state h).
Proof.
  induction h as [| e h IH] using rev_ind; [split; cbn; try done; lia |]. intros [Hl He]%every_step_inv.
  destruct (IH Hl) as [Hc Hp Ht Hb]. unfold booking_state. rewrite state_after_snoc. fold (booking_state h).
  destruct e as [p | p | p | p | p | p | p | p]; split; rewrite the_life_snoc; cbn in He |- *; try done; try lia; try (by intros ?%Ht; lia).
Qed.

Lemma booking_guard_lawful h e : every_step booking_lawful h -> booking_guard (booking_state h) e -> booking_lawful h e.
Proof.
  intros Hl. destruct (booking_lives h Hl) as [Hc Hp Ht Hb].
  destruct e as [p | p | p | p | p | p | p | p]; cbn [booking_guard booking_lawful]; rewrite <- ?Hp; try done.
  - by intros ?%Hc.
  - by intros [? _].
Qed.

Definition booking_rules (i : ID) (h : list BookingEvent) : Prop :=
  every_step booking_lawful h /\ Forall (fun e => string_of_ID (booking_of e) = string_of_ID i) h.

Lemma booking_keeps name : keeps_story name initialBookingState booking_evolve booking_decides (fun _ => True) booking_rules.
Proof.
  split.
  - intros c h e _ [Hl Hr] [Hi Hg%booking_guard_lawful]; [| done]. split; [by apply every_step_snoc |].
    apply Forall_app_2; [done |]. constructor; [by rewrite Hi | constructor].
  - intros i j h E%composite_key_id [Hl Hr]. split; [done |]. by rewrite <- E.
Qed.

(** What may follow a confirmation, and a cancellation. *)
Definition after_confirmation (e : BookingEvent) : bool :=
  match e with BookingModified _ | BookingCancelled _ | PaymentRefunded _ => true | _ => false end.
Definition after_cancellation (e : BookingEvent) : bool :=
  match e with PaymentRefunded _ => true | _ => false end.

(** The events of a phase from which the booking does not come back. *)
Lemma stays_in (phases : BookingStatus -> Prop) (allowed : BookingEvent -> bool) h1 h2 :
  (forall before e, booking_lawful before e -> lf_created (the_life before) = true -> phases (lf_phase (the_life before)) ->
     allowed e = true /\ phases (lf_phase (the_life (before ++ [e]))) /\ lf_created (the_life (before ++ [e])) = true) ->
  every_step booking_lawful (h1 ++ h2) -> lf_created (the_life h1) = true -> phases (lf_phase (the_life h1)) ->
  Forall (fun e => allowed e = true) h2.
Proof.
  intros Hstep. revert h1. induction h2 as [| e h2 IH]; intros h1 Hl Hc Hp; [constructor |].
  destruct (Hstep h1 e (Hl h1 e h2 eq_refl) Hc Hp) as (Ha & Hp' & Hc'). constructor; [done |].
  apply (IH (h1 ++ [e])%list); [by rewrite <- app_assoc | done | done].
Qed.

Lemma cancelled_final h1 p h2 : every_step booking_lawful (h1 ++ BookingCancelled p :: h2) -> lf_created (the_life h1) = true ->
  Forall (fun e => after_cancellation e = true) h2.
Proof.
  intros Hl Hc. apply (stays_in (fun phase => phase = cancelled) after_cancellation (h1 ++ [BookingCancelled p])%list).
  - intros before e He Hc' Hp. rewrite the_life_snoc. destruct e as [q | q | q | q | q | q | q | q]; cbn in He |- *;
      rewrite ?Hp in He; try done; try (by destruct He); congruence.
  - by rewrite <- app_assoc.
  - by rewrite the_life_snoc.
  - by rewrite the_life_snoc.
Qed.

Lemma confirmed_once h1 p h2 : every_step booking_lawful (h1 ++ BookingConfirmed p :: h2) -> lf_created (the_life h1) = true ->
  Forall (fun e => after_confirmation e = true) h2.
Proof.
  intros Hl Hc. apply (stays_in (fun phase => phase = confirmed \/ phase = cancelled) after_confirmation (h1 ++ [BookingConfirmed p])%list).
  - intros before e He Hc' Hp. rewrite the_life_snoc. destruct e as [q | q | q | q | q | q | q | q]; cbn in He |- *;
      try done; try (by split; [| split; [auto |]]); destruct Hp as [Hp | Hp]; rewrite ?Hp in He; try done; try (by destruct He); congruence.
  - by rewrite <- app_assoc.
  - by rewrite the_life_snoc.
  - rewrite the_life_snoc. by left.
Qed.

(** ** The projections as functions of the history *)

Definition revenue_step (e : BookingEvent) (v : RevenueView) : RevenueView :=
  match e with PaymentCompleted p => Revenue.onPaymentCompleted p v | _ => v end.
Definition guest_step (e : BookingEvent) (v : GuestHistoryView) : GuestHistoryView :=
  match e with BookingCreated p => GuestHistory.onBookingCreated p v | _ => v end.

#[export] Instance Revenue_typed {W} : TypedProjection (W := W) RevenueProjection Revenue.initialView revenue_step booking_event.
Proof.
  split; [unfold wf; by apply (bool_decide_unpack _) | done | | | done].
  - intros h e x v s Hh [Hn Hp]. rewrite Hn in Hh.
    destruct x as [p | p | p | p | p | p | p | p]; cbn [booking_event literal_event ev_payload] in Hp; cbn in Hh; try done; injection Hh as <-.
    cbn [ph_reduce]. unfold reducer. rewrite Hp. unfold lift_result. by rewrite evolver_run.
  - by intros [p | p | p | p | p | p | p | p] v.
Qed.

#[export] Instance GuestHistory_typed {W} : TypedProjection (W := W) GuestHistoryProjection GuestHistory.initialView guest_step booking_event.
Proof.
  split; [unfold wf; by apply (bool_decide_unpack _) | done | | | done].
  - intros h e x v s Hh [Hn Hp]. rewrite Hn in Hh.
    destruct x as [p | p | p | p | p | p | p | p]; cbn [booking_event literal_event ev_payload] in Hp; cbn in Hh; try done; injection Hh as <-.
    cbn [ph_reduce]. unfold reducer. rewrite Hp. unfold lift_result. by rewrite evolver_run.
  - by intros [p | p | p | p | p | p | p | p] v.
Qed.

(** The view that an event is about: the day of a payment, the guest of a booking. *)
Definition with_day (e : BookingEvent) : ID * BookingEvent :=
  (IdStr match e with PaymentCompleted p => Revenue.before_T (pc_completedAt p) | _ => EmptyString end, e).
Definition with_guest (e : BookingEvent) : ID * BookingEvent :=
  (IdStr match e with BookingCreated p => bc_guestId p | _ => EmptyString end, e).

Lemma about_day {W} es h : Forall2 (carries booking_event) es h -> Forall2 (about (W := W) RevenueProjection booking_event) es (map with_day h).
Proof.
  induction 1 as [| e x es h Hc _ IH]; cbn [map]; constructor; [| done]. split; [done |]. destruct Hc as [Hn Hp].
  intros hd Hh. rewrite Hn in Hh. destruct x as [p | p | p | p | p | p | p | p]; cbn in Hh; try done; injection Hh as <-.
  eexists. split; [reflexivity |]. unfold Revenue.day. rewrite Hp. cbn [booking_event literal_event ev_payload].
  by rewrite (prop_read _ _ (pc_completedAt p)).
Qed.

Lemma about_guest {W} es h : Forall2 (carries booking_event) es h -> Forall2 (about (W := W) GuestHistoryProjection booking_event) es (map with_guest h).
Proof.
  induction 1 as [| e x es h Hc _ IH]; cbn [map]; constructor; [| done]. split; [done |]. destruct Hc as [Hn Hp].
  intros hd Hh. rewrite Hn in Hh. destruct x as [p | p | p | p | p | p | p | p]; cbn in Hh; try done; injection Hh as <-.
  eexists. split; [reflexivity |]. unfold GuestHistory.guest_id. rewrite Hp. cbn [booking_event literal_event ev_payload].
  by rewrite (prop_read _ _ (bc_guestId p)).
Qed.

(** The payments that were completed on a day. *)
Definition payments_on (date : string) (h : list BookingEvent) : list PaymentCompletedPayload :=
  omap (fun e => match e with
                 | PaymentCompleted p => if String.eqb (Revenue.before_T (pc_completedAt p)) date then Some p else None
                 | _ => None
                 end) h.

Definition sum_of (ps : list PaymentCompletedPayload) : Z := foldr (fun p n => pc_amount p + n)%Z 0%Z ps.

(** What a revenue view says of payments. *)
Definition revenue_of (date : string) (ps : list PaymentCompletedPayload) : RevenueView :=
  match ps with
  | [] => Revenue.initialView
  | _ => {| re_date := date; re_totalRevenue := sum_of ps; re_bookingCount := Z.of_nat (length ps) |}
  end.

Lemma revenue_fold date h : forall v,
  view_after revenue_step v (of_view (IdStr date) (map with_day h))
  = match payments_on date h with
    | [] => v
    | ps => {| re_date := date; re_totalRevenue := re_totalRevenue v + sum_of ps; re_bookingCount := re_bookingCount v + Z.of_nat (length ps) |}
    end.
Proof.
  induction h as [| e h IH]; intros v; [done |]. unfold of_view, payments_on, view_after in *. cbn [map List.filter fst with_day].
  destruct e as [p | p | p | p | p | p | p | p]; cbn [string_of_ID omap list_omap].
  6: { destruct (String.eqb_spec (Revenue.before_T (pc_completedAt p)) date) as [<- | Hne]; [| apply IH].
       cbn [map snd foldl revenue_step]. rewrite IH.
       destruct (omap _ h) as [| q qs]; cbn [with_day snd revenue_step]; unfold Revenue.onPaymentCompleted;
         cbn [re_date re_totalRevenue re_bookingCount sum_of foldr length]; rewrite ?Nat2Z.inj_succ; f_equal; unfold sum_of; cbn [foldr]; lia. }
  all: destruct (String.eqb EmptyString date); [cbn [map snd foldl revenue_step] |]; apply IH.
Qed.

(** ** Properties *)

Section bookings.
Context {W Tx : Type} (host : lens W Host) `{!LensLaws host} (P : EventSourcedPersistence W) (SN : SnapshotStore W)
  (stream : W -> string -> list event) (snap : W -> string -> option Snapshot) `{!StoresFrame host P SN stream snap}
  (provider : option MetadataContext) (strategy : SnapshotStrategy) (maxRetries : nat)
  (dispatch : event -> M (Exec W Tx) unit) (clock_now : M W Z).

Definition run_bookings (cs : list command) : M (Exec W Tx) unit :=
  engine_run host P SN provider strategy maxRetries dispatch "Booking" (Booking clock_now) cs.

(** C38. The life of a booking.  Let any commands arrive in any order, on any bookings; some may
    fail, be retried, or be loaded through snapshots.  Then every event of the history of a
    booking was lawful when it was stored, and the state tells the life; at every moment
    at most as many payments were refunded as were completed, and strictly fewer when the
    state has a transaction; after the confirmation of a created booking it can only be
    modified, cancelled or refunded, and after its cancellation only refunded. *)
Theorem booking_life cs s :
  (forall e s r s', dispatch e s = (r, s') -> ex_uow s' = ex_uow s /\ same_obs stream snap (ex_world s) (ex_world s')) ->
  quiet stream snap clock_now ->
  ex_uow s = None -> (forall k, stream (ex_world s) k = [] /\ snap (ex_world s) k = None) ->
  forall i, exists h,
    Forall2 (carries booking_event) (stream (ex_world (snd (run_bookings cs s))) (composite_key "Booking" i)) h /\
    replay (Booking clock_now) (stream (ex_world (snd (run_bookings cs s))) (composite_key "Booking" i)) (ag_initialState (Booking clock_now))
    = Ok (to_value (booking_state h)) /\
    lives (the_life h) (booking_state h) /\ every_step booking_lawful h /\
    (forall h1 p h2, h = (h1 ++ BookingConfirmed p :: h2)%list -> lf_created (the_life h1) = true -> Forall (fun e => after_confirmation e = true) h2) /\
    (forall h1 p h2, h = (h1 ++ BookingCancelled p :: h2)%list -> lf_created (the_life h1) = true -> Forall (fun e => after_cancellation e = true) h2).
Proof.
  intros Hd Hclock Hn He i.
  destruct (engine_run_stories host P SN stream snap provider strategy maxRetries dispatch "Booking" (Booking clock_now)
    initialBookingState booking_evolve booking_event booking_decides _ _ cs s (booking_keeps _))
    with (i := i) as (h & [Hl Hh] & Hc & Hr); [| by apply Forall_true | split; [apply every_step_nil | constructor] | done | done |].
  - split; [| exact Hd]. split; [| done | done]. intros n handler Hm. by apply (Booking_quiet stream snap clock_now n).
  - exists h. split; [exact Hc |]. split; [exact Hr |]. split; [by apply booking_lives |]. split; [done |].
    split; intros h1 p h2 ->; [exact (confirmed_once h1 p h2 Hl) | exact (cancelled_final h1 p h2 Hl)].
Qed.
End bookings.

(** However the events of all bookings are interleaved, the revenue of a day is the sum of the
    payments that were completed on it, and their number. *)
Lemma revenue_by_day {W} (views : lens W Views.store) `{!LensLaws views} es h s :
  Forall2 (carries booking_event) es h -> lget views s = [] ->
  exists s', live views RevenueProjection es s = (Ok tt, s') /\
    forall date, current views RevenueProjection (IdStr date) s' = to_value (revenue_of date (payments_on date h)).
Proof.
  intros Hc Hs. destruct (live_views_fresh views RevenueProjection Revenue.initialView revenue_step booking_event es (map with_day h) s
    (about_day es h Hc) Hs) as (s' & H1 & _ & H2).
  exists s'. split; [done |]. intros date. rewrite H2, revenue_fold. unfold revenue_of. by destruct (payments_on date h).
Qed.

(** The bookings of a guest, in the order of their creation. *)
Definition bookings_by (guest : string) (h : list BookingEvent) : list GuestBooking :=
  omap (fun e => match e with
                 | BookingCreated p => if String.eqb (bc_guestId p) guest
                     then Some {| gb_bookingId := bc_bookingId p; gb_roomType := bc_roomType p; gb_checkIn := bc_checkIn p;
                                  gb_checkOut := bc_checkOut p; gb_status := "pending" |}
                     else None
                 | _ => None
                 end) h.

Lemma guest_fold guest h : forall v,
  gh_bookings (view_after guest_step v (of_view (IdStr guest) (map with_guest h))) = (gh_bookings v ++ bookings_by guest h)%list.
Proof.
  induction h as [| e h IH]; intros v; [by rewrite app_nil_r |]. unfold of_view, bookings_by, view_after in *. cbn [map List.filter fst with_guest].
  destruct e as [p | p | p | p | p | p | p | p]; cbn [string_of_ID omap list_omap].
  1: { destruct (String.eqb_spec (bc_guestId p) guest) as [<- | Hne]; [| apply IH].
       cbn [map snd foldl guest_step]. rewrite IH. cbn [with_guest snd guest_step]. unfold GuestHistory.onBookingCreated. cbn [gh_bookings]. by rewrite <- app_assoc. }
  all: destruct (String.eqb EmptyString guest); [cbn [map snd foldl guest_step] |]; apply IH.
Qed.

Lemma history_of_guest {W} (views : lens W Views.store) `{!LensLaws views} es h s :
  Forall2 (carries booking_event) es h -> lget views s = [] ->
  exists s', live views GuestHistoryProjection es s = (Ok tt, s') /\
    forall guest, exists v, current views GuestHistoryProjection (IdStr guest) s' = to_value v /\ gh_bookings v = bookings_by guest h.
Proof.
  intros Hc Hs. destruct (live_views_fresh views GuestHistoryProjection GuestHistory.initialView guest_step booking_event es (map with_guest h) s
    (about_guest es h Hc) Hs) as (s' & H1 & _ & H2).
  exists s'. split; [done |]. intros guest. eexists. split; [apply H2 |]. by rewrite guest_fold.
Qed.

(** ** Examples *)

Definition booking_command {P} `{Typed P} (name : string) (payload : P) : command :=
  {| cmd_name := name; cmd_payload := to_value payload; cmd_commandId := None; cmd_targetAggregateId := Some (IdStr "b1") |}.

Definition create_booking : command := booking_command "CreateBooking"
  {| xb_guestId := "alice"; xb_roomType := double; xb_checkIn := "2026-05-01"; xb_checkOut := "2026-05-03"; xb_totalAmount := 240 |}.
Definition request_payment : command := booking_command "RequestPayment" {| xr_paymentId := "pay-1"; xr_amount := 240 |}.
Definition complete_payment (txn : string) : command :=
  booking_command "CompletePayment" {| xp_paymentId := "pay-1"; xp_transactionId := txn; xp_amount := 240 |}.
Definition confirm_booking : command := booking_command "ConfirmBooking" {| xc_roomId := IdStr "room-101" |}.
Definition cancel_booking : command := booking_command "CancelBooking" {| xx_reason := "plans changed" |}.
Definition refund_payment : command := booking_command "RefundPayment" {| xd_paymentId := "pay-1"; xd_amount := 240 |}.

Definition memory_bookings (cs : list command) : Exec World unit :=
  snd (run_bookings host_lens world_events world_snaps None (everyNEvents 2) 3 (fun e => world_op (log_dispatch e)) memory_clock cs start_exec).
Definition booking_events (cs : list command) : list string := map ev_name (world_stream (ex_world (memory_bookings cs)) "Booking:b1").

Definition a_stay : list command :=
  [create_booking; request_payment; complete_payment "txn-1"; confirm_booking; confirm_booking; cancel_booking; refund_payment; refund_payment; create_booking].

Example a_life : booking_events a_stay
  = ["BookingCreated"; "PaymentRequested"; "PaymentCompleted"; "BookingConfirmed"; "BookingCancelled"; "PaymentRefunded"].
Proof. vm_compute. reflexivity. Qed.

(** A payment is completed as often as it is asked for, until the booking is confirmed: the
    event leaves the status at [awaiting_payment]. *)
Lemma paid_twice : booking_events [create_booking; request_payment; complete_payment "txn-1"; complete_payment "txn-2"]
  = ["BookingCreated"; "PaymentRequested"; "PaymentCompleted"; "PaymentCompleted"].
Proof. vm_compute. reflexivity. Qed.

(** A booking that nobody has created is confirmed. *)
Lemma confirmed_without_creation : booking_events [confirm_booking] = ["BookingConfirmed"].
Proof. vm_compute. reflexivity. Qed.

Lemma booking_life_witness : exists h,
    Forall2 (carries booking_event) (world_stream (ex_world (memory_bookings a_stay)) (composite_key "Booking" (IdStr "b1"))) h /\
    replay (Booking memory_clock) (world_stream (ex_world (memory_bookings a_stay)) (composite_key "Booking" (IdStr "b1"))) (ag_initialState (Booking memory_clock))
    = Ok (to_value (booking_state h)) /\
    lives (the_life h) (booking_state h) /\ every_step booking_lawful h /\
    (forall h1 p h2, h = (h1 ++ BookingConfirmed p :: h2)%list -> lf_created (the_life h1) = true -> Forall (fun e => after_confirmation e = true) h2) /\
    (forall h1 p h2, h = (h1 ++ BookingCancelled p :: h2)%list -> lf_created (the_life h1) = true -> Forall (fun e => after_cancellation e = true) h2).
Proof.
  unfold memory_bookings.
  apply (booking_life host_lens world_events world_snaps world_stream world_snap None (everyNEvents 2) 3
    (fun e => world_op (log_dispatch e)) memory_clock a_stay start_exec).
  - intros e s r s'. unfold world_op, zoom. cbn. by intros [= _ <-].
  - apply memory_clock_quiet.
  - reflexivity.
  - by split.
Defined.
