(* ===== verification/SampleHotelInventory.v ===== *)
(** The inventory of the hotel ([samples/sample-hotel-booking/src/domain]): the aggregate that
    counts the rooms of each type and how many of them are available. *)
From S2P Require Import Prelude Text Json Wire JsMap CoreTypes Upcaster Host Stores Idempotency UnitOfWork Concurrency Metadata World CommandExecutor Frames CommandCorrect TypedDomain SampleHotelRooms.
Local Open Scope string_scope.

(** ** The state: [Record<RoomType, { total, available }>] has an entry for every room type *)

Record RoomCount : Type := { ct_total : Z; ct_available : Z }.
Record RoomCounts : Type := { rn_single : RoomCount; rn_double : RoomCount; rn_suite : RoomCount }.
Record InventoryState : Type := { iv_initialized : bool; iv_roomCounts : RoomCounts }.

#[export] Instance RoomCount_typed : Typed RoomCount.
Proof.
  refine {| to_value := fun p => VObj [("total", to_value (ct_total p)); ("available", to_value (ct_available p))];
            of_value := fun v =>
              total ← prop "total" v; available ← prop "available" v;
              Some {| ct_total := total; ct_available := available |} |}.
  read_record.
Defined.

#[export] Instance RoomCounts_typed : Typed RoomCounts.
Proof.
  refine {| to_value := fun p => VObj [("single", to_value (rn_single p)); ("double", to_value (rn_double p)); ("suite", to_value (rn_suite p))];
            of_value := fun v =>
              single ← prop "single" v; double ← prop "double" v; suite ← prop "suite" v;
              Some {| rn_single := single; rn_double := double; rn_suite := suite |} |}.
  read_record.
Defined.

#[export] Instance InventoryState_typed : Typed InventoryState.
Proof.
  refine {| to_value := fun p => VObj [("initialized", to_value (iv_initialized p)); ("roomCounts", to_value (iv_roomCounts p))];
            of_value := fun v =>
              initialized ← prop "initialized" v; roomCounts ← prop "roomCounts" v;
              Some {| iv_initialized := initialized; iv_roomCounts := roomCounts |} |}.
  read_record.
Defined.

Definition defaultRoomCounts : RoomCounts :=
  {| rn_single := {| ct_total := 0; ct_available := 0 |}; rn_double := {| ct_total := 0; ct_available := 0 |};
     rn_suite := {| ct_total := 0; ct_available := 0 |} |}.

Definition initialInventoryState : InventoryState := {| iv_initialized := false; iv_roomCounts := defaultRoomCounts |}.

(** [roomCounts[roomType]], and [{ ...roomCounts, [roomType]: count }] *)
Definition count_of (t : RoomType) (counts : RoomCounts) : RoomCount :=
  match t with single => rn_single counts | double => rn_double counts | suite => rn_suite counts end.
Definition with_count (t : RoomType) (count : RoomCount) (counts : RoomCounts) : RoomCounts :=
  match t with
  | single => {| rn_single := count; rn_double := rn_double counts; rn_suite := rn_suite counts |}
  | double => {| rn_single := rn_single counts; rn_double := count; rn_suite := rn_suite counts |}
  | suite => {| rn_single := rn_single counts; rn_double := rn_double counts; rn_suite := count |}
  end.

(** ** The event model and the commands *)

Record InventoryInitializedPayload : Type := { ii_inventoryId : ID; ii_roomCounts : RoomCounts }.
Record RoomTypeCountUpdatedPayload : Type := { iu_inventoryId : ID; iu_roomType : RoomType; iu_total : Z; iu_available : Z }.
Record AvailabilityDecrementedPayload : Type := { id_inventoryId : ID; id_roomType : RoomType; id_newAvailable : Z }.
Record AvailabilityIncrementedPayload : Type := { ic_inventoryId : ID; ic_roomType : RoomType; ic_newAvailable : Z }.
Record InitializeInventoryPayload : Type := { yi_roomCounts : RoomCounts }.
Record UpdateRoomTypeCountPayload : Type := { yu_roomType : RoomType; yu_total : Z; yu_available : Z }.
Record DecrementAvailabilityPayload : Type := { yd_roomType : RoomType }.
Record IncrementAvailabilityPayload : Type := { yc_roomType : RoomType }.

#[export] Instance InventoryInitializedPayload_typed : Typed InventoryInitializedPayload.
Proof.
  refine {| to_value := fun p => VObj [("inventoryId", to_value (ii_inventoryId p)); ("roomCounts", to_value (ii_roomCounts p))];
            of_value := fun v =>
              inventoryId ← prop "inventoryId" v; roomCounts ← prop "roomCounts" v;
              Some {| ii_inventoryId := inventoryId; ii_roomCounts := roomCounts |} |}.
  read_record.
Defined.

#[export] Instance RoomTypeCountUpdatedPayload_typed : Typed RoomTypeCountUpdatedPayload.
Proof.
  refine {| to_value := fun p => VObj [("inventoryId", to_value (iu_inventoryId p)); ("roomType", to_value (iu_roomType p));
                                       ("total", to_value (iu_total p)); ("available", to_value (iu_available p))];
            of_value := fun v =>
              inventoryId ← prop "inventoryId" v; roomType ← prop "roomType" v; total ← prop "total" v; available ← prop "available" v;
              Some {| iu_inventoryId := inventoryId; iu_roomType := roomType; iu_total := total; iu_available := available |} |}.
  read_record.
Defined.

#[export] Instance AvailabilityDecrementedPayload_typed : Typed AvailabilityDecrementedPayload.
Proof.
  refine {| to_value := fun p => VObj [("inventoryId", to_value (id_inventoryId p)); ("roomType", to_value (id_roomType p));
                                       ("newAvailable", to_value (id_newAvailable p))];
            of_value := fun v =>
              inventoryId ← prop "inventoryId" v; roomType ← prop "roomType" v; newAvailable ← prop "newAvailable" v;
              Some {| id_inventoryId := inventoryId; id_roomType := roomType; id_newAvailable := newAvailable |} |}.
  read_record.
Defined.

#[export] Instance AvailabilityIncrementedPayload_typed : Typed AvailabilityIncrementedPayload.
Proof.
  refine {| to_value := fun p => VObj [("inventoryId", to_value (ic_inventoryId p)); ("roomType", to_value (ic_roomType p));
                                       ("newAvailable", to_value (ic_newAvailable p))];
            of_value := fun v =>
              inventoryId ← prop "inventoryId" v; roomType ← prop "roomType" v; newAvailable ← prop "newAvailable" v;
              Some {| ic_inventoryId := inventoryId; ic_roomType := roomType; ic_newAvailable := newAvailable |} |}.
  read_record.
Defined.

#[export] Instance InitializeInventoryPayload_typed : Typed InitializeInventoryPayload.
Proof.
  refine {| to_value := fun p => VObj [("roomCounts", to_value (yi_roomCounts p))];
            of_value := fun v =>
              roomCounts ← prop "roomCounts" v;
              Some {| yi_roomCounts := roomCounts |} |}.
  read_record.
Defined.

#[export] Instance UpdateRoomTypeCountPayload_typed : Typed UpdateRoomTypeCountPayload.
Proof.
  refine {| to_value := fun p => VObj [("roomType", to_value (yu_roomType p)); ("total", to_value (yu_total p));
                                       ("available", to_value (yu_available p))];
            of_value := fun v =>
              roomType ← prop "roomType" v; total ← prop "total" v; available ← prop "available" v;
              Some {| yu_roomType := roomType; yu_total := total; yu_available := available |} |}.
  read_record.
Defined.

#[export] Instance DecrementAvailabilityPayload_typed : Typed DecrementAvailabilityPayload.
Proof.
  refine {| to_value := fun p => VObj [("roomType", to_value (yd_roomType p))];
            of_value := fun v =>
              roomType ← prop "roomType" v;
              Some {| yd_roomType := roomType |} |}.
  read_record.
Defined.

#[export] Instance IncrementAvailabilityPayload_typed : Typed IncrementAvailabilityPayload.
Proof.
  refine {| to_value := fun p => VObj [("roomType", to_value (yc_roomType p))];
            of_value := fun v =>
              roomType ← prop "roomType" v;
              Some {| yc_roomType := roomType |} |}.
  read_record.
Defined.

Inductive InventoryEvent : Type :=
| InventoryInitialized (payload : InventoryInitializedPayload)
| RoomTypeCountUpdated (payload : RoomTypeCountUpdatedPayload)
| AvailabilityDecremented (payload : AvailabilityDecrementedPayload)
| AvailabilityIncremented (payload : AvailabilityIncrementedPayload).

Definition inventory_event (e : InventoryEvent) : event :=
  match e with
  | InventoryInitialized p => literal_event "InventoryInitialized" p
  | RoomTypeCountUpdated p => literal_event "RoomTypeCountUpdated" p
  | AvailabilityDecremented p => literal_event "AvailabilityDecremented" p
  | AvailabilityIncremented p => literal_event "AvailabilityIncremented" p
  end.

(** ** The evolvers *)

Definition evolveInventoryInitialized (event : InventoryInitializedPayload) (_ : InventoryState) : InventoryState :=
  {| iv_initialized := true; iv_roomCounts := ii_roomCounts event |}.
Definition evolveRoomTypeCountUpdated (event : RoomTypeCountUpdatedPayload) (state : InventoryState) : InventoryState :=
  {| iv_initialized := iv_initialized state;
     iv_roomCounts := with_count (iu_roomType event) {| ct_total := iu_total event; ct_available := iu_available event |} (iv_roomCounts state) |}.
(** [{ ...state.roomCounts[roomType], available }] *)
Definition with_available (t : RoomType) (n : Z) (counts : RoomCounts) : RoomCounts :=
  with_count t {| ct_total := ct_total (count_of t counts); ct_available := n |} counts.
Definition evolveAvailabilityDecremented (event : AvailabilityDecrementedPayload) (state : InventoryState) : InventoryState :=
  {| iv_initialized := iv_initialized state; iv_roomCounts := with_available (id_roomType event) (id_newAvailable event) (iv_roomCounts state) |}.
Definition evolveAvailabilityIncremented (event : AvailabilityIncrementedPayload) (state : InventoryState) : InventoryState :=
  {| iv_initialized := iv_initialized state; iv_roomCounts := with_available (ic_roomType event) (ic_newAvailable event) (iv_roomCounts state) |}.

(** ** The deciders; [!current] is never the case *)

Section aggregate.
Context {W : Type}.

Definition decideInitializeInventory (inventoryId : ID) (payload : InitializeInventoryPayload) (state : InventoryState) : M W InventoryEvent :=
  if iv_initialized state then throw (PlainError "Inventory already initialized") else
  ret (InventoryInitialized {| ii_inventoryId := inventoryId; ii_roomCounts := yi_roomCounts payload |}).

Definition decideUpdateRoomTypeCount (inventoryId : ID) (payload : UpdateRoomTypeCountPayload) (state : InventoryState) : M W InventoryEvent :=
  if negb (iv_initialized state) then throw (PlainError "Inventory not initialized") else
  ret (RoomTypeCountUpdated {| iu_inventoryId := inventoryId; iu_roomType := yu_roomType payload;
                               iu_total := yu_total payload; iu_available := yu_available payload |}).

Definition decideDecrementAvailability (inventoryId : ID) (payload : DecrementAvailabilityPayload) (state : InventoryState) : M W InventoryEvent :=
  if negb (iv_initialized state) then throw (PlainError "Inventory not initialized") else
  let current := count_of (yd_roomType payload) (iv_roomCounts state) in
  if (ct_available current <=? 0)%Z then throw (PlainError ("No " ++ room_type_text (yd_roomType payload) ++ " rooms available")) else
  ret (AvailabilityDecremented {| id_inventoryId := inventoryId; id_roomType := yd_roomType payload; id_newAvailable := ct_available current - 1 |}).

Definition decideIncrementAvailability (inventoryId : ID) (payload : IncrementAvailabilityPayload) (state : InventoryState) : M W InventoryEvent :=
  if negb (iv_initialized state) then throw (PlainError "Inventory not initialized") else
  let current := count_of (yc_roomType payload) (iv_roomCounts state) in
  ret (AvailabilityIncremented {| ic_inventoryId := inventoryId; ic_roomType := yc_roomType payload; ic_newAvailable := ct_available current + 1 |}).

Definition Inventory : Aggregate W :=
  {| ag_initialState := to_value initialInventoryState;
     ag_decide := [("InitializeInventory", decider inventory_event decideInitializeInventory);
                   ("UpdateRoomTypeCount", decider inventory_event decideUpdateRoomTypeCount);
                   ("DecrementAvailability", decider inventory_event decideDecrementAvailability);
                   ("IncrementAvailability", decider inventory_event decideIncrementAvailability)];
     ag_evolve := [("InventoryInitialized", evolver evolveInventoryInitialized);
                   ("RoomTypeCountUpdated", evolver evolveRoomTypeCountUpdated);
                   ("AvailabilityDecremented", evolver evolveAvailabilityDecremented);
                   ("AvailabilityIncremented", evolver evolveAvailabilityIncremented)];
     ag_upcasters := None |}.
End aggregate.

(** ** Facts *)

Definition inventory_evolve (e : InventoryEvent) (s : InventoryState) : InventoryState :=
  match e with
  | InventoryInitialized p => evolveInventoryInitialized p s
  | RoomTypeCountUpdated p => evolveRoomTypeCountUpdated p s
  | AvailabilityDecremented p => evolveAvailabilityDecremented p s
  | AvailabilityIncremented p => evolveAvailabilityIncremented p s
  end.

(** What a command may decide. *)
Definition inventory_decides (c : command) (s : InventoryState) (e : InventoryEvent) : Prop :=
  match e with
  | InventoryInitialized p => iv_initialized s = false /\
      cmd_name c = "InitializeInventory" /\ of_value (cmd_payload c) = Some {| yi_roomCounts := ii_roomCounts p |}
  | RoomTypeCountUpdated p => iv_initialized s = true /\ cmd_name c = "UpdateRoomTypeCount" /\
      of_value (cmd_payload c) = Some {| yu_roomType := iu_roomType p; yu_total := iu_total p; yu_available := iu_available p |}
  | AvailabilityDecremented p => iv_initialized s = true /\
      (0 < ct_available (count_of (id_roomType p) (iv_roomCounts s)))%Z /\
      id_newAvailable p = (ct_available (count_of (id_roomType p) (iv_roomCounts s)) - 1)%Z
  | AvailabilityIncremented p => iv_initialized s = true /\
      ic_newAvailable p = (ct_available (count_of (ic_roomType p) (iv_roomCounts s)) + 1)%Z
  end.

Lemma initialized_guard (b : bool) {W A} (e : js_error) (m : M W A) w a w' : (if negb b then throw e else m) w = (Ok a, w') -> b = true /\ m w = (Ok a, w').
Proof. by destruct b. Qed.

#[export] Instance Inventory_typed {W} :
  TypedAggregate (W := W) Inventory initialInventoryState inventory_evolve inventory_event inventory_decides.
Proof.
  split; [done | |].
  - intros [p | p | p | p] s; typed_evolve.
  - intros handler c s w dec w'. cbn [Inventory ag_decide mget].
    repeat (match goal with |- context [String.eqb (cmd_name c) ?n] => destruct (String.eqb_spec (cmd_name c) n) as [Hn | _] end;
      [intros [= <-] (p & e & Hv & Hd & ->)%decider_inv; exists e; (split; [done |]) |]); [.. | done].
    + unfold decideInitializeInventory in Hd. destruct (iv_initialized s) eqn:E; [done |]. injection Hd as <- _.
      split; [done |]. split; [done |]. rewrite Hv. by destruct p.
    + apply initialized_guard in Hd as [Hi Hd]. injection Hd as <- _. split; [done |]. split; [done |]. rewrite Hv. by destruct p.
    + apply initialized_guard in Hd as [Hi Hd]. cbv zeta in Hd. destruct (Z.leb_spec (ct_available (count_of (yd_roomType p) (iv_roomCounts s))) 0); [done |].
      by injection Hd as <- _.
    + apply initialized_guard in Hd as [Hi Hd]. by injection Hd as <- _.
Qed.

Lemma Inventory_quiet {W} (stream : W -> string -> list event) snap n handler :
  mget n (ag_decide Inventory) = Some handler -> forall c s, quiet stream snap (handler c s).
Proof.
  cbn [Inventory ag_decide mget].
  repeat (destruct (String.eqb n _); [intros [= <-] c s |]); [.. | done]; (apply decider_quiet; intros i p st);
    [unfold decideInitializeInventory | unfold decideUpdateRoomTypeCount | unfold decideDecrementAvailability | unfold decideIncrementAvailability];
    quiet_decider.
Qed.

(** The books of one room type: what was last declared, and what was taken and given back since. *)
Record ledger : Type := { lg_declared : RoomCount; lg_taken : nat; lg_given : nat }.

Definition declare (c : RoomCount) : ledger := {| lg_declared := c; lg_taken := 0; lg_given := 0 |}.

Definition ledger_step (t : RoomType) (l : ledger) (e : InventoryEvent) : ledger :=
  match e with
  | InventoryInitialized p => declare (count_of t (ii_roomCounts p))
  | RoomTypeCountUpdated p => if decide (iu_roomType p = t) then declare {| ct_total := iu_total p; ct_available := iu_available p |} else l
  | AvailabilityDecremented p =>
      if decide (id_roomType p = t) then {| lg_declared := lg_declared l; lg_taken := S (lg_taken l); lg_given := lg_given l |} else l
  | AvailabilityIncremented p =>
      if decide (ic_roomType p = t) then {| lg_declared := lg_declared l; lg_taken := lg_taken l; lg_given := S (lg_given l) |} else l
  end.

Definition the_ledger (t : RoomType) (h : list InventoryEvent) : ledger := foldl (ledger_step t) (declare {| ct_total := 0; ct_available := 0 |}) h.

Definition inventory_state (h : list InventoryEvent) : InventoryState := state_after initialInventoryState inventory_evolve h.

Lemma the_ledger_snoc t h e : the_ledger t (h ++ [e]) = ledger_step t (the_ledger t h) e.
Proof. unfold the_ledger. by rewrite foldl_app. Qed.
Lemma inventory_state_snoc h e : inventory_state (h ++ [e]) = inventory_evolve e (inventory_state h).
Proof. apply state_after_snoc. Qed.

Lemma count_with t u c counts : count_of t (with_count u c counts) = if decide (u = t) then c else count_of t counts.
Proof. destruct (decide (u = t)) as [<- |]; [by destruct u |]. by destruct t, u. Qed.

(** What the books say of a room type. *)
Definition balance (l : ledger) : RoomCount :=
  {| ct_total := ct_total (lg_declared l); ct_available := ct_available (lg_declared l) - Z.of_nat (lg_taken l) + Z.of_nat (lg_given l) |}.

(** What the events of an inventory must be: the initialisation comes first and only once,
    and a room is taken only when one is left. *)
Definition inventory_lawful (before : list InventoryEvent) (e : InventoryEvent) : Prop :=
  match e with
  | InventoryInitialized _ => before = []
  | RoomTypeCountUpdated _ => before <> []
  | AvailabilityDecremented p => before <> [] /\ (0 < ct_available (balance (the_ledger (id_roomType p) before)))%Z /\
      id_newAvailable p = (ct_available (balance (the_ledger (id_roomType p) before)) - 1)%Z
  | AvailabilityIncremented p => before <> [] /\
      ic_newAvailable p = (ct_available (balance (the_ledger (ic_roomType p) before)) + 1)%Z
  end.

(** The state agrees with the books. *)
Record balanced (h : list InventoryEvent) (s : InventoryState) : Prop := {
  bl_initialized : iv_initialized s = true <-> h <> [];
  bl_counts : forall t, count_of t (iv_roomCounts s) = balance (the_ledger t h)
}.

Lemma balance_taken l : (ct_available (balance l) - 1)%Z = ct_available (balance {| lg_declared := lg_declared l; lg_taken := S (lg_taken l); lg_given := lg_given l |}).
Proof. cbn. lia. Qed.
Lemma balance_given l : (ct_available (balance l) + 1)%Z = ct_available (balance {| lg_declared := lg_declared l; lg_taken := lg_taken l; lg_given := S (lg_given l) |}).
Proof. cbn. lia. Qed.
Lemma balance_declare c : balance (declare c) = c.
Proof. destruct c. unfold balance. cbn. f_equal. lia. Qed.

Lemma not_nil_snoc {A} (l : list A) (x : A) : (l ++ [x])%list <> [].
Proof. by destruct l. Qed.

Lemma inventory_balanced h : every_step inventory_lawful h -> balanced h (inventory_state h).
Proof.
  induction h as [| e h IH] using rev_ind; [intros _; split; [done | by intros []] |]. intros [Hl He]%every_step_inv.
  destruct (IH Hl) as [Hi Hc]. rewrite inventory_state_snoc.
  destruct e as [p | p | p | p]; cbn [inventory_evolve inventory_lawful] in *;
    (split; [cbn; split; [intros _; apply not_nil_snoc | intros _; try done; apply Hi; by (apply He || exact He)]
            | intros t; rewrite the_ledger_snoc; cbn [ledger_step]]).
  - by rewrite balance_declare.
  - cbn [evolveRoomTypeCountUpdated iv_roomCounts]. rewrite count_with. destruct (decide _); [by rewrite balance_declare | apply Hc].
  - destruct He as (_ & _ & En). cbn [evolveAvailabilityDecremented iv_roomCounts]. unfold with_available. rewrite count_with, En.
    destruct (decide (id_roomType p = t)) as [<- |]; [| apply Hc]. rewrite balance_taken, Hc. reflexivity.
  - destruct He as [_ En]. cbn [evolveAvailabilityIncremented iv_roomCounts]. unfold with_available. rewrite count_with, En.
    destruct (decide (ic_roomType p = t)) as [<- |]; [| apply Hc]. rewrite balance_given, Hc. reflexivity.
Qed.

(** The declared numbers of a command are not negative. *)
Definition sensible (c : command) : Prop :=
  (forall p : InitializeInventoryPayload, cmd_name c = "InitializeInventory" -> of_value (cmd_payload c) = Some p ->
     forall t, (0 <= ct_available (count_of t (yi_roomCounts p)))%Z) /\
  (forall p : UpdateRoomTypeCountPayload, cmd_name c = "UpdateRoomTypeCount" -> of_value (cmd_payload c) = Some p -> (0 <= yu_available p)%Z).

(** What is kept: lawful events, and no type of which more rooms were taken than there were. *)
Definition inventory_rules (_ : ID) (h : list InventoryEvent) : Prop :=
  every_step inventory_lawful h /\ forall t, (0 <= ct_available (balance (the_ledger t h)))%Z.

Lemma inventory_decides_lawful c h e : every_step inventory_lawful h -> inventory_decides c (inventory_state h) e -> inventory_lawful h e.
Proof.
  intros Hl Hd. destruct (inventory_balanced h Hl) as [Hi Hc].
  destruct e as [p | p | p | p]; cbn [inventory_decides inventory_lawful] in *; rewrite ?Hc in Hd.
  - destruct Hd as [Hn _]. destruct h; [done |]. rewrite (proj2 Hi) in Hn; done.
  - by apply Hi, Hd.
  - destruct Hd as (Hd & H1 & H2). apply Hi in Hd. done.
  - destruct Hd as (Hd & H1). apply Hi in Hd. done.
Qed.

Lemma inventory_keeps name : keeps_story name initialInventoryState inventory_evolve inventory_decides sensible inventory_rules.
Proof.
  split; [| done]. intros c h e [Hs1 Hs2] [Hl Hb] Hd. assert (He := inventory_decides_lawful c h e Hl Hd).
  split; [by apply every_step_snoc |]. intros t. rewrite the_ledger_snoc. specialize (Hb t).
  destruct e as [p | p | p | p]; cbn [ledger_step inventory_decides inventory_lawful] in *.
  - destruct Hd as (_ & Hn & Hv). rewrite balance_declare. exact (Hs1 _ Hn Hv t).
  - destruct Hd as (_ & Hn & Hv). destruct (decide _); [| done]. rewrite balance_declare. exact (Hs2 _ Hn Hv).
  - destruct (decide _) as [<- |]; [| done]. rewrite <- balance_taken. lia.
  - destruct (decide _) as [<- |]; [| done]. rewrite <- balance_given. lia.
Qed.

(** ** Properties *)

Section inventories.
Context {W Tx : Type} (host : lens W Host) `{!LensLaws host} (P : EventSourcedPersistence W) (SN : SnapshotStore W)
  (stream : W -> string -> list event) (snap : W -> string -> option Snapshot) `{!StoresFrame host P SN stream snap}
  (provider : option MetadataContext) (strategy : SnapshotStrategy) (maxRetries : nat)
  (dispatch : event -> M (Exec W Tx) unit).

Definition run_inventories (cs : list command) : M (Exec W Tx) unit :=
  engine_run host P SN provider strategy maxRetries dispatch "Inventory" Inventory cs.

(** C39. The books of the inventory balance.  Let any commands arrive in any order, none of which
    declares a negative number; some may fail, be retried, or be loaded through snapshots.
    Then in the state of every inventory the available rooms of a type are the last declared
    number, less the rooms taken since, plus those given back; it is never negative, a room
    is taken only when one is left, and an inventory is initialised once, before all else. *)
Theorem inventory_balances cs s :
  (forall e s r s', dispatch e s = (r, s') -> ex_uow s' = ex_uow s /\ same_obs stream snap (ex_world s) (ex_world s')) ->
  Forall sensible cs ->
  ex_uow s = None -> (forall k, stream (ex_world s) k = [] /\ snap (ex_world s) k = None) ->
  forall i, exists h,
    Forall2 (carries inventory_event) (stream (ex_world (snd (run_inventories cs s))) (composite_key "Inventory" i)) h /\
    replay (W := W) Inventory (stream (ex_world (snd (run_inventories cs s))) (composite_key "Inventory" i)) (ag_initialState (W := W) Inventory)
    = Ok (to_value (inventory_state h)) /\
    every_step inventory_lawful h /\ balanced h (inventory_state h) /\
    forall t, (0 <= ct_available (count_of t (iv_roomCounts (inventory_state h))))%Z.
Proof.
  intros Hd Hcs Hn He i.
  destruct (engine_run_stories host P SN stream snap provider strategy maxRetries dispatch "Inventory" Inventory
    initialInventoryState inventory_evolve inventory_event inventory_decides _ _ cs s (inventory_keeps _))
    with (i := i) as (h & [Hl Hb] & Hc & Hr); [| exact Hcs | split; [apply every_step_nil | by intros []] | done | done |].
  - split; [| exact Hd]. split; [| done | done]. intros n handler Hm. by apply (Inventory_quiet stream snap n).
  - exists h. split; [exact Hc |]. split; [exact Hr |]. assert (B := inventory_balanced h Hl). split; [done |]. split; [done |].
    intros t. by rewrite (bl_counts h _ B).
Qed.
End inventories.

(** ** Examples *)

Definition inventory_command {P} `{Typed P} (name : string) (payload : P) : command :=
  {| cmd_name := name; cmd_payload := to_value payload; cmd_commandId := None; cmd_targetAggregateId := Some (IdStr "hotel") |}.

Definition initialize (n : Z) : command := inventory_command "InitializeInventory"
  {| yi_roomCounts := {| rn_single := {| ct_total := n; ct_available := n |}; rn_double := {| ct_total := n; ct_available := n |};
                         rn_suite := {| ct_total := n; ct_available := n |} |} |}.
Definition take (t : RoomType) : command := inventory_command "DecrementAvailability" {| yd_roomType := t |}.
Definition give (t : RoomType) : command := inventory_command "IncrementAvailability" {| yc_roomType := t |}.

Definition memory_inventories (cs : list command) : Exec World unit :=
  snd (run_inventories host_lens world_events world_snaps None (everyNEvents 2) 3 (fun e => world_op (log_dispatch e)) cs start_exec).
Definition inventory_events (cs : list command) : list event := world_stream (ex_world (memory_inventories cs)) "Inventory:hotel".

Example last_suite : map ev_name (inventory_events [take suite; initialize 1; take suite; take suite; initialize 5; give suite; take suite])
  = ["InventoryInitialized"; "AvailabilityDecremented"; "AvailabilityIncremented"; "AvailabilityDecremented"].
Proof. vm_compute. reflexivity. Qed.

(** Nothing bounds the rooms that are given back: two of one suite are available. *)
Lemma more_than_total : result_bind (replay (W := World) Inventory (inventory_events [initialize 1; give suite]) (ag_initialState (W := World) Inventory))
    (fun v => Ok (option_map (fun s => rn_suite (iv_roomCounts s)) (of_value v)))
  = Ok (Some {| ct_total := 1; ct_available := 2 |}).
Proof. vm_compute. reflexivity. Qed.

Lemma inventory_balances_witness : exists h,
    Forall2 (carries inventory_event) (world_stream (ex_world (memory_inventories [take suite; initialize 1; take suite; take suite; give double])) (composite_key "Inventory" (IdStr "hotel"))) h /\
    replay (W := World) Inventory (world_stream (ex_world (memory_inventories [take suite; initialize 1; take suite; take suite; give double]))
      (composite_key "Inventory" (IdStr "hotel"))) (ag_initialState (W := World) Inventory)
    = Ok (to_value (inventory_state h)) /\
    every_step inventory_lawful h /\ balanced h (inventory_state h) /\
    forall t, (0 <= ct_available (count_of t (iv_roomCounts (inventory_state h))))%Z.
Proof.
  unfold memory_inventories.
  apply (inventory_balances host_lens world_events world_snaps world_stream world_snap None (everyNEvents 2) 3
    (fun e => world_op (log_dispatch e)) [take suite; initialize 1; take suite; take suite; give double] start_exec).
  - intros e s r s'. unfold world_op, zoom. cbn. by intros [= _ <-].
  - repeat (constructor; [split; intros p Hn Hp; vm_compute in Hn, Hp; first [discriminate Hn | injection Hp as <-; intros []; vm_compute; discriminate] |]). constructor.
  - reflexivity.
  - by split.
Defined.
