(* ===== verification/SampleHotelSagas.v ===== *)
(** The processes of the hotel ([samples/sample-hotel-booking/src]): the service interfaces of
    [infrastructure/types.ts] and their in-memory implementations, the three sagas of
    [domain/process-model], and the standalone handlers of [infrastructure/handlers]. *)
From S2P Require Import Prelude Errors Text Json Wire JsMap CoreTypes Upcaster Host Stores Idempotency UnitOfWork Concurrency Metadata World CommandExecutor Frames CommandCorrect SagaExecutor Harness TypedDomain SampleHotelRooms SampleHotelBooking.
Local Open Scope string_scope.

(** ** Services *)

Record EmailService (W : Type) : Type := { email_send : string -> string -> string -> M W unit }.
Arguments email_send {W} _.
Record SmsService (W : Type) : Type := { sms_send : string -> string -> M W unit }.
Arguments sms_send {W} _.

(** [guestId] of a charge is that of the event, which may be [null]; a charge returns the
    [transactionId]. *)
Record PaymentGateway (W : Type) : Type := {
  charge : option string -> Z -> M W string;
  refund : string -> M W unit
}.
Arguments charge {W} _.
Arguments refund {W} _.

(** [InMemoryEmailService], [InMemorySmsService]: what was sent. *)
Record Email : Type := { em_to : string; em_subject : string; em_body : string }.
Record Sms : Type := { sm_phone : string; sm_message : string }.

Definition InMemoryEmailService : EmailService (list Email) :=
  {| email_send := fun to subject body => modify (fun sent => (sent ++ [{| em_to := to; em_subject := subject; em_body := body |}])%list) |}.
Definition InMemorySmsService : SmsService (list Sms) :=
  {| sms_send := fun phone message => modify (fun sent => (sent ++ [{| sm_phone := phone; sm_message := message |}])%list) |}.

Section gateways.
Context {W : Type} (randomUUID : M W string).   (** of node's [crypto] *)

Definition FakePaymentGateway : PaymentGateway W :=
  {| charge := fun _ _ => uuid <- randomUUID ;; ret ("txn-" ++ uuid);
     refund := fun _ => ret tt |}.

Record Charge : Type := { cg_guestId : option string; cg_amount : Z; cg_transactionId : string }.

(** [InMemoryPaymentGateway]: its fields. *)
Record Till : Type := { charges : list Charge; refunds : list string; shouldFail : bool }.

Definition InMemoryPaymentGateway (till : lens W Till) : PaymentGateway W :=
  {| charge := fun guestId amount =>
       fail <- zoom till (gets shouldFail) ;;
       if (fail : bool) then throw (PlainError "Payment declined")
       else
         uuid <- randomUUID ;;
         let transactionId := "txn-" ++ uuid in
         zoom till (modify (fun t => {| charges := (charges t ++ [{| cg_guestId := guestId; cg_amount := amount; cg_transactionId := transactionId |}])%list;
                                        refunds := refunds t; shouldFail := shouldFail t |})) ;;;
         ret transactionId;
     refund := fun transactionId =>
       zoom till (modify (fun t => {| charges := charges t; refunds := (refunds t ++ [transactionId])%list; shouldFail := shouldFail t |})) |}.
End gateways.

(** ** Entries of declared types *)

(** [{ id, handle }]: the handler returns the next state and the commands. *)
Definition saga_entry {W P St} `{Typed P} `{Typed St} (id : P -> ID) (handle : P -> St -> M W (St * saga_commands)) : SagaOnEntry W :=
  {| on_id := fun e => match of_value (ev_payload e) with Some p => Ok (id p) | None => Err ill_typed end;
     on_handle := fun e state =>
       match of_value (ev_payload e), of_value state with
       | Some p, Some s => reaction <- handle p s ;; ret {| re_state := to_value (fst reaction); re_commands := snd reaction |}
       | _, _ => throw ill_typed
       end |}.

(** [{ name, targetAggregateId, payload }] *)
Definition literal_command {P} `{Typed P} (name : string) (targetAggregateId : ID) (payload : P) : command :=
  {| cmd_name := name; cmd_payload := to_value payload; cmd_commandId := None; cmd_targetAggregateId := Some targetAggregateId |}.

(** An entry that only keeps the state. *)
Definition unchanged {W P St} (_ : P) (state : St) : M W (St * saga_commands) := ret (state, NoCommands).

(** ** Booking fulfillment: creation, payment, confirmation *)

Inductive BookingFulfillmentStatus : Type := f_idle | f_awaiting_payment | f_confirmed | f_cancelled.

#[export] Instance BookingFulfillmentStatus_eq_dec : EqDecision BookingFulfillmentStatus.
Proof. solve_decision. Defined.

Definition fulfillment_status_text (s : BookingFulfillmentStatus) : string :=
  match s with f_idle => "idle" | f_awaiting_payment => "awaiting_payment" | f_confirmed => "confirmed" | f_cancelled => "cancelled" end.

#[export] Instance BookingFulfillmentStatus_typed : Typed BookingFulfillmentStatus.
Proof.
  refine {| to_value := fun s => VStr (fulfillment_status_text s);
            of_value := fun v => match v with
              | VStr s => if String.eqb s "idle" then Some f_idle else
                          if String.eqb s "awaiting_payment" then Some f_awaiting_payment else
                          if String.eqb s "confirmed" then Some f_confirmed else
                          if String.eqb s "cancelled" then Some f_cancelled else None
              | _ => None end |}.
  by intros [].
Defined.

Record BookingFulfillmentState : Type := { sf_bookingId : ID; sf_guestId : string; sf_roomType : option RoomType; sf_checkIn : string; sf_checkOut : string; sf_totalAmount : Z; sf_paymentId : option string; sf_roomId : option ID; sf_status : BookingFulfillmentStatus }.

#[export] Instance BookingFulfillmentState_typed : Typed BookingFulfillmentState.
Proof.
  refine {| to_value := fun p => VObj [("bookingId", to_value (sf_bookingId p)); ("guestId", to_value (sf_guestId p));
                                       ("roomType", to_value (sf_roomType p)); ("checkIn", to_value (sf_checkIn p));
                                       ("checkOut", to_value (sf_checkOut p)); ("totalAmount", to_value (sf_totalAmount p));
                                       ("paymentId", to_value (sf_paymentId p)); ("roomId", to_value (sf_roomId p));
                                       ("status", to_value (sf_status p))];
            of_value := fun v =>
              bookingId ← prop "bookingId" v; guestId ← prop "guestId" v; roomType ← prop "roomType" v; checkIn ← prop "checkIn" v;
              checkOut ← prop "checkOut" v; totalAmount ← prop "totalAmount" v; paymentId ← prop "paymentId" v; roomId ← prop "roomId" v;
              status ← prop "status" v;
              Some {| sf_bookingId := bookingId; sf_guestId := guestId; sf_roomType := roomType; sf_checkIn := checkIn; sf_checkOut := checkOut;
                      sf_totalAmount := totalAmount; sf_paymentId := paymentId; sf_roomId := roomId; sf_status := status |} |}.
  read_record.
Defined.

Definition initialBookingFulfillmentState : BookingFulfillmentState :=
  {| sf_bookingId := IdStr EmptyString; sf_guestId := EmptyString; sf_roomType := None; sf_checkIn := EmptyString;
     sf_checkOut := EmptyString; sf_totalAmount := 0; sf_paymentId := None; sf_roomId := None; sf_status := f_idle |}.

(** [{ ...state, status }], [{ ...state, status, roomId }] *)
Definition with_status (status : BookingFulfillmentStatus) (state : BookingFulfillmentState) : BookingFulfillmentState :=
  {| sf_bookingId := sf_bookingId state; sf_guestId := sf_guestId state; sf_roomType := sf_roomType state; sf_checkIn := sf_checkIn state;
     sf_checkOut := sf_checkOut state; sf_totalAmount := sf_totalAmount state; sf_paymentId := sf_paymentId state;
     sf_roomId := sf_roomId state; sf_status := status |}.
Definition in_room (roomId : ID) (state : BookingFulfillmentState) : BookingFulfillmentState :=
  {| sf_bookingId := sf_bookingId state; sf_guestId := sf_guestId state; sf_roomType := sf_roomType state; sf_checkIn := sf_checkIn state;
     sf_checkOut := sf_checkOut state; sf_totalAmount := sf_totalAmount state; sf_paymentId := sf_paymentId state;
     sf_roomId := Some roomId; sf_status := f_confirmed |}.

(** [availableRooms?.[0]] *)
Definition first_room (availableRooms : value) : value :=
  match availableRooms with VArr (room :: _) => room | VArr [] => VUndefined | _ => read_prop "0" availableRooms end.

Module BookingFulfillment.

Section handlers.
Context {W : Type} (randomUUID : M W string) (queryBus_dispatch : string -> value -> M W value).

Definition onBookingCreated (event : BookingCreatedPayload) (_ : BookingFulfillmentState) : M W (BookingFulfillmentState * saga_commands) :=
  paymentId <- randomUUID ;;
  ret ({| sf_bookingId := bc_bookingId event; sf_guestId := bc_guestId event; sf_roomType := Some (bc_roomType event);
          sf_checkIn := bc_checkIn event; sf_checkOut := bc_checkOut event; sf_totalAmount := bc_totalAmount event;
          sf_paymentId := Some paymentId; sf_roomId := None; sf_status := f_awaiting_payment |},
       OneCommand (literal_command "RequestPayment" (bc_bookingId event)
         {| xr_paymentId := paymentId; xr_amount := bc_totalAmount event |})).

Definition onPaymentCompleted (_ : PaymentCompletedPayload) (state : BookingFulfillmentState) : M W (BookingFulfillmentState * saga_commands) :=
  availableRooms <- queryBus_dispatch "SearchAvailableRooms" (VObj [("type", to_value (sf_roomType state))]) ;;
  let room := first_room availableRooms in
  if falsy room then
    ret (with_status f_cancelled state,
         OneCommand (literal_command "CancelBooking" (sf_bookingId state) {| xx_reason := "No available room of requested type" |}))
  else
    match prop "roomId" room with
    | None => throw ill_typed
    | Some roomId =>
        ret (in_room roomId state,
             ManyCommands
               [literal_command "ConfirmBooking" (sf_bookingId state) {| xc_roomId := roomId |};
                literal_command "ReserveRoom" roomId
                  {| rv_bookingId := string_of_ID (sf_bookingId state); rv_guestId := sf_guestId state;
                     rv_checkIn := sf_checkIn state; rv_checkOut := sf_checkOut state |}])
    end.

Definition onPaymentFailed (event : PaymentFailedPayload) (state : BookingFulfillmentState) : M W (BookingFulfillmentState * saga_commands) :=
  ret (with_status f_cancelled state,
       OneCommand (literal_command "CancelBooking" (sf_bookingId state) {| xx_reason := "Payment failed: " ++ pf_reason event |})).

(** [state.status === "confirmed" && state.paymentId] *)
Definition onBookingCancelled (_ : BookingCancelledPayload) (state : BookingFulfillmentState) : M W (BookingFulfillmentState * saga_commands) :=
  ret (with_status f_cancelled state,
       match sf_status state, sf_paymentId state with
       | f_confirmed, Some paymentId =>
           if String.eqb paymentId EmptyString then NoCommands
           else OneCommand (literal_command "RefundPayment" (sf_bookingId state) {| xd_paymentId := paymentId; xd_amount := sf_totalAmount state |})
       | _, _ => NoCommands
       end).

Definition onBookingConfirmed (_ : BookingConfirmedPayload) (state : BookingFulfillmentState) : M W (BookingFulfillmentState * saga_commands) :=
  ret (with_status f_confirmed state, NoCommands).

Definition onBookingModified (event : BookingModifiedPayload) (state : BookingFulfillmentState) : M W (BookingFulfillmentState * saga_commands) :=
  ret ({| sf_bookingId := sf_bookingId state; sf_guestId := sf_guestId state; sf_roomType := sf_roomType state;
          sf_checkIn := bm_newCheckIn event; sf_checkOut := bm_newCheckOut event; sf_totalAmount := bm_newTotalAmount event;
          sf_paymentId := sf_paymentId state; sf_roomId := sf_roomId state; sf_status := sf_status state |}, NoCommands).

Definition onPaymentRequested (event : PaymentRequestedPayload) (state : BookingFulfillmentState) : M W (BookingFulfillmentState * saga_commands) :=
  unchanged event state.

Definition onPaymentRefunded (_ : PaymentRefundedPayload) (state : BookingFulfillmentState) : M W (BookingFulfillmentState * saga_commands) :=
  ret (with_status f_cancelled state, NoCommands).

Definition saga : Saga W :=
  {| sg_initialState := to_value initialBookingFulfillmentState;
     sg_startedBy := ["BookingCreated"];
     sg_on := [("BookingCreated", saga_entry bc_bookingId onBookingCreated);
               ("PaymentCompleted", saga_entry pc_bookingId onPaymentCompleted);
               ("PaymentFailed", saga_entry pf_bookingId onPaymentFailed);
               ("BookingCancelled", saga_entry bx_bookingId onBookingCancelled);
               ("BookingConfirmed", saga_entry bf_bookingId onBookingConfirmed);
               ("BookingModified", saga_entry bm_bookingId onBookingModified);
               ("PaymentRequested", saga_entry pr_bookingId onPaymentRequested);
               ("PaymentRefunded", saga_entry pd_bookingId onPaymentRefunded)];
     sg_atomicity := None |}.
End handlers.
End BookingFulfillment.

(** ** Payment processing: the charge *)

Inductive PaymentProcessingStatus : Type := p_idle | p_charging | p_completed | p_failed.

#[export] Instance PaymentProcessingStatus_eq_dec : EqDecision PaymentProcessingStatus.
Proof. solve_decision. Defined.

Definition payment_status_text (s : PaymentProcessingStatus) : string :=
  match s with p_idle => "idle" | p_charging => "charging" | p_completed => "completed" | p_failed => "failed" end.

#[export] Instance PaymentProcessingStatus_typed : Typed PaymentProcessingStatus.
Proof.
  refine {| to_value := fun s => VStr (payment_status_text s);
            of_value := fun v => match v with
              | VStr s => if String.eqb s "idle" then Some p_idle else
                          if String.eqb s "charging" then Some p_charging else
                          if String.eqb s "completed" then Some p_completed else
                          if String.eqb s "failed" then Some p_failed else None
              | _ => None end |}.
  by intros [].
Defined.

Record PaymentProcessingState : Type := { pp_bookingId : ID; pp_guestId : option string; pp_paymentId : string; pp_amount : Z; pp_status : PaymentProcessingStatus }.

#[export] Instance PaymentProcessingState_typed : Typed PaymentProcessingState.
Proof.
  refine {| to_value := fun p => VObj [("bookingId", to_value (pp_bookingId p)); ("guestId", to_value (pp_guestId p));
                                       ("paymentId", to_value (pp_paymentId p)); ("amount", to_value (pp_amount p));
                                       ("status", to_value (pp_status p))];
            of_value := fun v =>
              bookingId ← prop "bookingId" v; guestId ← prop "guestId" v; paymentId ← prop "paymentId" v; amount ← prop "amount" v;
              status ← prop "status" v;
              Some {| pp_bookingId := bookingId; pp_guestId := guestId; pp_paymentId := paymentId; pp_amount := amount; pp_status := status |} |}.
  read_record.
Defined.

Definition initialPaymentProcessingState : PaymentProcessingState :=
  {| pp_bookingId := IdStr EmptyString; pp_guestId := Some EmptyString; pp_paymentId := EmptyString; pp_amount := 0; pp_status := p_idle |}.

(** [error.message ?? "Payment gateway error"] *)
Definition charge_failure (error : js_error) : result string :=
  match error with
  | ThrownValue VUndefined | ThrownValue VNull => Err (TypeError "Cannot read properties of a missing error")
  | ThrownValue v => match of_value (coalesce (read_prop "message" v) (VStr "Payment gateway error")) with
                     | Some reason => Ok reason
                     | None => Err ill_typed
                     end
  | _ => Ok (error_message error)
  end.

Module PaymentProcessing.

Section handlers.
Context {W : Type} (paymentGateway : PaymentGateway W).

Definition paying (event : PaymentRequestedPayload) (status : PaymentProcessingStatus) : PaymentProcessingState :=
  {| pp_bookingId := pr_bookingId event; pp_guestId := pr_guestId event; pp_paymentId := pr_paymentId event;
     pp_amount := pr_amount event; pp_status := status |}.

Definition onPaymentRequested (event : PaymentRequestedPayload) (_ : PaymentProcessingState) : M W (PaymentProcessingState * saga_commands) :=
  try_catch
    (transactionId <- charge paymentGateway (pr_guestId event) (pr_amount event) ;;
     ret (paying event p_charging,
          OneCommand (literal_command "CompletePayment" (pr_bookingId event)
            {| xp_paymentId := pr_paymentId event; xp_transactionId := transactionId; xp_amount := pr_amount event |})))
    (fun error =>
     reason <- lift_result (charge_failure error) ;;
     ret (paying event p_failed,
          OneCommand (literal_command "FailPayment" (pr_bookingId event) {| xf_paymentId := pr_paymentId event; xf_reason := reason |}))).

Definition marked (status : PaymentProcessingStatus) (state : PaymentProcessingState) : PaymentProcessingState :=
  {| pp_bookingId := pp_bookingId state; pp_guestId := pp_guestId state; pp_paymentId := pp_paymentId state;
     pp_amount := pp_amount state; pp_status := status |}.

Definition onPaymentCompleted (_ : PaymentCompletedPayload) (state : PaymentProcessingState) : M W (PaymentProcessingState * saga_commands) :=
  ret (marked p_completed state, NoCommands).
Definition onPaymentFailed (_ : PaymentFailedPayload) (state : PaymentProcessingState) : M W (PaymentProcessingState * saga_commands) :=
  ret (marked p_failed state, NoCommands).

Definition saga : Saga W :=
  {| sg_initialState := to_value initialPaymentProcessingState;
     sg_startedBy := ["PaymentRequested"];
     sg_on := [("PaymentRequested", saga_entry pr_bookingId onPaymentRequested);
               ("PaymentCompleted", saga_entry pc_bookingId onPaymentCompleted);
               ("PaymentFailed", saga_entry pf_bookingId onPaymentFailed)];
     sg_atomicity := None |}.
End handlers.
End PaymentProcessing.

(** ** Checkout reminder: the messages of a stay *)

Inductive CheckoutReminderStatus : Type := c_idle | c_guest_checked_in | c_completed.

#[export] Instance CheckoutReminderStatus_eq_dec : EqDecision CheckoutReminderStatus.
Proof. solve_decision. Defined.

Definition reminder_status_text (s : CheckoutReminderStatus) : string :=
  match s with c_idle => "idle" | c_guest_checked_in => "guest_checked_in" | c_completed => "completed" end.

#[export] Instance CheckoutReminderStatus_typed : Typed CheckoutReminderStatus.
Proof.
  refine {| to_value := fun s => VStr (reminder_status_text s);
            of_value := fun v => match v with
              | VStr s => if String.eqb s "idle" then Some c_idle else
                          if String.eqb s "guest_checked_in" then Some c_guest_checked_in else
                          if String.eqb s "completed" then Some c_completed else None
              | _ => None end |}.
  by intros [].
Defined.

Record CheckoutReminderState : Type := { ck_roomId : ID; ck_bookingId : string; ck_guestId : string; ck_status : CheckoutReminderStatus }.

#[export] Instance CheckoutReminderState_typed : Typed CheckoutReminderState.
Proof.
  refine {| to_value := fun p => VObj [("roomId", to_value (ck_roomId p)); ("bookingId", to_value (ck_bookingId p));
                                       ("guestId", to_value (ck_guestId p)); ("status", to_value (ck_status p))];
            of_value := fun v =>
              roomId ← prop "roomId" v; bookingId ← prop "bookingId" v; guestId ← prop "guestId" v; status ← prop "status" v;
              Some {| ck_roomId := roomId; ck_bookingId := bookingId; ck_guestId := guestId; ck_status := status |} |}.
  read_record.
Defined.

Definition initialCheckoutReminderState : CheckoutReminderState :=
  {| ck_roomId := IdStr EmptyString; ck_bookingId := EmptyString; ck_guestId := EmptyString; ck_status := c_idle |}.

Module CheckoutReminder.

Section handlers.
Context {W : Type} (smsService : SmsService W).

Definition onGuestCheckedIn (event : GuestCheckedInPayload) (_ : CheckoutReminderState) : M W (CheckoutReminderState * saga_commands) :=
  sms_send smsService (gi_guestId event) "Welcome! Your checkout is expected at the end of your stay." ;;;
  ret ({| ck_roomId := gi_roomId event; ck_bookingId := gi_bookingId event; ck_guestId := gi_guestId event;
          ck_status := c_guest_checked_in |}, NoCommands).

Definition onGuestCheckedOut (_ : GuestCheckedOutPayload) (state : CheckoutReminderState) : M W (CheckoutReminderState * saga_commands) :=
  sms_send smsService (ck_guestId state) "Thank you for your stay! We hope to see you again." ;;;
  ret ({| ck_roomId := ck_roomId state; ck_bookingId := ck_bookingId state; ck_guestId := ck_guestId state;
          ck_status := c_completed |}, NoCommands).

Definition onRoomReserved (event : RoomReservedPayload) (state : CheckoutReminderState) : M W (CheckoutReminderState * saga_commands) :=
  unchanged event state.
Definition onRoomCreated (event : RoomCreatedPayload) (state : CheckoutReminderState) : M W (CheckoutReminderState * saga_commands) :=
  unchanged event state.
Definition onRoomMadeAvailable (event : RoomMadeAvailablePayload) (state : CheckoutReminderState) : M W (CheckoutReminderState * saga_commands) :=
  unchanged event state.
Definition onRoomUnderMaintenance (event : RoomUnderMaintenancePayload) (state : CheckoutReminderState) : M W (CheckoutReminderState * saga_commands) :=
  unchanged event state.

Definition saga : Saga W :=
  {| sg_initialState := to_value initialCheckoutReminderState;
     sg_startedBy := ["GuestCheckedIn"];
     sg_on := [("GuestCheckedIn", saga_entry gi_roomId onGuestCheckedIn);
               ("GuestCheckedOut", saga_entry go_roomId onGuestCheckedOut);
               ("RoomReserved", saga_entry rr_roomId onRoomReserved);
               ("RoomCreated", saga_entry rc_roomId onRoomCreated);
               ("RoomMadeAvailable", saga_entry ra_roomId onRoomMadeAvailable);
               ("RoomUnderMaintenance", saga_entry um_roomId onRoomUnderMaintenance)];
     sg_atomicity := None |}.
End handlers.
End CheckoutReminder.

(** ** The standalone handlers *)

Definition SendBookingConfirmation {W} (emailService : EmailService W) (event : BookingConfirmedPayload) : M W unit :=
  let bookingId := string_of_ID (bf_bookingId event) in
  let recipient := "guest+" ++ bookingId ++ "@hotel.example" in
  email_send emailService recipient "Booking Confirmed"
    ("Your booking " ++ bookingId ++ " has been confirmed for room " ++ string_of_ID (bf_roomId event) ++ ".").

Definition SendCheckInNotification {W} (smsService : SmsService W) (event : GuestCheckedInPayload) : M W unit :=
  sms_send smsService (gi_guestId event) ("Check-in confirmed for room. Booking: " ++ gi_bookingId event).

(** It only logs. *)
Definition RunNightlyAuditHandler {W} (clock_now : M W Z) (console_log : string -> M W unit) (auditDate : string) : M W unit :=
  now <- iso_now clock_now ;;
  console_log ("[NightlyAudit] Audit completed for " ++ auditDate ++ " at " ++ now).

Lemma map_fst_zip {A B} (l : list A) (k : list B) : length k = length l -> map fst (zip l k) = l.
Proof. revert k. induction l as [| a l IH]; intros [| b k] Hl; try done. cbn. by rewrite IH by (by injection Hl). Qed.

(** ** What a saga goes through

    [followed saga t loaded]: the saga has handled the events of [t], each from the state that
    the event before it left, and asked for the commands beside it; [loaded] is what the store
    then has of the instance.  The executor loads and saves that state around each handler. *)
Inductive followed {W} (saga : Saga W) : list (event * list command) -> option SagaState -> Prop :=
| followed_nothing : followed saga [] None
| followed_event t loaded e entry state version w reaction w' :
    followed saga t loaded ->
    mget (ev_name e) (sg_on saga) = Some entry ->
    bootstrap_or_resume saga e loaded = Some (state, version) ->
    on_handle entry e state w = (Ok reaction, w') ->
    followed saga (t ++ [(e, normalize_commands (re_commands reaction))])
      (Some {| ga_state := re_state reaction; ga_version := S version |}).

Section typed.
Context {W St Ev : Type} `{Typed St} (saga : Saga W) (initial : St) (to_event : Ev -> event) (handle : Ev -> St -> M W (St * saga_commands)).

(** A saga whose entries take and give the declared types. *)
Class TypedSaga : Prop := {
  ts_initial : sg_initialState saga = to_value initial;
  ts_handle : forall e x entry st w reaction w', carries to_event e x -> mget (ev_name e) (sg_on saga) = Some entry ->
    on_handle entry e (to_value st) w = (Ok reaction, w') ->
    exists st', handle x st w = (Ok (st', re_commands reaction), w') /\ re_state reaction = to_value st'
}.

Inductive told : list (Ev * list command) -> St -> Prop :=
| told_nothing : told [] initial
| told_event t st x w st' cs w' :
    told t st -> handle x st w = (Ok (st', cs), w') -> told (t ++ [(x, normalize_commands cs)]) st'.

Lemma followed_told t loaded h : TypedSaga -> followed saga t loaded -> Forall2 (carries to_event) (map fst t) h ->
  exists st, told (zip h (map snd t)) st /\ match loaded with None => h = [] | Some g => ga_state g = to_value st end.
Proof.
  intros Hs Hf. revert h. induction Hf as [| t loaded e entry state version w reaction w' Hf IH Hm Hb Hr]; intros h Hc.
  { apply Forall2_nil_inv_l in Hc as ->. exists initial. split; [constructor | done]. }
  rewrite map_app in Hc. apply Forall2_app_inv_l in Hc as (h1 & h2 & H1 & H2 & ->). cbn [map fst] in H2.
  apply Forall2_cons_inv_l in H2 as (x & l & Hx & ->%Forall2_nil_inv_l & ->).
  destruct (IH h1 H1) as (st & Ht & Hl).
  assert (state = to_value st) as ->.
  { destruct loaded as [g |]; cbn [bootstrap_or_resume] in Hb; [by injection Hb as <- _ |].
    destruct (existsb _ _); [| done]. injection Hb as <- _. subst h1. apply Forall2_nil_inv_r in H1. apply map_eq_nil in H1 as ->.
    rewrite ts_initial. inversion Ht as [E1 E2 |]; [done |]. by destruct t. }
  destruct (ts_handle e x entry st w reaction w' Hx Hm Hr) as (st' & Hh & Est). exists st'. split; [| done].
  rewrite map_app, zip_with_app by (rewrite length_map, <- (Forall2_length _ _ _ H1); by rewrite length_map).
  cbn [map snd zip_with]. by eapply told_event.
Qed.

Lemma told_snoc_inv t x cs st' : told (t ++ [(x, cs)]) st' ->
  exists st w c w', told t st /\ handle x st w = (Ok (st', c), w') /\ cs = normalize_commands c.
Proof.
  intros Ht. inversion Ht as [E | t' st x' w st'' c w' Ht' Hh E Est]; [by destruct t |].
  apply app_inj_tail in E as [-> E]. injection E as -> <-. by exists st, w, c, w'.
Qed.

Lemma told_nil_inv st : told [] st -> st = initial.
Proof. intros Ht. inversion Ht as [| t' ? ? ? ? ? ? ? ? E]; [done |]. by destruct t'. Qed.
End typed.

(** ** The booking fulfillment and its booking *)

Section fulfillment.
Context {W : Type} (randomUUID : M W string) (queryBus_dispatch : string -> value -> M W value).

Definition fulfillment_handle (e : BookingEvent) (st : BookingFulfillmentState) : M W (BookingFulfillmentState * saga_commands) :=
  match e with
  | BookingCreated p => BookingFulfillment.onBookingCreated randomUUID p st
  | BookingConfirmed p => BookingFulfillment.onBookingConfirmed p st
  | BookingCancelled p => BookingFulfillment.onBookingCancelled p st
  | BookingModified p => BookingFulfillment.onBookingModified p st
  | PaymentRequested p => BookingFulfillment.onPaymentRequested p st
  | PaymentCompleted p => BookingFulfillment.onPaymentCompleted queryBus_dispatch p st
  | PaymentFailed p => BookingFulfillment.onPaymentFailed p st
  | PaymentRefunded p => BookingFulfillment.onPaymentRefunded p st
  end.

Lemma saga_entry_run {P St} `{Typed P} `{Typed St} (id : P -> ID) (handle : P -> St -> M W (St * saga_commands)) e p st w reaction w' :
  ev_payload e = to_value p -> on_handle (saga_entry id handle) e (to_value st) w = (Ok reaction, w') ->
  exists st', handle p st w = (Ok (st', re_commands reaction), w') /\ re_state reaction = to_value st'.
Proof.
  intros Hp. cbn [saga_entry on_handle]. rewrite Hp, !of_to_value. intros ((st' & cs) & w1 & H1 & H2)%bind_inv_ok.
  injection H2 as <- <-. by exists st'.
Qed.

#[export] Instance fulfillment_typed :
  TypedSaga (BookingFulfillment.saga randomUUID queryBus_dispatch) initialBookingFulfillmentState booking_event fulfillment_handle.
Proof.
  split; [done |]. intros e x entry st w reaction w' [Hn Hp] Hm Hr. rewrite Hn in Hm.
  destruct x as [p | p | p | p | p | p | p | p]; cbn in Hm; injection Hm as <-; exact (saga_entry_run _ _ _ p _ _ _ _ Hp Hr).
Qed.

(** The saga's state tells the booking's, and stands for a confirmed booking that nobody has
    refunded. *)
Record fulfils (bookingId : ID) (paymentId : string) (h : list BookingEvent) (st : BookingFulfillmentState) : Prop := {
  fl_booking : sf_bookingId st = bookingId;
  fl_payment : sf_paymentId st = Some paymentId;
  fl_guest : bs_guestId (booking_state h) = Some (sf_guestId st);
  fl_roomType : bs_roomType (booking_state h) = sf_roomType st;
  fl_checkIn : bs_checkIn (booking_state h) = Some (sf_checkIn st);
  fl_checkOut : bs_checkOut (booking_state h) = Some (sf_checkOut st);
  fl_amount : bs_totalAmount (booking_state h) = sf_totalAmount st;
  fl_standing : lf_phase (the_life h) = confirmed -> lf_refunds (the_life h) = 0 -> sf_status st = f_confirmed;
  fl_reason : sf_status st = f_confirmed -> lf_phase (the_life h) = confirmed \/ 0 < lf_payments (the_life h)
}.

Definition refund_of (bookingId : ID) (paymentId : string) (amount : Z) : command :=
  literal_command "RefundPayment" bookingId {| xd_paymentId := paymentId; xd_amount := amount |}.

(** What the saga asks for at the event [e] of the booking, after the events before it. *)
Definition asks (bookingId : ID) (paymentId : string) (before : list BookingEvent) (e : BookingEvent) (cs : list command) : Prop :=
  let now := booking_state before in
  match e with
  | BookingCreated p => cs = [literal_command "RequestPayment" bookingId {| xr_paymentId := paymentId; xr_amount := bc_totalAmount p |}]
  | PaymentCompleted _ =>
      cs = [literal_command "CancelBooking" bookingId {| xx_reason := "No available room of requested type" |}] \/
      exists room guest checkIn checkOut, bs_guestId now = Some guest /\ bs_checkIn now = Some checkIn /\ bs_checkOut now = Some checkOut /\
        cs = [literal_command "ConfirmBooking" bookingId {| xc_roomId := room |};
              literal_command "ReserveRoom" room {| rv_bookingId := string_of_ID bookingId; rv_guestId := guest;
                                                    rv_checkIn := checkIn; rv_checkOut := checkOut |}]
  | PaymentFailed p => cs = [literal_command "CancelBooking" bookingId {| xx_reason := "Payment failed: " ++ pf_reason p |}]
  | BookingCancelled _ =>
      cs = [refund_of bookingId paymentId (bs_totalAmount now)] /\ (lf_phase (the_life before) = confirmed \/ 0 < lf_payments (the_life before)) \/
      cs = [] /\ ~ (lf_phase (the_life before) = confirmed /\ lf_refunds (the_life before) = 0)
  | _ => cs = []
  end.

Context (Huuid : forall w u w', randomUUID w = (Ok u, w') -> u <> EmptyString).

Lemma fulfils_created p st w st' c w' :
  fulfillment_handle (BookingCreated p) st w = (Ok (st', c), w') ->
  exists paymentId, paymentId <> EmptyString /\ fulfils (bc_bookingId p) paymentId [BookingCreated p] st' /\
    asks (bc_bookingId p) paymentId [] (BookingCreated p) (normalize_commands c).
Proof.
  cbn [fulfillment_handle]. intros (u & w1 & Hu & [= <- <- <-])%bind_inv_ok. exists u. split; [by eapply Huuid |].
  by split; [split |].
Qed.

Lemma fulfils_next bookingId paymentId h e st w st' c w' :
  paymentId <> EmptyString -> lf_created (the_life h) = true -> booking_lawful h e -> fulfils bookingId paymentId h st ->
  fulfillment_handle e st w = (Ok (st', c), w') ->
  fulfils bookingId paymentId (h ++ [e]) st' /\ asks bookingId paymentId h e (normalize_commands c).
Proof.
  intros Hpid Hc Hl [F1 F2 F3 F4 F5 F6 F7 F8 F9] Hh.
  assert (Hs : booking_state (h ++ [e]) = booking_evolve e (booking_state h)) by apply state_after_snoc.
  destruct e as [p | p | p | p | p | p | p | p]; cbn [fulfillment_handle booking_lawful] in Hh, Hl; [congruence | ..].
  - injection Hh as <- <- _. split; [split |]; rewrite ?Hs, ?the_life_snoc; cbn; auto.
  - injection Hh as <- <- _. split; [split; rewrite ?Hs, ?the_life_snoc; cbn; auto; done |].
    cbn [asks]. rewrite F7. destruct (sf_status st) eqn:Est; try (right; split; [done |]; intros [H1 H2]; by specialize (F8 H1 H2)).
    rewrite F2. destruct (String.eqb_spec paymentId EmptyString); [done |]. left. rewrite <- F1. split; [done | auto].
  - injection Hh as <- <- _. split; [split |]; rewrite ?Hs, ?the_life_snoc; cbn; auto.
  - injection Hh as <- <- _. split; [split |]; rewrite ?Hs, ?the_life_snoc; cbn; auto; try done.
    intros [H1 | H1]%F9; [congruence | auto].
  - apply bind_inv_ok in Hh as (rooms & w1 & _ & Hh). cbv zeta in Hh. destruct (falsy (first_room rooms)).
    + injection Hh as <- <- _. rewrite F1. split; [split |]; rewrite ?Hs, ?the_life_snoc; cbn; auto; try done. intros Hp. congruence.
    + destruct (prop "roomId" (first_room rooms)) as [room |]; [| done]. injection Hh as <- <- _. rewrite F1.
      split; [split; rewrite ?Hs, ?the_life_snoc; cbn; auto; try done; try (intros _; right; lia) |].
      right. by exists room, (sf_guestId st), (sf_checkIn st), (sf_checkOut st).
  - injection Hh as <- <- _. rewrite <- F1. split; [split |]; rewrite ?Hs, ?the_life_snoc; cbn; auto; done.
  - injection Hh as <- <- _. split; [split |]; rewrite ?Hs, ?the_life_snoc; cbn; auto; done.
Qed.

Lemma told_fulfils p h : forall css st,
  every_step booking_lawful (BookingCreated p :: h) -> length css = length (BookingCreated p :: h) ->
  told initialBookingFulfillmentState fulfillment_handle (zip (BookingCreated p :: h) css) st ->
  exists paymentId, paymentId <> EmptyString /\ fulfils (bc_bookingId p) paymentId (BookingCreated p :: h) st /\
    every_step (fun before ec => asks (bc_bookingId p) paymentId (map fst before) (fst ec) (snd ec)) (zip (BookingCreated p :: h) css) /\
    lf_created (the_life (BookingCreated p :: h)) = true.
Proof.
  induction h as [| e h IH] using rev_ind; intros css st Hl Hlen Ht.
  - destruct css as [| cs [| ? ?]]; try done. cbn [zip_with] in Ht |- *. apply (told_snoc_inv _ _ []) in Ht as (st0 & w & c & w' & _ & Hh & ->).
    destruct (fulfils_created _ _ _ _ _ _ Hh) as (pid & H1 & H2 & H3). exists pid. split; [done |]. split; [done |]. split; [| done].
    apply (every_step_snoc _ []); [apply every_step_nil | exact H3].
  - destruct css as [| cs css _] using rev_ind; [done |]. rewrite app_comm_cons in *.
    rewrite !length_app in Hlen. cbn [length] in Hlen. assert (Hlen' : length css = length (BookingCreated p :: h)) by (cbn [length]; lia).
    rewrite zip_with_app in * by (by rewrite Hlen'). change (zip [e] [cs]) with [(e, cs)] in *.
    apply told_snoc_inv in Ht as (st0 & w & c & w' & Ht & Hh & ->). apply every_step_inv in Hl as [Hl He].
    destruct (IH css st0 Hl Hlen' Ht) as (pid & Hp & Hf & Ha & Hc).
    destruct (fulfils_next _ _ _ _ _ _ _ _ _ Hp Hc He Hf Hh) as [Hf' Ha']. exists pid. split; [done |]. split; [done |]. split.
    + apply every_step_snoc; [done |]. cbn [fst snd]. by rewrite map_fst_zip.
    + rewrite the_life_snoc. destruct e; cbn; done.
Qed.
End fulfillment.

(** A saga's first event is one that starts it. *)
Lemma followed_starts {W} (saga : Saga W) t loaded : followed saga t loaded ->
  match t with [] => loaded = None | (e, _) :: _ => is_some loaded = true /\ ev_name e ∈ sg_startedBy saga end.
Proof.
  induction 1 as [| t loaded e entry state version w reaction w' Hf IH Hm Hb Hr]; [done |].
  destruct t as [| [e' cs] t]; cbn [app]; [| by destruct IH]. split; [done |]. subst loaded. cbn [bootstrap_or_resume] in Hb.
  destruct (existsb _ _) eqn:E; [| done]. apply existsb_exists in E as (n & Hin & ->%String.eqb_eq). by apply list_elem_of_In.
Qed.

(** ** Properties *)

(** C37. The fulfillment of a booking.  Let the saga handle any lawful history of a booking, each
    event once and in order; rooms may be found or not.  Then the history starts with the
    creation, and the saga's state tells the guest, the dates and the amount of the booking
    as it stands.  At the creation it asks for the payment; when a payment is completed, for
    the confirmation and the reservation of the room in the guest's name, or for the
    cancellation; when one fails, for the cancellation.  When the booking is cancelled
    while it is confirmed and not refunded, it asks for the refund of the amount that was
    last agreed; a booking that nobody has paid or confirmed is not refunded; and at no other
    event does it ask for anything. *)
Theorem fulfillment_contract {W} (randomUUID : M W string) (queryBus_dispatch : string -> value -> M W value) t loaded h :
  (forall w u w', randomUUID w = (Ok u, w') -> u <> EmptyString) ->
  followed (BookingFulfillment.saga randomUUID queryBus_dispatch) t loaded ->
  Forall2 (carries booking_event) (map fst t) h -> every_step booking_lawful h ->
  h = [] /\ loaded = None \/
  exists p h' paymentId st version, h = BookingCreated p :: h' /\ paymentId <> EmptyString /\
    loaded = Some {| ga_state := to_value st; ga_version := version |} /\
    fulfils (bc_bookingId p) paymentId h st /\
    every_step (fun before ec => asks (bc_bookingId p) paymentId (map fst before) (fst ec) (snd ec)) (zip h (map snd t)).
Proof.
  intros Hu Hf Hc Hl. pose proof (followed_starts _ _ _ Hf) as Hst.
  destruct (followed_told _ _ booking_event _ t loaded h (fulfillment_typed _ _) Hf Hc) as (st & Ht & Hld).
  destruct t as [| [e cs] t]; [left; by apply Forall2_nil_inv_l in Hc as -> |]. right.
  destruct Hst as [Hsome Hin%list_elem_of_singleton]. cbn [map fst] in Hc. apply Forall2_cons_inv_l in Hc as (x & h' & [Hx _] & Hc & ->).
  rewrite Hx in Hin. destruct x as [p | p | p | p | p | p | p | p]; try discriminate Hin.
  assert (Hlen : length (map snd ((e, cs) :: t)) = length (BookingCreated p :: h')).
  { cbn [length map]. by rewrite length_map, <- (Forall2_length _ _ _ Hc), length_map. }
  destruct (told_fulfils randomUUID queryBus_dispatch Hu p h' _ st Hl Hlen Ht) as (pid & Hp & H1 & H2 & _).
  destruct loaded as [[state version] |]; [| done]. cbn in Hld. subst state.
  by exists p, h', pid, st, version.
Qed.

(** A payment is charged once when it is requested, in the name and for the amount of the
    event, and the command carries the transaction of the charge; or nothing is charged and
    the payment fails. *)
Lemma charge_or_fail {W} (till : lens W Till) `{!LensLaws till} (randomUUID : M W string) p st w :
  (forall w, exists u w', randomUUID w = (Ok u, w') /\ lget till w' = lget till w) ->
  let '(r, w') := PaymentProcessing.onPaymentRequested (InMemoryPaymentGateway randomUUID till) p st w in
  let t := lget till w in
  exists state,
    if shouldFail t then
      r = Ok (state, OneCommand (literal_command "FailPayment" (pr_bookingId p) {| xf_paymentId := pr_paymentId p; xf_reason := "Payment declined" |})) /\
      pp_status state = p_failed /\ lget till w' = t
    else exists transactionId,
      r = Ok (state, OneCommand (literal_command "CompletePayment" (pr_bookingId p)
                {| xp_paymentId := pr_paymentId p; xp_transactionId := transactionId; xp_amount := pr_amount p |})) /\
      pp_status state = p_charging /\ refunds (lget till w') = refunds t /\
      charges (lget till w') = (charges t ++ [{| cg_guestId := pr_guestId p; cg_amount := pr_amount p; cg_transactionId := transactionId |}])%list.
Proof.
  intros Hu. unfold PaymentProcessing.onPaymentRequested, try_catch. cbn [charge InMemoryPaymentGateway].
  unfold bind, zoom, gets, modify. cbn. rewrite lset_lget. destruct (shouldFail (lget till w)) eqn:E.
  - cbn. by eexists.
  - destruct (Hu w) as (u & w1 & Hr & Hk). rewrite Hr. cbn. eexists. eexists.
    rewrite !lget_lset. cbn. rewrite Hk. by repeat split.
Qed.

(** The message at a check-out goes to the guest who checked in, whoever the event names. *)
Lemma thanks_the_guest_of_the_check_in p q st st' c sent sent' :
  CheckoutReminder.onGuestCheckedIn InMemorySmsService p st sent = (Ok (st', c), sent') ->
  exists st'', CheckoutReminder.onGuestCheckedOut InMemorySmsService q st' sent'
    = (Ok (st'', NoCommands), (sent ++ [{| sm_phone := gi_guestId p; sm_message := "Welcome! Your checkout is expected at the end of your stay." |};
                                        {| sm_phone := gi_guestId p; sm_message := "Thank you for your stay! We hope to see you again." |}])%list) /\
    ck_status st'' = c_completed /\ ck_bookingId st'' = gi_bookingId p.
Proof. intros [= <- _ <-]. cbn. eexists. rewrite <- app_assoc. split; [reflexivity | done]. Qed.

(** ** Examples *)

Definition an_uuid : M unit string := ret "5e7b".
Definition rooms_are (rooms : list value) (_ : string) (_ : value) : M unit value := ret (VArr rooms).
Definition a_room : value := VObj [("roomId", VStr "room-101"); ("status", VStr "available")].

Definition created : BookingCreatedPayload :=
  {| bc_bookingId := IdStr "b1"; bc_guestId := "alice"; bc_roomType := double; bc_checkIn := "2026-05-01"; bc_checkOut := "2026-05-03";
     bc_totalAmount := 240; bc_createdAt := "2026-04-01T00:00:00.000Z" |}.
Definition paid : list BookingEvent :=
  [BookingCreated created;
   PaymentRequested {| pr_bookingId := IdStr "b1"; pr_guestId := Some "alice"; pr_paymentId := "5e7b"; pr_amount := 240 |};
   PaymentCompleted {| pc_bookingId := IdStr "b1"; pc_paymentId := "5e7b"; pc_transactionId := "txn"; pc_amount := 240; pc_completedAt := "2026-04-01" |}].
Definition cancelled_by (why : string) : BookingEvent :=
  BookingCancelled {| bx_bookingId := IdStr "b1"; bx_reason := why; bx_cancelledAt := "2026-04-02" |}.
Definition confirmed_stay : list BookingEvent :=
  (paid ++ [BookingConfirmed {| bf_bookingId := IdStr "b1"; bf_roomId := IdStr "room-101"; bf_confirmedAt := "2026-04-01" |};
            BookingModified {| bm_bookingId := IdStr "b1"; bm_newCheckIn := "2026-05-01"; bm_newCheckOut := "2026-05-02"; bm_newTotalAmount := 120; bm_modifiedAt := "2026-04-01" |};
            cancelled_by "plans changed"])%list.

(** The handler run over a history: each event with the commands it asks for. *)
Fixpoint follow {W} (saga : Saga W) (es : list event) (loaded : option SagaState) (w : W) : option (list (event * list command) * option SagaState) :=
  match es with
  | [] => Some ([], loaded)
  | e :: es' =>
      match mget (ev_name e) (sg_on saga), bootstrap_or_resume saga e loaded with
      | Some entry, Some (state, version) =>
          match on_handle entry e state w with
          | (Ok reaction, w') =>
              option_map (fun '(t, l) => ((e, normalize_commands (re_commands reaction)) :: t, l))
                (follow saga es' (Some {| ga_state := re_state reaction; ga_version := S version |}) w')
          | (Err _, _) => None
          end
      | _, _ => None
      end
  end.

Lemma follow_followed {W} (saga : Saga W) es : forall t loaded w t' loaded',
  followed saga t loaded -> follow saga es loaded w = Some (t', loaded') -> followed saga (t ++ t') loaded'.
Proof.
  induction es as [| e es IH]; intros t loaded w t' loaded' Hf; cbn [follow].
  - intros [= <- <-]. by rewrite app_nil_r.
  - destruct (mget _ _) as [entry |] eqn:Hm; [| done]. destruct (bootstrap_or_resume saga e loaded) as [[state version] |] eqn:Hb; [| done].
    destruct (on_handle entry e state w) as [[reaction | err] w'] eqn:Hr; [| done].
    destruct (follow saga es _ w') as [[t1 l1] |] eqn:E; [| done]. intros [= <- <-].
    rewrite cons_middle, app_assoc. eapply IH; [| exact E]. by eapply followed_event.
Qed.

Definition asked (rooms : list value) (h : list BookingEvent) : option (list (list string)) :=
  option_map (fun '(t, _) => map (fun ec => map cmd_name (snd ec)) t)
    (follow (BookingFulfillment.saga an_uuid (rooms_are rooms)) (map booking_event h) None tt).

Example asked_of_a_confirmed_stay : asked [a_room] confirmed_stay
  = Some [["RequestPayment"]; []; ["ConfirmBooking"; "ReserveRoom"]; []; []; ["RefundPayment"]].
Proof. vm_compute. reflexivity. Qed.

(** The guest has paid and there is no room: the booking is cancelled, and no refund is asked for. *)
Lemma no_room_no_refund : asked [] (paid ++ [cancelled_by "No available room of requested type"])%list
  = Some [["RequestPayment"]; []; ["CancelBooking"]; []].
Proof. vm_compute. reflexivity. Qed.

Lemma carries_all h : Forall2 (carries booking_event) (map booking_event h) h.
Proof. induction h as [| x h IH]; constructor; [by split | done]. Qed.

Lemma fulfillment_contract_witness : exists t loaded,
  follow (BookingFulfillment.saga an_uuid (rooms_are [a_room])) (map booking_event confirmed_stay) None tt = Some (t, loaded) /\
  (confirmed_stay = [] /\ loaded = None \/
   exists p h' paymentId st version, confirmed_stay = BookingCreated p :: h' /\ paymentId <> EmptyString /\
    loaded = Some {| ga_state := to_value st; ga_version := version |} /\
    fulfils (bc_bookingId p) paymentId confirmed_stay st /\
    every_step (fun before ec => asks (bc_bookingId p) paymentId (map fst before) (fst ec) (snd ec)) (zip confirmed_stay (map snd t))).
Proof.
  destruct (follow (BookingFulfillment.saga an_uuid (rooms_are [a_room])) (map booking_event confirmed_stay) None tt) as [[t loaded] |] eqn:E;
    [| vm_compute in E; discriminate E].
  exists t, loaded. split; [reflexivity |]. eapply (fulfillment_contract an_uuid (rooms_are [a_room]) t loaded confirmed_stay).
  - by intros w u w' [= <- _].
  - exact (follow_followed _ _ [] None tt t loaded (followed_nothing _) E).
  - vm_compute in E. injection E as <- _. exact (carries_all confirmed_stay).
  - intros h1 e h2 Hh. repeat (destruct h1 as [| ? h1]; [injection Hh as <- _; vm_compute; auto; discriminate | injection Hh as <- Hh]).
    by destruct h1.
Defined.
