(* ===== verification/SampleHotelHttp.v ===== *)
(** The HTTP layer of the hotel ([samples/sample-hotel-booking/src/infrastructure/http]): the
    routes over the domain, the error handler and the extraction of metadata.  Fastify itself
    (routing, parsing, sending) is left out: a route is a function of the parameters and the
    parsed body, and answers with a status and a body, or throws. *)
From S2P Require Import Prelude Errors Text Json Wire JsMap CoreTypes TypedDomain SampleHotelBooking SampleHotelSagas.
Local Open Scope string_scope.

(** What the routes use of [Domain]. *)
Record HotelDomain (X : Type) : Type := {
  hd_dispatchCommand : command -> M X (option ID);
  hd_dispatchQuery : string -> value -> M X value;
  hd_withUnitOfWork : forall A, M X A -> M X A
}.
Arguments hd_dispatchCommand {X} _.
Arguments hd_dispatchQuery {X} _.
Arguments hd_withUnitOfWork {X} _ {A} _.

Record Reply : Type := { rp_status : Z; rp_body : value }.

(** [reply.status(status).send(body)] *)
Definition send {X} (status : Z) (body : value) : M X Reply := ret {| rp_status := status; rp_body := body |}.
Definition ok_reply {X} : M X Reply := send 200 (VObj [("ok", VBool true)]).
Definition error_body (message : string) : value := VObj [("error", VStr message)].

(** [v.k]; a property of nothing throws. *)
Definition member {X} (k : string) (v : value) : M X value :=
  match v with
  | VUndefined => throw (TypeError ("Cannot read properties of undefined (reading '" ++ k ++ "')"))
  | VNull => throw (TypeError ("Cannot read properties of null (reading '" ++ k ++ "')"))
  | _ => ret (read_prop k v)
  end.

(** ** [plugins/error-handler.ts]; a message is a text, or missing *)

Definition reply_message (error : js_error) : string :=
  match error_prop "message" error with VStr message => message | _ => "Internal server error" end.

Definition named_concurrency (error : js_error) : bool :=
  is_concurrency_error error || match error_prop "name" error with VStr n => String.eqb n "ConcurrencyError" | _ => false end.

Definition errorHandler (error : js_error) : Reply :=
  let message := reply_message error in
  let lower := lower_case message in
  if named_concurrency error || includes "already" lower || includes "cannot" lower
  then {| rp_status := 409; rp_body := error_body message |}
  else if includes "not found" lower then {| rp_status := 404; rp_body := error_body message |}
  else {| rp_status := 500; rp_body := error_body message |}.

(** A request: the route, and the error handler around it. *)
Definition serve {X} (route : M X Reply) : M X Reply := try_catch route (fun error => ret (errorHandler error)).

(** ** [plugins/metadata.ts] *)

(** [typeof headers[name] === "string" ? headers[name] : undefined] *)
Definition text_header (headers : jsmap value) (name : string) : option string :=
  match mget name headers with Some (VStr s) => Some s | _ => None end.

Definition extractMetadata (headers : jsmap value) : MetadataContext :=
  {| mc_correlationId := Some (text_header headers "x-correlation-id"); mc_causationId := None;
     mc_userId := Some (option_map IdStr (text_header headers "x-user-id")) |}.

(** [requestMetadataStorage.getStore() ?? {}] of [main.ts] *)
Definition metadataProvider (store : option MetadataContext) : MetadataContext := or_default store empty_context.

(** ** The routes *)

Section routes.
Context {X : Type} (domain : HotelDomain X) (randomUUID : M X string).

(** [domain.dispatchCommand({ name, targetAggregateId, payload })] *)
Definition dispatch (name : string) (targetAggregateId : option ID) (payload : value) : M X unit :=
  _ <- hd_dispatchCommand domain {| cmd_name := name; cmd_payload := payload; cmd_commandId := None; cmd_targetAggregateId := targetAggregateId |} ;;
  ret tt.

(** A route that dispatches one command and answers [{ ok: true }]. *)
Definition command_route (name : string) (targetAggregateId : string) (payload : value) : M X Reply :=
  dispatch name (Some (IdStr targetAggregateId)) payload ;;; ok_reply.

Definition rooms_create (body : value) : M X Reply :=
  roomId <- randomUUID ;; dispatch "CreateRoom" (Some (IdStr roomId)) body ;;; send 201 (VObj [("roomId", VStr roomId)]).
Definition rooms_makeAvailable (roomId : string) : M X Reply := command_route "MakeRoomAvailable" roomId VUndefined.
Definition rooms_reserve (roomId : string) (body : value) : M X Reply := command_route "ReserveRoom" roomId body.
Definition rooms_checkIn (roomId : string) (body : value) : M X Reply := command_route "CheckInGuest" roomId body.
Definition rooms_checkOut (roomId : string) (body : value) : M X Reply := command_route "CheckOutGuest" roomId body.
Definition rooms_maintenance (roomId : string) (body : value) : M X Reply := command_route "PutUnderMaintenance" roomId body.

Definition bookings_create (body : value) : M X Reply :=
  bookingId <- randomUUID ;; dispatch "CreateBooking" (Some (IdStr bookingId)) body ;;; send 201 (VObj [("bookingId", VStr bookingId)]).
Definition bookings_confirm (bookingId : string) (body : value) : M X Reply :=
  roomId <- member "roomId" body ;; command_route "ConfirmBooking" bookingId (VObj [("roomId", roomId)]).
Definition bookings_cancel (bookingId : string) (body : value) : M X Reply :=
  reason <- member "reason" body ;; command_route "CancelBooking" bookingId (VObj [("reason", reason)]).
Definition bookings_requestPayment (bookingId : string) (body : value) : M X Reply :=
  paymentId <- randomUUID ;;
  amount <- member "amount" body ;;
  dispatch "RequestPayment" (Some (IdStr bookingId)) (VObj [("paymentId", VStr paymentId); ("amount", amount)]) ;;;
  send 200 (VObj [("paymentId", VStr paymentId)]).
Definition bookings_completePayment (bookingId : string) (body : value) : M X Reply := command_route "CompletePayment" bookingId body.

(** One room of a group: its booking, and its reservation. *)
Definition group_room (guestId : value) (room : value) : M X string :=
  bookingId <- randomUUID ;;
  roomType <- member "roomType" room ;;
  let checkIn := read_prop "checkIn" room in
  let checkOut := read_prop "checkOut" room in
  dispatch "CreateBooking" (Some (IdStr bookingId))
    (VObj [("guestId", guestId); ("roomType", roomType); ("checkIn", checkIn); ("checkOut", checkOut); ("totalAmount", read_prop "totalAmount" room)]) ;;;
  dispatch "ReserveRoom" (id_of_value (read_prop "roomId" room))
    (VObj [("bookingId", VStr bookingId); ("guestId", guestId); ("checkIn", checkIn); ("checkOut", checkOut)]) ;;;
  ret bookingId.

(** The array [bookingIds] is what the rooms have pushed; the reply is sent after the commit.
    The loop carries the array, and the unit of work returns it. *)
Fixpoint group_rooms (guestId : value) (rooms : list value) (bookingIds : list string) : M X (list string) :=
  match rooms with
  | [] => ret bookingIds
  | room :: rooms' => bookingId <- group_room guestId room ;; group_rooms guestId rooms' (bookingIds ++ [bookingId])%list
  end.

Definition bookings_group (body : value) : M X Reply :=
  match body with
  | VUndefined | VNull =>
      throw (TypeError ("Cannot destructure property 'guestId' of 'request.body' as it is " ++ match body with VNull => "null" | _ => "undefined" end ++ "."))
  | _ =>
      bookingIds <- hd_withUnitOfWork domain
        match read_prop "rooms" body with
        | VArr rooms => group_rooms (read_prop "guestId" body) rooms []
        | _ => throw (TypeError "rooms is not iterable")
        end ;;
      send 201 (VObj [("bookingIds", VArr (map VStr bookingIds))])
  end.

(** [result == null] answers 404. *)
Definition queries_found (message : string) (result : value) : M X Reply :=
  if nullish result then send 404 (error_body message) else send 200 result.
Definition queries_roomAvailability (roomId : string) : M X Reply :=
  result <- hd_dispatchQuery domain "GetRoomAvailability" (VObj [("roomId", VStr roomId)]) ;; queries_found "Room not found" result.
Definition queries_roomsAvailable (type : value) : M X Reply :=
  result <- hd_dispatchQuery domain "SearchAvailableRooms" (VObj [("type", type)]) ;; send 200 result.
Definition queries_guestHistory (guestId : string) : M X Reply :=
  result <- hd_dispatchQuery domain "GetGuestHistory" (VObj [("guestId", VStr guestId)]) ;; queries_found "Guest not found" result.
Definition queries_revenue (date : string) : M X Reply :=
  result <- hd_dispatchQuery domain "GetDailyRevenue" (VObj [("date", VStr date)]) ;; queries_found "No revenue data for this date" result.

Definition health : M X Reply := ret {| rp_status := 200; rp_body := VObj [("status", VStr "ok")] |}.
End routes.

(** ** What the error handler makes of the errors *)

Lemma conflict_word error w : is_concurrency_error error = false ->
  In w ["already"; "cannot"] -> includes w (lower_case (reply_message error)) = true -> rp_status (errorHandler error) = 409%Z.
Proof.
  intros _ Hw Hi. unfold errorHandler. cbv zeta.
  destruct Hw as [<- | [<- | []]]; rewrite Hi, ?orb_true_r; reflexivity.
Qed.

(** A command that the state of the booking forbids is a conflict, whatever the state. *)
Lemma forbidden_is_conflict what status :
  In what ["Cannot confirm booking in "; "Cannot request payment in "; "Cannot complete payment in "; "Cannot fail payment in ";
           "Cannot reserve room in "; "Cannot check in to room in "; "Cannot check out from room in "] ->
  rp_status (errorHandler (PlainError (what ++ status))) = 409%Z.
Proof.
  intros H. apply (conflict_word _ "cannot"); [done | by right; left |].
  repeat (destruct H as [<- | H]; [reflexivity |]). destruct H.
Qed.

Lemma race_is_conflict name i expected actual : rp_status (errorHandler (ConcurrencyError name i expected actual)) = 409%Z.
Proof. reflexivity. Qed.

(** A request without its body is answered as a conflict: the message of the [TypeError] has
    "Cannot". *)
Lemma missing_body_is_conflict {X} (domain : HotelDomain X) bookingId x :
  exists body, serve (bookings_confirm domain bookingId VUndefined) x = (Ok {| rp_status := 409; rp_body := body |}, x).
Proof. eexists. reflexivity. Qed.

(** A refund where nothing was paid, and a domain that shuts down, are internal errors. *)
Lemma refund_of_nothing_is_internal : rp_status (errorHandler (PlainError "No payment to refund")) = 500%Z /\
  rp_status (errorHandler DomainShutdownError) = 500%Z.
Proof. by split. Qed.

(** Every answer to a request is a status of the table, and the request never throws. *)
Lemma serve_answers {X} (route : M X Reply) x : exists reply x', serve route x = (Ok reply, x') /\
  (route x = (Ok reply, x') \/ exists error, route x = (Err error, x') /\ reply = errorHandler error /\ In (rp_status reply) [409; 404; 500]%Z).
Proof.
  unfold serve, try_catch. destruct (route x) as [[reply | error] x']; eexists _, _; (split; [reflexivity |]); [by left |].
  right. exists error. split; [done |]. split; [done |]. unfold errorHandler. cbv zeta.
  destruct (_ || _ || _); [by left |]. destruct (includes _ _); [by right; left | by right; right; left].
Qed.

