(* ===== verification/SampleHotel.v ===== *)
(** The hotel as a whole ([samples/sample-hotel-booking/src/main.ts], [domain/domain.ts]): the
    domain definition of its aggregates, projections, sagas and handlers, initialised over the
    in-memory stores and the in-process buses (of [main.ts], [EVENT_BUS=in-memory] chooses the
    bus; the database, the tables and the listening are left out), and requests against it. *)
From S2P Require Import Prelude Errors Text Json Wire JsMap CoreTypes Host Stores UnitOfWork Concurrency Metadata World CommandExecutor Buses SagaExecutor Projection Domain Wiring Init Assembly ReadModel TypedDomain SampleHotelRooms SampleHotelBooking SampleHotelInventory SampleHotelSagas SampleHotelHttp.
Local Open Scope string_scope.

(** [domain.ts] *)
Definition aggregates {W} (clock_now : M W Z) : jsmap (Aggregate W) :=
  [("Room", Room clock_now); ("Booking", Booking clock_now); ("Inventory", Inventory)].

Definition sagas {W} (randomUUID : M W string) (queryBus_dispatch : string -> value -> M W value) (smsService : SmsService W)
    (paymentGateway : PaymentGateway W) : jsmap (Saga W) :=
  [("BookingFulfillment", BookingFulfillment.saga randomUUID queryBus_dispatch);
   ("CheckoutReminder", CheckoutReminder.saga smsService);
   ("PaymentProcessing", PaymentProcessing.saga paymentGateway)].

(** A handler of a query against the view store of its projection. *)
Definition over_views {W Tx} (handler : ViewStore W -> value -> M W value) : option (projection_query_handler W Tx) :=
  Some (fun query views => match views with Some store => world_op (handler store query) | None => throw ill_typed end).

(** A dispatch on a bus, outside any unit of work. *)
Definition outside {W Tx A} (m : M (Exec W Tx) A) : M W A := fun w =>
  let '(r, s) := m {| ex_world := w; ex_uow := None; ex_meta := None |} in (r, ex_world s).

Section hotel.
Context {W Tx : Type} (clock_now : M W Z) (randomUUID : M W string) (smsService : SmsService W) (paymentGateway : PaymentGateway W)
  (console_log : string -> M W unit)
  (rooms guests revenue : lens W Views.store).

Definition projections : jsmap (ProjectionDefinition W Tx) :=
  [("RoomAvailability", {| pd_projection := RoomAvailabilityProjection;
      pd_queryHandlers := [("GetRoomAvailability", over_views handleGetRoomAvailability);
                           ("ListAvailableRooms", Some (fun query _ => world_op (handleListAvailableRooms rooms query)))];
      pd_viewStore := None |});
   ("GuestHistory", {| pd_projection := GuestHistoryProjection;
      pd_queryHandlers := [("GetGuestHistory", over_views handleGetGuestHistory)]; pd_viewStore := None |});
   ("Revenue", {| pd_projection := RevenueProjection;
      pd_queryHandlers := [("GetDailyRevenue", over_views handleGetDailyRevenue)]; pd_viewStore := None |})].

(** [defineDomain] of [main.ts]. *)
Definition hotelDomain (infra : Infrastructure W Tx) : DomainDefinition W Tx :=
  {| df_aggregates := aggregates clock_now;
     df_standaloneCommandHandlers := Some [("RunNightlyAudit", Some (fun c =>
       match prop "auditDate" (cmd_payload c) with
       | Some auditDate => world_op (RunNightlyAuditHandler clock_now console_log auditDate)
       | None => throw ill_typed
       end))];
     df_projections := projections;
     df_standaloneQueryHandlers := Some [("SearchAvailableRooms", Some (fun query => world_op (SearchAvailableRoomsHandler rooms query)))];
     df_sagas := Some (sagas randomUUID (fun name payload => outside (if_dispatchQuery infra name payload)) smsService paymentGateway);
     df_standaloneEventHandlers := None |}.

(** The wiring of the view stores. *)
Definition hotel_wiring : DomainWiring W Tx :=
  {| dw_persistenceAdapter := None; dw_infrastructure := None; dw_aggregates := None;
     dw_projections := [("RoomAvailability", InMemoryViewStoreFactory (zoom_view rooms Views.persistence));
                        ("GuestHistory", InMemoryViewStoreFactory (zoom_view guests Views.persistence));
                        ("Revenue", InMemoryViewStoreFactory (zoom_view revenue Views.persistence))];
     dw_sagas := None; dw_buses := None; dw_unitOfWork := None; dw_idempotency := None; dw_outbox := None;
     dw_relayBatchSize := None; dw_metadataProvider := None |}.
End hotel.

(** ** In memory *)

Definition site_uuid : M Site string := zoom site_host new_uuid.
Definition site_clock : M Site Z := zoom site_host date_now.
Definition site_sms : SmsService Site := {| sms_send := fun _ _ => ret tt |}.
Definition site_definition (infra : Infrastructure Site unit) : DomainDefinition Site unit :=
  hotelDomain site_clock site_uuid site_sms (FakePaymentGateway site_uuid) (fun _ => ret tt) (site_view_lens "RoomAvailability") infra.
Definition site_wiring : DomainWiring Site unit :=
  hotel_wiring (site_view_lens "RoomAvailability") (site_view_lens "GuestHistory") (site_view_lens "Revenue").
Definition no_log (h : nat) (e : event) (err : js_error) : M (Exec Site unit) unit := ret tt.

Definition site_hotel (rd : RunningDomain) (depth : nat) : HotelDomain (Exec Site unit) :=
  {| hd_dispatchCommand := domain_dispatchCommand site_host site_gate site_bus None no_log site_wiring site_definition rd depth;
     hd_dispatchQuery := domain_dispatchQuery site_host site_gate site_bus None no_log site_wiring site_definition rd depth;
     hd_withUnitOfWork := fun A => domain_withUnitOfWork site_host site_gate site_bus None no_log site_wiring site_definition rd depth |}.

Definition hotel_open (depth : nat) : result RunningDomain * Site :=
  init site_host site_bus (EventSourced site_events) site_sagas None no_log
    not_a_component not_a_component not_a_component site_wiring site_definition [] depth (empty_site sample_host).

(** Requests one after the other, and their answers. *)
Fixpoint requests (rs : list (M (Exec Site unit) Reply)) (s : Exec Site unit) : list Reply * Exec Site unit :=
  match rs with
  | [] => ([], s)
  | r :: rs' =>
      match serve r s with
      | (Ok reply, s') => let '(replies, s'') := requests rs' s' in (reply :: replies, s'')
      | (Err _, s') => requests rs' s'
      end
  end.

Definition visit (depth : nat) (rs : HotelDomain (Exec Site unit) -> list (M (Exec Site unit) Reply)) : option (list Reply * Exec Site unit) :=
  match hotel_open depth with
  | (Ok rd, w) => Some (requests (rs (site_hotel rd depth)) (at_site w))
  | (Err _, _) => None
  end.

(** ** What the hotel shows after some requests *)

Record Report : Type := {
  statuses : list Z;
  booking_b1 : option BookingState;
  room_r1 : option RoomState;
  rooms_shown : list (string * option RoomAvailabilityView);
  histories_shown : list (string * option GuestHistoryView);
  revenue_shown : list (string * option RevenueView)
}.

Definition stored_state {St} `{Typed St} (ag : Aggregate Site) (k : string) (s : Exec Site unit) : option St :=
  match replay ag (site_stream (ex_world s) k) (ag_initialState ag) with Ok v => of_value v | Err _ => None end.
Definition views_shown {V} `{Typed V} (name : string) (s : Exec Site unit) : list (string * option V) :=
  map (fun kv => (fst kv, of_value (snd kv))) (views_at name s).

Definition hotel_report (visited : option (list Reply * Exec Site unit)) : option Report :=
  match visited with
  | Some (replies, s) =>
      Some {| statuses := map rp_status replies; booking_b1 := stored_state (Booking site_clock) "Booking:b1" s;
              room_r1 := stored_state (Room site_clock) "Room:r1" s; rooms_shown := views_shown "RoomAvailability" s;
              histories_shown := views_shown "GuestHistory" s; revenue_shown := views_shown "Revenue" s |}
  | None => None
  end.

Definition fixed (i : string) : M (Exec Site unit) string := ret i.

Definition a_stay (guest checkIn checkOut : string) (amount : Z) (d : HotelDomain (Exec Site unit)) : M (Exec Site unit) Reply :=
  bookings_create d (fixed "b1")
    (VObj [("guestId", VStr guest); ("roomType", VStr "double"); ("checkIn", VStr checkIn); ("checkOut", VStr checkOut); ("totalAmount", VNum amount)]).

(** A double room is created and made available. *)
Definition a_double (i number : string) (price : Z) (d : HotelDomain (Exec Site unit)) : list (M (Exec Site unit) Reply) :=
  [rooms_create d (fixed i) (VObj [("roomNumber", VStr number); ("type", VStr "double"); ("floor", VNum 1); ("pricePerNight", VNum price)]);
   rooms_makeAvailable d i].

(** One request books a room.  In a hotel with one available double room, the request for a
    double room is answered with 201, and by then the processes of the booking and of the payment
    have run: the payment was requested, charged and completed, the booking is confirmed with the room, the room is
    reserved for the guest, the search no longer offers it, the guest's history has the
    booking and the day's revenue the amount.  In a hotel without a room the booking
    ends cancelled, without a room, its payment completed and not refunded.  This holds for
    any guest, dates, amount, room number and price. *)
Theorem hotel_books guest checkIn checkOut amount number price :
  (exists paymentId transactionId day, hotel_report (visit 5 (fun d => (a_double "r1" number price d ++ [a_stay guest checkIn checkOut amount d])%list))
  = Some {| statuses := [201; 200; 201]%Z;
            booking_b1 := Some {| bs_guestId := Some guest; bs_roomType := Some double; bs_checkIn := Some checkIn; bs_checkOut := Some checkOut;
              bs_totalAmount := amount; bs_status := confirmed; bs_roomId := Some (IdStr "r1"); bs_paymentId := Some paymentId;
              bs_transactionId := Some transactionId |};
            room_r1 := Some {| rs_roomNumber := Some number; rs_type := Some double; rs_floor := 1; rs_pricePerNight := price;
              rs_status := reserved; rs_currentBookingId := Some "b1"; rs_currentGuestId := Some guest |};
            rooms_shown := [("r1", Some {| rv_roomId := IdStr "r1"; rv_roomNumber := number; rv_type := double; rv_floor := 1;
              rv_pricePerNight := price; rv_status := "reserved"; rv_currentGuestId := Some guest |})];
            histories_shown := [(guest, Some {| gh_guestId := guest; gh_bookings := [{| gb_bookingId := IdStr "b1"; gb_roomType := double;
              gb_checkIn := checkIn; gb_checkOut := checkOut; gb_status := "pending" |}] |})];
            revenue_shown := [(day, Some {| re_date := day; re_totalRevenue := amount; re_bookingCount := 1 |})] |}) /\
  exists paymentId transactionId day, hotel_report (visit 5 (fun d => [a_stay guest checkIn checkOut amount d]))
  = Some {| statuses := [201]%Z;
            booking_b1 := Some {| bs_guestId := Some guest; bs_roomType := Some double; bs_checkIn := Some checkIn; bs_checkOut := Some checkOut;
              bs_totalAmount := amount; bs_status := cancelled; bs_roomId := None; bs_paymentId := Some paymentId;
              bs_transactionId := Some transactionId |};
            room_r1 := Some initialRoomState; rooms_shown := [];
            histories_shown := [(guest, Some {| gh_guestId := guest; gh_bookings := [{| gb_bookingId := IdStr "b1"; gb_roomType := double;
              gb_checkIn := checkIn; gb_checkOut := checkOut; gb_status := "pending" |}] |})];
            revenue_shown := [(day, Some {| re_date := day; re_totalRevenue := amount; re_bookingCount := 1 |})] |}.
Proof. split; do 3 eexists; vm_compute; reflexivity. Qed.

(** ** What nobody undoes *)

Definition names_of (k : string) (visited : option (list Reply * Exec Site unit)) : list string :=
  match visited with Some (_, s) => map ev_name (site_stream (ex_world s) k) | None => [] end.

(** A confirmed booking is cancelled and refunded; its room stays reserved. *)
Lemma cancelled_and_still_reserved : let visited := visit 5 (fun d => (a_double "r1" "101" 120 d ++
    [a_stay "alice" "2026-05-01" "2026-05-03" 240 d; bookings_cancel d "b1" (VObj [("reason", VStr "plans changed")])])%list) in
  names_of "Booking:b1" visited = ["BookingCreated"; "PaymentRequested"; "PaymentCompleted"; "BookingConfirmed"; "BookingCancelled"; "PaymentRefunded"] /\
  names_of "Room:r1" visited = ["RoomCreated"; "RoomMadeAvailable"; "RoomReserved"].
Proof. split; vm_compute; reflexivity. Qed.

(** A group books the room [r1]; the fulfillment process of the same booking reserves [r2] too. *)
Lemma group_reserves_twice : let visited := visit 5 (fun d => (a_double "r1" "101" 120 d ++ a_double "r2" "102" 120 d ++
    [bookings_group d (fixed "b1") (VObj [("guestId", VStr "alice"); ("rooms", VArr [VObj [("roomId", VStr "r1"); ("roomType", VStr "double");
       ("checkIn", VStr "2026-05-01"); ("checkOut", VStr "2026-05-03"); ("totalAmount", VNum 240)]])])])%list) in
  names_of "Booking:b1" visited = ["BookingCreated"; "PaymentRequested"; "PaymentCompleted"; "BookingConfirmed"] /\
  names_of "Room:r1" visited = ["RoomCreated"; "RoomMadeAvailable"; "RoomReserved"] /\
  names_of "Room:r2" visited = ["RoomCreated"; "RoomMadeAvailable"; "RoomReserved"].
Proof. do 2 (split; [vm_compute; reflexivity |]). vm_compute. reflexivity. Qed.
