(* ===== verification/Naming.v ===== *)
(** The names of the command line tool (packages/cli/src/utils/naming.ts, context.ts and
    event-naming.ts): a name in any casing is split into words, and the three spellings
    that the templates use, PascalCase, camelCase and kebab-case, are built from the words.
    Characters are those of ASCII: the case of other letters is not modelled. *)
From Stdlib Require Import Ascii.
From S2P Require Import Prelude Text.
Local Open Scope Z_scope.

(** ** Characters *)

Definition is_upper (c : Ascii.ascii) : bool := (65 <=? code c) && (code c <=? 90).
Definition is_lower (c : Ascii.ascii) : bool := (97 <=? code c) && (code c <=? 122).
(** [\s], which is also what [trim] removes. *)
Definition is_space (c : Ascii.ascii) : bool := ((9 <=? code c) && (code c <=? 13)) || (code c =? 32).
(** [[-_]] *)
Definition is_dash (c : Ascii.ascii) : bool := (code c =? 45) || (code c =? 95).

Definition upper (c : Ascii.ascii) : Ascii.ascii := if is_lower c then chr (code c - 32) else c.
Definition lower (c : Ascii.ascii) : Ascii.ascii := if is_upper c then chr (code c + 32) else c.

Definition toUpperCase (s : chars) : chars := map upper s.
Definition toLowerCase (s : chars) : chars := map lower s.

Definition space : Ascii.ascii := " "%char.
Definition hyphen : Ascii.ascii := "-"%char.

(** ** Splitting into words *)

(** [replace(/([a-z])([A-Z])/g, "$1 $2")]: a match takes both characters, and the second,
    an upper-case letter, cannot begin another one. *)
Fixpoint split_camel (s : chars) : chars :=
  match s with
  | a :: ((b :: rest) as tail) =>
      if is_lower a && is_upper b then a :: space :: b :: split_camel rest else a :: split_camel tail
  | _ => s
  end.

(** [replace(/([A-Z]+)([A-Z][a-z])/g, "$1 $2")]: in a run of upper-case letters followed
    by a lower-case one the first group is the run without its last letter. *)
Fixpoint split_acronym (s : chars) : chars :=
  match s with
  | a :: ((b :: ((c :: rest) as tail')) as tail) =>
      if is_upper a && is_upper b && is_lower c then a :: space :: b :: c :: split_acronym rest
      else a :: split_acronym tail
  | _ => s
  end.

(** [replace(/[-_]+/g, " ")] *)
Fixpoint split_dashes (s : chars) : chars :=
  match s with
  | [] => []
  | a :: tail =>
      if is_dash a then
        match tail with
        | b :: _ => if is_dash b then split_dashes tail else space :: split_dashes tail
        | [] => [space]
        end
      else a :: split_dashes tail
  end.

Fixpoint trimStart (s : chars) : chars :=
  match s with
  | a :: tail => if is_space a then trimStart tail else s
  | [] => []
  end.

Definition trimEnd (s : chars) : chars := rev (trimStart (rev s)).
Definition trim (s : chars) : chars := trimEnd (trimStart s).

(** [split(/\s+/)]: the pieces between the runs of white space; [word] is the piece read
    so far and [sep] tells that the last character was a space. *)
Fixpoint split_spaces (word : chars) (sep : bool) (s : chars) : list chars :=
  match s with
  | [] => [rev word]
  | a :: tail =>
      if is_space a then
        if sep then split_spaces word true tail else rev word :: split_spaces [] true tail
      else split_spaces (a :: word) false tail
  end.

Definition nonempty (w : chars) : bool := (0 <? length w)%nat.

Definition splitWords (input : chars) : list chars :=
  List.filter nonempty (split_spaces [] false (trim (split_dashes (split_acronym (split_camel input))))).

(** ** The three spellings *)

(** [w.charAt(0).toUpperCase() + w.slice(1).toLowerCase()] *)
Definition capitalize (w : chars) : chars :=
  match w with a :: rest => upper a :: toLowerCase rest | [] => [] end.

Definition toPascalCase (input : chars) : chars := concat (map capitalize (splitWords input)).

Definition uncapitalize (w : chars) : chars :=
  match w with a :: rest => lower a :: rest | [] => [] end.

Definition toCamelCase (input : chars) : chars := uncapitalize (toPascalCase input).

(** [words.join(sep)] *)
Fixpoint join (sep : chars) (words : list chars) : chars :=
  match words with
  | [] => []
  | [w] => w
  | w :: rest => w ++ sep ++ join sep rest
  end.

Definition toKebabCase (input : chars) : chars := join [hyphen] (map toLowerCase (splitWords input)).

Definition invalid_name (name : chars) (why : string) : js_error :=
  PlainError ("Invalid name: " ++ quoted (string_of name) ++ why).

Definition validateName (name : chars) : result unit :=
  let pascal := toPascalCase name in
  match pascal with
  | [] => Err (invalid_name name " produces an empty identifier.")
  | a :: _ =>
      if is_upper a then Ok tt
      else Err (invalid_name name (" must start with a letter (got " ++ quoted (string_of pascal) ++ ")."))
  end.

(** ** The context of a template *)

Record TemplateContext : Type := { tc_name : chars; tc_camelName : chars; tc_kebabName : chars }.

Definition buildContext (rawName : chars) : TemplateContext :=
  {| tc_name := toPascalCase rawName; tc_camelName := toCamelCase rawName; tc_kebabName := toKebabCase rawName |}.

(** ** Names of events *)

Definition splitPascal (name : chars) : list chars :=
  List.filter nonempty (split_spaces [] false (split_acronym (split_camel name))).

Definition is_vowel (c : Ascii.ascii) : bool := existsb (Ascii.eqb c) ["a"; "e"; "i"; "o"; "u"]%char.

Definition toPastTense (verb : chars) : chars :=
  match rev (toLowerCase verb), rev verb with
  | l1 :: before, v1 :: _ =>
      if Ascii.eqb l1 "e" then verb ++ ["d"%char]
      else
        match before with
        | l2 :: l3 :: _ =>
            if negb (is_vowel l1) && is_vowel l2 && negb (is_vowel l3) then verb ++ v1 :: ["e"; "d"]%char
            else verb ++ ["e"; "d"]%char
        | _ => verb ++ ["e"; "d"]%char
        end
  | _, _ => verb ++ ["e"; "d"]%char
  end.

Definition deriveEventName (commandName : chars) : chars :=
  match splitPascal (toPascalCase commandName) with
  | [] => commandName
  | [word] => toPascalCase (toPastTense word)
  | verb :: subject => concat subject ++ toPastTense verb
  end.

Definition eventKebab (eventName : chars) : chars := toKebabCase eventName.

(** ** Case and classes of characters *)

Ltac by_char := repeat match goal with c : Ascii.ascii |- _ => destruct c as [[] [] [] [] [] [] [] []] end; vm_compute; try done.

Lemma lower_lower c : lower (lower c) = lower c. Proof. by_char. Qed.
Lemma upper_lower c : upper (lower c) = upper c. Proof. by_char. Qed.
Lemma lower_not_upper c : is_upper (lower c) = false. Proof. by_char. Qed.
Lemma is_space_lower c : is_space (lower c) = is_space c. Proof. by_char. Qed.
Lemma is_dash_lower c : is_dash (lower c) = is_dash c. Proof. by_char. Qed.
Lemma lower_letter c : is_lower c || is_upper c = true -> is_lower (lower c) = true. Proof. by_char. Qed.
Lemma upper_letter c : is_lower c || is_upper c = true -> is_upper (upper c) = true. Proof. by_char. Qed.
Lemma lower_is_not_upper c : is_lower c = true -> is_upper c = false. Proof. by_char. Qed.
Lemma upper_is_not_lower c : is_upper c = true -> is_lower c = false. Proof. by_char. Qed.
Lemma letter_clean c : is_lower c || is_upper c = true -> is_space c = false /\ is_dash c = false. Proof. by_char. Qed.

Create Rewrite HintDb cases.
#[export] Hint Rewrite lower_lower upper_lower is_space_lower is_dash_lower : cases.

Lemma toLowerCase_twice w : toLowerCase (toLowerCase w) = toLowerCase w.
Proof. unfold toLowerCase. rewrite map_map. apply map_ext. apply lower_lower. Qed.

Lemma capitalize_lower w : capitalize (toLowerCase w) = capitalize w.
Proof. destruct w as [| a w]; [done |]. cbn. by rewrite upper_lower, toLowerCase_twice. Qed.

(** ** Words *)

(** A word of [splitWords]: not empty, without white space and dashes. *)
Definition clean (w : chars) : Prop :=
  w <> [] /\ Forall (fun c => is_space c = false /\ is_dash c = false) w.

Lemma clean_lower w : clean w -> clean (toLowerCase w).
Proof.
  intros [Hne Hall]. split; [by destruct w |]. unfold toLowerCase. apply Forall_map.
  eapply Forall_impl; [exact Hall |]. intros c [Hs Hd]. cbn. by autorewrite with cases.
Qed.

Lemma trimStart_incl s : forall c, c ∈ trimStart s -> c ∈ s.
Proof.
  induction s as [| a s IH]; [done |]. cbn. intros c. destruct (is_space a); [| done].
  intros Hc. apply list_elem_of_further. by apply IH.
Qed.

Lemma trim_incl s c : c ∈ trim s -> c ∈ s.
Proof.
  unfold trim, trimEnd. rewrite !list_elem_of_In, <- in_rev, <- !list_elem_of_In. intros H%trimStart_incl.
  rewrite list_elem_of_In, <- in_rev, <- list_elem_of_In in H. by apply trimStart_incl.
Qed.

Lemma split_dashes_clean s : Forall (fun c => is_dash c = false) (split_dashes s).
Proof.
  induction s as [| a s IH]; [constructor |]. cbn. destruct (is_dash a) eqn:Ea; [| by constructor].
  destruct s as [| b s]; [by repeat constructor |]. destruct (is_dash b); [exact IH | by constructor].
Qed.

Lemma split_spaces_incl s : forall word sep w c, w ∈ split_spaces word sep s -> c ∈ w ->
  c ∈ word \/ (c ∈ s /\ is_space c = false).
Proof.
  induction s as [| a s IH]; intros word sep w c; cbn.
  { intros ->%list_elem_of_singleton. rewrite list_elem_of_In, <- in_rev, <- list_elem_of_In. by left. }
  destruct (is_space a) eqn:Ea; [destruct sep |].
  - intros Hw Hc. destruct (IH _ _ _ _ Hw Hc) as [| []]; [by left | right; by split; [right |]].
  - intros [-> | Hw]%elem_of_cons Hc; [rewrite list_elem_of_In, <- in_rev, <- list_elem_of_In in Hc; by left |].
    destruct (IH _ _ _ _ Hw Hc) as [Hn | []]; [by apply not_elem_of_nil in Hn | right; by split; [right |]].
  - intros Hw Hc. destruct (IH _ _ _ _ Hw Hc) as [[-> | H]%elem_of_cons | []]; [right | by left | right].
    + split; [left | done].
    + by split; [right |].
Qed.

Lemma splitWords_clean s : Forall clean (splitWords s).
Proof.
  apply Forall_forall. intros w Hw. unfold splitWords in Hw. apply list_elem_of_In, filter_In in Hw as [Hin Hne].
  split; [by destruct w |]. apply Forall_forall. intros c Hc. apply list_elem_of_In in Hin.
  destruct (split_spaces_incl _ _ _ _ _ Hin Hc) as [H | [H1 H2]]; [by apply not_elem_of_nil in H |].
  split; [done |]. apply trim_incl in H1. revert c H1 Hc H2. 
  intros c H1 _ _. exact (proj1 (Forall_forall _ _) (split_dashes_clean _) c H1).
Qed.

(** ** Words that are joined again *)

Lemma split_camel_cons a b s :
  split_camel (a :: b :: s) = if is_lower a && is_upper b then a :: space :: b :: split_camel s else a :: split_camel (b :: s).
Proof. reflexivity. Qed.

Lemma split_camel_id s : Forall (fun c => is_upper c = false) s -> split_camel s = s.
Proof.
  cut (forall a, Forall (fun c => is_upper c = false) (a :: s) -> split_camel (a :: s) = a :: s /\ split_camel s = s).
  { destruct s as [| a s]; [done |]. intros H Hs. by apply (H a); constructor; [inversion Hs |]. }
  induction s as [| b s IH]; intros a H; [done |].
  inversion H as [| ? ? Ha Hbs]; subst. inversion Hbs as [| ? ? Hb Hs]; subst.
  destruct (IH b Hbs) as [H1 _]. split; [| exact H1].
  by rewrite split_camel_cons, Hb, andb_false_r, H1.
Qed.

Lemma split_acronym_cons a b c s :
  split_acronym (a :: b :: c :: s) = if is_upper a && is_upper b && is_lower c
    then a :: space :: b :: c :: split_acronym s else a :: split_acronym (b :: c :: s).
Proof. reflexivity. Qed.

Lemma split_acronym_id s : Forall (fun c => is_upper c = false) s -> split_acronym s = s.
Proof.
  induction s as [| a s IH]; [done |]. intros H. inversion H as [| ? ? Ha Hs]; subst.
  destruct s as [| b [| c s]]; [done | done |]. by rewrite split_acronym_cons, Ha, (IH Hs).
Qed.

Lemma split_dashes_app w s : Forall (fun c => is_dash c = false) w -> split_dashes (w ++ s) = w ++ split_dashes s.
Proof. induction w as [| a w IH]; [done |]. intros H. inversion H as [| ? ? Ha Hw]; subst. cbn. by rewrite Ha, IH. Qed.

Lemma clean_no_dash w : clean w -> Forall (fun c => is_dash c = false) w.
Proof. intros [_ H]. eapply Forall_impl; [exact H |]. by intros c [_ ?]. Qed.

Lemma clean_no_space w : clean w -> Forall (fun c => is_space c = false) w.
Proof. intros [_ H]. eapply Forall_impl; [exact H |]. by intros c [? _]. Qed.

Lemma join_cons sep w w' ws : join sep (w :: w' :: ws) = w ++ sep ++ join sep (w' :: ws).
Proof. reflexivity. Qed.

Lemma join_head sep w ws : clean w -> exists a t, join sep (w :: ws) = a :: t /\ is_space a = false /\ is_dash a = false.
Proof.
  intros [Hne H]. destruct w as [| a w]; [done |]. inversion H as [| ? ? [Hs Hd] _]; subst.
  destruct ws; eexists _, _; by split.
Qed.

Lemma join_last sep w ws : Forall clean (w :: ws) -> exists t a, join sep (w :: ws) = t ++ [a] /\ is_space a = false.
Proof.
  revert w. induction ws as [| w' ws IH]; intros w H.
  - inversion H as [| ? ? [Hne Hall] _]; subst. destruct (exists_last Hne) as (t & a & E). exists t, a. split; [exact E |].
    rewrite E in Hall. apply Forall_app in Hall as [_ Ha]. inversion Ha as [| ? ? [] _]; by subst.
  - inversion H; subst. destruct (IH w' ltac:(done)) as (t & a & E & Ha). rewrite join_cons, E.
    exists (w ++ sep ++ t), a. split; [by rewrite !app_assoc | done].
Qed.

Lemma split_dashes_join ws : Forall clean ws -> split_dashes (join [hyphen] ws) = join [space] ws.
Proof.
  induction ws as [| w ws IH]; [done |]. intros H. inversion H as [| ? ? Hw Hws]; subst.
  destruct ws as [| w' ws].
  - cbn [join]. rewrite <- (app_nil_r w) at 1. rewrite split_dashes_app by by apply clean_no_dash. apply app_nil_r.
  - rewrite !join_cons, split_dashes_app by by apply clean_no_dash. f_equal. rewrite <- IH by done.
    inversion Hws as [| ? ? Hw' _]; subst. destruct (join_head [hyphen] w' ws Hw') as (a & t & E & _ & Hd).
    rewrite E. cbn. by rewrite Hd.
Qed.

Lemma trim_join ws : Forall clean ws -> trim (join [space] ws) = join [space] ws.
Proof.
  intros H. destruct ws as [| w ws]; [done |].
  destruct (join_last [space] w ws H) as (t & b & E & Hb). inversion H as [| ? ? Hw _]; subst.
  destruct (join_head [space] w ws Hw) as (a & t' & E' & Ha & _).
  unfold trim, trimEnd. assert (trimStart (join [space] (w :: ws)) = join [space] (w :: ws)) as ->.
  { rewrite E'. cbn. by rewrite Ha. }
  rewrite E, rev_app_distr. cbn. rewrite Hb. cbn. by rewrite rev_involutive.
Qed.

Lemma split_spaces_word w word sep s : w <> [] -> Forall (fun c => is_space c = false) w ->
  split_spaces word sep (w ++ s) = split_spaces (rev w ++ word) false s.
Proof.
  intros Hne H. revert word sep Hne. induction H as [| a w Ha Hw IH]; intros word sep Hne; [done |].
  cbn. rewrite Ha. destruct w as [| b w]; [done |]. rewrite IH by done. cbn. by rewrite <- !app_assoc.
Qed.

Lemma split_spaces_join w ws sep : Forall clean (w :: ws) -> split_spaces [] sep (join [space] (w :: ws)) = w :: ws.
Proof.
  revert w sep. induction ws as [| w' ws IH]; intros w sep H; inversion H as [| ? ? Hw Hws]; subst.
  - cbn [join]. rewrite <- (app_nil_r w) at 1.
    rewrite split_spaces_word by (apply Hw || by apply clean_no_space). cbn. by rewrite app_nil_r, rev_involutive.
  - rewrite join_cons, split_spaces_word by (apply Hw || by apply clean_no_space).
    change ([space] ++ join [space] (w' :: ws)) with (space :: join [space] (w' :: ws)).
    change (rev (rev w ++ []) :: split_spaces [] true (join [space] (w' :: ws)) = w :: w' :: ws).
    by rewrite app_nil_r, rev_involutive, IH.
Qed.

Lemma filter_clean ws : Forall clean ws -> List.filter nonempty ws = ws.
Proof. induction 1 as [| w ws [Hne _] _ IH]; [done |]. cbn. rewrite IH. by destruct w. Qed.

Lemma split_join_spaces ws : Forall clean ws -> List.filter nonempty (split_spaces [] false (join [space] ws)) = ws.
Proof. intros H. destruct ws as [| w ws]; [done |]. rewrite split_spaces_join by done. by apply filter_clean. Qed.

Lemma join_forall (P : Ascii.ascii -> Prop) sep ws : Forall P sep -> Forall (Forall P) ws -> Forall P (join sep ws).
Proof.
  intros Hs. induction 1 as [| w ws Hw Hws IH]; [constructor |]. destruct ws; [done |].
  rewrite join_cons. by repeat (apply Forall_app; split).
Qed.

(** The words of a name in kebab-case are its words in lower case. *)
Lemma words_of_kebab s : splitWords (toKebabCase s) = map toLowerCase (splitWords s).
Proof.
  set (ws := map toLowerCase (splitWords s)).
  assert (Hc : Forall clean ws).
  { apply Forall_map. eapply Forall_impl; [apply splitWords_clean |]. apply clean_lower. }
  assert (Hl : Forall (fun c => is_upper c = false) (join [hyphen] ws)).
  { apply join_forall; [by repeat constructor |]. apply Forall_map, Forall_true. intros w. apply Forall_map, Forall_true, lower_not_upper. }
  unfold splitWords at 1. change (toKebabCase s) with (join [hyphen] ws).
  by rewrite split_camel_id, split_acronym_id, split_dashes_join, trim_join, split_join_spaces.
Qed.

Lemma kebab_context s : buildContext (toKebabCase s) = buildContext s.
Proof.
  unfold buildContext, toCamelCase, toPascalCase. f_equal.
  1, 2: rewrite words_of_kebab, map_map; by rewrite (map_ext _ capitalize capitalize_lower).
  unfold toKebabCase at 1. rewrite words_of_kebab, map_map. unfold toKebabCase. f_equal. apply map_ext, toLowerCase_twice.
Qed.

(** The names of a module are a function of its directory.  Whatever spelling a module
    was created with, the directory that the generator names after it gives the same
    PascalCase, camelCase and kebab-case names, which is what the commands that extend a
    module rely on when they build the context from the directory's base name; it is as
    valid as the spelling, and it has no upper-case letter, white space or underscore.  A
    valid name begins with an upper-case letter in PascalCase. *)
Theorem scaffold_names_stable (rawName : chars) :
  let ctx := buildContext rawName in
  buildContext (tc_kebabName ctx) = ctx /\
  is_ok (validateName (tc_kebabName ctx)) = is_ok (validateName rawName) /\
  (forall c, c ∈ tc_kebabName ctx -> is_upper c = false /\ is_space c = false /\ c <> "_"%char) /\
  (validateName rawName = Ok tt <-> exists a rest, tc_name ctx = a :: rest /\ is_upper a = true).
Proof.
  intros ctx. assert (Hctx : buildContext (tc_kebabName ctx) = ctx) by apply kebab_context. split; [exact Hctx |].
  assert (Hname : toPascalCase (tc_kebabName ctx) = tc_name ctx) by exact (f_equal tc_name Hctx).
  split; [| split].
  - unfold validateName. rewrite Hname. change (toPascalCase rawName) with (tc_name ctx).
    destruct (tc_name ctx) as [| a rest]; [done |]. by destruct (is_upper a).
  - intros c. change (tc_kebabName ctx) with (join [hyphen] (map toLowerCase (splitWords rawName))).
    apply (proj1 (Forall_forall (fun c => is_upper c = false /\ is_space c = false /\ c <> "_"%char) _)).
    apply join_forall; [by repeat constructor |]. apply Forall_map. eapply Forall_impl; [apply splitWords_clean |].
    intros w [_ Hw]. apply Forall_map. eapply Forall_impl; [exact Hw |]. intros a [Hs Hd]. cbn.
    rewrite is_space_lower. split; [apply lower_not_upper |]. split; [done |]. intros E.
    rewrite <- is_dash_lower, E in Hd. discriminate Hd.
  - unfold validateName. change (toPascalCase rawName) with (tc_name ctx). destruct (tc_name ctx) as [| a rest].
    { split; [discriminate | by intros (? & ? & ? & _)]. }
    destruct (is_upper a) eqn:Ea; [split; [by exists a, rest | done] |].
    split; [discriminate |]. intros (a' & rest' & [= <- <-] & Ha). congruence.
Qed.

(** The spelling is lost by PascalCase when a word has a single letter. *)
Example pascal_not_idempotent :
  let once := toPascalCase (chars_of "x-y-z") in
  once = chars_of "XYZ" /\ toPascalCase once = chars_of "Xyz".
Proof. by vm_compute. Qed.

(** Names that are no identifiers are valid. *)
Example valid_names_that_are_no_identifiers :
  map (fun s => is_ok (validateName (chars_of s))) ["Foo.Bar"; "Order!"; "a/../b"; "9lives"; "--"]%string
  = [true; true; true; false; false].
Proof. by vm_compute. Qed.

(** ** Names of events *)

(** A capital and at least one small letter. *)
Definition cap_word (w : chars) : Prop :=
  exists a b t, w = a :: b :: t /\ is_upper a = true /\ Forall (fun c => is_lower c = true) (b :: t).

Lemma capitalize_cap_word w : (2 <= length w)%nat -> Forall (fun c => is_lower c || is_upper c = true) w -> cap_word (capitalize w).
Proof.
  destruct w as [| a [| b t]]; cbn; [lia | lia |]. intros _ H. inversion H as [| ? ? Ha Hbt]; subst.
  exists (upper a), (lower b), (toLowerCase t). split; [done |]. split; [by apply upper_letter |].
  change (lower b :: toLowerCase t) with (map lower (b :: t)). apply Forall_map.
  eapply Forall_impl; [exact Hbt |]. apply lower_letter.
Qed.

Lemma split_camel_lower t : forall b s, Forall (fun c => is_lower c = true) (b :: t) ->
  split_camel (b :: t ++ s) =
    match s with
    | a :: rest => if is_upper a then b :: t ++ space :: a :: split_camel rest else b :: t ++ split_camel s
    | [] => b :: t
    end.
Proof.
  induction t as [| c t IH]; intros b s H; inversion H as [| ? ? Hb Ht]; subst.
  - destruct s as [| a s]; [done |]. cbn [app split_camel]. rewrite Hb. cbn [andb].
    destruct (is_upper a) eqn:Ea; [done |]. reflexivity.
  - inversion Ht as [| ? ? Hc _]; subst.
    change (b :: (c :: t) ++ s) with (b :: c :: (t ++ s)). rewrite split_camel_cons, (lower_is_not_upper c Hc), andb_false_r, IH by done.
    destruct s as [| a s]; [done |]. by destruct (is_upper a).
Qed.

Lemma split_camel_words w ws : Forall cap_word (w :: ws) ->
  split_camel (concat (w :: ws)) = join [space] (w :: ws) /\
  match concat (w :: ws) with a :: rest => a :: split_camel rest = join [space] (w :: ws) | [] => True end.
Proof.
  revert w. induction ws as [| w' ws IH]; intros w H; inversion H as [| ? ? (a & b & t & -> & Ha & Hl) Hws]; subst.
  - cbn [concat join]. rewrite app_nil_r. 
    assert (E : split_camel (b :: t) = b :: t) by (pose proof (split_camel_lower t b [] Hl) as E; by rewrite app_nil_r in E).
    split; [| by rewrite E].
    by rewrite split_camel_cons, (upper_is_not_lower a Ha), E.
  - destruct (IH w' Hws) as [_ IH2]. inversion Hws as [| ? ? (a' & b' & t' & -> & Ha' & Hl') _]; subst.
    assert (E : split_camel (b :: t ++ concat ((a' :: b' :: t') :: ws)) = b :: t ++ space :: join [space] ((a' :: b' :: t') :: ws)).
    { change (a' :: split_camel ((b' :: t') ++ concat ws) = join [space] ((a' :: b' :: t') :: ws)) in IH2.
      rewrite <- IH2, split_camel_lower by done.
      change (concat ((a' :: b' :: t') :: ws)) with (a' :: ((b' :: t') ++ concat ws)). cbn iota. by rewrite Ha'. }
    split; [| change (a :: split_camel (b :: t ++ concat ((a' :: b' :: t') :: ws)) = join [space] ((a :: b :: t) :: (a' :: b' :: t') :: ws));
              by rewrite E].
    change (concat ((a :: b :: t) :: (a' :: b' :: t') :: ws)) with (a :: b :: t ++ concat ((a' :: b' :: t') :: ws)).
    rewrite split_camel_cons, (upper_is_not_lower a Ha). cbn [andb]. by rewrite E.
Qed.

Lemma split_acronym_skip c s : is_upper c = false -> split_acronym (c :: s) = c :: split_acronym s.
Proof. intros Hc. destruct s as [| a [| b s]]; [done | done |]. by rewrite split_acronym_cons, Hc. Qed.

Lemma split_acronym_app w s : Forall (fun c => is_upper c = false) w -> split_acronym (w ++ s) = w ++ split_acronym s.
Proof. induction w as [| a w IH]; [done |]. intros H. inversion H; subst. cbn [app]. by rewrite split_acronym_skip, IH. Qed.

Lemma split_acronym_cap w s : cap_word w -> split_acronym (w ++ s) = w ++ split_acronym s.
Proof.
  intros (a & b & t & -> & Ha & Hl).
  assert (Hu : Forall (fun c => is_upper c = false) (b :: t)) by (eapply Forall_impl; [exact Hl | apply lower_is_not_upper]).
  assert (split_acronym ((a :: b :: t) ++ s) = a :: split_acronym ((b :: t) ++ s)) as ->.
  { cbn [app]. inversion Hu as [| ? ? Hb _]; subst. destruct (t ++ s) as [| c r]; [done |].
    by rewrite split_acronym_cons, Hb, andb_false_r. }
  by rewrite split_acronym_app.
Qed.

Lemma split_acronym_join ws : Forall cap_word ws -> split_acronym (join [space] ws) = join [space] ws.
Proof.
  induction ws as [| w ws IH]; [done |]. intros H. inversion H as [| ? ? Hw Hws]; subst. destruct ws as [| w' ws].
  - cbn [join]. rewrite <- (app_nil_r w) at 1. rewrite split_acronym_cap by done. apply app_nil_r.
  - rewrite !join_cons, split_acronym_cap by done. cbn [app]. by rewrite split_acronym_skip, IH.
Qed.

Lemma cap_word_clean w : cap_word w -> clean w.
Proof.
  intros (a & b & t & -> & Ha & Hl). split; [done |]. constructor.
  - apply letter_clean. by rewrite Ha, orb_true_r.
  - eapply Forall_impl; [exact Hl |]. intros c Hc. apply letter_clean. by rewrite Hc.
Qed.

(** The words of the identifier of a name are its own words, capitalised. *)
Lemma splitPascal_words ws : Forall cap_word ws -> splitPascal (concat ws) = ws.
Proof.
  intros H. unfold splitPascal. destruct ws as [| w ws]; [done |].
  rewrite (proj1 (split_camel_words w ws H)), split_acronym_join, split_join_spaces; [done | | done].
  eapply Forall_impl; [exact H | apply cap_word_clean].
Qed.

(** The event of a command whose words have two letters or more: the words after the first,
    then the first one in the past tense. *)
Lemma derived_event commandName verb w ws :
  splitWords commandName = verb :: w :: ws ->
  Forall (fun u => (2 <= length u)%nat /\ Forall (fun c => is_lower c || is_upper c = true) u) (verb :: w :: ws) ->
  toPascalCase commandName = capitalize verb ++ concat (map capitalize (w :: ws)) /\
  deriveEventName commandName = concat (map capitalize (w :: ws)) ++ toPastTense (capitalize verb).
Proof.
  intros E H. unfold deriveEventName. 
  assert (Ep : toPascalCase commandName = concat (map capitalize (verb :: w :: ws))) by (unfold toPascalCase; by rewrite E).
  split; [exact Ep |]. rewrite Ep, splitPascal_words; [done |]. apply Forall_map. eapply Forall_impl; [exact H |].
  intros u [Hl Hu]. by apply capitalize_cap_word.
Qed.

Example derived_events :
  map (fun s => string_of (deriveEventName (chars_of s))) ["PlaceBid"; "create-auction"; "Submit"; "close_auction"]%string
  = ["BidPlaced"; "AuctionCreated"; "Submitted"; "AuctionClosed"]%string.
Proof. by vm_compute. Qed.

(** The consonant is doubled in verbs that do not double it. *)
Example open_is_doubled :
  string_of (deriveEventName (chars_of "OpenAccount")) = "AccountOpenned"%string.
Proof. by vm_compute. Qed.
