(* ===== verification/Templates.v ===== *)
(** The templates of the command line tool (packages/cli/src/templates), as data: a module is
    a list of statements, where the imports, the re-exports and the exported declarations are
    told from the other lines, and a text is a list of pieces, some of which are filled in from
    the context.  [render_module] gives the text of a file, line by line as the template has it. *)
From S2P Require Import Prelude Text Naming.
Local Open Scope string_scope.

(** ** Texts *)

(** The fields of the contexts that the templates use. *)
Inductive hole : Type :=
| Name | CamelName | KebabName
| AggregateName | AggregateKebab | CommandName | CommandKebab | EventName | EventKebabName
| ProjectionName | ProjectionKebab | QueryName | QueryKebab.
#[export] Instance hole_eq_dec : EqDecision hole. Proof. solve_decision. Defined.

(** [Quote] is the double quote. *)
Inductive piece : Type := Lit (s : string) | Quote | Hole (h : hole).
#[export] Instance piece_eq_dec : EqDecision piece. Proof. solve_decision. Defined.

Definition text : Type := list piece.

Definition piece_text (fill : hole -> string) (p : piece) : string :=
  match p with Lit s => s | Quote => String (Ascii.ascii_of_nat 34) EmptyString | Hole h => fill h end.

Definition fill_text (fill : hole -> string) (t : text) : string := fold_right (fun p rest => piece_text fill p ++ rest) EmptyString t.

(** ** Modules *)

(** The module that an import names: so many directories up, then down, to a file without its
    extension; or a package.  [T] is [text] in a template and [string] in a file. *)
Inductive module (T : Type) : Type :=
| Relative (up : nat) (dirs : list T) (stem : T)
| Package (name : T).
Arguments Relative {T} _ _ _.
Arguments Package {T} _.

Inductive layout : Type := inline | block.
Inductive declaration : Type := a_const | a_function | an_interface | a_type.

Inductive statement (T : Type) : Type :=
| Import (type_only : bool) (l : layout) (names : list T) (from : module T)
| ReExport (type_only : bool) (l : layout) (names : list T) (from : module T)
| Declared (d : declaration) (name rest : T)
| Code (line : T).
Arguments Import {T} _ _ _ _.
Arguments ReExport {T} _ _ _ _.
Arguments Declared {T} _ _ _.
Arguments Code {T} _.

Definition map_module {T U} (f : T -> U) (m : module T) : module U :=
  match m with
  | Relative up dirs stem => Relative up (map f dirs) (f stem)
  | Package name => Package (f name)
  end.

Definition map_statement {T U} (f : T -> U) (s : statement T) : statement U :=
  match s with
  | Import ty l names from => Import ty l (map f names) (map_module f from)
  | ReExport ty l names from => ReExport ty l (map f names) (map_module f from)
  | Declared d name rest => Declared d (f name) (f rest)
  | Code line => Code (f line)
  end.

(** A statement of a template. *)
Definition stmt : Type := statement text.

Definition line_break : string := String (Ascii.ascii_of_nat 10) EmptyString.

Definition specifier (m : module string) : string :=
  match m with
  | Relative up dirs stem =>
      (if (up =? 0)%nat then "./" else fold_right (fun _ rest => "../" ++ rest) EmptyString (seq 0 up))
      ++ fold_right (fun d rest => d ++ "/" ++ rest) EmptyString dirs ++ stem ++ ".js"
  | Package name => name
  end.

Definition declaration_text (d : declaration) : string :=
  match d with a_const => "const " | a_function => "function " | an_interface => "interface " | a_type => "type " end.

Definition clause (keyword : string) (type_only : bool) (l : layout) (names : list string) (from : module string) : list string :=
  let head := keyword ++ (if type_only then " type" else EmptyString) ++ " {" in
  let tail := "} from " ++ quoted (specifier from) ++ ";" in
  match l with
  | inline => [(head ++ " " ++ String.concat ", " names ++ " " ++ tail)%string]
  | block => head :: (map (fun n => "  " ++ n ++ ",")%string names ++ [tail])%list
  end.

(** The lines of a statement. *)
Definition statement_lines (s : statement string) : list string :=
  match s with
  | Import ty l names from => clause "import" ty l names from
  | ReExport ty l names from => clause "export" ty l names from
  | Declared d name rest => ["export " ++ declaration_text d ++ name ++ rest]
  | Code line => [line]
  end.

Definition unlines (lines : list string) : string := fold_right (fun l rest => l ++ line_break ++ rest) EmptyString lines.

Definition render_module (body : list (statement string)) : string := unlines (flat_map statement_lines body).

(** Filling in a template. *)
Definition instantiate (fill : hole -> string) (template : list stmt) : list (statement string) :=
  map (map_statement (fill_text fill)) template.

Definition of_context (ctx : TemplateContext) (h : hole) : string :=
  match h with
  | Name => string_of (tc_name ctx)
  | CamelName => string_of (tc_camelName ctx)
  | KebabName => string_of (tc_kebabName ctx)
  | _ => EmptyString
  end.

(** utils/event-bus.ts and utils/persistence.ts *)
Inductive EventBusAdapter : Type := event_emitter_bus | kafka_bus | nats_bus | rabbitmq_bus.
Inductive PersistenceAdapter : Type := in_memory_persistence | prisma_persistence | drizzle_persistence | typeorm_persistence.

(** ** The templates *)

(** *** templates/domain/event-model.ts *)

Definition eventModelIndexTemplate : list stmt := [
  ReExport true inline [[Hole Name; Lit "CreatedPayload"]] (Relative 0 [] [Hole KebabName; Lit "-created"])].

Definition eventPayloadTemplate : list stmt := [
  Code [Lit "/** Payload for the "; Hole Name; Lit "Created event. */"];
  Declared an_interface [Hole Name; Lit "CreatedPayload"] [Lit " {"];
  Code [Lit "  id: string;"];
  Code [Lit "  // TODO: add event payload fields"];
  Code [Lit "}"]].

(** *** templates/domain/write-model.ts *)

Definition writeModelIndexTemplate : list stmt := [
  ReExport false inline [[Hole Name]] (Relative 0 [[Lit "aggregates"]; [Hole KebabName]] [Lit "index"]);
  ReExport true block [[Hole Name; Lit "State"]; [Hole Name; Lit "Event"]; [Hole Name; Lit "Command"]] (Relative 0 [[Lit "aggregates"]; [Hole KebabName]] [Lit "index"])].

(** *** templates/domain/aggregate.ts *)

Definition domainAggregateIndexTemplate : list stmt := [
  ReExport false inline [[Hole Name]] (Relative 0 [] [Hole KebabName]);
  ReExport true inline [[Hole Name; Lit "State"]] (Relative 0 [] [Lit "state"]);
  ReExport false inline [[Lit "initial"; Hole Name; Lit "State"]] (Relative 0 [] [Lit "state"]);
  ReExport true inline [[Hole Name; Lit "Event"]] (Relative 0 [] [Hole KebabName]);
  ReExport true inline [[Hole Name; Lit "Command"]] (Relative 0 [] [Hole KebabName])].

Definition domainAggregateTemplate : list stmt := [
  Import false inline [[Lit "defineAggregate"]; [Lit "DefineEvents"]; [Lit "DefineCommands"]] (Package [Lit "@noddde/core"]);
  Import true inline [[Hole Name; Lit "State"]] (Relative 0 [] [Lit "state"]);
  Import false inline [[Lit "initial"; Hole Name; Lit "State"]] (Relative 0 [] [Lit "state"]);
  Import true inline [[Hole Name; Lit "CreatedPayload"]] (Relative 3 [[Lit "event-model"]] [Hole KebabName; Lit "-created"]);
  Import true inline [[Lit "Create"; Hole Name; Lit "Payload"]] (Relative 0 [[Lit "commands"]] [Lit "create-"; Hole KebabName]);
  Import true inline [[Hole Name; Lit "Infrastructure"]] (Relative 4 [[Lit "infrastructure"]] [Lit "index"]);
  Import false inline [[Lit "decideCreate"; Hole Name]] (Relative 0 [[Lit "deciders"]] [Lit "index"]);
  Import false inline [[Lit "evolve"; Hole Name; Lit "Created"]] (Relative 0 [[Lit "evolvers"]] [Lit "index"]);
  Code [];
  Code [Lit "// ── Type unions ─────────────────────────────────────────────────"];
  Code [];
  Declared a_type [Hole Name; Lit "Event"] [Lit " = DefineEvents<{"];
  Code [Lit "  "; Hole Name; Lit "Created: "; Hole Name; Lit "CreatedPayload;"];
  Code [Lit "  // TODO: add more events"];
  Code [Lit "}>;"];
  Code [];
  Declared a_type [Hole Name; Lit "Command"] [Lit " = DefineCommands<{"];
  Code [Lit "  Create"; Hole Name; Lit ": Create"; Hole Name; Lit "Payload;"];
  Code [Lit "  // TODO: add more commands"];
  Code [Lit "}>;"];
  Code [];
  Code [Lit "// ── Types bundle ────────────────────────────────────────────────"];
  Code [];
  Declared a_type [Hole Name; Lit "Def"] [Lit " = {"];
  Code [Lit "  state: "; Hole Name; Lit "State;"];
  Code [Lit "  events: "; Hole Name; Lit "Event;"];
  Code [Lit "  commands: "; Hole Name; Lit "Command;"];
  Code [Lit "  infrastructure: "; Hole Name; Lit "Infrastructure;"];
  Code [Lit "};"];
  Code [];
  Code [Lit "// ── Aggregate definition ────────────────────────────────────────"];
  Code [];
  Declared a_const [Hole Name] [Lit " = defineAggregate<"; Hole Name; Lit "Def>({"];
  Code [Lit "  initialState: initial"; Hole Name; Lit "State,"];
  Code [];
  Code [Lit "  decide: {"];
  Code [Lit "    Create"; Hole Name; Lit ": decideCreate"; Hole Name; Lit ","];
  Code [Lit "  },"];
  Code [];
  Code [Lit "  evolve: {"];
  Code [Lit "    "; Hole Name; Lit "Created: evolve"; Hole Name; Lit "Created,"];
  Code [Lit "  },"];
  Code [Lit "});"]].

(** *** templates/domain/aggregate-state.ts *)

Definition aggregateStateTemplate : list stmt := [
  Code [Lit "/** The state of the "; Hole Name; Lit " aggregate. */"];
  Declared an_interface [Hole Name; Lit "State"] [Lit " {"];
  Code [Lit "  // TODO: define aggregate state"];
  Code [Lit "}"];
  Code [];
  Code [Lit "/** Initial state for a new "; Hole Name; Lit " aggregate instance. */"];
  Declared a_const [Lit "initial"; Hole Name; Lit "State"] [Lit ": "; Hole Name; Lit "State = {"];
  Code [Lit "  // TODO: set initial values"];
  Code [Lit "};"]].

(** *** templates/domain/aggregate-commands.ts *)

Definition commandsIndexTemplate : list stmt := [
  ReExport true inline [[Lit "Create"; Hole Name; Lit "Payload"]] (Relative 0 [] [Lit "create-"; Hole KebabName])].

Definition commandPayloadTemplate : list stmt := [
  Code [Lit "/** Payload for the Create"; Hole Name; Lit " command. */"];
  Declared an_interface [Lit "Create"; Hole Name; Lit "Payload"] [Lit " {"];
  Code [Lit "  // TODO: add command payload fields"];
  Code [Lit "}"]].

(** *** templates/domain/aggregate-deciders.ts *)

Definition decidersIndexTemplate : list stmt := [
  ReExport false inline [[Lit "decideCreate"; Hole Name]] (Relative 0 [] [Lit "decide-create-"; Hole KebabName])].

Definition deciderTemplate : list stmt := [
  Import true inline [[Lit "InferDecideHandler"]] (Package [Lit "@noddde/core"]);
  Import true inline [[Hole Name; Lit "Def"]] (Relative 1 [] [Hole KebabName]);
  Code [];
  Code [Lit "/** Decides the Create"; Hole Name; Lit " command. */"];
  Declared a_const [Lit "decideCreate"; Hole Name] [Lit ": InferDecideHandler<"; Hole Name; Lit "Def, "; Quote; Lit "Create"; Hole Name; Quote; Lit "> = (command, _state) => ({"];
  Code [Lit "  name: "; Quote; Hole Name; Lit "Created"; Quote; Lit " as const,"];
  Code [Lit "  payload: {"];
  Code [Lit "    id: command.targetAggregateId,"];
  Code [Lit "  },"];
  Code [Lit "});"]].

(** *** templates/domain/aggregate-evolvers.ts *)

Definition evolversIndexTemplate : list stmt := [
  ReExport false inline [[Lit "evolve"; Hole Name; Lit "Created"]] (Relative 0 [] [Lit "evolve-"; Hole KebabName; Lit "-created"])].

Definition evolverTemplate : list stmt := [
  Import true inline [[Lit "InferEvolveHandler"]] (Package [Lit "@noddde/core"]);
  Import true inline [[Hole Name; Lit "Def"]] (Relative 1 [] [Hole KebabName]);
  Code [];
  Code [Lit "/** Evolves state for "; Hole Name; Lit "Created. */"];
  Declared a_const [Lit "evolve"; Hole Name; Lit "Created"] [Lit ": InferEvolveHandler<"; Hole Name; Lit "Def, "; Quote; Hole Name; Lit "Created"; Quote; Lit "> = (payload, state) => ({"];
  Code [Lit "  ...state,"];
  Code [Lit "  id: payload.id,"];
  Code [Lit "  // TODO: evolve state from event payload"];
  Code [Lit "});"]].

(** *** templates/domain/projection.ts *)

Definition domainProjectionIndexTemplate : list stmt := [
  ReExport false inline [[Hole Name; Lit "Projection"]] (Relative 0 [] [Hole KebabName]);
  ReExport true inline [[Hole Name; Lit "View"]; [Hole Name; Lit "Query"]] (Relative 0 [[Lit "queries"]] [Lit "index"])].

Definition domainProjectionTemplate : list stmt := [
  Import false inline [[Lit "defineProjection"]] (Package [Lit "@noddde/core"]);
  Import true inline [[Lit "ViewStore"]] (Package [Lit "@noddde/core"]);
  Import true inline [[Hole Name; Lit "View"]; [Hole Name; Lit "Query"]] (Relative 0 [[Lit "queries"]] [Lit "index"]);
  Import false inline [[Lit "handleGet"; Hole Name]] (Relative 0 [[Lit "query-handlers"]] [Lit "index"]);
  Code [];
  Code [Lit "// TODO: import event types and on-entries once wired"];
  Code [Lit "// import type { "; Hole Name; Lit "Event } from "; Quote; Lit "../../write-model/aggregates/"; Hole KebabName; Lit "/index.js"; Quote; Lit ";"];
  Code [Lit "// import { on"; Hole Name; Lit "Created } from "; Quote; Lit "./on-entries/index.js"; Quote; Lit ";"];
  Code [];
  Declared a_type [Hole Name; Lit "ProjectionDef"] [Lit " = {"];
  Code [Lit "  events: never; // TODO: replace with event union type"];
  Code [Lit "  queries: "; Hole Name; Lit "Query;"];
  Code [Lit "  view: "; Hole Name; Lit "View;"];
  Code [Lit "  viewStore: ViewStore<"; Hole Name; Lit "View>;"];
  Code [Lit "  infrastructure: Record<string, never>;"];
  Code [Lit "};"];
  Code [];
  Declared a_const [Hole Name; Lit "Projection"] [Lit " = defineProjection<"; Hole Name; Lit "ProjectionDef>({"];
  Code [Lit "  on: {"];
  Code [Lit "    // TODO: uncomment and adjust when event types are wired"];
  Code [Lit "    // "; Hole Name; Lit "Created: {"];
  Code [Lit "    //   id: (event) => event.payload.id,"];
  Code [Lit "    //   reduce: on"; Hole Name; Lit "Created,"];
  Code [Lit "    // },"];
  Code [Lit "  },"];
  Code [];
  Code [Lit "  queryHandlers: {"];
  Code [Lit "    Get"; Hole Name; Lit ": handleGet"; Hole Name; Lit ","];
  Code [Lit "  },"];
  Code [Lit "});"]].

(** *** templates/domain/projection-queries.ts *)

Definition queriesIndexTemplate : list stmt := [
  Import false inline [[Lit "DefineQueries"]] (Package [Lit "@noddde/core"]);
  Import true inline [[Lit "Get"; Hole Name; Lit "Payload"]] (Relative 0 [] [Lit "get-"; Hole KebabName]);
  Code [];
  Code [Lit "/** Read model for "; Hole Name; Lit ". */"];
  Declared an_interface [Hole Name; Lit "View"] [Lit " {"];
  Code [Lit "  id: string;"];
  Code [Lit "  // TODO: define read model fields"];
  Code [Lit "}"];
  Code [];
  Declared a_type [Hole Name; Lit "Query"] [Lit " = DefineQueries<{"];
  Code [Lit "  Get"; Hole Name; Lit ": {"];
  Code [Lit "    payload: Get"; Hole Name; Lit "Payload;"];
  Code [Lit "    result: "; Hole Name; Lit "View | null;"];
  Code [Lit "  };"];
  Code [Lit "}>;"]].

Definition queryPayloadTemplate : list stmt := [
  Code [Lit "/** Payload for the Get"; Hole Name; Lit " query. */"];
  Declared an_interface [Lit "Get"; Hole Name; Lit "Payload"] [Lit " {"];
  Code [Lit "  id: string;"];
  Code [Lit "}"]].

(** *** templates/domain/projection-query-handlers.ts *)

Definition queryHandlersIndexTemplate : list stmt := [
  ReExport false inline [[Lit "handleGet"; Hole Name]] (Relative 0 [] [Lit "handle-get-"; Hole KebabName])].

Definition queryHandlerTemplate : list stmt := [
  Import true inline [[Lit "InferProjectionQueryHandler"]] (Package [Lit "@noddde/core"]);
  Import true inline [[Hole Name; Lit "ProjectionDef"]] (Relative 1 [] [Hole KebabName]);
  Code [];
  Code [Lit "/** Handles the Get"; Hole Name; Lit " query. */"];
  Declared a_const [Lit "handleGet"; Hole Name] [Lit ": InferProjectionQueryHandler<"; Hole Name; Lit "ProjectionDef, "; Quote; Lit "Get"; Hole Name; Quote; Lit "> = async (query, { views }) =>"];
  Code [Lit "  (await views.load(query.id)) ?? null;"]].

(** *** templates/domain/projection-view-reducers.ts *)

Definition viewReducersIndexTemplate : list stmt := [
  ReExport false inline [[Lit "on"; Hole Name; Lit "Created"]] (Relative 0 [] [Lit "on-"; Hole KebabName; Lit "-created"])].

Definition viewReducerTemplate : list stmt := [
  Import true inline [[Hole Name; Lit "View"]] (Relative 1 [[Lit "queries"]] [Lit "index"]);
  Code [];
  Code [Lit "// TODO: once event types are wired in the projection def, replace with:"];
  Code [Lit "// import type { InferProjectionEventHandler } from "; Quote; Lit "@noddde/core"; Quote; Lit ";"];
  Code [Lit "// import type { "; Hole Name; Lit "ProjectionDef } from "; Quote; Lit "../"; Hole KebabName; Lit ".js"; Quote; Lit ";"];
  Code [Lit "// export const on"; Hole Name; Lit "Created: InferProjectionEventHandler<"; Hole Name; Lit "ProjectionDef, "; Quote; Hole Name; Lit "Created"; Quote; Lit "> = { ... };"];
  Code [];
  Code [Lit "/** Reduces a "; Hole Name; Lit "Created event into a view. */"];
  Declared a_function [Lit "on"; Hole Name; Lit "Created"] [Lit "("];
  Code [Lit "  event: { name: "; Quote; Hole Name; Lit "Created"; Quote; Lit "; payload: { id: string } },"];
  Code [Lit "): "; Hole Name; Lit "View {"];
  Code [Lit "  return {"];
  Code [Lit "    id: event.payload.id,"];
  Code [Lit "    // TODO: populate view fields from event"];
  Code [Lit "  };"];
  Code [Lit "}"]].

(** *** templates/domain/domain-wiring.ts *)

Definition domainDefinitionTemplate : list stmt := [
  Import false inline [[Lit "defineDomain"]] (Package [Lit "@noddde/core"]);
  Import true inline [[Lit "InferDomain"]] (Package [Lit "@noddde/engine"]);
  Import false inline [[Hole Name]] (Relative 0 [[Lit "write-model"]; [Lit "aggregates"]; [Hole KebabName]] [Lit "index"]);
  Import false inline [[Hole Name; Lit "Projection"]] (Relative 0 [[Lit "read-model"]; [Lit "projections"]; [Hole KebabName]] [Lit "index"]);
  Code [];
  Declared a_const [Lit "definition"] [Lit " = defineDomain({"];
  Code [Lit "  writeModel: {"];
  Code [Lit "    aggregates: {"];
  Code [Lit "      "; Hole Name; Lit ","];
  Code [Lit "    },"];
  Code [Lit "  },"];
  Code [Lit "  readModel: {"];
  Code [Lit "    projections: {"];
  Code [Lit "      "; Hole Name; Lit ": "; Hole Name; Lit "Projection,"];
  Code [Lit "    },"];
  Code [Lit "  },"];
  Code [Lit "});"];
  Code [];
  Declared a_type [Hole Name; Lit "Domain"] [Lit " = InferDomain<typeof definition>;"]].

Definition domainInfrastructureTemplate : list stmt := [
  Import true inline [[Lit "Infrastructure"]] (Package [Lit "@noddde/core"]);
  Code [];
  Code [Lit "/** Infrastructure dependencies shared across the "; Hole Name; Lit " domain. */"];
  Declared an_interface [Hole Name; Lit "Infrastructure"] [Lit " extends Infrastructure {"];
  Code [Lit "  // TODO: add domain-wide dependencies (clock, logger, external services)"];
  Code [Lit "}"]].

Definition main_event_emitter : list stmt := [
  Import false block [[Lit "wireDomain"]; [Lit "InMemoryCommandBus"]; [Lit "EventEmitterEventBus"]; [Lit "InMemoryQueryBus"]] (Package [Lit "@noddde/engine"]);
  Import false inline [[Lit "definition"]] (Relative 0 [[Lit "domain"]] [Lit "domain"]);
  Code [];
  Code [Lit "const main = async () => {"];
  Code [Lit "  const domain = await wireDomain(definition, {"];
  Code [Lit "    // persistenceAdapter: adapter,"];
  Code [Lit "    infrastructure: () => ({"];
  Code [Lit "      // TODO: provide infrastructure implementations"];
  Code [Lit "    }),"];
  Code [Lit "    buses: () => ({"];
  Code [Lit "      commandBus: new InMemoryCommandBus(),"];
  Code [Lit "      eventBus: new EventEmitterEventBus(),"];
  Code [Lit "      queryBus: new InMemoryQueryBus(),"];
  Code [Lit "    }),"];
  Code [Lit "  });"];
  Code [];
  Code [Lit "  // TODO: dispatch commands"];
  Code [Lit "  // await domain.dispatchCommand({"];
  Code [Lit "  //   name: "; Quote; Lit "Create"; Hole Name; Quote; Lit ","];
  Code [Lit "  //   targetAggregateId: "; Quote; Lit "some-id"; Quote; Lit ","];
  Code [Lit "  // });"];
  Code [Lit "};"];
  Code [];
  Code [Lit "main();"]].

Definition main_kafka : list stmt := [
  Import false block [[Lit "wireDomain"]; [Lit "InMemoryCommandBus"]; [Lit "InMemoryQueryBus"]] (Package [Lit "@noddde/engine"]);
  Import false inline [[Lit "KafkaEventBus"]] (Package [Lit "@noddde/kafka"]);
  Import false inline [[Lit "definition"]] (Relative 0 [[Lit "domain"]] [Lit "domain"]);
  Code [];
  Code [Lit "const main = async () => {"];
  Code [Lit "  const domain = await wireDomain(definition, {"];
  Code [Lit "    // persistenceAdapter: adapter,"];
  Code [Lit "    infrastructure: () => ({"];
  Code [Lit "      // TODO: provide infrastructure implementations"];
  Code [Lit "    }),"];
  Code [Lit "    buses: () => ({"];
  Code [Lit "      commandBus: new InMemoryCommandBus(),"];
  Code [Lit "      eventBus: new KafkaEventBus({"];
  Code [Lit "        brokers: ["; Quote; Lit "localhost:9092"; Quote; Lit "],"];
  Code [Lit "        clientId: "; Quote; Hole KebabName; Quote; Lit ","];
  Code [Lit "        groupId: "; Quote; Hole KebabName; Lit "-group"; Quote; Lit ","];
  Code [Lit "      }),"];
  Code [Lit "      queryBus: new InMemoryQueryBus(),"];
  Code [Lit "    }),"];
  Code [Lit "  });"];
  Code [];
  Code [Lit "  // TODO: dispatch commands"];
  Code [Lit "  // await domain.dispatchCommand({"];
  Code [Lit "  //   name: "; Quote; Lit "Create"; Hole Name; Quote; Lit ","];
  Code [Lit "  //   targetAggregateId: "; Quote; Lit "some-id"; Quote; Lit ","];
  Code [Lit "  // });"];
  Code [Lit "};"];
  Code [];
  Code [Lit "main();"]].

Definition main_nats : list stmt := [
  Import false block [[Lit "wireDomain"]; [Lit "InMemoryCommandBus"]; [Lit "InMemoryQueryBus"]] (Package [Lit "@noddde/engine"]);
  Import false inline [[Lit "NatsEventBus"]] (Package [Lit "@noddde/nats"]);
  Import false inline [[Lit "definition"]] (Relative 0 [[Lit "domain"]] [Lit "domain"]);
  Code [];
  Code [Lit "const main = async () => {"];
  Code [Lit "  const domain = await wireDomain(definition, {"];
  Code [Lit "    // persistenceAdapter: adapter,"];
  Code [Lit "    infrastructure: () => ({"];
  Code [Lit "      // TODO: provide infrastructure implementations"];
  Code [Lit "    }),"];
  Code [Lit "    buses: () => ({"];
  Code [Lit "      commandBus: new InMemoryCommandBus(),"];
  Code [Lit "      eventBus: new NatsEventBus({"];
  Code [Lit "        servers: "; Quote; Lit "localhost:4222"; Quote; Lit ","];
  Code [Lit "        consumerGroup: "; Quote; Hole KebabName; Lit "-group"; Quote; Lit ","];
  Code [Lit "        streamName: "; Quote; Hole KebabName; Lit "-events"; Quote; Lit ","];
  Code [Lit "      }),"];
  Code [Lit "      queryBus: new InMemoryQueryBus(),"];
  Code [Lit "    }),"];
  Code [Lit "  });"];
  Code [];
  Code [Lit "  // TODO: dispatch commands"];
  Code [Lit "  // await domain.dispatchCommand({"];
  Code [Lit "  //   name: "; Quote; Lit "Create"; Hole Name; Quote; Lit ","];
  Code [Lit "  //   targetAggregateId: "; Quote; Lit "some-id"; Quote; Lit ","];
  Code [Lit "  // });"];
  Code [Lit "};"];
  Code [];
  Code [Lit "main();"]].

Definition main_rabbitmq : list stmt := [
  Import false block [[Lit "wireDomain"]; [Lit "InMemoryCommandBus"]; [Lit "InMemoryQueryBus"]] (Package [Lit "@noddde/engine"]);
  Import false inline [[Lit "RabbitMqEventBus"]] (Package [Lit "@noddde/rabbitmq"]);
  Import false inline [[Lit "definition"]] (Relative 0 [[Lit "domain"]] [Lit "domain"]);
  Code [];
  Code [Lit "const main = async () => {"];
  Code [Lit "  const domain = await wireDomain(definition, {"];
  Code [Lit "    // persistenceAdapter: adapter,"];
  Code [Lit "    infrastructure: () => ({"];
  Code [Lit "      // TODO: provide infrastructure implementations"];
  Code [Lit "    }),"];
  Code [Lit "    buses: () => ({"];
  Code [Lit "      commandBus: new InMemoryCommandBus(),"];
  Code [Lit "      eventBus: new RabbitMqEventBus({"];
  Code [Lit "        url: "; Quote; Lit "amqp://localhost:5672"; Quote; Lit ","];
  Code [Lit "        queuePrefix: "; Quote; Hole KebabName; Quote; Lit ","];
  Code [Lit "      }),"];
  Code [Lit "      queryBus: new InMemoryQueryBus(),"];
  Code [Lit "    }),"];
  Code [Lit "  });"];
  Code [];
  Code [Lit "  // TODO: dispatch commands"];
  Code [Lit "  // await domain.dispatchCommand({"];
  Code [Lit "  //   name: "; Quote; Lit "Create"; Hole Name; Quote; Lit ","];
  Code [Lit "  //   targetAggregateId: "; Quote; Lit "some-id"; Quote; Lit ","];
  Code [Lit "  // });"];
  Code [Lit "};"];
  Code [];
  Code [Lit "main();"]].

Definition domainMainTemplate (eventBus : EventBusAdapter) : list stmt :=
  match eventBus with
  | event_emitter_bus => main_event_emitter
  | kafka_bus => main_kafka
  | nats_bus => main_nats
  | rabbitmq_bus => main_rabbitmq
  end.

(** *** templates/domain/saga-state.ts *)

Definition sagaStateTemplate : list stmt := [
  Code [Lit "/** The internal state of the "; Hole Name; Lit " saga. */"];
  Declared an_interface [Hole Name; Lit "SagaState"] [Lit " {"];
  Code [Lit "  status: string | null;"];
  Code [Lit "  // TODO: add saga state fields for tracking workflow progress"];
  Code [Lit "}"];
  Code [];
  Code [Lit "/** Initial state for a new "; Hole Name; Lit " saga instance. */"];
  Declared a_const [Lit "initial"; Hole Name; Lit "SagaState"] [Lit ": "; Hole Name; Lit "SagaState = {"];
  Code [Lit "  status: null,"];
  Code [Lit "};"]].

(** *** templates/domain/saga-transition-handlers.ts *)

Definition transitionHandlersIndexTemplate : list stmt := [
  ReExport false inline [[Lit "onStartEvent"]] (Relative 0 [] [Lit "on-start-event"])].

Definition transitionHandlerTemplate : list stmt := [
  Import true inline [[Hole Name; Lit "SagaState"]] (Relative 1 [] [Lit "state"]);
  Code [];
  Code [Lit "// TODO: once the real event type is wired in the saga def, replace with:"];
  Code [Lit "// import type { InferSagaEventHandler } from "; Quote; Lit "@noddde/core"; Quote; Lit ";"];
  Code [Lit "// import type { "; Hole Name; Lit "SagaDef } from "; Quote; Lit "../saga.js"; Quote; Lit ";"];
  Code [Lit "// export const onStartEvent: InferSagaEventHandler<"; Hole Name; Lit "SagaDef, "; Quote; Hole Name; Lit "Started"; Quote; Lit "> = (event, state) => ({ ... });"];
  Code [];
  Code [Lit "/** Handles the initial event that starts the "; Hole Name; Lit " saga. */"];
  Declared a_function [Lit "onStartEvent"] [Lit "("];
  Code [Lit "  event: { name: string; payload: { id: string } },"];
  Code [Lit "  state: "; Hole Name; Lit "SagaState,"];
  Code [Lit ") {"];
  Code [Lit "  return {"];
  Code [Lit "    state: {"];
  Code [Lit "      ...state,"];
  Code [Lit "      status: "; Quote; Lit "started"; Quote; Lit ","];
  Code [Lit "      // TODO: extract relevant data from the event"];
  Code [Lit "    },"];
  Code [Lit "    // TODO: dispatch commands to other aggregates"];
  Code [Lit "    // commands: {"];
  Code [Lit "    //   name: "; Quote; Lit "SomeCommand"; Quote; Lit " as const,"];
  Code [Lit "    //   targetAggregateId: event.payload.id,"];
  Code [Lit "    //   payload: { ... },"];
  Code [Lit "    // },"];
  Code [Lit "  };"];
  Code [Lit "}"]].

(** *** templates/aggregate/index.ts *)

Definition aggregateIndexTemplate : list stmt := [
  ReExport false inline [[Hole Name]] (Relative 0 [] [Hole KebabName]);
  ReExport true inline [[Hole Name; Lit "State"]] (Relative 0 [] [Lit "state"]);
  ReExport false inline [[Lit "initial"; Hole Name; Lit "State"]] (Relative 0 [] [Lit "state"]);
  ReExport true inline [[Hole Name; Lit "Event"]] (Relative 0 [] [Hole KebabName]);
  ReExport true inline [[Hole Name; Lit "Command"]] (Relative 0 [] [Hole KebabName])].

(** *** templates/aggregate/aggregate.ts *)

Definition aggregateTemplate : list stmt := [
  Import false inline [[Lit "defineAggregate"]; [Lit "DefineEvents"]; [Lit "DefineCommands"]; [Lit "Infrastructure"]] (Package [Lit "@noddde/core"]);
  Import true inline [[Hole Name; Lit "State"]] (Relative 0 [] [Lit "state"]);
  Import false inline [[Lit "initial"; Hole Name; Lit "State"]] (Relative 0 [] [Lit "state"]);
  Import true inline [[Lit "Create"; Hole Name; Lit "Payload"]] (Relative 0 [[Lit "commands"]] [Lit "create-"; Hole KebabName]);
  Import false inline [[Lit "decideCreate"; Hole Name]] (Relative 0 [[Lit "deciders"]] [Lit "index"]);
  Import false inline [[Lit "evolve"; Hole Name; Lit "Created"]] (Relative 0 [[Lit "evolvers"]] [Lit "index"]);
  Code [];
  Code [Lit "// ── Type unions ─────────────────────────────────────────────────"];
  Code [];
  Declared a_type [Hole Name; Lit "Event"] [Lit " = DefineEvents<{"];
  Code [Lit "  "; Hole Name; Lit "Created: { id: string };"];
  Code [Lit "  // TODO: add more events"];
  Code [Lit "}>;"];
  Code [];
  Declared a_type [Hole Name; Lit "Command"] [Lit " = DefineCommands<{"];
  Code [Lit "  Create"; Hole Name; Lit ": Create"; Hole Name; Lit "Payload;"];
  Code [Lit "  // TODO: add more commands"];
  Code [Lit "}>;"];
  Code [];
  Code [Lit "// ── Types bundle ────────────────────────────────────────────────"];
  Code [];
  Declared a_type [Hole Name; Lit "Def"] [Lit " = {"];
  Code [Lit "  state: "; Hole Name; Lit "State;"];
  Code [Lit "  events: "; Hole Name; Lit "Event;"];
  Code [Lit "  commands: "; Hole Name; Lit "Command;"];
  Code [Lit "  infrastructure: Infrastructure; // TODO: replace with domain-specific infrastructure type"];
  Code [Lit "};"];
  Code [];
  Code [Lit "// ── Aggregate definition ────────────────────────────────────────"];
  Code [];
  Declared a_const [Hole Name] [Lit " = defineAggregate<"; Hole Name; Lit "Def>({"];
  Code [Lit "  initialState: initial"; Hole Name; Lit "State,"];
  Code [];
  Code [Lit "  decide: {"];
  Code [Lit "    Create"; Hole Name; Lit ": decideCreate"; Hole Name; Lit ","];
  Code [Lit "  },"];
  Code [];
  Code [Lit "  evolve: {"];
  Code [Lit "    "; Hole Name; Lit "Created: evolve"; Hole Name; Lit "Created,"];
  Code [Lit "  },"];
  Code [Lit "});"]].

(** *** templates/saga/index.ts *)

Definition sagaIndexTemplate : list stmt := [
  ReExport false inline [[Hole Name; Lit "Saga"]] (Relative 0 [] [Lit "saga"]);
  ReExport true inline [[Hole Name; Lit "SagaState"]] (Relative 0 [] [Lit "state"]);
  ReExport false inline [[Lit "initial"; Hole Name; Lit "SagaState"]] (Relative 0 [] [Lit "state"])].

(** *** templates/saga/saga.ts *)

Definition sagaTemplate : list stmt := [
  Import false inline [[Lit "defineSaga"]; [Lit "DefineEvents"]] (Package [Lit "@noddde/core"]);
  Import true inline [[Hole Name; Lit "SagaState"]] (Relative 0 [] [Lit "state"]);
  Import false inline [[Lit "initial"; Hole Name; Lit "SagaState"]] (Relative 0 [] [Lit "state"]);
  Import false inline [[Lit "onStartEvent"]] (Relative 0 [[Lit "on-entries"]] [Lit "index"]);
  Code [];
  Code [Lit "// TODO: import event and command types from related aggregates, and replace"];
  Code [Lit "// "; Hole Name; Lit "Started below with the real event that starts this saga."];
  Code [Lit "// import type { SomeEvent } from "; Quote; Lit "../some-aggregate/events.js"; Quote; Lit ";"];
  Code [Lit "// import type { SomeCommand } from "; Quote; Lit "../some-aggregate/commands.js"; Quote; Lit ";"];
  Code [];
  Code [Lit "// ── Types bundle ────────────────────────────────────────────────"];
  Code [];
  Code [Lit "// TODO: replace with the event(s) that start and drive this saga instance"];
  Code [Lit "type "; Hole Name; Lit "SagaEvent = DefineEvents<{"];
  Code [Lit "  "; Hole Name; Lit "Started: { id: string };"];
  Code [Lit "}>;"];
  Code [];
  Code [Lit "type "; Hole Name; Lit "SagaDef = {"];
  Code [Lit "  state: "; Hole Name; Lit "SagaState;"];
  Code [Lit "  events: "; Hole Name; Lit "SagaEvent;"];
  Code [Lit "  commands: never; // TODO: replace with union of command types"];
  Code [Lit "  infrastructure: Record<string, never>; // TODO: add infrastructure dependencies"];
  Code [Lit "};"];
  Code [];
  Code [Lit "// ── Saga definition ─────────────────────────────────────────────"];
  Code [];
  Declared a_const [Hole Name; Lit "Saga"] [Lit " = defineSaga<"; Hole Name; Lit "SagaDef>({"];
  Code [Lit "  // atomicity defaults to "; Quote; Lit "atomic"; Quote; Lit " (state + reaction commands commit together)."];
  Code [Lit "  // Set "; Quote; Lit "best-effort"; Quote; Lit " to commit saga state before dispatching commands — needed"];
  Code [Lit "  // when a command handler publishes a consumed event directly via the event bus."];
  Code [Lit "  // atomicity: "; Quote; Lit "best-effort"; Quote; Lit ","];
  Code [];
  Code [Lit "  initialState: initial"; Hole Name; Lit "SagaState,"];
  Code [];
  Code [Lit "  startedBy: ["; Quote; Hole Name; Lit "Started"; Quote; Lit "],"];
  Code [];
  Code [Lit "  on: {"];
  Code [Lit "    "; Hole Name; Lit "Started: {"];
  Code [Lit "      id: (event) => event.payload.id,"];
  Code [Lit "      handle: onStartEvent,"];
  Code [Lit "    },"];
  Code [Lit "  },"];
  Code [Lit "});"]].

(** *** templates/project/sample-test.ts *)

Definition sampleTestTemplate : list stmt := [
  Import false inline [[Lit "describe"]; [Lit "expect"]; [Lit "it"]] (Package [Lit "vitest"]);
  Import false inline [[Lit "testAggregate"]; [Lit "testDomain"]] (Package [Lit "@noddde/testing"]);
  Import false inline [[Hole Name]] (Relative 1 [[Lit "domain"]; [Lit "write-model"]; [Lit "aggregates"]; [Hole KebabName]] [Lit "index"]);
  Import false inline [[Hole Name; Lit "Projection"]] (Relative 1 [[Lit "domain"]; [Lit "read-model"]; [Lit "projections"]; [Hole KebabName]] [Lit "index"]);
  Code [];
  Code [Lit "// ═══════════════════════════════════════════════════════════════════"];
  Code [Lit "// UNIT TEST — testAggregate"];
  Code [Lit "// ═══════════════════════════════════════════════════════════════════"];
  Code [];
  Code [Lit "describe("; Quote; Hole Name; Lit " aggregate"; Quote; Lit ", () => {"];
  Code [Lit "  it("; Quote; Lit "should handle Create"; Hole Name; Lit " command"; Quote; Lit ", async () => {"];
  Code [Lit "    const result = await testAggregate("; Hole Name; Lit ")"];
  Code [Lit "      .when({"];
  Code [Lit "        name: "; Quote; Lit "Create"; Hole Name; Quote; Lit ","];
  Code [Lit "        targetAggregateId: "; Quote; Lit "test-id"; Quote; Lit ","];
  Code [Lit "      })"];
  Code [Lit "      .withInfrastructure({})"];
  Code [Lit "      .execute();"];
  Code [];
  Code [Lit "    expect(result.events).toHaveLength(1);"];
  Code [Lit "    expect(result.events[0]!.name).toBe("; Quote; Hole Name; Lit "Created"; Quote; Lit ");"];
  Code [Lit "    expect(result.events[0]!.payload).toEqual({ id: "; Quote; Lit "test-id"; Quote; Lit " });"];
  Code [Lit "  });"];
  Code [Lit "});"];
  Code [];
  Code [Lit "// ═══════════════════════════════════════════════════════════════════"];
  Code [Lit "// SLICE TEST — testDomain"];
  Code [Lit "// ═══════════════════════════════════════════════════════════════════"];
  Code [];
  Code [Lit "describe("; Quote; Hole Name; Lit " domain"; Quote; Lit ", () => {"];
  Code [Lit "  it("; Quote; Lit "should dispatch a command and publish events"; Quote; Lit ", async () => {"];
  Code [Lit "    const { domain, spy } = await testDomain({"];
  Code [Lit "      aggregates: { "; Hole Name; Lit " },"];
  Code [Lit "      projections: { "; Hole Name; Lit ": "; Hole Name; Lit "Projection },"];
  Code [Lit "      infrastructure: {},"];
  Code [Lit "    });"];
  Code [];
  Code [Lit "    await domain.dispatchCommand({"];
  Code [Lit "      name: "; Quote; Lit "Create"; Hole Name; Quote; Lit ","];
  Code [Lit "      targetAggregateId: "; Quote; Lit "test-id"; Quote; Lit ","];
  Code [Lit "    });"];
  Code [];
  Code [Lit "    expect(spy.publishedEvents).toHaveLength(1);"];
  Code [Lit "    expect(spy.publishedEvents[0]!.name).toBe("; Quote; Hole Name; Lit "Created"; Quote; Lit ");"];
  Code [Lit "  });"];
  Code [Lit "});"]].

(** *** templates/project/vitest-config.ts *)

Definition vitestConfigTemplate : list stmt := [
  Import false inline [[Lit "defineConfig"]] (Package [Lit "vitest/config"]);
  Code [];
  Code [Lit "export default defineConfig({"];
  Code [Lit "  test: {"];
  Code [Lit "    include: ["; Quote; Lit "src/__tests__/**/*.test.ts"; Quote; Lit "],"];
  Code [Lit "  },"];
  Code [Lit "});"]].

(** *** templates/project/gitignore.ts *)

Definition gitignoreTemplate : list stmt := [
  Code [Lit "node_modules/"];
  Code [Lit "dist/"];
  Code [Lit ".env"];
  Code [Lit ".env.local"];
  Code [Lit "*.tsbuildinfo"]].

(** *** templates/add/command.ts *)

Definition addCommandPayloadTemplate : list stmt := [
  Code [Lit "/** Payload for the "; Hole CommandName; Lit " command. */"];
  Declared an_interface [Hole CommandName; Lit "Payload"] [Lit " {"];
  Code [Lit "  // TODO: add command payload fields"];
  Code [Lit "}"]].

Definition addDeciderTemplate : list stmt := [
  Import true inline [[Lit "InferDecideHandler"]] (Package [Lit "@noddde/core"]);
  Import true inline [[Hole AggregateName; Lit "Def"]] (Relative 1 [] [Hole AggregateKebab]);
  Code [];
  Code [Lit "/** Decides the "; Hole CommandName; Lit " command. */"];
  Declared a_const [Lit "decide"; Hole CommandName] [Lit ": InferDecideHandler<"; Hole AggregateName; Lit "Def, "; Quote; Hole CommandName; Quote; Lit "> = (command, _state) => ({"];
  Code [Lit "  name: "; Quote; Hole EventName; Quote; Lit " as const,"];
  Code [Lit "  payload: {"];
  Code [Lit "    id: command.targetAggregateId,"];
  Code [Lit "    // TODO: map command payload to event payload"];
  Code [Lit "  },"];
  Code [Lit "});"]].

Definition addEvolverTemplate : list stmt := [
  Import true inline [[Lit "InferEvolveHandler"]] (Package [Lit "@noddde/core"]);
  Import true inline [[Hole AggregateName; Lit "Def"]] (Relative 1 [] [Hole AggregateKebab]);
  Code [];
  Code [Lit "/** Evolves state for "; Hole EventName; Lit ". */"];
  Declared a_const [Lit "evolve"; Hole EventName] [Lit ": InferEvolveHandler<"; Hole AggregateName; Lit "Def, "; Quote; Hole EventName; Quote; Lit "> = (_payload, state) => ({"];
  Code [Lit "  ...state,"];
  Code [Lit "  // TODO: evolve state from event payload"];
  Code [Lit "});"]].

(** *** templates/add/query.ts *)

Definition addQueryPayloadTemplate : list stmt := [
  Code [Lit "/** Payload for the "; Hole QueryName; Lit " query. */"];
  Declared an_interface [Hole QueryName; Lit "Payload"] [Lit " {"];
  Code [Lit "  id: string;"];
  Code [Lit "}"]].

Definition addQueryHandlerTemplate : list stmt := [
  Import true inline [[Lit "InferProjectionQueryHandler"]] (Package [Lit "@noddde/core"]);
  Import true inline [[Hole ProjectionName; Lit "ProjectionDef"]] (Relative 1 [] [Hole ProjectionKebab]);
  Code [];
  Code [Lit "/** Handles the "; Hole QueryName; Lit " query. */"];
  Declared a_const [Lit "handle"; Hole QueryName] [Lit ": InferProjectionQueryHandler<"; Hole ProjectionName; Lit "ProjectionDef, "; Quote; Hole QueryName; Quote; Lit "> = async (query, { views }) =>"];
  Code [Lit "  (await views.load(query.id)) ?? null;"]].

(** *** templates/add/event-handler.ts *)

Definition addEventHandlerTemplate : list stmt := [
  Import true inline [[Hole ProjectionName; Lit "View"]] (Relative 1 [[Lit "queries"]] [Lit "index"]);
  Code [];
  Code [Lit "// TODO: once event types are wired in the projection def, replace with:"];
  Code [Lit "// import type { InferProjectionEventHandler } from "; Quote; Lit "@noddde/core"; Quote; Lit ";"];
  Code [Lit "// import type { "; Hole ProjectionName; Lit "ProjectionDef } from "; Quote; Lit "../"; Hole ProjectionKebab; Lit ".js"; Quote; Lit ";"];
  Code [Lit "// export const on"; Hole EventName; Lit ": InferProjectionEventHandler<"; Hole ProjectionName; Lit "ProjectionDef, "; Quote; Hole EventName; Quote; Lit "> = { ... };"];
  Code [];
  Code [Lit "/** Reduces a "; Hole EventName; Lit " event into a view. */"];
  Declared a_function [Lit "on"; Hole EventName] [Lit "("];
  Code [Lit "  event: { name: "; Quote; Hole EventName; Quote; Lit "; payload: Record<string, unknown> },"];
  Code [Lit "  view: "; Hole ProjectionName; Lit "View,"];
  Code [Lit "): "; Hole ProjectionName; Lit "View {"];
  Code [Lit "  return {"];
  Code [Lit "    ...view,"];
  Code [Lit "    // TODO: update view fields from event payload"];
  Code [Lit "  };"];
  Code [Lit "}"]].
