(* ===== verification/JsonIndent.v ===== *)
(** [JSON.stringify(value, null, gap)]: the indented form, and that [JSON.parse] reads it
    back.  It differs from the compact form of [Json] by white space around the items of
    arrays and objects. *)
From S2P Require Import Prelude Text Json.
Local Open Scope Z_scope.

Definition line_feed : Ascii.ascii := chr 10.

(** The lines of a bracketed list: each on a line of its own behind [inner], the closing
    bracket behind [outer]. *)
Definition bracketed (opening closing : Z) (inner outer : chars) (items : list chars) : chars :=
  match items with
  | [] => [chr opening; chr closing]
  | _ => chr opening :: commas (map (fun t => line_feed :: inner ++ t) items) ++ line_feed :: outer ++ [chr closing]
  end.

Fixpoint print_indented (gap indent : chars) (j : value) : chars :=
  match j with
  | VArr items => bracketed 91 93 (indent ++ gap) indent (map (print_indented gap (indent ++ gap)) items)
  | VObj fields =>
      bracketed 123 125 (indent ++ gap) indent
        (map (fun '(k, x) => print_string k ++ chr 58 :: chr 32 :: print_indented gap (indent ++ gap) x) fields)
  | _ => print j
  end.

(** ** White space *)

Definition blank (w : chars) : Prop := Forall (fun c => is_space c = true) w.

Lemma skip_blank w s : blank w -> skip_spaces (w ++ s) = skip_spaces s.
Proof. induction 1 as [| c w Hc _ IH]; [done |]. cbn. by rewrite Hc. Qed.

Lemma read_value_blank fuel w s : blank w -> read_value fuel (w ++ s) = read_value fuel s.
Proof. intros Hw. destruct fuel; [done |]. cbn [read_value]. by rewrite skip_blank. Qed.

(** A text that reads as a value, whatever follows. *)
Definition reads_as (t : chars) (j : value) : Prop := forall fuel rest,
  (2 * length t <= fuel)%nat -> ends_number rest -> read_value fuel (t ++ rest) = Some (j, rest).

(** The first character of the text of a value. *)
Definition starts (t : chars) : Prop := exists c l, t = c :: l /\ is_space c = false /\ code c <> 93 /\ code c <> 125.

Section spaced.
Context (inner outer : chars) (Hin : blank inner) (Hout : blank outer).

(** An item on its line, and what follows the last one. *)
Definition on_line (t : chars) : chars := line_feed :: inner ++ t.
Definition closes (closing : Z) (rest : chars) : chars := line_feed :: outer ++ chr closing :: rest.

Lemma blank_inner : blank (line_feed :: inner). Proof. by constructor. Qed.

Lemma skip_closes closing rest : is_space (chr closing) = false -> skip_spaces (closes closing rest) = chr closing :: rest.
Proof.
  intros Hc. unfold closes. change (line_feed :: outer ++ chr closing :: rest) with ((line_feed :: outer) ++ chr closing :: rest).
  rewrite skip_blank by by constructor. cbn. by rewrite Hc.
Qed.

Lemma read_line fuel t j rest : reads_as t j -> (2 * length t <= fuel)%nat -> ends_number rest ->
  read_value fuel (on_line t ++ rest) = Some (j, rest).
Proof.
  intros Ht Hf Hr. unfold on_line. change ((line_feed :: inner ++ t) ++ rest) with ((line_feed :: inner ++ t) ++ rest).
  rewrite app_comm_cons, <- app_assoc, read_value_blank by apply blank_inner. by apply Ht.
Qed.

Lemma read_lines ts js rest : ts <> [] -> Forall2 reads_as ts js ->
  forall fuel, (2 * length (commas (map on_line ts)) + 1 <= fuel)%nat ->
  read_items fuel (commas (map on_line ts) ++ closes 93 rest) = Some (js, rest).
Proof.
  intros Hne H. induction H as [| t j ts js Ht Hts IH]; [done |].
  intros [| fuel] Hf; [lia |]. cbn [map] in *. rewrite commas_cons in *. rewrite length_app in Hf.
  assert (Hl : (2 * length t <= fuel)%nat) by (unfold on_line in Hf; rewrite length_cons, length_app in Hf; lia).
  rewrite <- app_assoc. cbn [read_items]. destruct ts as [| t' ts]; cbn [map].
  - inversion Hts; subst. rewrite app_nil_l, (read_line fuel t j); [| done | done | by split]. by rewrite skip_closes.
  - rewrite <- app_comm_cons, (read_line fuel t j); [| done | done | by split].
    cbn [skip_spaces]. change (is_space (chr 44)) with false. cbn match.
    change (code (chr 44) =? 93) with false. change (code (chr 44) =? 44) with true. cbn match.
    change (on_line t' :: map on_line ts) with (map on_line (t' :: ts)).
    rewrite IH; [done | done |]. cbn [map length] in Hf |- *. lia.
Qed.

(** The text of a field. *)
Definition field_as (t : chars) (kv : string * value) : Prop :=
  exists tx, t = print_string (fst kv) ++ chr 58 :: chr 32 :: tx /\ reads_as tx (snd kv).

Lemma read_field_lines ts fields rest acc : ts <> [] -> own_order (acc ++ fields) -> Forall2 field_as ts fields ->
  forall fuel, (2 * length (commas (map on_line ts)) + 1 <= fuel)%nat ->
  read_fields fuel (commas (map on_line ts) ++ closes 125 rest) acc = Some (acc ++ fields, rest).
Proof.
  intros Hne Ho H. revert acc Ho. induction H as [| t [k x] ts fields (tx & -> & Hx) Hts IH]; intros acc Ho; [done |].
  intros [| fuel] Hf; [lia |]. cbn [map fst snd] in *. rewrite commas_cons in *. rewrite length_app in Hf.
  assert (Hl : (2 * length tx <= fuel)%nat).
  { unfold on_line in Hf. rewrite length_cons, !length_app, !length_cons in Hf. lia. }
  set (tail := match map on_line ts with [] => [] | _ => chr 44 :: commas (map on_line ts) end ++ closes 125 rest).
  assert (Hskip : skip_spaces ((on_line (print_string k ++ chr 58 :: chr 32 :: tx) ++
      match map on_line ts with [] => [] | _ => chr 44 :: commas (map on_line ts) end) ++ closes 125 rest)
    = print_string k ++ chr 58 :: chr 32 :: tx ++ tail).
  { unfold on_line at 1. rewrite <- app_assoc. fold tail. rewrite app_comm_cons, <- !app_assoc.
    rewrite skip_blank by apply blank_inner. cbn [app]. destruct (print_string k) eqn:E; [done |].
    unfold print_string in E. injection E as <- _. reflexivity. }
  destruct (read_printed_string k (chr 58 :: chr 32 :: tx ++ tail)) as (body & Eb & Hk).
  cbn [read_fields]. rewrite Hskip, Eb. change (code quote_char =? 34) with true. cbv beta iota. rewrite Hk.
  cbn [skip_spaces]. change (is_space (chr 58)) with false. cbv beta iota. rewrite expect_cons.
  change (chr 32 :: tx ++ tail) with ([chr 32] ++ (tx ++ tail)). rewrite read_value_blank by by repeat constructor.
  pose proof (set_prop_snoc _ _ _ _ Ho) as Hset. subst tail. destruct ts as [| t' ts]; cbn [map app].
  - inversion Hts; subst. rewrite Hx; [| done | by split]. rewrite skip_closes by done. cbn.
    by rewrite string_of_chars_of, Hset.
  - rewrite Hx; [| done | by split].
    cbn [skip_spaces]. change (is_space (chr 44)) with false. cbv beta iota.
    change (code (chr 44) =? 125) with false. change (code (chr 44) =? 44) with true. cbv beta iota.
    rewrite string_of_chars_of, Hset. change (on_line t' :: map on_line ts) with (map on_line (t' :: ts)).
    rewrite IH; [by rewrite <- app_assoc | done | by rewrite <- app_assoc |]. cbn [map length] in Hf |- *. lia.
Qed.
End spaced.

(** ** Reading the indented form *)

Section bracketed.
Context (inner outer : chars) (Hin : blank inner) (Hout : blank outer).

Lemma bracketed_cons opening closing t ts rest :
  bracketed opening closing inner outer (t :: ts) ++ rest =
  chr opening :: commas (map (on_line inner) (t :: ts)) ++ closes outer closing rest.
Proof. unfold bracketed, closes. cbn [app]. f_equal. rewrite <- !app_assoc. f_equal. cbn. by rewrite <- app_assoc. Qed.

Lemma bracketed_length opening closing t ts :
  length (bracketed opening closing inner outer (t :: ts)) = (length (commas (map (on_line inner) (t :: ts))) + length outer + 3)%nat.
Proof.
  change (bracketed opening closing inner outer (t :: ts))
    with (chr opening :: commas (map (on_line inner) (t :: ts)) ++ line_feed :: outer ++ [chr closing]).
  rewrite length_cons, length_app, length_cons, length_app, length_cons, length_nil. lia.
Qed.

(** The first item is what comes after the bracket. *)
Lemma skip_first t ts rest : starts t ->
  exists c l, skip_spaces (commas (map (on_line inner) (t :: ts)) ++ rest) = c :: l /\ code c <> 93 /\ code c <> 125.
Proof.
  intros (c & l & -> & Hc & H93 & H125). cbn [map]. destruct (commas_first (on_line inner (c :: l)) (map (on_line inner) ts)) as [more ->].
  unfold on_line. rewrite <- app_assoc, app_comm_cons, <- app_assoc, skip_blank by by constructor. cbn. rewrite Hc. by eauto.
Qed.

Lemma reads_bracketed_array ts js : Forall starts ts -> Forall2 reads_as ts js -> reads_as (bracketed 91 93 inner outer ts) (VArr js).
Proof.
  intros Hs H [| fuel] rest Hf _; [destruct ts; cbn in Hf; lia |]. destruct H as [| t j ts js Ht Hts]; [done |].
  rewrite bracketed_length in Hf. rewrite bracketed_cons. inversion Hs; subst.
  destruct (skip_first t ts (closes outer 93 rest)) as (c & l & E & H93 & _); [done |].
  cbn [read_value skip_spaces]. change (is_space (chr 91)) with false. cbv beta iota.
  change (code (chr 91) =? 34) with false. change (code (chr 91) =? 91) with true. cbv beta iota.
  rewrite E, (proj2 (Z.eqb_neq _ _) H93).
  rewrite (read_lines inner outer Hin Hout (t :: ts) (j :: js)); [done | done | by constructor | lia].
Qed.

Lemma reads_bracketed_object ts fields : own_order fields -> Forall2 field_as ts fields ->
  reads_as (bracketed 123 125 inner outer ts) (VObj fields).
Proof.
  intros Ho H [| fuel] rest Hf _; [destruct ts; cbn in Hf; lia |]. destruct H as [| t kv ts fields Ht Hts]; [done |].
  rewrite bracketed_length in Hf. rewrite bracketed_cons.
  assert (Hs : starts t). { destruct Ht as (tx & -> & _). exists quote_char. by eexists. }
  destruct (skip_first t ts (closes outer 125 rest) Hs) as (c & l & E & _ & H125).
  cbn [read_value skip_spaces]. change (is_space (chr 123)) with false. cbv beta iota.
  change (code (chr 123) =? 34) with false. change (code (chr 123) =? 91) with false. change (code (chr 123) =? 123) with true.
  cbv beta iota. rewrite E, (proj2 (Z.eqb_neq _ _) H125).
  rewrite (read_field_lines inner outer Hin Hout (t :: ts) (kv :: fields) rest []); [done | done | done | by constructor | lia].
Qed.
End bracketed.

Section indented.
Context (gap : chars) (Hgap : blank gap).

Lemma print_indented_starts indent j : is_json j -> starts (print_indented gap indent j).
Proof.
  intros Hj. destruct j as [| | | | | | | | items | fields]; try (destruct (print_first _ Hj) as (c & l & E & H); by exists c, l).
  - cbn. destruct items; by do 2 eexists.
  - cbn. destruct fields; by do 2 eexists.
Qed.

Lemma reads_indented j : is_json j -> forall indent, blank indent -> reads_as (print_indented gap indent j) j.
Proof.
  induction j as [v Hleaf | items IH | fields IH] using value_nested_ind; intros Hj indent Hi.
  - destruct v; try done; exact (reads_leaf _ Hj I).
  - apply foldr_Forall in Hj. assert (Hi' : blank (indent ++ gap)) by by apply Forall_app.
    apply reads_bracketed_array; [done | done | |].
    + apply Forall_map. eapply Forall_impl; [exact Hj |]. intros x Hx. by apply print_indented_starts.
    + induction items as [| x items IHl]; [constructor |].
      apply Forall_cons in Hj as [Hx Hj], IH as [Hrx Hr]. constructor; [by apply Hrx | by apply IHl].
  - destruct Hj as [Ho Hj%foldr_Forall_snd]. assert (Hi' : blank (indent ++ gap)) by by apply Forall_app.
    apply reads_bracketed_object; [done | done | done |]. clear Ho.
    induction fields as [| [k x] fields IHl]; [constructor |].
    apply Forall_cons in Hj as [Hx Hj], IH as [Hrx Hr]. constructor; [| by apply IHl].
    exists (print_indented gap (indent ++ gap) x). split; [done |]. by apply Hrx.
Qed.

(** [JSON.parse(JSON.stringify(j, null, gap))] *)
Lemma parse_print_indented j : is_json j -> parse (string_of (print_indented gap [] j)) = Ok j.
Proof.
  intros Hj. unfold parse. rewrite chars_of_string_of.
  pose proof (reads_indented j Hj [] ltac:(constructor) (2 * length (print_indented gap [] j) + 2)%nat [] ltac:(lia) ltac:(by split)) as H.
  rewrite app_nil_r in H. by rewrite H.
Qed.
End indented.
