(* ===== verification/Diagram.v ===== *)
(** [noddde diagram] (packages/cli/src/diagram and commands/diagram.ts): the flow graph of a
    domain definition, from the keys of its objects and from the command types of its sagas,
    the filters, and the texts in which the graph is written.  The graph is built over the
    same [DomainDefinition] that [Assembly.init] runs.  The TypeScript compiler is a record
    of operations ([TsApi]). *)
From Stdlib Require Import Ascii.
From S2P Require Import Prelude JsMap CoreTypes World Init.
Local Open Scope string_scope.

(** ** types.ts *)

Inductive GraphNodeKind : Type := command_k | event_k | query_k | aggregate_k | projection_k | saga_k.
#[export] Instance GraphNodeKind_eq_dec : EqDecision GraphNodeKind. Proof. solve_decision. Defined.

Inductive GraphNodeModel : Type := write | read | process | external.
#[export] Instance GraphNodeModel_eq_dec : EqDecision GraphNodeModel. Proof. solve_decision. Defined.

Record GraphNode : Type := { gn_id : string; gn_label : string; gn_kind : GraphNodeKind; gn_model : GraphNodeModel }.

Inductive GraphEdgeSource : Type := runtime | static.

Record GraphEdge : Type := { ge_from : string; ge_to : string; ge_source : GraphEdgeSource }.

Record DomainGraph : Type := { dg_nodes : list GraphNode; dg_edges : list GraphEdge; dg_warnings : list string }.

Inductive DiagramFormat : Type := mermaid | dot | json.
Inductive DiagramScope : Type := write_scope | read_scope | process_scope | all_scope.
#[export] Instance DiagramScope_eq_dec : EqDecision DiagramScope. Proof. solve_decision. Defined.

Record DiagramOptions : Type := {
  do_format : option DiagramFormat;
  do_scope : option DiagramScope;
  do_hideIsolated : option bool;
  do_tsconfigPath : option string
}.

Definition kind_text (k : GraphNodeKind) : string :=
  match k with
  | command_k => "command" | event_k => "event" | query_k => "query"
  | aggregate_k => "aggregate" | projection_k => "projection" | saga_k => "saga"
  end.

Definition model_text (m : GraphNodeModel) : string :=
  match m with write => "write" | read => "read" | process => "process" | external => "external" end.

Definition nodeId (kind : GraphNodeKind) (name : string) : string := kind_text kind ++ ":" ++ name.

(** ** introspect.ts *)

(** The nodes, a [Map] by id, and the edges found so far. *)
Definition Introspection : Type := (jsmap GraphNode * list GraphEdge)%type.

Definition ensureNode (node : GraphNode) (st : Introspection) : Introspection :=
  match mget (gn_id node) (fst st) with
  | None => (mset (gn_id node) node (fst st), snd st)
  | Some _ => st
  end.

Definition node (kind : GraphNodeKind) (name : string) (model : GraphNodeModel) : GraphNode :=
  {| gn_id := nodeId kind name; gn_label := name; gn_kind := kind; gn_model := model |}.

Definition push_edge (e : GraphEdge) (st : Introspection) : Introspection := (fst st, (snd st ++ [e])%list).

(** A node for [name], and the edge from it to [id] or from [id] to it. *)
Definition edge_into (id : string) (kind : GraphNodeKind) (model : GraphNodeModel) (st : Introspection) (name : string) : Introspection :=
  push_edge {| ge_from := nodeId kind name; ge_to := id; ge_source := runtime |} (ensureNode (node kind name model) st).

Definition edge_out_of (id : string) (kind : GraphNodeKind) (model : GraphNodeModel) (st : Introspection) (name : string) : Introspection :=
  push_edge {| ge_from := id; ge_to := nodeId kind name; ge_source := runtime |} (ensureNode (node kind name model) st).

(** [new Set(names)], in the order of insertion *)
Definition set_of (names : list string) : list string :=
  fold_left (fun seen n => if existsb (String.eqb n) seen then seen else (seen ++ [n])%list) names [].

Section introspection.
Context {W Tx : Type}.

Definition introspect_aggregate (st : Introspection) (entry : string * Aggregate W) : Introspection :=
  let '(aggregateName, aggregate) := entry in
  let aggId := nodeId aggregate_k aggregateName in
  let st := ensureNode (node aggregate_k aggregateName write) st in
  let st := fold_left (edge_into aggId command_k write) (mkeys (ag_decide aggregate)) st in
  fold_left (edge_out_of aggId event_k write) (mkeys (ag_evolve aggregate)) st.

Definition introspect_projection (st : Introspection) (entry : string * ProjectionDefinition W Tx) : Introspection :=
  let '(projectionName, projection) := entry in
  let projId := nodeId projection_k projectionName in
  let st := ensureNode (node projection_k projectionName read) st in
  let st := fold_left (edge_into projId event_k write) (mkeys (pr_on (pd_projection projection))) st in
  fold_left (edge_into projId query_k read) (mkeys (pd_queryHandlers projection)) st.

Definition triggerEvents (saga : Saga W) : list string := set_of (sg_startedBy saga ++ mkeys (sg_on saga)).

Definition introspect_saga (st : Introspection) (entry : string * Saga W) : Introspection :=
  let '(sagaName, saga) := entry in
  let sagaIdValue := nodeId saga_k sagaName in
  let st := ensureNode (node saga_k sagaName process) st in
  fold_left (edge_into sagaIdValue event_k write) (triggerEvents saga) st.

Definition sagas_of (definition : DomainDefinition W Tx) : jsmap (Saga W) := or_default (df_sagas definition) empty.

Definition introspectDomain (definition : DomainDefinition W Tx) : list GraphNode * list GraphEdge :=
  let st := fold_left introspect_aggregate (df_aggregates definition) (empty, []) in
  let st := fold_left introspect_projection (df_projections definition) st in
  let st := fold_left introspect_saga (sagas_of definition) st in
  (mvalues (fst st), snd st).
End introspection.

(** ** build-graph.ts *)

Record SagaCommandAnalysis : Type := {
  sa_commands : jsmap (list string);
  sa_unresolved : list string;
  sa_warnings : list string
}.

(** The graph under construction: the nodes by id, the edges and the warnings. *)
Record Building : Type := { bd_nodes : jsmap GraphNode; bd_edges : list GraphEdge; bd_warnings : list string }.

Definition external_warning (sagaKey commandName : string) : string :=
  "Saga '" ++ sagaKey ++ "' dispatches command '" ++ commandName ++ "', but no aggregate handles it. Marked as external.".

Definition saga_command (sagaKey : string) (b : Building) (commandName : string) : Building :=
  let cmdId := nodeId command_k commandName in
  let edge := {| ge_from := nodeId saga_k sagaKey; ge_to := cmdId; ge_source := static |} in
  if mhas cmdId (bd_nodes b) then
    {| bd_nodes := bd_nodes b; bd_edges := bd_edges b ++ [edge]; bd_warnings := bd_warnings b |}
  else
    {| bd_nodes := mset cmdId (node command_k commandName external) (bd_nodes b);
       bd_edges := bd_edges b ++ [edge];
       bd_warnings := bd_warnings b ++ [external_warning sagaKey commandName] |}.

Definition saga_commands (b : Building) (entry : string * list string) : Building :=
  let '(sagaKey, commandNames) := entry in
  if mhas (nodeId saga_k sagaKey) (bd_nodes b) then fold_left (saga_command sagaKey) commandNames b else b.

Definition scopeAllowedModels (scope : DiagramScope) : list GraphNodeModel :=
  match scope with
  | write_scope => [write]
  | read_scope => [read; write]
  | process_scope => [process; write]
  | all_scope => [write; read; process]
  end.

Definition scopeAllowedKinds (scope : DiagramScope) : list GraphNodeKind :=
  match scope with
  | write_scope => [command_k; aggregate_k; event_k]
  | read_scope => [event_k; projection_k; query_k]
  | process_scope => [event_k; saga_k; command_k]
  | all_scope => [command_k; event_k; query_k; aggregate_k; projection_k; saga_k]
  end.

Definition in_scope (scope : DiagramScope) (n : GraphNode) : bool :=
  (bool_decide (gn_model n ∈ scopeAllowedModels scope) || bool_decide (gn_model n = external))
  && bool_decide (gn_kind n ∈ scopeAllowedKinds scope).

Definition has_id (id : string) (nodes : list GraphNode) : bool := existsb (fun n => String.eqb id (gn_id n)) nodes.

(** [edges.filter((e) => keptIds.has(e.from) && keptIds.has(e.to))] *)
Definition between (nodes : list GraphNode) (edges : list GraphEdge) : list GraphEdge :=
  List.filter (fun e => has_id (ge_from e) nodes && has_id (ge_to e) nodes) edges.

Definition bump (id : string) (degree : jsmap nat) : jsmap nat := mset id (or_default (mget id degree) 0 + 1)%nat degree.

Definition degrees (edges : list GraphEdge) : jsmap nat :=
  fold_left (fun d e => bump (ge_to e) (bump (ge_from e) d)) edges empty.

Definition no_aggregates_warning : string :=
  "Domain has no aggregates; the diagram will be missing the write model.".

Section build.
Context {W Tx : Type} (analyzeSagaCommands : string -> list string -> option string -> SagaCommandAnalysis).

(** The graph before the filters. *)
Definition full_graph (definition : DomainDefinition W Tx) (entryFile : string) (options : DiagramOptions)
    (injectedSagaCommands : option (jsmap (list string))) : Building :=
  let '(nodes, edges) := introspectDomain definition in
  let sagaKeys := mkeys (sagas_of definition) in
  let '(sagaCommands, warnings) :=
    match injectedSagaCommands with
    | Some commands => (commands, [])
    | None =>
        match sagaKeys with
        | [] => (empty, [])
        | _ =>
            let analysis := analyzeSagaCommands entryFile sagaKeys (do_tsconfigPath options) in
            (sa_commands analysis, sa_warnings analysis)
        end
    end in
  fold_left saga_commands sagaCommands
    {| bd_nodes := map (fun n => (gn_id n, n)) nodes; bd_edges := edges; bd_warnings := warnings |}.

Definition scope_filter (scope : DiagramScope) (graph : list GraphNode * list GraphEdge) : list GraphNode * list GraphEdge :=
  if bool_decide (scope = all_scope) then graph
  else let kept := List.filter (in_scope scope) (fst graph) in (kept, between kept (snd graph)).

Definition isolated_filter (hideIsolated : bool) (graph : list GraphNode * list GraphEdge) : list GraphNode * list GraphEdge :=
  if hideIsolated then
    let degree := degrees (snd graph) in
    let kept := List.filter (fun n => (0 <? or_default (mget (gn_id n) degree) 0)%nat) (fst graph) in
    (kept, between kept (snd graph))
  else graph.

Definition buildDomainGraph (definition : DomainDefinition W Tx) (entryFile : string) (options : DiagramOptions)
    (injectedSagaCommands : option (jsmap (list string))) : DomainGraph :=
  let scope := or_default (do_scope options) all_scope in
  let hideIsolated := or_default (do_hideIsolated options) false in
  let b := full_graph definition entryFile options injectedSagaCommands in
  let '(nodes, edges) := isolated_filter hideIsolated (scope_filter scope (mvalues (bd_nodes b), bd_edges b)) in
  {| dg_nodes := nodes; dg_edges := edges;
     dg_warnings := bd_warnings b ++
       match df_aggregates definition with [] => [no_aggregates_warning] | _ => [] end |}.
End build.

(** ** static-analyze.ts *)

(** The part of the TypeScript compiler that the analysis uses: types, symbols and source
    files are its own.  [declaration] tells that a symbol has one. *)
Record TsApi (ty symbol sourceFile : Type) : Type := {
  ts_fileExists : list string -> bool;                     (** [fs.existsSync] of a path *)
  ts_getSourceFile : list string -> string -> option sourceFile;
  ts_moduleSymbol : sourceFile -> option symbol;
  ts_getExportsOfModule : symbol -> list symbol;
  ts_getName : symbol -> string;
  ts_getTypeOfSymbol : symbol -> ty;
  ts_getProperty : ty -> string -> option symbol;
  ts_declared : symbol -> bool;
  ts_typeArguments : ty -> list ty;
  ts_intersection : ty -> option (list ty);
  ts_union : ty -> option (list ty);
  ts_stringLiteral : ty -> option string
}.
Arguments ts_fileExists {ty symbol sourceFile} _.
Arguments ts_getSourceFile {ty symbol sourceFile} _.
Arguments ts_moduleSymbol {ty symbol sourceFile} _.
Arguments ts_getExportsOfModule {ty symbol sourceFile} _.
Arguments ts_getName {ty symbol sourceFile} _.
Arguments ts_getTypeOfSymbol {ty symbol sourceFile} _.
Arguments ts_getProperty {ty symbol sourceFile} _.
Arguments ts_declared {ty symbol sourceFile} _.
Arguments ts_typeArguments {ty symbol sourceFile} _.
Arguments ts_intersection {ty symbol sourceFile} _.
Arguments ts_union {ty symbol sourceFile} _.
Arguments ts_stringLiteral {ty symbol sourceFile} _.

Section static_analysis.
Context {ty symbol sourceFile : Type} (ts : TsApi ty symbol sourceFile).

(** The loop of [findNearestTsconfig]: a directory is the list of its segments, innermost
    first, and the root is the empty one. *)
Fixpoint findNearestTsconfig (dir : list string) : option (list string) :=
  if ts_fileExists ts ("tsconfig.json" :: dir) then Some ("tsconfig.json" :: dir)
  else match dir with [] => None | _ :: parent => findNearestTsconfig parent end.

Definition findExportedSymbol (file : sourceFile) (exportName : string) : option symbol :=
  match ts_moduleSymbol ts file with
  | None => None
  | Some m => List.find (fun sym => String.eqb (ts_getName ts sym) exportName) (ts_getExportsOfModule ts m)
  end.

(** [depth] bounds the nesting of intersections, which the compiler flattens. *)
Fixpoint extractSagaTypeArgument (depth : nat) (sagaType : ty) : option ty :=
  match ts_typeArguments ts sagaType with
  | arg :: _ => Some arg
  | [] =>
      match ts_intersection ts sagaType, depth with
      | Some members, S depth =>
          fold_left (fun found m => match found with Some _ => found | None => extractSagaTypeArgument depth m end) members None
      | _, _ => None
      end
  end.

(** The literals of one member of the union: its name, or the names of a union. *)
Definition member_names (member : ty) : option (list string) :=
  match ts_getProperty ts member "name" with
  | None => None
  | Some nameSymbol =>
      if negb (ts_declared ts nameSymbol) then None
      else
        let nameType := ts_getTypeOfSymbol ts nameSymbol in
        match ts_stringLiteral ts nameType, ts_union ts nameType with
        | Some n, _ => Some [n]
        | None, Some types => mapM (ts_stringLiteral ts) types
        | None, None => None
        end
  end.

Fixpoint collect_members (members : list ty) (names : list string) : option (list string) :=
  match members with
  | [] => Some (set_of names)
  | m :: members =>
      match member_names m with Some ns => collect_members members (names ++ ns) | None => None end
  end.

Definition collectNameLiterals (unionLike : ty) : option (list string) :=
  collect_members (match ts_union ts unionLike with Some types => types | None => [unionLike] end) [].

Definition extractSagaCommands (depth : nat) (sagaType : ty) : option (list string) :=
  match extractSagaTypeArgument depth sagaType with
  | None => None
  | Some sagaDef =>
      match ts_getProperty ts sagaDef "commands" with
      | None => None
      | Some commandsSymbol =>
          if ts_declared ts commandsSymbol then collectNameLiterals (ts_getTypeOfSymbol ts commandsSymbol) else None
      end
  end.

(** What one saga adds to the result. *)
Definition analyze_saga (depth : nat) (sagasType : ty) (result : SagaCommandAnalysis) (sagaKey : string) : SagaCommandAnalysis :=
  let unresolved why :=
    {| sa_commands := sa_commands result; sa_unresolved := sa_unresolved result ++ [sagaKey];
       sa_warnings := sa_warnings result ++ [why] |} in
  match ts_getProperty ts sagasType sagaKey with
  | None => unresolved ("Saga '" ++ sagaKey ++ "' not found on the 'sagas' export; static analysis skipped.")
  | Some sagaProperty =>
      match extractSagaCommands depth (ts_getTypeOfSymbol ts sagaProperty) with
      | None => unresolved ("Saga '" ++ sagaKey ++ "' declares an unconstrained command type; no Saga→Command edges produced.")
      | Some commandNames =>
          {| sa_commands := mset sagaKey commandNames (sa_commands result); sa_unresolved := sa_unresolved result;
             sa_warnings := sa_warnings result |}
      end
  end.

Definition omitted (why : string) (sagaKeys : list string) : SagaCommandAnalysis :=
  {| sa_commands := empty; sa_unresolved := sagaKeys; sa_warnings := [why] |}.

(** [dir] is the directory of the entry file, [tsconfigPath] the path given by the caller. *)
Definition analyzeSagaCommands (depth : nat) (dir : string -> list string) (entryFile : string) (sagaKeys : list string)
    (tsconfigPath : option (list string)) : SagaCommandAnalysis :=
  match sagaKeys with
  | [] => {| sa_commands := empty; sa_unresolved := []; sa_warnings := [] |}
  | _ =>
      match match tsconfigPath with Some p => Some p | None => findNearestTsconfig (dir entryFile) end with
      | None => omitted "No tsconfig.json found near the domain entry; saga command edges will be omitted." sagaKeys
      | Some tsconfig =>
          match ts_getSourceFile ts tsconfig entryFile with
          | None => omitted ("Could not load source file " ++ entryFile ++ " into the TypeScript program.") sagaKeys
          | Some file =>
              match findExportedSymbol file "sagas" with
              | None => omitted "Entry file does not export a 'sagas' object literal; saga command edges will be omitted." sagaKeys
              | Some sagasSymbol =>
                  fold_left (analyze_saga depth (ts_getTypeOfSymbol ts sagasSymbol)) sagaKeys
                    {| sa_commands := empty; sa_unresolved := []; sa_warnings := [] |}
              end
          end
      end
  end.
End static_analysis.

(** ** The texts *)

Definition MODEL_ORDER : list (GraphNodeModel * string) :=
  [(write, "Write Model"); (read, "Read Model"); (process, "Process Model"); (external, "External")].

Definition in_model (model : GraphNodeModel) (n : GraphNode) : bool := bool_decide (gn_model n = model).

Definition static_source (e : GraphEdge) : bool := match ge_source e with static => true | runtime => false end.

Definition newline : string := String (Ascii.ascii_of_nat 10) EmptyString.

(** *** emit-mermaid.ts *)

(** [canonicalId.replace(/:/g, "_")] *)
Fixpoint mermaidId (canonicalId : string) : string :=
  match canonicalId with
  | EmptyString => EmptyString
  | String c rest => String (if Ascii.eqb c ":" then "_"%char else c) (mermaidId rest)
  end.

Definition renderNode (n : GraphNode) : string :=
  let id := mermaidId (gn_id n) in
  match gn_kind n with
  | command_k | event_k | query_k => id ++ "([" ++ quoted (gn_label n) ++ "])"
  | aggregate_k | projection_k | saga_k => id ++ "[[" ++ quoted (gn_label n) ++ "]]"
  end.

Definition classFor (kind : GraphNodeKind) (model : GraphNodeModel) : string :=
  match model with external => "externalCmd" | _ => kind_text kind end.

Definition renderClassDefs : list string :=
  ["  classDef command fill:#dbeafe,stroke:#1e40af,color:#1e3a8a;";
   "  classDef event fill:#fef3c7,stroke:#a16207,color:#713f12;";
   "  classDef query fill:#dcfce7,stroke:#166534,color:#14532d;";
   "  classDef aggregate fill:#e0e7ff,stroke:#3730a3,color:#312e81,stroke-width:2px;";
   "  classDef projection fill:#ccfbf1,stroke:#115e59,color:#134e4a,stroke-width:2px;";
   "  classDef saga fill:#fce7f3,stroke:#9d174d,color:#831843,stroke-width:2px;";
   "  classDef externalCmd fill:#fee2e2,stroke:#b91c1c,color:#7f1d1d,stroke-dasharray:4 4;"].

Definition subgraphId (model : GraphNodeModel) : string := "model_" ++ model_text model.

Definition mermaid_subgraph (graph : DomainGraph) (entry : GraphNodeModel * string) : list string :=
  let '(model, title) := entry in
  match List.filter (in_model model) (dg_nodes graph) with
  | [] => []
  | nodes => (("  subgraph " ++ subgraphId model ++ "[" ++ quoted title ++ "]")%string
              :: map (fun n => "    " ++ renderNode n)%string nodes ++ ["  end"])%list
  end.

Definition mermaid_edge (e : GraphEdge) : string :=
  "  " ++ mermaidId (ge_from e) ++ " " ++ (if static_source e then "-.->" else "-->") ++ " " ++ mermaidId (ge_to e).

Definition mermaid_class (n : GraphNode) : string :=
  "  class " ++ mermaidId (gn_id n) ++ " " ++ classFor (gn_kind n) (gn_model n) ++ ";".

Definition mermaid_lines (graph : DomainGraph) : list string :=
  (["flowchart LR"] ++ renderClassDefs ++ flat_map (mermaid_subgraph graph) MODEL_ORDER
   ++ map mermaid_edge (dg_edges graph) ++ map mermaid_class (dg_nodes graph))%list.

Definition emitMermaid (graph : DomainGraph) : string := String.concat newline (mermaid_lines graph).

(** *** emit-dot.ts *)

Definition shapeFor (n : GraphNode) : string :=
  match gn_kind n with
  | command_k | event_k | query_k => "ellipse"
  | aggregate_k | projection_k | saga_k => "box3d"
  end.

(** [value.replace(/<quote>/g, <backslash><quote>)] *)
Fixpoint escapeLabel (value : string) : string :=
  match value with
  | EmptyString => EmptyString
  | String c rest =>
      if Ascii.eqb c (Ascii.ascii_of_nat 34) then String (Ascii.ascii_of_nat 92) (String c (escapeLabel rest))
      else String c (escapeLabel rest)
  end.

Definition dot_node (n : GraphNode) : string :=
  "    " ++ quoted (gn_id n) ++ " [label=" ++ quoted (escapeLabel (gn_label n)) ++ ", shape=" ++ shapeFor n ++ "];".

Definition dot_cluster (graph : DomainGraph) (entry : GraphNodeModel * string) : list string :=
  let '(model, title) := entry in
  match List.filter (in_model model) (dg_nodes graph) with
  | [] => []
  | nodes => (("  subgraph cluster_" ++ model_text model ++ " {")%string :: ("    label=" ++ quoted title ++ ";")%string
              :: map dot_node nodes ++ ["  }"])%list
  end.

Definition dot_edge (e : GraphEdge) : string :=
  "  " ++ quoted (ge_from e) ++ " -> " ++ quoted (ge_to e)
  ++ (if static_source e then " [style=" ++ quoted "dashed" ++ "]" else EmptyString) ++ ";".

Definition dot_lines (graph : DomainGraph) : list string :=
  (["digraph G {"; "  rankdir=LR;"; "  node [shape=box];"] ++ flat_map (dot_cluster graph) MODEL_ORDER
   ++ map dot_edge (dg_edges graph) ++ ["}"])%list.

Definition emitDot (graph : DomainGraph) : string := String.concat newline (dot_lines graph).

(** ** What the introspection finds *)

(** The model of an introspected node. *)
Definition model_of (k : GraphNodeKind) : GraphNodeModel :=
  match k with command_k | event_k | aggregate_k => write | query_k | projection_k => read | saga_k => process end.

Definition runtime_edge (k : GraphNodeKind) (x : string) (k' : GraphNodeKind) (x' : string) : GraphEdge :=
  {| ge_from := nodeId k x; ge_to := nodeId k' x'; ge_source := runtime |}.

Definition aggregate_edges {W} (entry : string * Aggregate W) : list GraphEdge :=
  (map (fun c => runtime_edge command_k c aggregate_k (fst entry)) (mkeys (ag_decide (snd entry))) ++
   map (fun e => runtime_edge aggregate_k (fst entry) event_k e) (mkeys (ag_evolve (snd entry))))%list.

Definition projection_edges {W Tx} (entry : string * ProjectionDefinition W Tx) : list GraphEdge :=
  (map (fun e => runtime_edge event_k e projection_k (fst entry)) (mkeys (pr_on (pd_projection (snd entry)))) ++
   map (fun q => runtime_edge query_k q projection_k (fst entry)) (mkeys (pd_queryHandlers (snd entry))))%list.

Definition saga_event_edges {W} (entry : string * Saga W) : list GraphEdge :=
  map (fun e => runtime_edge event_k e saga_k (fst entry)) (triggerEvents (snd entry)).

Definition runtime_edges {W Tx} (d : DomainDefinition W Tx) : list GraphEdge :=
  (flat_map aggregate_edges (df_aggregates d) ++ flat_map projection_edges (df_projections d) ++
   flat_map saga_event_edges (sagas_of d))%list.

Definition component_ids {W Tx} (d : DomainDefinition W Tx) : list string :=
  (map (nodeId aggregate_k) (mkeys (df_aggregates d)) ++ map (nodeId projection_k) (mkeys (df_projections d)) ++
   map (nodeId saga_k) (mkeys (sagas_of d)))%list.

Lemma nodeId_inj k x k' x' : nodeId k x = nodeId k' x' -> k = k' /\ x = x'.
Proof. destruct k, k'; cbn; intros H; injection H as H; by try discriminate H. Qed.

Definition touches (id : string) (e : GraphEdge) : Prop := id = ge_from e \/ id = ge_to e.

(** The nodes are the components and the ends of the edges, each under its own id. *)
Record described (st : Introspection) (components : list string) (edges : list GraphEdge) : Prop := {
  d_wf : wf (fst st);
  d_node : forall id n, mget id (fst st) = Some n -> gn_id n = id /\ exists k x, n = node k x (model_of k);
  d_edges : snd st = edges;
  d_ids : forall id, mhas id (fst st) = true <-> id ∈ components \/ exists e, e ∈ edges /\ touches id e
}.

Section described.
Local Open Scope list_scope.

Lemma mhas_mset_or {V} id k (v : V) m : mhas id (mset k v m) = String.eqb id k || mhas id m.
Proof. unfold mhas. rewrite mget_mset. by destruct (String.eqb id k). Qed.

Lemma ensureNode_spec (n : GraphNode) st :
  wf (fst st) ->
  wf (fst (ensureNode n st)) /\ snd (ensureNode n st) = snd st /\
  (forall id, mhas id (fst (ensureNode n st)) = String.eqb id (gn_id n) || mhas id (fst st)) /\
  (forall id n', mget id (fst (ensureNode n st)) = Some n' -> mget id (fst st) = Some n' \/ (id = gn_id n /\ n' = n)).
Proof.
  intros Hwf. unfold ensureNode. destruct (mget (gn_id n) (fst st)) as [x |] eqn:E; cbn [fst snd].
  - split; [done |]. split; [done |]. split; [| by left].
    intros id. destruct (String.eqb_spec id (gn_id n)) as [-> |]; [| done]. unfold mhas. by rewrite E.
  - split; [by apply wf_mset |]. split; [done |]. split; [intros id; apply mhas_mset_or |].
    intros id n'. rewrite mget_mset. destruct (String.eqb_spec id (gn_id n)) as [-> |]; [intros [= <-]; by right | by left].
Qed.

Lemma described_component k x st C E :
  described st C E -> described (ensureNode (node k x (model_of k)) st) (C ++ [nodeId k x]) E.
Proof.
  intros [Hwf Hn He Hi]. destruct (ensureNode_spec (node k x (model_of k)) st Hwf) as (H1 & H2 & H3 & H4).
  split; [done | | by rewrite H2 |].
  - intros id n Hg. destruct (H4 id n Hg) as [H | [-> ->]]; [by apply Hn | by split; [| exists k, x]].
  - intros id. rewrite H3, orb_true_iff, Hi, String.eqb_eq, elem_of_app, list_elem_of_singleton. cbn. tauto.
Qed.

Lemma described_edge k x st C E e :
  described st C E -> touches (nodeId k x) e -> (forall id, touches id e -> id = nodeId k x \/ id ∈ C) ->
  described (push_edge e (ensureNode (node k x (model_of k)) st)) C (E ++ [e]).
Proof.
  intros [Hwf Hn He Hi] Ht Hends. destruct (ensureNode_spec (node k x (model_of k)) st Hwf) as (H1 & H2 & H3 & H4).
  split; [done | | by cbn; rewrite H2, He |].
  - intros id n Hg. destruct (H4 id n Hg) as [H | [-> ->]]; [by apply Hn | by split; [| exists k, x]].
  - intros id. change (mhas id (fst (ensureNode (node k x (model_of k)) st)) = true <->
      id ∈ C \/ exists e', e' ∈ E ++ [e] /\ touches id e').
    rewrite H3, orb_true_iff, Hi, String.eqb_eq. split.
    + intros [-> | [H | (e' & H & Ht')]]; [right; exists e | by left | right; exists e'].
      * split; [apply elem_of_app; right; by apply list_elem_of_singleton | done].
      * split; [apply elem_of_app; by left | done].
    + intros [H | (e' & [H | ->%list_elem_of_singleton]%elem_of_app & Ht')]; [by right; left | by right; right; exists e' |].
      destruct (Hends id Ht'); [by left | by right; left].
Qed.

Lemma described_into id k names : forall st C E, described st C E -> id ∈ C ->
  described (fold_left (edge_into id k (model_of k)) names st) C
    (E ++ map (fun x => {| ge_from := nodeId k x; ge_to := id; ge_source := runtime |}) names).
Proof.
  induction names as [| x names IH]; intros st C E H Hid; [by rewrite app_nil_r |]. cbn [map fold_left].
  rewrite cons_middle, app_assoc. apply IH; [| done]. apply described_edge; [done | by left |].
  by intros i [-> | ->]; [left | right].
Qed.

Lemma described_out id k names : forall st C E, described st C E -> id ∈ C ->
  described (fold_left (edge_out_of id k (model_of k)) names st) C
    (E ++ map (fun x => {| ge_from := id; ge_to := nodeId k x; ge_source := runtime |}) names).
Proof.
  induction names as [| x names IH]; intros st C E H Hid; [by rewrite app_nil_r |]. cbn [map fold_left].
  rewrite cons_middle, app_assoc. apply IH; [| done]. apply described_edge; [done | by right |].
  by intros i [-> | ->]; [right | left].
Qed.

(** One kind of component after the other. *)
Lemma described_fold {A} (step : Introspection -> string * A -> Introspection) (k : GraphNodeKind) (edges : string * A -> list GraphEdge) :
  (forall st C E entry, described st C E -> described (step st entry) (C ++ [nodeId k (fst entry)]) (E ++ edges entry)) ->
  forall (l : jsmap A) st C E, described st C E ->
    described (fold_left step l st) (C ++ map (nodeId k) (mkeys l)) (E ++ flat_map edges l).
Proof.
  intros Hstep. induction l as [| entry l IH]; intros st C E H; [by rewrite !app_nil_r |]. cbn.
  rewrite (cons_middle (nodeId k (fst entry))), !app_assoc. by apply IH, Hstep.
Qed.

Lemma last_elem {A} (l : list A) x : x ∈ l ++ [x].
Proof. apply elem_of_app. right. by apply list_elem_of_singleton. Qed.

Lemma introspect_described {W Tx} (d : DomainDefinition W Tx) :
  exists st, introspectDomain d = (mvalues (fst st), snd st) /\ described st (component_ids d) (runtime_edges d).
Proof.
  eexists. split; [reflexivity |]. unfold component_ids, runtime_edges. rewrite !app_assoc.
  assert (H0 : described (empty, []) [] []).
  { split; [constructor | done | done |]. intros id. split; [done |]. by intros [H%not_elem_of_nil | (e & H%not_elem_of_nil & _)]. }
  apply (described_fold introspect_saga saga_k); [| apply (described_fold introspect_projection projection_k);
    [| eapply (described_fold introspect_aggregate aggregate_k aggregate_edges) in H0; [exact H0 |]]].
  - intros st C E [name saga] H. apply described_into; [by apply described_component | apply last_elem].
  - intros st C E [name p] H. unfold projection_edges. rewrite app_assoc.
    apply described_into, last_elem. apply described_into; [by apply described_component | apply last_elem].
  - intros st C E [name a] H. unfold aggregate_edges. rewrite app_assoc.
    apply described_out, last_elem. apply described_into; [by apply described_component | apply last_elem].
Qed.
End described.

(** ** The commands of the sagas *)

Definition saga_edge (sagaKey commandName : string) : GraphEdge :=
  {| ge_from := nodeId saga_k sagaKey; ge_to := nodeId command_k commandName; ge_source := static |}.

Definition static_edges (sagas : list string) (commands : jsmap (list string)) : list GraphEdge :=
  flat_map (fun entry => if existsb (String.eqb (fst entry)) sagas then map (saga_edge (fst entry)) (snd entry) else []) commands.

(** Some aggregate handles the command. *)
Definition decided {W Tx} (d : DomainDefinition W Tx) (c : string) : Prop :=
  exists entry, entry ∈ df_aggregates d /\ c ∈ mkeys (ag_decide (snd entry)).

Section built.
Local Open Scope list_scope.

Lemma runtime_edge_ends {W Tx} (d : DomainDefinition W Tx) e : e ∈ runtime_edges d ->
  exists k x k' x', e = runtime_edge k x k' x' /\ k <> k' /\ k <> saga_k /\
    match k, k' with
    | command_k, aggregate_k => exists a, (x', a) ∈ df_aggregates d /\ x ∈ mkeys (ag_decide a)
    | aggregate_k, event_k => exists a, (x, a) ∈ df_aggregates d /\ x' ∈ mkeys (ag_evolve a)
    | event_k, projection_k => exists p, (x', p) ∈ df_projections d /\ x ∈ mkeys (pr_on (pd_projection p))
    | query_k, projection_k => exists p, (x', p) ∈ df_projections d /\ x ∈ mkeys (pd_queryHandlers p)
    | event_k, saga_k => exists s, (x', s) ∈ sagas_of d /\ x ∈ triggerEvents s
    | _, _ => False
    end.
Proof.
  unfold runtime_edges. rewrite !elem_of_app, !list_elem_of_In, !in_flat_map.
  intros [([n a] & Hin & [H | H]%in_app_or) | [([n p] & Hin & [H | H]%in_app_or) | ([n s] & Hin & H)]];
    apply in_map_iff in H as (x & <- & Hx); apply list_elem_of_In in Hin, Hx.
  all: eexists _, _, _, _; split; [reflexivity |]; split; [discriminate |]; split; [discriminate |]; eauto.
Qed.

Lemma described_commands {W Tx} (d : DomainDefinition W Tx) st :
  described st (component_ids d) (runtime_edges d) ->
  forall c, mhas (nodeId command_k c) (fst st) = true <-> decided d c.
Proof.
  intros H c. rewrite (d_ids _ _ _ H). split.
  - intros [Hc | (e & He & Ht)].
    + unfold component_ids in Hc. rewrite !elem_of_app, !list_elem_of_In, !in_map_iff in Hc.
      by destruct Hc as [(x & [? _]%nodeId_inj & _) | [(x & [? _]%nodeId_inj & _) | (x & [? _]%nodeId_inj & _)]].
    + destruct (runtime_edge_ends d e He) as (k & x & k' & x' & -> & _ & _ & Hk).
      destruct Ht as [[<- ->]%nodeId_inj | [<- ->]%nodeId_inj]; [| by destruct k].
      destruct k'; try done. destruct Hk as (a & Ha & Hc). by exists (x', a).
  - intros ([n a] & Ha & Hc). right. exists (runtime_edge command_k c aggregate_k n). split; [| by left].
    unfold runtime_edges. apply elem_of_app. left. apply list_elem_of_In, in_flat_map. exists (n, a).
    split; [by apply list_elem_of_In |]. apply in_app_iff. left. apply in_map_iff. exists c. by rewrite <- list_elem_of_In.
Qed.

Lemma described_sagas {W Tx} (d : DomainDefinition W Tx) st :
  described st (component_ids d) (runtime_edges d) ->
  forall s, mhas (nodeId saga_k s) (fst st) = existsb (String.eqb s) (mkeys (sagas_of d)).
Proof.
  intros H s. apply eq_bool_prop_intro. rewrite !Is_true_true, (d_ids _ _ _ H), existsb_exists. split.
  - intros [Hc | (e & He & Ht)].
    + unfold component_ids in Hc. rewrite !elem_of_app, !list_elem_of_In, !in_map_iff in Hc.
      destruct Hc as [(x & [? _]%nodeId_inj & _) | [(x & [? _]%nodeId_inj & _) | (x & [_ ->]%nodeId_inj & Hx)]]; [done | done |].
      exists s. by rewrite String.eqb_refl.
    + destruct (runtime_edge_ends d e He) as (k & x & k' & x' & -> & _ & Hns & Hk).
      destruct Ht as [[<- _]%nodeId_inj | [<- ->]%nodeId_inj]; [done |].
      destruct k; try done. destruct Hk as (sg & Hs & _). exists x'. rewrite String.eqb_refl. split; [| done].
      apply in_map_iff. exists (x', sg). by rewrite <- list_elem_of_In.
  - intros (x & Hx & <-%String.eqb_eq). left. unfold component_ids. rewrite !elem_of_app. right. right.
    apply list_elem_of_In, in_map, Hx.
Qed.

(** The graph after the commands of some sagas, over the introspected nodes [m0]. *)
Record built (m0 : jsmap GraphNode) (e0 edges : list GraphEdge) (b : Building) : Prop := {
  bt_wf : wf (bd_nodes b);
  bt_node : forall id n, mget id (bd_nodes b) = Some n ->
    gn_id n = id /\ (mget id m0 = Some n \/
      (mget id m0 = None /\ exists c, n = node command_k c external /\ exists s, external_warning s c ∈ bd_warnings b));
  bt_edges : bd_edges b = e0 ++ edges;
  bt_ids : forall id, mhas id (bd_nodes b) = true <-> mhas id m0 = true \/ exists e, e ∈ edges /\ id = ge_to e
}.

Lemma saga_command_built m0 e0 edges b s c :
  built m0 e0 edges b -> built m0 e0 (edges ++ [saga_edge s c]) (saga_command s b c).
Proof.
  intros [Hwf Hn He Hi]. unfold saga_command. destruct (mhas (nodeId command_k c) (bd_nodes b)) eqn:Ec; split; cbn; try done.
  - by rewrite He, <- app_assoc.
  - intros id. rewrite Hi. setoid_rewrite elem_of_app. setoid_rewrite list_elem_of_singleton. split.
    + intros [H | (e & H & ->)]; [by left | by right; exists e; split; [left |]].
    + intros [H | (e & [H | ->] & ->)]; [by left | by right; exists e |]. by apply Hi.
  - by apply wf_mset.
  - intros id n. rewrite mget_mset. destruct (String.eqb_spec id (nodeId command_k c)) as [-> |].
    + intros [= <-]. split; [done |]. right. split; [| exists c; split; [done |]; exists s; apply last_elem].
      destruct (mget (nodeId command_k c) m0) as [x |] eqn:E; [| done]. exfalso.
      assert (mhas (nodeId command_k c) (bd_nodes b) = true) by (apply Hi; left; unfold mhas; by rewrite E). congruence.
    + intros H. destruct (Hn id n H) as [H1 [H2 | (H2 & c' & -> & s' & Hw)]]; split; try done; [by left |].
      right. split; [done |]. exists c'. split; [done |]. exists s'. apply elem_of_app. by left.
  - by rewrite He, <- app_assoc.
  - intros id. rewrite mhas_mset_or, orb_true_iff, String.eqb_eq, Hi. setoid_rewrite elem_of_app. setoid_rewrite list_elem_of_singleton. split.
    + intros [-> | [H | (e & H & ->)]]; [by right; exists (saga_edge s c); split; [right |] | by left | by right; exists e; split; [left |]].
    + intros [H | (e & [H | ->] & ->)]; [by right; left | by right; right; exists e | by left].
Qed.

Lemma saga_commands_built sagas m0 e0 :
  (forall s, mhas (nodeId saga_k s) m0 = existsb (String.eqb s) sagas) ->
  forall commands edges b, built m0 e0 edges b ->
  built m0 e0 (edges ++ static_edges sagas commands) (fold_left saga_commands commands b).
Proof.
  intros Hs. induction commands as [| [s names] commands IH]; intros edges b H; [by rewrite app_nil_r |].
  cbn [fold_left static_edges flat_map fst snd]. rewrite app_assoc. apply IH. cbn [saga_commands].
  assert (mhas (nodeId saga_k s) (bd_nodes b) = existsb (String.eqb s) sagas) as ->.
  { rewrite <- Hs. destruct (mhas (nodeId saga_k s) m0) eqn:E; [apply (bt_ids _ _ _ _ H); by left |].
    destruct (mhas (nodeId saga_k s) (bd_nodes b)) eqn:Eb; [| done]. unfold mhas in Eb, E.
    destruct (mget (nodeId saga_k s) (bd_nodes b)) as [n |] eqn:En; [| done].
    destruct (bt_node _ _ _ _ H _ _ En) as [Hid [Hm | (_ & c & -> & _)]]; [by rewrite Hm in E | by apply nodeId_inj in Hid as [? _]]. }
  destruct (existsb (String.eqb s) sagas); [| by rewrite app_nil_r].
  clear IH. revert edges b H. induction names as [| c names IH]; intros edges b H; [by rewrite app_nil_r |].
  cbn [map fold_left]. rewrite cons_middle, app_assoc. by apply IH, saga_command_built.
Qed.

Lemma index_nodes (m : jsmap GraphNode) : (forall id n, mget id m = Some n -> gn_id n = id) -> wf m ->
  map (fun n => (gn_id n, n)) (mvalues m) = m.
Proof.
  intros H Hwf. unfold mvalues. rewrite map_map. rewrite <- (map_id m) at 2. apply map_ext_in. intros [id n] Hin.
  cbn. f_equal. apply H, elem_mget; [done | by apply list_elem_of_In].
Qed.
End built.

(** ** The filters *)

Section filters.
Local Open Scope list_scope.

Definition ids (nodes : list GraphNode) : list string := map gn_id nodes.

Definition closed (nodes : list GraphNode) (edges : list GraphEdge) : Prop :=
  forall e id, e ∈ edges -> touches id e -> id ∈ ids nodes.

Lemma has_id_spec id nodes : has_id id nodes = true <-> id ∈ ids nodes.
Proof.
  unfold has_id, ids. rewrite existsb_exists, list_elem_of_In, in_map_iff. split.
  - intros (n & Hn & ->%String.eqb_eq). by exists n.
  - intros (n & <- & Hn). exists n. by rewrite String.eqb_refl.
Qed.

Lemma between_spec nodes edges e : e ∈ between nodes edges <-> e ∈ edges /\ ge_from e ∈ ids nodes /\ ge_to e ∈ ids nodes.
Proof. unfold between. by rewrite list_elem_of_In, filter_In, andb_true_iff, !has_id_spec, <- list_elem_of_In. Qed.

Lemma ids_filter_sublist f nodes : ids (List.filter f nodes) `sublist_of` ids nodes.
Proof.
  induction nodes as [| n nodes IH]; [constructor |]. cbn. by destruct (f n); constructor.
Qed.

Lemma degrees_spec id edges : (0 <? or_default (mget id (degrees edges)) 0)%nat = true <-> exists e, e ∈ edges /\ touches id e.
Proof.
  assert (Hbump : forall i d, (0 < or_default (mget id (bump i d)) 0)%nat <-> id = i \/ (0 < or_default (mget id d) 0)%nat).
  { intros i d. unfold bump. rewrite mget_mset. destruct (String.eqb_spec id i) as [-> |]; cbn; [split; [by left | lia] | naive_solver]. }
  assert (H : forall d, (0 < or_default (mget id (fold_left (fun d e => bump (ge_to e) (bump (ge_from e) d)) edges d)) 0)%nat <->
    (0 < or_default (mget id d) 0)%nat \/ exists e, e ∈ edges /\ touches id e).
  { induction edges as [| e edges IH]; intros d; cbn [fold_left].
    - split; [by left | intros [H | (e & H & _)]; [done | by apply not_elem_of_nil in H]].
    - rewrite IH, !Hbump. setoid_rewrite elem_of_cons. split.
      + intros [[-> | [-> | H]] | (x & Hx & Ht)]; [right; exists e; split; [by left | by right]
          | right; exists e; split; [by left | by left] | by left | right; exists x; by split; [right |]].
      + intros [H | (x & [-> | Hx] & [-> | ->])]; [by left; right; right | by left; right; left | by left; left
          | right; exists x; split; [done | by left] | right; exists x; split; [done | by right]]. }
  rewrite Nat.ltb_lt. unfold degrees. rewrite H. cbn. split; [intros [?|]; [lia | done] | by right].
Qed.

Lemma node_of_id id nodes : id ∈ ids nodes -> exists n, n ∈ nodes /\ gn_id n = id.
Proof. unfold ids. rewrite list_elem_of_In, in_map_iff. intros (n & <- & Hn). exists n. by rewrite list_elem_of_In. Qed.

Lemma scope_filter_spec scope nodes edges :
  let kept := fst (scope_filter scope (nodes, edges)) in
  kept `sublist_of` nodes /\
  (forall n, n ∈ kept <-> n ∈ nodes /\ (scope <> all_scope -> in_scope scope n = true)) /\
  (closed nodes edges -> forall e, e ∈ snd (scope_filter scope (nodes, edges)) <->
    e ∈ edges /\ ge_from e ∈ ids kept /\ ge_to e ∈ ids kept).
Proof.
  unfold scope_filter. case_bool_decide as Hs; cbn [fst snd].
  - split; [done |]. split; [naive_solver |]. intros Hc e. split; [| by intros []].
    intros He. split; [done |]. split; eapply Hc; [exact He | by left | exact He | by right].
  - split; [| split]; [| | intros _; apply between_spec].
    + clear. induction nodes as [| n nodes IH]; [constructor |]. cbn. by destruct (in_scope scope n); constructor.
    + intros n. rewrite !list_elem_of_In, filter_In. naive_solver.
Qed.

Lemma isolated_filter_spec hide nodes edges : closed nodes edges ->
  let kept := fst (isolated_filter hide (nodes, edges)) in
  kept `sublist_of` nodes /\
  (forall n, n ∈ kept <-> n ∈ nodes /\ (hide = true -> exists e, e ∈ edges /\ touches (gn_id n) e)) /\
  closed kept edges /\
  (forall e, e ∈ snd (isolated_filter hide (nodes, edges)) <-> e ∈ edges).
Proof.
  intros Hc. unfold isolated_filter. destruct hide; cbn [fst snd]; [| naive_solver].
  assert (Hkept : forall n, n ∈ List.filter (fun n => (0 <? or_default (mget (gn_id n) (degrees edges)) 0)%nat) nodes <->
    n ∈ nodes /\ exists e, e ∈ edges /\ touches (gn_id n) e).
  { intros n. by rewrite !list_elem_of_In, filter_In, degrees_spec. }
  assert (Hcl : closed (List.filter (fun n => (0 <? or_default (mget (gn_id n) (degrees edges)) 0)%nat) nodes) edges).
  { intros e id He Ht. destruct (node_of_id id nodes (Hc e id He Ht)) as (n & Hn & <-).
    unfold ids. rewrite list_elem_of_In. apply in_map. apply list_elem_of_In, Hkept. split; [done | by exists e]. }
  split; [| split; [| split; [exact Hcl |]]].
  - clear. generalize (fun n : GraphNode => (0 <? or_default (mget (gn_id n) (degrees edges)) 0)%nat). intros f.
    induction nodes as [| n nodes IH]; [constructor |]. cbn. by destruct (f n); constructor.
  - intros n. rewrite Hkept. naive_solver.
  - intros e. rewrite between_spec. split; [by intros [] |]. intros He. split; [done |].
    split; eapply Hcl; [exact He | by left | exact He | by right].
Qed.

Lemma ids_sublist nodes nodes' : nodes `sublist_of` nodes' -> ids nodes `sublist_of` ids nodes'.
Proof. intros H. induction H; cbn; by constructor. Qed.

(** Which nodes and edges the filters keep: the nodes in scope, those that then have an
    edge, and the edges between nodes in scope. *)
Lemma filters_spec scope hide nodes edges : closed nodes edges -> NoDup (ids nodes) ->
  let r := isolated_filter hide (scope_filter scope (nodes, edges)) in
  let kept n := n ∈ nodes /\ (scope <> all_scope -> in_scope scope n = true) in
  NoDup (ids (fst r)) /\
  (forall n, n ∈ fst r <-> kept n /\ (hide = true -> exists e, e ∈ snd r /\ touches (gn_id n) e)) /\
  (forall e, e ∈ snd r <-> e ∈ edges /\ (exists n, kept n /\ gn_id n = ge_from e) /\ (exists n, kept n /\ gn_id n = ge_to e)) /\
  closed (fst r) (snd r) /\
  (scope = all_scope -> hide <> true -> r = (nodes, edges)).
Proof.
  intros Hc Hnd. destruct (scope_filter_spec scope nodes edges) as (Hs1 & Hs2 & Hs3). specialize (Hs3 Hc).
  destruct (scope_filter scope (nodes, edges)) as [ns es] eqn:Es. cbn [fst snd] in Hs1, Hs2, Hs3.
  assert (Hc' : closed ns es) by (intros e id He%Hs3 [-> | ->]; by destruct He as (_ & ? & ?)).
  destruct (isolated_filter_spec hide ns es Hc') as (Hi1 & Hi2 & Hi3 & Hi4).
  assert (Hid : forall id, id ∈ ids ns <-> exists n, (n ∈ nodes /\ (scope <> all_scope -> in_scope scope n = true)) /\ gn_id n = id).
  { intros id. unfold ids. rewrite list_elem_of_In, in_map_iff. setoid_rewrite <- list_elem_of_In. setoid_rewrite Hs2. naive_solver. }
  split; [| split; [| split; [| split]]].
  - eapply sublist_NoDup; [exact Hnd |]. apply ids_sublist. by etransitivity.
  - intros n. rewrite Hi2, Hs2. by setoid_rewrite Hi4.
  - intros e. by rewrite Hi4, Hs3, !Hid.
  - intros e id He%Hi4 Ht. by eapply Hi3.
  - intros -> Hh. destruct hide; [done |]. unfold scope_filter in Es. rewrite bool_decide_true in Es by done. by rewrite Es.
Qed.

Lemma mhas_keys {V} id (m : jsmap V) : id ∈ mkeys m <-> mhas id m = true.
Proof.
  unfold mhas. destruct (mget id m) as [v |] eqn:E.
  - split; [done |]. intros _. apply mget_Some_elem in E. unfold mkeys. apply list_elem_of_In, in_map_iff.
    exists (id, v). by rewrite <- list_elem_of_In.
  - apply mget_None_keys in E. by split.
Qed.

Lemma index_ids (m : jsmap GraphNode) : (forall id n, mget id m = Some n -> gn_id n = id) -> wf m -> ids (mvalues m) = mkeys m.
Proof. intros Hm Hwf. rewrite <- (index_nodes m Hm Hwf) at 2. unfold mkeys, ids. by rewrite map_map. Qed.
End filters.

(** ** The graph *)

Section graph.
Local Open Scope list_scope.
Context {W Tx : Type} (analyzeSagaCommands : string -> list string -> option string -> SagaCommandAnalysis).
Context (d : DomainDefinition W Tx) (entryFile : string) (options : DiagramOptions) (injected : option (jsmap (list string))).

(** The commands of the sagas, from the caller or from the compiler. *)
Definition saga_commands_used : jsmap (list string) :=
  match injected with
  | Some commands => commands
  | None =>
      match mkeys (sagas_of d) with
      | [] => empty
      | sagaKeys => sa_commands (analyzeSagaCommands entryFile sagaKeys (do_tsconfigPath options))
      end
  end.

Definition all_edges : list GraphEdge := runtime_edges d ++ static_edges (mkeys (sagas_of d)) saga_commands_used.

Lemma full_graph_built : exists m0, described (m0, runtime_edges d) (component_ids d) (runtime_edges d) /\
  built m0 (runtime_edges d) (static_edges (mkeys (sagas_of d)) saga_commands_used)
    (full_graph analyzeSagaCommands d entryFile options injected).
Proof.
  destruct (introspect_described d) as ([m0 e0] & E & H). pose proof (d_edges _ _ _ H) as He. cbn in He. subst e0.
  exists m0. split; [done |]. unfold full_graph. rewrite E. cbn [fst snd].
  rewrite index_nodes by (apply H || intros; by eapply (d_node _ _ _ H)).
  assert (Hw : forall w, built m0 (runtime_edges d) [] {| bd_nodes := m0; bd_edges := runtime_edges d; bd_warnings := w |}).
  { intros w. split; cbn; [apply H | | by rewrite app_nil_r |].
    - intros id n Hg. split; [by eapply (d_node _ _ _ H) | by left].
    - intros id. split; [by left |]. by intros [? | (e & Hn%not_elem_of_nil & _)]. }
  assert (Hb : forall commands w, built m0 (runtime_edges d) (static_edges (mkeys (sagas_of d)) commands)
    (fold_left saga_commands commands {| bd_nodes := m0; bd_edges := runtime_edges d; bd_warnings := w |})).
  { intros commands w. apply (saga_commands_built _ m0 _ (described_sagas d (m0, runtime_edges d) H) commands []), Hw. }
  clear E H Hw. revert Hb. unfold saga_commands_used.
  destruct injected as [commands |]; [| destruct (mkeys (sagas_of d)) as [| s ss]]; intros Hb; apply Hb.
Qed.

Lemma full_graph_closed m0 b : described (m0, runtime_edges d) (component_ids d) (runtime_edges d) ->
  built m0 (runtime_edges d) (static_edges (mkeys (sagas_of d)) saga_commands_used) b ->
  closed (mvalues (bd_nodes b)) (bd_edges b) /\ bd_edges b = all_edges /\ NoDup (ids (mvalues (bd_nodes b))).
Proof.
  intros H Hb.
  rewrite index_ids by (apply Hb || intros; by eapply (bt_node _ _ _ _ Hb)).
  split; [| split; [apply Hb | apply Hb]].
  intros e id He Ht. rewrite index_ids by (apply Hb || intros; by eapply (bt_node _ _ _ _ Hb)).
  apply mhas_keys, (bt_ids _ _ _ _ Hb).
  { rewrite (bt_edges _ _ _ _ Hb) in He. apply elem_of_app in He as [He | He].
    - left. apply (d_ids _ _ _ H). right. by exists e.
    - destruct Ht as [-> | ->]; [| right; by exists e]. left.
      apply list_elem_of_In, in_flat_map in He as ([s names] & _ & He). cbn [fst snd] in He.
      destruct (existsb (String.eqb s) (mkeys (sagas_of d))) eqn:Es; [| done].
      apply in_map_iff in He as (c & <- & _). cbn. by rewrite <- (described_sagas d (m0, runtime_edges d) H) in Es. }
Qed.

Lemma full_graph_ids m0 b : described (m0, runtime_edges d) (component_ids d) (runtime_edges d) ->
  built m0 (runtime_edges d) (static_edges (mkeys (sagas_of d)) saga_commands_used) b ->
  forall id, id ∈ ids (mvalues (bd_nodes b)) <-> id ∈ component_ids d \/ exists e, e ∈ all_edges /\ touches id e.
Proof.
  intros H Hb id. split.
  - intros Hin. rewrite index_ids in Hin by (apply Hb || intros; by eapply (bt_node _ _ _ _ Hb)).
    apply mhas_keys, (bt_ids _ _ _ _ Hb) in Hin as [Hin | (e & He & ->)].
    + apply (d_ids _ _ _ H) in Hin as [Hin | (e & He & Ht)]; [by left |]. right. exists e.
      split; [by apply elem_of_app; left | done].
    + right. exists e. split; [by apply elem_of_app; right | by right].
  - destruct (full_graph_closed m0 b H Hb) as (Hc & He & _). rewrite He in Hc.
    intros [Hin | (e & Hin & Ht)]; [| by eapply Hc].
    rewrite index_ids by (apply Hb || intros; by eapply (bt_node _ _ _ _ Hb)).
    apply mhas_keys, (bt_ids _ _ _ _ Hb). left. apply (d_ids _ _ _ H). by left.
Qed.

Lemma all_edges_loopless e : e ∈ all_edges -> ge_from e <> ge_to e.
Proof.
  intros [He | He]%elem_of_app.
  - destruct (runtime_edge_ends d e He) as (k & x & k' & x' & -> & Hk & _). by intros [? _]%nodeId_inj.
  - apply list_elem_of_In, in_flat_map in He as ([s names] & _ & He). destruct (existsb _ _); [| done].
    apply in_map_iff in He as (c & <- & _). by intros [? _]%nodeId_inj.
Qed.

(** The kind, the label and the model of a node of the full graph. *)
Lemma full_graph_node m0 b id n : described (m0, runtime_edges d) (component_ids d) (runtime_edges d) ->
  built m0 (runtime_edges d) (static_edges (mkeys (sagas_of d)) saga_commands_used) b ->
  mget id (bd_nodes b) = Some n ->
  n = node (gn_kind n) (gn_label n) (gn_model n) /\
  (gn_model n = external <-> gn_kind n = command_k /\ ~ decided d (gn_label n)) /\
  (gn_model n <> external -> gn_model n = model_of (gn_kind n)) /\
  (gn_model n = external -> exists s, external_warning s (gn_label n) ∈ bd_warnings b).
Proof.
  intros H Hb Hn. destruct (bt_node _ _ _ _ Hb id n Hn) as [Hid [Hm | (Hm & c & -> & Hw)]].
  - destruct (d_node _ _ _ H id n Hm) as [_ (k & x & ->)]. cbn [gn_kind gn_label gn_model node gn_id] in *.
    assert (model_of k <> external) by by destruct k.
    split; [done |]. split; [| done]. split; [done |]. intros [-> Hd]. exfalso. apply Hd.
    apply (described_commands d (m0, runtime_edges d) H). unfold mhas. cbn. by rewrite Hid, Hm.
  - split; [done |]. split; [| done]. split; [| done]. intros _. split; [done |].
    rewrite <- (described_commands d (m0, runtime_edges d) H). cbn [gn_label node].
    cbn [gn_id node] in Hid. rewrite Hid. unfold mhas. cbn. by rewrite Hm.
Qed.

(** The graph is the full graph, filtered. *)
Lemma graph_filtered :
  let g := buildDomainGraph analyzeSagaCommands d entryFile options injected in
  let full := full_graph analyzeSagaCommands d entryFile options injected in
  (dg_nodes g, dg_edges g) = isolated_filter (or_default (do_hideIsolated options) false)
    (scope_filter (or_default (do_scope options) all_scope) (mvalues (bd_nodes full), bd_edges full)) /\
  forall w, w ∈ bd_warnings full -> w ∈ dg_warnings g.
Proof.
  intros g full. subst g. unfold buildDomainGraph. fold full. destruct (isolated_filter _ _) as [ns es]. split; [done |].
  intros w Hw. cbn. apply elem_of_app. by left.
Qed.

Lemma value_of_node (b : Building) n : wf (bd_nodes b) -> n ∈ mvalues (bd_nodes b) -> exists id, mget id (bd_nodes b) = Some n.
Proof.
  intros Hwf Hn. unfold mvalues in Hn. apply list_elem_of_In, in_map_iff in Hn as ([id n'] & <- & Hn).
  exists id. apply elem_mget; [done | by apply list_elem_of_In].
Qed.

(** Ids are distinct and built from the kind and the label; edges join nodes. *)
Lemma graph_regular :
  let g := buildDomainGraph analyzeSagaCommands d entryFile options injected in
  NoDup (ids (dg_nodes g)) /\
  (forall n, n ∈ dg_nodes g -> gn_id n = nodeId (gn_kind n) (gn_label n)) /\
  closed (dg_nodes g) (dg_edges g).
Proof.
  intros g. destruct full_graph_built as (m0 & H & Hb). destruct (full_graph_closed m0 _ H Hb) as (Hc & _ & Hnd).
  destruct graph_filtered as [Eg _]. fold g in Eg.
  destruct (filters_spec (or_default (do_scope options) all_scope) (or_default (do_hideIsolated options) false) _ _ Hc Hnd)
    as (Hg1 & Hg2 & _ & Hg4 & _).
  rewrite <- Eg in Hg1, Hg2, Hg4. split; [done |]. split; [| exact Hg4].
  - intros n [[Hin _] _]%Hg2. destruct (value_of_node _ n (bt_wf _ _ _ _ Hb) Hin) as [id Hm].
    by rewrite (proj1 (full_graph_node m0 _ id n H Hb Hm)).
Qed.

(** The kinds that a scope shows. *)
Definition shown (scope : DiagramScope) (k : GraphNodeKind) : Prop :=
  match scope, k with
  | all_scope, _
  | write_scope, (command_k | aggregate_k | event_k)
  | read_scope, (event_k | projection_k | query_k)
  | process_scope, (event_k | saga_k | command_k) => True
  | _, _ => False
  end.

Definition shown_id (scope : DiagramScope) (id : string) : Prop := exists k x, id = nodeId k x /\ shown scope k.

(** The filter on models and kinds is one on kinds: the models of the kinds that a scope
    shows are among its models. *)
Lemma in_scope_shown scope (n : GraphNode) :
  gn_model n = model_of (gn_kind n) \/ gn_model n = external /\ gn_kind n = command_k ->
  (scope <> all_scope -> in_scope scope n = true) <-> shown scope (gn_kind n).
Proof.
  unfold in_scope. destruct (gn_kind n); intros [-> | [-> Hk]]; try discriminate Hk; destruct scope; cbn;
    repeat (case_bool_decide as Hb; try set_solver); naive_solver.
Qed.

(** The ids of a domain: its components and whatever their edges join. *)
Definition domain_id (id : string) : Prop := id ∈ component_ids d \/ exists e, e ∈ all_edges /\ touches id e.

Lemma kept_ids m0 scope id : described (m0, runtime_edges d) (component_ids d) (runtime_edges d) ->
  let full := full_graph analyzeSagaCommands d entryFile options injected in
  built m0 (runtime_edges d) (static_edges (mkeys (sagas_of d)) saga_commands_used) full ->
  (exists n, (n ∈ mvalues (bd_nodes full) /\ (scope <> all_scope -> in_scope scope n = true)) /\ gn_id n = id) <->
  domain_id id /\ shown_id scope id.
Proof.
  intros H full Hb. unfold domain_id. rewrite <- (full_graph_ids m0 full H Hb id).
  assert (Hn : forall n, n ∈ mvalues (bd_nodes full) -> gn_id n = nodeId (gn_kind n) (gn_label n) /\
    ((scope <> all_scope -> in_scope scope n = true) <-> shown scope (gn_kind n))).
  { intros n Hin. destruct (value_of_node _ n (bt_wf _ _ _ _ Hb) Hin) as [id' Hm].
    destruct (full_graph_node m0 full id' n H Hb Hm) as (En & H1 & H2 & _). split; [by rewrite En |].
    apply in_scope_shown. destruct (decide (gn_model n = external)) as [Hx | Hx]; [right | left; by apply H2].
    split; [done | by apply H1]. }
  split.
  - intros (n & [Hin Hs] & <-). split; [unfold ids; by apply list_elem_of_In, in_map, list_elem_of_In |].
    destruct (Hn n Hin) as [-> Hsh]. exists (gn_kind n), (gn_label n). split; [done | by apply Hsh].
  - intros [Hin (k & x & -> & Hs)]. destruct (node_of_id _ _ Hin) as (n & Hn' & E). exists n.
    split; [| done]. split; [done |]. destruct (Hn n Hn') as [E' Hsh]. apply Hsh.
    rewrite E' in E. by apply nodeId_inj in E as [-> _].
Qed.

(** C34. The graph of a domain.  Without filters its nodes are exactly the components of the
    domain and what their edges join, and its edges are, in order, those that the keys of the
    components give, which do not depend on the types, and those that the command types of
    the sagas give.  A scope keeps exactly the nodes of the kinds it shows and exactly the
    edges between them; [hideIsolated] keeps of these nodes exactly the ones that an edge then
    joins, and all edges.  Node ids are distinct and say the kind and the label, every edge
    joins two nodes of the graph, and no edge is a loop.  A command node is external exactly
    when no aggregate handles the command, and then a warning names it; every other node is
    in the model of its kind. *)
Theorem diagram_graph_sound :
  let g := buildDomainGraph analyzeSagaCommands d entryFile options injected in
  let scope := or_default (do_scope options) all_scope in
  (forall id, id ∈ ids (dg_nodes g) <-> domain_id id /\ shown_id scope id /\
     (do_hideIsolated options = Some true -> exists e, e ∈ dg_edges g /\ touches id e)) /\
  (forall e, e ∈ dg_edges g <-> e ∈ all_edges /\ shown_id scope (ge_from e) /\ shown_id scope (ge_to e)) /\
  (scope = all_scope -> do_hideIsolated options <> Some true -> dg_edges g = all_edges) /\
  (forall e, e ∈ dg_edges g -> ge_from e <> ge_to e /\ ge_from e ∈ ids (dg_nodes g) /\ ge_to e ∈ ids (dg_nodes g)) /\
  NoDup (ids (dg_nodes g)) /\
  (forall n, n ∈ dg_nodes g ->
     gn_id n = nodeId (gn_kind n) (gn_label n) /\
     (gn_model n = external <-> gn_kind n = command_k /\ ~ decided d (gn_label n)) /\
     (gn_model n <> external -> gn_model n = model_of (gn_kind n)) /\
     (gn_model n = external -> exists s, external_warning s (gn_label n) ∈ dg_warnings g)).
Proof.
  intros g scope. destruct full_graph_built as (m0 & H & Hb).
  set (full := full_graph analyzeSagaCommands d entryFile options injected) in *.
  destruct (full_graph_closed m0 full H Hb) as (Hc & He & Hnd).
  pose proof (fun id => kept_ids m0 scope id H Hb) as Hk. fold full in Hk.
  destruct (filters_spec scope (or_default (do_hideIsolated options) false) _ _ Hc Hnd) as (Hg1 & Hg2 & Hg3 & Hg4 & Hg5).
  destruct graph_filtered as [Eg Hw]. fold g full scope in Eg, Hw.
  rewrite <- Eg in Hg1, Hg2, Hg3, Hg4, Hg5. cbn [fst snd] in Hg1, Hg2, Hg3, Hg4, Hg5. clear Eg. clearbody g.
  rewrite He in Hg3, Hg5. setoid_rewrite Hk in Hg3.
  assert (Hhide : or_default (do_hideIsolated options) false = true <-> do_hideIsolated options = Some true)
    by by destruct (do_hideIsolated options) as [[] |].
  split; [| split; [| split; [| split; [| split; [done |]]]]].
  - intros id. split.
    + intros (n & [Hn Hh]%Hg2 & <-)%node_of_id. destruct (proj1 (Hk (gn_id n))) as [Hd Hs]; [by exists n |].
      split; [done |]. split; [done |]. intros Ht. by apply Hh, Hhide.
    + intros (Hd & Hs & Hh). destruct (proj2 (Hk id) (conj Hd Hs)) as (n & Hn & <-). unfold ids.
      apply list_elem_of_In, in_map, list_elem_of_In, Hg2. split; [done |]. intros Ht. by apply Hh, Hhide.
  - intros e. rewrite Hg3. split; [naive_solver |]. intros (Hin & Hf & Ht).
    split; [done |]. split; (split; [right; exists e; split; [done |] | done]); [by left | by right].
  - intros Hs Hh. by injection (Hg5 Hs (fun Ht => Hh (proj1 Hhide Ht))).
  - intros e Hin. split; [apply all_edges_loopless; by apply Hg3 in Hin as [? _] |].
    split; eapply Hg4; [exact Hin | by left | exact Hin | by right].
  - intros n [[Hin _] _]%Hg2. destruct (value_of_node _ n (bt_wf _ _ _ _ Hb) Hin) as [id Hm].
    destruct (full_graph_node m0 full id n H Hb Hm) as (En & H1 & H2 & H3).
    split; [by rewrite En |]. split; [done |]. split; [done |].
    intros Hx. destruct (H3 Hx) as [s Hs]. exists s. by apply Hw.
Qed.
End graph.

(** ** The texts declare every node once *)

Section emitted.
Local Open Scope list_scope.

(** The blocks of the two emitters, one after the other. *)
Definition declared_nodes (g : DomainGraph) : list GraphNode :=
  flat_map (fun entry => List.filter (in_model (fst entry)) (dg_nodes g)) MODEL_ORDER.

Lemma declared_once g : declared_nodes g ≡ₚ dg_nodes g.
Proof.
  unfold declared_nodes. cbn. rewrite app_nil_r. induction (dg_nodes g) as [| n nodes IH]; [done |]. cbn.
  assert (H : forall m, in_model m n = bool_decide (gn_model n = m)) by done. rewrite !H.
  destruct (gn_model n); repeat (case_bool_decide; try done); cbn [app];
    rewrite ?app_assoc, <- ?Permutation_middle, <- ?app_assoc; by apply Permutation_cons.
Qed.

Fixpoint colon_free (s : string) : bool :=
  match s with EmptyString => true | String c rest => negb (Ascii.eqb c ":") && colon_free rest end.

Lemma mermaidId_app s t : mermaidId (s ++ t)%string = (mermaidId s ++ mermaidId t)%string.
Proof.
  induction s as [| c s IH]; [done |].
  exact (f_equal (String (if Ascii.eqb c ":" then "_"%char else c)) IH).
Qed.

Lemma mermaidId_colon_free s : colon_free s = true -> mermaidId s = s.
Proof.
  induction s as [| c s IH]; [done |]. cbn. intros [Hc Hs]%andb_true_iff. rewrite IH by done.
  by destruct (Ascii.eqb c ":").
Qed.

Lemma mermaidId_nodeId k x : mermaidId (nodeId k x) = (kind_text k ++ "_" ++ mermaidId x)%string.
Proof. unfold nodeId. rewrite !mermaidId_app. by destruct k. Qed.

(** Ids stay distinct when no label has a colon. *)
Lemma mermaidId_inj k x k' x' : colon_free x = true -> colon_free x' = true ->
  mermaidId (nodeId k x) = mermaidId (nodeId k' x') -> nodeId k x = nodeId k' x'.
Proof.
  intros Hx Hx'. rewrite !mermaidId_nodeId, !mermaidId_colon_free by done.
  destruct k, k'; cbn; intros H; injection H as H; try discriminate H; change (x = x') in H; by rewrite H.
Qed.

(** The part of a node's declaration before its shape. *)
Lemma renderNode_id n : exists shape, renderNode n = (mermaidId (gn_id n) ++ shape)%string.
Proof. unfold renderNode. destruct (gn_kind n); by eexists. Qed.
End emitted.
