(* ===== verification/DiagramCommand.v ===== *)
(** The diagram command as a whole (packages/cli/src/diagram/load-domain.ts, emit-json.ts and
    commands/diagram.ts): it loads the module of the user's domain, builds the graph, writes
    it in the format asked for and reports the warnings.  [require] of the module is an
    argument; the console is a state. *)
From S2P Require Import Prelude Text JsMap CoreTypes World Init Json JsonIndent Errors Broker Diagram.
Local Open Scope string_scope.

(** ** load-domain.ts *)

Record DomainModuleShape (W Tx : Type) : Type := {
  mod_aggregates : option (jsmap (Aggregate W));
  mod_projections : option (jsmap (ProjectionDefinition W Tx));
  mod_sagas : option (jsmap (Saga W));
  mod_definition : option (DomainDefinition W Tx)
}.
Arguments mod_aggregates {W Tx} _.
Arguments mod_projections {W Tx} _.
Arguments mod_sagas {W Tx} _.
Arguments mod_definition {W Tx} _.

Definition load_failed (entryFile reason : string) : js_error :=
  PlainError ("Diagram failed to load '" ++ entryFile ++
    "'. Ensure your domain module has no top-level infrastructure dependencies." ++ newline ++ "  cause: " ++ reason).

Definition no_exports (entryFile : string) : js_error :=
  PlainError ("Entry file '" ++ entryFile ++
    "' does not export a 'definition', or 'aggregates'/'projections' records. " ++
    "Expected either: `export const definition = defineDomain({...})` " ++
    "or `export const aggregates = {...}; export const projections = {...};`.").

Definition loadDomain {W Tx} (require : string -> result (DomainModuleShape W Tx)) (resolve : string -> string)
    (entryFile : string) : result (DomainDefinition W Tx * string) :=
  let absolute := resolve entryFile in
  match require absolute with
  | Err err => Err (load_failed entryFile (error_text err))
  | Ok m =>
      match mod_definition m with
      | Some definition => Ok (definition, absolute)
      | None =>
          match mod_aggregates m, mod_projections m with
          | None, None => Err (no_exports entryFile)
          | aggregates, projections =>
              Ok ({| df_aggregates := or_default aggregates empty;
                     df_standaloneCommandHandlers := None;
                     df_projections := or_default projections empty;
                     df_standaloneQueryHandlers := None;
                     df_sagas := mod_sagas m;
                     df_standaloneEventHandlers := None |}, absolute)
          end
      end
  end.

(** ** emit-json.ts *)

Definition source_text (s : GraphEdgeSource) : string := match s with runtime => "runtime" | static => "static" end.

Definition node_value (n : GraphNode) : value :=
  VObj [("id", VStr (gn_id n)); ("label", VStr (gn_label n)); ("kind", VStr (kind_text (gn_kind n)));
        ("model", VStr (model_text (gn_model n)))].

Definition edge_value (e : GraphEdge) : value :=
  VObj [("from", VStr (ge_from e)); ("to", VStr (ge_to e)); ("source", VStr (source_text (ge_source e)))].

Definition graph_value (g : DomainGraph) : value :=
  VObj [("nodes", VArr (map node_value (dg_nodes g))); ("edges", VArr (map edge_value (dg_edges g)));
        ("warnings", VArr (map VStr (dg_warnings g)))].

Definition emitJson (g : DomainGraph) : string := string_of (print_indented (chars_of "  ") [] (graph_value g)).

(** ** commands/diagram.ts *)

Record DiagramCliOptions : Type := {
  cli_out : option string;
  cli_format : option string;
  cli_scope : option string;
  cli_hideIsolated : bool;
  cli_tsconfig : option string
}.

(** What the process has written, and its exit code once it has exited. *)
Record Console : Type := {
  stdout : string;
  stderr : string;
  files : jsmap string;
  exit_code : option Z
}.

Definition write_stdout (text : string) : M Console unit :=
  modify (fun c => {| stdout := stdout c ++ text; stderr := stderr c; files := files c; exit_code := exit_code c |}).
Definition write_stderr (text : string) : M Console unit :=
  modify (fun c => {| stdout := stdout c; stderr := stderr c ++ text; files := files c; exit_code := exit_code c |}).
Definition process_exit (n : Z) : M Console unit :=
  modify (fun c => {| stdout := stdout c; stderr := stderr c; files := files c; exit_code := Some n |}).

Definition format_text (f : DiagramFormat) : string := match f with mermaid => "mermaid" | dot => "dot" | json => "json" end.
Definition scope_text (s : DiagramScope) : string :=
  match s with write_scope => "write" | read_scope => "read" | process_scope => "process" | all_scope => "all" end.

Definition VALID_FORMATS : list DiagramFormat := [mermaid; dot; json].
Definition VALID_SCOPES : list DiagramScope := [write_scope; read_scope; process_scope; all_scope].

(** The option's text, where the empty text counts as absent. *)
Definition given (value : option string) : option string :=
  match value with Some EmptyString => None | v => v end.

Definition parse_option {A} (flag : string) (text : A -> string) (valid : list A) (default : A) (value : option string) : result A :=
  match given value with
  | None => Ok default
  | Some v =>
      match List.find (fun a => String.eqb (text a) v) valid with
      | Some a => Ok a
      | None => Err (PlainError ("Invalid " ++ flag ++ ": '" ++ v ++ "'. Expected one of: " ++ String.concat ", " (map text valid) ++ "."))
      end
  end.

Definition parseFormat : option string -> result DiagramFormat := parse_option "--format" format_text VALID_FORMATS mermaid.
Definition parseScope : option string -> result DiagramScope := parse_option "--scope" scope_text VALID_SCOPES all_scope.

Definition resolveEntry (cwd : string) (provided : option string) : string :=
  or_default (given provided) (cwd ++ "/src/domain/domain.ts").

Definition render (graph : DomainGraph) (format : DiagramFormat) : string :=
  match format with mermaid => emitMermaid graph | dot => emitDot graph | json => emitJson graph end.

Definition ends_with_newline (s : string) : bool :=
  match List.rev (chars_of s) with c :: _ => Ascii.eqb c (Ascii.ascii_of_nat 10) | [] => false end.

Section action.
Context {W Tx : Type} (require : string -> result (DomainModuleShape W Tx)) (resolve : string -> string) (cwd : string)
  (analyze : string -> list string -> option string -> SagaCommandAnalysis)
  (writeFileSync : string -> string -> M Console unit).

(** The block that the action guards with [try]. *)
Definition draw (entry : string) (format : DiagramFormat) (scope : DiagramScope) (opts : DiagramCliOptions) : M Console unit :=
  loaded <- lift_result (loadDomain require resolve entry) ;;
  let '(definition, entryFile) := loaded in
  let graph := buildDomainGraph analyze definition entryFile
    {| do_format := Some format; do_scope := Some scope; do_hideIsolated := Some (cli_hideIsolated opts);
       do_tsconfigPath := cli_tsconfig opts |} None in
  let output := render graph format in
  (match given (cli_out opts) with
   | Some out => writeFileSync (resolve out) output ;;; write_stdout ("Diagram written to " ++ resolve out ++ newline)
   | None => write_stdout output ;;; (if ends_with_newline output then ret tt else write_stdout newline)
   end) ;;;
  (if (0 <? length (dg_warnings graph))%nat
   then write_stderr (newline ++ "Diagram warnings:" ++ newline) ;;;
        for_each (dg_warnings graph) (fun w => write_stderr ("  - " ++ w ++ newline))
   else ret tt).

Definition diagram_action (domainFile : option string) (opts : DiagramCliOptions) : M Console unit :=
  let entry := resolveEntry cwd domainFile in
  format <- lift_result (parseFormat (cli_format opts)) ;;
  scope <- lift_result (parseScope (cli_scope opts)) ;;
  try_catch (draw entry format scope opts) (fun err =>
    write_stderr (error_text err ++ newline) ;;; process_exit 1).
End action.

(** ** The JSON text *)

(** Reading a graph back. *)
Definition text_field (k : string) (v : value) : option string :=
  match read_prop k v with VStr s => Some s | _ => None end.
Definition list_field {A} (read : value -> option A) (k : string) (v : value) : option (list A) :=
  match read_prop k v with VArr items => mapM read items | _ => None end.

Definition kind_of_text (s : string) : option GraphNodeKind :=
  List.find (fun k => String.eqb (kind_text k) s) [command_k; event_k; query_k; aggregate_k; projection_k; saga_k].
Definition model_of_text (s : string) : option GraphNodeModel :=
  List.find (fun m => String.eqb (model_text m) s) [write; read; process; external].
Definition source_of_text (s : string) : option GraphEdgeSource :=
  List.find (fun x => String.eqb (source_text x) s) [runtime; static].

Definition node_of_value (v : value) : option GraphNode :=
  i ← text_field "id" v; l ← text_field "label" v; k ← (text_field "kind" v ≫= kind_of_text);
  m ← (text_field "model" v ≫= model_of_text);
  Some {| gn_id := i; gn_label := l; gn_kind := k; gn_model := m |}.
Definition edge_of_value (v : value) : option GraphEdge :=
  f ← text_field "from" v; t ← text_field "to" v; s ← (text_field "source" v ≫= source_of_text);
  Some {| ge_from := f; ge_to := t; ge_source := s |}.
Definition warning_of_value (v : value) : option string := match v with VStr s => Some s | _ => None end.
Definition graph_of_value (v : value) : option DomainGraph :=
  ns ← list_field node_of_value "nodes" v; es ← list_field edge_of_value "edges" v;
  ws ← list_field warning_of_value "warnings" v;
  Some {| dg_nodes := ns; dg_edges := es; dg_warnings := ws |}.

Lemma mapM_map_inverse {A B} (f : A -> B) (g : B -> option A) l : (forall x, g (f x) = Some x) -> mapM g (map f l) = Some l.
Proof. intros H. induction l as [| x l IH]; [done |]. cbn. rewrite H. cbn. by rewrite IH. Qed.

Lemma graph_of_graph_value g : graph_of_value (graph_value g) = Some g.
Proof.
  assert (list_field node_of_value "nodes" (graph_value g) = Some (dg_nodes g)) as H1
    by (apply (mapM_map_inverse node_value); by intros [? ? [] []]).
  assert (list_field edge_of_value "edges" (graph_value g) = Some (dg_edges g)) as H2
    by (apply (mapM_map_inverse edge_value); by intros [? ? []]).
  assert (list_field warning_of_value "warnings" (graph_value g) = Some (dg_warnings g)) as H3
    by by apply (mapM_map_inverse VStr).
  unfold graph_of_value. rewrite H1, H2, H3. by destruct g.
Qed.

Lemma is_json_record (fields : list (string * value)) : own_order fields -> Forall (fun kv => is_json (snd kv)) fields -> is_json (VObj fields).
Proof. intros Ho Hj. split; [done |]. by apply foldr_Forall_snd. Qed.

Ltac literal_order := repeat (constructor; [| repeat constructor; by vm_compute]); constructor.

Lemma graph_value_json g : is_json (graph_value g).
Proof.
  apply is_json_record; [literal_order |]. repeat constructor; cbn [snd]; apply is_json_items, Forall_map, Forall_true.
  - intros n. apply is_json_record; [literal_order | by repeat constructor].
  - intros e. apply is_json_record; [literal_order | by repeat constructor].
  - done.
Qed.

(** Every node is in the block of its model. *)
Lemma in_some_block (block : GraphNodeModel * string -> list string) (line : GraphNode -> string) g n :
  (forall model title x, x ∈ List.filter (in_model model) (dg_nodes g) -> line x ∈ block (model, title)) ->
  n ∈ dg_nodes g -> line n ∈ flat_map block MODEL_ORDER.
Proof.
  intros H Hn. rewrite list_elem_of_In, in_flat_map.
  assert (Hm : exists title, In (gn_model n, title) MODEL_ORDER) by (destruct (gn_model n); eexists; cbn; eauto).
  destruct Hm as [title Hm]. exists (gn_model n, title). split; [done |]. apply list_elem_of_In, H.
  rewrite list_elem_of_In, filter_In, <- list_elem_of_In. split; [done |]. unfold in_model. by rewrite bool_decide_true.
Qed.

Lemma node_lines g n : n ∈ dg_nodes g -> ("    " ++ renderNode n)%string ∈ mermaid_lines g /\ dot_node n ∈ dot_lines g.
Proof.
  intros Hn. unfold mermaid_lines, dot_lines. rewrite !elem_of_app. split.
  - right. right. left. apply (in_some_block _ (fun n => "    " ++ renderNode n)%string g n); [| done]. intros model title x Hx. cbn.
    destruct (List.filter (in_model model) (dg_nodes g)) as [| y l]; [by apply not_elem_of_nil in Hx |].
    apply elem_of_cons. right. apply (elem_of_app (map (fun n => "    " ++ renderNode n)%string (y :: l))). left.
    by apply list_elem_of_In, (in_map (fun n => "    " ++ renderNode n)%string), list_elem_of_In.
  - right. left. apply (in_some_block _ dot_node g n); [| done]. intros model title x Hx. cbn.
    destruct (List.filter (in_model model) (dg_nodes g)) as [| y l]; [by apply not_elem_of_nil in Hx |].
    do 2 (apply elem_of_cons; right). apply (elem_of_app (map dot_node (y :: l))). left.
    by apply list_elem_of_In, (in_map dot_node), list_elem_of_In.
Qed.

Lemma edge_lines g e : e ∈ dg_edges g -> mermaid_edge e ∈ mermaid_lines g /\ dot_edge e ∈ dot_lines g.
Proof.
  intros He. unfold mermaid_lines, dot_lines. rewrite !elem_of_app. split.
  - right. right. right. left. by apply list_elem_of_In, in_map, list_elem_of_In.
  - right. right. left. by apply list_elem_of_In, in_map, list_elem_of_In.
Qed.

(** The texts of a graph.  The JSON text reads back as the graph.  The blocks of the Mermaid
    and the DOT text declare every node once, and the text has a line for each of them and for
    each edge.  The graph of a domain in which no name has a colon keeps its ids apart in the
    Mermaid text, and the ends of every edge are ids that it declares. *)
Theorem diagram_texts {W Tx} analyze (d : DomainDefinition W Tx) entryFile options injected :
  let g := buildDomainGraph analyze d entryFile options injected in
  result_bind (parse (emitJson g)) (fun v => Ok (graph_of_value v)) = Ok (Some g) /\
  declared_nodes g ≡ₚ dg_nodes g /\
  (forall n, n ∈ dg_nodes g -> ("    " ++ renderNode n)%string ∈ mermaid_lines g /\ dot_node n ∈ dot_lines g) /\
  (forall e, e ∈ dg_edges g -> mermaid_edge e ∈ mermaid_lines g /\ dot_edge e ∈ dot_lines g) /\
  ((forall n, n ∈ dg_nodes g -> colon_free (gn_label n) = true) ->
   NoDup (map mermaidId (ids (dg_nodes g))) /\
   forall e id, e ∈ dg_edges g -> touches id e -> mermaidId id ∈ map mermaidId (ids (dg_nodes g))).
Proof.
  intros g. destruct (graph_regular analyze d entryFile options injected) as (Hnd & Hid & Hc). fold g in Hnd, Hid, Hc.
  clearbody g. split; [| split; [apply declared_once | split; [| split]]].
  - unfold emitJson. rewrite parse_print_indented by (apply graph_value_json || by repeat constructor).
    cbn [result_bind]. by rewrite graph_of_graph_value.
  - apply node_lines.
  - apply edge_lines.
  - intros Hcolon. split; [| intros e id He Ht; apply list_elem_of_In, in_map, list_elem_of_In; by eapply Hc].
    apply NoDup_fmap_2_strong; [| done]. intros x y Hx Hy.
    apply node_of_id in Hx as (n & Hn & <-), Hy as (n' & Hn' & <-). rewrite !Hid by done. apply mermaidId_inj; by apply Hcolon.
Qed.

(** ** A small domain

    One aggregate, and a saga whose command types name a command that it does not handle. *)

Definition shop : DomainDefinition unit unit := {|
  df_aggregates := [("Order", {| ag_initialState := VNull; ag_decide := [("PlaceOrder", fun _ _ => ret (ManyEvents []))];
                                 ag_evolve := [("OrderPlaced", fun s _ => Ok s)]; ag_upcasters := None |})];
  df_standaloneCommandHandlers := None;
  df_projections := [];
  df_standaloneQueryHandlers := None;
  df_sagas := Some [("Shipping", {| sg_initialState := VNull; sg_startedBy := ["OrderPlaced"]; sg_on := []; sg_atomicity := None |})];
  df_standaloneEventHandlers := None
|}.

Definition shop_graph (scope : DiagramScope) : DomainGraph :=
  buildDomainGraph (fun _ _ _ => omitted "unused" []) shop "domain.ts"
    {| do_format := None; do_scope := Some scope; do_hideIsolated := None; do_tsconfigPath := None |}
    (Some [("Shipping", ["BookTruck"; "PlaceOrder"])]).

Example shop_diagram :
  map (fun e => (ge_from e, ge_to e)) (dg_edges (shop_graph all_scope)) =
    [("command:PlaceOrder", "aggregate:Order"); ("aggregate:Order", "event:OrderPlaced"); ("event:OrderPlaced", "saga:Shipping");
     ("saga:Shipping", "command:BookTruck"); ("saga:Shipping", "command:PlaceOrder")].
Proof. by vm_compute. Qed.

(** In the scope of the write model the external command stays, without its edge. *)
Example external_in_write_scope :
  map (fun n => (gn_id n, gn_model n)) (dg_nodes (shop_graph write_scope)) =
    [("aggregate:Order", write); ("command:PlaceOrder", write); ("event:OrderPlaced", write); ("command:BookTruck", external)] /\
  map (fun e => (ge_from e, ge_to e)) (dg_edges (shop_graph write_scope)) =
    [("command:PlaceOrder", "aggregate:Order"); ("aggregate:Order", "event:OrderPlaced")].
Proof. by vm_compute. Qed.

(** Names with a colon can share a Mermaid id. *)
Example mermaid_ids_collide :
  nodeId command_k "a:b" <> nodeId command_k "a_b" /\ mermaidId (nodeId command_k "a:b") = mermaidId (nodeId command_k "a_b").
Proof. split; [discriminate | done]. Qed.

(** ** The command *)

Section run.
Context {W Tx : Type} (require : string -> result (DomainModuleShape W Tx)) (resolve : string -> string) (cwd : string)
  (analyze : string -> list string -> option string -> SagaCommandAnalysis)
  (writeFileSync : string -> string -> M Console unit).

Definition wrote (out err : string) (code : option Z) (c : Console) : Console :=
  {| stdout := stdout c ++ out; stderr := stderr c ++ err; files := files c;
     exit_code := match code with Some n => Some n | None => exit_code c end |}.

Definition warning_lines (ws : list string) : string :=
  fold_right (fun w rest => "  - " ++ w ++ newline ++ rest)%string EmptyString ws.

Lemma write_warnings ws : forall c,
  for_each ws (fun w => write_stderr ("  - " ++ w ++ newline)) c = (Ok tt, wrote EmptyString (warning_lines ws) None c).
Proof.
  induction ws as [| w ws IH]; intros c; cbn [for_each warning_lines fold_right].
  - unfold ret, wrote. rewrite !append_nil_r. by destruct c.
  - unfold bind at 1. cbn [write_stderr modify]. rewrite IH. unfold wrote. cbn. by rewrite !append_assoc.
Qed.

(** What the command prints about the warnings. *)
Definition warning_report (g : DomainGraph) : string :=
  match dg_warnings g with [] => EmptyString | ws => newline ++ "Diagram warnings:" ++ newline ++ warning_lines ws end.

(** The file system's own effects are those of [writeFileSync]. *)
Lemma diagram_action_run domainFile opts c :
  let entry := resolveEntry cwd domainFile in
  diagram_action require resolve cwd analyze writeFileSync domainFile opts c =
  match parseFormat (cli_format opts), parseScope (cli_scope opts) with
  | Err e, _ | Ok _, Err e => (Err e, c)
  | Ok format, Ok scope =>
      match loadDomain require resolve entry with
      | Err e => (Ok tt, wrote EmptyString (error_text e ++ newline) (Some 1%Z) c)
      | Ok (d, file) =>
          let g := buildDomainGraph analyze d file {| do_format := Some format; do_scope := Some scope;
            do_hideIsolated := Some (cli_hideIsolated opts); do_tsconfigPath := cli_tsconfig opts |} None in
          let output := render g format in
          match given (cli_out opts) with
          | None => (Ok tt, wrote (if ends_with_newline output then output else output ++ newline) (warning_report g) None c)
          | Some out =>
              match writeFileSync (resolve out) output c with
              | (Ok _, c') => (Ok tt, wrote ("Diagram written to " ++ resolve out ++ newline) (warning_report g) None c')
              | (Err e, c') => (Ok tt, wrote EmptyString (error_text e ++ newline) (Some 1%Z) c')
              end
          end
      end
  end.
Proof.
  intros entry. unfold diagram_action. fold entry.
  destruct (parseFormat (cli_format opts)) as [format | e]; [| done].
  destruct (parseScope (cli_scope opts)) as [scope | e]; [| done].
  assert (Hfail : forall e c', (write_stderr (error_text e ++ newline) ;;; process_exit 1) c' = (Ok tt, wrote EmptyString (error_text e ++ newline) (Some 1%Z) c')).
  { intros e c'. unfold wrote. cbn. by rewrite append_nil_r. }
  unfold bind at 1 2. cbn [lift_result]. unfold try_catch at 1, draw, bind at 1, lift_result.
  destruct (loadDomain require resolve entry) as [[d file] | e]; [| apply Hfail].
  set (g := buildDomainGraph _ _ _ _ _). set (output := render g format). clearbody g.
  assert (Hwarn : forall c', (if (0 <? length (dg_warnings g))%nat
    then write_stderr (newline ++ "Diagram warnings:" ++ newline) ;;; for_each (dg_warnings g) (fun w => write_stderr ("  - " ++ w ++ newline))
    else ret tt) c' = (Ok tt, wrote EmptyString (warning_report g) None c')).
  { intros c'. unfold warning_report. destruct (dg_warnings g) as [| w ws] eqn:E.
    - cbn. unfold ret, wrote. rewrite !append_nil_r. by destruct c'.
    - cbn [length Nat.ltb Nat.leb]. unfold bind at 1. cbn [write_stderr modify]. rewrite <- E, write_warnings.
      unfold wrote. cbn. by rewrite !append_nil_r, !append_assoc. }
  clearbody output. destruct (given (cli_out opts)) as [out |].
  - unfold bind at 1 2. destruct (writeFileSync (resolve out) output c) as [[[] | e] c']; [| apply Hfail].
    cbn [write_stdout modify]. rewrite Hwarn. unfold wrote. cbn. by rewrite append_nil_r.
  - unfold bind at 1 2. cbn [write_stdout modify]. destruct (ends_with_newline output); cbn [ret write_stdout modify]; rewrite Hwarn;
      unfold wrote; cbn; by rewrite ?append_nil_r, ?append_assoc.
Qed.
End run.
