(* ===== verification/Scaffold.v ===== *)
(** The generators of the command line tool (packages/cli/src/generators/domain.ts, project.ts,
    aggregate.ts, projection.ts, saga.ts, utils/fs.ts, utils/cli-version.ts and the package.json
    and tsconfig.json templates): the files each of them writes, and how it writes them.
    A path is the list of its segments, so names with a slash are not modelled. *)
From stdpp Require Import gmap.
From S2P Require Import Prelude Text JsMap Json JsonIndent Naming Templates.
Local Open Scope string_scope.

(** ** Files *)

(** A TypeScript module that a generator writes; [T] is [text] or [string]. *)
Record GeneratedFile (T : Type) : Type := {
  f_dir : list T;
  f_stem : T;
  f_ext : string;
  f_body : list (statement T)
}.
Arguments f_dir {T} _.
Arguments f_stem {T} _.
Arguments f_ext {T} _.
Arguments f_body {T} _.

Definition map_file {T U} (h : T -> U) (f : GeneratedFile T) : GeneratedFile U :=
  {| f_dir := map h (f_dir f); f_stem := h (f_stem f); f_ext := f_ext f; f_body := map (map_statement h) (f_body f) |}.

Definition ts (dir : list text) (stem : text) (body : list stmt) : GeneratedFile text :=
  {| f_dir := dir; f_stem := stem; f_ext := ".ts"; f_body := body |}.

Abbreviation path := (list string).

Definition file_path (f : GeneratedFile string) : path := (f_dir f ++ [(f_stem f ++ f_ext f)%string])%list.
Definition file_entry (f : GeneratedFile string) : path * string := (file_path f, render_module (f_body f)).

Definition lit (s : string) : text := [Lit s].
Definition kebab : text := [Hole KebabName].

(** *** generators/aggregate.ts, projection.ts and saga.ts *)

(** The modules below the aggregate's own file, the same for the two templates of it. *)
Definition aggregate_parts (dir : list text) (index definition_ : list stmt) : list (GeneratedFile text) :=
  [ts dir (lit "index") index;
   ts dir (lit "state") aggregateStateTemplate;
   ts dir kebab definition_;
   ts (dir ++ [lit "commands"]) (lit "index") commandsIndexTemplate;
   ts (dir ++ [lit "commands"]) [Lit "create-"; Hole KebabName] commandPayloadTemplate;
   ts (dir ++ [lit "deciders"]) (lit "index") decidersIndexTemplate;
   ts (dir ++ [lit "deciders"]) [Lit "decide-create-"; Hole KebabName] deciderTemplate;
   ts (dir ++ [lit "evolvers"]) (lit "index") evolversIndexTemplate;
   ts (dir ++ [lit "evolvers"]) [Lit "evolve-"; Hole KebabName; Lit "-created"] evolverTemplate].

Definition aggregate_files : list (GeneratedFile text) := aggregate_parts [] aggregateIndexTemplate aggregateTemplate.

Definition projection_parts (dir : list text) : list (GeneratedFile text) :=
  [ts dir (lit "index") domainProjectionIndexTemplate;
   ts dir kebab domainProjectionTemplate;
   ts (dir ++ [lit "queries"]) (lit "index") queriesIndexTemplate;
   ts (dir ++ [lit "queries"]) [Lit "get-"; Hole KebabName] queryPayloadTemplate;
   ts (dir ++ [lit "query-handlers"]) (lit "index") queryHandlersIndexTemplate;
   ts (dir ++ [lit "query-handlers"]) [Lit "handle-get-"; Hole KebabName] queryHandlerTemplate;
   ts (dir ++ [lit "on-entries"]) (lit "index") viewReducersIndexTemplate;
   ts (dir ++ [lit "on-entries"]) [Lit "on-"; Hole KebabName; Lit "-created"] viewReducerTemplate].

Definition projection_files : list (GeneratedFile text) := projection_parts [].

Definition saga_files : list (GeneratedFile text) :=
  [ts [] (lit "index") sagaIndexTemplate;
   ts [] (lit "state") sagaStateTemplate;
   ts [] (lit "saga") sagaTemplate;
   ts [lit "on-entries"] (lit "index") transitionHandlersIndexTemplate;
   ts [lit "on-entries"] (lit "on-start-event") transitionHandlerTemplate].

(** *** generators/domain.ts and project.ts *)

(** The files of a domain, below [root]: the event model, the write model, the read model, the
    empty process model, the definition, the infrastructure and the main program. *)
Definition domain_parts (root : list text) (main : list stmt) : list (GeneratedFile text) :=
  ([ts (root ++ [lit "domain"; lit "event-model"]) (lit "index") eventModelIndexTemplate;
    ts (root ++ [lit "domain"; lit "event-model"]) [Hole KebabName; Lit "-created"] eventPayloadTemplate;
    ts (root ++ [lit "domain"; lit "write-model"]) (lit "index") writeModelIndexTemplate]
   ++ aggregate_parts (root ++ [lit "domain"; lit "write-model"; lit "aggregates"; kebab])
        domainAggregateIndexTemplate domainAggregateTemplate
   ++ projection_parts (root ++ [lit "domain"; lit "read-model"; lit "projections"; kebab])
   ++ [{| f_dir := root ++ [lit "domain"; lit "process-model"]; f_stem := lit ".gitkeep"; f_ext := EmptyString; f_body := [] |};
       ts (root ++ [lit "domain"]) (lit "domain") domainDefinitionTemplate;
       ts (root ++ [lit "infrastructure"]) (lit "index") domainInfrastructureTemplate;
       ts root (lit "main") main])%list.

Definition domain_files : list (GeneratedFile text) := domain_parts [] (domainMainTemplate event_emitter_bus).

Definition project_modules (eventBus : EventBusAdapter) : list (GeneratedFile text) :=
  ([{| f_dir := []; f_stem := lit "vitest.config"; f_ext := ".mts"; f_body := vitestConfigTemplate |};
    {| f_dir := []; f_stem := lit ".gitignore"; f_ext := EmptyString; f_body := gitignoreTemplate |};
    {| f_dir := [lit "src"; lit "__tests__"]; f_stem := kebab; f_ext := ".test.ts"; f_body := sampleTestTemplate |}]
   ++ domain_parts [lit "src"] (domainMainTemplate eventBus))%list.

(** ** package.json and tsconfig.json *)

(** utils/cli-version.ts: a [package.json] is looked for in six directories, from the tool's
    own upwards.  [package_at dir] is the name and the version in the file of that directory. *)
Fixpoint findOwnPackageJson (package_at : path -> option (string * string)) (levels : nat) (dir : path) : result string :=
  match levels with
  | O => Err (PlainError "Could not locate @noddde/cli's own package.json")
  | S levels =>
      let up := match dir with
        | [] => Err (PlainError "Could not locate @noddde/cli's own package.json")
        | _ :: parent => findOwnPackageJson package_at levels parent
        end in
      match package_at dir with
      | Some (name, version) => if String.eqb name "@noddde/cli" then Ok version else up
      | None => up
      end
  end.

Definition getCliVersion (package_at : path -> option (string * string)) (dirname : path) : result string :=
  findOwnPackageJson package_at 6 dirname.

(** [version.split(".")[0]] *)
Fixpoint before_dot (s : string) : string :=
  match s with
  | EmptyString => EmptyString
  | String c rest => if Ascii.eqb c (Ascii.ascii_of_nat 46) then EmptyString else String c (before_dot rest)
  end.

(** [Number(major)], where [None] is NaN *)
Definition getCliMajorVersion (Number : string -> option Z) (version : string) : Z :=
  or_default (Number (before_dot version)) 0%Z.

Definition nodddeRange (major : Z) : string := "^" ++ string_of_Z major ++ ".0.0".

Definition base_dependencies (range : string) : jsmap string := [("@noddde/core", range); ("@noddde/engine", range)].

Definition base_devDependencies (range : string) : jsmap string :=
  [("@noddde/testing", range); ("@types/node", "^20.11.17"); ("eslint", "^8.56.0"); ("tsx", "^4.21.0");
   ("typescript", "^5.3.3"); ("vitest", "^4.1.0")].

Definition set_all {V} (entries : list (string * V)) (m : jsmap V) : jsmap V :=
  fold_left (fun m kv => mset (fst kv) (snd kv) m) entries m.

Definition dependencies (range : string) (adapter : PersistenceAdapter) (eventBus : EventBusAdapter) : jsmap string :=
  let deps := set_all
    match adapter with
    | prisma_persistence => [("@noddde/prisma", range); ("@prisma/client", "^6.5.0")]
    | drizzle_persistence => [("@noddde/drizzle", range); ("drizzle-orm", "^0.40.0"); ("better-sqlite3", "^11.0.0")]
    | typeorm_persistence => [("@noddde/typeorm", range)]
    | in_memory_persistence => []
    end (base_dependencies range) in
  set_all
    match eventBus with
    | kafka_bus => [("@noddde/kafka", range); ("kafkajs", "^2.0.0")]
    | nats_bus => [("@noddde/nats", range); ("nats", "^2.0.0")]
    | rabbitmq_bus => [("@noddde/rabbitmq", range); ("amqplib", "^0.10.0")]
    | event_emitter_bus => []
    end deps.

Definition devDependencies (range : string) (adapter : PersistenceAdapter) (eventBus : EventBusAdapter) : jsmap string :=
  let devDeps := set_all
    match adapter with
    | prisma_persistence => [("prisma", "^6.5.0")]
    | drizzle_persistence => [("@types/better-sqlite3", "^7.6.13")]
    | _ => []
    end (base_devDependencies range) in
  set_all match eventBus with rabbitmq_bus => [("@types/amqplib", "^0.10.0")] | _ => [] end devDeps.

Definition text_fields (m : jsmap string) : list (string * value) := map (fun '(k, v) => (k, VStr v)) m.

Definition two_spaces : chars := chars_of "  ".

(** [sort] is [Object.entries(deps).sort(([a], [b]) => a.localeCompare(b))]. *)
Definition packageJsonTemplate (sort : jsmap string -> jsmap string) (major : Z) (ctx : TemplateContext)
    (adapter : PersistenceAdapter) (eventBus : EventBusAdapter) : string :=
  let range := nodddeRange major in
  let pkg := VObj [
    ("name", VStr (string_of (tc_kebabName ctx)));
    ("version", VStr "0.0.0");
    ("private", VBool true);
    ("scripts", VObj [
      ("build", VStr "tsc"); ("lint", VStr "eslint . --max-warnings 0"); ("start", VStr "tsx src/main.ts");
      ("test", VStr "vitest run"); ("test:watch", VStr "vitest")]);
    ("dependencies", VObj (text_fields (sort (dependencies range adapter eventBus))));
    ("devDependencies", VObj (text_fields (sort (devDependencies range adapter eventBus))))] in
  string_of (print_indented two_spaces [] pkg) ++ line_break.

Definition tsconfigTemplate : string :=
  let config := VObj [
    ("compilerOptions", VObj [
      ("declaration", VBool true); ("declarationMap", VBool true); ("esModuleInterop", VBool true);
      ("incremental", VBool false); ("isolatedModules", VBool true);
      ("lib", VArr [VStr "es2022"; VStr "DOM"; VStr "DOM.Iterable"]);
      ("module", VStr "NodeNext"); ("moduleDetection", VStr "force"); ("moduleResolution", VStr "NodeNext");
      ("noUncheckedIndexedAccess", VBool true); ("resolveJsonModule", VBool true); ("skipLibCheck", VBool true);
      ("strict", VBool true); ("target", VStr "ES2022"); ("outDir", VStr "dist")]);
    ("include", VArr [VStr "src"]);
    ("exclude", VArr [VStr "node_modules"; VStr "dist"; VStr "src/__tests__"])] in
  string_of (print_indented two_spaces [] config) ++ line_break.

(** ** Writing *)

(** The file system, as far as the tool touches it, and what it logs. *)
Record Cli : Type := { cl_files : gmap path string; cl_log : list string }.

Definition console_log (line : string) : M Cli unit :=
  modify (fun c => {| cl_files := cl_files c; cl_log := (cl_log c ++ [line])%list |}).

(** [writeFile], into directories that are made as needed. *)
Definition writeFile (p : path) (content : string) : M Cli unit :=
  modify (fun c => {| cl_files := <[p := content]> (cl_files c); cl_log := cl_log c |}).

Definition writeFileIfNotExists (p : path) (content : string) : M Cli bool :=
  present <- gets (fun c => cl_files c !! p) ;;
  match present with
  | Some _ => ret false
  | None => writeFile p content ;;; ret true
  end.

Section generators.
Context (relative : path -> string).   (** [path.relative(process.cwd(), p)] *)

Definition report (p : path) (created : bool) : M Cli unit :=
  console_log (if created then "  Created " ++ relative p else "  Skipped " ++ relative p ++ " (already exists)").

Definition write_files (dir : path) (files : list (path * string)) : M Cli unit :=
  for_each files (fun file =>
    let filePath := (dir ++ fst file)%list in
    created <- writeFileIfNotExists filePath (snd file) ;;
    report filePath created).

(** The files of a generator in a context. *)
Definition entries_of (ctx : TemplateContext) (files : list (GeneratedFile text)) : list (path * string) :=
  map (fun f => file_entry (map_file (fill_text (of_context ctx)) f)) files.

Definition generate (entries : TemplateContext -> list (path * string)) (name : chars) (basePath : path) : M Cli unit :=
  lift_result (validateName name) ;;;
  let ctx := buildContext name in
  write_files (basePath ++ [string_of (tc_kebabName ctx)])%list (entries ctx).

Definition generateAggregate : chars -> path -> M Cli unit := generate (fun ctx => entries_of ctx aggregate_files).
Definition generateProjection : chars -> path -> M Cli unit := generate (fun ctx => entries_of ctx projection_files).
Definition generateSaga : chars -> path -> M Cli unit := generate (fun ctx => entries_of ctx saga_files).
Definition generateDomain : chars -> path -> M Cli unit := generate (fun ctx => entries_of ctx domain_files).

Definition project_entries (sort : jsmap string -> jsmap string) (major : Z) (adapter : PersistenceAdapter)
    (eventBus : EventBusAdapter) (ctx : TemplateContext) : list (path * string) :=
  ([(["package.json"], packageJsonTemplate sort major ctx adapter eventBus); (["tsconfig.json"], tsconfigTemplate)]
   ++ entries_of ctx (project_modules eventBus))%list.

Definition generateProject (sort : jsmap string -> jsmap string) (major : Z) (name : chars) (basePath : path)
    (adapter : PersistenceAdapter) (eventBus : EventBusAdapter) : M Cli unit :=
  generate (project_entries sort major adapter eventBus) name basePath.
End generators.

(** ** Imports that resolve *)

Definition is_value (d : declaration) : bool := match d with a_const | a_function => true | an_interface | a_type => false end.

(** What a statement exports, and whether it is a value. *)
Definition statement_exports {T} (s : statement T) : list (T * bool) :=
  match s with
  | Declared d name _ => [(name, is_value d)]
  | ReExport ty _ names _ => map (fun n => (n, negb ty)) names
  | _ => []
  end.

Definition exports {T} (f : GeneratedFile T) : list (T * bool) := flat_map statement_exports (f_body f).

(** The directory and the stem that a relative module stands for, in a file of [dir]. *)
Definition target {T} (dir : list T) (m : module T) : option (list T * T) :=
  match m with
  | Relative up dirs stem => if (up <=? length dir)%nat then Some ((take (length dir - up) dir ++ dirs)%list, stem) else None
  | Package _ => None
  end.

(** What a statement takes from another module. *)
Definition takes {T} (s : statement T) : option (bool * list T * module T) :=
  match s with
  | Import ty _ names m | ReExport ty _ names m => Some (ty, names, m)
  | _ => None
  end.

(** [g] is the module at [at_], and it exports the names, as values unless only types are taken. *)
Definition provides {T} (g : GeneratedFile T) (at_ : list T * T) (ty : bool) (names : list T) : Prop :=
  f_dir g = fst at_ /\ f_stem g = snd at_ /\ f_ext g = ".ts" /\
  forall n, n ∈ names -> exists v, (n, v) ∈ exports g /\ (ty = false -> v = true).

Definition resolves {T} (files : list (GeneratedFile T)) (f : GeneratedFile T) : Prop :=
  forall s ty names up dirs stem, s ∈ f_body f -> takes s = Some (ty, names, Relative up dirs stem) ->
  exists at_ g, target (f_dir f) (Relative up dirs stem) = Some at_ /\ g ∈ files /\ provides g at_ ty names.

Section decided.
Context {T : Type} `{!EqDecision T}.

Definition provides_b (g : GeneratedFile T) (at_ : list T * T) (ty : bool) (names : list T) : bool :=
  bool_decide (f_dir g = fst at_) && bool_decide (f_stem g = snd at_) && String.eqb (f_ext g) ".ts" &&
  forallb (fun n => existsb (fun x => bool_decide (fst x = n) && (ty || snd x)) (exports g)) names.

Definition resolves_b (files : list (GeneratedFile T)) (f : GeneratedFile T) : bool :=
  forallb (fun s =>
    match takes s with
    | Some (ty, names, Relative up dirs stem) =>
        match target (f_dir f) (Relative up dirs stem) with
        | Some at_ => existsb (fun g => provides_b g at_ ty names) files
        | None => false
        end
    | _ => true
    end) (f_body f).

Lemma provides_b_sound g at_ ty names : provides_b g at_ ty names = true -> provides g at_ ty names.
Proof.
  unfold provides_b. rewrite !andb_true_iff, !bool_decide_eq_true, String.eqb_eq, forallb_forall.
  intros (((Hd & Hs) & He) & Hn). split; [done |]. split; [done |]. split; [done |]. intros n Hin.
  apply list_elem_of_In, Hn, existsb_exists in Hin as ([n' v] & Hx & [<-%bool_decide_eq_true Hv]%andb_true_iff).
  exists v. split; [by apply list_elem_of_In |]. intros ->. exact Hv.
Qed.

Lemma resolves_b_sound files f : resolves_b files f = true -> resolves files f.
Proof.
  unfold resolves_b. rewrite forallb_forall. intros H s ty names up dirs stem Hs Ht.
  apply list_elem_of_In, H in Hs. rewrite Ht in Hs. destruct (target _ _) as [at_ |]; [| done].
  apply existsb_exists in Hs as (g & Hg & Hp). exists at_, g. split; [done |].
  split; [by apply list_elem_of_In | by apply provides_b_sound].
Qed.
End decided.

(** Filling in the templates keeps what resolves. *)
Section filled.
Context {T U : Type} (h : T -> U).

Lemma takes_map s : takes (map_statement h s) = match takes s with
  | Some (ty, names, m) => Some (ty, map h names, map_module h m) | None => None end.
Proof. by destruct s. Qed.

Lemma exports_map f n v : (n, v) ∈ exports f -> (h n, v) ∈ exports (map_file h f).
Proof.
  unfold exports. rewrite !list_elem_of_In, !in_flat_map. intros (s & Hs & Hn). exists (map_statement h s).
  split; [by apply in_map |]. destruct s; cbn in *; try done.
  - apply in_map_iff in Hn as (x & [= -> ->] & Hx). apply in_map_iff. exists (h n). split; [done | by apply in_map].
  - destruct Hn as [[= -> ->] | []]. by left.
Qed.

Lemma target_map dir up dirs stem :
  target (map h dir) (map_module h (Relative up dirs stem)) =
  match target dir (Relative up dirs stem) with Some (d, s) => Some (map h d, h s) | None => None end.
Proof.
  cbn. rewrite length_map. destruct (up <=? length dir)%nat; [| done]. by rewrite map_app, <- firstn_map.
Qed.

Lemma resolves_map files f : resolves files f -> resolves (map (map_file h) files) (map_file h f).
Proof.
  intros H s ty names up dirs stem Hs Ht. apply list_elem_of_In, in_map_iff in Hs as (s0 & <- & Hs).
  rewrite takes_map in Ht. destruct (takes s0) as [[[ty0 names0] m] |] eqn:E; [| done]. injection Ht as -> <- Hm.
  destruct m as [up0 dirs0 stem0 | p]; [| done]. injection Hm as -> <- <-.
  destruct (H s0 ty names0 up dirs0 stem0) as ([d st] & g & Hat & Hg & Hd & Hst & He & Hn); [by apply list_elem_of_In | done |].
  exists (map h d, h st), (map_file h g). change (f_dir (map_file h f)) with (map h (f_dir f)).
  change (Relative up (map h dirs0) (h stem0)) with (map_module h (Relative up dirs0 stem0)).
  rewrite target_map, Hat. split; [done |]. split; [by apply list_elem_of_In, in_map, list_elem_of_In |].
  cbn [fst snd] in Hd, Hst. split; [cbn; by rewrite Hd |]. split; [cbn; by rewrite Hst |]. split; [done |].
  intros n Hin. apply list_elem_of_In, in_map_iff in Hin as (n0 & <- & Hin).
  destruct (Hn n0) as (v & Hv & Hty); [by apply list_elem_of_In |]. exists v. split; [by apply exports_map | done].
Qed.
End filled.

(** ** Paths that are apart *)

(** The text of [t] when nothing is left to fill in. *)
Fixpoint closed_text (t : text) : option string :=
  match t with
  | [] => Some EmptyString
  | Lit s :: t => option_map (fun r => s ++ r) (closed_text t)
  | Quote :: t => option_map (fun r => String (Ascii.ascii_of_nat 34) r) (closed_text t)
  | Hole _ :: _ => None
  end.

Definition reserved : list string := ["index"; "state"].

Definition first_differs (s s' : string) : bool :=
  match s, s' with String c _, String c' _ => negb (Ascii.eqb c c') | _, _ => false end.

Fixpoint has_suffix (suffix s : string) : bool :=
  String.eqb suffix s || match s with String _ rest => has_suffix suffix rest | EmptyString => false end.

(** Two segments that differ, for every name but the reserved ones: both closed; or with first
    letters that differ; or the name itself against a reserved word; or with a suffix that the
    other one lacks. *)
Definition closed_apart (a b : text) : bool :=
  match closed_text a, closed_text b with Some s, Some s' => negb (String.eqb s s') | _, _ => false end.

Definition head_apart (a b : text) : bool :=
  match a, b with Lit s :: _, Lit s' :: _ => first_differs s s' | _, _ => false end.

Definition reserved_apart (a b : text) : bool :=
  match a, b with
  | [Hole KebabName; Lit e], [Lit s; Lit e'] => String.eqb e e' && existsb (String.eqb s) reserved
  | _, _ => false
  end.

Definition suffix_apart (a b : text) : bool :=
  match a, closed_text b with
  | [Hole _; Lit e; Lit e'], Some s => negb (has_suffix (e ++ e') s)
  | _, _ => false
  end.

Definition apart_text (a b : text) : bool :=
  closed_apart a b || head_apart a b || (reserved_apart a b || reserved_apart b a) || (suffix_apart a b || suffix_apart b a).

Fixpoint apart_path (p q : list text) : bool :=
  match p, q with
  | a :: p, b :: q => apart_text a b || apart_path p q
  | [], [] => false
  | _, _ => true
  end.

Fixpoint all_apart (paths : list (list text)) : bool :=
  match paths with
  | [] => true
  | p :: rest => forallb (apart_path p) rest && all_apart rest
  end.

(** The segments of a path, before they are filled in. *)
Definition path_texts (f : GeneratedFile text) : list text := (f_dir f ++ [f_stem f ++ [Lit (f_ext f)]])%list.

Section filling.
Local Open Scope string_scope.
Context (fill : hole -> string) (Hname : fill KebabName ∉ reserved).

Lemma closed_text_fill t : forall s, closed_text t = Some s -> fill_text fill t = s.
Proof.
  induction t as [| [l | | h] t IH]; intros s; [by intros [= <-] | | | done]; cbn [closed_text].
  - destruct (closed_text t) as [r |]; [| done]. intros [= <-]. exact (f_equal (String.append l) (IH r eq_refl)).
  - destruct (closed_text t) as [r |]; [| done]. intros [= <-]. exact (f_equal (String _) (IH r eq_refl)).
Qed.

Lemma has_suffix_refl s : has_suffix s s = true.
Proof. destruct s; cbn; by rewrite ?Ascii.eqb_refl, ?String.eqb_refl. Qed.

Lemma has_suffix_app p s : has_suffix s (p ++ s) = true.
Proof.
  induction p as [| c p IH]; [apply has_suffix_refl |]. change (String c p ++ s) with (String c (p ++ s)).
  cbn. by rewrite IH, orb_true_r.
Qed.


Lemma fill_text_cons p t : fill_text fill (p :: t) = piece_text fill p ++ fill_text fill t. Proof. reflexivity. Qed.

Lemma closed_apart_ne a b : closed_apart a b = true -> fill_text fill a <> fill_text fill b.
Proof.
  unfold closed_apart. destruct (closed_text a) as [s |] eqn:Ea, (closed_text b) as [s' |] eqn:Eb; try done.
  rewrite (closed_text_fill _ _ Ea), (closed_text_fill _ _ Eb). by intros H%negb_true_iff%String.eqb_neq.
Qed.

Lemma head_apart_ne a b : head_apart a b = true -> fill_text fill a <> fill_text fill b.
Proof.
  destruct a as [| [[| c s] | | h] a], b as [| [[| c' s'] | | h'] b]; try done.
  cbn. intros Hc%negb_true_iff%Ascii.eqb_neq H. injection H as H _. done.
Qed.

Lemma reserved_apart_ne a b : reserved_apart a b = true -> fill_text fill a <> fill_text fill b.
Proof.
  destruct a as [| [| | []] [| [e | |] []]]; try done. destruct b as [| [s | |] [| [e' | |] []]]; try done.
  cbn [reserved_apart]. intros [<-%String.eqb_eq Hs]%andb_true_iff H. rewrite !fill_text_cons in H. cbn [piece_text] in H.
  apply append_inj_tail in H. apply Hname. rewrite H.
  apply existsb_exists in Hs as (x & Hx & <-%String.eqb_eq). by apply list_elem_of_In.
Qed.

Lemma suffix_apart_ne a b : suffix_apart a b = true -> fill_text fill a <> fill_text fill b.
Proof.
  destruct a as [| [| | h] [| [e | |] [| [e' | |] []]]]; try done. unfold suffix_apart.
  destruct (closed_text b) as [s |] eqn:Eb; [| done]. rewrite (closed_text_fill _ _ Eb). intros Hs%negb_true_iff <-.
  rewrite !fill_text_cons in Hs. cbn [piece_text fill_text fold_right] in Hs.
  rewrite append_nil_r, has_suffix_app in Hs. discriminate Hs.
Qed.

Lemma apart_text_ne a b : apart_text a b = true -> fill_text fill a <> fill_text fill b.
Proof.
  unfold apart_text. rewrite !orb_true_iff. intros [[[H | H] | [H | H]] | [H | H]].
  - by apply closed_apart_ne.
  - by apply head_apart_ne.
  - by apply reserved_apart_ne.
  - by apply not_eq_sym, reserved_apart_ne.
  - by apply suffix_apart_ne.
  - by apply not_eq_sym, suffix_apart_ne.
Qed.

Lemma apart_path_ne p : forall q, apart_path p q = true -> map (fill_text fill) p <> map (fill_text fill) q.
Proof.
  induction p as [| a p IH]; intros [| b q] H; try done. cbn in *. intros E. injection E as Ea Ep.
  apply orb_true_iff in H as [H | H]; [by apply (apart_text_ne a b) | by apply (IH q)].
Qed.

Lemma all_apart_NoDup paths : all_apart paths = true -> NoDup (map (map (fill_text fill)) paths).
Proof.
  induction paths as [| p paths IH]; [constructor |]. cbn. intros [Hp Hr]%andb_true_iff. constructor; [| by apply IH].
  intros Hin. apply list_elem_of_In, in_map_iff in Hin as (q & Hq & Hin).
  apply (apart_path_ne p q); [| done]. by apply (proj1 (forallb_forall _ _) Hp).
Qed.

Lemma file_path_texts f : file_path (map_file (fill_text fill) f) = map (fill_text fill) (path_texts f).
Proof.
  unfold path_texts. rewrite map_app. cbn. unfold file_path. cbn. do 2 f_equal.
  induction (f_stem f) as [| p t IH]; [exact (eq_sym (append_nil_r (f_ext f))) |]. cbn [app]. rewrite !fill_text_cons, append_assoc. by rewrite IH.
Qed.
End filling.

(** ** What the generators write *)

Section written.
Context (relative : path -> string).

(** Every file of the list that was there is kept, every other one is written. *)
Definition written_files (dir : path) (files : list (path * string)) (fs : gmap path string) : gmap path string :=
  fold_left (fun fs e => match fs !! (dir ++ fst e)%list with Some _ => fs | None => <[(dir ++ fst e)%list := snd e]> fs end) files fs.

Lemma write_files_spec dir : forall (files : list (path * string)) c, exists log,
  write_files relative dir files c = (Ok tt, {| cl_files := written_files dir files (cl_files c); cl_log := log |}).
Proof.
  induction files as [| [p content] files IH]; intros c; [by exists (cl_log c); destruct c |].
  assert (Hstep : exists created, forall k : bool -> M Cli unit,
    (created <- writeFileIfNotExists (dir ++ p)%list content ;; k created) c =
    k created {| cl_files := written_files dir [(p, content)] (cl_files c); cl_log := cl_log c |}).
  { unfold written_files, writeFileIfNotExists, writeFile, bind, gets, modify, ret. cbn.
    destruct c as [fs out]. cbn. by destruct (fs !! (dir ++ p)%list) as [old |]; [exists false | exists true]. }
  destruct Hstep as [created Hstep].
  destruct (IH (snd (report relative (dir ++ p)%list created
    {| cl_files := written_files dir [(p, content)] (cl_files c); cl_log := cl_log c |}))) as [log H].
  exists log. unfold write_files. cbn [for_each fst snd]. unfold bind at 1. cbv zeta. rewrite Hstep. exact H.
Qed.

Lemma written_keeps dir files : forall fs p content, fs !! p = Some content -> written_files dir files fs !! p = Some content.
Proof.
  induction files as [| [q t] files IH]; intros fs p content H; [done |]. cbn. apply IH. cbn [fst snd].
  destruct (fs !! (dir ++ q)%list) as [old |] eqn:E; [done |]. rewrite lookup_insert_ne; [done | congruence].
Qed.

Lemma written_present dir files : forall fs p t, (p, t) ∈ files -> is_Some (written_files dir files fs !! (dir ++ p)%list).
Proof.
  induction files as [| [q u] files IH]; intros fs p t; [by intros ?%not_elem_of_nil |].
  intros [[= -> ->] | H]%elem_of_cons; cbn; [| by eapply IH].
  destruct (fs !! (dir ++ q)%list) as [old |] eqn:E; cbn [fst snd].
  - exists old. by apply written_keeps.
  - exists u. apply written_keeps, lookup_insert_eq.
Qed.

Lemma written_new dir files : NoDup (map fst files) -> forall fs, (forall p t, (p, t) ∈ files -> fs !! (dir ++ p)%list = None) ->
  forall p t, (p, t) ∈ files -> written_files dir files fs !! (dir ++ p)%list = Some t.
Proof.
  induction files as [| [q u] files IH]; intros Hnd fs Hfree p t; [by intros ?%not_elem_of_nil |].
  inversion Hnd as [| ? ? Hq Hnd']; subst. cbn. rewrite (Hfree q u) by left. cbn [fst snd].
  intros [[= -> ->] | H]%elem_of_cons; [apply written_keeps, lookup_insert_eq |].
  apply IH; [done | | done]. intros p' t' Hin. rewrite lookup_insert_ne; [apply (Hfree p' t'); by right |].
  intros E%app_inv_head. subst p'. apply Hq, list_elem_of_In. apply (in_map fst _ (q, t')), list_elem_of_In, Hin.
Qed.

Lemma written_twice dir files fs : written_files dir files (written_files dir files fs) = written_files dir files fs.
Proof.
  assert (H : forall fs, (forall e, e ∈ files -> is_Some (fs !! (dir ++ fst e)%list)) -> written_files dir files fs = fs).
  { clear fs. induction files as [| e files IH]; intros fs Hall; [done |]. cbn.
    destruct (Hall e ltac:(left)) as [x ->]. apply IH. intros e' He'. apply Hall. by right. }
  apply H. intros [p t] Hin. by apply (written_present _ _ _ _ t).
Qed.
End written.

(** ** The generators, one by one *)

Inductive generator : Type :=
| new_aggregate | new_projection | new_saga | new_domain
| new_project (adapter : PersistenceAdapter) (eventBus : EventBusAdapter).

Definition modules_of (g : generator) : list (GeneratedFile text) :=
  match g with
  | new_aggregate => aggregate_files
  | new_projection => projection_files
  | new_saga => saga_files
  | new_domain => domain_files
  | new_project _ eventBus => project_modules eventBus
  end.

(** The dependencies of the project that the modules are for. *)
Definition installed (range : string) (g : generator) : list string :=
  let '(adapter, eventBus) := match g with new_project a b => (a, b) | _ => (in_memory_persistence, event_emitter_bus) end in
  (mkeys (dependencies range adapter eventBus) ++ mkeys (devDependencies range adapter eventBus))%list.

(** The name of a package in a module specifier: the part before the second slash when it has a
    scope, before the first one otherwise. *)
Fixpoint until_slash (slashes : nat) (s : string) : string :=
  match s with
  | EmptyString => EmptyString
  | String c rest =>
      if Ascii.eqb c (Ascii.ascii_of_nat 47) then
        match slashes with O => EmptyString | S n => String c (until_slash n rest) end
      else String c (until_slash slashes rest)
  end.

Definition package_name (s : string) : string :=
  match s with
  | String c _ => until_slash (if Ascii.eqb c (Ascii.ascii_of_nat 64) then 1 else 0) s
  | EmptyString => EmptyString
  end.

Section run.
Context (relative : path -> string) (sort : jsmap string -> jsmap string) (major : Z).

Definition run (g : generator) (name : chars) (base : path) : M Cli unit :=
  match g with
  | new_aggregate => generateAggregate relative name base
  | new_projection => generateProjection relative name base
  | new_saga => generateSaga relative name base
  | new_domain => generateDomain relative name base
  | new_project adapter eventBus => generateProject relative sort major name base adapter eventBus
  end.

Definition entries (g : generator) (ctx : TemplateContext) : list (path * string) :=
  match g with
  | new_project adapter eventBus => project_entries sort major adapter eventBus ctx
  | _ => entries_of ctx (modules_of g)
  end.

Definition module_files (g : generator) (ctx : TemplateContext) : list (GeneratedFile string) :=
  map (map_file (fill_text (of_context ctx))) (modules_of g).

Lemma run_spec g name base c : exists log,
  run g name base c =
  match validateName name with
  | Ok _ => (Ok tt, {| cl_files := written_files (base ++ [string_of (tc_kebabName (buildContext name))])%list (entries g (buildContext name)) (cl_files c);
                       cl_log := log |})
  | Err e => (Err e, c)
  end.
Proof.
  assert (Hg : run g name base = generate relative (entries g) name base) by by destruct g.
  rewrite Hg. unfold generate, bind at 1, lift_result. destruct (validateName name) as [[] | e]; [| by exists []].
  apply write_files_spec.
Qed.

Lemma modules_in_entries g ctx f : f ∈ module_files g ctx -> file_entry f ∈ entries g ctx.
Proof.
  unfold module_files. intros Hf. assert (H : file_entry f ∈ entries_of ctx (modules_of g)).
  { apply list_elem_of_In, in_map_iff in Hf as (t & <- & Ht). unfold entries_of. apply list_elem_of_In, in_map_iff. by exists t. }
  destruct g; try done. do 2 right. exact H.
Qed.

(** The paths of the files, for every name but the reserved ones. *)
Definition entry_texts (g : generator) : list (list text) :=
  (match g with new_project _ _ => [[lit "package.json"]; [lit "tsconfig.json"]] | _ => [] end ++ map path_texts (modules_of g))%list.

Lemma entry_paths g ctx : map fst (entries g ctx) = map (map (fill_text (of_context ctx))) (entry_texts g).
Proof.
  assert (H : forall files, map fst (entries_of ctx files) = map (map (fill_text (of_context ctx))) (map path_texts files)).
  { intros files. unfold entries_of. rewrite !map_map. apply map_ext. intros f. apply file_path_texts. }
  destruct g; try apply H. unfold entry_texts. rewrite map_app, <- H. reflexivity.
Qed.

Lemma entries_apart g ctx : string_of (tc_kebabName ctx) ∉ reserved -> NoDup (map fst (entries g ctx)).
Proof.
  intros Hr. rewrite entry_paths. apply all_apart_NoDup; [done |].
  destruct g as [| | | | [] []]; vm_compute; reflexivity.
Qed.

Lemma modules_resolve g : Forall (resolves (modules_of g)) (modules_of g).
Proof.
  assert (H : forallb (resolves_b (modules_of g)) (modules_of g) = true) by (destruct g as [| | | | [] []]; vm_compute; reflexivity).
  apply Forall_forall. intros f Hf. apply resolves_b_sound. by apply (proj1 (forallb_forall _ _) H), list_elem_of_In.
Qed.

(** The packages that the modules import; no name is filled in there. *)
Definition imported_packages {T} (files : list (GeneratedFile T)) : list T :=
  flat_map (fun f => flat_map (fun s => match takes s with Some (_, _, Package p) => [p] | _ => [] end) (f_body f)) files.

Lemma packages_filled {T U} (h : T -> U) files : imported_packages (map (map_file h) files) = map h (imported_packages files).
Proof.
  unfold imported_packages. induction files as [| f files IH]; [done |]. cbn [map flat_map]. rewrite IH, map_app. f_equal. clear IH.
  change (f_body (map_file h f)) with (map (map_statement h) (f_body f)). induction (f_body f) as [| s body IH]; [done |].
  cbn [map flat_map]. rewrite IH, map_app, takes_map. f_equal. by destruct (takes s) as [[[ty names] []] |].
Qed.

Lemma packages_installed g ctx p : p ∈ imported_packages (module_files g ctx) -> package_name p ∈ installed (nodddeRange major) g.
Proof.
  unfold module_files. rewrite packages_filled. intros Hp. apply list_elem_of_In, in_map_iff in Hp as (t & <- & Ht).
  assert (H : forallb (fun t => match closed_text t with Some s => bool_decide (package_name s ∈ installed (nodddeRange major) g) | None => false end)
    (imported_packages (modules_of g)) = true).
  { assert (Hk : forall r r', installed r g = installed r' g) by (intros r r'; by destruct g as [| | | | [] []]).
    rewrite (Hk _ EmptyString). destruct g as [| | | | [] []]; vm_compute; reflexivity. }
  specialize (proj1 (forallb_forall _ _) H t Ht) as Hc. cbv beta in Hc.
  destruct (closed_text t) as [s |] eqn:E; [| done]. rewrite (closed_text_fill _ t s E). by apply bool_decide_eq_true in Hc.
Qed.

(** C33. A fresh scaffold holds together.  For a valid name whose directory name is neither "index"
    nor "state", in a directory that does not exist yet, each of the five generators, for every
    persistence adapter and event bus, succeeds; every module it lists is there with the text of
    its template; every relative import or re-export of these modules leads to one of them that
    exports the names, as values where values are imported; and every package they import is among
    the dependencies of the generated package.json. *)
Theorem scaffold_holds_together (g : generator) (name : chars) (base : path) (c : Cli) :
  let ctx := buildContext name in
  let dir := (base ++ [string_of (tc_kebabName ctx)])%list in
  validateName name = Ok tt -> string_of (tc_kebabName ctx) ∉ reserved -> (forall p, cl_files c !! (dir ++ p)%list = None) ->
  exists c', run g name base c = (Ok tt, c') /\
    (forall f, f ∈ module_files g ctx ->
       cl_files c' !! (dir ++ file_path f)%list = Some (render_module (f_body f)) /\
       resolves (module_files g ctx) f) /\
    (forall p, p ∈ imported_packages (module_files g ctx) -> package_name p ∈ installed (nodddeRange major) g).
Proof.
  intros ctx dir Hv Hr Hfree. destruct (run_spec g name base c) as [log Hrun]. rewrite Hv in Hrun. fold ctx dir in Hrun.
  eexists. split; [exact Hrun |]. split; [| apply packages_installed]. intros f Hf. split.
  - cbn [cl_files]. apply (written_new dir (entries g ctx) (entries_apart g ctx Hr)); [by intros p t _ |].
    exact (modules_in_entries g ctx f Hf).
  - apply list_elem_of_In, in_map_iff in Hf as (t & <- & Ht). apply resolves_map.
    exact (proj1 (Forall_forall _ _) (modules_resolve g) t (proj2 (list_elem_of_In _ _) Ht)).
Qed.

(** Generators do not overwrite, and a second run changes no file. *)
Lemma run_keeps_files g name base c : exists c', snd (run g name base c) = c' /\
  (forall p content, cl_files c !! p = Some content -> cl_files c' !! p = Some content) /\
  cl_files (snd (run g name base c')) = cl_files c'.
Proof.
  eexists. split; [reflexivity |]. destruct (run_spec g name base c) as [log Hrun]. rewrite Hrun. destruct (validateName name) as [[] | e] eqn:Ev.
  - cbn [snd]. split; [intros p content H; by apply written_keeps |].
    match goal with |- cl_files (snd (run g name base ?c')) = _ => destruct (run_spec g name base c') as [log' Hrun'] end.
    rewrite Hrun', Ev. cbn [snd cl_files]. apply written_twice.
  - cbn [snd]. split; [done |]. destruct (run_spec g name base c) as [log' Hrun']. by rewrite Hrun', Ev.
Qed.
End run.

Definition empty_cli : Cli := {| cl_files := ∅; cl_log := [] |}.

Lemma scaffold_holds_together_witness :
  let ctx := buildContext (chars_of "BankAccount") in
  exists c', run (String.concat "/") (fun m => m) 1 (new_project drizzle_persistence kafka_bus) (chars_of "BankAccount") ["work"] empty_cli = (Ok tt, c') /\
    is_Some (cl_files c' !! ["work"; "bank-account"; "src"; "domain"; "domain.ts"]) /\
    "kafkajs" ∈ installed (nodddeRange 1) (new_project drizzle_persistence kafka_bus).
Proof.
  intros ctx.
  destruct (scaffold_holds_together (String.concat "/") (fun m => m) 1 (new_project drizzle_persistence kafka_bus) (chars_of "BankAccount") ["work"] empty_cli)
    as (c' & Hrun & Hf & _).
  - vm_compute. reflexivity.
  - apply (bool_decide_eq_false_1 _). vm_compute. reflexivity.
  - intros p. apply lookup_empty.
  - exists c'. split; [exact Hrun |]. split; [| apply (bool_decide_eq_true_1 _); vm_compute; reflexivity].
    set (f := map_file (fill_text (of_context ctx)) (ts [lit "src"; lit "domain"] (lit "domain") domainDefinitionTemplate)).
    destruct (Hf f) as [Hin _].
    + apply list_elem_of_In, (in_map (map_file (fill_text (of_context ctx)))). repeat (first [left; reflexivity | right]).
    + exists (render_module (f_body f)). exact Hin.
Defined.

(** A name that is also the name of a file of the scaffold: the module of the definition is not
    written, and the barrel exports from itself. *)
Example aggregate_named_index :
  let c := snd (run (String.concat "/") (fun m => m) 1 new_aggregate (chars_of "Index") ["work"] empty_cli) in
  cl_files c !! ["work"; "index"; "index.ts"] =
    Some (render_module (instantiate (of_context (buildContext (chars_of "Index"))) aggregateIndexTemplate)) /\
  last (cl_log c) = Some "  Created work/index/evolvers/evolve-index-created.ts" /\
  "  Skipped work/index/index.ts (already exists)" ∈ cl_log c.
Proof. split; [by vm_compute | split; [by vm_compute |]]. apply (bool_decide_eq_true_1 _). by vm_compute. Qed.
