(* ===== verification/AddGenerators.v ===== *)
(** The commands that extend a module (packages/cli/src/utils/file-modifier.ts and
    generators/add-command.ts, add-query.ts and add-event-handler.ts): new files, and lines
    that are put into the files that are there.  The regular expressions of the sources are
    matchers on characters; none of them needs to go back. *)
From Stdlib Require Import Ascii.
From stdpp Require Import gmap.
From S2P Require Import Prelude Text Naming Templates Scaffold.
Local Open Scope string_scope.

(** ** Lines *)

(** [text.split("\n")] *)
Fixpoint split_lines (s : string) : list string :=
  match s with
  | EmptyString => [EmptyString]
  | String c rest =>
      if Ascii.eqb c (Ascii.ascii_of_nat 10) then EmptyString :: split_lines rest
      else match split_lines rest with l :: ls => String c l :: ls | [] => [String c EmptyString] end
  end.

(** [lines.join("\n")] *)
Definition join_lines (lines : list string) : string := String.concat line_break lines.

(** The white space at the start of a line, [l.trimStart()] and [text.trimEnd()]. *)
Fixpoint take_spaces (s : chars) : chars :=
  match s with c :: s => if is_space c then c :: take_spaces s else [] | [] => [] end.
Definition indent_of (line : string) : string := string_of (take_spaces (chars_of line)).
Definition trim_start (line : string) : string := string_of (trimStart (chars_of line)).
Definition trim_end (s : string) : string := string_of (trimEnd (chars_of s)).

(** [content.split("\n").map((l) => (l.trim() ? indent + l.trimStart() : l)).join("\n")] *)
Definition indented (indent content : string) : string :=
  join_lines (map (fun l => match trim (chars_of l) with [] => l | _ => indent ++ trim_start l end) (split_lines content)).

(** [lines.splice(at, 0, line)] *)
Definition splice (at_ : nat) (line : string) (lines : list string) : list string :=
  (take at_ lines ++ line :: drop at_ lines)%list.

(** [lines.findIndex(test)], and the index of the last line that passes. *)
Fixpoint find_index (test : string -> bool) (lines : list string) : option nat :=
  match lines with
  | [] => None
  | l :: ls => if test l then Some O else option_map S (find_index test ls)
  end.

Fixpoint find_last_index (test : string -> bool) (lines : list string) : option nat :=
  match lines with
  | [] => None
  | l :: ls =>
      match find_last_index test ls with
      | Some i => Some (S i)
      | None => if test l then Some O else None
      end
  end.

(** ** Matchers *)

Definition is_word (c : ascii) : bool :=
  is_upper c || is_lower c || ((48 <=? code c) && (code c <=? 57))%Z || (code c =? 95)%Z.

Fixpoint skip_while (p : ascii -> bool) (s : chars) : chars :=
  match s with c :: rest => if p c then skip_while p rest else s | [] => [] end.

(** One or more characters of a class. *)
Definition some_of (p : ascii -> bool) (s : chars) : option chars :=
  match s with c :: rest => if p c then Some (skip_while p rest) else None | [] => None end.

Definition exactly (w : string) (s : chars) : option chars :=
  if bool_decide (take (String.length w) s = chars_of w) then Some (drop (String.length w) s) else None.

(** One matcher after the other. *)
Local Notation "r |> f" := (match r with Some s => f s | None => None end) (at level 50, left associativity).

Definition skip_all (s : chars) : option chars := Some (skip_while is_space s).

Definition at_end (r : option chars) : bool := match r with Some [] => true | _ => false end.

(** [/^\s+\w+: handler\w+,$/] *)
Definition entry_line (handler : string) (line : string) : bool :=
  at_end (some_of is_space (chars_of line) |> some_of is_word |> exactly ": " |> exactly handler |> some_of is_word |> exactly ",").

(** [/^\s+};$/] *)
Definition closing_line (line : string) : bool := at_end (some_of is_space (chars_of line) |> exactly "};").

(** [/^\s+reduce: on\w+,$/] *)
Definition reduce_line (line : string) : bool :=
  at_end (some_of is_space (chars_of line) |> exactly "reduce: on" |> some_of is_word |> exactly ",").

(** [on:] and an opening brace, with white space before each, and nothing after. *)
Definition on_line (line : string) : bool :=
  at_end (some_of is_space (chars_of line) |> exactly "on:" |> skip_all |> exactly "{").

(** ** file-modifier.ts *)

Definition ENOENT (p : path) : js_error :=
  DriverError [("code", VStr "ENOENT"); ("message", VStr ("ENOENT: no such file or directory, open '/" ++ String.concat "/" p ++ "'"))].

Definition readFile (p : path) : M Cli string :=
  content <- gets (fun c => cl_files c !! p) ;;
  match content with Some t => ret t | None => throw (ENOENT p) end.

(** The text after an insertion, when a line passes the test. *)
Definition inserted_before (marker : string -> bool) (content text : string) : option string :=
  let lines := split_lines text in
  match find_index marker lines with
  | Some i => Some (join_lines (splice i (indented (indent_of (nth i lines EmptyString)) content) lines))
  | None => None
  end.

Definition inserted_after_last (test : string -> bool) (content text : string) : option string :=
  let lines := split_lines text in
  match find_last_index test lines with
  | Some i => Some (join_lines (splice (S i) (indented (indent_of (nth i lines EmptyString)) content) lines))
  | None => None
  end.

(** [insertBeforeMarker] without [fallbackAppend], which no caller sets. *)
Definition insertBeforeMarker (p : path) (marker : string -> bool) (content : string) : M Cli bool :=
  text <- readFile p ;;
  match inserted_before marker content text with
  | Some text' => writeFile p text' ;;; ret true
  | None => ret false
  end.

Definition insertAfterLastMatch (p : path) (test : string -> bool) (content : string) : M Cli bool :=
  text <- readFile p ;;
  match inserted_after_last test content text with
  | Some text' => writeFile p text' ;;; ret true
  | None => ret false
  end.

Definition with_export (exportLine text : string) : string := trim_end text ++ line_break ++ exportLine ++ line_break.

Definition appendToBarrel (p : path) (exportLine : string) : M Cli unit :=
  text <- readFile p ;;
  writeFile p (with_export exportLine text).

Definition with_imports (importLines text : string) : string :=
  let lines := split_lines text in
  match find_last_index (String.prefix "import ") lines with
  | None => importLines ++ line_break ++ text
  | Some i => join_lines (splice (S i) importLines lines)
  end.

Definition insertImports (p : path) (importLines : string) : M Cli unit :=
  text <- readFile p ;;
  writeFile p (with_imports importLines text).

Definition fileContains (p : path) (search : string) : M Cli bool :=
  text <- readFile p ;;
  ret (includes search text).

(** ** The generators *)

Section add.
Context (relative : path -> string).

Definition updated (p : path) : M Cli unit := console_log ("  Updated " ++ relative p).

Definition template_text (fill : hole -> string) (template : list stmt) : string := render_module (instantiate fill template).

Definition basename (dir : path) : chars := chars_of (List.last dir EmptyString).

Definition quoted_import (ty : string) (names spec : string) : string :=
  "import " ++ ty ++ "{ " ++ names ++ " } from " ++ quoted spec ++ ";".
Definition quoted_export (ty : string) (names spec : string) : string :=
  "export " ++ ty ++ "{ " ++ names ++ " } from " ++ quoted spec ++ ";".

(** *** generators/add-command.ts *)

Definition add_command_fill (aggregate command : TemplateContext) (eventName eventKebabName : string) (h : hole) : string :=
  match h with
  | AggregateName => string_of (tc_name aggregate)
  | AggregateKebab => string_of (tc_kebabName aggregate)
  | CommandName => string_of (tc_name command)
  | CommandKebab => string_of (tc_kebabName command)
  | EventName => eventName
  | EventKebabName => eventKebabName
  | _ => EmptyString
  end.

(** The edits of the aggregate's definition file. *)
Definition extend_definition (aggDefFile : path) (commandName commandKebab eventName : string) : M Cli unit :=
  insertImports aggDefFile
    (quoted_import "type " (commandName ++ "Payload") ("./commands/" ++ commandKebab ++ ".js") ++ line_break ++
     quoted_import EmptyString ("decide" ++ commandName) "./deciders/index.js" ++ line_break ++
     quoted_import EmptyString ("evolve" ++ eventName) "./evolvers/index.js") ;;;
  _ <- insertBeforeMarker aggDefFile (includes "// TODO: add more commands") ("  " ++ commandName ++ ": " ++ commandName ++ "Payload;") ;;
  _ <- insertBeforeMarker aggDefFile (includes "// TODO: add more events") ("  " ++ eventName ++ ": { id: string };") ;;
  _ <- insertAfterLastMatch aggDefFile (entry_line "decide") ("    " ++ commandName ++ ": decide" ++ commandName ++ ",") ;;
  _ <- insertAfterLastMatch aggDefFile (entry_line "evolve") ("    " ++ eventName ++ ": evolve" ++ eventName ++ ",") ;;
  ret tt.

Definition addCommandToAggregate (commandName : chars) (aggregateDir : path) (eventName : chars) : M Cli unit :=
  lift_result (validateName commandName) ;;;
  lift_result (validateName eventName) ;;;
  let command := buildContext commandName in
  let aggregate := buildContext (basename aggregateDir) in
  let eventKebabName := string_of (toKebabCase eventName) in
  let event := string_of eventName in
  let cname := string_of (tc_name command) in
  let ckebab := string_of (tc_kebabName command) in
  let fill := add_command_fill aggregate command event eventKebabName in
  let aggDefFile := (aggregateDir ++ [(string_of (tc_kebabName aggregate) ++ ".ts")%string])%list in
  present <- fileContains aggDefFile (cname ++ ":") ;;
  if present then
    console_log ("  Skipped — command " ++ quoted cname ++ " already exists in " ++ string_of (tc_name aggregate))
  else
    write_files relative aggregateDir
      [(["commands"; ckebab ++ ".ts"], template_text fill addCommandPayloadTemplate);
       (["deciders"; "decide-" ++ ckebab ++ ".ts"], template_text fill addDeciderTemplate);
       (["evolvers"; "evolve-" ++ eventKebabName ++ ".ts"], template_text fill addEvolverTemplate)] ;;;
    appendToBarrel (aggregateDir ++ ["commands"; "index.ts"])%list
      (quoted_export "type " (cname ++ "Payload") ("./" ++ ckebab ++ ".js")) ;;;
    updated (aggregateDir ++ ["commands"; "index.ts"])%list ;;;
    appendToBarrel (aggregateDir ++ ["deciders"; "index.ts"])%list
      (quoted_export EmptyString ("decide" ++ cname) ("./decide-" ++ ckebab ++ ".js")) ;;;
    updated (aggregateDir ++ ["deciders"; "index.ts"])%list ;;;
    appendToBarrel (aggregateDir ++ ["evolvers"; "index.ts"])%list
      (quoted_export EmptyString ("evolve" ++ event) ("./evolve-" ++ eventKebabName ++ ".js")) ;;;
    updated (aggregateDir ++ ["evolvers"; "index.ts"])%list ;;;
    extend_definition aggDefFile cname ckebab event ;;;
    updated aggDefFile.

(** *** generators/add-query.ts *)

Definition add_query_fill (projection query : TemplateContext) (h : hole) : string :=
  match h with
  | ProjectionName => string_of (tc_name projection)
  | ProjectionKebab => string_of (tc_kebabName projection)
  | QueryName => string_of (tc_name query)
  | QueryKebab => string_of (tc_kebabName query)
  | _ => EmptyString
  end.

Definition query_entry (qname pname : string) : string :=
  "  " ++ qname ++ ": {" ++ line_break ++ "    payload: " ++ qname ++ "Payload;" ++ line_break ++
  "    result: " ++ pname ++ "View | null;" ++ line_break ++ "  };".

Definition addQueryToProjection (queryName : chars) (projectionDir : path) : M Cli unit :=
  lift_result (validateName queryName) ;;;
  let query := buildContext queryName in
  let projection := buildContext (basename projectionDir) in
  let qname := string_of (tc_name query) in
  let qkebab := string_of (tc_kebabName query) in
  let pname := string_of (tc_name projection) in
  let fill := add_query_fill projection query in
  let projDefFile := (projectionDir ++ [(string_of (tc_kebabName projection) ++ ".ts")%string])%list in
  let queriesIndex := (projectionDir ++ ["queries"; "index.ts"])%list in
  let handlersIndex := (projectionDir ++ ["query-handlers"; "index.ts"])%list in
  present <- fileContains projDefFile (qname ++ ":") ;;
  if present then
    console_log ("  Skipped — query " ++ quoted qname ++ " already exists in " ++ pname ++ "Projection")
  else
    write_files relative projectionDir
      [(["queries"; qkebab ++ ".ts"], template_text fill addQueryPayloadTemplate);
       (["query-handlers"; "handle-" ++ qkebab ++ ".ts"], template_text fill addQueryHandlerTemplate)] ;;;
    insertImports queriesIndex (quoted_import "type " (qname ++ "Payload") ("./" ++ qkebab ++ ".js")) ;;;
    queriesHasEntries <- fileContains queriesIndex "payload:" ;;
    (if queriesHasEntries
     then _ <- insertAfterLastMatch queriesIndex closing_line (query_entry qname pname) ;; ret tt
     else _ <- insertBeforeMarker queriesIndex (includes "}>") (query_entry qname pname) ;; ret tt) ;;;
    updated queriesIndex ;;;
    appendToBarrel handlersIndex (quoted_export EmptyString ("handle" ++ qname) ("./handle-" ++ qkebab ++ ".js")) ;;;
    updated handlersIndex ;;;
    insertImports projDefFile (quoted_import EmptyString ("handle" ++ qname) "./query-handlers/index.js") ;;;
    _ <- insertAfterLastMatch projDefFile (entry_line "handle") ("    " ++ qname ++ ": handle" ++ qname ++ ",") ;;
    updated projDefFile.

(** *** generators/add-event-handler.ts *)

Definition add_event_fill (projection : TemplateContext) (eventName eventKebabName : string) (h : hole) : string :=
  match h with
  | ProjectionName => string_of (tc_name projection)
  | ProjectionKebab => string_of (tc_kebabName projection)
  | EventName => eventName
  | EventKebabName => eventKebabName
  | _ => EmptyString
  end.

Definition addEventHandlerToProjection (eventName : chars) (projectionDir : path) : M Cli unit :=
  lift_result (validateName eventName) ;;;
  let projection := buildContext (basename projectionDir) in
  let event := string_of eventName in
  let eventKebabName := string_of (toKebabCase eventName) in
  let fill := add_event_fill projection event eventKebabName in
  let projDefFile := (projectionDir ++ [(string_of (tc_kebabName projection) ++ ".ts")%string])%list in
  let onEntriesIndex := (projectionDir ++ ["on-entries"; "index.ts"])%list in
  present <- fileContains projDefFile ("on" ++ event) ;;
  if present then
    console_log ("  Skipped — event handler " ++ quoted ("on" ++ event) ++ " already exists in " ++
      string_of (tc_name projection) ++ "Projection")
  else
    write_files relative projectionDir
      [(["on-entries"; "on-" ++ eventKebabName ++ ".ts"], template_text fill addEventHandlerTemplate)] ;;;
    appendToBarrel onEntriesIndex (quoted_export EmptyString ("on" ++ event) ("./on-" ++ eventKebabName ++ ".js")) ;;;
    updated onEntriesIndex ;;;
    insertImports projDefFile (quoted_import EmptyString ("on" ++ event) "./on-entries/index.js") ;;;
    insertedAfterExisting <- insertAfterLastMatch projDefFile reduce_line
      ("  }," ++ line_break ++ "    " ++ event ++ ": {" ++ line_break ++ "      reduce: on" ++ event ++ ",") ;;
    (if negb insertedAfterExisting
     then _ <- insertAfterLastMatch projDefFile on_line
            ("    " ++ event ++ ": {" ++ line_break ++ "      reduce: on" ++ event ++ "," ++ line_break ++ "    },") ;; ret tt
     else ret tt) ;;;
    updated projDefFile.
End add.

(** ** Lines of a text *)

Definition newline_free (s : string) : Prop := split_lines s = [s].

Lemma split_lines_cons s : exists l ls, split_lines s = l :: ls.
Proof. induction s as [| c s (l & ls & E)]; cbn; [by eauto |]. rewrite E. destruct (Ascii.eqb c (Ascii.ascii_of_nat 10)); by eauto. Qed.

Lemma split_lines_free s : Forall newline_free (split_lines s).
Proof.
  induction s as [| c s IH]; cbn; [by repeat constructor |].
  destruct (Ascii.eqb c (Ascii.ascii_of_nat 10)) eqn:Ec; [by constructor |].
  destruct (split_lines s) as [| l ls]; inversion IH as [| ? ? Hl Hls]; subst.
  - constructor; [| constructor]. unfold newline_free. cbn. by rewrite Ec.
  - constructor; [| done]. unfold newline_free in *. cbn. by rewrite Ec, Hl.
Qed.

Lemma split_lines_break a b : split_lines (a ++ line_break ++ b) = (split_lines a ++ split_lines b)%list.
Proof.
  induction a as [| c a IH]; [done |]. change (String c a ++ line_break ++ b) with (String c (a ++ line_break ++ b)).
  cbn [split_lines]. rewrite IH. destruct (Ascii.eqb c (Ascii.ascii_of_nat 10)); [done |].
  destruct (split_lines_cons a) as (l & ls & ->). done.
Qed.

Lemma join_lines_cons l l' ls : join_lines (l :: l' :: ls) = l ++ line_break ++ join_lines (l' :: ls).
Proof. reflexivity. Qed.

Lemma split_join ls : ls <> [] -> split_lines (join_lines ls) = flat_map split_lines ls.
Proof.
  intros Hne. induction ls as [| l ls IH]; [done |]. destruct ls as [| l' ls]; [cbn; by rewrite app_nil_r |].
  rewrite join_lines_cons, split_lines_break, IH by done. done.
Qed.

Lemma flat_map_free ls : Forall newline_free ls -> flat_map split_lines ls = ls.
Proof. induction 1 as [| l ls Hl _ IH]; [done |]. cbn. by rewrite Hl, IH. Qed.

(** The lines around an insertion are those that were there. *)
Lemma split_splice i line text :
  split_lines (join_lines (splice i line (split_lines text))) =
  (take i (split_lines text) ++ split_lines line ++ drop i (split_lines text))%list.
Proof.
  pose proof (split_lines_free text) as Hf. unfold splice.
  rewrite split_join by (intros H; by apply app_eq_nil in H as [_ H]).
  rewrite flat_map_app. cbn [flat_map]. rewrite !flat_map_free; [done | by apply Forall_drop | by apply Forall_take].
Qed.

Lemma sublist_around {A} i (ls new : list A) : ls `sublist_of` (take i ls ++ new ++ drop i ls)%list.
Proof.
  rewrite <- (take_drop i ls) at 1. apply sublist_app; [done |]. by apply sublist_inserts_l.
Qed.

(** ** Code that is kept *)

(** The lines of a text that are not blank, without the white space at their end. *)
Definition code_line (l : string) : chars := trimEnd (chars_of l).
Definition code_lines (text : string) : list chars := List.filter nonempty (map code_line (split_lines text)).

Lemma code_lines_sublist a b : split_lines a `sublist_of` split_lines b -> code_lines a `sublist_of` code_lines b.
Proof.
  intros H. unfold code_lines. induction H as [| l la lb _ IH | l la lb _ IH]; [done | |];
    cbn [map List.filter]; destruct (nonempty (code_line l)); done || by constructor.
Qed.

Lemma trimStart_blank w s : Forall (fun c => is_space c = true) w -> trimStart (w ++ s)%list = trimStart s.
Proof. induction 1 as [| c w Hc _ IH]; [done |]. cbn. by rewrite Hc. Qed.

Lemma trimEnd_blank s w : Forall (fun c => is_space c = true) w -> trimEnd (s ++ w)%list = trimEnd s.
Proof.
  intros Hw. unfold trimEnd. rewrite rev_app_distr, trimStart_blank; [done |]. by apply Forall_rev.
Qed.

Lemma trimStart_split s : exists w, s = (w ++ trimStart s)%list /\ Forall (fun c => is_space c = true) w.
Proof.
  induction s as [| c s (w & E & Hw)]; [by exists [] |]. cbn. destruct (is_space c) eqn:Ec; [| by exists []].
  exists (c :: w). split; [cbn; by rewrite <- E | by constructor].
Qed.

Lemma trimEnd_split s : exists w, s = (trimEnd s ++ w)%list /\ Forall (fun c => is_space c = true) w.
Proof.
  destruct (trimStart_split (rev s)) as (w & E & Hw). exists (rev w). split; [| by apply Forall_rev].
  unfold trimEnd. rewrite <- rev_app_distr, <- E. by rewrite rev_involutive.
Qed.

(** The lines of a concatenation: the last of the first text is continued by the first of the second. *)
Fixpoint glue (ls ms : list string) : list string :=
  match ls with
  | [] => ms
  | [l] => match ms with m :: ms => (l ++ m) :: ms | [] => [l] end
  | l :: ls => l :: glue ls ms
  end.

Lemma split_lines_app a b : split_lines (a ++ b) = glue (split_lines a) (split_lines b).
Proof.
  induction a as [| c a IH].
  - change (EmptyString ++ b) with b. destruct (split_lines_cons b) as (m & ms & E). by rewrite E.
  - change (String c a ++ b) with (String c (a ++ b)). cbn [split_lines]. rewrite IH.
    destruct (split_lines_cons a) as (l & ls & ->), (split_lines_cons b) as (m & ms & ->).
    destruct (Ascii.eqb c (Ascii.ascii_of_nat 10)); [by destruct ls |]. by destruct ls.
Qed.

Definition blank_text (s : string) : Prop := Forall (fun c => is_space c = true) (chars_of s).

Lemma split_lines_blank w : blank_text w -> Forall blank_text (split_lines w).
Proof.
  unfold blank_text. induction w as [| c w IH]; intros H; [by repeat constructor |]. cbn in H. inversion H as [| ? ? Hc Hw]; subst.
  specialize (IH Hw). cbn [split_lines]. destruct (Ascii.eqb c (Ascii.ascii_of_nat 10)); [by constructor |].
  destruct (split_lines_cons w) as (l & ls & E). rewrite E in *. inversion IH; subst. constructor; [by constructor | done].
Qed.

Lemma code_line_blank m : blank_text m -> code_line m = [].
Proof. intros H. unfold code_line. change (chars_of m) with ([] ++ chars_of m)%list. by rewrite trimEnd_blank. Qed.

Lemma code_line_app l m : blank_text m -> code_line (l ++ m) = code_line l.
Proof. intros H. unfold code_line. by rewrite chars_of_append, trimEnd_blank. Qed.

(** Blank text after the end of a text adds no code. *)
Lemma code_lines_blank t w : blank_text w -> code_lines (t ++ w) = code_lines t.
Proof.
  intros Hw. unfold code_lines. rewrite split_lines_app. pose proof (split_lines_blank w Hw) as Hb.
  assert (Hnil : forall ms, Forall blank_text ms -> List.filter nonempty (map code_line ms) = []).
  { induction 1 as [| m ms Hm _ IH]; [done |]. cbn. by rewrite code_line_blank. }
  destruct (split_lines_cons t) as (l & ls & ->). revert l. induction ls as [| l' ls IH]; intros l.
  - cbn [glue]. destruct Hb as [| m ms Hm Hms]; [done |]. cbn [map List.filter]. by rewrite code_line_app, (Hnil ms).
  - change (glue (l :: l' :: ls) (split_lines w)) with (l :: glue (l' :: ls) (split_lines w)). cbn [map List.filter]. by rewrite IH.
Qed.

Lemma code_lines_trim_end t : code_lines (trim_end t) = code_lines t.
Proof.
  destruct (trimEnd_split (chars_of t)) as (w & E & Hw).
  rewrite <- (string_of_chars_of t) at 2. rewrite E.
  assert (Happ : forall x y, string_of (x ++ y)%list = string_of x ++ string_of y).
  { intros x y. induction x as [| c x IH]; [done |]. exact (f_equal (String c) IH). }
  rewrite Happ. unfold trim_end. rewrite code_lines_blank; [done |]. unfold blank_text. by rewrite chars_of_string_of.
Qed.

Lemma code_lines_break a b : code_lines (a ++ line_break ++ b) = (code_lines a ++ code_lines b)%list.
Proof.
  unfold code_lines. rewrite split_lines_break, map_app. induction (map code_line (split_lines a)) as [| l ls IH]; [done |].
  cbn [app List.filter]. destruct (nonempty l); [cbn [app]; by f_equal | done].
Qed.

(** ** The edits keep the code *)

Definition keeps_code (a b : string) : Prop := code_lines a `sublist_of` code_lines b.

Lemma inserted_before_keeps marker content text text' : inserted_before marker content text = Some text' -> keeps_code text text'.
Proof.
  unfold inserted_before. destruct (find_index _ _) as [i |]; [| done]. intros [= <-].
  apply code_lines_sublist. rewrite split_splice. apply sublist_around.
Qed.

Lemma inserted_after_keeps test content text text' : inserted_after_last test content text = Some text' -> keeps_code text text'.
Proof.
  unfold inserted_after_last. destruct (find_last_index _ _) as [i |]; [| done]. intros [= <-].
  apply code_lines_sublist. rewrite split_splice. apply sublist_around.
Qed.

Lemma with_imports_keeps lines text : keeps_code text (with_imports lines text).
Proof.
  unfold with_imports. destruct (find_last_index _ _) as [i |]; apply code_lines_sublist.
  - rewrite split_splice. apply sublist_around.
  - rewrite split_lines_break. by apply sublist_inserts_l.
Qed.

Lemma with_export_keeps line text : keeps_code text (with_export line text).
Proof.
  unfold keeps_code, with_export. rewrite code_lines_break, code_lines_trim_end. by apply sublist_inserts_r.
Qed.

(** A run that keeps the code of every file, however it ends. *)
Definition files_kept (c c' : Cli) : Prop :=
  forall p text, cl_files c !! p = Some text -> exists text', cl_files c' !! p = Some text' /\ keeps_code text text'.

#[export] Instance keeps_code_preorder : PreOrder keeps_code.
Proof. split; [by intros a; unfold keeps_code | intros a b d; unfold keeps_code; by etransitivity]. Qed.

#[export] Instance files_kept_preorder : PreOrder files_kept.
Proof.
  split; [intros c p text H; by exists text |].
  intros c c' c'' H1 H2 p text H. destruct (H1 p text H) as (t' & H' & K1). destruct (H2 p t' H') as (t'' & H'' & K2).
  exists t''. split; [done | by etransitivity].
Qed.

Definition keeping {A} (m : M Cli A) : Prop := forall c, files_kept c (snd (m c)).

Create HintDb keeping.

Lemma keeping_ret {A} (a : A) : keeping (ret a). Proof. intros c. reflexivity. Qed.
Lemma keeping_lift {A} (r : result A) : keeping (lift_result r). Proof. intros c. reflexivity. Qed.
Lemma keeping_log line : keeping (console_log line). Proof. intros c p text H. by exists text. Qed.
Lemma keeping_updated relative p : keeping (updated relative p). Proof. apply keeping_log. Qed.

Lemma keeping_bind {A B} (m : M Cli A) (k : A -> M Cli B) : keeping m -> (forall a, keeping (k a)) -> keeping (bind m k).
Proof.
  intros Hm Hk c. specialize (Hm c). unfold bind. destruct (m c) as [[a | e] c']; [| done].
  cbn [snd] in Hm. etransitivity; [exact Hm | apply Hk].
Qed.

Lemma keeping_read p : keeping (readFile p).
Proof. intros c. unfold readFile, bind, gets. by destruct (cl_files c !! p). Qed.

Lemma keeping_contains p search : keeping (fileContains p search).
Proof. apply keeping_bind; [apply keeping_read | intros; apply keeping_ret]. Qed.

(** A file that is read and written again keeps its code when the new text does. *)
Lemma keeping_edit {A} p (k : string -> M Cli A) :
  (forall text c, cl_files c !! p = Some text -> files_kept c (snd (k text c))) -> keeping (text <- readFile p ;; k text).
Proof.
  intros Hk c. unfold readFile, bind, gets. destruct (cl_files c !! p) as [text |] eqn:E; [by apply Hk | done].
Qed.

Lemma write_kept p text text' (c : Cli) : cl_files c !! p = Some text -> keeps_code text text' -> files_kept c (snd (writeFile p text' c)).
Proof.
  intros E Hk q t Hq. cbn. destruct (decide (p = q)) as [<- | Hne].
  - rewrite lookup_insert_eq. exists text'. split; [done |]. congruence.
  - rewrite lookup_insert_ne by done. by exists t.
Qed.

Lemma keeping_insert_before p marker content : keeping (insertBeforeMarker p marker content).
Proof.
  apply keeping_edit. intros text c E. destruct (inserted_before marker content text) as [t |] eqn:Ei; [| reflexivity].
  unfold bind. by apply (write_kept p text), inserted_before_keeps with marker content.
Qed.

Lemma keeping_insert_after p test content : keeping (insertAfterLastMatch p test content).
Proof.
  apply keeping_edit. intros text c E. destruct (inserted_after_last test content text) as [t |] eqn:Ei; [| reflexivity].
  unfold bind. by apply (write_kept p text), inserted_after_keeps with test content.
Qed.

Lemma keeping_barrel p line : keeping (appendToBarrel p line).
Proof. apply keeping_edit. intros text c E. by apply (write_kept p text), with_export_keeps. Qed.

Lemma keeping_imports p lines : keeping (insertImports p lines).
Proof. apply keeping_edit. intros text c E. by apply (write_kept p text), with_imports_keeps. Qed.

Lemma keeping_write_files relative dir files : keeping (write_files relative dir files).
Proof.
  intros c p text H. destruct (write_files_spec relative dir files c) as [log ->]. exists text. split; [| reflexivity].
  by apply written_keeps.
Qed.

#[export] Hint Resolve keeping_ret keeping_lift keeping_log keeping_updated keeping_bind keeping_read keeping_contains
  keeping_insert_before keeping_insert_after keeping_barrel keeping_imports keeping_write_files : keeping.

Ltac keep := repeat (apply keeping_bind; [auto with keeping | intros]); auto with keeping.

Lemma keeping_if {A} (b : bool) (m m' : M Cli A) : keeping m -> keeping m' -> keeping (if b then m else m').
Proof. by destruct b. Qed.

(** ** Texts that are found again *)

Lemma includes_line l ls : l ∈ ls -> includes l (join_lines ls) = true.
Proof.
  induction ls as [| l' ls IH]; [by intros ?%not_elem_of_nil |]. intros H. destruct ls as [| l'' ls].
  - apply list_elem_of_singleton in H as ->. apply includes_spec. exists EmptyString, EmptyString. by rewrite append_nil_r.
  - rewrite join_lines_cons. apply elem_of_cons in H as [-> | H]; [by apply (includes_app l' EmptyString) |].
    apply IH, includes_spec in H as (a & r & ->). apply includes_spec. exists (l' ++ line_break ++ a), r. by rewrite !append_assoc.
Qed.

Lemma glue_elem ls m ms l : last ls = Some l -> (l ++ m) ∈ glue ls (m :: ms).
Proof.
  induction ls as [| l' ls IH]; [done |]. destruct ls as [| l'' ls]; [intros [= ->]; left |].
  intros H. right. by apply IH.
Qed.

(** A text without line breaks that is in a text is in one of its lines. *)
Lemma includes_in_line sub s : newline_free sub -> includes sub s = true -> exists l, l ∈ split_lines s /\ includes sub l = true.
Proof.
  intros Hs (a & r & ->)%includes_spec. rewrite !split_lines_app, Hs.
  destruct (split_lines_cons a) as (x & xs & ->), (split_lines_cons r) as (m & ms & ->).
  change (glue [sub] (m :: ms)) with ((sub ++ m) :: ms).
  destruct (last (x :: xs)) as [l |] eqn:El; [| by apply last_None in El].
  exists (l ++ sub ++ m). split; [by apply glue_elem | apply includes_app].
Qed.

Lemma line_includes sub s l : l ∈ split_lines s -> includes sub l = true -> includes sub s = true.
Proof.
  intros Hl Hs. apply (includes_trans _ l); [done |].
  assert (E : join_lines (split_lines s) = s).
  { clear. induction s as [| c s IH]; [done |]. cbn [split_lines]. destruct (Ascii.eqb_spec c (Ascii.ascii_of_nat 10)) as [-> | _].
    - destruct (split_lines_cons s) as (x & xs & Ex). rewrite Ex in *. rewrite join_lines_cons, IH. done.
    - destruct (split_lines_cons s) as (x & xs & Ex). rewrite Ex in *. destruct xs; rewrite <- IH; done. }
  rewrite <- E. by apply includes_line.
Qed.

Section found.
Context (sub : string) (Hsub : newline_free sub).

Lemma splice_includes i line text : includes sub text = true -> includes sub (join_lines (splice i line (split_lines text))) = true.
Proof.
  intros (l & Hl & Hi)%includes_in_line; [| done]. apply (line_includes sub _ l); [| done]. rewrite split_splice.
  rewrite <- (take_drop i (split_lines text)) in Hl. rewrite !elem_of_app in *. tauto.
Qed.

Lemma inserted_before_includes marker content text text' :
  inserted_before marker content text = Some text' -> includes sub text = true -> includes sub text' = true.
Proof. unfold inserted_before. destruct (find_index _ _); [| done]. intros [= <-]. apply splice_includes. Qed.

Lemma inserted_after_includes test content text text' :
  inserted_after_last test content text = Some text' -> includes sub text = true -> includes sub text' = true.
Proof. unfold inserted_after_last. destruct (find_last_index _ _); [| done]. intros [= <-]. apply splice_includes. Qed.

Lemma with_imports_includes lines text : includes sub text = true -> includes sub (with_imports lines text) = true.
Proof.
  unfold with_imports. destruct (find_last_index _ _); [apply splice_includes |].
  intros (a & r & ->)%includes_spec. apply includes_spec. exists (lines ++ line_break ++ a), r. by rewrite !append_assoc.
Qed.
End found.

Lemma with_imports_new lines text : includes lines (with_imports lines text) = true.
Proof.
  unfold with_imports. destruct (find_last_index _ _) as [i |]; [| by apply (includes_app lines EmptyString)].
  apply includes_line. unfold splice. rewrite elem_of_app. right. left.
Qed.

(** [sub] is found in the file at [p]. *)
Definition found (p : path) (sub : string) (c : Cli) : Prop := exists text, cl_files c !! p = Some text /\ includes sub text = true.

(** Runs after which what was found is still found. *)
Definition finding {A} (p : path) (sub : string) (m : M Cli A) : Prop := forall c, found p sub c -> found p sub (snd (m c)).

Create HintDb finding.

Lemma finding_bind {A B} p sub (m : M Cli A) (k : A -> M Cli B) : finding p sub m -> (forall a, finding p sub (k a)) -> finding p sub (bind m k).
Proof. intros Hm Hk c Hc. specialize (Hm c Hc). unfold bind. destruct (m c) as [[a | e] c']; [by apply Hk | done]. Qed.

Lemma finding_quiet {A} p sub (m : M Cli A) : (forall c, cl_files (snd (m c)) = cl_files c) -> finding p sub m.
Proof. intros H c (t & Ht & Hi). exists t. by rewrite H. Qed.

Lemma finding_ret {A} p sub (a : A) : finding p sub (ret a). Proof. by apply finding_quiet. Qed.
Lemma finding_updated p sub relative q : finding p sub (updated relative q). Proof. by apply finding_quiet. Qed.

Lemma finding_edit {A} p q sub (k : string -> M Cli A) :
  (forall text c, cl_files c !! q = Some text -> found p sub c -> found p sub (snd (k text c))) -> finding p sub (text <- readFile q ;; k text).
Proof. intros Hk c Hc. unfold readFile, bind, gets. destruct (cl_files c !! q) as [text |] eqn:E; [by apply Hk | done]. Qed.

Lemma write_found p q sub text text' (c : Cli) : cl_files c !! q = Some text -> (p = q -> includes sub text = true -> includes sub text' = true) ->
  found p sub c -> found p sub (snd (writeFile q text' c)).
Proof.
  intros E Hk (t & Ht & Hi). cbn. destruct (decide (p = q)) as [<- | Hne].
  - exists text'. cbn. rewrite lookup_insert_eq. split; [done |]. apply Hk; [done |]. congruence.
  - exists t. cbn. by rewrite lookup_insert_ne.
Qed.

Lemma finding_insert_before p q sub marker content : newline_free sub -> finding p sub (insertBeforeMarker q marker content).
Proof.
  intros Hs. apply finding_edit. intros text c E Hf. destruct (inserted_before marker content text) as [t |] eqn:Ei; [| done].
  unfold bind. apply (write_found p q sub text); [done | | done]. intros _. by apply inserted_before_includes with marker content.
Qed.

Lemma finding_insert_after p q sub test content : newline_free sub -> finding p sub (insertAfterLastMatch q test content).
Proof.
  intros Hs. apply finding_edit. intros text c E Hf. destruct (inserted_after_last test content text) as [t |] eqn:Ei; [| done].
  unfold bind. apply (write_found p q sub text); [done | | done]. intros _. by apply inserted_after_includes with test content.
Qed.

Lemma finding_imports p q sub lines : newline_free sub -> finding p sub (insertImports q lines).
Proof. intros Hs. apply finding_edit. intros text c E Hf. apply (write_found p q sub text); [done | intros _; by apply with_imports_includes | done]. Qed.

Lemma finding_barrel p q sub line : p <> q -> finding p sub (appendToBarrel q line).
Proof. intros Hne. apply finding_edit. intros text c E Hf. by apply (write_found p q sub text). Qed.

Lemma finding_write_files p sub relative dir files : finding p sub (write_files relative dir files).
Proof.
  intros c (t & Ht & Hi). destruct (write_files_spec relative dir files c) as [log ->]. exists t. split; [by apply written_keeps | done].
Qed.

#[export] Hint Resolve finding_ret finding_updated finding_insert_before finding_insert_after finding_imports finding_write_files : finding.

Ltac find := repeat (apply finding_bind; [auto with finding | intros]); auto with finding.

(** C31. Extending a module never loses code.  Whatever the arguments, and whether the command
    succeeds, finds that there is nothing to do or fails half-way, every file that was there is
    there after it, with all its lines that are not blank, in their order, up to white space at
    their end. *)
Theorem add_keeps_code (relative : path -> string) (name eventName : chars) (dir : path) (c : Cli) :
  files_kept c (snd (addCommandToAggregate relative name dir eventName c)) /\
  files_kept c (snd (addQueryToProjection relative name dir c)) /\
  files_kept c (snd (addEventHandlerToProjection relative eventName dir c)).
Proof.
  split; [| split].
  - revert c. change (keeping (addCommandToAggregate relative name dir eventName)). unfold addCommandToAggregate, extend_definition.
    keep. apply keeping_if; keep.
  - revert c. change (keeping (addQueryToProjection relative name dir)). unfold addQueryToProjection.
    keep. apply keeping_if; keep. apply keeping_if; keep.
  - revert c. change (keeping (addEventHandlerToProjection relative eventName dir)). unfold addEventHandlerToProjection.
    keep. apply keeping_if; keep. apply keeping_if; keep.
Qed.

(** ** A second run *)

Lemma read_found p sub c : found p sub c -> fileContains p sub c = (Ok true, c).
Proof. intros (t & Ht & Hi). unfold fileContains, readFile, bind, gets. rewrite Ht. by unfold ret; rewrite Hi. Qed.

Lemma found_trans p a b c : includes a b = true -> found p b c -> found p a c.
Proof. intros H (t & Ht & Hi). exists t. split; [done | by eapply includes_trans]. Qed.

Lemma imports_found p lines c u c' : insertImports p lines c = (Ok u, c') -> found p lines c'.
Proof.
  unfold insertImports, readFile, bind, gets. destruct (cl_files c !! p) as [text |]; [| done]. intros [= <- <-].
  exists (with_imports lines text). cbn. rewrite lookup_insert_eq. split; [done | apply with_imports_new].
Qed.

(** What a step that succeeds has put in a file is there at the end of a run that keeps it. *)
Lemma found_later {A B} (m : M Cli A) (k : A -> M Cli B) p sub c b c' :
  bind m k c = (Ok b, c') -> (forall a c1, m c = (Ok a, c1) -> found p sub c1) -> (forall a, finding p sub (k a)) -> found p sub c'.
Proof.
  intros (a & c1 & Hm & Hk)%bind_inv_ok Hf Hkeep. specialize (Hkeep a c1 (Hf a c1 Hm)). by rewrite Hk in Hkeep.
Qed.

(** Steps whose files do not matter. *)
Lemma after_step {A B} (m : M Cli A) (k : A -> M Cli B) p sub c b c' :
  bind m k c = (Ok b, c') -> (forall a c1, k a c1 = (Ok b, c') -> found p sub c') -> found p sub c'.
Proof. intros (a & c1 & _ & Hk)%bind_inv_ok H. by eapply H. Qed.

Lemma newline_free_cat a b : newline_free a -> newline_free b -> newline_free (a ++ b).
Proof. unfold newline_free. intros Ha Hb. by rewrite split_lines_app, Ha, Hb. Qed.

Lemma event_import_includes event : includes ("on" ++ event) (quoted_import EmptyString ("on" ++ event) "./on-entries/index.js") = true.
Proof. apply (includes_app _ "import { "). Qed.

Lemma event_handler_found relative eventName dir c c' :
  newline_free (string_of eventName) ->
  addEventHandlerToProjection relative eventName dir c = (Ok tt, c') ->
  found (dir ++ [(string_of (tc_kebabName (buildContext (basename dir))) ++ ".ts")%string])%list ("on" ++ string_of eventName) c'.
Proof.
  intros Hfree H. assert (Hsub : newline_free ("on" ++ string_of eventName)) by by apply newline_free_cat.
  unfold addEventHandlerToProjection in H. set (p := (dir ++ _)%list) in *.
  apply bind_inv_ok in H as ([] & c0 & _ & H). apply bind_inv_ok in H as (present & c1 & Hc & H).
  unfold fileContains, readFile, bind, gets in Hc. destruct (cl_files c0 !! p) as [text |] eqn:Et; [| done].
  injection Hc as <- <-. destruct (includes ("on" ++ string_of eventName) text) eqn:Ei.
  { injection H as <-. by exists text. }
  do 3 (eapply after_step; [exact H |]; clear H; intros ? ? H).
  cbv beta in H. apply (found_later _ _ p _ _ _ _ H); clear H.
  - intros u cx Hi. apply (found_trans p _ _ cx (event_import_includes (string_of eventName))). by eapply imports_found.
  - intros u. apply finding_bind; [auto with finding |]. intros inserted. apply finding_bind; [| auto with finding].
    destruct (negb inserted); find.
Qed.

(** Adding the same event handler again changes no file. *)
Lemma add_event_handler_twice relative eventName dir c c' :
  newline_free (string_of eventName) ->
  addEventHandlerToProjection relative eventName dir c = (Ok tt, c') ->
  exists log, addEventHandlerToProjection relative eventName dir c' = (Ok tt, {| cl_files := cl_files c'; cl_log := log |}).
Proof.
  intros Hfree H. pose proof (event_handler_found _ _ _ _ _ Hfree H) as Hf.
  assert (Hv : validateName eventName = Ok tt).
  { unfold addEventHandlerToProjection in H. apply bind_inv_ok in H as ([] & c0 & Hv & _). by injection Hv. }
  unfold addEventHandlerToProjection. rewrite Hv. unfold bind at 1, lift_result. unfold bind at 1. rewrite (read_found _ _ _ Hf).
  by eexists.
Qed.

Lemma newline_free_chars s : Forall (fun c => Ascii.eqb c (Ascii.ascii_of_nat 10) = false) (chars_of s) -> newline_free s.
Proof.
  unfold newline_free. induction s as [| c s IH]; [done |]. cbn. intros H. inversion H as [| ? ? Hc Hs]; subst. by rewrite Hc, IH.
Qed.

Lemma case_space c : (is_space (upper c) = is_space c) /\ (is_space (lower c) = is_space c).
Proof. by_char. Qed.

Lemma pascal_no_space s : Forall (fun c => is_space c = false) (toPascalCase s).
Proof.
  unfold toPascalCase. apply Forall_concat, Forall_map. eapply Forall_impl; [apply splitWords_clean |].
  intros w [_ Hw]. destruct w as [| a w]; [constructor |]. inversion Hw as [| ? ? [Ha _] Hws]; subst. constructor.
  - by rewrite (proj1 (case_space a)).
  - apply Forall_map. eapply Forall_impl; [exact Hws |]. intros b [Hb _]. by rewrite (proj2 (case_space b)).
Qed.

Lemma not_space_not_newline c : is_space c = false -> Ascii.eqb c (Ascii.ascii_of_nat 10) = false.
Proof. by_char. Qed.

Lemma pascal_newline_free s : newline_free (string_of (toPascalCase s)).
Proof.
  apply newline_free_chars. rewrite chars_of_string_of. eapply Forall_impl; [apply pascal_no_space |]. apply not_space_not_newline.
Qed.

Lemma upper_not_space c : is_upper c = true -> is_space c = false. Proof. by_char. Qed.

Definition command_marker : string := "// TODO: add more commands".

Lemma find_index_some test ls l : l ∈ ls -> test l = true -> exists i, find_index test ls = Some i.
Proof.
  intros Hl Ht. induction ls as [| x ls IH]; [by apply not_elem_of_nil in Hl |]. cbn. destruct (test x) eqn:Ex; [by exists O |].
  apply elem_of_cons in Hl as [-> | Hl]; [congruence |]. destruct (IH Hl) as [i ->]. by exists (S i).
Qed.

(** A line put before a marker that is there is found afterwards. *)
Lemma insert_before_found p marker content sub c b c' :
  newline_free marker -> newline_free content -> trim (chars_of content) <> [] -> includes sub (trim_start content) = true ->
  found p marker c -> insertBeforeMarker p (includes marker) content c = (Ok b, c') -> found p sub c'.
Proof.
  intros Hm Hc Ht Hs (text & E & Hi) H. unfold insertBeforeMarker, readFile, bind, gets in H. rewrite E in H. cbn [ret] in H.
  destruct (includes_in_line marker text Hm Hi) as (l & Hl & Hml). destruct (find_index_some (includes marker) _ l Hl Hml) as [i Hf].
  unfold inserted_before, ret in H. rewrite Hf in H. injection H as <- <-. eexists. cbn. rewrite lookup_insert_eq. split; [reflexivity |].
  set (indent := indent_of (nth i (split_lines text) EmptyString)).
  assert (Hind : indented indent content = indent ++ trim_start content).
  { unfold indented. rewrite Hc. cbn. destruct (trim (chars_of content)); done. }
  rewrite Hind. apply (includes_trans _ (indent ++ trim_start content)).
  - apply (includes_trans _ (trim_start content)); [done |]. apply includes_spec. exists indent, EmptyString. by rewrite append_nil_r.
  - apply includes_line. unfold splice. rewrite elem_of_app. right. left.
Qed.

Lemma command_line_trimmed a rest more : is_upper a = true ->
  trim_start ("  " ++ string_of (a :: rest) ++ more) = string_of (a :: rest) ++ more /\
  trim (chars_of ("  " ++ string_of (a :: rest) ++ more)) <> [].
Proof.
  intros Ha. apply upper_not_space in Ha.
  assert (E : trimStart (chars_of ("  " ++ string_of (a :: rest) ++ more)) = a :: chars_of (string_of rest ++ more)).
  { change (trimStart (a :: chars_of (string_of rest ++ more)) = a :: chars_of (string_of rest ++ more)). cbn. by rewrite Ha. }
  split.
  - unfold trim_start. rewrite E. change (string_of (a :: rest) ++ more) with (String a (string_of rest ++ more)).
    cbn. f_equal. apply string_of_chars_of.
  - unfold trim. rewrite E. unfold trimEnd. cbn [rev]. intros H. apply (f_equal (@rev _)) in H. rewrite rev_involutive in H.
    assert (Hlast : forall l, trimStart (l ++ [a])%list <> []).
    { induction l as [| x l IH]; cbn; [by rewrite Ha |]. by destruct (is_space x). }
    by apply (Hlast _ H).
Qed.

Lemma finding_ok {A} p sub (m : M Cli A) c a c' : found p sub c -> m c = (Ok a, c') -> finding p sub m -> found p sub c'.
Proof. intros Hf Hm Hk. specialize (Hk c Hf). by rewrite Hm in Hk. Qed.

Lemma extend_found p commandName ckebab eventName c c' :
  validateName commandName = Ok tt ->
  let cname := string_of (toPascalCase commandName) in
  found p command_marker c -> extend_definition p cname ckebab eventName c = (Ok tt, c') -> found p (cname ++ ":") c'.
Proof.
  intros Hv cname Hm H. assert (Hsub : newline_free (cname ++ ":")) by (apply newline_free_cat; [apply pascal_newline_free | done]).
  assert (Hup : exists a rest, toPascalCase commandName = a :: rest /\ is_upper a = true).
  { unfold validateName in Hv. destruct (toPascalCase commandName) as [| a rest]; [done |]. exists a, rest. by destruct (is_upper a). }
  destruct Hup as (a & rest & Ea & Ha).
  unfold extend_definition in H. apply bind_inv_ok in H as ([] & c1 & H1 & H). eapply finding_ok in Hm; [| exact H1 | by apply finding_imports].
  clear H1. apply (found_later _ _ p _ _ _ _ H); clear H.
  - intros b c2 H2. apply (insert_before_found p command_marker ("  " ++ cname ++ ": " ++ cname ++ "Payload;") _ c1 b c2); try done.
    + apply newline_free_cat; [done |]. apply newline_free_cat; [apply pascal_newline_free |].
      apply newline_free_cat; [done |]. by apply newline_free_cat; [apply pascal_newline_free |].
    + subst cname. rewrite Ea. by apply command_line_trimmed.
    + subst cname. rewrite Ea. rewrite (proj1 (command_line_trimmed a rest _ Ha)). apply includes_spec.
      exists EmptyString. eexists. by rewrite append_assoc.
  - intros b. find.
Qed.

Lemma command_found relative commandName eventName dir c c' :
  found (dir ++ [(string_of (tc_kebabName (buildContext (basename dir))) ++ ".ts")%string])%list command_marker c ->
  addCommandToAggregate relative commandName dir eventName c = (Ok tt, c') ->
  found (dir ++ [(string_of (tc_kebabName (buildContext (basename dir))) ++ ".ts")%string])%list
    (string_of (toPascalCase commandName) ++ ":") c'.
Proof.
  intros Hmark H. unfold addCommandToAggregate in H. set (p := (dir ++ _)%list) in *.
  set (cname := string_of (tc_name (buildContext commandName))) in *. change (string_of (toPascalCase commandName)) with cname.
  apply bind_inv_ok in H as ([] & c0 & Hv & H). injection Hv as Hv <-. apply bind_inv_ok in H as ([] & c0 & Hv' & H). injection Hv' as _ <-.
  destruct Hmark as (text & Et & Hm). apply bind_inv_ok in H as (present & c1 & Hc & H).
  unfold fileContains, readFile, bind, gets, ret in Hc. rewrite Et in Hc. injection Hc as <- <-.
  destruct (includes (cname ++ ":") text) eqn:Ei; [injection H as <-; by exists text |].
  assert (Hsub : newline_free (cname ++ ":")) by (apply newline_free_cat; [apply pascal_newline_free | done]).
  assert (Hne : forall a b : string, p <> (dir ++ [a; b])%list) by (intros a b E; apply app_inv_head in E; discriminate E).
  assert (Hpre : found p command_marker c) by by exists text.
  do 7 (apply bind_inv_ok in H as (? & ? & Hx & H); eapply finding_ok in Hpre;
    [| exact Hx | first [by apply finding_write_files | by apply finding_barrel | by apply finding_updated]]; clear Hx).
  apply bind_inv_ok in H as ([] & cy & Hx & H). eapply finding_ok; [| exact H | apply finding_updated].
  by eapply (extend_found p commandName).
Qed.

(** Extending a module twice with the same thing changes no file the second time: an event
    handler always, since its import is found in the projection's file; a command when the
    aggregate's file has the line that marks the end of the commands, which the template has. *)
Theorem add_twice (relative : path -> string) (name eventName : chars) (dir : path) (c c' : Cli) :
  (newline_free (string_of eventName) ->
   addEventHandlerToProjection relative eventName dir c = (Ok tt, c') ->
   exists log, addEventHandlerToProjection relative eventName dir c' = (Ok tt, {| cl_files := cl_files c'; cl_log := log |})) /\
  (found (dir ++ [(string_of (tc_kebabName (buildContext (basename dir))) ++ ".ts")%string])%list command_marker c ->
   addCommandToAggregate relative name dir eventName c = (Ok tt, c') ->
   exists log, addCommandToAggregate relative name dir eventName c' = (Ok tt, {| cl_files := cl_files c'; cl_log := log |})).
Proof.
  split; [apply add_event_handler_twice |]. intros Hm H. pose proof (command_found _ _ _ _ _ _ Hm H) as Hf.
  assert (Hv : validateName name = Ok tt /\ validateName eventName = Ok tt).
  { unfold addCommandToAggregate in H. apply bind_inv_ok in H as ([] & c0 & Hv & H). apply bind_inv_ok in H as ([] & c1 & Hv' & _).
    by injection Hv; injection Hv'. }
  destruct Hv as [Hv Hv']. unfold addCommandToAggregate. rewrite Hv, Hv'. do 2 (unfold bind at 1, lift_result). unfold bind at 1.
  change (tc_name (buildContext name)) with (toPascalCase name). rewrite (read_found _ _ _ Hf). by eexists.
Qed.

(** ** A projection and an aggregate that were just generated *)

Definition joined : path -> string := String.concat "/".
Definition generated (g : generator) : Cli := snd (run joined (fun m => m) 1 g (chars_of "BankAccount") ["work"] empty_cli).
Definition module_dir : path := ["work"; "bank-account"].

Lemma add_twice_witness :
  let c := generated new_projection in
  let c' := snd (addEventHandlerToProjection joined (chars_of "MoneyDeposited") module_dir c) in
  (exists log, addEventHandlerToProjection joined (chars_of "MoneyDeposited") module_dir c' = (Ok tt, {| cl_files := cl_files c'; cl_log := log |})) /\
  found (module_dir ++ ["bank-account.ts"])%list command_marker (generated new_aggregate).
Proof.
  intros c c'. split.
  - apply (proj1 (add_twice joined (chars_of "Unused") (chars_of "MoneyDeposited") module_dir c c')); [reflexivity |].
    rewrite (surjective_pairing (addEventHandlerToProjection joined (chars_of "MoneyDeposited") module_dir c)).
    apply (f_equal (fun r => (r, c'))). vm_compute. reflexivity.
  - exists (render_module (instantiate (of_context (buildContext (chars_of "BankAccount"))) aggregateTemplate)).
    split; vm_compute; reflexivity.
Defined.

(** The commented lines of a generated projection mention the handler of the event that the
    aggregate of the same name emits, so that this event is taken for one that is there. *)
Example created_event_is_skipped :
  let c := generated new_projection in
  let c' := snd (addEventHandlerToProjection joined (chars_of "BankAccountCreated") module_dir c) in
  cl_files c' = cl_files c /\
  last (cl_log c') = Some ("  Skipped — event handler " ++ quoted "onBankAccountCreated" ++ " already exists in BankAccountProjection").
Proof. split; [apply (bool_decide_eq_true_1 _) |]; vm_compute; reflexivity. Qed.

(** The name of an event is used as it was given. *)
Example event_name_as_given :
  let c' := snd (addEventHandlerToProjection joined (chars_of "money-deposited") module_dir (generated new_projection)) in
  option_map split_lines (cl_files c' !! (module_dir ++ ["on-entries"; "index.ts"])%list) =
    Some ["export { onBankAccountCreated } from " ++ quoted "./on-bank-account-created.js" ++ ";";
          "export { onmoney-deposited } from " ++ quoted "./on-money-deposited.js" ++ ";"; EmptyString].
Proof. vm_compute. reflexivity. Qed.

(** A command whose name ends an existing entry is taken for one that is there. *)
Example command_suffix_is_skipped :
  let c := generated new_aggregate in
  cl_files (snd (addCommandToAggregate joined (chars_of "Account") module_dir (chars_of "AccountOpened") c)) = cl_files c.
Proof. apply (bool_decide_eq_true_1 _). vm_compute. reflexivity. Qed.

(** After a command and its event were added. *)
Example added_command :
  let c' := snd (addCommandToAggregate joined (chars_of "deposit-money") module_dir (chars_of "MoneyDeposited") (generated new_aggregate)) in
  option_map (fun t => List.filter (fun l => includes "DepositMoney" l || includes "MoneyDeposited" l) (split_lines t))
    (cl_files c' !! (module_dir ++ ["bank-account.ts"])%list) =
  Some ["import type { DepositMoneyPayload } from " ++ quoted "./commands/deposit-money.js" ++ ";";
        "import { decideDepositMoney } from " ++ quoted "./deciders/index.js" ++ ";";
        "import { evolveMoneyDeposited } from " ++ quoted "./evolvers/index.js" ++ ";";
        "  MoneyDeposited: { id: string };";
        "  DepositMoney: DepositMoneyPayload;";
        "    DepositMoney: decideDepositMoney,";
        "    MoneyDeposited: evolveMoneyDeposited,"].
Proof. vm_compute. reflexivity. Qed.
