(* ===== verification/CliCommands.v ===== *)
(** The commands of the tool (packages/cli/src/commands/new.ts and add.ts, utils/project.ts,
    utils/discovery.ts, and the prompt of utils/event-naming.ts): how they find the directory
    that they work in, and that what one command has generated the others can extend.  The
    questions to the user are arguments. *)
From stdpp Require Import gmap.
From S2P Require Import Prelude Text JsMap Naming Templates Scaffold AddGenerators.
Local Open Scope string_scope.

(** ** Directories *)

(** A directory is there when a file is below it. *)
Definition below (dir p : path) : bool := bool_decide (take (length dir) p = dir) && (length dir <? length p)%nat.
Definition dir_exists (dir : path) (c : Cli) : bool := existsb (fun e => below dir (fst e)) (map_to_list (cl_files c)).
Definition file_exists (p : path) (c : Cli) : bool := match cl_files c !! p with Some _ => true | None => false end.

(** [access] finds files and directories. *)
Definition accessible (p : path) (c : Cli) : bool := file_exists p c || dir_exists p c.

(** The directories in a directory, each once; their order, which the system chooses, is that of
    the map. *)
Definition subdirectories (dir : path) (c : Cli) : list string :=
  remove_dups (omap (fun e => if below dir (fst e) && (S (length dir) <? length (fst e))%nat then nth_error (fst e) (length dir) else None)
                (map_to_list (cl_files c))).

(** *** utils/project.ts *)

Inductive kind : Type := aggregate_kind | projection_kind | saga_kind.

Definition STRUCTURE_PATHS (k : kind) : path :=
  match k with
  | aggregate_kind => ["src"; "domain"; "write-model"; "aggregates"]
  | projection_kind => ["src"; "domain"; "read-model"; "projections"]
  | saga_kind => ["src"; "domain"; "process-model"]
  end.

Definition slashed (p : path) : string := String.concat "/" p.

Definition resolveProjectPath (cwd : path) (k : kind) : M Cli path :=
  let expectedDir := (cwd ++ STRUCTURE_PATHS k)%list in
  present <- gets (accessible expectedDir) ;;
  if present then ret expectedDir
  else throw (PlainError ("Directory " ++ quoted (slashed (STRUCTURE_PATHS k)) ++ " not found." ++ line_break ++
    "Run this command from your project root, or scaffold a project first with:" ++ line_break ++ line_break ++
    "  noddde new project <name>" ++ line_break)).

(** *** utils/discovery.ts *)

Record DiscoveredModule : Type := { dm_name : string; dm_dir : path }.

Definition ENOTDIR (p : path) : js_error :=
  DriverError [("code", VStr "ENOTDIR"); ("message", VStr ("ENOTDIR: not a directory, scandir '/" ++ slashed p ++ "'"))].

Definition discover (base : path) : M Cli (list DiscoveredModule) :=
  found <- gets (accessible base) ;;
  if found then
    is_file <- gets (file_exists base) ;;
    if (is_file : bool) then throw (ENOTDIR base)
    else gets (fun c =>
      omap (fun entry =>
        if accessible (base ++ [entry; (entry ++ ".ts")%string])%list c
        then Some {| dm_name := string_of (toPascalCase (chars_of entry)); dm_dir := (base ++ [entry])%list |}
        else None) (subdirectories base c))
  else ret [].

Definition discoverAggregates (cwd : path) : M Cli (list DiscoveredModule) := discover (cwd ++ STRUCTURE_PATHS aggregate_kind)%list.
Definition discoverProjections (cwd : path) : M Cli (list DiscoveredModule) := discover (cwd ++ STRUCTURE_PATHS projection_kind)%list.

(** [what] is the word of the messages: Aggregate or Projection.  [select] asks the user. *)
Definition resolve_dir (what command : string) (k : kind) (cwd : path) (select : list DiscoveredModule -> M Cli path)
    (nameHint : option chars) : M Cli DiscoveredModule :=
  let base := (cwd ++ STRUCTURE_PATHS k)%list in
  match nameHint with
  | Some ((_ :: _) as hint) =>
      let dir := (base ++ [string_of (toKebabCase hint)])%list in
      present <- gets (accessible dir) ;;
      if present then ret {| dm_name := string_of (toPascalCase hint); dm_dir := dir |}
      else throw (PlainError (what ++ " " ++ quoted (string_of hint) ++ " not found at /" ++ slashed dir ++ "." ++ line_break ++
        "Create it first with: noddde new " ++ command ++ " " ++ string_of hint ++ line_break))
  | _ =>
      modules <- discover base ;;
      match modules with
      | [] => throw (PlainError ("No " ++ command ++ "s found in " ++ slashed (STRUCTURE_PATHS k) ++ "." ++ line_break ++
          "Create one first with: noddde new " ++ command ++ " <name>" ++ line_break))
      | _ =>
          chosen <- select modules ;;
          match List.find (fun m => bool_decide (dm_dir m = chosen)) modules with
          | Some m => ret m
          | None => throw (TypeError "Cannot destructure property 'dir' of undefined")
          end
      end
  end.

Definition resolveAggregateDir := resolve_dir "Aggregate" "aggregate" aggregate_kind.
Definition resolveProjectionDir := resolve_dir "Projection" "projection" projection_kind.

(** *** commands/new.ts *)

Inductive new_command : Type := NewAggregate | NewProjection | NewSaga | NewDomain | NewProject.

Section commands.
Context (relative : path -> string) (sort : jsmap string -> jsmap string) (major : Z) (cwd : path).
Context (promptPersistenceAdapter : M Cli PersistenceAdapter) (promptEventBusAdapter : M Cli EventBusAdapter).
Context (select : list DiscoveredModule -> M Cli path) (input : string -> string -> M Cli string).

Definition new_action (command : new_command) (name : chars) : M Cli unit :=
  match command with
  | NewAggregate => basePath <- resolveProjectPath cwd aggregate_kind ;; generateAggregate relative name basePath
  | NewProjection => basePath <- resolveProjectPath cwd projection_kind ;; generateProjection relative name basePath
  | NewSaga => basePath <- resolveProjectPath cwd saga_kind ;; generateSaga relative name basePath
  | NewDomain => generateDomain relative name cwd
  | NewProject =>
      adapter <- promptPersistenceAdapter ;;
      eventBus <- promptEventBusAdapter ;;
      generateProject relative sort major name cwd adapter eventBus
  end.

(** *** commands/add.ts *)

Definition promptEventName (commandName : chars) : M Cli chars :=
  let derived := deriveEventName commandName in
  result <- input ("Event name for " ++ quoted (string_of commandName) ++ "?") (string_of derived) ;;
  ret (toPascalCase (chars_of result)).

Definition add_command_action (name : chars) (aggregate event : option chars) : M Cli unit :=
  lift_result (validateName name) ;;;
  m <- resolveAggregateDir cwd select aggregate ;;
  eventName <- match event with Some e => ret e | None => promptEventName name end ;;
  addCommandToAggregate relative name (dm_dir m) eventName.

Definition add_query_action (name : chars) (projection : option chars) : M Cli unit :=
  lift_result (validateName name) ;;;
  m <- resolveProjectionDir cwd select projection ;;
  addQueryToProjection relative name (dm_dir m).

Definition add_event_handler_action (eventName : chars) (projection : option chars) : M Cli unit :=
  lift_result (validateName eventName) ;;;
  m <- resolveProjectionDir cwd select projection ;;
  addEventHandlerToProjection relative eventName (dm_dir m).
End commands.

(** ** Runs that cannot fail *)

Definition present (ps : list path) (c : Cli) : Prop := forall p, p ∈ ps -> is_Some (cl_files c !! p).

(** A run that succeeds where the files are there, and keeps them there. *)
Definition succeeds {A} (ps : list path) (m : M Cli A) : Prop :=
  forall c, present ps c -> exists a c', m c = (Ok a, c') /\ present ps c'.

Create HintDb succeeds.

Section succeeds.
Context (ps : list path).

Lemma succeeds_bind {A B} (m : M Cli A) (k : A -> M Cli B) : succeeds ps m -> (forall a, succeeds ps (k a)) -> succeeds ps (bind m k).
Proof.
  intros Hm Hk c Hc. destruct (Hm c Hc) as (a & c1 & E & H1). destruct (Hk a c1 H1) as (b & c2 & E2 & H2).
  exists b, c2. split; [by rewrite (bind_ok _ _ _ _ _ E) | done].
Qed.

Lemma succeeds_ret {A} (a : A) : succeeds ps (ret a). Proof. intros c Hc. by exists a, c. Qed.
Lemma succeeds_lift {A} (r : result A) a : r = Ok a -> succeeds ps (lift_result r). Proof. intros -> c Hc. by exists a, c. Qed.
Lemma succeeds_log line : succeeds ps (console_log line). Proof. intros c Hc. by eexists tt, _. Qed.
Lemma succeeds_if {A} (b : bool) (m m' : M Cli A) : succeeds ps m -> succeeds ps m' -> succeeds ps (if b then m else m').
Proof. by destruct b. Qed.

Lemma succeeds_write p t : succeeds ps (writeFile p t).
Proof.
  intros c Hc. eexists tt, _. split; [reflexivity |]. intros q Hq. cbn. destruct (decide (p = q)) as [<- | Hne].
  - rewrite lookup_insert_eq. by eexists.
  - rewrite lookup_insert_ne by done. by apply Hc.
Qed.

Lemma succeeds_read p : p ∈ ps -> succeeds ps (readFile p).
Proof. intros Hp c Hc. destruct (Hc p Hp) as [t E]. exists t, c. unfold readFile, bind, gets. by rewrite E. Qed.

Lemma succeeds_write_files relative dir files : succeeds ps (write_files relative dir files).
Proof.
  intros c Hc. destruct (write_files_spec relative dir files c) as [log ->]. eexists tt, _. split; [reflexivity |].
  intros p Hp. destruct (Hc p Hp) as [t Ht]. exists t. by apply written_keeps.
Qed.
End succeeds.

#[export] Hint Resolve succeeds_ret succeeds_log succeeds_write succeeds_read succeeds_write_files succeeds_if : succeeds.

Lemma succeeds_insert_before ps p marker content : p ∈ ps -> succeeds ps (insertBeforeMarker p marker content).
Proof.
  intros Hp. apply succeeds_bind; [auto with succeeds |]. intros text. destruct (inserted_before marker content text); [| auto with succeeds].
  apply succeeds_bind; auto with succeeds.
Qed.

Lemma succeeds_insert_after ps p test content : p ∈ ps -> succeeds ps (insertAfterLastMatch p test content).
Proof.
  intros Hp. apply succeeds_bind; [auto with succeeds |]. intros text. destruct (inserted_after_last test content text); [| auto with succeeds].
  apply succeeds_bind; auto with succeeds.
Qed.

Lemma succeeds_barrel ps p line : p ∈ ps -> succeeds ps (appendToBarrel p line).
Proof. intros Hp. apply succeeds_bind; auto with succeeds. Qed.

Lemma succeeds_imports ps p lines : p ∈ ps -> succeeds ps (insertImports p lines).
Proof. intros Hp. apply succeeds_bind; auto with succeeds. Qed.

Lemma succeeds_contains ps p search : p ∈ ps -> succeeds ps (fileContains p search).
Proof. intros Hp. apply succeeds_bind; auto with succeeds. Qed.

Lemma succeeds_updated ps relative p : succeeds ps (updated relative p). Proof. apply succeeds_log. Qed.

#[export] Hint Resolve succeeds_insert_before succeeds_insert_after succeeds_barrel succeeds_imports succeeds_contains succeeds_updated : succeeds.

(** The files that the commands that extend a module read. *)
Definition definition_file (dir : path) : path := (dir ++ [(string_of (tc_kebabName (buildContext (basename dir))) ++ ".ts")%string])%list.
Definition aggregate_reads (dir : path) : list path :=
  [definition_file dir; (dir ++ ["commands"; "index.ts"])%list; (dir ++ ["deciders"; "index.ts"])%list; (dir ++ ["evolvers"; "index.ts"])%list].
Definition projection_reads (dir : path) : list path :=
  [definition_file dir; (dir ++ ["queries"; "index.ts"])%list; (dir ++ ["query-handlers"; "index.ts"])%list; (dir ++ ["on-entries"; "index.ts"])%list].

Ltac read_here := first [left; reflexivity | right; read_here].
Ltac go := repeat (apply succeeds_bind; [first [solve [eapply succeeds_lift; eassumption] | auto with succeeds] | intros]); auto with succeeds.

Lemma add_command_succeeds ps relative name eventName dir :
  validateName name = Ok tt -> validateName eventName = Ok tt ->
  (forall p, p ∈ aggregate_reads dir -> p ∈ ps) -> succeeds ps (addCommandToAggregate relative name dir eventName).
Proof.
  intros Hn He Hps. assert (H1 : definition_file dir ∈ ps) by (apply Hps; read_here).
  assert (H2 : (dir ++ ["commands"; "index.ts"])%list ∈ ps) by (apply Hps; read_here).
  assert (H3 : (dir ++ ["deciders"; "index.ts"])%list ∈ ps) by (apply Hps; read_here).
  assert (H4 : (dir ++ ["evolvers"; "index.ts"])%list ∈ ps) by (apply Hps; read_here).
  unfold addCommandToAggregate, extend_definition. fold (definition_file dir). go. apply succeeds_if; go.
Qed.

Lemma add_query_succeeds ps relative name dir : validateName name = Ok tt ->
  (forall p, p ∈ projection_reads dir -> p ∈ ps) -> succeeds ps (addQueryToProjection relative name dir).
Proof.
  intros Hn Hps. assert (H1 : definition_file dir ∈ ps) by (apply Hps; read_here).
  assert (H2 : (dir ++ ["queries"; "index.ts"])%list ∈ ps) by (apply Hps; read_here).
  assert (H3 : (dir ++ ["query-handlers"; "index.ts"])%list ∈ ps) by (apply Hps; read_here).
  unfold addQueryToProjection. fold (definition_file dir). go. apply succeeds_if; go. apply succeeds_if; go.
Qed.

Lemma add_event_handler_succeeds ps relative eventName dir : validateName eventName = Ok tt ->
  (forall p, p ∈ projection_reads dir -> p ∈ ps) -> succeeds ps (addEventHandlerToProjection relative eventName dir).
Proof.
  intros Hn Hps. assert (H1 : definition_file dir ∈ ps) by (apply Hps; read_here).
  assert (H2 : (dir ++ ["on-entries"; "index.ts"])%list ∈ ps) by (apply Hps; read_here).
  unfold addEventHandlerToProjection. fold (definition_file dir). go. apply succeeds_if; go. apply succeeds_if; go.
Qed.

(** ** What a project can be extended with *)

(** The directories of the aggregate and of the projection of a project, below its root. *)
Definition project_aggregate (kebab : string) : path := (STRUCTURE_PATHS aggregate_kind ++ [kebab])%list.
Definition project_projection (kebab : string) : path := (STRUCTURE_PATHS projection_kind ++ [kebab])%list.

Lemma kebab_of_basename (dir : path) raw :
  basename (dir ++ [string_of (tc_kebabName (buildContext raw))])%list = tc_kebabName (buildContext raw).
Proof. unfold basename. rewrite last_last. apply chars_of_string_of. Qed.

Lemma definition_file_of (dir : path) raw :
  definition_file (dir ++ [string_of (tc_kebabName (buildContext raw))])%list =
  (dir ++ [string_of (tc_kebabName (buildContext raw))] ++ [(string_of (tc_kebabName (buildContext raw)) ++ ".ts")%string])%list.
Proof.
  unfold definition_file. rewrite kebab_of_basename. change (tc_kebabName (buildContext raw)) with (toKebabCase raw) at 2.
  by rewrite kebab_context, <- app_assoc.
Qed.

(** The files that the extensions of an aggregate and of a projection in these directories read. *)
Definition extension_reads (k : string) : list path :=
  [(project_aggregate k ++ [(k ++ ".ts")%string])%list; (project_aggregate k ++ ["commands"; "index.ts"])%list;
   (project_aggregate k ++ ["deciders"; "index.ts"])%list; (project_aggregate k ++ ["evolvers"; "index.ts"])%list;
   (project_projection k ++ [(k ++ ".ts")%string])%list; (project_projection k ++ ["queries"; "index.ts"])%list;
   (project_projection k ++ ["query-handlers"; "index.ts"])%list; (project_projection k ++ ["on-entries"; "index.ts"])%list].

(** The paths of the files of the aggregate and of the projection of a project. *)
Definition module_paths : list (list text) :=
  (map path_texts (aggregate_parts [lit "src"; lit "domain"; lit "write-model"; lit "aggregates"; kebab] domainAggregateIndexTemplate domainAggregateTemplate)
   ++ map path_texts (projection_parts [lit "src"; lit "domain"; lit "read-model"; lit "projections"; kebab]))%list.

Lemma reads_are_modules fill : forall p, p ∈ extension_reads (fill KebabName) -> p ∈ map (map (fill_text fill)) module_paths.
Proof.
  assert (Hnth : forall n q p, nth_error module_paths n = Some q -> map (fill_text fill) q = p -> p ∈ map (map (fill_text fill)) module_paths).
  { intros n q p Hq <-. apply list_elem_of_In, in_map. by eapply nth_error_In. }
  intros p Hp. unfold extension_reads in Hp.
  repeat (apply elem_of_cons in Hp as [-> | Hp]); [..| by apply not_elem_of_nil in Hp];
    [apply (Hnth 2%nat _ _ eq_refl) | apply (Hnth 3%nat _ _ eq_refl) | apply (Hnth 5%nat _ _ eq_refl) | apply (Hnth 7%nat _ _ eq_refl)
    | apply (Hnth 10%nat _ _ eq_refl) | apply (Hnth 11%nat _ _ eq_refl) | apply (Hnth 13%nat _ _ eq_refl) | apply (Hnth 15%nat _ _ eq_refl)];
    cbn; rewrite ?append_nil_r; reflexivity.
Qed.

(** The files that the extensions read are among those of the project. *)
Lemma project_reads sort major adapter eventBus raw p :
  p ∈ extension_reads (string_of (tc_kebabName (buildContext raw))) ->
  p ∈ map fst (entries sort major (new_project adapter eventBus) (buildContext raw)).
Proof.
  intros Hp. rewrite entry_paths.
  apply (reads_are_modules (of_context (buildContext raw))), list_elem_of_In, in_map_iff in Hp as (q & <- & Hq).
  apply list_elem_of_In, in_map. unfold entry_texts, modules_of, project_modules, domain_parts.
  rewrite !map_app, !in_app_iff. apply in_app_iff in Hq as [Hq | Hq]; [right; right; right; left; exact Hq | right; right; right; right; left; exact Hq].
Qed.

(** ** A project and what is added to it *)

Inductive addition : Type := AddCommand (name event : chars) | AddQuery (name : chars) | AddEventHandler (eventName : chars).

Definition valid_addition (a : addition) : Prop :=
  match a with
  | AddCommand name event => validateName name = Ok tt /\ validateName event = Ok tt
  | AddQuery name => validateName name = Ok tt
  | AddEventHandler event => validateName event = Ok tt
  end.

Section additions.
Context (relative : path -> string) (select : list DiscoveredModule -> M Cli path) (input : string -> string -> M Cli string).

(** The command lines [noddde add ... --aggregate spelling] and [--projection spelling], one after
    another, from the directory [cwd]. *)
Definition addition_action (cwd : path) (spelling : chars) (a : addition) : M Cli unit :=
  match a with
  | AddCommand name event => add_command_action relative cwd select input name (Some spelling) (Some event)
  | AddQuery name => add_query_action relative cwd select name (Some spelling)
  | AddEventHandler event => add_event_handler_action relative cwd select event (Some spelling)
  end.

Fixpoint additions (cwd : path) (spelling : chars) (l : list addition) : M Cli unit :=
  match l with [] => ret tt | a :: r => addition_action cwd spelling a ;;; additions cwd spelling r end.

(** The files of a project in [cwd] that the additions read. *)
Definition needed (cwd : path) (k : string) : list path := map (app cwd) (extension_reads k).

Lemma present_dir dir p c : is_Some (cl_files c !! p) -> below dir p = true -> dir_exists dir c = true.
Proof.
  intros [t Ht] Hb. apply existsb_exists. exists (p, t). split; [| done]. by apply list_elem_of_In, elem_of_map_to_list.
Qed.

Lemma below_app dir x r : below dir (dir ++ x :: r)%list = true.
Proof. unfold below. rewrite take_app_length, length_app. cbn. rewrite bool_decide_eq_true_2 by done. apply Nat.ltb_lt. lia. Qed.

Lemma present_weaken ps ps' c : present ps c -> (forall p, p ∈ ps' -> p ∈ ps) -> present ps' c.
Proof. intros H Hin p Hp. by apply H, Hin. Qed.

Lemma succeeds_resolve ps what command k cwd (spelling : chars) {B} (f : DiscoveredModule -> M Cli B) :
  let dir := (cwd ++ STRUCTURE_PATHS k ++ [string_of (toKebabCase spelling)])%list in
  spelling <> [] -> definition_file dir ∈ ps -> (forall m, dm_dir m = dir -> succeeds ps (f m)) ->
  succeeds ps (bind (resolve_dir what command k cwd select (Some spelling)) f).
Proof.
  intros dir Hne Hx Hf c Hc. destruct spelling as [| s spelling]; [done |].
  set (m := {| dm_name := string_of (toPascalCase (s :: spelling)); dm_dir := (cwd ++ STRUCTURE_PATHS k ++ [string_of (toKebabCase (s :: spelling))])%list |}).
  destruct (Hf m eq_refl c Hc) as (a & c' & E & H'). exists a, c'. split; [| done].
  rewrite (bind_ok _ _ _ m c); [done |]. unfold resolve_dir, bind, gets. cbv beta iota zeta. rewrite <- app_assoc.
  fold dir. unfold accessible. by rewrite (present_dir dir _ c (Hc _ Hx) (below_app _ _ _)), orb_true_r.
Qed.

(** The files are read where the definition is found. *)
Lemma aggregate_reads_needed cwd raw p :
  let k := string_of (tc_kebabName (buildContext raw)) in
  p ∈ aggregate_reads (cwd ++ STRUCTURE_PATHS aggregate_kind ++ [k])%list -> p ∈ needed cwd k.
Proof.
  intros k. unfold aggregate_reads. rewrite app_assoc. unfold k. rewrite definition_file_of. fold k. rewrite <- !app_assoc. intros Hp.
  repeat (apply elem_of_cons in Hp as [-> | Hp]); [..| by apply not_elem_of_nil in Hp]; unfold needed; apply list_elem_of_In; cbn; rewrite <- ?app_assoc; tauto.
Qed.

Lemma projection_reads_needed cwd raw p :
  let k := string_of (tc_kebabName (buildContext raw)) in
  p ∈ projection_reads (cwd ++ STRUCTURE_PATHS projection_kind ++ [k])%list -> p ∈ needed cwd k.
Proof.
  intros k. unfold projection_reads. rewrite app_assoc. unfold k. rewrite definition_file_of. fold k. rewrite <- !app_assoc. intros Hp.
  repeat (apply elem_of_cons in Hp as [-> | Hp]); [..| by apply not_elem_of_nil in Hp]; unfold needed; apply list_elem_of_In; cbn; rewrite <- ?app_assoc; tauto.
Qed.

Lemma addition_succeeds cwd raw spelling a : spelling <> [] -> toKebabCase spelling = tc_kebabName (buildContext raw) -> valid_addition a ->
  succeeds (needed cwd (string_of (tc_kebabName (buildContext raw)))) (addition_action cwd spelling a).
Proof.
  intros Hne Hk Ha. pose proof (aggregate_reads_needed cwd raw) as Hagg. pose proof (projection_reads_needed cwd raw) as Hproj. cbv zeta in *.
  rewrite <- Hk in *.
  destruct a as [name event | name | event]; cbn in Ha |- *; [destruct Ha as [Ha He] | |];
    (apply succeeds_bind; [by apply succeeds_lift with tt |]); intros _;
    (apply succeeds_resolve; [done | first [apply Hagg; left; reflexivity | apply Hproj; left; reflexivity] |]); intros m ->.
  - exact (add_command_succeeds _ relative name event _ Ha He Hagg).
  - by apply add_query_succeeds.
  - by apply add_event_handler_succeeds.
Qed.

Lemma additions_succeed cwd raw spelling l : spelling <> [] -> toKebabCase spelling = tc_kebabName (buildContext raw) ->
  Forall valid_addition l -> succeeds (needed cwd (string_of (tc_kebabName (buildContext raw)))) (additions cwd spelling l).
Proof.
  intros Hne Hk. induction 1 as [| a l Ha _ IH]; [apply succeeds_ret |]. apply succeeds_bind; [by apply addition_succeeds |]. by intros _.
Qed.

(** C32. What [noddde new project] leaves can be extended: after a project has been generated, under
    any name that the tool accepts, every sequence of [noddde add command --aggregate],
    [noddde add query --projection] and [noddde add event-handler --projection], run from the root of
    the project with any spelling of the project's name that has the same kebab case, finds the
    directories, the definition modules and the barrels that it works on and ends without an error,
    whatever was added before, and whichever adapter and bus were chosen. *)
Theorem project_can_be_extended sort major adapter eventBus name base c c' spelling l :
  run relative sort major (new_project adapter eventBus) name base c = (Ok tt, c') ->
  spelling <> [] -> toKebabCase spelling = toKebabCase name -> Forall valid_addition l ->
  exists c'', additions (base ++ [string_of (toKebabCase name)])%list spelling l c' = (Ok tt, c'').
Proof.
  intros Hrun Hne Hk Hl. destruct (run_spec relative sort major (new_project adapter eventBus) name base c) as [log E].
  rewrite E in Hrun. destruct (validateName name); [| done]. apply (f_equal snd) in Hrun. cbn [snd] in Hrun. subst c'.
  change (toKebabCase name) with (tc_kebabName (buildContext name)) in *.
  edestruct (additions_succeed (base ++ [string_of (tc_kebabName (buildContext name))])%list name spelling l Hne Hk Hl)
    as ([] & c'' & Ha & _); [| by exists c''].
  intros p Hp. unfold needed in Hp. apply list_elem_of_In, in_map_iff in Hp as (q & <- & Hq). cbn [cl_files].
  apply list_elem_of_In, (project_reads sort major adapter eventBus), list_elem_of_In, in_map_iff in Hq as ([q' t] & <- & Hin).
  apply (written_present _ _ _ _ t). by apply list_elem_of_In.
Qed.
End additions.

Lemma project_can_be_extended_witness :
  let proj := new_project drizzle_persistence kafka_bus in
  exists c' c'',
    run slashed (fun m => m) 1 proj (chars_of "BankAccount") ["work"] empty_cli = (Ok tt, c') /\
    additions slashed (fun _ => ret []) (fun _ d => ret d) ["work"; "bank-account"] (chars_of "bank-account")
      [AddCommand (chars_of "OpenAccount") (chars_of "AccountOpened"); AddQuery (chars_of "GetBalance"); AddEventHandler (chars_of "AccountOpened")] c' = (Ok tt, c'').
Proof.
  intros proj. destruct (run_spec slashed (fun m => m) 1 proj (chars_of "BankAccount") ["work"] empty_cli) as [log Hrun].
  change (validateName (chars_of "BankAccount")) with (@Ok unit tt) in Hrun. cbv iota in Hrun.
  destruct (project_can_be_extended slashed (fun _ => ret []) (fun _ d => ret d) (fun m => m) 1 drizzle_persistence kafka_bus
    (chars_of "BankAccount") ["work"] empty_cli _ (chars_of "bank-account")
    [AddCommand (chars_of "OpenAccount") (chars_of "AccountOpened"); AddQuery (chars_of "GetBalance"); AddEventHandler (chars_of "AccountOpened")] Hrun)
    as [c'' Hadd].
  - done.
  - reflexivity.
  - repeat constructor.
  - eexists _, c''. split; [exact Hrun | exact Hadd].
Defined.
