(* ===== verification/NestModule.v ===== *)
(** The NestJS module (packages/integrations/nestjs/src/noddde.module.ts): the providers and
    the exports of [forRoot] and [forRootAsync], the service that ties the domain to the life
    of the application, and the interceptor that runs a handler in a metadata context.

    The injection container of NestJS and the observables of RxJS are not modelled: a
    container is any assignment of instances to tokens that calls each provider's factory with
    the instances of the tokens it injects; an observable is the effect of subscribing to it.
    The domain is seen through an interface, which the domain of [Assembly.v] implements. *)
From S2P Require Import Prelude JsMap CoreTypes Host Stores Outbox UnitOfWork Metadata Concurrency Buses Projection Domain Assembly.

(** ** What the module uses of a domain *)

Class DomainApi (W D B : Type) : Type := {
  da_startOutboxRelay : D -> M W unit;
  da_stopOutboxRelay : D -> M W unit;
  da_shutdown : D -> M W unit;
  da_commandBus : D -> B;
  da_queryBus : D -> B;
  da_eventBus : D -> B
}.

(** The relay of a domain, as its operations see it. *)
Class RelayLaws (W D B : Type) `{DomainApi W D B} : Type := {
  rl_running : D -> W -> bool;      (** the polling loop is on *)
  rl_outbox : D -> bool;            (** an outbox is configured *)
  rl_start : forall d w, exists w', da_startOutboxRelay d w = (Ok tt, w') /\ rl_running d w' = rl_outbox d;
  rl_stop : forall d w, exists w', da_stopOutboxRelay d w = (Ok tt, w') /\ rl_running d w' = false
}.

(** ** Tokens, providers, modules *)

Inductive token : Type :=
| NODDDE_DOMAIN | NODDDE_COMMAND_BUS | NODDDE_QUERY_BUS | NODDDE_EVENT_BUS | NODDDE_START_OUTBOX_RELAY
| NodddeService_class | NodddeMetadataInterceptor_class
| OtherToken (name : string).
#[export] Instance token_eq_dec : EqDecision token. Proof. solve_decision. Defined.

Section nest.
Context {W Tx D B V Def Wiring Ctx Mod : Type} `{!DomainApi W D B}.
Context (wireDomain : Def -> Wiring -> M W D) (no_wiring : Wiring).

(** [NodddeService] and [NodddeMetadataInterceptor]. *)
Record NodddeService : Type := { ns_domain : D; ns_startOutboxRelay : bool }.
Record NodddeMetadataInterceptor : Type := { nmi_extractor : Ctx -> MetadataContext; nmi_domain : D }.

(** What a container holds under a token. *)
Inductive instance : Type :=
| DomainInstance (d : D)
| BusInstance (b : B)
| FlagInstance (b : bool)
| ServiceInstance (s : NodddeService)
| InterceptorInstance (i : NodddeMetadataInterceptor)
| OtherInstance (v : V).

(** A provider, whether it has a factory, a value or a class. *)
Record provider : Type := {
  pr_provide : token;
  pr_inject : list token;
  pr_useFactory : list instance -> M W instance
}.

Record DynamicModule : Type := {
  nm_imports : list Mod;
  nm_providers : list provider;
  nm_exports : list token
}.

Record NodddeModuleOptions : Type := {
  mo_definition : Def;
  mo_wiring : option Wiring;
  mo_exposeBuses : option bool;
  mo_startOutboxRelay : option bool
}.

Record NodddeModuleAsyncOptions : Type := {
  ma_imports : option (list Mod);
  ma_inject : option (list token);
  ma_useFactory : list instance -> M W NodddeModuleOptions;
  ma_exposeBuses : option bool;
  ma_startOutboxRelay : option bool
}.

Definition not_injected {A} : M W A := throw (TypeError "Cannot read properties of undefined").

Definition bus_provider (t : token) (bus : D -> B) : provider :=
  {| pr_provide := t; pr_inject := [NODDDE_DOMAIN];
     pr_useFactory := fun args => match args with [DomainInstance d] => ret (BusInstance (bus d)) | _ => not_injected end |}.

(** [exposeBuses ? [...] : []], for the providers and for the exports. *)
Definition busProviders (exposeBuses : option bool) : list provider :=
  if or_default exposeBuses false
  then [bus_provider NODDDE_COMMAND_BUS da_commandBus; bus_provider NODDDE_QUERY_BUS da_queryBus;
        bus_provider NODDDE_EVENT_BUS da_eventBus]
  else [].

Definition bus_exports (exposeBuses : option bool) : list token :=
  if or_default exposeBuses false then [NODDDE_COMMAND_BUS; NODDDE_QUERY_BUS; NODDDE_EVENT_BUS] else [].

Definition startOutboxRelayProvider (start : option bool) : provider :=
  {| pr_provide := NODDDE_START_OUTBOX_RELAY; pr_inject := [];
     pr_useFactory := fun _ => ret (FlagInstance (or_default start true)) |}.

(** The class [NodddeService], with the tokens that its constructor injects. *)
Definition service_provider : provider :=
  {| pr_provide := NodddeService_class; pr_inject := [NODDDE_DOMAIN; NODDDE_START_OUTBOX_RELAY];
     pr_useFactory := fun args => match args with
       | [DomainInstance d; FlagInstance b] => ret (ServiceInstance {| ns_domain := d; ns_startOutboxRelay := b |})
       | _ => not_injected
       end |}.

Definition forRoot (options : NodddeModuleOptions) : DynamicModule :=
  let domainProvider := {|
    pr_provide := NODDDE_DOMAIN; pr_inject := [];
    pr_useFactory := fun _ => d <- wireDomain (mo_definition options) (or_default (mo_wiring options) no_wiring) ;; ret (DomainInstance d) |} in
  {| nm_imports := [];
     nm_providers := [domainProvider; startOutboxRelayProvider (mo_startOutboxRelay options); service_provider]
                     ++ busProviders (mo_exposeBuses options);
     nm_exports := NODDDE_DOMAIN :: bus_exports (mo_exposeBuses options) |}.

Definition forRootAsync (options : NodddeModuleAsyncOptions) : DynamicModule :=
  let domainProvider := {|
    pr_provide := NODDDE_DOMAIN; pr_inject := or_default (ma_inject options) [];
    pr_useFactory := fun args =>
      resolved <- ma_useFactory options args ;;
      d <- wireDomain (mo_definition resolved) (or_default (mo_wiring resolved) no_wiring) ;;
      ret (DomainInstance d) |} in
  {| nm_imports := or_default (ma_imports options) [];
     nm_providers := [domainProvider; startOutboxRelayProvider (ma_startOutboxRelay options); service_provider]
                     ++ busProviders (ma_exposeBuses options);
     nm_exports := NODDDE_DOMAIN :: bus_exports (ma_exposeBuses options) |}.

(** ** The service *)

Definition onApplicationBootstrap (s : NodddeService) : M W unit :=
  if ns_startOutboxRelay s then da_startOutboxRelay (ns_domain s) else ret tt.

Definition onApplicationShutdown (s : NodddeService) : M W unit :=
  da_stopOutboxRelay (ns_domain s) ;;;
  da_shutdown (ns_domain s).

(** ** The interceptor *)

(** The three callbacks of an observer. *)
Record Observer : Type := {
  next : V -> M (Exec W Tx) unit;
  error : js_error -> M (Exec W Tx) unit;
  complete : M (Exec W Tx) unit
}.

(** Subscribing with an observer: what runs, and when the observer is called. *)
Definition Observable : Type := Observer -> M (Exec W Tx) unit.

Definition withExtractor (extractor : Ctx -> MetadataContext) : provider :=
  {| pr_provide := NodddeMetadataInterceptor_class; pr_inject := [NODDDE_DOMAIN];
     pr_useFactory := fun args => match args with
       | [DomainInstance d] => ret (InterceptorInstance {| nmi_extractor := extractor; nmi_domain := d |})
       | _ => not_injected
       end |}.

(** [void promise]: nobody waits for the promise, so an error that rejects it is left to the
    process. *)
Definition void_promise (unhandled : js_error -> M (Exec W Tx) unit) (m : M (Exec W Tx) unit) : M (Exec W Tx) unit :=
  try_catch m unhandled.

Definition intercept (unhandled : js_error -> M (Exec W Tx) unit) (i : NodddeMetadataInterceptor) (context : Ctx)
    (handle : M (Exec W Tx) Observable) : Observable :=
  let metadata := nmi_extractor i context in
  fun subscriber =>
    void_promise unhandled
      (withMetadataContext metadata
        (source <- handle ;;
         source {| next := fun v => next subscriber v; error := fun e => error subscriber e; complete := complete subscriber |})).
End nest.
Arguments provider : clear implicits.
Arguments DynamicModule : clear implicits.

(** ** The domain of the engine *)

Section running_domain.
Context {W Tx : Type} (host : lens W Host) (bus : lens W EventBus.bus) (gate : lens W Gate) (relay : lens W RelayState)
  (injectTraceContext : option (M W TraceContext)) (log_failure : nat -> event -> js_error -> M (Exec W Tx) unit)
  (wiring : DomainWiring W Tx) (definition : Infrastructure W Tx -> Init.DomainDefinition W Tx) (depth fuel : nat).

(** [shutdown], once the operations in flight have ended or its deadline has passed. *)
Definition domain_shutdown (rd : @RunningDomain W Tx) : M W unit :=
  started <- zoom gate shutdown ;;
  match started with
  | AlreadyStarted => ret tt
  | AwaitsDrain | Proceeds => close_domain host bus relay injectTraceContext log_failure wiring definition rd depth fuel
  end.

#[export] Instance running_domain_api : DomainApi W (@RunningDomain W Tx) (component W) := {
  da_startOutboxRelay := startOutboxRelay relay;
  da_stopOutboxRelay := stopOutboxRelay relay;
  da_shutdown := domain_shutdown;
  da_commandBus := fun rd => cb_commandBus (rs_cqrsInfra (rd_resolved rd));
  da_queryBus := fun rd => cb_queryBus (rs_cqrsInfra (rd_resolved rd));
  da_eventBus := fun rd => cb_eventBus (rs_cqrsInfra (rd_resolved rd))
}.

#[export] Instance running_domain_relay `{!LensLaws relay} : RelayLaws W (@RunningDomain W Tx) (component W).
Proof.
  refine {| rl_running := fun rd w => is_some (rs_outboxStore (rd_resolved rd)) && rl_timer (lget relay w);
            rl_outbox := fun rd => is_some (rs_outboxStore (rd_resolved rd)) |}.
  - intros rd w. cbn. unfold startOutboxRelay. destruct (rs_outboxStore (rd_resolved rd)); [| by exists w].
    unfold start, bind, gets. destruct (rl_timer (lget relay w)) eqn:E; eexists; (split; [reflexivity |]); cbn; [done | by rewrite lget_lset].
  - intros rd w. cbn. unfold stopOutboxRelay. destruct (rs_outboxStore (rd_resolved rd)); [| by exists w].
    unfold stop, bind, gets. destruct (rl_timer (lget relay w)) eqn:E; eexists; (split; [reflexivity |]); cbn; [by rewrite lget_lset | done].
Defined.
End running_domain.

(** ** Containers *)

Section containers.
Context {W Tx D B V Def Wiring Ctx Mod : Type} `{!DomainApi W D B}.
Context (wireDomain : Def -> Wiring -> M W D) (no_wiring : Wiring).
Abbreviation held := (@instance D B V Ctx).
Abbreviation provided := (provider W D B V Ctx).
Abbreviation configured := (DynamicModule W D B V Ctx Mod).

(** A container that has started a module: the instance of each provider is what its factory
    made of the instances that it injects. *)
Definition instantiates (container : token -> option held) (p : provided) : Prop := exists (args : list held) (i : held) (w w' : W),
  Forall2 (fun t a => container t = Some a) (pr_inject p) args /\
  pr_useFactory p args w = (Ok i, w') /\ container (pr_provide p) = Some i.

Definition started (container : token -> option held) (m : configured) : Prop := forall p, p ∈ nm_providers m -> instantiates container p.

(** What a container holds for the module: the domain, the service, and the buses of the domain
    where they are exposed. *)
Definition holds (container : token -> option held) (d : D) (exposeBuses startOutboxRelay : option bool) : Prop :=
  container NODDDE_DOMAIN = Some (DomainInstance d) /\
  container NodddeService_class = Some (ServiceInstance {| ns_domain := d; ns_startOutboxRelay := or_default startOutboxRelay true |}) /\
     (exposeBuses = Some true ->
     container NODDDE_COMMAND_BUS = Some (BusInstance (da_commandBus d)) /\
     container NODDDE_QUERY_BUS = Some (BusInstance (da_queryBus d)) /\
     container NODDDE_EVENT_BUS = Some (BusInstance (da_eventBus d))).

(** The providers besides that of the domain. *)
Definition rest (exposeBuses startOutboxRelay : option bool) : list provided :=
  [startOutboxRelayProvider startOutboxRelay; service_provider] ++ busProviders exposeBuses.

Lemma rest_holds container d expose start :
  container NODDDE_DOMAIN = Some (DomainInstance d) -> (forall p, p ∈ rest expose start -> instantiates container p) ->
  holds container d expose start.
Proof.
  intros Hd Hall. split; [done |].
  destruct (Hall (startOutboxRelayProvider start) ltac:(by left)) as (args & i & w & w' & _ & Hf & Hc).
  injection Hf as <- _. cbn in Hc. split.
  - destruct (Hall service_provider ltac:(right; by left)) as (args' & i & w1 & w1' & Hargs & Hs & Hi).
    cbn in Hargs, Hi. rewrite Hi.
    inversion Hargs as [| ? a ? l Ha Hl]; subst. inversion Hl as [| ? a' ? l' Ha' Hl']; subst. inversion Hl'; subst.
    rewrite Hd in Ha. rewrite Hc in Ha'. injection Ha as <-. injection Ha' as <-. cbn in Hs. by injection Hs as <-.
  - intros ->.
    assert (Hbus : forall t f, bus_provider t f ∈ rest (Some true) start -> container t = Some (BusInstance (f d))).
    { intros t f Hin. destruct (Hall _ Hin) as (l & i & w1 & w1' & Hl & Hb & Hi). cbn in Hl, Hi. rewrite Hi.
      inversion Hl as [| ? a ? l' Ha Hl']; subst. inversion Hl'; subst. rewrite Hd in Ha. injection Ha as <-.
      cbn in Hb. by injection Hb as <-. }
    split; [| split]; apply Hbus; unfold rest; apply elem_of_app; right; cbn; [by left | right; by left | right; right; by left].
Qed.

Ltac each_of H := repeat (apply elem_of_cons in H as [-> | H]); try (by apply not_elem_of_nil in H).
Ltac among := apply (bool_decide_eq_true_1 _); reflexivity.

(** A module provides each token once, exports what it provides, and exposes the buses only when
    asked to. *)
Lemma module_tokens (p : provided) expose start :
  pr_provide p = NODDDE_DOMAIN ->
  NoDup (map pr_provide (p :: rest expose start)) /\
  (forall t, t ∈ NODDDE_DOMAIN :: bus_exports expose -> t ∈ map pr_provide (p :: rest expose start)) /\
     (expose <> Some true -> NODDDE_COMMAND_BUS ∉ map pr_provide (p :: rest expose start)) /\
     (forall q t, q ∈ rest expose start -> t ∈ pr_inject q -> t ∈ map pr_provide (p :: rest expose start)).
Proof.
  intros Hp. cbn [map]. rewrite Hp.
  destruct expose as [[] |]; cbn; (split; [apply (bool_decide_eq_true_1 _); reflexivity |]); (split; [| split]).
  all: try (intros t Ht; each_of Ht; among).
  all: try (intros q t Hq Ht; each_of Hq; cbn in Ht; each_of Ht; among).
  all: intros H; first [by destruct H | apply (bool_decide_eq_true_1 _); reflexivity].
Qed.

(** [forRoot], in an application that has started: the domain is the one that [wireDomain] made
    of the definition and the wiring of the options; the service that starts and stops it holds
    that domain and the setting of the relay, which is on by default; the buses, where they are
    exposed, are those of that domain; every token that is exported or injected is provided. *)
Theorem forRoot_started container (o : NodddeModuleOptions) :
  let m : configured := forRoot wireDomain no_wiring o in
  started container m ->
  (exists d w w', wireDomain (mo_definition o) (or_default (mo_wiring o) no_wiring) w = (Ok d, w') /\
     holds container d (mo_exposeBuses o) (mo_startOutboxRelay o)) /\
  NoDup (map pr_provide (nm_providers m)) /\
  (forall t, t ∈ nm_exports m -> t ∈ map pr_provide (nm_providers m)) /\
  (mo_exposeBuses o <> Some true -> NODDDE_COMMAND_BUS ∉ map pr_provide (nm_providers m)) /\
  (forall p t, p ∈ nm_providers m -> t ∈ pr_inject p -> t ∈ map pr_provide (nm_providers m)).
Proof.
  intros m Hm. destruct o as [def wir expose start]. cbn in *. unfold m in *.
  pose proof (module_tokens _ expose start (eq_refl : pr_provide (List.hd service_provider (nm_providers m)) = NODDDE_DOMAIN)) as (H1 & H2 & H3 & H4).
  split; [| split; [exact H1 | split; [exact H2 | split; [exact H3 |]]]].
  - destruct (Hm _ ltac:(by left)) as (args & i & w & w' & _ & Hf & Hc). cbn in Hf, Hc.
    apply bind_inv_ok in Hf as (d & w1 & Hw & [= <- <-]). exists d, w, w1. split; [done |].
    apply rest_holds; [done |]. intros p Hp. apply Hm. by right.
  - intros p t Hp Ht. apply elem_of_cons in Hp as [-> | Hp]; [by apply not_elem_of_nil in Ht | by apply (H4 p)].
Qed.

(** [forRootAsync]: the same, with the definition and the wiring that the factory returned for the
    instances of the tokens it injects.  What the factory returns for [exposeBuses] and
    [startOutboxRelay] has no effect: the module is configured before it is called. *)
Theorem forRootAsync_started container (o : NodddeModuleAsyncOptions) :
  let m : configured := forRootAsync wireDomain no_wiring o in
  started container m ->
  (exists args resolved w1 w2 d w3, Forall2 (fun t a => container t = Some a) (or_default (ma_inject o) []) args /\
     ma_useFactory o args w1 = (Ok resolved, w2) /\
     wireDomain (mo_definition resolved) (or_default (mo_wiring resolved) no_wiring) w2 = (Ok d, w3) /\
     holds container d (ma_exposeBuses o) (ma_startOutboxRelay o)) /\
  NoDup (map pr_provide (nm_providers m)) /\
  (forall t, t ∈ nm_exports m -> t ∈ map pr_provide (nm_providers m)) /\
  (ma_exposeBuses o <> Some true -> NODDDE_COMMAND_BUS ∉ map pr_provide (nm_providers m)).
Proof.
  intros m Hm. destruct o as [imports inject factory expose start]. cbn in *. unfold m in *.
  pose proof (module_tokens _ expose start (eq_refl : pr_provide (List.hd service_provider (nm_providers m)) = NODDDE_DOMAIN)) as (H1 & H2 & H3 & _).
  split; [| split; [exact H1 | split; [exact H2 | exact H3]]].
  destruct (Hm _ ltac:(by left)) as (args & i & w & w' & Ha & Hf & Hc). cbn in Ha, Hf, Hc.
  apply bind_inv_ok in Hf as (resolved & w1 & Hr & Hf). apply bind_inv_ok in Hf as (d & w2 & Hw & [= <- <-]).
  exists args, resolved, w, w1, d, w2. repeat (split; [done |]). apply rest_holds; [done |]. intros p Hp. apply Hm. by right.
Qed.
End containers.

(** ** The life of the application *)

Section lifecycle.
Context {W D B : Type} `{!DomainApi W D B} `{!RelayLaws W D B}.

(** The relay polls between the bootstrap and the shutdown of the application when there is an
    outbox and it was not switched off; the domain is shut down with the relay stopped, whatever
    the state it is found in. *)
Theorem service_lifecycle (s : NodddeService (D := D)) (w : W) :
  (rl_running (ns_domain s) w = false ->
   exists w', onApplicationBootstrap s w = (Ok tt, w') /\ rl_running (ns_domain s) w' = ns_startOutboxRelay s && rl_outbox (ns_domain s)) /\
  (exists w', rl_running (ns_domain s) w' = false /\ onApplicationShutdown s w = da_shutdown (ns_domain s) w').
Proof.
  split.
  - intros Hoff. unfold onApplicationBootstrap. destruct (ns_startOutboxRelay s); [apply rl_start | by exists w].
  - destruct (rl_stop (ns_domain s) w) as (w' & E & Hw'). exists w'. split; [done |].
    unfold onApplicationShutdown. by rewrite (bind_ok _ _ _ _ _ E).
Qed.
End lifecycle.

Section interception.
Context {W Tx D V Ctx : Type}.

(** A request that goes through the interceptor: the handler runs, and tells the subscriber what
    it would tell it without the interceptor, with the metadata that the extractor found; the
    caller has its own context back; an error that the handler throws in place of sending it does
    not reach the subscriber. *)
Theorem intercept_scope unhandled (i : NodddeMetadataInterceptor (D := D) (Ctx := Ctx)) context
    (handle : M (Exec W Tx) (Observable (V := V))) subscriber (s : Exec W Tx) :
  intercept unhandled i context handle subscriber s =
  let '(r, s') := (source <- handle ;; source subscriber) (set_meta (Some (nmi_extractor i context)) s) in
  match r with
  | Ok _ => (Ok tt, set_meta (ex_meta s) s')
  | Err e => unhandled e (set_meta (ex_meta s) s')
  end.
Proof.
  unfold intercept, void_promise, withMetadataContext, run_with_meta, try_catch. destruct subscriber as [n e c]. cbn [next error complete].
  by destruct (bind handle _ _) as [[[] | err] s'].
Qed.
End interception.

(** What the factory of [forRootAsync] returns for [exposeBuses] does not expose the buses. *)
Example factory_settings_ignored :
  let options : NodddeModuleAsyncOptions (W := unit) (D := unit) (B := unit) (V := unit) (Def := unit) (Wiring := unit) (Ctx := unit) (Mod := unit) :=
    {| ma_imports := None; ma_inject := None; ma_exposeBuses := None; ma_startOutboxRelay := None;
       ma_useFactory := fun _ => ret {| mo_definition := tt; mo_wiring := None; mo_exposeBuses := Some true; mo_startOutboxRelay := Some false |} |} in
  let api : DomainApi unit unit unit :=
    {| da_startOutboxRelay := fun _ => ret tt; da_stopOutboxRelay := fun _ => ret tt; da_shutdown := fun _ => ret tt;
       da_commandBus := id; da_queryBus := id; da_eventBus := id |} in
  let m := forRootAsync (fun _ _ => ret tt) tt options in
  map pr_provide (nm_providers m) = [NODDDE_DOMAIN; NODDDE_START_OUTBOX_RELAY; NodddeService_class] /\ nm_exports m = [NODDDE_DOMAIN].
Proof. split; reflexivity. Qed.
